(* ===== verification/_CoqProject ===== *)
-Q . S2P
Prelude.v
GoText.v
Path.v
Acl.v
IpAddr.v
PrefixIndex.v
IpAccess.v
ProxyTrust.v
Heap.v
ExpiryStore.v
RateLimit.v
Sandbox.v
Pipeline.v
PipelineFacts.v
PipelineSafety.v
PipelineExamples.v
Sha256.v
ControlState.v
JsonValid.v
ControlFacts.v
ControlSafety.v
Coordinator.v
CoordinatorSafety.v
Startup.v
StartupSafety.v
StartupHealth.v
RaftFsm.v
RaftFsmSafety.v
PgStore.v
Json.v
Approval.v
ApprovalPersistence.v
ApprovalGate.v
ApprovalGateFacts.v
ApprovalSafety.v
ApprovalAudit.v
ApprovalWorkflow.v
Tokens.v
TokenPersistence.v
NetTarget.v
NetLease.v
NetLeaseFacts.v
ApprovalExamples.v
TokenExamples.v
NetLeaseExamples.v
ControlExamples.v
StartupExamples.v
Cwedp.v
CwedpBroker.v
CwedpGuard.v
CwedpSafety.v
CwedpPg.v
CwedpDelivery.v
CwedpExamples.v
JsonDecode.v
CrpManifest.v
CrpVersion.v
CrpTrust.v
CrpTrustSafety.v
CrpImport.v
CrpRuntime.v
CrpRuntimeSafety.v
CrpRuntimeLoad.v
CrpExamples.v
TimeText.v
JsonReads.v
AuditEvent.v
AuditDecode.v
AuditJournal.v
AuditSpool.v
AuditRuntime.v
AuditRuntimeFacts.v
AuditSystem.v
AuditSystemSafety.v
AuditExamples.v
TimeClock.v
Ntp.v
TimeSync.v
TimeService.v
TimeExamples.v
