(* ===== verification/Prelude.v ===== *)
(** * CheeseWAF: a verified core

    CheeseWAF is a web application firewall with its own control plane, written
    in Go. A request comes in through the reverse proxy, its path is
    normalized, its client address is taken from the trusted forwarding
    headers, and a pipeline of detectors (address rules, access rules, rate
    limits, decoders, a semantic analyzer) decides whether it passes. A cluster
    of such nodes replicates its configuration; every sensitive change goes
    through an approval gate; plugins reach the network only through leases
    that the gate backs; releases are distributed by brokers that verify them,
    admitted on a quorum of signatures, and installed by a runtime store that
    can roll them back; security events are recorded in a hash-chained, signed
    audit stream.

    This development models the decision-making code of these parts as
    functions, computations and transition systems, and proves what they
    promise. Names follow the code: [ProxyTrust.ClientIP] is [ClientIP] of
    internal/proxytrust/policy.go. Paths below are under src/internal/.

    ** Conventions

    A fallible Go function returns [result E T] (Prelude) or [option] of an
    error; an early return is [return r when b ;; k]. Strings are byte strings,
    runes and machine integers are [Z] with their wrap-around ([u32], [u64],
    [i64]) written where the code can reach it, times are nanoseconds since
    Go's zero time. A mutex-protected method is one step; a method that
    releases its mutex is several. What the code calls but does not contain
    (databases, Raft, the clock, detectors, random bytes) is an argument, and
    every theorem holds for all its values that satisfy the stated hypotheses.
    The standard library is modelled as far as it is used: text and Unicode
    (GoText), net/netip (IpAddr), container/heap (Heap), encoding/json and base64
    (Json, JsonValid, JsonDecode), SHA-256, MD5 and
    SHA-1 (Sha256), times with monotonic readings (TimeClock).

    ** The request path

    - Path: engine/path.go. Decoding rounds, cleaning, routing views.
      [normalized_path_safe] bounds what a normalized path can contain.
    - Acl: protection/acl/policy.go with engine/rules/rule.go's parsers.
    - IpAddr, PrefixIndex, IpAccess: protection/ip/blacklist.go,
      prefix_index.go, access.go. [access_tables_exact] compares the lookup
      tables with a scan of all rules.
    - ProxyTrust: proxytrust/policy.go. [client_prefix_irrelevant]: a client
      cannot choose its address by what it sends before the proxies' headers.
    - Heap, ExpiryStore, RateLimit: protection/ratelimit/limiter.go. Buckets
      are shared objects in a store; the class [Bucket] is what a limiter
      provides, the heap and the map are proved to agree once for all.
    - Sandbox: engine/site_admission.go and engine/sandbox.go. [guard_step] is
      the transition system of callers, workers and permits; a guarded call
      refines [guard_result], and every pool drains.
    - Pipeline, PipelineFacts, PipelineSafety: engine/pipeline.go, on the
      abstract guard of Sandbox. [Env] is everything the scheduler and the
      detectors may do; the theorems say that what passes was analysed to the
      end, that a block is never lost, and that the concurrent pipeline equals
      a sequential reference. PipelineExamples has the witnesses.

    ** The control plane

    - ControlState, ControlFacts, ControlSafety: controlplane/state.go, the
      state machine of leaderships, proposals, fences, nonces and freezes as a
      transition system ([Op], [step]), with its invariants by induction on
      runs.
    - Coordinator, CoordinatorSafety: the pure checks of
      controlplane/coordinator.go and startup.go, and coordinator.go as computations over an
      environment that answers each call from the history of all calls; a
      program logic gives what every history satisfies (consensus before the
      durable store, freezing on failure).
    - Startup, StartupSafety, StartupHealth: startup.go, [Bootstrap] with its
      recoveries: what a start that reports ready has seen, that a failed one
      freezes, and that a healthy one succeeds.
    - RaftFsm, RaftFsmSafety: controlplane/nativeraft/runtime.go, what a node
      does with log entries, refined to a deterministic view of the log.
    - PgStore: controlplane/postgres/store.go, both tables and the transactions
      on them, failed and unacknowledged ones included, and what they keep.
    - ControlExamples, StartupExamples: runs and witnesses.

    ** Approvals, tokens and leases

    - Approval, ApprovalGate, ApprovalGateFacts, ApprovalSafety, ApprovalAudit:
      approval/gate.go and roles.go. The gate's operations over any durable
      ledger; when a confirmation authorizes, that an authorization is consumed
      once, and what the audit trail proves.
    - ApprovalPersistence: approval/persistence.go, the hash-chained ledger.
      Its tamper evidence is stated modulo an exhibited SHA-256 collision.
    - ApprovalWorkflow: approval/workflow.go.
    - Tokens, TokenPersistence: tokens/manager.go and persistence.go.
    - NetTarget, NetLease, NetLeaseFacts: netlease/policy.go; [Issue]
      is split at its critical sections and interleaved with everything else.
    - ApprovalExamples, TokenExamples, NetLeaseExamples: runs and witnesses.

    ** Distribution

    - Cwedp: cwedp/protocol.go.
    - CwedpBroker: cwedp/broker.go, each operation a program ([Prog]) over its
      atomic calls ([Act]). The class [ResumeStore] is what a broker calls and
      [LawfulStore] what a store promises; pools of any number of brokers run
      any operations over one store. The in-memory store is an instance.
    - CwedpGuard: [transition_guard_exact] compares the transition guard of
      the stores with the declarative [evolves].
    - CwedpSafety: triples ([wp]) for every operation, and what every reachable
      pool satisfies: complete jobs are verified, sources change at most three
      times.
    - CwedpPg: cwedp/postgres/store.go, another instance of the interface, over
      which completion is final.
    - CwedpDelivery: total statements on the in-memory store: chunks make the
      artifact across a restart, a failover goes to an independent source.
    - CwedpExamples: runs, witnesses and four departures from the comments.

    ** Releases

    - JsonDecode: encoding/json as a strict decoder with DisallowUnknownFields:
      escapes, surrogates, field names without case, numbers, times.
    - CrpManifest, CrpVersion: crp/manifest.go. Versions are compared by a total
      preorder, so no chain of accepted upgrades goes back.
    - CrpTrust, CrpTrustSafety: crp/signatures.go, trust roots,
      quorums, rotation and revocation; ed25519.Verify is an argument.
    - CrpImport: crp/importer.go, the admission of a package and its
      fingerprints.
    - CrpRuntime: crp/runtime.go. An operation reads the disk, runs callbacks
      without a lock and commits to the disk it then finds: a function of two
      disks and of the answers of the environment. CrpRuntimeSafety has the
      cases of each operation and the steps they make, the
      atomicity of transitions, the confirmations and the installed release;
      CrpRuntimeLoad that what is written can be read back, and the one way to
      break that.
    - CrpExamples: a root with three keys, three packages, and a
      run through staging, promotion, rollback and the broken restaging.

    ** Audit

    - AuditEvent: audit/event.go and the data of outbox.go. Events, records,
      hashes, checkpoints, commits and their validity.
    - AuditDecode: strict JSON decoding of events and commits, and that a valid
      commit is read back from its encoding; it rests on TimeText (RFC 3339
      texts of every instant from year 1 to 9999 are read back) and JsonReads
      (the decoder reads what the encoder writes).
    - AuditJournal: the interface [Journal] of journal.go, what the runtime
      relies on ([JournalLaws]), the journal and the outbox in memory.
      The journal in memory satisfies the laws, and its streams only grow.
    - AuditSpool: spool.go, likewise an interface with laws and
      the spool in memory over any authenticated cipher.
    - AuditRuntime, AuditRuntimeFacts: runtime.go, each operation as a function
      of the state it locks; [dispatch_delivers] says what a successful dispatch has done. A failing context, clock reading or random read is
      an argument, one for each place that looks.
    - AuditSystem: callers of [Append], the worker, [Replay], the
      acknowledgements of [Dispatch] and [Close] as steps that interleave, one
      step for each critical section. It has the invariants of
      the chain, AuditSystemSafety that of the system and its theorems: the
      runtime refines a log; what was recorded survives every outage; a
      critical record is durable and signed; a flush means what it says.
    - AuditExamples: a journal whose link fails, runs through an outage and
      back, the witnesses, and three departures from what the code means to do.

    The theorems on runs assume one runtime on its stream, started on an empty
    spool, stores in which a failed call changes nothing, a clock in the years
    1 to 9999, and fewer records than 64 bits count. A restart on a spool that
    is not empty does lose records: [restart_loses_spooled_record]. Instants
    have no monotonic reading, except in the next part, and are in UTC.

    ** Time

    - TimeClock: timekeeper/clock.go. Go's times with monotonic readings, and
      the disciplined clock, which never serves an earlier time than before
      while its source is not stepped.
    - Ntp: timekeeper/ntp.go, one query as a function of what the dialer, the
      socket, the context and the clock answer. Timestamps round trip across
      eras; an accepted sample is within every limit, and that of an honest
      server within half its round trip of the truth.
    - TimeSync: timekeeper/service.go, the configuration, the measurement of a
      source and the choice among sources; the sliding window is optimal.
    - TimeService: timekeeper/service.go, selections, refreshes,
      reconfigurations and readings as interleaved steps, with an invariant of
      the whole service; [disciplined_clock_accurate] composes everything from
      the packets to the clock.
    - TimeExamples: three servers, one of which lies; a clock that is corrected
      while it is read; and five departures from the comments.

    The theorems on the service start it with a clock that has no correction,
    limits on accepted offsets below 146 years, and, where round trips are
    added up, sums that fit 64 bits. The NTP client is given by its model or,
    in TimeService, by any answers; retries and timers are steps that may be
    taken at any moment.

    ** Bounds and fuel

    Recursion that is not structural carries fuel with its reason beside it:
    the decoding rounds of a path are the code's own limit; twice the length of
    a document bounds the JSON scanner and decoder, since every call consumes a
    byte or is followed by one that does; one block per sixteen words bounds a
    digest; 21 digits cover a 64-bit integer. [Start] and [Wait] of the broker loop until
    cancelled or timed out: their fuel is the number of chunks handled or
    events received, and the theorems hold for all of it. Heaps, tries and
    pools recurse on their structure or on a run.

    ** What is not modelled

    Sockets, TLS, HTTP parsing and serving (proxy/, api/, edge/), files and
    processes (storage/, recovery/, diagnostics/), and the code around the
    modelled parts that moves values in and out of them: SQL text, ZIP archives,
    most JSON decoding and HTTP handlers. Of engine/ the decoders, rules and the
    semantic analyzer (pattern tables and scores) are left out: the pipeline
    takes detectors as arguments. The bot, captcha, tamper and web-shell
    protections, the AI client, the configuration loader, the installer and the
    command line are left out, as is the native Raft library behind
    controlplane/nativeraft. The web console and scripts are not Go. *)

From stdpp Require Export base gmap strings list sets.
From Stdlib Require Export ZArith Lia Bool.

#[global] Set Default Goal Selector "!".

(** ** Results of fallible operations

    A Go function that returns [(T, error)] is a function into
    [result E T]: [Ok v] is the value with a nil error, [Err e] the error
    (the code never inspects the value that accompanies an error). *)

Inductive result (E A : Type) : Type :=
| Ok (a : A)
| Err (e : E).
Arguments Ok {E A} a.
Arguments Err {E A} e.

(** Early returns: [return r when b ;; k] is [if b { return r }; k]. *)
Declare Scope go_scope.
Delimit Scope go_scope with go.

Notation "'return' r 'when' b ;; k" :=
  (if (b : bool) then r else k)
  (at level 10, r at level 99, b at level 99, k at level 200,
   format "'[v' 'return'  r  'when'  b ;; '/' k ']'") : go_scope.

Notation "'let?' x ':=' c 'in' k" :=
  (match c with Ok x => k | Err e => Err e end)
  (at level 10, x pattern, c at level 100, k at level 200) : go_scope.

#[global] Open Scope Z_scope.

(** ** Machine integers *)

Definition two32 : Z := 4294967296.
Definition two64 : Z := 18446744073709551616.
Definition max_int64 : Z := 9223372036854775807.
Definition min_int64 : Z := -9223372036854775808.

(** Wrap-around of the unsigned widths, and of [int64]/[time.Duration]/[int]. *)
Definition u32 (z : Z) : Z := z mod two32.
Definition u64 (z : Z) : Z := z mod two64.
Definition i64 (z : Z) : Z := (z - min_int64) mod two64 + min_int64.

Definition in_i64 (z : Z) : Prop := min_int64 <= z <= max_int64.

Lemma u32_range z : 0 <= u32 z < two32.
Proof. apply Z.mod_pos_bound. reflexivity. Qed.

Lemma u64_range z : 0 <= u64 z < two64.
Proof. apply Z.mod_pos_bound. reflexivity. Qed.

Lemma u32_small z : 0 <= z < two32 -> u32 z = z.
Proof. apply Z.mod_small. Qed.

Lemma u64_small z : 0 <= z < two64 -> u64 z = z.
Proof. apply Z.mod_small. Qed.

Lemma i64_small z : in_i64 z -> i64 z = z.
Proof.
  unfold in_i64, i64, min_int64, max_int64, two64. intros H.
  rewrite Z.mod_small; lia.
Qed.

Lemma i64_range z : in_i64 (i64 z).
Proof.
  unfold in_i64, i64.
  pose proof (Z.mod_pos_bound (z - min_int64) two64 eq_refl).
  unfold min_int64, max_int64, two64 in *. lia.
Qed.

(** ** Time

    [time.Time] is the number of nanoseconds since Go's zero time
    (January 1, year 1, 00:00 UTC); [time.Duration] is an [int64] number of
    nanoseconds. Locations and monotonic readings carry no instant and are
    left out. [Sub] saturates at the bounds of [int64], as the library does. *)

Abbreviation Time := Z (only parsing).
Abbreviation Duration := Z (only parsing).

Definition zero_time : Time := 0.
Definition IsZero (t : Time) : bool := t =? 0.
Definition Before (t u : Time) : bool := t <? u.
Definition After (t u : Time) : bool := u <? t.
Definition TimeAdd (t : Time) (d : Duration) : Time := t + d.
Definition TimeSub (t u : Time) : Duration := Z.max min_int64 (Z.min max_int64 (t - u)).

Definition Second : Duration := 1000000000.
Definition Minute : Duration := 60 * Second.
Definition Hour : Duration := 60 * Minute.

(** A saturated difference compares with a representable duration exactly as
    the mathematical difference does. *)
Lemma TimeSub_le t u d : in_i64 d -> (d <=? TimeSub t u) = (d <=? t - u) \/ d = min_int64.
Proof.
  unfold in_i64, TimeSub, min_int64, max_int64. intros H.
  destruct (Z.eq_dec d (-9223372036854775808)); [by right|left].
  destruct (Z.leb_spec d (t - u)); [apply Z.leb_le|apply Z.leb_gt]; lia.
Qed.

Lemma TimeSub_le_pos t u d : 0 <= d <= max_int64 -> (d <=? TimeSub t u) = (d <=? t - u).
Proof.
  intros H. destruct (TimeSub_le t u d) as [E|E]; [|exact E|].
  - unfold in_i64, min_int64, max_int64 in *. lia.
  - unfold min_int64 in *. lia.
Qed.

(** ** Tactics shared by the development *)

(** Case analysis on every conditional and match of a hypothesis, dropping
    the branches that the equation refutes. *)
Ltac branch H :=
  repeat match type of H with
  | context [if ?b then _ else _] =>
      let E := fresh "E" in destruct b eqn:E; try discriminate H
  | context [match ?x with _ => _ end] =>
      let E := fresh "E" in destruct x eqn:E; try discriminate H
  end.

(** The same for the goal. *)
Ltac branch_goal :=
  repeat match goal with
  | |- context [if ?b then _ else _] =>
      let E := fresh "E" in destruct b eqn:E
  end.

(** Boolean guards of the code to propositions. *)
Ltac props :=
  repeat match goal with
  | H : _ || _ = false |- _ => apply orb_false_iff in H as [? ?]
  | H : _ && _ = true |- _ => apply andb_true_iff in H as [? ?]
  | H : negb _ = true |- _ => apply negb_true_iff in H
  | H : negb _ = false |- _ => apply negb_false_iff in H
  | H : Z.eqb _ _ = true |- _ => apply Z.eqb_eq in H
  | H : Z.eqb _ _ = false |- _ => apply Z.eqb_neq in H
  | H : Z.ltb _ _ = true |- _ => apply Z.ltb_lt in H
  | H : Z.ltb _ _ = false |- _ => apply Z.ltb_ge in H
  | H : Z.leb _ _ = true |- _ => apply Z.leb_le in H
  | H : Z.leb _ _ = false |- _ => apply Z.leb_gt in H
  | H : String.eqb _ _ = true |- _ => apply String.eqb_eq in H
  | H : String.eqb _ _ = false |- _ => apply String.eqb_neq in H
  | H : bool_decide _ = true |- _ => apply bool_decide_eq_true in H
  | H : bool_decide _ = false |- _ => apply bool_decide_eq_false in H
  end.

(** A chain of guards that all let the call through. *)
Lemma guard_None {A} (b : bool) (e : A) k : (if b then Some e else k) = None <-> b = false /\ k = None.
Proof. destruct b; naive_solver. Qed.

(** Membership test of a Go map or set, as a boolean. *)
Definition has {K V} `{Countable K} (m : gmap K V) (k : K) : bool :=
  match m !! k with Some _ => true | None => false end.

Lemma has_true {K V} `{Countable K} (m : gmap K V) k :
  has m k = true <-> is_Some (m !! k).
Proof.
  unfold has. destruct (m !! k) eqn:E; split; intros H1; eauto.
  - done.
  - destruct H1 as [? ?]. congruence.
Qed.

Lemma has_false {K V} `{Countable K} (m : gmap K V) k :
  has m k = false <-> m !! k = None.
Proof. unfold has. destruct (m !! k); split; congruence. Qed.

Create HintDb waf discriminated.
#[export] Hint Resolve u32_range u64_range i64_range : waf.
