(* ===== verification/GoText.v ===== *)
(** * The text functions of Go's standard library that the program uses

    A Go [string] is a sequence of bytes: Rocq's [string], whose [ascii] is a
    byte. A rune is an integer code point. Decoding follows [unicode/utf8]
    (an invalid byte decodes to U+FFFD with width 1), the character classes
    and case mappings are those of package [unicode] (Unicode 15.0). *)

From S2P Require Import Prelude.
From Stdlib Require Import Ascii.
From Stdlib Require String.

Open Scope string_scope.
Open Scope list_scope.
Open Scope Z_scope.

(** ** Bytes *)

Definition byte_val (c : ascii) : Z := Z.of_N (N_of_ascii c).
Definition byte_of (z : Z) : ascii := ascii_of_N (Z.to_N z).
Definition len (s : string) : Z := Z.of_nat (String.length s).
Definition bytes (s : string) : list ascii := String.list_ascii_of_string s.
Definition of_bytes (l : list ascii) : string := String.string_of_list_ascii l.

Definition nul : string := String (ascii_of_nat 0) EmptyString.

Lemma bytes_of_bytes l : bytes (of_bytes l) = l.
Proof. apply String.list_ascii_of_string_of_list_ascii. Qed.

Lemma of_bytes_bytes s : of_bytes (bytes s) = s.
Proof. apply String.string_of_list_ascii_of_string. Qed.

Lemma byte_val_range c : 0 <= byte_val c < 256.
Proof.
  unfold byte_val. pose proof (N_ascii_bounded c). lia.
Qed.

Lemma byte_of_val c : byte_of (byte_val c) = c.
Proof. unfold byte_of, byte_val. rewrite N2Z.id. apply ascii_N_embedding. Qed.

Lemma byte_val_of z : 0 <= z < 256 -> byte_val (byte_of z) = z.
Proof.
  intros H. unfold byte_of, byte_val. rewrite N_ascii_embedding; lia.
Qed.

Lemma byte_val_inj c d : byte_val c = byte_val d -> c = d.
Proof. intros H. rewrite <- (byte_of_val c), <- (byte_of_val d). by f_equal. Qed.

(** ** UTF-8 decoding: [utf8.DecodeRuneInString] on a list of bytes *)

Definition RuneError : Z := 65533.

Definition is_cont (lo hi : Z) (c : ascii) : bool := (lo <=? byte_val c) && (byte_val c <=? hi).

(** The rune at the head of the bytes and its width; (RuneError, 1) when the
    head is not a valid encoding and (RuneError, 0) on the empty input. *)
Definition DecodeRune (l : list ascii) : Z * nat :=
  match l with
  | [] => (RuneError, 0%nat)
  | c0 :: l1 =>
      let b0 := byte_val c0 in
      if b0 <? 128 then (b0, 1%nat)
      else if (194 <=? b0) && (b0 <=? 223) then
        match l1 with
        | c1 :: _ =>
            if is_cont 128 191 c1
            then ((b0 - 192) * 64 + (byte_val c1 - 128), 2%nat) else (RuneError, 1%nat)
        | _ => (RuneError, 1%nat)
        end
      else if (224 <=? b0) && (b0 <=? 239) then
        let lo := if b0 =? 224 then 160 else 128 in
        let hi := if b0 =? 237 then 159 else 191 in
        match l1 with
        | c1 :: c2 :: _ =>
            if is_cont lo hi c1 && is_cont 128 191 c2
            then ((b0 - 224) * 4096 + (byte_val c1 - 128) * 64 + (byte_val c2 - 128), 3%nat)
            else (RuneError, 1%nat)
        | _ => (RuneError, 1%nat)
        end
      else if (240 <=? b0) && (b0 <=? 244) then
        let lo := if b0 =? 240 then 144 else 128 in
        let hi := if b0 =? 244 then 143 else 191 in
        match l1 with
        | c1 :: c2 :: c3 :: _ =>
            if is_cont lo hi c1 && is_cont 128 191 c2 && is_cont 128 191 c3
            then ((b0 - 240) * 262144 + (byte_val c1 - 128) * 4096
                  + (byte_val c2 - 128) * 64 + (byte_val c3 - 128), 4%nat)
            else (RuneError, 1%nat)
        | _ => (RuneError, 1%nat)
        end
      else (RuneError, 1%nat)
  end.

(** [for _, r := range s]: the runes with their widths. [skip] counts the
    bytes of the current rune that are still to be passed over. *)
Fixpoint decode_from (skip : nat) (l : list ascii) : list (Z * nat) :=
  match l with
  | [] => []
  | _ :: l' =>
      match skip with
      | S k => decode_from k l'
      | O => let rw := DecodeRune l in rw :: decode_from (pred (snd rw)) l'
      end
  end.

Definition decoded (s : string) : list (Z * nat) := decode_from 0 (bytes s).
Definition runes (s : string) : list Z := map fst (decoded s).
Definition RuneCount (s : string) : Z := Z.of_nat (length (decoded s)).

(** [utf8.ValidString]: no byte decodes to the error rune with width 1. *)
Definition ValidString (s : string) : bool :=
  forallb (fun rw => negb ((fst rw =? RuneError) && (snd rw =? 1)%nat)) (decoded s).

(** [utf8.AppendRune]. *)
Definition EncodeRune (r : Z) : list ascii :=
  if (r <? 0) || (1114111 <? r) || ((55296 <=? r) && (r <=? 57343)) then
    [byte_of 239; byte_of 191; byte_of 189]
  else if r <? 128 then [byte_of r]
  else if r <? 2048 then [byte_of (192 + r / 64); byte_of (128 + r mod 64)]
  else if r <? 65536 then
    [byte_of (224 + r / 4096); byte_of (128 + (r / 64) mod 64); byte_of (128 + r mod 64)]
  else
    [byte_of (240 + r / 262144); byte_of (128 + (r / 4096) mod 64);
     byte_of (128 + (r / 64) mod 64); byte_of (128 + r mod 64)].

(** ** Character classes of package [unicode] *)

Definition in_ranges (t : list (Z * Z)) (r : Z) : bool :=
  existsb (fun p => (fst p <=? r) && (r <=? snd p)) t.

(** [unicode.IsSpace]: the White_Space property. *)
Definition IsSpace (r : Z) : bool :=
  in_ranges [(9, 13); (32, 32); (133, 133); (160, 160); (5760, 5760); (8192, 8202);
             (8232, 8233); (8239, 8239); (8287, 8287); (12288, 12288)] r.

(** [unicode.IsControl]: category Cc. *)
Definition IsControl (r : Z) : bool := in_ranges [(0, 31); (127, 159)] r.

(** [unicode.Is(unicode.Cf, r)]: the format characters. *)
Definition IsFormat (r : Z) : bool :=
  in_ranges [(173, 173); (1536, 1541); (1564, 1564); (1757, 1757); (1807, 1807);
             (2192, 2193); (2274, 2274); (6158, 6158); (8203, 8207); (8234, 8238);
             (8288, 8292); (8294, 8303); (65279, 65279); (65529, 65531); (69821, 69821);
             (69837, 69837); (78896, 78911); (113824, 113827); (119155, 119162);
             (917505, 917505); (917536, 917631)] r.

(** A rune that identifiers, scopes and secrets may not contain. *)
Definition opaque_rune (r : Z) : bool := IsSpace r || IsControl r || IsFormat r.

(** ** Case mappings *)

(** The runes [lo], [lo + stride], ..., [hi] map to themselves plus [delta]. *)
Record case_range := CR { cr_lo : Z; cr_hi : Z; cr_stride : Z; cr_delta : Z }.

Definition in_case_range (r : Z) (c : case_range) : bool :=
  (cr_lo c <=? r) && (r <=? cr_hi c) && ((r - cr_lo c) mod cr_stride c =? 0).

Definition map_case (t : list case_range) (r : Z) : Z :=
  match List.find (in_case_range r) t with
  | Some c => r + cr_delta c
  | None => r
  end.

(** Simple upper-case mappings of the non-ASCII runes (Unicode 15.0). *)
Definition upper_ranges : list case_range :=
  [ CR 181 181 1 (743); CR 224 246 1 (-32); CR 248 254 1 (-32); CR 255 255 1 (121);
    CR 257 303 2 (-1); CR 305 305 1 (-232); CR 307 311 2 (-1); CR 314 328 2 (-1);
    CR 331 375 2 (-1); CR 378 382 2 (-1); CR 383 383 1 (-300); CR 384 384 1 (195);
    CR 387 389 2 (-1); CR 392 392 1 (-1); CR 396 396 1 (-1); CR 402 402 1 (-1);
    CR 405 405 1 (97); CR 409 409 1 (-1); CR 410 410 1 (163); CR 414 414 1 (130);
    CR 417 421 2 (-1); CR 424 424 1 (-1); CR 429 429 1 (-1); CR 432 432 1 (-1);
    CR 436 438 2 (-1); CR 441 441 1 (-1); CR 445 445 1 (-1); CR 447 447 1 (56);
    CR 453 453 1 (-1); CR 454 454 1 (-2); CR 456 456 1 (-1); CR 457 457 1 (-2);
    CR 459 459 1 (-1); CR 460 460 1 (-2); CR 462 476 2 (-1); CR 477 477 1 (-79);
    CR 479 495 2 (-1); CR 498 498 1 (-1); CR 499 499 1 (-2); CR 501 501 1 (-1);
    CR 505 543 2 (-1); CR 547 563 2 (-1); CR 572 572 1 (-1); CR 575 576 1 (10815);
    CR 578 578 1 (-1); CR 583 591 2 (-1); CR 592 592 1 (10783); CR 593 593 1 (10780);
    CR 594 594 1 (10782); CR 595 595 1 (-210); CR 596 596 1 (-206); CR 598 599 1 (-205);
    CR 601 601 1 (-202); CR 603 603 1 (-203); CR 604 604 1 (42319); CR 608 608 1 (-205);
    CR 609 609 1 (42315); CR 611 611 1 (-207); CR 613 613 1 (42280); CR 614 614 1 (42308);
    CR 616 616 1 (-209); CR 617 617 1 (-211); CR 618 618 1 (42308); CR 619 619 1 (10743);
    CR 620 620 1 (42305); CR 623 623 1 (-211); CR 625 625 1 (10749); CR 626 626 1 (-213);
    CR 629 629 1 (-214); CR 637 637 1 (10727); CR 640 640 1 (-218); CR 642 642 1 (42307);
    CR 643 643 1 (-218); CR 647 647 1 (42282); CR 648 648 1 (-218); CR 649 649 1 (-69);
    CR 650 651 1 (-217); CR 652 652 1 (-71); CR 658 658 1 (-219); CR 669 669 1 (42261);
    CR 670 670 1 (42258); CR 837 837 1 (84); CR 881 883 2 (-1); CR 887 887 1 (-1);
    CR 891 893 1 (130); CR 940 940 1 (-38); CR 941 943 1 (-37); CR 945 961 1 (-32);
    CR 962 962 1 (-31); CR 963 971 1 (-32); CR 972 972 1 (-64); CR 973 974 1 (-63);
    CR 976 976 1 (-62); CR 977 977 1 (-57); CR 981 981 1 (-47); CR 982 982 1 (-54);
    CR 983 983 1 (-8); CR 985 1007 2 (-1); CR 1008 1008 1 (-86); CR 1009 1009 1 (-80);
    CR 1010 1010 1 (7); CR 1011 1011 1 (-116); CR 1013 1013 1 (-96); CR 1016 1016 1 (-1);
    CR 1019 1019 1 (-1); CR 1072 1103 1 (-32); CR 1104 1119 1 (-80); CR 1121 1153 2 (-1);
    CR 1163 1215 2 (-1); CR 1218 1230 2 (-1); CR 1231 1231 1 (-15); CR 1233 1327 2 (-1);
    CR 1377 1414 1 (-48); CR 4304 4346 1 (3008); CR 4349 4351 1 (3008); CR 5112 5117 1 (-8);
    CR 7296 7296 1 (-6254); CR 7297 7297 1 (-6253); CR 7298 7298 1 (-6244); CR 7299 7300 1 (-6242);
    CR 7301 7301 1 (-6243); CR 7302 7302 1 (-6236); CR 7303 7303 1 (-6181); CR 7304 7304 1 (35266);
    CR 7545 7545 1 (35332); CR 7549 7549 1 (3814); CR 7566 7566 1 (35384); CR 7681 7829 2 (-1);
    CR 7835 7835 1 (-59); CR 7841 7935 2 (-1); CR 7936 7943 1 (8); CR 7952 7957 1 (8);
    CR 7968 7975 1 (8); CR 7984 7991 1 (8); CR 8000 8005 1 (8); CR 8017 8023 2 (8);
    CR 8032 8039 1 (8); CR 8048 8049 1 (74); CR 8050 8053 1 (86); CR 8054 8055 1 (100);
    CR 8056 8057 1 (128); CR 8058 8059 1 (112); CR 8060 8061 1 (126); CR 8064 8071 1 (8);
    CR 8080 8087 1 (8); CR 8096 8103 1 (8); CR 8112 8113 1 (8); CR 8115 8115 1 (9);
    CR 8126 8126 1 (-7205); CR 8131 8131 1 (9); CR 8144 8145 1 (8); CR 8160 8161 1 (8);
    CR 8165 8165 1 (7); CR 8179 8179 1 (9); CR 8526 8526 1 (-28); CR 8560 8575 1 (-16);
    CR 8580 8580 1 (-1); CR 9424 9449 1 (-26); CR 11312 11359 1 (-48); CR 11361 11361 1 (-1);
    CR 11365 11365 1 (-10795); CR 11366 11366 1 (-10792); CR 11368 11372 2 (-1); CR 11379 11379 1 (-1);
    CR 11382 11382 1 (-1); CR 11393 11491 2 (-1); CR 11500 11502 2 (-1); CR 11507 11507 1 (-1);
    CR 11520 11557 1 (-7264); CR 11559 11559 1 (-7264); CR 11565 11565 1 (-7264); CR 42561 42605 2 (-1);
    CR 42625 42651 2 (-1); CR 42787 42799 2 (-1); CR 42803 42863 2 (-1); CR 42874 42876 2 (-1);
    CR 42879 42887 2 (-1); CR 42892 42892 1 (-1); CR 42897 42899 2 (-1); CR 42900 42900 1 (48);
    CR 42903 42921 2 (-1); CR 42933 42947 2 (-1); CR 42952 42954 2 (-1); CR 42961 42961 1 (-1);
    CR 42967 42969 2 (-1); CR 42998 42998 1 (-1); CR 43859 43859 1 (-928); CR 43888 43967 1 (-38864);
    CR 65345 65370 1 (-32); CR 66600 66639 1 (-40); CR 66776 66811 1 (-40); CR 66967 66977 1 (-39);
    CR 66979 66993 1 (-39); CR 66995 67001 1 (-39); CR 67003 67004 1 (-39); CR 68800 68850 1 (-64);
    CR 71872 71903 1 (-32); CR 93792 93823 1 (-32); CR 125218 125251 1 (-34) ].

(** Simple lower-case mappings of the non-ASCII runes (Unicode 15.0). *)
Definition lower_ranges : list case_range :=
  [ CR 192 214 1 (32); CR 216 222 1 (32); CR 256 302 2 (1); CR 304 304 1 (-199);
    CR 306 310 2 (1); CR 313 327 2 (1); CR 330 374 2 (1); CR 376 376 1 (-121);
    CR 377 381 2 (1); CR 385 385 1 (210); CR 386 388 2 (1); CR 390 390 1 (206);
    CR 391 391 1 (1); CR 393 394 1 (205); CR 395 395 1 (1); CR 398 398 1 (79);
    CR 399 399 1 (202); CR 400 400 1 (203); CR 401 401 1 (1); CR 403 403 1 (205);
    CR 404 404 1 (207); CR 406 406 1 (211); CR 407 407 1 (209); CR 408 408 1 (1);
    CR 412 412 1 (211); CR 413 413 1 (213); CR 415 415 1 (214); CR 416 420 2 (1);
    CR 422 422 1 (218); CR 423 423 1 (1); CR 425 425 1 (218); CR 428 428 1 (1);
    CR 430 430 1 (218); CR 431 431 1 (1); CR 433 434 1 (217); CR 435 437 2 (1);
    CR 439 439 1 (219); CR 440 440 1 (1); CR 444 444 1 (1); CR 452 452 1 (2);
    CR 453 453 1 (1); CR 455 455 1 (2); CR 456 456 1 (1); CR 458 458 1 (2);
    CR 459 475 2 (1); CR 478 494 2 (1); CR 497 497 1 (2); CR 498 500 2 (1);
    CR 502 502 1 (-97); CR 503 503 1 (-56); CR 504 542 2 (1); CR 544 544 1 (-130);
    CR 546 562 2 (1); CR 570 570 1 (10795); CR 571 571 1 (1); CR 573 573 1 (-163);
    CR 574 574 1 (10792); CR 577 577 1 (1); CR 579 579 1 (-195); CR 580 580 1 (69);
    CR 581 581 1 (71); CR 582 590 2 (1); CR 880 882 2 (1); CR 886 886 1 (1);
    CR 895 895 1 (116); CR 902 902 1 (38); CR 904 906 1 (37); CR 908 908 1 (64);
    CR 910 911 1 (63); CR 913 929 1 (32); CR 931 939 1 (32); CR 975 975 1 (8);
    CR 984 1006 2 (1); CR 1012 1012 1 (-60); CR 1015 1015 1 (1); CR 1017 1017 1 (-7);
    CR 1018 1018 1 (1); CR 1021 1023 1 (-130); CR 1024 1039 1 (80); CR 1040 1071 1 (32);
    CR 1120 1152 2 (1); CR 1162 1214 2 (1); CR 1216 1216 1 (15); CR 1217 1229 2 (1);
    CR 1232 1326 2 (1); CR 1329 1366 1 (48); CR 4256 4293 1 (7264); CR 4295 4295 1 (7264);
    CR 4301 4301 1 (7264); CR 5024 5103 1 (38864); CR 5104 5109 1 (8); CR 7312 7354 1 (-3008);
    CR 7357 7359 1 (-3008); CR 7680 7828 2 (1); CR 7838 7838 1 (-7615); CR 7840 7934 2 (1);
    CR 7944 7951 1 (-8); CR 7960 7965 1 (-8); CR 7976 7983 1 (-8); CR 7992 7999 1 (-8);
    CR 8008 8013 1 (-8); CR 8025 8031 2 (-8); CR 8040 8047 1 (-8); CR 8072 8079 1 (-8);
    CR 8088 8095 1 (-8); CR 8104 8111 1 (-8); CR 8120 8121 1 (-8); CR 8122 8123 1 (-74);
    CR 8124 8124 1 (-9); CR 8136 8139 1 (-86); CR 8140 8140 1 (-9); CR 8152 8153 1 (-8);
    CR 8154 8155 1 (-100); CR 8168 8169 1 (-8); CR 8170 8171 1 (-112); CR 8172 8172 1 (-7);
    CR 8184 8185 1 (-128); CR 8186 8187 1 (-126); CR 8188 8188 1 (-9); CR 8486 8486 1 (-7517);
    CR 8490 8490 1 (-8383); CR 8491 8491 1 (-8262); CR 8498 8498 1 (28); CR 8544 8559 1 (16);
    CR 8579 8579 1 (1); CR 9398 9423 1 (26); CR 11264 11311 1 (48); CR 11360 11360 1 (1);
    CR 11362 11362 1 (-10743); CR 11363 11363 1 (-3814); CR 11364 11364 1 (-10727); CR 11367 11371 2 (1);
    CR 11373 11373 1 (-10780); CR 11374 11374 1 (-10749); CR 11375 11375 1 (-10783); CR 11376 11376 1 (-10782);
    CR 11378 11378 1 (1); CR 11381 11381 1 (1); CR 11390 11391 1 (-10815); CR 11392 11490 2 (1);
    CR 11499 11501 2 (1); CR 11506 11506 1 (1); CR 42560 42604 2 (1); CR 42624 42650 2 (1);
    CR 42786 42798 2 (1); CR 42802 42862 2 (1); CR 42873 42875 2 (1); CR 42877 42877 1 (-35332);
    CR 42878 42886 2 (1); CR 42891 42891 1 (1); CR 42893 42893 1 (-42280); CR 42896 42898 2 (1);
    CR 42902 42920 2 (1); CR 42922 42922 1 (-42308); CR 42923 42923 1 (-42319); CR 42924 42924 1 (-42315);
    CR 42925 42925 1 (-42305); CR 42926 42926 1 (-42308); CR 42928 42928 1 (-42258); CR 42929 42929 1 (-42282);
    CR 42930 42930 1 (-42261); CR 42931 42931 1 (928); CR 42932 42946 2 (1); CR 42948 42948 1 (-48);
    CR 42949 42949 1 (-42307); CR 42950 42950 1 (-35384); CR 42951 42953 2 (1); CR 42960 42960 1 (1);
    CR 42966 42968 2 (1); CR 42997 42997 1 (1); CR 65313 65338 1 (32); CR 66560 66599 1 (40);
    CR 66736 66771 1 (40); CR 66928 66938 1 (39); CR 66940 66954 1 (39); CR 66956 66962 1 (39);
    CR 66964 66965 1 (39); CR 68736 68786 1 (64); CR 71840 71871 1 (32); CR 93760 93791 1 (32);
    CR 125184 125217 1 (34) ].


Definition UpperRune (r : Z) : Z :=
  if r <? 128 then (if (97 <=? r) && (r <=? 122) then r - 32 else r)
  else map_case upper_ranges r.

Definition LowerRune (r : Z) : Z :=
  if r <? 128 then (if (65 <=? r) && (r <=? 90) then r + 32 else r)
  else map_case lower_ranges r.

(** [strings.ToUpper] and [strings.ToLower] rewrite the string rune by rune;
    an invalid byte becomes the encoding of the error rune. *)
Definition map_runes (f : Z -> Z) (s : string) : string :=
  of_bytes (concat (map (fun r => EncodeRune (f r)) (runes s))).

Definition ToUpper : string -> string := map_runes UpperRune.
Definition ToLower : string -> string := map_runes LowerRune.

(** The simple case-folding class of a rune. U+0130 and U+0131 have case
    mappings but fold only to themselves. *)
Definition fold_class (r : Z) : Z :=
  if (r =? 304) || (r =? 305) then r else LowerRune (UpperRune r).

Fixpoint fold_equal (a b : list Z) : bool :=
  match a, b with
  | [], [] => true
  | x :: a', y :: b' => (fold_class x =? fold_class y) && fold_equal a' b'
  | _, _ => false
  end.

(** [strings.EqualFold]. *)
Definition EqualFold (s t : string) : bool := fold_equal (runes s) (runes t).

(** ** Searching and trimming *)

Fixpoint has_prefix (p l : list ascii) : bool :=
  match p, l with
  | [], _ => true
  | a :: p', b :: l' => Ascii.eqb a b && has_prefix p' l'
  | _ :: _, [] => false
  end.

Fixpoint contains (p l : list ascii) : bool :=
  has_prefix p l || match l with [] => false | _ :: l' => contains p l' end.

Definition HasPrefix (s p : string) : bool := has_prefix (bytes p) (bytes s).
Definition HasSuffix (s p : string) : bool := has_prefix (rev (bytes p)) (rev (bytes s)).
Definition Contains (s p : string) : bool := contains (bytes p) (bytes s).
Definition ContainsByte (s : string) (c : ascii) : bool := existsb (Ascii.eqb c) (bytes s).
Definition ContainsAny (s cs : string) : bool :=
  existsb (fun c => existsb (Ascii.eqb c) (bytes cs)) (bytes s).
Definition ContainsRuneBy (f : Z -> bool) (s : string) : bool := existsb f (runes s).

(** [strings.TrimLeft]/[TrimRight] with a single-byte cutset. *)
Fixpoint drop_while_byte (c : ascii) (l : list ascii) : list ascii :=
  match l with
  | d :: l' => if Ascii.eqb c d then drop_while_byte c l' else l
  | [] => []
  end.

Definition TrimRightByte (s : string) (c : ascii) : string :=
  of_bytes (rev (drop_while_byte c (rev (bytes s)))).

(** [strings.TrimSpace]. The left end drops decoded space runes; the right
    end drops the suffixes that encode one ([utf8.DecodeLastRuneInString]). *)
Fixpoint trim_left (skip : nat) (l : list ascii) : list ascii :=
  match l with
  | [] => []
  | _ :: l' =>
      match skip with
      | S k => trim_left k l'
      | O => let rw := DecodeRune l in
             if IsSpace (fst rw) then trim_left (pred (snd rw)) l' else l
      end
  end.

Definition last_space_width (rl : list ascii) : nat :=
  let is_rune w :=
    let rw := DecodeRune (rev (take w rl)) in (snd rw =? w)%nat && IsSpace (fst rw) in
  match rl with
  | [] => 0%nat
  | c :: _ =>
      if byte_val c <? 128 then (if IsSpace (byte_val c) then 1%nat else 0%nat)
      else if (2 <=? length rl)%nat && is_rune 2%nat then 2%nat
      else if (3 <=? length rl)%nat && is_rune 3%nat then 3%nat
      else 0%nat
  end.

Fixpoint trim_right (skip : nat) (rl : list ascii) : list ascii :=
  match rl with
  | [] => []
  | _ :: rl' =>
      match skip with
      | S k => trim_right k rl'
      | O => match last_space_width rl with
             | O => rl
             | S k => trim_right k rl'
             end
      end
  end.

Definition TrimSpace (s : string) : string :=
  of_bytes (rev (trim_right 0 (rev (trim_left 0 (bytes s))))).

(** [strings.Split] on a one-byte separator, and [strings.Join]. *)
Fixpoint split_on (c : ascii) (l : list ascii) : list (list ascii) :=
  match l with
  | [] => [[]]
  | d :: l' =>
      if Ascii.eqb c d then [] :: split_on c l'
      else match split_on c l' with
           | seg :: rest => (d :: seg) :: rest
           | [] => [[d]]
           end
  end.

Fixpoint join_with (c : ascii) (segs : list (list ascii)) : list ascii :=
  match segs with
  | [] => []
  | [s] => s
  | s :: rest => s ++ c :: join_with c rest
  end.

(** ** Hexadecimal *)

Definition hex_digit (n : Z) : ascii := byte_of (if n <? 10 then 48 + n else 87 + n).

Definition hex_byte (b : Z) : list ascii := [hex_digit (b / 16); hex_digit (b mod 16)].

(** [hex.EncodeToString] of a list of byte values. *)
Definition EncodeHex (l : list Z) : string := of_bytes (concat (map hex_byte l)).

Definition is_hex_char (c : ascii) : bool :=
  let b := byte_val c in
  ((48 <=? b) && (b <=? 57)) || ((97 <=? b) && (b <=? 102)) || ((65 <=? b) && (b <=? 70)).

Definition is_lower_hex_char (c : ascii) : bool :=
  let b := byte_val c in ((48 <=? b) && (b <=? 57)) || ((97 <=? b) && (b <=? 102)).

(** [hex.DecodeString] succeeds on an even number of hexadecimal digits. *)
Definition hex_decodable (s : string) : bool :=
  Nat.even (String.length s) && forallb is_hex_char (bytes s).

(** ** Decimal: [fmt.Sprint] of an unsigned integer *)

Fixpoint dec_digits (fuel : nat) (n : Z) (acc : list ascii) : list ascii :=
  match fuel with
  | O => acc
  | S f => let acc' := byte_of (48 + n mod 10) :: acc in
           if n <? 10 then acc' else dec_digits f (n / 10) acc'
  end.

(** Twenty-one digits cover every 64-bit value with its sign. *)
Definition itoa (n : Z) : string :=
  if n <? 0 then String "-"%char (of_bytes (dec_digits 21 (- n) []))
  else of_bytes (dec_digits 21 n []).

(** ** Facts *)

Example to_lower_kelvin : ToLower "ZH-HK" = "zh-hk" /\ ToLower "zh-hK" = "zh-hk".
Proof. vm_compute. split; reflexivity. Qed.

Example fold_examples :
  EqualFold "Straße" "STRAßE" = true /\ EqualFold "kelvin" "Kelvin" = true
  /\ EqualFold "i" "ı" = false.
Proof. vm_compute. repeat split. Qed.

Definition ideographic_space : string := of_bytes (map byte_of [227; 128; 128]).

Example trim_examples :
  TrimSpace ("  a b" ++ ideographic_space ++ " ") = "a b" /\ TrimSpace (" " ++ ideographic_space) = "".
Proof. vm_compute. by split. Qed.

Example itoa_examples : itoa 0 = "0" /\ itoa 1844674407 = "1844674407" /\ itoa (-5) = "-5".
Proof. vm_compute. repeat split. Qed.

(** ** Searching *)

Lemma ascii_eqb_sym (a b : ascii) : Ascii.eqb a b = Ascii.eqb b a.
Proof.
  destruct (Ascii.eqb_spec a b) as [->|H]; [by rewrite Ascii.eqb_refl|].
  symmetry. apply Ascii.eqb_neq. congruence.
Qed.

Lemma has_prefix_spec p l : has_prefix p l = true <-> exists r, l = p ++ r.
Proof.
  revert l. induction p as [|a p IH]; intros l; simpl.
  - split; eauto.
  - destruct l as [|b l]; simpl.
    + split; [done|]. intros [r Hr]. done.
    + rewrite andb_true_iff, IH, Ascii.eqb_eq. split.
      * intros [-> [r ->]]. by exists r.
      * intros [r Hr]. injection Hr as -> ->. eauto.
Qed.

Lemma string_append_bytes s t : bytes (s ++ t)%string = bytes s ++ bytes t.
Proof. unfold bytes. induction s as [|c s IH]; simpl; [done|]. by rewrite IH. Qed.

Lemma bytes_inj s t : bytes s = bytes t -> s = t.
Proof. intros H. rewrite <- (of_bytes_bytes s), <- (of_bytes_bytes t). by f_equal. Qed.

Lemma of_bytes_inj l k : of_bytes l = of_bytes k -> l = k.
Proof. intros H. rewrite <- (bytes_of_bytes l), <- (bytes_of_bytes k). by f_equal. Qed.

Lemma HasPrefix_spec s p : HasPrefix s p = true <-> exists r, s = (p ++ r)%string.
Proof.
  unfold HasPrefix. rewrite has_prefix_spec. split.
  - intros [r Hr]. exists (of_bytes r). apply bytes_inj.
    by rewrite string_append_bytes, bytes_of_bytes.
  - intros [r ->]. exists (bytes r). apply string_append_bytes.
Qed.

(** ** Splitting and joining *)

Lemma split_on_ne c l : split_on c l <> [].
Proof. destruct l as [|d l]; simpl; [done|]. case_match; [done|]. by case_match. Qed.

Lemma split_on_sep c l : split_on c (c :: l) = [] :: split_on c l.
Proof. simpl. by rewrite Ascii.eqb_refl. Qed.

Lemma split_on_other c d l :
  Ascii.eqb c d = false ->
  exists seg rest, split_on c l = seg :: rest /\ split_on c (d :: l) = (d :: seg) :: rest.
Proof.
  intros H. simpl. rewrite H.
  destruct (split_on c l) as [|seg rest] eqn:E; [by apply split_on_ne in E|]. eauto.
Qed.

Lemma join_split c l : join_with c (split_on c l) = l.
Proof.
  induction l as [|d l IH]; simpl; [done|].
  destruct (Ascii.eqb_spec c d) as [->|Hne].
  - destruct (split_on d l) as [|seg rest] eqn:E; [by apply split_on_ne in E|].
    simpl in *. by rewrite IH.
  - destruct (split_on c l) as [|seg rest] eqn:E; [by apply split_on_ne in E|].
    destruct rest; simpl in *; by rewrite IH.
Qed.

Lemma split_on_free c l : Forall (fun s => c ∉ s) (split_on c l).
Proof.
  induction l as [|d l IH]; simpl.
  - constructor; [|constructor]. apply not_elem_of_nil.
  - destruct (Ascii.eqb_spec c d) as [->|Hne].
    + constructor; [apply not_elem_of_nil|done].
    + destruct (split_on c l) as [|seg rest]; simpl.
      * constructor; [|constructor]. rewrite list_elem_of_singleton. done.
      * inversion IH; subst. constructor; [|done]. rewrite elem_of_cons. tauto.
Qed.

Lemma split_on_chars c l : Forall (fun s => forall x, x ∈ s -> x ∈ l) (split_on c l).
Proof.
  induction l as [|d l IH]; simpl.
  - constructor; [done|constructor].
  - destruct (Ascii.eqb c d) eqn:E.
    + constructor; [intros x Hx; by apply not_elem_of_nil in Hx|].
      eapply Forall_impl; [exact IH|]. simpl. intros s Hs x Hx. apply elem_of_cons. eauto.
    + destruct (split_on c l) as [|seg rest].
      * constructor; [|constructor]. intros x Hx. apply list_elem_of_singleton in Hx as ->.
        by apply elem_of_cons; left.
      * inversion IH as [|? ? H1 H2]; subst. constructor.
        -- intros x Hx. apply elem_of_cons in Hx as [->|Hx]; apply elem_of_cons; eauto.
        -- eapply Forall_impl; [exact H2|]. simpl. intros s Hs x Hx. apply elem_of_cons. eauto.
Qed.

Lemma split_on_app_free c s l :
  c ∉ s ->
  split_on c (s ++ l) =
  match split_on c l with seg :: rest => (s ++ seg) :: rest | [] => [] end.
Proof.
  induction s as [|d s IH]; simpl; intros H.
  - by destruct (split_on c l).
  - apply not_elem_of_cons in H as [Hne Hs].
    destruct (Ascii.eqb_spec c d) as [->|_]; [done|].
    rewrite IH by done. by destruct (split_on c l) eqn:E; [apply split_on_ne in E|].
Qed.

Lemma split_join c segs :
  segs <> [] -> Forall (fun s => c ∉ s) segs -> split_on c (join_with c segs) = segs.
Proof.
  intros Hne H. induction H as [|s segs Hs HF IH]; [done|].
  destruct segs as [|s' segs'].
  - simpl. rewrite <- (app_nil_r s) at 1. rewrite split_on_app_free by done. simpl.
    by rewrite app_nil_r.
  - change (join_with c (s :: s' :: segs')) with (s ++ c :: join_with c (s' :: segs')).
    rewrite split_on_app_free, split_on_sep, IH by done. by rewrite app_nil_r.
Qed.

Lemma join_chars c segs x :
  x ∈ join_with c segs -> x = c \/ exists s, s ∈ segs /\ x ∈ s.
Proof.
  induction segs as [|s segs IH]; simpl; intros H; [by apply not_elem_of_nil in H|].
  destruct segs as [|s' segs'].
  - right. exists s. split; [by apply elem_of_cons; left|done].
  - apply elem_of_app in H as [H|H].
    + right. exists s. split; [by apply elem_of_cons; left|done].
    + apply elem_of_cons in H as [->|H]; [by left|].
      destruct (IH H) as [->|(t & Ht & Hx)]; [by left|].
      right. exists t. split; [by apply elem_of_cons; right|done].
Qed.

Lemma elem_of_join c segs s x : s ∈ segs -> x ∈ s -> x ∈ join_with c segs.
Proof.
  induction segs as [|t segs IH]; intros Hs Hx; [by apply not_elem_of_nil in Hs|].
  apply elem_of_cons in Hs as [->|Hs]; simpl; destruct segs as [|u segs].
  - done.
  - apply elem_of_app. by left.
  - by apply not_elem_of_nil in Hs.
  - apply elem_of_app. right. right. by apply IH.
Qed.

(** ** NUL bytes

    A byte 0 is never part of a longer rune, so it shows up as the rune 0. *)

Lemma DecodeRune_cont l :
  (1 <= snd (DecodeRune l))%nat \/ l = [].
Proof.
  destruct l as [|c l]; [by right|left]. unfold DecodeRune.
  repeat case_match; cbn; lia.
Qed.

Lemma DecodeRune_tail l i c :
  (0 < i < snd (DecodeRune l))%nat -> l !! i = Some c -> 128 <= byte_val c.
Proof.
  assert (Hc : forall lo hi d, 128 <= lo -> is_cont lo hi d = true -> 128 <= byte_val d).
  { unfold is_cont. intros lo hi d ? H. apply andb_true_iff in H as [H _]. apply Z.leb_le in H. lia. }
  destruct l as [|c0 l]; [cbn; lia|]. unfold DecodeRune.
  repeat case_match; cbn [snd]; intros Hi; try lia;
    repeat match goal with H : _ && _ = true |- _ => apply andb_true_iff in H as [? ?] end;
    intros Hl; destruct i as [|[|[|[|i]]]]; try lia; cbn in Hl; simplify_eq;
    (eapply Hc; [|eassumption]; repeat case_match; lia).
Qed.

Lemma nul_rune skip l :
  (forall i c, (i < skip)%nat -> l !! i = Some c -> 128 <= byte_val c) ->
  byte_of 0 ∈ l -> 0 ∈ map fst (decode_from skip l).
Proof.
  revert skip. induction l as [|c l IH]; intros skip Hs Hin; [by apply elem_of_nil in Hin|].
  destruct skip as [|k]; cbn [decode_from].
  - cbn [map]. apply elem_of_cons in Hin as [<-|Hin]; [by left|]. right. apply IH; [|done].
    intros i d Hi Hd. apply (DecodeRune_tail (c :: l) (S i) d); [|done]. lia.
  - apply elem_of_cons in Hin as [<-|Hin].
    + specialize (Hs O (byte_of 0) ltac:(lia) eq_refl). by cbn in Hs.
    + apply IH; [|done]. intros i d Hi Hd. apply (Hs (S i) d); [lia|done].
Qed.

(** A string without the rune 0 has no NUL byte. *)
Lemma no_nul s : 0 ∉ runes s -> byte_of 0 ∉ bytes s.
Proof. intros H Hin. apply H. by apply nul_rune; [intros; lia|]. Qed.

Lemma app_sep_inj {A} (c : A) a b a' b' :
  c ∉ a -> c ∉ a' -> a ++ c :: b = a' ++ c :: b' -> a = a' /\ b = b'.
Proof.
  revert a'. induction a as [|x a IH]; intros [|x' a'] H H' E; cbn in E; simplify_eq; [done| | |].
  - exfalso. apply H'. by left.
  - exfalso. apply H. by left.
  - destruct (IH a') as [-> ->]; [set_solver|set_solver|done|done].
Qed.

(** ** Facts of [strings.TrimSpace]

    Trimming is idempotent, also on invalid UTF-8, and leaves a text of
    printable ASCII alone. *)

#[local] Arguments DecodeRune : simpl never.
#[local] Arguments IsSpace : simpl never.

Lemma trim_left_idem skip l : trim_left 0 (trim_left skip l) = trim_left skip l.
Proof.
  revert skip. induction l as [|c l IH]; intros [|k]; try done; [|apply IH].
  cbn [trim_left]. destruct (IsSpace (fst (DecodeRune (c :: l)))) eqn:E; [apply IH|].
  cbn [trim_left]. by rewrite E.
Qed.

Lemma trim_right_idem skip rl : trim_right 0 (trim_right skip rl) = trim_right skip rl.
Proof.
  revert skip. induction rl as [|c rl IH]; intros [|k]; try done; [|apply IH].
  cbn [trim_right]. destruct (last_space_width (c :: rl)) eqn:E; [|apply IH].
  cbn [trim_right]. by rewrite E.
Qed.

Lemma trim_right_suffix skip rl : exists q, rl = q ++ trim_right skip rl.
Proof.
  revert skip. induction rl as [|c rl IH]; intros [|k]; [by exists []|by exists []| |].
  - cbn [trim_right]. destruct (last_space_width (c :: rl)); [by exists []|].
    destruct (IH n) as [q Eq]. exists (c :: q). simpl. by f_equal.
  - destruct (IH k) as [q Eq]. exists (c :: q). simpl. by f_equal.
Qed.

(** A space at the head of a text stays one when the text is extended. *)
Lemma space_head_app p q :
  IsSpace (fst (DecodeRune p)) = true -> IsSpace (fst (DecodeRune (p ++ q))) = true.
Proof.
  destruct p as [|a p]; [done|]. unfold DecodeRune. rewrite <- app_comm_cons.
  destruct (byte_val a <? 128); [done|].
  repeat (match goal with |- context [if ?b then _ else _] =>
            match b with context [byte_val a] => destruct b end end; try done);
  destruct p as [|b [|c [|d p]]]; try done; simpl app; cbv iota beta;
  by repeat match goal with |- context [if ?b then _ else _] => destruct b end.
Qed.

Lemma trim_left_head l : trim_left 0 l = l -> l = [] \/ IsSpace (fst (DecodeRune l)) = false.
Proof.
  destruct l as [|c l]; [by left|]. intros E. right. cbn [trim_left] in E.
  destruct (IsSpace (fst (DecodeRune (c :: l)))); [|done].
  assert (forall k l, (length (trim_left k l) <= length l)%nat) as L.
  { clear. intros k l. revert k. induction l as [|c l IH]; intros [|k]; simpl; try lia; [|specialize (IH k); lia].
    destruct (IsSpace _); simpl; [|lia]. specialize (IH (pred (snd (DecodeRune (c :: l))))). lia. }
  specialize (L (pred (snd (DecodeRune (c :: l)))) l). rewrite E in L. simpl in L. lia.
Qed.

Lemma TrimSpace_idem s : TrimSpace (TrimSpace s) = TrimSpace s.
Proof.
  unfold TrimSpace. rewrite bytes_of_bytes. f_equal.
  set (l := trim_left 0 (bytes s)). assert (trim_left 0 l = l) as El by apply trim_left_idem.
  destruct (trim_right_suffix 0 (rev l)) as [q Eq].
  set (p := rev (trim_right 0 (rev l))).
  assert (l = p ++ rev q) as Ep by (unfold p; rewrite <- rev_app_distr, <- Eq; by rewrite rev_involutive).
  assert (trim_left 0 p = p) as ->.
  { apply trim_left_head in El. destruct p as [|c p]; [done|]. cbn [trim_left].
    destruct (IsSpace (fst (DecodeRune (c :: p)))) eqn:S; [|done].
    apply (space_head_app _ (rev q)) in S. rewrite <- Ep in S. destruct El as [El|El]; [|congruence].
    rewrite El in Ep. discriminate Ep. }
  unfold p. by rewrite rev_involutive, trim_right_idem.
Qed.

(** Printable ASCII that is not a space. *)
Definition plain (c : ascii) : Prop := byte_val c < 128 /\ IsSpace (byte_val c) = false.

Lemma TrimSpace_plain s : Forall plain (bytes s) -> TrimSpace s = s.
Proof.
  intros F. unfold TrimSpace.
  assert (trim_left 0 (bytes s) = bytes s) as ->.
  { destruct (bytes s) as [|c l]; [done|]. apply Forall_cons in F as [[L S] _].
    cbn [trim_left]. unfold DecodeRune. rewrite (proj2 (Z.ltb_lt _ _) L). simpl. by rewrite S. }
  assert (trim_right 0 (rev (bytes s)) = rev (bytes s)) as ->.
  { apply Forall_rev in F. destruct (rev (bytes s)) as [|c l]; [done|].
    apply Forall_cons in F as [[L S] _]. cbn [trim_right last_space_width].
    by rewrite (proj2 (Z.ltb_lt _ _) L), S. }
  by rewrite rev_involutive, of_bytes_bytes.
Qed.
