(* ===== verification/Path.v ===== *)
(** * Request path normalization (internal/engine/path.go)

    Percent-decoding to a fixpoint, [path.Clean], the hostile-encoding checks
    and the additional view of the path that a backend stripping matrix
    parameters routes on. Paths are byte strings; the definitions work on
    lists of bytes. *)

From S2P Require Import Prelude GoText.
From Stdlib Require Import Ascii.

Open Scope list_scope.
Open Scope Z_scope.

Definition slash : ascii := "/"%char.
Definition dot : list ascii := ["."%char].
Definition dotdot : list ascii := ["."%char; "."%char].
Definition percent : ascii := "%"%char.
Definition semicolon : ascii := ";"%char.
Definition nul_byte : ascii := ascii_of_nat 0.

Definition bytes_eqb (a b : list ascii) : bool := bool_decide (a = b).
Definition mem_byte (c : ascii) (l : list ascii) : bool := existsb (Ascii.eqb c) l.

(** ** [net/url.PathUnescape] *)

Definition unhex (c : ascii) : Z :=
  let b := byte_val c in
  if (48 <=? b) && (b <=? 57) then b - 48
  else if (97 <=? b) && (b <=? 102) then b - 87
  else if (65 <=? b) && (b <=? 70) then b - 55 else 0.

Fixpoint PathUnescape (l : list ascii) : option (list ascii) :=
  match l with
  | [] => Some []
  | c :: l' =>
      if Ascii.eqb c percent then
        match l' with
        | a :: b :: rest =>
            if is_hex_char a && is_hex_char b
            then cons (byte_of (unhex a * 16 + unhex b)) <$> PathUnescape rest
            else None
        | _ => None
        end
      else cons c <$> PathUnescape l'
  end.

(** The decoding loop of [fullyDecodePath]: [n] rounds left, [cur] the text
    decoded so far. *)
Fixpoint decode_rounds (n : nat) (cur : list ascii) : option (list ascii) :=
  match n with
  | O => if mem_byte percent cur then None else Some cur
  | S k =>
      match PathUnescape cur with
      | None => None
      | Some next =>
          if bytes_eqb next cur then Some cur
          else if mem_byte nul_byte next then None
          else decode_rounds k next
      end
  end.

Definition fullyDecodePath (raw : list ascii) (maxRounds : nat) : option (list ascii) :=
  decode_rounds (Nat.max 1 maxRounds) raw.

(** ** [path.Clean] *)

(** One path element against the stack of kept elements (innermost first). *)
Definition clean_step (rooted : bool) (stack : list (list ascii)) (seg : list ascii)
  : list (list ascii) :=
  if bytes_eqb seg [] || bytes_eqb seg dot then stack
  else if bytes_eqb seg dotdot then
    match stack with
    | [] => if rooted then [] else [dotdot]
    | top :: rest => if bytes_eqb top dotdot then dotdot :: stack else rest
    end
  else seg :: stack.

Definition is_rooted (p : list ascii) : bool :=
  match p with c :: _ => Ascii.eqb c slash | [] => false end.

Definition clean_segs (rooted : bool) (p : list ascii) : list (list ascii) :=
  rev (fold_left (clean_step rooted) (split_on slash p) []).

Definition Clean (p : list ascii) : list ascii :=
  match p with
  | [] => dot
  | _ =>
      let rooted := is_rooted p in
      let body := join_with slash (clean_segs rooted p) in
      if rooted then slash :: body
      else match body with [] => dot | _ => body end
  end.

(** ** The normalizer *)

(** The scan of [hasMatrixParentSegment]: is some path element's beginning
    ["..;"]? [at_start] marks the first byte of an element. *)
Fixpoint matrix_scan (at_start : bool) (l : list ascii) : bool :=
  match l with
  | [] => false
  | c :: l' =>
      (at_start && has_prefix (dotdot ++ [semicolon]) l) || matrix_scan (Ascii.eqb c slash) l'
  end.

Definition hasMatrixParentSegment (decoded : list ascii) : bool :=
  mem_byte semicolon decoded && matrix_scan true decoded.

(** The explicit guard against a parent element left in the cleaned path. *)
Definition residual_parent (cleaned : list ascii) : bool :=
  bytes_eqb cleaned dotdot
  || has_prefix (dotdot ++ [slash]) cleaned
  || contains (slash :: dotdot ++ [slash]) cleaned
  || has_prefix (rev (slash :: dotdot)) (rev cleaned).

Definition normalize_bytes (raw : list ascii) : option (list ascii) :=
  if bytes_eqb raw [] || mem_byte nul_byte raw then None
  else match fullyDecodePath raw 5 with
  | None => None
  | Some decoded =>
    if hasMatrixParentSegment decoded then None
    else
      let cleaned := Clean decoded in
      if bytes_eqb cleaned [] || bytes_eqb cleaned dot then None
      else
        let cleaned := if is_rooted cleaned then cleaned else Clean (slash :: cleaned) in
        if bytes_eqb cleaned [] || bytes_eqb cleaned dot then None
        else if residual_parent cleaned then None
        else if mem_byte percent cleaned then None
        else Some cleaned
  end.

Definition NormalizeRequestPath (raw : string) : option string :=
  of_bytes <$> normalize_bytes (bytes raw).

(** ** Routing views *)

(** The matrix-parameter stripping loop of [SecurityPathViews]. *)
Fixpoint strip_params (inParameter : bool) (l : list ascii) : list ascii :=
  match l with
  | [] => []
  | c :: l' =>
      if Ascii.eqb c slash then slash :: strip_params false l'
      else if Ascii.eqb c semicolon then strip_params true l'
      else if inParameter then strip_params inParameter l'
      else c :: strip_params inParameter l'
  end.

Definition views_bytes (raw : list ascii) : option (list (list ascii)) :=
  match normalize_bytes raw with
  | None => None
  | Some cleaned =>
      let views := raw :: (if bytes_eqb cleaned raw then [] else [cleaned]) in
      if negb (mem_byte semicolon raw || mem_byte percent raw) then Some views
      else match fullyDecodePath raw 5 with
      | None => None
      | Some decoded =>
          if negb (mem_byte semicolon decoded) then Some views
          else
            let m := Clean (strip_params false decoded) in
            let matrixPath := if is_rooted m then m else Clean (slash :: m) in
            if existsb (fun v => bytes_eqb v matrixPath) views then Some views
            else Some (views ++ [matrixPath])
      end
  end.

Definition SecurityPathViews (raw : string) : option (list string) :=
  map of_bytes <$> views_bytes (bytes raw).

Definition PathMatchesPrefix (requestPath prefix : string) : bool :=
  if String.eqb prefix "" then true
  else if String.eqb requestPath "" then false
  else
    let base := TrimRightByte prefix slash in
    if String.eqb base "" then HasPrefix requestPath "/"
    else String.eqb requestPath base || HasPrefix requestPath (base ++ "/")%string.

(** ** Facts about bytes and segments *)

Lemma bytes_eqb_true a b : bytes_eqb a b = true <-> a = b.
Proof. apply bool_decide_eq_true. Qed.

Lemma bytes_eqb_false a b : bytes_eqb a b = false <-> a <> b.
Proof. apply bool_decide_eq_false. Qed.

Lemma mem_byte_true c l : mem_byte c l = true <-> c ∈ l.
Proof.
  unfold mem_byte. rewrite existsb_exists. split.
  - intros (x & Hx & E). apply Ascii.eqb_eq in E as ->. by apply list_elem_of_In.
  - intros H. exists c. split; [by apply list_elem_of_In|apply Ascii.eqb_refl].
Qed.

Lemma mem_byte_false c l : mem_byte c l = false <-> c ∉ l.
Proof. rewrite <- mem_byte_true. by destruct (mem_byte c l). Qed.

(** An element that [path.Clean] keeps in a rooted path. *)
Definition plain (s : list ascii) : Prop :=
  s <> [] /\ s <> dot /\ s <> dotdot /\ slash ∉ s.

(** What the normalizer additionally guarantees of every element. *)
Definition harmless (s : list ascii) : Prop :=
  has_prefix (dotdot ++ [semicolon]) s = false /\ nul_byte ∉ s.

Lemma clean_step_Forall (P : list ascii -> Prop) rooted stack seg :
  P dotdot -> P seg -> Forall P stack -> Forall P (clean_step rooted stack seg).
Proof.
  intros Hdd Hs HF. unfold clean_step.
  destruct (_ || _); [done|]. destruct (bytes_eqb seg dotdot).
  - destruct stack as [|top rest]; [destruct rooted; auto|].
    destruct (bytes_eqb top dotdot); [by constructor|]. by inversion HF.
  - by constructor.
Qed.

Lemma clean_fold_Forall (P : list ascii -> Prop) rooted segs stack :
  P dotdot -> Forall P segs -> Forall P stack ->
  Forall P (fold_left (clean_step rooted) segs stack).
Proof.
  intros Hdd Hs. revert stack. induction Hs as [|s segs Hs _ IH]; simpl; intros stack HF; [done|].
  apply IH. by apply clean_step_Forall.
Qed.

Lemma clean_segs_Forall (P : list ascii -> Prop) rooted p :
  P dotdot -> Forall P (split_on slash p) -> Forall P (clean_segs rooted p).
Proof. intros. apply Forall_rev. by apply clean_fold_Forall. Qed.

Lemma clean_step_plain stack seg :
  slash ∉ seg -> Forall plain stack -> Forall plain (clean_step true stack seg).
Proof.
  intros Hs HF. unfold clean_step.
  destruct (bytes_eqb seg [] || bytes_eqb seg dot) eqn:E1; [done|].
  apply orb_false_iff in E1 as [E1 E2]. apply bytes_eqb_false in E1, E2.
  destruct (bytes_eqb seg dotdot) eqn:E3.
  - destruct stack as [|top rest]; [done|]. inversion HF as [|? ? Ht Hr]; subst.
    destruct (bytes_eqb top dotdot) eqn:E4; [|done].
    apply bytes_eqb_true in E4. by destruct Ht as (_ & _ & ? & _).
  - apply bytes_eqb_false in E3. constructor; [by repeat split|done].
Qed.

Lemma clean_segs_plain p : Forall plain (clean_segs true p).
Proof.
  apply Forall_rev. pose proof (split_on_free slash p) as HF.
  assert (Forall plain []) as H0 by constructor. revert H0.
  generalize (@nil (list ascii)). induction HF as [|s segs Hs _ IH]; simpl; intros stack H0; [done|].
  apply IH. by apply clean_step_plain.
Qed.

Lemma plain_step s stack : plain s -> clean_step true stack s = s :: stack.
Proof.
  intros (H1 & H2 & H3 & _). unfold clean_step.
  apply bytes_eqb_false in H1, H2, H3. by rewrite H1, H2, H3.
Qed.

Lemma plain_fold segs stack :
  Forall plain segs -> fold_left (clean_step true) segs stack = rev segs ++ stack.
Proof.
  intros H. revert stack. induction H as [|s segs Hs _ IH]; simpl; intros stack; [done|].
  rewrite plain_step, IH by done. by rewrite <- app_assoc.
Qed.

Lemma plain_slash_free segs : Forall plain segs -> Forall (fun s => slash ∉ s) segs.
Proof. intros H. eapply Forall_impl; [exact H|]. by intros s (_ & _ & _ & ?). Qed.

(** The elements of a rooted path whose elements are plain. *)
Lemma split_rooted segs :
  Forall (fun s => slash ∉ s) segs ->
  split_on slash (slash :: join_with slash segs) = [] :: (match segs with [] => [[]] | _ => segs end).
Proof.
  intros H. rewrite split_on_sep. f_equal. destruct segs as [|s segs]; [done|].
  by apply split_join.
Qed.

(** [path.Clean] leaves a canonical rooted path alone. *)
Lemma Clean_canonical segs :
  Forall plain segs -> Clean (slash :: join_with slash segs) = slash :: join_with slash segs.
Proof.
  intros H. unfold Clean, is_rooted. rewrite Ascii.eqb_refl. f_equal. f_equal.
  unfold clean_segs. rewrite split_rooted by by apply plain_slash_free.
  destruct segs as [|s segs]; [done|].
  change (fold_left (clean_step true) ([] :: s :: segs) [])
    with (fold_left (clean_step true) (s :: segs) []).
  rewrite plain_fold by done. by rewrite app_nil_r, rev_involutive.
Qed.

Lemma Clean_rooted p :
  is_rooted p = true -> Clean p = slash :: join_with slash (clean_segs true p).
Proof. intros H. destruct p as [|c p]; [done|]. unfold Clean. by rewrite H. Qed.

(** ** The matrix scan looks at the beginning of every element *)

Lemma has_prefix_first c p l :
  c ∉ p ->
  has_prefix p l = match split_on c l with seg :: _ => has_prefix p seg | [] => false end.
Proof.
  revert l. induction p as [|a p IH]; intros l Hp; simpl.
  - destruct (split_on c l) eqn:E; [by apply split_on_ne in E|done].
  - apply not_elem_of_cons in Hp as [Hne Hp]. destruct l as [|d l]; simpl; [done|].
    destruct (Ascii.eqb_spec c d) as [->|Hcd]; simpl.
    + destruct (Ascii.eqb_spec a d) as [->|_]; [done|done].
    + rewrite (IH l Hp).
      by destruct (split_on c l) as [|seg rest] eqn:E; [apply split_on_ne in E|].
Qed.

Lemma matrix_scan_spec b l :
  matrix_scan b l =
  existsb (has_prefix (dotdot ++ [semicolon]))
    (if b then split_on slash l else tail (split_on slash l)).
Proof.
  revert b. induction l as [|c l IH]; intros b; [by destruct b|].
  assert (slash ∉ dotdot ++ [semicolon]) as Hp
    by (rewrite <- mem_byte_false; reflexivity).
  destruct (Ascii.eqb slash c) eqn:E.
  - pose proof E as E'. apply Ascii.eqb_eq in E' as <-. rewrite split_on_sep.
    cbn [matrix_scan]. rewrite Ascii.eqb_refl, IH. by destruct b.
  - destruct (split_on_other slash c l E) as (seg & rest & E1 & E2).
    cbn [matrix_scan]. rewrite (has_prefix_first slash) by done. rewrite E2.
    rewrite (ascii_eqb_sym c slash), E, IH, E1. by destruct b.
Qed.

(** ** Percent-decoding reaches a fixpoint *)

Lemma PathUnescape_plain l : percent ∉ l -> PathUnescape l = Some l.
Proof.
  induction l as [|c l IH]; [done|]. intros [Hc Hl]%not_elem_of_cons. cbn [PathUnescape].
  destruct (Ascii.eqb_spec c percent) as [->|_]; [done|]. by rewrite IH.
Qed.

Lemma decode_rounds_fix n cur d :
  decode_rounds n cur = Some d -> nul_byte ∉ cur ->
  PathUnescape d = Some d /\ nul_byte ∉ d.
Proof.
  revert cur. induction n as [|n IH]; intros cur H Hnul; simpl in H.
  - destruct (mem_byte percent cur) eqn:E; simplify_eq.
    apply mem_byte_false in E. split; [by apply PathUnescape_plain|done].
  - destruct (PathUnescape cur) as [next|] eqn:En; [|done].
    destruct (bytes_eqb next cur) eqn:Eq.
    + apply bytes_eqb_true in Eq as ->. by simplify_eq.
    + destruct (mem_byte nul_byte next) eqn:Em; [done|].
      apply mem_byte_false in Em. eauto.
Qed.

(** ** What a successful normalization establishes *)

Lemma harmless_dotdot : harmless dotdot.
Proof. split; [done|]. rewrite <- mem_byte_false. reflexivity. Qed.

Lemma harmless_segments d :
  matrix_scan true d = false -> nul_byte ∉ d -> Forall harmless (split_on slash d).
Proof.
  rewrite matrix_scan_spec. intros Hm Hn. apply Forall_forall. intros s Hs. split.
  - destruct (has_prefix (dotdot ++ [semicolon]) s) eqn:E; [|done].
    rewrite <- Hm. symmetry. apply existsb_exists.
    exists s. split; [by apply list_elem_of_In|done].
  - intros Hx. apply Hn. pose proof (split_on_chars slash d) as HF.
    rewrite Forall_forall in HF. eauto.
Qed.

Lemma matrix_scan_absent b l : semicolon ∉ l -> matrix_scan b l = false.
Proof.
  revert b. induction l as [|c l IH]; intros b H; [done|].
  cbn [matrix_scan]. rewrite IH by (intros ?; apply H; by apply elem_of_cons; right).
  rewrite orb_false_r. destruct b; [|done]. simpl.
  destruct (has_prefix (dotdot ++ [semicolon]) (c :: l)) eqn:E; [|by simpl in E].
  apply has_prefix_spec in E as [r Hr]. exfalso. apply H. rewrite Hr.
  apply mem_byte_true. reflexivity.
Qed.

Lemma no_matrix_parent d : hasMatrixParentSegment d = false -> matrix_scan true d = false.
Proof.
  unfold hasMatrixParentSegment. destruct (mem_byte semicolon d) eqn:E; simpl; [done|].
  intros _. apply mem_byte_false in E. by apply matrix_scan_absent.
Qed.

(** Cleaning below the root again, for a decoded path that was not rooted. *)
Lemma clean_unrooted_body d (P : list ascii -> Prop) :
  P dotdot -> P [] -> P dot -> Forall P (split_on slash d) -> is_rooted d = false ->
  Forall P (split_on slash (slash :: Clean d)).
Proof.
  intros H1 H0 H2 HF Hr. rewrite split_on_sep. constructor; [done|].
  unfold Clean. rewrite Hr. destruct d as [|c d]; [by vm_compute; repeat constructor|].
  assert (Forall P (clean_segs false (c :: d))) as HP by by apply clean_segs_Forall.
  assert (Forall (fun s => slash ∉ s) (clean_segs false (c :: d))) as Hs.
  { apply clean_segs_Forall; [|apply split_on_free]. rewrite <- mem_byte_false. reflexivity. }
  destruct (join_with slash (clean_segs false (c :: d))) eqn:E.
  { repeat constructor; done. }
  rewrite <- E. rewrite split_join; [done| |done].
  intros Hn. by rewrite Hn in E.
Qed.

(** The elements kept from an unrooted path are non-empty and slash-free. *)
Lemma clean_segs_proper rooted d :
  Forall (fun s => s <> [] /\ slash ∉ s) (clean_segs rooted d).
Proof.
  apply Forall_rev. pose proof (split_on_free slash d) as Hf.
  assert (Forall (fun s : list ascii => s <> [] /\ slash ∉ s) []) as HB by constructor.
  revert HB. generalize (@nil (list ascii)).
  induction Hf as [|s segs Hs Hf IH]; simpl; intros st HB; [done|]. apply IH.
  unfold clean_step. destruct (bytes_eqb s []) eqn:E1; [done|]. simpl.
  apply bytes_eqb_false in E1. destruct (bytes_eqb s dot); [done|].
  assert (slash ∉ dotdot) by (rewrite <- mem_byte_false; reflexivity).
  destruct (bytes_eqb s dotdot); [|by constructor].
  destruct st as [|t st]; [destruct rooted; by repeat constructor|].
  destruct (bytes_eqb t dotdot); [by constructor|by inversion HB].
Qed.

Lemma Clean_unrooted d : is_rooted d = false -> is_rooted (Clean d) = false.
Proof.
  intros Er. unfold Clean. rewrite Er. destruct d as [|c d]; [done|].
  pose proof (clean_segs_proper false (c :: d)) as Hs.
  destruct (clean_segs false (c :: d)) as [|s segs]; [done|].
  inversion Hs as [|? ? [Hs1 Hs2] _]; subst. destruct s as [|x s]; [done|].
  apply not_elem_of_cons in Hs2 as [Hx _].
  destruct segs; simpl; apply Ascii.eqb_neq; done.
Qed.

Lemma is_rooted_cons p : is_rooted (slash :: p) = true.
Proof. apply Ascii.eqb_refl. Qed.

Lemma harmless_small s : s ∈ [[]; dot] -> harmless s.
Proof.
  intros H. apply elem_of_cons in H as [->|H].
  - split; [done|]. apply not_elem_of_nil.
  - apply list_elem_of_singleton in H as ->.
    split; [done|]. rewrite <- mem_byte_false. reflexivity.
Qed.

Lemma normalize_bytes_canonical raw q :
  normalize_bytes raw = Some q ->
  exists segs, q = slash :: join_with slash segs /\ Forall plain segs /\ Forall harmless segs.
Proof.
  unfold normalize_bytes. intros H.
  destruct (bytes_eqb raw [] || mem_byte nul_byte raw) eqn:E0; [done|].
  apply orb_false_iff in E0 as [_ Hnul]. apply mem_byte_false in Hnul.
  destruct (fullyDecodePath raw 5) as [d|] eqn:Ed; [|done].
  apply decode_rounds_fix in Ed as [_ Hd]; [|done].
  destruct (hasMatrixParentSegment d) eqn:Em; [done|]. apply no_matrix_parent in Em.
  pose proof (harmless_segments d Em Hd) as HF.
  destruct (bytes_eqb (Clean d) [] || bytes_eqb (Clean d) dot) in H; [done|].
  set (c := if is_rooted (Clean d) then Clean d else Clean (slash :: Clean d)) in H.
  assert (q = c) as ->.
  { destruct (bytes_eqb c [] || bytes_eqb c dot) in H; [done|].
    destruct (residual_parent c) in H; [done|]. destruct (mem_byte percent c) in H; [done|].
    by apply (inj Some) in H. }
  clear H. subst c. destruct (is_rooted d) eqn:Er.
  - rewrite (Clean_rooted d Er), is_rooted_cons.
    eexists. split; [done|]. split; [apply clean_segs_plain|].
    by apply clean_segs_Forall; [apply harmless_dotdot|].
  - rewrite (Clean_unrooted d Er), (Clean_rooted (slash :: Clean d)) by apply is_rooted_cons.
    eexists. split; [done|]. split; [apply clean_segs_plain|].
    apply clean_segs_Forall; [apply harmless_dotdot|].
    apply clean_unrooted_body; try done; try apply harmless_dotdot; apply harmless_small.
    + by left.
    + by right; left.
Qed.

Lemma normalize_bytes_guards raw q :
  normalize_bytes raw = Some q -> residual_parent q = false /\ percent ∉ q.
Proof.
  unfold normalize_bytes. intros H. branch H;
    apply (inj Some) in H as <-; (split; [done|by apply mem_byte_false]).
Qed.


Lemma harmless_join segs :
  Forall plain segs -> Forall harmless segs ->
  (matrix_scan true (slash :: join_with slash segs) = false)
  /\ (nul_byte ∉ slash :: join_with slash segs).
Proof.
  intros Hp Hh. split.
  - rewrite matrix_scan_spec, split_rooted by by apply plain_slash_free. simpl.
    destruct (existsb _ _) eqn:E; [|done]. apply existsb_exists in E as (s & Hs & E).
    assert (s ∈ [] \/ s ∈ segs \/ s = []) as Hin.
    { apply list_elem_of_In in Hs. destruct segs as [|t segs]; [|by right; left].
      apply list_elem_of_singleton in Hs. by right; right. }
    destruct Hin as [Hin|[Hin| ->]]; [by apply not_elem_of_nil in Hin| |done].
    rewrite Forall_forall in Hh. destruct (Hh s Hin) as [Hh1 _]. simpl in *. congruence.
  - intros [Hc|Hc]%elem_of_cons; [done|].
    apply join_chars in Hc as [Hc|(s & Hs & Hx)]; [done|].
    rewrite Forall_forall in Hh. by destruct (Hh s Hs).
Qed.

(** ** Properties *)

(** The elements of a path, and the text of one. *)
Definition rooted_path (segs : list string) : string :=
  of_bytes (slash :: join_with slash (map bytes segs)).

(** An element of a normalized path: none of the spellings that make a
    backend climb out of the directory, no encoding left, no NUL. *)
Definition safe_element (s : string) : Prop :=
  s <> ""%string /\ s <> "."%string /\ s <> ".."%string
  /\ HasPrefix s "..;" = false
  /\ (slash ∉ bytes s) /\ (percent ∉ bytes s) /\ (nul_byte ∉ bytes s).

(** C36. Whatever the client sends, a path that [NormalizeRequestPath] accepts
    is absolute and is the join of safe elements: none is empty, ["."] or
    [".."], none begins with ["..;"], and none contains a slash, a percent
    sign or a NUL byte. *)
Theorem normalized_path_safe (raw q : string) :
  NormalizeRequestPath raw = Some q ->
  exists segs, q = rooted_path segs /\ Forall safe_element segs.
Proof.
  unfold NormalizeRequestPath. intros H. apply fmap_Some in H as (qb & Hq & ->).
  pose proof (normalize_bytes_guards _ _ Hq) as [_ Hpc].
  apply normalize_bytes_canonical in Hq as (segs & -> & Hp & Hh).
  exists (map of_bytes segs). split.
  - unfold rooted_path. rewrite map_map. do 3 f_equal. symmetry.
    rewrite <- (map_id segs) at 2. apply map_ext. apply bytes_of_bytes.
  - apply Forall_map, Forall_forall. intros s Hs. rewrite Forall_forall in Hp, Hh.
    destruct (Hp s Hs) as (H1 & H2 & H3 & H4). destruct (Hh s Hs) as [H5 H6].
    unfold safe_element, HasPrefix. rewrite bytes_of_bytes.
    repeat split; try done.
    + intros E. apply H1. by apply of_bytes_inj.
    + intros E. apply H2. by apply of_bytes_inj.
    + intros E. apply H3. by apply of_bytes_inj.
    + intros Hx. apply Hpc. right. by apply (elem_of_join slash segs s).
Qed.

Lemma normalize_bytes_idem raw q :
  normalize_bytes raw = Some q -> normalize_bytes q = Some q.
Proof.
  intros H. pose proof (normalize_bytes_guards _ _ H) as [Hg Hpc].
  apply normalize_bytes_canonical in H as (segs & -> & Hp & Hh).
  destruct (harmless_join segs Hp Hh) as [Hm Hn].
  unfold normalize_bytes.
  assert (mem_byte nul_byte (slash :: join_with slash segs) = false) as ->
    by by apply mem_byte_false.
  simpl (bytes_eqb _ [] || _). unfold fullyDecodePath. simpl (Nat.max _ _).
  cbn [decode_rounds]. rewrite PathUnescape_plain by done.
  assert (bytes_eqb (slash :: join_with slash segs) (slash :: join_with slash segs) = true) as ->
    by by apply bytes_eqb_true.
  unfold hasMatrixParentSegment. rewrite Hm, andb_false_r.
  rewrite Clean_canonical by done. rewrite is_rooted_cons, Hg.
  assert (mem_byte percent (slash :: join_with slash segs) = false) as ->
    by by apply mem_byte_false.
  done.
Qed.

(** Normalization is idempotent: a normalized path is its own normal
    form, so a policy that normalizes twice decides on the same path. *)
Theorem normalize_idempotent (raw q : string) :
  NormalizeRequestPath raw = Some q -> NormalizeRequestPath q = Some q.
Proof.
  unfold NormalizeRequestPath. intros (qb & Hq & ->)%fmap_Some.
  rewrite bytes_of_bytes. by rewrite (normalize_bytes_idem _ _ Hq).
Qed.

(** ** Prefix matching *)

Definition elements_of (p : string) : list (list ascii) := split_on slash (bytes p).

Lemma drop_while_repeat c k l :
  (forall d r, l = d :: r -> d <> c) -> drop_while_byte c (repeat c k ++ l) = l.
Proof.
  intros H. induction k as [|k IH]; simpl.
  - destruct l as [|d r]; simpl; [done|].
    destruct (Ascii.eqb_spec c d) as [->|_]; [|done]. by destruct (H d r).
  - by rewrite Ascii.eqb_refl.
Qed.

Lemma join_app_sep c (a b : list (list ascii)) :
  a <> [] -> b <> [] -> join_with c (a ++ b) = join_with c a ++ c :: join_with c b.
Proof.
  intros Ha Hb. induction a as [|s a IH]; [done|]. destruct a as [|t a].
  - destruct b; [done|]. done.
  - change (join_with c ((s :: t :: a) ++ b)) with (s ++ c :: join_with c ((t :: a) ++ b)).
    change (join_with c (s :: t :: a)) with (s ++ c :: join_with c (t :: a)).
    rewrite IH by done. by rewrite <- app_assoc.
Qed.

Lemma split_on_app_sep c l r : split_on c (l ++ c :: r) = split_on c l ++ split_on c r.
Proof.
  rewrite <- (join_split c l) at 1. rewrite <- (join_split c r) at 1.
  rewrite <- join_app_sep by apply split_on_ne.
  apply split_join.
  - intros E. apply app_nil in E as [E _]. by apply split_on_ne in E.
  - apply Forall_app. split; apply split_on_free.
Qed.

Lemma prefix_elements (base p : list ascii) :
  (p = base \/ exists r, p = base ++ slash :: r) <->
  split_on slash base `prefix_of` split_on slash p.
Proof.
  split.
  - intros [->|[r ->]]; [done|]. rewrite split_on_app_sep. by apply prefix_app_r.
  - intros [k Hk]. destruct k as [|s k].
    + left. rewrite <- (join_split slash p), Hk, app_nil_r. apply join_split.
    + right. exists (join_with slash (s :: k)).
      rewrite <- (join_split slash p), Hk, join_app_sep by (done || apply split_on_ne).
      by rewrite join_split.
Qed.

(** [prefix] is [base] followed by slashes, and [base] does not end in one. *)
Definition trailing_slashes (prefix base : string) : Prop :=
  (exists k, bytes prefix = bytes base ++ repeat slash k)
  /\ (forall b, bytes base <> b ++ [slash]).

Lemma TrimRightByte_spec prefix base :
  trailing_slashes prefix base -> TrimRightByte prefix slash = base.
Proof.
  intros [[k Hk] Hb]. unfold TrimRightByte. apply bytes_inj. rewrite bytes_of_bytes, Hk.
  rewrite rev_app_distr, rev_repeat, drop_while_repeat; [apply rev_involutive|].
  intros d r Hr ->. apply (Hb (rev r)).
  by rewrite <- (rev_involutive (bytes base)), Hr.
Qed.

Lemma HasPrefix_child p base :
  HasPrefix p (base ++ "/") = true <-> exists r, bytes p = bytes base ++ slash :: r.
Proof.
  unfold HasPrefix. rewrite has_prefix_spec, string_append_bytes.
  split; intros [r Hr]; exists r; rewrite Hr; by rewrite <- app_assoc.
Qed.

(** Prefix policies match whole path elements: with the trailing slashes
    of the configured prefix removed, a prefix other than the root matches
    exactly the non-empty paths whose element list extends the prefix's, so
    ["/api"] and ["/api/"] match ["/api/x"] and never ["/apix"]. *)
Theorem prefix_matches_elements (requestPath prefix base : string) :
  trailing_slashes prefix base -> base <> ""%string -> requestPath <> ""%string ->
  PathMatchesPrefix requestPath prefix = true <->
  elements_of base `prefix_of` elements_of requestPath.
Proof.
  intros Hb Hne Hp. unfold PathMatchesPrefix. rewrite (TrimRightByte_spec _ _ Hb).
  assert (prefix <> ""%string) as Hpre.
  { intros ->. destruct Hb as [[k Hk] _]. apply Hne, bytes_inj.
    by destruct (bytes base). }
  apply String.eqb_neq in Hne, Hp, Hpre. rewrite Hne, Hp, Hpre.
  unfold elements_of. rewrite <- prefix_elements, orb_true_iff, String.eqb_eq, HasPrefix_child.
  split; (intros [H|H]; [left|by right]); [by subst|by apply bytes_inj].
Qed.

(** ** Views *)

Lemma strip_params_chars b l x :
  x ∈ strip_params b l -> x <> semicolon /\ (x ∈ l).
Proof.
  revert b. induction l as [|c l IH]; intros b H; [by apply not_elem_of_nil in H|].
  simpl in H. destruct (Ascii.eqb_spec c slash) as [->|H1].
  { apply elem_of_cons in H as [->|H]; [split; [done|by left]|].
    destruct (IH _ H). split; [done|by right]. }
  destruct (Ascii.eqb_spec c semicolon) as [->|H2].
  { destruct (IH _ H). split; [done|by right]. }
  destruct b; [destruct (IH _ H); split; [done|by right]|].
  apply elem_of_cons in H as [->|H]; [split; [done|by left]|].
  destruct (IH _ H). split; [done|by right].
Qed.

Lemma clean_segs_chars rooted p s x :
  s ∈ clean_segs rooted p -> x ∈ s -> x ∈ "."%char :: p.
Proof.
  assert (Forall (fun s => forall x, x ∈ s -> x ∈ "."%char :: p) (clean_segs rooted p)) as HF.
  { apply clean_segs_Forall.
    - intros y Hy. apply elem_of_cons. left.
      by repeat (apply elem_of_cons in Hy as [->|Hy]; [done|]); apply not_elem_of_nil in Hy.
    - eapply Forall_impl; [apply split_on_chars|]. simpl. intros t Ht y Hy.
      apply elem_of_cons. right. by apply Ht. }
  rewrite Forall_forall in HF. eauto.
Qed.

(** Cleaning invents no byte but the slash and the dot. *)
Lemma Clean_chars p x : x ∈ Clean p -> x = slash \/ x ∈ "."%char :: p.
Proof.
  assert (forall r, x ∈ join_with slash (clean_segs r p) -> x = slash \/ x ∈ "."%char :: p) as HJ.
  { intros r Hx. apply join_chars in Hx as [->|(s & Hs & Hx)]; [by left|right].
    by apply (clean_segs_chars r p s). }
  unfold Clean. destruct p as [|c p]; [intros H; by right|].
  destruct (is_rooted (c :: p)) eqn:Er.
  - intros [->|H]%elem_of_cons; [by left|eauto].
  - destruct (join_with slash (clean_segs false (c :: p))) as [|y b] eqn:E.
    + intros H. apply list_elem_of_singleton in H as ->. right. by apply elem_of_cons; left.
    + rewrite <- E. apply HJ.
Qed.

Lemma Clean_semicolon p : semicolon ∉ p -> semicolon ∉ Clean p.
Proof. intros H Hc. apply Clean_chars in Hc as [Hc|Hc]; [done|]. by apply elem_of_cons in Hc as [?|?]. Qed.

(** The result of the two cleaning steps is canonical. *)
Definition rooted_clean (p : list ascii) : list ascii :=
  let m := Clean p in if is_rooted m then m else Clean (slash :: m).

Lemma rooted_clean_canonical p :
  exists segs, rooted_clean p = slash :: join_with slash segs /\ Forall plain segs.
Proof.
  unfold rooted_clean. destruct (is_rooted p) eqn:Er.
  - rewrite (Clean_rooted p Er), is_rooted_cons. eexists. split; [done|]. apply clean_segs_plain.
  - rewrite (Clean_unrooted p Er), (Clean_rooted (slash :: Clean p)) by apply is_rooted_cons.
    eexists. split; [done|]. apply clean_segs_plain.
Qed.

Lemma rooted_clean_semicolon p : semicolon ∉ p -> semicolon ∉ rooted_clean p.
Proof.
  intros H. unfold rooted_clean. destruct (is_rooted (Clean p)); [by apply Clean_semicolon|].
  apply Clean_semicolon. intros [?|Hc]%elem_of_cons; [done|]. by apply Clean_semicolon in Hc.
Qed.

Lemma normalize_bytes_cleaned raw q :
  normalize_bytes raw = Some q ->
  exists d, fullyDecodePath raw 5 = Some d /\ q = rooted_clean d.
Proof.
  unfold normalize_bytes, rooted_clean. intros H. branch H;
    apply (inj Some) in H as <-; eexists; (split; [done|]);
    repeat match goal with E : is_rooted _ = _ |- _ => rewrite E end; done.
Qed.

(** An element that [path.Clean] keeps below the root. *)
Definition plain_element (s : string) : Prop :=
  s <> ""%string /\ s <> "."%string /\ s <> ".."%string /\ (slash ∉ bytes s).

Definition canonical (v : string) : Prop :=
  exists segs, v = rooted_path segs /\ Forall plain_element segs.

Lemma rooted_clean_view p : canonical (of_bytes (rooted_clean p)).
Proof.
  destruct (rooted_clean_canonical p) as (segs & -> & Hp).
  exists (map of_bytes segs). split.
  - unfold rooted_path. rewrite map_map. do 3 f_equal. symmetry.
    rewrite <- (map_id segs) at 2. apply map_ext. apply bytes_of_bytes.
  - apply Forall_map. eapply Forall_impl; [exact Hp|]. intros s (H1 & H2 & H3 & H4).
    unfold plain_element, compose. rewrite bytes_of_bytes.
    repeat split; try done; intros E.
    + by apply H1, of_bytes_inj.
    + by apply H2, of_bytes_inj.
    + by apply H3, of_bytes_inj.
Qed.

Lemma views_bytes_spec raw vs :
  views_bytes raw = Some vs ->
  exists d q, fullyDecodePath raw 5 = Some d /\ normalize_bytes raw = Some q /\ q = rooted_clean d
    /\ (forall v, v ∈ vs -> v = raw \/ v = q \/ v = rooted_clean (strip_params false d))
    /\ raw ∈ vs /\ q ∈ vs
    /\ (rooted_clean (strip_params false d) ∈ vs \/ semicolon ∉ d).
Proof.
  unfold views_bytes. destruct (normalize_bytes raw) as [q|] eqn:Eq; [|done].
  destruct (normalize_bytes_cleaned raw q Eq) as (d & Hd & Hq). rewrite Hd.
  set (views := raw :: _). fold (rooted_clean (strip_params false d)).
  assert (raw ∈ views /\ q ∈ views /\ forall v, v ∈ views -> v = raw \/ v = q) as (Hr & Hqv & Hv).
  { subst views. destruct (bytes_eqb q raw) eqn:E.
    - apply bytes_eqb_true in E as ->. set_solver.
    - set_solver. }
  clearbody views.
  assert (forall v, v ∈ views ->
            v = raw \/ v = q \/ v = rooted_clean (strip_params false d)) as Hv'
    by (intros v Hin; destruct (Hv v Hin); by auto).
  destruct (negb (mem_byte semicolon raw || mem_byte percent raw)) eqn:Es.
  { intros [= <-]. exists d, q. do 6 (split; [by eauto|]). right.
    props. apply mem_byte_false in H, H0.
    unfold fullyDecodePath in Hd. simpl in Hd. rewrite PathUnescape_plain in Hd by done.
    assert (bytes_eqb raw raw = true) as Hx by by apply bytes_eqb_true.
    rewrite Hx in Hd. by injection Hd as <-. }
  destruct (negb (mem_byte semicolon d)) eqn:Ed.
  { intros [= <-]. exists d, q. do 6 (split; [by eauto|]). right.
    apply negb_true_iff in Ed. by apply mem_byte_false. }
  destruct (existsb _ views) eqn:Ee; intros [= <-]; exists d, q.
  - apply existsb_exists in Ee as (v & Hin & Hm). apply bytes_eqb_true in Hm as ->.
    apply list_elem_of_In in Hin. do 6 (split; [by eauto|]). by left.
  - do 3 (split; [done|]). split.
    + intros v [H|H]%elem_of_app; [by auto|].
      apply list_elem_of_singleton in H. by auto.
    + rewrite !elem_of_app. split; [by left|]. split; [by left|]. left. right.
      by apply list_elem_of_singleton.
Qed.

(** The routing views exist exactly for the paths that normalize. They
    contain the raw path and the normalized one; every view but the raw path
    is canonical; and one canonical view is free of matrix parameters, so a
    policy on the stripped route always sees it. *)
Theorem security_views_cover (raw : string) :
  match SecurityPathViews raw with
  | None => NormalizeRequestPath raw = None
  | Some vs =>
      exists q, NormalizeRequestPath raw = Some q /\ raw ∈ vs /\ q ∈ vs
        /\ (forall v, v ∈ vs -> v = raw \/ canonical v)
        /\ (exists v, v ∈ vs /\ canonical v /\ (semicolon ∉ bytes v))
  end.
Proof.
  unfold SecurityPathViews, NormalizeRequestPath.
  destruct (views_bytes (bytes raw)) as [vs|] eqn:E; simpl.
  - destruct (views_bytes_spec _ _ E) as (d & q & Hd & Hq & Hqc & Hv & H1 & H2 & H3).
    rewrite Hq. exists (of_bytes q). split; [done|].
    assert (forall v, v ∈ vs -> of_bytes v ∈ map of_bytes vs) as Hmap
      by (intros v Hin; by apply list_elem_of_fmap_2).
    split; [rewrite <- (of_bytes_bytes raw); by apply Hmap|]. split; [by apply Hmap|]. split.
    + intros v Hin. apply list_elem_of_fmap in Hin as (w & -> & Hin).
      destruct (Hv w Hin) as [->|[->| ->]]; [left; apply of_bytes_bytes|right; subst q..];
        apply rooted_clean_view.
    + destruct H3 as [H3|H3].
      * exists (of_bytes (rooted_clean (strip_params false d))). split; [by apply Hmap|].
        split; [apply rooted_clean_view|]. rewrite bytes_of_bytes.
        apply rooted_clean_semicolon. intros Hc. by apply strip_params_chars in Hc as [? _].
      * exists (of_bytes q). split; [by apply Hmap|]. subst q. split; [apply rooted_clean_view|].
        rewrite bytes_of_bytes. by apply rooted_clean_semicolon.
  - unfold views_bytes in E. destruct (normalize_bytes (bytes raw)) as [q|] eqn:Eq; [|done].
    destruct (normalize_bytes_cleaned _ _ Eq) as (d & Hd & _). rewrite Hd in E.
    exfalso. branch E.
Qed.

(** ** Concrete requests *)

Lemma normalized_path_safe_witness :
  NormalizeRequestPath "/api/%2e%2e/admin/./x"%string = Some "/admin/x"%string
  /\ exists segs, "/admin/x"%string = rooted_path segs /\ Forall safe_element segs.
Proof.
  assert (H : NormalizeRequestPath "/api/%2e%2e/admin/./x"%string = Some "/admin/x"%string) by (vm_compute; reflexivity).
  exact (conj H (normalized_path_safe _ _ H)).
Defined.

Lemma normalize_idempotent_witness :
  NormalizeRequestPath "/a//b/..;v=1/c"%string <> Some "/a/c"%string
  /\ NormalizeRequestPath "/a/b;v=1/../c"%string = Some "/a/c"%string
  /\ NormalizeRequestPath "/a/c"%string = Some "/a/c"%string.
Proof.
  assert (H : NormalizeRequestPath "/a/b;v=1/../c"%string = Some "/a/c"%string) by (vm_compute; reflexivity).
  split; [vm_compute; discriminate|]. exact (conj H (normalize_idempotent _ _ H)).
Defined.

Lemma prefix_matches_elements_witness :
  PathMatchesPrefix "/admin/users" "/admin/" = true
  <-> elements_of "/admin" `prefix_of` elements_of "/admin/users".
Proof.
  apply (prefix_matches_elements "/admin/users" "/admin/" "/admin"); [|done|done].
  split.
  - exists 1%nat. reflexivity.
  - intros b H. apply (f_equal last) in H. rewrite last_snoc in H. discriminate H.
Defined.
