(* ===== verification/Acl.v ===== *)
(** * Access control rules (internal/protection/acl/policy.go)

    The method, path and header rules of a site, how they are built from the
    configuration and how a request is decided over its routing views. *)

From S2P Require Import Prelude GoText Path.
From Stdlib Require Import Ascii.

Open Scope list_scope.
Open Scope Z_scope.
Open Scope go_scope.

(** ** internal/engine/types.go and internal/engine/rules/rule.go *)

Inductive Action := ActionPass | ActionBlock | ActionChallenge | ActionLog.

Inductive Severity :=
  SeverityInfo | SeverityLow | SeverityMedium | SeverityHigh | SeverityCritical.

#[export] Instance Action_eq_dec : EqDecision Action.
Proof. solve_decision. Defined.

(** [Confidence] is the float 1.0, 0.5, ... in hundredths. *)
Record DetectionResult := {
  Detected : bool;
  DetectorID : string;
  Category : string;
  dr_Severity : Severity;
  dr_Action : Action;
  Message : string;
  Confidence : Z;
  dr_Payload : string
}.

Definition ParseAction (action : string) : Action :=
  let a := ToLower action in
  if String.eqb a "log" || String.eqb a "monitor" then ActionLog
  else if String.eqb a "challenge" then ActionChallenge
  else if String.eqb a "pass" || String.eqb a "allow" then ActionPass
  else ActionBlock.

Definition ParseSeverity (severity : string) : Severity :=
  let s := ToLower severity in
  if String.eqb s "critical" then SeverityCritical
  else if String.eqb s "high" then SeverityHigh
  else if String.eqb s "low" then SeverityLow
  else if String.eqb s "info" then SeverityInfo
  else SeverityMedium.

(** ** The HTTP request, as far as a rule reads it

    Header keys are stored in canonical form; [URI] is the value of
    [URL.RequestURI()], which only ends up in the report. *)

Record URL := { URL_Path : string; URL_RequestURI : string }.

Record HTTPRequest := {
  req_Method : string;
  req_URL : option URL;
  req_Header : gmap string (list string)
}.

(** [net/textproto]: the bytes of an RFC 7230 token. *)
Definition validHeaderFieldByte (c : ascii) : bool :=
  let b := byte_val c in
  ((48 <=? b) && (b <=? 57)) || ((65 <=? b) && (b <=? 90)) || ((97 <=? b) && (b <=? 122))
  || existsb (Ascii.eqb c) (bytes "!#$%&'*+-.^_`|~").

Fixpoint canonical_key (upper : bool) (l : list ascii) : list ascii :=
  match l with
  | [] => []
  | c :: l' =>
      let b := byte_val c in
      let c' := if upper && (97 <=? b) && (b <=? 122) then byte_of (b - 32)
                else if negb upper && (65 <=? b) && (b <=? 90) then byte_of (b + 32)
                else c in
      c' :: canonical_key (Ascii.eqb c' "-"%char) l'
  end.

(** [textproto.CanonicalMIMEHeaderKey]: left alone unless it is a token. *)
Definition CanonicalMIMEHeaderKey (k : string) : string :=
  if forallb validHeaderFieldByte (bytes k) then of_bytes (canonical_key true (bytes k)) else k.

(** [http.Header.Values]. *)
Definition HeaderValues (h : gmap string (list string)) (key : string) : list string :=
  match h !! CanonicalMIMEHeaderKey key with Some vs => vs | None => [] end.

(** ** Rules *)

Record Rule := {
  ID : string;
  Name : string;
  Method : string;
  PathPrefix : string;
  Header : string;
  HeaderValue : string;
  rule_Action : Action;
  rule_Severity : Severity;
  Enabled : bool
}.

Record Policy := { pol_enabled : bool; rules : list Rule }.

(** internal/config/config.go *)
Record ACLRuleConfig := {
  cfg_ID : string;
  cfg_Name : string;
  cfg_Method : string;
  cfg_PathPrefix : string;
  cfg_Header : string;
  cfg_HeaderValue : string;
  cfg_Action : string;
  cfg_Severity : string;
  cfg_Enabled : bool
}.

Record ACLProtectionConfig := { acl_Enabled : bool; acl_Rules : list ACLRuleConfig }.

(** The body of the loop of [NewPolicy]: the rule kept for one item, if any. *)
Definition rule_of_config (item : ACLRuleConfig) : option Rule :=
  let method := ToUpper (TrimSpace (cfg_Method item)) in
  let pathPrefix := TrimSpace (cfg_PathPrefix item) in
  let header := TrimSpace (cfg_Header item) in
  let headerValue := TrimSpace (cfg_HeaderValue item) in
  if negb (cfg_Enabled item)
     || (String.eqb method "" && String.eqb pathPrefix "" && String.eqb header "")
     || (String.eqb header "" && negb (String.eqb headerValue ""))
  then None
  else Some {| ID := cfg_ID item; Name := cfg_Name item; Method := method;
               PathPrefix := pathPrefix; Header := header; HeaderValue := headerValue;
               rule_Action := ParseAction (cfg_Action item);
               rule_Severity := ParseSeverity (cfg_Severity item);
               Enabled := cfg_Enabled item |}.

Definition NewPolicy (cfg : ACLProtectionConfig) : Policy :=
  {| pol_enabled := acl_Enabled cfg; rules := omap rule_of_config (acl_Rules cfg) |}.

Definition actionRank (a : Action) : Z :=
  match a with
  | ActionBlock => 3
  | ActionChallenge => 2
  | ActionLog => 1
  | ActionPass => 0
  end.

Definition header_matches (r : Rule) (value : string) : bool :=
  let value := TrimSpace value in
  (String.eqb (HeaderValue r) "" && negb (String.eqb value ""))
  || (negb (String.eqb (HeaderValue r) "") && EqualFold value (HeaderValue r)).

Definition matches (r : Rule) (req : HTTPRequest) (path : string) : bool :=
  return false when negb (String.eqb (Method r) "")
                    && negb (String.eqb (Method r) (ToUpper (req_Method req))) ;;
  return false when negb (String.eqb (PathPrefix r) "")
                    && negb (PathMatchesPrefix path (PathPrefix r)) ;;
  return existsb (header_matches r) (HeaderValues (req_Header req) (Header r))
    when negb (String.eqb (Header r) "") ;;
  true.

(** The inner loop of [Evaluate]: the first enabled rule matching a view. *)
Definition first_match (p : Policy) (req : HTTPRequest) (path : string) : option Rule :=
  List.find (fun r => Enabled r && matches r req path) (rules p).

(** The outer loop: a later view only replaces a weaker action. *)
Definition select_step (p : Policy) (req : HTTPRequest) (selected : option Rule) (path : string)
  : option Rule :=
  match first_match p req path with
  | None => selected
  | Some r =>
      match selected with
      | None => Some r
      | Some s => if actionRank (rule_Action s) <? actionRank (rule_Action r)
                  then Some r else selected
      end
  end.

(** The views of the path that the rules are tried on. *)
Definition acl_paths (u : URL) : option (list string) :=
  match NormalizeRequestPath (URL_Path u) with
  | None => None
  | Some cleaned =>
      if ContainsAny (URL_Path u) ";%" then
        match SecurityPathViews (URL_Path u) with
        | None => None
        | Some paths =>
            if negb (String.eqb (URL_Path u) cleaned) then Some (tail paths) else Some paths
        end
      else Some [cleaned]
  end.

Definition Evaluate (p : option Policy) (r : option HTTPRequest) : option DetectionResult :=
  match p, r with
  | Some p, Some r =>
      match req_URL r with
      | None => None
      | Some u =>
          return None when negb (pol_enabled p) ;;
          match acl_paths u with
          | None => None
          | Some paths =>
              match fold_left (select_step p r) paths None with
              | None => None
              | Some s =>
                  Some {| Detected := true; DetectorID := "acl." ++ ID s; Category := "acl";
                          dr_Severity := rule_Severity s; dr_Action := rule_Action s;
                          Message := "ACL rule matched: " ++ Name s; Confidence := 100;
                          dr_Payload := req_Method r ++ " " ++ URL_RequestURI u |}
              end
          end
      end
  | _, _ => None
  end%string.

(** ** Properties *)

(** The strongest first match seen so far. *)
Lemma select_fold p req paths sel s :
  fold_left (select_step p req) paths sel = Some s ->
  (sel = Some s \/ exists v, v ∈ paths /\ first_match p req v = Some s)
  /\ (forall t, sel = Some t -> actionRank (rule_Action t) <= actionRank (rule_Action s))
  /\ (forall v t, v ∈ paths -> first_match p req v = Some t ->
        actionRank (rule_Action t) <= actionRank (rule_Action s)).
Proof.
  revert sel. induction paths as [|v paths IH]; simpl; intros sel H.
  - subst sel. split; [by left|]. split.
    + by intros t [= ->].
    + by intros v t Hv%not_elem_of_nil.
  - destruct (IH _ H) as (Hsrc & Hsel & Hall). clear IH H. unfold select_step in *.
    destruct (first_match p req v) as [r|] eqn:Ef.
    + destruct sel as [t|].
      * destruct (Z.ltb_spec (actionRank (rule_Action t)) (actionRank (rule_Action r))).
        -- specialize (Hsel r eq_refl). split; [|split].
           ++ right. destruct Hsrc as [[= ->]|(w & Hw & Hm)]; [exists v|exists w].
              ** by split; [left|].
              ** by split; [right|].
           ++ intros t' [= <-]. lia.
           ++ intros w t' [->|Hw]%elem_of_cons Hm; [simplify_eq; lia|by eapply Hall].
        -- specialize (Hsel t eq_refl). split; [|split].
           ++ destruct Hsrc as [?|(w & Hw & Hm)]; [by left|right; exists w; by split; [right|]].
           ++ intros t' [= <-]. lia.
           ++ intros w t' [->|Hw]%elem_of_cons Hm; [simplify_eq; lia|by eapply Hall].
      * specialize (Hsel r eq_refl). split; [|split]; [|done|].
        -- right. destruct Hsrc as [[= ->]|(w & Hw & Hm)]; [exists v|exists w].
           ++ by split; [left|].
           ++ by split; [right|].
        -- intros w t' [->|Hw]%elem_of_cons Hm; [simplify_eq; lia|by eapply Hall].
    + split; [|split]; [|done|].
      * destruct Hsrc as [?|(w & Hw & Hm)]; [by left|right; exists w; by split; [right|]].
      * intros w t' [->|Hw]%elem_of_cons Hm; [congruence|by eapply Hall].
Qed.

Lemma select_fold_some p req paths s :
  exists t, fold_left (select_step p req) paths (Some s) = Some t.
Proof.
  revert s. induction paths as [|v paths IH]; simpl; intros s; [eauto|].
  unfold select_step at 2. destruct (first_match p req v); [|apply IH].
  destruct (_ <? _); apply IH.
Qed.

Lemma select_fold_none p req paths :
  fold_left (select_step p req) paths None = None <->
  forall v, v ∈ paths -> first_match p req v = None.
Proof.
  induction paths as [|v paths IH]; simpl.
  - split; [|done]. by intros _ v Hv%not_elem_of_nil.
  - unfold select_step at 2. destruct (first_match p req v) as [r|] eqn:E.
    + destruct (select_fold_some p req paths r) as [t Ht]. rewrite Ht. split; [done|].
      intros H. specialize (H v ltac:(by left)). congruence.
    + rewrite IH. split.
      * intros H w [->|Hw]%elem_of_cons; [done|by apply H].
      * intros H w Hw. apply H. by right.
Qed.

(** A policy reports the strongest of the first matches of the request's
    routing views: the reported action belongs to the first matching rule of
    some view and no view's first match is stronger, so a log or pass rule
    that matches one spelling of the path never hides a block rule that
    matches another. *)
Theorem acl_reports_strongest (p : Policy) (req : HTTPRequest) (u : URL) (paths : list string)
    (d : DetectionResult) :
  req_URL req = Some u -> acl_paths u = Some paths -> Evaluate (Some p) (Some req) = Some d ->
  (exists v s, v ∈ paths /\ first_match p req v = Some s /\ dr_Action d = rule_Action s
     /\ DetectorID d = ("acl." ++ ID s)%string)
  /\ (forall v t, v ∈ paths -> first_match p req v = Some t ->
        actionRank (rule_Action t) <= actionRank (dr_Action d)).
Proof.
  intros Hu Hp H. unfold Evaluate in H. rewrite Hu, Hp in H.
  destruct (negb (pol_enabled p)); [done|].
  destruct (fold_left _ _ _) as [s|] eqn:E; [|done]. injection H as <-.
  destruct (select_fold _ _ _ _ _ E) as ([?|(v & Hv & Hm)] & _ & Hall); [done|].
  split; [|by apply Hall]. by exists v, s.
Qed.

(** An enabled policy with a normalizable request reports nothing exactly
    when no rule matches any view; every rule of a policy built from a
    configuration is enabled and has a method, path or header condition, so
    a blank rule cannot match every request. *)
Theorem acl_silent_iff (cfg : ACLProtectionConfig) (req : HTTPRequest) (u : URL)
    (paths : list string) :
  req_URL req = Some u -> acl_paths u = Some paths -> acl_Enabled cfg = true ->
  (Evaluate (Some (NewPolicy cfg)) (Some req) = None <->
     forall v r, v ∈ paths -> r ∈ rules (NewPolicy cfg) -> matches r req v = false)
  /\ (forall r, r ∈ rules (NewPolicy cfg) ->
        Enabled r = true
        /\ (Method r <> "" \/ PathPrefix r <> "" \/ Header r <> "")%string
        /\ (Header r = "" -> HeaderValue r = "")%string).
Proof.
  intros Hu Hp He.
  assert (forall r, r ∈ rules (NewPolicy cfg) ->
        Enabled r = true /\ (Method r <> "" \/ PathPrefix r <> "" \/ Header r <> "")%string
        /\ (Header r = "" -> HeaderValue r = "")%string) as Hrules.
  { intros r Hr. simpl in Hr. apply list_elem_of_omap in Hr as (item & _ & Hi).
    unfold rule_of_config in Hi. destruct (_ || _) eqn:E; [done|]. injection Hi as <-. simpl.
    props. split; [done|]. split.
    - apply andb_false_iff in H1 as [[H1|H1]%andb_false_iff|H1]; apply String.eqb_neq in H1; tauto.
    - intros Hh. apply andb_false_iff in H0 as [H0|H0]; props; congruence. }
  split; [|exact Hrules].
  unfold Evaluate. rewrite Hu, Hp. simpl pol_enabled. rewrite He. simpl (negb true).
  transitivity (fold_left (select_step (NewPolicy cfg) req) paths None = None).
  { destruct (fold_left _ _ _); split; done. }
  rewrite select_fold_none. unfold first_match. split.
  - intros H v r Hv Hr. destruct (Hrules r Hr) as [Hen _].
    pose proof (List.find_none _ _ (H v Hv) r) as Hn. cbv beta in Hn. rewrite Hen in Hn.
    apply Hn. by apply list_elem_of_In.
  - intros H v Hv. destruct (List.find _ _) as [r|] eqn:Ef; [|done].
    apply List.find_some in Ef as [Hr Hm]. apply list_elem_of_In in Hr.
    rewrite (H v r Hv Hr), andb_false_r in Hm. done.
Qed.

(** ** A concrete policy *)

Definition example_acl : ACLProtectionConfig := {|
  acl_Enabled := true;
  acl_Rules := [
    {| cfg_ID := "log-api"; cfg_Name := "log"; cfg_Method := ""; cfg_PathPrefix := "/api"; cfg_Header := "";
       cfg_HeaderValue := ""; cfg_Action := "log"; cfg_Severity := "low"; cfg_Enabled := true |};
    {| cfg_ID := "block-admin"; cfg_Name := "block"; cfg_Method := "post"; cfg_PathPrefix := "/admin";
       cfg_Header := ""; cfg_HeaderValue := ""; cfg_Action := "block"; cfg_Severity := "high";
       cfg_Enabled := true |}] |}%string.

Definition example_url : URL := {| URL_Path := "/api/..;x/admin/users"; URL_RequestURI := "/api/..;x/admin/users" |}%string.
Definition safe_url : URL := {| URL_Path := "/admin/x;v=1"; URL_RequestURI := "/admin/x;v=1" |}%string.

Definition example_request (u : URL) : HTTPRequest :=
  {| req_Method := "POST"%string; req_URL := Some u; req_Header := ∅ |}.

Lemma acl_reports_strongest_witness :
  exists paths d, acl_paths safe_url = Some paths
    /\ Evaluate (Some (NewPolicy example_acl)) (Some (example_request safe_url)) = Some d
    /\ forall v t, v ∈ paths -> first_match (NewPolicy example_acl) (example_request safe_url) v = Some t ->
        actionRank (rule_Action t) <= actionRank (dr_Action d).
Proof.
  destruct (acl_paths safe_url) as [paths|] eqn:Hp; [|discriminate Hp].
  destruct (Evaluate (Some (NewPolicy example_acl)) (Some (example_request safe_url))) as [d|] eqn:Hd.
  2:{ vm_compute in Hd. discriminate Hd. }
  exists paths, d. split; [reflexivity|]. split; [reflexivity|].
  exact (proj2 (acl_reports_strongest (NewPolicy example_acl) (example_request safe_url) safe_url paths d
    eq_refl Hp Hd)).
Defined.

Lemma acl_silent_iff_witness :
  exists paths, acl_paths safe_url = Some paths /\
  (Evaluate (Some (NewPolicy example_acl)) (Some (example_request safe_url)) = None <->
     forall v r, v ∈ paths -> r ∈ rules (NewPolicy example_acl) -> matches r (example_request safe_url) v = false).
Proof.
  destruct (acl_paths safe_url) as [paths|] eqn:Hp; [|discriminate Hp].
  exists paths. split; [reflexivity|].
  exact (proj1 (acl_silent_iff example_acl (example_request safe_url) safe_url paths eq_refl Hp eq_refl)).
Defined.
