(* ===== verification/IpAddr.v ===== *)
(** * IP addresses and prefixes (the parts of Go's net/netip that the code uses)

    Addresses with their numeric value and zone, parsing and printing,
    prefixes with masking and containment, and containment as agreement on the
    leading bits. *)

From S2P Require Import Prelude GoText.
From Stdlib Require Import Ascii.

Open Scope list_scope.
Open Scope Z_scope.
Open Scope go_scope.

(** ** Addresses *)

(** A valid [netip.Addr]; the zone of an IPv6 address is usually empty. *)
Inductive Addr := V4 (v : Z) | V6 (v : Z) (zone : string).

#[export] Instance Addr_eq_dec : EqDecision Addr.
Proof. solve_decision. Defined.

#[export] Instance Addr_countable : Countable Addr.
Proof.
  apply (inj_countable'
    (fun a => match a with V4 v => inl v | V6 v z => inr (v, z) end)
    (fun s => match s with inl v => V4 v | inr (v, z) => V6 v z end)).
  by intros [].
Defined.

Definition Is4 (a : Addr) : bool := match a with V4 _ => true | V6 _ _ => false end.
Definition addr_val (a : Addr) : Z := match a with V4 v => v | V6 v _ => v end.
Definition Zone (a : Addr) : string := match a with V4 _ => "" | V6 _ z => z end.
Definition BitLen (a : Addr) : nat := match a with V4 _ => 32%nat | V6 _ _ => 128%nat end.

(** ::ffff:0:0/96, the IPv4-mapped addresses. *)
Definition Is4In6 (a : Addr) : bool :=
  match a with V4 _ => false | V6 v _ => Z.shiftr v 32 =? 65535 end.

Definition Unmap (a : Addr) : Addr :=
  if Is4In6 a then V4 (Z.land (addr_val a) 4294967295) else a.

(** ** Parsing *)

Definition is_digit (c : ascii) : bool := (48 <=? byte_val c) && (byte_val c <=? 57).
Definition digits_val (l : list ascii) : Z := fold_left (fun v c => v * 10 + (byte_val c - 48)) l 0.

(** One octet: one to three digits without a leading zero, at most 255. *)
Definition octet_ok (l : list ascii) : bool :=
  match l with
  | [] => false
  | [c] => is_digit c
  | c :: _ => forallb is_digit l && negb (byte_val c =? 48) && (Z.of_nat (length l) <=? 3) && (digits_val l <=? 255)
  end.

(** Four octets, as bytes. *)
Definition ipv4_fields (l : list ascii) : option (list Z) :=
  let fields := split_on "."%char l in
  if (Z.of_nat (length fields) =? 4) && forallb octet_ok fields then Some (map digits_val fields) else None.

Definition be_val (bs : list Z) : Z := fold_left (fun v b => v * 256 + b) bs 0.

Definition hex_digit_val (c : ascii) : Z :=
  let b := byte_val c in
  if b <=? 57 then b - 48 else if b <=? 70 then b - 55 else b - 87.

(** The leading hexadecimal digits. *)
Fixpoint hex_prefix (l : list ascii) : list ascii :=
  match l with
  | c :: l' => if is_hex_char c then c :: hex_prefix l' else []
  | [] => []
  end.

(** The end of [parseIPv6]: the bytes read, and where an ellipsis was. *)
Definition ipv6_finish (bs : list Z) (ellipsis : option nat) (rest : list ascii) : option (list Z) :=
  match rest with
  | _ :: _ => None
  | [] =>
      if (length bs <? 16)%nat then
        match ellipsis with
        | None => None
        | Some e => Some (take e bs ++ replicate (16 - length bs) 0 ++ drop e bs)
        end
      else match ellipsis with Some _ => None | None => Some bs end
  end.

(** The loop of [parseIPv6]. Every iteration that continues consumes a digit,
    so the length of the rest bounds the iterations. *)
Fixpoint ipv6_loop (fuel : nat) (bs : list Z) (ellipsis : option nat) (s : list ascii) : option (list Z) :=
  match fuel with
  | O => None
  | S k =>
      if (16 <=? length bs)%nat then ipv6_finish bs ellipsis s
      else
        let digits := hex_prefix s in
        let rest := drop (length digits) s in
        let acc := fold_left (fun v c => v * 16 + hex_digit_val c) digits 0 in
        if (Z.of_nat (length digits) =? 0) || (4 <? Z.of_nat (length digits)) then None
        else
        let bs' := bs ++ [acc / 256; acc mod 256] in
        match rest with
        | [] => ipv6_finish bs' ellipsis []
        | c :: rest' =>
            if Ascii.eqb c "."%char then
              if negb (bool_decide (is_Some ellipsis)) && negb (length bs =? 12)%nat then None
              else if (16 <? length bs + 4)%nat then None
              else match ipv4_fields s with
                   | Some q => ipv6_finish (bs ++ q) ellipsis []
                   | None => None
                   end
            else if negb (Ascii.eqb c ":"%char) then None
            else match rest' with
            | [] => None
            | c2 :: rest'' =>
                if Ascii.eqb c2 ":"%char then
                  match ellipsis, rest'' with
                  | Some _, _ => None
                  | None, [] => ipv6_finish bs' (Some (length bs')) []
                  | None, _ => ipv6_loop k bs' (Some (length bs')) rest''
                  end
                else ipv6_loop k bs' ellipsis rest'
            end
        end
  end.

Definition ipv6_bytes (l : list ascii) : option (list Z) :=
  match l with
  | ":"%char :: ":"%char :: [] => Some (replicate 16 0)
  | ":"%char :: ":"%char :: l' => ipv6_loop (S (length l)) [] (Some 0%nat) l'
  | _ => ipv6_loop (S (length l)) [] None l
  end.

(** The bytes before and after the first [c]. *)
Fixpoint cut_byte (c : ascii) (l : list ascii) : list ascii * option (list ascii) :=
  match l with
  | [] => ([], None)
  | d :: l' => if Ascii.eqb d c then ([], Some l')
               else let '(a, b) := cut_byte c l' in (d :: a, b)
  end.

Definition parseIPv6 (l : list ascii) : option Addr :=
  let '(body, zone) := cut_byte "%"%char l in
  match zone with
  | Some [] => None
  | _ => match ipv6_bytes body with
         | Some bs => Some (V6 (be_val bs) (match zone with Some z => of_bytes z | None => "" end))
         | None => None
         end
  end.

(** The first of '.', ':' and '%' decides. *)
Fixpoint addr_kind (l : list ascii) : option ascii :=
  match l with
  | [] => None
  | c :: l' => if Ascii.eqb c "."%char || Ascii.eqb c ":"%char || Ascii.eqb c "%"%char then Some c else addr_kind l'
  end.

(** [netip.ParseAddr] *)
Definition ParseAddr (s : string) : option Addr :=
  match addr_kind (bytes s) with
  | Some c => if Ascii.eqb c "."%char then
                match ipv4_fields (bytes s) with Some q => Some (V4 (be_val q)) | None => None end
              else if Ascii.eqb c ":"%char then parseIPv6 (bytes s)
              else None
  | None => None
  end.

(** ** Printing *)

Fixpoint decimal (fuel : nat) (n : Z) : list ascii :=
  match fuel with
  | O => []
  | S k => (if 10 <=? n then decimal k (n / 10) else []) ++ [byte_of (48 + n mod 10)]
  end.

Definition be_byte (width k : nat) (v : Z) : Z := Z.land (Z.shiftr v (8 * (Z.of_nat width - 1 - Z.of_nat k))) 255.

Definition string4 (v : Z) : string :=
  String.concat "." (map (fun k => of_bytes (decimal 3 (be_byte 4 k v))) [0; 1; 2; 3]%nat).

Definition v6u16 (v : Z) (i : nat) : Z := Z.land (Z.shiftr v (16 * (7 - Z.of_nat i))) 65535.

(** [appendHex]: without leading zeros. *)
Definition hex16 (n : Z) : list ascii :=
  let ds := map (fun k => hex_digit (Z.land (Z.shiftr n (4 * k)) 15)) [3; 2; 1; 0] in
  let skip := if 4096 <=? n then 0%nat else if 256 <=? n then 1%nat else if 16 <=? n then 2%nat else 3%nat in
  drop skip ds.

(** The longest run of two or more zero groups, the first of the longest. *)
Fixpoint zero_run (v : Z) (i fuel : nat) : nat :=
  match fuel with
  | O => 0%nat
  | S k => if (i <? 8)%nat && (v6u16 v i =? 0) then S (zero_run v (S i) k) else 0%nat
  end.

Definition longest_zero_run (v : Z) : nat * nat :=
  fold_left (fun best i => let l := zero_run v i 8 in
               if (2 <=? l)%nat && (snd best <? l)%nat then (i, l) else best)
    (seq 0 8) (255%nat, 0%nat).

Fixpoint append_groups (fuel : nat) (v : Z) (run : nat * nat) (i : nat) : list ascii :=
  match fuel with
  | O => []
  | S k =>
      if (8 <=? i)%nat then []
      else if (i =? fst run)%nat then
        ":"%char :: ":"%char ::
        (let j := (i + snd run)%nat in
         if (8 <=? j)%nat then [] else hex16 (v6u16 v j) ++ append_groups k v run (S j))
      else (if (0 <? i)%nat then [":"%char] else []) ++ hex16 (v6u16 v i) ++ append_groups k v run (S i)
  end.

Definition zone_suffix (z : string) : string := if String.eqb z "" then "" else ("%" ++ z)%string.

(** [netip.Addr.String] *)
Definition AddrString (a : Addr) : string :=
  match a with
  | V4 v => string4 v
  | V6 v z =>
      if Is4In6 a then ("::ffff:" ++ string4 (addr_val (Unmap a)) ++ zone_suffix z)%string
      else (of_bytes (append_groups 9 v (longest_zero_run v) 0) ++ zone_suffix z)%string
  end.

(** ** Prefixes *)

(** A valid prefix: its address has no zone and [Bits] is at most the
    address length. *)
Record Prefix := { pfx_Addr : Addr; Bits : nat }.

#[export] Instance Prefix_eq_dec : EqDecision Prefix.
Proof. solve_decision. Defined.

Definition without_zone (a : Addr) : Addr := match a with V4 v => V4 v | V6 v _ => V6 v "" end.
Definition PrefixFrom (a : Addr) (bits : nat) : Prefix := {| pfx_Addr := without_zone a; Bits := bits |}.

(** The length: digits without a sign or a leading zero. *)
Definition prefix_bits (l : list ascii) : option nat :=
  match l with
  | [] => None
  | c :: l' =>
      if forallb is_digit l && negb (bool_decide (l' <> []) && (byte_val c =? 48)) && (length l <=? 9)%nat
      then Some (Z.to_nat (digits_val l)) else None
  end.

(** [netip.ParsePrefix]: the last slash separates the length. *)
Definition ParsePrefix (s : string) : option Prefix :=
  let '(bits, head) := cut_byte "/"%char (rev (bytes s)) in
  match head with
  | None => None
  | Some head =>
      match ParseAddr (of_bytes (rev head)), prefix_bits (rev bits) with
      | Some a, Some n =>
          return None when negb (String.eqb (Zone a) "") ;;
          if (n <=? BitLen a)%nat then Some (PrefixFrom a n) else None
      | _, _ => None
      end
  end.

Definition mask_val (width bits : nat) (v : Z) : Z :=
  Z.shiftl (Z.shiftr v (Z.of_nat (width - bits))) (Z.of_nat (width - bits)).

Definition Masked (p : Prefix) : Prefix :=
  let bits := Bits p in
  {| pfx_Addr := match pfx_Addr p with
                 | V4 v => V4 (mask_val 32 bits v)
                 | V6 v z => V6 (mask_val 128 bits v) z
                 end;
     Bits := bits |}.

(** [netip.Prefix.Contains]: an address with a zone is in no prefix. *)
Definition PrefixContains (p : Prefix) (a : Addr) : bool :=
  return false when negb (String.eqb (Zone a) "") ;;
  return false when negb (BitLen (pfx_Addr p) =? BitLen a)%nat ;;
  Z.shiftr (Z.lxor (addr_val a) (addr_val (pfx_Addr p))) (Z.of_nat (BitLen a - Bits p)) =? 0.

(** ** Examples of the library's documented behaviour *)

Example parse_v4 : ParseAddr "192.0.2.1" = Some (V4 3221225985).
Proof. vm_compute. reflexivity. Qed.
Example parse_v4_zero : ParseAddr "192.0.02.1" = None /\ ParseAddr "1.2.3" = None /\ ParseAddr "1.2.3.256" = None.
Proof. vm_compute. auto. Qed.
Example parse_mapped : Unmap <$> ParseAddr "::ffff:192.0.2.1" = Some (V4 3221225985).
Proof. vm_compute. reflexivity. Qed.
Example parse_zone : ParseAddr "fe80::1%eth0" = Some (V6 (Z.shiftl 0xfe80 112 + 1) "eth0").
Proof. vm_compute. reflexivity. Qed.
Example print_v6 :
  (AddrString <$> ParseAddr "2001:db8:0:0:1:0:0:1") = Some "2001:db8::1:0:0:1"%string
  /\ (AddrString <$> ParseAddr "0:0:0:0:0:0:0:0") = Some "::"%string
  /\ (AddrString <$> ParseAddr "1:0:2:0:0:0:0:0") = Some "1:0:2::"%string
  /\ (AddrString <$> ParseAddr "::ffff:1.2.3.4") = Some "::ffff:1.2.3.4"%string
  /\ (AddrString <$> ParseAddr "10.0.200.7") = Some "10.0.200.7"%string.
Proof. vm_compute. auto. Qed.
Example parse_prefix :
  ParsePrefix "10.1.2.3/8" = Some {| pfx_Addr := V4 167838211; Bits := 8 |}
  /\ ParsePrefix "10.0.0.0/33" = None /\ ParsePrefix "10.0.0.0/08" = None
  /\ ParsePrefix "fe80::1%a/64" = None.
Proof. vm_compute. auto. Qed.

(** ** What parsing yields *)

(** An address within its width. *)
Definition addr_ok (a : Addr) : Prop := 0 <= addr_val a < 2 ^ Z.of_nat (BitLen a).

Definition prefix_ok (p : Prefix) : Prop := addr_ok (pfx_Addr p) /\ (Bits p <= BitLen (pfx_Addr p))%nat.

Definition is_byte (b : Z) : Prop := 0 <= b < 256.

Lemma be_val_range bs : Forall is_byte bs -> 0 <= be_val bs < 256 ^ Z.of_nat (length bs).
Proof.
  unfold be_val. induction bs as [|b bs IH] using rev_ind; intros H; [done|].
  apply Forall_app in H as [H Hb]. inversion_clear Hb as [|? ? Hb' _].
  rewrite fold_left_app, length_app. simpl. specialize (IH H). unfold is_byte in Hb'.
  rewrite Nat2Z.inj_add, Z.pow_add_r by lia. change (256 ^ Z.of_nat 1) with 256. lia.
Qed.

Lemma digit_range c : is_digit c = true -> 0 <= byte_val c - 48 <= 9.
Proof. unfold is_digit. intros H. props. lia. Qed.

Lemma octet_range l : octet_ok l = true -> is_byte (digits_val l).
Proof.
  assert (Hpos : forall l v, 0 <= v -> forallb is_digit l = true ->
    0 <= fold_left (fun v c => v * 10 + (byte_val c - 48)) l v).
  { induction l0 as [|c l' IH]; simpl; intros v Hv H; [done|]. props.
    apply IH; [|done]. pose proof (digit_range c H). lia. }
  unfold is_byte, octet_ok. destruct l as [|c [|d l]]; [done|..]; intros H.
  - unfold digits_val. simpl. pose proof (digit_range c H). lia.
  - props. split; [by apply Hpos|lia].
Qed.

Lemma ipv4_fields_ok l q : ipv4_fields l = Some q -> length q = 4%nat /\ Forall is_byte q.
Proof.
  unfold ipv4_fields. cbv zeta. destruct (_ && _) eqn:E; [|done]. intros [= <-]. props.
  rewrite length_map. split; [lia|]. apply Forall_map, Forall_forall. intros f Hf.
  apply octet_range. rewrite forallb_forall in H0. apply H0. by apply list_elem_of_In.
Qed.

Lemma hex_val_range c : is_hex_char c = true -> 0 <= hex_digit_val c <= 15.
Proof.
  unfold is_hex_char, hex_digit_val. intros H.
  assert (B : (48 <= byte_val c <= 57) \/ (97 <= byte_val c <= 102) \/ (65 <= byte_val c <= 70)).
  { apply orb_true_iff in H as [H|H]; [apply orb_true_iff in H as [H|H]|]; props; lia. }
  destruct (Z.leb_spec (byte_val c) 57); [lia|]. destruct (Z.leb_spec (byte_val c) 70); lia.
Qed.

Lemma hex_prefix_digits l : forallb is_hex_char (hex_prefix l) = true.
Proof. induction l as [|c l IH]; simpl; [done|]. destruct (is_hex_char c) eqn:E; simpl; by rewrite ?E. Qed.

Lemma hex_fold_range l v :
  forallb is_hex_char l = true -> 0 <= v ->
  0 <= fold_left (fun v c => v * 16 + hex_digit_val c) l v < (v + 1) * 16 ^ Z.of_nat (length l).
Proof.
  revert v. induction l as [|c l IH]; intros v H Hv; cbn [fold_left length]; [simpl; lia|].
  simpl in H. apply andb_true_iff in H as [Hc H]. pose proof (hex_val_range c Hc) as Hr.
  specialize (IH (v * 16 + hex_digit_val c) H). rewrite Nat2Z.inj_succ, Z.pow_succ_r by lia.
  pose proof (Z.pow_pos_nonneg 16 (Z.of_nat (length l)) ltac:(lia) ltac:(lia)). nia.
Qed.

Lemma group_bytes s :
  (length (hex_prefix s) <= 4)%nat ->
  let acc := fold_left (fun v c => v * 16 + hex_digit_val c) (hex_prefix s) 0 in
  Forall is_byte [acc / 256; acc mod 256].
Proof.
  intros Hl acc. pose proof (hex_fold_range (hex_prefix s) 0 (hex_prefix_digits s) ltac:(lia)) as Hr.
  fold acc in Hr.
  assert (Hp : 16 ^ Z.of_nat (length (hex_prefix s)) <= 16 ^ 4) by (apply Z.pow_le_mono_r; lia).
  change (16 ^ 4) with 65536 in Hp. unfold is_byte.
  repeat constructor; try (apply Z.div_pos; lia); try (apply Z.div_lt_upper_bound; lia);
    apply Z.mod_pos_bound; lia.
Qed.

(** Sixteen bytes, once they are complete. *)
Definition partial_ok (bs : list Z) (ellipsis : option nat) : Prop :=
  Forall is_byte bs /\ (length bs <= 16)%nat /\ forall e, ellipsis = Some e -> (e <= length bs)%nat.

Lemma ipv6_finish_ok bs e rest out :
  partial_ok bs e -> ipv6_finish bs e rest = Some out -> length out = 16%nat /\ Forall is_byte out.
Proof.
  intros (Hb & Hl & He) H. unfold ipv6_finish in H. destruct rest; [|done].
  destruct (Nat.ltb_spec (length bs) 16).
  - destruct e as [e|]; [|done]. injection H as <-. specialize (He e eq_refl).
    rewrite !length_app, length_take, length_replicate, length_drop. split; [lia|].
    apply Forall_app. split; [by apply Forall_take|]. apply Forall_app. split; [|by apply Forall_drop].
    apply Forall_replicate. unfold is_byte. lia.
  - destruct e; [done|]. injection H as <-. split; [lia|done].
Qed.

Lemma partial_app bs e more :
  partial_ok bs e -> Forall is_byte more -> (length bs + length more <= 16)%nat -> partial_ok (bs ++ more) e.
Proof.
  intros (Hb & Hl & He) Hm Hlen. split_and!; [by apply Forall_app|rewrite length_app; lia|].
  intros k Hk. rewrite length_app. specialize (He k Hk). lia.
Qed.

Lemma partial_here bs e : partial_ok bs e -> partial_ok bs (Some (length bs)).
Proof. intros (Hb & Hl & _). split_and!; [done|done|]. by intros k [= <-]. Qed.

Lemma ipv6_loop_ok fuel bs e s out :
  partial_ok bs e -> Nat.Even (length bs) -> ipv6_loop fuel bs e s = Some out ->
  length out = 16%nat /\ Forall is_byte out.
Proof.
  revert bs e s. induction fuel as [|k IH]; intros bs e s Hp Hev H; [done|].
  cbn [ipv6_loop] in H. destruct (Nat.leb_spec 16 (length bs)); [by apply (ipv6_finish_ok bs e s out)|].
  cbv zeta in H. destruct (_ || _) eqn:Ed in H; [done|]. props.
  assert (Hlt : (length bs + 2 <= 16)%nat) by (destruct Hev as [m Hm]; lia).
  pose proof (group_bytes s ltac:(lia)) as Hg. cbv zeta in Hg.
  set (g := [_; _]) in H, Hg. assert (Hg2 : length g = 2%nat) by done.
  assert (Hp' : partial_ok (bs ++ g) e) by (by apply partial_app; [|..|rewrite Hg2]).
  assert (Hev' : Nat.Even (length (bs ++ g))).
  { rewrite length_app, Hg2. destruct Hev as [m Hm]. exists (S m). lia. }
  clearbody g. destruct (drop _ s) as [|c rest']; [by eapply (ipv6_finish_ok _ _ _ _ Hp')|].
  destruct (Ascii.eqb c "."%char).
  { destruct (_ && _) in H; [done|]. destruct (Nat.ltb_spec 16 (length bs + 4)); [done|].
    destruct (ipv4_fields s) as [q|] eqn:Eq; [|done]. apply ipv4_fields_ok in Eq as [Hql Hq].
    apply (ipv6_finish_ok (bs ++ q) e [] out); [|done]. apply partial_app; [done|done|lia]. }
  destruct (Ascii.eqb c ":"%char); simpl in H; [|done].
  destruct rest' as [|c2 rest'']; [done|]. destruct (Ascii.eqb c2 ":"%char); [|by apply IH in H].
  destruct e; [done|].
  apply partial_here in Hp'. destruct rest''; [eapply (ipv6_finish_ok _ _ []); [exact Hp'|exact H]|by apply IH in H].
Qed.

Lemma ipv6_bytes_ok l out : ipv6_bytes l = Some out -> length out = 16%nat /\ Forall is_byte out.
Proof.
  assert (Hl : forall fuel e s, (forall k, e = Some k -> k = 0%nat) ->
    ipv6_loop fuel [] e s = Some out -> length out = 16%nat /\ Forall is_byte out).
  { intros fuel e s He. apply ipv6_loop_ok; [|by exists 0%nat]. split_and!; [done|simpl; lia|].
    intros k Hk. by rewrite (He k Hk). }
  assert (H0 : Some (replicate 16 0) = Some out -> length out = 16%nat /\ Forall is_byte out).
  { intros [= <-]. split; [done|]. repeat constructor; unfold is_byte; lia. }
  unfold ipv6_bytes. intros H.
  repeat match type of H with
  | context [match ?x with _ => _ end] => is_var x; destruct x
  end; try (by apply H0); revert H; apply Hl; by intros k [= <-].
Qed.

(** Parsed addresses are within their width. *)
Lemma ParseAddr_ok s a : ParseAddr s = Some a -> addr_ok a.
Proof.
  unfold ParseAddr, addr_ok. destruct (addr_kind _) as [c|]; [|done].
  destruct (Ascii.eqb c "."%char).
  - destruct (ipv4_fields _) as [q|] eqn:Eq; [|done]. intros [= <-].
    apply ipv4_fields_ok in Eq as [Hl Hq]. pose proof (be_val_range q Hq) as Hr. rewrite Hl in Hr. exact Hr.
  - destruct (Ascii.eqb c ":"%char); [|done]. unfold parseIPv6.
    destruct (cut_byte _ _) as [body zone]. destruct zone as [[|z zs]|]; [done|..];
      (destruct (ipv6_bytes body) as [bs|] eqn:Eb; [|done]); intros [= <-];
      apply ipv6_bytes_ok in Eb as [Hl Hq]; pose proof (be_val_range bs Hq) as Hr; rewrite Hl in Hr; exact Hr.
Qed.

Lemma Unmap_ok a : addr_ok a -> addr_ok (Unmap a).
Proof.
  unfold Unmap. destruct (Is4In6 a); [|done]. intros _. unfold addr_ok. simpl.
  change 4294967295 with (Z.ones 32). rewrite Z.land_ones by lia. apply Z.mod_pos_bound. lia.
Qed.

Lemma Unmap_zone a : Zone a = ""%string -> Zone (Unmap a) = ""%string.
Proof. unfold Unmap. by destruct (Is4In6 a). Qed.

Lemma without_zone_ok a : addr_ok a -> addr_ok (without_zone a).
Proof. by destruct a. Qed.

Lemma ParsePrefix_ok s p : ParsePrefix s = Some p -> prefix_ok p /\ Zone (pfx_Addr p) = ""%string.
Proof.
  unfold ParsePrefix. destruct (cut_byte _ _) as [bits [head|]]; [|done].
  destruct (ParseAddr _) as [a|] eqn:Ea; [|done]. apply ParseAddr_ok in Ea.
  destruct (prefix_bits _) as [n|]; [|done]. destruct (negb _); [done|].
  destruct (Nat.leb_spec n (BitLen a)); [|done]. intros [= <-]. unfold prefix_ok. simpl.
  split; [split; [by apply without_zone_ok|by destruct a]|by destruct a].
Qed.
