(* ===== verification/PrefixIndex.v ===== *)
(** * The binary prefix index (internal/protection/ip/prefix_index.go)

    A trie on the bits of an address, and the proof that looking an address
    up gives exactly the values of the prefixes that contain it. *)

From S2P Require Import Prelude GoText IpAddr.

Open Scope list_scope.
Open Scope Z_scope.
Open Scope go_scope.

(** ** The index *)

#[warnings="-register-all"]
Inductive prefixNode (T : Type) : Type :=
| Node (zero one : option (prefixNode T)) (values : list T).
Arguments Node {T} zero one values.

Record prefixIndex (T : Type) := { v4 : option (prefixNode T); v6 : option (prefixNode T) }.
Arguments v4 {T} p.
Arguments v6 {T} p.
Arguments Build_prefixIndex {T} v4 v6.

Definition empty_index {T} : prefixIndex T := {| v4 := None; v6 := None |}.

(** An error is [None]. *)
Definition canonicalPrefix (prefix : Prefix) : option Prefix :=
  let addr := pfx_Addr prefix in
  let bits := Bits prefix in
  if Is4In6 addr then
    return None when (bits <=? 96)%nat ;;
    Some (Masked (PrefixFrom (Unmap addr) (bits - 96)))
  else Some (Masked prefix).

(** Bit [bit] of the address, from the byte that holds it. *)
Definition addressBit (addr : Addr) (bit : nat) : bool :=
  let width := if Is4 addr then 4%nat else 16%nat in
  let byte := be_byte width (bit / 8) (addr_val addr) in
  Z.land (Z.shiftr byte (7 - Z.of_nat (bit mod 8))) 1 =? 1.

Definition empty_node {T} : prefixNode T := Node None None [].

(** The walk of [add] from depth [bit], with [n] bits to go. *)
Fixpoint node_add {T} (n bit : nat) (addr : Addr) (value : T) (node : option (prefixNode T)) : prefixNode T :=
  let '(Node c0 c1 vs) := default empty_node node in
  match n with
  | O => Node c0 c1 (vs ++ [value])
  | S n => if addressBit addr bit then Node c0 (Some (node_add n (S bit) addr value c1)) vs
           else Node (Some (node_add n (S bit) addr value c0)) c1 vs
  end.

Definition index_add {T} (i : prefixIndex T) (prefix : Prefix) (value : T) : prefixIndex T :=
  let prefix := Masked prefix in
  let addr := Unmap (pfx_Addr prefix) in
  if Is4 addr then {| v4 := Some (node_add (Bits prefix) 0 addr value (v4 i)); v6 := v6 i |}
  else {| v4 := v4 i; v6 := Some (node_add (Bits prefix) 0 addr value (v6 i)) |}.

(** The walk of [match]. *)
Fixpoint node_match {T} (n bit : nat) (addr : Addr) (node : option (prefixNode T)) : list T :=
  match node with
  | None => []
  | Some (Node c0 c1 vs) =>
      vs ++ match n with
            | O => []
            | S n => node_match n (S bit) addr (if addressBit addr bit then c1 else c0)
            end
  end.

Definition index_match {T} (i : prefixIndex T) (addr : Addr) : list T :=
  let addr := Unmap addr in
  node_match (BitLen addr) 0 addr (if Is4 addr then v4 i else v6 i).

(** ** The walk follows the leading bits *)

(** The children and values of a node that may be missing. *)
Definition parts {T} (node : option (prefixNode T)) :=
  match node with Some (Node c0 c1 vs) => (c0, c1, vs) | None => (None, None, []) end.

Definition child {T} (b : bool) (node : option (prefixNode T)) : option (prefixNode T) :=
  if b then (parts node).1.2 else (parts node).1.1.

Lemma node_match_None {T} n bit a : node_match n bit a (@None (prefixNode T)) = [].
Proof. by destruct n. Qed.

Lemma node_match_eq {T} n bit a (node : option (prefixNode T)) :
  node_match n bit a node =
  (parts node).2 ++ match n with O => [] | S n => node_match n (S bit) a (child (addressBit a bit) node) end.
Proof.
  destruct node as [[c0 c1 vs]|]; simpl.
  - by destruct n.
  - rewrite node_match_None. unfold child. destruct n; simpl; [done|].
    by destruct (addressBit a bit); rewrite node_match_None.
Qed.

Lemma node_add_O {T} bit p v (node : option (prefixNode T)) :
  node_add 0 bit p v node = Node (child false node) (child true node) ((parts node).2 ++ [v]).
Proof. by destruct node as [[c0 c1 vs]|]. Qed.

Lemma node_add_S {T} m bit p v (node : option (prefixNode T)) :
  node_add (S m) bit p v node =
  if addressBit p bit
  then Node (child false node) (Some (node_add m (S bit) p v (child true node))) (parts node).2
  else Node (Some (node_add m (S bit) p v (child false node))) (child true node) (parts node).2.
Proof. by destruct node as [[c0 c1 vs]|]. Qed.

(** Agreement of two addresses on [m] bits from [bit] on. *)
Definition same_bits (a p : Addr) (bit m : nat) : Prop :=
  forall k, (k < m)%nat -> addressBit a (bit + k) = addressBit p (bit + k).

Lemma same_bits_S a p bit m :
  same_bits a p bit (S m) <-> addressBit a bit = addressBit p bit /\ same_bits a p (S bit) m.
Proof.
  unfold same_bits. split.
  - intros H. split.
    + specialize (H 0%nat). rewrite Nat.add_0_r in H. apply H. lia.
    + intros k Hk. specialize (H (S k)). replace (S bit + k)%nat with (bit + S k)%nat by lia. apply H. lia.
  - intros [H0 H] [|k] Hk; [by rewrite Nat.add_0_r|].
    replace (bit + S k)%nat with (S bit + k)%nat by lia. apply H. lia.
Qed.

(** Adding a value makes it visible exactly to the addresses that agree with
    the prefix on its bits, and changes nothing else. *)
Lemma elem_of_node_match_add {T} (x v : T) m n bit a p node :
  x ∈ node_match n bit a (Some (node_add m bit p v node)) <->
  x ∈ node_match n bit a node \/ (x = v /\ (m <= n)%nat /\ same_bits a p bit m).
Proof.
  revert n bit node. induction m as [|m IH]; intros n bit node.
  - rewrite node_add_O, (node_match_eq n bit a node), node_match_eq. simpl.
    assert (Hs : same_bits a p bit 0) by (intros k; lia).
    rewrite !elem_of_app, list_elem_of_singleton.
    replace (child (addressBit a bit) (Some (Node (child false node) (child true node) ((parts node).2 ++ [v]))))
      with (child (addressBit a bit) node) by (by destruct (addressBit a bit)).
    split; [intros [[H|H]|H]|intros [[H|H]|(H & _)]]; auto. right. split_and!; [done|lia|done].
  - rewrite same_bits_S, (node_match_eq n bit a node), node_match_eq, node_add_S.
    destruct n as [|n].
    { destruct (addressBit p bit); simpl; split; [by left|intros [H|(_ & H & _)]; [done|lia]|
        by left|intros [H|(_ & H & _)]; [done|lia]]. }
    destruct (addressBit p bit), (addressBit a bit); simpl; rewrite !elem_of_app;
      rewrite ?IH; split; intros H; intuition (try congruence; try lia).
Qed.

(** ** Leading bits and containment *)

Lemma land_one_testbit x : (Z.land x 1 =? 1) = Z.testbit x 0.
Proof.
  change 1 with (Z.ones 1) at 1. rewrite Z.land_ones by lia. change (2 ^ 1) with 2.
  rewrite Z.bit0_odd, Zmod_odd. by destruct (Z.odd x).
Qed.

Lemma addressBit_testbit a bit :
  (bit < BitLen a)%nat -> addressBit a bit = Z.testbit (addr_val a) (Z.of_nat (BitLen a) - 1 - Z.of_nat bit).
Proof.
  intros Hb. unfold addressBit, be_byte. rewrite land_one_testbit.
  pose proof (Nat.div_mod_eq bit 8) as Hd. pose proof (Nat.mod_upper_bound bit 8 ltac:(lia)) as Hm.
  rewrite Z.shiftr_spec, Z.land_spec by lia.
  change 255 with (Z.ones 8). rewrite (Z.ones_spec_low 8) by lia. rewrite andb_true_r.
  rewrite Z.shiftr_spec by lia. f_equal. destruct a; simpl in *; lia.
Qed.

Lemma testbit_above a j : addr_ok a -> Z.of_nat (BitLen a) <= j -> Z.testbit (addr_val a) j = false.
Proof.
  intros [H0 H1] Hj. destruct (Z.eq_dec (addr_val a) 0) as [->|Hn]; [apply Z.bits_0|].
  apply Z.bits_above_log2; [done|]. apply Z.log2_lt_pow2; [lia|].
  eapply Z.lt_le_trans; [exact H1|]. apply Z.pow_le_mono_r; lia.
Qed.

Lemma shifted_lxor_zero x y k :
  0 <= k -> (Z.shiftr (Z.lxor x y) k =? 0) = true <-> forall j, k <= j -> Z.testbit x j = Z.testbit y j.
Proof.
  intros Hk. rewrite Z.eqb_eq. split.
  - intros H j Hj. assert (Hx : Z.testbit (Z.shiftr (Z.lxor x y) k) (j - k) = false) by (rewrite H; apply Z.bits_0).
    rewrite Z.shiftr_spec, Z.lxor_spec in Hx by lia. replace (j - k + k) with j in Hx by lia.
    by destruct (Z.testbit x j), (Z.testbit y j).
  - intros H. apply Z.bits_inj'. intros j Hj. rewrite Z.bits_0, Z.shiftr_spec, Z.lxor_spec by lia.
    rewrite H by lia. apply xorb_nilpotent.
Qed.

(** Containment is agreement on the bits of the prefix. *)
Lemma PrefixContains_spec p a :
  addr_ok a -> prefix_ok p -> Zone a = ""%string ->
  PrefixContains p a = true <->
  BitLen (pfx_Addr p) = BitLen a /\ same_bits a (pfx_Addr p) 0 (Bits p).
Proof.
  intros Ha [Hp Hbits] Hz. unfold PrefixContains. rewrite Hz. simpl.
  destruct (Nat.eqb_spec (BitLen (pfx_Addr p)) (BitLen a)) as [El|El]; simpl; [|naive_solver].
  rewrite shifted_lxor_zero by lia. split.
  - intros H. split; [done|]. intros k Hk. simpl. rewrite !addressBit_testbit by lia. rewrite El. apply H. lia.
  - intros [_ H] j Hj. destruct (Z.lt_ge_cases j (Z.of_nat (BitLen a))) as [Hlt|Hge].
    + specialize (H (BitLen a - 1 - Z.to_nat j)%nat). simpl in H.
      rewrite !addressBit_testbit, El in H by lia.
      replace (Z.of_nat (BitLen a) - 1 - Z.of_nat (BitLen a - 1 - Z.to_nat j)) with j in H by lia.
      apply H. lia.
    + rewrite !testbit_above by (try done; rewrite ?El; lia). done.
Qed.

(** Masking keeps the bits of the prefix. *)
Lemma mask_testbit width bits v j :
  (bits <= width)%nat -> Z.of_nat (width - bits) <= j -> Z.testbit (mask_val width bits v) j = Z.testbit v j.
Proof.
  intros Hb Hj. unfold mask_val. rewrite Z.shiftl_spec by lia. rewrite Z.shiftr_spec by lia. f_equal. lia.
Qed.

Lemma mask_val_range width bits v :
  0 <= v < 2 ^ Z.of_nat width -> (bits <= width)%nat -> 0 <= mask_val width bits v < 2 ^ Z.of_nat width.
Proof.
  intros [H0 H1] Hb. unfold mask_val. rewrite Z.shiftl_mul_pow2, Z.shiftr_div_pow2 by lia.
  pose proof (Z.pow_pos_nonneg 2 (Z.of_nat (width - bits)) ltac:(lia) ltac:(lia)) as Hp.
  split; [apply Z.mul_nonneg_nonneg; [apply Z.div_pos; lia|lia]|].
  pose proof (Z.mul_div_le v (2 ^ Z.of_nat (width - bits)) Hp). nia.
Qed.

Lemma Masked_ok p : prefix_ok p -> prefix_ok (Masked p).
Proof.
  intros [Ha Hb]. unfold prefix_ok, Masked, addr_ok in *.
  destruct (pfx_Addr p) as [v|v z]; cbn [addr_val BitLen pfx_Addr Bits] in *; (split; [|done]);
    by apply mask_val_range.
Qed.

Lemma Masked_BitLen p : BitLen (pfx_Addr (Masked p)) = BitLen (pfx_Addr p).
Proof. unfold Masked. by destruct (pfx_Addr p). Qed.

Lemma Masked_same_bits p a :
  prefix_ok p -> same_bits a (pfx_Addr (Masked p)) 0 (Bits p) <-> same_bits a (pfx_Addr p) 0 (Bits p).
Proof.
  intros [Ha Hb]. unfold same_bits.
  assert (E : forall k, (k < Bits p)%nat -> addressBit (pfx_Addr (Masked p)) (0 + k) = addressBit (pfx_Addr p) (0 + k)).
  { intros k Hk. rewrite Nat.add_0_l, !addressBit_testbit by (rewrite ?Masked_BitLen; lia). rewrite Masked_BitLen.
    unfold Masked. destruct (pfx_Addr p) as [v|v z]; cbn [addr_val BitLen pfx_Addr Bits] in *;
      apply mask_testbit; lia. }
  split; intros H k Hk; [rewrite <- E by done|rewrite E by done]; by apply H.
Qed.

Lemma Masked_contains p a :
  addr_ok a -> prefix_ok p -> PrefixContains (Masked p) a = PrefixContains p a.
Proof.
  intros Ha Hp. destruct (decide (Zone a = ""%string)) as [Hz|Hz].
  - assert (H : PrefixContains (Masked p) a = true <-> PrefixContains p a = true).
    { rewrite !PrefixContains_spec by (try apply Masked_ok; done). rewrite Masked_BitLen.
      change (Bits (Masked p)) with (Bits p). by rewrite Masked_same_bits. }
    by destruct (PrefixContains (Masked p) a), (PrefixContains p a); intuition congruence.
  - unfold PrefixContains. apply String.eqb_neq in Hz. by rewrite Hz.
Qed.

(** ** Looking an address up *)

(** A prefix as [canonicalPrefix] makes them: an IPv4 prefix has an IPv4
    address. *)
Definition canonical (p : Prefix) : Prop :=
  prefix_ok p /\ Zone (pfx_Addr p) = ""%string /\ Is4In6 (pfx_Addr p) = false.

Lemma Unmap_id a : Is4In6 a = false -> Unmap a = a.
Proof. unfold Unmap. by intros ->. Qed.

Lemma Unmap_not_mapped a : Is4In6 (Unmap a) = false.
Proof. unfold Unmap. destruct (Is4In6 a) eqn:E; [done|exact E]. Qed.

Lemma Is4_BitLen a b : BitLen a = BitLen b <-> Is4 a = Is4 b.
Proof. destruct a, b; simpl; split; done. Qed.

Lemma Masked_Is4 p : Is4 (pfx_Addr (Masked p)) = Is4 (pfx_Addr p).
Proof. apply Is4_BitLen, Masked_BitLen. Qed.

(** The values added under prefixes that contain the address. *)
Definition containing {T} (l : list (Prefix * T)) (a : Addr) : list T :=
  omap (fun pv => if PrefixContains pv.1 a then Some pv.2 else None) l.

Definition index_of {T} (l : list (Prefix * T)) : prefixIndex T :=
  fold_left (fun i pv => index_add i pv.1 pv.2) l empty_index.

Definition lookup_addr (a : Addr) : Prop := addr_ok a /\ Zone a = ""%string /\ Is4In6 a = false.

(** Masking makes no IPv4-mapped address. *)
Lemma Masked_not_mapped p : canonical p -> Is4In6 (pfx_Addr (Masked p)) = false.
Proof.
  intros ([Ha Hb] & _ & Hm). destruct (Is4In6 (pfx_Addr (Masked p))) eqn:E; [|done].
  rewrite <- Hm, <- E. unfold Masked, Is4In6 in *. destruct (pfx_Addr p) as [v|v z]; [done|].
  cbn [pfx_Addr BitLen] in *. apply Z.eqb_eq in E. rewrite E. symmetry. apply Z.eqb_eq.
  assert (H32 : Z.testbit (mask_val 128 (Bits p) v) 32 = true).
  { replace 32 with (0 + 32) by lia. rewrite <- Z.shiftr_spec, E by lia. done. }
  assert (Hlow : Z.of_nat (128 - Bits p) <= 32).
  { destruct (Z.le_gt_cases (Z.of_nat (128 - Bits p)) 32) as [|Hgt]; [done|]. unfold mask_val in H32.
    rewrite Z.shiftl_spec_low in H32 by lia. done. }
  rewrite <- E. apply Z.bits_inj'. intros j Hj. rewrite !Z.shiftr_spec by lia.
  symmetry. apply mask_testbit; lia.
Qed.

Lemma elem_of_match_add {T} (i : prefixIndex T) p v x a :
  canonical p -> lookup_addr a ->
  x ∈ index_match (index_add i p v) a <->
  x ∈ index_match i a \/ (x = v /\ PrefixContains p a = true).
Proof.
  intros Hcan (Ha & Hz & Hma). pose proof (Masked_not_mapped p Hcan) as Hmm.
  destruct Hcan as (Hp & Hzp & Hmp). unfold index_match, index_add.
  rewrite (Unmap_id a Hma), (Unmap_id (pfx_Addr (Masked p)) Hmm), Masked_Is4.
  rewrite PrefixContains_spec, Is4_BitLen by done.
  rewrite <- (Masked_same_bits p a Hp).
  destruct Hp as [_ Hb].
  destruct (decide (Is4 (pfx_Addr p) = Is4 a)) as [E|E].
  - assert (El : BitLen (pfx_Addr p) = BitLen a) by (by apply Is4_BitLen). rewrite E, El in *.
    destruct (Is4 a); cbn [v4 v6]; rewrite elem_of_node_match_add; change (Bits (Masked p)) with (Bits p);
      intuition.
  - destruct (Is4 (pfx_Addr p)), (Is4 a); try done; cbn [v4 v6]; intuition.
Qed.

Lemma elem_of_match_fold {T} (l : list (Prefix * T)) i x a :
  lookup_addr a ->
  Forall (fun pv => canonical pv.1) l ->
  x ∈ index_match (fold_left (fun i pv => index_add i pv.1 pv.2) l i) a <->
  x ∈ index_match i a \/ x ∈ containing l a.
Proof.
  intros Ha Hl. revert i. induction Hl as [|[p v] l Hc Hl IH]; intros i; simpl in *.
  - split; [by left|]. by intros [H|H%elem_of_nil].
  - rewrite IH, elem_of_match_add by done. unfold containing. simpl.
    destruct (PrefixContains p a); [rewrite elem_of_cons|]; naive_solver.
Qed.

Lemma index_match_empty {T} a : index_match (@empty_index T) a = [].
Proof. unfold index_match, empty_index. destruct (Is4 (Unmap a)); simpl; apply node_match_None. Qed.

(** The trie finds exactly what a scan of all prefixes finds. *)
Lemma index_match_spec {T} (l : list (Prefix * T)) x a :
  lookup_addr a ->
  Forall (fun pv => canonical pv.1) l ->
  x ∈ index_match (index_of l) a <-> x ∈ containing l a.
Proof.
  intros Ha Hl. unfold index_of. rewrite elem_of_match_fold, index_match_empty by done.
  split; [by intros [H%elem_of_nil|H]|by right].
Qed.

(** [canonicalPrefix] succeeds with a canonical prefix that contains the same
    unmapped addresses. *)
Lemma canonicalPrefix_canonical p q :
  prefix_ok p -> Zone (pfx_Addr p) = ""%string -> canonicalPrefix p = Some q -> canonical q.
Proof.
  intros Hp Hz H. unfold canonicalPrefix in H. destruct (Is4In6 (pfx_Addr p)) eqn:Em.
  - destruct (Nat.leb_spec (Bits p) 96); [done|]. injection H as <-.
    assert (Hu : prefix_ok (PrefixFrom (Unmap (pfx_Addr p)) (Bits p - 96))).
    { destruct Hp as [Ha Hb]. split; [by apply without_zone_ok, Unmap_ok|].
      unfold Unmap. rewrite Em. simpl. destruct (pfx_Addr p); [done|]. simpl in Hb. lia. }
    split_and!; [by apply Masked_ok|..]; unfold Unmap; rewrite Em; done.
  - injection H as <-. split_and!; [by apply Masked_ok| |by apply Masked_not_mapped].
    unfold Masked. by destruct (pfx_Addr p).
Qed.
