(* ===== verification/IpAccess.v ===== *)
(** * IP access rules (internal/protection/ip/blacklist.go, access.go)

    Allow, block and monitor rules on addresses and networks, global, per site
    or per path, with the lookup tables that find the rules of an address; the
    decision over all security views of the path. *)

From stdpp Require Import sorting.
From S2P Require Import Prelude GoText Path IpAddr PrefixIndex.
From Stdlib Require Import Ascii Sorted.

Open Scope list_scope.
Open Scope Z_scope.
Open Scope go_scope.

(** ** Matchers *)

Record Matcher := { ips : gset Addr; prefixes : list Prefix; cidrs : prefixIndex unit }.

Definition empty_matcher : Matcher := {| ips := ∅; prefixes := []; cidrs := empty_index |}.

Definition add_entry (m : Matcher) (entry : string) : option Matcher :=
  let entry := TrimSpace entry in
  return None when String.eqb entry "" ;;
  if ContainsByte entry "/" then
    match ParsePrefix entry with
    | None => None
    | Some prefix =>
        match canonicalPrefix prefix with
        | None => None
        | Some prefix => Some {| ips := ips m; prefixes := prefixes m ++ [prefix];
                                 cidrs := index_add (cidrs m) prefix tt |}
        end
    end
  else
    match ParseAddr entry with
    | None => None
    | Some addr => Some {| ips := ips m ∪ {[Unmap addr]}; prefixes := prefixes m; cidrs := cidrs m |}
    end.

Fixpoint add_entries (m : Matcher) (entries : list string) : option Matcher :=
  match entries with
  | [] => Some m
  | e :: es => match add_entry m e with Some m => add_entries m es | None => None end
  end.

(** Any error is [None]. *)
Definition NewMatcher (entries : list string) : option Matcher := add_entries empty_matcher entries.

Definition MatcherContains (m : option Matcher) (raw : string) : bool :=
  match m with
  | None => false
  | Some m =>
      match ParseAddr (TrimSpace raw) with
      | None => false
      | Some addr =>
          let addr := Unmap addr in
          return true when bool_decide (addr ∈ ips m) ;;
          (0 <? length (index_match (cidrs m) addr))%nat
      end
  end.

(** ** Rules *)

Record IPAccessRuleConfig := {
  ic_ID : string; ic_Name : string; ic_Description : string; ic_Action : string;
  ic_Scope : string; ic_SiteID : string; ic_PathPrefix : string;
  ic_Entries : list string; ic_Enabled : bool
}.

Record IPProtectionConfig := {
  Blacklist : list string;
  Whitelist : list string;
  AccessRules : list IPAccessRuleConfig
}.

Record AccessDecision := {
  Matched : bool; ad_Action : string; RuleID : string; RuleName : string; ad_Scope : string;
  ad_SiteID : string; ad_PathPrefix : string; ad_Description : string
}.

Record accessRule := {
  ar_id : string; ar_name : string; ar_description : string; ar_action : string;
  ar_scope : string; ar_siteID : string; ar_pathPrefix : string; ar_matcher : Matcher
}.

Record AccessPolicy := {
  ap_rules : list accessRule;
  exact : gmap Addr (list nat);
  networks : prefixIndex nat
}.

Definition normalizeAccessAction (action : string) : string :=
  let a := ToLower (TrimSpace action) in
  if String.eqb a "block" then "block" else if String.eqb a "monitor" then "monitor" else "allow".

Definition normalizeAccessScope (scope : string) : string :=
  let s := ToLower (TrimSpace scope) in
  if String.eqb s "site" then "site"
  else if String.eqb s "path" || String.eqb s "directory" then "path" else "global".

Definition normalizePathPrefix (prefix : string) : string :=
  let prefix := TrimSpace prefix in
  return "" when String.eqb prefix "" ;;
  return ("/" ++ prefix)%string when negb (HasPrefix prefix "/") ;;
  prefix.

Definition newAccessRule (item : IPAccessRuleConfig) : option accessRule :=
  match NewMatcher (ic_Entries item) with
  | None => None
  | Some m =>
      Some {| ar_id := TrimSpace (ic_ID item); ar_name := TrimSpace (ic_Name item);
              ar_description := TrimSpace (ic_Description item);
              ar_action := normalizeAccessAction (ic_Action item);
              ar_scope := normalizeAccessScope (ic_Scope item);
              ar_siteID := TrimSpace (ic_SiteID item);
              ar_pathPrefix := normalizePathPrefix (ic_PathPrefix item); ar_matcher := m |}
  end.

Definition exact_add (index : nat) (ex : gmap Addr (list nat)) (addr : Addr) : gmap Addr (list nat) :=
  <[addr := default [] (ex !! addr) ++ [index]]> ex.

(** The Go map of addresses is visited in some order; each address is
    visited once, so the order does not matter. *)
Definition addRule (p : AccessPolicy) (rule : accessRule) : AccessPolicy :=
  let index := length (ap_rules p) in
  {| ap_rules := ap_rules p ++ [rule];
     exact := fold_left (exact_add index) (elements (ips (ar_matcher rule))) (exact p);
     networks := fold_left (fun i prefix => index_add i prefix index)
                   (prefixes (ar_matcher rule)) (networks p) |}.

Definition empty_policy : AccessPolicy := {| ap_rules := []; exact := ∅; networks := empty_index |}.

(** The two legacy lists as rules. *)
Definition legacy_rule (id name action : string) (entries : list string) : IPAccessRuleConfig :=
  {| ic_ID := id; ic_Name := name; ic_Description := ""; ic_Action := action; ic_Scope := "global";
     ic_SiteID := ""; ic_PathPrefix := ""; ic_Entries := entries; ic_Enabled := true |}.

Definition add_item (p : AccessPolicy) (item : IPAccessRuleConfig) : option AccessPolicy :=
  match newAccessRule item with Some rule => Some (addRule p rule) | None => None end.

Fixpoint add_items (p : AccessPolicy) (items : list IPAccessRuleConfig) : option AccessPolicy :=
  match items with
  | [] => Some p
  | item :: items =>
      if negb (ic_Enabled item) then add_items p items
      else match add_item p item with Some p => add_items p items | None => None end
  end.

(** A legacy list that is not empty becomes a rule. *)
Definition add_legacy (p : option AccessPolicy) (id name action : string) (entries : list string)
  : option AccessPolicy :=
  match p, entries with
  | Some p, _ :: _ => add_item p (legacy_rule id name action entries)
  | p, _ => p
  end.

Definition NewAccessPolicy (cfg : IPProtectionConfig) : option AccessPolicy :=
  let p := add_legacy (Some empty_policy) "legacy-whitelist" "Global allowlist" "allow" (Whitelist cfg) in
  let p := add_legacy p "legacy-blacklist" "Global blocklist" "block" (Blacklist cfg) in
  match p with Some p => add_items p (AccessRules cfg) | None => None end.

(** ** Decisions *)

Definition pathMatchesPrefix (path prefix : string) : bool :=
  match NormalizeRequestPath path, NormalizeRequestPath prefix with
  | Some path, Some prefix =>
      return true when String.eqb prefix "" ;;
      return false when String.eqb path "" ;;
      let base := TrimRightByte prefix "/" in
      return HasPrefix path "/" when String.eqb base "" ;;
      String.eqb path base || HasPrefix path (base ++ "/")
  | _, _ => false
  end.

Definition appliesScope (r : accessRule) (siteID path : string) : bool :=
  if String.eqb (ar_scope r) "site" then
    negb (String.eqb (ar_siteID r) "") && String.eqb (ar_siteID r) siteID
  else if String.eqb (ar_scope r) "path" then
    return false when negb (String.eqb (ar_siteID r) "") && negb (String.eqb (ar_siteID r) siteID) ;;
    pathMatchesPrefix path (if String.eqb (ar_pathPrefix r) "" then "/" else ar_pathPrefix r)
  else true.

Definition rule_decision (r : accessRule) : AccessDecision :=
  {| Matched := true; ad_Action := ar_action r; RuleID := ar_id r; RuleName := ar_name r;
     ad_Scope := ar_scope r; ad_SiteID := ar_siteID r; ad_PathPrefix := ar_pathPrefix r;
     ad_Description := ar_description r |}.

Definition specificity (r : accessRule) (addr : Addr) : Z :=
  let addressScore := if bool_decide (addr ∈ ips (ar_matcher r)) then Z.of_nat (BitLen addr) else 0 in
  let addressScore :=
    fold_left (fun score p => if PrefixContains p addr && (score <? Z.of_nat (Bits p))
                              then Z.of_nat (Bits p) else score)
      (prefixes (ar_matcher r)) addressScore in
  if String.eqb (ar_scope r) "path" then 3000 + Z.of_nat (String.length (ar_pathPrefix r)) + addressScore
  else if String.eqb (ar_scope r) "site" then 2000 + addressScore
  else 1000 + addressScore.

Definition zero_decision : AccessDecision :=
  {| Matched := false; ad_Action := ""; RuleID := ""; RuleName := ""; ad_Scope := "";
     ad_SiteID := ""; ad_PathPrefix := ""; ad_Description := "" |}.
Definition none_decision : AccessDecision :=
  {| Matched := false; ad_Action := "none"; RuleID := ""; RuleName := ""; ad_Scope := "";
     ad_SiteID := ""; ad_PathPrefix := ""; ad_Description := "" |}.

(** One rule of the loop: [best] and [bestScore] after it. *)
Definition consider (addr : Addr) (siteID path : string) (best : AccessDecision * Z) (r : accessRule)
  : AccessDecision * Z :=
  return best when negb (appliesScope r siteID path) ;;
  let score := specificity r addr in
  if negb (Matched best.1) || (best.2 <? score) then (rule_decision r, score) else best.

(** The loop of [evaluatePath]; an index is always one of a rule. *)
Fixpoint evaluate_loop (rules : list accessRule) (addr : Addr) (siteID path : string)
  (indices : list nat) (previous : Z) (best : AccessDecision * Z) : AccessDecision * Z :=
  match indices with
  | [] => best
  | index :: indices =>
      if Z.of_nat index =? previous then evaluate_loop rules addr siteID path indices previous best
      else
        let best := match rules !! index with
                    | Some r => consider addr siteID path best r
                    | None => best
                    end in
        evaluate_loop rules addr siteID path indices (Z.of_nat index) best
  end.

Definition best_or_none (best : AccessDecision) : AccessDecision :=
  if Matched best then best else none_decision.

Definition evaluatePath (p : AccessPolicy) (addr : Addr) (siteID path : string) (indices : list nat)
  : AccessDecision :=
  best_or_none (evaluate_loop (ap_rules p) addr siteID path indices (-1) (zero_decision, 0)).1.

Definition blocking (d : AccessDecision) : bool := String.eqb (ad_Action d) "block".
Definition allowing (d : AccessDecision) : bool := String.eqb (ad_Action d) "allow".

(** The loop over the views of the path. *)
Fixpoint select_views (first : bool) (decide : string -> AccessDecision) (views : list string)
  (selected : AccessDecision) : AccessDecision :=
  match views with
  | [] => selected
  | view :: views =>
      let decision := decide view in
      return decision when blocking decision ;;
      select_views false decide views
        (if first || (negb (allowing decision)
                      && (allowing selected || negb (Matched selected)
                          || String.eqb (ad_Action decision) "monitor"))
         then decision else selected)
  end.

(** The indices of the rules of an address, sorted. *)
Definition rule_indices (p : AccessPolicy) (addr : Addr) : list nat :=
  merge_sort le (default [] (exact p !! addr) ++ index_match (networks p) addr).

Definition Evaluate (p : option AccessPolicy) (clientIP siteID path : string) : AccessDecision :=
  match p with
  | None => none_decision
  | Some p =>
      return none_decision when bool_decide (ap_rules p = []) ;;
      match SecurityPathViews path, ParseAddr (TrimSpace clientIP) with
      | Some views, Some addr =>
          let addr := Unmap addr in
          let indices := rule_indices p addr in
          select_views true (fun view => evaluatePath p addr siteID view indices) views zero_decision
      | _, _ => none_decision
      end
  end.

(** ** The tables agree with a scan of the rules *)

(** The rule lists the address, or a network that contains it. *)
Definition rule_matches (addr : Addr) (r : accessRule) : bool :=
  bool_decide (addr ∈ ips (ar_matcher r)) || existsb (fun p => PrefixContains p addr) (prefixes (ar_matcher r)).

(** The decision of a view by scanning all rules in order. *)
Definition scan (p : AccessPolicy) (addr : Addr) (siteID path : string) : AccessDecision :=
  best_or_none (fold_left (fun best r => if rule_matches addr r then consider addr siteID path best r else best)
                  (ap_rules p) (zero_decision, 0)).1.

Definition scan_evaluate (p : AccessPolicy) (addr : Addr) (siteID : string) (views : list string) : AccessDecision :=
  select_views true (scan p addr siteID) views zero_decision.

Definition tabled (m : Matcher) : Prop :=
  Forall canonical (prefixes m)
  /\ forall a, lookup_addr a ->
       (0 <? length (index_match (cidrs m) a))%nat = existsb (fun p => PrefixContains p a) (prefixes m).

Record policy_ok (p : AccessPolicy) : Prop := {
  po_matchers : Forall (fun r => Forall canonical (prefixes (ar_matcher r))) (ap_rules p);
  po_exact : forall a i, i ∈ default [] (exact p !! a) <->
    exists r, ap_rules p !! i = Some r /\ a ∈ ips (ar_matcher r);
  po_networks : forall a i, lookup_addr a -> i ∈ index_match (networks p) a <->
    exists r, ap_rules p !! i = Some r /\ existsb (fun q => PrefixContains q a) (prefixes (ar_matcher r)) = true
}.

Lemma elem_of_index_fold {T} (v : T) ps i x a :
  lookup_addr a -> Forall canonical ps ->
  x ∈ index_match (fold_left (fun i p => index_add i p v) ps i) a <->
  x ∈ index_match i a \/ (x = v /\ existsb (fun q => PrefixContains q a) ps = true).
Proof.
  intros Ha Hps. revert i. induction Hps as [|p ps Hp Hps IH]; intros i; simpl; [naive_solver|].
  rewrite IH, elem_of_match_add by done. rewrite orb_true_iff. naive_solver.
Qed.

Lemma exact_add_fold index l ex a i :
  i ∈ default [] (fold_left (exact_add index) l ex !! a) <->
  i ∈ default [] (ex !! a) \/ (i = index /\ a ∈ l).
Proof.
  revert ex. induction l as [|b l IH]; intros ex; simpl; [set_solver|].
  rewrite IH. unfold exact_add. destruct (decide (a = b)) as [-> |Hne].
  - rewrite lookup_insert_eq. simpl. rewrite elem_of_app, list_elem_of_singleton, elem_of_cons. naive_solver.
  - rewrite lookup_insert_ne by done. rewrite elem_of_cons. naive_solver.
Qed.

Lemma lookup_snoc_cases {A} (l : list A) x i y :
  (l ++ [x]) !! i = Some y <-> l !! i = Some y \/ (i = length l /\ y = x).
Proof.
  rewrite lookup_app_Some. split; (intros [H|H]; [by left|right]).
  - destruct H as [Hl H]. apply list_lookup_singleton_Some in H as [Hi ->]. split; [lia|done].
  - destruct H as [-> ->]. by rewrite Nat.sub_diag.
Qed.

Lemma addRule_ok p r : policy_ok p -> Forall canonical (prefixes (ar_matcher r)) -> policy_ok (addRule p r).
Proof.
  intros [H1 H2 H3] Hr. constructor; simpl.
  - apply Forall_app. split; [done|by apply Forall_singleton].
  - intros a i. rewrite exact_add_fold, H2, elem_of_elements.
    setoid_rewrite lookup_snoc_cases. naive_solver.
  - intros a i Ha. rewrite elem_of_index_fold, H3 by done.
    setoid_rewrite lookup_snoc_cases. naive_solver.
Qed.

Lemma empty_policy_ok : policy_ok empty_policy.
Proof.
  constructor; simpl.
  - constructor.
  - intros a i. rewrite lookup_empty. set_solver.
  - intros a i Ha. rewrite index_match_empty. set_solver.
Qed.

(** ** Matchers *)

Lemma empty_matcher_tabled : tabled empty_matcher.
Proof. split; [constructor|]. intros a Ha. simpl. by rewrite index_match_empty. Qed.

Lemma add_entry_tabled m e m' : tabled m -> add_entry m e = Some m' -> tabled m'.
Proof.
  intros [Hc Ht] H. unfold add_entry in H. destruct (String.eqb _ _); [done|].
  destruct (ContainsByte _ _).
  - destruct (ParsePrefix _) as [p|] eqn:Ep; [|done]. apply ParsePrefix_ok in Ep as [Hp Hz].
    destruct (canonicalPrefix p) as [q|] eqn:Eq; [|done]. injection H as <-.
    pose proof (canonicalPrefix_canonical p q Hp Hz Eq) as Hq.
    split; simpl; [apply Forall_app; split; [done|by apply Forall_singleton]|].
    intros a Ha. rewrite existsb_app, <- Ht by done. simpl. rewrite orb_false_r.
    apply eq_true_iff_eq. rewrite orb_true_iff, !Nat.ltb_lt.
    assert (Hlen : forall l : list unit, (0 < length l)%nat <-> tt ∈ l).
    { intros [|[] l]; simpl; split; intros; [lia|by apply elem_of_nil in H|by left|lia]. }
    rewrite !Hlen, elem_of_match_add by done. naive_solver.
  - destruct (ParseAddr _) as [a|]; [|done]. injection H as <-. by split.
Qed.

Lemma add_entries_tabled es m m' : tabled m -> add_entries m es = Some m' -> tabled m'.
Proof.
  revert m. induction es as [|e es IH]; simpl; intros m Hm H; [by injection H as <-|].
  destruct (add_entry m e) as [m1|] eqn:E; [|done]. apply (IH m1); [|done]. by eapply add_entry_tabled.
Qed.

Lemma NewMatcher_tabled es m : NewMatcher es = Some m -> tabled m.
Proof. apply add_entries_tabled, empty_matcher_tabled. Qed.

Lemma add_item_ok p item p' : policy_ok p -> add_item p item = Some p' -> policy_ok p'.
Proof.
  intros Hp H. unfold add_item, newAccessRule in H.
  destruct (NewMatcher _) as [m|] eqn:Em; [|done]. injection H as <-.
  apply addRule_ok; [done|]. by apply NewMatcher_tabled in Em as [? _].
Qed.

Lemma add_items_ok items p p' : policy_ok p -> add_items p items = Some p' -> policy_ok p'.
Proof.
  revert p. induction items as [|item items IH]; simpl; intros p Hp H; [by injection H as <-|].
  destruct (negb _); [by apply (IH p)|].
  destruct (add_item p item) as [p1|] eqn:E; [|done]. apply (IH p1); [|done]. by eapply add_item_ok.
Qed.

Lemma add_legacy_ok q id name act es p' :
  (forall p1, q = Some p1 -> policy_ok p1) -> add_legacy q id name act es = Some p' -> policy_ok p'.
Proof.
  intros Hq H. unfold add_legacy in H. destruct q as [p1|]; [|done]. destruct es.
  - by apply Hq.
  - eapply add_item_ok; [by apply Hq|exact H].
Qed.

Lemma NewAccessPolicy_ok cfg p : NewAccessPolicy cfg = Some p -> policy_ok p.
Proof.
  unfold NewAccessPolicy. cbv zeta. intros H.
  destruct (add_legacy (add_legacy _ _ _ _ _) _ _ _ _) as [p1|] eqn:E; [|done].
  eapply add_items_ok; [|exact H]. eapply add_legacy_ok; [|exact E].
  intros p2 H2. eapply add_legacy_ok; [|exact H2]. intros p3 [= <-]. apply empty_policy_ok.
Qed.

(** ** The loop over the sorted indices *)

Lemma rule_indices_spec p a i :
  policy_ok p -> lookup_addr a ->
  i ∈ rule_indices p a <-> exists r, ap_rules p !! i = Some r /\ rule_matches a r = true.
Proof.
  intros Hp Ha. unfold rule_indices. rewrite merge_sort_Permutation, elem_of_app.
  rewrite (po_exact p Hp), (po_networks p Hp) by done. unfold rule_matches.
  setoid_rewrite orb_true_iff. setoid_rewrite bool_decide_eq_true. naive_solver.
Qed.

(** The indices that the loop looks at. *)
Fixpoint fresh (previous : Z) (l : list nat) : list nat :=
  match l with
  | [] => []
  | i :: l => if Z.of_nat i =? previous then fresh previous l else i :: fresh (Z.of_nat i) l
  end.

Definition consider_at (rules : list accessRule) addr siteID path (best : AccessDecision * Z) (i : nat) :=
  match rules !! i with Some r => consider addr siteID path best r | None => best end.

Lemma evaluate_loop_fresh rules a site path l prev best :
  evaluate_loop rules a site path l prev best
  = fold_left (consider_at rules a site path) (fresh prev l) best.
Proof.
  revert prev best. induction l as [|i l IH]; simpl; intros prev best; [done|].
  destruct (Z.of_nat i =? prev); [done|]. apply IH.
Qed.

(** Sorted indices without repetitions. *)
Lemma fresh_spec prev l :
  StronglySorted le l -> Forall (fun i => prev <= Z.of_nat i) l ->
  StronglySorted lt (fresh prev l)
  /\ forall i, i ∈ fresh prev l <-> i ∈ l /\ Z.of_nat i <> prev.
Proof.
  intros Hs. revert prev. induction Hs as [|i l Hs IH Hle]; simpl; intros prev Hf.
  { split; [constructor|]. set_solver. }
  inversion_clear Hf as [|? ? Hi Hf']. destruct (Z.eqb_spec (Z.of_nat i) prev) as [E|E].
  - destruct (IH prev Hf') as [Hst Hin]. split; [done|]. intros j. rewrite Hin, elem_of_cons.
    split; [tauto|]. intros [[-> |H] Hj]; [congruence|done].
  - assert (Hle' : Forall (fun j => Z.of_nat i <= Z.of_nat j) l).
    { eapply Forall_impl; [exact Hle|]. simpl. lia. }
    destruct (IH (Z.of_nat i) Hle') as [Hst Hin]. split.
    + constructor; [done|]. apply Forall_forall. intros j Hj. apply Hin in Hj as [Hj Hne].
      rewrite Forall_forall in Hle. specialize (Hle j Hj). lia.
    + intros j. rewrite !elem_of_cons, Hin. rewrite Forall_forall in Hle, Hf'. split.
      * intros [-> |[Hj Hne]]; [by split; [left|]|]. split; [by right|].
        specialize (Hle j Hj). lia.
      * intros [[-> |Hj] Hne]; [by left|]. destruct (decide (j = i)) as [-> |]; [by left|].
        right. split; [done|lia].
Qed.

Lemma fold_left_shift {A} (f : A -> nat -> A) l b :
  fold_left f (map S l) b = fold_left (fun b i => f b (S i)) l b.
Proof. revert b. induction l as [|i l IH]; simpl; [done|]. intros b. apply IH. Qed.

(** A fold over a list is a fold over its indices. *)
Lemma fold_left_seq {A B} (f : A -> B -> A) l b :
  fold_left f l b
  = fold_left (fun b i => match l !! i with Some x => f b x | None => b end) (seq 0 (length l)) b.
Proof.
  revert b. induction l as [|x l IH]; intros b; [done|].
  cbn [length seq fold_left]. rewrite <- seq_shift, fold_left_shift. apply IH.
Qed.

Lemma fold_left_filter {A B} (P : B -> Prop) `{!forall x, Decision (P x)} (f : A -> B -> A) l b :
  fold_left f (filter P l) b = fold_left (fun b x => if decide (P x) then f b x else b) l b.
Proof.
  revert b. induction l as [|x l IH]; intros b; [done|]. rewrite filter_cons. simpl.
  destruct (decide (P x)); apply IH.
Qed.

Definition index_matches (rules : list accessRule) (a : Addr) (i : nat) : Prop :=
  exists r, rules !! i = Some r /\ rule_matches a r = true.

#[export] Instance index_matches_dec rules a i : Decision (index_matches rules a i).
Proof.
  unfold index_matches. destruct (rules !! i) as [r|] eqn:E.
  - destruct (rule_matches a r) eqn:Em; [left; by exists r|right; intros (r' & [= <-] & H); congruence].
  - right. by intros (r' & ? & _).
Defined.

Lemma scan_as_indices rules a site path best :
  fold_left (fun best r => if rule_matches a r then consider a site path best r else best) rules best
  = fold_left (consider_at rules a site path) (filter (index_matches rules a) (seq 0 (length rules))) best.
Proof.
  rewrite fold_left_filter, fold_left_seq. generalize (seq 0 (length rules)) as l. intros l. revert best.
  induction l as [|i l IH]; intros best; simpl; [done|]. rewrite <- IH. f_equal. unfold consider_at.
  destruct (rules !! i) as [r|] eqn:E.
  - destruct (rule_matches a r) eqn:Em.
    + rewrite decide_True; [done|by exists r].
    + rewrite decide_False; [done|]. intros (r' & H & ?). congruence.
  - rewrite decide_False; [done|]. intros (r' & H & ?). congruence.
Qed.

Lemma lt_sorted_seq k n : StronglySorted lt (seq k n).
Proof.
  revert k. induction n as [|n IH]; intros k; simpl; constructor; [apply IH|].
  apply Forall_forall. intros i Hi%elem_of_seq. lia.
Qed.

Lemma lt_sorted_filter (P : nat -> Prop) `{!forall x, Decision (P x)} l :
  StronglySorted lt l -> StronglySorted lt (filter P l).
Proof.
  induction 1 as [|i l Hs IH Hf]; [constructor|]. rewrite filter_cons. destruct (decide (P i)); [|done].
  constructor; [done|]. apply Forall_forall. intros j [_ Hj]%list_elem_of_filter.
  rewrite Forall_forall in Hf. by apply Hf.
Qed.

Lemma lt_sorted_unique l1 l2 :
  StronglySorted lt l1 -> StronglySorted lt l2 -> (forall i, i ∈ l1 <-> i ∈ l2) -> l1 = l2.
Proof.
  assert (Hnd : forall l, StronglySorted lt l -> NoDup l /\ StronglySorted le l).
  { induction 1 as [|i l Hs [Hn Hl] Hf]; [by repeat constructor|]. rewrite Forall_forall in Hf. split.
    - constructor; [|done]. intros Hi. specialize (Hf i Hi). lia.
    - constructor; [done|]. apply Forall_forall. intros j Hj. specialize (Hf j Hj). lia. }
  intros H1 H2 Hin. apply Hnd in H1 as [N1 S1], H2 as [N2 S2].
  apply (StronglySorted_unique le); [done|done|]. by apply NoDup_Permutation.
Qed.

(** Looking the rules up is scanning them. *)
Lemma evaluatePath_scan p a site path :
  policy_ok p -> lookup_addr a -> evaluatePath p a site path (rule_indices p a) = scan p a site path.
Proof.
  intros Hp Ha. unfold evaluatePath, scan. f_equal. f_equal.
  rewrite evaluate_loop_fresh, scan_as_indices. f_equal.
  assert (Hsort : StronglySorted le (rule_indices p a)) by (unfold rule_indices; apply StronglySorted_merge_sort; apply _).
  destruct (fresh_spec (-1) (rule_indices p a) Hsort) as [Hst Hin].
  { apply Forall_forall. intros i _. lia. }
  apply lt_sorted_unique; [done|apply lt_sorted_filter, lt_sorted_seq|].
  intros i. rewrite Hin, rule_indices_spec, list_elem_of_filter, elem_of_seq by done.
  unfold index_matches. split.
  - intros [(r & Hr & Hm) _]. split; [by exists r|]. apply lookup_lt_Some in Hr. lia.
  - intros [H _]. split; [done|lia].
Qed.

(** ** The decision over the views *)

Lemma evaluatePath_not_zero p a site v l : ad_Action (evaluatePath p a site v l) = "allow"%string ->
  Matched (evaluatePath p a site v l) = true.
Proof.
  unfold evaluatePath, best_or_none. destruct (Matched _) eqn:E; [done|]. done.
Qed.

(** Later views never turn a decision into an allowance, and never lose a
    block. *)
Lemma select_views_spec first f views selected :
  blocking selected = false ->
  (blocking (select_views first f views selected) = true <-> exists v, v ∈ views /\ blocking (f v) = true)
  /\ (allowing (select_views first f views selected) = true ->
      match views with
      | v :: _ => if first then allowing (f v) = true else allowing selected = true
      | [] => allowing selected = true
      end).
Proof.
  revert first selected. induction views as [|v views IH]; intros first selected Hs; simpl.
  { split; [|done]. rewrite Hs. split; [done|]. by intros (? & ?%elem_of_nil & _). }
  destruct (blocking (f v)) eqn:Eb; simpl.
  { split; [|intros Ha; unfold blocking, allowing in *; props; congruence].
    rewrite Eb. split; [|done]. intros _. exists v. by split; [left|]. }
  set (sel := if first || _ then f v else selected).
  assert (Hsel : blocking sel = false) by (unfold sel; by destruct (first || _)).
  destruct (IH false sel Hsel) as [IHb IHa]. split.
  - rewrite IHb. split; intros (w & Hw & Hb); [exists w; by split; [right|]|].
    apply elem_of_cons in Hw as [-> |Hw]; [congruence|by exists w].
  - intros Ha. assert (Hal : allowing sel = true) by (apply IHa in Ha; by destruct views).
    unfold sel in Hal. destruct first; [done|]. simpl in Hal.
    destruct (negb (allowing (f v)) && _) eqn:Ec; [|done]. props. congruence.
Qed.

(** ** Which rule decides *)

(** [best] is the decision of the first rule of greatest specificity among
    the matching rules of [rules] in scope. *)
Definition decided_by (a : Addr) (site path : string) (rules : list accessRule) (best : AccessDecision * Z) : Prop :=
  let applies r := rule_matches a r && appliesScope r site path in
  match Matched best.1 with
  | false => forall r, r ∈ rules -> applies r = false
  | true => exists l r l', rules = l ++ r :: l' /\ applies r = true
      /\ best = (rule_decision r, specificity r a)
      /\ (forall q, q ∈ l -> applies q = true -> specificity q a < specificity r a)
      /\ (forall q, q ∈ l' -> applies q = true -> specificity q a <= specificity r a)
  end.

Lemma decided_by_fold a site path rules :
  decided_by a site path rules
    (fold_left (fun best r => if rule_matches a r then consider a site path best r else best)
       rules (zero_decision, 0)).
Proof.
  induction rules as [|r rules IH] using rev_ind; [intros r Hr; by apply elem_of_nil in Hr|].
  rewrite fold_left_app. simpl. set (best := fold_left _ rules _) in *. clearbody best.
  destruct (rule_matches a r && appliesScope r site path) eqn:Ea.
  - pose proof Ea as [Em Es]%andb_true_iff. rewrite Em. unfold consider. rewrite Es. simpl.
    unfold decided_by in *. destruct (Matched best.1) eqn:Eb; simpl.
    + destruct IH as (l & s & l' & -> & Hs & Hbest & Hl & Hl'). rewrite Hbest. simpl.
      destruct (Z.ltb_spec (specificity s a) (specificity r a)); simpl.
      * exists (l ++ s :: l'), r, []. split_and!; [done|done|done| |by intros q Hq%elem_of_nil].
        intros q [Hq|[-> |Hq]%elem_of_cons]%elem_of_app Hqa; [specialize (Hl q Hq Hqa); lia|done|].
        specialize (Hl' q Hq Hqa). lia.
      * exists l, s, (l' ++ [r]). split_and!; [by rewrite <- app_assoc|done|done|done|].
        intros q [Hq| ->%list_elem_of_singleton]%elem_of_app Hqa; [by apply Hl'|done].
    + exists rules, r, []. split_and!; [done|done|done| |by intros q Hq%elem_of_nil].
      intros q Hq Hqa. by rewrite IH in Hqa.
  - assert (E : (if rule_matches a r then consider a site path best r else best) = best).
    { destruct (rule_matches a r); [|done]. simpl in Ea. unfold consider. by rewrite Ea. }
    rewrite E. unfold decided_by in *. destruct (Matched best.1).
    + destruct IH as (l & s & l' & -> & Hs & Hbest & Hl & Hl').
      exists l, s, (l' ++ [r]). split_and!; [by rewrite <- app_assoc|done|done|done|].
      intros q [Hq| ->%list_elem_of_singleton]%elem_of_app Hqa; [by apply Hl'|congruence].
    + intros q [Hq| ->%list_elem_of_singleton]%elem_of_app; [by apply IH|done].
Qed.

Lemma lookup_addr_parsed s a : ParseAddr s = Some a -> Zone a = ""%string -> lookup_addr (Unmap a).
Proof.
  intros H Hz. split_and!; [by eapply Unmap_ok, ParseAddr_ok|by apply Unmap_zone|apply Unmap_not_mapped].
Qed.

Lemma select_views_ext first f g views sel :
  (forall v, f v = g v) -> select_views first f views sel = select_views first g views sel.
Proof.
  intros H. revert first sel. induction views as [|v views IH]; intros first sel; simpl; [done|].
  rewrite !H. destruct (blocking (g v)); [done|]. apply IH.
Qed.

(** ** Properties *)

(** C37. The lookup tables are exact: for a policy built from any
    configuration, the decision found through the exact-address map and the
    prefix tries is the decision of a scan of all rules, for every address
    without a zone, site and path. *)
Theorem access_tables_exact cfg p clientIP siteID path a views :
  NewAccessPolicy cfg = Some p ->
  ParseAddr (TrimSpace clientIP) = Some a -> Zone a = ""%string ->
  SecurityPathViews path = Some views -> ap_rules p <> [] ->
  Evaluate (Some p) clientIP siteID path = scan_evaluate p (Unmap a) siteID views.
Proof.
  intros Hp Ha Hz Hv Hr. unfold Evaluate, scan_evaluate. rewrite Hv, Ha, bool_decide_false by done.
  apply select_views_ext. intros v. apply evaluatePath_scan; [by eapply NewAccessPolicy_ok|].
  by eapply lookup_addr_parsed.
Qed.

(** In each view the decision is that of the first rule of greatest
    specificity among those that match the address and apply to the site and
    path; without one it is "none". *)
Theorem most_specific_rule_decides cfg p s a siteID view :
  NewAccessPolicy cfg = Some p -> ParseAddr s = Some a -> Zone a = ""%string ->
  exists best, decided_by (Unmap a) siteID view (ap_rules p) best
    /\ evaluatePath p (Unmap a) siteID view (rule_indices p (Unmap a)) = best_or_none best.1.
Proof.
  intros Hp Ha Hz. eexists. split; [apply decided_by_fold|].
  apply evaluatePath_scan; [by eapply NewAccessPolicy_ok|by eapply lookup_addr_parsed].
Qed.

(** Reading the path in more ways only restricts: the request is blocked
    exactly when some view is, and it is allowed only if the first view, the
    raw path, is allowed. *)
Theorem views_only_restrict p clientIP siteID path a views :
  ParseAddr (TrimSpace clientIP) = Some a -> SecurityPathViews path = Some views -> ap_rules p <> [] ->
  let decide v := evaluatePath p (Unmap a) siteID v (rule_indices p (Unmap a)) in
  let decision := Evaluate (Some p) clientIP siteID path in
  (blocking decision = true <-> exists v, v ∈ views /\ blocking (decide v) = true)
  /\ (allowing decision = true -> exists v vs, views = v :: vs /\ allowing (decide v) = true).
Proof.
  intros Ha Hv Hr decide decision. unfold decision, Evaluate. rewrite Ha, Hv, bool_decide_false by done.
  destruct (select_views_spec true decide views zero_decision eq_refl) as [Hb Hal].
  split; [exact Hb|]. intros H. specialize (Hal H). destruct views as [|v vs]; [done|]. by exists v, vs.
Qed.

(** ** A concrete policy *)

Definition sample_rule (id action scope prefix : string) (entries : list string) : IPAccessRuleConfig :=
  {| ic_ID := id; ic_Name := ""; ic_Description := ""; ic_Action := action; ic_Scope := scope;
     ic_SiteID := ""; ic_PathPrefix := prefix; ic_Entries := entries; ic_Enabled := true |}.

Definition sample_config : IPProtectionConfig :=
  {| Blacklist := ["10.0.0.0/8"; "2001:db8::/32"]; Whitelist := ["10.1.2.3"];
     AccessRules := [sample_rule "admin" "block" "path" "/admin" ["10.1.0.0/16"]] |}%string.

Lemma sample_policy : exists p, NewAccessPolicy sample_config = Some p /\ ap_rules p <> [].
Proof. eexists. split; [vm_compute; reflexivity|done]. Qed.

(** The more specific allowance wins outside /admin, the path rule inside. *)
Example sample_decisions :
  (fun p => (ad_Action (Evaluate (Some p) "10.1.2.3" "s" "/shop"),
             ad_Action (Evaluate (Some p) "10.9.9.9" "s" "/shop"),
             ad_Action (Evaluate (Some p) "10.1.2.3" "s" "/x;a=b/../admin/users"),
             ad_Action (Evaluate (Some p) "::ffff:10.1.2.3" "s" "/admin"),
             ad_Action (Evaluate (Some p) "192.0.2.1" "s" "/admin"))) <$> NewAccessPolicy sample_config
  = Some ("allow", "block", "block", "block", "none")%string.
Proof. vm_compute. reflexivity. Qed.

Definition client : Addr := V4 167838211.

Lemma access_tables_exact_witness : exists p views,
  NewAccessPolicy sample_config = Some p /\ SecurityPathViews "/admin" = Some views
  /\ Evaluate (Some p) "10.1.2.3" "s" "/admin" = scan_evaluate p (Unmap client) "s" views.
Proof.
  destruct sample_policy as (p & Hp & Hr).
  assert (Hv : exists views, SecurityPathViews "/admin" = Some views) by (eexists; vm_compute; reflexivity).
  destruct Hv as (views & Hv). exists p, views.
  assert (Ha : ParseAddr (TrimSpace "10.1.2.3") = Some client) by (vm_compute; reflexivity).
  exact (conj Hp (conj Hv
    (access_tables_exact sample_config p "10.1.2.3" "s" "/admin" client views Hp Ha eq_refl Hv Hr))).
Defined.

Lemma most_specific_rule_decides_witness : exists p best,
  NewAccessPolicy sample_config = Some p /\ decided_by (Unmap client) "s" "/shop" (ap_rules p) best
  /\ evaluatePath p (Unmap client) "s" "/shop" (rule_indices p (Unmap client)) = best_or_none best.1.
Proof.
  destruct sample_policy as (p & Hp & Hr).
  assert (Ha : ParseAddr "10.1.2.3" = Some client) by (vm_compute; reflexivity).
  destruct (most_specific_rule_decides sample_config p "10.1.2.3" client "s" "/shop" Hp Ha eq_refl) as (best & H1 & H2).
  exists p, best. exact (conj Hp (conj H1 H2)).
Defined.

Lemma views_only_restrict_witness : exists p views,
  SecurityPathViews "/admin" = Some views /\
  (blocking (Evaluate (Some p) "10.1.2.3" "s" "/admin") = true <->
   exists v, v ∈ views /\
     blocking (evaluatePath p (Unmap client) "s" v (rule_indices p (Unmap client))) = true).
Proof.
  destruct sample_policy as (p & Hp & Hr).
  assert (Hv : exists views, SecurityPathViews "/admin" = Some views) by (eexists; vm_compute; reflexivity).
  destruct Hv as (views & Hv). exists p, views.
  assert (Ha : ParseAddr (TrimSpace "10.1.2.3") = Some client) by (vm_compute; reflexivity).
  exact (conj Hv (proj1 (views_only_restrict p "10.1.2.3" "s" "/admin" client views Ha Hv Hr))).
Defined.
