(* ===== verification/ProxyTrust.v ===== *)
(** * Trusted proxies and the client address (internal/proxytrust/policy.go)

    Which socket peers may report the client address, in which headers, and
    how the address is taken from a forwarding chain. *)

From S2P Require Import Prelude GoText Acl IpAddr.
From Stdlib Require Import Ascii.

Open Scope list_scope.
Open Scope Z_scope.
Open Scope go_scope.

(** ** Provider headers *)

Record providerPolicy := { pp_name : string; pp_headers : list string }.

Definition provider (name : string) (headers : list string) : providerPolicy :=
  {| pp_name := name; pp_headers := headers |}.

Definition providerPolicies : list providerPolicy :=
  [provider "cloudflare" ["CF-Connecting-IP"; "True-Client-IP"];
   provider "akamai" ["True-Client-IP"];
   provider "fastly" ["Fastly-Client-IP"];
   provider "fly" ["Fly-Client-IP"];
   provider "digitalocean" ["DO-Connecting-IP"];
   provider "aliyun" ["Ali-CDN-Real-IP"];
   provider "generic-cdn" ["CDN-Src-IP"; "X-CDN-Src-IP"];
   provider "azure" ["X-Azure-ClientIP"];
   provider "vercel" ["X-Vercel-Forwarded-For"];
   provider "original-forwarded" ["X-Original-Forwarded-For"];
   provider "nginx" ["X-Real-IP"];
   provider "client-ip" ["X-Client-IP"];
   provider "cluster" ["X-Cluster-Client-IP"];
   provider "google-app-engine" ["X-Appengine-User-IP"]]%string.

Definition CanonicalProvider (raw : string) : option string :=
  let name := ToLower (TrimSpace raw) in
  if existsb (fun p => String.eqb name (pp_name p)) providerPolicies then Some name else None.

Definition SupportedProviders : list string := map pp_name providerPolicies.

(** Every identity header once, in canonical form. *)
Definition ProviderIdentityHeaders : list string :=
  fold_left (fun out h => let h := CanonicalMIMEHeaderKey h in
               if existsb (String.eqb h) out then out else out ++ [h])
    (concat (map pp_headers providerPolicies)) [].

(** ** The policy *)

Record TrustPolicy := {
  tp_providers : gmap string (list Prefix);
  tp_all : list Prefix;
  tp_allCIDRs : list string
}.

Inductive TrustErr :=
| ErrInvalidCIDR (scope raw : string)
| ErrUnknownProvider (name : string)
| ErrDuplicateProvider (name : string).

Definition parsePrefix (raw : string) : option Prefix :=
  let raw := TrimSpace raw in
  return None when String.eqb raw "" ;;
  if Contains raw "/" then Masked <$> ParsePrefix raw
  else match ParseAddr raw with
       | None => None
       | Some a => let a := Unmap a in Some (PrefixFrom a (if Is4 a then 32 else 128))
       end.

(** The prefixes of one list, appended to the trusted ones as they parse. *)
Fixpoint compile_list (scope : string) (cidrs : list string) (p : TrustPolicy) (compiled : list Prefix)
  : result TrustErr (TrustPolicy * list Prefix) :=
  match cidrs with
  | [] => Ok (p, compiled)
  | raw :: cidrs =>
      match parsePrefix raw with
      | None => Err (ErrInvalidCIDR scope (TrimSpace raw))
      | Some prefix =>
          compile_list scope cidrs
            {| tp_providers := tp_providers p; tp_all := tp_all p ++ [prefix];
               tp_allCIDRs := tp_allCIDRs p ++ [TrimSpace raw] |}
            (compiled ++ [prefix])
      end
  end.

Fixpoint compile_providers (items : list (string * list string)) (p : TrustPolicy)
  : result TrustErr TrustPolicy :=
  match items with
  | [] => Ok p
  | (rawName, cidrs) :: items =>
      match CanonicalProvider rawName with
      | None => Err (ErrUnknownProvider (TrimSpace rawName))
      | Some name =>
          return Err (ErrDuplicateProvider name) when has (tp_providers p) name ;;
          let? (p, compiled) := compile_list ("trusted_proxy_providers." ++ name) cidrs p [] in
          compile_providers items
            {| tp_providers := <[name := compiled]> (tp_providers p); tp_all := tp_all p;
               tp_allCIDRs := tp_allCIDRs p |}
      end
  end.

(** [Compile]; the provider map is given in the order in which it is visited. *)
Definition Compile (genericCIDRs : list string) (providerCIDRs : list (string * list string))
  : result TrustErr TrustPolicy :=
  let? (p, _) := compile_list "trusted_cidrs" genericCIDRs
                    {| tp_providers := ∅; tp_all := []; tp_allCIDRs := [] |} [] in
  compile_providers providerCIDRs p.

Definition AllTrustedCIDRs (p : option TrustPolicy) : list string :=
  match p with Some p => tp_allCIDRs p | None => [] end.

Definition prefixes_contain (prefixes : list Prefix) (addr : Addr) : bool :=
  existsb (fun p => PrefixContains p addr) prefixes.

Definition isTrusted (p : TrustPolicy) (addr : Addr) : bool := prefixes_contain (tp_all p) addr.

(** ** Addresses in sockets and headers *)

Definition index_byte (c : ascii) (l : list ascii) : option nat :=
  let n := length (fst (cut_byte c l)) in if (n <? length l)%nat then Some n else None.

Definition last_index_byte (c : ascii) (l : list ascii) : option nat :=
  match index_byte c (rev l) with Some k => Some (length l - 1 - k)%nat | None => None end.

(** The host of [net.SplitHostPort], when it succeeds. *)
Definition split_host (l : list ascii) : option (list ascii) :=
  let no_brackets j k := negb (existsb (Ascii.eqb "["%char) (drop j l))
                         && negb (existsb (Ascii.eqb "]"%char) (drop k l)) in
  match last_index_byte ":"%char l with
  | None => None
  | Some i =>
      match l with
      | "["%char :: _ =>
          match index_byte "]"%char l with
          | None => None
          | Some e => if (S e =? i)%nat && no_brackets 1%nat (S e) then Some (take (e - 1) (drop 1 l)) else None
          end
      | _ => let host := take i l in
             if negb (existsb (Ascii.eqb ":"%char) host) && no_brackets 0%nat 0%nat then Some host else None
      end
  end.

Fixpoint drop_set (cs l : list ascii) : list ascii :=
  match l with
  | c :: l' => if existsb (Ascii.eqb c) cs then drop_set cs l' else l
  | [] => []
  end.

(** [strings.Trim] with a cutset of bytes. *)
Definition TrimBytes (s cutset : string) : string :=
  of_bytes (rev (drop_set (bytes cutset) (rev (drop_set (bytes cutset) (bytes s))))).

Definition quote : ascii := ascii_of_nat 34.
Definition backslash : ascii := ascii_of_nat 92.

(** A host with or without a port or brackets. *)
Definition strip_port (raw : string) : string :=
  match split_host (bytes raw) with
  | Some host => of_bytes host
  | None => TrimBytes raw "[]"
  end.

Definition parseRemoteAddr (raw : string) : option Addr :=
  let raw := TrimSpace raw in
  return None when String.eqb raw "" ;;
  match ParseAddr (TrimSpace (strip_port raw)) with
  | Some a => Some (Unmap a)
  | None => None
  end.

Record HttpRequest := { RemoteAddr : string; rq_Header : gmap string (list string) }.

Definition remoteAddrIP (r : option HttpRequest) : string :=
  match r with
  | None => ""
  | Some r => match parseRemoteAddr (RemoteAddr r) with
              | Some a => AddrString a
              | None => TrimSpace (RemoteAddr r)
              end
  end.

Definition IsTrustedRemoteAddr (p : option TrustPolicy) (remoteAddr : string) : bool :=
  match p with
  | None => false
  | Some p => match parseRemoteAddr remoteAddr with Some a => isTrusted p a | None => false end
  end.

(** "" stands for no address. *)
Definition parseHeaderIP (raw : string) : string :=
  let raw := TrimSpace (TrimBytes raw (String quote "")) in
  return "" when String.eqb raw "" || EqualFold raw "unknown" ;;
  match ParseAddr (TrimSpace (strip_port raw)) with
  | Some a => AddrString (Unmap a)
  | None => ""
  end.

Definition joinedHeaderValue (header : gmap string (list string)) (name : string) : option string :=
  match header !! CanonicalMIMEHeaderKey name with
  | None => None
  | Some values => Some (of_bytes (join_with ","%char (map bytes values)))
  end.

(** The loop of [splitHeaderList]: separators inside quotes do not count. *)
Fixpoint split_header (sep : ascii) (inQuote escaped : bool) (cur l : list ascii) : list (list ascii) :=
  match l with
  | [] => [cur]
  | c :: l =>
      if escaped then split_header sep inQuote false (cur ++ [c]) l
      else if inQuote && Ascii.eqb c backslash then split_header sep inQuote true (cur ++ [c]) l
      else if Ascii.eqb c quote then split_header sep (negb inQuote) false (cur ++ [c]) l
      else if negb inQuote && Ascii.eqb c sep then cur :: split_header sep false false [] l
      else split_header sep inQuote false (cur ++ [c]) l
  end.

Definition splitHeaderList (raw : string) (sep : ascii) : list string :=
  map of_bytes (split_header sep false false [] (bytes raw)).

Definition firstHeaderIP (value : string) : string :=
  match splitHeaderList value "," with
  | [] => ""
  | part :: _ => parseHeaderIP part
  end.

(** The parameters of one Forwarded element: the last [for] value, or [None]
    when the element is invalid. *)
Fixpoint forwarded_for_value (parts : list string) (forValue : string) : option string :=
  match parts with
  | [] => Some forValue
  | part :: parts =>
      let '(key, value) := cut_byte "="%char (bytes (TrimSpace part)) in
      match value with
      | None => None
      | Some value =>
          if negb (EqualFold (TrimSpace (of_bytes key)) "for") then forwarded_for_value parts forValue
          else match value with
               | [] => None
               | _ => forwarded_for_value parts (TrimSpace (of_bytes value))
               end
      end
  end.

Definition forwardedHeaderValues (raw : string) : list string :=
  map (fun item => default "" (forwarded_for_value (splitHeaderList item ";") ""))%string
    (splitHeaderList raw ",").

(** The loop of [forwardedForValues], over the parts from the right:
    (address, malformed). *)
Fixpoint forwarded_loop (p : TrustPolicy) (nearest : string) (parts : list string) : string * bool :=
  match parts with
  | [] => (nearest, false)
  | part :: parts =>
      let ip := parseHeaderIP part in
      return (nearest, true) when String.eqb ip "" ;;
      match ParseAddr ip with
      | Some addr => if isTrusted p addr then forwarded_loop p ip parts else (ip, false)
      | None => (ip, false)
      end
  end.

Definition forwardedForValues (p : TrustPolicy) (parts : list string) : string * bool :=
  forwarded_loop p "" (rev parts).

Definition forwardedFor (p : TrustPolicy) (value : string) : string * bool :=
  forwardedForValues p (splitHeaderList value ",").

(** ** The client address *)

(** The first header of a bound provider that is present decides. *)
Fixpoint first_present (header : gmap string (list string)) (names : list string) : option string :=
  match names with
  | [] => None
  | name :: names =>
      match joinedHeaderValue header name with
      | Some value => Some value
      | None => first_present header names
      end
  end.

Definition provider_headers (p : TrustPolicy) (addr : Addr) : list string :=
  concat (map (fun pr => match tp_providers p !! pp_name pr with
                         | Some cidrs => if prefixes_contain cidrs addr then pp_headers pr else []
                         | None => []
                         end) providerPolicies).

Definition or_remote (remote ip : string) : string := if String.eqb ip "" then remote else ip.

Definition ClientIP (p : option TrustPolicy) (r : option HttpRequest) : string :=
  let remote := remoteAddrIP r in
  match p, r with
  | Some p, Some r =>
      match parseRemoteAddr remote with
      | None => remote
      | Some addr =>
          return remote when negb (isTrusted p addr) ;;
          match first_present (rq_Header r) (provider_headers p addr) with
          | Some value => or_remote remote (firstHeaderIP value)
          | None =>
              let try_forwarded (k : string) :=
                match joinedHeaderValue (rq_Header r) "Forwarded" with
                | Some value =>
                    or_remote k (fst (forwardedForValues p (forwardedHeaderValues value)))
                | None => k
                end in
              match joinedHeaderValue (rq_Header r) "X-Forwarded-For" with
              | Some value =>
                  let '(ip, malformed) := forwardedFor p value in
                  return ip when negb (String.eqb ip "") ;;
                  return remote when malformed ;;
                  try_forwarded remote
              | None => try_forwarded remote
              end
          end
      end
  | _, _ => remote
  end.

(** ** Splitting *)

Lemma split_header_plain sep s t cur :
  Ascii.eqb sep quote = false -> existsb (Ascii.eqb quote) s = false ->
  split_header sep false false cur (s ++ sep :: t)
  = split_header sep false false cur s ++ split_header sep false false [] t.
Proof.
  intros Hsep. revert cur. induction s as [|c s IH]; cbn [existsb app split_header andb negb]; intros cur H.
  - rewrite Hsep, Ascii.eqb_refl. done.
  - apply orb_false_iff in H as [Hc H]. rewrite Ascii.eqb_sym in Hc. rewrite Hc.
    destruct (Ascii.eqb c sep); simpl; [by rewrite IH|by apply IH].
Qed.

Lemma bytes_app s t : bytes (s ++ t)%string = bytes s ++ bytes t.
Proof. unfold bytes. induction s as [|c s IH]; simpl; [done|]. by rewrite IH. Qed.

(** A prefix without quotes adds its own parts in front. *)
Lemma splitHeaderList_app s t :
  ContainsByte s quote = false ->
  splitHeaderList (s ++ "," ++ t) "," = splitHeaderList s "," ++ splitHeaderList t ",".
Proof.
  intros H. unfold splitHeaderList. rewrite !bytes_app. simpl.
  rewrite split_header_plain; [apply map_app|done|]. exact H.
Qed.

(** ** The forwarding chain *)

(** The part reports an address that is not a trusted proxy, or no address. *)
Definition ends_chain (p : TrustPolicy) (part : string) : bool :=
  let ip := parseHeaderIP part in
  return true when String.eqb ip "" ;;
  match ParseAddr ip with Some a => negb (isTrusted p a) | None => true end.

Lemma forwarded_loop_stops p nearest parts more :
  existsb (ends_chain p) parts = true -> forwarded_loop p nearest (parts ++ more) = forwarded_loop p nearest parts.
Proof.
  revert nearest. induction parts as [|part parts IH]; simpl; intros nearest H; [done|].
  unfold ends_chain in H at 1. destruct (String.eqb (parseHeaderIP part) ""); [done|].
  destruct (ParseAddr (parseHeaderIP part)) as [a|]; [|done].
  destruct (isTrusted p a); [by apply IH|done].
Qed.

Lemma forwardedForValues_app p front parts :
  existsb (ends_chain p) parts = true ->
  forwardedForValues p (front ++ parts) = forwardedForValues p parts.
Proof.
  intros H. unfold forwardedForValues. rewrite rev_app_distr. apply forwarded_loop_stops.
  rewrite <- H. apply eq_true_iff_eq. rewrite !existsb_exists. by setoid_rewrite <- in_rev.
Qed.

(** The loop from the right returns the first address that is not a trusted
    proxy; when it meets a part without an address, the one before it. *)
Lemma forwarded_loop_spec p nearest parts ip malformed :
  forwarded_loop p nearest parts = (ip, malformed) ->
  exists trusted rest, parts = trusted ++ rest /\ Forall (fun q => ends_chain p q = false) trusted
  /\ match rest with
     | [] => malformed = false /\ ip = default nearest (parseHeaderIP <$> last trusted)
     | q :: _ => ends_chain p q = true /\
         if String.eqb (parseHeaderIP q) ""
         then malformed = true /\ ip = default nearest (parseHeaderIP <$> last trusted)
         else malformed = false /\ ip = parseHeaderIP q
     end.
Proof.
  revert nearest. induction parts as [|q parts IH]; simpl; intros nearest H.
  { injection H as <- <-. by exists [], []. }
  assert (Eq : ends_chain p q = (String.eqb (parseHeaderIP q) ""
    || match ParseAddr (parseHeaderIP q) with Some a => negb (isTrusted p a) | None => true end)).
  { unfold ends_chain. by destruct (String.eqb (parseHeaderIP q) ""). }
  destruct (String.eqb (parseHeaderIP q) "") eqn:E0.
  { injection H as <- <-. exists [], (q :: parts). rewrite E0. by rewrite Eq. }
  destruct (ParseAddr (parseHeaderIP q)) as [a|] eqn:Ea; [destruct (isTrusted p a) eqn:Et|].
  - destruct (IH _ H) as (tr & rest & -> & Htr & Hrest). exists (q :: tr), rest.
    split_and!; [done|by constructor|].
    assert (El : default nearest (parseHeaderIP <$> last (q :: tr))
                 = default (parseHeaderIP q) (parseHeaderIP <$> last tr)).
    { destruct tr as [|x tr]; [done|]. rewrite last_cons_cons. by destruct (last (x :: tr)) eqn:E; [|by apply last_None in E]. }
    by rewrite El.
  - injection H as <- <-. exists [], (q :: parts). rewrite E0. by rewrite Eq.
  - injection H as <- <-. exists [], (q :: parts). rewrite E0. by rewrite Eq.
Qed.

(** ** What the headers can decide *)

Lemma first_present_agree h h' names :
  (forall n, n ∈ names -> joinedHeaderValue h n = joinedHeaderValue h' n) ->
  first_present h names = first_present h' names.
Proof.
  induction names as [|n names IH]; simpl; intros H; [done|].
  rewrite (H n) by left. rewrite IH; [done|]. intros m Hm. apply H. by right.
Qed.

Lemma elem_of_provider_headers p a n :
  n ∈ provider_headers p a <->
  exists pr cidrs, pr ∈ providerPolicies /\ n ∈ pp_headers pr
    /\ tp_providers p !! pp_name pr = Some cidrs /\ prefixes_contain cidrs a = true.
Proof.
  unfold provider_headers. rewrite list_elem_of_In, in_concat. setoid_rewrite in_map_iff. split.
  - intros (l & (pr & <- & Hpr) & Hn). destruct (tp_providers p !! pp_name pr) as [c|] eqn:E; [|done].
    destruct (prefixes_contain c a) eqn:Ec; [|done]. exists pr, c.
    by split_and!; [apply list_elem_of_In|apply list_elem_of_In| |].
  - intros (pr & c & Hpr & Hn & Hc & Hca). eexists. split; [exists pr; split; [reflexivity|by apply list_elem_of_In]|].
    rewrite Hc, Hca. by apply list_elem_of_In.
Qed.

(** ** The compiled policy *)

(** Everything trusted comes from the configuration. *)
Lemma compile_list_all scope cidrs p compiled p' out :
  compile_list scope cidrs p compiled = Ok (p', out) ->
  exists l, Forall2 (fun raw q => parsePrefix raw = Some q) cidrs l
    /\ tp_all p' = tp_all p ++ l /\ out = compiled ++ l /\ tp_providers p' = tp_providers p.
Proof.
  revert p compiled. induction cidrs as [|raw cidrs IH]; simpl; intros p compiled H.
  { injection H as <- <-. exists []. by rewrite !app_nil_r. }
  destruct (parsePrefix raw) as [q|] eqn:E; [|done].
  destruct (IH _ _ H) as (l & Hl & Hall & Hout & Hp). exists (q :: l).
  split_and!; [by constructor|..]; simpl in *; [by rewrite Hall, <- app_assoc|by rewrite Hout, <- app_assoc|done].
Qed.

(** The prefix comes from one of the entries. *)
Definition configured (entries : list string) (q : Prefix) : Prop :=
  exists raw, raw ∈ entries /\ parsePrefix raw = Some q.

Lemma compile_list_configured scope cidrs p compiled p' out :
  compile_list scope cidrs p compiled = Ok (p', out) ->
  tp_providers p' = tp_providers p /\
  forall q, (q ∈ tp_all p' <-> q ∈ tp_all p \/ configured cidrs q)
            /\ (q ∈ out <-> q ∈ compiled \/ configured cidrs q).
Proof.
  intros H. destruct (compile_list_all _ _ _ _ _ _ H) as (l & Hl & Hall & Hout & Hp). split; [done|].
  assert (Hc : forall q, q ∈ l <-> configured cidrs q).
  { intros q. unfold configured. clear -Hl. induction Hl as [|raw q' cidrs l Hq Hl IH].
    - split; [by intros ?%elem_of_nil|by intros (? & ?%elem_of_nil & _)].
    - rewrite elem_of_cons, IH. setoid_rewrite elem_of_cons. naive_solver. }
  intros q. by rewrite Hall, Hout, !elem_of_app, Hc.
Qed.

Lemma compile_providers_configured items p p' :
  compile_providers items p = Ok p' ->
  (forall q, q ∈ tp_all p' <-> q ∈ tp_all p \/ exists name l, (name, l) ∈ items /\ configured l q)
  /\ (forall n cidrs, tp_providers p' !! n = Some cidrs ->
       tp_providers p !! n = Some cidrs
       \/ exists raw l, (raw, l) ∈ items /\ CanonicalProvider raw = Some n /\ forall q, q ∈ cidrs <-> configured l q).
Proof.
  revert p. induction items as [|[raw cidrs] items IH]; simpl; intros p H.
  { injection H as <-. split; [|by left]. intros q. split; [by left|].
    by intros [?|(? & ? & ?%elem_of_nil & _)]. }
  destruct (CanonicalProvider raw) as [name|] eqn:En; [|done]. destruct (has _ _); [done|].
  destruct (compile_list _ _ _ _) as [[p1 compiled]|] eqn:E; [|done].
  destruct (compile_list_configured _ _ _ _ _ _ E) as (Hprov & Hall). destruct (IH _ H) as [H1 H2]. split.
  - intros q. rewrite H1. simpl. rewrite (proj1 (Hall q)). setoid_rewrite elem_of_cons. naive_solver.
  - intros n c Hn. destruct (H2 n c Hn) as [Hc|(raw' & l & Hin & Hrest)]; simpl in *.
    + apply lookup_insert_Some in Hc as [[<- <-]|[_ Hc]]; [right|left; by rewrite <- Hprov].
      exists raw, cidrs. split_and!; [by left|done|]. intros q. rewrite (proj2 (Hall q)).
      split; [by intros [?%elem_of_nil|]|by right].
    + right. exists raw', l. by split; [right|].
Qed.

Lemma Compile_configured g ps p :
  Compile g ps = Ok p ->
  (forall q, q ∈ tp_all p <-> configured g q \/ exists name l, (name, l) ∈ ps /\ configured l q)
  /\ (forall n cidrs, tp_providers p !! n = Some cidrs ->
       exists raw l, (raw, l) ∈ ps /\ CanonicalProvider raw = Some n /\ forall q, q ∈ cidrs <-> configured l q).
Proof.
  unfold Compile. destruct (compile_list _ g _ _) as [[p1 c1]|] eqn:E; [|done]. intros H.
  destruct (compile_list_configured _ _ _ _ _ _ E) as (Hprov & Hall). simpl in Hprov, Hall.
  destruct (compile_providers_configured _ _ _ H) as [H1 H2]. split.
  - intros q. rewrite H1, (proj1 (Hall q)). split; [intros [[?%elem_of_nil|]|]; auto; done|naive_solver].
  - intros n c Hn. destruct (H2 n c Hn) as [Hc|]; [|done]. rewrite Hprov in Hc. by apply lookup_empty_Some in Hc.
Qed.

(** ** Properties *)

Lemma ClientIP_untrusted p r :
  IsTrustedRemoteAddr (Some p) (remoteAddrIP (Some r)) = false ->
  ClientIP (Some p) (Some r) = remoteAddrIP (Some r).
Proof.
  intros H. unfold ClientIP, IsTrustedRemoteAddr in *.
  destruct (parseRemoteAddr _) as [a|]; [|done]. by rewrite H.
Qed.

(** The headers that a peer may speak through. *)
Definition heard (p : TrustPolicy) (peer : Addr) (name : string) : Prop :=
  name = "X-Forwarded-For"%string \/ name = "Forwarded"%string \/ name ∈ provider_headers p peer.

Lemma ClientIP_agree p remote h h' :
  (forall peer name, parseRemoteAddr (remoteAddrIP (Some {| RemoteAddr := remote; rq_Header := h |})) = Some peer ->
     heard p peer name -> joinedHeaderValue h name = joinedHeaderValue h' name) ->
  ClientIP (Some p) (Some {| RemoteAddr := remote; rq_Header := h |})
  = ClientIP (Some p) (Some {| RemoteAddr := remote; rq_Header := h' |}).
Proof.
  intros H. unfold ClientIP. simpl in *. set (rem := match parseRemoteAddr remote with Some _ => _ | None => _ end) in *.
  destruct (parseRemoteAddr rem) as [peer|]; [|done]. destruct (isTrusted p peer); simpl; [|done].
  specialize (H peer). unfold heard in H.
  rewrite (first_present_agree h h' (provider_headers p peer)) by (intros n Hn; apply H; auto).
  destruct (first_present _ _); [done|]. rewrite !(H "X-Forwarded-For"%string) by auto.
  by rewrite !(H "Forwarded"%string) by auto.
Qed.

(** A peer that is not a trusted proxy speaks only for itself: whatever
    headers it sends, the client address is that of its socket. *)
Theorem untrusted_peer_speaks_for_itself p r :
  IsTrustedRemoteAddr (Some p) (remoteAddrIP (Some r)) = false ->
  ClientIP (Some p) (Some r) = remoteAddrIP (Some r).
Proof. apply ClientIP_untrusted. Qed.

(** Identity headers are scoped: the client address depends on no header
    but X-Forwarded-For, Forwarded and those of the providers one of whose
    configured networks contains the peer. *)
Theorem provider_headers_scoped g ps p remote h h' :
  Compile g ps = Ok p ->
  (forall name, name = "X-Forwarded-For"%string \/ name = "Forwarded"%string
     \/ (exists peer pr raw l q, name ∈ pp_headers pr /\ pr ∈ providerPolicies
          /\ (raw, l) ∈ ps /\ CanonicalProvider raw = Some (pp_name pr) /\ configured l q
          /\ parseRemoteAddr (remoteAddrIP (Some {| RemoteAddr := remote; rq_Header := h |})) = Some peer
          /\ PrefixContains q peer = true) ->
     joinedHeaderValue h name = joinedHeaderValue h' name) ->
  ClientIP (Some p) (Some {| RemoteAddr := remote; rq_Header := h |})
  = ClientIP (Some p) (Some {| RemoteAddr := remote; rq_Header := h' |}).
Proof.
  intros Hp H. apply ClientIP_agree. intros peer name Hpeer [Hn|[Hn|Hn]]; apply H; auto. right. right.
  apply elem_of_provider_headers in Hn as (pr & cidrs & Hpr & Hn & Hc & Hin).
  destruct (proj2 (Compile_configured g ps p Hp) _ _ Hc) as (raw & l & Hraw & Hcan & Hq).
  apply existsb_exists in Hin as (q & Hin & Hcq). apply list_elem_of_In, Hq in Hin.
  by exists peer, pr, raw, l, q.
Qed.

(** Only the configuration grants trust: a peer is trusted exactly when
    one of the configured generic or provider networks contains it. *)
Theorem trust_is_configured g ps p a :
  Compile g ps = Ok p ->
  isTrusted p a = true <->
  exists q, PrefixContains q a = true /\ (configured g q \/ exists name l, (name, l) ∈ ps /\ configured l q).
Proof.
  intros Hp. destruct (Compile_configured g ps p Hp) as [Hall _]. unfold isTrusted, prefixes_contain.
  rewrite existsb_exists. setoid_rewrite <- list_elem_of_In. setoid_rewrite Hall. naive_solver.
Qed.

(** The forwarding chain is read from the right: the address reported is
    the first that is not a trusted proxy; a part without an address ends the
    chain, and then the part to its right is reported. *)
Theorem nearest_untrusted_hop p parts ip malformed :
  forwardedForValues p parts = (ip, malformed) ->
  exists rest trusted, parts = rest ++ trusted /\ Forall (fun q => ends_chain p q = false) trusted
  /\ match rev rest with
     | [] => malformed = false /\ ip = default "" (parseHeaderIP <$> head trusted)%string
     | q :: _ => ends_chain p q = true /\
         if String.eqb (parseHeaderIP q) ""
         then malformed = true /\ ip = default "" (parseHeaderIP <$> head trusted)%string
         else malformed = false /\ ip = parseHeaderIP q
     end.
Proof.
  intros H. destruct (forwarded_loop_spec _ _ _ _ _ H) as (tr & rest & Hp & Htr & Hrest).
  exists (rev rest), (rev tr). split_and!.
  - by rewrite <- rev_app_distr, <- Hp, rev_involutive.
  - by apply Forall_rev.
  - rewrite rev_involutive.
    replace (rev tr) with (reverse tr) by (unfold reverse; by rewrite rev_alt).
    by rewrite head_reverse.
Qed.

Lemma provider_headers_not_forwarded p a n :
  n ∈ provider_headers p a -> CanonicalMIMEHeaderKey n <> "X-Forwarded-For"%string.
Proof.
  intros (pr & c & Hpr & Hn & _)%elem_of_provider_headers. apply String.eqb_neq, negb_true_iff.
  assert (E : forallb (fun pr => forallb (fun n => negb (String.eqb (CanonicalMIMEHeaderKey n) "X-Forwarded-For"))
                                  (pp_headers pr)) providerPolicies = true) by (vm_compute; reflexivity).
  rewrite forallb_forall in E. apply list_elem_of_In in Hpr, Hn. specialize (E pr Hpr).
  rewrite forallb_forall in E. by apply E.
Qed.

Lemma joined_insert h k name values :
  CanonicalMIMEHeaderKey name = k ->
  joinedHeaderValue (<[k := values]> h) name = Some (of_bytes (join_with ","%char (map bytes values))).
Proof. intros <-. unfold joinedHeaderValue. by rewrite lookup_insert_eq. Qed.

Lemma joined_insert_ne h k name values :
  CanonicalMIMEHeaderKey name <> k -> joinedHeaderValue (<[k := values]> h) name = joinedHeaderValue h name.
Proof. intros H. unfold joinedHeaderValue. by rewrite lookup_insert_ne by congruence. Qed.

Lemma join_one s : of_bytes (join_with ","%char (map bytes [s])) = s.
Proof. apply of_bytes_bytes. Qed.

Lemma join_two s t : of_bytes (join_with ","%char (map bytes [s; t])) = (s ++ "," ++ t)%string.
Proof.
  simpl. replace (bytes s ++ ","%char :: bytes t) with (bytes (s ++ "," ++ t)%string) by apply bytes_app.
  apply of_bytes_bytes.
Qed.

(** What a client puts in front of X-Forwarded-For does not matter: if
    the part that the proxies appended names an address that is not a trusted
    proxy, the client address is the same with and without a prefix that
    contains no quotes. *)
Theorem client_prefix_irrelevant p remote h front appended :
  ContainsByte front quote = false ->
  existsb (ends_chain p) (splitHeaderList appended ",") = true ->
  ClientIP (Some p) (Some {| RemoteAddr := remote;
                             rq_Header := <["X-Forwarded-For" := [front; appended]]>%string h |})
  = ClientIP (Some p) (Some {| RemoteAddr := remote;
                               rq_Header := <["X-Forwarded-For" := [appended]]>%string h |}).
Proof.
  intros Hq Hends. unfold ClientIP. simpl remoteAddrIP. cbn [rq_Header].
  set (rem := match parseRemoteAddr remote with Some _ => _ | None => _ end). clearbody rem.
  destruct (parseRemoteAddr rem) as [peer|]; [|done]. destruct (isTrusted p peer); simpl negb; [|done].
  rewrite (first_present_agree (<["X-Forwarded-For" := [front; appended]]>%string h)
             (<["X-Forwarded-For" := [appended]]>%string h)).
  2: { intros n Hn. apply provider_headers_not_forwarded in Hn. by rewrite !joined_insert_ne by done. }
  assert (EF : CanonicalMIMEHeaderKey "Forwarded" = "Forwarded"%string) by (vm_compute; reflexivity).
  rewrite (joined_insert h "X-Forwarded-For" _ [front; appended]),
    (joined_insert h "X-Forwarded-For" _ [appended]) by (vm_compute; reflexivity).
  rewrite !(joined_insert_ne _ "X-Forwarded-For" "Forwarded") by (by rewrite EF).
  rewrite join_one, join_two. unfold forwardedFor. rewrite splitHeaderList_app by done.
  by rewrite forwardedForValues_app.
Qed.

(** ** A site behind two proxies *)

Definition site_policy : result TrustErr TrustPolicy :=
  Compile ["10.0.0.0/8"] [("Cloudflare", ["173.245.48.0/20"])]%string.

Definition behind (peer : string) (h : list (string * list string)) : option string :=
  match site_policy with
  | Ok p => Some (ClientIP (Some p) (Some {| RemoteAddr := peer; rq_Header := list_to_map h |}))
  | Err _ => None
  end.

Example chain_from_the_right :
  behind "10.0.0.2:443" [("X-Forwarded-For", ["1.1.1.1, 203.0.113.9, 10.0.0.7"])]%string = Some "203.0.113.9"%string.
Proof. vm_compute. reflexivity. Qed.

Example cloudflare_header_scoped :
  behind "10.0.0.2:443" [("Cf-Connecting-Ip", ["1.1.1.1"])]%string = Some "10.0.0.2"%string
  /\ behind "173.245.48.9:443" [("Cf-Connecting-Ip", ["1.1.1.1"])]%string = Some "1.1.1.1"%string.
Proof. vm_compute. auto. Qed.

(** A single quote in the part the client controls hides the whole chain: the
    request counts as one of the proxy itself. *)
Example quote_hides_client :
  behind "10.0.0.2:443" [("X-Forwarded-For", [String quote ", 203.0.113.9"])]%string = Some "10.0.0.2"%string
  /\ behind "10.0.0.2:443" [("X-Forwarded-For", ["junk, 203.0.113.9"])]%string = Some "203.0.113.9"%string.
Proof. vm_compute. auto. Qed.

Lemma site_policy_ok : exists p, site_policy = Ok p.
Proof. eexists. vm_compute. reflexivity. Qed.

Definition direct : HttpRequest :=
  {| RemoteAddr := "192.0.2.7:5000"; rq_Header := {[ "X-Forwarded-For"%string := ["1.1.1.1"%string] ]} |}.

Lemma untrusted_peer_speaks_for_itself_witness : exists p,
  site_policy = Ok p /\ IsTrustedRemoteAddr (Some p) (remoteAddrIP (Some direct)) = false
  /\ ClientIP (Some p) (Some direct) = remoteAddrIP (Some direct).
Proof.
  assert (H : exists p, site_policy = Ok p
    /\ IsTrustedRemoteAddr (Some p) (remoteAddrIP (Some direct)) = false)
    by (eexists; split; [vm_compute; reflexivity|vm_compute; reflexivity]).
  destruct H as (p & Hp & Hu). exists p.
  exact (conj Hp (conj Hu (untrusted_peer_speaks_for_itself p direct Hu))).
Defined.

(** A provider's header sent through a peer of the generic list. *)
Lemma provider_headers_scoped_witness : exists p,
  site_policy = Ok p
  /\ ClientIP (Some p) (Some {| RemoteAddr := "10.0.0.2:443"; rq_Header := {["X-Real-Ip" := ["1.1.1.1"]]} |})
     = ClientIP (Some p) (Some {| RemoteAddr := "10.0.0.2:443"; rq_Header := ∅ |}).
Proof.
  destruct site_policy_ok as (p & Hp). exists p. split; [exact Hp|]. unfold site_policy in Hp.
  refine (provider_headers_scoped _ _ p "10.0.0.2:443" {["X-Real-Ip"%string := ["1.1.1.1"%string]]} ∅ Hp _).
  intros name Hname.
  assert (Hc : CanonicalMIMEHeaderKey name <> "X-Real-Ip"%string).
  { destruct Hname as [->|[->|(peer & pr & raw & l & q & Hn & Hpr & Hin & Hcan & _)]]; [by vm_compute..|].
    apply list_elem_of_singleton in Hin as [= -> ->].
    assert (E : CanonicalProvider "Cloudflare" = Some "cloudflare"%string) by (vm_compute; reflexivity).
    rewrite E in Hcan. injection Hcan as Hcan.
    assert (Hall : Forall (fun pr => pp_name pr = "cloudflare"%string ->
      Forall (fun n => CanonicalMIMEHeaderKey n <> "X-Real-Ip"%string) (pp_headers pr)) providerPolicies).
    { repeat constructor; by vm_compute. }
    rewrite Forall_forall in Hall. specialize (Hall pr Hpr (eq_sym Hcan)).
    rewrite Forall_forall in Hall. by apply Hall. }
  unfold joinedHeaderValue. by rewrite lookup_singleton_ne.
Defined.

Lemma trust_is_configured_witness : exists p,
  site_policy = Ok p /\ exists q, PrefixContains q (V4 167772162) = true
    /\ (configured ["10.0.0.0/8"] q
        \/ exists name l, (name, l) ∈ [("Cloudflare", ["173.245.48.0/20"])] /\ configured l q).
Proof.
  assert (H : exists p, site_policy = Ok p /\ isTrusted p (V4 167772162) = true)
    by (eexists; split; [vm_compute; reflexivity|vm_compute; reflexivity]).
  destruct H as (p & Hp & Ht). exists p. split; [exact Hp|]. unfold site_policy in Hp.
  exact (proj1 (trust_is_configured _ _ p (V4 167772162) Hp) Ht).
Defined.

Lemma nearest_untrusted_hop_witness : exists p ip malformed,
  forwardedForValues p ["1.1.1.1"; "203.0.113.9"; "10.0.0.7"] = (ip, malformed)
  /\ exists rest trusted, ["1.1.1.1"; "203.0.113.9"; "10.0.0.7"] = rest ++ trusted
     /\ Forall (fun q => ends_chain p q = false) trusted.
Proof.
  destruct site_policy_ok as (p & Hp). exists p.
  destruct (forwardedForValues p ["1.1.1.1"; "203.0.113.9"; "10.0.0.7"]) as [ip m] eqn:E.
  destruct (nearest_untrusted_hop p _ ip m E) as (rest & trusted & H1 & H2 & _).
  exists ip, m. exact (conj eq_refl (ex_intro _ rest (ex_intro _ trusted (conj H1 H2)))).
Defined.

Lemma client_prefix_irrelevant_witness : exists p,
  site_policy = Ok p /\
  ClientIP (Some p) (Some {| RemoteAddr := "10.0.0.2:443";
                             rq_Header := <["X-Forwarded-For" := ["1.1.1.1"; "203.0.113.9, 10.0.0.7"]]> ∅ |})
  = ClientIP (Some p) (Some {| RemoteAddr := "10.0.0.2:443";
                               rq_Header := <["X-Forwarded-For" := ["203.0.113.9, 10.0.0.7"]]> ∅ |}).
Proof.
  assert (H : exists p, site_policy = Ok p
    /\ existsb (ends_chain p) (splitHeaderList "203.0.113.9, 10.0.0.7" ",") = true)
    by (eexists; split; [vm_compute; reflexivity|vm_compute; reflexivity]).
  destruct H as (p & Hp & He). exists p. split; [exact Hp|].
  exact (client_prefix_irrelevant p "10.0.0.2:443" ∅ "1.1.1.1" "203.0.113.9, 10.0.0.7" eq_refl He).
Defined.
