(* ===== verification/Heap.v ===== *)
(** * The binary heap of Go's [container/heap]

    The library's algorithms over its interface ([Len], [Less], [Swap],
    [Push], [Pop]), which the rate limiters implement for their expiry
    queues, and the theorem that they keep the heap order. The interface is a
    type class; its laws are what an implementation has to establish. *)

From S2P Require Import Prelude.

Open Scope list_scope.
Open Scope nat_scope.

(** ** heap.Interface *)

Class HeapInterface (H E : Type) := {
  Len : H -> nat;
  Less : H -> nat -> nat -> bool;
  Swap : H -> nat -> nat -> H;
  HPush : H -> E -> H;
  HPop : H -> H * option E
}.

(** ** The algorithms *)

(** [up]: [j] strictly decreases, so [S j] rounds reach the end. *)
Fixpoint up {H E} `{HeapInterface H E} (fuel : nat) (h : H) (j : nat) : H :=
  match fuel with
  | O => h
  | S f =>
      let i := (j - 1) / 2 in
      if (i =? j) || negb (Less h j i) then h else up f (Swap h i j) i
  end.

(** [down]: [i] strictly increases below [n], so [n] rounds reach the end. *)
Fixpoint down_loop {H E} `{HeapInterface H E} (fuel : nat) (h : H) (i n : nat) : H * nat :=
  match fuel with
  | O => (h, i)
  | S f =>
      let j1 := 2 * i + 1 in
      if n <=? j1 then (h, i)
      else
        let j2 := j1 + 1 in
        let j := if (j2 <? n) && Less h j2 j1 then j2 else j1 in
        if negb (Less h j i) then (h, i) else down_loop f (Swap h i j) j n
  end.

Definition down {H E} `{HeapInterface H E} (h : H) (i0 n : nat) : H * bool :=
  let '(h', i) := down_loop n h i0 n in (h', i0 <? i).

Definition heap_Push {H E} `{HeapInterface H E} (h : H) (x : E) : H :=
  let h' := HPush h x in up (Len h') h' (Len h' - 1).

Definition heap_Pop {H E} `{HeapInterface H E} (h : H) : H * option E :=
  let n := Len h - 1 in
  let h1 := Swap h 0 n in
  let '(h2, _) := down h1 0 n in
  HPop h2.

Definition heap_Fix {H E} `{HeapInterface H E} (h : H) (i : nat) : H :=
  let '(h', moved) := down h i (Len h) in
  if moved then h' else up (S i) h' i.

(** ** The laws *)

Definition transpose (i j k : nat) : nat :=
  if k =? i then j else if k =? j then i else k.

Lemma transpose_involutive i j k : transpose i j (transpose i j k) = k.
Proof.
  unfold transpose. destruct (Nat.eqb_spec k i) as [->|Hi].
  - destruct (Nat.eqb_spec j i) as [->|]; [done|]. by rewrite Nat.eqb_refl.
  - destruct (Nat.eqb_spec k j) as [->|Hj]; [by rewrite Nat.eqb_refl|].
    destruct (Nat.eqb_spec k i); [done|]. by destruct (Nat.eqb_spec k j).
Qed.

Class HeapLaws (H E : Type) `{HeapInterface H E} (ok : H -> Prop) := {
  rank : H -> nat -> Z;
  less_rank h i j : ok h -> i < Len h -> j < Len h -> Less h i j = Z.ltb (rank h i) (rank h j);
  swap_ok h i j : ok h -> i < Len h -> j < Len h -> ok (Swap h i j);
  swap_len h i j : Len (Swap h i j) = Len h;
  swap_rank h i j k : ok h -> i < Len h -> j < Len h -> k < Len h ->
    rank (Swap h i j) k = rank h (transpose i j k)
}.

Definition child (p c : nat) : Prop := c = 2 * p + 1 \/ c = 2 * p + 2.

(** Every parent among the first [n] positions is at most its children. *)
Definition heap_order (r : nat -> Z) (n : nat) : Prop :=
  forall p c, child p c -> c < n -> Z.le (r p) (r c).

Section Correctness.
Context {H E : Type} `{HL : HeapLaws H E ok}.

Lemma parent_child j : 0 < j -> child ((j - 1) / 2) j.
Proof.
  intros Hj. unfold child.
  pose proof (Nat.div_mod_eq (j - 1) 2) as D.
  pose proof (Nat.mod_upper_bound (j - 1) 2 ltac:(lia)). lia.
Qed.

Lemma child_parent p c : child p c -> (c - 1) / 2 = p.
Proof.
  intros [->| ->].
  - replace (2 * p + 1 - 1) with (p * 2) by lia. apply Nat.div_mul. lia.
  - replace (2 * p + 2 - 1) with (1 + p * 2) by lia. rewrite Nat.div_add by lia. done.
Qed.

(** Predicates closed under swaps of the first [m] positions survive the
    loops that work on those positions. *)
Section Preserve.
Context (P : H -> Prop) (m : nat)
  (HP : forall h i j, ok h -> P h -> m <= Len h -> i < m -> j < m -> P (Swap h i j)).

Lemma up_preserves fuel h j :
  ok h -> P h -> m <= Len h -> j < m -> ok (up fuel h j) /\ P (up fuel h j).
Proof.
  revert h j. induction fuel as [|f IH]; intros h j Ho Hh Hm Hj; cbn [up]; [done|].
  destruct ((_ =? _) || _) eqn:Eg; [done|].
  assert ((j - 1) / 2 < m) as Hi.
  { destruct (Nat.eq_dec j 0) as [->|]; [done|]. destruct (parent_child j); lia. }
  apply IH; try done.
  - apply swap_ok; [done|lia|lia].
  - by apply HP.
  - by rewrite swap_len.
Qed.

Lemma down_loop_preserves fuel h i n h' i' :
  ok h -> P h -> m <= Len h -> n <= m -> i < n -> down_loop fuel h i n = (h', i') ->
  ok h' /\ P h'.
Proof.
  revert h i. induction fuel as [|f IH]; intros h i Ho Hh Hm Hn Hi Hd; cbn [down_loop] in Hd.
  { by injection Hd as <- <-. }
  destruct (Nat.leb_spec n (2 * i + 1)); [by injection Hd as <- <-|].
  set (j := if _ && _ then _ else _) in Hd.
  assert (j < n) as Hj.
  { subst j. destruct (_ && _) eqn:Ej; [|lia].
    apply andb_true_iff in Ej as [Ej _]. apply Nat.ltb_lt in Ej. lia. }
  destruct (negb _); [by injection Hd as <- <-|].
  apply (IH (Swap h i j) j); try done.
  - apply swap_ok; [done|lia|lia].
  - apply HP; try done; lia.
  - by rewrite swap_len.
Qed.
End Preserve.

(** *** up *)

Definition up_inv (r : nat -> Z) (n j : nat) : Prop :=
  (forall p c, child p c -> c < n -> c <> j -> Z.le (r p) (r c))
  /\ (forall c, child j c -> c < n -> 0 < j -> Z.le (r ((j - 1) / 2)) (r c)).

Lemma up_order fuel h j :
  ok h -> j < Len h -> j < fuel -> up_inv (rank h) (Len h) j ->
  heap_order (rank (up fuel h j)) (Len h).
Proof.
  revert h j. induction fuel as [|f IH]; intros h j Ho Hj Hf [H1 H2]; [lia|]. cbn [up].
  destruct (Nat.eqb_spec ((j - 1) / 2) j) as [Ej|Ej]; cbn [orb].
  { (* the root *)
    assert (j = 0) as ->.
    { destruct (Nat.eq_dec j 0); [done|]. destruct (parent_child j); lia. }
    intros p c Hc Hn. apply H1; try done. unfold child in Hc. lia. }
  assert (0 < j) as Hj0 by (destruct j; [done|lia]).
  pose proof (parent_child j Hj0) as Hpc. set (i := (j - 1) / 2) in *.
  assert (i < j) as Hij by (unfold child in Hpc; lia).
  rewrite less_rank by (done || lia).
  destruct (Z.ltb_spec (rank h j) (rank h i)) as [Hlt|Hge]; cbn [negb].
  2:{ intros p c Hc Hn. destruct (Nat.eq_dec c j) as [->|]; [|by apply H1].
      rewrite <- (child_parent p j Hc). done. }
  rewrite <- (swap_len h i j). apply IH.
  - apply swap_ok; [done|lia|done].
  - rewrite swap_len. lia.
  - lia.
  - rewrite swap_len. split.
    + intros p c Hc Hn Hci. rewrite !swap_rank by (done || unfold child in *; lia).
      unfold transpose.
      destruct (Nat.eqb_spec c i); [done|]. destruct (Nat.eqb_spec c j) as [->|].
      { assert (p = i) as -> by by rewrite <- (child_parent p j Hc).
        rewrite Nat.eqb_refl. lia. }
      destruct (Nat.eqb_spec p i) as [->|].
      { (* the sibling of j *) pose proof (H1 i c Hc Hn ltac:(done)). lia. }
      destruct (Nat.eqb_spec p j) as [->|]; [by apply H2|by apply H1].
    + intros c Hc Hn Hi0. pose proof (parent_child i Hi0) as Hpi.
      assert ((i - 1) / 2 < i) by (unfold child in Hpi; lia).
      rewrite !swap_rank by (done || lia). unfold transpose.
      destruct (Nat.eqb_spec ((i - 1) / 2) i); [lia|].
      destruct (Nat.eqb_spec ((i - 1) / 2) j); [lia|].
      pose proof (H1 _ _ Hpi ltac:(lia) ltac:(lia)) as Hgi.
      destruct (Nat.eqb_spec c i); [unfold child in Hc; lia|].
      destruct (Nat.eqb_spec c j) as [->|]; [done|].
      pose proof (H1 i c Hc Hn ltac:(done)). lia.
Qed.

(** *** down *)

Definition down_inv (r : nat -> Z) (n i : nat) : Prop :=
  (forall p c, child p c -> c < n -> p <> i -> Z.le (r p) (r c))
  /\ (forall c, child i c -> c < n -> 0 < i -> Z.le (r ((i - 1) / 2)) (r c)).

(** The child the loop selects: the smaller one. *)
Lemma selected_child h i n :
  ok h -> n <= Len h -> 2 * i + 1 < n ->
  let j := if (2 * i + 1 + 1 <? n) && Less h (2 * i + 1 + 1) (2 * i + 1)
           then 2 * i + 1 + 1 else 2 * i + 1 in
  child i j /\ j < n /\ i < j /\ forall c, child i c -> c < n -> Z.le (rank h j) (rank h c).
Proof.
  intros Ho Hn Hi j. subst j.
  destruct (Nat.ltb_spec (2 * i + 1 + 1) n) as [H2|H2]; cbn [andb].
  - rewrite less_rank by (done || lia).
    destruct (Z.ltb_spec (rank h (2 * i + 1 + 1)) (rank h (2 * i + 1))).
    + split; [right; lia|]. split; [lia|]. split; [lia|].
      intros c [->| ->] _; [lia|]. replace (2 * i + 1 + 1) with (2 * i + 2) by lia. lia.
    + split; [by left|]. split; [lia|]. split; [lia|].
      intros c [->| ->] _; [lia|]. by replace (2 * i + 2) with (2 * i + 1 + 1) by lia.
  - split; [by left|]. split; [lia|]. split; [lia|]. intros c [->| ->] Hc; lia.
Qed.

(** One swap of the loop moves the hole from [i] to its smaller child. *)
Lemma down_swap h i j n :
  ok h -> n <= Len h -> child i j -> j < n -> i < j ->
  (forall c, child i c -> c < n -> Z.le (rank h j) (rank h c)) ->
  Z.lt (rank h j) (rank h i) ->
  (forall p c, child p c -> c < n -> p <> i -> c <> i -> Z.le (rank h p) (rank h c)) ->
  (forall c, child i c -> c < n -> 0 < i -> Z.le (rank h ((i - 1) / 2)) (rank h c)) ->
  down_inv (rank (Swap h i j)) n j.
Proof.
  intros Ho Hn Hc Hj Hij Hmin Hlt H1 H2. split.
  - intros p c Hpc Hcn Hpj.
    assert (p < c) by (unfold child in Hpc; lia).
    rewrite !swap_rank by (done || lia). unfold transpose.
    destruct (Nat.eqb_spec p i) as [->|Hpi].
    + destruct (Nat.eqb_spec c i); [lia|].
      destruct (Nat.eqb_spec c j) as [->|]; [lia|by apply Hmin].
    + destruct (Nat.eqb_spec p j); [done|].
      destruct (Nat.eqb_spec c i) as [->|Hci].
      { rewrite <- (child_parent p i Hpc). apply H2; [done|done|lia]. }
      destruct (Nat.eqb_spec c j) as [->|]; [|by apply H1].
      exfalso. apply Hpi. by rewrite <- (child_parent p j Hpc), (child_parent i j Hc).
  - intros c Hjc Hcn _. rewrite (child_parent i j Hc).
    assert (j < c) by (unfold child in Hjc; lia).
    rewrite !swap_rank by (done || lia). unfold transpose.
    rewrite Nat.eqb_refl.
    destruct (Nat.eqb_spec c i); [lia|]. destruct (Nat.eqb_spec c j); [lia|].
    apply H1; [done|done|lia|lia].
Qed.

Lemma down_loop_order fuel h i n h' i' :
  ok h -> n <= Len h -> i < n -> n - i <= fuel -> down_inv (rank h) n i ->
  down_loop fuel h i n = (h', i') -> heap_order (rank h') n /\ i <= i'.
Proof.
  revert h i. induction fuel as [|f IH]; intros h i Ho Hn Hi Hf [H1 H2] Hd; [lia|].
  cbn [down_loop] in Hd.
  destruct (Nat.leb_spec n (2 * i + 1)) as [Hle|Hgt].
  { injection Hd as <- <-. split; [|done]. intros p c Hc Hcn. apply H1; try done.
    intros ->. unfold child in Hc. lia. }
  destruct (selected_child h i n Ho Hn Hgt) as (Hc & Hj & Hij & Hmin).
  set (j := if _ && _ then _ else _) in *.
  rewrite less_rank in Hd by (done || lia).
  destruct (Z.ltb_spec (rank h j) (rank h i)) as [Hlt|Hge]; cbn [negb] in Hd.
  - destruct (IH (Swap h i j) j) as [Q1 Q2]; try done.
    + apply swap_ok; [done|lia|lia].
    + by rewrite swap_len.
    + lia.
    + apply (down_swap h i j n); try done. intros p c Hpc Hcn Hpi _. by apply H1.
    + split; [done|lia].
  - injection Hd as <- <-. split; [|done]. intros p c Hpc Hcn.
    destruct (Nat.eq_dec p i) as [->|]; [|by apply H1].
    pose proof (Hmin c Hpc Hcn). lia.
Qed.

(** [down] does not touch the positions from [n] on. *)
Lemma down_loop_rank_ge fuel h i n h' i' k :
  ok h -> n <= Len h -> i < n -> n <= k -> k < Len h ->
  down_loop fuel h i n = (h', i') -> rank h' k = rank h k.
Proof.
  revert h i. induction fuel as [|f IH]; intros h i Ho Hn Hi Hk Hkl Hd; cbn [down_loop] in Hd.
  { by injection Hd as <- <-. }
  destruct (Nat.leb_spec n (2 * i + 1)) as [Hle|Hgt]; [by injection Hd as <- <-|].
  destruct (selected_child h i n Ho Hn Hgt) as (Hc & Hj & Hij & _).
  set (j := if _ && _ then _ else _) in *.
  destruct (negb _); [by injection Hd as <- <-|].
  rewrite (IH (Swap h i j) j); try done.
  - rewrite swap_rank by (done || lia). unfold transpose.
    destruct (Nat.eqb_spec k i); [lia|]. destruct (Nat.eqb_spec k j); [lia|done].
  - apply swap_ok; [done|lia|lia].
  - by rewrite swap_len.
  - by rewrite swap_len.
Qed.

(** *** Fix: any value at position [i] *)

Definition fix_inv (r : nat -> Z) (n i : nat) : Prop :=
  (forall p c, child p c -> c < n -> p <> i -> c <> i -> Z.le (r p) (r c))
  /\ (forall c, child i c -> c < n -> 0 < i -> Z.le (r ((i - 1) / 2)) (r c)).

Lemma heap_Fix_order h i :
  ok h -> i < Len h -> fix_inv (rank h) (Len h) i ->
  heap_order (rank (heap_Fix h i)) (Len h).
Proof.
  intros Ho Hi [H1 H2]. unfold heap_Fix, down.
  destruct (down_loop (Len h) h i (Len h)) as [h' i'] eqn:Hd.
  destruct (Len h) as [|m] eqn:El; [lia|]. cbn [down_loop] in Hd.
  assert (heap_order (rank h') (S m) /\ i < i' \/ h' = h /\ i' = i /\
          forall c, child i c -> c < S m -> Z.le (rank h i) (rank h c)) as HD.
  { destruct (Nat.leb_spec (S m) (2 * i + 1)) as [Hle|Hgt].
    { injection Hd as <- <-. right. do 2 (split; [done|]). unfold child. lia. }
    destruct (selected_child h i (S m) Ho ltac:(lia) Hgt) as (Hc & Hj & Hij & Hmin).
    set (j := if _ && _ then _ else _) in *.
    rewrite less_rank in Hd by (done || lia).
    destruct (Z.ltb_spec (rank h j) (rank h i)) as [Hlt|Hge]; cbn [negb] in Hd.
    - left. destruct (down_loop_order m (Swap h i j) j (S m) h' i') as [Q1 Q2]; try done.
      + apply swap_ok; [done|lia|lia].
      + rewrite swap_len. lia.
      + lia.
      + apply (down_swap h i j (S m)); try done. lia.
      + split; [done|lia].
    - injection Hd as <- <-. right. do 2 (split; [done|]). intros c Hpc Hcn.
      pose proof (Hmin c Hpc Hcn). lia. }
  destruct HD as [[Hord Hlt]|(-> & -> & Hch)].
  - destruct (Nat.ltb_spec i i'); [done|lia].
  - rewrite Nat.ltb_irrefl, <- El. apply up_order; try lia; [done|]. rewrite El. split.
    + intros p c Hpc Hcn Hci. destruct (Nat.eq_dec p i) as [->|]; [by apply Hch|by apply H1].
    + done.
Qed.

(** *** Pop: the loop before the removal of the last position *)

Lemma heap_Pop_order h h2 b :
  ok h -> 0 < Len h -> heap_order (rank h) (Len h) ->
  down (Swap h 0 (Len h - 1)) 0 (Len h - 1) = (h2, b) ->
  heap_order (rank h2) (Len h - 1) /\ rank h2 (Len h - 1) = rank h 0.
Proof.
  intros Ho Hl Hord Hd. set (n := Len h - 1) in *. unfold down in Hd.
  destruct (down_loop n (Swap h 0 n) 0 n) as [h' i'] eqn:Ed. injection Hd as <- <-.
  assert (ok (Swap h 0 n)) as Hok by (apply swap_ok; [done|lia|lia]).
  assert (rank (Swap h 0 n) n = rank h 0) as Hroot.
  { rewrite swap_rank by (done || lia). unfold transpose. rewrite Nat.eqb_refl.
    by destruct (Nat.eqb_spec n 0) as [->|]. }
  destruct (Nat.eq_dec n 0) as [Hn0|Hn0].
  { rewrite Hn0 in *. cbn [down_loop] in Ed. injection Ed as <- <-. split; [|done].
    intros p c _ Hc. lia. }
  rewrite <- Hroot. split.
  - destruct (down_loop_order n (Swap h 0 n) 0 n h' i') as [Q _]; try done; try lia.
    + rewrite swap_len. lia.
    + split; [|lia]. intros p c Hpc Hcn Hp. assert (p < c) by (unfold child in Hpc; lia).
      rewrite !swap_rank by (done || lia). unfold transpose.
      destruct (Nat.eqb_spec p 0); [lia|]. destruct (Nat.eqb_spec p n); [lia|].
      destruct (Nat.eqb_spec c 0); [lia|]. destruct (Nat.eqb_spec c n); [lia|].
      apply Hord; [done|lia].
  - apply (down_loop_rank_ge n _ 0 n h' i'); try done; try lia; rewrite swap_len; lia.
Qed.

(** The root of an ordered heap is a minimum. *)
Lemma heap_order_root r n k : heap_order r n -> k < n -> Z.le (r 0) (r k).
Proof.
  intros Hord. induction k as [k IH] using lt_wf_ind. intros Hk.
  destruct (Nat.eq_dec k 0) as [->|Hk0]; [lia|].
  pose proof (parent_child k ltac:(lia)) as Hc.
  assert ((k - 1) / 2 < k) as Hlt by (unfold child in Hc; lia).
  pose proof (IH _ Hlt ltac:(lia)). pose proof (Hord _ _ Hc Hk). lia.
Qed.
End Correctness.
