(* ===== verification/ExpiryStore.v ===== *)
(** * Buckets indexed by key and by expiry

    Both limiters keep every bucket twice: in a map by key and in a heap of
    pointers ordered by expiry, each bucket recording its position in the
    heap. Buckets are shared mutable objects, so the model has a store of
    buckets by address; the map and the heap hold addresses.

    The type class [Bucket] states what a limiter's bucket type provides;
    the invariant and the effect of every operation are proved once here. *)

From S2P Require Import Prelude Heap.

Open Scope list_scope.
Open Scope Z_scope.

Class Bucket (B : Type) := {
  bk_key : B -> string;
  bk_rank : B -> Z;                 (* the field the heap is ordered by *)
  bk_index : B -> Z;                (* heapIndex, -1 outside the heap *)
  bk_set_index : Z -> B -> B;
  bk_key_set i b : bk_key (bk_set_index i b) = bk_key b;
  bk_rank_set i b : bk_rank (bk_set_index i b) = bk_rank b;
  bk_index_set i b : bk_index (bk_set_index i b) = i;
  bk_set_set i j b : bk_set_index i (bk_set_index j b) = bk_set_index i b
}.

Record Shard (B : Type) := MkShard {
  store : gmap nat B;               (* the buckets by address *)
  next : nat;                       (* the next free address *)
  keys : gmap string nat;           (* map[string]*bucket *)
  expirations : list nat            (* bucketExpiryHeap: []*bucket *)
}.
Arguments MkShard {B}.
Arguments store {B}.
Arguments next {B}.
Arguments keys {B}.
Arguments expirations {B}.

Definition set_heap {B} (s : Shard B) (st : gmap nat B) (ex : list nat) : Shard B :=
  MkShard st (next s) (keys s) ex.

Definition empty_shard {B} : Shard B := MkShard ∅ 0 ∅ [].

(** ** The methods of bucketExpiryHeap *)

Section Methods.
Context {B : Type} `{Bucket B}.

Definition bucket_at (s : Shard B) (i : nat) : option B :=
  expirations s !! i ≫= fun l => store s !! l.

Definition heap_less (s : Shard B) (i j : nat) : bool :=
  match bucket_at s i, bucket_at s j with
  | Some a, Some b => bk_rank a <? bk_rank b
  | _, _ => false
  end.

(** [h[i], h[j] = h[j], h[i]; h[i].heapIndex = i; h[j].heapIndex = j]. *)
Definition heap_swap (s : Shard B) (i j : nat) : Shard B :=
  match expirations s !! i, expirations s !! j with
  | Some li, Some lj =>
      set_heap s
        (alter (bk_set_index (Z.of_nat j)) li (alter (bk_set_index (Z.of_nat i)) lj (store s)))
        (<[j := li]> (<[i := lj]> (expirations s)))
  | _, _ => s
  end.

Definition heap_push (s : Shard B) (l : nat) : Shard B :=
  set_heap s (alter (bk_set_index (Z.of_nat (length (expirations s)))) l (store s))
    (expirations s ++ [l]).

Definition heap_pop (s : Shard B) : Shard B * option nat :=
  match last (expirations s) with
  | Some l =>
      (set_heap s (alter (bk_set_index (-1)) l (store s)) (removelast (expirations s)), Some l)
  | None => (s, None)
  end.

#[export] Instance shard_heap : HeapInterface (Shard B) nat := {
  Len s := length (expirations s);
  Less := heap_less;
  Swap := heap_swap;
  HPush := heap_push;
  HPop := heap_pop
}.

(** *** The composite operations of the limiters *)

(** [b = &bucket{...}; keys[key] = b; heap.Push(&expirations, b)]. *)
Definition insert_bucket (s : Shard B) (b : B) : Shard B :=
  let l := next s in
  heap_Push (MkShard (<[l := b]> (store s)) (S l) (<[bk_key b := l]> (keys s)) (expirations s)) l.

(** Assign the fields of a bucket in place. *)
Definition write_bucket (s : Shard B) (l : nat) (f : B -> B) : Shard B :=
  set_heap s (alter f l (store s)) (expirations s).

(** [b.f = ...; heap.Fix(&expirations, b.heapIndex)]. *)
Definition renew_bucket (s : Shard B) (l : nat) (f : B -> B) : Shard B :=
  match store s !! l with
  | Some b => heap_Fix (write_bucket s l f) (Z.to_nat (bk_index b))
  | None => s
  end.

(** [heap.Pop(&expirations); delete(keys, b.key)] for the bucket [b] at the root. *)
Definition drop_root (s : Shard B) (b : B) : Shard B :=
  let '(s', _) := heap_Pop s in
  MkShard (store s') (next s') (delete (bk_key b) (keys s')) (expirations s').

(** The bounded clean-up loop: at most [n] due buckets, oldest first. *)
Fixpoint expire (due : B -> bool) (n : nat) (s : Shard B) : Shard B :=
  match n with
  | O => s
  | S k =>
      match bucket_at s 0 with
      | None => s
      | Some b => if negb (due b) then s else expire due k (drop_root s b)
      end
  end.

(** What a caller can observe of a key: its bucket, without the position. *)
Definition erase (b : B) : B := bk_set_index 0 b.
Definition find_bucket (s : Shard B) (k : string) : option B :=
  keys s !! k ≫= fun l => erase <$> store s !! l.

(** ** The invariant *)

Record wf (s : Shard B) : Prop := {
  wf_arr i l : expirations s !! i = Some l ->
    exists b, store s !! l = Some b /\ bk_index b = Z.of_nat i /\ keys s !! bk_key b = Some l;
  wf_keys k l : keys s !! k = Some l ->
    (l ∈ expirations s) /\ exists b, store s !! l = Some b /\ bk_key b = k;
  wf_next l b : store s !! l = Some b -> (l < next s)%nat
}.

Definition rank_at (s : Shard B) (i : nat) : Z :=
  match bucket_at s i with Some b => bk_rank b | None => 0 end.

Definition inv (s : Shard B) : Prop :=
  wf s /\ heap_order (rank_at s) (length (expirations s)).
End Methods.

(** ** The heap laws hold for shards *)

Section Laws.
Context {B : Type} `{Bucket B}.
Implicit Types s : Shard B.

Lemma wf_nodup s i j l :
  wf s -> expirations s !! i = Some l -> expirations s !! j = Some l -> i = j.
Proof.
  intros W Hi Hj. destruct (wf_arr s W i l Hi) as (b & Hb & Hx & _).
  destruct (wf_arr s W j l Hj) as (b' & Hb' & Hy & _). simplify_eq. lia.
Qed.

Lemma swap_lookup s i j li lj k :
  expirations s !! i = Some li -> expirations s !! j = Some lj ->
  expirations (heap_swap s i j) !! k = expirations s !! transpose i j k.
Proof.
  intros Hi Hj. unfold heap_swap. rewrite Hi, Hj. simpl. unfold transpose.
  pose proof (lookup_lt_Some _ _ _ Hi). pose proof (lookup_lt_Some _ _ _ Hj).
  destruct (Nat.eqb_spec k i) as [->|Hki].
  - destruct (decide (i = j)) as [->|Hne].
    + rewrite list_lookup_insert_eq; [congruence|by rewrite length_insert].
    + rewrite list_lookup_insert_ne by done. by rewrite list_lookup_insert_eq.
  - destruct (Nat.eqb_spec k j) as [->|Hkj].
    + rewrite list_lookup_insert_eq; [done|by rewrite length_insert].
    + by rewrite !list_lookup_insert_ne.
Qed.

Lemma swap_store s i j l :
  erase <$> store (heap_swap s i j) !! l = erase <$> store s !! l.
Proof.
  unfold heap_swap. destruct (expirations s !! i) as [li|]; [|done].
  destruct (expirations s !! j) as [lj|]; [|done]. simpl.
  rewrite !lookup_alter. unfold erase.
  repeat case_decide; subst; destruct (store s !! _); simpl; repeat rewrite bk_set_set; done.
Qed.

Lemma erase_rank (o o' : option B) :
  erase <$> o = erase <$> o' -> bk_rank <$> o = bk_rank <$> o'.
Proof.
  intros E. apply (f_equal (fmap bk_rank)) in E. rewrite <- !option_fmap_compose in E.
  destruct o, o'; simpl in *; unfold compose, erase in E;
    repeat rewrite bk_rank_set in E; done.
Qed.

Lemma erase_some (o : option B) b :
  erase <$> o = Some b -> exists b', o = Some b' /\ bk_key b' = bk_key b /\ bk_rank b' = bk_rank b.
Proof.
  destruct o as [b'|]; simpl; [|done]. intros [= <-]. exists b'.
  unfold erase. by rewrite bk_key_set, bk_rank_set.
Qed.

Lemma swap_index s i j li lj l b' :
  expirations s !! i = Some li -> expirations s !! j = Some lj ->
  store (heap_swap s i j) !! l = Some b' ->
  exists b, store s !! l = Some b /\ bk_key b' = bk_key b /\
    bk_index b' = (if decide (l = li) then Z.of_nat j
                   else if decide (l = lj) then Z.of_nat i else bk_index b).
Proof.
  intros Hi Hj. unfold heap_swap. rewrite Hi, Hj. simpl. rewrite !lookup_alter.
  repeat case_decide; subst;
    destruct (store s !! _) as [b|]; simpl; try done; intros [= <-]; exists b;
    repeat rewrite bk_key_set; rewrite ?bk_index_set; done.
Qed.

Lemma swap_wf s i j :
  wf s -> (i < length (expirations s))%nat -> (j < length (expirations s))%nat ->
  wf (heap_swap s i j).
Proof.
  intros W Hi Hj. apply lookup_lt_is_Some in Hi as [li Hi]. apply lookup_lt_is_Some in Hj as [lj Hj].
  assert (keys (heap_swap s i j) = keys s /\ next (heap_swap s i j) = next s) as [Ek En]
    by (unfold heap_swap; by rewrite Hi, Hj).
  split.
  - intros k l Hk. rewrite (swap_lookup s i j li lj) in Hk by done.
    destruct (wf_arr s W _ _ Hk) as (b & Hb & Hx & Hkey).
    pose proof (swap_store s i j l) as Hst. rewrite Hb in Hst. simpl in Hst.
    apply erase_some in Hst as (b' & Hb' & _).
    destruct (swap_index s i j li lj l b' Hi Hj Hb') as (b0 & Hb0 & Hk0 & Hx0).
    simplify_eq. exists b'. split; [done|]. rewrite Ek, Hk0. split; [|done].
    rewrite Hx0, Hx. unfold transpose in *.
    assert (forall n, expirations s !! n = Some li <-> n = i) as Hli
      by (intros n; split; [intros; by eapply wf_nodup|by intros ->]).
    assert (forall n, expirations s !! n = Some lj <-> n = j) as Hlj
      by (intros n; split; [intros; by eapply wf_nodup|by intros ->]).
    destruct (Nat.eqb_spec k i) as [->|]; [|destruct (Nat.eqb_spec k j) as [->|]].
    + assert (l = lj) as -> by congruence. case_decide as Hd; [|by rewrite decide_True].
      subst. assert (i = j) by by apply Hlj. lia.
    + assert (l = li) as -> by congruence. by rewrite decide_True.
    + rewrite decide_False, decide_False; [done| |]; intros ->.
      * by apply Hlj in Hk.
      * by apply Hli in Hk.
  - intros k l Hk. rewrite Ek in Hk. destruct (wf_keys s W _ _ Hk) as (Hin & b & Hb & Hkb). split.
    + apply list_elem_of_lookup in Hin as [n Hn]. apply list_elem_of_lookup.
      exists (transpose i j n). rewrite (swap_lookup s i j li lj) by done.
      by rewrite transpose_involutive.
    + pose proof (swap_store s i j l) as Hst. rewrite Hb in Hst. simpl in Hst.
      apply erase_some in Hst as (b' & Hb' & Hkb' & _). exists b'. split; [done|].
      rewrite Hkb'. unfold erase. by rewrite bk_key_set.
  - intros l b Hl. rewrite En. destruct (swap_index s i j li lj l b Hi Hj Hl) as (b0 & Hb0 & _).
    by eapply wf_next.
Qed.

Lemma swap_rank_at s i j k :
  (i < length (expirations s))%nat -> (j < length (expirations s))%nat ->
  rank_at (heap_swap s i j) k = rank_at s (transpose i j k).
Proof.
  intros Hi Hj. apply lookup_lt_is_Some in Hi as [li Hi]. apply lookup_lt_is_Some in Hj as [lj Hj].
  unfold rank_at, bucket_at. rewrite (swap_lookup s i j li lj) by done.
  destruct (expirations s !! transpose i j k) as [l|]; simpl; [|done].
  pose proof (erase_rank _ _ (swap_store s i j l)) as Hr.
  destruct (store (heap_swap s i j) !! l), (store s !! l); simpl in Hr; congruence.
Qed.

Lemma wf_bucket_at s i :
  wf s -> (i < length (expirations s))%nat -> is_Some (bucket_at s i).
Proof.
  intros W Hi. apply lookup_lt_is_Some in Hi as [l Hl]. unfold bucket_at. rewrite Hl. simpl.
  destruct (wf_arr s W i l Hl) as (b & Hb & _). by exists b.
Qed.

#[export, program] Instance shard_heap_laws : HeapLaws (Shard B) nat wf := {
  rank := rank_at
}.
Next Obligation.
  intros s i j W Hi Hj. simpl. unfold heap_less, rank_at.
  destruct (wf_bucket_at s i W Hi) as [a Ha]. destruct (wf_bucket_at s j W Hj) as [b Hb].
  by rewrite Ha, Hb.
Qed.
Next Obligation. intros. by apply swap_wf. Qed.
Next Obligation.
  intros s i j. simpl. unfold heap_swap.
  destruct (expirations s !! i); [|done]. destruct (expirations s !! j); [|done].
  simpl. by rewrite !length_insert.
Qed.
Next Obligation. intros s i j k W Hi Hj Hk. by apply swap_rank_at. Qed.

(** ** What the heap algorithms leave alone *)

Definition same (s0 s : Shard B) : Prop :=
  keys s = keys s0 /\ next s = next s0
  /\ (expirations s ≡ₚ expirations s0)
  /\ forall l, erase <$> store s !! l = erase <$> store s0 !! l.

Lemma same_refl s : same s s.
Proof. by repeat split. Qed.

Lemma swap_same s0 s i j :
  wf s -> same s0 s -> (i < length (expirations s))%nat -> (j < length (expirations s))%nat ->
  same s0 (heap_swap s i j).
Proof.
  intros W (Hk & Hn & Hp & Hs) Hi Hj.
  apply lookup_lt_is_Some in Hi as [li Hi]. apply lookup_lt_is_Some in Hj as [lj Hj].
  unfold same.
  assert (keys (heap_swap s i j) = keys s /\ next (heap_swap s i j) = next s) as [-> ->]
    by (unfold heap_swap; by rewrite Hi, Hj).
  split; [done|]. split; [done|]. split; [|intros l; by rewrite swap_store, Hs].
  rewrite <- Hp. unfold heap_swap. rewrite Hi, Hj. simpl.
  apply Permutation_inj. split; [by rewrite !length_insert|].
  exists (transpose i j). split.
  - intros x y E. rewrite <- (transpose_involutive i j x), E. apply transpose_involutive.
  - intros k. pose proof (swap_lookup s i j li lj k Hi Hj) as E.
    unfold heap_swap in E. rewrite Hi, Hj in E. exact E.
Qed.

Lemma same_find s0 s k : same s0 s -> find_bucket s k = find_bucket s0 k.
Proof.
  intros (Hk & _ & _ & Hs). unfold find_bucket. rewrite Hk.
  destruct (keys s0 !! k); simpl; [apply Hs|done].
Qed.

Lemma same_length s0 s : same s0 s -> length (expirations s) = length (expirations s0).
Proof. intros (_ & _ & Hp & _). by rewrite Hp. Qed.

Lemma up_same s j fuel :
  wf s -> (j < length (expirations s))%nat -> wf (up fuel s j) /\ same s (up fuel s j).
Proof.
  intros W Hj.
  apply (up_preserves (ok := wf) (same s) (length (expirations s)));
    [|done|apply same_refl|done|done].
  intros h x y Wh Hs Hm Hx Hy. apply swap_same; [done|done| |];
    by rewrite (same_length s h Hs).
Qed.

(** [down] on the first [n] positions leaves the later ones in place. *)
Lemma down_same s i n s' b l :
  wf s -> (n < length (expirations s))%nat -> (i < n)%nat -> down s i n = (s', b) ->
  expirations s !! n = Some l ->
  wf s' /\ same s s' /\ expirations s' !! n = Some l.
Proof.
  intros W Hn Hi Hd Hl. unfold down in Hd.
  destruct (down_loop n s i n) as [h' i'] eqn:E. injection Hd as <- _.
  apply (down_loop_preserves (ok := wf)
           (fun h => same s h /\ expirations h !! n = Some l) n) in E;
    [done| |done|by split; [apply same_refl|]|simpl; lia|done|done].
  intros h x y Wh [Hs Hx] Hm Hxn Hyn. pose proof (same_length s h Hs) as Hlen.
  split; [apply swap_same; [done|done|lia|lia]|].
  destruct (lookup_lt_is_Some_2 (expirations h) x) as [lx Hlx]; [lia|].
  destruct (lookup_lt_is_Some_2 (expirations h) y) as [ly Hly]; [lia|].
  simpl. rewrite (swap_lookup h x y lx ly) by done. unfold transpose.
  destruct (Nat.eqb_spec n x); [lia|]. by destruct (Nat.eqb_spec n y); [lia|].
Qed.

(** The first loop of [Fix] works on all positions. *)
Lemma fix_same s i :
  wf s -> (i < length (expirations s))%nat -> wf (heap_Fix s i) /\ same s (heap_Fix s i).
Proof.
  intros W Hi. unfold heap_Fix, down.
  destruct (down_loop (Len s) s i (Len s)) as [h' i'] eqn:E.
  apply (down_loop_preserves (ok := wf) (same s) (Len s)) in E;
    [|intros h x y Wh Hs Hm Hx Hy; apply swap_same; try done; by rewrite (same_length s h Hs)
     |done|apply same_refl|done|done|done].
  destruct E as [W' Hs]. destruct (i <? i')%nat; [done|].
  destruct (up_same h' i (S i)) as [Wu Hu]; [done|by rewrite (same_length s h' Hs)|].
  split; [done|]. destruct Hs as (A1 & A2 & A3 & A4), Hu as (B1 & B2 & B3 & B4).
  split; [congruence|]. split; [congruence|]. split; [by rewrite B3|]. intros l. by rewrite B4.
Qed.

(** ** Effect of the composite operations *)

Lemma find_some s k b :
  wf s -> find_bucket s k = Some b ->
  exists l b', keys s !! k = Some l /\ store s !! l = Some b' /\ b = erase b' /\ bk_key b' = k.
Proof.
  intros W Hf. unfold find_bucket in Hf. destruct (keys s !! k) as [l|] eqn:Ek; [|done].
  simpl in Hf. destruct (store s !! l) as [b'|] eqn:Es; [|done]. injection Hf as <-.
  exists l, b'. destruct (wf_keys s W k l Ek) as (_ & b0 & Hb0 & Hk). by simplify_eq.
Qed.

Lemma find_none s k : wf s -> find_bucket s k = None <-> keys s !! k = None.
Proof.
  intros W. unfold find_bucket. destruct (keys s !! k) as [l|] eqn:Ek; simpl; [|done].
  destruct (wf_keys s W k l Ek) as (_ & b0 & -> & _). done.
Qed.

Lemma empty_inv : inv (empty_shard (B := B)).
Proof.
  split; [|intros p c _ Hc; simpl in Hc; lia]. split; simpl.
  - intros i l Hl. by rewrite lookup_nil in Hl.
  - intros k l Hk. by rewrite lookup_empty in Hk.
  - intros l b Hl. by rewrite lookup_empty in Hl.
Qed.

(** *** Writing a bucket in place *)

Lemma write_lookup s l f l' :
  store (write_bucket s l f) !! l' = if decide (l = l') then f <$> store s !! l' else store s !! l'.
Proof. simpl. rewrite lookup_alter. case_decide; by subst. Qed.

Lemma write_wf s l f :
  wf s -> (forall b, bk_key (f b) = bk_key b) -> (forall b, bk_index (f b) = bk_index b) ->
  wf (write_bucket s l f).
Proof.
  intros W Hk Hx. split.
  - intros i l' Hl'. destruct (wf_arr s W i l' Hl') as (b & Hb & Hi & Hkey).
    rewrite write_lookup, Hb. case_decide; [exists (f b)|exists b]; by rewrite ?Hk, ?Hx.
  - intros k l' Hl'. destruct (wf_keys s W k l' Hl') as (Hin & b & Hb & Hkey).
    split; [done|]. rewrite write_lookup, Hb.
    case_decide; [exists (f b)|exists b]; by rewrite ?Hk.
  - intros l' b Hb. rewrite write_lookup in Hb.
    destruct (store s !! l') as [b0|] eqn:E; [by eapply (wf_next s W)|]. by case_decide.
Qed.

Lemma write_find s l f k b :
  wf s -> (forall b, erase (f b) = f (erase b)) -> keys s !! k = Some l -> store s !! l = Some b ->
  forall k', find_bucket (write_bucket s l f) k'
             = if decide (k' = k) then Some (f (erase b)) else find_bucket s k'.
Proof.
  intros W Hf Hk Hb k'. unfold find_bucket.
  replace (keys (write_bucket s l f)) with (keys s) by done.
  case_decide as Hd.
  - subst k'. rewrite Hk. cbn [mbind option_bind]. rewrite write_lookup, decide_True by done.
    rewrite Hb. simpl. by rewrite Hf.
  - destruct (keys s !! k') as [l'|] eqn:Ek; [|done]. cbn [mbind option_bind].
    rewrite write_lookup, decide_False; [done|]. intros <-.
    destruct (wf_keys s W _ _ Ek) as (_ & b1 & Hb1 & Hk1).
    destruct (wf_keys s W _ _ Hk) as (_ & b2 & Hb2 & Hk2). congruence.
Qed.

Lemma write_rank s l f i :
  (forall b, expirations s !! i = Some l -> store s !! l = Some b -> bk_rank (f b) = bk_rank b) ->
  rank_at (write_bucket s l f) i = rank_at s i.
Proof.
  intros Hr. unfold rank_at, bucket_at.
  replace (expirations (write_bucket s l f)) with (expirations s) by done.
  destruct (expirations s !! i) as [l'|] eqn:E; [|done]. cbn [mbind option_bind].
  rewrite write_lookup. case_decide as Hd; [|done]. subst l'.
  destruct (store s !! l) as [b|] eqn:Eb; [|done]. simpl. by apply Hr.
Qed.

Lemma rank_at_lookup s i l b :
  expirations s !! i = Some l -> store s !! l = Some b -> rank_at s i = bk_rank b.
Proof. intros Hl Hb. unfold rank_at, bucket_at. rewrite Hl. simpl. by rewrite Hb. Qed.

(** A bucket write that changes neither key, position nor rank. *)
Lemma write_inv s l f :
  inv s -> (forall b, bk_key (f b) = bk_key b) -> (forall b, bk_index (f b) = bk_index b) ->
  (forall b, bk_rank (f b) = bk_rank b) -> inv (write_bucket s l f).
Proof.
  intros [W Ho] Hk Hx Hr. split; [by apply write_wf|].
  intros p c Hc Hn. rewrite !write_rank by (intros; apply Hr). by apply Ho.
Qed.

Lemma renew_inv s l f k :
  inv s -> (forall b, bk_key (f b) = bk_key b) -> (forall b, bk_index (f b) = bk_index b) ->
  (forall b, erase (f b) = f (erase b)) -> keys s !! k = Some l ->
  inv (renew_bucket s l f)
  /\ (exists b, find_bucket s k = Some b /\
       forall k', find_bucket (renew_bucket s l f) k'
                  = if decide (k' = k) then Some (f b) else find_bucket s k')
  /\ keys (renew_bucket s l f) = keys s.
Proof.
  intros [W Ho] Hk Hx Hf Hkl. destruct (wf_keys s W k l Hkl) as (Hin & b & Hb & Hkb).
  apply list_elem_of_lookup in Hin as [i Hi].
  destruct (wf_arr s W i l Hi) as (b' & Hb' & Hxi & _). simplify_eq.
  unfold renew_bucket. rewrite Hb, Hxi, Nat2Z.id.
  pose proof (write_wf s l f W Hk Hx) as Ww.
  assert (i < length (expirations s))%nat as Hilt by by eapply lookup_lt_Some.
  destruct (fix_same (write_bucket s l f) i Ww Hilt) as [Wf Hs].
  assert (forall p, p <> i -> rank_at (write_bucket s l f) p = rank_at s p) as Hr.
  { intros p Hp. apply write_rank. intros b0 Hl _. exfalso. apply Hp. by apply (wf_nodup s p i l). }
  split; [|split].
  - split; [done|].
    rewrite (same_length (write_bucket s l f) _ Hs). refine (heap_Fix_order (ok := wf) (write_bucket s l f) i Ww Hilt _).
    change (rank (write_bucket s l f)) with (rank_at (write_bucket s l f)).
    change (Len (write_bucket s l f)) with (length (expirations s)).
    split.
    + intros p c Hc Hn Hp Hci. rewrite !Hr by done. by apply Ho.
    + intros c Hc Hn Hi0. pose proof (parent_child i Hi0) as Hpi.
      assert ((i - 1) / 2 < i)%nat by (unfold child in Hpi; lia).
      assert (i < c)%nat by (unfold child in Hc; lia).
      rewrite !Hr by lia. transitivity (rank_at s i); apply Ho; done || lia.
  - exists (erase b). split; [unfold find_bucket; rewrite Hkl; simpl; by rewrite Hb|].
    intros k'. rewrite (same_find _ _ k' Hs). by eapply write_find.
  - by destruct Hs as (-> & _).
Qed.

(** *** Inserting a fresh bucket *)

Definition appended s b : Shard B :=
  heap_push (MkShard (<[next s := b]> (store s)) (S (next s))
               (<[bk_key b := next s]> (keys s)) (expirations s)) (next s).

Lemma appended_store s b l :
  store (appended s b) !! l
  = if decide (l = next s) then Some (bk_set_index (Z.of_nat (length (expirations s))) b)
    else store s !! l.
Proof.
  unfold appended, heap_push. simpl. destruct (decide (l = next s)) as [->|Hne].
  - by rewrite lookup_alter_eq, lookup_insert_eq.
  - by rewrite lookup_alter_ne, lookup_insert_ne.
Qed.

Lemma appended_wf s b : wf s -> keys s !! bk_key b = None -> wf (appended s b).
Proof.
  intros W Hk. split.
  - intros i l Hl. rewrite appended_store. simpl in Hl |- *.
    apply lookup_app_Some in Hl as [Hl|[Hge Hl]].
    + destruct (wf_arr s W i l Hl) as (b0 & Hb0 & Hx & Hkey).
      pose proof (wf_next s W l b0 Hb0). rewrite decide_False by lia.
      exists b0. rewrite lookup_insert_ne by congruence. done.
    + apply list_lookup_singleton_Some in Hl as [Hi <-]. rewrite decide_True by done.
      eexists. split; [done|]. rewrite bk_index_set, bk_key_set, lookup_insert_eq.
      split; [lia|done].
  - intros k l Hl. rewrite appended_store. simpl in Hl |- *. rewrite elem_of_app.
    apply lookup_insert_Some in Hl as [[<- <-]|[Hne Hl]].
    + rewrite decide_True by done. split; [right; by apply list_elem_of_singleton|].
      eexists. split; [done|]. apply bk_key_set.
    + destruct (wf_keys s W k l Hl) as (Hin & b0 & Hb0 & Hkey). split; [by left|].
      pose proof (wf_next s W l b0 Hb0). rewrite decide_False by lia. eauto.
  - intros l b0. rewrite appended_store. simpl. case_decide; [lia|].
    intros Hl. pose proof (wf_next s W l b0 Hl). lia.
Qed.

Lemma insert_inv s b :
  inv s -> keys s !! bk_key b = None ->
  inv (insert_bucket s b)
  /\ (forall k, find_bucket (insert_bucket s b) k
                = if decide (k = bk_key b) then Some (erase b) else find_bucket s k)
  /\ size (keys (insert_bucket s b)) = S (size (keys s)).
Proof.
  intros [W Ho] Hk. pose proof (appended_wf s b W Hk) as Wa.
  assert (length (expirations (appended s b)) = S (length (expirations s))) as Hlen
    by (simpl; rewrite length_app; simpl; lia).
  unfold insert_bucket, heap_Push. fold (appended s b).
  change (HPush _ _) with (appended s b).
  change (Len (appended s b)) with (length (expirations (appended s b))). rewrite Hlen.
  replace (S (length (expirations s)) - 1)%nat with (length (expirations s)) by lia.
  destruct (up_same (appended s b) (length (expirations s)) (S (length (expirations s))))
    as [Wu Hs]; [done|lia|].
  assert (forall p, p < length (expirations s) -> rank_at (appended s b) p = rank_at s p)%nat as Hr.
  { intros p Hp. unfold rank_at, bucket_at. simpl expirations.
    rewrite lookup_app_l by done.
    destruct (expirations s !! p) as [l|] eqn:El; [|done]. cbn [mbind option_bind].
    rewrite appended_store. destruct (wf_arr s W p l El) as (b0 & Hb0 & _).
    pose proof (wf_next s W l b0 Hb0). by rewrite decide_False by lia. }
  split; [|split].
  - split; [done|]. rewrite (same_length (appended s b) _ Hs).
    refine (up_order (ok := wf) _ (appended s b) _ Wa _ _ _); [simpl; rewrite length_app; simpl; lia|lia|].
    change (Len (appended s b)) with (length (expirations (appended s b))). rewrite Hlen.
    change (rank (appended s b)) with (rank_at (appended s b)). split.
    + intros p c Hc Hn Hcl. assert (p < c)%nat by (unfold child in Hc; lia).
      rewrite !Hr by lia. apply Ho; [done|lia].
    + intros c Hc Hn. unfold child in Hc. lia.
  - intros k. rewrite (same_find _ _ k Hs). unfold find_bucket. simpl keys.
    rewrite lookup_insert. case_decide as Hd.
    + subst k. rewrite decide_True by done. cbn [mbind option_bind]. rewrite appended_store, decide_True by done.
      simpl. unfold erase. by rewrite bk_set_set.
    + rewrite decide_False by congruence. destruct (keys s !! k) as [l|] eqn:Ek; [|done].
      cbn [mbind option_bind]. rewrite appended_store, decide_False; [done|].
      destruct (wf_keys s W k l Ek) as (_ & b0 & Hb0 & _). pose proof (wf_next s W l b0 Hb0). lia.
  - destruct Hs as (-> & _). simpl. by apply map_size_insert_None.
Qed.

(** *** Removing the oldest bucket *)

Lemma root_min s b k b' :
  inv s -> bucket_at s 0 = Some b -> find_bucket s k = Some b' -> bk_rank b <= bk_rank b'.
Proof.
  intros [W Ho] Hb Hf. destruct (find_some s k b' W Hf) as (l & b1 & Hkl & Hb1 & -> & _).
  destruct (wf_keys s W k l Hkl) as (Hin & _). apply list_elem_of_lookup in Hin as [i Hi].
  pose proof (heap_order_root (rank_at s) _ i Ho ltac:(by eapply lookup_lt_Some)) as Hle.
  rewrite (rank_at_lookup s i l b1 Hi Hb1) in Hle. unfold rank_at in Hle. rewrite Hb in Hle.
  unfold erase. by rewrite bk_rank_set.
Qed.

(** The shard before the last element is cut off. *)
Definition cut s (b : B) : Shard B :=
  MkShard (store (fst (heap_pop s))) (next s) (delete (bk_key b) (keys s))
    (expirations (fst (heap_pop s))).

Lemma cut_inv s l b :
  wf s -> expirations s !! (length (expirations s) - 1)%nat = Some l -> store s !! l = Some b ->
  heap_order (rank_at s) (length (expirations s) - 1)%nat ->
  inv (cut s b)
  /\ (forall k, find_bucket (cut s b) k = if decide (k = bk_key b) then None else find_bucket s k)
  /\ size (keys s) = S (size (keys (cut s b))).
Proof.
  intros W Hl Hb Ho. unfold cut, heap_pop.
  assert (last (expirations s) = Some l) as Hlast
    by (rewrite last_lookup; by replace (pred _) with (length (expirations s) - 1)%nat by lia).
  rewrite Hlast. simpl. destruct (last_Some (expirations s) l) as [HL _].
  destruct (HL Hlast) as [ex Hex]. clear HL.
  assert (removelast (expirations s) = ex) as -> by (rewrite Hex; apply removelast_last).
  assert (forall i l', ex !! i = Some l' -> expirations s !! i = Some l') as Hpre
    by (intros i l' Hi; rewrite Hex; by apply lookup_app_l_Some).
  assert (forall i l', ex !! i = Some l' -> l' <> l) as Hne.
  { intros i l' Hi ->. pose proof (lookup_lt_Some _ _ _ Hi).
    assert (i = length (expirations s) - 1)%nat by (by eapply wf_nodup; [|apply Hpre|]).
    rewrite Hex, length_app in H1. simpl in H1. lia. }
  destruct (wf_arr s W _ l Hl) as (b0 & Hb0 & _ & Hkb). simplify_eq.
  split; [split; [split|]|split].
  - simpl. intros i l' Hi. pose proof (Hne i l' Hi).
    destruct (wf_arr s W i l' (Hpre i l' Hi)) as (b' & Hb' & Hx & Hkey).
    exists b'. rewrite lookup_alter_ne by done. split; [done|]. split; [done|].
    rewrite lookup_delete_ne; [done|]. intros E. rewrite E in Hkb. congruence.
  - simpl. intros k l' Hk. apply lookup_delete_Some in Hk as [Hkk Hk].
    destruct (wf_keys s W k l' Hk) as (Hin & b' & Hb' & Hkey).
    assert (l' <> l) by (intros ->; congruence). split.
    + rewrite Hex in Hin. apply elem_of_app in Hin as [?|Hin]; [done|].
      by apply list_elem_of_singleton in Hin.
    + exists b'. by rewrite lookup_alter_ne.
  - simpl. intros l' b'. rewrite lookup_alter. case_decide as Hd.
    + subst. intros _. by eapply (wf_next s W).
    + by apply (wf_next s W).
  - simpl. assert (length ex = length (expirations s) - 1)%nat as Hle
      by (rewrite Hex, length_app; simpl; lia).
    rewrite Hle. intros p c Hc Hn. pose proof (Ho p c Hc Hn) as Hpc.
    assert (p < c)%nat by (unfold child in Hc; lia).
    assert (forall q, q < length ex ->
      rank_at (MkShard (alter (bk_set_index (-1)) l (store s)) (next s)
                 (delete (bk_key b) (keys s)) ex) q = rank_at s q)%nat as Hr.
    { intros q Hq. destruct (lookup_lt_is_Some_2 ex q Hq) as [lq Hlq].
      unfold rank_at, bucket_at. simpl. rewrite Hlq, (Hpre q lq Hlq). simpl.
      rewrite lookup_alter_ne; [done|]. intros <-. by apply (Hne q l). }
    rewrite !Hr by lia. done.
  - simpl. intros k. unfold find_bucket. simpl. rewrite lookup_delete.
    case_decide as Hd; [by rewrite decide_True by done|]. rewrite decide_False by congruence.
    destruct (keys s !! k) as [l'|] eqn:Ek; [|done]. simpl.
    rewrite lookup_alter_ne; [done|]. intros <-.
    destruct (wf_keys s W k l Ek) as (_ & b' & Hb' & Hkey). congruence.
  - simpl. rewrite map_size_delete_Some by eauto.
    assert (size (keys s) <> 0)%nat; [|lia].
    intros E. apply map_size_empty_inv in E. rewrite E in Hkb. by rewrite lookup_empty in Hkb.
Qed.

Lemma drop_root_inv s b :
  inv s -> bucket_at s 0 = Some b ->
  inv (drop_root s b)
  /\ (forall k, find_bucket (drop_root s b) k
                = if decide (k = bk_key b) then None else find_bucket s k)
  /\ size (keys s) = S (size (keys (drop_root s b))).
Proof.
  intros [W Ho] Hb. unfold bucket_at in Hb.
  destruct (expirations s !! 0%nat) as [l|] eqn:El; [|done]. simpl in Hb.
  assert (0 < length (expirations s))%nat as Hlen by by eapply lookup_lt_Some.
  set (n := (length (expirations s) - 1)%nat).
  destruct (lookup_lt_is_Some_2 (expirations s) n) as [ln Hln]; [lia|].
  assert (wf (heap_swap s 0 n)) as Ws by (apply swap_wf; [done|lia|lia]).
  assert (same s (heap_swap s 0 n)) as Hss
    by (apply swap_same; [done|apply same_refl|lia|lia]).
  assert (expirations (heap_swap s 0 n) !! n = Some l) as Hn.
  { rewrite (swap_lookup s 0 n l ln) by done. unfold transpose.
    destruct (Nat.eqb_spec n 0) as [E|]; [rewrite E in Hln; congruence|]. by rewrite Nat.eqb_refl. }
  unfold drop_root, heap_Pop.
  change (Len s) with (length (expirations s)). fold n.
  change (Swap s 0 n) with (heap_swap s 0 n).
  destruct (down (heap_swap s 0 n) 0 n) as [h2 mv] eqn:Ed.
  destruct (heap_Pop_order (HL := shard_heap_laws) s h2 mv W Hlen Ho Ed) as [Hord _].
  assert (wf h2 /\ same s h2 /\ expirations h2 !! n = Some l) as (W2 & H2 & Hn2).
  { destruct (Nat.eq_dec n 0) as [Hn0|Hn0].
    - unfold down in Ed. rewrite Hn0 in Ed. cbn [down_loop] in Ed. injection Ed as <- _.
      rewrite Hn0 in *. done.
    - apply (down_same _ _ _ _ _ l) in Ed as (A & B' & C);
        [|done|rewrite (same_length s _ Hss); lia|lia|done].
      split; [done|]. split; [|done]. destruct Hss as (a1 & a2 & a3 & a4), B' as (c1 & c2 & c3 & c4).
      split; [congruence|]. split; [congruence|]. split; [by rewrite c3|]. intros x. by rewrite c4. }
  pose proof (same_length s h2 H2) as Hl2.
  destruct H2 as (Hk2 & Hx2 & Hp2 & Hs2).
  pose proof (Hs2 l) as Hbl. rewrite Hb in Hbl. simpl in Hbl.
  apply erase_some in Hbl as (b2 & Hb2 & Hkb2 & _).
  assert (bk_key b2 = bk_key b) as Hkeys by (rewrite Hkb2; apply bk_key_set).
  destruct (cut_inv h2 l b2) as (C1 & C2 & C3); [done|by rewrite Hl2|done|by rewrite Hl2|].
  assert (forall (q : Shard B * option nat),
    (let '(s', _) := q in MkShard (store s') (next s') (delete (bk_key b) (keys s')) (expirations s'))
    = MkShard (store (fst q)) (next (fst q)) (delete (bk_key b) (keys (fst q))) (expirations (fst q)))
    as Hlet by by intros [? ?].
  change (HPop h2) with (heap_pop h2). rewrite Hlet.
  assert (next (fst (heap_pop h2)) = next h2 /\ keys (fst (heap_pop h2)) = keys h2) as [-> ->]
    by (unfold heap_pop; by destruct (last (expirations h2))).
  rewrite <- Hkeys. fold (cut h2 b2). split; [done|]. split; [|by rewrite <- Hk2].
  intros k. rewrite C2. case_decide; [done|].
  unfold find_bucket. rewrite Hk2. destruct (keys s !! k); simpl; [apply Hs2|done].
Qed.

(** *** The clean-up loop *)

Lemma expire_inv (due : B -> bool) T n s :
  (forall b, due b = (bk_rank b <=? T)) -> inv s ->
  inv (expire due n s)
  /\ (forall k, find_bucket (expire due n s) k = find_bucket s k
        \/ find_bucket (expire due n s) k = None
           /\ exists b, find_bucket s k = Some b /\ bk_rank b <= T)
  /\ (size (keys (expire due n s)) <= size (keys s))%nat
  /\ ((0 < n)%nat -> (exists k b, find_bucket s k = Some b /\ bk_rank b <= T) ->
      (size (keys (expire due n s)) < size (keys s))%nat).
Proof.
  intros Hdue. revert s. induction n as [|n IH]; intros s Hi; simpl.
  { split; [done|]. split; [by left|]. split; [lia|lia]. }
  destruct (bucket_at s 0) as [b|] eqn:Eb.
  2:{ split; [done|]. split; [by left|]. split; [lia|]. intros _ (k & b & Hf & _). exfalso.
      destruct Hi as [W _]. destruct (find_some s k b W Hf) as (l & b1 & Hkl & Hb1 & _).
      destruct (wf_keys s W k l Hkl) as (Hin & _). unfold bucket_at in Eb.
      destruct (expirations s) as [|l0 ex] eqn:Ee; [by apply not_elem_of_nil in Hin|].
      simpl in Eb. destruct (wf_arr s W 0 l0) as (b0 & Hb0 & _); [by rewrite Ee|]. congruence. }
  rewrite Hdue. destruct (Z.leb_spec (bk_rank b) T) as [Hle|Hgt]; cbn [negb].
  - destruct (drop_root_inv s b Hi Eb) as (D1 & D2 & D3).
    destruct (IH _ D1) as (E1 & E2 & E3 & _). split; [done|]. split; [|split; [lia|lia]].
    intros k. destruct (E2 k) as [E|(E & b' & Hb' & Hr)]; rewrite E.
    + rewrite D2. case_decide as Hd; [|by left]. subst k.
      destruct (find_bucket s (bk_key b)) as [b'|] eqn:Ef; [|by left]. right. split; [done|].
      exists b'. split; [done|]. destruct Hi as [W _].
      unfold bucket_at in Eb. destruct (expirations s !! 0%nat) as [l|] eqn:El; [|done].
      destruct (wf_arr s W 0 l El) as (b1 & Hb1 & _ & Hk1). simpl in Eb. simplify_eq.
      unfold find_bucket in Ef. rewrite Hk1 in Ef. simpl in Ef. rewrite Eb in Ef.
      injection Ef as <-. unfold erase. by rewrite bk_rank_set.
    + right. split; [done|]. rewrite D2 in Hb'. case_decide; [done|]. eauto.
  - split; [done|]. split; [by left|]. split; [lia|].
    intros _ (k & b' & Hf & Hr). pose proof (root_min s b k b' Hi Eb Hf). lia.
Qed.
End Laws.

#[export] Hint Resolve empty_inv : waf.
