(* ===== verification/RateLimit.v ===== *)
(** * Per-key fixed-window rate limits (internal/protection/ratelimit/limiter.go)

    The sharded limiter of the data plane. A key is hashed to one of 32
    shards; a shard counts the requests of each key in its current window,
    drops at most eight finished windows per call, oldest first, and refuses
    new keys when it is full of live windows. Mutexes make every call atomic,
    so an execution is a sequence of calls; the clock is an argument. *)

From S2P Require Import Prelude GoText Heap ExpiryStore.

Open Scope list_scope.
Open Scope Z_scope.

(** ** Data *)

Record bucket := MkBucket {
  key : string;
  windowStart : Time;
  count : Z;
  heapIndex : Z
}.

#[export, program] Instance bucket_Bucket : Bucket bucket := {
  bk_key := key;
  bk_rank := windowStart;
  bk_index := heapIndex;
  bk_set_index i b := MkBucket (key b) (windowStart b) (count b) i
}.
Solve Obligations with done.

Record RateLimitProfile := { Requests : Z; Window : Duration; Burst : Z }.

Record Limiter := MkLimiter {
  enabled : bool;
  requests : Z;
  window : Duration;
  burst : Z;
  maxKeys : Z;
  shards : list (Shard bucket)
}.

Definition defaultShards : nat := 32.
Definition defaultMaxKeys : Z := 100000.
Definition evictionBudget : nat := 8.

Definition set_shards (l : Limiter) (s : list (Shard bucket)) : Limiter :=
  MkLimiter (enabled l) (requests l) (window l) (burst l) (maxKeys l) s.

Definition New (profile : RateLimitProfile) (enabled : bool) : Limiter :=
  let reqs := if Requests profile <=? 0 then 100 else Requests profile in
  let win := if Window profile <=? 0 then Minute else Window profile in
  let bst := if Burst profile <? 0 then reqs else Burst profile in
  MkLimiter enabled reqs win bst defaultMaxKeys (replicate defaultShards empty_shard).

Definition WithMaxKeys (l : Limiter) (n : Z) : Limiter :=
  if 0 <? n
  then MkLimiter (enabled l) (requests l) (window l) (burst l) n (shards l) else l.

(** ** Operations *)

(** FNV-1a over the bytes of the key. *)
Definition fnv1a (k : string) : Z :=
  fold_left (fun h c => u32 (Z.lxor h (byte_val c) * 16777619)) (bytes k) 2166136261.

Definition shard_index (l : Limiter) (k : string) : nat :=
  Z.to_nat (fnv1a k mod Z.of_nat (length (shards l))).

Definition perShardCap (l : Limiter) : Z :=
  let n := if Z.of_nat (length (shards l)) <? 1 then 1 else Z.of_nat (length (shards l)) in
  let capPer := Z.quot (maxKeys l) n in
  if capPer <? 64 then 64 else capPer.

(** [now.Sub(b.windowStart) >= l.window]: the bucket's window is over. *)
Definition due (l : Limiter) (now : Time) (b : bucket) : bool :=
  window l <=? TimeSub now (windowStart b).

Definition expireLocked (l : Limiter) (now : Time) (sh : Shard bucket) : Shard bucket :=
  expire (due l now) evictionBudget sh.

Definition limit (l : Limiter) : Z := i64 (requests l + burst l).

(** The critical section of [Allow]. A key whose address is unknown to the
    store does not occur (see [wf_keys]); it is answered like a full bucket. *)
Definition allow_shard (l : Limiter) (now : Time) (sh : Shard bucket) (k : string)
  : Shard bucket * bool :=
  let sh := expireLocked l now sh in
  match keys sh !! k with
  | None =>
      if perShardCap l <=? Z.of_nat (size (keys sh)) then (sh, false)
      else (insert_bucket sh (MkBucket k now 1 0), true)
  | Some a =>
      match store sh !! a with
      | None => (sh, false)
      | Some b =>
          if due l now b then
            (renew_bucket sh a (fun b => MkBucket (key b) now 1 (heapIndex b)), true)
          else if limit l <=? count b then (sh, false)
          else (write_bucket sh a
                  (fun b => MkBucket (key b) (windowStart b) (count b + 1) (heapIndex b)), true)
      end
  end.

Definition Allow (ol : option Limiter) (now : Time) (k : string) : option Limiter * bool :=
  match ol with
  | None => (None, true)
  | Some l =>
      if negb (enabled l) || String.eqb k "" then (ol, true)
      else match shards l !! shard_index l k with
      | None => (ol, false)
      | Some sh =>
          let '(sh', ok) := allow_shard l now sh k in
          (Some (set_shards l (<[shard_index l k := sh']> (shards l))), ok)
      end
  end.

(** [Snapshot]: expire every shard, then the counts by key. *)
Definition shard_counts (sh : Shard bucket) : gmap string Z :=
  omap (fun a => count <$> store sh !! a) (keys sh).

Definition Snapshot (ol : option Limiter) (now : Time) : option Limiter * gmap string Z :=
  match ol with
  | None => (None, ∅)
  | Some l =>
      let shs := map (expireLocked l now) (shards l) in
      (Some (set_shards l shs), fold_left (fun out sh => shard_counts sh ∪ out) shs ∅)
  end.

Definition KeyCount (ol : option Limiter) : Z :=
  match ol with
  | None => 0
  | Some l => fold_left (fun total sh => total + Z.of_nat (size (keys sh))) (shards l) 0
  end.

(** A sequence of calls and their answers. *)
Fixpoint run (l : option Limiter) (calls : list (Time * string)) : option Limiter * list bool :=
  match calls with
  | [] => (l, [])
  | (now, k) :: rest =>
      let '(l', ok) := Allow l now k in
      let '(l'', oks) := run l' rest in (l'', ok :: oks)
  end.

(** ** The invariant *)

Definition shard_ok (l : Limiter) (sh : Shard bucket) : Prop :=
  inv sh
  /\ Z.of_nat (size (keys sh)) <= perShardCap l
  /\ (forall k b, find_bucket sh k = Some b -> 1 <= count b <= Z.max 1 (limit l)).

Definition limiter_ok (l : Limiter) : Prop :=
  (0 < length (shards l))%nat /\ 0 < window l <= max_int64 /\ Forall (shard_ok l) (shards l).

(** The window of a key, as a caller sees it. *)
Definition window_of (l : Limiter) (k : string) : option bucket :=
  shards l !! shard_index l k ≫= fun sh => find_bucket sh k.

Definition live (l : Limiter) (now : Time) (b : bucket) : Prop := now < windowStart b + window l.

Section ShardFacts.
Context (l : Limiter) (Hw : 0 < window l <= max_int64).

Lemma due_rank now b : due l now b = (bk_rank b <=? now - window l).
Proof.
  unfold due. rewrite TimeSub_le_pos by lia. simpl.
  destruct (Z.leb_spec (window l) (now - windowStart b)), (Z.leb_spec (windowStart b) (now - window l));
    lia.
Qed.

Lemma due_live now b : due l now b = false <-> live l now b.
Proof. rewrite due_rank. unfold live. simpl. rewrite Z.leb_gt. lia. Qed.

Lemma erase_due now b : due l now (erase b) = due l now b.
Proof. done. Qed.

(** What expiry does to the keys of a shard. *)
Lemma expire_facts now sh :
  shard_ok l sh ->
  shard_ok l (expireLocked l now sh)
  /\ (forall k b, find_bucket sh k = Some b -> live l now b ->
        find_bucket (expireLocked l now sh) k = Some b)
  /\ (forall k b, find_bucket (expireLocked l now sh) k = Some b -> find_bucket sh k = Some b)
  /\ ((exists k b, find_bucket sh k = Some b /\ ~ live l now b) ->
      Z.of_nat (size (keys (expireLocked l now sh))) < perShardCap l).
Proof.
  intros (Hi & Hc & Hb). unfold expireLocked.
  destruct (expire_inv (due l now) (now - window l) evictionBudget sh (due_rank now) Hi)
    as (E1 & E2 & E3 & E4).
  assert (forall k b, find_bucket (expire (due l now) evictionBudget sh) k = Some b ->
            find_bucket sh k = Some b) as Hback.
  { intros k b Hf. destruct (E2 k) as [E|(E & _)]; congruence. }
  split; [|split; [|split; [done|]]].
  - split; [done|]. split; [lia|]. eauto.
  - intros k b Hf Hl. destruct (E2 k) as [E|(E & b' & Hb' & Hr)]; [congruence|].
    simplify_eq. unfold live in Hl. simpl in Hr. lia.
  - intros (k & b & Hf & Hl). assert (0 < evictionBudget)%nat as Hn by (unfold evictionBudget; lia).
    unfold live in Hl. specialize (E4 Hn ltac:(exists k, b; split; [done|simpl; lia])). lia.
Qed.

(** The whole critical section, by what the key's bucket looks like. *)
Lemma allow_shard_facts now sh k sh' ok :
  shard_ok l sh -> allow_shard l now sh k = (sh', ok) ->
  shard_ok l sh'
  /\ (forall k' b, k' <> k -> find_bucket sh k' = Some b -> live l now b ->
        find_bucket sh' k' = Some b)
  /\ (forall b, find_bucket sh k = Some b -> live l now b ->
        ok = (count b <? limit l)
        /\ find_bucket sh' k
           = Some (if ok then MkBucket (key b) (windowStart b) (count b + 1) (heapIndex b) else b))
  /\ ((forall b, find_bucket sh k = Some b -> ~ live l now b) ->
        (exists k' b, find_bucket sh k' = Some b /\ ~ live l now b)
        \/ Z.of_nat (size (keys sh)) < perShardCap l ->
        ok = true /\ exists b, find_bucket sh' k = Some b /\ windowStart b = now /\ count b = 1).
Proof.
  intros Hok Ha. destruct (expire_facts now sh Hok) as (X1 & X2 & X3 & X4).
  unfold allow_shard in Ha. set (sx := expireLocked l now sh) in *.
  destruct X1 as (Xi & Xc & Xb). pose proof Xi as [Xw _].
  destruct (keys sx !! k) as [a|] eqn:Ek.
  - destruct (wf_keys sx Xw k a Ek) as (_ & b & Hb & Hkb). rewrite Hb in Ha.
    assert (find_bucket sx k = Some (erase b)) as Hf by (unfold find_bucket; rewrite Ek; simpl; by rewrite Hb).
    destruct (due l now b) eqn:Ed.
    + injection Ha as <- <-.
      destruct (renew_inv sx a (fun b => MkBucket (key b) now 1 (heapIndex b)) k Xi)
        as (R1 & (b0 & Hb0 & R2) & R3); [done|done|done|done|].
      split; [|split; [|split]].
      * split; [done|]. rewrite R3. split; [done|]. intros k' b' Hb'. rewrite R2 in Hb'.
        case_decide; [injection Hb' as <-; simpl; lia|by eapply Xb].
      * intros k' b' Hne Hb' Hl. rewrite R2, decide_False by done. by apply X2.
      * intros b' Hb' Hl. pose proof (X2 k b' Hb' Hl) as Hx. rewrite Hf in Hx. injection Hx as <-.
        apply due_live in Hl. change (due l now b = false) in Hl. congruence.
      * intros _ _. split; [done|]. eexists. rewrite R2, decide_True by done. done.
    + assert (live l now (erase b)) as Hlive by by apply due_live.
      assert (find_bucket sh k = Some (erase b)) as Hsh by by apply X3.
      destruct (Z.leb_spec (limit l) (count b)) as [Hle|Hlt]; injection Ha as <- <-.
      * split; [by split|]. split; [intros; by apply X2|]. split.
        -- intros b' Hb' _. simplify_eq. split; [symmetry; apply Z.ltb_ge; simpl; lia|done].
        -- intros Hdead. by destruct (Hdead _ Hsh).
      * set (f := fun b => MkBucket (key b) (windowStart b) (count b + 1) (heapIndex b)).
        pose proof (write_find sx a f k b Xw ltac:(done) Ek Hb) as Wf.
        split; [|split; [|split]].
        -- split; [by apply write_inv|]. split; [done|]. intros k' b' Hb'. rewrite Wf in Hb'.
           case_decide; [|by eapply Xb]. injection Hb' as <-. simpl.
           pose proof (Xb k _ Hf) as Hc. simpl in Hc. lia.
        -- intros k' b' Hne Hb' Hl. rewrite Wf, decide_False by done. by apply X2.
        -- intros b' Hb' _. simplify_eq. split; [symmetry; apply Z.ltb_lt; simpl; lia|].
           rewrite Wf, decide_True by done. done.
        -- intros Hdead. by destruct (Hdead _ Hsh).
  - assert (find_bucket sx k = None) as Hf by by apply find_none.
    destruct (Z.leb_spec (perShardCap l) (Z.of_nat (size (keys sx)))) as [Hle|Hlt];
      injection Ha as <- <-.
    + split; [by split|]. split; [intros; by apply X2|]. split.
      * intros b Hb Hl. pose proof (X2 k b Hb Hl). congruence.
      * intros _ [Hd|Hs]; [specialize (X4 Hd); lia|]. exfalso.
        unfold sx, expireLocked in Hle.
        destruct (expire_inv (due l now) (now - window l) evictionBudget sh (due_rank now)) as (_ & _ & E3 & _);
          [by destruct Hok|]. lia.
    + destruct (insert_inv sx (MkBucket k now 1 0) Xi Ek) as (I1 & I2 & I3). simpl in I2.
      split; [|split; [|split]].
      * split; [done|]. split; [lia|]. intros k' b' Hb'. rewrite I2 in Hb'.
        case_decide; [injection Hb' as <-; simpl; lia|by eapply Xb].
      * intros k' b' Hne Hb' Hl. rewrite I2, decide_False by done. by apply X2.
      * intros b Hb Hl. pose proof (X2 k b Hb Hl). congruence.
      * intros _ _. split; [done|]. eexists. rewrite I2, decide_True by done. done.
Qed.
End ShardFacts.

(** ** From shards to the limiter *)

Lemma shard_index_lt l k : (0 < length (shards l))%nat -> (shard_index l k < length (shards l))%nat.
Proof.
  intros H. unfold shard_index.
  pose proof (Z.mod_pos_bound (fnv1a k) (Z.of_nat (length (shards l))) ltac:(lia)). lia.
Qed.

Lemma limit_set l s : limit (set_shards l s) = limit l.
Proof. done. Qed.

Lemma shard_ok_set l s sh :
  length s = length (shards l) -> shard_ok l sh -> shard_ok (set_shards l s) sh.
Proof. intros Hlen. unfold shard_ok, perShardCap. simpl. by rewrite Hlen. Qed.

(** One call, seen from the limiter: the case where the call reaches a shard. *)
Lemma Allow_step l now k l' ok :
  limiter_ok l -> enabled l = true -> k <> ""%string -> Allow (Some l) now k = (l', ok) ->
  exists sh sh' l1, l' = Some l1 /\ shards l !! shard_index l k = Some sh /\ shard_ok l sh
    /\ allow_shard l now sh k = (sh', ok)
    /\ l1 = set_shards l (<[shard_index l k := sh']> (shards l)).
Proof.
  intros (Hn & Hw & Hall) He Hk Ha. unfold Allow in Ha. rewrite He in Ha.
  apply String.eqb_neq in Hk. rewrite Hk in Ha. simpl in Ha.
  destruct (lookup_lt_is_Some_2 (shards l) (shard_index l k)) as [sh Hsh]; [by apply shard_index_lt|].
  rewrite Hsh in Ha. destruct (allow_shard l now sh k) as [sh' ok'] eqn:Es. injection Ha as <- <-.
  exists sh, sh'. eexists. repeat (split; [done|]). split; [|done].
  rewrite Forall_forall in Hall. apply Hall. by eapply list_elem_of_lookup_2.
Qed.

Lemma Allow_idle l now k l' ok :
  enabled l = false \/ k = ""%string -> Allow (Some l) now k = (l', ok) -> l' = Some l /\ ok = true.
Proof.
  intros Hd Ha. unfold Allow in Ha. destruct Hd as [Hd| ->]; [rewrite Hd in Ha|].
  - simpl in Ha. by injection Ha as <- <-.
  - rewrite orb_true_r in Ha. by injection Ha as <- <-.
Qed.

Lemma window_of_set l k k' sh' :
  (0 < length (shards l))%nat ->
  window_of (set_shards l (<[shard_index l k := sh']> (shards l))) k'
  = if decide (shard_index l k' = shard_index l k) then find_bucket sh' k' else window_of l k'.
Proof.
  intros Hn. unfold window_of.
  assert (shard_index (set_shards l (<[shard_index l k := sh']> (shards l))) k' = shard_index l k') as ->
    by (unfold shard_index; simpl; by rewrite length_insert).
  simpl. case_decide as Hd.
  - rewrite Hd, list_lookup_insert_eq; [done|by apply shard_index_lt].
  - by rewrite list_lookup_insert_ne.
Qed.

(** The effect of one call on the windows of all keys. *)
Lemma Allow_facts l now k l' ok :
  limiter_ok l -> enabled l = true -> k <> ""%string -> Allow (Some l) now k = (l', ok) ->
  exists l1, l' = Some l1 /\ limiter_ok l1 /\ enabled l1 = true /\ limit l1 = limit l
    /\ window l1 = window l /\ perShardCap l1 = perShardCap l
    /\ length (shards l1) = length (shards l)
    /\ (forall k' b, k' <> k -> window_of l k' = Some b -> live l now b -> window_of l1 k' = Some b)
    /\ (forall b, window_of l k = Some b -> live l now b ->
          ok = (count b <? limit l) /\
          window_of l1 k
          = Some (if ok then MkBucket (key b) (windowStart b) (count b + 1) (heapIndex b) else b)).
Proof.
  intros Hl He Hk Ha. destruct (Allow_step l now k l' ok Hl He Hk Ha)
    as (sh & sh' & l1 & -> & Hsh & Hok & Hs & ->).
  destruct Hl as (Hn & Hw & Hall).
  destruct (allow_shard_facts l Hw now sh k sh' ok Hok Hs) as (F1 & F2 & F3 & _).
  assert (length (<[shard_index l k := sh']> (shards l)) = length (shards l)) as Hlen
    by apply length_insert.
  assert (window_of l k = find_bucket sh k) as Hwk by (unfold window_of; by rewrite Hsh).
  eexists. split; [done|]. split; [split; [|split]|].
  - simpl. lia.
  - done.
  - simpl. apply Forall_insert.
    + eapply Forall_impl; [exact Hall|]. intros s. by apply shard_ok_set.
    + by apply shard_ok_set.
  - do 3 (split; [done|]).
    split; [unfold perShardCap; simpl; by rewrite length_insert|]. split; [done|]. split.
    + intros k' b Hne Hf Hlv. rewrite window_of_set by done. case_decide as Hd; [|done].
      apply F2; [done| |done]. unfold window_of in Hf. rewrite Hd, Hsh in Hf. done.
    + intros b Hf Hlv. rewrite window_of_set, decide_True by done. apply F3; [|done]. by rewrite <- Hwk.
Qed.

Lemma New_ok profile en :
  Window profile <= max_int64 -> limiter_ok (New profile en).
Proof.
  intros Hw. split; [simpl; lia|]. split.
  - simpl. destruct (Z.leb_spec (Window profile) 0); [|lia].
    unfold Minute, Second, max_int64. lia.
  - change (shards (New profile en)) with (replicate defaultShards (empty_shard (B := bucket))).
    apply Forall_replicate. split; [apply empty_inv|]. split.
    + unfold perShardCap. simpl. vm_compute. done.
    + intros k b Hf. done.
Qed.

Lemma run_ok l calls l' oks :
  limiter_ok l -> run (Some l) calls = (l', oks) ->
  exists l1, l' = Some l1 /\ limiter_ok l1 /\ perShardCap l1 = perShardCap l
    /\ length (shards l1) = length (shards l).
Proof.
  revert l oks. induction calls as [|[now k] calls IH]; intros l oks Hl Hr; cbn [run] in Hr.
  { injection Hr as <- <-. by exists l. }
  destruct (Allow (Some l) now k) as [l2 ok] eqn:Ea.
  destruct (run l2 calls) as [l3 oks'] eqn:Er. injection Hr as <- <-.
  destruct (enabled l) eqn:He.
  - destruct (decide (k = ""%string)) as [Hk|Hk].
    + destruct (Allow_idle l now k l2 ok (or_intror Hk) Ea) as [-> ->]. by eapply IH.
    + destruct (Allow_facts l now k l2 ok Hl He Hk Ea) as (l1 & -> & H1 & _ & _ & _ & H2 & H3 & _).
      destruct (IH l1 oks' H1 Er) as (l4 & -> & H4 & H5 & H6). exists l4. by rewrite H5, H6.
  - destruct (Allow_idle l now k l2 ok (or_introl He) Ea) as [-> ->]. by eapply IH.
Qed.

Lemma KeyCount_bound l :
  limiter_ok l -> KeyCount (Some l) <= Z.of_nat (length (shards l)) * perShardCap l.
Proof.
  intros (_ & _ & Hall). unfold KeyCount.
  assert (forall t shs, Forall (shard_ok l) shs ->
    fold_left (fun total sh => total + Z.of_nat (size (keys sh))) shs t
    <= t + Z.of_nat (length shs) * perShardCap l) as H.
  { intros t shs Hs. revert t. induction Hs as [|sh shs (_ & Hc & _) _ IH]; intros t; simpl; [lia|].
    specialize (IH (t + Z.of_nat (size (keys sh)))). lia. }
  apply (H 0 _ Hall).
Qed.

(** ** Properties *)

(** From a fresh limiter, whatever the sequence of calls and clock values:
    the index by key and the expiry heap stay consistent and ordered, every
    counter stays within the limit, and the limiter never tracks more than
    its default capacity of 100000 keys. *)
Theorem limiter_reachable_ok (profile : RateLimitProfile) (en : bool) (calls : list (Time * string))
    (l' : option Limiter) (oks : list bool) :
  Window profile <= max_int64 ->
  run (Some (New profile en)) calls = (l', oks) ->
  exists l, l' = Some l /\ limiter_ok l /\ KeyCount l' <= defaultMaxKeys.
Proof.
  intros Hw Hr. destruct (run_ok _ _ _ _ (New_ok profile en Hw) Hr) as (l & -> & Hok & Hc & Hlen).
  exists l. split; [done|]. split; [done|].
  pose proof (KeyCount_bound l Hok) as Hb. rewrite Hc, Hlen in Hb.
  change (perShardCap (New profile en)) with 3125 in Hb.
  change (length (shards (New profile en))) with 32%nat in Hb.
  unfold defaultMaxKeys. lia.
Qed.

(** The number of granted calls of one key in a run. *)
Fixpoint granted (k : string) (calls : list (Time * string)) (oks : list bool) : Z :=
  match calls, oks with
  | (_, k') :: calls', ok :: oks' =>
      (if bool_decide (k' = k) && ok then 1 else 0) + granted k calls' oks'
  | _, _ => 0
  end.

Definition requests_of (k : string) (calls : list (Time * string)) : Z :=
  Z.of_nat (length (filter (fun c => c.2 = k) calls)).

(** C40. The quota of a window is exact. Once a key has an open window, the
    calls before its end are granted up to the limit and no further, however
    calls of other keys are interleaved: of [n] calls of the key, the first
    [limit - count] are granted and the others refused. *)
Theorem window_quota_exact (l : Limiter) (k : string) (b : bucket) (calls : list (Time * string)) :
  limiter_ok l -> enabled l = true -> k <> ""%string ->
  window_of l k = Some b ->
  Forall (fun c => c.1 < windowStart b + window l) calls ->
  granted k calls (run (Some l) calls).2
  = Z.min (requests_of k calls) (Z.max 0 (limit l - count b)).
Proof.
  intros Hl He Hk Hb Hc. revert l b Hl He Hb Hc.
  induction calls as [|[now k'] calls IH]; intros l b Hl He Hb Hc; cbn [run].
  { unfold requests_of. simpl. lia. }
  inversion Hc as [|? ? Hnow Hrest]; subst. simpl in Hnow.
  destruct (Allow (Some l) now k') as [l2 ok] eqn:Ea.
  destruct (run l2 calls) as [l3 oks] eqn:Er. cbn [snd granted].
  assert (requests_of k ((now, k') :: calls)
          = (if bool_decide (k' = k) then 1 else 0) + requests_of k calls) as ->.
  { unfold requests_of. rewrite filter_cons. simpl.
    case_decide as Hd; [rewrite bool_decide_eq_true_2 by done|rewrite bool_decide_eq_false_2 by done];
      simpl length; lia. }
  destruct (decide (k' = ""%string)) as [Hk0|Hk0].
  { destruct (Allow_idle l now k' l2 ok (or_intror Hk0) Ea) as [-> ->].
    rewrite bool_decide_eq_false_2 by congruence. simpl.
    pose proof (IH l b Hl He Hb Hrest) as HI. rewrite Er in HI. exact HI. }
  destruct (Allow_facts l now k' l2 ok Hl He Hk0 Ea)
    as (l1 & -> & L1 & L2 & L3 & L4 & _ & _ & Hother & Hself).
  destruct (decide (k' = k)) as [->|Hne].
  - rewrite bool_decide_eq_true_2 by done. destruct (Hself b Hb Hnow) as [Hok Hb'].
    assert (0 <= requests_of k calls) by (unfold requests_of; lia).
    destruct ok; symmetry in Hok; simpl.
    + apply Z.ltb_lt in Hok. rewrite <- L4 in Hrest.
      pose proof (IH l1 _ L1 L2 Hb' Hrest) as HI. rewrite Er, L3 in HI. simpl in HI. rewrite HI. lia.
    + apply Z.ltb_ge in Hok. rewrite <- L4 in Hrest.
      pose proof (IH l1 _ L1 L2 Hb' Hrest) as HI. rewrite Er, L3 in HI. simpl in HI. rewrite HI. lia.
  - rewrite bool_decide_eq_false_2 by done. simpl. rewrite <- L4 in Hrest.
    pose proof (IH l1 b L1 L2 (Hother k b ltac:(done) Hb Hnow) Hrest) as HI.
    rewrite Er, L3 in HI. simpl in HI. rewrite HI. lia.
Qed.

(** A new client is only turned away by a shard full of live windows: a
    key without a live window is granted, and its window starts now with one
    request counted, as soon as the shard has room or holds one finished
    window, whatever the other keys are. *)
Theorem finished_window_makes_room (l : Limiter) (now : Time) (k : string)
    (sh : Shard bucket) (l' : option Limiter) (ok : bool) :
  limiter_ok l -> enabled l = true -> k <> ""%string ->
  shards l !! shard_index l k = Some sh ->
  (forall b, find_bucket sh k = Some b -> ~ live l now b) ->
  (exists k' b, find_bucket sh k' = Some b /\ ~ live l now b)
    \/ Z.of_nat (size (keys sh)) < perShardCap l ->
  Allow (Some l) now k = (l', ok) ->
  ok = true /\ exists l1 b, l' = Some l1 /\ window_of l1 k = Some b
    /\ windowStart b = now /\ count b = 1.
Proof.
  intros Hl He Hk Hsh Hdead Hroom Ha.
  destruct (Allow_step l now k l' ok Hl He Hk Ha) as (sh0 & sh' & l1 & -> & Hsh0 & Hok & Hs & ->).
  simplify_eq. pose proof Hl as (Hn & Hw & _).
  destruct (allow_shard_facts l Hw now sh k sh' ok Hok Hs) as (_ & _ & _ & F4).
  destruct (F4 Hdead Hroom) as (-> & b & Hb & Hws & Hcb). split; [done|].
  eexists _, b. split; [done|]. by rewrite window_of_set, decide_True.
Qed.

(** Live quotas are never discarded or altered by other clients: while a
    key's window is open, a call of any other key leaves its start and its
    count as they are, even when the shard is full. *)
Theorem live_window_undisturbed (l : Limiter) (now : Time) (k k' : string) (b : bucket)
    (l' : option Limiter) (ok : bool) :
  limiter_ok l -> k' <> k -> window_of l k' = Some b -> live l now b ->
  Allow (Some l) now k = (l', ok) ->
  exists l1, l' = Some l1 /\ window_of l1 k' = Some b.
Proof.
  intros Hl Hne Hb Hlive Ha.
  destruct (enabled l) eqn:He; [destruct (decide (k = ""%string)) as [Hk|Hk]|].
  - destruct (Allow_idle l now k l' ok (or_intror Hk) Ha) as [-> _]. by exists l.
  - destruct (Allow_facts l now k l' ok Hl He Hk Ha) as (l1 & -> & _ & _ & _ & _ & _ & _ & Ho & _).
    exists l1. split; [done|]. by apply Ho.
  - destruct (Allow_idle l now k l' ok (or_introl He) Ha) as [-> _]. by exists l.
Qed.

(** ** A concrete limiter *)

Definition example_profile : RateLimitProfile := {| Requests := 2; Window := 60 * Second; Burst := 1 |}.
Definition example_calls : list (Time * string) := [(100, "10.0.0.1"); (200, "10.0.0.2"); (300, "10.0.0.1")]%string.
Definition example_limiter : Limiter :=
  match fst (run (Some (New example_profile true)) example_calls) with Some l => l | None => New example_profile true end.

Lemma example_limiter_ok : limiter_ok example_limiter.
Proof.
  assert (Hw : Window example_profile <= max_int64) by (vm_compute; discriminate).
  destruct (run (Some (New example_profile true)) example_calls) as [l' oks] eqn:Hr.
  destruct (run_ok _ _ _ _ (New_ok example_profile true Hw) Hr) as (l & -> & Hok & _).
  unfold example_limiter. rewrite Hr. exact Hok.
Qed.

Lemma limiter_reachable_ok_witness :
  exists l, fst (run (Some (New example_profile true)) example_calls) = Some l /\ limiter_ok l.
Proof.
  destruct (run (Some (New example_profile true)) example_calls) as [l' oks] eqn:Hr.
  destruct (limiter_reachable_ok example_profile true example_calls l' oks) as (l & -> & Hok & _).
  - vm_compute. discriminate.
  - exact Hr.
  - exists l. split; [reflexivity|exact Hok].
Defined.

Lemma window_quota_exact_witness :
  let calls := [(400, "10.0.0.1"); (500, "10.0.0.2"); (600, "10.0.0.1"); (700, "10.0.0.1")]%string in
  requests_of "10.0.0.1" calls = 3 /\ granted "10.0.0.1" calls (run (Some example_limiter) calls).2 = 1.
Proof.
  intros calls. split; [vm_compute; reflexivity|].
  rewrite (window_quota_exact example_limiter "10.0.0.1" (MkBucket "10.0.0.1" 100 2 0) calls).
  - vm_compute. reflexivity.
  - exact example_limiter_ok.
  - vm_compute. reflexivity.
  - discriminate.
  - vm_compute. reflexivity.
  - repeat constructor; vm_compute; reflexivity.
Defined.

Lemma finished_window_makes_room_witness :
  snd (Allow (Some example_limiter) (100 + 60 * Second) "10.0.0.1") = true.
Proof.
  destruct (Allow (Some example_limiter) (100 + 60 * Second) "10.0.0.1") as [l' ok] eqn:Ha.
  destruct (shards example_limiter !! shard_index example_limiter "10.0.0.1") as [sh|] eqn:Hsh.
  2:{ vm_compute in Hsh. discriminate Hsh. }
  destruct (finished_window_makes_room example_limiter (100 + 60 * Second) "10.0.0.1" sh l' ok) as [-> _].
  - exact example_limiter_ok.
  - vm_compute. reflexivity.
  - discriminate.
  - exact Hsh.
  - intros b Hb. assert (E : window_of example_limiter "10.0.0.1" = Some b) by (unfold window_of; rewrite Hsh; exact Hb).
    vm_compute in E. injection E as <-. vm_compute. intros H. discriminate H.
  - right. vm_compute in Hsh. injection Hsh as <-. vm_compute. reflexivity.
  - exact Ha.
  - reflexivity.
Defined.

Lemma live_window_undisturbed_witness :
  exists l1, fst (Allow (Some example_limiter) 400 "10.0.0.1") = Some l1
    /\ window_of l1 "10.0.0.2" = Some (MkBucket "10.0.0.2" 200 1 0).
Proof.
  destruct (Allow (Some example_limiter) 400 "10.0.0.1") as [l' ok] eqn:Ha.
  apply (live_window_undisturbed example_limiter 400 "10.0.0.1" "10.0.0.2" (MkBucket "10.0.0.2" 200 1 0) l' ok).
  - exact example_limiter_ok.
  - discriminate.
  - vm_compute. reflexivity.
  - vm_compute. reflexivity.
  - exact Ha.
Defined.
