(* ===== verification/Sandbox.v ===== *)
(** * Execution guards (internal/engine/site_admission.go, internal/engine/sandbox.go)

    The bounded per-site counter, the worker slots shared by the process, and
    [GuardContext] as a transition system: a call acquires a site permit and a
    slot, a worker goroutine runs the detector and gives both back when it
    exits, and the caller may have left long before. [guard_result] is the
    call seen from the pipeline. *)

From S2P Require Import Prelude GoText.

Open Scope list_scope.
Open Scope Z_scope.
Open Scope go_scope.

(** ** Errors

    An error value is its text and what [errors.Is] and [errors.As] answer
    about it: the overload sentinel, the two context errors, and the first
    [analysisIncompleteError] of its chain, as the values of its two methods. *)
Record GoError := {
  err_Text : string;
  is_overload : bool;
  is_deadline : bool;
  is_canceled : bool;
  err_incomplete : option (bool * string)
}.

Definition ErrDetectionOverload : GoError :=
  {| err_Text := "detection overload: too many in-flight guards"; is_overload := true;
     is_deadline := false; is_canceled := false; err_incomplete := None |}.
Definition DeadlineExceeded : GoError :=
  {| err_Text := "context deadline exceeded"; is_overload := false;
     is_deadline := true; is_canceled := false; err_incomplete := None |}.
Definition Canceled : GoError :=
  {| err_Text := "context canceled"; is_overload := false;
     is_deadline := false; is_canceled := true; err_incomplete := None |}.

(** What [ctx.Err()] returns once the context is done. *)
Inductive CtxError := CtxCanceled | CtxDeadline.

Definition ctx_error (e : CtxError) : GoError :=
  match e with CtxCanceled => Canceled | CtxDeadline => DeadlineExceeded end.

(** ** The per-site counter *)

Record siteAdmission := { maxActive : Z; maxSites : Z; bySite : gmap string Z }.

(** The owner of a token is the counter it was taken from. *)
Record siteAdmissionToken := { tok_site : string; tok_held : bool }.

Definition no_token : siteAdmissionToken := {| tok_site := ""; tok_held := false |}.

Definition set_bySite (a : siteAdmission) (m : gmap string Z) : siteAdmission :=
  {| maxActive := maxActive a; maxSites := maxSites a; bySite := m |}.

Definition acquire (a : siteAdmission) (siteID : string) : siteAdmission * siteAdmissionToken * bool :=
  let site := TrimSpace siteID in
  return (a, no_token, true) when String.eqb site "" ;;
  let active := default 0 (bySite a !! site) in
  return (a, no_token, true)
    when negb (has (bySite a) site) && (0 <? maxSites a)
         && (maxSites a <=? Z.of_nat (size (bySite a))) ;;
  return (a, no_token, false) when (0 <? maxActive a) && (maxActive a <=? active) ;;
  (set_bySite a (<[site := i64 (active + 1)]> (bySite a)),
   {| tok_site := site; tok_held := true |}, true).

Definition release (a : siteAdmission) (t : siteAdmissionToken) : siteAdmission :=
  return a when negb (tok_held t) || String.eqb (tok_site t) "" ;;
  let active := default 0 (bySite a !! tok_site t) in
  if active <=? 1 then set_bySite a (delete (tok_site t) (bySite a))
  else set_bySite a (<[tok_site t := active - 1]> (bySite a)).

(** ** GuardContext *)

Definition maxInflightGuards : Z := 128.
Definition maxInflightGuardsPerSite : Z := 64.

(** What the guarded function does: it returns, or it panics. *)
Inductive FnOut (T : Type) :=
| FReturn (res : T) (err : option GoError)
| FPanic (text : string).
Arguments FReturn {T} res err.
Arguments FPanic {T} text.

Definition truncate (s : string) (maxLen : nat) : string :=
  if (String.length s <=? maxLen)%nat then s
  else (String.substring 0 maxLen s ++ "...(truncated)")%string.

Definition newline : string := String (Ascii.ascii_of_nat 10) "".

(** The error made from a recovered panic value and the stack. *)
Definition panic_error (text : string) (stack : string) : GoError :=
  {| err_Text := ("detector panic recovered: " ++ text ++ newline ++ "stack: "
                  ++ truncate stack 500)%string;
     is_overload := false; is_deadline := false; is_canceled := false; err_incomplete := None |}.

Definition timeout_error : GoError :=
  {| err_Text := "detection deadline exceeded (2s): context deadline exceeded";
     is_overload := false; is_deadline := true; is_canceled := false; err_incomplete := None |}.

(** The ways a call of [GuardContext] ends, and what it returns: [zero] is
    the zero value of the result type, [stack] what [debug.Stack] printed. *)
Inductive GuardFate :=
| GCtxAtEntry (e : CtxError)      (* ctx.Err() before anything *)
| GSiteFull                      (* no site permit *)
| GSlotsFull                     (* no worker slot *)
| GCtxAtStart (e : CtxError)      (* the worker saw the cancellation first *)
| GCompleted (stack : string)    (* the worker delivered *)
| GCtxWhileRunning (e : CtxError) (* the caller left on ctx.Done() *)
| GTimeout.                      (* the caller left after two seconds *)

Definition guard_result {T} (zero : T) (f : GuardFate) (out : FnOut T) : T * option GoError :=
  match f with
  | GCtxAtEntry e | GCtxAtStart e | GCtxWhileRunning e => (zero, Some (ctx_error e))
  | GSiteFull | GSlotsFull => (zero, Some ErrDetectionOverload)
  | GTimeout => (zero, Some timeout_error)
  | GCompleted stack =>
      match out with
      | FReturn res err => (res, err)
      | FPanic text => (zero, Some (panic_error text stack))
      end
  end.

(** ** The pool of guarded calls *)

(** The worker goroutine of a call: about to check the context, inside [fn],
    unwinding with the site permit, unwinding with the slot only, gone. *)
Inductive Worker := WReady | WRunning | WExiting | WReleased | WGone.

#[export] Instance Worker_eq_dec : EqDecision Worker.
Proof. solve_decision. Defined.

Record GuardCall (T : Type) := {
  gc_token : siteAdmissionToken;
  gc_worker : Worker;
  gc_done : option (T * option GoError);    (* the one-slot result channel *)
  gc_caller : option (T * option GoError)   (* what the caller returned *)
}.
Arguments gc_token {T} g.
Arguments gc_worker {T} g.
Arguments gc_done {T} g.
Arguments gc_caller {T} g.

Record GuardPool (T : Type) := {
  guardSlots : Z;                           (* slots taken of maxInflightGuards *)
  guardSiteAdmissions : siteAdmission;
  calls : gmap nat (GuardCall T)
}.
Arguments guardSlots {T} g.
Arguments guardSiteAdmissions {T} g.
Arguments calls {T} g.

Inductive GuardOp :=
| OpEnter (id : nat) (site : string) (ctxErr : option CtxError)
| OpStart (id : nat) (ctxErr : option CtxError)
| OpFinish (id : nat) (stack : string)
| OpReleaseSite (id : nat)
| OpFreeSlot (id : nat)
| OpReceive (id : nat)
| OpLeaveCtx (id : nat) (e : CtxError)
| OpLeaveTimeout (id : nat).

Section Pool.
Context {T : Type} (zero : T) (fn : nat -> FnOut T).

Definition empty_pool : GuardPool T :=
  {| guardSlots := 0;
     guardSiteAdmissions := {| maxActive := maxInflightGuardsPerSite; maxSites := 1024; bySite := ∅ |};
     calls := ∅ |}.

Definition set_call (p : GuardPool T) (id : nat) (c : GuardCall T) : GuardPool T :=
  {| guardSlots := guardSlots p; guardSiteAdmissions := guardSiteAdmissions p;
     calls := <[id := c]> (calls p) |}.

Definition with_worker (c : GuardCall T) (w : Worker) : GuardCall T :=
  {| gc_token := gc_token c; gc_worker := w; gc_done := gc_done c; gc_caller := gc_caller c |}.

(** [select { case done <- out: default: }] and on to the deferred calls. *)
Definition deliver (c : GuardCall T) (out : T * option GoError) : GuardCall T :=
  {| gc_token := gc_token c; gc_worker := WExiting;
     gc_done := match gc_done c with None => Some out | full => full end;
     gc_caller := gc_caller c |}.

Definition caller_returns (c : GuardCall T) (out : T * option GoError) : GuardCall T :=
  {| gc_token := gc_token c; gc_worker := gc_worker c; gc_done := gc_done c;
     gc_caller := Some out |}.

(** A call that ended before a goroutine was started for it. *)
Definition refused (e : GoError) : GuardCall T :=
  {| gc_token := no_token; gc_worker := WGone; gc_done := None;
     gc_caller := Some (zero, Some e) |}.

Definition enter (p : GuardPool T) (id : nat) (site : string) (ctxErr : option CtxError) : GuardPool T :=
  match ctxErr with
  | Some e => set_call p id (refused (ctx_error e))
  | None =>
      let '(adm, token, admitted) := acquire (guardSiteAdmissions p) site in
      if negb admitted then set_call p id (refused ErrDetectionOverload)
      else if guardSlots p <? maxInflightGuards then
        {| guardSlots := guardSlots p + 1; guardSiteAdmissions := adm;
           calls := <[id := {| gc_token := token; gc_worker := WReady;
                               gc_done := None; gc_caller := None |}]> (calls p) |}
      else
        {| guardSlots := guardSlots p; guardSiteAdmissions := release adm token;
           calls := <[id := refused ErrDetectionOverload]> (calls p) |}
  end.

(** One atomic step of a caller or of a worker; [None] when it is not
    enabled. [fn id] is what the function of call [id] does. *)
Definition guard_step (p : GuardPool T) (op : GuardOp) : option (GuardPool T) :=
  match op with
  | OpEnter id site ctxErr =>
      match calls p !! id with Some _ => None | None => Some (enter p id site ctxErr) end
  | OpStart id ctxErr =>
      match calls p !! id with
      | Some c =>
          match gc_worker c with
          | WReady =>
              Some (set_call p id
                      (match ctxErr with
                       | Some e => deliver c (zero, Some (ctx_error e))
                       | None => with_worker c WRunning
                       end))
          | _ => None
          end
      | None => None
      end
  | OpFinish id stack =>
      match calls p !! id with
      | Some c =>
          match gc_worker c with
          | WRunning => Some (set_call p id (deliver c (guard_result zero (GCompleted stack) (fn id))))
          | _ => None
          end
      | None => None
      end
  | OpReleaseSite id =>
      match calls p !! id with
      | Some c =>
          match gc_worker c with
          | WExiting =>
              Some {| guardSlots := guardSlots p;
                      guardSiteAdmissions := release (guardSiteAdmissions p) (gc_token c);
                      calls := <[id := with_worker c WReleased]> (calls p) |}
          | _ => None
          end
      | None => None
      end
  | OpFreeSlot id =>
      match calls p !! id with
      | Some c =>
          match gc_worker c with
          | WReleased =>
              Some {| guardSlots := guardSlots p - 1;
                      guardSiteAdmissions := guardSiteAdmissions p;
                      calls := <[id := with_worker c WGone]> (calls p) |}
          | _ => None
          end
      | None => None
      end
  | OpReceive id =>
      match calls p !! id with
      | Some c =>
          match gc_caller c, gc_done c with
          | None, Some out =>
              Some (set_call p id {| gc_token := gc_token c; gc_worker := gc_worker c;
                                     gc_done := None; gc_caller := Some out |})
          | _, _ => None
          end
      | None => None
      end
  | OpLeaveCtx id e =>
      match calls p !! id with
      | Some c =>
          match gc_caller c with
          | None => Some (set_call p id (caller_returns c (zero, Some (ctx_error e))))
          | Some _ => None
          end
      | None => None
      end
  | OpLeaveTimeout id =>
      match calls p !! id with
      | Some c =>
          match gc_caller c with
          | None => Some (set_call p id (caller_returns c (zero, Some timeout_error)))
          | Some _ => None
          end
      | None => None
      end
  end.

Fixpoint guard_run (p : GuardPool T) (ops : list GuardOp) : option (GuardPool T) :=
  match ops with
  | [] => Some p
  | op :: ops => match guard_step p op with Some p' => guard_run p' ops | None => None end
  end.
End Pool.

(** ** Properties of the counter *)

(** How many calls of a pool satisfy [P]. *)
Definition count {A} (P : A -> bool) (m : gmap nat A) : Z :=
  Z.of_nat (size (filter (fun kv : nat * A => P kv.2 = true) m)).

Definition b2z (b : bool) : Z := if b then 1 else 0.

Lemma count_empty {A} (P : A -> bool) : count P ∅ = 0.
Proof. unfold count. by rewrite map_filter_empty. Qed.

Lemma count_insert_None {A} (P : A -> bool) m k v :
  m !! k = None -> count P (<[k:=v]> m) = count P m + b2z (P v).
Proof.
  intros Hk. unfold count. destruct (P v) eqn:E; simpl.
  - rewrite map_filter_insert_True by done. rewrite map_size_insert_None; [lia|].
    apply map_lookup_filter_None_2. by left.
  - rewrite map_filter_insert_not' by (simpl; congruence). lia.
Qed.

Lemma count_delete {A} (P : A -> bool) m k v :
  m !! k = Some v -> count P m = count P (delete k m) + b2z (P v).
Proof.
  intros Hk. rewrite <- (insert_delete_id m k v) at 1 by done.
  apply count_insert_None, lookup_delete_eq.
Qed.

Lemma count_insert_Some {A} (P : A -> bool) m k v w :
  m !! k = Some w -> count P (<[k:=v]> m) = count P m - b2z (P w) + b2z (P v).
Proof.
  intros Hk. rewrite (count_delete P m k w Hk).
  rewrite <- insert_delete_eq, count_insert_None by apply lookup_delete_eq. lia.
Qed.

Lemma count_nonneg {A} (P : A -> bool) m : 0 <= count P m.
Proof. unfold count. lia. Qed.

Lemma count_zero {A} (P : A -> bool) m : (forall k v, m !! k = Some v -> P v = false) -> count P m = 0.
Proof.
  intros H. unfold count. assert (E : filter (fun kv : nat * A => P kv.2 = true) m = ∅); [|by rewrite E]. apply map_empty.
  intros k. apply map_lookup_filter_None_2. destruct (m !! k) as [v|] eqn:E; [right|by left].
  intros w [= <-]. simpl. rewrite (H k v E). done.
Qed.

Lemma count_pos {A} (P : A -> bool) m k v : m !! k = Some v -> P v = true -> 0 < count P m.
Proof.
  intros Hk Hv. rewrite (count_delete P m k v Hk), Hv. simpl.
  pose proof (count_nonneg P (delete k m)). lia.
Qed.

(** The counter of a site that has none counts zero. *)
Definition site_count (a : siteAdmission) (s : string) : Z := default 0 (bySite a !! s).

Definition holds_token (t : siteAdmissionToken) (s : string) : bool :=
  tok_held t && String.eqb (tok_site t) s.

(** Every registered site is in use and within its quota, and the registry
    is bounded. *)
Record admission_ok (a : siteAdmission) : Prop := {
  ao_active : 0 < maxActive a < max_int64;
  ao_sites : 0 < maxSites a;
  ao_counts : forall s n, bySite a !! s = Some n -> 1 <= n <= maxActive a;
  ao_size : Z.of_nat (size (bySite a)) <= maxSites a
}.

Lemma site_count_le a s : admission_ok a -> 0 <= site_count a s <= maxActive a.
Proof.
  intros H. unfold site_count. pose proof (ao_active a H).
  destruct (bySite a !! s) as [n|] eqn:E; simpl; [|lia].
  pose proof (ao_counts a H s n E). lia.
Qed.

Lemma acquire_spec a site a' t ok :
  admission_ok a -> acquire a site = (a', t, ok) ->
  admission_ok a' /\ maxActive a' = maxActive a /\ maxSites a' = maxSites a
  /\ (forall s, site_count a' s = site_count a s + b2z (holds_token t s))
  /\ (tok_held t = true -> tok_site t <> ""%string)
  /\ (ok = false -> a' = a /\ t = no_token).
Proof.
  intros Ha. unfold acquire. cbv zeta. set (st := TrimSpace site).
  destruct (String.eqb st "") eqn:E0;
    [|destruct (_ && (0 <? maxSites a) && _) eqn:E1; [|destruct ((0 <? maxActive a) && _) eqn:E2]].
  1-3: intros ?; simplify_eq; split_and!; try done; intros s; simpl; lia.
  intros ?; simplify_eq. props. simpl. pose proof (ao_active a Ha) as Hm.
  set (n := default 0 (bySite a !! st)) in *.
  assert (Hn : 0 <= n < maxActive a).
  { pose proof (site_count_le a st Ha) as B. unfold site_count in B. fold n in B.
    split; [lia|]. destruct (Z.ltb_spec 0 (maxActive a)); [|lia]. simpl in E2.
    by apply Z.leb_gt in E2. }
  rewrite i64_small by (unfold in_i64, min_int64; lia).
  split_and!; [|done|done| |done|done].
  - constructor; simpl; [done|apply Ha| |].
    + intros s k. destruct (decide (s = st)) as [->|Hs].
      * rewrite lookup_insert_eq. intros [= <-]. lia.
      * rewrite lookup_insert_ne by done. apply (ao_counts a Ha).
    + rewrite map_size_insert. pose proof (ao_size a Ha). pose proof (ao_sites a Ha).
      destruct (bySite a !! st) eqn:El; [done|].
      apply has_false in El. rewrite El in E1. simpl in E1.
      destruct (Z.ltb_spec 0 (maxSites a)); [|lia]. simpl in E1. apply Z.leb_gt in E1. lia.
  - intros s. unfold site_count, holds_token. simpl.
    destruct (String.eqb_spec st s) as [<-|Hs]; simpl.
    + by rewrite lookup_insert_eq.
    + rewrite lookup_insert_ne by done. lia.
Qed.

Lemma release_spec a t :
  admission_ok a ->
  (tok_held t = true -> tok_site t <> ""%string /\ 0 < site_count a (tok_site t)) ->
  let a' := release a t in
  admission_ok a' /\ maxActive a' = maxActive a /\ maxSites a' = maxSites a
  /\ (forall s, site_count a' s = site_count a s - b2z (holds_token t s)).
Proof.
  intros Ha Ht. unfold release, holds_token. simpl.
  destruct (tok_held t); simpl; [|split_and!; try done; intros s; simpl; lia].
  destruct (Ht eq_refl) as [Hs Hc]. clear Ht.
  destruct (String.eqb_spec (tok_site t) "") as [?|_]; [done|].
  unfold site_count in Hc. destruct (bySite a !! tok_site t) as [n|] eqn:El; simpl in *; [|lia].
  pose proof (ao_counts a Ha _ _ El). pose proof (ao_size a Ha).
  destruct (Z.leb_spec n 1); split_and!; try done.
  - constructor; simpl; try apply Ha.
    + intros s k [_ Hk]%lookup_delete_Some. by apply (ao_counts a Ha s).
    + rewrite map_size_delete, El. simpl. lia.
  - intros s. unfold site_count. simpl. destruct (String.eqb_spec (tok_site t) s) as [<-|Hne].
    + rewrite lookup_delete_eq, El. simpl. lia.
    + rewrite lookup_delete_ne by done. simpl. lia.
  - constructor; simpl; try apply Ha.
    + intros s k. destruct (decide (s = tok_site t)) as [->|Hne].
      * rewrite lookup_insert_eq. intros [= <-]. lia.
      * rewrite lookup_insert_ne by done. apply (ao_counts a Ha).
    + rewrite map_size_insert_Some by eauto. done.
  - intros s. unfold site_count. simpl. destruct (String.eqb_spec (tok_site t) s) as [<-|Hne].
    + rewrite lookup_insert_eq, El. simpl. lia.
    + rewrite lookup_insert_ne by done. simpl. lia.
Qed.

(** ** Properties of the pool *)

Definition holds_slot {T} (c : GuardCall T) : bool := negb (bool_decide (gc_worker c = WGone)).

Definition holds_site {T} (s : string) (c : GuardCall T) : bool :=
  holds_token (gc_token c) s
  && match gc_worker c with WReady | WRunning | WExiting => true | _ => false end.

Lemma holds_slot_worker {T} (c : GuardCall T) w :
  gc_worker c = w -> holds_slot c = negb (bool_decide (w = WGone)).
Proof. by intros <-. Qed.

Lemma holds_site_worker {T} s (c : GuardCall T) w :
  gc_worker c = w ->
  holds_site s c = holds_token (gc_token c) s
                   && match w with WReady | WRunning | WExiting => true | _ => false end.
Proof. by intros <-. Qed.

(** The worker is past the detector. *)
Definition exited {T} (c : GuardCall T) : bool :=
  match gc_worker c with WReady | WRunning => false | _ => true end.

Section PoolFacts.
Context {T : Type} (zero : T) (fn : nat -> FnOut T).

Notation step := (guard_step zero fn).
Notation run := (guard_run zero fn).

(** A value the caller of [id] may return. *)
Definition explained (id : nat) (r : T * option GoError) : Prop :=
  exists fate, r = guard_result zero fate (fn id).

Record call_ok (id : nat) (c : GuardCall T) : Prop := {
  co_token : tok_held (gc_token c) = true -> tok_site (gc_token c) <> ""%string;
  co_done : forall r, gc_done c = Some r -> explained id r;
  co_caller : forall r, gc_caller c = Some r -> explained id r;
  co_delivered : exited c = true -> gc_caller c = None -> is_Some (gc_done c)
}.

Record pool_ok (p : GuardPool T) : Prop := {
  po_slots : guardSlots p = count holds_slot (calls p);
  po_bound : guardSlots p <= maxInflightGuards;
  po_adm : admission_ok (guardSiteAdmissions p);
  po_active : maxActive (guardSiteAdmissions p) = maxInflightGuardsPerSite;
  po_maxSites : maxSites (guardSiteAdmissions p) = 1024;
  po_sites : forall s, site_count (guardSiteAdmissions p) s = count (holds_site s) (calls p);
  po_calls : forall id c, calls p !! id = Some c -> call_ok id c
}.

Lemma empty_pool_ok : pool_ok empty_pool.
Proof.
  by constructor.
Qed.

(** A step that keeps the permits of every call. *)
Lemma keep_ok p id c c' :
  pool_ok p -> calls p !! id = Some c -> call_ok id c' ->
  holds_slot c' = holds_slot c -> (forall s, holds_site s c' = holds_site s c) ->
  pool_ok (set_call p id c').
Proof.
  intros [H1 H2 H3 H4 H5 H6 H7] Hc Hok Hslot Hsite. constructor; simpl; try done.
  - rewrite (count_insert_Some _ _ _ _ c) by done. rewrite Hslot. lia.
  - intros s. rewrite (count_insert_Some _ _ _ _ c) by done. rewrite Hsite, H6. lia.
  - intros id' d [[<- <-]|[_ Hd]]%lookup_insert_Some; [done|by apply H7].
Qed.

Lemma refused_ok id e :
  (exists fate, (zero, Some e) = guard_result zero fate (fn id)) -> call_ok id (refused zero e).
Proof. intros H. constructor; simpl; [done|done| |done]. by intros r [= <-]. Qed.

Lemma refuse_ok p id e :
  pool_ok p -> calls p !! id = None ->
  (exists fate, (zero, Some e) = guard_result zero fate (fn id)) ->
  pool_ok (set_call p id (refused zero e)).
Proof.
  intros [H1 H2 H3 H4 H5 H6 H7] Hid He. constructor; simpl; try done.
  - rewrite count_insert_None by done. change (holds_slot (refused zero e)) with false. simpl. lia.
  - intros s. rewrite count_insert_None by done. rewrite H6.
    change (holds_site s (refused zero e)) with false. simpl. lia.
  - intros id' d [[<- <-]|[_ Hd]]%lookup_insert_Some; [by apply refused_ok|by apply H7].
Qed.

Lemma release_after_acquire a site a' t ok :
  admission_ok a -> acquire a site = (a', t, ok) ->
  admission_ok (release a' t) /\ maxActive (release a' t) = maxActive a
  /\ maxSites (release a' t) = maxSites a
  /\ (forall s, site_count (release a' t) s = site_count a s).
Proof.
  intros Ha H. destruct (acquire_spec _ _ _ _ _ Ha H) as (Ha' & Hm & Hs & Hc & Ht & _).
  destruct (release_spec a' t Ha') as (Hr & Hm' & Hs' & Hc').
  { intros Hh. split; [by apply Ht|]. rewrite Hc. pose proof (site_count_le a (tok_site t) Ha).
    unfold holds_token. rewrite Hh, String.eqb_refl. simpl. lia. }
  split_and!; [done|congruence|congruence|]. intros s. rewrite Hc', Hc. lia.
Qed.

Lemma enter_ok p id site ctxErr :
  pool_ok p -> calls p !! id = None -> pool_ok (enter zero p id site ctxErr).
Proof.
  intros Hp Hid. pose proof Hp as [H1 H2 H3 H4 H5 H6 H7]. unfold enter.
  destruct ctxErr as [e|].
  { apply refuse_ok; try done. by exists (GCtxAtEntry e). }
  destruct (acquire _ site) as [[a t] ok] eqn:Ea.
  destruct (acquire_spec _ _ _ _ _ H3 Ea) as (Ha & Hm & Hs & Hc & Ht & _).
  destruct ok; simpl.
  2: { apply refuse_ok; try done. by exists GSiteFull. }
  destruct (Z.ltb_spec (guardSlots p) maxInflightGuards).
  - constructor; simpl; try lia; try done.
    + rewrite count_insert_None by done. change (holds_slot _) with true. simpl. lia.
    + intros s. rewrite count_insert_None, Hc, H6 by done.
      change (holds_site s _) with (holds_token t s && true). by rewrite andb_true_r.
    + intros id' d [[<- <-]|[_ Hd]]%lookup_insert_Some; [|by apply H7]. by constructor.
  - destruct (release_after_acquire _ _ _ _ _ H3 Ea) as (Hr & Hrm & Hrs & Hrc).
    destruct (refuse_ok p id ErrDetectionOverload Hp Hid) as [R1 R2 R3 R4 R5 R6 R7].
    { by exists GSlotsFull. }
    constructor; simpl in *; try done; try congruence.
    all: try (intros s; rewrite Hrc; apply R6).
Qed.

(** A worker gives its permits back one after the other. *)
Lemma release_site_ok p id c :
  pool_ok p -> calls p !! id = Some c -> gc_worker c = WExiting ->
  pool_ok {| guardSlots := guardSlots p;
             guardSiteAdmissions := release (guardSiteAdmissions p) (gc_token c);
             calls := <[id := with_worker c WReleased]> (calls p) |}.
Proof.
  intros [H1 H2 H3 H4 H5 H6 H7] Hc Hw. pose proof (H7 _ _ Hc) as [Ct Cd Cc Cx].
  destruct (release_spec _ (gc_token c) H3) as (Hr & Hm & Hs & Hcnt).
  { intros Hh. split; [by apply Ct|]. rewrite H6. apply (count_pos _ _ id c Hc).
    unfold holds_site, holds_token. by rewrite Hh, String.eqb_refl, Hw. }
  constructor; simpl; try done; try congruence.
  - rewrite (count_insert_Some _ _ _ _ c), (holds_slot_worker c _ Hw) by done.
    change (holds_slot (with_worker c WReleased)) with true. simpl. lia.
  - intros s. rewrite (count_insert_Some _ _ _ _ c) by done. rewrite Hcnt, H6.
    rewrite (holds_site_worker s c _ Hw), (holds_site_worker s (with_worker c _) WReleased),
      andb_true_r, andb_false_r by done. simpl. lia.
  - intros id' d [[<- <-]|[_ Hd]]%lookup_insert_Some; [|by apply H7].
    constructor; simpl; try done. intros _. apply Cx. unfold exited. by rewrite Hw.
Qed.

Lemma free_slot_ok p id c :
  pool_ok p -> calls p !! id = Some c -> gc_worker c = WReleased ->
  pool_ok {| guardSlots := guardSlots p - 1; guardSiteAdmissions := guardSiteAdmissions p;
             calls := <[id := with_worker c WGone]> (calls p) |}.
Proof.
  intros [H1 H2 H3 H4 H5 H6 H7] Hc Hw. pose proof (H7 _ _ Hc) as [Ct Cd Cc Cx].
  constructor; simpl; try done; try lia.
  - rewrite (count_insert_Some _ _ _ _ c), (holds_slot_worker c _ Hw) by done.
    change (holds_slot (with_worker c WGone)) with false. simpl. lia.
  - intros s. rewrite (count_insert_Some _ _ _ _ c) by done. rewrite H6.
    rewrite (holds_site_worker s c _ Hw), (holds_site_worker s (with_worker c _) WGone),
      !andb_false_r by done. simpl. lia.
  - intros id' d [[<- <-]|[_ Hd]]%lookup_insert_Some; [|by apply H7].
    constructor; simpl; try done. intros _. apply Cx. unfold exited. by rewrite Hw.
Qed.

Lemma deliver_ok id c r :
  call_ok id c -> explained id r -> call_ok id (deliver c r).
Proof.
  intros [Ct Cd Cc Cx] Hr. constructor; simpl; try done.
  - destruct (gc_done c) eqn:E; [exact Cd|]. by intros r' [= <-].
  - destruct (gc_done c); eauto.
Qed.

Lemma leave_ok id c r : call_ok id c -> explained id r -> call_ok id (caller_returns c r).
Proof. intros [Ct Cd Cc Cx] Hr. constructor; simpl; try done. by intros r' [= <-]. Qed.

Lemma step_ok p op p' : pool_ok p -> step p op = Some p' -> pool_ok p'.
Proof.
  intros Hp H. destruct op as [id site ce|id ce|id st|id|id|id|id e|id]; simpl in H;
    destruct (calls p !! id) as [c|] eqn:Hc; try discriminate;
    try (injection H as <-; by apply enter_ok);
    pose proof (po_calls p Hp _ _ Hc) as Hok.
  - destruct (gc_worker c) eqn:Hw; try discriminate. injection H as <-.
    destruct ce as [e|]; apply (keep_ok _ _ c); try done;
      try (intros s); unfold holds_slot, holds_site; simpl; rewrite ?Hw; try done.
    + apply deliver_ok; [done|by exists (GCtxAtStart e)].
    + destruct Hok. by constructor.
  - destruct (gc_worker c) eqn:Hw; try discriminate. injection H as <-.
    apply (keep_ok _ _ c); try done;
      try (intros s); unfold holds_slot, holds_site; simpl; rewrite ?Hw; try done.
    apply deliver_ok; [done|by exists (GCompleted st)].
  - destruct (gc_worker c) eqn:Hw; try discriminate. injection H as <-. by apply release_site_ok.
  - destruct (gc_worker c) eqn:Hw; try discriminate. injection H as <-. by apply free_slot_ok.
  - destruct (gc_caller c) eqn:Hcl; try discriminate.
    destruct (gc_done c) eqn:Hd; try discriminate. injection H as <-.
    apply (keep_ok _ _ c); try done. destruct Hok as [Ct Cd Cc Cx]. constructor; simpl; try done.
    intros r [= <-]. by apply Cd.
  - destruct (gc_caller c) eqn:Hcl; try discriminate. injection H as <-.
    apply (keep_ok _ _ c); try done. apply leave_ok; [done|by exists (GCtxWhileRunning e)].
  - destruct (gc_caller c) eqn:Hcl; try discriminate. injection H as <-.
    apply (keep_ok _ _ c); try done. apply leave_ok; [done|by exists GTimeout].
Qed.

Lemma pool_run_ok ops p p' : pool_ok p -> run p ops = Some p' -> pool_ok p'.
Proof.
  revert p. induction ops as [|op ops IH]; simpl; intros p Hp H; [by injection H as <-|].
  destruct (guard_step zero fn p op) as [q|] eqn:E; [|done]. apply (IH q); [|done]. by eapply step_ok.
Qed.

(** The worker and the caller of a call are both through. *)
Definition finished (c : GuardCall T) : bool :=
  bool_decide (gc_worker c = WGone) && bool_decide (is_Some (gc_caller c)).

(** What call [id] can still do on its own, whatever the others do. *)
Definition next_op (id : nat) (c : GuardCall T) : GuardOp :=
  match gc_worker c with
  | WReady => OpStart id None
  | WRunning => OpFinish id ""
  | WExiting => OpReleaseSite id
  | WReleased => OpFreeSlot id
  | WGone => OpReceive id
  end.

(** How many of these steps are left. *)
Definition remaining (c : GuardCall T) : nat :=
  match gc_worker c with
  | WReady => 5 | WRunning => 4 | WExiting => 3 | WReleased => 2
  | WGone => if bool_decide (is_Some (gc_caller c)) then 0 else 1
  end.

Lemma next_op_enabled p id c :
  call_ok id c -> calls p !! id = Some c -> finished c = false ->
  exists p' c', step p (next_op id c) = Some p' /\ calls p' = <[id := c']> (calls p)
                /\ (remaining c' < remaining c)%nat.
Proof.
  intros Hok Hc Hf. unfold next_op, remaining, finished in *.
  destruct (gc_worker c) eqn:Hw; unfold guard_step; rewrite Hc, ?Hw; simpl in *.
  1-4: eexists _, _; split_and!; [reflexivity|reflexivity|simpl].
  1-3: lia.
  - destruct (bool_decide _); lia.
  - destruct (gc_caller c) eqn:Hcl; [done|].
    destruct (co_delivered id c Hok) as [r Hr]; [unfold exited; by rewrite Hw|done|]. rewrite Hr.
    eexists _, _. split_and!; [reflexivity|reflexivity|]. simpl. lia.
Qed.

Lemma pool_run_app ops1 ops2 p p1 :
  run p ops1 = Some p1 -> run p (ops1 ++ ops2) = run p1 ops2.
Proof.
  revert p. induction ops1 as [|op ops1 IH]; simpl; intros p H; [by injection H as <-|].
  destruct (guard_step zero fn p op); [by apply IH|done].
Qed.

Lemma finish_call n p id c :
  (remaining c < n)%nat -> pool_ok p -> calls p !! id = Some c ->
  exists ops p' c', run p ops = Some p' /\ calls p' = <[id := c']> (calls p) /\ finished c' = true.
Proof.
  revert p c. induction n as [|n IH]; intros p c Hn Hp Hc; [lia|].
  destruct (finished c) eqn:Hf.
  { exists [], p, c. by rewrite insert_id. }
  destruct (next_op_enabled p id c (po_calls p Hp _ _ Hc) Hc Hf) as (q & d & Hs & Hq & Hd).
  destruct (IH q d) as (ops & p' & c' & Hr & Hc' & Hf'); [lia|by eapply step_ok| |].
  { by rewrite Hq, lookup_insert_eq. }
  exists (next_op id c :: ops), p', c'. simpl. rewrite Hs.
  split_and!; [done| |done]. by rewrite Hc', Hq, insert_insert_eq.
Qed.

Definition drained (p : GuardPool T) : Prop :=
  forall id c, calls p !! id = Some c -> finished c = true.

(** Nothing is held once every call is through. *)
Lemma drained_free p :
  pool_ok p -> drained p -> guardSlots p = 0 /\ bySite (guardSiteAdmissions p) = ∅.
Proof.
  intros Hp Hd. pose proof Hp as [H1 _ H3 _ _ H6 _].
  assert (Hgone : forall id c, calls p !! id = Some c -> gc_worker c = WGone).
  { intros id c Hc. pose proof (Hd id c Hc) as Hf. unfold finished in Hf. by props. }
  split.
  - rewrite H1. apply count_zero. intros id c Hc. by rewrite (holds_slot_worker c _ (Hgone id c Hc)).
  - apply map_empty. intros s. destruct (bySite _ !! s) as [k|] eqn:E; [|done].
    pose proof (ao_counts _ H3 s k E) as Hk. specialize (H6 s). unfold site_count in H6.
    rewrite E, count_zero in H6; [simpl in H6; lia|]. intros id c Hc.
    rewrite (holds_site_worker s c _ (Hgone id c Hc)). by rewrite andb_false_r.
Qed.

Lemma drain n p :
  count (fun c => negb (finished c)) (calls p) < Z.of_nat n -> pool_ok p ->
  exists ops p', run p ops = Some p' /\ pool_ok p' /\ drained p'.
Proof.
  revert p. induction n as [|n IH]; intros p Hn Hp.
  { pose proof (count_nonneg (fun c => negb (finished c)) (calls p)). lia. }
  destruct (decide (map_Exists (fun _ c => finished c = false) (calls p))) as [(id & c & Hc & Hf)|Hno].
  - destruct (finish_call (S (remaining c)) p id c) as (ops & q & d & Hr & Hq & Hd); [lia|done|done|].
    destruct (IH q) as (ops' & p' & Hr' & Hp' & Hd'); [|by eapply pool_run_ok|].
    { rewrite Hq, (count_insert_Some _ _ _ _ c) by done. rewrite Hf, Hd. simpl. lia. }
    exists (ops ++ ops'), p'. by rewrite (pool_run_app _ _ _ _ Hr).
  - exists [], p. split_and!; [done|done|]. intros id c Hc. destruct (finished c) eqn:Hf; [done|].
    destruct Hno. by exists id, c.
Qed.
End PoolFacts.

(** The worker bounds hold however calls, detectors and departing callers
    interleave: the slots in use are the workers that have not exited, at most
    128; the counter of a site is the number of its workers that still hold a
    permit, at most 64; and at most 1024 sites are registered. *)
Theorem guard_pool_bounded {T} (zero : T) fn ops p :
  guard_run zero fn empty_pool ops = Some p ->
  guardSlots p = count holds_slot (calls p) /\ guardSlots p <= 128
  /\ (forall s, site_count (guardSiteAdmissions p) s = count (holds_site s) (calls p)
               /\ site_count (guardSiteAdmissions p) s <= 64)
  /\ Z.of_nat (size (bySite (guardSiteAdmissions p))) <= 1024.
Proof.
  intros H. destruct (pool_run_ok zero fn ops _ _ (empty_pool_ok zero fn) H) as [H1 H2 H3 H4 H5 H6 _].
  split_and!; [done|done| |rewrite <- H5; apply H3].
  intros s. split; [done|]. pose proof (site_count_le _ s H3) as B. rewrite H4 in B. apply B.
Qed.


(** C35. No schedule can wedge the guards: from every reachable pool the
    workers and callers in flight can run to their end (a worker's result is
    never lost, a caller never waits for one that does not come), and then
    every slot and every site permit has been given back. *)
Theorem guard_pool_drains {T} (zero : T) fn ops p :
  guard_run zero fn empty_pool ops = Some p ->
  exists more p', guard_run zero fn p more = Some p' /\ drained p'
    /\ guardSlots p' = 0 /\ bySite (guardSiteAdmissions p') = ∅.
Proof.
  intros H. pose proof (pool_run_ok zero fn ops _ _ (empty_pool_ok zero fn) H) as Hp.
  destruct (drain zero fn (S (Z.to_nat (count (fun c => negb (finished c)) (calls p)))) p)
    as (more & p' & Hr & Hp' & Hd); [lia|done|].
  exists more, p'. split_and!; [done|done|apply (drained_free zero fn p' Hp' Hd)..].
Qed.

(** ** Concrete schedules *)

(** Two calls of one site: the caller of the first leaves on cancellation
    while its worker is running, the second delivers. *)
Definition two_calls (id : nat) : FnOut bool := if (id =? 1)%nat then FReturn true None else FPanic "boom".

Definition two_ops : list GuardOp :=
  [OpEnter 0 "shop" None; OpEnter 1 " shop " None; OpStart 0 None; OpLeaveCtx 0 CtxCanceled;
   OpStart 1 None; OpFinish 1 ""; OpReceive 1]%nat.

Lemma two_pool_run : exists p, guard_run false two_calls empty_pool two_ops = Some p
  /\ guardSlots p = 2 /\ site_count (guardSiteAdmissions p) "shop" = 2.
Proof. by eexists. Qed.

Lemma guard_pool_bounded_witness : exists p,
  guard_run false two_calls empty_pool two_ops = Some p /\ guardSlots p <= 128.
Proof.
  eexists. split; [reflexivity|]. exact (proj1 (proj2 (guard_pool_bounded false two_calls two_ops _ eq_refl))).
Defined.


Lemma guard_pool_drains_witness : exists p more p',
  guard_run false two_calls empty_pool two_ops = Some p
  /\ guard_run false two_calls p more = Some p' /\ guardSlots p' = 0.
Proof.
  eexists. destruct (guard_pool_drains false two_calls two_ops _ eq_refl) as (more & p' & Hr & _ & Hs & _).
  exists more, p'. split_and!; [reflexivity|exact Hr|exact Hs].
Defined.
