(* ===== verification/Pipeline.v ===== *)
(** * The detection pipeline (internal/engine/pipeline.go)

    Pre-filters in priority order, then the semantic group, under one
    detection budget; how verdicts are combined, and what happens to a request
    whose analysis did not complete. Detectors are arguments of the model. What
    the scheduler, the clocks and the workers do during one request is an
    [Env]; every theorem holds for all of them. *)

From S2P Require Import Prelude GoText Acl Sandbox.
From Stdlib Require Import Permutation.

Open Scope list_scope.
Open Scope Z_scope.
Open Scope go_scope.

(** ** The detection budget *)

(** A metadata value, by its dynamic type; any other value is opaque. *)
Inductive Val :=
| VBool (b : bool)
| VString (s : string)
| VDuration (d : Duration)
| VOpaque (id : positive).

#[export] Instance Val_eq_dec : EqDecision Val.
Proof. solve_decision. Defined.

Abbreviation MetadataMap := (gmap string Val).

Definition Millisecond : Duration := 1000000.

Definition clamp_budget (budget : Duration) : Duration :=
  let budget := if budget <=? 0 then 100 * Millisecond else budget in
  if 5 * Second <? budget then 5 * Second else budget.

(** The value stored by [SetDetectionBudget]. *)
Definition SetDetectionBudget (budget : Duration) : Duration := clamp_budget budget.

Section Budget.
Variable ParseDuration : string -> option Duration.

(** [stored] is [p.budget]; [None] is a nil request. *)
Definition detectionBudget (stored : Duration) (md : option MetadataMap) : Duration :=
  let budget :=
    match md with
    | None => stored
    | Some md =>
        match md !! "detection_budget"%string with
        | Some (VDuration value) => value
        | Some (VString value) => default stored (ParseDuration value)
        | _ => stored
        end
    end in
  clamp_budget budget.
End Budget.

(** ** Requests and detectors *)

(** The fields of the request that the pipeline itself reads or writes. A
    nil metadata map is an empty one: the code creates it before it writes. *)
Record RequestContext := {
  SiteID : string;
  rc_Metadata : MetadataMap;
  Results : list DetectionResult
}.

Definition set_md (rc : RequestContext) (md : MetadataMap) : RequestContext :=
  {| SiteID := SiteID rc; rc_Metadata := md; Results := Results rc |}.
Definition put_md (rc : RequestContext) (k : string) (v : Val) : RequestContext :=
  set_md rc (<[k := v]> (rc_Metadata rc)).
Definition add_result (rc : RequestContext) (r : DetectionResult) : RequestContext :=
  {| SiteID := SiteID rc; rc_Metadata := rc_Metadata rc; Results := Results rc ++ [r] |}.

(** A detector: its priority, what its [Detect] does on a fork with the given
    metadata (the rest of the request is the same for every fork), and the
    metadata it leaves in the fork. *)
Record Detector := {
  Priority : Z;
  dt_Detect : MetadataMap -> FnOut (option DetectionResult);
  dt_fork : MetadataMap -> MetadataMap
}.

(** ** The detector lists *)

Record pipelineSnapshot := {
  detectors : list Detector;
  preFilters : list Detector;
  semanticGroup : list Detector
}.

Definition makePipelineSnapshot (ds : list Detector) : pipelineSnapshot :=
  {| detectors := ds;
     preFilters := List.filter (fun d => Priority d <? 290) ds;
     semanticGroup := List.filter (fun d => negb (Priority d <? 290)) ds |}.

(** [sort.SliceStable] on a list whose elements before the new one are
    sorted already is a stable insertion sort. *)
Fixpoint stable_insert (d : Detector) (l : list Detector) : list Detector :=
  match l with
  | [] => [d]
  | e :: l' => if Priority d <? Priority e then d :: l else e :: stable_insert d l'
  end.

Definition stable_sort (l : list Detector) : list Detector :=
  fold_left (fun acc d => stable_insert d acc) l [].

Definition Add (p : option pipelineSnapshot) (d : option Detector) : option pipelineSnapshot :=
  match d with
  | None => p
  | Some d =>
      let previous := match p with Some s => detectors s | None => [] end in
      Some (makePipelineSnapshot (stable_sort (previous ++ [d])))
  end.

Definition NewPipeline (ds : list (option Detector)) : option pipelineSnapshot :=
  fold_left Add ds None.

Definition Detectors (p : option pipelineSnapshot) : list Detector :=
  match p with Some s => detectors s | None => [] end.

(** ** Merging and ranking *)

Definition overriding_keys : list string :=
  ["semantic_analysis"; "semantic_anomaly_score"; "semantic_analysis_incomplete";
   "semantic_analysis_incomplete_reason"; "semantic_input_incomplete";
   "semantic_input_incomplete_reason"; "detection_budget_exhausted";
   "detection_input_incomplete"; "budget_exhausted_policy"; "waf_policy_decision";
   "semantic_skipped"]%string.

(** One key of [mergeRequestContext]: the parent's value stays unless the
    key is one that the fork overrides. *)
Definition merge_value (k : string) (parent fork : option Val) : option Val :=
  match parent, fork with
  | Some v, Some w => if bool_decide (k ∈ overriding_keys) then Some w else Some v
  | Some v, None => Some v
  | None, w => w
  end.

Definition merge_metadata (parent fork : MetadataMap) : MetadataMap :=
  map_imap (fun k v => merge_value k (Some v) (fork !! k)) parent ∪ fork.

Definition mergeRequestContext (parent : RequestContext) (fork : option MetadataMap) : RequestContext :=
  match fork with
  | None => parent
  | Some md =>
      return parent when bool_decide (md = ∅) ;;
      set_md parent (merge_metadata (rc_Metadata parent) md)
  end.

Definition pipelineRank (a : Action) : Z :=
  match a with ActionBlock => 4 | ActionChallenge => 3 | ActionLog => 2 | ActionPass => 1 end.

Definition severity_int (s : Severity) : Z :=
  match s with
  | SeverityInfo => 0 | SeverityLow => 1 | SeverityMedium => 2
  | SeverityHigh => 3 | SeverityCritical => 4
  end.

(** [current] is nil where the argument is [None]. *)
Definition betterDetectionResult (next : DetectionResult) (current : option DetectionResult) : bool :=
  match current with
  | None => true
  | Some current =>
      return pipelineRank (dr_Action current) <? pipelineRank (dr_Action next)
        when negb (bool_decide (dr_Action next = dr_Action current)) ;;
      return severity_int (dr_Severity current) <? severity_int (dr_Severity next)
        when negb (severity_int (dr_Severity next) =? severity_int (dr_Severity current)) ;;
      Confidence current <? Confidence next
  end.

Definition detectorIncompleteReason (err : option GoError) : option string :=
  match err with
  | Some e =>
      match err_incomplete e with
      | Some (true, text) =>
          let reason := TrimSpace text in
          Some (if String.eqb reason "" then "detector_input_incomplete"%string else reason)
      | _ => None
      end
  | None => None
  end.

(** ** One request: what the environment decides *)

Inductive BodyReader := NilBody | NoBody | LiveBody.

(** The result of [bodyState]; [None] when its lock was busy. *)
Record BodyState := { body_loaded : bool; body_Err : option GoError; body_reader : BodyReader }.

Record semanticJobOut := {
  out_index : nat;
  out_result : option DetectionResult;
  out_fork : option MetadataMap;
  out_err : option GoError
}.

(** The pipeline looks at its two contexts at successive instants 0, 1, ...:
    [parent_done] and [budget_done] are the instants from which the parent
    context and the budget timer are done. The other fields say, per detector
    of the group, how its guard, permit, queue slot and worker turned out, and
    in which order the finished jobs arrive. *)
Record Env := {
  parent_done : option (nat * CtxError);
  budget_done : option nat;
  body_state : option BodyState;
  ensure_body : option GoError;          (* the result of EnsureBodyContext *)
  hook_installed : bool;
  pre_fate : nat -> GuardFate;
  one_fate : GuardFate;
  site_counter : nat -> siteAdmission;   (* semanticSiteAdmissions when job i asks *)
  queue_room : nat -> bool;
  done_first : nat -> bool;              (* select takes ctx.Done() when both are ready *)
  worker_ctx : nat -> option CtxError;    (* job.ctx.Err() in the worker *)
  job_fate : nat -> GuardFate;
  job_wait : nat -> Z;
  arrival : list semanticJobOut -> list semanticJobOut
}.

Definition parentErr (env : Env) (now : nat) : option GoError :=
  match parent_done env with
  | Some (at_, e) => if (at_ <=? now)%nat then Some (ctx_error e) else None
  | None => None
  end.

Definition budget_expired (env : Env) (now : nat) : bool :=
  match budget_done env with Some at_ => (at_ <=? now)%nat | None => false end.

(** The derived context: done as soon as its parent or its timer is, with
    the error of the first of them. *)
Definition ctxErr (env : Env) (now : nat) : option GoError :=
  match parent_done env, budget_done env with
  | Some (p, e), Some b => if (p <=? b)%nat then parentErr env now
                           else if budget_expired env now then Some DeadlineExceeded else None
  | Some _, None => parentErr env now
  | None, _ => if budget_expired env now then Some DeadlineExceeded else None
  end.

Record QueueStats := {
  semanticQueueJobs : Z;
  semanticQueueWaitNanos : Z;
  semanticQueueOverloads : Z
}.

(** The state threaded through one [Detect]: the request, the next instant,
    the calls of the metrics hook, the queue counters. *)
Record PState := { st_rc : RequestContext; st_now : nat; st_hooks : nat; st_queue : QueueStats }.

Definition with_rc (st : PState) (rc : RequestContext) : PState :=
  {| st_rc := rc; st_now := st_now st; st_hooks := st_hooks st; st_queue := st_queue st |}.
Definition tick (st : PState) : PState :=
  {| st_rc := st_rc st; st_now := S (st_now st); st_hooks := st_hooks st; st_queue := st_queue st |}.
Definition overload_counted (st : PState) : PState :=
  {| st_rc := st_rc st; st_now := st_now st; st_hooks := st_hooks st;
     st_queue := {| semanticQueueJobs := semanticQueueJobs (st_queue st);
                    semanticQueueWaitNanos := semanticQueueWaitNanos (st_queue st);
                    semanticQueueOverloads := u64 (semanticQueueOverloads (st_queue st) + 1) |} |}.
Definition job_counted (wait : Z) (st : PState) : PState :=
  {| st_rc := st_rc st; st_now := st_now st; st_hooks := st_hooks st;
     st_queue := {| semanticQueueJobs := u64 (semanticQueueJobs (st_queue st) + 1);
                    semanticQueueWaitNanos := u64 (semanticQueueWaitNanos (st_queue st) + u64 wait);
                    semanticQueueOverloads := semanticQueueOverloads (st_queue st) |} |}.

(** What [Detect] returns. *)
Definition Outcome : Type := PState * option DetectionResult * option GoError.

(** [if parentErr := parentCtx.Err(); parentErr != nil { return nil, parentErr }]
    before [k]. *)
Definition unless_parent_done (env : Env) (st : PState) (k : PState -> Outcome) : Outcome :=
  match parentErr env (st_now st) with
  | Some e => (tick st, None, Some e)
  | None => k (tick st)
  end.

(** ** Incomplete analysis *)

Definition pass_result : DetectionResult :=
  {| Detected := false; DetectorID := ""; Category := ""; dr_Severity := SeverityInfo;
     dr_Action := ActionPass; Message := ""; Confidence := 0; dr_Payload := "" |}.

(** The policy in force: [open] and [observe] have to be asked for. *)
Definition fail_mode (md : MetadataMap) : string :=
  let policy := match md !! "budget_exhausted_policy"%string with Some (VString s) => s | _ => ""%string end in
  let policy := ToLower (TrimSpace policy) in
  if bool_decide (policy ∈ ["open"; "observe"; "closed"]%string) then policy else "closed"%string.

Definition mark_incomplete (rc : RequestContext) (reason : string) (budgetExhausted : bool) : RequestContext :=
  let rc := put_md rc "detection_analysis_incomplete" (VBool true) in
  let rc :=
    return rc when has (rc_Metadata rc) "detection_analysis_incomplete_reason"%string ;;
    let reason := TrimSpace reason in
    put_md rc "detection_analysis_incomplete_reason"
      (VString (if String.eqb reason "" then "detector_input_incomplete" else reason)) in
  put_md rc (if budgetExhausted then "detection_budget_exhausted" else "detection_input_incomplete")
    (VBool true).

Definition incomplete_result (budgetExhausted closed : bool) : DetectionResult :=
  {| Detected := true;
     DetectorID := if budgetExhausted then "pipeline.budget" else "pipeline.incomplete";
     Category := if budgetExhausted then "detection_budget" else "detection_incomplete";
     dr_Severity := if closed then SeverityMedium else SeverityInfo;
     dr_Action := if closed then ActionChallenge else ActionLog;
     Message :=
       match budgetExhausted, closed with
       | false, true => "request analysis incomplete; challenge preferred"
       | false, false => "request analysis incomplete; observe only"
       | true, true => "detection budget exhausted; challenge preferred for incomplete analysis"
       | true, false => "detection budget exhausted; observe only"
       end;
     Confidence := if closed then 55 else 40;
     dr_Payload := "" |}.

Definition enforcing (a : Action) : bool :=
  match a with ActionBlock | ActionChallenge => true | _ => false end.

Definition finalizeAnalysisIncomplete (env : Env) (st : PState) (firstDetected : option DetectionResult)
  (reason : string) (budgetExhausted : bool) : Outcome :=
  let rc := mark_incomplete (st_rc st) reason budgetExhausted in
  let st := {| st_rc := rc; st_now := st_now st;
               st_hooks := if budgetExhausted && hook_installed env then S (st_hooks st) else st_hooks st;
               st_queue := st_queue st |} in
  let policy := fail_mode (rc_Metadata rc) in
  let st := with_rc st (put_md rc "budget_exhausted_policy" (VString policy)) in
  return (st, firstDetected, None)
    when match firstDetected with Some d => Detected d && enforcing (dr_Action d) | None => false end ;;
  if String.eqb policy "closed" then
    let res := incomplete_result budgetExhausted true in
    (with_rc st (add_result (st_rc st) res), Some res, None)
  else if String.eqb policy "observe" then
    return (st, firstDetected, None)
      when match firstDetected with Some d => Detected d | None => false end ;;
    let res := incomplete_result budgetExhausted false in
    (with_rc st (add_result (st_rc st) res), Some res, None)
  else
    (st, Some (match firstDetected with Some d => d | None => pass_result end), None).

Definition finalizeBudgetExhausted env st firstDetected :=
  finalizeAnalysisIncomplete env st firstDetected "pipeline_deadline" true.
Definition finalizeInputIncomplete env st firstDetected reason :=
  finalizeAnalysisIncomplete env st firstDetected reason false.
Definition finalizeGuardOverload (env : Env) (st : PState) (firstDetected : option DetectionResult) : Outcome :=
  let rc := put_md (put_md (st_rc st) "detection_overloaded" (VBool true))
              "detection_analysis_incomplete_reason" (VString "guard_overload") in
  finalizeBudgetExhausted env (with_rc st rc) firstDetected.

(** [budgetAnalysisIncomplete], asked at the current instant. *)
Definition budgetAnalysisIncomplete (env : Env) (st : PState) (detectErr : option GoError) : bool :=
  return false when negb (bool_decide (is_Some (ctxErr env (st_now st)))) ;;
  return true when bool_decide (is_Some detectErr) ;;
  match rc_Metadata (st_rc st) !! "semantic_analysis_incomplete"%string with
  | Some (VBool true) =>
      negb (bool_decide (rc_Metadata (st_rc st) !! "semantic_input_incomplete"%string = Some (VBool true)))
  | _ => false
  end.

(** ** Phase 0: the body *)

Definition requestBodyNeedsSnapshot (b : BodyReader) : bool :=
  match b with LiveBody => true | _ => false end.

Definition body_error (env : Env) : option GoError :=
  match body_state env with
  | Some s =>
      match body_Err s with
      | Some e => Some e
      | None =>
          if body_loaded s then None
          else if requestBodyNeedsSnapshot (body_reader s) then ensure_body env else None
      end
  | None => ensure_body env
  end.

(** ** Phase 1: the pre-filters *)

Definition keep_first (cur : option DetectionResult) (r : DetectionResult) : option DetectionResult :=
  if Detected r then match cur with None => Some r | Some _ => cur end else cur.
Definition keep_better (cur : option DetectionResult) (r : DetectionResult) : option DetectionResult :=
  if Detected r && betterDetectionResult r cur then Some r else cur.
Definition blocks (r : DetectionResult) : bool :=
  Detected r && bool_decide (dr_Action r = ActionBlock).

(** The variables of [Detect] that the loops update. *)
Record Progress := {
  pg_st : PState;
  firstDetected : option DetectionResult;
  inputIncompleteReason : string
}.

Definition note_reason (current reason : string) : string :=
  if String.eqb current "" then reason else current.

(** The body of the loop: an early return, or the progress made. *)
Definition prefilter_step (env : Env) (i : nat) (d : Detector) (pg : Progress) : Outcome + Progress :=
  let st := pg_st pg in
  let first := firstDetected pg in
  match ctxErr env (st_now st) with
  | Some _ =>
      inl (unless_parent_done env (tick st) (fun st => finalizeBudgetExhausted env st first))
  | None =>
      let st := tick st in
      let md := rc_Metadata (st_rc st) in
      let fork := Some (dt_fork d md) in
      let '(result, err) := guard_result None (pre_fate env i) (dt_Detect d md) in
      match err with
      | Some e =>
          return inl (unless_parent_done env st (fun st => finalizeGuardOverload env st first))
            when is_overload e ;;
          match parentErr env (st_now st) with
          | Some pe => inl (tick st, None, Some pe)
          | None =>
              let st := tick st in
              return inl (finalizeBudgetExhausted env (tick st) first)
                when budgetAnalysisIncomplete env st err ;;
              let st := tick st in
              match detectorIncompleteReason err with
              | None => inl (finalizeInputIncomplete env st first "detector_error")
              | Some reason =>
                  let st := with_rc st (mergeRequestContext (st_rc st) fork) in
                  let noted := note_reason (inputIncompleteReason pg) reason in
                  match result with
                  | None => inr {| pg_st := st; firstDetected := first; inputIncompleteReason := noted |}
                  | Some r =>
                      let st := with_rc st (add_result (st_rc st) r) in
                      return inl (st, Some r, None) when blocks r ;;
                      inr {| pg_st := st; firstDetected := keep_better first r;
                             inputIncompleteReason := noted |}
                  end
              end
          end
      | None =>
          let st := with_rc st (mergeRequestContext (st_rc st) fork) in
          match result with
          | None => inr {| pg_st := st; firstDetected := first;
                           inputIncompleteReason := inputIncompleteReason pg |}
          | Some r =>
              let st := with_rc st (add_result (st_rc st) r) in
              return inl (st, Some r, None) when blocks r ;;
              inr {| pg_st := st; firstDetected := keep_first first r;
                     inputIncompleteReason := inputIncompleteReason pg |}
          end
      end
  end.

Fixpoint prefilter_loop (env : Env) (i : nat) (ds : list Detector) (pg : Progress) : Outcome + Progress :=
  match ds with
  | [] => inr pg
  | d :: ds =>
      match prefilter_step env i d pg with
      | inl out => inl out
      | inr pg => prefilter_loop env (S i) ds pg
      end
  end.

(** ** Phase 2: the semantic group *)

(** The end of [Detect]. *)
Definition conclude (env : Env) (pg : Progress) : Outcome :=
  return finalizeInputIncomplete env (pg_st pg) (firstDetected pg) (inputIncompleteReason pg)
    when negb (String.eqb (inputIncompleteReason pg) "") ;;
  (pg_st pg, Some (match firstDetected pg with Some d => d | None => pass_result end), None).

Definition semantic_single (env : Env) (d : Detector) (pg : Progress) : Outcome :=
  let st := pg_st pg in
  let md := rc_Metadata (st_rc st) in
  let fork := Some (dt_fork d md) in
  let '(result, err) := guard_result None (one_fate env) (dt_Detect d md) in
  let merged := with_rc st (mergeRequestContext (st_rc st) fork) in
  let '(st, first) :=
    match err, result with
    | None, Some r => (with_rc merged (add_result (st_rc merged) r), keep_better (firstDetected pg) r)
    | None, None => (merged, firstDetected pg)
    | Some _, _ => (st, firstDetected pg)
    end in
  match detectorIncompleteReason err with
  | Some reason =>
      unless_parent_done env st (fun st =>
        finalizeInputIncomplete env (with_rc st (mergeRequestContext (st_rc st) fork)) first reason)
  | None =>
      return unless_parent_done env st (fun st => finalizeGuardOverload env st first)
        when match err with Some e => is_overload e | None => false end ;;
      unless_parent_done env st (fun st =>
        (* if parentCtx.Err() == nil && budgetAnalysisIncomplete(ctx, reqCtx, err) *)
        let alive := negb (bool_decide (is_Some (parentErr env (st_now st)))) in
        let st := tick st in
        return finalizeBudgetExhausted env (tick st) first
          when alive && budgetAnalysisIncomplete env st err ;;
        let st := tick st in
        match err with
        | Some _ => finalizeInputIncomplete env st first "detector_error"
        | None => conclude env {| pg_st := st; firstDetected := first;
                                  inputIncompleteReason := inputIncompleteReason pg |}
        end)
  end.

(** [enqueueSemanticJob]: (submitted, overloaded). The select takes a ready
    case at random, and the default one only when none is ready. *)
Definition enqueueSemanticJob (room ctx_done done_first : bool) : bool * bool :=
  match room, ctx_done with
  | true, false => (true, false)
  | false, true => (false, false)
  | true, true => if done_first then (false, false) else (true, false)
  | false, false => (false, true)
  end.

(** The worker: it checks the context, forks the request and runs the guard. *)
Definition run_job (env : Env) (i : nat) (d : Detector) (md : MetadataMap) : semanticJobOut :=
  match worker_ctx env i with
  | Some e => {| out_index := i; out_result := None; out_fork := None; out_err := Some (ctx_error e) |}
  | None =>
      let '(result, err) := guard_result None (job_fate env i) (dt_Detect d md) in
      {| out_index := i; out_result := result; out_fork := Some (dt_fork d md); out_err := err |}
  end.

Definition zero_out : semanticJobOut :=
  {| out_index := 0; out_result := None; out_fork := None; out_err := None |}.
Definition error_out (i : nat) (e : GoError) : semanticJobOut :=
  {| out_index := i; out_result := None; out_fork := None; out_err := Some e |}.

(** The submission of job [i]: the job queued, or the slot of [outs] filled
    at once; a slot may be left alone. *)
Definition submit_job (env : Env) (i : nat) (d : Detector) (st : PState)
  : PState * option semanticJobOut * list semanticJobOut :=
  let '(_, _, admitted) := acquire (site_counter env i) (SiteID (st_rc st)) in
  if negb admitted then
    (overload_counted st, Some (error_out i ErrDetectionOverload), [])
  else
    let ctx_done := bool_decide (is_Some (ctxErr env (st_now st))) in
    let st := tick st in
    let '(enqueued, overloaded) := enqueueSemanticJob (queue_room env i) ctx_done (done_first env i) in
    if enqueued then (job_counted (job_wait env i) st, None, [run_job env i d (rc_Metadata (st_rc st))])
    else
      match ctxErr env (st_now st) with
      | Some e => (tick st, Some (error_out i e), [])
      | None =>
          if overloaded
          then (overload_counted (tick st), Some (error_out i ErrDetectionOverload), [])
          else (tick st, None, [])
      end.

Fixpoint submit_all (env : Env) (i : nat) (ds : list Detector) (st : PState) (outs : list semanticJobOut)
  : PState * list semanticJobOut * list semanticJobOut :=
  match ds with
  | [] => (st, outs, [])
  | d :: ds =>
      let '(st, filled, queued) := submit_job env i d st in
      let outs := match filled with Some o => <[i := o]> outs | None => outs end in
      let '(st, outs, queued') := submit_all env (S i) ds st outs in
      (st, outs, queued ++ queued')
  end.

(** [for range submitted { out := <-done; outs[out.index] = out }] *)
Definition collect (outs arrived : list semanticJobOut) : list semanticJobOut :=
  fold_left (fun outs o => <[out_index o := o]> outs) arrived outs.

(** The variables of the merge loop. *)
Record Merge := { mg_pg : Progress; detectErr : option GoError; guardOverloaded : bool }.

Definition merge_out (m : Merge) (out : semanticJobOut) : Merge :=
  let pg := mg_pg m in
  let st := pg_st pg in
  match detectorIncompleteReason (out_err out) with
  | Some reason =>
      {| mg_pg := {| pg_st := with_rc st (mergeRequestContext (st_rc st) (out_fork out));
                     firstDetected := firstDetected pg;
                     inputIncompleteReason := note_reason (inputIncompleteReason pg) reason |};
         detectErr := detectErr m; guardOverloaded := guardOverloaded m |}
  | None =>
      match out_err out with
      | Some e =>
          {| mg_pg := pg;
             detectErr := if negb (bool_decide (is_Some (detectErr m))) || is_deadline e || is_canceled e
                          then Some e else detectErr m;
             guardOverloaded := guardOverloaded m || is_overload e |}
      | None =>
          match out_fork out with
          | None => m
          | Some _ =>
              let st := with_rc st (mergeRequestContext (st_rc st) (out_fork out)) in
              {| mg_pg :=
                   match out_result out with
                   | None => {| pg_st := st; firstDetected := firstDetected pg;
                                inputIncompleteReason := inputIncompleteReason pg |}
                   | Some r => {| pg_st := with_rc st (add_result (st_rc st) r);
                                  firstDetected := keep_better (firstDetected pg) r;
                                  inputIncompleteReason := inputIncompleteReason pg |}
                   end;
                 detectErr := detectErr m; guardOverloaded := guardOverloaded m |}
          end
      end
  end.

(** The checks after the merge loop, in the code's order. *)
Definition after_merge (env : Env) (m : Merge) : Outcome :=
  let pg := mg_pg m in
  let st := pg_st pg in
  let first := firstDetected pg in
  let alive1 := negb (bool_decide (is_Some (parentErr env (st_now st)))) in
  let st := tick st in
  return finalizeGuardOverload env st first when alive1 && guardOverloaded m ;;
  let alive2 := negb (bool_decide (is_Some (parentErr env (st_now st)))) in
  let st := tick st in
  return finalizeBudgetExhausted env (tick st) first
    when alive2 && budgetAnalysisIncomplete env st (detectErr m) ;;
  unless_parent_done env (tick st) (fun st =>
    return finalizeInputIncomplete env st first (inputIncompleteReason pg)
      when negb (String.eqb (inputIncompleteReason pg) "") ;;
    match detectErr m with
    | Some _ => finalizeInputIncomplete env st first "detector_error"
    | None => conclude env {| pg_st := st; firstDetected := first;
                              inputIncompleteReason := inputIncompleteReason pg |}
    end).

Definition semantic_multi (env : Env) (ds : list Detector) (pg : Progress) : Outcome :=
  let '(st, outs, queued) := submit_all env 0 ds (pg_st pg) (replicate (length ds) zero_out) in
  let outs := collect outs (arrival env queued) in
  let start := {| pg_st := st; firstDetected := firstDetected pg;
                  inputIncompleteReason := inputIncompleteReason pg |} in
  after_merge env (fold_left merge_out outs {| mg_pg := start; detectErr := None; guardOverloaded := false |}).

Definition semantic_phase (env : Env) (ds : list Detector) (pg : Progress) : Outcome :=
  match ds with
  | [] => conclude env pg
  | [d] => semantic_single env d pg
  | _ => semantic_multi env ds pg
  end.

(** ** Detect *)

Definition detect_body (env : Env) (s : pipelineSnapshot) (st : PState) : Outcome :=
  let start := {| pg_st := st; firstDetected := None; inputIncompleteReason := "" |} in
  match prefilter_loop env 0 (preFilters s) start with
  | inl out => out
  | inr pg =>
      match ctxErr env (st_now (pg_st pg)) with
      | Some _ =>
          unless_parent_done env (tick (pg_st pg))
            (fun st => finalizeBudgetExhausted env st (firstDetected pg))
      | None => semantic_phase env (semanticGroup s)
                  {| pg_st := tick (pg_st pg); firstDetected := firstDetected pg;
                     inputIncompleteReason := inputIncompleteReason pg |}
      end
  end.

Definition detect_request (env : Env) (p : option pipelineSnapshot) (st : PState) : Outcome :=
  match p with
  | None => (st, Some pass_result, None)
  | Some s =>
      match (if bool_decide (preFilters s = [] /\ semanticGroup s = []) then None else body_error env) with
      | Some e => unless_parent_done env st (fun st => (st, None, Some e))
      | None => detect_body env s st
      end
  end.

(** [Detect]; [None] is a nil request. *)
Definition Detect (env : Env) (p : option pipelineSnapshot) (st : option PState)
  : option PState * option DetectionResult * option GoError :=
  match st with
  | None => (None, None, None)
  | Some st => let '(st, r, e) := detect_request env p st in (Some st, r, e)
  end.
