(* ===== verification/PipelineFacts.v ===== *)
(** * What the pipeline guarantees

    A sequential reference of the pipeline, and the proofs that an undisturbed
    request gets exactly its verdict, that nothing else passes under the closed
    policy, that a block is never lost, and that neither the order in which
    workers finish nor a detector that was abandoned can be seen. *)

From S2P Require Import Prelude GoText Acl Sandbox Pipeline.
From Stdlib Require Import Permutation.

Open Scope list_scope.
Open Scope Z_scope.

(** ** The sequential reference *)

(** The result of a detector that returns without an error. *)
Definition completed (d : Detector) (md : MetadataMap) : option (option DetectionResult) :=
  match dt_Detect d md with FReturn r None => Some r | _ => None end.

(** The request after a completed detector: its metadata merged, its result
    recorded. *)
Definition absorb (rc : RequestContext) (fork : MetadataMap) (r : option DetectionResult) : RequestContext :=
  let rc := mergeRequestContext rc (Some fork) in
  match r with Some r => add_result rc r | None => rc end.

(** The pre-filters one after the other: a blocking result ends the request,
    the first other detection is kept. [None] when one does not complete. *)
Fixpoint ref_prefilters (ds : list Detector) (rc : RequestContext) (first : option DetectionResult)
  : option ((RequestContext * DetectionResult) + (RequestContext * option DetectionResult)) :=
  match ds with
  | [] => Some (inr (rc, first))
  | d :: ds =>
      match completed d (rc_Metadata rc) with
      | None => None
      | Some r =>
          let rc' := absorb rc (dt_fork d (rc_Metadata rc)) r in
          match r with
          | None => ref_prefilters ds rc' first
          | Some r => if blocks r then Some (inl (rc', r)) else ref_prefilters ds rc' (keep_first first r)
          end
      end
  end.

(** The semantic detectors one after the other, all on the metadata that the
    pre-filters left; the best detection is kept. *)
Fixpoint ref_semantic (md : MetadataMap) (ds : list Detector) (rc : RequestContext)
  (first : option DetectionResult) : option (RequestContext * option DetectionResult) :=
  match ds with
  | [] => Some (rc, first)
  | d :: ds =>
      match completed d md with
      | None => None
      | Some r =>
          ref_semantic md ds (absorb rc (dt_fork d md) r)
            (match r with Some r => keep_better first r | None => first end)
      end
  end.

Definition verdict (first : option DetectionResult) : DetectionResult :=
  match first with Some d => d | None => pass_result end.

(** The request and its verdict when every detector completes. *)
Definition ref_detect (s : pipelineSnapshot) (rc : RequestContext)
  : option (RequestContext * DetectionResult) :=
  match ref_prefilters (preFilters s) rc None with
  | None => None
  | Some (inl out) => Some out
  | Some (inr (rc, first)) =>
      match ref_semantic (rc_Metadata rc) (semanticGroup s) rc first with
      | None => None
      | Some (rc, first) => Some (rc, verdict first)
      end
  end.

(** ** Incomplete analysis *)

Lemma fail_mode_cases md : fail_mode md ∈ ["open"; "observe"; "closed"]%string.
Proof.
  unfold fail_mode. case_bool_decide as E; [exact E|]. set_solver.
Qed.

Lemma fail_mode_put rc p :
  p ∈ ["open"; "observe"; "closed"]%string ->
  fail_mode (rc_Metadata (put_md rc "budget_exhausted_policy" (VString p))) = p.
Proof.
  intros Hp. unfold fail_mode, put_md, set_md. simpl. rewrite lookup_insert_eq.
  rewrite !elem_of_cons in Hp.
  destruct Hp as [-> | [-> | [-> | Hp%elem_of_nil]]]; [..|done]; vm_compute; reflexivity.
Qed.

(** The policy a finalized request carries. *)
Definition policy_after (st : PState) : string := fail_mode (rc_Metadata (st_rc st)).

(** A request whose analysis did not complete gets a verdict, and under the
    closed policy an enforced one. *)
Lemma finalize_closed env st first reason b st' r e :
  finalizeAnalysisIncomplete env st first reason b = (st', r, e) ->
  e = None /\ exists d, r = Some d /\ (policy_after st' = "closed"%string -> enforcing (dr_Action d) = true).
Proof.
  unfold finalizeAnalysisIncomplete, policy_after. cbv zeta.
  set (rc := mark_incomplete (st_rc st) reason b). clearbody rc.
  pose proof (fail_mode_cases (rc_Metadata rc)) as Hm.
  cbn [st_rc]. set (pol := fail_mode (rc_Metadata rc)) in *. clearbody pol.
  pose proof (fail_mode_put rc pol Hm) as Hput.
  set (rc' := put_md _ _ _) in *. clearbody rc'.
  destruct first as [d|]; simpl.
  - destruct (Detected d && enforcing (dr_Action d)) eqn:Ed.
    { intros [= <- <- <-]. props. split; [done|]. by exists d. }
    destruct (String.eqb_spec pol "closed") as [Hc|Hc].
    { intros [= <- <- <-]. eauto. }
    destruct (String.eqb pol "observe"), (Detected d); intros [= <- <- <-];
      (split; [done|]; eexists; split; [done|]); simpl; by rewrite Hput.
  - destruct (String.eqb_spec pol "closed") as [Hc|Hc].
    { intros [= <- <- <-]. eauto. }
    destruct (String.eqb pol "observe"); intros [= <- <- <-];
      (split; [done|]; eexists; split; [done|]); simpl; by rewrite Hput.
Qed.

(** An outcome that does not let an incomplete analysis through. *)
Definition held (out : Outcome) : Prop :=
  match out with
  | (st, r, None) =>
      exists d, r = Some d /\ (policy_after st = "closed"%string -> enforcing (dr_Action d) = true)
  | (_, _, Some _) => True
  end.

Lemma finalize_held env st first reason b : held (finalizeAnalysisIncomplete env st first reason b).
Proof.
  destruct (finalizeAnalysisIncomplete env st first reason b) as [[st' r] e] eqn:E.
  apply finalize_closed in E as [-> Hd]. exact Hd.
Qed.

Lemma budget_held env st first : held (finalizeBudgetExhausted env st first).
Proof. apply finalize_held. Qed.
Lemma input_held env st first reason : held (finalizeInputIncomplete env st first reason).
Proof. apply finalize_held. Qed.
Lemma overload_held env st first : held (finalizeGuardOverload env st first).
Proof. apply finalize_held. Qed.

Lemma unless_parent_held env st k : (forall st, held (k st)) -> held (unless_parent_done env st k).
Proof. intros Hk. unfold unless_parent_done. destruct (parentErr _ _); [done|apply Hk]. Qed.

Create HintDb pipeline discriminated.
#[export] Hint Resolve budget_held input_held overload_held unless_parent_held : pipeline.

Lemma blocks_enforcing r : blocks r = true -> enforcing (dr_Action r) = true.
Proof. unfold blocks. intros H. props. by rewrite H0. Qed.

(** ** Detectors that complete *)

Lemma incomplete_reason_nonempty err reason :
  detectorIncompleteReason err = Some reason -> reason <> ""%string.
Proof.
  unfold detectorIncompleteReason. destruct err as [e|]; [|done].
  destruct (err_incomplete e) as [[[] text]|]; try done. cbv zeta.
  destruct (String.eqb_spec (TrimSpace text) ""); by intros [= <-].
Qed.

Lemma note_reason_empty cur reason :
  note_reason cur reason = ""%string -> cur = ""%string /\ reason = ""%string.
Proof. unfold note_reason. destruct (String.eqb_spec cur ""); [by subst|done]. Qed.

(** Only a detector that returned without an error has a nil error. *)
Lemma guard_no_error fate d md r :
  guard_result None fate (dt_Detect d md) = (r, None) -> completed d md = Some r.
Proof.
  unfold completed. destruct fate; simpl; try discriminate.
  destruct (dt_Detect d md) as [res [e|]|text]; try discriminate. by intros [= <-].
Qed.

Lemma guard_completed stack d md r :
  completed d md = Some r -> guard_result None (GCompleted stack) (dt_Detect d md) = (r, None).
Proof.
  unfold completed. simpl. destruct (dt_Detect d md) as [res [e|]|text]; try discriminate.
  by intros [= <-].
Qed.

(** ** The pre-filters *)

Definition kept (keep : option DetectionResult -> DetectionResult -> option DetectionResult)
  (cur : option DetectionResult) (r : option DetectionResult) : option DetectionResult :=
  match r with Some r => keep cur r | None => cur end.

Definition not_blocking (r : option DetectionResult) : Prop :=
  match r with Some r => blocks r = false | None => True end.

Lemma absorb_eq st fork r :
  absorb (st_rc st) fork r =
  match r with
  | Some r => add_result (mergeRequestContext (st_rc st) (Some fork)) r
  | None => mergeRequestContext (st_rc st) (Some fork)
  end.
Proof. done. Qed.

(** One pre-filter that found no reason to stop: it completed, or it reported
    incomplete input. *)
Lemma prefilter_step_spec env i d pg :
  match prefilter_step env i d pg with
  | inl out => held out
  | inr pg' =>
      inputIncompleteReason pg' = ""%string ->
      inputIncompleteReason pg = ""%string /\
      exists r, completed d (rc_Metadata (st_rc (pg_st pg))) = Some r /\ not_blocking r
        /\ st_rc (pg_st pg') = absorb (st_rc (pg_st pg)) (dt_fork d (rc_Metadata (st_rc (pg_st pg)))) r
        /\ firstDetected pg' = kept keep_first (firstDetected pg) r
  end.
Proof.
  unfold prefilter_step. destruct (ctxErr _ _); [eauto with pipeline|]. cbv zeta.
  destruct (guard_result _ _ _) as [result err] eqn:Eg. destruct err as [e|].
  - destruct (is_overload e); [eauto with pipeline|].
    destruct (parentErr _ _); [done|].
    destruct (budgetAnalysisIncomplete _ _ _); [apply budget_held|].
    destruct (detectorIncompleteReason _) as [reason|] eqn:Er; [|apply input_held].
    apply incomplete_reason_nonempty in Er.
    destruct result as [r|]; simpl.
    + destruct (blocks r) eqn:Eb; [exists r; split; [done|]; by rewrite (blocks_enforcing r Eb)|].
      simpl. by intros [_ ?]%note_reason_empty.
    + by intros [_ ?]%note_reason_empty.
  - apply guard_no_error in Eg. destruct result as [r|]; simpl.
    + destruct (blocks r) eqn:Eb; [exists r; split; [done|]; by rewrite (blocks_enforcing r Eb)|].
      simpl. intros ->. split; [done|]. by exists (Some r).
    + intros ->. split; [done|]. by exists None.
Qed.

Lemma prefilter_loop_spec env ds i pg :
  match prefilter_loop env i ds pg with
  | inl out => held out
  | inr pg' =>
      inputIncompleteReason pg' = ""%string ->
      inputIncompleteReason pg = ""%string /\
      ref_prefilters ds (st_rc (pg_st pg)) (firstDetected pg)
      = Some (inr (st_rc (pg_st pg'), firstDetected pg'))
  end.
Proof.
  revert i pg. induction ds as [|d ds IH]; intros i pg; simpl; [done|].
  pose proof (prefilter_step_spec env i d pg) as Hs.
  destruct (prefilter_step env i d pg) as [out|pg1]; [done|].
  specialize (IH (S i) pg1). destruct (prefilter_loop env (S i) ds pg1) as [out|pg']; [done|].
  intros Hr. destruct (IH Hr) as [Hr1 Href]. destruct (Hs Hr1) as (Hr0 & r & Hc & Hb & Hrc & Hf).
  split; [done|]. rewrite Hc, <- Hrc. destruct r as [r|]; simpl in *.
  - by rewrite Hb, <- Hf.
  - by rewrite <- Hf.
Qed.

(** ** The semantic jobs *)

Lemma parentErr_mono env n m : (n <= m)%nat -> is_Some (parentErr env n) -> is_Some (parentErr env m).
Proof.
  unfold parentErr. intros Hm [e He]. destruct (parent_done env) as [[k e']|]; [|done].
  destruct (Nat.leb_spec k n); [|done]. destruct (Nat.leb_spec k m); [eauto|lia].
Qed.

Lemma budget_expired_mono env n m :
  (n <= m)%nat -> budget_expired env n = true -> budget_expired env m = true.
Proof.
  unfold budget_expired. destruct (budget_done env); [|done].
  intros ? H%Nat.leb_le. apply Nat.leb_le. lia.
Qed.

Lemma ctxErr_mono env n m : (n <= m)%nat -> is_Some (ctxErr env n) -> is_Some (ctxErr env m).
Proof.
  intros Hm. unfold ctxErr.
  destruct (parent_done env) as [[p e]|], (budget_done env) as [b|]; try destruct (p <=? b)%nat;
    try (by apply parentErr_mono);
    destruct (budget_expired env n) eqn:E; try (by intros [? ?]);
    rewrite (budget_expired_mono env n m Hm E); eauto.
Qed.

(** A job either fills its slot at once or is queued and runs: no slot is left
    with the zero value, because a done context stays done. *)
Lemma submit_job_shape env i d st :
  let '(st', filled, queued) := submit_job env i d st in
  st_rc st' = st_rc st
  /\ ((queued = [] /\ exists e, filled = Some (error_out i e))
      \/ (filled = None /\ queued = [run_job env i d (rc_Metadata (st_rc st))])).
Proof.
  unfold submit_job. destruct (acquire _ _) as [[a t] ok]. destruct ok; simpl; [|split; eauto].
  destruct (bool_decide (is_Some (ctxErr env (st_now st)))) eqn:Ec, (queue_room env i); simpl.
  - destruct (done_first env i); simpl; [|split; eauto].
    destruct (ctxErr env (S (st_now st))) eqn:Ec'; split; eauto.
    apply bool_decide_eq_true in Ec. apply (ctxErr_mono _ _ (S (st_now st))) in Ec; [|lia].
    rewrite Ec' in Ec. by destruct Ec.
  - destruct (ctxErr env (S (st_now st))) eqn:Ec'; split; eauto.
    apply bool_decide_eq_true in Ec. apply (ctxErr_mono _ _ (S (st_now st))) in Ec; [|lia].
    rewrite Ec' in Ec. by destruct Ec.
  - split; eauto.
  - destruct (ctxErr env (S (st_now st))); simpl; split; eauto.
Qed.

Definition slot_of (filled : option semanticJobOut) (queued : list semanticJobOut) : semanticJobOut :=
  match filled, queued with
  | Some o, _ => o
  | None, o :: _ => o
  | None, [] => zero_out
  end.

(** The slots of [outs] when all jobs are in. *)
Fixpoint final_outs (env : Env) (i : nat) (ds : list Detector) (st : PState) : list semanticJobOut :=
  match ds with
  | [] => []
  | d :: ds => let '(st', filled, queued) := submit_job env i d st in
               slot_of filled queued :: final_outs env (S i) ds st'
  end.

Lemma collect_insert outs q i o :
  Forall (fun o' => out_index o' <> i) q -> collect (<[i := o]> outs) q = <[i := o]> (collect outs q).
Proof.
  revert outs. induction q as [|o' q IH]; intros outs Hq; simpl; [done|]. inversion_clear Hq as [|? ? H1 H2].
  rewrite <- IH by done. by rewrite list_insert_insert_ne by done.
Qed.

Lemma collect_length outs q : length (collect outs q) = length outs.
Proof.
  revert outs. induction q as [|o q IH]; intros outs; simpl; [done|]. by rewrite IH, length_insert.
Qed.

(** The completion order cannot be seen: each job writes its own slot. *)
Lemma collect_permutation outs q q' :
  Permutation q q' -> NoDup (out_index <$> q) -> collect outs q = collect outs q'.
Proof.
  intros H. revert outs. induction H as [|o q q' H IH|o o' q|q q' q'' H1 IH1 H2 IH2];
    intros outs Hd; simpl in *.
  - done.
  - apply NoDup_cons in Hd as [_ Hd]. by apply IH.
  - apply NoDup_cons in Hd as [Hn Hd]. apply not_elem_of_cons in Hn as [Hn _].
    by rewrite list_insert_insert_ne by done.
  - rewrite IH1 by done. apply IH2. by rewrite <- H1.
Qed.

Lemma submit_all_spec env ds i st outs st' outs' q :
  submit_all env i ds st outs = (st', outs', q) -> length outs = (i + length ds)%nat ->
  collect outs' q = take i outs ++ final_outs env i ds st
  /\ st_rc st' = st_rc st /\ Forall (fun o => (i <= out_index o)%nat) q /\ NoDup (out_index <$> q).
Proof.
  revert i st outs st' outs' q. induction ds as [|d ds IH]; simpl; intros i st outs st' outs' q H Hl.
  { injection H as <- <- <-. rewrite take_ge by lia. rewrite app_nil_r.
    split_and!; [done|done|done|constructor]. }
  pose proof (submit_job_shape env i d st) as Hs.
  destruct (submit_job env i d st) as [[st1 filled] queued]. destruct Hs as [Hst Hs].
  destruct (submit_all _ _ _ _ _) as [[st2 outs2] q2] eqn:E. injection H as <- <- <-.
  assert (Hl1 : forall f : option semanticJobOut,
    length (match f with Some o => <[i:=o]> outs | None => outs end) = (S i + length ds)%nat).
  { intros [o|]; rewrite ?length_insert; lia. }
  destruct (IH _ _ _ _ _ _ E (Hl1 filled)) as (Hc & Hrc & Hge & Hnd).
  assert (Hgt : Forall (fun o => out_index o <> i) q2).
  { eapply Forall_impl; [exact Hge|]. simpl. lia. }
  assert (Hge' : Forall (fun o => (i <= out_index o)%nat) q2).
  { eapply Forall_impl; [exact Hge|]. simpl. lia. }
  assert (Hin : (i < length outs)%nat) by lia.
  destruct Hs as [[-> [e ->]]|[-> ->]]; simpl in *.
  - split_and!; [|congruence|done|done].
    rewrite Hc. rewrite (take_S_r _ _ (error_out i e)), take_insert_ge by
      (try rewrite list_lookup_insert_eq by done; done). by rewrite <- app_assoc.
  - assert (Hi : out_index (run_job env i d (rc_Metadata (st_rc st))) = i).
    { unfold run_job. destruct (worker_ctx env i); [done|]. by destruct (guard_result _ _ _). }
    split_and!; [|congruence| |].
    + rewrite Hi, collect_insert by done. rewrite Hc.
      destruct (lookup_lt_is_Some_2 outs i Hin) as [x Hx].
      rewrite (take_S_r outs i x Hx), <- app_assoc. simpl.
      by rewrite insert_app_r_alt, length_take, Nat.min_l, Nat.sub_diag by (rewrite ?length_take; lia).
    + constructor; [lia|done].
    + apply NoDup_cons. split; [|done]. rewrite Hi, list_elem_of_fmap. intros (o & Ho & Hq).
      rewrite Forall_forall in Hgt. by apply (Hgt o).
Qed.

(** ** Merging the jobs *)

Lemma merge_out_clean m o :
  detectErr (merge_out m o) = None -> inputIncompleteReason (mg_pg (merge_out m o)) = ""%string ->
  detectErr m = None /\ inputIncompleteReason (mg_pg m) = ""%string /\ out_err o = None
  /\ forall fork, out_fork o = Some fork ->
       st_rc (pg_st (mg_pg (merge_out m o))) = absorb (st_rc (pg_st (mg_pg m))) fork (out_result o)
       /\ firstDetected (mg_pg (merge_out m o)) = kept keep_better (firstDetected (mg_pg m)) (out_result o).
Proof.
  unfold merge_out. destruct (detectorIncompleteReason (out_err o)) as [reason|] eqn:Er; simpl.
  { intros _ [_ Hn]%note_reason_empty. by apply incomplete_reason_nonempty in Er. }
  destruct (out_err o) as [e|]; simpl.
  { destruct (detectErr m); simpl; [|done]. by destruct (_ || _). }
  destruct (out_fork o) as [f|]; simpl; [|done].
  intros -> Hr. split_and!; [done| |done|].
  - by destruct (out_result o).
  - intros fork [= <-]. by destruct (out_result o).
Qed.

Lemma run_job_clean env i d md :
  out_err (run_job env i d md) = None ->
  completed d md = Some (out_result (run_job env i d md))
  /\ out_fork (run_job env i d md) = Some (dt_fork d md).
Proof.
  unfold run_job. destruct (worker_ctx env i); [done|].
  destruct (guard_result _ _ _) as [r e] eqn:Eg. simpl. intros ->. by apply guard_no_error in Eg.
Qed.

Lemma merge_fold_clean env ds i st m :
  let m' := fold_left merge_out (final_outs env i ds st) m in
  detectErr m' = None -> inputIncompleteReason (mg_pg m') = ""%string ->
  detectErr m = None /\ inputIncompleteReason (mg_pg m) = ""%string
  /\ ref_semantic (rc_Metadata (st_rc st)) ds (st_rc (pg_st (mg_pg m))) (firstDetected (mg_pg m))
     = Some (st_rc (pg_st (mg_pg m')), firstDetected (mg_pg m')).
Proof.
  revert i st m. induction ds as [|d ds IH]; intros i st m; simpl; [done|].
  pose proof (submit_job_shape env i d st) as Hs.
  destruct (submit_job env i d st) as [[st1 filled] queued]. destruct Hs as [Hst Hs].
  simpl. intros He Hr. destruct (IH _ _ _ He Hr) as (He1 & Hr1 & Href). clear IH.
  destruct (merge_out_clean m _ He1 Hr1) as (He0 & Hr0 & Hnone & Hf).
  destruct Hs as [[-> [e ->]]|[-> ->]]; simpl in *; [done|].
  destruct (run_job_clean _ _ _ _ Hnone) as [Hc Hfork]. destruct (Hf _ Hfork) as [Hrc Hfirst].
  split_and!; [done|done|]. rewrite Hc. rewrite Hrc, Hfirst, Hst in Href. exact Href.
Qed.

(** ** Phase 2 under the closed policy *)

(** The outcome is an error, an enforced verdict, or the reference's. *)
Definition held_or (out : Outcome) (ref : option (RequestContext * option DetectionResult)) : Prop :=
  held out \/ exists st first, out = (st, Some (verdict first), None) /\ ref = Some (st_rc st, first).

Lemma conclude_spec env pg ref :
  (inputIncompleteReason pg = ""%string -> ref = Some (st_rc (pg_st pg), firstDetected pg)) ->
  held_or (conclude env pg) ref.
Proof.
  intros H. unfold conclude. destruct (String.eqb_spec (inputIncompleteReason pg) "") as [E|E]; simpl.
  - right. exists (pg_st pg), (firstDetected pg). split; [done|by apply H].
  - left. apply finalize_held.
Qed.

Lemma held_left out ref : held out -> held_or out ref.
Proof. by left. Qed.
#[export] Hint Resolve held_left : pipeline.

Lemma unless_parent_held_or env st k ref :
  held_or (k (tick st)) ref -> held_or (unless_parent_done env st k) ref.
Proof. intros Hk. unfold unless_parent_done. destruct (parentErr _ _); [by left|done]. Qed.

(** The reference of the phase, when no pre-filter reported incomplete input. *)
Definition phase_ref (ds : list Detector) (pg : Progress) ref : Prop :=
  inputIncompleteReason pg = ""%string ->
  ref_semantic (rc_Metadata (st_rc (pg_st pg))) ds (st_rc (pg_st pg)) (firstDetected pg) = ref.

Lemma semantic_single_spec env d pg ref :
  phase_ref [d] pg ref -> held_or (semantic_single env d pg) ref.
Proof.
  intros Hr0. unfold semantic_single. cbv zeta.
  destruct (guard_result _ _ _) as [result err] eqn:Eg. destruct err as [e|].
  - destruct (detectorIncompleteReason _); [eauto with pipeline|].
    destruct (is_overload e); [eauto with pipeline|].
    apply unless_parent_held_or. destruct (_ && _); eauto with pipeline.
  - apply guard_no_error in Eg. simpl. destruct result as [r|];
      apply unless_parent_held_or; (destruct (_ && _); [eauto with pipeline|]);
      apply conclude_spec; simpl; intros Hr; rewrite <- (Hr0 Hr); simpl; by rewrite Eg.
Qed.

Lemma after_merge_spec env m ref :
  (detectErr m = None -> inputIncompleteReason (mg_pg m) = ""%string ->
   ref = Some (st_rc (pg_st (mg_pg m)), firstDetected (mg_pg m))) ->
  held_or (after_merge env m) ref.
Proof.
  intros H. unfold after_merge. cbv zeta. destruct (_ && guardOverloaded m); [eauto with pipeline|].
  destruct (_ && budgetAnalysisIncomplete _ _ _); [eauto with pipeline|].
  apply unless_parent_held_or. destruct (negb _) eqn:Er; [eauto with pipeline|].
  destruct (detectErr m); [eauto with pipeline|]. apply conclude_spec. simpl. intros E. by apply H.
Qed.

Definition fair (env : Env) : Prop := forall l, Permutation (arrival env l) l.

Lemma submit_all_rc env ds i st outs :
  st_rc (submit_all env i ds st outs).1.1 = st_rc st.
Proof.
  revert i st outs. induction ds as [|d ds IH]; simpl; intros i st outs; [done|].
  pose proof (submit_job_shape env i d st) as Hs.
  destruct (submit_job env i d st) as [[st1 filled] queued]. destruct Hs as [Hst _].
  specialize (IH (S i) st1 (match filled with Some o => <[i:=o]> outs | None => outs end)).
  destruct (submit_all _ _ _ _ _) as [[st2 outs2] q2]. simpl in *. congruence.
Qed.

Lemma semantic_multi_explicit env ds pg :
  fair env ->
  semantic_multi env ds pg =
  after_merge env (fold_left merge_out (final_outs env 0 ds (pg_st pg))
    {| mg_pg := {| pg_st := (submit_all env 0 ds (pg_st pg) (replicate (length ds) zero_out)).1.1;
                   firstDetected := firstDetected pg;
                   inputIncompleteReason := inputIncompleteReason pg |};
       detectErr := None; guardOverloaded := false |}).
Proof.
  intros Hfair. unfold semantic_multi.
  destruct (submit_all _ _ _ _ _) as [[st outs] q] eqn:E.
  destruct (submit_all_spec _ _ _ _ _ _ _ _ E) as (Hc & _ & _ & Hnd).
  { by rewrite length_replicate. }
  simpl in Hc. f_equal. f_equal. rewrite <- Hc.
  symmetry. apply collect_permutation; [symmetry; apply Hfair|done].
Qed.

Lemma semantic_multi_eq env ds pg :
  fair env ->
  exists st, st_rc st = st_rc (pg_st pg) /\
  semantic_multi env ds pg =
  after_merge env (fold_left merge_out (final_outs env 0 ds (pg_st pg))
    {| mg_pg := {| pg_st := st; firstDetected := firstDetected pg;
                   inputIncompleteReason := inputIncompleteReason pg |};
       detectErr := None; guardOverloaded := false |}).
Proof.
  intros Hfair. eexists. split; [apply submit_all_rc|by apply semantic_multi_explicit].
Qed.

Lemma semantic_phase_spec env ds pg ref :
  fair env -> phase_ref ds pg ref -> held_or (semantic_phase env ds pg) ref.
Proof.
  intros Hfair Hr. destruct ds as [|d [|d' ds]].
  - apply conclude_spec. intros E. by rewrite <- (Hr E).
  - by apply semantic_single_spec.
  - unfold semantic_phase. destruct (semantic_multi_eq env (d :: d' :: ds) pg Hfair) as (st & Hst & ->).
    apply after_merge_spec. intros He Hre.
    destruct (merge_fold_clean env _ 0 (pg_st pg) _ He Hre) as (_ & Hr0 & Href).
    rewrite <- Href. simpl. rewrite Hst. symmetry. by apply Hr.
Qed.

(** ** Detect under the closed policy *)

Lemma ctx_done_held env st first :
  held (unless_parent_done env st (fun st => finalizeBudgetExhausted env st first)).
Proof. eauto with pipeline. Qed.

(** A request that is let through without a challenge or a block, under the
    closed policy, was seen to the end by every detector. *)
Lemma detect_body_closed env s st st' r :
  fair env -> detect_body env s st = (st', Some r, None) ->
  policy_after st' = "closed"%string -> enforcing (dr_Action r) = false ->
  ref_detect s (st_rc st) = Some (st_rc st', r).
Proof.
  intros Hfair H Hp Ha. unfold detect_body in H.
  assert (Hheld : ~ held (st', Some r, None)).
  { intros (d & [= <-] & Hd). by rewrite (Hd Hp) in Ha. }
  pose proof (prefilter_loop_spec env (preFilters s) 0
    {| pg_st := st; firstDetected := None; inputIncompleteReason := "" |}) as Hpre.
  destruct (prefilter_loop _ _ _ _) as [out|pg]; [by rewrite <- H in Hheld|].
  destruct (ctxErr _ _).
  { rewrite <- H in Hheld. by destruct Hheld; apply ctx_done_held. }
  set (pg' := {| pg_st := tick (pg_st pg); firstDetected := firstDetected pg;
                 inputIncompleteReason := inputIncompleteReason pg |}) in H.
  assert (Hphase : phase_ref (semanticGroup s) pg'
    (if String.eqb (inputIncompleteReason pg) "" then
       ref_semantic (rc_Metadata (st_rc (pg_st pg))) (semanticGroup s) (st_rc (pg_st pg)) (firstDetected pg)
     else None)).
  { unfold phase_ref. simpl. by intros ->. }
  destruct (semantic_phase_spec env _ _ _ Hfair Hphase) as [Hh|(st1 & first & Hout & Href)];
    [by rewrite <- H in Hheld|].
  destruct (String.eqb_spec (inputIncompleteReason pg) "") as [E|]; [|done].
  destruct (Hpre E) as [_ Hpre']. unfold ref_detect. simpl in Hpre'. rewrite Hpre', Href.
  rewrite H in Hout. by simplify_eq.
Qed.

(** ** An undisturbed request *)

(** No cancellation, no expired budget, a body that could be read, a permit, a
    slot and a queue place for every detector. *)
Record quiet (env : Env) (site : string) : Prop := {
  q_parent : parent_done env = None;
  q_budget : budget_done env = None;
  q_body : body_error env = None;
  q_pre : forall i, exists stack, pre_fate env i = GCompleted stack;
  q_one : exists stack, one_fate env = GCompleted stack;
  q_site : forall i, (acquire (site_counter env i) site).2 = true;
  q_room : forall i, queue_room env i = true;
  q_worker : forall i, worker_ctx env i = None;
  q_job : forall i, exists stack, job_fate env i = GCompleted stack;
  q_fair : fair env
}.

Section Quiet.
Context (env : Env) (site : string) (Hq : quiet env site).

Lemma quiet_parentErr n : parentErr env n = None.
Proof. unfold parentErr. by rewrite (q_parent _ _ Hq). Qed.

Lemma quiet_ctxErr n : ctxErr env n = None.
Proof. unfold ctxErr, budget_expired. by rewrite (q_parent _ _ Hq), (q_budget _ _ Hq). Qed.

Lemma quiet_budgetAnalysisIncomplete st err : budgetAnalysisIncomplete env st err = false.
Proof. unfold budgetAnalysisIncomplete. by rewrite quiet_ctxErr. Qed.

Lemma quiet_unless_parent st k : unless_parent_done env st k = k (tick st).
Proof. unfold unless_parent_done. by rewrite quiet_parentErr. Qed.

Lemma quiet_prefilter_step i d pg r :
  completed d (rc_Metadata (st_rc (pg_st pg))) = Some r ->
  exists st, st_rc st = absorb (st_rc (pg_st pg)) (dt_fork d (rc_Metadata (st_rc (pg_st pg)))) r
  /\ prefilter_step env i d pg =
     match r with
     | Some r' => if blocks r' then inl (st, Some r', None)
                  else inr {| pg_st := st; firstDetected := keep_first (firstDetected pg) r';
                              inputIncompleteReason := inputIncompleteReason pg |}
     | None => inr {| pg_st := st; firstDetected := firstDetected pg;
                      inputIncompleteReason := inputIncompleteReason pg |}
     end.
Proof.
  intros Hc. unfold prefilter_step. rewrite quiet_ctxErr. cbv zeta.
  destruct (q_pre _ _ Hq i) as [stack ->]. cbn [st_rc tick].
  rewrite (guard_completed stack d _ r Hc).
  exists (with_rc (tick (pg_st pg))
            (absorb (st_rc (pg_st pg)) (dt_fork d (rc_Metadata (st_rc (pg_st pg)))) r)).
  split; [done|]. by destruct r.
Qed.

Lemma quiet_prefilter_loop ds i pg out :
  ref_prefilters ds (st_rc (pg_st pg)) (firstDetected pg) = Some out ->
  exists st, match out with
  | inl (rc, r) => prefilter_loop env i ds pg = inl (st, Some r, None) /\ st_rc st = rc
  | inr (rc, first) =>
      prefilter_loop env i ds pg
      = inr {| pg_st := st; firstDetected := first; inputIncompleteReason := inputIncompleteReason pg |}
      /\ st_rc st = rc
  end.
Proof.
  revert i pg. induction ds as [|d ds IH]; simpl; intros i pg H.
  { injection H as <-. exists (pg_st pg). by destruct pg. }
  destruct (completed d _) as [r|] eqn:Hc; [|done].
  destruct (quiet_prefilter_step i d pg r Hc) as (st & Hrc & ->). rewrite <- Hrc in H.
  destruct r as [r|].
  - destruct (blocks r) eqn:Eb; [injection H as <-; eauto|].
    exact (IH (S i) {| pg_st := st; firstDetected := _; inputIncompleteReason := _ |} H).
  - exact (IH (S i) {| pg_st := st; firstDetected := _; inputIncompleteReason := _ |} H).
Qed.

(** Every job is queued, and runs. *)
Lemma quiet_submit_job i d st :
  SiteID (st_rc st) = site ->
  exists st', st_rc st' = st_rc st
    /\ submit_job env i d st = (st', None, [run_job env i d (rc_Metadata (st_rc st))]).
Proof.
  intros Hs. unfold submit_job. pose proof (q_site _ _ Hq i) as Ha. rewrite Hs.
  destruct (acquire _ site) as [[a t] ok]. simpl in Ha. subst ok. simpl.
  rewrite quiet_ctxErr, (q_room _ _ Hq). simpl. eexists. by split; [|reflexivity].
Qed.

Lemma quiet_run_job i d md r :
  completed d md = Some r ->
  run_job env i d md = {| out_index := i; out_result := r; out_fork := Some (dt_fork d md);
                          out_err := None |}.
Proof.
  intros Hc. unfold run_job. rewrite (q_worker _ _ Hq).
  destruct (q_job _ _ Hq i) as [stack ->]. by rewrite (guard_completed stack d md r Hc).
Qed.

Lemma quiet_merge_fold ds i st m rc first :
  SiteID (st_rc st) = site -> detectErr m = None -> guardOverloaded m = false ->
  ref_semantic (rc_Metadata (st_rc st)) ds (st_rc (pg_st (mg_pg m))) (firstDetected (mg_pg m))
  = Some (rc, first) ->
  exists st', st_rc st' = rc
    /\ fold_left merge_out (final_outs env i ds st) m
       = {| mg_pg := {| pg_st := st'; firstDetected := first;
                        inputIncompleteReason := inputIncompleteReason (mg_pg m) |};
            detectErr := None; guardOverloaded := false |}.
Proof.
  revert i st m. induction ds as [|d ds IH]; simpl; intros i st m Hs He Hg H.
  { injection H as <- <-. exists (pg_st (mg_pg m)). destruct m as [[? ? ?] ? ?]. simpl in *. by subst. }
  destruct (quiet_submit_job i d st Hs) as (st1 & Hst1 & ->). simpl.
  destruct (completed d _) as [r|] eqn:Hc; [|done]. rewrite (quiet_run_job i d _ r Hc).
  set (o := {| out_index := i; out_result := r; out_fork := _; out_err := None |}).
  destruct (IH (S i) st1 (merge_out m o)) as (st' & Hrc & Hfold); [congruence|done|done| |].
  - rewrite Hst1. by destruct r.
  - exists st'. split; [done|]. rewrite Hfold. by destruct r.
Qed.

Lemma quiet_semantic_phase ds pg rc first :
  SiteID (st_rc (pg_st pg)) = site -> inputIncompleteReason pg = ""%string ->
  ref_semantic (rc_Metadata (st_rc (pg_st pg))) ds (st_rc (pg_st pg)) (firstDetected pg)
  = Some (rc, first) ->
  exists st', st_rc st' = rc /\ semantic_phase env ds pg = (st', Some (verdict first), None).
Proof.
  intros Hs Hr H. destruct ds as [|d [|d' ds]].
  - injection H as <- <-. exists (pg_st pg). split; [done|]. simpl. unfold conclude. by rewrite Hr.
  - simpl in H. destruct (completed d _) as [r|] eqn:Hc; [|done]. injection H as <- <-.
    simpl. unfold semantic_single. destruct (q_one _ _ Hq) as [stack ->].
    rewrite (guard_completed stack d _ r Hc). cbv zeta.
    destruct r as [r|]; simpl; rewrite quiet_unless_parent, quiet_budgetAnalysisIncomplete, andb_false_r;
      unfold conclude; simpl; rewrite Hr; simpl; eexists; (split; [|reflexivity]); reflexivity.
  - unfold semantic_phase.
    destruct (semantic_multi_eq env (d :: d' :: ds) pg (q_fair _ _ Hq)) as (st & Hst & ->).
    set (m := {| mg_pg := _; detectErr := None; guardOverloaded := false |}).
    destruct (quiet_merge_fold (d :: d' :: ds) 0 (pg_st pg) m rc first Hs eq_refl eq_refl)
      as (st' & Hrc & ->). { simpl. rewrite Hst. exact H. }
    unfold after_merge. cbv zeta. cbn [guardOverloaded detectErr mg_pg].
    rewrite quiet_budgetAnalysisIncomplete, !andb_false_r, quiet_unless_parent.
    unfold conclude. simpl. rewrite Hr. simpl. eexists. (split; [|reflexivity]). exact Hrc.
Qed.

Lemma absorb_SiteID rc fork r : SiteID (absorb rc fork r) = SiteID rc.
Proof.
  unfold absorb, mergeRequestContext. cbv zeta. case_bool_decide; by destruct r.
Qed.

Lemma ref_prefilters_SiteID ds rc first rc' first' :
  ref_prefilters ds rc first = Some (inr (rc', first')) -> SiteID rc' = SiteID rc.
Proof.
  revert rc first. induction ds as [|d ds IH]; simpl; intros rc first H; [by injection H as <- _|].
  destruct (completed d _) as [[r|]|]; [|..|done].
  - destruct (blocks r); [done|]. apply IH in H. by rewrite H, absorb_SiteID.
  - apply IH in H. by rewrite H, absorb_SiteID.
Qed.

Lemma quiet_detect_body s st rc r :
  SiteID (st_rc st) = site -> ref_detect s (st_rc st) = Some (rc, r) ->
  exists st', st_rc st' = rc /\ detect_body env s st = (st', Some r, None).
Proof.
  intros Hs H. unfold ref_detect in H. unfold detect_body.
  set (pg := {| pg_st := st; firstDetected := None; inputIncompleteReason := "" |}).
  destruct (ref_prefilters _ _ _) as [out|] eqn:Ep; [|done].
  destruct (quiet_prefilter_loop (preFilters s) 0 pg out Ep) as (st1 & H1).
  destruct out as [[rc1 r1]|[rc1 first]].
  - destruct H1 as [-> Hrc]. injection H as <- <-. by exists st1.
  - destruct H1 as [-> Hrc]. rewrite quiet_ctxErr.
    destruct (ref_semantic _ _ _ _) as [[rc2 first2]|] eqn:Esem; [|done]. injection H as <- <-.
    apply (quiet_semantic_phase _ {| pg_st := tick st1; firstDetected := first; inputIncompleteReason := "" |});
      simpl; [|done|by rewrite Hrc].
    rewrite Hrc. apply ref_prefilters_SiteID in Ep. simpl in Ep. congruence.
Qed.
End Quiet.
