(* ===== verification/PipelineSafety.v ===== *)
(** * No verdict is lost, no abandoned detector is seen, detectors stay ordered

    The block invariant of the pipeline's loops, the insensitivity to
    abandoned detectors and to the order in which jobs finish, the shape of the
    detector lists and the bounds of the budget; the properties of the pipeline
    and requests on which they apply. *)

From S2P Require Import Prelude GoText Acl Sandbox Pipeline PipelineFacts.
From stdpp Require Import sorting.
From Stdlib Require Import Permutation Sorted.

Open Scope list_scope.
Open Scope Z_scope.

#[local] Arguments mergeRequestContext : simpl never.

(** ** A block is never lost *)

(** The results since [base] and the detection kept so far: what was kept is
    a detection, and it blocks if any result does. *)
Definition block_kept (base : list DetectionResult) (rc : RequestContext)
  (first : option DetectionResult) : Prop :=
  (forall f, first = Some f -> Detected f = true)
  /\ exists new, Results rc = base ++ new
     /\ forall x, x ∈ new -> blocks x = true -> exists f, first = Some f /\ blocks f = true.

(** An outcome whose verdict blocks if any new result does. *)
Definition lossless (base : list DetectionResult) (out : Outcome) : Prop :=
  let '(st, r, e) := out in
  exists new, Results (st_rc st) = base ++ new
    /\ (e = None -> forall x, x ∈ new -> blocks x = true -> exists d, r = Some d /\ blocks d = true).

Lemma merge_Results rc fork : Results (mergeRequestContext rc fork) = Results rc.
Proof. unfold mergeRequestContext. destruct fork; [|done]. by case_bool_decide. Qed.

Lemma keep_better_blocks first r :
  (forall f, first = Some f -> Detected f = true) ->
  (exists f, first = Some f /\ blocks f = true) \/ blocks r = true ->
  exists f, keep_better first r = Some f /\ blocks f = true.
Proof.
  intros Hd H. unfold keep_better, betterDetectionResult. destruct first as [f|].
  - specialize (Hd f eq_refl). destruct (Detected r) eqn:Er; simpl.
    2: { destruct H as [(g & [= <-] & Hg)|Hr]; [eauto|]. unfold blocks in Hr. by rewrite Er in Hr. }
    assert (Hblk : forall x, Detected x = true -> dr_Action x = ActionBlock -> blocks x = true).
    { intros x Hx Hb. unfold blocks. by rewrite Hx, Hb. }
    assert (Hc : dr_Action f = ActionBlock \/ dr_Action r = ActionBlock).
    { unfold blocks in H. destruct H as [(g & [= <-] & Hg)|Hr]; props; auto. }
    case_bool_decide as Ea; simpl.
    + assert (dr_Action f = ActionBlock /\ dr_Action r = ActionBlock) as [Hf Hr] by (destruct Hc; split; congruence).
      destruct (if negb _ then _ else _); eauto.
    + destruct Hc as [Hf|Hr].
      * rewrite Hf in *. destruct (dr_Action r); simpl; try done; eauto.
      * rewrite Hr in *. destruct (dr_Action f); simpl; try done; eauto.
  - destruct H as [(? & ? & ?)|Hr]; [done|]. unfold blocks in Hr. props. rewrite H. simpl.
    exists r. split; [done|]. unfold blocks. by rewrite H, H0.
Qed.

Lemma keep_better_detected first r :
  (forall f, first = Some f -> Detected f = true) ->
  forall f, keep_better first r = Some f -> Detected f = true.
Proof.
  intros Hd f. unfold keep_better. destruct (Detected r) eqn:Er; simpl; [|apply Hd].
  destruct (betterDetectionResult _ _); [by intros [= <-]|apply Hd].
Qed.

Lemma keep_first_detected first r :
  (forall f, first = Some f -> Detected f = true) ->
  forall f, keep_first first r = Some f -> Detected f = true.
Proof.
  intros Hd f. unfold keep_first. destruct (Detected r) eqn:Er; [|apply Hd].
  destruct first; [apply Hd|by intros [= <-]].
Qed.

Lemma block_kept_better base rc first r :
  block_kept base rc first -> block_kept base (add_result rc r) (keep_better first r).
Proof.
  intros (Hd & new & Hr & Hn). split; [by apply keep_better_detected|].
  exists (new ++ [r]). split; [simpl; by rewrite Hr, app_assoc|].
  intros x [Hx|Hx%list_elem_of_singleton]%elem_of_app Hb; apply keep_better_blocks; eauto.
  right. by subst.
Qed.

Lemma block_kept_first base rc first r :
  blocks r = false -> block_kept base rc first -> block_kept base (add_result rc r) (keep_first first r).
Proof.
  intros Hb (Hd & new & Hr & Hn). split; [by apply keep_first_detected|].
  exists (new ++ [r]). split; [simpl; by rewrite Hr, app_assoc|].
  intros x [Hx|Hx%list_elem_of_singleton]%elem_of_app Hbx; [|congruence].
  destruct (Hn x Hx Hbx) as (f & -> & Hf). exists f. split; [|done].
  unfold keep_first. by destruct (Detected r).
Qed.

Lemma block_kept_merge base rc first fork :
  block_kept base rc first -> block_kept base (mergeRequestContext rc fork) first.
Proof. unfold block_kept. by rewrite merge_Results. Qed.

Lemma block_kept_Results base rc rc' first :
  Results rc' = Results rc -> block_kept base rc first -> block_kept base rc' first.
Proof. unfold block_kept. by intros ->. Qed.

Lemma block_returned base st first r :
  block_kept base (st_rc st) first -> blocks r = true ->
  lossless base (with_rc st (add_result (st_rc st) r), Some r, None).
Proof.
  intros (Hd & new & Hr & Hn) Hb. exists (new ++ [r]). simpl. rewrite Hr, app_assoc.
  split; [done|]. eauto.
Qed.

Lemma error_lossless base st first e :
  block_kept base (st_rc st) first -> lossless base (st, None, Some e).
Proof. intros (Hd & new & Hr & Hn). by exists new. Qed.

Lemma mark_incomplete_Results rc reason b : Results (mark_incomplete rc reason b) = Results rc.
Proof. unfold mark_incomplete. cbv zeta. by destruct (has _ _). Qed.

Lemma finalize_lossless base env st first reason b :
  block_kept base (st_rc st) first -> lossless base (finalizeAnalysisIncomplete env st first reason b).
Proof.
  intros (Hd & new & Hr & Hn). unfold finalizeAnalysisIncomplete. cbv zeta. cbn [st_rc with_rc].
  set (rc := mark_incomplete (st_rc st) reason b).
  assert (Hrc : Results rc = base ++ new) by (unfold rc; by rewrite mark_incomplete_Results).
  clearbody rc. set (pol := fail_mode (rc_Metadata rc)). clearbody pol.
  assert (Hput : Results (put_md rc "budget_exhausted_policy" (VString pol)) = base ++ new) by done.
  set (rc' := put_md _ _ _) in *. clearbody rc'.
  destruct (match first with Some d => _ | None => false end) eqn:Ef.
  { exists new. split; [done|]. intros _ x Hx Hb. by destruct (Hn x Hx Hb) as (f & -> & Hf); eauto. }
  assert (Hno : forall x, x ∈ new -> blocks x = false).
  { intros x Hx. destruct (blocks x) eqn:Hb; [|done]. destruct (Hn x Hx Hb) as (f & -> & Hf).
    pose proof (blocks_enforcing f Hf) as He. rewrite He, (Hd f eq_refl) in Ef. done. }
  destruct (String.eqb pol "closed"); [|destruct (String.eqb pol "observe")].
  - exists (new ++ [incomplete_result b true]). simpl. rewrite Hput, app_assoc. split; [done|].
    intros _ x [Hx|Hx%list_elem_of_singleton]%elem_of_app Hb; [by rewrite Hno in Hb|by subst].
  - destruct first as [f|]; [rewrite (Hd f eq_refl)|].
    + exists new. split; [done|]. intros _ x Hx Hb. by rewrite Hno in Hb.
    + exists (new ++ [incomplete_result b false]). simpl. rewrite Hput, app_assoc. split; [done|].
      intros _ x [Hx|Hx%list_elem_of_singleton]%elem_of_app Hb; [by rewrite Hno in Hb|by subst].
  - exists new. split; [done|]. intros _ x Hx Hb. by rewrite Hno in Hb.
Qed.

Lemma overload_lossless base env st first :
  block_kept base (st_rc st) first -> lossless base (finalizeGuardOverload env st first).
Proof. intros H. apply finalize_lossless. by apply (block_kept_Results _ (st_rc st)). Qed.

Lemma unless_parent_lossless base env st first k :
  block_kept base (st_rc st) first ->
  (block_kept base (st_rc (tick st)) first -> lossless base (k (tick st))) ->
  lossless base (unless_parent_done env st k).
Proof.
  intros H Hk. unfold unless_parent_done. destruct (parentErr _ _); [|by apply Hk].
  by apply (error_lossless base (tick st) first).
Qed.

Lemma conclude_lossless base env pg :
  block_kept base (st_rc (pg_st pg)) (firstDetected pg) -> lossless base (conclude env pg).
Proof.
  intros H. unfold conclude. destruct (negb _); [by apply finalize_lossless|].
  destruct H as (Hd & new & Hr & Hn). exists new. split; [done|].
  intros _ x Hx Hb. destruct (Hn x Hx Hb) as (f & -> & Hf). eauto.
Qed.

#[export] Hint Resolve finalize_lossless overload_lossless conclude_lossless block_kept_merge
  block_kept_better : pipeline.

Lemma budget_lossless base env st first :
  block_kept base (st_rc st) first -> lossless base (finalizeBudgetExhausted env st first).
Proof. apply finalize_lossless. Qed.
Lemma input_lossless base env st first reason :
  block_kept base (st_rc st) first -> lossless base (finalizeInputIncomplete env st first reason).
Proof. apply finalize_lossless. Qed.

Definition pg_kept (base : list DetectionResult) (pg : Progress) : Prop :=
  block_kept base (st_rc (pg_st pg)) (firstDetected pg).

Lemma prefilter_step_lossless base env i d pg :
  pg_kept base pg ->
  match prefilter_step env i d pg with
  | inl out => lossless base out
  | inr pg' => pg_kept base pg'
  end.
Proof.
  unfold pg_kept. intros H. unfold prefilter_step.
  destruct (ctxErr _ _).
  { apply (unless_parent_lossless _ _ _ (firstDetected pg)); [done|]. apply budget_lossless. }
  cbv zeta. destruct (guard_result _ _ _) as [result err] eqn:Eg. destruct err as [e|].
  - destruct (is_overload e).
    { apply (unless_parent_lossless _ _ _ (firstDetected pg)); [done|]. apply overload_lossless. }
    destruct (parentErr _ _); [by apply (error_lossless _ _ (firstDetected pg))|].
    destruct (budgetAnalysisIncomplete _ _ _); [by apply budget_lossless|].
    destruct (detectorIncompleteReason _) as [reason|] eqn:Er; [|by apply input_lossless].
    destruct result as [r|]; simpl; [|by apply block_kept_merge].
    destruct (blocks r) eqn:Eb.
    + apply (block_returned base (with_rc _ _) (firstDetected pg)); [by apply block_kept_merge|done].
    + by apply block_kept_better, block_kept_merge.
  - destruct result as [r|]; simpl; [|by apply block_kept_merge].
    destruct (blocks r) eqn:Eb.
    + apply (block_returned base (with_rc _ _) (firstDetected pg)); [by apply block_kept_merge|done].
    + by apply block_kept_first, block_kept_merge.
Qed.

Lemma prefilter_loop_lossless base env ds i pg :
  pg_kept base pg ->
  match prefilter_loop env i ds pg with
  | inl out => lossless base out
  | inr pg' => pg_kept base pg'
  end.
Proof.
  revert i pg. induction ds as [|d ds IH]; intros i pg H; simpl; [done|].
  pose proof (prefilter_step_lossless base env i d pg H) as Hs.
  destruct (prefilter_step env i d pg); [done|]. by apply IH.
Qed.

Lemma semantic_single_lossless base env d pg :
  pg_kept base pg -> lossless base (semantic_single env d pg).
Proof.
  unfold pg_kept. intros H. unfold semantic_single. cbv zeta.
  destruct (guard_result _ _ _) as [result err].
  destruct (match err with None => _ | Some _ => _ end) as [st first] eqn:Est.
  assert (Hk : block_kept base (st_rc st) first).
  { destruct err as [e|]; [by simplify_eq|]. destruct result as [r|]; simplify_eq; simpl.
    - by apply block_kept_better, block_kept_merge.
    - by apply block_kept_merge. }
  clear Est. destruct (detectorIncompleteReason err) as [reason|].
  { apply (unless_parent_lossless _ _ _ first); [done|]. intros Ht.
    by apply input_lossless, block_kept_merge. }
  destruct (match err with Some e => is_overload e | None => false end).
  { apply (unless_parent_lossless _ _ _ first); [done|]. apply overload_lossless. }
  apply (unless_parent_lossless _ _ _ first); [done|]. intros Ht.
  destruct (_ && _); [by apply budget_lossless|].
  destruct err; [by apply input_lossless|]. by apply conclude_lossless.
Qed.

Lemma merge_out_kept base m o :
  pg_kept base (mg_pg m) -> pg_kept base (mg_pg (merge_out m o)).
Proof.
  unfold pg_kept. intros H. unfold merge_out. destruct (detectorIncompleteReason _); simpl.
  { by apply block_kept_merge. }
  destruct (out_err o); [done|]. destruct (out_fork o); [|done].
  destruct (out_result o); simpl; [|by apply block_kept_merge].
  by apply block_kept_better, block_kept_merge.
Qed.

Lemma merge_fold_kept base outs m :
  pg_kept base (mg_pg m) -> pg_kept base (mg_pg (fold_left merge_out outs m)).
Proof.
  revert m. induction outs as [|o outs IH]; simpl; intros m H; [done|].
  by apply IH, merge_out_kept.
Qed.

Lemma after_merge_lossless base env m :
  pg_kept base (mg_pg m) -> lossless base (after_merge env m).
Proof.
  unfold pg_kept. intros H. unfold after_merge. cbv zeta.
  destruct (_ && guardOverloaded m); [by apply overload_lossless|].
  destruct (_ && budgetAnalysisIncomplete _ _ _); [by apply budget_lossless|].
  apply (unless_parent_lossless _ _ _ (firstDetected (mg_pg m))); [done|]. intros Ht.
  destruct (negb _); [by apply input_lossless|].
  destruct (detectErr m); [by apply input_lossless|]. by apply conclude_lossless.
Qed.

Lemma semantic_phase_lossless base env ds pg :
  pg_kept base pg -> lossless base (semantic_phase env ds pg).
Proof.
  intros H. destruct ds as [|d [|d' ds]]; simpl.
  - by apply conclude_lossless.
  - by apply semantic_single_lossless.
  - change (lossless base (semantic_multi env (d :: d' :: ds) pg)). unfold semantic_multi.
    pose proof (submit_all_rc env (d :: d' :: ds) 0 (pg_st pg)
      (replicate (length (d :: d' :: ds)) zero_out)) as Hrc.
    destruct (submit_all _ _ _ _ _) as [[st outs] q]. simpl in Hrc.
    apply after_merge_lossless, merge_fold_kept. unfold pg_kept. simpl. by rewrite Hrc.
Qed.

Lemma detect_request_lossless env p st : lossless (Results (st_rc st)) (detect_request env p st).
Proof.
  assert (Hno : lossless (Results (st_rc st)) (st, Some pass_result, None)).
  { exists []. rewrite app_nil_r. split; [done|]. by intros _ x Hx%elem_of_nil. }
  assert (Hk : block_kept (Results (st_rc st)) (st_rc st) None).
  { split; [done|]. exists []. rewrite app_nil_r. split; [done|]. by intros x Hx%elem_of_nil. }
  unfold detect_request. destruct p as [s|]; [|done].
  destruct (if bool_decide _ then _ else _) as [e|].
  { apply (unless_parent_lossless _ _ _ None); [done|]. apply error_lossless. }
  unfold detect_body.
  pose proof (prefilter_loop_lossless _ env (preFilters s) 0
    {| pg_st := st; firstDetected := None; inputIncompleteReason := "" |} Hk) as Hl.
  destruct (prefilter_loop _ _ _ _) as [out|pg]; [done|].
  destruct (ctxErr _ _).
  - apply (unless_parent_lossless _ _ _ (firstDetected pg)); [done|]. apply budget_lossless.
  - by apply semantic_phase_lossless.
Qed.

(** ** Abandoned detectors *)

(** The worker delivered what the detector returned. *)
Definition delivered (f : GuardFate) : bool := match f with GCompleted _ => true | _ => false end.

Definition same_run (d d' : Detector) : Prop :=
  forall md, dt_Detect d md = dt_Detect d' md /\ dt_fork d md = dt_fork d' md.

(** The lists differ at most in detectors whose results were not delivered. *)
Fixpoint agree (fate : nat -> bool) (i : nat) (ds ds' : list Detector) : Prop :=
  match ds, ds' with
  | [], [] => True
  | d :: ds, d' :: ds' => (fate i = true -> same_run d d') /\ agree fate (S i) ds ds'
  | _, _ => False
  end.

Definition group_fate (env : Env) (ds : list Detector) (i : nat) : bool :=
  match ds with
  | [_] => delivered (one_fate env)
  | _ => bool_decide (worker_ctx env i = None) && delivered (job_fate env i)
  end.

(** What the guard returns without the worker: an error, and not one that a
    detector could have made. *)
Lemma undelivered f :
  delivered f = false ->
  exists e, (forall out : FnOut (option DetectionResult), guard_result None f out = (None, Some e))
            /\ detectorIncompleteReason (Some e) = None.
Proof.
  destruct f as [[]| | |[]| |[]|]; try done; intros _; eexists; split; try (intros out; reflexivity); done.
Qed.

Lemma prefilter_step_agree env i d d' pg :
  (delivered (pre_fate env i) = true -> same_run d d') ->
  prefilter_step env i d pg = prefilter_step env i d' pg.
Proof.
  intros H. unfold prefilter_step. destruct (ctxErr _ _); [done|]. cbv zeta.
  destruct (delivered (pre_fate env i)) eqn:Ef.
  - destruct (H eq_refl (rc_Metadata (st_rc (tick (pg_st pg))))) as [-> ->]. done.
  - destruct (undelivered _ Ef) as (e & He & Hn). rewrite !He, Hn. done.
Qed.

Lemma prefilter_loop_agree env ds ds' i pg :
  agree (fun i => delivered (pre_fate env i)) i ds ds' ->
  prefilter_loop env i ds pg = prefilter_loop env i ds' pg.
Proof.
  revert ds' i pg. induction ds as [|d ds IH]; intros [|d' ds'] i pg H; try done. destruct H as [Hd H].
  simpl. rewrite (prefilter_step_agree env i d d' pg Hd).
  destruct (prefilter_step env i d' pg); [done|]. by apply IH.
Qed.

Lemma semantic_single_agree env d d' pg :
  (delivered (one_fate env) = true -> same_run d d') ->
  semantic_single env d pg = semantic_single env d' pg.
Proof.
  intros H. unfold semantic_single. cbv zeta. destruct (delivered (one_fate env)) eqn:Ef.
  - destruct (H eq_refl (rc_Metadata (st_rc (pg_st pg)))) as [-> ->]. done.
  - destruct (undelivered _ Ef) as (e & He & Hn). rewrite !He, Hn. done.
Qed.

(** Equal slots, or the same error that no detector made. *)
Definition same_out (o o' : semanticJobOut) : Prop :=
  o = o' \/ exists e, out_err o = Some e /\ out_err o' = Some e /\ detectorIncompleteReason (Some e) = None.

Lemma merge_out_same m o o' : same_out o o' -> merge_out m o = merge_out m o'.
Proof.
  intros [->|(e & He & He' & Hn)]; [done|]. unfold merge_out. by rewrite He, He', Hn.
Qed.

Lemma final_outs_agree env ds ds' i st :
  agree (fun i => bool_decide (worker_ctx env i = None) && delivered (job_fate env i)) i ds ds' ->
  Forall2 same_out (final_outs env i ds st) (final_outs env i ds' st).
Proof.
  revert ds' i st. induction ds as [|d ds IH]; intros [|d' ds'] i st H; try done.
  destruct H as [Hd H]. simpl. unfold submit_job.
  destruct (acquire _ _) as [[a t] ok]. destruct ok; simpl; [|constructor; [by left|by apply IH]].
  destruct (enqueueSemanticJob _ _ _) as [enq over]. destruct enq; simpl.
  - constructor; [|by apply IH]. unfold run_job. destruct (worker_ctx env i) as [c|]; [by left|].
    simpl in Hd. destruct (delivered (job_fate env i)) eqn:Ef.
    + destruct (Hd eq_refl (rc_Metadata (st_rc st))) as [-> ->]. by left.
    + destruct (undelivered _ Ef) as (e & He & Hn). rewrite !He. right. by exists e.
  - destruct (ctxErr _ _); simpl; [constructor; [by left|by apply IH]|].
    destruct over; simpl; (constructor; [by left|by apply IH]).
Qed.

Lemma merge_fold_agree outs outs' m :
  Forall2 same_out outs outs' -> fold_left merge_out outs m = fold_left merge_out outs' m.
Proof.
  intros H. revert m. induction H as [|o o' outs outs' Ho H IH]; intros m; simpl; [done|].
  by rewrite (merge_out_same m o o' Ho).
Qed.

Lemma agree_length fate i ds ds' : agree fate i ds ds' -> length ds = length ds'.
Proof.
  revert i ds'. induction ds as [|d ds IH]; intros i [|d' ds'] H; try done.
  destruct H as [_ H]. simpl. f_equal. by eapply IH.
Qed.

Lemma submit_all_state env ds ds' i st outs :
  length ds = length ds' -> (submit_all env i ds st outs).1.1 = (submit_all env i ds' st outs).1.1.
Proof.
  revert ds' i st outs. induction ds as [|d ds IH]; intros [|d' ds'] i st outs H; try done.
  simpl in *. injection H as H.
  assert (Hj : (submit_job env i d st).1 = (submit_job env i d' st).1).
  { unfold submit_job. destruct (acquire _ _) as [[a t] ok]. destruct ok; simpl; [|done].
    destruct (enqueueSemanticJob _ _ _) as [[] over]; simpl; [done|].
    destruct (ctxErr _ _); [done|]. by destruct over. }
  destruct (submit_job env i d st) as [[st1 f1] q1], (submit_job env i d' st) as [[st2 f2] q2].
  simpl in Hj. injection Hj as <- <-.
  specialize (IH ds' (S i) st1 (match f1 with Some o => <[i:=o]> outs | None => outs end) H).
  destruct (submit_all env (S i) ds st1 _) as [[? ?] ?], (submit_all env (S i) ds' st1 _) as [[? ?] ?].
  simpl in *. done.
Qed.

Lemma semantic_phase_agree env ds ds' pg :
  fair env -> agree (group_fate env ds) 0 ds ds' ->
  semantic_phase env ds pg = semantic_phase env ds' pg.
Proof.
  intros Hfair H. pose proof (agree_length _ _ _ _ H) as Hl.
  destruct ds as [|d [|e ds]], ds' as [|d' [|e' ds']]; try done.
  - simpl. apply semantic_single_agree. apply H.
  - unfold semantic_phase. rewrite !semantic_multi_explicit by done.
    rewrite (merge_fold_agree _ _ _ (final_outs_agree env _ _ 0 (pg_st pg) H)), Hl.
    by rewrite (submit_all_state env _ _ 0 (pg_st pg) _ Hl).
Qed.

(** ** The order of completion *)

Definition with_arrival (env : Env) (a : list semanticJobOut -> list semanticJobOut) : Env :=
  {| parent_done := parent_done env; budget_done := budget_done env; body_state := body_state env;
     ensure_body := ensure_body env; hook_installed := hook_installed env; pre_fate := pre_fate env;
     one_fate := one_fate env; site_counter := site_counter env; queue_room := queue_room env;
     done_first := done_first env; worker_ctx := worker_ctx env; job_fate := job_fate env;
     job_wait := job_wait env; arrival := a |}.

Section Arrival.
Context (env : Env) (a : list semanticJobOut -> list semanticJobOut).
Let env' := with_arrival env a.

Lemma arrival_prefilter_loop ds i pg : prefilter_loop env' i ds pg = prefilter_loop env i ds pg.
Proof.
  revert i pg. induction ds as [|d ds IH]; intros i pg; simpl; [done|].
  change (prefilter_step env' i d pg) with (prefilter_step env i d pg).
  destruct (prefilter_step env i d pg); [done|apply IH].
Qed.

Lemma arrival_final_outs ds i st : final_outs env' i ds st = final_outs env i ds st.
Proof.
  revert i st. induction ds as [|d ds IH]; intros i st; simpl; [done|].
  change (submit_job env' i d st) with (submit_job env i d st).
  destruct (submit_job env i d st) as [[st1 f] q]. by rewrite IH.
Qed.

Lemma arrival_submit_all ds i st outs : submit_all env' i ds st outs = submit_all env i ds st outs.
Proof.
  revert i st outs. induction ds as [|d ds IH]; intros i st outs; simpl; [done|].
  change (submit_job env' i d st) with (submit_job env i d st).
  destruct (submit_job env i d st) as [[st1 f] q]. by rewrite IH.
Qed.

Lemma arrival_semantic_phase ds pg :
  fair env -> fair env' -> semantic_phase env' ds pg = semantic_phase env ds pg.
Proof.
  intros H H'. destruct ds as [|d [|d' ds]]; [done|done|]. unfold semantic_phase.
  rewrite !semantic_multi_explicit, arrival_final_outs, arrival_submit_all by done. done.
Qed.

Lemma arrival_detect p st : fair env -> fair env' -> Detect env' p st = Detect env p st.
Proof.
  intros H H'. destruct st as [st|]; [|done]. unfold Detect, detect_request.
  destruct p as [s|]; [|done]. change (body_error env') with (body_error env).
  destruct (if bool_decide _ then _ else _); [done|].
  unfold detect_body. rewrite arrival_prefilter_loop.
  destruct (prefilter_loop _ _ _ _) as [out|pg]; [done|].
  change (ctxErr env' (st_now (pg_st pg))) with (ctxErr env (st_now (pg_st pg))).
  destruct (ctxErr _ _); [done|]. by rewrite arrival_semantic_phase.
Qed.
End Arrival.

(** ** The detector lists *)

Definition by_priority (d e : Detector) : Prop := Priority d <= Priority e.

Lemma stable_insert_perm d l : Permutation (stable_insert d l) (d :: l).
Proof.
  induction l as [|e l IH]; simpl; [done|]. destruct (Priority d <? Priority e); [done|].
  rewrite IH. constructor.
Qed.

Lemma stable_insert_sorted d l :
  StronglySorted by_priority l -> StronglySorted by_priority (stable_insert d l).
Proof.
  induction 1 as [|e l Hs IH Hf]; simpl; [by repeat constructor|].
  destruct (Z.ltb_spec (Priority d) (Priority e)).
  - constructor; [by constructor|]. constructor; [unfold by_priority; lia|].
    eapply Forall_impl; [exact Hf|]. unfold by_priority. intros. lia.
  - constructor; [done|]. rewrite stable_insert_perm. constructor; [done|exact Hf].
Qed.

Lemma stable_insert_filter k d l :
  StronglySorted by_priority l ->
  List.filter (fun x => Priority x =? k) (stable_insert d l)
  = List.filter (fun x => Priority x =? k) (l ++ [d]).
Proof.
  induction 1 as [|e l Hs IH Hf]; simpl; [done|].
  destruct (Z.ltb_spec (Priority d) (Priority e)); simpl; [|by rewrite IH].
  destruct (Z.eqb_spec (Priority d) k) as [Ed|Ed].
  - assert (Hn : List.filter (fun x => Priority x =? k) l = []).
    { clear IH Hs. induction Hf as [|x l Hx Hf IH]; simpl; [done|].
      unfold by_priority in Hx. destruct (Z.eqb_spec (Priority x) k); [lia|done]. }
    rewrite List.filter_app, Hn. simpl. rewrite (proj2 (Z.eqb_eq _ _) Ed).
    destruct (Z.eqb_spec (Priority e) k); [lia|done].
  - rewrite List.filter_app. simpl. rewrite (proj2 (Z.eqb_neq _ _) Ed), app_nil_r. done.
Qed.

Lemma stable_sort_snoc l d : stable_sort (l ++ [d]) = stable_insert d (stable_sort l).
Proof. unfold stable_sort. by rewrite fold_left_app. Qed.

(** Sorting what is sorted already changes nothing. *)
Lemma stable_sort_sorted l : StronglySorted by_priority l -> stable_sort l = l.
Proof.
  induction l as [|d l IH] using rev_ind; [done|]. intros Hs.
  rewrite stable_sort_snoc. apply StronglySorted_app in Hs as (Hle & Hl & _).
  rewrite IH by done.
  assert (Hall : Forall (fun e => Priority e <= Priority d) l).
  { apply Forall_forall. intros e He. by apply (Hle e d He), list_elem_of_singleton. }
  clear -Hall. induction Hall as [|e l He Hl IH]; simpl; [done|].
  destruct (Z.ltb_spec (Priority d) (Priority e)); [lia|]. by rewrite IH.
Qed.

(** The lists of a pipeline built from [ds]: sorted by priority, stably, and
    split at the first semantic detector. *)
Record lists_ok (ds : list Detector) (s : pipelineSnapshot) : Prop := {
  lo_sorted : StronglySorted by_priority (detectors s);
  lo_perm : Permutation (detectors s) ds;
  lo_stable : forall k, List.filter (fun x => Priority x =? k) (detectors s)
                        = List.filter (fun x => Priority x =? k) ds;
  lo_split : detectors s = preFilters s ++ semanticGroup s;
  lo_pre : Forall (fun d => Priority d < 290) (preFilters s);
  lo_sem : Forall (fun d => 290 <= Priority d) (semanticGroup s)
}.

Lemma split_sorted l :
  StronglySorted by_priority l ->
  l = List.filter (fun d => Priority d <? 290) l ++ List.filter (fun d => negb (Priority d <? 290)) l.
Proof.
  induction 1 as [|d l Hs IH Hf]; simpl; [done|].
  destruct (Z.ltb_spec (Priority d) 290); simpl; [by f_equal|].
  assert (Hn : List.filter (fun d => Priority d <? 290) l = []).
  { clear IH Hs. induction Hf as [|e l He Hf IH]; simpl; [done|]. unfold by_priority in He.
    destruct (Z.ltb_spec (Priority e) 290); [lia|done]. }
  rewrite Hn in *. simpl in *. by f_equal.
Qed.

Lemma snapshot_ok ds l :
  StronglySorted by_priority l -> Permutation l ds ->
  (forall k, List.filter (fun x => Priority x =? k) l = List.filter (fun x => Priority x =? k) ds) ->
  lists_ok ds (makePipelineSnapshot l).
Proof.
  intros Hs Hp Hk. constructor; simpl; [done|done|done|by apply split_sorted|..];
    apply Forall_forall; intros d [_ Hd]%list_elem_of_In%filter_In; props; lia.
Qed.

Lemma add_ok ds s d : lists_ok ds s -> exists s', Pipeline.Add (Some s) (Some d) = Some s' /\ lists_ok (ds ++ [d]) s'.
Proof.
  intros H. eexists. split; [reflexivity|].
  rewrite stable_sort_snoc, stable_sort_sorted by apply H. apply snapshot_ok.
  - apply stable_insert_sorted, H.
  - rewrite stable_insert_perm, (lo_perm _ _ H). apply Permutation_cons_append.
  - intros k. rewrite stable_insert_filter by apply H. by rewrite !List.filter_app, (lo_stable _ _ H).
Qed.

Definition pipeline_ok (ds : list Detector) (p : option pipelineSnapshot) : Prop :=
  match p with None => ds = [] | Some s => lists_ok ds s end.

Lemma Add_ok ds p d : pipeline_ok ds p -> pipeline_ok (ds ++ option_list d) (Pipeline.Add p d).
Proof.
  destruct d as [d|]; simpl; [|by rewrite app_nil_r]. destruct p as [s|]; simpl; intros H.
  - by destruct (add_ok ds s d H) as (s' & [= <-] & Hs').
  - subst ds. apply (snapshot_ok [d]); [by repeat constructor|done|done].
Qed.

Lemma NewPipeline_ok ds : pipeline_ok (omap id ds) (NewPipeline ds).
Proof.
  induction ds as [|d ds IH] using rev_ind; [done|].
  unfold NewPipeline in *. rewrite fold_left_app, omap_app. cbn [fold_left].
  replace (omap id [d]) with (option_list d) by (by destruct d). by apply Add_ok.
Qed.

(** ** Properties *)

(** C1. Fail closed: a request that is let through without a block or a
    challenge, under a policy that is not open or observe, was analysed to the
    end. Every detector completed without an error, and the request and its
    verdict are exactly those of the sequential reference, whatever the
    scheduler, the clocks and the other requests did. *)
Theorem pass_means_fully_analysed env s st st' r :
  fair env ->
  Detect env (Some s) (Some st) = (Some st', Some r, None) ->
  policy_after st' = "closed"%string ->
  enforcing (dr_Action r) = false ->
  ref_detect s (st_rc st) = Some (st_rc st', r).
Proof.
  intros Hfair H Hp Ha. unfold Detect, detect_request in H.
  destruct (if bool_decide _ then _ else _) as [e|] eqn:Eb.
  { unfold unless_parent_done in H. destruct (parentErr _ _); simplify_eq. }
  destruct (detect_body env s st) as [[st1 r1] e1] eqn:Ed. simplify_eq.
  by apply (detect_body_closed env).
Qed.

(** C3. Undisturbed, the concurrent pipeline computes the sequential
    reference: when every detector completes and nothing is cancelled, over
    budget or overloaded, [Detect] returns the reference's verdict and leaves
    the reference's metadata and results. *)
Theorem quiet_detect_is_reference env s st rc r :
  quiet env (SiteID (st_rc st)) -> ref_detect s (st_rc st) = Some (rc, r) ->
  exists st', Detect env (Some s) (Some st) = (Some st', Some r, None) /\ st_rc st' = rc.
Proof.
  intros Hq H. destruct (quiet_detect_body env _ Hq s st rc r eq_refl H) as (st' & Hrc & Hd).
  exists st'. split; [|done]. unfold Detect, detect_request. rewrite (q_body _ _ Hq), Hd.
  by destruct (bool_decide _).
Qed.

(** C2. A block is never lost: results are only appended, and if any result
    this request produced is a detection with action block, the verdict blocks,
    even when the analysis was cut short, overloaded or incomplete and
    whatever the policy says. *)
Theorem block_never_lost env p st st' r :
  Detect env p (Some st) = (Some st', r, None) ->
  exists new, Results (st_rc st') = Results (st_rc st) ++ new
    /\ forall x, x ∈ new -> blocks x = true -> exists d, r = Some d /\ blocks d = true.
Proof.
  intros H. pose proof (detect_request_lossless env p st) as Hl. unfold Detect in H.
  destruct (detect_request env p st) as [[st1 r1] e1]. simplify_eq.
  destruct Hl as (new & Hr & Hn). exists new. split; [done|]. by apply Hn.
Qed.

(** A detector that was abandoned (cancelled, out of time, refused a
    permit or a slot) leaves no trace: replacing it by any other detector
    changes neither the verdict, nor the request, nor an error. *)
Theorem abandoned_detector_invisible env s s' st :
  fair env ->
  agree (fun i => delivered (pre_fate env i)) 0 (preFilters s) (preFilters s') ->
  agree (group_fate env (semanticGroup s)) 0 (semanticGroup s) (semanticGroup s') ->
  Detect env (Some s) st = Detect env (Some s') st.
Proof.
  intros Hfair Hp Hs. destruct st as [st|]; [|done]. unfold Detect, detect_request.
  assert (E : bool_decide (preFilters s = [] /\ semanticGroup s = [])
              = bool_decide (preFilters s' = [] /\ semanticGroup s' = [])).
  { apply agree_length in Hp, Hs. apply bool_decide_ext. rewrite <- !length_zero_iff_nil. lia. }
  rewrite E. destruct (if bool_decide _ then _ else _); [done|]. unfold detect_body.
  rewrite (prefilter_loop_agree env _ _ 0 _ Hp). destruct (prefilter_loop _ _ _ _) as [out|pg]; [done|].
  destruct (ctxErr _ _); [done|]. by rewrite (semantic_phase_agree env _ _ _ Hfair Hs).
Qed.

(** The order in which the semantic workers deliver cannot be seen: any
    two orders of completion give the same verdict, request and error. *)
Theorem completion_order_irrelevant env a p st :
  fair env -> (forall l, Permutation (a l) l) ->
  Detect (with_arrival env a) p st = Detect env p st.
Proof. intros H Ha. by apply arrival_detect. Qed.

(** The detector lists of a pipeline, however it was built: a stable sort
    by priority of the non-nil detectors that were added, split into the
    pre-filters below 290 and the semantic group. *)
Theorem pipeline_ordered ds : pipeline_ok (omap id ds) (NewPipeline ds).
Proof. apply NewPipeline_ok. Qed.

(** The detection budget is positive and at most five seconds, whatever
    was configured and whatever the request's metadata asks for. *)
Theorem budget_bounded parse stored md :
  0 < SetDetectionBudget stored <= 5 * Second /\ 0 < detectionBudget parse stored md <= 5 * Second.
Proof.
  assert (H : forall b, 0 < clamp_budget b <= 5 * Second).
  { intros b. unfold clamp_budget, Second, Millisecond. cbv zeta.
    destruct (Z.leb_spec b 0) as [|Hb]; [done|]. destruct (Z.ltb_spec (5 * 1000000000) b); lia. }
  split; apply H.
Qed.
