(* ===== verification/PipelineExamples.v ===== *)
(** * Requests on which the properties of the pipeline apply

    Concrete detectors and environments, and what the pipeline does with two
    results that a reader would not expect to be dropped. *)

From S2P Require Import Prelude GoText Acl Sandbox Pipeline PipelineFacts PipelineSafety.
From Stdlib Require Import Permutation.

Open Scope list_scope.
Open Scope Z_scope.

Definition finding (id : string) (a : Action) : DetectionResult :=
  {| Detected := true; DetectorID := id; Category := "test"; dr_Severity := SeverityMedium;
     dr_Action := a; Message := ""; Confidence := 90; dr_Payload := "" |}.

(** A detector that always reports [r], and marks the request. *)
Definition reporting (prio : Z) (name : string) (r : option DetectionResult) (err : option GoError) : Detector :=
  {| Priority := prio; dt_Detect := fun _ => FReturn r err;
     dt_fork := fun md => <[name := VBool true]> md |}.

Definition incomplete_input : GoError :=
  {| err_Text := "body truncated"; is_overload := false; is_deadline := false; is_canceled := false;
     err_incomplete := Some (true, "body_truncated"%string) |}.

Definition calm : Env :=
  {| parent_done := None; budget_done := None;
     body_state := Some {| body_loaded := true; body_Err := None; body_reader := NilBody |};
     ensure_body := None; hook_installed := true;
     pre_fate := fun _ => GCompleted ""; one_fate := GCompleted "";
     site_counter := fun _ => {| maxActive := 32; maxSites := 1024; bySite := ∅ |};
     queue_room := fun _ => true; done_first := fun _ => false; worker_ctx := fun _ => None;
     job_fate := fun _ => GCompleted ""; job_wait := fun _ => 5; arrival := fun l => l |}.

(** The same, but job 0 is abandoned when its time is up. *)
Definition hurried : Env :=
  {| parent_done := None; budget_done := Some 9%nat; body_state := body_state calm;
     ensure_body := None; hook_installed := true;
     pre_fate := pre_fate calm; one_fate := one_fate calm; site_counter := site_counter calm;
     queue_room := queue_room calm; done_first := done_first calm; worker_ctx := worker_ctx calm;
     job_fate := fun i => if (i =? 0)%nat then GCtxWhileRunning CtxDeadline else GCompleted "";
     job_wait := job_wait calm; arrival := @rev _ |}.

Lemma calm_fair : fair calm.
Proof. by intros l. Qed.

Lemma hurried_fair : fair hurried.
Proof. intros l. simpl. symmetry. apply Permutation_rev. Qed.

Definition request : PState :=
  {| st_rc := {| SiteID := "shop"; rc_Metadata := ∅; Results := [] |}; st_now := 0; st_hooks := 0;
     st_queue := {| semanticQueueJobs := 0; semanticQueueWaitNanos := 0; semanticQueueOverloads := 0 |} |}.

Lemma calm_quiet : quiet calm "shop".
Proof.
  constructor; try done; try (intros; eexists; reflexivity). exact calm_fair.
Qed.

Definition acl_log := reporting 250 "rules" (Some (finding "rules" ActionLog)) None.
Definition sqli := reporting 300 "sqli" (Some (finding "sqli" ActionBlock)) None.
Definition xss := reporting 310 "xss" (Some (finding "xss" ActionLog)) None.
Definition clean := reporting 320 "clean" None None.

Definition site_lists := makePipelineSnapshot [acl_log; sqli; xss].
Definition log_lists := makePipelineSnapshot [acl_log; xss; clean].

(** The outcome of [Detect] on a snapshot, without its state. *)
Definition verdict_of (env : Env) (ds : list Detector) : option Action :=
  match Detect env (Some (makePipelineSnapshot ds)) (Some request) with
  | (_, Some r, None) => Some (dr_Action r)
  | _ => None
  end.

Example block_wins : verdict_of calm [acl_log; sqli; xss] = Some ActionBlock.
Proof. vm_compute. reflexivity. Qed.

(** Job 0 (the blocking detector) is abandoned: the closed policy challenges. *)
Example closed_challenges : verdict_of hurried [acl_log; sqli; xss] = Some ActionChallenge.
Proof. vm_compute. reflexivity. Qed.

Lemma pass_means_fully_analysed_witness : exists st' r,
  Detect calm (Some log_lists) (Some request) = (Some st', Some r, None)
  /\ ref_detect log_lists (st_rc request) = Some (st_rc st', r).
Proof.
  eexists _, _. split; [vm_compute; reflexivity|].
  apply (pass_means_fully_analysed calm log_lists request); [exact calm_fair|vm_compute; reflexivity..].
Defined.

Lemma quiet_detect_is_reference_witness : exists st' rc r,
  ref_detect site_lists (st_rc request) = Some (rc, r) /\ dr_Action r = ActionBlock
  /\ Detect calm (Some site_lists) (Some request) = (Some st', Some r, None).
Proof.
  assert (H : exists rc r, ref_detect site_lists (st_rc request) = Some (rc, r) /\ dr_Action r = ActionBlock)
    by (eexists _, _; split; vm_compute; reflexivity).
  destruct H as (rc & r & H & Ha).
  destruct (quiet_detect_is_reference calm site_lists request rc r calm_quiet H) as (st' & Hd & _).
  by exists st', rc, r.
Defined.

Lemma block_never_lost_witness : exists st' r,
  Detect calm (Some site_lists) (Some request) = (Some st', r, None)
  /\ exists new, Results (st_rc st') = [] ++ new
     /\ forall x, x ∈ new -> blocks x = true -> exists d, r = Some d /\ blocks d = true.
Proof.
  eexists _, _. split; [vm_compute; reflexivity|].
  apply (block_never_lost calm (Some site_lists) request). vm_compute. reflexivity.
Defined.

Lemma abandoned_detector_invisible_witness :
  Detect hurried (Some site_lists) (Some request)
  = Detect hurried (Some (makePipelineSnapshot [acl_log; clean; xss])) (Some request).
Proof.
  apply (abandoned_detector_invisible hurried); [exact hurried_fair|..]; simpl; split_and!; done.
Defined.

Lemma completion_order_irrelevant_witness :
  Detect (with_arrival calm (@rev _)) (Some site_lists) (Some request)
  = Detect calm (Some site_lists) (Some request).
Proof.
  apply (completion_order_irrelevant calm); [exact calm_fair|]. intros l. symmetry. apply Permutation_rev.
Defined.

(** Two pre-filters that both complete: a log match of the first hides the
    challenge of the second. *)
Definition bot_challenge := reporting 260 "bot" (Some (finding "bot" ActionChallenge)) None.

Example prefilter_challenge_dropped : verdict_of calm [acl_log; bot_challenge] = Some ActionLog.
Proof. vm_compute. reflexivity. Qed.

(** The same detections survive when the second one also reports incomplete
    input, or when the order is the other way round. *)
Example incomplete_challenge_kept :
  verdict_of calm [acl_log; reporting 260 "bot" (Some (finding "bot" ActionChallenge)) (Some incomplete_input)]
  = Some ActionChallenge.
Proof. vm_compute. reflexivity. Qed.

(** A semantic detector that reports a block together with incomplete input
    is only challenged, though the same pre-filter would have blocked. *)
Example semantic_incomplete_block_dropped :
  verdict_of calm [reporting 300 "sqli" (Some (finding "sqli" ActionBlock)) (Some incomplete_input)]
  = Some ActionChallenge
  /\ verdict_of calm [reporting 200 "rules" (Some (finding "rules" ActionBlock)) (Some incomplete_input)]
  = Some ActionBlock.
Proof. vm_compute. split; reflexivity. Qed.
