(* ===== verification/Sha256.v ===== *)
(** * SHA-256, MD5 and SHA-1 ([crypto/sha256], [crypto/md5], [crypto/sha1])

    SHA-256 is the digest that binds intents, nonces, audit events and secrets. Bytes and
    words are integers; every word operation reduces modulo 2^32. *)

From S2P Require Import Prelude GoText.

Open Scope list_scope.
Open Scope Z_scope.

Definition sha_k : list Z :=
  [1116352408; 1899447441; 3049323471; 3921009573; 961987163; 1508970993;
   2453635748; 2870763221; 3624381080; 310598401; 607225278; 1426881987;
   1925078388; 2162078206; 2614888103; 3248222580; 3835390401; 4022224774;
   264347078; 604807628; 770255983; 1249150122; 1555081692; 1996064986;
   2554220882; 2821834349; 2952996808; 3210313671; 3336571891; 3584528711;
   113926993; 338241895; 666307205; 773529912; 1294757372; 1396182291;
   1695183700; 1986661051; 2177026350; 2456956037; 2730485921; 2820302411;
   3259730800; 3345764771; 3516065817; 3600352804; 4094571909; 275423344;
   430227734; 506948616; 659060556; 883997877; 958139571; 1322822218;
   1537002063; 1747873779; 1955562222; 2024104815; 2227730452; 2361852424;
   2428436474; 2756734187; 3204031479; 3329325298].

Definition sha_init : list Z :=
  [1779033703; 3144134277; 1013904242; 2773480762; 1359893119; 2600822924;
   528734635; 1541459225].

(** The low word of a number, by its bits: this computes faster than [u32]. *)
Definition mask32 (z : Z) : Z := Z.land z 4294967295.

Lemma mask32_u32 z : mask32 z = u32 z.
Proof. exact (Z.land_ones z 32 ltac:(done)). Qed.

Definition rotr (n x : Z) : Z := Z.lor (Z.shiftr x n) (mask32 (Z.shiftl x (32 - n))).

Definition big_sigma0 x := Z.lxor (rotr 2 x) (Z.lxor (rotr 13 x) (rotr 22 x)).
Definition big_sigma1 x := Z.lxor (rotr 6 x) (Z.lxor (rotr 11 x) (rotr 25 x)).
Definition small_sigma0 x := Z.lxor (rotr 7 x) (Z.lxor (rotr 18 x) (Z.shiftr x 3)).
Definition small_sigma1 x := Z.lxor (rotr 17 x) (Z.lxor (rotr 19 x) (Z.shiftr x 10)).
Definition choose x y z := Z.lxor (Z.land x y) (Z.ldiff z x).
Definition majority x y z := Z.lxor (Z.land x y) (Z.lxor (Z.land x z) (Z.land y z)).

(** Big-endian bytes of a number. *)
Fixpoint be_bytes (n : nat) (z : Z) : list Z :=
  match n with
  | O => []
  | S k => be_bytes k (z / 256) ++ [z mod 256]
  end.

(** The message, a one bit, zeros and the 64-bit length in bits. *)
Definition sha_pad (msg : list Z) : list Z :=
  let l := Z.of_nat (length msg) in
  msg ++ [128] ++ repeat 0 (Z.to_nat ((55 - l) mod 64)) ++ be_bytes 8 (u64 (l * 8)).

Fixpoint be_words (l : list Z) : list Z :=
  match l with
  | a :: b :: c :: d :: l' => (a * 16777216 + b * 65536 + c * 256 + d) :: be_words l'
  | _ => []
  end.

(** The message schedule, latest word first. *)
Fixpoint schedule (n : nat) (w : list Z) : list Z :=
  match n with
  | O => w
  | S k =>
      let at_ i := nth i w 0 in
      schedule k
        (mask32 (small_sigma1 (at_ 1%nat) + at_ 6%nat + small_sigma0 (at_ 14%nat) + at_ 15%nat) :: w)
  end.

Definition sha_round (st : list Z) (kw : Z * Z) : list Z :=
  match st with
  | [a; b; c; d; e; f; g; h] =>
      let t1 := mask32 (h + big_sigma1 e + choose e f g + fst kw + snd kw) in
      let t2 := mask32 (big_sigma0 a + majority a b c) in
      [mask32 (t1 + t2); a; b; c; mask32 (d + t1); e; f; g]
  | _ => st
  end.

Definition sha_block (st : list Z) (block : list Z) : list Z :=
  let w := rev (schedule 48 (rev block)) in
  let st' := fold_left sha_round (combine sha_k w) st in
  map (fun p => mask32 (fst p + snd p)) (combine st st').

Fixpoint chunks (fuel : nat) (n : nat) (l : list Z) : list (list Z) :=
  match fuel, l with
  | S f, _ :: _ => take n l :: chunks f n (drop n l)
  | _, _ => []
  end.

(** One block per 16 words, so the number of words bounds the blocks. *)
Definition Sum256 (msg : list Z) : list Z :=
  let words := be_words (sha_pad msg) in
  concat (map (be_bytes 4) (fold_left sha_block (chunks (length words) 16 words) sha_init)).

(** [sha256.Sum256([]byte(s))] and its lower-case hexadecimal form. *)
Definition sum_string (s : string) : list Z := Sum256 (map byte_val (bytes s)).
Definition hex_sum (s : string) : string := EncodeHex (sum_string s).

Example sha256_abc :
  hex_sum "abc" = "ba7816bf8f01cfea414140de5dae2223b00361a396177a9cb410ff61f20015ad"%string.
Proof. vm_compute. reflexivity. Qed.

Example sha256_two_blocks :
  hex_sum "abcdbcdecdefdefgefghfghighijhijkijkljklmklmnlmnomnopnopq"
  = "248d6a61d20638b8e5c026930c3e6039a33ce45964ff2167f6ecedd419db06c1"%string.
Proof. vm_compute. reflexivity. Qed.

(** ** The digest is 64 hexadecimal digits *)

Lemma sha_block_length st b : length st = 8%nat -> length (sha_block st b) = 8%nat.
Proof.
  intros H. unfold sha_block. rewrite length_map, length_combine, H.
  set (l := combine _ _). clearbody l.
  assert (E : length (fold_left sha_round l st) = 8%nat).
  { revert st H. induction l as [|x l IH]; intros st H; [done|]. simpl. apply IH.
    do 9 (destruct st as [|? st]; simpl in H; try discriminate). reflexivity. }
  rewrite E. reflexivity.
Qed.
Lemma Sum256_length msg : length (Sum256 msg) = 32%nat.
Proof.
  unfold Sum256. set (l := chunks _ _ _). clearbody l.
  assert (E : forall st, length st = 8%nat -> length (fold_left sha_block l st) = 8%nat).
  { induction l as [|b l IH]; intros st H; [done|]. simpl. apply IH. by apply sha_block_length. }
  specialize (E sha_init eq_refl). set (s := fold_left _ _ _) in *. clearbody s.
  do 9 (destruct s as [|? s]; simpl in E; try discriminate). reflexivity.
Qed.

Lemma length_of_bytes l : len (of_bytes l) = Z.of_nat (length l).
Proof. unfold len, of_bytes. f_equal. induction l; simpl; congruence. Qed.

Lemma hex_sum_length s : len (hex_sum s) = 64.
Proof.
  unfold hex_sum, EncodeHex, sum_string. rewrite length_of_bytes.
  pose proof (Sum256_length (map byte_val (bytes s))) as H. revert H.
  generalize (Sum256 (map byte_val (bytes s))). intros l H.
  enough (E : length (concat (map hex_byte l)) = (2 * length l)%nat) by (rewrite E, H; reflexivity).
  clear H. induction l as [|b l IH]; [done|].
  change (concat (map hex_byte (b :: l))) with (hex_byte b ++ concat (map hex_byte l)).
  rewrite length_app, IH. unfold hex_byte. simpl. lia.
Qed.

Lemma hex_sum_nonempty s : String.eqb (hex_sum s) "" = false.
Proof.
  apply String.eqb_neq. intros E. pose proof (hex_sum_length s) as H. rewrite E in H. discriminate.
Qed.

(** The digits are lower case. *)
Lemma be_bytes_range n z : Forall (fun b => 0 <= b < 256) (be_bytes n z).
Proof.
  revert z. induction n as [|n IH]; intros z; cbn [be_bytes]; [constructor|].
  apply Forall_app. split; [apply IH|]. repeat constructor; apply Z.mod_pos_bound; lia.
Qed.

Lemma Sum256_range msg : Forall (fun b => 0 <= b < 256) (Sum256 msg).
Proof.
  unfold Sum256. set (l := fold_left _ _ _). clearbody l. induction l as [|w l IH]; [constructor|].
  change (concat (map (be_bytes 4) (w :: l))) with (be_bytes 4 w ++ concat (map (be_bytes 4) l)).
  apply Forall_app. split; [apply be_bytes_range|done].
Qed.

Lemma hex_digit_lower n : 0 <= n < 16 -> is_lower_hex_char (hex_digit n) = true.
Proof.
  intros R. assert (forallb (fun k => is_lower_hex_char (hex_digit (Z.of_nat k))) (seq 0 16) = true) as A by (vm_compute; done).
  rewrite forallb_forall in A. rewrite <- (Z2Nat.id n) by lia. apply A, in_seq. lia.
Qed.

Lemma EncodeHex_lower l : Forall (fun b => 0 <= b < 256) l -> forallb is_lower_hex_char (bytes (EncodeHex l)) = true.
Proof.
  unfold EncodeHex. rewrite bytes_of_bytes. induction 1 as [|b l R _ IH]; [done|].
  cbn [map concat hex_byte app forallb].
  rewrite !hex_digit_lower, IH; [done|apply Z.mod_pos_bound; lia|].
  split; [apply Z.div_pos; lia|apply Z.div_lt_upper_bound; lia].
Qed.

Lemma EncodeHex_length l : len (EncodeHex l) = 2 * Z.of_nat (length l).
Proof.
  unfold EncodeHex. rewrite length_of_bytes. induction l as [|b l IH]; [done|].
  cbn [map concat hex_byte app length] in *. lia.
Qed.

Lemma hex_sum_lower s : forallb is_lower_hex_char (bytes (hex_sum s)) = true.
Proof. apply EncodeHex_lower, Sum256_range. Qed.

(** ** MD5 and SHA-1 ([crypto/md5], [crypto/sha1])

    The compatibility digests a distribution intent names beside SHA-256.
    Bytes and words are integers; every word operation reduces modulo 2^32. *)

Definition rotl (n x : Z) : Z := Z.lor (mask32 (Z.shiftl x n)) (Z.shiftr x (32 - n)).
Definition lognot (x : Z) : Z := Z.ldiff 4294967295 x.

(** ** MD5 *)

Definition md5_k : list Z :=
  [3614090360; 3905402710; 606105819; 3250441966; 4118548399; 1200080426; 2821735955; 4249261313;
   1770035416; 2336552879; 4294925233; 2304563134; 1804603682; 4254626195; 2792965006; 1236535329;
   4129170786; 3225465664; 643717713; 3921069994; 3593408605; 38016083; 3634488961; 3889429448;
   568446438; 3275163606; 4107603335; 1163531501; 2850285829; 4243563512; 1735328473; 2368359562;
   4294588738; 2272392833; 1839030562; 4259657740; 2763975236; 1272893353; 4139469664; 3200236656;
   681279174; 3936430074; 3572445317; 76029189; 3654602809; 3873151461; 530742520; 3299628645;
   4096336452; 1126891415; 2878612391; 4237533241; 1700485571; 2399980690; 4293915773; 2240044497;
   1873313359; 4264355552; 2734768916; 1309151649; 4149444226; 3174756917; 718787259; 3951481745].

Definition md5_shifts : list Z :=
  concat [concat (repeat [7; 12; 17; 22] 4); concat (repeat [5; 9; 14; 20] 4);
          concat (repeat [4; 11; 16; 23] 4); concat (repeat [6; 10; 15; 21] 4)].

(** Little-endian bytes of a number, and words of bytes. *)
Fixpoint le_bytes (n : nat) (z : Z) : list Z :=
  match n with
  | O => []
  | S k => z mod 256 :: le_bytes k (z / 256)
  end.

Fixpoint le_words (l : list Z) : list Z :=
  match l with
  | a :: b :: c :: d :: l' => (a + b * 256 + c * 65536 + d * 16777216) :: le_words l'
  | _ => []
  end.

Definition md5_pad (msg : list Z) : list Z :=
  let l := Z.of_nat (length msg) in
  msg ++ [128] ++ repeat 0 (Z.to_nat ((55 - l) mod 64)) ++ le_bytes 8 (u64 (l * 8)).

(** The function and the index of the message word of a round. *)
Definition md5_mix (i : nat) (b c d : Z) : Z * nat :=
  if (i <? 16)%nat then (Z.lor (Z.land b c) (Z.land (lognot b) d), i)
  else if (i <? 32)%nat then (Z.lor (Z.land d b) (Z.land (lognot d) c), (5 * i + 1) mod 16)%nat
  else if (i <? 48)%nat then (Z.lxor b (Z.lxor c d), (3 * i + 5) mod 16)%nat
  else (Z.lxor c (Z.lor b (lognot d)), (7 * i) mod 16)%nat.

Definition md5_round (block : list Z) (st : list Z) (i : nat) : list Z :=
  match st with
  | [a; b; c; d] =>
      let '(f, g) := md5_mix i b c d in
      [d; mask32 (b + rotl (nth i md5_shifts 0) (mask32 (a + f + nth i md5_k 0 + nth g block 0))); b; c]
  | _ => st
  end.

Definition md5_block (st : list Z) (block : list Z) : list Z :=
  map (fun p => mask32 (fst p + snd p)) (combine st (fold_left (md5_round block) (seq 0 64) st)).

(** [md5.Sum]. One block per 16 words, so the number of words bounds the blocks. *)
Definition SumMD5 (msg : list Z) : list Z :=
  let words := le_words (md5_pad msg) in
  concat (map (le_bytes 4)
    (fold_left md5_block (chunks (length words) 16 words) [1732584193; 4023233417; 2562383102; 271733878])).

(** ** SHA-1 *)

(** The message schedule, latest word first. *)
Fixpoint sha1_schedule (n : nat) (w : list Z) : list Z :=
  match n with
  | O => w
  | S k =>
      let at_ i := nth i w 0 in
      sha1_schedule k
        (rotl 1 (Z.lxor (Z.lxor (at_ 2%nat) (at_ 7%nat)) (Z.lxor (at_ 13%nat) (at_ 15%nat))) :: w)
  end.

Definition sha1_mix (i : nat) (b c d : Z) : Z * Z :=
  if (i <? 20)%nat then (Z.lor (Z.land b c) (Z.land (lognot b) d), 1518500249)
  else if (i <? 40)%nat then (Z.lxor b (Z.lxor c d), 1859775393)
  else if (i <? 60)%nat then (majority b c d, 2400959708)
  else (Z.lxor b (Z.lxor c d), 3395469782).

Definition sha1_round (st : list Z) (iw : nat * Z) : list Z :=
  match st with
  | [a; b; c; d; e] =>
      let '(f, k) := sha1_mix (fst iw) b c d in
      [mask32 (rotl 5 a + f + e + k + snd iw); a; rotl 30 b; c; d]
  | _ => st
  end.

Definition sha1_block (st : list Z) (block : list Z) : list Z :=
  let w := rev (sha1_schedule 64 (rev block)) in
  map (fun p => mask32 (fst p + snd p)) (combine st (fold_left sha1_round (combine (seq 0 80) w) st)).

(** [sha1.Sum]; the padding is SHA-256's. *)
Definition SumSHA1 (msg : list Z) : list Z :=
  let words := be_words (sha_pad msg) in
  concat (map (be_bytes 4)
    (fold_left sha1_block (chunks (length words) 16 words)
       [1732584193; 4023233417; 2562383102; 271733878; 3285377520])).

Definition ascii_bytes (s : string) : list Z := map byte_val (bytes s).

Example md5_vectors :
  EncodeHex (SumMD5 []) = "d41d8cd98f00b204e9800998ecf8427e"%string
  /\ EncodeHex (SumMD5 (ascii_bytes "abc")) = "900150983cd24fb0d6963f7d28e17f72"%string
  /\ EncodeHex (SumMD5 (ascii_bytes "12345678901234567890123456789012345678901234567890123456789012345678901234567890"))
     = "57edf4a22be3c955ac49da2e2107b67a"%string.
Proof. vm_compute. by split_and!. Qed.

Example sha1_vectors :
  EncodeHex (SumSHA1 []) = "da39a3ee5e6b4b0d3255bfef95601890afd80709"%string
  /\ EncodeHex (SumSHA1 (ascii_bytes "abc")) = "a9993e364706816aba3e25717850c26c9cd0d89d"%string
  /\ EncodeHex (SumSHA1 (ascii_bytes "abcdbcdecdefdefgefghfghighijhijkijkljklmklmnlmnomnopnopq"))
     = "84983e441c3bd26ebaae4aa1f95129e5e54670f1"%string.
Proof. vm_compute. by split_and!. Qed.
