(* ===== verification/ControlState.v ===== *)
(** * The control-plane state machine (internal/controlplane/state.go)

    The versioned desired state of a cluster: leadership epochs, compare-and-swap
    proposals, fencing tokens, the nonce ledger and the write freeze. A method
    of [StateMachine] is a function from the machine to the machine and a
    result; the instants that the clock reports are arguments. Receivers are
    not nil, and an error is the sentinels it wraps, without its text. *)

From S2P Require Import Prelude GoText Sha256.

Open Scope list_scope.
Open Scope Z_scope.
Open Scope go_scope.

(** ** Errors *)

Inductive Sentinel :=
| ErrInvalidProposal | ErrNotLeader | ErrWritesFrozen | ErrStaleEpoch | ErrStaleRevision
| ErrStaleFence | ErrLeadershipConflict | ErrDuplicateNonce | ErrStateNotFound | ErrInvalidCommit.

#[export] Instance Sentinel_eq_dec : EqDecision Sentinel.
Proof. solve_decision. Defined.

(** An error wraps sentinels of this package, the error of a persistence
    stage, or comes from elsewhere (a store, a context). *)
Inductive error :=
| Fails (s : Sentinel)
| Wraps (outer inner : error)
| Persistence (stage : string) (inner : error)
| Foreign (text : string).

(** [errors.Is] for the sentinels. *)
Fixpoint Is (e : error) (s : Sentinel) : bool :=
  match e with
  | Fails t => bool_decide (t = s)
  | Wraps a b => Is a s || Is b s
  | Persistence _ a => Is a s
  | Foreign _ => false
  end.

(** ** Data *)

Record DesiredState := { d_Version : string; d_Digest : string; d_Payload : string }.

Record FenceToken := {
  f_ClusterID : string; f_LeaderID : string; f_Epoch : Z; f_Revision : Z;
  f_Digest : string; f_Nonce : string
}.

Record State := {
  s_ClusterID : string; s_LeaderID : string; s_Term : Z; s_Epoch : Z; s_Revision : Z;
  s_Desired : DesiredState; s_WriteFrozen : bool; s_FreezeReason : string;
  s_UpdatedAt : Time; s_NonceLedger : gmap string Z
}.

Record Proposal := {
  p_LeaderID : string; p_ExpectedEpoch : Z; p_ExpectedRevision : Z; p_Version : string;
  p_Payload : string; p_Digest : string; p_Nonce : string
}.

Record Commit := { c_State : State; c_Fence : FenceToken }.

Record StateMachine := {
  m_state : State;
  m_committed : State;
  m_fences : gmap Z string;
  m_committedFences : gmap Z string;
  m_nonces : gmap string Z;
  m_proposals : gmap Z Commit
}.

#[export] Instance FenceToken_eq_dec : EqDecision FenceToken.
Proof. solve_decision. Defined.

#[export] Instance DesiredState_eq_dec : EqDecision DesiredState.
Proof. solve_decision. Defined.

#[export] Instance State_eq_dec : EqDecision State.
Proof. solve_decision. Defined.

Definition zero_desired : DesiredState := {| d_Version := ""; d_Digest := ""; d_Payload := "" |}.

Definition zero_state : State :=
  {| s_ClusterID := ""; s_LeaderID := ""; s_Term := 0; s_Epoch := 0; s_Revision := 0;
     s_Desired := zero_desired; s_WriteFrozen := false; s_FreezeReason := "";
     s_UpdatedAt := zero_time; s_NonceLedger := ∅ |}.

(** A missing key of a Go map of revisions reads as zero. *)
Definition rev_at (ledger : gmap string Z) (nonce : string) : Z := default 0 (ledger !! nonce).

(** The assignments of single fields. *)
Definition set_freeze (s : State) (frozen : bool) (reason : string) : State :=
  {| s_ClusterID := s_ClusterID s; s_LeaderID := s_LeaderID s; s_Term := s_Term s; s_Epoch := s_Epoch s;
     s_Revision := s_Revision s; s_Desired := s_Desired s; s_WriteFrozen := frozen;
     s_FreezeReason := reason; s_UpdatedAt := s_UpdatedAt s; s_NonceLedger := s_NonceLedger s |}.

Definition set_updated (s : State) (t : Time) : State :=
  {| s_ClusterID := s_ClusterID s; s_LeaderID := s_LeaderID s; s_Term := s_Term s; s_Epoch := s_Epoch s;
     s_Revision := s_Revision s; s_Desired := s_Desired s; s_WriteFrozen := s_WriteFrozen s;
     s_FreezeReason := s_FreezeReason s; s_UpdatedAt := t; s_NonceLedger := s_NonceLedger s |}.

Definition set_ledger (s : State) (ledger : gmap string Z) : State :=
  {| s_ClusterID := s_ClusterID s; s_LeaderID := s_LeaderID s; s_Term := s_Term s; s_Epoch := s_Epoch s;
     s_Revision := s_Revision s; s_Desired := s_Desired s; s_WriteFrozen := s_WriteFrozen s;
     s_FreezeReason := s_FreezeReason s; s_UpdatedAt := s_UpdatedAt s; s_NonceLedger := ledger |}.

Definition set_leader (s : State) (term : Z) (leaderID : string) (epoch : Z) : State :=
  {| s_ClusterID := s_ClusterID s; s_LeaderID := leaderID; s_Term := term; s_Epoch := epoch;
     s_Revision := s_Revision s; s_Desired := s_Desired s; s_WriteFrozen := s_WriteFrozen s;
     s_FreezeReason := s_FreezeReason s; s_UpdatedAt := s_UpdatedAt s; s_NonceLedger := s_NonceLedger s |}.

Definition set_desired (s : State) (revision : Z) (d : DesiredState) : State :=
  {| s_ClusterID := s_ClusterID s; s_LeaderID := s_LeaderID s; s_Term := s_Term s; s_Epoch := s_Epoch s;
     s_Revision := revision; s_Desired := d; s_WriteFrozen := s_WriteFrozen s;
     s_FreezeReason := s_FreezeReason s; s_UpdatedAt := s_UpdatedAt s; s_NonceLedger := s_NonceLedger s |}.

(** ** Validation of fields *)

Definition Digest (payload : string) : string := hex_sum payload.

Definition validDigest (value : string) : bool :=
  return false when negb (len value =? 64) ;;
  hex_decodable value && String.eqb value (ToLower value).

Definition ValidIdentity (value : string) : bool :=
  return false when String.eqb value "" || negb (String.eqb (TrimSpace value) value)
                    || negb (ValidString value) ;;
  negb (existsb (fun r => IsSpace r || IsControl r || IsFormat r) (runes value)).

(** The first loop of [validNonceLedger]: the revisions seen, or [None] when
    an entry is refused. *)
Fixpoint ledger_loop (revision : Z) (seen : list Z) (entries : list (string * Z)) : option (list Z) :=
  match entries with
  | [] => Some seen
  | (nonce, entryRevision) :: entries =>
      return None when negb (ValidIdentity nonce) || (entryRevision =? 0) || (revision <? entryRevision) ;;
      return None when existsb (Z.eqb entryRevision) seen ;;
      ledger_loop revision (entryRevision :: seen) entries
  end.

Definition validNonceLedger (ledger : gmap string Z) (revision : Z) : bool :=
  return Nat.eqb (size ledger) 0 when revision =? 0 ;;
  return false when revision =? two64 - 1 ;;
  return false when negb (Z.of_nat (size ledger) =? revision) ;;
  match ledger_loop revision [] (map_to_list ledger) with
  | None => false
  | Some seen => forallb (fun k => existsb (Z.eqb (Z.of_nat k)) seen) (seq 1 (Z.to_nat revision))
  end.

(** Every entry of [a] is in [b] with the same revision. *)
Definition ledger_within (a b : gmap string Z) : bool :=
  forallb (fun e => rev_at b (fst e) =? snd e) (map_to_list a).

Definition sameNonceLedger (a b : gmap string Z) : bool :=
  Nat.eqb (size a) (size b) && ledger_within a b.

(** ** Comparisons *)

Definition same_desired (a b : DesiredState) : bool :=
  String.eqb (d_Version a) (d_Version b) && String.eqb (d_Digest a) (d_Digest b)
  && String.eqb (d_Payload a) (d_Payload b).

Definition stateCarriesExactCommit (state : State) (commit : Commit) : bool :=
  let cs := c_State commit in
  let f := c_Fence commit in
  return false when
    negb (String.eqb (s_ClusterID state) (s_ClusterID cs)) || negb (String.eqb (s_LeaderID state) (s_LeaderID cs))
    || negb (s_Term state =? s_Term cs) || negb (s_Epoch state =? s_Epoch cs)
    || negb (s_Revision state =? s_Revision cs) || negb (same_desired (s_Desired state) (s_Desired cs))
    || negb (String.eqb (f_ClusterID f) (s_ClusterID state)) || negb (String.eqb (f_LeaderID f) (s_LeaderID state))
    || negb (f_Epoch f =? s_Epoch state) || negb (f_Revision f =? s_Revision state)
    || negb (String.eqb (f_Digest f) (d_Digest (s_Desired state))) || negb (ValidIdentity (f_Nonce f))
    || negb (rev_at (s_NonceLedger state) (f_Nonce f) =? s_Revision state)
    || negb (Nat.eqb (size (s_NonceLedger state)) (size (s_NonceLedger cs))) ;;
  ledger_within (s_NonceLedger state) (s_NonceLedger cs).

Definition statesEquivalentForCommit (a b : State) : bool :=
  return false when
    negb (String.eqb (s_ClusterID a) (s_ClusterID b)) || negb (String.eqb (s_LeaderID a) (s_LeaderID b))
    || negb (s_Term a =? s_Term b) || negb (s_Epoch a =? s_Epoch b) || negb (s_Revision a =? s_Revision b)
    || negb (same_desired (s_Desired a) (s_Desired b))
    || negb (Bool.eqb (s_WriteFrozen a) (s_WriteFrozen b))
    || negb (String.eqb (s_FreezeReason a) (s_FreezeReason b)) || negb (s_UpdatedAt a =? s_UpdatedAt b)
    || negb (Nat.eqb (size (s_NonceLedger a)) (size (s_NonceLedger b))) ;;
  ledger_within (s_NonceLedger a) (s_NonceLedger b).

Definition commitsEquivalent (a b : Commit) : bool :=
  bool_decide (c_Fence a = c_Fence b) && statesEquivalentForCommit (c_State a) (c_State b).

Definition sameLeadershipState (a b : State) : bool :=
  String.eqb (s_ClusterID a) (s_ClusterID b) && (s_Term a =? s_Term b) && (s_Epoch a =? s_Epoch b)
  && String.eqb (s_LeaderID a) (s_LeaderID b).

(** ** Construction and snapshots *)

Definition NewStateMachine (clusterID : string) (now : Time) : result error StateMachine :=
  return Err (Fails ErrInvalidProposal) when negb (ValidIdentity clusterID) ;;
  let initial :=
    {| s_ClusterID := clusterID; s_LeaderID := ""; s_Term := 0; s_Epoch := 0; s_Revision := 0;
       s_Desired := zero_desired; s_WriteFrozen := true; s_FreezeReason := "leader not established";
       s_UpdatedAt := now; s_NonceLedger := ∅ |} in
  Ok {| m_state := initial; m_committed := initial; m_fences := ∅; m_committedFences := ∅;
        m_nonces := ∅; m_proposals := ∅ |}.

(** The public snapshot is the committed state. *)
Definition Snapshot (m : StateMachine) : State := m_committed m.

Definition snapshotLocked (m : StateMachine) : State := set_ledger (m_state m) (m_nonces m).

(** ** Leadership *)

Definition leadership_lost : string := "native-raft leadership unavailable".

Definition freeze_overflow (m : StateMachine) : StateMachine :=
  {| m_state := set_freeze (m_state m) true "epoch overflow";
     m_committed := set_freeze (m_committed m) true "epoch overflow";
     m_fences := m_fences m; m_committedFences := m_committedFences m;
     m_nonces := m_nonces m; m_proposals := m_proposals m |}.

(** A frozen machine with a tentative revision falls back to its committed
    state. *)
Definition leadership_base (m : StateMachine) : State * gmap string Z :=
  if s_WriteFrozen (m_state m) && negb (s_Revision (m_committed m) =? s_Revision (m_state m))
  then (m_committed m, s_NonceLedger (m_committed m))
  else (m_state m, m_nonces m).

(** The next epoch under a new leader. *)
Definition lead (m : StateMachine) (now : Time) (term : Z) (leaderID : string) : StateMachine :=
  let st := m_state m in
  let '(base, ledger) := leadership_base m in
  let base := set_leader base term leaderID (u64 (s_Epoch base + 1)) in
  let st' :=
    if negb (s_WriteFrozen st) || (s_Revision (m_committed m) =? 0)
       || String.eqb (s_FreezeReason st) leadership_lost
    then set_freeze base false ""
    else set_freeze base true (s_FreezeReason st) in
  let st' := set_ledger (set_updated st' now) ledger in
  {| m_state := st'; m_committed := st'; m_fences := ∅; m_committedFences := ∅;
     m_nonces := ledger; m_proposals := ∅ |}.

Definition InstallLeadership (m : StateMachine) (now : Time) (term : Z) (leaderID : string)
  : StateMachine * result error State :=
  return (m, Err (Fails ErrInvalidProposal)) when (term =? 0) || negb (ValidIdentity leaderID) ;;
  let st := m_state m in
  return (m, Ok (snapshotLocked m)) when (term <? s_Term st)
      || ((term =? s_Term st) && String.eqb leaderID (s_LeaderID st)) ;;
  return (m, Err (Fails ErrLeadershipConflict)) when
      (term =? s_Term st) && negb (String.eqb leaderID (s_LeaderID st)) ;;
  return (freeze_overflow m, Err (Fails ErrInvalidProposal)) when s_Epoch st =? two64 - 1 ;;
  let m' := lead m now term leaderID in
  (m', Ok (snapshotLocked m')).

(** ** Freezing and resuming *)

Definition FreezeWrites (m : StateMachine) (now : Time) (reason : string) : StateMachine :=
  let reason := if String.eqb reason "" then "writes frozen"%string else reason in
  {| m_state := set_updated (set_freeze (m_state m) true reason) now;
     m_committed := set_updated (set_freeze (m_committed m) true reason) now;
     m_fences := m_fences m; m_committedFences := m_committedFences m;
     m_nonces := m_nonces m; m_proposals := m_proposals m |}.

(** [None] is a nil error. *)
Definition validateFenceLocked (m : StateMachine) (token : FenceToken) : option error :=
  let c := m_committed m in
  let digest := m_committedFences m !! f_Revision token in
  return Some (Fails ErrStaleFence) when
    negb (String.eqb (f_ClusterID token) (s_ClusterID c)) || negb (String.eqb (f_LeaderID token) (s_LeaderID c))
    || negb (f_Epoch token =? s_Epoch c) || (f_Revision token =? 0) || (s_Revision c <? f_Revision token)
    || negb (has (m_committedFences m) (f_Revision token))
    || negb (String.eqb (f_Digest token) (default ""%string digest))
    || String.eqb (f_Nonce token) "" || negb (rev_at (m_nonces m) (f_Nonce token) =? f_Revision token) ;;
  None.

Definition ValidateFence (m : StateMachine) (token : FenceToken) : option error := validateFenceLocked m token.

Definition validateResumeFenceLocked (m : StateMachine) (token : FenceToken) : option error :=
  return Some (Fails ErrStaleFence) when negb (f_Revision token =? s_Revision (m_committed m)) ;;
  validateFenceLocked m token.

Definition thaw (m : StateMachine) (now : Time) : StateMachine :=
  {| m_state := set_updated (set_freeze (m_state m) false "") now;
     m_committed := set_updated (set_freeze (m_committed m) false "") now;
     m_fences := m_fences m; m_committedFences := m_committedFences m;
     m_nonces := m_nonces m; m_proposals := m_proposals m |}.

Definition ResumeWrites (m : StateMachine) (now : Time) (token : FenceToken) : StateMachine * option error :=
  match validateResumeFenceLocked m token with
  | Some e => (m, Some (Wraps (Fails ErrWritesFrozen) e))
  | None => (thaw m now, None)
  end.

(** ** Proposals *)

(** The digest that a proposal names, or that of its payload. *)
Definition digest_or (digest payload : string) : string :=
  if String.eqb digest "" then Digest payload else digest.

(** The guards of [Propose], up to the lock. *)
Definition propose_fields (p : Proposal) : option error :=
  return Some (Fails ErrInvalidProposal) when
      negb (ValidIdentity (p_LeaderID p)) || negb (ValidIdentity (p_Version p)) || negb (ValidIdentity (p_Nonce p)) ;;
  return Some (Fails ErrInvalidProposal) when String.eqb (p_Payload p) "" ;;
  let digest := digest_or (p_Digest p) (p_Payload p) in
  return Some (Fails ErrInvalidProposal) when negb (validDigest digest) ;;
  return Some (Fails ErrInvalidProposal) when negb (String.eqb digest (Digest (p_Payload p))) ;;
  None.

(** The compare-and-swap guards, under the lock. *)
Definition propose_cas (m : StateMachine) (p : Proposal) : option error :=
  let st := m_state m in
  return Some (Fails ErrWritesFrozen) when s_WriteFrozen st ;;
  return Some (Fails ErrNotLeader) when negb (String.eqb (p_LeaderID p) (s_LeaderID st)) ;;
  return Some (Fails ErrStaleEpoch) when negb (p_ExpectedEpoch p =? s_Epoch st) ;;
  return Some (Fails ErrStaleRevision) when negb (p_ExpectedRevision p =? s_Revision st) ;;
  return Some (Fails ErrDuplicateNonce) when has (m_nonces m) (p_Nonce p) ;;
  None.

(** The state that a proposal leads to, and its commit. *)
Definition proposed_state (m : StateMachine) (now : Time) (p : Proposal) : State :=
  let rev := u64 (s_Revision (m_state m) + 1) in
  let d := {| d_Version := p_Version p; d_Digest := digest_or (p_Digest p) (p_Payload p);
              d_Payload := p_Payload p |} in
  set_ledger (set_updated (set_desired (m_state m) rev d) now) (<[p_Nonce p := rev]> (m_nonces m)).

Definition proposed_commit (m : StateMachine) (now : Time) (p : Proposal) : Commit :=
  let st := proposed_state m now p in
  {| c_State := st;
     c_Fence := {| f_ClusterID := s_ClusterID st; f_LeaderID := s_LeaderID st;
                   f_Epoch := s_Epoch st; f_Revision := s_Revision st; f_Digest := d_Digest (s_Desired st);
                   f_Nonce := p_Nonce p |} |}.

Definition tentative (m : StateMachine) (now : Time) (p : Proposal) : StateMachine :=
  let st := proposed_state m now p in
  {| m_state := st; m_committed := m_committed m;
     m_fences := <[s_Revision st := d_Digest (s_Desired st)]> (m_fences m);
     m_committedFences := m_committedFences m; m_nonces := s_NonceLedger st;
     m_proposals := <[s_Revision st := proposed_commit m now p]> (m_proposals m) |}.

Definition Propose (m : StateMachine) (now : Time) (p : Proposal) : StateMachine * result error Commit :=
  match propose_fields p with
  | Some e => (m, Err e)
  | None =>
      match propose_cas m p with
      | Some e => (m, Err e)
      | None => (tentative m now p, Ok (proposed_commit m now p))
      end
  end.

(** ** Commits *)

(** The fields that bind a commit to itself. *)
Definition commit_fields (commit : Commit) : option error :=
  let cs := c_State commit in
  let f := c_Fence commit in
  let invalid := Some (Fails ErrInvalidCommit) in
  return invalid when negb (ValidIdentity (f_ClusterID f)) || negb (ValidIdentity (f_LeaderID f))
      || negb (ValidIdentity (f_Nonce f)) || (f_Revision f =? 0) ;;
  return invalid when negb (ValidIdentity (s_ClusterID cs)) || negb (ValidIdentity (s_LeaderID cs))
      || negb (ValidIdentity (d_Version (s_Desired cs))) || String.eqb (d_Payload (s_Desired cs)) "" ;;
  return invalid when negb (String.eqb (d_Digest (s_Desired cs)) (Digest (d_Payload (s_Desired cs))))
      || negb (validDigest (d_Digest (s_Desired cs))) ;;
  return invalid when negb (String.eqb (f_Digest f) (d_Digest (s_Desired cs)))
      || negb (validDigest (f_Digest f)) || negb (s_Revision cs =? f_Revision f) ;;
  return invalid when s_WriteFrozen cs ;;
  return invalid when negb (validNonceLedger (s_NonceLedger cs) (s_Revision cs)) ;;
  None.

(** The fields that bind it to the machine. *)
Definition commit_bindings (m : StateMachine) (commit : Commit) : option error :=
  let cs := c_State commit in
  let f := c_Fence commit in
  let st := m_state m in
  let invalid := Some (Fails ErrInvalidCommit) in
  return invalid when negb (String.eqb (s_ClusterID cs) (s_ClusterID st))
      || negb (String.eqb (f_ClusterID f) (s_ClusterID st)) ;;
  return invalid when negb (String.eqb (s_LeaderID cs) (f_LeaderID f)) || negb (s_Term cs =? s_Term st)
      || negb (s_Epoch cs =? f_Epoch f) || (s_Revision st <? s_Revision cs) ;;
  return invalid when negb (String.eqb (f_LeaderID f) (s_LeaderID st)) || negb (f_Epoch f =? s_Epoch st)
      || (s_Revision st <? f_Revision f) ;;
  return invalid when negb (bool_decide (m_fences m !! f_Revision f = Some (f_Digest f))) ;;
  return invalid when negb (bool_decide (m_nonces m !! f_Nonce f = Some (f_Revision f))) ;;
  return invalid when negb (ledger_within (s_NonceLedger cs) (m_nonces m)) ;;
  match m_proposals m !! f_Revision f with
  | Some source => return invalid when negb (commitsEquivalent source commit) ;; None
  | None => return invalid when negb (s_Revision cs =? s_Revision (m_committed m))
                                || negb (stateCarriesExactCommit (m_committed m) commit) ;; None
  end.

Definition validateCommitLocked (m : StateMachine) (commit : Commit) : option error :=
  match commit_fields commit with
  | Some e => Some e
  | None => commit_bindings m commit
  end.

Definition ValidateCommit (m : StateMachine) (commit : Commit) : option error := validateCommitLocked m commit.

Definition validateCurrentCommitLocked (m : StateMachine) (commit : Commit) : option error :=
  match validateCommitLocked m commit with
  | Some e => Some e
  | None =>
      return Some (Fails ErrStaleRevision) when negb (s_Revision (c_State commit) =? s_Revision (m_committed m)) ;;
      return Some (Fails ErrInvalidCommit) when negb (stateCarriesExactCommit (m_committed m) commit) ;;
      return Some (Fails ErrStaleFence) when
          negb (bool_decide (m_committedFences m !! f_Revision (c_Fence commit) = Some (f_Digest (c_Fence commit)))) ;;
      None
  end.

Definition ClaimCurrentCommit (m : StateMachine) (commit : Commit) : option error :=
  validateCurrentCommitLocked m commit.

Definition ValidateCurrentCommit (m : StateMachine) (commit : Commit) : option error := ClaimCurrentCommit m commit.

(** A frozen machine takes the commit as its state whatever its revision. *)
Definition commit_installed (m : StateMachine) (commit : Commit) : StateMachine :=
  let cs := c_State commit in
  let frozen := s_WriteFrozen (m_state m) in
  let state := set_freeze cs frozen (if frozen then s_FreezeReason (m_state m) else ""%string) in
  let advances := s_Revision (m_committed m) <=? s_Revision cs in
  {| m_state := if frozen || (s_Revision (m_state m) <=? s_Revision cs) then state else m_state m;
     m_committed := if advances then state else m_committed m;
     m_fences := m_fences m;
     m_committedFences := if advances
                          then <[s_Revision cs := d_Digest (s_Desired cs)]> (m_committedFences m)
                          else m_committedFences m;
     m_nonces := m_nonces m; m_proposals := m_proposals m |}.

Definition InstallCommit (m : StateMachine) (commit : Commit) : StateMachine * option error :=
  match validateCommitLocked m commit with
  | Some e => (m, Some e)
  | None => (commit_installed m commit, None)
  end.

(** ** Durable snapshots *)

(** The guards on the snapshot alone, before the lock. *)
Definition snapshot_fields (s : State) : option error :=
  let d := s_Desired s in
  let invalid := Some (Fails ErrInvalidCommit) in
  return invalid when negb (ValidIdentity (s_ClusterID s)) ;;
  return invalid when (s_Revision s =? 0) &&
      (negb (String.eqb (d_Version d) "") || negb (String.eqb (d_Payload d) "") || negb (String.eqb (d_Digest d) "")) ;;
  return invalid when (s_Revision s =? 0) && negb (validNonceLedger (s_NonceLedger s) 0) ;;
  return invalid when negb (s_Revision s =? 0) &&
      (negb (ValidIdentity (d_Version d)) || String.eqb (d_Payload d) "" || negb (validDigest (d_Digest d))
       || negb (String.eqb (d_Digest d) (Digest (d_Payload d)))
       || negb (validNonceLedger (s_NonceLedger s) (s_Revision s))) ;;
  let leaderless := String.eqb (s_LeaderID s) "" in
  return invalid when negb leaderless && negb (ValidIdentity (s_LeaderID s)) ;;
  return invalid when leaderless && (negb (s_Term s =? 0) || negb (s_Epoch s =? 0)) ;;
  return invalid when leaderless && negb (s_WriteFrozen s) ;;
  return invalid when negb leaderless && ((s_Term s =? 0) || (s_Epoch s =? 0)) ;;
  None.

(** The guards against the committed state. *)
Definition snapshot_advances (m : StateMachine) (expected : option State) (s : State) : option error :=
  let current := m_committed m in
  let invalid := Some (Fails ErrInvalidCommit) in
  let stale := Some (Fails ErrStaleRevision) in
  return invalid when negb (String.eqb (s_ClusterID s) (s_ClusterID (m_state m))) ;;
  return stale when match expected with Some e => negb (sameLeadershipState current e) | None => false end ;;
  return stale when (s_Revision s <? s_Revision current) || (s_Epoch s <? s_Epoch current)
      || ((s_Epoch s =? s_Epoch current) && (s_Term s <? s_Term current)) ;;
  return invalid when (s_Epoch s =? s_Epoch current) && negb (s_Term s =? s_Term current) ;;
  return invalid when (s_Epoch s =? s_Epoch current) && negb (String.eqb (s_LeaderID s) (s_LeaderID current)) ;;
  return invalid when (s_Epoch current <? s_Epoch s) && (s_Term s <=? s_Term current) ;;
  return invalid when (s_Revision s =? s_Revision current) && (0 <? s_Revision s)
      && (negb (same_desired (s_Desired s) (s_Desired current))
          || negb (sameNonceLedger (s_NonceLedger s) (s_NonceLedger current))) ;;
  None.

Definition snapshot_loaded (m : StateMachine) (now : Time) (s : State) : StateMachine :=
  let s := if IsZero (s_UpdatedAt s) then set_updated s now else s in
  let st := if s_WriteFrozen (m_state m) then set_freeze s true (s_FreezeReason (m_state m)) else s in
  let fences : gmap Z string :=
    if 0 <? s_Revision s then {[ s_Revision s := d_Digest (s_Desired s) ]} else ∅ in
  {| m_state := st; m_committed := st; m_fences := fences; m_committedFences := fences;
     m_nonces := s_NonceLedger s; m_proposals := ∅ |}.

Definition loadSnapshot (m : StateMachine) (now : Time) (s : State) (expected : option State)
  : StateMachine * option error :=
  match snapshot_fields s with
  | Some e => (m, Some e)
  | None =>
      match snapshot_advances m expected s with
      | Some e => (m, Some e)
      | None => (snapshot_loaded m now s, None)
      end
  end.

Definition LoadSnapshot (m : StateMachine) (now : Time) (s : State) : StateMachine * option error :=
  loadSnapshot m now s None.

Definition LoadSnapshotIfCurrent (m : StateMachine) (now : Time) (expected s : State) : StateMachine * option error :=
  loadSnapshot m now s (Some expected).
