(* ===== verification/JsonValid.v ===== *)
(** * Syntax check of JSON documents ([encoding/json.Valid])

    The library's scanner as a recursive descent over the bytes: one value
    between white space, strings without control characters, nesting of at most
    10000 levels. A call for a value consumes a byte, and a call for elements
    or members is followed by one for a value, so twice the length of the input
    bounds the depth of the recursion. *)

From S2P Require Import Prelude GoText.
From Stdlib Require Import Ascii.

Open Scope list_scope.
Open Scope Z_scope.

Definition json_space (c : ascii) : bool :=
  let b := byte_val c in (b =? 32) || (b =? 9) || (b =? 13) || (b =? 10).

Fixpoint skip_space (l : list ascii) : list ascii :=
  match l with
  | c :: l' => if json_space c then skip_space l' else l
  | [] => []
  end.

Definition json_digit (c : ascii) : bool := (48 <=? byte_val c) && (byte_val c <=? 57).

Fixpoint skip_digits (l : list ascii) : list ascii :=
  match l with
  | c :: l' => if json_digit c then skip_digits l' else l
  | [] => []
  end.

(** At least one digit. *)
Definition some_digits (l : list ascii) : option (list ascii) :=
  match l with
  | c :: l' => if json_digit c then Some (skip_digits l') else None
  | [] => None
  end.

(** The rest of a string after its opening quote. *)
Fixpoint string_rest (l : list ascii) : option (list ascii) :=
  match l with
  | [] => None
  | c :: l =>
      let b := byte_val c in
      if b =? 34 then Some l
      else if b <? 32 then None
      else if b =? 92 then
        match l with
        | [] => None
        | e :: l =>
            let b := byte_val e in
            if existsb (Z.eqb b) [98; 102; 110; 114; 116; 92; 47; 34] then string_rest l
            else if b =? 117 then
              match l with
              | h1 :: h2 :: h3 :: h4 :: l =>
                  if forallb is_hex_char [h1; h2; h3; h4] then string_rest l else None
              | _ => None
              end
            else None
        end
      else string_rest l
  end.

Definition fraction (l : list ascii) : option (list ascii) :=
  match l with
  | c :: l' => if byte_val c =? 46 then some_digits l' else Some l
  | [] => Some []
  end.

Definition exponent (l : list ascii) : option (list ascii) :=
  match l with
  | c :: l' =>
      if (byte_val c =? 101) || (byte_val c =? 69)
      then match l' with
           | s :: l'' => if (byte_val s =? 43) || (byte_val s =? 45) then some_digits l'' else some_digits l'
           | [] => None
           end
      else Some l
  | [] => Some []
  end.

(** A number without its sign. *)
Definition number (l : list ascii) : option (list ascii) :=
  match l with
  | c :: l' =>
      if byte_val c =? 48 then fraction l' ≫= exponent
      else if json_digit c then fraction (skip_digits l') ≫= exponent
      else None
  | [] => None
  end.

Definition literal (word : string) (l : list ascii) : option (list ascii) :=
  if has_prefix (bytes word) l then Some (drop (length (bytes word)) l) else None.

Inductive mode := MValue | MElements | MMembers.

Definition max_nesting : Z := 10000.

(** The bytes after a value, after the elements of an array, or after the
    members of an object, when they are valid. *)
Fixpoint scan (fuel : nat) (m : mode) (depth : Z) (l : list ascii) : option (list ascii) :=
  match fuel with
  | O => None
  | S fuel =>
      match m with
      | MValue =>
          match skip_space l with
          | [] => None
          | c :: rest =>
              let b := byte_val c in
              if b =? 123 then
                if max_nesting <? depth + 1 then None
                else match skip_space rest with
                     | c' :: rest' => if byte_val c' =? 125 then Some rest'
                                      else scan fuel MMembers (depth + 1) (c' :: rest')
                     | [] => None
                     end
              else if b =? 91 then
                if max_nesting <? depth + 1 then None
                else match skip_space rest with
                     | c' :: rest' => if byte_val c' =? 93 then Some rest'
                                      else scan fuel MElements (depth + 1) (c' :: rest')
                     | [] => None
                     end
              else if b =? 34 then string_rest rest
              else if b =? 45 then number rest
              else if json_digit c then number (c :: rest)
              else if b =? 116 then literal "rue" rest
              else if b =? 102 then literal "alse" rest
              else if b =? 110 then literal "ull" rest
              else None
          end
      | MElements =>
          match scan fuel MValue depth l with
          | None => None
          | Some rest =>
              match skip_space rest with
              | c :: rest => if byte_val c =? 44 then scan fuel MElements depth rest
                             else if byte_val c =? 93 then Some rest else None
              | [] => None
              end
          end
      | MMembers =>
          match skip_space l with
          | q :: rest =>
              if byte_val q =? 34
              then match string_rest rest with
                   | None => None
                   | Some rest =>
                       match skip_space rest with
                       | colon :: rest =>
                           if byte_val colon =? 58
                           then match scan fuel MValue depth rest with
                                | None => None
                                | Some rest =>
                                    match skip_space rest with
                                    | c :: rest => if byte_val c =? 44 then scan fuel MMembers depth rest
                                                   else if byte_val c =? 125 then Some rest else None
                                    | [] => None
                                    end
                                end
                           else None
                       | [] => None
                       end
                   end
              else None
          | [] => None
          end
      end
  end.

(** [json.Valid] *)
Definition json_valid (s : string) : bool :=
  match scan (2 * String.length s + 2) MValue 0 (bytes s) with
  | Some rest => match skip_space rest with [] => true | _ => false end
  | None => false
  end.

(** A string in quotes, and a document with a quoted key. *)
Definition quoted (s : string) : string := String (ascii_of_nat 34) (s ++ String (ascii_of_nat 34) EmptyString)%string.

Example json_valid_documents :
  forallb json_valid ["{}"; " [1, -2.5e+3, true, null] "; "{" ++ quoted "a\u00e9" ++ " : [{}, []] }"; "0"; quoted "x"]%string
  = true.
Proof. vm_compute. reflexivity. Qed.

Example json_invalid_documents :
  existsb json_valid [""; "{"; "[1,]"; "01"; "1."; "tru"; "{" ++ quoted "a" ++ "}"; quoted "\x"; "{} {}"; "[1}"]%string
  = false.
Proof. vm_compute. reflexivity. Qed.

(** A value is not empty, so an empty document is never valid. *)
Lemma json_valid_nonempty s : json_valid s = true -> s <> "".
Proof. by intros H ->. Qed.
