(* ===== verification/ControlFacts.v ===== *)
(** * Facts about the control-plane state machine

    Nonce ledgers as bijections with the revisions, the machine as a
    transition system, and the invariants its operations preserve. *)

From S2P Require Import Prelude GoText Sha256 ControlState.

Open Scope list_scope.
Open Scope Z_scope.
Open Scope go_scope.

(** ** Nonce ledgers *)

(** One nonce for each revision from 1 to [rev]. *)
Record ledger_ok (l : gmap string Z) (rev : Z) : Prop := {
  lo_size : Z.of_nat (size l) = rev;
  lo_entry : forall n r, l !! n = Some r -> ValidIdentity n = true /\ 1 <= r <= rev;
  lo_inj : forall n n' r, l !! n = Some r -> l !! n' = Some r -> n = n'
}.

Lemma ledger_ok_empty : ledger_ok ∅ 0.
Proof. split; [done| |]; intros *; rewrite lookup_empty; done. Qed.

Lemma ledger_loop_spec rev entries : forall seen out,
  ledger_loop rev seen entries = Some out ->
  NoDup seen -> (forall r, r ∈ seen -> r <= rev /\ r <> 0) ->
  NoDup out
  /\ (forall r, r ∈ out <-> r ∈ seen \/ r ∈ entries.*2)
  /\ NoDup (entries.*2)
  /\ (forall e, e ∈ entries -> ValidIdentity (fst e) = true /\ snd e <= rev /\ snd e <> 0 /\ snd e ∉ seen).
Proof.
  induction entries as [|[n r] entries IH]; simpl; intros seen out H Hd Hs.
  - injection H as <-. split_and!; [done|set_solver|apply NoDup_nil_2|set_solver].
  - branch H. props.
    assert (Hr : r ∉ seen).
    { intros Hin. apply not_true_iff_false in E0. apply E0. apply existsb_exists.
      exists r. split; [by apply list_elem_of_In|apply Z.eqb_refl]. }
    destruct (IH _ _ H) as (Ho1 & Ho2 & Ho3 & Ho4).
    { by apply NoDup_cons. }
    { intros x [->|Hx]%elem_of_cons; [lia|by apply Hs]. }
    split_and!; [done| | |].
    + intros x. rewrite Ho2, !elem_of_cons. tauto.
    + apply NoDup_cons. split; [|done]. intros Hin.
      apply list_elem_of_fmap in Hin as (e & -> & He).
      destruct (Ho4 _ He) as (_ & _ & _ & Hne). apply Hne. apply elem_of_cons. by left.
    + intros e [->|He]%elem_of_cons; simpl; [done|].
      destruct (Ho4 _ He) as (? & ? & ? & Hne). split_and!; try done. set_solver.
Qed.

Lemma validNonceLedger_ok l rev :
  0 <= rev -> Forall (fun e => 0 <= snd e) (map_to_list l) -> validNonceLedger l rev = true -> ledger_ok l rev.
Proof.
  intros Hrev Hpos. unfold validNonceLedger. destruct (rev =? 0) eqn:E0; props.
  { subst rev. intros E%Nat.eqb_eq. apply map_size_empty_inv in E. subst l. apply ledger_ok_empty. }
  intros H. branch H. props.
  destruct (ledger_loop_spec _ _ _ _ E2) as (_ & _ & Hd & He); [constructor|set_solver|].
  split; [done| |].
  - intros n r Hl. apply elem_of_map_to_list in Hl.
    destruct (He _ Hl) as (? & ? & ? & _). rewrite Forall_forall in Hpos. specialize (Hpos _ Hl).
    simpl in *. split; [done|lia].
  - intros n n' r Hn Hn'. apply elem_of_map_to_list in Hn, Hn'.
    apply list_elem_of_lookup in Hn as [i Hi], Hn' as [j Hj].
    assert (i = j) as <-.
    { eapply NoDup_lookup; [exact Hd| |]; rewrite list_lookup_fmap.
      - by rewrite Hi.
      - by rewrite Hj. }
    congruence.
Qed.

(** Injective ledgers of size [rev] reach every revision, so the boolean test
    accepts them. *)
Lemma ledger_ok_values l rev : ledger_ok l rev ->
  NoDup ((map_to_list l).*2) /\ length ((map_to_list l).*2) = Z.to_nat rev
  /\ forall r, r ∈ (map_to_list l).*2 -> 1 <= r <= rev.
Proof.
  intros [Hsz He Hinj]. split_and!.
  - apply NoDup_alt. intros i j r. rewrite !list_lookup_fmap.
    intros (e & Ei & Er)%fmap_Some (e' & Ej & Er')%fmap_Some.
    destruct e as [n r1], e' as [n' r2]. simpl in *. subst.
    assert (n = n') as <-.
    { eapply Hinj; apply elem_of_map_to_list; eapply list_elem_of_lookup_2; eassumption. }
    exact (NoDup_lookup _ _ _ _ (NoDup_map_to_list l) Ei Ej).
  - rewrite length_fmap, length_map_to_list. lia.
  - intros r ([n r'] & -> & Hin)%list_elem_of_fmap. apply elem_of_map_to_list in Hin.
    apply (He n), Hin.
Qed.

Lemma ledger_ok_surj l rev r : ledger_ok l rev -> 1 <= r <= rev -> exists n, l !! n = Some r.
Proof.
  intros Hl Hr. destruct (ledger_ok_values _ _ Hl) as (Hd & Hlen & Hb).
  assert (Hsub : (map_to_list l).*2 ⊆ map Z.of_nat (seq 1 (Z.to_nat rev))).
  { intros x Hx. apply Hb in Hx. apply list_elem_of_In, in_map_iff.
    exists (Z.to_nat x). split; [lia|]. apply in_seq. lia. }
  assert (Hperm : (map_to_list l).*2 ≡ₚ map Z.of_nat (seq 1 (Z.to_nat rev))).
  { apply submseteq_length_Permutation; [by apply NoDup_submseteq|]. rewrite length_map, length_seq. lia. }
  assert (Hin : r ∈ (map_to_list l).*2).
  { rewrite Hperm. apply list_elem_of_In, in_map_iff. exists (Z.to_nat r). split; [lia|]. apply in_seq. lia. }
  apply list_elem_of_fmap in Hin as ([n r'] & -> & Hin). exists n. by apply elem_of_map_to_list.
Qed.

Lemma ledger_loop_total rev entries : forall seen,
  NoDup (seen ++ entries.*2) ->
  (forall e, e ∈ entries -> ValidIdentity (fst e) = true /\ 1 <= snd e <= rev) ->
  exists out, ledger_loop rev seen entries = Some out /\ forall r, r ∈ entries.*2 \/ r ∈ seen -> r ∈ out.
Proof.
  induction entries as [|[n r] entries IH]; simpl; intros seen Hd He.
  - exists seen. split; [done|set_solver].
  - destruct (He (n, r)) as [Hid Hr]; [by left|]. simpl in *. rewrite Hid.
    replace (r =? 0) with false by lia. replace (rev <? r) with false by lia. simpl.
    assert (Hs : r ∉ seen).
    { apply NoDup_app in Hd as (_ & Hd & _). intros Hin. apply (Hd _ Hin). by left. }
    destruct (existsb (Z.eqb r) seen) eqn:Ex.
    { apply existsb_exists in Ex as (x & Hx & ->%Z.eqb_eq). apply list_elem_of_In in Hx. done. }
    destruct (IH (r :: seen)) as (out & Ho & Hout).
    { rewrite <- app_comm_cons. rewrite Permutation_middle. done. }
    { intros e Hin. apply He. by right. }
    exists out. split; [done|]. intros x Hx. apply Hout. set_solver.
Qed.

Lemma ledger_ok_valid l rev : ledger_ok l rev -> rev < two64 - 1 -> validNonceLedger l rev = true.
Proof.
  intros Hl Hmax. pose proof (lo_size _ _ Hl) as Hsz. unfold validNonceLedger.
  destruct (rev =? 0) eqn:E0; props.
  { apply Nat.eqb_eq. lia. }
  replace (rev =? two64 - 1) with false by lia.
  replace (Z.of_nat (size l) =? rev) with true by lia. simpl.
  destruct (ledger_ok_values _ _ Hl) as (Hd & Hlen & Hb).
  destruct (ledger_loop_total rev (map_to_list l) []) as (out & -> & Hout); [done| |].
  { intros [n r] Hin. apply elem_of_map_to_list in Hin. apply (lo_entry _ _ Hl _ _ Hin). }
  apply forallb_forall. intros k Hk%in_seq. apply existsb_exists. exists (Z.of_nat k). split; [|apply Z.eqb_refl].
  apply list_elem_of_In, Hout. left.
  destruct (ledger_ok_surj l rev (Z.of_nat k) Hl ltac:(lia)) as [n Hn].
  apply list_elem_of_fmap. exists (n, Z.of_nat k). split; [done|]. by apply elem_of_map_to_list.
Qed.

Lemma ledger_within_spec a b :
  ledger_within a b = true <-> forall n r, a !! n = Some r -> rev_at b n = r.
Proof.
  unfold ledger_within. rewrite forallb_forall. split.
  - intros H n r Hn. apply elem_of_map_to_list, list_elem_of_In in Hn. apply H in Hn. simpl in Hn. lia.
  - intros H [n r] Hin. apply list_elem_of_In, elem_of_map_to_list in Hin. simpl. apply Z.eqb_eq. by apply H.
Qed.

Lemma ledger_within_refl a : ledger_within a a = true.
Proof. apply ledger_within_spec. intros n r H. unfold rev_at. by rewrite H. Qed.

Lemma ledger_within_sub a b rev : ledger_ok a rev -> ledger_within a b = true -> a ⊆ b.
Proof.
  intros Ha H. apply map_subseteq_spec. intros n r Hn.
  pose proof (proj1 (ledger_within_spec _ _) H n r Hn) as Hb.
  pose proof (lo_entry _ _ Ha _ _ Hn). unfold rev_at in Hb. destruct (b !! n); simpl in Hb; [congruence|lia].
Qed.

Lemma sub_ledger_within (a b : gmap string Z) : a ⊆ b -> ledger_within a b = true.
Proof.
  intros H. apply ledger_within_spec. intros n r Hn. unfold rev_at.
  by rewrite (proj1 (map_subseteq_spec _ _) H _ _ Hn).
Qed.

Lemma ledger_same_size (a b : gmap string Z) : a ⊆ b -> size a = size b -> a = b.
Proof. intros Hs Hz. apply map_subseteq_size_eq; [done|lia]. Qed.

Lemma sameNonceLedger_eq a b rev : ledger_ok a rev -> sameNonceLedger a b = true -> a = b.
Proof.
  intros Ha [Hz Hw]%andb_true_iff. apply ledger_same_size; [by eapply ledger_within_sub|by apply Nat.eqb_eq].
Qed.

(** A new nonce at the next revision. *)
Lemma ledger_ok_insert l rev n : ledger_ok l rev -> l !! n = None -> ValidIdentity n = true -> 0 <= rev ->
  ledger_ok (<[n := rev + 1]> l) (rev + 1).
Proof.
  intros Hl Hn Hid Hrev. pose proof (lo_size _ _ Hl). split.
  - rewrite map_size_insert_None by done. lia.
  - intros n' r [[<- <-]|[Hne Hl']]%lookup_insert_Some; [split; [done|lia]|].
    destruct (lo_entry _ _ Hl _ _ Hl'). split; [done|lia].
  - intros n1 n2 r [[<- <-]|[Hne1 H1]]%lookup_insert_Some [[<- Hr]|[Hne2 H2]]%lookup_insert_Some; try done.
    + pose proof (lo_entry _ _ Hl _ _ H2). lia.
    + pose proof (lo_entry _ _ Hl _ _ H1). lia.
    + by eapply (lo_inj _ _ Hl).
Qed.

(** ** What the guards establish *)

Ltac guards H :=
  repeat match type of H with
  | (if _ then Some _ else _) = None => let G := fresh "G" in apply guard_None in H as [G H]
  end; props.

Lemma has_lookup {V} (m : gmap Z V) k : has m k = true -> exists v, m !! k = Some v.
Proof. intros H. apply has_true in H as [v H]. eauto. Qed.

Lemma same_desired_eq a b : same_desired a b = true <-> a = b.
Proof.
  unfold same_desired. rewrite !andb_true_iff, !String.eqb_eq. destruct a, b; simpl. naive_solver.
Qed.

Lemma same_desired_false a b : negb (same_desired a b) = false -> a = b.
Proof. intros H%negb_false_iff. by apply same_desired_eq. Qed.

(** The fields that [stateCarriesExactCommit] compares. *)
Record carries (s : State) (c : Commit) : Prop := {
  ca_cluster : s_ClusterID s = s_ClusterID (c_State c);
  ca_leader : s_LeaderID s = s_LeaderID (c_State c);
  ca_term : s_Term s = s_Term (c_State c);
  ca_epoch : s_Epoch s = s_Epoch (c_State c);
  ca_revision : s_Revision s = s_Revision (c_State c);
  ca_desired : s_Desired s = s_Desired (c_State c);
  ca_fence_cluster : f_ClusterID (c_Fence c) = s_ClusterID s;
  ca_fence_leader : f_LeaderID (c_Fence c) = s_LeaderID s;
  ca_fence_epoch : f_Epoch (c_Fence c) = s_Epoch s;
  ca_fence_revision : f_Revision (c_Fence c) = s_Revision s;
  ca_fence_digest : f_Digest (c_Fence c) = d_Digest (s_Desired s);
  ca_nonce_id : ValidIdentity (f_Nonce (c_Fence c)) = true;
  ca_nonce : rev_at (s_NonceLedger s) (f_Nonce (c_Fence c)) = s_Revision s;
  ca_size : size (s_NonceLedger s) = size (s_NonceLedger (c_State c));
  ca_within : ledger_within (s_NonceLedger s) (s_NonceLedger (c_State c)) = true
}.

Lemma carries_spec s c : stateCarriesExactCommit s c = true <-> carries s c.
Proof.
  unfold stateCarriesExactCommit. split.
  - intros H. branch H. props.
    match goal with G : same_desired _ _ = true |- _ => apply same_desired_eq in G end.
    match goal with G : Nat.eqb _ _ = true |- _ => apply Nat.eqb_eq in G end.
    by split.
  - intros []. rewrite ca_cluster0, ca_leader0, ca_term0, ca_epoch0, ca_revision0, ca_size0, ca_within0,
      ca_fence_cluster0, ca_fence_leader0, ca_fence_epoch0, ca_fence_revision0, ca_fence_digest0, ca_nonce_id0,
      ca_nonce0, ca_cluster0, ca_leader0, ca_epoch0, ca_revision0, ca_desired0.
    rewrite !String.eqb_refl, !Z.eqb_refl, Nat.eqb_refl, (proj2 (same_desired_eq _ _) eq_refl). done.
Qed.

Record equivalent_states (a b : State) : Prop := {
  es_cluster : s_ClusterID a = s_ClusterID b;
  es_leader : s_LeaderID a = s_LeaderID b;
  es_term : s_Term a = s_Term b;
  es_epoch : s_Epoch a = s_Epoch b;
  es_revision : s_Revision a = s_Revision b;
  es_desired : s_Desired a = s_Desired b;
  es_frozen : s_WriteFrozen a = s_WriteFrozen b;
  es_reason : s_FreezeReason a = s_FreezeReason b;
  es_updated : s_UpdatedAt a = s_UpdatedAt b;
  es_size : size (s_NonceLedger a) = size (s_NonceLedger b);
  es_within : ledger_within (s_NonceLedger a) (s_NonceLedger b) = true
}.

Lemma equivalent_spec a b : statesEquivalentForCommit a b = true <-> equivalent_states a b.
Proof.
  unfold statesEquivalentForCommit. split.
  - intros H. branch H. props.
    match goal with G : same_desired _ _ = true |- _ => apply same_desired_eq in G end.
    match goal with G : Nat.eqb _ _ = true |- _ => apply Nat.eqb_eq in G end.
    match goal with G : Bool.eqb _ _ = true |- _ => apply eqb_prop in G end.
    by split.
  - intros []. rewrite es_cluster0, es_leader0, es_term0, es_epoch0, es_revision0, es_desired0, es_frozen0,
      es_reason0, es_updated0, es_size0, es_within0.
    rewrite !String.eqb_refl, !Z.eqb_refl, Nat.eqb_refl, eqb_reflx, (proj2 (same_desired_eq _ _) eq_refl). done.
Qed.

Lemma commitsEquivalent_spec a b :
  commitsEquivalent a b = true <-> c_Fence a = c_Fence b /\ equivalent_states (c_State a) (c_State b).
Proof. unfold commitsEquivalent. rewrite andb_true_iff, bool_decide_eq_true, equivalent_spec. done. Qed.

Lemma commitsEquivalent_refl a : commitsEquivalent a a = true.
Proof. apply commitsEquivalent_spec. split; [done|]. split; try done. apply ledger_within_refl. Qed.

(** A commit that [validateCommitLocked] accepts. *)
Record commit_ok (m : StateMachine) (c : Commit) : Prop := {
  co_id : ValidIdentity (f_Nonce (c_Fence c)) = true;
  co_leader_id : ValidIdentity (s_LeaderID (c_State c)) = true;
  co_version : ValidIdentity (d_Version (s_Desired (c_State c))) = true;
  co_payload : d_Payload (s_Desired (c_State c)) <> "";
  co_digest : d_Digest (s_Desired (c_State c)) = Digest (d_Payload (s_Desired (c_State c)));
  co_hex : validDigest (d_Digest (s_Desired (c_State c))) = true;
  co_fence_digest : f_Digest (c_Fence c) = d_Digest (s_Desired (c_State c));
  co_fence_revision : f_Revision (c_Fence c) = s_Revision (c_State c);
  co_nonzero : s_Revision (c_State c) <> 0;
  co_thawed : s_WriteFrozen (c_State c) = false;
  co_ledger : validNonceLedger (s_NonceLedger (c_State c)) (s_Revision (c_State c)) = true;
  co_cluster : s_ClusterID (c_State c) = s_ClusterID (m_state m);
  co_fence_cluster : f_ClusterID (c_Fence c) = s_ClusterID (m_state m);
  co_leader : s_LeaderID (c_State c) = s_LeaderID (m_state m);
  co_fence_leader : f_LeaderID (c_Fence c) = s_LeaderID (m_state m);
  co_term : s_Term (c_State c) = s_Term (m_state m);
  co_epoch : s_Epoch (c_State c) = s_Epoch (m_state m);
  co_fence_epoch : f_Epoch (c_Fence c) = s_Epoch (m_state m);
  co_le : s_Revision (c_State c) <= s_Revision (m_state m);
  co_fence : m_fences m !! s_Revision (c_State c) = Some (d_Digest (s_Desired (c_State c)));
  co_nonce : m_nonces m !! f_Nonce (c_Fence c) = Some (s_Revision (c_State c));
  co_within : ledger_within (s_NonceLedger (c_State c)) (m_nonces m) = true;
  co_source :
    match m_proposals m !! s_Revision (c_State c) with
    | Some source => commitsEquivalent source c = true
    | None => s_Revision (c_State c) = s_Revision (m_committed m) /\ carries (m_committed m) c
    end
}.

Lemma validateCommit_spec m c : validateCommitLocked m c = None -> commit_ok m c.
Proof.
  unfold validateCommitLocked. intros H. destruct (commit_fields c) eqn:Hf; [done|].
  unfold commit_fields in Hf. unfold commit_bindings in H. guards Hf. guards H.
  assert (Hr : f_Revision (c_Fence c) = s_Revision (c_State c)) by congruence.
  rewrite Hr in *.
  assert (Hd : f_Digest (c_Fence c) = d_Digest (s_Desired (c_State c))) by done.
  rewrite Hd in *.
  split; try done; try congruence.
  destruct (m_proposals m !! s_Revision (c_State c)); guards H; [done|].
  split; [done|]. by apply carries_spec.
Qed.

Lemma validateCommit_complete m c :
  ValidIdentity (s_ClusterID (m_state m)) = true -> commit_ok m c -> validateCommitLocked m c = None.
Proof.
  intros Hid []. unfold validateCommitLocked, commit_fields, commit_bindings.
  rewrite co_fence_cluster0, co_fence_leader0, co_fence_epoch0, co_fence_digest0, co_fence_revision0,
    co_cluster0, co_leader0, co_term0, co_epoch0, co_thawed0, co_ledger0, co_id0, co_version0, co_hex0,
    co_fence0, co_nonce0, co_within0, Hid.
  rewrite <- co_digest0, <- co_leader0, co_leader_id0, !String.eqb_refl, !Z.eqb_refl.
  destruct (String.eqb_spec (d_Payload (s_Desired (c_State c))) ""); [done|].
  replace (s_Revision (c_State c) =? 0) with false by lia.
  replace (s_Revision (m_state m) <? s_Revision (c_State c)) with false by lia.
  rewrite !bool_decide_eq_true_2 by done. simpl.
  destruct (m_proposals m !! s_Revision (c_State c)); [by rewrite co_source0|].
  destruct co_source0 as [-> Hc]. rewrite Z.eqb_refl, (proj2 (carries_spec _ _) Hc). done.
Qed.

(** A snapshot that [loadSnapshot] accepts. *)
Record snapshot_ok (m : StateMachine) (expected : option State) (s : State) : Prop := {
  so_cluster_id : ValidIdentity (s_ClusterID s) = true;
  so_ledger : validNonceLedger (s_NonceLedger s) (s_Revision s) = true;
  so_empty : s_Revision s = 0 -> s_Desired s = zero_desired;
  so_digest : s_Revision s <> 0 -> d_Digest (s_Desired s) = Digest (d_Payload (s_Desired s))
              /\ validDigest (d_Digest (s_Desired s)) = true /\ d_Payload (s_Desired s) <> ""
              /\ ValidIdentity (d_Version (s_Desired s)) = true;
  so_leaderless : s_LeaderID s = "" -> s_Term s = 0 /\ s_Epoch s = 0 /\ s_WriteFrozen s = true;
  so_led : s_LeaderID s <> "" -> ValidIdentity (s_LeaderID s) = true /\ s_Term s <> 0 /\ s_Epoch s <> 0;
  so_cluster : s_ClusterID s = s_ClusterID (m_state m);
  so_expected : forall e, expected = Some e -> sameLeadershipState (m_committed m) e = true;
  so_revision : s_Revision (m_committed m) <= s_Revision s;
  so_epoch : s_Epoch (m_committed m) <= s_Epoch s;
  so_same : s_Epoch s = s_Epoch (m_committed m) ->
            s_Term s = s_Term (m_committed m) /\ s_LeaderID s = s_LeaderID (m_committed m);
  so_newer : s_Epoch (m_committed m) < s_Epoch s -> s_Term (m_committed m) < s_Term s;
  so_conflict : s_Revision s = s_Revision (m_committed m) -> 0 < s_Revision s ->
                s_Desired s = s_Desired (m_committed m)
                /\ sameNonceLedger (s_NonceLedger s) (s_NonceLedger (m_committed m)) = true
}.

(** Clauses [guard && refusal = false] of the code, as implications. *)
Lemma guard_imp (a b : bool) : a && b = false -> a = true -> b = false.
Proof. destruct a, b; done. Qed.

Lemma loadSnapshot_spec m expected s :
  snapshot_fields s = None -> snapshot_advances m expected s = None -> snapshot_ok m expected s.
Proof.
  intros Hf Ha. unfold snapshot_fields in Hf. unfold snapshot_advances in Ha.
  repeat apply guard_None in Hf as [?G Hf]. repeat apply guard_None in Ha as [?G Ha].
  assert (Hl : String.eqb (s_LeaderID s) "" = true <-> s_LeaderID s = "") by apply String.eqb_eq.
  split.
  - by props.
  - destruct (s_Revision s =? 0) eqn:E; simpl in *; props; [by rewrite E|done].
  - intros E. rewrite E in *. simpl in *. props. destruct (s_Desired s); simpl in *. subst. done.
  - intros E. apply Z.eqb_neq in E. rewrite E in *. simpl in *. props. done.
  - intros E. rewrite E in *. simpl in *. props. done.
  - intros E. apply String.eqb_neq in E. rewrite E in *. simpl in *. props. done.
  - by props.
  - intros e ->. by props.
  - props. lia.
  - props. lia.
  - intros E. apply Z.eqb_eq in E. rewrite E in *. simpl in *. props. done.
  - intros E. apply Z.ltb_lt in E. rewrite E in *. simpl in *. props. done.
  - intros E1 E2. apply Z.eqb_eq in E1. apply Z.ltb_lt in E2. rewrite E1, E2 in *. simpl in *. props.
    split; [by apply same_desired_eq|done].
Qed.

(** A token that [validateFenceLocked] accepts. *)
Record fence_ok (m : StateMachine) (t : FenceToken) : Prop := {
  fo_cluster : f_ClusterID t = s_ClusterID (m_committed m);
  fo_leader : f_LeaderID t = s_LeaderID (m_committed m);
  fo_epoch : f_Epoch t = s_Epoch (m_committed m);
  fo_nonzero : f_Revision t <> 0;
  fo_le : f_Revision t <= s_Revision (m_committed m);
  fo_digest : m_committedFences m !! f_Revision t = Some (f_Digest t);
  fo_nonce_id : f_Nonce t <> "";
  fo_nonce : rev_at (m_nonces m) (f_Nonce t) = f_Revision t
}.

Lemma validateFence_spec m t : validateFenceLocked m t = None <-> fence_ok m t.
Proof.
  unfold validateFenceLocked. rewrite guard_None. split.
  - intros [H _]. props.
    match goal with G : has _ _ = true |- _ => apply has_lookup in G as [v Hv] end.
    rewrite Hv in *. simpl in *. by split; try congruence.
  - intros []. split; [|done].
    rewrite fo_cluster0, fo_leader0, fo_epoch0, fo_digest0, fo_nonce0. unfold has. rewrite fo_digest0.
    simpl. rewrite !String.eqb_refl, !Z.eqb_refl. simpl.
    replace (f_Revision t =? 0) with false by lia.
    replace (s_Revision (m_committed m) <? f_Revision t) with false by lia.
    destruct (String.eqb_spec (f_Nonce t) ""); done.
Qed.

(** ** The machine as a transition system *)

Inductive Op :=
| OpLead (term : Z) (leaderID : string)
| OpFreeze (reason : string)
| OpResume (token : FenceToken)
| OpPropose (p : Proposal)
| OpLoad (s : State) (expected : option State)
| OpInstall (c : Commit).

Definition step (m : StateMachine) (now : Time) (op : Op) : StateMachine :=
  match op with
  | OpLead term leaderID => fst (InstallLeadership m now term leaderID)
  | OpFreeze reason => FreezeWrites m now reason
  | OpResume token => fst (ResumeWrites m now token)
  | OpPropose p => fst (Propose m now p)
  | OpLoad s expected => fst (loadSnapshot m now s expected)
  | OpInstall c => fst (InstallCommit m c)
  end.

Definition run (m : StateMachine) (ops : list (Time * Op)) : StateMachine :=
  fold_left (fun m e => step m (fst e) (snd e)) ops m.

(** The moves an operation makes: the call is refused or has nothing to do,
    or its guards hold and the state changes. *)
Inductive move (m : StateMachine) (now : Time) : Op -> StateMachine -> Prop :=
| mv_stay op : move m now op m
| mv_overflow term leaderID :
    s_Term (m_state m) < term -> s_Epoch (m_state m) = two64 - 1 ->
    move m now (OpLead term leaderID) (freeze_overflow m)
| mv_lead term leaderID :
    ValidIdentity leaderID = true -> s_Term (m_state m) < term -> s_Epoch (m_state m) <> two64 - 1 ->
    move m now (OpLead term leaderID) (lead m now term leaderID)
| mv_freeze reason : move m now (OpFreeze reason) (FreezeWrites m now reason)
| mv_resume token :
    f_Revision token = s_Revision (m_committed m) -> fence_ok m token ->
    move m now (OpResume token) (thaw m now)
| mv_propose p :
    propose_fields p = None -> propose_cas m p = None ->
    move m now (OpPropose p) (tentative m now p)
| mv_load s expected :
    snapshot_ok m expected s -> move m now (OpLoad s expected) (snapshot_loaded m now s)
| mv_install c : commit_ok m c -> move m now (OpInstall c) (commit_installed m c).

Lemma step_move m now op : move m now op (step m now op).
Proof.
  destruct op as [term leaderID|reason|token|p|s expected|c]; simpl.
  - unfold InstallLeadership.
    destruct (_ || negb _) eqn:E1; [constructor|].
    destruct (_ || (_ && _)) eqn:E2; [constructor|].
    destruct (_ && negb _) eqn:E3; [constructor|].
    assert (Ht : s_Term (m_state m) < term).
    { props. destruct (Z.eq_dec term (s_Term (m_state m))) as [->|]; [|lia].
      rewrite Z.eqb_refl in *. simpl in *. destruct (String.eqb leaderID (s_LeaderID (m_state m))); done. }
    destruct (_ =? two64 - 1) eqn:E4; props; simpl; by constructor.
  - constructor.
  - unfold ResumeWrites, validateResumeFenceLocked.
    destruct (negb _) eqn:E1; [constructor|].
    destruct (validateFenceLocked m token) eqn:E2; [constructor|]. props.
    constructor; [done|]. by apply validateFence_spec.
  - unfold Propose. destruct (propose_fields p) eqn:E1; [constructor|].
    destruct (propose_cas m p) eqn:E2; [constructor|]. by constructor.
  - unfold loadSnapshot. destruct (snapshot_fields s) eqn:E1; [constructor|].
    destruct (snapshot_advances m expected s) eqn:E2; [constructor|].
    constructor. by apply loadSnapshot_spec.
  - unfold InstallCommit. destruct (validateCommitLocked m c) eqn:E1; [constructor|].
    constructor. by apply validateCommit_spec.
Qed.

(** ** Values of their Go types *)

Definition is_u64 (z : Z) : Prop := 0 <= z < two64.

Record typed_state (s : State) : Prop := {
  ty_term : is_u64 (s_Term s);
  ty_epoch : is_u64 (s_Epoch s);
  ty_revision : is_u64 (s_Revision s);
  ty_ledger : Forall (fun e => 0 <= snd e) (map_to_list (s_NonceLedger s))
}.

Definition typed_op (op : Op) : Prop :=
  match op with
  | OpLead term _ => is_u64 term
  | OpLoad s _ => typed_state s
  | OpInstall c => typed_state (c_State c)
  | OpFreeze _ | OpResume _ | OpPropose _ => True
  end.

(** ** The live and the committed state agree on leadership *)

Record aligned (m : StateMachine) : Prop := {
  al_cluster : s_ClusterID (m_committed m) = s_ClusterID (m_state m);
  al_leader : s_LeaderID (m_committed m) = s_LeaderID (m_state m);
  al_term : s_Term (m_committed m) = s_Term (m_state m);
  al_epoch : s_Epoch (m_committed m) = s_Epoch (m_state m);
  al_frozen : s_WriteFrozen (m_committed m) = s_WriteFrozen (m_state m);
  al_term_u64 : is_u64 (s_Term (m_state m));
  al_epoch_u64 : is_u64 (s_Epoch (m_state m))
}.

Lemma leadership_base_cases m :
  leadership_base m = (m_committed m, s_NonceLedger (m_committed m))
  /\ s_WriteFrozen (m_state m) = true /\ s_Revision (m_committed m) <> s_Revision (m_state m)
  \/ leadership_base m = (m_state m, m_nonces m)
     /\ (s_WriteFrozen (m_state m) = false \/ s_Revision (m_committed m) = s_Revision (m_state m)).
Proof.
  unfold leadership_base. destruct (s_WriteFrozen (m_state m)); simpl; [|by right; auto].
  destruct (Z.eqb_spec (s_Revision (m_committed m)) (s_Revision (m_state m))); simpl; auto.
Qed.

(** The base has the leadership of the machine. *)
Lemma leadership_base_epoch m : aligned m -> s_Epoch (fst (leadership_base m)) = s_Epoch (m_state m)
  /\ s_ClusterID (fst (leadership_base m)) = s_ClusterID (m_state m).
Proof. intros Ha. destruct (leadership_base_cases m) as [[-> _]|[-> _]]; destruct Ha; simpl; auto. Qed.

(** All fields of the state that [lead] installs. *)
Lemma lead_state m now term leaderID base ledger :
  leadership_base m = (base, ledger) ->
  m_committed (lead m now term leaderID) = m_state (lead m now term leaderID)
  /\ m_nonces (lead m now term leaderID) = ledger
  /\ m_fences (lead m now term leaderID) = ∅ /\ m_committedFences (lead m now term leaderID) = ∅
  /\ m_proposals (lead m now term leaderID) = ∅
  /\ s_ClusterID (m_state (lead m now term leaderID)) = s_ClusterID base
  /\ s_LeaderID (m_state (lead m now term leaderID)) = leaderID
  /\ s_Term (m_state (lead m now term leaderID)) = term
  /\ s_Epoch (m_state (lead m now term leaderID)) = u64 (s_Epoch base + 1)
  /\ s_Revision (m_state (lead m now term leaderID)) = s_Revision base
  /\ s_Desired (m_state (lead m now term leaderID)) = s_Desired base
  /\ s_NonceLedger (m_state (lead m now term leaderID)) = ledger
  /\ s_WriteFrozen (m_state (lead m now term leaderID))
     = s_WriteFrozen (m_state m) && negb (s_Revision (m_committed m) =? 0)
       && negb (String.eqb (s_FreezeReason (m_state m)) leadership_lost).
Proof.
  intros E. unfold lead. rewrite E. cbv zeta.
  destruct (s_WriteFrozen (m_state m)) eqn:E1; simpl; [|by split_and!].
  destruct (s_Revision (m_committed m) =? 0); simpl; [by split_and!|].
  destruct (String.eqb _ _); by split_and!.
Qed.

Lemma snapshot_loaded_state m now s :
  m_committed (snapshot_loaded m now s) = m_state (snapshot_loaded m now s)
  /\ s_ClusterID (m_state (snapshot_loaded m now s)) = s_ClusterID s
  /\ s_LeaderID (m_state (snapshot_loaded m now s)) = s_LeaderID s
  /\ s_Term (m_state (snapshot_loaded m now s)) = s_Term s
  /\ s_Epoch (m_state (snapshot_loaded m now s)) = s_Epoch s
  /\ s_Revision (m_state (snapshot_loaded m now s)) = s_Revision s
  /\ s_Desired (m_state (snapshot_loaded m now s)) = s_Desired s
  /\ s_NonceLedger (m_state (snapshot_loaded m now s)) = s_NonceLedger s
  /\ s_WriteFrozen (m_state (snapshot_loaded m now s)) = s_WriteFrozen (m_state m) || s_WriteFrozen s.
Proof.
  unfold snapshot_loaded. destruct (IsZero (s_UpdatedAt s)), (s_WriteFrozen (m_state m)); simpl; by split_and!.
Qed.

Lemma aligned_move m now op m' : aligned m -> typed_op op -> move m now op m' -> aligned m'.
Proof.
  intros Ha Hty Hmv. destruct Hmv as [op|term leaderID Ht He|term leaderID Hid Ht He|reason|token Hr Hf|p Hp Hc|s ex Hs|c Hc].
  - done.
  - destruct Ha. by split.
  - pose proof (leadership_base_epoch m Ha) as [Hbe Hbc].
    destruct (leadership_base m) as [base ledger] eqn:Eb. simpl in Hbe, Hbc.
    destruct (lead_state m now term leaderID _ _ Eb) as (Hcm & _ & _ & _ & _ & _ & _ & Htm & Hep & _).
    split; rewrite ?Hcm; try done; [by rewrite Htm|]. rewrite Hep. apply u64_range.
  - destruct Ha. by split.
  - destruct Ha. by split.
  - destruct Ha. by split.
  - pose proof (snapshot_loaded_state m now s) as (Hcm & _ & _ & Htm & Hep & _).
    split; rewrite ?Hcm, ?Htm, ?Hep; try done; apply Hty.
  - destruct Ha, Hc. unfold commit_installed. simpl.
    destruct (s_WriteFrozen (m_state m)) eqn:Ef, (s_Revision (m_state m) <=? _), (s_Revision (m_committed m) <=? _);
      split; simpl; try congruence; rewrite ?co_term0, ?co_epoch0; done.
Qed.
