(* ===== verification/ControlSafety.v ===== *)
(** * Safety of the control-plane state machine

    Epochs and leaders, fencing across leadership changes, the nonce ledger,
    and the history of committed desired states. *)

From S2P Require Import Prelude GoText Sha256 ControlState ControlFacts.

Open Scope list_scope.
Open Scope Z_scope.
Open Scope go_scope.

(** ** Ledgers below a common one *)

Lemma ledger_unique (n a b : gmap string Z) rev r :
  ledger_ok n rev -> a ⊆ n -> b ⊆ n -> ledger_ok a r -> ledger_ok b r -> a = b.
Proof.
  intros Hn Ha Hb Oa Ob. apply ledger_same_size.
  - apply map_subseteq_spec. intros k v Hk.
    destruct (ledger_ok_surj b r v Ob) as [k' Hk']; [by destruct (lo_entry _ _ Oa _ _ Hk)|].
    enough (k = k') by congruence.
    rewrite map_subseteq_spec in Ha. rewrite map_subseteq_spec in Hb.
    eapply (lo_inj _ _ Hn); [by apply Ha|by apply Hb].
  - pose proof (lo_size _ _ Oa). pose proof (lo_size _ _ Ob). lia.
Qed.

(** ** Coherent machines *)

(** An outstanding proposal is a commit that the machine would accept. *)
Record proposal_ok (m : StateMachine) (r : Z) (c : Commit) : Prop := {
  po_revision : s_Revision (c_State c) = r;
  po_commit : commit_ok m c;
  po_ledger : ledger_ok (s_NonceLedger (c_State c)) r;
  po_committed : r = s_Revision (m_committed m) -> s_Desired (c_State c) = s_Desired (m_committed m);
  po_state : r = s_Revision (m_state m) -> s_Desired (c_State c) = s_Desired (m_state m)
}.

Definition digest_bound (s : State) : Prop :=
  s_Revision s <> 0 -> d_Digest (s_Desired s) = Digest (d_Payload (s_Desired s)).

Record coherent (m : StateMachine) : Prop := {
  ch_aligned : aligned m;
  ch_cluster : ValidIdentity (s_ClusterID (m_state m)) = true;
  ch_revision : 0 <= s_Revision (m_committed m) <= s_Revision (m_state m);
  ch_max : s_Revision (m_state m) < two64 - 1;
  ch_same : s_Revision (m_committed m) = s_Revision (m_state m) -> s_Desired (m_committed m) = s_Desired (m_state m);
  ch_committed_empty : s_Revision (m_committed m) = 0 -> s_Desired (m_committed m) = zero_desired;
  ch_state_ledger : s_NonceLedger (m_state m) = m_nonces m;
  ch_ledger : ledger_ok (m_nonces m) (s_Revision (m_state m));
  ch_committed_ledger : ledger_ok (s_NonceLedger (m_committed m)) (s_Revision (m_committed m));
  ch_committed_sub : s_NonceLedger (m_committed m) ⊆ m_nonces m;
  ch_digest : digest_bound (m_committed m) /\ digest_bound (m_state m);
  ch_fences : forall r d, m_fences m !! r = Some d -> 1 <= r <= s_Revision (m_state m);
  ch_committed_fences : forall r d, m_committedFences m !! r = Some d ->
    r <= s_Revision (m_committed m) /\ m_fences m !! r = Some d;
  ch_current : forall d, m_committedFences m !! s_Revision (m_committed m) = Some d ->
    d = d_Digest (s_Desired (m_committed m));
  ch_proposals : forall r c, m_proposals m !! r = Some c -> proposal_ok m r c
}.

(** Operations a node is meant to perform: a leadership change with a tentative
    proposal only while writes are frozen, no installation of a commit older
    than a frozen state, and no proposal at the end of the revision range. *)
Definition disciplined (m : StateMachine) (op : Op) : bool :=
  match op with
  | OpLead _ _ => s_WriteFrozen (m_state m) || (s_Revision (m_committed m) =? s_Revision (m_state m))
  | OpPropose _ => s_Revision (m_state m) + 1 <? two64 - 1
  | OpInstall c => negb (s_WriteFrozen (m_state m)) || (s_Revision (m_state m) <=? s_Revision (c_State c))
  | OpFreeze _ | OpResume _ | OpLoad _ _ => true
  end.

Fixpoint disciplined_run (m : StateMachine) (ops : list (Time * Op)) : bool :=
  match ops with
  | [] => true
  | (now, op) :: ops => disciplined m op && disciplined_run (step m now op) ops
  end.

(** A commit accepted by a coherent machine agrees with it. *)
Lemma commit_agrees m c : coherent m -> typed_state (c_State c) -> commit_ok m c ->
  ledger_ok (s_NonceLedger (c_State c)) (s_Revision (c_State c))
  /\ s_NonceLedger (c_State c) ⊆ m_nonces m
  /\ (s_Revision (c_State c) = s_Revision (m_committed m) -> s_Desired (c_State c) = s_Desired (m_committed m))
  /\ (s_Revision (c_State c) = s_Revision (m_state m) -> s_Desired (c_State c) = s_Desired (m_state m)).
Proof.
  intros Hm Hty Hc.
  assert (Ho : ledger_ok (s_NonceLedger (c_State c)) (s_Revision (c_State c))).
  { apply validNonceLedger_ok; [apply Hty|apply Hty|apply Hc]. }
  split; [done|]. split; [eapply ledger_within_sub; [exact Ho|apply Hc]|].
  pose proof (co_source _ _ Hc) as Hs.
  destruct (m_proposals m !! s_Revision (c_State c)) as [src|] eqn:Ep.
  - apply (ch_proposals _ Hm) in Ep. apply commitsEquivalent_spec in Hs as [_ Hs].
    rewrite <- (es_desired _ _ Hs). split; apply Ep.
  - destruct Hs as [Hr Hca]. rewrite <- (ca_desired _ _ Hca). split; [done|].
    intros E. apply (ch_same _ Hm). congruence.
Qed.

(** Accepted proposals stay acceptable while the leadership, the fences and
    the nonces they name are kept. *)
Lemma commit_ok_mono m m' c :
  commit_ok m c -> m_proposals m' !! s_Revision (c_State c) = Some c ->
  s_ClusterID (m_state m') = s_ClusterID (m_state m) -> s_LeaderID (m_state m') = s_LeaderID (m_state m) ->
  s_Term (m_state m') = s_Term (m_state m) -> s_Epoch (m_state m') = s_Epoch (m_state m) ->
  s_Revision (m_state m) <= s_Revision (m_state m') ->
  m_fences m' !! s_Revision (c_State c) = m_fences m !! s_Revision (c_State c) ->
  m_nonces m ⊆ m_nonces m' -> ledger_ok (s_NonceLedger (c_State c)) (s_Revision (c_State c)) ->
  commit_ok m' c.
Proof.
  intros [] Hp Hcl Hl Ht He Hr Hf Hn Ho. rewrite map_subseteq_spec in Hn.
  split; rewrite ?Hcl, ?Hl, ?Ht, ?He, ?Hf; try done.
  - lia.
  - by apply Hn.
  - apply sub_ledger_within, map_subseteq_spec. intros k v Hk. apply Hn.
    pose proof (ledger_within_sub _ _ _ Ho co_within) as Hs. rewrite map_subseteq_spec in Hs. by apply Hs.
  - rewrite Hp. apply commitsEquivalent_refl.
Qed.

Lemma new_coherent clusterID now m : NewStateMachine clusterID now = Ok m -> coherent m.
Proof.
  unfold NewStateMachine. intros H. branch H. props. injection H as <-.
  split; simpl; try done; try (intros *; rewrite lookup_empty; done).
  split; intros Hne; by destruct Hne.
Qed.

(** Changes of the freeze and of the time leave a machine coherent. *)
Lemma refrozen_coherent m b r1 r2 t1 t2 :
  coherent m ->
  coherent {| m_state := set_updated (set_freeze (m_state m) b r1) t1;
              m_committed := set_updated (set_freeze (m_committed m) b r2) t2;
              m_fences := m_fences m; m_committedFences := m_committedFences m;
              m_nonces := m_nonces m; m_proposals := m_proposals m |}.
Proof.
  intros Hm. pose proof (ch_aligned _ Hm) as Ha.
  split; try apply Hm.
  - destruct Ha. by split.
  - intros r c Hp. simpl in Hp. pose proof (ch_proposals _ Hm _ _ Hp) as [].
    split; try done. eapply commit_ok_mono; [exact po_commit0|..]; simpl; try done; try by rewrite po_revision0.
Qed.

Lemma overflow_coherent m : coherent m -> coherent (freeze_overflow m).
Proof.
  intros Hm. pose proof (refrozen_coherent m true "epoch overflow" "epoch overflow"
                           (s_UpdatedAt (m_state m)) (s_UpdatedAt (m_committed m)) Hm) as H.
  exact H.
Qed.

Lemma lead_coherent m now term leaderID :
  coherent m -> is_u64 term -> disciplined m (OpLead term leaderID) = true -> coherent (lead m now term leaderID).
Proof.
  intros Hm Hty Hd. simpl in Hd. pose proof (ch_aligned _ Hm) as Ha.
  destruct (leadership_base m) as [base ledger] eqn:Eb.
  destruct (lead_state m now term leaderID _ _ Eb)
    as (Hcm & Hn & Hf & Hcf & Hp & Hcl & Hl & Ht & He & Hr & Hds & Hld & _).
  assert (Hb : s_ClusterID base = s_ClusterID (m_state m) /\ ledger_ok ledger (s_Revision base)
               /\ 0 <= s_Revision base < two64 - 1 /\ digest_bound base
               /\ (s_Revision base = 0 -> s_Desired base = zero_desired)).
  { pose proof (ch_revision _ Hm). pose proof (ch_max _ Hm).
    destruct (leadership_base_cases m) as [[E _]|[E _]]; rewrite E in Eb; injection Eb as <- <-; split_and!;
      first [apply Ha|apply Hm|lia|done|idtac].
    intros E0. rewrite <- (ch_same _ Hm) by intuition lia. apply Hm. intuition lia. }
  destruct Hb as (Hbc & Hbl & Hbr & Hbd & Hbe).
  split; rewrite ?Hcm, ?Hn, ?Hf, ?Hcf, ?Hp, ?Hr, ?Hds, ?Hld, ?Hcl, ?Hbc; try done; try lia;
    try (intros *; rewrite lookup_empty; done).
  - split; rewrite ?Hcm, ?Ht, ?He; try done. apply u64_range.
  - apply Hm.
  - by split; intros E; rewrite Hr in E; rewrite Hds; apply Hbd.
Qed.

Lemma loaded_coherent m now s expected :
  coherent m -> typed_state s -> snapshot_ok m expected s -> coherent (snapshot_loaded m now s).
Proof.
  intros Hm Hty Hs. destruct (snapshot_loaded_state m now s) as (Hcm & Hcl & Hl & Ht & He & Hr & Hds & Hld & _).
  assert (Ho : ledger_ok (s_NonceLedger s) (s_Revision s)) by (apply validNonceLedger_ok; [apply Hty|apply Hty|apply Hs]).
  assert (Hmax : s_Revision s < two64 - 1).
  { pose proof (so_ledger _ _ _ Hs) as Hv. pose proof (ty_revision _ Hty) as Hu. unfold is_u64 in Hu.
    unfold validNonceLedger in Hv. destruct (s_Revision s =? 0) eqn:E0; props; [rewrite E0; reflexivity|].
    destruct (s_Revision s =? two64 - 1) eqn:E1; [done|]. props. lia. }
  assert (Hfn : m_fences (snapshot_loaded m now s)
                = (if 0 <? s_Revision s then {[ s_Revision s := d_Digest (s_Desired s) ]} else ∅)
                /\ m_committedFences (snapshot_loaded m now s) = m_fences (snapshot_loaded m now s)
                /\ m_nonces (snapshot_loaded m now s) = s_NonceLedger s
                /\ m_proposals (snapshot_loaded m now s) = ∅).
  { unfold snapshot_loaded. simpl. destruct (IsZero (s_UpdatedAt s)); by split_and!. }
  destruct Hfn as (Hfn & Hcf & Hn & Hp). pose proof (ty_revision _ Hty) as Hu. unfold is_u64 in Hu.
  assert (Hlook : forall r d, m_fences (snapshot_loaded m now s) !! r = Some d ->
                   r = s_Revision s /\ 1 <= r /\ d = d_Digest (s_Desired s)).
  { intros r d. rewrite Hfn. destruct (Z.ltb_spec 0 (s_Revision s)); [|by rewrite lookup_empty].
    intros [<- <-]%lookup_singleton_Some. split_and!; [done|lia|done]. }
  split; rewrite ?Hcm, ?Hn, ?Hp, ?Hr, ?Hds, ?Hld, ?Hcl; try done; try lia.
  - split; rewrite ?Hcm, ?Ht, ?He; try done; apply Hty.
  - apply Hs.
  - apply Hs.
  - by split; intros E; rewrite Hr in E; rewrite Hds; apply (so_digest _ _ _ Hs).
  - intros r d Hd. destruct (Hlook _ _ Hd). lia.
  - intros r d Hd. rewrite Hcf in Hd. destruct (Hlook _ _ Hd). split; [lia|done].
  - intros d Hd. rewrite Hcf in Hd. by destruct (Hlook _ _ Hd) as (_ & _ & ?).
Qed.

(** ** Proposals *)

(** What the guards of [Propose] establish. *)
Record proposal_accepted (m : StateMachine) (p : Proposal) : Prop := {
  pa_leader_id : ValidIdentity (p_LeaderID p) = true;
  pa_version : ValidIdentity (p_Version p) = true;
  pa_nonce_id : ValidIdentity (p_Nonce p) = true;
  pa_payload : p_Payload p <> "";
  pa_digest : digest_or (p_Digest p) (p_Payload p) = Digest (p_Payload p);
  pa_hex : validDigest (Digest (p_Payload p)) = true;
  pa_thawed : s_WriteFrozen (m_state m) = false;
  pa_leader : p_LeaderID p = s_LeaderID (m_state m);
  pa_epoch : p_ExpectedEpoch p = s_Epoch (m_state m);
  pa_revision : p_ExpectedRevision p = s_Revision (m_state m);
  pa_nonce : m_nonces m !! p_Nonce p = None
}.

Lemma propose_spec m p :
  propose_fields p = None /\ propose_cas m p = None <-> proposal_accepted m p.
Proof.
  split.
  - intros [Hf Hc]. unfold propose_fields in Hf. unfold propose_cas in Hc. guards Hf. guards Hc.
    assert (Hd : digest_or (p_Digest p) (p_Payload p) = Digest (p_Payload p)) by done.
    rewrite Hd in *. split; try done. by apply has_false.
  - intros []. unfold propose_fields, propose_cas.
    rewrite pa_leader_id0, pa_version0, pa_nonce_id0, pa_digest0, pa_hex0, pa_thawed0, pa_leader0, pa_epoch0, pa_revision0.
    unfold has. rewrite pa_nonce0, !String.eqb_refl, !Z.eqb_refl. simpl.
    destruct (String.eqb_spec (p_Payload p) ""); done.
Qed.

(** The commit of an accepted proposal is accepted in its turn. *)
Lemma tentative_commit m now p :
  coherent m -> s_Revision (m_state m) + 1 < two64 - 1 -> proposal_accepted m p ->
  s_Revision (proposed_state m now p) = s_Revision (m_state m) + 1
  /\ ledger_ok (s_NonceLedger (proposed_state m now p)) (s_Revision (m_state m) + 1)
  /\ m_nonces m ⊆ s_NonceLedger (proposed_state m now p)
  /\ commit_ok (tentative m now p) (proposed_commit m now p).
Proof.
  intros Hm Hmax [].
  pose proof (ch_revision _ Hm). assert (Hr : u64 (s_Revision (m_state m) + 1) = s_Revision (m_state m) + 1).
  { apply u64_small. unfold two64 in *. lia. }
  unfold proposed_state, proposed_commit, tentative. simpl. unfold proposed_state. simpl. rewrite Hr.
  assert (Hl : ledger_ok (<[p_Nonce p:=s_Revision (m_state m) + 1]> (m_nonces m)) (s_Revision (m_state m) + 1)).
  { apply ledger_ok_insert; [apply Hm|done|done|lia]. }
  assert (Hs : m_nonces m ⊆ <[p_Nonce p:=s_Revision (m_state m) + 1]> (m_nonces m)) by by apply insert_subseteq.
  split_and!; [done|done|done|].
  split; simpl; rewrite ?pa_digest0; try done; try lia.
  - by rewrite <- pa_leader0.
  - by apply ledger_ok_valid.
  - by rewrite lookup_insert_eq.
  - by rewrite lookup_insert_eq.
  - apply ledger_within_refl.
  - rewrite lookup_insert_eq. apply commitsEquivalent_spec. unfold proposed_commit, proposed_state. simpl.
    rewrite Hr, pa_digest0. split; [done|]. split; try done. apply ledger_within_refl.
Qed.

Lemma tentative_coherent m now p :
  coherent m -> s_Revision (m_state m) + 1 < two64 - 1 -> proposal_accepted m p -> coherent (tentative m now p).
Proof.
  intros Hm Hmax Hp. destruct (tentative_commit m now p Hm Hmax Hp) as (Hr & Hl & Hs & Hc).
  pose proof (ch_revision _ Hm). pose proof (ch_aligned _ Hm) as Ha.
  split; cbn [tentative m_state m_committed m_fences m_committedFences m_nonces m_proposals];
    rewrite ?Hr; try done; try lia.
  - destruct Ha. by split.
  - apply Hm.
  - apply Hm.
  - apply Hm.
  - pose proof (ch_committed_sub _ Hm). by etrans.
  - split; [apply Hm|]. intros _. apply Hp.
  - intros r d [[<- _]|[_ Hd]]%lookup_insert_Some; [lia|]. apply (ch_fences _ Hm) in Hd. lia.
  - intros r d Hd. apply (ch_committed_fences _ Hm) in Hd as [Hle Hd]. split; [done|].
    rewrite lookup_insert_ne; [done|]. lia.
  - apply Hm.
  - intros r c [[<- <-]|[Hne Hd]]%lookup_insert_Some.
    + split; cbn [tentative m_state m_committed]; rewrite ?Hr; try done. lia.
    + pose proof (ch_proposals _ Hm _ _ Hd) as Ho. pose proof (po_commit _ _ _ Ho) as Hco.
      pose proof (co_le _ _ Hco) as Hle. rewrite (po_revision _ _ _ Ho) in Hle.
      split; try apply Ho.
      * eapply commit_ok_mono; [exact Hco|..];
          cbn [tentative m_state m_committed m_fences m_committedFences m_nonces m_proposals]; rewrite ?(po_revision _ _ _ Ho); try done.
        -- rewrite lookup_insert_ne; [done|]. lia.
        -- rewrite Hr. lia.
        -- rewrite lookup_insert_ne; [done|]. lia.
        -- apply Ho.
      * cbn [tentative m_state]. rewrite Hr. lia.
Qed.

Lemma tentative_typed m now p :
  coherent m -> s_Revision (m_state m) + 1 < two64 - 1 -> proposal_accepted m p ->
  typed_state (proposed_state m now p).
Proof.
  intros Hm Hmax Ha. destruct (tentative_commit m now p Hm Hmax Ha) as (Hr & Hl & _).
  pose proof (ch_revision _ Hm).
  split; [apply (ch_aligned _ Hm)|apply (ch_aligned _ Hm)|rewrite Hr; unfold is_u64, two64 in *; lia|].
  apply Forall_forall. intros [n r] Hin. apply elem_of_map_to_list in Hin.
  destruct (lo_entry _ _ Hl _ _ Hin). simpl. lia.
Qed.

(** ** Installation *)

Lemma installed_coherent m c :
  coherent m -> typed_state (c_State c) -> commit_ok m c -> disciplined m (OpInstall c) = true ->
  coherent (commit_installed m c).
Proof.
  intros Hm Hty Hc Hd. destruct (commit_agrees m c Hm Hty Hc) as (Ho & Hsub & Hcm & Hst).
  pose proof (ch_revision _ Hm). pose proof (ch_max _ Hm). pose proof (co_le _ _ Hc). pose proof (co_nonzero _ _ Hc).
  assert (Hl : s_Revision (c_State c) = s_Revision (m_state m) -> s_NonceLedger (c_State c) = m_nonces m).
  { intros E. eapply ledger_unique; [apply Hm|exact Hsub|done|exact Ho|]. rewrite E. apply Hm. }
  set (adv := s_Revision (m_committed m) <=? s_Revision (c_State c)).
  set (st := set_freeze (c_State c) (s_WriteFrozen (m_state m))
               (if s_WriteFrozen (m_state m) then s_FreezeReason (m_state m) else ""%string)).
  assert (Est : exists fr re t, m_state (commit_installed m c)
                = set_updated (set_freeze (m_state m) fr re) t).
  { unfold commit_installed. simpl. fold st.
    destruct (s_WriteFrozen (m_state m) || (s_Revision (m_state m) <=? s_Revision (c_State c))) eqn:E.
    - assert (Er : s_Revision (c_State c) = s_Revision (m_state m)).
      { simpl in Hd. destruct (s_WriteFrozen (m_state m)); simpl in *; lia. }
      exists (s_WriteFrozen (m_state m)), (s_FreezeReason st), (s_UpdatedAt (c_State c)).
      pose proof (Hst Er) as Eds. pose proof (Hl Er) as El. destruct Hc. unfold st, set_freeze, set_updated. simpl.
      rewrite co_cluster, co_leader, co_term, co_epoch, Er, Eds, El, (ch_state_ledger _ Hm). done.
    - exists (s_WriteFrozen (m_state m)), (s_FreezeReason (m_state m)), (s_UpdatedAt (m_state m)).
      by destruct (m_state m). }
  destruct Est as (fr & re & t & Est).
  assert (Ecm : m_committed (commit_installed m c) = if adv then st else m_committed m) by done.
  assert (Ecf : m_committedFences (commit_installed m c)
                = if adv then <[s_Revision (c_State c) := d_Digest (s_Desired (c_State c))]> (m_committedFences m)
                  else m_committedFences m) by done.
  assert (Hadv : if adv then s_Revision (m_committed m) <= s_Revision (c_State c)
                 else s_Revision (c_State c) < s_Revision (m_committed m)).
  { unfold adv. destruct (Z.leb_spec (s_Revision (m_committed m)) (s_Revision (c_State c))); done. }
  assert (Hal : aligned (commit_installed m c)) by (by apply (aligned_move m 0 (OpInstall c)); [apply Hm| |constructor]).
  assert (Hkeep : forall r c0, m_proposals m !! r = Some c0 -> commit_ok (commit_installed m c) c0
                  /\ s_Revision (c_State c0) = r /\ ledger_ok (s_NonceLedger (c_State c0)) r).
  { intros r c0 Hp. pose proof (ch_proposals _ Hm _ _ Hp) as []. split; [|done].
    eapply commit_ok_mono; [exact po_commit0|..]; rewrite ?Est; simpl; try done; by rewrite po_revision0. }
  split; rewrite ?Est, ?Ecm, ?Ecf; simpl; try apply Hm; try done.
  - destruct adv; simpl; [|apply Hm]. lia.
  - destruct adv; simpl; [done|apply Hm].
  - destruct adv; simpl; [|apply Hm]. done.
  - destruct adv; simpl; [done|apply Hm].
  - destruct adv; simpl; [done|apply Hm].
  - split; [|apply Hm]. destruct adv; [|apply Hm]. intros _. apply Hc.
  - intros r d. destruct adv; simpl.
    + intros [[<- <-]|[_ Hd']]%lookup_insert_Some; [split; [lia|apply Hc]|].
      apply (ch_committed_fences _ Hm) in Hd' as [? ?]. split; [lia|done].
    + apply (ch_committed_fences _ Hm).
  - intros d. destruct adv; simpl; [|apply (ch_current _ Hm)]. rewrite lookup_insert_eq. by intros [= <-].
  - intros r c0 Hp. destruct (Hkeep _ _ Hp) as (Hco & Hr & Hlo).
    pose proof (ch_proposals _ Hm _ _ Hp) as Hpo. split; try done.
    + rewrite Ecm. destruct adv; simpl; [|apply Hpo]. intros E.
      pose proof (co_source _ _ Hc) as Hs. rewrite <- E, Hp in Hs.
      apply commitsEquivalent_spec in Hs as [_ Hs]. apply Hs.
    + rewrite Est. simpl. apply Hpo.
Qed.

(** ** Every disciplined run keeps the machine coherent *)

Lemma coherent_move m now op m' :
  coherent m -> typed_op op -> disciplined m op = true -> move m now op m' -> coherent m'.
Proof.
  intros Hm Hty Hd Hmv. destruct Hmv.
  - done.
  - by apply overflow_coherent.
  - by apply lead_coherent.
  - by apply refrozen_coherent.
  - by apply refrozen_coherent.
  - apply tentative_coherent; [done| |by apply propose_spec]. simpl in Hd. lia.
  - by eapply loaded_coherent.
  - by apply installed_coherent.
Qed.

Lemma coherent_run ops : forall m, coherent m -> Forall (fun e => typed_op (snd e)) ops ->
  disciplined_run m ops = true -> coherent (run m ops).
Proof.
  induction ops as [|[now op] ops IH]; intros m Hm Hty Hd; [done|].
  simpl in Hd. apply andb_true_iff in Hd as [Hd1 Hd2]. apply Forall_cons in Hty as [Ht1 Ht2].
  apply IH; [|done|done]. by eapply coherent_move; [..|apply step_move].
Qed.

(** ** Errors of the validators *)

Lemma invalid_commit m c e : validateCommitLocked m c = Some e -> e = Fails ErrInvalidCommit.
Proof.
  unfold validateCommitLocked, commit_fields, commit_bindings. intros H.
  destruct (m_proposals m !! f_Revision (c_Fence c));
    repeat match type of H with context [if ?b then _ else _] => destruct b end; congruence.
Qed.

Lemma stale_fence m t e : validateFenceLocked m t = Some e -> e = Fails ErrStaleFence.
Proof. unfold validateFenceLocked. destruct (_ || _); congruence. Qed.

Lemma machine_run_app m ops ops' : run m (ops ++ ops') = run (run m ops) ops'.
Proof. apply fold_left_app. Qed.

(** ** Leaders and epochs *)

Definition not_older (m m' : StateMachine) : Prop :=
  s_Epoch (m_state m) < s_Epoch (m_state m') /\ s_Term (m_state m) < s_Term (m_state m')
  \/ s_Epoch (m_state m') = s_Epoch (m_state m) /\ s_Term (m_state m') = s_Term (m_state m)
     /\ s_LeaderID (m_state m') = s_LeaderID (m_state m).

#[export] Instance not_older_preorder : PreOrder not_older.
Proof. split; [intros m; by right|]. intros a b c. unfold not_older. intuition (try congruence; lia). Qed.

Lemma not_older_move m now op m' : aligned m -> move m now op m' -> not_older m m'.
Proof.
  intros Ha Hmv.
  destruct Hmv as [op|term leaderID Ht He|term leaderID Hid Ht He|reason|token Hr Hf|p Hp Hc|s ex Hs|c Hc];
    try by right.
  - left. destruct (leadership_base_epoch m Ha) as [Hbe _].
    destruct (leadership_base m) as [base ledger] eqn:Eb. simpl in Hbe.
    destruct (lead_state m now term leaderID _ _ Eb) as (_ & _ & _ & _ & _ & _ & _ & -> & -> & _).
    pose proof (al_epoch_u64 _ Ha) as Hu. unfold is_u64 in Hu.
    rewrite Hbe, u64_small by (unfold two64 in *; lia). lia.
  - destruct (snapshot_loaded_state m now s) as (_ & _ & Hl & Ht & He & _). unfold not_older. rewrite Hl, Ht, He.
    rewrite <- (al_epoch _ Ha), <- (al_term _ Ha), <- (al_leader _ Ha). destruct Hs.
    destruct (Z.eq_dec (s_Epoch s) (s_Epoch (m_committed m))) as [E|E]; [right|left]; intuition lia.
  - right. destruct Hc. unfold commit_installed. simpl. destruct (_ || _); auto.
Qed.

Lemma not_older_run ops : forall m, aligned m -> Forall (fun e => typed_op (snd e)) ops -> not_older m (run m ops).
Proof.
  induction ops as [|[now op] ops IH]; intros m Ha Hty; [reflexivity|].
  apply Forall_cons in Hty as [Ht1 Ht2]. simpl. etrans.
  - eapply not_older_move; [done|apply (step_move m now op)].
  - apply IH; [|done]. eapply aligned_move; [done|exact Ht1|apply step_move].
Qed.

Lemma aligned_run ops : forall m, aligned m -> Forall (fun e => typed_op (snd e)) ops -> aligned (run m ops).
Proof.
  induction ops as [|[now op] ops IH]; intros m Ha Hty; [done|].
  apply Forall_cons in Hty as [Ht1 Ht2]. apply IH; [|done]. eapply aligned_move; [done|exact Ht1|apply step_move].
Qed.


(** Once the leadership has changed, no fencing token and no commit of an
    epoch up to the former one is accepted again, by any of the checks. *)
Theorem former_epochs_fenced m ops token c :
  aligned m -> Forall (fun e => typed_op (snd e)) ops ->
  let m' := run m ops in
  s_Term (Snapshot m') <> s_Term (Snapshot m) \/ s_LeaderID (Snapshot m') <> s_LeaderID (Snapshot m) ->
  f_Epoch token <= s_Epoch (Snapshot m) -> f_Epoch (c_Fence c) <= s_Epoch (Snapshot m) ->
  ValidateFence m' token = Some (Fails ErrStaleFence)
  /\ ValidateCommit m' c = Some (Fails ErrInvalidCommit)
  /\ (forall now, ResumeWrites m' now token = (m', Some (Wraps (Fails ErrWritesFrozen) (Fails ErrStaleFence))))
  /\ InstallCommit m' c = (m', Some (Fails ErrInvalidCommit)).
Proof.
  intros Ha Hty m' Hchg Ht Hc. pose proof (aligned_run ops m Ha Hty) as Hr. fold m' in Hr.
  assert (Hnew : s_Epoch (m_state m) < s_Epoch (m_state m')).
  { destruct (not_older_run ops m Ha Hty) as [[? _]|(_ & E1 & E2)]; [done|].
    unfold Snapshot in Hchg. fold m' in E1, E2.
    rewrite (al_term _ Ha), (al_term _ Hr), (al_leader _ Ha), (al_leader _ Hr) in Hchg. intuition congruence. }
  unfold Snapshot in *. rewrite (al_epoch _ Ha) in *.
  assert (Hf : validateFenceLocked m' token = Some (Fails ErrStaleFence)).
  { destruct (validateFenceLocked m' token) eqn:E; [by rewrite (stale_fence _ _ _ E)|].
    apply validateFence_spec in E. pose proof (fo_epoch _ _ E). rewrite (al_epoch _ Hr) in *. lia. }
  assert (Hv : validateCommitLocked m' c = Some (Fails ErrInvalidCommit)).
  { destruct (validateCommitLocked m' c) eqn:E; [by rewrite (invalid_commit _ _ _ E)|].
    apply validateCommit_spec in E. pose proof (co_fence_epoch _ _ E). lia. }
  unfold ValidateFence, ValidateCommit, ResumeWrites, InstallCommit, validateResumeFenceLocked.
  split_and!; [done|done| |by rewrite Hv]. intros now. rewrite Hf. by destruct (negb _).
Qed.

(** ** Committed history *)

Definition extends_committed (m m' : StateMachine) : Prop :=
  s_Revision (m_committed m) <= s_Revision (m_committed m')
  /\ (s_Revision (m_committed m') = s_Revision (m_committed m) ->
      s_Desired (m_committed m') = s_Desired (m_committed m)).

#[export] Instance extends_committed_preorder : PreOrder extends_committed.
Proof.
  split; [intros m; split; [lia|done]|]. intros a b c [H1 H2] [H3 H4]. split; [lia|].
  intros E. rewrite H4, H2 by lia. done.
Qed.

Lemma extends_move m now op m' : coherent m -> typed_op op -> disciplined m op = true ->
  move m now op m' -> extends_committed m m'.
Proof.
  intros Hm Hty Hd Hmv. pose proof (ch_same _ Hm) as Hsame.
  destruct Hmv as [op|term leaderID Ht He|term leaderID Hid Ht He|reason|token Hr Hf|p Hp Hc|s ex Hs|c Hc];
    try by split; simpl; [lia|].
  - destruct (leadership_base m) as [base ledger] eqn:Eb.
    destruct (lead_state m now term leaderID _ _ Eb) as (Hcm & _ & _ & _ & _ & _ & _ & _ & _ & Hrv & Hds & _).
    unfold extends_committed. rewrite Hcm, Hrv, Hds. simpl in Hd.
    destruct (leadership_base_cases m) as [[E _]|[E Hor]]; rewrite E in Eb; injection Eb as <- <-; [split; [lia|done]|].
    assert (Eq : s_Revision (m_committed m) = s_Revision (m_state m)).
    { destruct Hor as [Ef|]; [|done]. rewrite Ef in Hd. simpl in Hd. lia. }
    rewrite Eq. split; [lia|]. intros _. by rewrite Hsame.
  - destruct (snapshot_loaded_state m now s) as (Hcm & _ & _ & _ & _ & Hrv & Hds & _).
    unfold extends_committed. rewrite Hcm, Hrv, Hds. split; [apply Hs|]. intros E.
    destruct (Z.eq_dec (s_Revision s) 0) as [E0|E0].
    + rewrite (so_empty _ _ _ Hs E0). symmetry. apply (ch_committed_empty m Hm). congruence.
    + apply (so_conflict _ _ _ Hs); [done|]. pose proof (ty_revision _ Hty) as Hu. unfold is_u64 in Hu. lia.
  - destruct (commit_agrees m c Hm Hty Hc) as (_ & _ & Hcm & _). unfold extends_committed, commit_installed.
    simpl. destruct (Z.leb_spec (s_Revision (m_committed m)) (s_Revision (c_State c))); simpl; [|split; [lia|done]].
    split; [done|]. intros E. by apply Hcm.
Qed.

Lemma extends_run ops : forall m, coherent m -> Forall (fun e => typed_op (snd e)) ops ->
  disciplined_run m ops = true -> extends_committed m (run m ops).
Proof.
  induction ops as [|[now op] ops IH]; intros m Hm Hty Hd; [reflexivity|].
  simpl in Hd. apply andb_true_iff in Hd as [Hd1 Hd2]. apply Forall_cons in Hty as [Ht1 Ht2]. simpl. etrans.
  - eapply extends_move; [done|exact Ht1|done|apply (step_move m now op)].
  - apply IH; [|done|done]. by eapply coherent_move; [..|apply step_move].
Qed.

Lemma disciplined_app ops : forall m ops', disciplined_run m (ops ++ ops') = true <->
  disciplined_run m ops = true /\ disciplined_run (run m ops) ops' = true.
Proof.
  induction ops as [|[now op] ops IH]; intros m ops'; simpl; [tauto|].
  rewrite !andb_true_iff, IH. tauto.
Qed.


(** In a disciplined run of a new machine every revision up to the
    committed one has exactly one nonce in the committed ledger, a nonce of the
    ledger cannot be proposed again, and the digest is that of the payload. *)
Theorem one_nonce_per_revision clusterID now m ops :
  NewStateMachine clusterID now = Ok m -> Forall (fun e => typed_op (snd e)) ops -> disciplined_run m ops = true ->
  let m' := run m ops in
  let c := Snapshot m' in
  (forall r, 1 <= r <= s_Revision c <-> exists n, s_NonceLedger c !! n = Some r)
  /\ (forall n n' r, s_NonceLedger c !! n = Some r -> s_NonceLedger c !! n' = Some r -> n = n')
  /\ (forall p t, has (s_NonceLedger c) (p_Nonce p) = true -> exists e, Propose m' t p = (m', Err e))
  /\ (s_Revision c <> 0 -> d_Digest (s_Desired c) = Digest (d_Payload (s_Desired c))).
Proof.
  intros Hnew Hty Hd m' c. assert (Hm : coherent m') by (apply coherent_run; [by eapply new_coherent|done|done]).
  pose proof (ch_committed_ledger _ Hm) as Hl. split_and!.
  - intros r. split; [by apply ledger_ok_surj|]. intros [n Hn]. by destruct (lo_entry _ _ Hl _ _ Hn).
  - apply Hl.
  - intros p t [r Hn]%has_true. unfold Propose. destruct (propose_fields p); [by eauto|].
    unfold propose_cas. repeat (destruct (negb _); [by eauto|]). destruct (s_WriteFrozen _); [by eauto|].
    repeat (destruct (negb _); [by eauto|]).
    assert (Hh : has (m_nonces m') (p_Nonce p) = true).
    { pose proof (ch_committed_sub _ Hm) as Hs. rewrite map_subseteq_spec in Hs. apply has_true. eauto. }
    rewrite Hh. eauto.
  - apply (ch_digest _ Hm).
Qed.

(** ** Proposal, commit, fence *)

Lemma commit_nonce m c : coherent m -> typed_state (c_State c) -> commit_ok m c ->
  s_NonceLedger (c_State c) !! f_Nonce (c_Fence c) = Some (s_Revision (c_State c)).
Proof.
  intros Hm Hty Hc. destruct (commit_agrees m c Hm Hty Hc) as (Ho & Hsub & _).
  pose proof (co_nonzero _ _ Hc). pose proof (ty_revision _ Hty) as Hu. unfold is_u64 in Hu.
  destruct (ledger_ok_surj _ _ (s_Revision (c_State c)) Ho) as [n Hn]; [lia|].
  rewrite map_subseteq_spec in Hsub.
  replace (f_Nonce (c_Fence c)) with n; [done|].
  eapply (lo_inj _ _ (ch_ledger _ Hm)); [by apply Hsub|apply Hc].
Qed.

(** A commit that is not older than the committed state becomes current. *)
Lemma installed_current m c :
  coherent m -> typed_state (c_State c) -> commit_ok m c ->
  s_Revision (m_committed m) <= s_Revision (c_State c) ->
  carries (m_committed (commit_installed m c)) c /\ fence_ok (commit_installed m c) (c_Fence c)
  /\ ClaimCurrentCommit (commit_installed m c) c = None.
Proof.
  intros Hm Hty Hc Hle. pose proof (commit_nonce m c Hm Hty Hc) as Hn. pose proof (ch_cluster _ Hm) as Hid.
  set (m2 := commit_installed m c).
  assert (Hcm : exists b r, m_committed m2 = set_freeze (c_State c) b r).
  { unfold m2, commit_installed. simpl.
    replace (s_Revision (m_committed m) <=? s_Revision (c_State c)) with true by lia. eauto. }
  assert (Hcf : m_committedFences m2 !! s_Revision (c_State c) = Some (d_Digest (s_Desired (c_State c)))).
  { unfold m2, commit_installed. simpl.
    replace (s_Revision (m_committed m) <=? s_Revision (c_State c)) with true by lia. by rewrite lookup_insert_eq. }
  assert (Hst : s_ClusterID (m_state m2) = s_ClusterID (m_state m) /\ s_LeaderID (m_state m2) = s_LeaderID (m_state m)
                /\ s_Term (m_state m2) = s_Term (m_state m) /\ s_Epoch (m_state m2) = s_Epoch (m_state m)
                /\ s_Revision (c_State c) <= s_Revision (m_state m2)).
  { destruct Hc. unfold m2, commit_installed. simpl. destruct (_ || _); simpl; split_and!; try congruence; lia. }
  destruct Hcm as (b & r & Hcm), Hst as (Hs1 & Hs2 & Hs3 & Hs4 & Hs5), Hc.
  assert (Hca : carries (m_committed m2) c).
  { rewrite Hcm. split; simpl; try congruence; [by unfold rev_at; rewrite Hn|apply ledger_within_refl]. }
  split; [done|]. split.
  - split; rewrite ?Hcm; simpl; try congruence; [lia|by rewrite co_fence_revision, co_fence_digest| |].
    + intros E. by rewrite E in co_id.
    + unfold rev_at. change (m_nonces m2) with (m_nonces m). rewrite co_nonce. simpl. congruence.
  - unfold ClaimCurrentCommit, validateCurrentCommitLocked.
    rewrite validateCommit_complete; [|by rewrite Hs1|].
    + rewrite (proj2 (carries_spec _ _) Hca), (ca_revision _ _ Hca), Z.eqb_refl, co_fence_revision, Hcf, co_fence_digest.
      by rewrite bool_decide_eq_true_2.
    + split; rewrite ?Hs1, ?Hs2, ?Hs3, ?Hs4; try done.
      change (m_proposals m2) with (m_proposals m).
      destruct (m_proposals m !! _); [done|]. split; [|done]. symmetry. apply (ca_revision _ _ Hca).
Qed.

(** A proposal that a coherent machine accepts leaves the committed state
    as it was and its token is refused; installing its commit succeeds, makes
    it the committed state and its token valid, and its nonce is spent. *)
Theorem proposal_commits m now p m1 c :
  coherent m -> s_Revision (m_state m) + 1 < two64 - 1 -> Propose m now p = (m1, Ok c) ->
  Snapshot m1 = Snapshot m /\ ValidateFence m1 (c_Fence c) = Some (Fails ErrStaleFence)
  /\ exists m2, InstallCommit m1 c = (m2, None)
     /\ s_Desired (Snapshot m2)
        = {| d_Version := p_Version p; d_Digest := Digest (p_Payload p); d_Payload := p_Payload p |}
     /\ s_Revision (Snapshot m2) = p_ExpectedRevision p + 1
     /\ ValidateFence m2 (c_Fence c) = None /\ ClaimCurrentCommit m2 c = None
     /\ forall t p', p_Nonce p' = p_Nonce p -> exists e, Propose m2 t p' = (m2, Err e).
Proof.
  intros Hm Hmax Hp. unfold Propose in Hp.
  destruct (propose_fields p) eqn:Ef; [done|]. destruct (propose_cas m p) eqn:Ec; [done|].
  injection Hp as <- <-. pose proof (proj1 (propose_spec m p) (conj Ef Ec)) as Ha.
  destruct (tentative_commit m now p Hm Hmax Ha) as (Hr & Hl & Hs & Hc).
  pose proof (tentative_coherent m now p Hm Hmax Ha) as Hm1.
  pose proof (ch_revision _ Hm) as Hrev.
  split; [done|]. split.
  { destruct (ValidateFence _ _) eqn:E; [by rewrite (stale_fence _ _ _ E)|].
    apply validateFence_spec in E. pose proof (fo_le _ _ E) as Hle.
    change (s_Revision (proposed_state m now p) <= s_Revision (m_committed m)) in Hle. lia. }
  pose proof (tentative_typed m now p Hm Hmax Ha) as Hty.
  destruct (installed_current (tentative m now p) (proposed_commit m now p) Hm1 Hty Hc) as (Hca & Hfo & Hcl).
  { change (s_Revision (m_committed m) <= s_Revision (proposed_state m now p)). lia. }
  exists (commit_installed (tentative m now p) (proposed_commit m now p)).
  split; [unfold InstallCommit; by rewrite (validateCommit_complete _ _ (ch_cluster _ Hm1) Hc)|].
  split_and!; [| |by apply validateFence_spec|done|].
  - unfold Snapshot. rewrite (ca_desired _ _ Hca). simpl. by rewrite (pa_digest _ _ Ha).
  - unfold Snapshot. rewrite (ca_revision _ _ Hca). simpl. unfold proposed_state in Hr. simpl in Hr.
    rewrite Hr, (pa_revision _ _ Ha). done.
  - intros t p' Hn. unfold Propose. destruct (propose_fields p') eqn:Ef'; [by eauto|].
    destruct (propose_cas _ p') eqn:Ec'; [by eauto|].
    pose proof (proj1 (propose_spec _ p') (conj Ef' Ec')) as Ha'. exfalso.
    pose proof (pa_nonce _ _ Ha') as Hnone. rewrite Hn in Hnone.
    change (<[p_Nonce p := u64 (s_Revision (m_state m) + 1)]> (m_nonces m) !! p_Nonce p = None) in Hnone.
    by rewrite lookup_insert_eq in Hnone.
Qed.

(** ** The freeze *)

(** A frozen machine refuses every proposal, and only two calls end the
    freeze: ResumeWrites with a valid token of the committed revision, and a
    change of leadership when nothing is committed yet or the freeze was the
    loss of leadership itself. *)
Theorem thaw_needs_authority m now op :
  aligned m -> s_WriteFrozen (Snapshot m) = true ->
  (forall p t, exists e, Propose m t p = (m, Err e))
  /\ (s_WriteFrozen (Snapshot (step m now op)) = true
      \/ (exists token, op = OpResume token /\ ValidateFence m token = None
          /\ f_Revision token = s_Revision (Snapshot m))
      \/ (exists term leaderID, op = OpLead term leaderID /\ s_Term (Snapshot m) < term
          /\ (s_Revision (Snapshot m) = 0 \/ s_FreezeReason (m_state m) = leadership_lost))).
Proof.
  intros Ha Hf. unfold Snapshot in *. rewrite (al_frozen _ Ha) in Hf. split.
  { intros p t. unfold Propose, propose_cas. rewrite Hf. destruct (propose_fields p); eauto. }
  pose proof (step_move m now op) as Hmv. remember (step m now op) as m' eqn:Em. clear Em.
  pose proof (al_frozen _ Ha) as Hfc. rewrite Hf in Hfc.
  destruct Hmv as [op|term leaderID Ht He|term leaderID Hid Ht He|reason|token Hr Hfo|p Hp Hc|s ex Hs|c Hc];
    try (left; first [exact Hfc|reflexivity]).
  - destruct (leadership_base m) as [base ledger] eqn:Eb.
    destruct (lead_state m now term leaderID _ _ Eb) as (Hcm & _ & _ & _ & _ & _ & _ & _ & _ & _ & _ & _ & Hfr).
    rewrite Hcm, Hfr, Hf. destruct (Z.eqb_spec (s_Revision (m_committed m)) 0); simpl.
    + right. right. exists term, leaderID. rewrite (al_term _ Ha). auto.
    + destruct (String.eqb_spec (s_FreezeReason (m_state m)) leadership_lost); simpl; [|by auto].
      right. right. exists term, leaderID. rewrite (al_term _ Ha). auto.
  - right. left. exists token. split_and!; [done|by apply validateFence_spec|done].
  - left. destruct (snapshot_loaded_state m now s) as (Hcm & _ & _ & _ & _ & _ & _ & _ & Hfr).
    rewrite Hcm, Hfr, Hf. done.
  - left. unfold commit_installed. simpl. rewrite Hf. by destruct (_ <=? _).
Qed.
