(* ===== verification/Coordinator.v ===== *)
(** * The coordinator of the control plane, with the checks it shares with the start

    First the pure parts of internal/controlplane/coordinator.go and startup.go:
    equality of states across the two stores, the protected initial state, the
    recovery of a commit that only consensus holds, and the fence of a start.
    Then the operations of the coordinator as computations. *)

From S2P Require Import Prelude GoText Sha256 ControlState JsonValid ControlFacts.

Open Scope list_scope.
Open Scope Z_scope.
Open Scope go_scope.

(** ** Comparisons at the precision of the durable store *)

Definition Microsecond : Duration := 1000.

(** [Truncate] rounds down to a multiple since the zero time. *)
Definition TruncateTime (t : Time) (d : Duration) : Time := t - t mod d.

Definition durableTimestampsEquivalent (a b : Time) : bool :=
  TruncateTime a Microsecond =? TruncateTime b Microsecond.

Definition statesEquivalent (a b : State) : bool :=
  return false when
    negb (String.eqb (s_ClusterID a) (s_ClusterID b)) || negb (String.eqb (s_LeaderID a) (s_LeaderID b))
    || negb (s_Term a =? s_Term b) || negb (s_Epoch a =? s_Epoch b) || negb (s_Revision a =? s_Revision b)
    || negb (same_desired (s_Desired a) (s_Desired b))
    || negb (Bool.eqb (s_WriteFrozen a) (s_WriteFrozen b))
    || negb (String.eqb (s_FreezeReason a) (s_FreezeReason b))
    || negb (durableTimestampsEquivalent (s_UpdatedAt a) (s_UpdatedAt b)) ;;
  return false when negb (Nat.eqb (size (s_NonceLedger a)) (size (s_NonceLedger b))) ;;
  ledger_within (s_NonceLedger a) (s_NonceLedger b).

Definition localStateCarriesCommit (state : State) (commit : Commit) : bool :=
  stateCarriesExactCommit state commit.

Definition replicatedStateCarriesCommit (state : State) (commit : Commit) : bool :=
  let f := c_Fence commit in
  statesEquivalent state (c_State commit) && String.eqb (f_ClusterID f) (s_ClusterID state)
  && String.eqb (f_LeaderID f) (s_LeaderID state) && (f_Epoch f =? s_Epoch state)
  && (f_Revision f =? s_Revision state) && String.eqb (f_Digest f) (d_Digest (s_Desired state))
  && (rev_at (s_NonceLedger state) (f_Nonce f) =? s_Revision state).

Definition commitMatchesCurrentGeneration (current : State) (commit : Commit) : bool :=
  let f := c_Fence commit in
  String.eqb (s_ClusterID current) (f_ClusterID f) && String.eqb (s_LeaderID current) (f_LeaderID f)
  && (s_Term current =? s_Term (c_State commit)) && (s_Epoch current =? f_Epoch f).

Definition isEmptyInitialState (s : State) : bool :=
  String.eqb (s_LeaderID s) "" && (s_Term s =? 0) && (s_Epoch s =? 0) && (s_Revision s =? 0)
  && s_WriteFrozen s && String.eqb (d_Payload (s_Desired s)) "" && String.eqb (d_Version (s_Desired s)) ""
  && String.eqb (d_Digest (s_Desired s)) "".

Definition startupStatesEquivalent (a b : State) : bool :=
  return String.eqb (s_ClusterID a) (s_ClusterID b) when isEmptyInitialState a && isEmptyInitialState b ;;
  statesEquivalent a b.

Definition startupPayloadEquivalent (a b : State) : bool :=
  String.eqb (s_ClusterID a) (s_ClusterID b) && (s_Revision a =? s_Revision b)
  && same_desired (s_Desired a) (s_Desired b) && sameNonceLedger (s_NonceLedger a) (s_NonceLedger b).

Definition startupLeadershipEquivalent (a b : State) : bool :=
  String.eqb (s_ClusterID a) (s_ClusterID b) && String.eqb (s_LeaderID a) (s_LeaderID b)
  && (s_Term a =? s_Term b) && (s_Epoch a =? s_Epoch b) && (s_Revision a =? s_Revision b).

(** ** Errors of the start *)

Definition ErrStartupContract : error := Foreign "invalid production control-plane startup contract".
Definition ErrStartupDurable : error := Foreign "production durable state startup failed".
Definition ErrStartupConsensus : error := Foreign "native-raft consensus startup failed".
Definition ErrStartupDiverged : error := Foreign "durable and consensus snapshots diverged".
Definition ErrStartupFencing : error := Foreign "production fencing could not be established".
Definition ErrStartupInitialState : error := Foreign "protected initial control-plane state is required".
Definition ErrStartupCheckpoint : error := Foreign "leadership checkpoint is required for metadata changes".

(** ** The protected initial state *)

Record InitialStateRequest := {
  ir_Version : string; ir_Payload : string; ir_Digest : string; ir_Nonce : string;
  ir_ID : string; ir_Actor : string; ir_Reason : string   (* Confirmation *)
}.

Definition request_digest (r : InitialStateRequest) : string := digest_or (ir_Digest r) (ir_Payload r).

Definition with_digest (r : InitialStateRequest) : InitialStateRequest :=
  {| ir_Version := ir_Version r; ir_Payload := ir_Payload r; ir_Digest := request_digest r;
     ir_Nonce := ir_Nonce r; ir_ID := ir_ID r; ir_Actor := ir_Actor r; ir_Reason := ir_Reason r |}.

Definition validConfirmationReason (value : string) : bool :=
  return false when String.eqb (TrimSpace value) "" || negb (ValidString value) ;;
  negb (existsb (fun r => IsControl r || IsFormat r) (runes value)).

Definition validateInitialStateRequest (r : InitialStateRequest) (clusterID : string) : option error :=
  return Some (Foreign "version, valid JSON payload and nonce are required") when
      negb (ValidIdentity (ir_Version r)) || String.eqb (ir_Payload r) "" || negb (json_valid (ir_Payload r))
      || negb (ValidIdentity (ir_Nonce r)) ;;
  return Some (Foreign "digest does not match payload") when
      negb (String.eqb (request_digest r) (Digest (ir_Payload r))) || negb (validDigest (request_digest r)) ;;
  return Some (Foreign "administrator confirmation id and actor are required") when
      negb (ValidIdentity (ir_ID r)) || negb (ValidIdentity (ir_Actor r))
      || (negb (String.eqb (ir_Reason r) "") && negb (validConfirmationReason (ir_Reason r))) ;;
  return Some (Foreign "cluster id is invalid") when negb (ValidIdentity clusterID) ;;
  None.

Definition startupPayloadEmpty (s : State) : bool :=
  (s_Revision s =? 0) && String.eqb (d_Version (s_Desired s)) "" && String.eqb (d_Digest (s_Desired s)) ""
  && String.eqb (d_Payload (s_Desired s)) "" && Nat.eqb (size (s_NonceLedger s)) 0.

Definition startupInitialStateMatches (s : State) (r : InitialStateRequest) : bool :=
  (s_Revision s =? 1) && negb (String.eqb (s_ClusterID s) "") && negb (String.eqb (s_LeaderID s) "")
  && negb (s_Term s =? 0) && negb (s_Epoch s =? 0) && negb (s_WriteFrozen s)
  && String.eqb (d_Version (s_Desired s)) (ir_Version r) && String.eqb (d_Digest (s_Desired s)) (request_digest r)
  && String.eqb (d_Payload (s_Desired s)) (ir_Payload r)
  && Nat.eqb (size (s_NonceLedger s)) 1 && (rev_at (s_NonceLedger s) (ir_Nonce r) =? 1).

Definition initialRequestMatchesCommit (r : InitialStateRequest) (c : Commit) : bool :=
  let s := c_State c in
  (s_Revision s =? 1) && String.eqb (d_Version (s_Desired s)) (ir_Version r)
  && String.eqb (d_Digest (s_Desired s)) (request_digest r) && String.eqb (d_Payload (s_Desired s)) (ir_Payload r)
  && String.eqb (f_Nonce (c_Fence c)) (ir_Nonce r) && (rev_at (s_NonceLedger s) (ir_Nonce r) =? 1).

Definition commit_of_state (s : State) (nonce : string) : Commit :=
  {| c_State := s;
     c_Fence := {| f_ClusterID := s_ClusterID s; f_LeaderID := s_LeaderID s; f_Epoch := s_Epoch s;
                   f_Revision := s_Revision s; f_Digest := d_Digest (s_Desired s); f_Nonce := nonce |} |}.

Definition startupCommitFromState (s : State) (nonce : string) : result error Commit :=
  return Err (Fails ErrInvalidCommit) when
      negb (ValidIdentity nonce) || negb (rev_at (s_NonceLedger s) nonce =? s_Revision s)
      || negb (s_Revision s =? 1) || s_WriteFrozen s ;;
  Ok (commit_of_state s nonce).

(** The state that the request asks for, under the given leadership. *)
Definition initial_state (clusterID : string) (leadership : State) (r : InitialStateRequest) (now : Time) : State :=
  {| s_ClusterID := clusterID; s_LeaderID := s_LeaderID leadership; s_Term := s_Term leadership;
     s_Epoch := s_Epoch leadership; s_Revision := 1;
     s_Desired := {| d_Version := ir_Version r; d_Digest := request_digest r; d_Payload := ir_Payload r |};
     s_WriteFrozen := false; s_FreezeReason := ""; s_UpdatedAt := now;
     s_NonceLedger := {[ ir_Nonce r := 1 ]} |}.

(** [newInitialCommitAt] *)
Definition NewInitialCommit (clusterID : string) (leadership : State) (r : InitialStateRequest) (now : Time)
  : result error Commit :=
  match validateInitialStateRequest r clusterID with
  | Some e => Err (Wraps ErrStartupInitialState e)
  | None =>
      return Err (Fails ErrInvalidCommit) when
          negb (String.eqb (s_ClusterID leadership) clusterID) || negb (s_Revision leadership =? 0)
          || String.eqb (s_LeaderID leadership) "" || (s_Term leadership =? 0) || (s_Epoch leadership =? 0)
          || negb (startupPayloadEmpty leadership) ;;
      return Err (Fails ErrInvalidCommit) when IsZero now ;;
      startupCommitFromState (initial_state clusterID leadership r now) (ir_Nonce r)
  end.

Definition startupCommitForLeadership (clusterID : string) (leadership : State) (r : InitialStateRequest) (now : Time)
  : result error Commit :=
  return Err (Fails ErrInvalidCommit) when s_WriteFrozen leadership ;;
  NewInitialCommit clusterID leadership r now.

(** ** Checkpoints of leadership *)

Definition validateLeadershipCheckpoint (previous next : State) : option error :=
  return Some ErrStartupCheckpoint when
      String.eqb (s_ClusterID previous) "" || negb (String.eqb (s_ClusterID next) (s_ClusterID previous))
      || negb (startupPayloadEquivalent previous next) ;;
  return Some ErrStartupCheckpoint when
      negb (s_Revision next =? s_Revision previous) || (s_Epoch next <? s_Epoch previous)
      || ((s_Epoch next =? s_Epoch previous) && (s_Term next <? s_Term previous)) ;;
  return Some ErrStartupCheckpoint when
      (s_Epoch next =? s_Epoch previous)
      && (negb (s_Term next =? s_Term previous) || negb (String.eqb (s_LeaderID next) (s_LeaderID previous))) ;;
  return Some ErrStartupCheckpoint when
      (s_Epoch previous <? s_Epoch next) && (s_Term next <=? s_Term previous) ;;
  return Some ErrStartupCheckpoint when
      String.eqb (s_LeaderID next) "" || (s_Term next =? 0) || (s_Epoch next =? 0) || s_WriteFrozen next ;;
  None.

(** ** Recovery of a commit that only consensus holds *)

(** The checks of [exactInitialConsensusCommit] on the commit it read. *)
Definition exact_initial (clusterID : string) (r : InitialStateRequest) (current : State) (commit : Commit) : option error :=
  let cs := c_State commit in
  let invalid := Some (Fails ErrInvalidCommit) in
  return invalid when
      negb (String.eqb (s_ClusterID cs) clusterID) || negb (startupInitialStateMatches cs r)
      || negb (initialRequestMatchesCommit r commit) || negb (String.eqb (s_FreezeReason cs) "")
      || IsZero (s_UpdatedAt cs) ;;
  return invalid when
      match startupCommitFromState cs (ir_Nonce r) with
      | Ok reconstructed => negb (commitsEquivalent reconstructed commit)
      | Err _ => true
      end ;;
  return invalid when
      negb (startupPayloadEquivalent cs current) || s_WriteFrozen current
      || negb (String.eqb (s_FreezeReason current) "") || IsZero (s_UpdatedAt current) ;;
  if startupLeadershipEquivalent cs current
  then return invalid when negb (statesEquivalent cs current) ;; None
  else
    match validateLeadershipCheckpoint cs current with
    | Some e => Some e
    | None => return invalid when Before (s_UpdatedAt current) (s_UpdatedAt cs) ;; None
    end.

Definition nonceLedgerExtends (current next : gmap string Z) (nonce : string) (revision : Z) : bool :=
  return false when negb (Nat.eqb (size next) (size current + 1)) || negb (rev_at next nonce =? revision) ;;
  return false when has current nonce ;;
  ledger_within current next.

Definition validateConsensusAheadRecovery (durable consensus : State) (commit : Commit) : option error :=
  let cs := c_State commit in
  let f := c_Fence commit in
  let invalid := Some (Fails ErrInvalidCommit) in
  return invalid when
      (s_Revision durable =? 0) || negb (s_Revision consensus =? u64 (s_Revision durable + 1))
      || negb (s_Revision cs =? s_Revision consensus) || negb (startupPayloadEquivalent cs consensus) ;;
  return invalid when
      negb (ValidIdentity (s_ClusterID cs)) || negb (ValidIdentity (s_LeaderID cs))
      || negb (ValidIdentity (d_Version (s_Desired cs))) || negb (ValidIdentity (f_Nonce f))
      || negb (String.eqb (s_ClusterID cs) (s_ClusterID durable)) || s_WriteFrozen cs
      || negb (String.eqb (s_FreezeReason cs) "") || IsZero (s_UpdatedAt cs)
      || String.eqb (d_Payload (s_Desired cs)) ""
      || negb (String.eqb (d_Digest (s_Desired cs)) (Digest (d_Payload (s_Desired cs))))
      || negb (String.eqb (f_ClusterID f) (s_ClusterID cs)) || negb (String.eqb (f_LeaderID f) (s_LeaderID cs))
      || negb (f_Epoch f =? s_Epoch cs) || negb (f_Revision f =? s_Revision cs)
      || negb (String.eqb (f_Digest f) (d_Digest (s_Desired cs)))
      || negb (nonceLedgerExtends (s_NonceLedger durable) (s_NonceLedger cs) (f_Nonce f) (s_Revision cs)) ;;
  return Some (Fails ErrStaleEpoch) when (s_Term cs <? s_Term durable) || (s_Epoch cs <? s_Epoch durable) ;;
  return invalid when
      Before (s_UpdatedAt cs) (s_UpdatedAt durable) || Before (s_UpdatedAt consensus) (s_UpdatedAt cs) ;;
  return invalid when
      (s_Epoch cs =? s_Epoch durable)
      && (negb (s_Term cs =? s_Term durable) || negb (String.eqb (s_LeaderID cs) (s_LeaderID durable))) ;;
  return Some (Fails ErrStaleEpoch) when
      (s_Epoch durable <? s_Epoch cs) && (s_Term cs <=? s_Term durable) ;;
  return invalid when startupLeadershipEquivalent cs consensus && negb (statesEquivalent cs consensus) ;;
  None.

(** ** The fence and the baseline of a start *)

Definition validateStartupFence (s : State) (fence : FenceToken) : option error :=
  return Some (Foreign "committed desired state is required before production readiness") when s_Revision s =? 0 ;;
  return Some (Foreign "snapshot is frozen or has no established leader epoch") when
      s_WriteFrozen s || (s_Term s =? 0) || (s_Epoch s =? 0) || String.eqb (s_LeaderID s) "" ;;
  return Some (Foreign "token cluster, leader, epoch, revision, digest or nonce does not match snapshot") when
      negb (String.eqb (f_ClusterID fence) (s_ClusterID s)) || negb (String.eqb (f_LeaderID fence) (s_LeaderID s))
      || negb (f_Epoch fence =? s_Epoch s) || negb (f_Revision fence =? s_Revision s)
      || negb (String.eqb (f_Digest fence) (d_Digest (s_Desired s))) || String.eqb (f_Nonce fence) "" ;;
  return Some (Foreign "token nonce is not bound to the current snapshot revision") when
      negb (bool_decide (s_NonceLedger s !! f_Nonce fence = Some (s_Revision s))) ;;
  None.

Definition startupSnapshotRegresses (previous next : State) : bool :=
  return false when String.eqb (s_ClusterID previous) "" || (s_Revision previous =? 0) ;;
  return true when (s_Revision next <? s_Revision previous) || (s_Epoch next <? s_Epoch previous) ;;
  return true when (s_Epoch next =? s_Epoch previous) && (s_Term next <? s_Term previous) ;;
  return true when (s_Epoch next =? s_Epoch previous)
      && (negb (s_Term next =? s_Term previous) || negb (String.eqb (s_LeaderID next) (s_LeaderID previous))) ;;
  return true when (s_Epoch previous <? s_Epoch next) && (s_Term next <=? s_Term previous) ;;
  return negb (same_desired (s_Desired next) (s_Desired previous))
         || negb (sameNonceLedger (s_NonceLedger next) (s_NonceLedger previous))
    when (s_Revision next =? s_Revision previous) && (0 <? s_Revision next) ;;
  false.

Definition emptyStartupState (clusterID : string) : State :=
  {| s_ClusterID := clusterID; s_LeaderID := ""; s_Term := 0; s_Epoch := 0; s_Revision := 0;
     s_Desired := zero_desired; s_WriteFrozen := true; s_FreezeReason := "leader not established";
     s_UpdatedAt := zero_time; s_NonceLedger := ∅ |}.

(** ** The control-plane coordinator (internal/controlplane/coordinator.go)

    One commit at a time, consensus before the durable store, and a stage
    ledger for retries. The stores, the context and the clock are an
    environment that answers a call from the history of all calls so far, so
    that it may fail, recover or contradict itself; the state machine is shared
    with the consensus runtime, and before every access of the coordinator the
    environment may perform any operations on it. *)

(** ** The environment *)

(** The calls that only a start makes. *)
Inductive StartupCall :=
| PreparedDurable (r : option error)
| HealthyDurable (r : option error)
| PreparedConsensus (r : option error)
| HealthyConsensus (r : option error)
| AskedCommit (r : result error Commit)
| Authorized (request : InitialStateRequest) (r : option error)
| Checkpointed (durable consensus : State) (r : result error State)
| Established (s : State) (r : result error FenceToken).

Inductive Event :=
| EvCtx (r : option error)
| EvPropose (c : Commit) (r : option error)
| EvCurrent (r : result error State)
| EvAppend (c : Commit) (r : option error)
| EvLoad (r : result error State)
| EvCheckpoint (s : State) (r : option error)
| EvStartup (c : StartupCall)
| EvRead (* a call of the state machine that does not change it *)
| EvMachine (now : Time) (op : Op)
| EvTxn (now : Time) (p : Proposal) (r : result error Commit).

(** Histories are newest first. *)
Record Env := {
  e_ctx : list Event -> option string;                   (* ctx.Err() *)
  e_now : list Event -> Time;                            (* the clock of the machine *)
  e_ops : list Event -> list (Time * Op);                (* what others did to the machine *)
  e_propose : list Event -> Commit -> option error;      (* ConsensusStore.Propose *)
  e_current : list Event -> string -> result error State; (* ConsensusStore.Current *)
  e_append : list Event -> Commit -> option error;       (* DurableStore.AppendCommit *)
  e_load : list Event -> string -> result error State;   (* DurableStore.LoadState *)
  e_checkpoint : option (list Event -> State -> option error) (* DurableLeadershipCheckpointStore *)
}.

(** ** The coordinator and its calls *)

Definition commitKey : Type := string * Z * Z * string.

Definition key_of (commit : Commit) : commitKey :=
  (f_ClusterID (c_Fence commit), f_Epoch (c_Fence commit), f_Revision (c_Fence commit), f_Nonce (c_Fence commit)).

Record Coordinator := {
  c_machine : StateMachine;
  c_tried : gmap commitKey Commit;   (* consensusTried *)
  c_done : gmap commitKey Commit;    (* consensusDone *)
  c_durable : gmap commitKey Commit  (* durableDone *)
}.

(** [NewCoordinator] with its dependencies present. *)
Definition NewCoordinator (m : StateMachine) : Coordinator :=
  {| c_machine := m; c_tried := ∅; c_done := ∅; c_durable := ∅ |}.

Record World := { w_c : Coordinator; w_hist : list Event }.

Definition with_machine (c : Coordinator) (m : StateMachine) : Coordinator :=
  {| c_machine := m; c_tried := c_tried c; c_done := c_done c; c_durable := c_durable c |}.

(** A computation of the coordinator. *)
Definition M (A : Type) : Type := World -> A * World.

Definition ret {A} (a : A) : M A := fun w => (a, w).
Definition bind {A B} (x : M A) (k : A -> M B) : M B := fun w => let '(a, w') := x w in k a w'.

Declare Scope coord_scope.
Notation "x <- a ;; k" := (bind a (fun x => k)) (at level 20, a at level 99, k at level 200) : coord_scope.
Notation "'do' a ;; k" := (bind a (fun _ => k)) (at level 20, a at level 99, k at level 200) : coord_scope.
Notation "'unless' b 'return' r ;; k" := (if (b : bool) then k else ret r)
  (at level 20, b at level 99, r at level 99, k at level 200) : coord_scope.
Open Scope coord_scope.

Section Coordinator.
Context (env : Env).

(** An external call: the environment answers and the call is recorded. *)
Definition call {A} (answer : list Event -> A) (ev : A -> Event) : M A :=
  fun w => let r := answer (w_hist w) in (r, {| w_c := w_c w; w_hist := ev r :: w_hist w |}).

Definition ctx_Err : M (option error) := call (fun h => Foreign <$> e_ctx env h) EvCtx.
Definition consensus_Propose (c : Commit) : M (option error) := call (fun h => e_propose env h c) (EvPropose c).
Definition consensus_Current (id : string) : M (result error State) := call (fun h => e_current env h id) EvCurrent.
Definition durable_AppendCommit (c : Commit) : M (option error) := call (fun h => e_append env h c) (EvAppend c).
Definition durable_LoadState (id : string) : M (result error State) := call (fun h => e_load env h id) EvLoad.

(** A call of the state machine, after what others did to it. *)
Definition on_machine {A} (f : StateMachine -> Time -> StateMachine * A) (ev : Time -> A -> Event) : M A :=
  fun w =>
    let now := e_now env (w_hist w) in
    let '(m, a) := f (run (c_machine (w_c w)) (e_ops env (w_hist w))) now in
    (a, {| w_c := with_machine (w_c w) m; w_hist := ev now a :: w_hist w |}).

Definition machine_Snapshot : M State := on_machine (fun m _ => (m, Snapshot m)) (fun _ _ => EvRead).
Definition machine_FreezeWrites (reason : string) : M unit :=
  on_machine (fun m now => (FreezeWrites m now reason, tt)) (fun now _ => EvMachine now (OpFreeze reason)).
Definition machine_ValidateCommit (c : Commit) : M (option error) :=
  on_machine (fun m _ => (m, ValidateCommit m c)) (fun _ _ => EvRead).
Definition machine_ValidateFence (t : FenceToken) : M (option error) :=
  on_machine (fun m _ => (m, ValidateFence m t)) (fun _ _ => EvRead).
Definition machine_InstallCommit (c : Commit) : M (option error) :=
  on_machine (fun m _ => InstallCommit m c) (fun now _ => EvMachine now (OpInstall c)).
Definition machine_Propose (p : Proposal) : M (result error Commit) :=
  on_machine (fun m now => Propose m now p) (fun now r => EvTxn now p r).
Definition machine_LoadSnapshot (s : State) : M (option error) :=
  on_machine (fun m now => LoadSnapshot m now s) (fun now _ => EvMachine now (OpLoad s None)).
Definition machine_LoadSnapshotIfCurrent (expected s : State) : M (option error) :=
  on_machine (fun m now => LoadSnapshotIfCurrent m now expected s) (fun now _ => EvMachine now (OpLoad s (Some expected))).
Definition machine_ResumeWrites (t : FenceToken) : M (option error) :=
  on_machine (fun m now => ResumeWrites m now t) (fun now _ => EvMachine now (OpResume t)).

(** The stage ledgers. *)
Definition get {A} (f : Coordinator -> A) : M A := fun w => (f (w_c w), w).
Definition update (f : Coordinator -> Coordinator) : M unit :=
  fun w => (tt, {| w_c := f (w_c w); w_hist := w_hist w |}).

Definition mark_tried (k : commitKey) (c : Commit) : M unit :=
  update (fun co => {| c_machine := c_machine co; c_tried := <[k := c]> (c_tried co);
                       c_done := c_done co; c_durable := c_durable co |}).
(** [consensusDone[key] = commit; delete(consensusTried, key)] *)
Definition mark_done (k : commitKey) (c : Commit) : M unit :=
  update (fun co => {| c_machine := c_machine co; c_tried := delete k (c_tried co);
                       c_done := <[k := c]> (c_done co); c_durable := c_durable co |}).
Definition mark_durable (k : commitKey) (c : Commit) : M unit :=
  update (fun co => {| c_machine := c_machine co; c_tried := c_tried co;
                       c_done := c_done co; c_durable := <[k := c]> (c_durable co) |}).
Definition reset_stages : M unit :=
  update (fun co => {| c_machine := c_machine co; c_tried := ∅; c_done := ∅; c_durable := ∅ |}).

(** Freeze the machine and return. *)
Definition fail {A} (reason : string) (r : A) : M A := do machine_FreezeWrites reason ;; ret r.

(** ** Apply *)

Definition installCommitIfNeeded (commit : Commit) : M (option error) :=
  s <- machine_Snapshot ;;
  if localStateCarriesCommit s commit then ret None else machine_InstallCommit commit.

(** A commit recorded for a stage under the key of this one. *)
Definition check_stage (recorded commit : Commit) (conflict : string) : M (option error) :=
  s <- machine_Snapshot ;;
  unless commitMatchesCurrentGeneration s commit return Some (Fails ErrStaleEpoch) ;;
  if commitsEquivalent recorded commit then ret None
  else fail conflict (Some (Fails ErrInvalidCommit)).

(** The commit is what the stage ledger or the machine knows. *)
Definition known_commit (commit : Commit) (consensusDone consensusTried : option Commit) : M (option error) :=
  match consensusDone, consensusTried with
  | Some c, _ => check_stage c commit "consensus completion key conflicts with commit"
  | None, Some c => check_stage c commit "consensus attempt key conflicts with commit"
  | None, None => machine_ValidateCommit commit
  end.

Definition install_and_finish (key : commitKey) (commit : Commit) : M (option error) :=
  e <- installCommitIfNeeded commit ;;
  match e with
  | Some e => fail "commit installation failed" (Some e)
  | None => do mark_durable key commit ;; ret None
  end.

(** The durable store already holds the revision of the commit. *)
Definition finish_durable (key : commitKey) (commit : Commit) (consensusDone : bool) (current : State) : M (option error) :=
  if negb (statesEquivalent current (c_State commit))
  then fail "durable baseline conflicts with commit" (Some (Fails ErrInvalidCommit))
  else if consensusDone then install_and_finish key commit
  else
    r <- consensus_Current (f_ClusterID (c_Fence commit)) ;;
    match r with
    | Err e => fail "consensus completion verification failed" (Some (Persistence "verify consensus completion" e))
    | Ok s =>
        if negb (replicatedStateCarriesCommit s commit)
        then fail "durable commit is not present in consensus" (Some (Fails ErrInvalidCommit))
        else install_and_finish key commit
    end.

(** Consensus holds the commit: append it durably and install it. *)
Definition append_and_finish (key : commitKey) (commit : Commit) : M (option error) :=
  e <- ctx_Err ;;
  match e with
  | Some e => fail "coordinator context canceled before durable store" (Some e)
  | None =>
      e <- durable_AppendCommit commit ;;
      match e with
      | Some e => fail "durable persistence failed" (Some (Persistence "durable store" e))
      | None => install_and_finish key commit
      end
  end.

Definition propose_and_finish (key : commitKey) (commit : Commit) (proposalOwned : bool) : M (option error) :=
  e <- ctx_Err ;;
  match e with
  | Some e => if proposalOwned then fail "coordinator context canceled before consensus" (Some e) else ret (Some e)
  | None =>
      do mark_tried key commit ;;
      e <- consensus_Propose commit ;;
      match e with
      | Some e => fail "consensus persistence failed" (Some (Persistence "consensus" e))
      | None => do mark_done key commit ;; append_and_finish key commit
      end
  end.

(** The durable baseline: a store without a state is at revision zero. *)
Definition baseline (clusterID : string) (r : result error State) : result error State :=
  match r with
  | Err e => if Is e ErrStateNotFound
             then Ok {| s_ClusterID := clusterID; s_LeaderID := ""; s_Term := 0; s_Epoch := 0; s_Revision := 0;
                        s_Desired := zero_desired; s_WriteFrozen := true; s_FreezeReason := "";
                        s_UpdatedAt := zero_time; s_NonceLedger := ∅ |}
             else Err e
  | Ok s => Ok s
  end.

Definition apply_stages (key : commitKey) (commit : Commit) (consensusDone proposalOwned : bool) : M (option error) :=
  r <- durable_LoadState (f_ClusterID (c_Fence commit)) ;;
  let f := c_Fence commit in
  match baseline (f_ClusterID f) r with
  | Err e => fail "durable baseline load failed" (Some (Persistence "load durable baseline" e))
  | Ok current =>
      if f_Epoch f <? s_Epoch current
      then fail "durable baseline has a newer epoch" (Some (Fails ErrStaleEpoch))
      else if (s_Epoch current =? f_Epoch f) && (f_Revision f <? s_Revision current)
      then fail "durable baseline is newer than commit" (Some (Fails ErrStaleRevision))
      else if (s_Epoch current =? f_Epoch f) && (s_Revision current =? f_Revision f) && negb (s_Revision current =? 0)
      then finish_durable key commit consensusDone current
      else if consensusDone then append_and_finish key commit
      else propose_and_finish key commit proposalOwned
  end.

Definition applyLocked (commit : Commit) (proposalOwned : bool) : M (option error) :=
  e <- ctx_Err ;;
  match e with
  | Some e => ret (Some e)
  | None =>
      let key := key_of commit in
      completed <- get (fun c => c_durable c !! key) ;;
      match completed with
      | Some completed => check_stage completed commit "durable completion key conflicts with commit"
      | None =>
          done <- get (fun c => c_done c !! key) ;;
          tried <- get (fun c => c_tried c !! key) ;;
          e <- known_commit commit done tried ;;
          match e with
          | Some e => ret (Some e)
          | None => apply_stages key commit (match done with Some _ => true | None => false end) proposalOwned
          end
      end
  end.

Definition Apply (commit : Commit) : M (option error) :=
  e <- ctx_Err ;;
  match e with
  | Some e => ret (Some e)
  | None => applyLocked commit false
  end.

(** The commit is returned with the error when the proposal succeeded. *)
Definition ProposeAndApply (p : Proposal) : M (option Commit * option error) :=
  e <- ctx_Err ;;
  match e with
  | Some e => ret (None, Some e)
  | None =>
      e <- ctx_Err ;;
      match e with
      | Some e => ret (None, Some e)
      | None =>
          r <- machine_Propose p ;;
          match r with
          | Err e => ret (None, Some e)
          | Ok commit =>
              e <- ctx_Err ;;
              match e with
              | Some e => fail "coordinator context canceled after proposal" (Some commit, Some e)
              | None => e <- applyLocked commit true ;; ret (Some commit, e)
              end
          end
      end
  end.

(** ** Restart and resumption *)

Definition Coordinator_LoadSnapshot : M (option error) :=
  e <- ctx_Err ;;
  match e with
  | Some e => fail "coordinator context canceled before snapshot load" (Some e)
  | None =>
      s <- machine_Snapshot ;;
      let clusterID := s_ClusterID s in
      r <- consensus_Current clusterID ;;
      match r with
      | Err e => fail "consensus snapshot load failed" (Some (Persistence "load consensus snapshot" e))
      | Ok consensusState =>
          e <- ctx_Err ;;
          match e with
          | Some e => fail "coordinator context canceled after consensus snapshot" (Some e)
          | None =>
              r <- durable_LoadState clusterID ;;
              match r with
              | Err e =>
                  if Is e ErrStateNotFound && isEmptyInitialState consensusState then ret None
                  else fail "durable snapshot load failed" (Some (Persistence "load snapshot" e))
              | Ok state =>
                  e <- ctx_Err ;;
                  match e with
                  | Some e => fail "coordinator context canceled after durable snapshot" (Some e)
                  | None =>
                      if negb (statesEquivalent consensusState state)
                      then fail "consensus and durable snapshots diverged" (Some (Fails ErrInvalidCommit))
                      else
                        e <- machine_LoadSnapshot state ;;
                        match e with
                        | Some e => fail "snapshot installation failed" (Some e)
                        | None => do reset_stages ;; ret None
                        end
                  end
              end
          end
      end
  end.

(** The comparison of the two snapshots with the token. *)
Definition resume_agrees (consensusState durableState : State) (term : Z) (token : FenceToken) : bool :=
  statesEquivalent consensusState durableState && String.eqb (s_ClusterID durableState) (f_ClusterID token)
  && String.eqb (s_LeaderID durableState) (f_LeaderID token) && negb (s_Term durableState =? 0)
  && (s_Term durableState =? term) && (s_Epoch durableState =? f_Epoch token)
  && (s_Revision durableState =? f_Revision token)
  && String.eqb (d_Digest (s_Desired durableState)) (f_Digest token)
  && (rev_at (s_NonceLedger durableState) (f_Nonce token) =? f_Revision token).

Definition Coordinator_ResumeWrites (token : FenceToken) : M (option error) :=
  e <- ctx_Err ;;
  match e with
  | Some e => fail "coordinator context canceled before resume" (Some e)
  | None =>
      e <- machine_ValidateFence token ;;
      match e with
      | Some e => fail "resume fencing token is stale" (Some e)
      | None =>
          s <- machine_Snapshot ;;
          let clusterID := s_ClusterID s in
          r <- consensus_Current clusterID ;;
          match r with
          | Err e => fail "consensus resume check failed" (Some (Persistence "resume consensus" e))
          | Ok consensusState =>
              r <- durable_LoadState clusterID ;;
              match r with
              | Err e => fail "durable resume check failed" (Some (Persistence "resume durable" e))
              | Ok durableState =>
                  s <- machine_Snapshot ;;
                  if negb (resume_agrees consensusState durableState (s_Term s) token)
                  then fail "resume snapshots or fencing token diverged" (Some (Fails ErrInvalidCommit))
                  else
                    e <- machine_ResumeWrites token ;;
                    match e with
                    | Some e => fail "resume authority rejected" (Some e)
                    | None => ret None
                    end
              end
          end
      end
  end.

(** ** The first state, and checkpoints of leadership *)

(** [time.Now]; the state machine is created with the same clock. *)
Definition wall_clock : M Time := fun w => (e_now env (w_hist w), w).

Definition initialRetryCommit (key : commitKey) (co : Coordinator) : option Commit :=
  match c_durable co !! key with
  | Some commit => Some commit
  | None => match c_done co !! key with
            | Some commit => Some commit
            | None => c_tried co !! key
            end
  end.

(** Consensus holds the initial commit: append it durably and install it. *)
Definition append_initial (current : State) (key : commitKey) (commit : Commit) : M (option error) :=
  e <- ctx_Err ;;
  match e with
  | Some e => fail "coordinator context canceled before initial durable store" (Some e)
  | None =>
      e <- durable_AppendCommit commit ;;
      match e with
      | Some e => fail "initial desired state durable persistence failed" (Some (Persistence "initial durable store" e))
      | None =>
          s <- machine_Snapshot ;;
          e <- (if localStateCarriesCommit s commit then ret None
                else machine_LoadSnapshotIfCurrent current (c_State commit)) ;;
          match e with
          | Some e => fail "initial state installation failed" (Some e)
          | None => do mark_durable key commit ;; ret None
          end
      end
  end.

Definition propose_initial (current : State) (key : commitKey) (commit : Commit) : M (option error) :=
  do mark_tried key commit ;;
  e <- consensus_Propose commit ;;
  match e with
  | Some e => fail "initial desired state consensus persistence failed" (Some (Persistence "initial consensus" e))
  | None => do mark_done key commit ;; append_initial current key commit
  end.

Definition applyInitialLocked (current : State) (key : commitKey) (commit : Commit) : M (option error) :=
  completed <- get (fun c => c_durable c !! key) ;;
  match completed with
  | Some completed =>
      if commitsEquivalent completed commit then ret None
      else fail "initial durable completion conflicts with commit" (Some (Fails ErrInvalidCommit))
  | None =>
      done <- get (fun c => c_done c !! key) ;;
      match done with
      | Some c =>
          if negb (commitsEquivalent c commit)
          then fail "initial consensus completion conflicts with commit" (Some (Fails ErrInvalidCommit))
          else e <- ctx_Err ;;
               match e with Some e => ret (Some e) | None => append_initial current key commit end
      | None =>
          e <- ctx_Err ;;
          match e with Some e => ret (Some e) | None => propose_initial current key commit end
      end
  end.

(** The commit is returned with the error once it exists. *)
Definition Initialize (request : InitialStateRequest) : M (option Commit * option error) :=
  e <- ctx_Err ;;
  match e with
  | Some e => ret (None, Some e)
  | None =>
      e <- ctx_Err ;;
      match e with
      | Some e => ret (None, Some e)
      | None =>
          current <- machine_Snapshot ;;
          match validateInitialStateRequest request (s_ClusterID current) with
          | Some e => fail "protected initial state is invalid" (None, Some (Wraps ErrStartupInitialState e))
          | None =>
              let key : commitKey := (s_ClusterID current, s_Epoch current, 1, ir_Nonce request) in
              retry <- get (initialRetryCommit key) ;;
              match retry with
              | Some commit =>
                  if negb (commitMatchesCurrentGeneration current commit) then ret (None, Some (Fails ErrStaleEpoch))
                  else if negb (initialRequestMatchesCommit request commit)
                  then fail "initial retry conflicts with exact commit" (None, Some (Fails ErrInvalidCommit))
                  else e <- applyInitialLocked current key commit ;; ret (Some commit, e)
              | None =>
                  if negb (s_Revision current =? 0) || String.eqb (s_LeaderID current) "" || (s_Term current =? 0)
                     || (s_Epoch current =? 0)
                  then fail "initial state requires established leader" (None, Some ErrStartupInitialState)
                  else
                    now <- wall_clock ;;
                    match NewInitialCommit (s_ClusterID current) current request now with
                    | Err e => fail "initial desired state commit construction failed" (None, Some e)
                    | Ok commit => e <- applyInitialLocked current key commit ;; ret (Some commit, e)
                    end
              end
          end
      end
  end.

Definition durable_CheckpointLeadership (f : list Event -> State -> option error) (s : State) : M (option error) :=
  call (fun h => f h s) (EvCheckpoint s).

Definition Coordinator_CheckpointLeadership (durable consensus : State) : M (result error State) :=
  if negb (startupPayloadEquivalent durable consensus) then ret (Err ErrStartupCheckpoint)
  else
    match validateLeadershipCheckpoint durable consensus, e_checkpoint env with
    | Some e, _ => ret (Err e)
    | None, None => ret (Err ErrStartupCheckpoint)
    | None, Some store =>
        e <- durable_CheckpointLeadership store consensus ;;
        match e with
        | Some e => ret (Err (Persistence "leadership checkpoint" e))
        | None =>
            r <- durable_LoadState (s_ClusterID durable) ;;
            match r with
            | Err e => ret (Err (Persistence "leadership checkpoint verify" e))
            | Ok updated => if startupStatesEquivalent updated consensus then ret (Ok updated)
                            else ret (Err ErrStartupDiverged)
            end
        end
    end.

End Coordinator.
