(* ===== verification/CoordinatorSafety.v ===== *)
(** * Safety of the coordinator

    A program logic for the coordinator's computations, and what every
    history of calls satisfies whatever the stores answer and whatever others
    do to the state machine. *)

From S2P Require Import Prelude GoText Sha256 ControlState ControlFacts ControlSafety Coordinator.

Open Scope list_scope.
Open Scope Z_scope.

(** ** Triples *)

Definition triple {A} (P : World -> Prop) (x : M A) (Q : A -> World -> Prop) : Prop :=
  forall w, P w -> Q (fst (x w)) (snd (x w)).

Lemma t_ret {A} (a : A) (P : World -> Prop) (Q : A -> World -> Prop) :
  (forall w, P w -> Q a w) -> triple P (ret a) Q.
Proof. intros H w. apply H. Qed.

Lemma t_bind {A B} (P : World -> Prop) (x : M A) (k : A -> M B) (R : A -> World -> Prop) Q :
  triple P x R -> (forall a, triple (R a) (k a) Q) -> triple P (bind x k) Q.
Proof.
  intros Hx Hk w Hw. specialize (Hx w Hw). unfold bind. destruct (x w) as [a w']. by apply Hk.
Qed.

Lemma t_conseq {A} (P P' : World -> Prop) (x : M A) (Q Q' : A -> World -> Prop) :
  triple P' x Q' -> (forall w, P w -> P' w) -> (forall a w, Q' a w -> Q a w) -> triple P x Q.
Proof. intros H HP HQ w Hw. apply HQ, H, HP, Hw. Qed.

Lemma t_pre {A} (P P' : World -> Prop) (x : M A) Q :
  triple P' x Q -> (forall w, P w -> P' w) -> triple P x Q.
Proof. intros H HP w Hw. apply H, HP, Hw. Qed.

Lemma t_get {A} (f : Coordinator -> A) (P : World -> Prop) :
  triple P (get f) (fun a w => P w /\ a = f (w_c w)).
Proof. intros w Hw. done. Qed.

(** ** Histories *)

Definition proposed (h : list Event) (c : Commit) : Prop :=
  exists c', EvPropose c' None ∈ h /\ commitsEquivalent c' c = true.

Definition replicated (h : list Event) (c : Commit) : Prop :=
  proposed h c \/ exists s, EvCurrent (Ok s) ∈ h /\ replicatedStateCarriesCommit s c = true.

Definition stored (h : list Event) (c : Commit) : Prop :=
  EvAppend c None ∈ h \/ exists s, EvLoad (Ok s) ∈ h /\ statesEquivalent s (c_State c) = true.

(** Both stores acknowledged a commit equivalent to this one. *)
Definition persisted (h : list Event) (c : Commit) : Prop :=
  exists c', commitsEquivalent c' c = true /\ replicated h c' /\ stored h c'.

(** Every append follows a successful proposal of an equivalent commit. *)
Fixpoint ordered (h : list Event) : Prop :=
  match h with
  | [] => True
  | EvAppend c _ :: h => proposed h c /\ ordered h
  | _ :: h => ordered h
  end.

Definition is_append (e : Event) : bool := match e with EvAppend _ _ => true | _ => false end.

Lemma ordered_cons e h : is_append e = false -> ordered h -> ordered (e :: h).
Proof. by destruct e. Qed.

Lemma proposed_cons e h c : proposed h c -> proposed (e :: h) c.
Proof. intros (c' & H & E). exists c'. split; [by right|done]. Qed.

Lemma replicated_cons e h c : replicated h c -> replicated (e :: h) c.
Proof.
  intros [H|(s & H & E)]; [left; by apply proposed_cons|right; exists s; split; [by right|done]].
Qed.

Lemma stored_cons e h c : stored h c -> stored (e :: h) c.
Proof. intros [H|(s & H & E)]; [left; by right|right; exists s; split; [by right|done]]. Qed.

Lemma persisted_cons e h c : persisted h c -> persisted (e :: h) c.
Proof.
  intros (c' & E & Hr & Hs). exists c'. split_and!; [done|by apply replicated_cons|by apply stored_cons].
Qed.

(** ** The invariant *)

Record stages (h : list Event) (co : Coordinator) : Prop := {
  st_ordered : ordered h;
  st_tried : forall k c, c_tried co !! k = Some c -> k = key_of c;
  st_done : forall k c, c_done co !! k = Some c -> k = key_of c /\ EvPropose c None ∈ h;
  st_durable : forall k c, c_durable co !! k = Some c -> k = key_of c /\ replicated h c /\ stored h c
}.

Definition inv (w : World) : Prop := stages (w_hist w) (w_c w).

Lemma stages_cons e h co m : is_append e = false -> stages h co -> stages (e :: h) (with_machine co m).
Proof.
  intros He [Ho Ht Hd Hu]. split; simpl.
  - by apply ordered_cons.
  - exact Ht.
  - intros k c H. destruct (Hd k c H) as [? ?]. split; [done|by right].
  - intros k c H. destruct (Hu k c H) as (? & ? & ?). split_and!; [done|by apply replicated_cons|by apply stored_cons].
Qed.

Lemma with_machine_same co : with_machine co (c_machine co) = co.
Proof. by destruct co. Qed.

(** Facts of the history that later events keep. *)
Definition stable (F : list Event -> Prop) : Prop := forall e h, F h -> F (e :: h).

Definition known (F : list Event -> Prop) (w : World) : Prop := inv w /\ F (w_hist w).

Lemma t_call {A} (answer : list Event -> A) (ev : A -> Event) F :
  (forall a, is_append (ev a) = false) -> stable F ->
  triple (known F) (call answer ev) (fun a w => known F w /\ ev a ∈ w_hist w).
Proof.
  intros He HF w [Hi Hw]. unfold call, known, inv. simpl. split_and!; [|by apply HF|by left].
  rewrite <- (with_machine_same (w_c w)). by apply stages_cons.
Qed.

Lemma t_machine {A} env (f : StateMachine -> Time -> StateMachine * A) ev F :
  (forall t a, is_append (ev t a) = false) -> stable F ->
  triple (known F) (on_machine env f ev) (fun _ w => known F w).
Proof.
  intros He HF w [Hi Hw]. unfold on_machine. destruct (f _ _) as [m a]. unfold known, inv. simpl.
  split; [|by apply HF]. by apply stages_cons.
Qed.

Lemma t_mark_tried c F : triple (known F) (mark_tried (key_of c) c) (fun _ => known F).
Proof.
  intros w [[Ho Ht Hd Hu] Hw]. split; [|exact Hw]. split; simpl; [done| |done|done].
  intros k c0 [[<- <-]|[_ H]]%lookup_insert_Some; [done|by apply Ht].
Qed.

(** The ledger of completed proposals and of completed commits. *)
Lemma t_mark_done c F :
  triple (fun w => known F w /\ EvPropose c None ∈ w_hist w) (mark_done (key_of c) c) (fun _ => known (fun h => proposed h c)).
Proof.
  intros w [[[Ho Ht Hd Hu] _] Hp]. simpl. split.
  - split; simpl; [done| | |done].
    + intros k c0 [_ H]%lookup_delete_Some. by apply Ht.
    + intros k c0 [[<- <-]|[_ H]]%lookup_insert_Some; [done|by apply Hd].
  - exists c. split; [done|apply commitsEquivalent_refl].
Qed.

Lemma t_mark_durable c :
  triple (known (fun h => replicated h c /\ stored h c)) (mark_durable (key_of c) c) (fun _ => known (fun h => persisted h c)).
Proof.
  intros w [[Ho Ht Hd Hu] [Hr Hs]]. simpl. split.
  - split; simpl; [done|done|done|]. intros k c0 [[<- <-]|[_ H]]%lookup_insert_Some; [done|by apply Hu].
  - exists c. split_and!; [apply commitsEquivalent_refl|done|done].
Qed.

(** An append, with the proposal acknowledged. *)
Lemma t_durable_append env c :
  triple (known (fun h => proposed h c)) (durable_AppendCommit env c)
    (fun r w => known (fun h => replicated h c) w /\ EvAppend c r ∈ w_hist w).
Proof.
  intros w [[Ho Ht Hd Hu] Hp]. unfold durable_AppendCommit, call, known, inv. simpl. split_and!.
  - split; simpl; [done|done| |].
    + intros k c0 H. destruct (Hd k c0 H) as [? ?]. split; [done|by right].
    + intros k c0 H. destruct (Hu k c0 H) as (? & ? & ?). split_and!; [done|by apply replicated_cons|by apply stored_cons].
  - left. by apply proposed_cons.
  - by left.
Qed.

Lemma t_fail {A} env reason (r : A) F (Q : A -> World -> Prop) :
  stable F -> (forall w, known F w -> Q r w) -> triple (known F) (fail env reason r) Q.
Proof.
  intros HF HQ. unfold fail. eapply t_bind; [apply t_machine; [intros ? ?; reflexivity|exact HF]|].
  intros ?. apply t_ret, HQ.
Qed.

(** The clauses of a result that a nil error carries. *)
Definition when_nil (F : list Event -> Prop) (r : option error) (w : World) : Prop :=
  inv w /\ (r = None -> F (w_hist w)).

Lemma when_nil_error F G e w : known G w -> when_nil F (Some e) w.
Proof. intros [H _]. by split. Qed.

#[local] Hint Resolve proposed_cons replicated_cons stored_cons persisted_cons : waf.

Lemma stable_proposed c : stable (fun h => proposed h c).
Proof. intros e h. apply proposed_cons. Qed.

Lemma stable_replicated c : stable (fun h => replicated h c).
Proof. intros e h. apply replicated_cons. Qed.

Lemma stable_both c : stable (fun h => replicated h c /\ stored h c).
Proof. intros e h [? ?]. split; auto with waf. Qed.

Lemma stable_and F G : stable F -> stable G -> stable (fun h => F h /\ G h).
Proof. intros HF HG e h [? ?]. split; [by apply HF|by apply HG]. Qed.

Lemma stable_true : stable (fun _ => True).
Proof. done. Qed.

#[local] Hint Resolve stable_proposed stable_replicated stable_both stable_true : waf.

(** ** The stages of a commit *)

Section Stages.
Context (env : Env).

Lemma t_installIfNeeded c F : stable F ->
  triple (known F) (installCommitIfNeeded env c) (fun _ => known F).
Proof.
  intros HF. unfold installCommitIfNeeded. eapply t_bind; [by apply t_machine|]. intros s. simpl.
  destruct (localStateCarriesCommit s c); [by apply t_ret|by apply t_machine].
Qed.

Lemma t_finish c :
  triple (known (fun h => replicated h c /\ stored h c)) (install_and_finish env (key_of c) c)
    (when_nil (fun h => persisted h c)).
Proof.
  unfold install_and_finish. eapply t_bind; [apply t_installIfNeeded; auto with waf|]. intros [e|]; simpl.
  - apply t_fail; [auto with waf|]. intros w. apply when_nil_error.
  - eapply t_bind; [apply t_mark_durable|]. intros ?. apply t_ret. by intros w [Hi Hp].
Qed.

(** The append is reached only with the proposal acknowledged. *)
Lemma t_append c :
  triple (known (fun h => proposed h c)) (append_and_finish env (key_of c) c) (when_nil (fun h => persisted h c)).
Proof.
  unfold append_and_finish. eapply t_bind; [apply t_call; auto with waf|]. intros e. simpl.
  eapply t_pre with (P' := known (fun h => proposed h c)); [|tauto].
  destruct e as [e|]; [apply t_fail; [auto with waf|]; intros w; apply when_nil_error|].
  eapply t_bind; [apply t_durable_append|].
  intros [e|]; simpl.
  - eapply t_pre with (P' := known (fun h => replicated h c)); [|tauto].
    apply t_fail; [auto with waf|]. intros w. apply when_nil_error.
  - eapply t_pre; [apply t_finish|]. intros w [[Hi Hr] Ha]. split; [done|]. split; [done|by left].
Qed.

Lemma t_propose c owned :
  triple (known (fun _ => True)) (propose_and_finish env (key_of c) c owned) (when_nil (fun h => persisted h c)).
Proof.
  unfold propose_and_finish. eapply t_bind; [apply t_call; auto with waf|]. intros e. simpl.
  eapply t_pre with (P' := known (fun _ => True)); [|tauto].
  destruct e as [e|].
  { destruct owned; [apply t_fail; [auto with waf|]; intros w; apply when_nil_error|].
    apply t_ret. intros w. apply when_nil_error. }
  eapply t_bind; [apply t_mark_tried|]. intros ?. cbv beta.
  eapply t_bind; [apply t_call; auto with waf|]. intros [e|]; simpl.
  - eapply t_pre with (P' := known (fun _ => True)); [|tauto].
    apply t_fail; [auto with waf|]. intros w. apply when_nil_error.
  - eapply t_bind; [apply t_mark_done|]. intros ?. apply t_append.
Qed.

(** With the stage done, the history has an equivalent proposal. *)
Definition proposed_if (b : bool) (c : Commit) (h : list Event) : Prop := b = true -> proposed h c.

Lemma stable_proposed_if b c : stable (proposed_if b c).
Proof. intros e h H E. by apply proposed_cons, H. Qed.

#[local] Hint Resolve stable_proposed_if : waf.

Lemma t_finish_durable c b s :
  triple (known (fun h => proposed_if b c h /\ EvLoad (Ok s) ∈ h)) (finish_durable env (key_of c) c b s)
    (when_nil (fun h => persisted h c)).
Proof.
  assert (Hst : stable (fun h => proposed_if b c h /\ EvLoad (Ok s) ∈ h)).
  { apply stable_and; [auto with waf|]. intros e h H. by right. }
  unfold finish_durable. destruct (statesEquivalent s (c_State c)) eqn:Es; simpl.
  2:{ apply t_fail; [done|]. intros w. apply when_nil_error. }
  assert (Hs : forall h, EvLoad (Ok s) ∈ h -> stored h c) by (intros h H; right; by exists s).
  destruct b.
  { eapply t_pre; [apply t_finish|]. intros w [Hi [Hp Hl]]. split; [done|]. split; [left; by apply Hp|by apply Hs]. }
  eapply t_bind; [by apply t_call|]. intros [s'|e]; simpl.
  - destruct (replicatedStateCarriesCommit s' c) eqn:Er; simpl.
    + eapply t_pre; [apply t_finish|]. intros w [[Hi [Hp Hl]] Hc]. split; [done|].
      split; [right; by exists s'|by apply Hs].
    + eapply t_pre with (P' := known (fun _ => True)); [|by intros w [[? ?] ?]].
      apply t_fail; [done|]. intros w. apply when_nil_error.
  - eapply t_pre with (P' := known (fun _ => True)); [|by intros w [[? ?] ?]].
    apply t_fail; [done|]. intros w. apply when_nil_error.
Qed.

Lemma t_stages c b owned :
  triple (known (proposed_if b c)) (apply_stages env (key_of c) c b owned) (when_nil (fun h => persisted h c)).
Proof.
  unfold apply_stages. eapply t_bind; [apply t_call; auto with waf|]. intros r. simpl.
  assert (Hstop : forall reason e, triple (known (proposed_if b c)) (fail env reason (Some e)) (when_nil (fun h => persisted h c))).
  { intros. apply t_fail; [auto with waf|]. intros w. apply when_nil_error. }
  destruct (baseline _ r) as [s|e] eqn:Eb; [|eapply t_pre; [apply Hstop|tauto]].
  destruct (_ <? _); [eapply t_pre; [apply Hstop|tauto]|].
  destruct (_ && (_ <? _)); [eapply t_pre; [apply Hstop|tauto]|].
  destruct (_ && _ && _) eqn:Ee.
  - eapply t_pre; [apply t_finish_durable|]. intros w [[Hi Hp] Hl]. split; [done|]. split; [done|].
    destruct r as [s0|e]; simpl in Eb; [by injection Eb as ->|].
    destruct (Is e ErrStateNotFound); [|done]. injection Eb as <-. simpl in Ee.
    rewrite andb_false_r in Ee. done.
  - destruct b.
    + eapply t_pre; [apply t_append|]. intros w [[Hi Hp] _]. split; [done|by apply Hp].
    + eapply t_pre; [apply t_propose|]. intros w [[Hi _] _]. by split.
Qed.

Lemma t_check recorded c conflict F : stable F ->
  triple (known F) (check_stage env recorded c conflict)
    (fun r w => known F w /\ (r = None -> commitsEquivalent recorded c = true)).
Proof.
  intros HF. unfold check_stage. eapply t_bind; [by apply t_machine|]. intros s. simpl.
  destruct (commitMatchesCurrentGeneration s c); [|by apply t_ret].
  destruct (commitsEquivalent recorded c); [by apply t_ret|]. by apply t_fail.
Qed.

Lemma t_applyLocked c owned :
  triple inv (applyLocked env c owned) (when_nil (fun h => persisted h c)).
Proof.
  eapply t_pre with (P' := known (fun _ => True)); [|by split].
  unfold applyLocked. eapply t_bind; [apply t_call; auto with waf|]. intros e. simpl.
  eapply t_pre with (P' := known (fun _ => True)); [|tauto].
  destruct e as [e|]; [apply t_ret; intros w; apply when_nil_error|].
  eapply t_bind; [apply t_get|]. intros [c0|]; simpl.
  { eapply t_conseq with (P' := known (fun h => replicated h c0 /\ stored h c0)); [apply t_check; auto with waf| |].
    - intros w [[Hi _] Hg]. split; [done|]. symmetry in Hg. apply (st_durable _ _ Hi) in Hg as (_ & ? & ?). done.
    - intros r w [[Hi [Hr Hs]] Hq]. split; [done|]. intros E. exists c0. auto. }
  eapply t_bind; [apply t_get|]. intros done. eapply t_bind; [apply t_get|]. intros tried. simpl.
  eapply t_bind with (R := fun r => known (fun h => r = None ->
      proposed_if (match done with Some _ => true | None => false end) c h)).
  { unfold known_commit. destruct done as [c0|].
    - eapply t_conseq with (P' := known (fun h => EvPropose c0 None ∈ h)); [apply t_check| |].
      + intros e h H. by right.
      + intros w [[[[Hi _] _] Hg] _]. split; [done|]. symmetry in Hg. by apply (st_done _ _ Hi) in Hg as [_ ?].
      + intros r w [[Hi Hp] Hq]. split; [done|]. intros E _. exists c0. split; [done|by apply Hq].
    - eapply t_conseq with (P' := known (fun _ => True)) (Q' := fun _ => known (fun _ => True)).
      + destruct tried as [c0|]; [|by apply t_machine].
        eapply t_conseq with (P' := known (fun _ => True)); [apply (t_check c0 c _ (fun _ => True)); done|done|].
        intros r w [H _]. exact H.
      + tauto.
      + intros r w [Hi _]. split; [done|]. by intros _ E. }
  intros [e|]; simpl.
  - apply t_ret. intros w. apply when_nil_error.
  - eapply t_pre; [apply t_stages|]. intros w [Hi Hp]. split; [done|]. by apply Hp.
Qed.

Lemma t_Apply c : triple inv (Apply env c) (when_nil (fun h => persisted h c)).
Proof.
  unfold Apply. eapply t_bind with (R := fun _ => inv).
  { intros w Hw. by apply (t_call _ _ (fun _ => True)). }
  intros [e|]; [|apply t_applyLocked]. apply t_ret. by intros w Hw.
Qed.

Lemma t_ProposeAndApply p :
  triple inv (ProposeAndApply env p)
    (fun r w => inv w /\ forall c, r = (Some c, None) -> persisted (w_hist w) c).
Proof.
  set (Q := fun (r : option Commit * option error) w => inv w /\ forall c, r = (Some c, None) -> persisted (w_hist w) c).
  assert (Hstop : forall r e, triple inv (ret (r, Some e)) Q) by (intros r e; apply t_ret; by intros w Hw).
  assert (Hctx : triple inv (ctx_Err env) (fun _ => inv)).
  { intros w Hw. by apply (t_call _ _ (fun _ => True)). }
  unfold ProposeAndApply. eapply t_bind; [exact Hctx|]. intros [e|]; [apply Hstop|].
  eapply t_bind; [exact Hctx|]. intros [e|]; [apply Hstop|].
  eapply t_bind with (R := fun _ => inv).
  { intros w Hw. by apply (t_machine env _ _ (fun _ => True)). }
  intros [c|e]; [|apply Hstop]. eapply t_bind; [exact Hctx|]. intros [e|].
  - eapply t_pre with (P' := known (fun _ => True)); [apply t_fail; [done|]; by intros w [Hi _]|by split].
  - eapply t_bind; [apply t_applyLocked|]. intros r. simpl. apply t_ret. intros w [Hi Hp].
    split; [done|]. intros c' [= <- ->]. by apply Hp.
Qed.

(** Calls that reach no store keep the invariant. *)
Lemma t_quiet_call {A} (answer : list Event -> A) (ev : A -> Event) :
  (forall a, is_append (ev a) = false) -> triple inv (call answer ev) (fun _ => inv).
Proof. intros He w Hw. by apply (t_call _ _ (fun _ => True)). Qed.

Lemma t_quiet_machine {A} (f : StateMachine -> Time -> StateMachine * A) ev :
  (forall t a, is_append (ev t a) = false) -> triple inv (on_machine env f ev) (fun _ => inv).
Proof. intros He w Hw. by apply (t_machine env _ _ (fun _ => True)). Qed.

Lemma t_quiet_fail {A} reason (r : A) : triple inv (fail env reason r) (fun _ => inv).
Proof. unfold fail. eapply t_bind; [by apply t_quiet_machine|]. intros ?. by apply t_ret. Qed.

(** One step of a computation that does not append. *)
Ltac quiet :=
  repeat match goal with
  | |- triple inv (ret _) _ => apply t_ret; auto
  | |- triple inv (fail _ _ _) _ => apply t_quiet_fail
  | |- triple inv (bind _ _) _ =>
      eapply t_bind with (R := fun _ => inv);
        [first [by apply t_quiet_call|by apply t_quiet_machine|idtac]|intros ?]
  | |- triple inv (match ?x with _ => _ end) _ => destruct x
  | |- triple inv (let _ := _ in _) _ => cbv zeta
  end.

Lemma t_LoadSnapshot : triple inv (Coordinator_LoadSnapshot env) (fun _ => inv).
Proof.
  unfold Coordinator_LoadSnapshot. quiet.
  intros w [Ho Ht Hd Hu]. split; simpl; [done| | |]; intros k c; by rewrite lookup_empty.
Qed.

Lemma t_ResumeWrites token : triple inv (Coordinator_ResumeWrites env token) (fun _ => inv).
Proof. unfold Coordinator_ResumeWrites. quiet. Qed.
(** ** The first state *)

Lemma t_append_initial current c :
  triple (known (fun h => proposed h c)) (append_initial env current (key_of c) c) (when_nil (fun h => persisted h c)).
Proof.
  unfold append_initial. eapply t_bind; [apply t_call; auto with waf|]. intros e. simpl.
  eapply t_pre with (P' := known (fun h => proposed h c)); [|tauto].
  destruct e as [e|]; [apply t_fail; [auto with waf|]; intros w; apply when_nil_error|].
  eapply t_bind; [apply t_durable_append|]. intros [e|]; simpl.
  { eapply t_pre with (P' := known (fun h => replicated h c)); [|tauto].
    apply t_fail; [auto with waf|]. intros w. apply when_nil_error. }
  eapply t_pre with (P' := known (fun h => replicated h c /\ stored h c)).
  2: { intros w [[Hi Hr] Ha]. split; [done|]. split; [done|by left]. }
  eapply t_bind; [apply t_machine; auto with waf|]. intros s. cbv beta.
  eapply t_bind with (R := fun _ => known (fun h => replicated h c /\ stored h c)).
  { destruct (localStateCarriesCommit s c); [by apply t_ret|apply t_machine; auto with waf]. }
  intros [e|]; [apply t_fail; [auto with waf|]; intros w; apply when_nil_error|].
  eapply t_bind; [apply t_mark_durable|]. intros ?. apply t_ret. by intros w [Hi Hp].
Qed.

Lemma t_propose_initial current c :
  triple (known (fun _ => True)) (propose_initial env current (key_of c) c) (when_nil (fun h => persisted h c)).
Proof.
  unfold propose_initial. eapply t_bind; [apply t_mark_tried|]. intros ?. cbv beta.
  eapply t_bind; [apply t_call; auto with waf|]. intros [e|]; simpl.
  - eapply t_pre with (P' := known (fun _ => True)); [|tauto].
    apply t_fail; [auto with waf|]. intros w. apply when_nil_error.
  - eapply t_bind; [apply t_mark_done|]. intros ?. apply t_append_initial.
Qed.

Lemma t_applyInitial current c :
  triple (known (fun _ => True)) (applyInitialLocked env current (key_of c) c) (when_nil (fun h => persisted h c)).
Proof.
  unfold applyInitialLocked. eapply t_bind; [apply t_get|]. intros [c0|]; simpl.
  { destruct (commitsEquivalent c0 c) eqn:E.
    - apply t_ret. intros w [[Hi _] Hg]. split; [done|]. intros _. symmetry in Hg.
      apply (st_durable _ _ Hi) in Hg as (_ & ? & ?). by exists c0.
    - eapply t_pre with (P' := known (fun _ => True)); [|tauto].
      apply t_fail; [auto with waf|]. intros w. apply when_nil_error. }
  eapply t_bind; [apply t_get|]. intros [c0|]; simpl.
  - destruct (negb (commitsEquivalent c0 c)) eqn:E.
    { eapply t_pre with (P' := known (fun _ => True)); [|tauto].
      apply t_fail; [auto with waf|]. intros w. apply when_nil_error. }
    apply negb_false_iff in E.
    eapply t_pre with (P' := known (fun h => proposed h c)).
    2: { intros w [[[Hi _] _] Hg]. split; [done|]. symmetry in Hg. apply (st_done _ _ Hi) in Hg as [_ ?]. by exists c0. }
    eapply t_bind; [apply t_call; auto with waf|]. intros e. simpl.
    eapply t_pre with (P' := known (fun h => proposed h c)); [|tauto].
    destruct e as [e|]; [apply t_ret; intros w; apply when_nil_error|apply t_append_initial].
  - eapply t_pre with (P' := known (fun _ => True)); [|tauto].
    eapply t_bind; [apply t_call; auto with waf|]. intros e. simpl.
    eapply t_pre with (P' := known (fun _ => True)); [|tauto].
    destruct e as [e|]; [apply t_ret; intros w; apply when_nil_error|apply t_propose_initial].
Qed.

(** The commit of a retry is recorded under its own key. *)
Lemma retry_key key w c : inv w -> initialRetryCommit key (w_c w) = Some c -> key = key_of c.
Proof.
  intros [_ Ht Hd Hu]. unfold initialRetryCommit.
  destruct (c_durable (w_c w) !! key) eqn:E1; [intros [= <-]; by apply Hu in E1 as [? _]|].
  destruct (c_done (w_c w) !! key) eqn:E2; [intros [= <-]; by apply Hd in E2 as [? _]|]. apply Ht.
Qed.

Lemma initial_key id leadership r now c : NewInitialCommit id leadership r now = Ok c ->
  key_of c = (id, s_Epoch leadership, 1, ir_Nonce r).
Proof.
  unfold NewInitialCommit, startupCommitFromState. destruct (validateInitialStateRequest r id); [done|].
  intros H. branch H. by injection H as <-.
Qed.

Lemma t_Initialize request :
  triple inv (Initialize env request)
    (fun r w => inv w /\ forall c, r = (Some c, None) -> persisted (w_hist w) c).
Proof.
  set (Q := fun (r : option Commit * option error) w => inv w /\ forall c, r = (Some c, None) -> persisted (w_hist w) c).
  assert (Hctx : triple inv (ctx_Err env) (fun _ => inv)) by (intros w Hw; by apply (t_call _ _ (fun _ => True))).
  assert (Hret : forall r e, triple inv (ret (r, Some e)) Q) by (intros r e; apply t_ret; by intros w Hw).
  assert (Hstop : forall reason r e, triple inv (fail env reason (r, Some e)) Q).
  { intros reason r e. eapply t_pre with (P' := known (fun _ => True)); [apply t_fail; [done|]; by intros w [Hi _]|by split]. }
  assert (Hgo : forall current key c, key = key_of c ->
    triple inv (e <- applyInitialLocked env current key c ;; ret (Some c, e)) Q).
  { intros current key c ->. eapply t_bind; [eapply t_pre; [apply t_applyInitial|by split]|].
    intros r. apply t_ret. intros w [Hi Hp]. split; [done|]. intros c' [= <- ->]. by apply Hp. }
  unfold Initialize. eapply t_bind; [exact Hctx|]. intros [e|]; [apply Hret|].
  eapply t_bind; [exact Hctx|]. intros [e|]; [apply Hret|].
  eapply t_bind with (R := fun _ => inv).
  { intros w Hw. by apply (t_machine env _ _ (fun _ => True)). }
  intros current. destruct (validateInitialStateRequest _ _); [apply Hstop|]. cbv zeta.
  eapply t_bind; [apply t_get|]. intros [c|]; cbv beta.
  - intros w [Hi Hg]. symmetry in Hg. apply retry_key in Hg; [|done]. revert w Hi.
    change (triple inv (if negb (commitMatchesCurrentGeneration current c) then ret (None, Some (Fails ErrStaleEpoch))
      else if negb (initialRequestMatchesCommit request c)
      then fail env "initial retry conflicts with exact commit" (None, Some (Fails ErrInvalidCommit))
      else e <- applyInitialLocked env current (s_ClusterID current, s_Epoch current, 1, ir_Nonce request) c ;; ret (Some c, e)) Q).
    destruct (negb _); [apply Hret|]. destruct (negb _); [apply Hstop|]. by apply Hgo.
  - eapply t_pre with (P' := inv); [|tauto]. destruct (_ || _); [apply Hstop|].
    eapply t_bind with (R := fun _ => inv); [by intros w Hw|]. intros now.
    destruct (NewInitialCommit _ _ _ _) as [c|e] eqn:E; [|apply Hstop].
    apply Hgo. symmetry. by apply initial_key in E.
Qed.

Lemma t_Checkpoint durable consensus : triple inv (Coordinator_CheckpointLeadership env durable consensus) (fun _ => inv).
Proof. unfold Coordinator_CheckpointLeadership. quiet. Qed.
End Stages.

(** ** Any sequence of calls *)

Inductive Call :=
| CallApply (c : Commit)
| CallPropose (p : Proposal)
| CallLoad
| CallResume (t : FenceToken)
| CallInitialize (r : InitialStateRequest)
| CallCheckpoint (durable consensus : State).

Definition perform (env : Env) (w : World) (x : Call) : World :=
  match x with
  | CallApply c => snd (Apply env c w)
  | CallPropose p => snd (ProposeAndApply env p w)
  | CallLoad => snd (Coordinator_LoadSnapshot env w)
  | CallResume t => snd (Coordinator_ResumeWrites env t w)
  | CallInitialize r => snd (Initialize env r w)
  | CallCheckpoint d c => snd (Coordinator_CheckpointLeadership env d c w)
  end.

Definition performed (env : Env) (m : StateMachine) (calls : list Call) : World :=
  fold_left (perform env) calls {| w_c := NewCoordinator m; w_hist := [] |}.

Lemma new_inv m : inv {| w_c := NewCoordinator m; w_hist := [] |}.
Proof. split; simpl; [done| | |]; intros k c; by rewrite lookup_empty. Qed.

Lemma performed_inv env m calls : inv (performed env m calls).
Proof.
  unfold performed. generalize (new_inv m). generalize {| w_c := NewCoordinator m; w_hist := [] |}.
  induction calls as [|x calls IH]; intros w Hw; [done|]. simpl. apply IH. destruct x; simpl.
  - by apply t_Apply.
  - by apply t_ProposeAndApply.
  - by apply t_LoadSnapshot.
  - by apply t_ResumeWrites.
  - by apply t_Initialize.
  - by apply t_Checkpoint.
Qed.

Lemma ordered_split h : ordered h -> forall h2 c r h1, h = h2 ++ EvAppend c r :: h1 -> proposed h1 c.
Proof.
  induction h as [|e h IH]; intros Ho h2 c r h1 E; [by destruct h2|].
  destruct h2 as [|e2 h2]; injection E as -> ->.
  - by destruct Ho.
  - apply (IH ltac:(by destruct e2; try destruct Ho) h2 c r h1 eq_refl).
Qed.

(** C4. Whatever the stores answer and whatever else happens to the state
    machine, the coordinator never appends a commit to the durable store
    before consensus has acknowledged the proposal of an equivalent commit. *)
Theorem consensus_before_durable env m calls h2 c r h1 :
  w_hist (performed env m calls) = h2 ++ EvAppend c r :: h1 ->
  exists c', EvPropose c' None ∈ h1 /\ commitsEquivalent c' c = true.
Proof. apply ordered_split, performed_inv. Qed.

(** C5. A nil error of Apply, ProposeAndApply or Initialize means that both stores hold
    the commit: an equivalent commit was acknowledged by consensus (or read
    back from it) and by the durable store (or read back from it). *)
Theorem nil_means_persisted env m calls :
  let w := performed env m calls in
  (forall c w', Apply env c w = (None, w') -> persisted (w_hist w') c)
  /\ (forall p c w', ProposeAndApply env p w = ((Some c, None), w') -> persisted (w_hist w') c)
  /\ (forall r c w', Initialize env r w = ((Some c, None), w') -> persisted (w_hist w') c).
Proof.
  intros w. pose proof (performed_inv env m calls) as Hi. split_and!.
  - intros c w' E. pose proof (t_Apply env c w Hi) as [_ H]. rewrite E in H. by apply H.
  - intros p c w' E. pose proof (t_ProposeAndApply env p w Hi) as [_ H]. rewrite E in H. by apply H.
  - intros r c w' E. pose proof (t_Initialize env r w Hi) as [_ H]. rewrite E in H. by apply H.
Qed.

(** ** Failures of the stores freeze the machine *)

Definition frozen (w : World) : Prop :=
  s_WriteFrozen (m_state (c_machine (w_c w))) = true /\ s_WriteFrozen (Snapshot (c_machine (w_c w))) = true.

(** A result that does not report a persistence failure, or a frozen machine. *)
Definition loud (r : option error) (w : World) : Prop :=
  (exists stage e, r = Some (Persistence stage e)) -> frozen w.

Definition anyw (w : World) : Prop := True.

Lemma t_top {A} (x : M A) : triple anyw x (fun _ => anyw).
Proof. done. Qed.

Lemma t_fail_frozen {A} env reason (r : A) : triple anyw (fail env reason r) (fun _ => frozen).
Proof. by intros w _. Qed.

Lemma t_loud_fail env reason r : triple anyw (fail env reason r) loud.
Proof. intros w _ _. by apply t_fail_frozen. Qed.

Lemma t_loud_ret r : (forall stage e, r <> Some (Persistence stage e)) -> triple anyw (ret r) loud.
Proof. intros H w _ (stage & e & E). by destruct (H stage e). Qed.

(** Errors that are not of the persistence kind. *)
Definition plain (r : option error) : Prop := forall stage e, r <> Some (Persistence stage e).

Lemma t_pure {A} (F : Prop) (x : M A) Q : (F -> triple anyw x Q) -> triple (fun _ => F) x Q.
Proof. intros H w HF. by apply H. Qed.

Lemma t_bind_plain {B} (x : M (option error)) (k : option error -> M B) Q :
  triple anyw x (fun r _ => plain r) -> (forall r, plain r -> triple anyw (k r) Q) -> triple anyw (bind x k) Q.
Proof. intros Hx Hk. apply (t_bind anyw x k (fun r _ => plain r) Q Hx). intros r. exact (t_pure _ _ _ (Hk r)). Qed.

Lemma t_ctx_plain env : triple anyw (ctx_Err env) (fun r _ => plain r).
Proof. intros w _ stage e. unfold ctx_Err, call. simpl. by destruct (e_ctx env (w_hist w)). Qed.

Lemma t_fails {A} (x : M A) (Q : A -> Prop) :
  (forall w, Q (fst (x w))) -> triple anyw x (fun a _ => Q a).
Proof. intros H w _. apply H. Qed.

Lemma validate_plain m c : plain (validateCommitLocked m c).
Proof.
  intros stage e. unfold validateCommitLocked, commit_fields, commit_bindings.
  destruct (m_proposals m !! f_Revision (c_Fence c));
    repeat match goal with |- context [if ?b then _ else _] => destruct b end; congruence.
Qed.

Lemma t_known_plain env c d t : triple anyw (known_commit env c d t) (fun r _ => plain r).
Proof.
  assert (Hc : forall c0 s, triple anyw (check_stage env c0 c s) (fun r _ => plain r)).
  { intros c0 s. unfold check_stage. eapply t_bind; [apply t_top|]. intros st.
    destruct (commitMatchesCurrentGeneration st c); [|by intros w _].
    destruct (commitsEquivalent c0 c); by intros w _. }
  unfold known_commit. destruct d; [apply Hc|]. destruct t; [apply Hc|].
  intros w _. unfold machine_ValidateCommit, on_machine. simpl. apply validate_plain.
Qed.

Ltac loudly :=
  repeat match goal with
  | |- triple anyw (ret _) loud => apply t_loud_ret; first [assumption|intros ? ?; congruence]
  | |- triple anyw (fail _ _ _) loud => apply t_loud_fail
  | |- triple anyw (bind (ctx_Err _) _) _ => eapply t_bind_plain; [apply t_ctx_plain|intros ? ?]
  | |- triple anyw (bind (known_commit _ _ _ _) _) _ => eapply t_bind_plain; [apply t_known_plain|intros ? ?]
  | |- triple anyw (bind _ _) _ => eapply t_bind; [apply t_top|intros ?; cbv beta]
  | |- triple anyw (match ?x with _ => _ end) _ => destruct x
  | |- triple anyw (let _ := _ in _) _ => cbv zeta
  end.

Lemma t_loud_applyLocked env c owned : triple anyw (applyLocked env c owned) loud.
Proof.
  assert (Hs : forall key b, triple anyw (apply_stages env key c b owned) loud).
  { intros key b.
    unfold apply_stages, finish_durable, propose_and_finish, append_and_finish, install_and_finish. loudly. }
  unfold applyLocked, check_stage. loudly; apply Hs.
Qed.

Lemma propose_plain m now p e : snd (Propose m now p) = Err e -> plain (Some e).
Proof.
  unfold Propose. destruct (propose_fields p) as [e0|] eqn:E.
  - intros [= <-] stage x. revert E. unfold propose_fields.
    repeat match goal with |- context [if ?b then _ else _] => destruct b end; congruence.
  - destruct (propose_cas m p) as [e0|] eqn:E'; simpl; [|done]. intros [= <-] stage x. revert E'. unfold propose_cas.
    repeat match goal with |- context [if ?b then _ else _] => destruct b end; congruence.
Qed.

Lemma t_loud_pair (c : option Commit) e : plain (Some e) ->
  triple anyw (ret (c, Some e)) (fun r : option Commit * option error => loud (snd r)).
Proof. intros He w _ (stage & x & E). simpl in E. by destruct (He stage x). Qed.

Lemma t_loud_Propose env p : triple anyw (ProposeAndApply env p) (fun r => loud (snd r)).
Proof.
  pose proof t_loud_pair as Hret.
  unfold ProposeAndApply. eapply t_bind_plain; [apply t_ctx_plain|]. intros [e|] He; [by apply Hret|].
  eapply t_bind_plain; [apply t_ctx_plain|]. intros [e'|] He'; [by apply Hret|].
  apply (t_bind anyw _ _ (fun r _ => forall e, r = Err e -> plain (Some e))).
  { intros w _ x. unfold machine_Propose, on_machine.
    destruct (Propose _ _ p) as [m r] eqn:E. simpl. intros ->. eapply propose_plain. by rewrite E. }
  intros r. apply t_pure. intros Hr. destruct r as [c|x]; [|apply Hret, Hr; done].
  eapply t_bind_plain; [apply t_ctx_plain|]. intros [x|] Hx.
  - intros w _ _. by apply t_fail_frozen.
  - eapply t_bind; [apply t_loud_applyLocked|]. intros r. by apply t_ret.
Qed.

Lemma t_loud_Initialize env r : triple anyw (Initialize env r) (fun r => loud (snd r)).
Proof.
  assert (Hstop : forall reason (x : option Commit * option error),
    triple anyw (fail env reason x) (fun r => loud (snd r))) by (intros reason x w _ _; by apply t_fail_frozen).
  assert (Hgo : forall current key c,
    triple anyw (e <- applyInitialLocked env current key c ;; ret (Some c, e)) (fun r => loud (snd r))).
  { intros current key c. eapply t_bind with (R := loud); [|intros e; by apply t_ret].
    assert (Ha : triple anyw (append_initial env current key c) loud) by (unfold append_initial; loudly).
    unfold applyInitialLocked, propose_initial. loudly; exact Ha. }
  unfold Initialize. eapply t_bind_plain; [apply t_ctx_plain|]. intros [e|] He; [by apply t_loud_pair|].
  eapply t_bind_plain; [apply t_ctx_plain|]. intros [e'|] He'; [by apply t_loud_pair|].
  eapply t_bind; [apply t_top|]. intros current. cbv beta.
  destruct (validateInitialStateRequest _ _); [apply Hstop|]. cbv zeta.
  eapply t_bind; [apply t_top|]. intros [c|]; cbv beta.
  - destruct (negb _); [by apply t_loud_pair|]. destruct (negb _); [apply Hstop|apply Hgo].
  - destruct (_ || _); [apply Hstop|]. eapply t_bind; [apply t_top|]. intros now. cbv beta.
    destruct (NewInitialCommit _ _ _ _); [apply Hgo|apply Hstop].
Qed.

(** C6. A call that reports a persistence failure of either store leaves the
    machine frozen, so that every further proposal is refused until the writes
    are resumed or the leadership changes. *)
Theorem persistence_failure_freezes env w stage e :
  (forall c w', Apply env c w = (Some (Persistence stage e), w') -> frozen w')
  /\ (forall p r w', ProposeAndApply env p w = ((r, Some (Persistence stage e)), w') -> frozen w')
  /\ (forall x r w', Initialize env x w = ((r, Some (Persistence stage e)), w') -> frozen w').
Proof.
  split_and!.
  - intros c w' E. assert (H : triple anyw (Apply env c) loud).
    { unfold Apply. loudly. apply t_loud_applyLocked. }
    specialize (H w I). rewrite E in H. apply H. eauto.
  - intros p r w' E.
    pose proof (t_loud_Propose env p w I) as H. rewrite E in H. apply H. simpl. eauto.
  - intros x r w' E.
    pose proof (t_loud_Initialize env x w I) as H. rewrite E in H. apply H. simpl. eauto.
Qed.

(** ** A healthy environment commits what is proposed *)

(** No cancellation, no interference, stores that accept, and a durable
    baseline that is older than the commit [(epoch, revision)]. *)
Record healthy (env : Env) (epoch revision : Z) : Prop := {
  he_ctx : forall h, e_ctx env h = None;
  he_ops : forall h, e_ops env h = [];
  he_propose : forall h c, e_propose env h c = None;
  he_append : forall h c, e_append env h c = None;
  he_load : forall h id,
    match e_load env h id with
    | Ok s => s_Epoch s < epoch \/ s_Epoch s = epoch /\ s_Revision s < revision
    | Err e => Is e ErrStateNotFound = true
    end
}.

Definition machine_of (w : World) : StateMachine := c_machine (w_c w).

Lemma bind_step {A B} (x : M A) (k : A -> M B) w a w' : x w = (a, w') -> bind x k w = k a w'.
Proof. intros E. unfold bind. by rewrite E. Qed.

Section Healthy.
Context (env : Env) (epoch revision : Z) (Hh : healthy env epoch revision).

(** A world by its parts. *)
Definition world (m : StateMachine) (tried done durable : gmap commitKey Commit) (h : list Event) : World :=
  {| w_c := {| c_machine := m; c_tried := tried; c_done := done; c_durable := durable |}; w_hist := h |}.

Lemma h_ctx m t d u h : ctx_Err env (world m t d u h) = (None, world m t d u (EvCtx None :: h)).
Proof. unfold ctx_Err, call, world. simpl. by rewrite (he_ctx _ _ _ Hh). Qed.

Lemma h_machine {A} (f : StateMachine -> Time -> StateMachine * A) ev m t d u h a m' :
  f m (e_now env h) = (m', a) ->
  on_machine env f ev (world m t d u h) = (a, world m' t d u (ev (e_now env h) a :: h)).
Proof. intros E. unfold on_machine, world. simpl. rewrite (he_ops _ _ _ Hh). simpl. by rewrite E. Qed.

Lemma h_install c m m' t d u h : InstallCommit m c = (m', None) ->
  stateCarriesExactCommit (Snapshot m) c = false ->
  exists h', installCommitIfNeeded env c (world m t d u h) = (None, world m' t d u h').
Proof.
  intros Hi Hs. unfold installCommitIfNeeded, machine_Snapshot, machine_InstallCommit.
  erewrite bind_step by (by apply h_machine). unfold localStateCarriesCommit. rewrite Hs.
  eexists. by apply h_machine.
Qed.

(** The proposal, the append and the installation of a commit that the
    machine accepts and whose key is new. *)
Lemma healthy_apply c owned m m' t d u h :
  f_Epoch (c_Fence c) = epoch -> f_Revision (c_Fence c) = revision -> 0 <= epoch -> 0 <= revision ->
  d !! key_of c = None -> u !! key_of c = None -> t !! key_of c = None ->
  InstallCommit m c = (m', None) -> stateCarriesExactCommit (Snapshot m) c = false ->
  exists d' h', applyLocked env c owned (world m t d u h)
                = (None, world m' (delete (key_of c) (<[key_of c := c]> t)) d' (<[key_of c := c]> u) h').
Proof.
  intros He Hr He0 Hr0 Hd Hu Ht Hi Hs.
  assert (Hv : ValidateCommit m c = None).
  { unfold InstallCommit in Hi. unfold ValidateCommit. by destruct (validateCommitLocked m c). }
  unfold applyLocked. erewrite bind_step by apply h_ctx. cbv beta iota zeta.
  erewrite bind_step by (unfold get, world; simpl; rewrite Hu; reflexivity). cbv beta iota.
  erewrite bind_step by (unfold get, world; simpl; rewrite Hd; reflexivity). cbv beta.
  erewrite bind_step by (unfold get, world; simpl; rewrite Ht; reflexivity). cbv beta.
  unfold known_commit, machine_ValidateCommit.
  erewrite bind_step by (apply h_machine; rewrite Hv; reflexivity). cbv beta iota.
  unfold apply_stages, durable_LoadState.
  erewrite bind_step by (unfold call; reflexivity). cbv beta zeta.
  set (r := e_load env _ _).
  assert (Hl : match r with
               | Ok s => s_Epoch s < epoch \/ s_Epoch s = epoch /\ s_Revision s < revision
               | Err e => Is e ErrStateNotFound = true
               end) by apply (he_load _ _ _ Hh).
  cbn [w_hist world]. clearbody r.
  assert (Hb : exists s, baseline (f_ClusterID (c_Fence c)) r = Ok s
                /\ (f_Epoch (c_Fence c) <? s_Epoch s) = false
                /\ (s_Epoch s =? f_Epoch (c_Fence c)) && (f_Revision (c_Fence c) <? s_Revision s) = false
                /\ (s_Epoch s =? f_Epoch (c_Fence c)) && (s_Revision s =? f_Revision (c_Fence c))
                   && negb (s_Revision s =? 0) = false).
  { rewrite He, Hr.
    destruct r as [s|x]; simpl.
    - exists s. split; [done|].
      destruct (Z.ltb_spec epoch (s_Epoch s)), (Z.eqb_spec (s_Epoch s) epoch), (Z.ltb_spec revision (s_Revision s)),
        (Z.eqb_spec (s_Revision s) revision); simpl; try done; lia.
    - rewrite Hl. eexists. split; [done|]. simpl. rewrite andb_false_r.
      destruct (Z.ltb_spec epoch 0), (Z.ltb_spec revision 0); rewrite ?andb_false_r; try done; lia. }
  destruct Hb as (s & -> & Hb1 & Hb2 & Hb3). cbv iota. rewrite Hb1, Hb2, Hb3.
  unfold propose_and_finish. erewrite bind_step by apply h_ctx. cbv beta iota.
  erewrite bind_step by (unfold mark_tried, update, world; simpl; reflexivity). cbv beta.
  unfold consensus_Propose. erewrite bind_step by (unfold call; rewrite (he_propose _ _ _ Hh); reflexivity).
  cbv beta iota.
  erewrite bind_step by (unfold mark_done, update; simpl; reflexivity). cbv beta.
  unfold append_and_finish. erewrite bind_step by apply h_ctx. cbv beta iota.
  unfold durable_AppendCommit. erewrite bind_step by (unfold call; rewrite (he_append _ _ _ Hh); reflexivity).
  cbv beta iota. unfold install_and_finish.
  destruct (h_install c m m' (delete (key_of c) (<[key_of c := c]> t)) (<[key_of c := c]> d) u
              (EvAppend c None :: EvCtx None :: EvPropose c None :: EvCtx None :: EvLoad r :: EvRead :: EvCtx None :: h)
              Hi Hs) as [h2 Eh].
  erewrite bind_step by exact Eh. cbv beta iota. by do 2 eexists.
Qed.
End Healthy.

(** A stage ledger that has no entry for a nonce. *)
Definition no_nonce (ledger : gmap commitKey Commit) (nonce : string) : Prop :=
  forall k c, ledger !! k = Some c -> snd k <> nonce.

Lemma no_nonce_key ledger c : no_nonce ledger (f_Nonce (c_Fence c)) -> ledger !! key_of c = None.
Proof. intros H. destruct (ledger !! key_of c) eqn:E; [|done]. by destruct (H _ _ E). Qed.

(** In a healthy environment ProposeAndApply commits every proposal that
    names the current leader, epoch and revision with a fresh nonce: it returns
    no error, the proposal is the committed desired state at the next revision,
    its token is valid and its completion is recorded. *)
Theorem healthy_proposal_commits env m t d u h p :
  coherent m -> s_Revision (m_state m) + 1 < two64 - 1 ->
  propose_fields p = None -> propose_cas m p = None ->
  healthy env (s_Epoch (m_state m)) (s_Revision (m_state m) + 1) ->
  no_nonce t (p_Nonce p) -> no_nonce d (p_Nonce p) -> no_nonce u (p_Nonce p) ->
  exists c w', ProposeAndApply env p (world m t d u h) = ((Some c, None), w')
    /\ s_Desired (Snapshot (machine_of w'))
       = {| d_Version := p_Version p; d_Digest := Digest (p_Payload p); d_Payload := p_Payload p |}
    /\ s_Revision (Snapshot (machine_of w')) = p_ExpectedRevision p + 1
    /\ ValidateFence (machine_of w') (c_Fence c) = None
    /\ c_durable (w_c w') !! key_of c = Some c.
Proof.
  intros Hm Hmax Hf Hc Hh Ht Hd Hu.
  pose proof (proj1 (propose_spec m p) (conj Hf Hc)) as Ha.
  unfold ProposeAndApply. erewrite bind_step by (eapply h_ctx; exact Hh). cbv beta iota.
  erewrite bind_step by (eapply h_ctx; exact Hh). cbv beta iota.
  set (h1 := EvCtx None :: EvCtx None :: h). set (now := e_now env h1).
  set (c := proposed_commit m now p). set (m1 := tentative m now p).
  assert (Hp : Propose m now p = (m1, Ok c)) by (unfold Propose; by rewrite Hf, Hc).
  unfold machine_Propose. erewrite bind_step by (eapply h_machine; [exact Hh|exact Hp]). cbv beta iota.
  erewrite bind_step by (eapply h_ctx; exact Hh). cbv beta iota.
  destruct (tentative_commit m now p Hm Hmax Ha) as (Hr & _ & _ & Hco).
  pose proof (tentative_coherent m now p Hm Hmax Ha) as Hm1.
  pose proof (ch_revision _ Hm). pose proof (al_epoch_u64 _ (ch_aligned _ Hm)) as He. unfold is_u64 in He.
  destruct (installed_current m1 c Hm1 (tentative_typed m now p Hm Hmax Ha) Hco) as (Hca & Hfo & _).
  { change (s_Revision (m_committed m) <= s_Revision (proposed_state m now p)). lia. }
  edestruct (healthy_apply env _ _ Hh c true m1 (commit_installed m1 c) t d u) as (d' & h' & E);
    [reflexivity|exact Hr|lia|lia|by apply no_nonce_key|by apply no_nonce_key|by apply no_nonce_key| | |].
  - unfold InstallCommit.
    by rewrite (validateCommit_complete _ _ (ch_cluster _ Hm1) Hco : validateCommitLocked m1 c = None).
  - destruct (stateCarriesExactCommit (Snapshot m1) c) eqn:Es; [|done]. apply carries_spec in Es.
    pose proof (ca_revision _ _ Es) as Ex. change (s_Revision (m_committed m) = s_Revision (proposed_state m now p)) in Ex. lia.
  - erewrite bind_step by exact E. cbv beta. do 2 eexists. split; [reflexivity|]. unfold machine_of, world. cbn [w_c c_machine c_durable].
    split_and!; [| |by apply validateFence_spec|by rewrite lookup_insert_eq].
    + unfold Snapshot. rewrite (ca_desired _ _ Hca). simpl. by rewrite (pa_digest _ _ Ha).
    + unfold Snapshot. rewrite (ca_revision _ _ Hca), (pa_revision _ _ Ha). exact Hr.
Qed.
