(* ===== verification/Startup.v ===== *)
(** * The start of the control plane (internal/controlplane/startup.go)

    [Bootstrap] in the computations of the coordinator: it prepares both
    stores, recovers what a crash left behind, compares the snapshots, installs
    them and resumes the writes with a fence. A step that cannot go on names its
    stage, error and reason; [Bootstrap] then freezes the machine. The
    dependencies are functions of the history of calls, as in Coordinator.v. *)

From S2P Require Import Prelude GoText Sha256 JsonValid ControlState ControlFacts Coordinator.

Open Scope list_scope.
Open Scope Z_scope.
Open Scope go_scope.
Open Scope coord_scope.

Inductive StartupStage :=
| StageContract | StageDurable | StageConsensus | StageSnapshot | StageFencing | StageReady | StageFailed.

(** A dependency: a nil interface, an interface that holds nil, or a value. *)
Inductive Dependency (A : Type) :=
| Absent
| NilValue
| Present (a : A).
Arguments Absent {A}.
Arguments NilValue {A}.
Arguments Present {A} a.

Definition isNilStartupDependency {A} (d : Dependency A) : bool :=
  match d with Present _ => false | _ => true end.

Definition is_absent {A} (d : Dependency A) : bool := match d with Absent => true | _ => false end.

Record DurableBootstrap := {
  db_backend : string;
  db_prepare : list Event -> option error;
  db_health : list Event -> option error
}.

Record ConsensusBootstrap := {
  cb_backend : string;
  cb_prepare : list Event -> option error;
  cb_health : list Event -> option error;
  cb_commit : option (list Event -> string -> result error Commit)   (* ConsensusCommitRecoveryStore *)
}.

(** The stores themselves are in the environment. *)
Record StartupOptions := {
  so_Profile : string;
  so_ClusterID : string;
  so_Durable : Dependency DurableBootstrap;
  so_Consensus : Dependency ConsensusBootstrap;
  so_Fencer : Dependency (list Event -> State -> result error FenceToken);
  so_InitialState : option InitialStateRequest;
  so_InitialAuthorizer : Dependency (list Event -> InitialStateRequest -> option error);
  so_LeadershipCheckpoint : Dependency (list Event -> State -> State -> result error State)
}.

(** The coordinator of a ready result is the one of the world. *)
Record StartupResult := {
  sr_Stage : StartupStage; sr_Ready : bool; sr_State : State; sr_LastKnownGood : State; sr_Fence : option FenceToken
}.

Definition ValidateStartupOptions (o : StartupOptions) (machine : State) : option error :=
  let contract := Some ErrStartupContract in
  return contract when negb (String.eqb (ToLower (TrimSpace (so_Profile o))) "production") ;;
  return contract when
      negb (ValidIdentity (so_ClusterID o)) || isNilStartupDependency (so_Durable o)
      || isNilStartupDependency (so_Consensus o) || isNilStartupDependency (so_Fencer o) ;;
  return contract when negb (String.eqb (s_ClusterID machine) (so_ClusterID o)) ;;
  return contract when
      match so_Durable o, so_Consensus o with
      | Present d, Present c => negb (String.eqb (db_backend d) "postgresql") || negb (String.eqb (cb_backend c) "native-raft")
      | _, _ => true
      end ;;
  match match so_InitialState o with
        | Some r =>
            match validateInitialStateRequest r (so_ClusterID o) with
            | Some e => Some (Wraps ErrStartupInitialState e)
            | None => return Some ErrStartupInitialState when is_absent (so_InitialAuthorizer o) ;; None
            end
        | None => None
        end with
  | Some e => Some e
  | None =>
      return contract when negb (is_absent (so_InitialAuthorizer o)) && isNilStartupDependency (so_InitialAuthorizer o) ;;
      return contract when negb (is_absent (so_LeadershipCheckpoint o)) && isNilStartupDependency (so_LeadershipCheckpoint o) ;;
      None
  end.

(** ** Steps that may stop the start *)

Record Stop := { st_stage : StartupStage; st_error : error; st_reason : string; st_cause : option error }.

Definition B (A : Type) : Type := M (result Stop A).

Definition stop {A} (stage : StartupStage) (sentinel : error) (reason : string) (cause : option error) : B A :=
  ret (Err {| st_stage := stage; st_error := sentinel; st_reason := reason; st_cause := cause |}).

Definition step {A C} (x : B A) (k : A -> B C) : B C :=
  bind x (fun r => match r with Ok a => k a | Err s => ret (Err s) end).

Definition lift {A} (x : M A) : B A := bind x (fun a => ret (Ok a)).

Notation "x <~ a ;; k" := (step a (fun x => k)) (at level 20, a at level 99, k at level 200) : coord_scope.

(** Go on unless the call reports an error. *)
Definition must (x : M (option error)) (stage : StartupStage) (sentinel : error) (reason : string) : B unit :=
  e <- x ;;
  match e with Some e => stop stage sentinel reason (Some e) | None => ret (Ok tt) end.

Definition demand (b : bool) (stage : StartupStage) (sentinel : error) (reason : string) : B unit :=
  if b then ret (Ok tt) else stop stage sentinel reason None.

Definition accept {A} (r : result error A) (stage : StartupStage) (sentinel : error) (reason : string) : B A :=
  match r with Ok a => ret (Ok a) | Err e => stop stage sentinel reason (Some e) end.

(** A check of values. *)
Definition check (e : option error) (stage : StartupStage) (sentinel : error) (reason : string) : B unit :=
  must (ret e) stage sentinel reason.

Section Bootstrap.
Context (env : Env).

Definition alive (stage : StartupStage) (sentinel : error) (reason : string) : B unit :=
  must (ctx_Err env) stage sentinel reason.

Definition ask {A} (answer : list Event -> A) (ev : A -> StartupCall) : M A := call answer (fun a => EvStartup (ev a)).

(** A snapshot of a store, or an empty one when the store has none. *)
Definition or_empty (clusterID : string) (r : result error State) : result error (State * bool) :=
  match r with
  | Ok s => Ok (s, false)
  | Err e => if Is e ErrStateNotFound then Ok (emptyStartupState clusterID, true) else Err e
  end.

Definition load_durable (d : DurableBootstrap) (clusterID : string) : B (State * bool) :=
  _ <~ must (ask (db_prepare d) PreparedDurable) StageDurable ErrStartupDurable "durable prepare failed" ;;
  _ <~ must (ask (db_health d) HealthyDurable) StageDurable ErrStartupDurable "durable health check failed" ;;
  _ <~ alive StageDurable ErrStartupDurable "startup context canceled before durable snapshot" ;;
  r <~ lift (durable_LoadState env clusterID) ;;
  x <~ accept (or_empty clusterID r) StageDurable ErrStartupDurable "durable snapshot load failed" ;;
  _ <~ demand (String.eqb (s_ClusterID (fst x)) clusterID) StageSnapshot ErrStartupDiverged
         "durable snapshot cluster binding mismatch" ;;
  _ <~ alive StageDurable ErrStartupDurable "startup context canceled after durable state" ;;
  ret (Ok x).

(** The snapshot of consensus, and the machine that it is installed upon. *)
Definition load_consensus (c : ConsensusBootstrap) (clusterID : string) : B (State * bool * State) :=
  _ <~ must (ask (cb_prepare c) PreparedConsensus) StageConsensus ErrStartupConsensus "consensus prepare failed" ;;
  _ <~ must (ask (cb_health c) HealthyConsensus) StageConsensus ErrStartupConsensus "consensus health check failed" ;;
  _ <~ lift (machine_FreezeWrites env "control-plane startup incomplete") ;;
  base <~ lift (machine_Snapshot env) ;;
  _ <~ alive StageConsensus ErrStartupConsensus "startup context canceled before consensus snapshot" ;;
  r <~ lift (consensus_Current env clusterID) ;;
  x <~ accept (or_empty clusterID r) StageConsensus ErrStartupConsensus "consensus snapshot load failed" ;;
  _ <~ demand (String.eqb (s_ClusterID (fst x)) clusterID) StageSnapshot ErrStartupDiverged
         "consensus snapshot cluster binding mismatch" ;;
  ret (Ok (x, base)).

(** [authorizeInitialState] *)
Definition authorizeInitialState (o : StartupOptions) (r : InitialStateRequest) : M (option error) :=
  match so_InitialAuthorizer o with
  | Present f => ask (fun h => f h r) (Authorized r)
  | _ => ret None
  end.

Definition asked_commit (c : ConsensusBootstrap) (clusterID : string) : option (M (result error Commit)) :=
  match cb_commit c with Some f => Some (ask (fun h => f h clusterID) AskedCommit) | None => None end.

(** [exactInitialConsensusCommit] *)
Definition exactInitialConsensusCommit (c : ConsensusBootstrap) (clusterID : string) (r : InitialStateRequest) (current : State)
  : M (result error Commit) :=
  match asked_commit c clusterID with
  | None => ret (Err (Foreign "consensus cannot provide the exact initial commit"))
  | Some query =>
      x <- query ;;
      ret (match x with
           | Err e => Err e
           | Ok commit => match exact_initial clusterID r current commit with Some e => Err e | None => Ok commit end
           end)
  end.

(** The initial state survives in consensus only. *)
Definition recover_durable_initial (o : StartupOptions) (c : ConsensusBootstrap) (r : InitialStateRequest)
  (durable consensus : State) (durableMissing : bool) : B State :=
  _ <~ demand (durableMissing || isEmptyInitialState durable) StageSnapshot ErrStartupDiverged
         "empty durable recovery baseline is invalid" ;;
  _ <~ demand (negb (is_absent (so_InitialAuthorizer o))) StageSnapshot ErrStartupInitialState
         "single-side initial-state recovery requires an external administrator authorizer" ;;
  _ <~ must (authorizeInitialState o r) StageSnapshot ErrStartupInitialState
         "administrator did not authorize initial-state recovery" ;;
  x <~ lift (exactInitialConsensusCommit c (so_ClusterID o) r consensus) ;;
  commit <~ accept x StageSnapshot ErrStartupDiverged "consensus initial commit recovery is not exact" ;;
  _ <~ must (durable_AppendCommit env commit) StageDurable ErrStartupDurable
         "initial desired state durable recovery failed" ;;
  ret (Ok (c_State commit)).

(** The initial state survives in the durable store only. *)
Definition recover_consensus_initial (o : StartupOptions) (r : InitialStateRequest) (consensus : State) (consensusMissing : bool)
  : B State :=
  _ <~ demand (negb (consensusMissing || String.eqb (s_LeaderID consensus) "" || (s_Term consensus =? 0)
                     || (s_Epoch consensus =? 0) || s_WriteFrozen consensus)) StageSnapshot ErrStartupDiverged
         "consensus recovery requires an active leader-only baseline" ;;
  _ <~ demand (negb (is_absent (so_InitialAuthorizer o))) StageSnapshot ErrStartupInitialState
         "single-side initial-state recovery requires an external administrator authorizer" ;;
  _ <~ must (authorizeInitialState o r) StageSnapshot ErrStartupInitialState
         "administrator did not authorize initial-state recovery" ;;
  now <~ lift (wall_clock env) ;;
  commit <~ accept (startupCommitForLeadership (so_ClusterID o) consensus r now) StageSnapshot ErrStartupInitialState
              "initial desired state recovery proposal failed" ;;
  _ <~ must (consensus_Propose env commit) StageConsensus ErrStartupConsensus
         "initial desired state consensus recovery failed" ;;
  ret (Ok (c_State commit)).

(** The recovery of an initial state that one store lost. *)
Definition recover_initial (o : StartupOptions) (c : ConsensusBootstrap) (durable consensus : State)
  (durableMissing consensusMissing : bool) : B (State * State) :=
  match so_InitialState o with
  | None => ret (Ok (durable, consensus))
  | Some request =>
      let r := with_digest request in
      if startupInitialStateMatches consensus r && startupPayloadEmpty durable
      then durable' <~ recover_durable_initial o c r durable consensus durableMissing ;; ret (Ok (durable', consensus))
      else if startupInitialStateMatches durable r && startupPayloadEmpty consensus
      then consensus' <~ recover_consensus_initial o r consensus consensusMissing ;; ret (Ok (durable, consensus'))
      else ret (Ok (durable, consensus))
  end.

(** The commit after a crash between the two stores. *)
Definition recover_ahead (o : StartupOptions) (c : ConsensusBootstrap) (durable consensus : State) : B State :=
  if (0 <? s_Revision durable) && (s_Revision consensus =? u64 (s_Revision durable + 1))
  then
    match asked_commit c (so_ClusterID o) with
    | None => stop StageSnapshot ErrStartupDiverged "consensus is ahead but cannot provide the exact commit" None
    | Some query =>
        x <~ lift query ;;
        commit <~ accept x StageSnapshot ErrStartupDiverged "consensus-ahead exact commit lookup failed" ;;
        _ <~ check (validateConsensusAheadRecovery durable consensus commit) StageSnapshot ErrStartupDiverged
               "consensus-ahead exact commit validation failed" ;;
        _ <~ must (durable_AppendCommit env commit) StageDurable ErrStartupDurable
               "consensus-ahead durable recovery failed" ;;
        ret (Ok (c_State commit))
    end
  else ret (Ok durable).

(** The first state of an empty cluster. *)
Definition import_initial (o : StartupOptions) (durable consensus : State) (durableMissing consensusMissing : bool) : B State :=
  match so_InitialState o with
  | None => stop StageFencing (Wraps ErrStartupFencing ErrStartupInitialState)
              "both durable and consensus snapshots are empty; protected initial state and administrator confirmation are required" None
  | Some request =>
      _ <~ demand (durableMissing || isEmptyInitialState durable) StageSnapshot ErrStartupInitialState
             "initial state import is only valid for an empty durable snapshot" ;;
      _ <~ demand (consensusMissing || isEmptyInitialState consensus || (s_Revision consensus =? 0)) StageSnapshot
             ErrStartupInitialState "initial state import is only valid for an empty consensus snapshot" ;;
      _ <~ demand (negb (String.eqb (s_LeaderID consensus) "" || (s_Term consensus =? 0) || (s_Epoch consensus =? 0)
                         || s_WriteFrozen consensus)) StageSnapshot ErrStartupInitialState
             "initial state requires an established native-raft leader checkpoint" ;;
      _ <~ must (authorizeInitialState o request) StageSnapshot ErrStartupInitialState
             "administrator did not authorize initial state" ;;
      now <~ lift (wall_clock env) ;;
      commit <~ accept (startupCommitForLeadership (so_ClusterID o) consensus request now) StageSnapshot
                  ErrStartupInitialState "initial desired state proposal failed" ;;
      _ <~ must (consensus_Propose env commit) StageConsensus ErrStartupConsensus
             "initial desired state consensus persistence failed" ;;
      _ <~ must (durable_AppendCommit env commit) StageDurable ErrStartupDurable
             "initial desired state durable persistence failed" ;;
      ret (Ok (c_State commit))
  end.

(** The same payload under a newer leadership. *)
Definition checkpoint_leadership (o : StartupOptions) (durable consensus : State) : B State :=
  match so_LeadershipCheckpoint o with
  | Present f =>
      if startupPayloadEquivalent durable consensus
      then
        x <~ lift (ask (fun h => f h durable consensus) (Checkpointed durable consensus)) ;;
        next <~ accept x StageSnapshot ErrStartupDiverged "leadership checkpoint failed" ;;
        _ <~ check (validateLeadershipCheckpoint durable next) StageSnapshot ErrStartupDiverged
               "leadership checkpoint validation failed" ;;
        _ <~ demand (startupPayloadEquivalent durable next && startupLeadershipEquivalent next consensus) StageSnapshot
               ErrStartupDiverged "leadership checkpoint changed desired payload or leadership unexpectedly" ;;
        match e_checkpoint env with
        | Some store =>
            _ <~ must (durable_CheckpointLeadership store next) StageDurable ErrStartupDurable
                   "durable leadership checkpoint failed" ;;
            ret (Ok next)
        | None => stop StageSnapshot (Wraps ErrStartupDiverged ErrStartupCheckpoint)
                    "durable store cannot persist leadership checkpoint" None
        end
      else stop StageSnapshot ErrStartupDiverged "durable and consensus snapshots differ" None
  | _ => stop StageSnapshot ErrStartupDiverged "durable and consensus snapshots differ" None
  end.

(** Both stores hold one state. *)
Definition converge (o : StartupOptions) (durable consensus : State) (durableMissing consensusMissing : bool) : B State :=
  if startupPayloadEmpty durable && startupPayloadEmpty consensus
  then import_initial o durable consensus durableMissing consensusMissing
  else if startupStatesEquivalent durable consensus then ret (Ok durable)
  else checkpoint_leadership o durable consensus.

(** A fresh machine accepts the snapshot. *)
Definition candidate_loads (clusterID : string) (now : Time) (s : State) : option (string * error) :=
  match NewStateMachine clusterID now with
  | Err e => Some ("candidate state machine creation failed", e)
  | Ok m => match snd (LoadSnapshot m now s) with
            | Some e => Some ("snapshot validation failed", e)
            | None => None
            end
  end.

Definition still_current (latest s : State) : bool :=
  String.eqb (s_ClusterID latest) (s_ClusterID s) && (s_Term latest =? s_Term s)
  && String.eqb (s_LeaderID latest) (s_LeaderID s) && (s_Epoch latest =? s_Epoch s)
  && (s_Revision latest =? s_Revision s) && String.eqb (d_Digest (s_Desired latest)) (d_Digest (s_Desired s))
  && startupStatesEquivalent latest s.

Definition establish_fence (fencer : list Event -> State -> result error FenceToken) (clusterID : string) (s : State) : B FenceToken :=
  x <~ lift (ask (fun h => fencer h s) (Established s)) ;;
  fence <~ accept x StageFencing ErrStartupFencing "fencing establishment failed" ;;
  _ <~ check (validateStartupFence s fence) StageFencing ErrStartupFencing "fencing token does not bind to snapshot" ;;
  _ <~ alive StageFencing ErrStartupFencing "startup context canceled after fencing" ;;
  r <~ lift (consensus_Current env clusterID) ;;
  latest <~ accept r StageFencing ErrStartupFencing "consensus changed check failed" ;;
  _ <~ demand (still_current latest s) StageFencing ErrStartupFencing "leader or epoch changed after fencing" ;;
  ret (Ok fence).

(** The guards on the converged state. *)
Definition accept_snapshot (clusterID : string) (previous base s : State) : B unit :=
  _ <~ alive StageConsensus ErrStartupConsensus "startup context canceled after consensus state" ;;
  _ <~ demand (negb (startupSnapshotRegresses previous s || startupSnapshotRegresses base s)) StageSnapshot
         ErrStartupDiverged "startup snapshot regresses the local last-known-good state" ;;
  now <~ lift (wall_clock env) ;;
  _ <~ match candidate_loads clusterID now s with
       | Some (reason, e) => stop StageSnapshot ErrStartupDiverged reason (Some e)
       | None => ret (Ok tt)
       end ;;
  alive StageFencing ErrStartupFencing "startup context canceled before fencing".

Definition install (base s : State) (fence : FenceToken) : B unit :=
  _ <~ must (machine_LoadSnapshotIfCurrent env base s) StageSnapshot ErrStartupDiverged "snapshot installation failed" ;;
  must (machine_ResumeWrites env fence) StageFencing ErrStartupFencing "startup resume authority failed".

(** Everything after the contract. *)
Definition boot (o : StartupOptions) (d : DurableBootstrap) (c : ConsensusBootstrap)
  (fencer : list Event -> State -> result error FenceToken) (previous : State) : B (State * FenceToken) :=
  let clusterID := so_ClusterID o in
  x <~ load_durable d clusterID ;;
  let '(durable, durableMissing) := x in
  y <~ load_consensus c clusterID ;;
  let '(consensus, consensusMissing, base) := y in
  z <~ recover_initial o c durable consensus durableMissing consensusMissing ;;
  let '(durable, consensus) := z in
  durable <~ recover_ahead o c durable consensus ;;
  state <~ converge o durable consensus durableMissing consensusMissing ;;
  _ <~ accept_snapshot clusterID previous base state ;;
  fence <~ establish_fence fencer clusterID state ;;
  _ <~ install base state fence ;;
  ret (Ok (state, fence)).

Definition FailClosed (reason : string) (stage : StartupStage) : M StartupResult :=
  do machine_FreezeWrites env reason ;;
  s <- machine_Snapshot env ;;
  ret {| sr_Stage := stage; sr_Ready := false; sr_State := s; sr_LastKnownGood := s; sr_Fence := None |}.

(** The text of an error. *)
Context (err_text : error -> string).

(** The closure [fail]. *)
Definition fail_start (s : Stop) : M (StartupResult * option error) :=
  do machine_Snapshot env ;;
  let reason := TrimSpace (st_reason s) in
  let reason := match st_cause s with Some e => (reason ++ ": " ++ err_text e)%string | None => reason end in
  result <- FailClosed reason (st_stage s) ;;
  ret (result, Some (Wraps (st_error s) (match st_cause s with Some e => e | None => Foreign (st_reason s) end))).

Definition Bootstrap (o : StartupOptions) : M (StartupResult * option error) :=
  s <- machine_Snapshot env ;;
  match ValidateStartupOptions o s, so_Durable o, so_Consensus o, so_Fencer o with
  | None, Present d, Present c, Present fencer =>
      e <- ctx_Err env ;;
      match e with
      | Some e =>
          result <- FailClosed "control-plane startup context canceled" StageContract ;;
          ret (result, Some (Wraps ErrStartupContract e))
      | None =>
          previous <- machine_Snapshot env ;;
          do machine_FreezeWrites env "control-plane startup incomplete" ;;
          do machine_Snapshot env ;;
          r <- boot o d c fencer previous ;;
          match r with
          | Err s => fail_start s
          | Ok (_, fence) =>
              do reset_stages ;;
              s1 <- machine_Snapshot env ;;
              s2 <- machine_Snapshot env ;;
              ret ({| sr_Stage := StageReady; sr_Ready := true; sr_State := s1; sr_LastKnownGood := s2;
                      sr_Fence := Some fence |}, None)
          end
      end
  | r, _, _, _ =>
      let e := default ErrStartupContract r in
      if EqualFold (TrimSpace (so_Profile o)) "production"
      then result <- FailClosed "control-plane startup contract rejected" StageContract ;; ret (result, Some e)
      else ret ({| sr_Stage := StageContract; sr_Ready := false; sr_State := zero_state; sr_LastKnownGood := zero_state;
                   sr_Fence := None |}, Some e)
  end.

End Bootstrap.
