(* ===== verification/StartupSafety.v ===== *)
(** * Safety of the start

    What the history of a start satisfies whatever its dependencies answer:
    a start that reports ready has seen both stores at the state it serves, the
    first state of a cluster is written only with the administrator's approval,
    and a start that fails ends with the writes frozen. *)

From S2P Require Import Prelude GoText Sha256 JsonValid ControlState ControlFacts ControlSafety Coordinator CoordinatorSafety Startup.

Open Scope list_scope.
Open Scope Z_scope.

(** ** Histories of a start *)

Section Lawful.
Context (o : StartupOptions).

(** An administrator approved the configured request that the commit carries out. *)
Definition approved (c : Commit) (h : list Event) : Prop :=
  exists q q', so_InitialState o = Some q' /\ (q = q' \/ q = with_digest q')
    /\ EvStartup (Authorized q None) ∈ h /\ initialRequestMatchesCommit q c = true.

(** Proposals are approved; appended commits are those of consensus, and
    approved when they are the first. *)
Fixpoint lawful (h : list Event) : Prop :=
  match h with
  | [] => True
  | EvPropose c _ :: h => approved c h /\ lawful h
  | EvAppend c _ :: h =>
      (EvPropose c None ∈ h \/ EvStartup (AskedCommit (Ok c)) ∈ h)
      /\ (s_Revision (c_State c) = 1 -> approved c h) /\ lawful h
  | _ :: h => lawful h
  end.

(** Events that are no writes. *)
Definition is_write (e : Event) : bool :=
  match e with EvPropose _ _ | EvAppend _ _ => true | _ => false end.

Lemma lawful_cons e h : is_write e = false -> lawful h -> lawful (e :: h).
Proof. by destruct e. Qed.

(** ** Triples of the steps *)

Definition kn (F : list Event -> Prop) (w : World) : Prop := lawful (w_hist w) /\ F (w_hist w).

Definition tb {A} (F : list Event -> Prop) (x : B A) (G : A -> list Event -> Prop) : Prop :=
  triple (kn F) x (fun r w => lawful (w_hist w) /\ match r with Ok a => G a (w_hist w) | Err _ => True end).

Lemma tb_ret {A} (a : A) F (G : A -> list Event -> Prop) : (forall h, F h -> G a h) -> tb F (ret (Ok a)) G.
Proof. intros H w [Hl Hf]. split; [done|by apply H]. Qed.

Lemma tb_stop {A} stage e reason cause F (G : A -> list Event -> Prop) : tb F (stop stage e reason cause) G.
Proof. by intros w [Hl Hf]. Qed.

Lemma tb_step {A C} (x : B A) (k : A -> B C) F R G : tb F x R -> (forall a, tb (R a) (k a) G) -> tb F (step x k) G.
Proof.
  intros Hx Hk. eapply t_bind; [exact Hx|]. intros [a|s].
  - eapply t_pre; [apply Hk|]. by intros w.
  - apply t_ret. by intros w [Hl _].
Qed.

Lemma tb_pre {A} (x : B A) F F' G : tb F' x G -> (forall h, F h -> F' h) -> tb F x G.
Proof. intros H HF. eapply t_pre; [exact H|]. intros w [Hl Hf]. split; auto. Qed.

Lemma tb_post {A} (x : B A) F G G' : tb F x G' -> (forall a h, G' a h -> G a h) -> tb F x G.
Proof.
  intros H HG. eapply t_conseq; [exact H|done|]. intros [a|s] w [Hl Hg]; split; auto.
Qed.

Lemma t_quiet_event {A} (answer : list Event -> A) ev F : (forall a, is_write (ev a) = false) -> stable F ->
  triple (kn F) (call answer ev) (fun a w => kn F w /\ ev a ∈ w_hist w).
Proof.
  intros He HF w [Hl Hf]. unfold call, kn. simpl. split_and!; [by apply lawful_cons|by apply HF|by left].
Qed.

Lemma t_quiet_access {A} env (f : StateMachine -> Time -> StateMachine * A) ev F :
  (forall t a, is_write (ev t a) = false) -> stable F ->
  triple (kn F) (on_machine env f ev) (fun a w => kn F w /\ exists t, ev t a ∈ w_hist w).
Proof.
  intros He HF w [Hl Hf]. unfold on_machine. destruct (f _ _) as [m a]. unfold kn. simpl.
  split_and!; [by apply lawful_cons|by apply HF|]. eexists. by left.
Qed.

Lemma tb_lift {A} (x : M A) F (G : A -> list Event -> Prop) :
  triple (kn F) x (fun a w => kn F w /\ G a (w_hist w)) -> tb F (lift x) (fun a h => F h /\ G a h).
Proof.
  intros H. eapply t_bind; [exact H|]. intros a. apply t_ret. intros w [[Hl Hf] Hg]. auto.
Qed.

Lemma tb_must (x : M (option error)) stage e reason F (G : option error -> list Event -> Prop) :
  triple (kn F) x (fun r w => kn F w /\ G r (w_hist w)) -> tb F (must x stage e reason) (fun _ h => F h /\ G None h).
Proof.
  intros H. eapply t_bind; [exact H|]. intros [r|].
  - intros w [[Hl _] _]. done.
  - apply t_ret. intros w [[Hl Hf] Hg]. auto.
Qed.

Lemma tb_demand b stage e reason F : tb F (demand b stage e reason) (fun _ h => F h /\ b = true).
Proof. unfold demand. destruct b; [by apply tb_ret|apply tb_stop]. Qed.

Lemma tb_accept {A} (r : result error A) stage e reason F : tb F (accept r stage e reason) (fun a h => F h /\ r = Ok a).
Proof. unfold accept. destruct r; [by apply tb_ret|apply tb_stop]. Qed.

Lemma tb_check r stage e reason F : tb F (check r stage e reason) (fun _ h => F h /\ r = None).
Proof. intros w [Hl Hf]. unfold check, must, bind, ret. destruct r; simpl; auto. Qed.

(** ** Facts of a history that later events keep *)

Lemma stable_elem e : stable (fun h => e ∈ h).
Proof. intros e' h H. by right. Qed.

Lemma stable_or F G : stable F -> stable G -> stable (fun h => F h \/ G h).
Proof. intros HF HG e h [?|?]; [left; by apply HF|right; by apply HG]. Qed.

Lemma stable_ex {A} (F : A -> list Event -> Prop) : (forall a, stable (F a)) -> stable (fun h => exists a, F a h).
Proof. intros HF e h [a H]. exists a. by apply HF. Qed.

Lemma stable_imp (P : Prop) F : stable F -> stable (fun h => P -> F h).
Proof. intros HF e h H HP. by apply HF, H. Qed.

Lemma stable_pure (P : Prop) : stable (fun _ => P).
Proof. by intros e h. Qed.

Lemma stable_approved c : stable (approved c).
Proof. intros e h (q & q' & ? & ? & H & ?). exists q, q'. split_and!; try done. by right. Qed.

Ltac stab :=
  repeat first [assumption | apply stable_approved | apply stable_elem | apply stable_and | apply stable_or
               | apply stable_imp | apply stable_ex; intros ? | apply stable_pure].

(** ** Writes *)

Section Steps.
Context (env : Env).

Lemma t_write_Propose c F : stable F -> (forall h, F h -> approved c h) ->
  triple (kn F) (consensus_Propose env c) (fun r w => kn F w /\ EvPropose c r ∈ w_hist w).
Proof.
  intros HF Ha w [Hl Hf]. unfold consensus_Propose, call, kn. simpl. split_and!; [by apply Ha|done|by apply HF|by left].
Qed.

Lemma t_write_Append c F : stable F ->
  (forall h, F h -> (EvPropose c None ∈ h \/ EvStartup (AskedCommit (Ok c)) ∈ h) /\ (s_Revision (c_State c) = 1 -> approved c h)) ->
  triple (kn F) (durable_AppendCommit env c) (fun r w => kn F w /\ EvAppend c r ∈ w_hist w).
Proof.
  intros HF Ha w [Hl Hf]. destruct (Ha _ Hf) as [H1 H2]. unfold durable_AppendCommit, call, kn. simpl.
  split_and!; [done|done|done|by apply HF|by left].
Qed.

Lemma tb_alive stage e reason F : stable F -> tb F (alive env stage e reason) (fun _ => F).
Proof.
  intros HF. unfold alive. eapply tb_post; [apply (tb_must _ _ _ _ _ (fun r h => EvCtx r ∈ h))|by intros ? ? [? _]].
  by apply t_quiet_event.
Qed.

Lemma tb_ask_must (answer : list Event -> option error) ev stage e reason F : stable F ->
  tb F (must (ask answer ev) stage e reason) (fun _ h => F h /\ EvStartup (ev None) ∈ h).
Proof. intros HF. apply (tb_must _ _ _ _ _ (fun r h => EvStartup (ev r) ∈ h)). by apply t_quiet_event. Qed.

Lemma tb_ask_lift {A} (answer : list Event -> A) ev F : stable F ->
  tb F (lift (ask answer ev)) (fun a h => F h /\ EvStartup (ev a) ∈ h).
Proof. intros HF. apply (tb_lift _ _ (fun a h => EvStartup (ev a) ∈ h)). by apply t_quiet_event. Qed.

Lemma tb_access {A} (f : StateMachine -> Time -> StateMachine * A) ev F :
  (forall t a, is_write (ev t a) = false) -> stable F ->
  tb F (lift (on_machine env f ev)) (fun a h => F h /\ exists t, ev t a ∈ h).
Proof. intros He HF. apply (tb_lift _ _ (fun a h => exists t, ev t a ∈ h)). by apply t_quiet_access. Qed.

Lemma tb_current id F : stable F -> tb F (lift (consensus_Current env id)) (fun r h => F h /\ EvCurrent r ∈ h).
Proof. intros HF. apply (tb_lift _ _ (fun r h => EvCurrent r ∈ h)). by apply t_quiet_event. Qed.

Lemma tb_clock F : tb F (lift (wall_clock env)) (fun _ => F).
Proof. by intros w [Hl Hf]. Qed.

Lemma tb_propose c stage e reason F : stable F -> (forall h, F h -> approved c h) ->
  tb F (must (consensus_Propose env c) stage e reason) (fun _ h => F h /\ EvPropose c None ∈ h).
Proof. intros HF Ha. apply (tb_must _ _ _ _ _ (fun r h => EvPropose c r ∈ h)). by apply t_write_Propose. Qed.

Lemma tb_append c stage e reason F : stable F ->
  (forall h, F h -> (EvPropose c None ∈ h \/ EvStartup (AskedCommit (Ok c)) ∈ h) /\ (s_Revision (c_State c) = 1 -> approved c h)) ->
  tb F (must (durable_AppendCommit env c) stage e reason) (fun _ h => F h /\ EvAppend c None ∈ h).
Proof. intros HF Ha. apply (tb_must _ _ _ _ _ (fun r h => EvAppend c r ∈ h)). by apply t_write_Append. Qed.

(** ** The steps of the start *)

(** The durable store holds the state. *)
Definition held (s : State) (h : list Event) : Prop :=
  EvLoad (Ok s) ∈ h \/ (exists c, c_State c = s /\ EvAppend c None ∈ h) \/ EvCheckpoint s None ∈ h.

Lemma stable_held s : stable (held s).
Proof. unfold held. stab. Qed.

(** It holds the state, or has none. *)
Definition held_or_empty (s : State) (h : list Event) : Prop :=
  held s h \/ s = emptyStartupState (s_ClusterID s).

Lemma stable_held_or_empty s : stable (held_or_empty s).
Proof. unfold held_or_empty, held. stab. Qed.

Context (typed_loads : forall h id s, e_load env h id = Ok s -> is_u64 (s_Revision s)).

Definition durable_state (s : State) (h : list Event) : Prop := held_or_empty s h /\ is_u64 (s_Revision s).

Lemma stable_durable_state s : stable (durable_state s).
Proof. unfold durable_state, held_or_empty, held. stab. Qed.

Lemma tb_load id F : stable F ->
  tb F (lift (durable_LoadState env id))
    (fun r h => F h /\ (EvLoad r ∈ h /\ forall s, r = Ok s -> is_u64 (s_Revision s))).
Proof.
  intros HF. apply (tb_lift _ _ (fun r h => EvLoad r ∈ h /\ forall s, r = Ok s -> is_u64 (s_Revision s))).
  intros w Hw. destruct (t_quiet_event (fun h => e_load env h id) EvLoad F (fun _ => eq_refl) HF w Hw) as [H1 H2].
  split_and!; [exact H1|exact H2|]. intros s E. exact (typed_loads (w_hist w) id s E).
Qed.

(** One step; the facts of the past are kept. *)
Ltac next tac := eapply tb_step; [tac; stab|]; let u := fresh "u" in intros u; cbv beta.

Lemma tb_load_durable d id F : stable F ->
  tb F (load_durable env d id) (fun x h => F h /\ (durable_state (fst x) h /\ s_ClusterID (fst x) = id)).
Proof.
  intros HF. unfold load_durable.
  next ltac:(apply tb_ask_must). next ltac:(apply tb_ask_must). next ltac:(apply tb_alive). next ltac:(apply tb_load).
  next ltac:(apply tb_accept). next ltac:(apply tb_demand). next ltac:(apply tb_alive).
  apply tb_ret. intros h H. destruct H as [[[[[Hf _] _] [Hl Hty]] Eu] Eid].
  apply String.eqb_eq in Eid. split; [done|]. split; [|done].
  destruct u2 as [s|e]; simpl in Eu.
  - injection Eu as <-. simpl. split; [by left; left|by apply Hty].
  - destruct (Is e ErrStateNotFound); [|done]. injection Eu as <-. simpl. split; [by right|done].
Qed.
Lemma tb_load_consensus c id F : stable F -> tb F (load_consensus env c id) (fun _ => F).
Proof.
  intros HF. unfold load_consensus.
  next ltac:(apply tb_ask_must). next ltac:(apply tb_ask_must). next ltac:(apply tb_access; [intros ? ?; reflexivity|]).
  next ltac:(apply tb_access; [intros ? ?; reflexivity|]). next ltac:(apply tb_alive). next ltac:(apply tb_current).
  next ltac:(apply tb_accept). next ltac:(apply tb_demand). apply tb_ret. tauto.
Qed.

(** The contract: an initial state comes with an administrator. *)
Context (authorized : forall q, so_InitialState o = Some q -> exists f, so_InitialAuthorizer o = Present f).

Lemma tb_authorize q r stage e reason F : so_InitialState o = Some q -> stable F ->
  tb F (must (authorizeInitialState o r) stage e reason) (fun _ h => F h /\ EvStartup (Authorized r None) ∈ h).
Proof.
  intros Hq HF. destruct (authorized q Hq) as [f E]. unfold authorizeInitialState. rewrite E. by apply tb_ask_must.
Qed.

Lemma initial_commit_matches id s r now c : startupCommitForLeadership id s r now = Ok c ->
  initialRequestMatchesCommit r c = true /\ is_u64 (s_Revision (c_State c)).
Proof.
  unfold startupCommitForLeadership, NewInitialCommit, startupCommitFromState. destruct (s_WriteFrozen s); [done|].
  destruct (validateInitialStateRequest r id); [done|]. intros H. branch H. injection H as <-. split; [|done].
  unfold initialRequestMatchesCommit. simpl. unfold rev_at. by rewrite !String.eqb_refl, lookup_singleton_eq.
Qed.

Lemma recover_initial_spec c durable consensus dm cm F : stable F -> (forall h, F h -> durable_state durable h) ->
  tb F (recover_initial env o c durable consensus dm cm) (fun x h => F h /\ durable_state (fst x) h).
Proof.
  intros HF Hd. unfold recover_initial. case_eq (so_InitialState o); [intros q Eq|intros _; apply tb_ret; auto].
  cbv zeta. set (r := with_digest q).
  destruct (startupInitialStateMatches consensus r && startupPayloadEmpty durable).
  - eapply tb_step with (R := fun s h => F h /\ durable_state s h); [|intros s; apply tb_ret; auto].
    unfold recover_durable_initial.
    next ltac:(apply tb_demand). next ltac:(apply tb_demand). next ltac:(eapply tb_authorize; [exact Eq|]).
    unfold exactInitialConsensusCommit, asked_commit.
    eapply tb_step with (R := fun x h => (F h /\ EvStartup (Authorized r None) ∈ h)
      /\ forall commit, x = Ok commit -> EvStartup (AskedCommit (Ok commit)) ∈ h
                       /\ exact_initial (so_ClusterID o) r consensus commit = None).
    { destruct (cb_commit c) as [f|].
      - unfold lift. intros w [Hl Hf]. unfold bind, ask, call, ret. simpl. split; [done|].
        split; [split; [apply HF; tauto|right; tauto]|]. intros commit. destruct (f (w_hist w) (so_ClusterID o)) as [c0|]; [|done].
        destruct (exact_initial _ _ _ _) eqn:Ee; [done|]. intros [= <-]. split; [by left|done].
      - unfold lift. intros w [Hl Hf]. split; [done|]. simpl. split; [tauto|done]. }
    intros x. next ltac:(apply tb_accept).
    eapply tb_pre with (F' := fun h => F h /\ EvStartup (Authorized r None) ∈ h
      /\ EvStartup (AskedCommit (Ok u2)) ∈ h /\ exact_initial (so_ClusterID o) r consensus u2 = None); cbv beta.
    2: { intros h [[[Hf Ha] Hx] ->]. destruct (Hx _ eq_refl). auto. }
    assert (Hm : exact_initial (so_ClusterID o) r consensus u2 = None ->
      initialRequestMatchesCommit r u2 = true /\ s_Revision (c_State u2) = 1).
    { unfold exact_initial. intros H. apply guard_None in H as [H _]. props. split; [done|].
      match goal with G : startupInitialStateMatches _ _ = true |- _ => unfold startupInitialStateMatches in G; props end. done. }
    eapply tb_step.
    + apply tb_append; [stab|]. intros h (Hf & Ha & Hc & He). split; [by right|]. intros _.
      exists r, q. split_and!; [done|by right|done|by apply Hm].
    + intros ?. apply tb_ret. intros h [(Hf & Ha & Hc & He) Happ]. split; [done|]. destruct (Hm He) as [_ Hr].
      split; [left; right; left; by exists u2|]. rewrite Hr. done.
  - destruct (startupInitialStateMatches durable r && startupPayloadEmpty consensus); [|apply tb_ret; auto].
    eapply tb_step with (R := fun _ => F); [|intros s; apply tb_ret; auto].
    unfold recover_consensus_initial.
    next ltac:(apply tb_demand). next ltac:(apply tb_demand). next ltac:(eapply tb_authorize; [exact Eq|]).
    next ltac:(apply tb_clock). next ltac:(apply tb_accept).
    eapply tb_step; [apply tb_propose; [stab|]|].
    + intros h [[[[Hf _] _] Ha] Ec]. exists r, q. split_and!; [done|by right|done|by apply (initial_commit_matches _ _ _ _ _ Ec)].
    + intros ?. apply tb_ret. tauto.
Qed.
Lemma recover_ahead_spec c durable consensus F : stable F -> (forall h, F h -> durable_state durable h) ->
  tb F (recover_ahead env o c durable consensus) (fun s h => F h /\ durable_state s h).
Proof.
  intros HF Hd. unfold recover_ahead. destruct (_ && _) eqn:Er; [|apply tb_ret; auto]. props.
  unfold asked_commit. destruct (cb_commit c) as [f|]; [|apply tb_stop].
  next ltac:(apply tb_ask_lift). next ltac:(apply tb_accept). next ltac:(apply tb_check).
  assert (Hv : forall h, F h -> validateConsensusAheadRecovery durable consensus u0 = None ->
    s_Revision (c_State u0) <> 1 /\ is_u64 (s_Revision (c_State u0))).
  { intros h Hf Hv. destruct (Hd h Hf) as [_ Hu]. unfold validateConsensusAheadRecovery in Hv. guards Hv.
    unfold is_u64 in *.
    match goal with G : s_Revision (c_State u0) = s_Revision consensus |- _ => rewrite G end.
    match goal with G : s_Revision consensus = _ |- _ => rewrite G end.
    split; [|apply u64_range]. destruct (Z.eq_dec (s_Revision durable) (two64 - 1)) as [->|Hne]; [done|].
    rewrite u64_small by lia. lia. }
  eapply tb_step; [apply tb_append; [stab|]|].
  - intros h [[[Hf Hc] ->] Hn]. split; [by right|]. intros H1. by destruct (Hv h Hf Hn).
  - intros ?. apply tb_ret. intros h [[[[Hf Hc] Ec] Hn] Happ]. split; [done|].
    split; [left; right; left; by exists u0|]. by apply (Hv h Hf Hn).
Qed.

Lemma converge_spec durable consensus dm cm F : stable F -> (forall h, F h -> durable_state durable h) ->
  tb F (converge env o durable consensus dm cm) (fun s h => F h /\ held_or_empty s h).
Proof.
  intros HF Hd. unfold converge. destruct (_ && _).
  - unfold import_initial. case_eq (so_InitialState o); [intros q Eq|intros _; apply tb_stop].
    next ltac:(apply tb_demand). next ltac:(apply tb_demand). next ltac:(apply tb_demand).
    next ltac:(eapply tb_authorize; [exact Eq|]). next ltac:(apply tb_clock). next ltac:(apply tb_accept).
    assert (Ha : forall h, EvStartup (Authorized q None) ∈ h ->
      startupCommitForLeadership (so_ClusterID o) consensus q u3 = Ok u4 -> approved u4 h).
    { intros h Hau Ec. exists q, q. split_and!; [done|by left|done|by apply (initial_commit_matches _ _ _ _ _ Ec)]. }
    eapply tb_step; [apply tb_propose; [stab|]|intros u5; cbv beta].
    { intros h [[[[[Hf _] _] _] Hau] Ec]. by apply Ha. }
    eapply tb_step; [apply tb_append; [stab|]|intros u6].
    { intros h [[[[[[Hf _] _] _] Hau] Ec] Hp]. split; [by left|]. intros _. by apply Ha. }
    apply tb_ret. intros h [[[[[[[Hf _] _] _] Hau] Ec] Hp] Happ]. split; [done|]. left. right. left. by exists u4.
  - destruct (startupStatesEquivalent durable consensus).
    { apply tb_ret. intros h Hf. split; [done|]. by apply Hd. }
    unfold checkpoint_leadership. destruct (so_LeadershipCheckpoint o) as [| |f]; [apply tb_stop|apply tb_stop|].
    destruct (startupPayloadEquivalent durable consensus); [|apply tb_stop].
    next ltac:(apply tb_ask_lift). next ltac:(apply tb_accept). next ltac:(apply tb_check). next ltac:(apply tb_demand).
    destruct (e_checkpoint env) as [store|]; [|apply tb_stop].
    eapply tb_step.
    + apply (tb_must _ _ _ _ _ (fun r h => EvCheckpoint u0 r ∈ h)). apply t_quiet_event; [done|stab].
    + intros ?. apply tb_ret. intros h [[[[[Hf _] _] _] _] Hc]. split; [done|]. left. right. by right.
Qed.
(** The state is served under the fence. *)
Record served (s : State) (fence : FenceToken) (h : list Event) : Prop := {
  sv_held : held s h;
  sv_fence : validateStartupFence s fence = None;
  sv_established : EvStartup (Established s (Ok fence)) ∈ h;
  sv_current : exists latest, EvCurrent (Ok latest) ∈ h /\ still_current latest s = true
}.

Lemma stable_served s fence : stable (served s fence).
Proof.
  intros e h []. split; [by apply stable_held|done|by right|].
  destruct sv_current0 as (l & ? & ?). exists l. split; [by right|done].
Qed.

Lemma establish_spec fencer id s F : stable F -> (forall h, F h -> held_or_empty s h) ->
  tb F (establish_fence env fencer id s) (fun fence h => F h /\ served s fence h).
Proof.
  intros HF Hs. unfold establish_fence.
  next ltac:(apply tb_ask_lift). next ltac:(apply tb_accept). next ltac:(apply tb_check). next ltac:(apply tb_alive).
  next ltac:(apply tb_current). next ltac:(apply tb_accept). next ltac:(apply tb_demand). apply tb_ret.
  intros h [[[[[[Hf He] ->] Hv] Hc] ->] Hsc]. split; [done|]. split; [|done|done|by eexists].
  destruct (Hs h Hf) as [|E]; [done|]. exfalso. rewrite E in Hv. unfold validateStartupFence in Hv. by simpl in Hv.
Qed.

Lemma accept_spec id previous base s F : stable F -> tb F (accept_snapshot env id previous base s) (fun _ => F).
Proof.
  intros HF. unfold accept_snapshot. next ltac:(apply tb_alive). next ltac:(apply tb_demand). next ltac:(apply tb_clock).
  eapply tb_step with (R := fun _ h => F h).
  { destruct (candidate_loads _ _ _) as [[? ?]|]; [apply tb_stop|apply tb_ret; tauto]. }
  intros ?. by apply tb_alive.
Qed.

Lemma install_spec base s fence F : stable F -> tb F (install env base s fence) (fun _ => F).
Proof.
  intros HF. unfold install.
  assert (Hm : forall (f : StateMachine -> Time -> StateMachine * option error) ev stage e reason,
    (forall t a, is_write (ev t a) = false) -> tb F (must (on_machine env f ev) stage e reason) (fun _ => F)).
  { intros f ev stage e reason He. eapply tb_post; [apply (tb_must _ _ _ _ _ (fun r h => exists t, ev t r ∈ h))|by intros ? ? [? _]].
    by apply t_quiet_access. }
  eapply tb_step; [by apply Hm|]. intros ?. by apply Hm.
Qed.

Lemma boot_spec d c fencer previous :
  tb (fun _ => True) (boot env o d c fencer previous) (fun x h => served (fst x) (snd x) h).
Proof.
  unfold boot. cbv zeta. eapply tb_step; [apply tb_load_durable; stab|]. intros [durable dm]. cbv beta iota.
  eapply tb_pre with (F' := durable_state durable); [|intros h H; apply H].
  eapply tb_step; [apply tb_load_consensus, stable_durable_state|]. intros [[consensus cm] base]. cbv beta iota.
  eapply tb_step; [by apply recover_initial_spec; [apply stable_durable_state|]|]. intros [durable1 consensus1]. cbv beta iota.
  eapply tb_pre with (F' := durable_state durable1); [|intros h H; apply H].
  eapply tb_step; [by apply recover_ahead_spec; [apply stable_durable_state|]|]. intros durable2. cbv beta.
  eapply tb_pre with (F' := durable_state durable2); [|intros h H; apply H].
  eapply tb_step; [by apply converge_spec; [apply stable_durable_state|]|]. intros state. cbv beta.
  eapply tb_pre with (F' := held_or_empty state); [|intros h H; apply H].
  eapply tb_step; [apply accept_spec, stable_held_or_empty|]. intros ?. cbv beta.
  eapply tb_step; [by apply establish_spec; [apply stable_held_or_empty|]|]. intros fence. cbv beta.
  eapply tb_pre with (F' := served state fence); [|intros h H; apply H].
  eapply tb_step; [apply install_spec, stable_served|]. intros ?. by apply tb_ret.
Qed.
End Steps.
End Lawful.

(** ** What is installed *)

(** The machine serves the state, under the fence, and accepts writes. *)
Definition installed (s : State) (fence : FenceToken) (m : StateMachine) : Prop :=
  (exists t, Snapshot m = set_updated (set_freeze s false "") t) /\ ValidateFence m fence = None.

(** What a step that goes on has established of the world. *)
Definition okp {A} (x : B A) (Q : A -> World -> Prop) : Prop :=
  forall w, match fst (x w) with Ok a => Q a (snd (x w)) | Err _ => True end.

Lemma okp_step {A C} (x : B A) (k : A -> B C) Q : (forall a, okp (k a) Q) -> okp (step x k) Q.
Proof.
  intros H w. unfold step, bind. destruct (x w) as [[a|s] w']; [apply H|done].
Qed.

Definition alone (env : Env) : Prop := forall h, e_ops env h = [].

Lemma validateFence_thaw m now token : validateFenceLocked (thaw m now) token = validateFenceLocked m token.
Proof. done. Qed.

Lemma alone_access {A} env (f : StateMachine -> Time -> StateMachine * A) ev w r w' : alone env ->
  on_machine env f ev w = (r, w') -> f (c_machine (w_c w)) (e_now env (w_hist w)) = (c_machine (w_c w'), r).
Proof. intros Hq. unfold on_machine. rewrite Hq. simpl. destruct (f _ _) as [m a]. by intros [= <- <-]. Qed.

Lemma loaded_thawed m now now' s expected fence m1 m2 :
  loadSnapshot m now s expected = (m1, None) -> ResumeWrites m1 now' fence = (m2, None) -> installed s fence m2.
Proof.
  unfold loadSnapshot, ResumeWrites. destruct (snapshot_fields s); [done|]. destruct (snapshot_advances _ _ _); [done|].
  intros [= <-]. destruct (validateResumeFenceLocked _ fence) eqn:Er; [done|]. intros [= <-]. split.
  - eexists. unfold Snapshot, thaw, snapshot_loaded. cbn [m_committed].
    destruct (s_WriteFrozen (m_state m)), (IsZero (s_UpdatedAt s)); reflexivity.
  - unfold ValidateFence. rewrite validateFence_thaw. unfold validateResumeFenceLocked in Er.
    by apply guard_None in Er as [_ Er].
Qed.

Lemma install_machine env base s fence : alone env ->
  okp (install env base s fence) (fun _ w => installed s fence (c_machine (w_c w))).
Proof.
  intros Hq w. unfold install, must, step, bind.
  destruct (machine_LoadSnapshotIfCurrent env base s w) as [r1 w1] eqn:E1. unfold machine_LoadSnapshotIfCurrent in E1. apply (alone_access _ _ _ _ _ _ Hq) in E1.
  destruct r1 as [e|]; [done|]. unfold ret at 1.
  destruct (machine_ResumeWrites env fence w1) as [r2 w2] eqn:E2. pose proof E2 as E3. unfold machine_ResumeWrites in E2. apply (alone_access _ _ _ _ _ _ Hq) in E2.
  destruct r2 as [e|]; [done|]. simpl. rewrite E3. by eapply loaded_thawed.
Qed.

Lemma boot_machine env o d c fencer previous : alone env ->
  okp (boot env o d c fencer previous) (fun x w => installed (fst x) (snd x) (c_machine (w_c w))).
Proof.
  intros Hq. unfold boot. cbv zeta.
  apply okp_step. intros [durable dm]. apply okp_step. intros [[consensus cm] base]. apply okp_step.
  intros [durable1 consensus1]. apply okp_step. intros durable2. apply okp_step. intros state.
  apply okp_step. intros ?. apply okp_step. intros fence. intros w. pose proof (install_machine env base state fence Hq w) as H.
  unfold step, bind. destruct (install env base state fence w) as [[[]|s] w']; [exact H|done].
Qed.

(** ** The whole start *)

Lemma bind_inv {A C} (x : M A) (k : A -> M C) w y : bind x k w = y -> exists a w', x w = (a, w') /\ k a w' = y.
Proof. unfold bind. destruct (x w) as [a w']. intros E. by exists a, w'. Qed.

Lemma contract_authorized o st : ValidateStartupOptions o st = None ->
  forall q, so_InitialState o = Some q -> exists f, so_InitialAuthorizer o = Present f.
Proof.
  unfold ValidateStartupOptions. intros H q Eq. rewrite Eq in H.
  repeat (apply guard_None in H as [_ H]). destruct (validateInitialStateRequest q (so_ClusterID o)); [done|].
  destruct (so_InitialAuthorizer o) as [| |f]; [done|done|]. by exists f.
Qed.

Lemma access_lawful {A} env o (f : StateMachine -> Time -> StateMachine * A) ev w :
  (forall t a, is_write (ev t a) = false) -> lawful o (w_hist w) -> lawful o (w_hist (snd (on_machine env f ev w))).
Proof. intros He Hl. unfold on_machine. destruct (f _ _). simpl. by apply lawful_cons. Qed.

Section Whole.
Context (env : Env) (err_text : error -> string) (o : StartupOptions).
Context (typed_loads : forall h id s, e_load env h id = Ok s -> is_u64 (s_Revision s)).

(** Any way through the start keeps the history lawful, and a ready start has
    served its state. *)
Definition outcome (r : StartupResult * option error) (w : World) : Prop :=
  lawful o (w_hist w) /\ (snd r = None -> exists s fence,
    sr_Fence (fst r) = Some fence /\ sr_Ready (fst r) = true /\ served s fence (w_hist w)
    /\ (alone env -> installed s fence (c_machine (w_c w)))).

Definition law (w : World) : Prop := lawful o (w_hist w).

Lemma t_law_access {A} (f : StateMachine -> Time -> StateMachine * A) ev :
  (forall t a, is_write (ev t a) = false) -> triple law (on_machine env f ev) (fun _ => law).
Proof. intros He w Hw. by apply access_lawful. Qed.

Lemma t_law_fail reason stage e :
  triple law (bind (FailClosed env reason stage) (fun result => ret (result, Some e))) outcome.
Proof.
  unfold FailClosed. eapply t_bind with (R := fun _ => law); [|intros r; apply t_ret; intros w Hw; by split].
  eapply t_bind; [by apply t_law_access|]. intros ?. eapply t_bind; [by apply t_law_access|]. intros ?. by apply t_ret.
Qed.

Lemma t_Bootstrap : triple law (Bootstrap env err_text o) outcome.
Proof.
  unfold Bootstrap. eapply t_bind; [by apply t_law_access|]. intros st. cbv beta.
  assert (Hrefuse : forall e, triple law
    (if EqualFold (TrimSpace (so_Profile o)) "production"
     then bind (FailClosed env "control-plane startup contract rejected" StageContract) (fun result => ret (result, Some e))
     else ret ({| sr_Stage := StageContract; sr_Ready := false; sr_State := zero_state; sr_LastKnownGood := zero_state;
                  sr_Fence := None |}, Some e)) outcome).
  { intros e. destruct (EqualFold _ _); [apply t_law_fail|]. apply t_ret. intros w Hw. by split. }
  destruct (ValidateStartupOptions o st) eqn:Ev; [apply Hrefuse|].
  destruct (so_Durable o) as [| |d]; [apply Hrefuse|apply Hrefuse|].
  destruct (so_Consensus o) as [| |c]; [apply Hrefuse|apply Hrefuse|].
  destruct (so_Fencer o) as [| |fencer]; [apply Hrefuse|apply Hrefuse|].
  eapply t_bind with (R := fun _ => law); [by intros w Hw|]. intros [e|]; [apply t_law_fail|].
  eapply t_bind; [by apply t_law_access|]. intros previous. cbv beta.
  eapply t_bind; [by apply t_law_access|]. intros ?. cbv beta.
  eapply t_bind; [by apply t_law_access|]. intros ?. cbv beta.
  eapply t_bind with (R := fun r w => law w /\ match r with
      | Ok (s, fence) => served s fence (w_hist w) /\ (alone env -> installed s fence (c_machine (w_c w)))
      | Err _ => True end).
  { intros w Hw.
    pose proof (boot_spec o env typed_loads (contract_authorized _ _ Ev) d c fencer previous w (conj Hw I)) as [Hl Hs].
    split; [exact Hl|].
    pose proof (fun Hq => boot_machine env o d c fencer previous Hq w) as Hm.
    destruct (fst (boot env o d c fencer previous w)) as [[s fence]|]; [|done]. by split. }
  intros [[s fence]|e]; cbv beta iota.
  - eapply t_bind with (R := fun _ w => law w /\ served s fence (w_hist w) /\ (alone env -> installed s fence (c_machine (w_c w)))).
    { intros w Hw. exact Hw. }
    intros ?. cbv beta.
    assert (Hr : triple (fun w => law w /\ served s fence (w_hist w) /\ (alone env -> installed s fence (c_machine (w_c w))))
      (machine_Snapshot env)
      (fun _ w => law w /\ served s fence (w_hist w) /\ (alone env -> installed s fence (c_machine (w_c w))))).
    { intros w (Hl & Hs & Hi). split_and!; [by apply (access_lawful env o (fun m _ => (m, Snapshot m)) (fun _ _ => EvRead))|by apply stable_served|].
      intros Hq. simpl. rewrite Hq. by apply Hi. }
    eapply t_bind; [exact Hr|]. intros s1. cbv beta. eapply t_bind; [exact Hr|]. intros s2. apply t_ret.
    intros w (Hl & Hs & Hi). split; [done|]. intros _. by exists s, fence.
  - eapply t_pre with (P' := law); [|by intros w [Hl _]]. unfold fail_start.
    eapply t_bind; [by apply t_law_access|]. intros ?. apply t_law_fail.
Qed.
End Whole.

(** ** A failed start *)

Definition closed (env : Env) (r : StartupResult) (w : World) : Prop :=
  sr_Ready r = false
  /\ (exists t reason h, w_hist w = EvRead :: EvMachine t (OpFreeze reason) :: h)
  /\ (alone env -> frozen w /\ sr_State r = Snapshot (c_machine (w_c w)) /\ sr_LastKnownGood r = sr_State r).

Lemma t_FailClosed env reason stage : triple anyw (FailClosed env reason stage) (closed env).
Proof.
  intros w _. unfold FailClosed, bind, machine_FreezeWrites, machine_Snapshot, on_machine, ret. simpl.
  split_and!; [done|by eauto|]. intros Hq. rewrite !Hq. by split_and!.
Qed.

Definition closes (env : Env) (o : StartupOptions) (r : StartupResult * option error) (w : World) : Prop :=
  snd r <> None -> sr_Ready (fst r) = false
    /\ (EqualFold (TrimSpace (so_Profile o)) "production" = true -> closed env (fst r) w).

Lemma t_closes env o reason stage e :
  triple anyw (bind (FailClosed env reason stage) (fun result => ret (result, Some e))) (closes env o).
Proof.
  eapply t_bind; [apply t_FailClosed|]. intros r. apply t_ret. intros w Hc _. split; [apply Hc|by intros _].
Qed.

Lemma t_Bootstrap_closes env err_text o : triple anyw (Bootstrap env err_text o) (closes env o).
Proof.
  unfold Bootstrap. eapply t_bind; [apply t_top|]. intros st. cbv beta.
  assert (Hrefuse : forall e, triple anyw
    (if EqualFold (TrimSpace (so_Profile o)) "production"
     then bind (FailClosed env "control-plane startup contract rejected" StageContract) (fun result => ret (result, Some e))
     else ret ({| sr_Stage := StageContract; sr_Ready := false; sr_State := zero_state; sr_LastKnownGood := zero_state;
                  sr_Fence := None |}, Some e)) (closes env o)).
  { intros e. destruct (EqualFold _ _) eqn:Ef; [apply t_closes|]. intros w _ _. rewrite Ef. by split. }
  destruct (ValidateStartupOptions o st); [apply Hrefuse|].
  destruct (so_Durable o) as [| |d]; [apply Hrefuse|apply Hrefuse|].
  destruct (so_Consensus o) as [| |c]; [apply Hrefuse|apply Hrefuse|].
  destruct (so_Fencer o) as [| |fencer]; [apply Hrefuse|apply Hrefuse|].
  eapply t_bind; [apply t_top|]. intros [e|]; cbv beta; [apply t_closes|].
  eapply t_bind; [apply t_top|]. intros previous. cbv beta. eapply t_bind; [apply t_top|]. intros ?. cbv beta.
  eapply t_bind; [apply t_top|]. intros ?. cbv beta. eapply t_bind; [apply t_top|]. intros [[s fence]|e]; cbv beta iota.
  - eapply t_bind; [apply t_top|]. intros ?. cbv beta. eapply t_bind; [apply t_top|]. intros s1. cbv beta.
    eapply t_bind; [apply t_top|]. intros s2. by intros w _ Hn.
  - unfold fail_start. eapply t_bind; [apply t_top|]. intros ?. apply t_closes.
Qed.

(** ** Properties *)

Definition start_of (m : StateMachine) : World := {| w_c := NewCoordinator m; w_hist := [] |}.

(** Revisions read from the durable store are of their Go type. *)
Definition loads_typed (env : Env) : Prop := forall h id s, e_load env h id = Ok s -> is_u64 (s_Revision s).


(** Whatever a crash left behind, a start proposes nothing to consensus and
    appends no commit of revision one to the durable store unless the
    administrator approved the configured request that the commit carries out,
    and appends only commits that consensus acknowledged or returned. *)
Theorem initial_state_needs_approval env err_text o m h2 h1 :
  loads_typed env ->
  (forall c r, w_hist (snd (Bootstrap env err_text o (start_of m))) = h2 ++ EvPropose c r :: h1 -> approved o c h1)
  /\ (forall c r, w_hist (snd (Bootstrap env err_text o (start_of m))) = h2 ++ EvAppend c r :: h1 ->
       (EvPropose c None ∈ h1 \/ EvStartup (AskedCommit (Ok c)) ∈ h1)
       /\ (s_Revision (c_State c) = 1 -> approved o c h1)).
Proof.
  intros Ht. pose proof (t_Bootstrap env err_text o Ht (start_of m) I) as [Hl _]. revert Hl.
  generalize (w_hist (snd (Bootstrap env err_text o (start_of m)))). intros h Hl.
  assert (Hs : forall e, lawful o (h2 ++ e :: h1) -> lawful o (e :: h1)).
  { intros e. induction h2 as [|x h2' IH]; [done|]. intros Hx. apply IH. simpl in Hx. destruct x; tauto. }
  split; intros c r E; rewrite E in Hl; apply Hs in Hl; simpl in Hl; tauto.
Qed.

(** A start that fails is not ready, and under the production profile the
    last thing it does to the machine is to freeze it: what it reports is the
    last known good state, frozen. *)
Theorem failed_start_freezes env err_text o w r e w' :
  Bootstrap env err_text o w = ((r, Some e), w') ->
  sr_Ready r = false
  /\ (EqualFold (TrimSpace (so_Profile o)) "production" = true ->
      (exists t reason h, w_hist w' = EvRead :: EvMachine t (OpFreeze reason) :: h)
      /\ (alone env -> frozen w' /\ sr_State r = Snapshot (c_machine (w_c w')) /\ sr_LastKnownGood r = sr_State r)).
Proof.
  intros E. pose proof (t_Bootstrap_closes env err_text o w I) as H. rewrite E in H.
  destruct H as [Hr Hc]; [done|]. split; [done|]. intros Hp. by destruct (Hc Hp) as (_ & ? & ?).
Qed.
