(* ===== verification/StartupHealth.v ===== *)
(** * A healthy restart

    Total correctness of [Bootstrap]: when both stores hold one state and the
    dependencies work, every step goes on and the machine serves that state. *)

From S2P Require Import Prelude GoText Sha256 JsonValid ControlState ControlFacts ControlSafety Coordinator CoordinatorSafety Startup StartupSafety.

Open Scope list_scope.
Open Scope Z_scope.

(** ** Steps that go on *)

(** A step goes on, from machines of [P] to a value and machines of [Q]. *)
Definition okrun {A} (P : StateMachine -> Prop) (x : B A) (Q : A -> StateMachine -> Prop) : Prop :=
  forall w, P (c_machine (w_c w)) -> exists a w', x w = (Ok a, w') /\ Q a (c_machine (w_c w')).

Lemma r_ret {A} (a : A) P (Q : A -> StateMachine -> Prop) : (forall m, P m -> Q a m) -> okrun P (ret (Ok a)) Q.
Proof. intros H w Hw. exists a, w. split; [done|by apply H]. Qed.

Lemma r_step {A C} (x : B A) (k : A -> B C) P R Q :
  okrun P x R -> (forall a, okrun (R a) (k a) Q) -> okrun P (step x k) Q.
Proof.
  intros Hx Hk w Hw. destruct (Hx w Hw) as (a & w1 & E & HR). destruct (Hk a w1 HR) as (b & w2 & E2 & HQ).
  exists b, w2. unfold step, bind. by rewrite E.
Qed.

Lemma r_pre {A} (x : B A) P P' Q : okrun P' x Q -> (forall m, P m -> P' m) -> okrun P x Q.
Proof. intros H HP w Hw. apply H, HP, Hw. Qed.

Lemma r_pure {A} (F : Prop) P (x : B A) Q : (F -> okrun P x Q) -> okrun (fun m => P m /\ F) x Q.
Proof. intros H w [Hw HF]. by apply H. Qed.

Lemma r_demand b stage e reason P : b = true -> okrun P (demand b stage e reason) (fun _ => P).
Proof. intros ->. by apply r_ret. Qed.

Lemma r_accept {A} (r : result error A) a0 stage e reason P : r = Ok a0 ->
  okrun P (accept r stage e reason) (fun a m => P m /\ a = a0).
Proof. intros ->. by apply r_ret. Qed.

Lemma r_check stage e reason P : okrun P (check None stage e reason) (fun _ => P).
Proof. intros w Hw. by exists tt, w. Qed.

Lemma r_must_call answer ev stage e reason P : (forall h, answer h = None) ->
  okrun P (must (call answer ev) stage e reason) (fun _ => P).
Proof. intros H w Hw. unfold must, bind, call. rewrite H. by eexists _, _. Qed.

Lemma r_lift_call {A} (answer : list Event -> A) ev a0 P : (forall h, answer h = a0) ->
  okrun P (lift (call answer ev)) (fun a m => P m /\ a = a0).
Proof. intros H w Hw. unfold lift, bind, call, ret. rewrite H. by eexists _, _. Qed.

Lemma r_access {A} env (f : StateMachine -> Time -> StateMachine * A) ev P : alone env ->
  okrun P (lift (on_machine env f ev)) (fun a m' => exists m now, P m /\ f m now = (m', a)).
Proof.
  intros Hq w Hw. unfold lift, bind. destruct (on_machine env f ev w) as [a w'] eqn:E.
  apply (alone_access _ _ _ _ _ _ Hq) in E. unfold ret. eexists _, _. split; [done|]. eauto.
Qed.

Lemma r_must_access env (f : StateMachine -> Time -> StateMachine * option error) ev stage e reason P : alone env ->
  (forall m now, P m -> snd (f m now) = None) ->
  okrun P (must (on_machine env f ev) stage e reason) (fun _ m' => exists m now, P m /\ m' = fst (f m now)).
Proof.
  intros Hq H w Hw. unfold must, bind. destruct (on_machine env f ev w) as [a w'] eqn:E.
  apply (alone_access _ _ _ _ _ _ Hq) in E. specialize (H _ (e_now env (w_hist w)) Hw). rewrite E in H. simpl in H. subst a.
  unfold ret. eexists _, _. split; [done|]. eexists _, _. split; [done|]. by rewrite E.
Qed.

(** A machine that has never had a leader. *)
Record pristine (id : string) (m : StateMachine) : Prop := {
  pr_state : s_ClusterID (m_state m) = id;
  pr_cluster : s_ClusterID (m_committed m) = id;
  pr_term : s_Term (m_committed m) = 0;
  pr_epoch : s_Epoch (m_committed m) = 0;
  pr_revision : s_Revision (m_committed m) = 0
}.

Lemma pristine_freeze id m now reason : pristine id m -> pristine id (FreezeWrites m now reason).
Proof. by intros []; split. Qed.

Lemma pristine_new id now m : NewStateMachine id now = Ok m -> pristine id m.
Proof. unfold NewStateMachine. intros H. branch H. injection H as <-. by split. Qed.

(** A state that can be served. *)
Record servable (id : string) (s : State) : Prop := {
  se_fields : snapshot_fields s = None;
  se_cluster : s_ClusterID s = id;
  se_typed : typed_state s;
  se_nonzero : s_Revision s <> 0;
  se_leader : s_LeaderID s <> "";
  se_thawed : s_WriteFrozen s = false
}.

Lemma servable_leader id s : servable id s -> 0 < s_Term s /\ 0 < s_Epoch s /\ 0 < s_Revision s.
Proof.
  intros [Hf _ [] Hn Hl _]. unfold snapshot_fields in Hf. guards Hf. unfold is_u64 in *.
  destruct (String.eqb_spec (s_LeaderID s) ""); [done|]. simpl in *. props. lia.
Qed.

Lemma advances_pristine id m expected s : pristine id m -> servable id s ->
  match expected with Some e => e = m_committed m | None => True end -> snapshot_advances m expected s = None.
Proof.
  intros [] Hs He. pose proof (servable_leader _ _ Hs) as (Ht & Hep & Hr). destruct Hs. unfold snapshot_advances.
  rewrite se_cluster0, pr_state0, String.eqb_refl. simpl.
  assert (E : match expected with Some e => negb (sameLeadershipState (m_committed m) e) | None => false end = false).
  { destruct expected as [e|]; [|done]. subst e. unfold sameLeadershipState. by rewrite !String.eqb_refl, !Z.eqb_refl. }
  rewrite E, pr_revision0, pr_epoch0, pr_term0.
  destruct (s_Revision s <? 0) eqn:E1; [lia|]. destruct (s_Epoch s <? 0) eqn:E2; [lia|].
  destruct (s_Epoch s =? 0) eqn:E3; [lia|]. destruct (s_Term s <=? 0) eqn:E4; [lia|].
  destruct (s_Revision s =? 0) eqn:E5; [lia|]. simpl. by rewrite andb_false_r.
Qed.

(** Both stores hold the state, consensus at its own precision of time, and
    every dependency works. *)
Record healthy_start (env : Env) (o : StartupOptions) (d : DurableBootstrap) (c : ConsensusBootstrap)
  (s : State) (t : Time) (fence : FenceToken) : Prop := {
  hs_alone : alone env;
  hs_ctx : forall h, e_ctx env h = None;
  hs_prepare : forall h, db_prepare d h = None /\ db_health d h = None /\ cb_prepare c h = None /\ cb_health c h = None;
  hs_load : forall h, e_load env h (so_ClusterID o) = Ok s;
  hs_current : forall h, e_current env h (so_ClusterID o) = Ok (set_updated s t);
  hs_time : durableTimestampsEquivalent t (s_UpdatedAt s) = true;
  hs_servable : servable (so_ClusterID o) s;
  hs_fence : validateStartupFence s fence = None
}.

Lemma statesEquivalent_updated s t : durableTimestampsEquivalent t (s_UpdatedAt s) = true ->
  statesEquivalent s (set_updated s t) = true /\ statesEquivalent (set_updated s t) s = true.
Proof.
  intros Ht. assert (Ht' : durableTimestampsEquivalent (s_UpdatedAt s) t = true).
  { unfold durableTimestampsEquivalent in *. by rewrite Z.eqb_sym. }
  assert (Hd : same_desired (s_Desired s) (s_Desired s) = true) by (unfold same_desired; by rewrite !String.eqb_refl).
  unfold statesEquivalent; simpl.
  by rewrite !String.eqb_refl, !Z.eqb_refl, Bool.eqb_reflx, Nat.eqb_refl, Hd, Ht, Ht', ledger_within_refl.
Qed.

Section Healthy.
Context (env : Env) (err_text : error -> string) (o : StartupOptions) (d : DurableBootstrap) (c : ConsensusBootstrap)
  (fencer : list Event -> State -> result error FenceToken) (s : State) (t : Time) (fence : FenceToken).
Context (Hh : healthy_start env o d c s t fence) (Hfencer : forall h, fencer h s = Ok fence).

Local Abbreviation id := (so_ClusterID o).

Lemma r_alive stage e reason P : okrun P (alive env stage e reason) (fun _ => P).
Proof. apply r_must_call. intros h. by rewrite (hs_ctx _ _ _ _ _ _ _ Hh). Qed.

Lemma r_load_durable P : okrun P (load_durable env d id) (fun x m => P m /\ x = (s, false)).
Proof.
  unfold load_durable. destruct Hh. eapply r_step; [apply r_must_call, hs_prepare0|]. intros ?. cbv beta.
  eapply r_step; [apply r_must_call; intros h; apply hs_prepare0|]. intros ?. cbv beta.
  eapply r_step; [apply r_alive|]. intros ?. cbv beta.
  eapply r_step; [apply (r_lift_call _ _ (Ok s)), hs_load0|]. intros r. cbv beta. apply r_pure. intros ->.
  eapply r_step; [by apply (r_accept _ (s, false))|]. intros x. cbv beta. apply r_pure. intros ->.
  eapply r_step; [apply r_demand; simpl; by rewrite (se_cluster _ _ hs_servable0), String.eqb_refl|]. intros ?. cbv beta.
  eapply r_step; [apply r_alive|]. intros ?. apply r_ret. auto.
Qed.

Lemma r_load_consensus :
  okrun (pristine id) (load_consensus env c id)
    (fun x m => (pristine id m /\ m_committed m = snd x) /\ fst x = (set_updated s t, false)).
Proof.
  unfold load_consensus. destruct Hh. eapply r_step; [apply r_must_call; intros h; apply hs_prepare0|]. intros ?. cbv beta.
  eapply r_step; [apply r_must_call; intros h; apply hs_prepare0|]. intros ?. cbv beta.
  eapply r_step; [by apply r_access|]. intros ?. cbv beta.
  eapply r_pre with (P' := pristine id).
  2: { intros m (m0 & now & Hm & [= <-]). by apply pristine_freeze. }
  eapply r_step; [by apply r_access|]. intros base. cbv beta.
  eapply r_pre with (P' := fun m => pristine id m /\ m_committed m = base).
  2: { intros m (m0 & now & Hm & [= <- <-]). done. }
  eapply r_step; [apply r_alive|]. intros ?. cbv beta.
  eapply r_step; [apply (r_lift_call _ _ (Ok (set_updated s t))), hs_current0|]. intros r. cbv beta. apply r_pure. intros ->.
  eapply r_step; [by apply (r_accept _ (set_updated s t, false))|]. intros x. cbv beta. apply r_pure. intros ->.
  eapply r_step; [apply r_demand; simpl; by rewrite (se_cluster _ _ hs_servable0), String.eqb_refl|]. intros ?.
  apply r_ret. auto.
Qed.

(** Nothing to recover: both stores hold the state. *)
Lemma r_recover P : okrun P (recover_initial env o c s (set_updated s t) false false) (fun x m => P m /\ x = (s, set_updated s t)).
Proof.
  assert (E1 : startupPayloadEmpty s = false).
  { unfold startupPayloadEmpty. destruct (Z.eqb_spec (s_Revision s) 0); [|done]. by destruct (se_nonzero _ _ (hs_servable _ _ _ _ _ _ _ Hh)). }
  assert (E2 : startupPayloadEmpty (set_updated s t) = false) by exact E1.
  unfold recover_initial. destruct (so_InitialState o); [|apply r_ret; auto].
  cbv zeta. rewrite E1, E2, !andb_false_r. apply r_ret. auto.
Qed.

Lemma r_ahead P : okrun P (recover_ahead env o c s (set_updated s t)) (fun x m => P m /\ x = s).
Proof.
  pose proof (hs_servable _ _ _ _ _ _ _ Hh) as Hs. destruct (servable_leader _ _ Hs) as (_ & _ & Hr).
  pose proof (ty_revision _ (se_typed _ _ Hs)) as Hu. unfold is_u64 in Hu.
  assert (E : s_Revision s =? u64 (s_Revision s + 1) = false).
  { apply Z.eqb_neq. destruct (Z.eq_dec (s_Revision s) (two64 - 1)) as [->|Hne]; [done|]. rewrite u64_small; lia. }
  unfold recover_ahead. cbn [s_Revision set_updated]. rewrite E, andb_false_r. apply r_ret. auto.
Qed.

Lemma r_converge P : okrun P (converge env o s (set_updated s t) false false) (fun x m => P m /\ x = s).
Proof.
  pose proof (hs_servable _ _ _ _ _ _ _ Hh) as Hs. unfold converge, startupStatesEquivalent, startupPayloadEmpty, isEmptyInitialState.
  cbn [s_Revision s_LeaderID set_updated].
  destruct (Z.eqb_spec (s_Revision s) 0); [by destruct (se_nonzero _ _ Hs)|].
  destruct (String.eqb_spec (s_LeaderID s) ""); [by destruct (se_leader _ _ Hs)|]. simpl.
  rewrite (proj1 (statesEquivalent_updated _ _ (hs_time _ _ _ _ _ _ _ Hh))). apply r_ret. auto.
Qed.

Lemma regresses_pristine m : pristine id m -> startupSnapshotRegresses (m_committed m) s = false.
Proof. intros []. unfold startupSnapshotRegresses. by rewrite pr_revision0, orb_true_r. Qed.

Lemma candidate_ok now : candidate_loads id now s = None.
Proof.
  pose proof (hs_servable _ _ _ _ _ _ _ Hh) as Hs.
  assert (Hid : ValidIdentity id = true).
  { pose proof (se_fields _ _ Hs) as Hf. unfold snapshot_fields in Hf. apply guard_None in Hf as [Hf _].
    rewrite (se_cluster _ _ Hs) in Hf. by destruct (ValidIdentity id). }
  unfold candidate_loads. destruct (NewStateMachine id now) as [m|] eqn:E.
  - unfold LoadSnapshot, loadSnapshot. rewrite (se_fields _ _ Hs). by rewrite (advances_pristine id) by (by eauto using pristine_new).
  - exfalso. unfold NewStateMachine in E. by rewrite Hid in E.
Qed.

Lemma r_accept_snapshot previous base P : startupSnapshotRegresses previous s = false -> startupSnapshotRegresses base s = false ->
  okrun P (accept_snapshot env id previous base s) (fun _ => P).
Proof.
  intros H1 H2. unfold accept_snapshot. eapply r_step; [apply r_alive|]. intros ?. cbv beta.
  eapply r_step; [apply r_demand; by rewrite H1, H2|]. intros ?. cbv beta.
  eapply r_step with (R := fun _ => P); [by intros w Hw; eexists _, _|]. intros now. cbv beta. rewrite candidate_ok.
  eapply r_step; [by apply r_ret with (Q := fun _ => P)|]. intros ?. apply r_alive.
Qed.

Lemma r_establish P : okrun P (establish_fence env fencer id s) (fun f m => P m /\ f = fence).
Proof.
  unfold establish_fence. eapply r_step; [apply (r_lift_call _ _ (Ok fence)), Hfencer|]. intros x. cbv beta. apply r_pure. intros ->.
  eapply r_step; [by apply (r_accept _ fence)|]. intros f. cbv beta. apply r_pure. intros ->.
  rewrite (hs_fence _ _ _ _ _ _ _ Hh). eapply r_step; [apply r_check|]. intros ?. cbv beta.
  eapply r_step; [apply r_alive|]. intros ?. cbv beta.
  eapply r_step; [apply (r_lift_call _ _ (Ok (set_updated s t))), (hs_current _ _ _ _ _ _ _ Hh)|]. intros r. cbv beta. apply r_pure. intros ->.
  eapply r_step; [by apply (r_accept _ (set_updated s t))|]. intros latest. cbv beta. apply r_pure. intros ->.
  eapply r_step; [apply r_demand|intros ?; apply r_ret; auto].
  unfold still_current, startupStatesEquivalent, isEmptyInitialState. cbn [s_ClusterID s_Term s_LeaderID s_Epoch s_Revision s_Desired set_updated].
  destruct (String.eqb_spec (s_LeaderID s) ""); [by destruct (se_leader _ _ (hs_servable _ _ _ _ _ _ _ Hh))|].
  rewrite !String.eqb_refl, !Z.eqb_refl. simpl. exact (proj2 (statesEquivalent_updated _ _ (hs_time _ _ _ _ _ _ _ Hh))).
Qed.

(** The fence of the state is accepted by a machine that has loaded it. *)
Lemma fence_resumes m now : validateResumeFenceLocked (snapshot_loaded m now s) fence = None.
Proof.
  pose proof (hs_servable _ _ _ _ _ _ _ Hh) as Hs. destruct (servable_leader _ _ Hs) as (_ & _ & Hr).
  pose proof (hs_fence _ _ _ _ _ _ _ Hh) as Hf. unfold validateStartupFence in Hf. guards Hf.
  assert (E : let l := snapshot_loaded m now s in let st := m_committed l in
    s_ClusterID st = s_ClusterID s /\ s_LeaderID st = s_LeaderID s /\ s_Epoch st = s_Epoch s /\ s_Revision st = s_Revision s
    /\ m_nonces l = s_NonceLedger s /\ m_committedFences l = {[ s_Revision s := d_Digest (s_Desired s) ]}).
  { apply Z.ltb_lt in Hr. unfold snapshot_loaded.
    destruct (s_WriteFrozen (m_state m)), (IsZero (s_UpdatedAt s)); cbn; rewrite Hr; done. }
  destruct E as (E1 & E2 & E3 & E4 & E5 & E6).
  unfold validateResumeFenceLocked, validateFenceLocked. rewrite E1, E2, E3, E4, E5, E6.
  repeat match goal with G : f_ClusterID fence = _ |- _ => rewrite G; clear G
    | G : f_LeaderID fence = _ |- _ => rewrite G; clear G | G : f_Epoch fence = _ |- _ => rewrite G; clear G
    | G : f_Revision fence = _ |- _ => rewrite G; clear G | G : f_Digest fence = _ |- _ => rewrite G; clear G end.
  rewrite !String.eqb_refl, !Z.eqb_refl, Z.ltb_irrefl. unfold has. rewrite lookup_singleton_eq. simpl. rewrite String.eqb_refl.
  destruct (Z.eqb_spec (s_Revision s) 0); [lia|]. simpl.
  match goal with G : s_NonceLedger s !! f_Nonce fence = _ |- _ => unfold rev_at; rewrite G end. simpl. rewrite Z.eqb_refl.
  by destruct (String.eqb_spec (f_Nonce fence) "").
Qed.

Lemma r_install base : okrun (fun m => pristine id m /\ m_committed m = base) (install env base s fence) (fun _ _ => True).
Proof.
  pose proof (hs_servable _ _ _ _ _ _ _ Hh) as Hs. pose proof (hs_alone _ _ _ _ _ _ _ Hh) as Hq.
  assert (Hl : forall m now, pristine id m /\ m_committed m = base ->
    LoadSnapshotIfCurrent m now base s = (snapshot_loaded m now s, None)).
  { intros m now [Hm Hb]. unfold LoadSnapshotIfCurrent, loadSnapshot. rewrite (se_fields _ _ Hs).
    by rewrite (advances_pristine id). }
  unfold install. eapply r_step.
  { apply r_must_access; [exact Hq|]. intros m now Hm. by rewrite Hl. }
  intros ?. cbv beta. eapply r_pre with (P' := fun m' => exists m now, m' = snapshot_loaded m now s).
  2: { intros m' (m & now & Hm & ->). rewrite Hl by done. by eexists _, _. }
  intros w Hw. edestruct (r_must_access env (fun m now => ResumeWrites m now fence) (fun now _ => EvMachine now (OpResume fence))
    StageFencing ErrStartupFencing "startup resume authority failed" (fun m' => exists m now, m' = snapshot_loaded m now s) Hq) as (x & w' & E & _); [|exact Hw|by exists x, w'].
  intros m' now (m & now0 & ->). unfold ResumeWrites. by rewrite fence_resumes.
Qed.

Lemma r_boot previous : startupSnapshotRegresses previous s = false ->
  okrun (pristine id) (boot env o d c fencer previous) (fun x _ => x = (s, fence)).
Proof.
  intros Hp. unfold boot. cbv zeta. eapply r_step; [apply r_load_durable|]. intros x. cbv beta. apply r_pure. intros ->.
  eapply r_step; [apply r_load_consensus|]. intros [[consensus cm] base]. cbv beta. apply r_pure. cbn [fst snd]. intros [= -> ->].
  eapply r_step; [apply r_recover|]. intros x. cbv beta. apply r_pure. intros ->.
  eapply r_step; [apply r_ahead|]. intros x. cbv beta. apply r_pure. intros ->.
  eapply r_step; [apply r_converge|]. intros x. cbv beta. apply r_pure. intros ->.
  eapply r_step with (R := fun _ m => pristine id m /\ m_committed m = base).
  { intros w [Hm Hb]. apply (r_accept_snapshot previous base (fun m => pristine id m /\ m_committed m = base) Hp);
      [rewrite <- Hb; by apply regresses_pristine|by split]. }
  intros ?. cbv beta. eapply r_step; [apply r_establish|]. intros f. cbv beta. apply r_pure. intros ->.
  eapply r_step; [apply r_install|]. intros ?. by apply r_ret.
Qed.

Definition at_rest (w : World) : Prop := pristine id (c_machine (w_c w)).

Lemma t_rest_access {A} (f : StateMachine -> Time -> StateMachine * A) ev :
  (forall m now, pristine id m -> pristine id (fst (f m now))) ->
  triple at_rest (on_machine env f ev) (fun _ => at_rest).
Proof.
  intros Hf w Hw. destruct (on_machine env f ev w) as [a w'] eqn:E.
  apply (alone_access _ _ _ _ _ _ (hs_alone _ _ _ _ _ _ _ Hh)) in E. specialize (Hf _ (e_now env (w_hist w)) Hw).
  rewrite E in Hf. exact Hf.
Qed.

Lemma t_rest_Snapshot :
  triple at_rest (machine_Snapshot env) (fun st w => at_rest w /\ s_ClusterID st = id /\ startupSnapshotRegresses st s = false).
Proof.
  intros w Hw. destruct (machine_Snapshot env w) as [a w'] eqn:E. unfold machine_Snapshot in E.
  apply (alone_access _ _ _ _ _ _ (hs_alone _ _ _ _ _ _ _ Hh)) in E. injection E as Em <-. simpl.
  unfold at_rest. rewrite <- Em. split_and!; [exact Hw|by destruct Hw|by apply regresses_pristine].
Qed.

Lemma t_bind_and {A C} (x : M A) (k : A -> M C) (P R : World -> Prop) (F : A -> Prop) Q :
  triple P x (fun a w => R w /\ F a) -> (forall a, F a -> triple R (k a) Q) -> triple P (bind x k) Q.
Proof. intros Hx Hk. eapply t_bind; [exact Hx|]. intros a w [Hw Ha]. by apply Hk. Qed.

Lemma t_healthy :
  (forall st, s_ClusterID st = id -> ValidateStartupOptions o st = None) ->
  so_Durable o = Present d -> so_Consensus o = Present c -> so_Fencer o = Present fencer ->
  triple at_rest (Bootstrap env err_text o)
    (fun r w => snd r = None /\ sr_Ready (fst r) = true /\ sr_Fence (fst r) = Some fence
                /\ installed s fence (c_machine (w_c w))).
Proof.
  intros Hv Hd Hc Hf. pose proof (hs_alone _ _ _ _ _ _ _ Hh) as Hq. unfold Bootstrap.
  eapply t_bind_and; [exact t_rest_Snapshot|]. intros st [Hst _]. rewrite (Hv st Hst), Hd, Hc, Hf.
  eapply (t_bind_and _ _ at_rest at_rest (fun e => e = None)).
  { intros w Hw. split; [exact Hw|]. unfold ctx_Err, call. simpl. by rewrite (hs_ctx _ _ _ _ _ _ _ Hh). }
  intros e ->. eapply t_bind_and; [exact t_rest_Snapshot|]. intros previous [_ Hp].
  eapply t_bind; [apply t_rest_access; intros; by apply pristine_freeze|]. intros ?. cbv beta.
  eapply t_bind_and; [exact t_rest_Snapshot|]. intros st' _.
  eapply (t_bind_and _ _ at_rest (fun w => installed s fence (c_machine (w_c w))) (fun r => r = Ok (s, fence))).
  { intros w Hw. destruct (r_boot previous Hp w Hw) as (x & w' & E & ->).
    pose proof (boot_machine env o d c fencer previous Hq w) as Hm. rewrite E in *. by split. }
  intros r ->. eapply t_bind with (R := fun _ w => installed s fence (c_machine (w_c w))); [by intros w Hw|]. intros ?. cbv beta.
  assert (Hr : triple (fun w => installed s fence (c_machine (w_c w))) (machine_Snapshot env)
    (fun _ w => installed s fence (c_machine (w_c w)))).
  { intros w Hw. simpl. rewrite Hq. exact Hw. }
  eapply t_bind; [exact Hr|]. intros s1. cbv beta. eapply t_bind; [exact Hr|]. intros s2. apply t_ret. by intros w Hw.
Qed.
End Healthy.

(** C12. After a restart with both stores at one servable state and working
    dependencies the start reports ready, the machine serves that state and
    accepts writes under the fence. *)
Theorem healthy_restart_is_ready env err_text o d c fencer s t fence now m :
  healthy_start env o d c s t fence -> (forall h, fencer h s = Ok fence) ->
  NewStateMachine (so_ClusterID o) now = Ok m ->
  (forall st, s_ClusterID st = so_ClusterID o -> ValidateStartupOptions o st = None) ->
  so_Durable o = Present d -> so_Consensus o = Present c -> so_Fencer o = Present fencer ->
  exists r w', Bootstrap env err_text o (start_of m) = ((r, None), w') /\ sr_Ready r = true /\ sr_Fence r = Some fence
    /\ (exists t', Snapshot (c_machine (w_c w')) = set_updated (set_freeze s false "") t')
    /\ ValidateFence (c_machine (w_c w')) fence = None.
Proof.
  intros Hh Hfe Hn Hv Hd Hc Hf.
  pose proof (t_healthy env err_text o d c fencer s t fence Hh Hfe Hv Hd Hc Hf (start_of m) (pristine_new _ _ _ Hn)) as H.
  destruct (Bootstrap env err_text o (start_of m)) as [[r e] w']. destruct H as (He & Hr & Hfn & Hi & Hv').
  simpl in *. subst e. by exists r, w'.
Qed.
