(* ===== verification/RaftFsm.v ===== *)
(** * The replicated state machine (internal/controlplane/nativeraft/runtime.go)

    What a node does with the entries of the Raft log: leadership changes and
    commits applied to its control-plane machine and to the consensus view
    kept beside it, snapshots of that view, and the proposal of commits. Raft
    itself is a library: its view of the node is a record, and the outcome of
    a log append an argument. The JSON form of entries and snapshots is not
    modelled; they are the values that it encodes. *)

From S2P Require Import Prelude GoText Sha256 ControlState.

Open Scope list_scope.
Open Scope Z_scope.
Open Scope go_scope.

Definition ErrFenceStale : error := Foreign "native-raft fencing token is stale".
Definition ErrNotReady : error := Foreign "native-raft node is not ready".

(** ** Log entries and nodes *)

Inductive Command :=
| CmdLeadership (term : Z) (leaderID : string) (updatedAt : Time)
| CmdCommit (c : Commit)
| CmdUnknown (kind : string).

Record Runtime := {
  r_machine : StateMachine;
  r_consensus : State;            (* consensusState *)
  r_last : option Commit          (* lastCommit, hasLastCommit *)
}.

(** The view that [New] starts with. *)
Definition NewRuntime (m : StateMachine) : Runtime :=
  {| r_machine := m; r_consensus := Snapshot m; r_last := None |}.

Definition with_rmachine (r : Runtime) (m : StateMachine) : Runtime :=
  {| r_machine := m; r_consensus := r_consensus r; r_last := r_last r |}.

Definition consensusSnapshot (r : Runtime) : State := r_consensus r.

(** ** Comparisons *)

Definition sameNativePayload (a b : State) : bool :=
  return false when
    negb (String.eqb (s_ClusterID a) (s_ClusterID b)) || negb (s_Revision a =? s_Revision b)
    || negb (same_desired (s_Desired a) (s_Desired b))
    || negb (Nat.eqb (size (s_NonceLedger a)) (size (s_NonceLedger b))) ;;
  ledger_within (s_NonceLedger a) (s_NonceLedger b).

Definition runtimeCommitsEquivalent (a b : Commit) : bool :=
  bool_decide (c_Fence a = c_Fence b) && statesEquivalentForCommit (c_State a) (c_State b).

Definition nonceLedgerExtendsCurrent (current next : gmap string Z) (nonce : string) (revision : Z) : bool :=
  return false when negb (Nat.eqb (size next) (size current + 1)) || negb (rev_at next nonce =? revision) ;;
  return false when has current nonce ;;
  ledger_within current next.

Definition validateIncomingCommit (current : State) (commit : Commit) : option error :=
  let cs := c_State commit in
  let f := c_Fence commit in
  return Some (Fails ErrInvalidCommit) when
      negb (String.eqb (s_ClusterID cs) (s_ClusterID current)) || negb (String.eqb (f_ClusterID f) (s_ClusterID current)) ;;
  return Some (Fails ErrStaleEpoch) when
      negb (String.eqb (s_LeaderID cs) (s_LeaderID current)) || negb (String.eqb (f_LeaderID f) (s_LeaderID current))
      || negb (s_Term cs =? s_Term current) || negb (s_Epoch cs =? s_Epoch current) || negb (f_Epoch f =? s_Epoch current) ;;
  return Some (Fails ErrStaleRevision) when
      negb (s_Revision cs =? u64 (s_Revision current + 1)) || negb (f_Revision f =? s_Revision cs) ;;
  return Some (Fails ErrInvalidCommit) when
      s_WriteFrozen cs || negb (String.eqb (s_FreezeReason cs) "") || IsZero (s_UpdatedAt cs)
      || String.eqb (d_Digest (s_Desired cs)) ""
      || negb (String.eqb (d_Digest (s_Desired cs)) (Digest (d_Payload (s_Desired cs))))
      || negb (String.eqb (f_Digest f) (d_Digest (s_Desired cs)))
      || negb (ValidIdentity (d_Version (s_Desired cs))) || negb (ValidIdentity (f_Nonce f))
      || negb (nonceLedgerExtendsCurrent (s_NonceLedger current) (s_NonceLedger cs) (f_Nonce f) (s_Revision cs)) ;;
  None.

Definition validRuntimeSnapshotCommit (commit : Commit) (state : State) : bool :=
  let cs := c_State commit in
  let f := c_Fence commit in
  negb (s_WriteFrozen cs) && String.eqb (s_FreezeReason cs) "" && negb (IsZero (s_UpdatedAt cs))
  && String.eqb (f_ClusterID f) (s_ClusterID cs) && String.eqb (f_LeaderID f) (s_LeaderID cs)
  && (f_Epoch f =? s_Epoch cs) && (f_Revision f =? s_Revision cs)
  && String.eqb (f_Digest f) (d_Digest (s_Desired cs))
  && (rev_at (s_NonceLedger cs) (f_Nonce f) =? s_Revision cs)
  && String.eqb (d_Digest (s_Desired cs)) (Digest (d_Payload (s_Desired cs)))
  && sameNativePayload cs state.

Definition isInitialCommit (current : State) (commit : Commit) : bool :=
  (s_Revision current =? 0) && negb (String.eqb (s_LeaderID current) "") && negb (s_Term current =? 0)
  && negb (s_Epoch current =? 0) && (s_Revision (c_State commit) =? 1)
  && String.eqb (s_LeaderID (c_State commit)) (s_LeaderID current)
  && (s_Term (c_State commit) =? s_Term current) && (s_Epoch (c_State commit) =? s_Epoch current).

Definition isProtectedInitialCommit (current : State) (commit : Commit) : bool :=
  s_WriteFrozen current && isInitialCommit current commit.

(** The nonce of a revision; a ledger has at most one. *)
Definition nonceForRevision (ledger : gmap string Z) (revision : Z) : string :=
  match List.find (fun e => snd e =? revision) (map_to_list ledger) with
  | Some (nonce, _) => nonce
  | None => ""
  end.

(** ** Applying the log *)

(** The timestamp of a leadership change never precedes that of the view. *)
Definition leadership_time (current machineState : State) (updatedAt : Time) : Time :=
  let updatedAt := if IsZero updatedAt then s_UpdatedAt machineState else updatedAt in
  if Before updatedAt (s_UpdatedAt current) then s_UpdatedAt current else updatedAt.

Definition advanceConsensusLeadership (current machineState : State) (term : Z) (leaderID : string) (updatedAt : Time)
  : result error State :=
  return Err (Fails ErrInvalidCommit) when
      (term =? 0) || negb (ValidIdentity leaderID) || String.eqb (s_ClusterID current) ""
      || negb (String.eqb (s_ClusterID machineState) (s_ClusterID current)) ;;
  return Err (Fails ErrLeadershipConflict) when
      (term <? s_Term current) || ((term =? s_Term current) && negb (String.eqb leaderID (s_LeaderID current))) ;;
  return Ok current when (term =? s_Term current) && String.eqb leaderID (s_LeaderID current) ;;
  return Err (Fails ErrInvalidCommit) when s_Epoch current =? two64 - 1 ;;
  let next := set_updated (set_freeze (set_leader current term leaderID (u64 (s_Epoch current + 1))) false "")
                (leadership_time current machineState updatedAt) in
  return Err (Fails ErrInvalidCommit) when
      negb (String.eqb (s_LeaderID machineState) (s_LeaderID next)) || negb (s_Term machineState =? s_Term next)
      || negb (s_Epoch machineState =? s_Epoch next) || negb (sameNativePayload machineState next) ;;
  Ok next.

(** [Runtime.Apply]: one committed log entry, and its response. *)
Definition fsm_Apply (r : Runtime) (now : Time) (cmd : Command) : Runtime * option error :=
  match cmd with
  | CmdLeadership term leaderID updatedAt =>
      match InstallLeadership (r_machine r) now term leaderID with
      | (m, Err e) => (with_rmachine r m, Some e)
      | (m, Ok machineState) =>
          match advanceConsensusLeadership (r_consensus r) machineState term leaderID updatedAt with
          | Err e => (with_rmachine r m, Some e)
          | Ok next => ({| r_machine := m; r_consensus := next; r_last := r_last r |}, None)
          end
      end
  | CmdCommit commit =>
      match LoadSnapshot (r_machine r) now (c_State commit) with
      | (m, Some e) => (with_rmachine r m, Some e)
      | (m, None) => ({| r_machine := m; r_consensus := c_State commit; r_last := Some commit |}, None)
      end
  | CmdUnknown kind => (r, Some (Foreign ("unknown native-raft command kind " ++ kind)))
  end.

(** ** Snapshots of the log *)

Record persistedSnapshot := { ps_State : State; ps_LastCommit : option Commit }.

Definition fsm_Snapshot (r : Runtime) : persistedSnapshot :=
  {| ps_State := r_consensus r; ps_LastCommit := r_last r |}.

(** [Runtime.Restore] of a decoded snapshot. *)
Definition fsm_Restore (r : Runtime) (now1 now2 : Time) (s : persistedSnapshot) : Runtime * option error :=
  return (r, Some (Fails ErrInvalidCommit)) when
      match ps_LastCommit s with Some c => negb (validRuntimeSnapshotCommit c (ps_State s)) | None => false end ;;
  match LoadSnapshot (r_machine r) now1 (ps_State s) with
  | (m, Some e) => (with_rmachine r m, Some e)
  | (m, None) =>
      ({| r_machine := FreezeWrites m now2 leadership_lost; r_consensus := ps_State s;
          r_last := ps_LastCommit s |}, None)
  end.

(** ** Reads *)

(** What the Raft library reports about the node. *)
Record RaftView := {
  rv_shutdown : bool;
  rv_leader : bool;             (* State() == Leader *)
  rv_term : Z;                  (* CurrentTerm() *)
  rv_leaderAddr : string;       (* LeaderWithID() *)
  rv_leaderID : string;
  rv_configured : bool;         (* the configuration lists this node at its address *)
  rv_nodeID : string
}.

Definition Current (r : Runtime) (v : RaftView) (clusterID : string) (own : string) : result error State :=
  return Err (Fails ErrStateNotFound) when negb (String.eqb clusterID own) ;;
  return Err (Foreign "native-raft node is closed") when rv_shutdown v ;;
  let state := consensusSnapshot r in
  return Err (Fails ErrStateNotFound) when
      negb (String.eqb (s_ClusterID state) clusterID) || String.eqb (s_LeaderID state) "" || (s_Term state =? 0) ;;
  Ok state.

Definition CurrentCommit (r : Runtime) (v : RaftView) (clusterID own : string) : result error Commit :=
  return Err (Fails ErrStateNotFound) when negb (String.eqb clusterID own) || rv_shutdown v ;;
  match r_last r with
  | Some commit => if sameNativePayload (c_State commit) (r_consensus r) then Ok commit
                   else Err (Fails ErrStateNotFound)
  | None => Err (Fails ErrStateNotFound)
  end.

Definition healthReady (r : Runtime) (v : RaftView) : bool :=
  return false when String.eqb (rv_leaderAddr v) "" || String.eqb (rv_leaderID v) "" ;;
  return false when negb (rv_configured v) ;;
  let state := Snapshot (r_machine r) in
  String.eqb (s_LeaderID state) (rv_leaderID v) && (s_Term state =? rv_term v)
  && negb (String.eqb (s_LeaderID state) "") && negb (s_Term state =? 0).

Definition ensureLeader (r : Runtime) (v : RaftView) : option error :=
  return Some (Fails ErrNotLeader) when negb (rv_leader v) ;;
  let state := Snapshot (r_machine r) in
  return Some (Fails ErrNotLeader) when
      negb (String.eqb (s_LeaderID state) (rv_nodeID v)) || negb (s_Term state =? rv_term v)
      || s_WriteFrozen state || negb (healthReady r v) ;;
  None.

Definition ensureLeaderForInitial (r : Runtime) (v : RaftView) : option error :=
  return Some (Fails ErrNotLeader) when negb (rv_leader v) || negb (healthReady r v) ;;
  let state := Snapshot (r_machine r) in
  return Some (Fails ErrNotLeader) when
      String.eqb (rv_leaderAddr v) "" || negb (String.eqb (rv_leaderID v) (rv_nodeID v))
      || negb (String.eqb (s_LeaderID state) (rv_nodeID v)) || negb (s_Term state =? rv_term v)
      || negb (s_Revision state =? 0) ;;
  None.

Definition ensureLeaderForReplicatedRetry (r : Runtime) (v : RaftView) : option error :=
  return Some (Fails ErrNotLeader) when negb (rv_leader v) ;;
  let state := Snapshot (r_machine r) in
  return Some (Fails ErrNotLeader) when
      negb (String.eqb (s_LeaderID state) (rv_nodeID v)) || negb (s_Term state =? rv_term v)
      || negb (healthReady r v) ;;
  None.

Definition Establish (r : Runtime) (v : RaftView) (state : State) : result error FenceToken :=
  match ensureLeaderForReplicatedRetry r v with
  | Some e => Err e
  | None =>
      let current := consensusSnapshot r in
      return Err ErrFenceStale when
          negb (String.eqb (s_ClusterID state) (s_ClusterID current)) || negb (String.eqb (s_LeaderID state) (s_LeaderID current))
          || negb (s_Term state =? s_Term current) || negb (s_Epoch state =? s_Epoch current)
          || (s_Revision state =? 0) || negb (s_Revision state =? s_Revision current)
          || negb (String.eqb (d_Digest (s_Desired state)) (d_Digest (s_Desired current))) ;;
      let nonce := nonceForRevision (s_NonceLedger state) (s_Revision state) in
      return Err ErrFenceStale when
          String.eqb nonce "" || negb (rev_at (s_NonceLedger current) nonce =? s_Revision state) ;;
      Ok {| f_ClusterID := s_ClusterID current; f_LeaderID := s_LeaderID current; f_Epoch := s_Epoch current;
            f_Revision := s_Revision current; f_Digest := d_Digest (s_Desired current); f_Nonce := nonce |}
  end.

Definition Runtime_CheckpointLeadership (r : Runtime) (v : RaftView) (durable consensus : State) : result error State :=
  return Err (Foreign "native-raft node is closed") when rv_shutdown v ;;
  return Err (Fails ErrStaleRevision) when negb (sameNativePayload durable consensus) ;;
  return Err (Fails ErrNotLeader) when
      String.eqb (rv_leaderAddr v) "" || String.eqb (rv_leaderID v) ""
      || negb (String.eqb (s_LeaderID consensus) (rv_leaderID v)) || negb (s_Term consensus =? rv_term v)
      || s_WriteFrozen consensus ;;
  let current := consensusSnapshot r in
  return Err ErrFenceStale when
      negb (sameNativePayload current consensus) || negb (String.eqb (s_LeaderID current) (s_LeaderID consensus))
      || negb (s_Term current =? s_Term consensus) || negb (s_Epoch current =? s_Epoch consensus)
      || negb (s_Revision current =? s_Revision consensus) ;;
  Ok current.

(** ** Proposals *)

(** The commit is the last one of the log and the machine holds it. *)
Definition commitAlreadyReplicated (r : Runtime) (current : State) (commit : Commit) : bool :=
  let cs := c_State commit in
  let f := c_Fence commit in
  match r_last r with
  | None => false
  | Some last =>
      return false when negb (runtimeCommitsEquivalent last commit) ;;
      return false when
          negb (String.eqb (s_ClusterID current) (s_ClusterID cs)) || negb (String.eqb (s_LeaderID current) (s_LeaderID cs))
          || negb (s_Term current =? s_Term cs) || negb (s_Epoch current =? s_Epoch cs)
          || negb (s_Revision current =? s_Revision cs) || negb (same_desired (s_Desired current) (s_Desired cs))
          || negb (String.eqb (f_ClusterID f) (s_ClusterID current)) || negb (String.eqb (f_LeaderID f) (s_LeaderID current))
          || negb (f_Epoch f =? s_Epoch current) || negb (f_Revision f =? s_Revision current)
          || negb (String.eqb (f_Digest f) (d_Digest (s_Desired current))) || s_WriteFrozen cs
          || negb (String.eqb (s_FreezeReason cs) "") || IsZero (s_UpdatedAt cs)
          || negb (String.eqb (d_Digest (s_Desired cs)) (Digest (d_Payload (s_Desired cs))))
          || negb (ValidIdentity (d_Version (s_Desired cs))) || negb (ValidIdentity (f_Nonce f))
          || negb (Nat.eqb (size (s_NonceLedger current)) (size (s_NonceLedger cs)))
          || negb (rev_at (s_NonceLedger cs) (f_Nonce f) =? s_Revision current) ;;
      return false when negb (ledger_within (s_NonceLedger current) (s_NonceLedger cs)) ;;
      match ValidateFence (r_machine r) f with None => true | Some _ => false end
  end.

(** The guards of [Runtime.Propose]: an error, or whether there is an entry
    to append. *)
Definition propose_guard (r : Runtime) (v : RaftView) (commit : Commit) : result error bool :=
  let current := Snapshot (r_machine r) in
  if commitAlreadyReplicated r current commit
  then match ensureLeaderForReplicatedRetry r v with Some e => Err e | None => Ok false end
  else
    match (if isProtectedInitialCommit current commit then ensureLeaderForInitial r v else ensureLeader r v) with
    | Some e => Err e
    | None =>
        match validateIncomingCommit current commit with
        | Some e => Err e
        | None =>
            return Ok true when isInitialCommit current commit ;;
            match ValidateCommit (r_machine r) commit with
            | Some e => Err e
            | None => Ok true
            end
        end
    end.

(** [Runtime.Propose]. [outcome] is what [raft.Apply] reports: an error, or the
    entry applied on this node at the given time. *)
Definition Runtime_Propose (r : Runtime) (v : RaftView) (commit : Commit) (outcome : option error) (now : Time)
  : Runtime * option error :=
  match propose_guard r v commit with
  | Err e => (r, Some e)
  | Ok false => (r, None)
  | Ok true =>
      match outcome with
      | Some e => (with_rmachine r (FreezeWrites (r_machine r) now "raft commit failed"), Some e)
      | None => fsm_Apply r now (CmdCommit commit)
      end
  end.

(** [persistLeadership]: the entry a new leader appends, if any. *)
Definition persistLeadership (r : Runtime) (v : RaftView) (now : Time) : result error (option Command) :=
  return Err ErrNotReady when
      String.eqb (rv_leaderAddr v) "" || negb (String.eqb (rv_leaderID v) (rv_nodeID v)) || (rv_term v =? 0) ;;
  let state := Snapshot (r_machine r) in
  return Ok None when
      String.eqb (s_LeaderID state) (rv_nodeID v) && (s_Term state =? rv_term v) && negb (s_WriteFrozen state) ;;
  Ok (Some (CmdLeadership (rv_term v) (rv_nodeID v) now)).
