(* ===== verification/RaftFsmSafety.v ===== *)
(** * Replicas of the control plane agree

    The consensus view of a node is a function of the log alone: whatever the
    clocks, the local freezes and resumptions and the proposals of a node, its
    view after a log is that of every other node, and a snapshot restores it. *)

From S2P Require Import Prelude GoText Sha256 ControlState ControlFacts ControlSafety RaftFsm.

Open Scope list_scope.
Open Scope Z_scope.
Open Scope go_scope.

(** ** The specification: one log, one view *)

(** The fields of a state that replicas share; the freeze and the time of the
    local machine are its own. *)
Record same_core (a b : State) : Prop := {
  sc_cluster : s_ClusterID a = s_ClusterID b;
  sc_leader : s_LeaderID a = s_LeaderID b;
  sc_term : s_Term a = s_Term b;
  sc_epoch : s_Epoch a = s_Epoch b;
  sc_revision : s_Revision a = s_Revision b;
  sc_desired : s_Desired a = s_Desired b;
  sc_ledger : s_NonceLedger a = s_NonceLedger b
}.

(** The view of a node: its consensus state and the last commit. *)
Definition View : Type := State * option Commit.

Definition view_of (r : Runtime) : View := (r_consensus r, r_last r).

(** A new leader takes the next epoch at a time that does not precede the view. *)
Definition led_view (s : State) (term : Z) (leaderID : string) (updatedAt : Time) : State :=
  set_updated (set_freeze (set_leader s term leaderID (u64 (s_Epoch s + 1))) false "")
    (Z.max updatedAt (s_UpdatedAt s)).

(** The snapshot of a commit is valid and does not fall behind the view. *)
Definition view_accepts (s next : State) : option error :=
  match snapshot_fields next with
  | Some e => Some e
  | None => snapshot_advances {| m_state := s; m_committed := s; m_fences := ∅; m_committedFences := ∅;
                                 m_nonces := ∅; m_proposals := ∅ |} None next
  end.

Definition view_step (v : View) (cmd : Command) : View * option error :=
  let '(s, last) := v in
  match cmd with
  | CmdLeadership term leaderID updatedAt =>
      if (term =? 0) || negb (ValidIdentity leaderID) then (v, Some (Fails ErrInvalidProposal))
      else if (term <? s_Term s) || ((term =? s_Term s) && negb (String.eqb leaderID (s_LeaderID s)))
      then (v, Some (Fails ErrLeadershipConflict))
      else if term =? s_Term s then (v, None)
      else if s_Epoch s =? two64 - 1 then (v, Some (Fails ErrInvalidProposal))
      else ((led_view s term leaderID updatedAt, last), None)
  | CmdCommit c =>
      match view_accepts s (c_State c) with
      | Some e => (v, Some e)
      | None => ((c_State c, Some c), None)
      end
  | CmdUnknown kind => (v, Some (Foreign ("unknown native-raft command kind " ++ kind)))
  end.

(** ** Nodes *)

(** What happens on a node: entries of the log, and local operations. *)
Inductive NodeOp :=
| NodeLog (cmd : Command)
| NodeFreeze (reason : string)
| NodeResume (token : FenceToken)
| NodePropose (p : Proposal).

Definition node_step (r : Runtime) (now : Time) (op : NodeOp) : Runtime * option (option error) :=
  match op with
  | NodeLog cmd => let '(r, e) := fsm_Apply r now cmd in (r, Some e)
  | NodeFreeze reason => (with_rmachine r (FreezeWrites (r_machine r) now reason), None)
  | NodeResume token => (with_rmachine r (fst (ResumeWrites (r_machine r) now token)), None)
  | NodePropose p => (with_rmachine r (fst (Propose (r_machine r) now p)), None)
  end.

(** The node and the responses to its log entries. *)
Fixpoint node_run (r : Runtime) (ops : list (Time * NodeOp)) : Runtime * list (option error) :=
  match ops with
  | [] => (r, [])
  | (now, op) :: ops =>
      let '(r, e) := node_step r now op in
      let '(r, es) := node_run r ops in
      (r, match e with Some e => e :: es | None => es end)
  end.

Definition log_of (ops : list (Time * NodeOp)) : list Command :=
  omap (fun e => match snd e with NodeLog cmd => Some cmd | _ => None end) ops.

Fixpoint view_run (v : View) (log : list Command) : View * list (option error) :=
  match log with
  | [] => (v, [])
  | cmd :: log =>
      let '(v, e) := view_step v cmd in
      let '(v, es) := view_run v log in (v, e :: es)
  end.

(** Entries of their Go types, with the timestamp that leaders write. *)
Definition typed_command (cmd : Command) : Prop :=
  match cmd with
  | CmdLeadership term _ updatedAt => is_u64 term /\ 0 < updatedAt
  | CmdCommit c => typed_state (c_State c)
  | CmdUnknown _ => True
  end.

Definition typed_node_op (op : NodeOp) : Prop :=
  match op with NodeLog cmd => typed_command cmd | _ => True end.

(** The disciplined operations of the machine, on a node: no leadership entry
    while a proposal is tentative and writes are not frozen. *)
Definition node_disciplined (r : Runtime) (op : NodeOp) : bool :=
  match op with
  | NodeLog (CmdLeadership term leaderID _) => disciplined (r_machine r) (OpLead term leaderID)
  | NodePropose p => disciplined (r_machine r) (OpPropose p)
  | _ => true
  end.

Fixpoint node_run_disciplined (r : Runtime) (ops : list (Time * NodeOp)) : bool :=
  match ops with
  | [] => true
  | (now, op) :: ops => node_disciplined r op && node_run_disciplined (fst (node_step r now op)) ops
  end.

(** ** The invariant of a node *)

Record node_ok (r : Runtime) : Prop := {
  no_coherent : coherent (r_machine r);
  no_core : same_core (m_committed (r_machine r)) (r_consensus r)
}.

Lemma new_node_ok clusterID now m : NewStateMachine clusterID now = Ok m -> node_ok (NewRuntime m).
Proof. intros H. split; [by eapply new_coherent|]. by split. Qed.

Lemma same_core_refl s : same_core s s.
Proof. by split. Qed.

Lemma same_core_trans a b c : same_core a b -> same_core b c -> same_core a c.
Proof. intros [] []. split; congruence. Qed.

Lemma same_core_sym a b : same_core a b -> same_core b a.
Proof. intros []. by split. Qed.

Lemma zero_desired_fields : d_Version zero_desired = "" /\ d_Payload zero_desired = "" /\ d_Digest zero_desired = "".
Proof. done. Qed.

(** The guards of a snapshot only look at the shared fields. *)
Lemma snapshot_advances_core m m' s :
  aligned m -> aligned m' -> same_core (m_committed m) (m_committed m') ->
  snapshot_advances m None s = snapshot_advances m' None s.
Proof.
  intros Ha Ha' [Hc Hl Ht He Hr Hd Hn]. unfold snapshot_advances.
  rewrite <- (al_cluster _ Ha), <- (al_cluster _ Ha'), Hc, Hl, Ht, He, Hr, Hd, Hn. done.
Qed.

(** A machine in lead of its committed state, for the view. *)
Definition view_machine (s : State) : StateMachine :=
  {| m_state := s; m_committed := s; m_fences := ∅; m_committedFences := ∅; m_nonces := ∅; m_proposals := ∅ |}.

Lemma view_accepts_core r s :
  node_ok r -> view_accepts (r_consensus r) s
               = match snapshot_fields s with Some e => Some e | None => snapshot_advances (r_machine r) None s end.
Proof.
  intros [Hm Hc]. pose proof (ch_aligned _ Hm) as Ha. unfold view_accepts. destruct (snapshot_fields s); [done|].
  symmetry. apply snapshot_advances_core; [done| |exact Hc].
  split; try done; simpl; rewrite <- ?(sc_term _ _ Hc), <- ?(sc_epoch _ _ Hc), ?(al_term _ Ha), ?(al_epoch _ Ha); apply Ha.
Qed.

(** The committed state keeps its content under a disciplined change of leader. *)
Lemma lead_core m now term leaderID :
  coherent m -> disciplined m (OpLead term leaderID) = true ->
  let st := m_state (lead m now term leaderID) in
  m_committed (lead m now term leaderID) = st
  /\ s_ClusterID st = s_ClusterID (m_committed m) /\ s_LeaderID st = leaderID /\ s_Term st = term
  /\ s_Epoch st = u64 (s_Epoch (m_committed m) + 1) /\ s_Revision st = s_Revision (m_committed m)
  /\ s_Desired st = s_Desired (m_committed m) /\ s_NonceLedger st = s_NonceLedger (m_committed m).
Proof.
  intros Hm Hd st. unfold st. simpl in Hd. pose proof (ch_aligned _ Hm) as Ha.
  destruct (leadership_base m) as [base ledger] eqn:Eb.
  destruct (lead_state m now term leaderID _ _ Eb) as (Hcm & _ & _ & _ & _ & Hcl & Hl & Ht & He & Hr & Hds & Hld & _).
  rewrite Hcl, Hl, Ht, He, Hr, Hds, Hld.
  destruct (leadership_base_cases m) as [[E _]|[E Hor]]; rewrite E in Eb; injection Eb as <- <-; [by split_and!|].
  assert (Eq : s_Revision (m_committed m) = s_Revision (m_state m)).
  { destruct Hor as [Ef|]; [|done]. rewrite Ef in Hd. simpl in Hd. lia. }
  split_and!; try done; [by rewrite (al_cluster _ Ha)|by rewrite (al_epoch _ Ha)|by rewrite (ch_same _ Hm)|].
  symmetry. eapply ledger_unique; [apply Hm|apply Hm|done|apply Hm|]. rewrite Eq. apply Hm.
Qed.

Lemma sameNativePayload_eq a b : s_ClusterID a = s_ClusterID b -> s_Revision a = s_Revision b ->
  s_Desired a = s_Desired b -> s_NonceLedger a = s_NonceLedger b -> sameNativePayload a b = true.
Proof.
  intros Hc Hr Hd Hn. unfold sameNativePayload. rewrite Hc, Hr, Hd, Hn.
  rewrite String.eqb_refl, Z.eqb_refl, (proj2 (same_desired_eq _ _) eq_refl), Nat.eqb_refl. apply ledger_within_refl.
Qed.

(** ** Leadership entries *)

Lemma advance_led current machineState term leaderID updatedAt :
  term <> 0 -> ValidIdentity leaderID = true -> s_ClusterID current <> "" -> s_Term current < term ->
  s_Epoch current <> two64 - 1 -> 0 < updatedAt ->
  s_ClusterID machineState = s_ClusterID current -> s_LeaderID machineState = leaderID ->
  s_Term machineState = term -> s_Epoch machineState = u64 (s_Epoch current + 1) ->
  s_Revision machineState = s_Revision current -> s_Desired machineState = s_Desired current ->
  s_NonceLedger machineState = s_NonceLedger current ->
  advanceConsensusLeadership current machineState term leaderID updatedAt = Ok (led_view current term leaderID updatedAt).
Proof.
  intros Ht0 Hid Hcl Ht He Hu H1 H2 H3 H4 H5 H6 H7. unfold advanceConsensusLeadership.
  rewrite Hid, H1, String.eqb_refl. replace (term =? 0) with false by lia.
  replace (term <? s_Term current) with false by lia. replace (term =? s_Term current) with false by lia.
  replace (s_Epoch current =? two64 - 1) with false by lia.
  destruct (String.eqb_spec (s_ClusterID current) ""); [done|]. simpl.
  rewrite H2, H3, H4, String.eqb_refl, !Z.eqb_refl.
  rewrite sameNativePayload_eq by done. simpl. unfold led_view. do 2 f_equal.
  unfold leadership_time, IsZero, Before. replace (updatedAt =? 0) with false by lia.
  destruct (Z.ltb_spec updatedAt (s_UpdatedAt current)); lia.
Qed.

Lemma valid_nonempty s : ValidIdentity s = true -> s <> "".
Proof. by intros H ->. Qed.

Lemma node_log_leadership r now term leaderID updatedAt :
  node_ok r -> is_u64 term -> 0 < updatedAt -> disciplined (r_machine r) (OpLead term leaderID) = true ->
  node_ok (fst (fsm_Apply r now (CmdLeadership term leaderID updatedAt)))
  /\ view_step (view_of r) (CmdLeadership term leaderID updatedAt)
     = (view_of (fst (fsm_Apply r now (CmdLeadership term leaderID updatedAt))),
        snd (fsm_Apply r now (CmdLeadership term leaderID updatedAt))).
Proof.
  intros [Hm Hc] Hty Hu Hd. pose proof (ch_aligned _ Hm) as Ha.
  assert (Hcm : s_ClusterID (r_consensus r) = s_ClusterID (m_state (r_machine r))) by (rewrite <- (al_cluster _ Ha); symmetry; apply Hc).
  assert (Hne : s_ClusterID (r_consensus r) <> "") by (rewrite Hcm; apply valid_nonempty, Hm).
  assert (Ht : s_Term (m_state (r_machine r)) = s_Term (r_consensus r)) by (rewrite <- (al_term _ Ha); apply Hc).
  assert (Hl : s_LeaderID (m_state (r_machine r)) = s_LeaderID (r_consensus r)) by (rewrite <- (al_leader _ Ha); apply Hc).
  assert (He : s_Epoch (m_state (r_machine r)) = s_Epoch (r_consensus r)) by (rewrite <- (al_epoch _ Ha); apply Hc).
  unfold view_step, view_of, fsm_Apply, InstallLeadership. rewrite Ht, Hl, He.
  destruct (term =? 0) eqn:E0; [by split|]. destruct (ValidIdentity leaderID) eqn:Eid; [|by split]. simpl.
  destruct (term <? s_Term (r_consensus r)) eqn:E1; simpl.
  { unfold advanceConsensusLeadership. rewrite E0, Eid, E1. simpl.
    rewrite Hcm, String.eqb_refl, <- Hcm. destruct (String.eqb_spec (s_ClusterID (r_consensus r)) ""); [done|]. by split. }
  destruct (term =? s_Term (r_consensus r)) eqn:E2; simpl.
  { destruct (String.eqb leaderID (s_LeaderID (r_consensus r))) eqn:E3; simpl; [|by split].
    unfold advanceConsensusLeadership. rewrite E0, Eid, E1, E2, E3. simpl.
    rewrite Hcm, String.eqb_refl, <- Hcm. destruct (String.eqb_spec (s_ClusterID (r_consensus r)) ""); [done|]. by split. }
  destruct (s_Epoch (r_consensus r) =? two64 - 1) eqn:E4; simpl.
  { split; [|done]. split; [by apply overflow_coherent|]. destruct Hc. by split. }
  destruct (lead_core (r_machine r) now term leaderID Hm Hd) as (Hlc & H1 & H2 & H3 & H4 & H5 & H6 & H7).
  pose proof (lead_coherent _ now _ _ Hm Hty Hd) as Hm'.
  assert (Hsl : snapshotLocked (lead (r_machine r) now term leaderID) = m_state (lead (r_machine r) now term leaderID)).
  { unfold snapshotLocked. rewrite <- (ch_state_ledger _ Hm').
    by destruct (m_state (lead (r_machine r) now term leaderID)). }
  rewrite Hsl, advance_led; try done; try lia; rewrite ?H1, ?H4, ?H5, ?H6, ?H7; try apply Hc.
  2:{ by rewrite (sc_epoch _ _ Hc). }
  split; [|done]. split; [done|]. simpl. rewrite Hlc.
  split; simpl; rewrite ?H1, ?H2, ?H3, ?H4, ?H5, ?H6, ?H7; try done; try apply Hc. by rewrite (sc_epoch _ _ Hc).
Qed.

(** ** Commit entries *)

Lemma node_log_commit r now c :
  node_ok r -> typed_state (c_State c) ->
  node_ok (fst (fsm_Apply r now (CmdCommit c)))
  /\ view_step (view_of r) (CmdCommit c)
     = (view_of (fst (fsm_Apply r now (CmdCommit c))), snd (fsm_Apply r now (CmdCommit c))).
Proof.
  intros Hr Hty. pose proof Hr as [Hm Hc]. unfold view_step, view_of. rewrite (view_accepts_core r _ Hr).
  unfold fsm_Apply, LoadSnapshot, loadSnapshot.
  destruct (snapshot_fields (c_State c)) eqn:Ef; [by split; [split|]|].
  destruct (snapshot_advances (r_machine r) None (c_State c)) eqn:Ea; [by split; [split|]|].
  split; [|done]. pose proof (loadSnapshot_spec _ _ _ Ef Ea) as Hs. split; [by eapply loaded_coherent|].
  cbn [fst r_machine r_consensus].
  destruct (snapshot_loaded_state (r_machine r) now (c_State c)) as (Hcm & H1 & H2 & H3 & H4 & H5 & H6 & H7 & _).
  rewrite Hcm. by split.
Qed.

(** ** Local operations *)

Lemma node_local r now op m' : node_ok r -> typed_op op -> disciplined (r_machine r) op = true ->
  move (r_machine r) now op m' -> same_core (m_committed m') (m_committed (r_machine r)) ->
  node_ok (with_rmachine r m').
Proof.
  intros [Hm Hc] Hty Hd Hmv Hs. split; [by eapply coherent_move|]. simpl. by eapply same_core_trans.
Qed.

Lemma node_step_ok r now op :
  node_ok r -> typed_node_op op -> node_disciplined r op = true ->
  node_ok (fst (node_step r now op))
  /\ match op with
     | NodeLog cmd => view_step (view_of r) cmd
                      = (view_of (fst (node_step r now op)), default None (snd (node_step r now op)))
     | _ => view_of (fst (node_step r now op)) = view_of r
     end.
Proof.
  intros Hr Hty Hd. destruct op as [cmd|reason|token|p].
  - assert (H : node_ok (fst (fsm_Apply r now cmd))
                /\ view_step (view_of r) cmd = (view_of (fst (fsm_Apply r now cmd)), snd (fsm_Apply r now cmd))).
    { destruct cmd as [term leaderID updatedAt|c|kind]; simpl in Hty.
      - destruct Hty. by apply node_log_leadership.
      - by apply node_log_commit.
      - by split. }
    simpl. destruct (fsm_Apply r now cmd) as [r' e]. exact H.
  - split; [|done]. simpl. eapply (node_local r now (OpFreeze reason)); [done|done|done|constructor|]. by split.
  - split; [|done]. simpl. pose proof (step_move (r_machine r) now (OpResume token)) as Hmv. simpl in Hmv.
    eapply node_local; [done| | |exact Hmv|]; [done|done|].
    unfold ResumeWrites. destruct (validateResumeFenceLocked _ _); simpl; [apply same_core_refl|by split].
  - split; [|done]. simpl. pose proof (step_move (r_machine r) now (OpPropose p)) as Hmv. simpl in Hmv.
    eapply node_local; [done| | |exact Hmv|]; [done|done|].
    unfold Propose. destruct (propose_fields p); [apply same_core_refl|].
    destruct (propose_cas _ p); apply same_core_refl.
Qed.

Lemma node_run_spec ops : forall r,
  node_ok r -> Forall (fun e => typed_node_op (snd e)) ops -> node_run_disciplined r ops = true ->
  node_ok (fst (node_run r ops))
  /\ view_run (view_of r) (log_of ops) = (view_of (fst (node_run r ops)), snd (node_run r ops)).
Proof.
  induction ops as [|[now op] ops IH]; intros r Hr Hty Hd; [done|].
  simpl in Hd. apply andb_true_iff in Hd as [Hd1 Hd2]. apply Forall_cons in Hty as [Ht1 Ht2].
  destruct (node_step_ok r now op Hr Ht1 Hd1) as [Hr' Hv].
  simpl. destruct (node_step r now op) as [r' e] eqn:E. simpl in *.
  destruct (IH r' Hr' Ht2 Hd2) as [Hok Hrun]. destruct (node_run r' ops) as [r'' es]. simpl in *. split; [done|].
  destruct op as [cmd|reason|token|p]; simpl in *.
  - rewrite Hv. destruct (fsm_Apply r now cmd) as [ra ea]. injection E as <- <-. simpl. by rewrite Hrun.
  - injection E as <- <-. exact Hrun.
  - injection E as <- <-. exact Hrun.
  - injection E as <- <-. exact Hrun.
Qed.


(** Two nodes that start from the same view and apply the same log have the
    same consensus state and last commit and gave the same responses, whatever
    else happened on each of them. *)
Theorem replicas_agree r1 r2 ops1 ops2 :
  node_ok r1 -> node_ok r2 -> view_of r1 = view_of r2 -> log_of ops1 = log_of ops2 ->
  Forall (fun e => typed_node_op (snd e)) ops1 -> Forall (fun e => typed_node_op (snd e)) ops2 ->
  node_run_disciplined r1 ops1 = true -> node_run_disciplined r2 ops2 = true ->
  r_consensus (fst (node_run r1 ops1)) = r_consensus (fst (node_run r2 ops2))
  /\ r_last (fst (node_run r1 ops1)) = r_last (fst (node_run r2 ops2))
  /\ snd (node_run r1 ops1) = snd (node_run r2 ops2)
  /\ same_core (Snapshot (r_machine (fst (node_run r1 ops1)))) (Snapshot (r_machine (fst (node_run r2 ops2)))).
Proof.
  intros H1 H2 Hv Hl Ht1 Ht2 Hd1 Hd2.
  destruct (node_run_spec ops1 r1 H1 Ht1 Hd1) as [Ho1 E1]. destruct (node_run_spec ops2 r2 H2 Ht2 Hd2) as [Ho2 E2].
  rewrite Hv, Hl, E2 in E1. injection E1 as Ec El Es. split_and!; try congruence.
  eapply same_core_trans; [apply Ho1|]. unfold view_of in *. rewrite <- Ec. apply same_core_sym, Ho2.
Qed.

(** ** Snapshots restore the view *)

(** A commit as leaders write it: bound to itself and not frozen. *)
Definition self_bound (c : Commit) : Prop := validRuntimeSnapshotCommit c (c_State c) = true.

Definition bound_command (cmd : Command) : Prop :=
  match cmd with CmdCommit c => self_bound c | _ => True end.

(** The guard of a proposal establishes it. *)
Lemma incoming_self_bound current c : validateIncomingCommit current c = None -> self_bound c.
Proof.
  unfold validateIncomingCommit. intros H. guards H. unfold self_bound, validRuntimeSnapshotCommit.
  match goal with G : nonceLedgerExtendsCurrent _ _ _ _ = true |- _ => unfold nonceLedgerExtendsCurrent in G; branch G end.
  props.
  rewrite sameNativePayload_eq by done.
  repeat match goal with |- _ && _ = true => apply andb_true_iff; split end; try done;
    try (apply negb_true_iff; assumption); try (apply String.eqb_eq; congruence); apply Z.eqb_eq; congruence.
Qed.

Record view_ok (v : View) : Prop := {
  vo_fields : snapshot_fields (fst v) = None;
  vo_last : forall c, snd v = Some c -> validRuntimeSnapshotCommit c (fst v) = true
}.

Lemma sameNativePayload_core a s s' :
  s_ClusterID s = s_ClusterID s' -> s_Revision s = s_Revision s' -> s_Desired s = s_Desired s' ->
  s_NonceLedger s = s_NonceLedger s' -> sameNativePayload a s = sameNativePayload a s'.
Proof. intros Hc Hr Hd Hn. unfold sameNativePayload. by rewrite Hc, Hr, Hd, Hn. Qed.

(** A led state is valid when the state was. *)
Lemma led_fields s term leaderID updatedAt :
  is_u64 (s_Epoch s) -> s_Epoch s <> two64 - 1 -> term <> 0 -> ValidIdentity leaderID = true ->
  snapshot_fields s = None -> snapshot_fields (led_view s term leaderID updatedAt) = None.
Proof.
  intros Hu He Ht Hid Hs. unfold is_u64 in Hu. unfold snapshot_fields in *. simpl.
  repeat apply guard_None in Hs as [?G Hs]. rewrite G, G0, G1, G2, Hid.
  replace (term =? 0) with false by lia.
  replace (u64 (s_Epoch s + 1) =? 0) with false by (rewrite u64_small by (unfold two64 in *; lia); lia).
  destruct (String.eqb_spec leaderID ""); [|done]. subst. done.
Qed.

Lemma view_step_ok v cmd :
  is_u64 (s_Epoch (fst v)) -> view_ok v -> typed_command cmd -> bound_command cmd -> view_ok (fst (view_step v cmd)).
Proof.
  intros Hu Hv Hty Hb. destruct v as [s last]. destruct cmd as [term leaderID updatedAt|c|kind]; simpl; [| |done].
  - destruct (_ || negb _) eqn:E0; [done|]. destruct (_ || (_ && _)); [done|]. destruct (term =? s_Term s); [done|].
    destruct (s_Epoch s =? two64 - 1) eqn:E1; [done|]. props. split; simpl.
    + apply led_fields; try done. apply Hv.
    + intros c Hc. pose proof (vo_last _ Hv c Hc) as Hl. simpl in Hl. unfold validRuntimeSnapshotCommit in *.
      by rewrite (sameNativePayload_core _ (led_view s term leaderID updatedAt) s).
  - unfold view_accepts. destruct (snapshot_fields (c_State c)) eqn:Ef; [done|].
    destruct (snapshot_advances _ _ _); [done|]. split; [done|]. intros c' [= <-]. exact Hb.
Qed.

Lemma node_epoch r : node_ok r -> is_u64 (s_Epoch (r_consensus r)).
Proof.
  intros [Hm Hc]. rewrite <- (sc_epoch _ _ Hc), (al_epoch _ (ch_aligned _ Hm)). apply (ch_aligned _ Hm).
Qed.

Lemma node_run_view_ok ops : forall r,
  node_ok r -> view_ok (view_of r) -> Forall (fun e => typed_node_op (snd e)) ops -> node_run_disciplined r ops = true ->
  Forall bound_command (log_of ops) -> view_ok (view_of (fst (node_run r ops))).
Proof.
  induction ops as [|[now op] ops IH]; intros r Hr Hv Hty Hd Hb; [done|].
  simpl in Hd. apply andb_true_iff in Hd as [Hd1 Hd2]. apply Forall_cons in Hty as [Ht1 Ht2].
  destruct (node_step_ok r now op Hr Ht1 Hd1) as [Hr' Hs].
  assert (Hv' : view_ok (view_of (fst (node_step r now op)))).
  { destruct op as [cmd|reason|token|p]; try by rewrite Hs.
    simpl in Hb. apply Forall_cons in Hb as [Hb1 _].
    pose proof (view_step_ok (view_of r) cmd (node_epoch r Hr) Hv Ht1 Hb1) as H. by rewrite Hs in H. }
  assert (Hb' : Forall bound_command (log_of ops)).
  { destruct op; simpl in Hb; try done. by apply Forall_cons in Hb as [_ Hb]. }
  specialize (IH _ Hr' Hv' Ht2 Hd2 Hb'). simpl. destruct (node_step r now op) as [r' e]. simpl in *.
  by destruct (node_run r' ops).
Qed.

(** A new machine accepts any valid snapshot of its cluster. *)
Lemma fresh_accepts clusterID now m s :
  NewStateMachine clusterID now = Ok m -> snapshot_fields s = None -> s_ClusterID s = clusterID ->
  0 <= s_Revision s -> 0 <= s_Epoch s -> 0 <= s_Term s ->
  snapshot_advances m None s = None.
Proof.
  unfold NewStateMachine. intros H Hs Hc Hr He Ht. branch H. injection H as <-.
  unfold snapshot_fields in Hs. repeat apply guard_None in Hs as [?G Hs].
  unfold snapshot_advances. simpl. rewrite Hc, String.eqb_refl.
  replace (s_Revision s <? 0) with false by lia. replace (s_Epoch s <? 0) with false by lia.
  replace (s_Term s <? 0) with false by lia. rewrite andb_false_r. simpl.
  destruct (Z.eqb_spec (s_Epoch s) 0) as [E0|E0]; simpl.
  - rewrite E0 in *. simpl in *. rewrite orb_true_r, andb_true_r in G6.
    destruct (String.eqb_spec (s_LeaderID s) "") as [->|]; [|done]. simpl in *. props.
    match goal with G : s_Term s = 0 |- _ => rewrite G end. simpl.
    destruct (Z.eqb_spec (s_Revision s) 0) as [->|]; done.
  - destruct (String.eqb (s_LeaderID s) ""); simpl in *; props; [lia|].
    replace (0 <? s_Epoch s) with true by lia. replace (s_Term s <=? 0) with false by lia. simpl.
    destruct (Z.eqb_spec (s_Revision s) 0) as [->|]; done.
Qed.

Lemma view_cluster log : forall v, s_ClusterID (fst (fst (view_run v log))) = s_ClusterID (fst v).
Proof.
  assert (Hs : forall v cmd, s_ClusterID (fst (fst (view_step v cmd))) = s_ClusterID (fst v)).
  { intros [s last] cmd. destruct cmd as [term leaderID updatedAt|c|kind]; simpl; [| |done].
    - by repeat match goal with |- context [if ?b then _ else _] => destruct b end.
    - unfold view_accepts. destruct (snapshot_fields (c_State c)); [done|].
      destruct (snapshot_advances _ _ _) eqn:Ea; [done|]. simpl.
      unfold snapshot_advances in Ea. apply guard_None in Ea as [Ea _]. props. done. }
  induction log as [|cmd log IH]; intros v; [done|]. simpl. specialize (Hs v cmd).
  destruct (view_step v cmd) as [v' e]. specialize (IH v'). simpl in *.
  destruct (view_run v' log) as [v'' es]. simpl in *. congruence.
Qed.

(** The snapshot of a node restores its view on a new node: the consensus
    state and the last commit are the same, the machine holds the committed
    content and is frozen until the leadership is known, and the restored node
    agrees with the others on the rest of the log. *)
Theorem restore_round_trip clusterID t1 t2 m1 m2 ops now1 now2 :
  NewStateMachine clusterID t1 = Ok m1 -> NewStateMachine clusterID t2 = Ok m2 ->
  Forall (fun e => typed_node_op (snd e)) ops -> node_run_disciplined (NewRuntime m1) ops = true ->
  Forall bound_command (log_of ops) ->
  let r := fst (node_run (NewRuntime m1) ops) in
  let '(r', e) := fsm_Restore (NewRuntime m2) now1 now2 (fsm_Snapshot r) in
  e = None /\ view_of r' = view_of r /\ node_ok r'
  /\ s_WriteFrozen (Snapshot (r_machine r')) = true /\ s_FreezeReason (Snapshot (r_machine r')) = leadership_lost.
Proof.
  intros Hn1 Hn2 Hty Hd Hb r.
  pose proof (new_node_ok _ _ _ Hn1) as Hr0.
  assert (Hv0 : view_ok (view_of (NewRuntime m1))).
  { split; [|done]. simpl. unfold Snapshot. unfold NewStateMachine in Hn1. branch Hn1. injection Hn1 as <-. simpl.
    unfold snapshot_fields. simpl. by rewrite E. }
  destruct (node_run_spec ops _ Hr0 Hty Hd) as [Hr _]. pose proof (node_run_view_ok ops _ Hr0 Hv0 Hty Hd Hb) as Hv.
  fold r in Hr, Hv. destruct Hv as [Hf Hl]. simpl in Hf, Hl.
  pose proof Hr as [Hm Hc]. pose proof (ch_aligned _ Hm) as Ha.
  assert (Hcl : s_ClusterID (r_consensus r) = clusterID).
  { pose proof (view_cluster (log_of ops) (view_of (NewRuntime m1))) as E.
    rewrite (proj2 (node_run_spec ops _ Hr0 Hty Hd)) in E. simpl in E. fold r in E. rewrite E.
    unfold NewStateMachine in Hn1. branch Hn1. by injection Hn1 as <-. }
  assert (Hty' : typed_state (r_consensus r)).
  { pose proof (ch_revision _ Hm). pose proof (ch_max _ Hm). pose proof (ch_committed_ledger _ Hm) as Hlo.
    split; rewrite <- ?(sc_term _ _ Hc), <- ?(sc_epoch _ _ Hc), <- ?(sc_revision _ _ Hc), <- ?(sc_ledger _ _ Hc).
    - rewrite (al_term _ Ha). apply Ha.
    - rewrite (al_epoch _ Ha). apply Ha.
    - unfold is_u64, two64 in *. lia.
    - apply Forall_forall. intros [n x] Hin. apply elem_of_map_to_list in Hin.
      destruct (lo_entry _ _ Hlo _ _ Hin). simpl. lia. }
  assert (Hadv : snapshot_advances m2 None (r_consensus r) = None).
  { apply (fresh_accepts _ _ _ _ Hn2 Hf Hcl); apply Hty'. }
  unfold fsm_Restore, fsm_Snapshot. simpl.
  replace (match r_last r with Some c => negb (validRuntimeSnapshotCommit c (r_consensus r)) | None => false end) with false
    by (destruct (r_last r) as [c|]; [by rewrite Hl|done]).
  unfold LoadSnapshot, loadSnapshot. rewrite Hf, Hadv. cbv iota zeta.
  pose proof (loaded_coherent m2 now1 _ None (new_coherent _ _ _ Hn2) Hty' (loadSnapshot_spec _ _ _ Hf Hadv)) as Hm'.
  destruct (snapshot_loaded_state m2 now1 (r_consensus r)) as (Hcm & H1 & H2 & H3 & H4 & H5 & H6 & H7 & _).
  split_and!; try done. split; [by apply refrozen_coherent|]. cbn [r_machine r_consensus FreezeWrites m_committed].
  eapply same_core_trans with (b := m_committed (snapshot_loaded m2 now1 (r_consensus r))); [by split|].
  rewrite Hcm. by split.
Qed.
