(* ===== verification/PgStore.v ===== *)
(** * The durable store (internal/controlplane/postgres/store.go)

    The two tables that the store owns, as maps, and its transactions as
    functions on them. PostgreSQL is a service: a call is given its outcome
    (the statements work, one of them fails and the transaction is rolled
    back, or the commit is applied but its acknowledgement is lost), and the
    instant that a TIMESTAMPTZ column returns for a stored instant is a
    parameter. The JSON columns hold the values that they encode. The last part
    is what the tables keep whatever fails. *)

From S2P Require Import Prelude GoText Sha256 ControlState JsonValid ControlFacts.

Open Scope list_scope.
Open Scope Z_scope.
Open Scope go_scope.

Definition ErrInvalidStore : error := Foreign "invalid control-plane PostgreSQL store".
Definition ErrCommitConflict : error := Foreign "control-plane commit conflicts with an existing tuple".
Definition ErrStaleCommit : error := Foreign "control-plane commit is stale".
Definition ErrSequenceGap : error := Foreign "control-plane commit has a revision gap".
Definition PgErrWritesFrozen : error := Foreign "control-plane writes are frozen".

(** ** Tables *)

(** A row of cheesewaf_controlplane_state, by cluster. *)
Record StateRow := {
  sr_leader : string; sr_term : Z; sr_epoch : Z; sr_revision : Z; sr_version : string; sr_digest : string;
  sr_payload : string; sr_frozen : bool; sr_reason : string; sr_updated : Time; sr_ledger : gmap string Z
}.

(** The primary key of cheesewaf_controlplane_commits. *)
Definition CommitRowKey : Type := string * Z * Z * string.

Record Database := {
  db_states : gmap string StateRow;
  db_commits : gmap CommitRowKey Commit
}.

Definition empty_db : Database := {| db_states := ∅; db_commits := ∅ |}.

Definition row_key (c : Commit) : CommitRowKey :=
  (f_ClusterID (c_Fence c), i64 (f_Epoch (c_Fence c)), i64 (f_Revision (c_Fence c)), f_Nonce (c_Fence c)).

Inductive Outcome :=
| Works
| RolledBack
| AckLost.

(** ** Validation *)

Definition validateNonceLedger (ledger : gmap string Z) (revision : Z) : option error :=
  return (if Nat.eqb (size ledger) 0 then None else Some ErrInvalidStore) when revision =? 0 ;;
  return Some ErrInvalidStore when revision =? two64 - 1 ;;
  return Some ErrInvalidStore when Nat.eqb (size ledger) 0 || negb (Z.of_nat (size ledger) =? revision) ;;
  match ledger_loop revision [] (map_to_list ledger) with
  | None => Some ErrInvalidStore
  | Some seen =>
      if forallb (fun k => existsb (Z.eqb (Z.of_nat k)) seen) (seq 1 (Z.to_nat revision))
      then None else Some ErrInvalidStore
  end.

Definition validateCommitFields (commit : Commit) : option error :=
  let cs := c_State commit in
  let f := c_Fence commit in
  let d := s_Desired cs in
  return Some ErrInvalidStore when
      (max_int64 <? s_Term cs) || (max_int64 <? s_Epoch cs) || (max_int64 <? s_Revision cs)
      || (max_int64 <? f_Epoch f) || (max_int64 <? f_Revision f) ;;
  return Some ErrInvalidStore when
      negb (ValidIdentity (f_ClusterID f)) || negb (ValidIdentity (f_LeaderID f)) || negb (ValidIdentity (f_Nonce f))
      || negb (ValidIdentity (s_ClusterID cs)) || negb (ValidIdentity (s_LeaderID cs)) || negb (ValidIdentity (d_Version d))
      || (f_Revision f =? 0) || (f_Epoch f =? 0) || (s_Term cs =? 0)
      || negb (String.eqb (s_ClusterID cs) (f_ClusterID f)) || negb (String.eqb (s_LeaderID cs) (f_LeaderID f))
      || negb (s_Epoch cs =? f_Epoch f) || negb (s_Revision cs =? f_Revision f) || s_WriteFrozen cs
      || IsZero (s_UpdatedAt cs) || String.eqb (d_Payload d) "" || negb (json_valid (d_Payload d))
      || negb (String.eqb (d_Digest d) (Digest (d_Payload d))) || negb (String.eqb (f_Digest f) (d_Digest d))
      || negb (rev_at (s_NonceLedger cs) (f_Nonce f) =? f_Revision f) ;;
  validateNonceLedger (s_NonceLedger cs) (s_Revision cs).

Definition pg_sameState (a b : State) : bool :=
  return false when
    negb (String.eqb (s_ClusterID a) (s_ClusterID b)) || negb (String.eqb (s_LeaderID a) (s_LeaderID b))
    || negb (s_Term a =? s_Term b) || negb (s_Epoch a =? s_Epoch b) || negb (s_Revision a =? s_Revision b)
    || negb (same_desired (s_Desired a) (s_Desired b)) || negb (Bool.eqb (s_WriteFrozen a) (s_WriteFrozen b))
    || negb (String.eqb (s_FreezeReason a) (s_FreezeReason b)) || negb (s_UpdatedAt a =? s_UpdatedAt b)
    || negb (Nat.eqb (size (s_NonceLedger a)) (size (s_NonceLedger b))) ;;
  ledger_within (s_NonceLedger a) (s_NonceLedger b).

Definition validateTransition (current : State) (commit : Commit) : option error :=
  let next := c_State commit in
  return Some ErrStaleCommit when
      (s_Term next <? s_Term current) || (s_Epoch next <? s_Epoch current) || (s_Revision next <? s_Revision current) ;;
  return Some PgErrWritesFrozen when s_WriteFrozen current ;;
  return Some ErrSequenceGap when negb (s_Revision next =? u64 (s_Revision current + 1)) ;;
  return Some ErrCommitConflict when
      (0 <? s_Revision current) && (s_Epoch next =? s_Epoch current)
      && (negb (s_Term next =? s_Term current) || negb (String.eqb (s_LeaderID next) (s_LeaderID current))) ;;
  return Some ErrCommitConflict when
      (0 <? s_Revision current) && (s_Epoch current <? s_Epoch next) && (s_Term next <=? s_Term current) ;;
  return Some ErrCommitConflict when
      negb (Nat.eqb (size (s_NonceLedger next)) (size (s_NonceLedger current) + 1)) ;;
  return Some ErrCommitConflict when
      has (s_NonceLedger current) (f_Nonce (c_Fence commit))
      || negb (rev_at (s_NonceLedger next) (f_Nonce (c_Fence commit)) =? s_Revision next) ;;
  return Some ErrCommitConflict when negb (ledger_within (s_NonceLedger current) (s_NonceLedger next)) ;;
  None.

Definition validateLeadershipCheckpointTransition (current next : State) : option error :=
  return Some ErrCommitConflict when
      String.eqb (s_ClusterID current) "" || negb (String.eqb (s_ClusterID next) (s_ClusterID current))
      || (s_Revision next =? 0) || negb (s_Revision next =? s_Revision current) ;;
  return Some ErrCommitConflict when
      negb (same_desired (s_Desired next) (s_Desired current))
      || negb (sameNonceLedger (s_NonceLedger current) (s_NonceLedger next)) ;;
  return Some ErrCommitConflict when
      negb (ValidIdentity (s_LeaderID next)) || (s_Term next =? 0) || (s_Epoch next =? 0) || s_WriteFrozen next
      || negb (String.eqb (s_FreezeReason next) "") || IsZero (s_UpdatedAt next)
      || Before (s_UpdatedAt next) (s_UpdatedAt current) ;;
  return Some ErrStaleCommit when (s_Epoch next <? s_Epoch current) || (s_Term next <? s_Term current) ;;
  if s_Epoch next =? s_Epoch current
  then return Some ErrCommitConflict when
           negb (s_Term next =? s_Term current) || negb (String.eqb (s_LeaderID next) (s_LeaderID current)) ;;
       None
  else return Some ErrStaleCommit when s_Term next <=? s_Term current ;;
       None.

(** ** Rows *)

Definition row_of (s : State) : StateRow :=
  {| sr_leader := s_LeaderID s; sr_term := i64 (s_Term s); sr_epoch := i64 (s_Epoch s);
     sr_revision := i64 (s_Revision s); sr_version := d_Version (s_Desired s); sr_digest := d_Digest (s_Desired s);
     sr_payload := d_Payload (s_Desired s); sr_frozen := s_WriteFrozen s; sr_reason := s_FreezeReason s;
     sr_updated := s_UpdatedAt s; sr_ledger := s_NonceLedger s |}.

(** [upsertStateTx] *)
Definition upsert (db : Database) (s : State) : Database :=
  {| db_states := <[s_ClusterID s := row_of s]> (db_states db); db_commits := db_commits db |}.

Section Store.
Context (pg_time : Time -> Time).

Definition decodeState (clusterID : string) (r : StateRow) : result error State :=
  let updated := pg_time (sr_updated r) in
  return Err ErrInvalidStore when (sr_term r <? 0) || (sr_epoch r <? 0) || (sr_revision r <? 0) ;;
  return Err ErrInvalidStore when
      negb (ValidIdentity clusterID) || (negb (String.eqb (sr_leader r) "") && negb (ValidIdentity (sr_leader r))) ;;
  return Err ErrInvalidStore when
      String.eqb (sr_leader r) "" && (negb (sr_term r =? 0) || negb (sr_epoch r =? 0) || negb (sr_frozen r)) ;;
  return Err ErrInvalidStore when
      negb (String.eqb (sr_leader r) "") && ((sr_term r =? 0) || (sr_epoch r =? 0)) ;;
  return Err ErrInvalidStore when
      (0 <? sr_revision r) &&
      (negb (ValidIdentity (sr_version r)) || String.eqb (sr_payload r) "" || negb (json_valid (sr_payload r))
       || negb (len (sr_digest r) =? 64) || negb (String.eqb (sr_digest r) (ToLower (sr_digest r)))
       || negb (String.eqb (sr_digest r) (Digest (sr_payload r))) || IsZero updated) ;;
  match validateNonceLedger (sr_ledger r) (sr_revision r) with
  | Some e => Err e
  | None =>
      Ok {| s_ClusterID := clusterID; s_LeaderID := sr_leader r; s_Term := sr_term r; s_Epoch := sr_epoch r;
            s_Revision := sr_revision r;
            s_Desired := {| d_Version := sr_version r; d_Digest := sr_digest r; d_Payload := sr_payload r |};
            s_WriteFrozen := sr_frozen r; s_FreezeReason := sr_reason r; s_UpdatedAt := updated;
            s_NonceLedger := sr_ledger r |}
  end.

(** [loadStateTx]; no row is [ErrStateNotFound]. *)
Definition loadStateTx (db : Database) (clusterID : string) : result error State :=
  match db_states db !! clusterID with
  | None => Err (Fails ErrStateNotFound)
  | Some r => decodeState clusterID r
  end.

Definition LoadState (db : Database) (works : bool) (clusterID : string) : result error State :=
  return Err ErrInvalidStore when negb (ValidIdentity clusterID) ;;
  return Err ErrInvalidStore when negb works ;;
  loadStateTx db clusterID.

(** The unique constraints on (cluster, revision) and (cluster, nonce). *)
Definition violates_unique (db : Database) (c : Commit) : bool :=
  existsb (fun e =>
    let '(cluster, _, revision, nonce) := fst e in
    String.eqb cluster (f_ClusterID (c_Fence c))
    && ((revision =? i64 (f_Revision (c_Fence c))) || String.eqb nonce (f_Nonce (c_Fence c))))
    (map_to_list (db_commits db)).

(** The row of the same tuple holds this very commit. *)
Definition same_row (old commit : Commit) : bool :=
  String.eqb (f_LeaderID (c_Fence old)) (f_LeaderID (c_Fence commit))
  && (i64 (s_Term (c_State old)) =? i64 (s_Term (c_State commit)))
  && String.eqb (f_Digest (c_Fence old)) (f_Digest (c_Fence commit))
  && String.eqb (d_Version (s_Desired (c_State old))) (d_Version (s_Desired (c_State commit)))
  && String.eqb (d_Payload (s_Desired (c_State old))) (d_Payload (s_Desired (c_State commit)))
  && pg_sameState (c_State old) (c_State commit).

(** What precedes the insertion of a new row. *)
Definition check_sequence (db : Database) (commit : Commit) : option error :=
  match loadStateTx db (f_ClusterID (c_Fence commit)) with
  | Err e =>
      if Is e ErrStateNotFound
      then return Some ErrSequenceGap when negb (s_Revision (c_State commit) =? 1) ;; None
      else Some e
  | Ok current => validateTransition current commit
  end.

(** The transaction of [AppendCommit]. *)
Definition append_tx (db : Database) (commit : Commit) : result error Database :=
  match db_commits db !! row_key commit with
  | Some old => if same_row old commit then Ok db else Err ErrCommitConflict
  | None =>
      match check_sequence db commit with
      | Some e => Err e
      | None =>
          return Err ErrCommitConflict when violates_unique db commit ;;
          Ok (upsert {| db_states := db_states db; db_commits := <[row_key commit := commit]> (db_commits db) |}
                (c_State commit))
      end
  end.

(** A transaction with its outcome. *)
Definition transact (db : Database) (o : Outcome) (tx : result error Database) : Database * option error :=
  match o with
  | RolledBack => (db, Some ErrInvalidStore)
  | Works => match tx with Ok db' => (db', None) | Err e => (db, Some e) end
  | AckLost => match tx with Ok db' => (db', Some ErrInvalidStore) | Err e => (db, Some e) end
  end.

Definition AppendCommit (db : Database) (o : Outcome) (commit : Commit) : Database * option error :=
  match validateCommitFields commit with
  | Some e => (db, Some e)
  | None => transact db o (append_tx db commit)
  end.

Definition checkpoint_tx (db : Database) (next : State) : result error Database :=
  let? current := loadStateTx db (s_ClusterID next) in
  match validateLeadershipCheckpointTransition current next with
  | Some e => Err e
  | None => Ok (upsert db next)
  end.

Definition Store_CheckpointLeadership (db : Database) (o : Outcome) (next : State) : Database * option error :=
  return (db, Some ErrInvalidStore) when negb (ValidIdentity (s_ClusterID next)) ;;
  transact db o (checkpoint_tx db next).

End Store.

(** ** Safety of the durable store

    The history of commits of a cluster is contiguous and never rewritten, and
    an acknowledged commit is acknowledged again, whatever is written later. *)

(** Commits of their Go types. *)
Definition typed_commit (c : Commit) : Prop :=
  is_u64 (f_Epoch (c_Fence c)) /\ is_u64 (f_Revision (c_Fence c)) /\ typed_state (c_State c).

Record fields_ok (c : Commit) : Prop := {
  fk_epoch : f_Epoch (c_Fence c) <= max_int64;
  fk_revision : f_Revision (c_Fence c) <= max_int64;
  fk_same_revision : s_Revision (c_State c) = f_Revision (c_Fence c);
  fk_nonzero : f_Revision (c_Fence c) <> 0;
  fk_cluster : s_ClusterID (c_State c) = f_ClusterID (c_Fence c);
  fk_leader : s_LeaderID (c_State c) = f_LeaderID (c_Fence c);
  fk_same_epoch : s_Epoch (c_State c) = f_Epoch (c_Fence c);
  fk_digest : f_Digest (c_Fence c) = d_Digest (s_Desired (c_State c));
  fk_ledger : validNonceLedger (s_NonceLedger (c_State c)) (s_Revision (c_State c)) = true
}.

Lemma validateCommitFields_spec c : validateCommitFields c = None -> fields_ok c.
Proof.
  unfold validateCommitFields. intros H. apply guard_None in H as [H1 H]. apply guard_None in H as [H2 H].
  assert (Hl : validNonceLedger (s_NonceLedger (c_State c)) (s_Revision (c_State c)) = true).
  { revert H. unfold validateNonceLedger, validNonceLedger. destruct (s_Revision (c_State c) =? 0).
    - by destruct (Nat.eqb _ _).
    - destruct (_ =? two64 - 1); [done|]. destruct (negb (Z.of_nat _ =? _)); [by rewrite orb_true_r|].
      destruct (Nat.eqb _ 0); [done|]. simpl. destruct (ledger_loop _ _ _); [|done]. by destruct (forallb _ _). }
  props. by split.
Qed.

Lemma i64_id z : 0 <= z <= max_int64 -> i64 z = z.
Proof. intros H. apply i64_small. unfold in_i64, min_int64. lia. Qed.

Lemma row_key_small c : typed_commit c -> fields_ok c ->
  row_key c = (f_ClusterID (c_Fence c), f_Epoch (c_Fence c), f_Revision (c_Fence c), f_Nonce (c_Fence c)).
Proof.
  intros (He & Hr & _) []. unfold is_u64 in *. unfold row_key. rewrite !i64_id by lia. done.
Qed.

Lemma pg_sameState_spec a b : pg_sameState a b = true <-> equivalent_states a b.
Proof. apply equivalent_spec. Qed.

Lemma same_row_refl c : same_row c c = true.
Proof.
  unfold same_row. rewrite !String.eqb_refl, Z.eqb_refl. simpl. apply pg_sameState_spec.
  split; try done. apply ledger_within_refl.
Qed.

Section Safety.
Context (pg_time : Time -> Time).

(** ** Writes *)

Inductive Write :=
| WriteCommit (o : Outcome) (c : Commit)
| WriteLeadership (o : Outcome) (s : State).

Definition write (db : Database) (w : Write) : Database :=
  match w with
  | WriteCommit o c => fst (AppendCommit pg_time db o c)
  | WriteLeadership o s => fst (Store_CheckpointLeadership pg_time db o s)
  end.

Definition writes (db : Database) (ws : list Write) : Database := fold_left write ws db.

Definition typed_write (w : Write) : Prop :=
  match w with WriteCommit _ c => typed_commit c | WriteLeadership _ s => typed_state s end.

(** What a write does: nothing, a new row with its state, or new leadership
    of the stored state. *)
Inductive written (db : Database) : Database -> Prop :=
| wr_none : written db db
| wr_commit c :
    typed_commit c -> fields_ok c -> db_commits db !! row_key c = None ->
    check_sequence pg_time db c = None -> violates_unique db c = false ->
    written db (upsert {| db_states := db_states db; db_commits := <[row_key c := c]> (db_commits db) |} (c_State c))
| wr_leader s r :
    db_states db !! s_ClusterID s = Some r -> s_Revision s = sr_revision r ->
    written db (upsert db s).

Lemma decode_spec id r s : decodeState pg_time id r = Ok s ->
  s_ClusterID s = id /\ s_Revision s = sr_revision r /\ 0 <= sr_revision r
  /\ s_NonceLedger s = sr_ledger r /\ s_Desired s = {| d_Version := sr_version r; d_Digest := sr_digest r; d_Payload := sr_payload r |}.
Proof.
  unfold decodeState. intros H. branch H. injection H as <-. props. by split_and!.
Qed.

Lemma transact_cases db o tx :
  fst (transact db o tx) = db \/ exists db', tx = Ok db' /\ fst (transact db o tx) = db'.
Proof. destruct o, tx; simpl; eauto. Qed.

Lemma write_written db w : typed_write w -> written db (write db w).
Proof.
  destruct w as [o c|o s]; simpl; intros Hty.
  - unfold AppendCommit. destruct (validateCommitFields c) eqn:Ef; [constructor|].
    apply validateCommitFields_spec in Ef.
    destruct (transact_cases db o (append_tx pg_time db c)) as [->|(db' & E & ->)]; [constructor|].
    unfold append_tx in E. destruct (db_commits db !! row_key c) as [old|] eqn:Er.
    { destruct (same_row old c); [|done]. injection E as <-. constructor. }
    destruct (check_sequence pg_time db c) eqn:Es; [done|].
    destruct (violates_unique db c) eqn:Eu; [done|]. injection E as <-. by constructor.
  - unfold Store_CheckpointLeadership. destruct (negb _); [constructor|].
    destruct (transact_cases db o (checkpoint_tx pg_time db s)) as [->|(db' & E & ->)]; [constructor|].
    unfold checkpoint_tx, loadStateTx in E. destruct (db_states db !! s_ClusterID s) as [r|] eqn:Er; [|done].
    destruct (decodeState pg_time (s_ClusterID s) r) as [cur|] eqn:Ed; [|done].
    destruct (validateLeadershipCheckpointTransition cur s) eqn:Ev; [done|]. injection E as <-.
    apply decode_spec in Ed as (_ & Hrv & _). unfold validateLeadershipCheckpointTransition in Ev.
    apply guard_None in Ev as [Ev _]. props. eapply wr_leader; [exact Er|congruence].
Qed.

(** ** The history is contiguous *)

Record db_ok (db : Database) : Prop := {
  dk_key : forall k c, db_commits db !! k = Some c -> k = row_key c /\ typed_commit c /\ fields_ok c;
  dk_row : forall id r, db_states db !! id = Some r -> 1 <= sr_revision r <= max_int64;
  dk_bound : forall k c, db_commits db !! k = Some c -> exists r,
    db_states db !! f_ClusterID (c_Fence c) = Some r /\ f_Revision (c_Fence c) <= sr_revision r;
  dk_reach : forall id r rev, db_states db !! id = Some r -> 1 <= rev <= sr_revision r -> exists k c,
    db_commits db !! k = Some c /\ f_ClusterID (c_Fence c) = id /\ f_Revision (c_Fence c) = rev;
  dk_unique : forall k k' c c', db_commits db !! k = Some c -> db_commits db !! k' = Some c' ->
    f_ClusterID (c_Fence c) = f_ClusterID (c_Fence c') ->
    f_Revision (c_Fence c) = f_Revision (c_Fence c') \/ f_Nonce (c_Fence c) = f_Nonce (c_Fence c') -> c = c'
}.

Lemma empty_db_ok : db_ok empty_db.
Proof. split; simpl; intros *; by rewrite ?lookup_empty. Qed.

(** The revision of a new row follows that of the state. *)
Lemma next_revision db c : db_ok db -> typed_commit c -> fields_ok c -> check_sequence pg_time db c = None ->
  match db_states db !! f_ClusterID (c_Fence c) with
  | None => f_Revision (c_Fence c) = 1
  | Some r => f_Revision (c_Fence c) = sr_revision r + 1
  end.
Proof.
  intros Hdb Hty Hf. unfold check_sequence, loadStateTx.
  destruct (db_states db !! f_ClusterID (c_Fence c)) as [r|] eqn:Er.
  - destruct (decodeState pg_time (f_ClusterID (c_Fence c)) r) as [cur|e] eqn:Ed; simpl.
    + apply decode_spec in Ed as (_ & Hrv & _). unfold validateTransition. intros H. guards H.
      destruct (dk_row _ Hdb _ _ Er). rewrite <- (fk_same_revision _ Hf), <- Hrv.
      match goal with G : s_Revision (c_State c) = u64 _ |- _ => rewrite G end.
      apply u64_small. unfold max_int64, two64 in *. lia.
    + destruct (Is e ErrStateNotFound) eqn:Ei; [|done]. exfalso. revert Ed Ei. unfold decodeState, validateNonceLedger.
      destruct (ledger_loop _ _ _);
      repeat match goal with |- context [if ?b then _ else _] => destruct b end; intros [= <-]; done.
  - simpl. intros H. guards H. rewrite <- (fk_same_revision _ Hf). done.
Qed.

Lemma violates_spec db c k c0 : violates_unique db c = false -> db_ok db -> db_commits db !! k = Some c0 ->
  typed_commit c -> fields_ok c ->
  f_ClusterID (c_Fence c0) = f_ClusterID (c_Fence c) ->
  f_Revision (c_Fence c0) <> f_Revision (c_Fence c) /\ f_Nonce (c_Fence c0) <> f_Nonce (c_Fence c).
Proof.
  intros Hv Hdb Hk Hty Hf Hcl. destruct (dk_key _ Hdb _ _ Hk) as (-> & Hty0 & Hf0).
  apply elem_of_map_to_list, list_elem_of_In in Hk.
  unfold violates_unique in Hv. apply not_true_iff_false in Hv.
  destruct (decide (f_Revision (c_Fence c0) = f_Revision (c_Fence c) \/ f_Nonce (c_Fence c0) = f_Nonce (c_Fence c))) as [Hor|Hor];
    [|tauto]. exfalso. apply Hv, existsb_exists. exists (row_key c0, c0). split; [done|]. unfold row_key. simpl.
  rewrite Hcl, String.eqb_refl. simpl. destruct Hor as [->| ->]; [by rewrite Z.eqb_refl|].
  by rewrite String.eqb_refl, orb_true_r.
Qed.

Lemma written_ok db db' : db_ok db -> written db db' -> db_ok db'.
Proof.
  intros Hdb Hw. destruct Hw as [|c Hty Hf Hnew Hseq Hun|s r Hr Hrev]; [done| |].
  - pose proof (next_revision db c Hdb Hty Hf Hseq) as Hnext.
    pose proof (violates_spec db c) as Hvs.
    assert (Hr64 : i64 (s_Revision (c_State c)) = f_Revision (c_Fence c)).
    { rewrite (fk_same_revision _ Hf). apply i64_id. destruct Hty as (_ & Hu & _), Hf. unfold is_u64 in Hu. lia. }
    destruct Hty as (Hu1 & Hu2 & Hty). pose proof (fk_nonzero _ Hf). unfold is_u64 in Hu2.
    split; simpl; rewrite ?(fk_cluster _ Hf).
    + intros k c0 [[<- <-]|[_ Hk]]%lookup_insert_Some; [done|by apply (dk_key _ Hdb)].
    + intros id r [[<- <-]|[_ Hr]]%lookup_insert_Some; [|by apply (dk_row _ Hdb _ _ Hr)].
      simpl. rewrite Hr64. pose proof (fk_revision _ Hf). lia.
    + intros k c0 [[<- <-]|[_ Hk]]%lookup_insert_Some.
      { exists (row_of (c_State c)). rewrite lookup_insert_eq. split; [done|]. simpl. lia. }
      destruct (dk_bound _ Hdb _ _ Hk) as (r & Hr & Hle).
      destruct (decide (f_ClusterID (c_Fence c) = f_ClusterID (c_Fence c0))) as [E|E].
      * exists (row_of (c_State c)). rewrite E, lookup_insert_eq. split; [done|]. simpl.
        rewrite E, Hr in Hnext. lia.
      * exists r. by rewrite lookup_insert_ne.
    + intros id r rev [[<- <-]|[Hne Hr]]%lookup_insert_Some Hrange.
      * simpl in Hrange. rewrite Hr64 in Hrange.
        destruct (Z.eq_dec rev (f_Revision (c_Fence c))) as [->|Hlt].
        { exists (row_key c), c. by rewrite lookup_insert_eq. }
        destruct (db_states db !! f_ClusterID (c_Fence c)) as [r|] eqn:Er; [|lia].
        destruct (dk_reach _ Hdb _ _ rev Er ltac:(lia)) as (k & c0 & Hk & H1 & H2).
        exists k, c0. rewrite lookup_insert_ne; [done|]. intros E. rewrite <- E, Hnew in Hk. done.
      * destruct (dk_reach _ Hdb _ _ rev Hr Hrange) as (k & c0 & Hk & H1 & H2).
        exists k, c0. rewrite lookup_insert_ne; [done|]. intros E. rewrite <- E, Hnew in Hk. done.
    + intros k k' c1 c2 [[<- <-]|[_ Hk]]%lookup_insert_Some [[<- <-]|[_ Hk']]%lookup_insert_Some Hcl Hor; [done| | |].
      * destruct (Hvs _ _ Hun Hdb Hk' (conj Hu1 (conj Hu2 Hty)) Hf (eq_sym Hcl)). intuition congruence.
      * destruct (Hvs _ _ Hun Hdb Hk (conj Hu1 (conj Hu2 Hty)) Hf Hcl). intuition congruence.
      * by eapply (dk_unique _ Hdb).
  - pose proof (dk_row _ Hdb _ _ Hr). assert (Hi : i64 (s_Revision s) = sr_revision r) by (rewrite Hrev; apply i64_id; lia).
    split; simpl.
    + apply Hdb.
    + intros id r0 [[<- <-]|[_ H0]]%lookup_insert_Some; [simpl; lia|by apply (dk_row _ Hdb _ _ H0)].
    + intros k c Hk. destruct (dk_bound _ Hdb _ _ Hk) as (r0 & H0 & Hle).
      destruct (decide (s_ClusterID s = f_ClusterID (c_Fence c))) as [E|E].
      * exists (row_of s). rewrite E, lookup_insert_eq. split; [done|]. simpl. rewrite E in Hr. congruence.
      * exists r0. by rewrite lookup_insert_ne.
    + intros id r0 rev [[<- <-]|[_ H0]]%lookup_insert_Some Hrange; [|by eapply (dk_reach _ Hdb)].
      simpl in Hrange. eapply (dk_reach _ Hdb); [exact Hr|lia].
    + apply Hdb.
Qed.

Lemma writes_ok ws : forall db, db_ok db -> Forall typed_write ws -> db_ok (writes db ws).
Proof.
  induction ws as [|w ws IH]; intros db Hdb Hty; [done|]. apply Forall_cons in Hty as [H1 H2].
  apply IH; [|done]. eapply written_ok; [done|by apply write_written].
Qed.

Lemma written_rows db db' k c : written db db' -> db_commits db !! k = Some c -> db_commits db' !! k = Some c.
Proof.
  intros Hw Hk. destruct Hw as [|c0 _ _ Hnew _ _|]; simpl; try done.
  rewrite lookup_insert_ne; [done|]. intros E. by rewrite E, Hk in Hnew.
Qed.

Lemma writes_rows ws k c : forall db, Forall typed_write ws -> db_commits db !! k = Some c ->
  db_commits (writes db ws) !! k = Some c.
Proof.
  induction ws as [|w ws IH]; intros db Hty Hk; [done|]. apply Forall_cons in Hty as [H1 H2].
  apply IH; [done|]. eapply written_rows; [by apply write_written|done].
Qed.

(** Whatever commits and leadership checkpoints are written, failed and
    unacknowledged transactions included, the commits of a cluster are numbered
    without a gap from 1 to the revision of its state, one commit for each
    revision and each nonce. *)
Theorem durable_history_contiguous ws id r :
  Forall typed_write ws ->
  let db := writes empty_db ws in
  db_states db !! id = Some r ->
  (forall rev, 1 <= rev <= sr_revision r <-> exists k c,
     db_commits db !! k = Some c /\ f_ClusterID (c_Fence c) = id /\ f_Revision (c_Fence c) = rev)
  /\ (forall k k' c c', db_commits db !! k = Some c -> db_commits db !! k' = Some c' ->
       f_ClusterID (c_Fence c) = id -> f_ClusterID (c_Fence c') = id ->
       f_Revision (c_Fence c) = f_Revision (c_Fence c') \/ f_Nonce (c_Fence c) = f_Nonce (c_Fence c') -> c = c').
Proof.
  intros Hty db Hr. pose proof (writes_ok ws _ empty_db_ok Hty) as Hdb. fold db in Hdb. split.
  - intros rev. split; [by apply (dk_reach _ Hdb)|]. intros (k & c & Hk & <- & <-).
    destruct (dk_key _ Hdb _ _ Hk) as (_ & (_ & Hu & _) & Hf). pose proof (fk_nonzero _ Hf). unfold is_u64 in Hu.
    destruct (dk_bound _ Hdb _ _ Hk) as (r' & Hr' & Hle). rewrite Hr in Hr'. injection Hr' as <-. lia.
  - intros k k' c c' Hk Hk' H1 H2. by apply (dk_unique _ Hdb _ _ _ _ Hk Hk'); congruence.
Qed.

(** Rows that agree with a commit are that commit. *)
Lemma same_row_eq old c : typed_commit old -> fields_ok old -> typed_commit c -> fields_ok c ->
  row_key old = row_key c -> same_row old c = true -> old = c.
Proof.
  intros Ht1 Hf1 Ht2 Hf2 Hk Hs. rewrite !row_key_small in Hk by done. injection Hk as K1 K2 K3 K4.
  unfold same_row in Hs. props.
  match goal with G : pg_sameState _ _ = true |- _ => apply pg_sameState_spec in G as [] end.
  assert (Hl : s_NonceLedger (c_State old) = s_NonceLedger (c_State c)).
  { eapply sameNonceLedger_eq; [apply (validNonceLedger_ok _ (s_Revision (c_State old))); [apply Ht1|apply Ht1|apply Hf1]|].
    unfold sameNonceLedger. by rewrite es_size, Nat.eqb_refl. }
  destruct old as [s1 f1], c as [s2 f2]. simpl in *. f_equal; [destruct s1, s2|destruct f1, f2]; simpl in *; congruence.
Qed.

(** The row that acknowledges a commit. *)
Lemma acknowledged_row db o c db' : db_ok db -> typed_commit c -> AppendCommit pg_time db o c = (db', None) ->
  db_commits db' !! row_key c = Some c /\ fields_ok c.
Proof.
  intros Hdb Hty E. unfold AppendCommit in E. destruct (validateCommitFields c) eqn:Ef; [done|].
  apply validateCommitFields_spec in Ef. split; [|done].
  destruct (append_tx pg_time db c) as [db1|] eqn:Ea; destruct o; simpl in E; try done. injection E as <-.
  unfold append_tx in Ea. destruct (db_commits db !! row_key c) as [old|] eqn:Er.
  - destruct (same_row old c) eqn:Es; [|done]. injection Ea as <-.
    destruct (dk_key _ Hdb _ _ Er) as (Hk & Ht & Hf). rewrite Er. f_equal. by apply same_row_eq.
  - destruct (check_sequence _ _ _); [done|]. destruct (violates_unique _ _); [done|]. injection Ea as <-.
    simpl. apply lookup_insert_eq.
Qed.

(** C10. A commit that the store has acknowledged is acknowledged again at any
    later time, and no other commit of its cluster is ever acknowledged at its
    revision. *)
Theorem acknowledged_commit_final ws o c db1 ws' :
  Forall typed_write ws -> typed_commit c -> AppendCommit pg_time (writes empty_db ws) o c = (db1, None) ->
  Forall typed_write ws' ->
  let db2 := writes db1 ws' in
  AppendCommit pg_time db2 Works c = (db2, None)
  /\ forall o' c' db3, typed_commit c' -> AppendCommit pg_time db2 o' c' = (db3, None) ->
     f_ClusterID (c_Fence c') = f_ClusterID (c_Fence c) -> f_Revision (c_Fence c') = f_Revision (c_Fence c) -> c' = c.
Proof.
  intros Hty Htc E Hty' db2. pose proof (writes_ok ws _ empty_db_ok Hty) as Hdb.
  destruct (acknowledged_row _ _ _ _ Hdb Htc E) as [Hrow Hf].
  assert (Hdb1 : db_ok db1).
  { eapply written_ok; [exact Hdb|]. pose proof (write_written (writes empty_db ws) (WriteCommit o c) Htc) as Hw.
    simpl in Hw. by rewrite E in Hw. }
  assert (Hrow2 : db_commits db2 !! row_key c = Some c) by (by apply writes_rows).
  pose proof (writes_ok ws' _ Hdb1 Hty') as Hdb2. fold db2 in Hdb2. split.
  - unfold AppendCommit. unfold AppendCommit in E. destruct (validateCommitFields c) eqn:Ef; [done|].
    unfold append_tx. by rewrite Hrow2, same_row_refl.
  - intros o' c' db3 Htc' E' Hcl Hrev.
    destruct (acknowledged_row _ _ _ _ Hdb2 Htc' E') as [Hrow3 Hf'].
    assert (Hdb3 : db_ok db3).
    { eapply written_ok; [exact Hdb2|]. pose proof (write_written db2 (WriteCommit o' c') Htc') as Hw.
      simpl in Hw. by rewrite E' in Hw. }
    eapply (dk_unique _ Hdb3); [exact Hrow3| |done|by left].
    pose proof (write_written db2 (WriteCommit o' c') Htc') as Hw. simpl in Hw. rewrite E' in Hw.
    eapply written_rows; [exact Hw|exact Hrow2].
Qed.
End Safety.
