(* ===== verification/Json.v ===== *)
(** * JSON encoding ([encoding/json.Marshal])

    The documents that the program hashes are encodings of structs of
    strings, integers, booleans and times. A struct is an object whose fields
    are listed in declaration order; a field left out by [omitempty] is not
    in the list. *)

From S2P Require Import Prelude GoText.
From Stdlib Require Import Ascii.

Open Scope string_scope.
Open Scope list_scope.
Open Scope Z_scope.

#[warnings="-register-all"]
Inductive json :=
| JString (s : string)
| JNumber (z : Z)
| JBool (b : bool)
| JTime (t : Time)
| JObject (fields : list (string * json)).

(** ** Strings *)

(** The escape of one decoded rune of width [w] whose bytes are [raw]:
    quotes, backslashes and control characters, the HTML characters, U+2028,
    U+2029 and invalid bytes are escaped; the rest is copied. *)
Definition quote : ascii := ascii_of_nat 34.

Definition escape_rune (r : Z) (w : nat) (raw : list ascii) : list ascii :=
  let u4 (n : Z) := bytes "\u"%string
      ++ [hex_digit (n / 4096); hex_digit ((n / 256) mod 16); hex_digit ((n / 16) mod 16); hex_digit (n mod 16)] in
  if (w =? 1)%nat && (r =? RuneError) then bytes "\ufffd"%string
  else if r =? 34 then ["\"%char; quote]
  else if r =? 92 then ["\"%char; "\"%char]
  else if r =? 8 then bytes "\b"%string
  else if r =? 12 then bytes "\f"%string
  else if r =? 10 then bytes "\n"%string
  else if r =? 13 then bytes "\r"%string
  else if r =? 9 then bytes "\t"%string
  else if (r <? 32) || (r =? 60) || (r =? 62) || (r =? 38) then u4 r
  else if (r =? 8232) || (r =? 8233) then u4 r
  else raw.

Fixpoint escape_from (skip : nat) (l : list ascii) : list ascii :=
  match l with
  | [] => []
  | _ :: l' =>
      match skip with
      | S k => escape_from k l'
      | O => let rw := DecodeRune l in
             escape_rune (fst rw) (snd rw) (take (snd rw) l) ++ escape_from (pred (snd rw)) l'
      end
  end.

Definition json_string (s : string) : list ascii :=
  quote :: escape_from 0 (bytes s) ++ [quote].

(** ** Times

    [time.Time.MarshalJSON] in UTC: RFC 3339 with the fraction of a second
    without its trailing zeros; years outside 0..9999 are an error. *)

(** Days since 0001-01-01 to a proleptic Gregorian date. The computation is
    shifted to eras of 400 years beginning on March 1. *)
Definition civil (days : Z) : Z * Z * Z :=
  let z := days + 306 in
  let era := z / 146097 in
  let doe := z mod 146097 in
  let yoe := (doe - doe / 1460 + doe / 36524 - doe / 146096) / 365 in
  let doy := doe - (365 * yoe + yoe / 4 - yoe / 100) in
  let mp := (5 * doy + 2) / 153 in
  let d := doy - (153 * mp + 2) / 5 + 1 in
  let m := if mp <? 10 then mp + 3 else mp - 9 in
  let y := yoe + era * 400 + (if m <=? 2 then 1 else 0) in
  (y, m, d).

Definition pad_digits (n : nat) (z : Z) : list ascii :=
  let d := dec_digits 21 z [] in repeat "0"%char (n - length d) ++ d.

Fixpoint drop_zeros (rl : list ascii) : list ascii :=
  match rl with
  | "0"%char :: rl' => drop_zeros rl'
  | _ => rl
  end.

Definition rfc3339 (t : Time) : option (list ascii) :=
  let secs := t / Second in
  let frac := t mod Second in
  let '(y, m, d) := civil (secs / 86400) in
  let sod := secs mod 86400 in
  if (y <? 0) || (9999 <? y) then None
  else Some (pad_digits 4 y ++ "-"%char :: pad_digits 2 m ++ "-"%char :: pad_digits 2 d
             ++ "T"%char :: pad_digits 2 (sod / 3600) ++ ":"%char
             :: pad_digits 2 ((sod / 60) mod 60) ++ ":"%char :: pad_digits 2 (sod mod 60)
             ++ (if frac =? 0 then [] else "."%char :: rev (drop_zeros (rev (pad_digits 9 frac))))
             ++ ["Z"%char]).

(** ** Values *)

Fixpoint join_comma (l : list (list ascii)) : list ascii :=
  match l with
  | [] => []
  | [x] => x
  | x :: l' => x ++ ","%char :: join_comma l'
  end.

(** [None] when a time cannot be encoded. *)
Fixpoint json_bytes (j : json) : option (list ascii) :=
  match j with
  | JString s => Some (json_string s)
  | JNumber z => Some (bytes (itoa z))
  | JBool true => Some (bytes "true"%string)
  | JBool false => Some (bytes "false"%string)
  | JTime t => (fun b => quote :: b ++ [quote]) <$> rfc3339 t
  | JObject fields =>
      let fix go (fs : list (string * json)) : option (list (list ascii)) :=
        match fs with
        | [] => Some []
        | (k, v) :: fs' =>
            match json_bytes v, go fs' with
            | Some b, Some bs => Some ((json_string k ++ ":"%char :: b) :: bs)
            | _, _ => None
            end
        end in
      (fun bs => "{"%char :: join_comma bs ++ ["}"%char]) <$> go fields
  end.

(** [b, _ := json.Marshal(v)]: no bytes on an error. *)
Definition Marshal (j : json) : string :=
  match json_bytes j with Some b => of_bytes b | None => "" end.

(** A string field with [omitempty]. *)
Definition omit_empty (k v : string) : list (string * json) :=
  if String.eqb v "" then [] else [(k, JString v)].

Example civil_examples :
  civil 0 = (1, 1, 1) /\ civil 719162 = (1970, 1, 1) /\ civil 738944 = (2024, 2, 29)
  /\ civil 739099 = (2024, 8, 2).
Proof. vm_compute. repeat split. Qed.

(** Quotes are written as backquotes here. *)
Example marshal_example :
  Marshal (JObject [("id", JString "a<b>\"); ("n", JNumber 42); ("t", JTime (62135596800 * Second + 5000000))])
  = of_bytes (map (fun c => if Ascii.eqb c "`"%char then quote else c)
      (bytes "{`id`:`a\u003cb\u003e\\`,`n`:42,`t`:`1970-01-01T00:00:00.005Z`}")).
Proof. vm_compute. reflexivity. Qed.

(** ** JSON arrays and byte slices ([encoding/json], [encoding/base64])

    The encoding of slices and of structs with slices, which [Json] leaves out,
    and of byte slices as base64 text. *)

(** [json.Marshal] of a slice and of a struct whose fields are encoded. *)
Definition array_bytes (elements : list (list ascii)) : list ascii :=
  match elements with
  | [] => bytes "null"
  | _ => "["%char :: join_comma elements ++ ["]"%char]
  end.

Definition object_bytes (members : list (string * list ascii)) : list ascii :=
  "{"%char :: join_comma (map (fun p => json_string (fst p) ++ ":"%char :: snd p) members) ++ ["}"%char].

(** ** [base64.StdEncoding.DecodeString] *)

Definition base64_value (c : ascii) : option Z :=
  let b := byte_val c in
  if (65 <=? b) && (b <=? 90) then Some (b - 65)
  else if (97 <=? b) && (b <=? 122) then Some (b - 71)
  else if (48 <=? b) && (b <=? 57) then Some (b + 4)
  else if b =? 43 then Some 62 else if b =? 47 then Some 63 else None.

(** Groups of four characters, of which only the last may be padded. The bits
    that padding makes superfluous are ignored. *)
Definition base64_pad (c : ascii) : bool := Ascii.eqb c "="%char.

Fixpoint base64_groups (l : list ascii) : option (list Z) :=
  match l with
  | [] => Some []
  | a :: b :: c :: d :: l =>
      if base64_pad d then
        match l, base64_value a, base64_value b, base64_value c with
        | [], Some a, Some b, Some c => Some [a * 4 + b / 16; (b mod 16) * 16 + c / 4]
        | [], Some a, Some b, None => if base64_pad c then Some [a * 4 + b / 16] else None
        | _, _, _, _ => None
        end
      else
        match base64_value a, base64_value b, base64_value c, base64_value d, base64_groups l with
        | Some a, Some b, Some c, Some d, Some rest =>
            Some (a * 4 + b / 16 :: (b mod 16) * 16 + c / 4 :: (c mod 4) * 64 + d :: rest)
        | _, _, _, _, _ => None
        end
  | _ => None
  end.

(** Line breaks are skipped. *)
Definition base64_decode (s : string) : option (list Z) :=
  base64_groups (List.filter (fun c => negb ((byte_val c =? 10) || (byte_val c =? 13))) (bytes s)).

(** ** [base64.StdEncoding.EncodeToString] *)

Definition base64_digit (n : Z) : ascii :=
  byte_of (if n <? 26 then n + 65 else if n <? 52 then n + 71 else if n <? 62 then n - 4 else if n =? 62 then 43 else 47).

Fixpoint base64_bytes (l : list Z) : list ascii :=
  match l with
  | [] => []
  | [x] => [base64_digit (x / 4); base64_digit ((x mod 4) * 16); "="%char; "="%char]
  | [x; y] => [base64_digit (x / 4); base64_digit ((x mod 4) * 16 + y / 16); base64_digit ((y mod 16) * 4); "="%char]
  | x :: y :: z :: l =>
      base64_digit (x / 4) :: base64_digit ((x mod 4) * 16 + y / 16) :: base64_digit ((y mod 16) * 4 + z / 64)
      :: base64_digit (z mod 64) :: base64_bytes l
  end.

Definition base64_encode (l : list Z) : string := of_bytes (base64_bytes l).

Example base64_examples :
  base64_decode "aGVsbG8=" = Some [104; 101; 108; 108; 111] /\ base64_decode "aGk=" = Some [104; 105]
  /\ base64_decode "aGVs" = Some [104; 101; 108] /\ base64_decode "a" = None /\ base64_decode "====" = None
  /\ base64_encode [104; 101; 108; 108; 111] = "aGVsbG8=" /\ base64_encode [104; 105] = "aGk=".
Proof. vm_compute. repeat split. Qed.
