(* ===== verification/Approval.v ===== *)
(** * Approval data and validation (internal/approval/gate.go, roles.go)

    The request, confirmation, commit and audit records of the approval gate,
    the canonical forms and the validators that every entry point shares.
    Risk levels, statuses, roles and audit types are strings in the code (they
    come from JSON), and so they are here. *)

From S2P Require Import Prelude GoText Sha256 Json.

Open Scope list_scope.
Open Scope Z_scope.
Open Scope go_scope.

(** ** Constants *)

Definition WarningDelay : Duration := 10 * Second.
Definition MaxApprovalTTL : Duration := 30 * Minute.
Definition DefaultConfirmationLanguage : string := "zh-CN".

Definition RiskLow : string := "low".
Definition RiskMedium : string := "medium".
Definition RiskHigh : string := "high".
Definition RiskEmergency : string := "emergency".

Definition StatusPending : string := "pending".
Definition StatusApproved : string := "approved".
Definition StatusRevoked : string := "revoked".
Definition StatusExpired : string := "expired".

Definition RoleOperator : string := "operator".
Definition RoleSecurityAdmin : string := "security_admin".
Definition RoleTenantOwner : string := "tenant_owner".

Definition AuditSubmitted : string := "submitted".
Definition AuditAuthorized : string := "authorized".
Definition AuditCheckpoint : string := "checkpoint".
Definition AuditRejected : string := "rejected".
Definition AuditRevoked : string := "revoked".
Definition AuditExpired : string := "expired".

(** The sentinel errors; [ErrExternal] is an error of a durable adapter. *)
Inductive ApErr :=
| ErrInvalidRequest | ErrDuplicateRequest | ErrNotFound | ErrNotPending | ErrWarningDelay
| ErrPasswordConfirmation | ErrSecondConfirmation | ErrThirdConfirmation
| ErrConfirmationRequired | ErrLocalConfirmation | ErrConfirmationReplay | ErrActorRequired
| ErrInvalidActor | ErrSessionRequired | ErrSessionChanged | ErrInvalidConfirmationID
| ErrConfirmationLanguage | ErrConfirmationPhrase | ErrIntentChanged | ErrWorkflowChanged
| ErrTTLChanged | ErrConfirmationSequence | ErrReasonRequired | ErrInvalidReason
| ErrScopeChanged | ErrEpochChanged | ErrExpired | ErrRevoked | ErrBreakGlassRequired
| ErrBreakGlassReason | ErrBreakGlassActor | ErrEpochRegression | ErrTTLExceeded
| ErrInvalidPersistence | ErrIdempotencyConflict | ErrEventSequence | ErrBindingConflict
| ErrApprovalNotFound
| ErrWorkflowBinding | ErrWorkflowEventStale | ErrBatchInvalid | ErrDelegationInvalid
| ErrDelegationReplay | ErrDelegationChain | ErrDelegationSelf
| ErrExternal (msg : string).

(** [err.Error()]: the text recorded in the audit trail. *)
Definition Error (e : ApErr) : string :=
  match e with
  | ErrInvalidRequest => "invalid approval request"
  | ErrDuplicateRequest => "approval request already exists"
  | ErrNotFound => "approval request not found"
  | ErrNotPending => "approval request is not pending"
  | ErrWarningDelay => "warning must be read for at least 10 seconds"
  | ErrPasswordConfirmation => "password confirmation is required"
  | ErrSecondConfirmation => "second confirmation is required"
  | ErrThirdConfirmation => "third confirmation is required"
  | ErrConfirmationRequired => "interactive confirmation is required"
  | ErrLocalConfirmation => "interactive confirmation must come from the local control plane"
  | ErrConfirmationReplay => "confirmation ID has already been used"
  | ErrActorRequired => "confirmation actor is required"
  | ErrInvalidActor => "confirmation actor is invalid"
  | ErrSessionRequired => "confirmation session is required"
  | ErrSessionChanged => "approval session changed"
  | ErrInvalidConfirmationID => "confirmation ID is invalid"
  | ErrConfirmationLanguage => "confirmation language is unsupported"
  | ErrConfirmationPhrase => "confirmation phrase is invalid"
  | ErrIntentChanged => "approval intent changed"
  | ErrWorkflowChanged => "approval workflow changed"
  | ErrTTLChanged => "approval TTL changed"
  | ErrConfirmationSequence => "confirmation checkpoints must be completed in order"
  | ErrReasonRequired => "audit reason is required"
  | ErrInvalidReason => "audit reason is invalid"
  | ErrScopeChanged => "approval scope changed"
  | ErrEpochChanged => "approval policy epoch changed"
  | ErrExpired => "approval request expired"
  | ErrRevoked => "approval request revoked"
  | ErrBreakGlassRequired => "restricted break-glass authorization is required"
  | ErrBreakGlassReason => "break-glass reason is required"
  | ErrBreakGlassActor => "break-glass requires a security administrator or tenant owner"
  | ErrEpochRegression => "policy epoch cannot move backwards"
  | ErrTTLExceeded => "approval TTL exceeds platform limit"
  | ErrInvalidPersistence => "invalid approval persistence mutation"
  | ErrIdempotencyConflict => "approval persistence idempotency conflict"
  | ErrEventSequence => "approval event sequence conflict"
  | ErrBindingConflict => "approval persistence binding conflict"
  | ErrApprovalNotFound => "persisted approval not found"
  | ErrWorkflowBinding => "workflow binding does not match approval state"
  | ErrWorkflowEventStale => "workflow event sequence is stale"
  | ErrBatchInvalid => "logical super batch is invalid"
  | ErrDelegationInvalid => "approval delegation is invalid"
  | ErrDelegationReplay => "approval delegation has already been consumed"
  | ErrDelegationChain => "approval delegation cannot be chained"
  | ErrDelegationSelf => "approval delegation cannot target its issuer"
  | ErrExternal msg => msg
  end.

(** A function that returns only an [error]: [None] is nil. *)
Definition failed (e : option ApErr) : bool := match e with Some _ => true | None => false end.

(** ** Records *)

Record Request := {
  r_ID : string;
  r_Risk : string;
  r_Scope : string;
  r_PolicyEpoch : Z;
  r_TTL : Duration;
  r_PreApproved : bool;
  r_Untrusted : bool;
  r_Test : bool;
  r_TokenOperation : bool;
  r_KMSOperation : bool;
  r_ClusterOperation : bool;
  r_BreakGlass : bool;
  r_Actor : string;
  r_SessionID : string;
  r_ConfirmationLanguage : string;
  r_IntentDigest : string;
  r_WorkflowDigest : string;
  r_Nonce : string
}.

Record Confirmation := {
  c_WarningReadAt : Time;
  c_PasswordConfirmed : bool;
  c_SecondConfirmation : bool;
  c_ThirdConfirmation : bool;
  c_ConfirmationID : string;
  c_Actor : string;
  c_ActorRole : string;
  c_Scope : string;
  c_PolicyEpoch : Z;
  c_TTL : Duration;
  c_Local : bool;
  c_BreakGlass : bool;
  c_BreakGlassReason : string;
  c_SessionID : string;
  c_ConfirmationLanguage : string;
  c_ConfirmationPhrase : string;
  c_IntentDigest : string;
  c_WorkflowDigest : string;
  c_Nonce : string;
  c_TOTPConfirmed : bool;
  c_ConfirmationStep : Z
}.

(** [Confirmation{}]. *)
Definition zero_confirmation : Confirmation :=
  {| c_WarningReadAt := 0; c_PasswordConfirmed := false; c_SecondConfirmation := false;
     c_ThirdConfirmation := false; c_ConfirmationID := ""; c_Actor := ""; c_ActorRole := "";
     c_Scope := ""; c_PolicyEpoch := 0; c_TTL := 0; c_Local := false; c_BreakGlass := false;
     c_BreakGlassReason := ""; c_SessionID := ""; c_ConfirmationLanguage := "";
     c_ConfirmationPhrase := ""; c_IntentDigest := ""; c_WorkflowDigest := ""; c_Nonce := "";
     c_TOTPConfirmed := false; c_ConfirmationStep := 0 |}.

Record AuthorizationCommit := {
  k_RequestID : string;
  k_ConfirmationID : string;
  k_Actor : string;
  k_Scope : string;
  k_PolicyEpoch : Z;
  k_Risk : string;
  k_TTL : Duration;
  k_IssuedAt : Time;
  k_ExpiresAt : Time;
  k_WorkflowDigest : string;
  k_SessionID : string;
  k_ConfirmationLanguage : string;
  k_IntentDigest : string;
  k_Nonce : string
}.

Record AuditEvent := {
  e_Sequence : Z;
  e_Type : string;
  e_At : Time;
  e_RequestID : string;
  e_Actor : string;
  e_Scope : string;
  e_PolicyEpoch : Z;
  e_ConfirmationID : string;
  e_Reason : string;
  e_WorkflowDigest : string;
  e_IntentDigest : string;
  e_SessionID : string;
  e_ConfirmationStep : Z;
  e_Nonce : string;
  e_PreviousHash : string;
  e_Hash : string
}.

(** The struct [Record] of the code. *)
Record ApprovalRecord := {
  rec_ID : string;
  rec_Request : Request;
  rec_Status : string;
  rec_SubmittedAt : Time;
  rec_ExpiresAt : Time;
  rec_Confirmation : Confirmation;
  rec_Commit : option AuthorizationCommit
}.

(** ** Roles (roles.go) *)

(** The [DefaultAuthorityResolver] interface methods. *)
Class AuthorityResolver := {
  CanApprove : string -> string -> bool;
  CanBreakGlass : string -> string -> bool
}.

Definition DefaultAuthorityResolver : AuthorityResolver := {|
  CanApprove role _ := String.eqb role "admin";
  CanBreakGlass _ _ := false
|}.

Definition CanonicalActorRole (role : string) : option string :=
  if String.eqb role "admin" then Some RoleOperator
  else if String.eqb role RoleSecurityAdmin then Some RoleSecurityAdmin
  else if String.eqb role RoleTenantOwner then Some RoleTenantOwner
  else None.

(** ** Validation *)

Definition sensitive (r : Request) : bool :=
  r_Untrusted r || r_Test r || r_TokenOperation r || r_KMSOperation r || r_ClusterOperation r
  || String.eqb (r_Risk r) RiskHigh || String.eqb (r_Risk r) RiskEmergency.

Definition requiresThirdConfirmation (r : Request) : bool := sensitive r.

Definition sensitiveScope (scope : string) : bool :=
  HasPrefix scope "crp:" || HasPrefix scope "cluster:" || HasPrefix scope "kms:"
  || HasPrefix scope "token:".

Definition validateOpaque (value : string) (required : bool) : option ApErr :=
  return Some ErrInvalidRequest when required && String.eqb value "" ;;
  return Some ErrInvalidRequest when negb (ValidString value) ;;
  return Some ErrInvalidRequest when existsb opaque_rune (runes value) ;;
  None.

Definition ValidateIdentifier (value : string) : option ApErr := validateOpaque value true.

Definition validateReason (value : string) : option ApErr :=
  return Some ErrInvalidReason when negb (ValidString value) ;;
  return Some ErrInvalidReason when 2048 <? RuneCount value ;;
  return Some ErrInvalidReason when existsb (fun r => IsControl r || IsFormat r) (runes value) ;;
  None.

(** 64 lower-case hexadecimal digits. *)
Definition validDigest (value : string) : bool :=
  return false when negb (len value =? 32 * 2) ;;
  return false when negb (hex_decodable value) ;;
  String.eqb value (ToLower value).

Definition NormalizeConfirmationLanguage (value : string) : result ApErr string :=
  return Ok DefaultConfirmationLanguage when String.eqb value "" ;;
  return Err ErrConfirmationLanguage when failed (validateOpaque value false) ;;
  let v := ToLower value in
  if String.eqb v "zh" || String.eqb v "zh-cn" || String.eqb v "zh-hans" then Ok "zh-CN"
  else if String.eqb v "zh-tw" || String.eqb v "zh-hk" || String.eqb v "zh-hant" then Ok "zh-TW"
  else if String.eqb v "en" || String.eqb v "en-us" || String.eqb v "en-gb" then Ok "en-US"
  else Err ErrConfirmationLanguage.

Definition ExpectedConfirmationPhrase (language : string) : result ApErr string :=
  let? canonical := NormalizeConfirmationLanguage language in
  if String.eqb canonical "zh-CN" then Ok "确认"
  else if String.eqb canonical "zh-TW" then Ok "確認"
  else if String.eqb canonical "en-US" then Ok "CONFIRM"
  else Err ErrConfirmationLanguage.

(** The phrase with the error dropped: [phrase, _ := ...]. *)
Definition phrase_or_empty (language : string) : string :=
  match ExpectedConfirmationPhrase language with Ok p => p | Err _ => "" end.

(** ** Digests *)

Definition intent_json (r : Request) : json :=
  JObject ([("id", JString (r_ID r)); ("risk", JString (r_Risk r)); ("scope", JString (r_Scope r));
            ("policy_epoch", JNumber (r_PolicyEpoch r)); ("ttl_ns", JNumber (r_TTL r));
            ("pre_approved", JBool (r_PreApproved r)); ("untrusted", JBool (r_Untrusted r));
            ("test", JBool (r_Test r)); ("token_operation", JBool (r_TokenOperation r));
            ("kms_operation", JBool (r_KMSOperation r));
            ("cluster_operation", JBool (r_ClusterOperation r));
            ("break_glass", JBool (r_BreakGlass r))]
           ++ omit_empty "workflow_digest" (r_WorkflowDigest r)).

Definition IntentDigestForRequest (r : Request) : string := hex_sum (Marshal (intent_json r)).

Definition nonceForRequest (r : Request) : string :=
  hex_sum ("cheesewaf approval nonce" ++ nul ++ r_ID r ++ nul ++ r_Scope r ++ nul ++ r_Risk r
           ++ nul ++ r_Actor r).

(** ** Requests *)

Definition with_risk (r : Request) (risk : string) : Request :=
  {| r_ID := r_ID r; r_Risk := risk; r_Scope := r_Scope r; r_PolicyEpoch := r_PolicyEpoch r;
     r_TTL := r_TTL r; r_PreApproved := r_PreApproved r; r_Untrusted := r_Untrusted r;
     r_Test := r_Test r; r_TokenOperation := r_TokenOperation r; r_KMSOperation := r_KMSOperation r;
     r_ClusterOperation := r_ClusterOperation r; r_BreakGlass := r_BreakGlass r;
     r_Actor := r_Actor r; r_SessionID := r_SessionID r;
     r_ConfirmationLanguage := r_ConfirmationLanguage r; r_IntentDigest := r_IntentDigest r;
     r_WorkflowDigest := r_WorkflowDigest r; r_Nonce := r_Nonce r |}.

(** The request with its language, nonce and digest assigned. *)
Definition with_binding (r : Request) (language nonce digest : string) : Request :=
  {| r_ID := r_ID r; r_Risk := r_Risk r; r_Scope := r_Scope r; r_PolicyEpoch := r_PolicyEpoch r;
     r_TTL := r_TTL r; r_PreApproved := r_PreApproved r; r_Untrusted := r_Untrusted r;
     r_Test := r_Test r; r_TokenOperation := r_TokenOperation r; r_KMSOperation := r_KMSOperation r;
     r_ClusterOperation := r_ClusterOperation r; r_BreakGlass := r_BreakGlass r;
     r_Actor := r_Actor r; r_SessionID := r_SessionID r; r_ConfirmationLanguage := language;
     r_IntentDigest := digest; r_WorkflowDigest := r_WorkflowDigest r; r_Nonce := nonce |}.

Definition normalizeRequest (r : Request) : result ApErr Request :=
  return Err ErrInvalidRequest when sensitiveScope (r_Scope r) && r_PreApproved r ;;
  let r := if sensitiveScope (r_Scope r) && negb (String.eqb (r_Risk r) RiskEmergency)
           then with_risk r RiskHigh else r in
  return Err ErrInvalidRequest when failed (validateOpaque (r_ID r) true) ;;
  return Err ErrInvalidRequest when failed (validateOpaque (r_Scope r) true) ;;
  return Err ErrInvalidRequest when failed (validateOpaque (r_Actor r) true) ;;
  return Err ErrInvalidRequest when negb (String.eqb (r_SessionID r) "")
                                 && failed (validateOpaque (r_SessionID r) false) ;;
  return Err ErrInvalidRequest when String.eqb (r_SessionID r) "" ;;
  return Err ErrInvalidRequest when String.eqb (r_ConfirmationLanguage r) "" ;;
  match NormalizeConfirmationLanguage (r_ConfirmationLanguage r) with
  | Err _ => Err ErrInvalidRequest
  | Ok language =>
      return Err ErrInvalidRequest when negb (String.eqb (r_WorkflowDigest r) "")
                                     && failed (validateOpaque (r_WorkflowDigest r) false) ;;
      return Err ErrInvalidRequest when negb (String.eqb (r_Nonce r) "")
                                     && failed (validateOpaque (r_Nonce r) false) ;;
      let nonce := if String.eqb (r_Nonce r) "" then nonceForRequest r else r_Nonce r in
      return Err ErrInvalidRequest when negb (String.eqb (r_IntentDigest r) "")
                                     && negb (validDigest (r_IntentDigest r)) ;;
      let digest := if String.eqb (r_IntentDigest r) "" then IntentDigestForRequest r
                    else r_IntentDigest r in
      Ok (with_binding r language nonce digest)
  end.

Definition known_risk (risk : string) : bool :=
  String.eqb risk RiskLow || String.eqb risk RiskMedium || String.eqb risk RiskHigh
  || String.eqb risk RiskEmergency.

Definition validateRequest (r : Request) : option ApErr :=
  return Some ErrInvalidRequest when
    String.eqb (r_ID r) "" || String.eqb (r_Scope r) "" || (r_TTL r <=? 0)
    || String.eqb (r_Actor r) "" || String.eqb (r_SessionID r) ""
    || String.eqb (r_ConfirmationLanguage r) "" || negb (validDigest (r_IntentDigest r))
    || String.eqb (r_Nonce r) "" ;;
  return Some ErrInvalidRequest when
    failed (validateOpaque (r_ID r) true) || failed (validateOpaque (r_Scope r) true)
    || failed (validateOpaque (r_Actor r) true) || failed (validateOpaque (r_SessionID r) true)
    || failed (validateOpaque (r_Nonce r) true) ;;
  return Some ErrInvalidRequest when
    match NormalizeConfirmationLanguage (r_ConfirmationLanguage r) with
    | Err _ => true
    | Ok language => negb (String.eqb language (r_ConfirmationLanguage r))
    end ;;
  return Some ErrInvalidRequest when negb (String.eqb (r_WorkflowDigest r) "")
                                 && failed (validateOpaque (r_WorkflowDigest r) false) ;;
  return Some ErrTTLExceeded when MaxApprovalTTL <? r_TTL r ;;
  return Some ErrInvalidRequest when negb (known_risk (r_Risk r)) ;;
  return Some ErrBreakGlassRequired when String.eqb (r_Risk r) RiskEmergency && negb (r_BreakGlass r) ;;
  return Some ErrInvalidRequest when
    sensitiveScope (r_Scope r)
    && (r_PreApproved r || (negb (String.eqb (r_Risk r) RiskHigh)
                            && negb (String.eqb (r_Risk r) RiskEmergency))) ;;
  None.

(** ** Records read from or written to durable storage *)

Definition known_status (s : string) : bool :=
  String.eqb s StatusPending || String.eqb s StatusApproved || String.eqb s StatusRevoked
  || String.eqb s StatusExpired.

Definition high_risk (r : Request) : bool :=
  String.eqb (r_Risk r) RiskHigh || String.eqb (r_Risk r) RiskEmergency.

(** The checks on [record.Commit] when it is not nil. *)
Definition validate_commit (record : ApprovalRecord) (commit : AuthorizationCommit) : option ApErr :=
  let req := rec_Request record in
  let confirmation := rec_Confirmation record in
  return Some ErrInvalidRequest when
    negb (String.eqb (k_Risk commit) (r_Risk req)) || negb (k_TTL commit =? r_TTL req)
    || negb (String.eqb (k_ConfirmationLanguage commit) (r_ConfirmationLanguage req)) ;;
  return Some ErrInvalidRequest when
    negb (r_PreApproved req)
    && (String.eqb (c_ConfirmationID confirmation) "" || negb (c_Local confirmation)
        || negb (String.eqb (c_Actor confirmation) (k_Actor commit))
        || negb (String.eqb (c_SessionID confirmation) (k_SessionID commit))
        || (requiresThirdConfirmation req
            && (negb (c_ConfirmationStep confirmation =? 3) || negb (c_ThirdConfirmation confirmation)))) ;;
  return Some ErrInvalidActor when
    negb (r_PreApproved req) && high_risk req
    && (String.eqb (k_Actor commit) (r_Actor req) || String.eqb (k_SessionID commit) (r_SessionID req)) ;;
  return Some ErrInvalidRequest when
    negb (String.eqb (rec_Status record) StatusApproved)
    || negb (String.eqb (k_RequestID commit) (rec_ID record))
    || failed (ValidateIdentifier (k_ConfirmationID commit)) || failed (ValidateIdentifier (k_Actor commit))
    || negb (String.eqb (k_Scope commit) (r_Scope req)) || negb (k_PolicyEpoch commit =? r_PolicyEpoch req)
    || negb (String.eqb (k_IntentDigest commit) (r_IntentDigest req))
    || negb (String.eqb (k_WorkflowDigest commit) (r_WorkflowDigest req))
    || failed (ValidateIdentifier (k_SessionID commit))
    || negb (String.eqb (k_Nonce commit) (r_Nonce req))
    || negb (k_ExpiresAt commit =? rec_ExpiresAt record) || IsZero (k_IssuedAt commit)
    || Before (k_IssuedAt commit) (rec_SubmittedAt record)
    || After (k_IssuedAt commit) (rec_ExpiresAt record) ;;
  None.

(** What an interactive confirmation must carry besides its bindings. *)
Definition checkpoint_incomplete (req : Request) (c : Confirmation) : bool :=
  IsZero (c_WarningReadAt c) || negb (c_SecondConfirmation c)
  || (negb (c_PasswordConfirmed c) && negb (c_TOTPConfirmed c))
  || (c_ConfirmationStep c <? 2) || (3 <? c_ConfirmationStep c)
  || (requiresThirdConfirmation req && (c_ConfirmationStep c =? 3) && negb (c_ThirdConfirmation c)).

(** The checks on [record.Confirmation] when it has an ID. *)
Definition validate_confirmation (record : ApprovalRecord) : option ApErr :=
  let req := rec_Request record in
  let c := rec_Confirmation record in
  return Some ErrInvalidRequest when negb (known_status (rec_Status record)) ;;
  return Some ErrInvalidRequest when
    failed (ValidateIdentifier (c_ConfirmationID c)) || failed (ValidateIdentifier (c_Actor c))
    || failed (ValidateIdentifier (c_SessionID c)) || negb (String.eqb (c_Scope c) (r_Scope req))
    || negb (c_PolicyEpoch c =? r_PolicyEpoch req)
    || negb (String.eqb (c_IntentDigest c) (r_IntentDigest req))
    || negb (String.eqb (c_WorkflowDigest c) (r_WorkflowDigest req))
    || negb (String.eqb (c_Nonce c) (r_Nonce req))
    || negb (String.eqb (c_ConfirmationLanguage c) (r_ConfirmationLanguage req))
    || String.eqb (c_ConfirmationPhrase c) "" || negb (c_TTL c =? r_TTL req)
    || (String.eqb (rec_Status record) StatusApproved
        && match rec_Commit record with
           | Some commit => negb (String.eqb (c_ConfirmationID c) (k_ConfirmationID commit))
           | None => false
           end)
    || (negb (r_PreApproved req) && checkpoint_incomplete req c) ;;
  match ExpectedConfirmationPhrase (c_ConfirmationLanguage c) with
  | Err _ => Some ErrInvalidRequest
  | Ok phrase => if String.eqb (c_ConfirmationPhrase c) phrase then None else Some ErrInvalidRequest
  end.

Definition validate_times (record : ApprovalRecord) : bool :=
  IsZero (rec_SubmittedAt record) || IsZero (rec_ExpiresAt record)
  || Before (rec_ExpiresAt record) (rec_SubmittedAt record)
  || negb (rec_ExpiresAt record =? TimeAdd (rec_SubmittedAt record) (r_TTL (rec_Request record))).

Definition ValidateRecordForAdapter (record : ApprovalRecord) : option ApErr :=
  return Some ErrInvalidRequest when
    failed (ValidateIdentifier (rec_ID record))
    || negb (String.eqb (r_ID (rec_Request record)) (rec_ID record)) ;;
  match validateRequest (rec_Request record) with
  | Some e => Some e
  | None =>
      return Some ErrInvalidRequest when validate_times record ;;
      return Some ErrInvalidRequest when negb (known_status (rec_Status record)) ;;
      return Some ErrInvalidRequest when
        String.eqb (rec_Status record) StatusApproved
        && match rec_Commit record with None => true | Some _ => false end ;;
      match (match rec_Commit record with Some c => validate_commit record c | None => None end) with
      | Some e => Some e
      | None =>
          if String.eqb (c_ConfirmationID (rec_Confirmation record)) "" then None
          else validate_confirmation record
      end
  end.

Definition sameCheckpoint (previous current : Confirmation) : option ApErr :=
  return Some ErrConfirmationReplay when
    negb (String.eqb (c_ConfirmationID previous) (c_ConfirmationID current)) ;;
  return Some ErrScopeChanged when negb (String.eqb (c_Scope previous) (c_Scope current)) ;;
  return Some ErrIntentChanged when
    negb (String.eqb (c_IntentDigest previous) (c_IntentDigest current)) ;;
  return Some ErrIntentChanged when negb (String.eqb (c_Nonce previous) (c_Nonce current)) ;;
  return Some ErrEpochChanged when negb (c_PolicyEpoch previous =? c_PolicyEpoch current) ;;
  return Some ErrSessionChanged when negb (String.eqb (c_SessionID previous) (c_SessionID current)) ;;
  return Some ErrConfirmationLanguage when
    negb (String.eqb (c_ConfirmationLanguage previous) (c_ConfirmationLanguage current))
    || negb (String.eqb (c_ConfirmationPhrase previous) (c_ConfirmationPhrase current)) ;;
  return Some ErrConfirmationSequence when
    IsZero (c_WarningReadAt previous) || negb (c_WarningReadAt previous =? c_WarningReadAt current) ;;
  return Some ErrConfirmationSequence when
    negb (String.eqb (c_Actor previous) (c_Actor current))
    || negb (String.eqb (c_ActorRole previous) (c_ActorRole current))
    || negb (Bool.eqb (c_Local previous) (c_Local current))
    || negb (Bool.eqb (c_BreakGlass previous) (c_BreakGlass current))
    || negb (String.eqb (c_BreakGlassReason previous) (c_BreakGlassReason current))
    || negb (Bool.eqb (c_PasswordConfirmed previous) (c_PasswordConfirmed current))
    || negb (Bool.eqb (c_TOTPConfirmed previous) (c_TOTPConfirmed current))
    || negb (Bool.eqb (c_SecondConfirmation previous) (c_SecondConfirmation current)) ;;
  None.

(** ** Mutations of the durable ledger (persistence.go) *)

Record ApprovalMutation := {
  m_IdempotencyKey : string;
  m_WorkflowDigest : string;
  m_Record : ApprovalRecord;
  m_Event : AuditEvent
}.

(** *** JSON forms, by the struct tags *)

Definition request_json (r : Request) : json :=
  JObject ([("id", JString (r_ID r)); ("risk", JString (r_Risk r)); ("scope", JString (r_Scope r));
            ("policy_epoch", JNumber (r_PolicyEpoch r)); ("ttl", JNumber (r_TTL r));
            ("pre_approved", JBool (r_PreApproved r)); ("untrusted", JBool (r_Untrusted r));
            ("test", JBool (r_Test r)); ("token_operation", JBool (r_TokenOperation r));
            ("kms_operation", JBool (r_KMSOperation r));
            ("cluster_operation", JBool (r_ClusterOperation r));
            ("break_glass", JBool (r_BreakGlass r)); ("actor", JString (r_Actor r));
            ("session_id", JString (r_SessionID r));
            ("confirmation_language", JString (r_ConfirmationLanguage r));
            ("intent_digest", JString (r_IntentDigest r))]
           ++ omit_empty "workflow_digest" (r_WorkflowDigest r)
           ++ [("nonce", JString (r_Nonce r))]).

Definition confirmation_json (c : Confirmation) : json :=
  JObject ([("warning_read_at", JTime (c_WarningReadAt c));
            ("password_confirmed", JBool (c_PasswordConfirmed c));
            ("second_confirmation", JBool (c_SecondConfirmation c));
            ("third_confirmation", JBool (c_ThirdConfirmation c));
            ("confirmation_id", JString (c_ConfirmationID c)); ("actor", JString (c_Actor c));
            ("actor_role", JString (c_ActorRole c)); ("scope", JString (c_Scope c));
            ("policy_epoch", JNumber (c_PolicyEpoch c)); ("ttl", JNumber (c_TTL c));
            ("local", JBool (c_Local c)); ("break_glass", JBool (c_BreakGlass c))]
           ++ omit_empty "break_glass_reason" (c_BreakGlassReason c)
           ++ [("session_id", JString (c_SessionID c));
               ("confirmation_language", JString (c_ConfirmationLanguage c));
               ("confirmation_phrase", JString (c_ConfirmationPhrase c));
               ("intent_digest", JString (c_IntentDigest c))]
           ++ omit_empty "workflow_digest" (c_WorkflowDigest c)
           ++ [("nonce", JString (c_Nonce c)); ("totp_confirmed", JBool (c_TOTPConfirmed c));
               ("confirmation_step", JNumber (c_ConfirmationStep c))]).

Definition commit_json (k : AuthorizationCommit) : json :=
  JObject ([("request_id", JString (k_RequestID k)); ("confirmation_id", JString (k_ConfirmationID k));
            ("actor", JString (k_Actor k)); ("scope", JString (k_Scope k));
            ("policy_epoch", JNumber (k_PolicyEpoch k)); ("risk", JString (k_Risk k));
            ("ttl", JNumber (k_TTL k)); ("issued_at", JTime (k_IssuedAt k));
            ("expires_at", JTime (k_ExpiresAt k))]
           ++ omit_empty "workflow_digest" (k_WorkflowDigest k)
           ++ [("session_id", JString (k_SessionID k));
               ("confirmation_language", JString (k_ConfirmationLanguage k));
               ("intent_digest", JString (k_IntentDigest k)); ("nonce", JString (k_Nonce k))]).

Definition record_json (r : ApprovalRecord) : json :=
  JObject ([("id", JString (rec_ID r)); ("request", request_json (rec_Request r));
            ("status", JString (rec_Status r)); ("submitted_at", JTime (rec_SubmittedAt r));
            ("expires_at", JTime (rec_ExpiresAt r));
            ("confirmation", confirmation_json (rec_Confirmation r))]
           ++ match rec_Commit r with Some k => [("commit", commit_json k)] | None => [] end).

Definition event_json (e : AuditEvent) : json :=
  JObject ([("sequence", JNumber (e_Sequence e)); ("type", JString (e_Type e)); ("at", JTime (e_At e));
            ("request_id", JString (e_RequestID e)); ("actor", JString (e_Actor e));
            ("scope", JString (e_Scope e)); ("policy_epoch", JNumber (e_PolicyEpoch e))]
           ++ omit_empty "confirmation_id" (e_ConfirmationID e)
           ++ omit_empty "reason" (e_Reason e)
           ++ omit_empty "workflow_digest" (e_WorkflowDigest e)
           ++ omit_empty "intent_digest" (e_IntentDigest e)
           ++ omit_empty "session_id" (e_SessionID e)
           ++ (if e_ConfirmationStep e =? 0 then [] else [("confirmation_step", JNumber (e_ConfirmationStep e))])
           ++ omit_empty "nonce" (e_Nonce e)
           ++ omit_empty "previous_hash" (e_PreviousHash e)
           ++ omit_empty "hash" (e_Hash e)).

Definition mutation_json (m : ApprovalMutation) : json :=
  JObject [("IdempotencyKey", JString (m_IdempotencyKey m));
           ("WorkflowDigest", JString (m_WorkflowDigest m));
           ("Record", record_json (m_Record m)); ("Event", event_json (m_Event m))].

(** [e.Hash = hash]. *)
Definition with_hash (e : AuditEvent) (hash : string) : AuditEvent :=
  {| e_Sequence := e_Sequence e; e_Type := e_Type e; e_At := e_At e; e_RequestID := e_RequestID e;
     e_Actor := e_Actor e; e_Scope := e_Scope e; e_PolicyEpoch := e_PolicyEpoch e;
     e_ConfirmationID := e_ConfirmationID e; e_Reason := e_Reason e;
     e_WorkflowDigest := e_WorkflowDigest e; e_IntentDigest := e_IntentDigest e;
     e_SessionID := e_SessionID e; e_ConfirmationStep := e_ConfirmationStep e; e_Nonce := e_Nonce e;
     e_PreviousHash := e_PreviousHash e; e_Hash := hash |}.

Definition mutationFingerprint (m : ApprovalMutation) : string := hex_sum (Marshal (mutation_json m)).
Definition hashEvent (e : AuditEvent) : string := hex_sum (Marshal (event_json (with_hash e ""))).

(** [e.Sequence = seq]. *)
Definition with_sequence (e : AuditEvent) (seq : Z) : AuditEvent :=
  {| e_Sequence := seq; e_Type := e_Type e; e_At := e_At e; e_RequestID := e_RequestID e;
     e_Actor := e_Actor e; e_Scope := e_Scope e; e_PolicyEpoch := e_PolicyEpoch e;
     e_ConfirmationID := e_ConfirmationID e; e_Reason := e_Reason e;
     e_WorkflowDigest := e_WorkflowDigest e; e_IntentDigest := e_IntentDigest e;
     e_SessionID := e_SessionID e; e_ConfirmationStep := e_ConfirmationStep e; e_Nonce := e_Nonce e;
     e_PreviousHash := e_PreviousHash e; e_Hash := e_Hash e |}.

(** The bindings that the ledger copies from the mutation into its event. *)
Definition bind_event (m : ApprovalMutation) : AuditEvent :=
  let e := m_Event m in
  let req := rec_Request (m_Record m) in
  {| e_Sequence := e_Sequence e; e_Type := e_Type e; e_At := e_At e; e_RequestID := e_RequestID e;
     e_Actor := e_Actor e; e_Scope := e_Scope e; e_PolicyEpoch := e_PolicyEpoch e;
     e_ConfirmationID := e_ConfirmationID e; e_Reason := e_Reason e;
     e_WorkflowDigest := m_WorkflowDigest m; e_IntentDigest := r_IntentDigest req;
     e_SessionID := r_SessionID req; e_ConfirmationStep := e_ConfirmationStep e;
     e_Nonce := r_Nonce req; e_PreviousHash := e_PreviousHash e; e_Hash := e_Hash e |}.

(** [e.PreviousHash = hash]. *)
Definition with_previous (e : AuditEvent) (hash : string) : AuditEvent :=
  {| e_Sequence := e_Sequence e; e_Type := e_Type e; e_At := e_At e; e_RequestID := e_RequestID e;
     e_Actor := e_Actor e; e_Scope := e_Scope e; e_PolicyEpoch := e_PolicyEpoch e;
     e_ConfirmationID := e_ConfirmationID e; e_Reason := e_Reason e;
     e_WorkflowDigest := e_WorkflowDigest e; e_IntentDigest := e_IntentDigest e;
     e_SessionID := e_SessionID e; e_ConfirmationStep := e_ConfirmationStep e; e_Nonce := e_Nonce e;
     e_PreviousHash := hash; e_Hash := e_Hash e |}.

(** ** Decidable equality *)

#[export] Instance ApErr_eq_dec : EqDecision ApErr.
Proof. solve_decision. Defined.
#[export] Instance AuditEvent_eq_dec : EqDecision AuditEvent.
Proof. solve_decision. Defined.

(** ** Identifiers *)

(** A printable ASCII character in front keeps a string opaque. *)
Lemma validateOpaque_cons c s required :
  (byte_val c <? 128) && negb (opaque_rune (byte_val c)) && negb (byte_val c =? RuneError) = true ->
  validateOpaque s false = None -> validateOpaque (String.String c s) required = None.
Proof.
  intros [[H1 H2%negb_true_iff]%andb_true_iff H3%negb_true_iff]%andb_true_iff.
  unfold validateOpaque, ValidString, runes, decoded.
  assert (E : decode_from 0 (bytes (String.String c s)) = (byte_val c, 1%nat) :: decode_from 0 (bytes s)).
  { cbn. by rewrite H1. }
  rewrite E. cbn [forallb map existsb fst snd]. rewrite H2, H3.
  cbn [andb negb orb]. by destruct required.
Qed.

Lemma validateOpaque_weaken s : validateOpaque s true = None -> validateOpaque s false = None.
Proof. unfold validateOpaque. cbn. by destruct (String.eqb s ""). Qed.

Lemma validateOpaque_strengthen s : s <> "" -> validateOpaque s false = None -> validateOpaque s true = None.
Proof. unfold validateOpaque. cbn. by destruct (String.eqb_spec s ""). Qed.

(** The confirmation identifier of a pre-approved request is an identifier. *)
Lemma preapproved_opaque id :
  validateOpaque id true = None -> validateOpaque ("preapproved:" ++ id)%string true = None.
Proof.
  intros H%validateOpaque_weaken. cbn [String.append].
  do 12 (apply validateOpaque_cons; [reflexivity|]). done.
Qed.

(** ** Languages and phrases *)

Lemma language_phrase language :
  NormalizeConfirmationLanguage language = Ok language ->
  exists phrase, ExpectedConfirmationPhrase language = Ok phrase /\ phrase <> ""
                 /\ phrase_or_empty language = phrase.
Proof.
  unfold phrase_or_empty, ExpectedConfirmationPhrase. intros H. rewrite H.
  unfold NormalizeConfirmationLanguage in H.
  assert (language = "zh-CN" \/ language = "zh-TW" \/ language = "en-US") as [-> |[-> | ->]]
    by (branch H; injection H; auto).
  all: eexists; split; [reflexivity|]; split; [done|reflexivity].
Qed.
