(* ===== verification/ApprovalPersistence.v ===== *)
(** * The in-memory approval ledger (internal/approval/persistence.go)

    [MemoryPersistence] keeps a record and a hash-chained event list per
    approval, and a fingerprint per idempotency key. Applying a mutation
    appends one event; a batch is all or nothing; loading re-validates the
    chain. *)

From S2P Require Import Prelude GoText Sha256 Json Approval.

Open Scope list_scope.
Open Scope Z_scope.
Open Scope go_scope.

(** A context: nil, or with the error [ctx.Err()] reports. *)
Inductive Context := NilContext | LiveContext | DoneContext (e : ApErr).

Definition ctx_usable (ctx : Context) : option ApErr :=
  match ctx with
  | NilContext => Some ErrInvalidPersistence
  | LiveContext => None
  | DoneContext e => Some e
  end.

Record StoredRecord := {
  s_record : ApprovalRecord;
  s_workflow : string;
  s_events : list AuditEvent
}.

Record MemoryPersistence := {
  p_records : gmap string StoredRecord;
  p_idempotency : gmap string string
}.

Definition NewMemoryPersistence : MemoryPersistence :=
  {| p_records := ∅; p_idempotency := ∅ |}.

Definition validateMutation (m : ApprovalMutation) : option ApErr :=
  let rec := m_Record m in
  let req := rec_Request rec in
  let e := m_Event m in
  return Some ErrInvalidPersistence when
    failed (validateOpaque (m_IdempotencyKey m) true) || failed (validateOpaque (rec_ID rec) true)
    || negb (String.eqb (r_ID req) (rec_ID rec))
    || (negb (String.eqb (m_WorkflowDigest m) "") && failed (validateOpaque (m_WorkflowDigest m) true))
    || (e_Sequence e =? 0) || IsZero (e_At e) || negb (String.eqb (e_RequestID e) (rec_ID rec))
    || (negb (String.eqb (e_WorkflowDigest e) "")
        && negb (String.eqb (e_WorkflowDigest e) (m_WorkflowDigest m))) ;;
  return Some ErrInvalidPersistence when
    failed (validateRequest req) || failed (validateOpaque (r_Nonce req) true) ;;
  return Some ErrBindingConflict when
    negb (String.eqb (e_Scope e) (r_Scope req)) || negb (e_PolicyEpoch e =? r_PolicyEpoch req)
    || (negb (String.eqb (e_IntentDigest e) "") && negb (String.eqb (e_IntentDigest e) (r_IntentDigest req)))
    || (negb (String.eqb (e_SessionID e) "") && negb (String.eqb (e_SessionID e) (r_SessionID req)))
    || (negb (String.eqb (e_Nonce e) "") && negb (String.eqb (e_Nonce e) (r_Nonce req))) ;;
  return Some ErrInvalidPersistence when
    negb (String.eqb (e_Actor e) "") && failed (validateOpaque (e_Actor e) false) ;;
  return Some ErrInvalidPersistence when
    IsZero (rec_ExpiresAt rec) || IsZero (rec_SubmittedAt rec)
    || Before (rec_ExpiresAt rec) (rec_SubmittedAt rec) ;;
  None.

(** The position check of a mutation against the prior entry: the previous
    hash of the new event, or the error. *)
Definition chain_position (prior : option StoredRecord) (m : ApprovalMutation) : result ApErr string :=
  let req := rec_Request (m_Record m) in
  let e := m_Event m in
  match prior with
  | Some p =>
      let preq := rec_Request (s_record p) in
      return Err ErrBindingConflict when
        negb (String.eqb (s_workflow p) (m_WorkflowDigest m))
        || negb (String.eqb (r_Scope preq) (r_Scope req))
        || negb (r_PolicyEpoch preq =? r_PolicyEpoch req)
        || negb (String.eqb (r_IntentDigest preq) (r_IntentDigest req))
        || negb (String.eqb (r_SessionID preq) (r_SessionID req))
        || negb (String.eqb (r_Nonce preq) (r_Nonce req))
        || negb (rec_ExpiresAt (s_record p) =? rec_ExpiresAt (m_Record m))
        || negb (String.eqb (e_Scope e) (r_Scope req)) || negb (e_PolicyEpoch e =? r_PolicyEpoch req) ;;
      match last (s_events p) with
      | Some l => return Err ErrEventSequence when negb (e_Sequence e =? u64 (e_Sequence l + 1)) ;;
                  Ok (e_Hash l)
      | None => Ok (e_PreviousHash e)
      end
  | None =>
      return Err ErrEventSequence when
        negb (e_Sequence e =? 1) || negb (String.eqb (e_Scope e) (r_Scope req))
        || negb (e_PolicyEpoch e =? r_PolicyEpoch req)
        || negb (String.eqb (e_IntentDigest e) (r_IntentDigest req))
        || negb (String.eqb (e_SessionID e) (r_SessionID req)) ;;
      Ok (e_PreviousHash e)
  end.

(** [m.Event] replaced. *)
Definition with_event (m : ApprovalMutation) (e : AuditEvent) : ApprovalMutation :=
  {| m_IdempotencyKey := m_IdempotencyKey m; m_WorkflowDigest := m_WorkflowDigest m;
     m_Record := m_Record m; m_Event := e |}.

(** The prior entry, when its record has an ID (the zero entry has none). *)
Definition prior_entry (p : MemoryPersistence) (id : string) : option StoredRecord :=
  match p_records p !! id with
  | Some s => if String.eqb (rec_ID (s_record s)) "" then None else Some s
  | None => None
  end.

(** [prior.events] of the possibly missing entry. *)
Definition prior_events (p : MemoryPersistence) (id : string) : list AuditEvent :=
  match p_records p !! id with Some s => s_events s | None => [] end.

Definition applyLocked (ctx : Context) (m : ApprovalMutation) (p : MemoryPersistence)
  : MemoryPersistence * option ApErr :=
  match ctx_usable ctx with
  | Some e => (p, Some e)
  | None =>
  match validateMutation m with
  | Some e => (p, Some e)
  | None =>
      return (p, Some ErrBindingConflict) when
        negb (String.eqb (e_WorkflowDigest (m_Event m)) "")
        && negb (String.eqb (e_WorkflowDigest (m_Event m)) (m_WorkflowDigest m)) ;;
      let m := with_event m (bind_event m) in
      let key := rec_ID (m_Record m) in
      let fp := mutationFingerprint m in
      match p_idempotency p !! m_IdempotencyKey m with
      | Some prior => if String.eqb prior fp then (p, None) else (p, Some ErrIdempotencyConflict)
      | None =>
          match chain_position (prior_entry p key) m with
          | Err e => (p, Some e)
          | Ok previous =>
              let e := with_previous (m_Event m) previous in
              let e := with_hash e (hashEvent e) in
              ({| p_records := <[key := {| s_record := m_Record m; s_workflow := m_WorkflowDigest m;
                                           s_events := prior_events p key ++ [e] |}]> (p_records p);
                  p_idempotency := <[m_IdempotencyKey m := fp]> (p_idempotency p) |}, None)
          end
      end
  end
  end.

Definition Apply (ctx : Context) (m : ApprovalMutation) (p : MemoryPersistence)
  : MemoryPersistence * option ApErr :=
  match ctx with
  | NilContext => (p, Some ErrInvalidPersistence)
  | _ => applyLocked ctx m p
  end.

(** The loop of [ApplyBatch], stopping at the first error. *)
Fixpoint apply_all (ctx : Context) (ms : list ApprovalMutation) (p : MemoryPersistence)
  : MemoryPersistence * option ApErr :=
  match ms with
  | [] => (p, None)
  | m :: ms' =>
      match applyLocked ctx m p with
      | (p', None) => apply_all ctx ms' p'
      | (p', Some e) => (p', Some e)
      end
  end.

Definition ApplyBatch (ctx : Context) (ms : list ApprovalMutation) (p : MemoryPersistence)
  : MemoryPersistence * option ApErr :=
  match ctx, ms with
  | NilContext, _ | _, [] => (p, Some ErrInvalidPersistence)
  | _, _ =>
      match apply_all ctx ms p with
      | (p', None) => (p', None)
      | (_, Some e) => (p, Some e)
      end
  end.

(** The check of one event at index [i] after [previous]. *)
Definition event_broken (record : ApprovalRecord) (i : Z) (previous : string) (e : AuditEvent) : bool :=
  let req := rec_Request record in
  negb (e_Sequence e =? u64 (i + 1)) || negb (String.eqb (e_RequestID e) (rec_ID record))
  || negb (String.eqb (e_Scope e) (r_Scope req)) || negb (e_PolicyEpoch e =? r_PolicyEpoch req)
  || negb (String.eqb (e_IntentDigest e) (r_IntentDigest req))
  || negb (String.eqb (e_WorkflowDigest e) (r_WorkflowDigest req))
  || negb (String.eqb (e_SessionID e) (r_SessionID req)) || negb (String.eqb (e_Nonce e) (r_Nonce req))
  || negb (String.eqb (e_PreviousHash e) previous) || String.eqb (e_Hash e) ""
  || negb (String.eqb (hashEvent e) (e_Hash e)).

Fixpoint validate_events_from (record : ApprovalRecord) (i : Z) (previous : string)
    (events : list AuditEvent) : option ApErr :=
  match events with
  | [] => None
  | e :: events' =>
      return Some ErrInvalidPersistence when event_broken record i previous e ;;
      validate_events_from record (i + 1) (e_Hash e) events'
  end.

Definition validatePersistedEvents (record : ApprovalRecord) (events : list AuditEvent) : option ApErr :=
  validate_events_from record 0 "" events.

Definition Load (ctx : Context) (id : string) (p : MemoryPersistence) : result ApErr ApprovalRecord :=
  match ctx_usable ctx with
  | Some e => Err e
  | None =>
      return Err ErrInvalidPersistence when failed (validateOpaque id true) ;;
      match p_records p !! id with
      | None => Err ErrApprovalNotFound
      | Some s => Ok (s_record s)
      end
  end.

Definition loadWithEventsLocked (id : string) (p : MemoryPersistence)
  : result ApErr (ApprovalRecord * list AuditEvent) :=
  return Err ErrInvalidPersistence when failed (validateOpaque id true) ;;
  match p_records p !! id with
  | None => Err ErrApprovalNotFound
  | Some s =>
      match validatePersistedEvents (s_record s) (s_events s) with
      | Some e => Err e
      | None => Ok (s_record s, s_events s)
      end
  end.

Definition LoadWithEvents (ctx : Context) (id : string) (p : MemoryPersistence)
  : result ApErr (ApprovalRecord * list AuditEvent) :=
  match ctx_usable ctx with
  | Some e => Err e
  | None => loadWithEventsLocked id p
  end.

Definition LoadWithEventsAtEpoch (ctx : Context) (id : string) (expectedEpoch : Z) (p : MemoryPersistence)
  : result ApErr (ApprovalRecord * list AuditEvent) :=
  match ctx_usable ctx with
  | Some e => Err e
  | None =>
      match loadWithEventsLocked id p with
      | Err e => Err e
      | Ok (record, events) =>
          return Err ErrEpochChanged when negb (r_PolicyEpoch (rec_Request record) =? expectedEpoch) ;;
          Ok (record, events)
      end
  end.

Definition Events (ctx : Context) (id : string) (p : MemoryPersistence)
  : result ApErr (list AuditEvent) :=
  match LoadWithEvents ctx id p with
  | Ok (_, out) => Ok out
  | Err e => Err e
  end.

(** ** Chains *)

(** The hash an event appended after [events] must point to. *)
Fixpoint last_hash (previous : string) (events : list AuditEvent) : string :=
  match events with
  | [] => previous
  | e :: events' => last_hash (e_Hash e) events'
  end.

Lemma last_hash_snoc previous events e : last_hash previous (events ++ [e]) = e_Hash e.
Proof. revert previous. induction events as [|x l IH]; intros; simpl; auto. Qed.

Lemma last_hash_last previous events l : last events = Some l -> last_hash previous events = e_Hash l.
Proof.
  destruct events as [|x events] using rev_ind; [done|].
  rewrite last_snoc, last_hash_snoc. congruence.
Qed.

Lemma validate_events_snoc record i previous events e :
  validate_events_from record i previous (events ++ [e]) = None <->
  validate_events_from record i previous events = None
  /\ event_broken record (i + Z.of_nat (length events)) (last_hash previous events) e = false.
Proof.
  revert i previous. induction events as [|x l IH]; intros i previous; simpl.
  - rewrite Z.add_0_r. destruct (event_broken record i previous e); naive_solver.
  - destruct (event_broken record i previous x); [naive_solver|]. rewrite IH.
    replace (i + 1 + Z.of_nat (length l)) with (i + Z.of_nat (S (length l))) by lia. done.
Qed.

(** The part of a record that its events are bound to. *)
Definition binding (r : ApprovalRecord) :=
  let q := rec_Request r in
  (rec_ID r, r_Scope q, r_PolicyEpoch q, r_IntentDigest q, r_WorkflowDigest q, r_SessionID q, r_Nonce q).

Lemma validate_events_binding r r' i previous events :
  binding r = binding r' ->
  validate_events_from r i previous events = validate_events_from r' i previous events.
Proof.
  intros H. injection H as E1 E2 E3 E4 E5 E6 E7.
  revert i previous. induction events as [|e l IH]; intros; simpl; [done|].
  unfold event_broken. rewrite E1, E2, E3, E4, E5, E6, E7, IH. done.
Qed.

(** A broken-free event in clear. *)
Record event_fits (record : ApprovalRecord) (i : Z) (previous : string) (e : AuditEvent) : Prop := {
  fit_seq : e_Sequence e = u64 (i + 1);
  fit_id : e_RequestID e = rec_ID record;
  fit_scope : e_Scope e = r_Scope (rec_Request record);
  fit_epoch : e_PolicyEpoch e = r_PolicyEpoch (rec_Request record);
  fit_intent : e_IntentDigest e = r_IntentDigest (rec_Request record);
  fit_workflow : e_WorkflowDigest e = r_WorkflowDigest (rec_Request record);
  fit_session : e_SessionID e = r_SessionID (rec_Request record);
  fit_nonce : e_Nonce e = r_Nonce (rec_Request record);
  fit_previous : e_PreviousHash e = previous;
  fit_hash : hashEvent e = e_Hash e
}.

Lemma event_broken_false record i previous e :
  event_broken record i previous e = false <-> event_fits record i previous e.
Proof.
  unfold event_broken. split.
  - intros H. props. by constructor.
  - intros [-> -> -> -> -> -> -> -> -> H]. rewrite <- H, !Z.eqb_refl, !String.eqb_refl.
    unfold hashEvent. by rewrite hex_sum_nonempty.
Qed.

Lemma hashEvent_with_hash e h : hashEvent (with_hash e h) = hashEvent e.
Proof. reflexivity. Qed.

Lemma with_hash_inj e e' h : with_hash e h = with_hash e' h -> e_Hash e = e_Hash e' -> e = e'.
Proof. destruct e, e'. cbn. intros [= -> -> -> -> -> -> -> -> -> -> -> -> -> -> ->] ->. done. Qed.

(** ** The store invariant *)

(** A mutation the gate builds: its workflow is the request's, and it does
    not choose its place in the chain. *)
Definition consistent (m : ApprovalMutation) : Prop :=
  m_WorkflowDigest m = r_WorkflowDigest (rec_Request (m_Record m)) /\ e_PreviousHash (m_Event m) = "".

Record entry_ok (id : string) (s : StoredRecord) : Prop := {
  entry_id : rec_ID (s_record s) = id;
  entry_opaque : validateOpaque id true = None;
  entry_workflow : s_workflow s = r_WorkflowDigest (rec_Request (s_record s));
  entry_events : s_events s <> [];
  entry_chain : validatePersistedEvents (s_record s) (s_events s) = None
}.

Definition store_ok (p : MemoryPersistence) : Prop :=
  forall id s, p_records p !! id = Some s -> entry_ok id s.

Lemma failed_false e : failed e = false -> e = None.
Proof. by destruct e. Qed.

Lemma validateMutation_None m :
  validateMutation m = None ->
  validateOpaque (rec_ID (m_Record m)) true = None
  /\ r_ID (rec_Request (m_Record m)) = rec_ID (m_Record m)
  /\ validateRequest (rec_Request (m_Record m)) = None
  /\ e_RequestID (m_Event m) = rec_ID (m_Record m)
  /\ e_Scope (m_Event m) = r_Scope (rec_Request (m_Record m))
  /\ e_PolicyEpoch (m_Event m) = r_PolicyEpoch (rec_Request (m_Record m)).
Proof.
  unfold validateMutation. intros H. branch H. props.
  repeat match goal with H : failed _ = false |- _ => apply failed_false in H end. done.
Qed.

Lemma opaque_nonempty s : validateOpaque s true = None -> s <> "".
Proof. intros H ->. discriminate H. Qed.

Lemma prior_entry_ok p id :
  store_ok p -> prior_entry p id = p_records p !! id.
Proof.
  intros H. unfold prior_entry. destruct (p_records p !! id) as [s|] eqn:E; [|done].
  destruct (H _ _ E) as [Hid Ho _ _ _]. rewrite Hid.
  destruct (String.eqb_spec id ""); [|done]. by apply opaque_nonempty in Ho.
Qed.

(** The entry that a successful application writes. *)
Definition appended (m : ApprovalMutation) (events : list AuditEvent) : AuditEvent :=
  let e := with_previous (bind_event m) (last_hash (e_PreviousHash (m_Event m)) events) in
  with_hash e (hashEvent e).

Definition applied (m : ApprovalMutation) (p : MemoryPersistence) : MemoryPersistence :=
  let key := rec_ID (m_Record m) in
  {| p_records := <[key := {| s_record := m_Record m; s_workflow := m_WorkflowDigest m;
                              s_events := prior_events p key ++ [appended m (prior_events p key)] |}]>
                    (p_records p);
     p_idempotency := <[m_IdempotencyKey m := mutationFingerprint (with_event m (bind_event m))]>
                        (p_idempotency p) |}.

(** The three outcomes of an application: refused, already applied, applied. *)
Inductive apply_outcome (m : ApprovalMutation) (p : MemoryPersistence)
  : MemoryPersistence -> option ApErr -> Prop :=
| outcome_refused e : apply_outcome m p p (Some e)
| outcome_replay :
    p_idempotency p !! m_IdempotencyKey m = Some (mutationFingerprint (with_event m (bind_event m))) ->
    apply_outcome m p p None
| outcome_applied previous :
    validateMutation m = None ->
    p_idempotency p !! m_IdempotencyKey m = None ->
    chain_position (p_records p !! rec_ID (m_Record m)) (with_event m (bind_event m)) = Ok previous ->
    apply_outcome m p (applied m p) None.

Lemma chain_position_previous prior m previous :
  chain_position prior m = Ok previous ->
  previous = last_hash (e_PreviousHash (m_Event m))
               (match prior with Some s => s_events s | None => [] end).
Proof.
  unfold chain_position. intros H. destruct prior as [s|].
  - destruct (_ || _) in H; [discriminate|].
    destruct (last (s_events s)) as [l|] eqn:El.
    + branch H. injection H as <-. symmetry. by apply last_hash_last.
    + apply last_None in El. rewrite El. by injection H.
  - branch H. by injection H.
Qed.

Lemma applyLocked_outcome ctx m p p' r :
  store_ok p -> applyLocked ctx m p = (p', r) -> apply_outcome m p p' r.
Proof.
  intros Hok. unfold applyLocked.
  destruct (ctx_usable ctx); [intros [= <- <-]; constructor|].
  destruct (validateMutation m) eqn:Ev; [intros [= <- <-]; constructor|].
  destruct (_ && _); [intros [= <- <-]; constructor|].
  cbn [with_event m_IdempotencyKey m_Record m_WorkflowDigest m_Event].
  destruct (p_idempotency p !! m_IdempotencyKey m) as [fp|] eqn:Ei.
  - destruct (String.eqb_spec fp (mutationFingerprint (with_event m (bind_event m)))) as [->|];
      intros [= <- <-]; by constructor.
  - rewrite prior_entry_ok by done.
    destruct (chain_position _ _) as [previous|e] eqn:Ec; intros [= <- <-]; [|constructor].
    pose proof (chain_position_previous _ _ _ Ec) as Hp. cbn in Hp.
    assert (E : forall q, q = applied m p -> apply_outcome m p q None)
      by (intros q ->; by eapply outcome_applied).
    apply E. unfold applied, appended, prior_events. by rewrite Hp.
Qed.

Lemma event_fits_appended m record i previous events :
  binding record = binding (m_Record m) ->
  e_Sequence (m_Event m) = u64 (i + 1) ->
  e_RequestID (m_Event m) = rec_ID (m_Record m) ->
  e_Scope (m_Event m) = r_Scope (rec_Request (m_Record m)) ->
  e_PolicyEpoch (m_Event m) = r_PolicyEpoch (rec_Request (m_Record m)) ->
  consistent m ->
  last_hash (e_PreviousHash (m_Event m)) events = previous ->
  event_fits record i previous (appended m events).
Proof.
  intros Hb Hs Hi Hsc He [Hw Hp] Hl. injection Hb as E1 E2 E3 E4 E5 E6 E7.
  constructor; [cbn; congruence..|]. apply hashEvent_with_hash.
Qed.

Lemma chain_position_facts s m previous :
  consistent m -> entry_ok (rec_ID (m_Record m)) s -> r_ID (rec_Request (m_Record m)) = rec_ID (m_Record m) ->
  chain_position (Some s) (with_event m (bind_event m)) = Ok previous ->
  binding (s_record s) = binding (m_Record m)
  /\ e_Sequence (m_Event m) = u64 (Z.of_nat (length (s_events s)) + 1).
Proof.
  intros [Hw Hp] [Hid Ho Hwf Hne Hch] Hrid H. unfold chain_position in H.
  cbn [with_event m_Record m_WorkflowDigest m_Event bind_event e_Scope e_PolicyEpoch e_Sequence] in H.
  destruct (_ || _) eqn:E in H; [discriminate|]. props.
  split.
  - unfold binding. congruence.
  - destruct (s_events s) as [|l ll _] using rev_ind; [done|].
    rewrite last_snoc in H. destruct (negb _) eqn:E1 in H; [discriminate|]. props.
    rewrite E1. unfold validatePersistedEvents in Hch.
    apply validate_events_snoc in Hch as [_ Hl]. apply event_broken_false in Hl.
    rewrite (fit_seq _ _ _ _ Hl). rewrite length_app. cbn.
    unfold u64. rewrite Zplus_mod_idemp_l. f_equal. lia.
Qed.

Lemma applied_ok p m previous :
  store_ok p -> consistent m -> validateMutation m = None ->
  chain_position (p_records p !! rec_ID (m_Record m)) (with_event m (bind_event m)) = Ok previous ->
  store_ok (applied m p).
Proof.
  intros Hok Hc Hv Hpos id s. unfold applied. cbn [p_records].
  apply validateMutation_None in Hv as (Ho & Hrid & Hvr & Hri & Hsc & Hep).
  rewrite lookup_insert_Some. intros [[<- <-]|[_ Hs]]; [|by apply Hok].
  unfold prior_events.
  constructor; cbn [s_record s_events s_workflow]; [done|done|apply Hc| |].
  { by intros [_ ?]%app_nil. }
  unfold validatePersistedEvents. apply validate_events_snoc.
  destruct (p_records p !! rec_ID (m_Record m)) as [s|] eqn:Es.
  - pose proof (Hok _ _ Es) as He.
    destruct (chain_position_facts _ _ _ Hc He Hrid Hpos) as [Hb Hseq].
    rewrite (validate_events_binding _ (s_record s)) by done. split; [apply He|].
    apply event_broken_false, event_fits_appended; try done.
    by destruct Hc as [_ ->].
  - split; [done|]. apply event_broken_false.
    unfold chain_position in Hpos.
    cbn [with_event m_Record m_Event bind_event e_Scope e_PolicyEpoch e_Sequence] in Hpos.
    branch Hpos. props. apply event_fits_appended; try done. by destruct Hc as [_ ->].
Qed.

Lemma applyLocked_ok ctx m p p' r :
  store_ok p -> consistent m -> applyLocked ctx m p = (p', r) -> store_ok p'.
Proof.
  intros Hok Hc H. apply applyLocked_outcome in H; [|done]. destruct H; eauto using applied_ok.
Qed.

Lemma apply_all_ok ctx ms p p' r :
  store_ok p -> Forall consistent ms -> apply_all ctx ms p = (p', r) -> store_ok p'.
Proof.
  intros Hok Hms. revert p Hok. induction Hms as [|m ms Hm Hms IH]; intros p Hok; cbn.
  - by intros [= <- <-].
  - destruct (applyLocked ctx m p) as [q [e|]] eqn:E; [intros [= <- <-]|];
      eauto using applyLocked_ok.
Qed.

(** ** Reachable stores *)

Inductive ledger_step : MemoryPersistence -> MemoryPersistence -> Prop :=
| step_apply ctx m p : consistent m -> ledger_step p (fst (Apply ctx m p))
| step_batch ctx ms p : Forall consistent ms -> ledger_step p (fst (ApplyBatch ctx ms p)).

Definition ledger_reachable : MemoryPersistence -> Prop := rtc ledger_step NewMemoryPersistence.

Lemma Apply_locked ctx m p : fst (Apply ctx m p) = p \/ Apply ctx m p = applyLocked ctx m p.
Proof. destruct ctx; auto. Qed.

Lemma ApplyBatch_result ctx ms p :
  (fst (ApplyBatch ctx ms p) = p /\ snd (ApplyBatch ctx ms p) <> None)
  \/ (snd (ApplyBatch ctx ms p) = None /\ ms <> [] /\ apply_all ctx ms p = ApplyBatch ctx ms p).
Proof.
  unfold ApplyBatch. destruct ctx, ms; cbn [fst snd]; eauto;
    destruct (apply_all _ _ _) as [q [e|]] eqn:E; eauto.
Qed.

Lemma ledger_step_ok p p' : store_ok p -> ledger_step p p' -> store_ok p'.
Proof.
  intros Hok H. destruct H as [ctx m p Hm|ctx ms p Hms].
  - destruct (Apply_locked ctx m p) as [-> | ->]; [done|].
    destruct (applyLocked ctx m p) eqn:E. eauto using applyLocked_ok.
  - destruct (ApplyBatch_result ctx ms p) as [[-> _]|(_ & _ & <-)]; [done|].
    destruct (apply_all ctx ms p) eqn:E. eauto using apply_all_ok.
Qed.

Lemma ledger_reachable_ok p : ledger_reachable p -> store_ok p.
Proof.
  apply (rtc_ind_r store_ok); [by intros ? ?|]. intros; eauto using ledger_step_ok.
Qed.

(** The ledger never loses an approval to its own validation: after any
    sequence of mutations and batches built the way the gate builds them,
    whatever the outcome of each, every stored record loads together with its
    complete, validated event chain. *)
Theorem ledger_always_loads p id s :
  ledger_reachable p -> p_records p !! id = Some s ->
  LoadWithEvents LiveContext id p = Ok (s_record s, s_events s) /\ s_events s <> [].
Proof.
  intros Hr Hs. destruct (ledger_reachable_ok _ Hr _ _ Hs) as [_ Ho _ Hne Hc].
  split; [|done]. unfold LoadWithEvents, loadWithEventsLocked. cbn. by rewrite Ho, Hs, Hc.
Qed.


(** ** Idempotency *)

Lemma applyLocked_keeps_key ctx m p k fp :
  store_ok p -> p_idempotency p !! k = Some fp ->
  p_idempotency (fst (applyLocked ctx m p)) !! k = Some fp.
Proof.
  intros Hok Hk. destruct (applyLocked ctx m p) as [q r] eqn:E.
  apply applyLocked_outcome in E; [|done]. destruct E; cbn; try done.
  rewrite lookup_insert_ne; congruence.
Qed.

Lemma apply_all_keeps_key ctx ms p k fp :
  store_ok p -> Forall consistent ms -> p_idempotency p !! k = Some fp ->
  p_idempotency (fst (apply_all ctx ms p)) !! k = Some fp.
Proof.
  intros Hok Hms. revert p Hok. induction Hms as [|m ms Hm Hms IH]; intros p Hok Hk; [done|]. cbn.
  pose proof (applyLocked_keeps_key ctx m p k fp Hok Hk) as H1.
  destruct (applyLocked ctx m p) as [q [e|]] eqn:E; cbn in *; eauto using applyLocked_ok.
Qed.

Lemma ledger_step_keeps_key p p' k fp :
  store_ok p -> ledger_step p p' -> p_idempotency p !! k = Some fp -> p_idempotency p' !! k = Some fp.
Proof.
  intros Hok H Hk. destruct H as [ctx m p Hm|ctx ms p Hms].
  - destruct (Apply_locked ctx m p) as [-> | ->]; [done|]. by apply applyLocked_keeps_key.
  - destruct (ApplyBatch_result ctx ms p) as [[-> _]|(_ & _ & <-)]; [done|].
    by apply apply_all_keeps_key.
Qed.

Lemma ledger_steps_keep_key p p' k fp :
  store_ok p -> rtc ledger_step p p' -> p_idempotency p !! k = Some fp -> p_idempotency p' !! k = Some fp.
Proof.
  intros Hok H. induction H as [|p q p' Hs _ IH]; [done|]. intros Hk.
  apply IH; eauto using ledger_step_ok, ledger_step_keeps_key.
Qed.

(** The bound form of a mutation is what its fingerprint covers. *)
Definition fingerprint (m : ApprovalMutation) : string :=
  mutationFingerprint (with_event m (bind_event m)).

Lemma Apply_success ctx m p p' :
  store_ok p -> Apply ctx m p = (p', None) ->
  validateMutation m = None /\ p_idempotency p' !! m_IdempotencyKey m = Some (fingerprint m).
Proof.
  intros Hok H. assert (applyLocked ctx m p = (p', None)) as HL by (by destruct ctx).
  pose proof HL as HO. apply applyLocked_outcome in HO; [|done]. split.
  - unfold applyLocked in HL. branch HL; done.
  - inversion HO; subst; cbn; [done|]. apply lookup_insert_eq.
Qed.

(** Exactly once: after a mutation has been accepted, retrying it, however
    many other mutations and batches came in between, reports success and
    leaves the ledger as it is; another mutation under the same idempotency
    key is refused as a conflict and changes nothing either. *)
Theorem mutation_applies_once p p1 p2 ctx m :
  ledger_reachable p -> Apply ctx m p = (p1, None) -> consistent m -> rtc ledger_step p1 p2 ->
  Apply LiveContext m p2 = (p2, None)
  /\ forall m', validateMutation m' = None -> m_IdempotencyKey m' = m_IdempotencyKey m ->
       fingerprint m' <> fingerprint m -> 
       Apply LiveContext m' p2 = (p2, Some ErrIdempotencyConflict).
Proof.
  intros Hr Ha Hm Hs. pose proof (ledger_reachable_ok _ Hr) as Hok.
  destruct (Apply_success _ _ _ _ Hok Ha) as [Hv Hk].
  assert (store_ok p1) as Hok1.
  { eapply ledger_step_ok; [done|]. pose proof (step_apply ctx m p Hm) as H. by rewrite Ha in H. }
  pose proof (ledger_steps_keep_key _ _ _ _ Hok1 Hs Hk) as Hk2.
  assert (forall m', validateMutation m' = None -> m_IdempotencyKey m' = m_IdempotencyKey m ->
            Apply LiveContext m' p2 =
            if String.eqb (fingerprint m) (fingerprint m') then (p2, None)
            else (p2, Some ErrIdempotencyConflict)) as HA.
  { intros m' Hv' Ek. unfold Apply, applyLocked. cbn [ctx_usable]. rewrite Hv'.
    assert (negb (String.eqb (e_WorkflowDigest (m_Event m')) "")
            && negb (String.eqb (e_WorkflowDigest (m_Event m')) (m_WorkflowDigest m')) = false) as ->.
    { unfold validateMutation in Hv'. branch Hv'. props. done. }
    cbn [with_event m_IdempotencyKey]. rewrite Ek, Hk2. done. }
  split.
  - rewrite HA by done. by rewrite String.eqb_refl.
  - intros m' Hv' Ek Hne. rewrite HA by done. by destruct (String.eqb_spec (fingerprint m) (fingerprint m')).
Qed.
