(* ===== verification/ApprovalGate.v ===== *)
(** * The approval gate (internal/approval/gate.go)

    [Gate] holds the approval requests of a control plane: it decides which
    request is approved at once, which needs an operator's confirmation, in
    one or two checkpoints, and consumes authorizations. Every operation runs
    under the gate's mutex, so an operation is one step on the gate's state.

    The durable ledger behind the gate is an interface of the code with
    optional capabilities; here it is a record of functions over a durable
    state of any type [D], the optional ones [option]s. [defer_persist] is the
    deferred write-through of the operations. *)

From S2P Require Import Prelude GoText Sha256 Json Approval ApprovalPersistence.

Open Scope list_scope.
Open Scope Z_scope.
Open Scope go_scope.

(** ** The durable ledger *)

Record Persistence (D : Type) := {
  i_Apply : Context -> ApprovalMutation -> D -> D * option ApErr;
  i_Load : Context -> string -> D -> result ApErr ApprovalRecord;
  i_Events : Context -> string -> D -> result ApErr (list AuditEvent);
  i_LoadWithEvents : option (Context -> string -> D -> result ApErr (ApprovalRecord * list AuditEvent));
  i_LoadWithEventsAtEpoch :
    option (Context -> string -> Z -> D -> result ApErr (ApprovalRecord * list AuditEvent));
  i_ApplyBatch : option (Context -> list ApprovalMutation -> D -> D * option ApErr);
  i_ApplyAtEpoch : option (Context -> Z -> ApprovalMutation -> D -> D * option ApErr);
  i_ApplyBatchAtEpoch : option (Context -> Z -> list ApprovalMutation -> D -> D * option ApErr);
  i_PolicyEpoch : option (Context -> D -> result ApErr Z);
  i_CompareAndSetEpoch : option (Context -> Z -> Z -> D -> D * option ApErr);
  i_ListIDs : option (Context -> D -> result ApErr (list string))
}.
Arguments i_Apply {D}. Arguments i_Load {D}. Arguments i_Events {D}.
Arguments i_LoadWithEvents {D}. Arguments i_LoadWithEventsAtEpoch {D}.
Arguments i_ApplyBatch {D}. Arguments i_ApplyAtEpoch {D}. Arguments i_ApplyBatchAtEpoch {D}.
Arguments i_PolicyEpoch {D}. Arguments i_CompareAndSetEpoch {D}. Arguments i_ListIDs {D}.

(** [MemoryPersistence] behind the interface: it has the batch and the
    snapshot capabilities. *)
Definition memory_persistence : Persistence MemoryPersistence := {|
  i_Apply := Apply;
  i_Load := Load;
  i_Events := Events;
  i_LoadWithEvents := Some LoadWithEvents;
  i_LoadWithEventsAtEpoch := Some LoadWithEventsAtEpoch;
  i_ApplyBatch := Some ApplyBatch;
  i_ApplyAtEpoch := None;
  i_ApplyBatchAtEpoch := None;
  i_PolicyEpoch := None;
  i_CompareAndSetEpoch := None;
  i_ListIDs := None
|}.

(** ** The gate *)

Record Gate (D : Type) := {
  g_policyEpoch : Z;
  g_requests : gmap string ApprovalRecord;
  g_usedIDs : gset string;
  g_confirmationOwners : gmap string string;
  g_audit : list AuditEvent;
  g_sequence : Z;
  g_persistence : option (Persistence D);
  g_durableSequences : gmap string Z
}.
Arguments g_policyEpoch {D}. Arguments g_requests {D}. Arguments g_usedIDs {D}.
Arguments g_confirmationOwners {D}. Arguments g_audit {D}. Arguments g_sequence {D}.
Arguments g_persistence {D}. Arguments g_durableSequences {D}.

Record gateSnapshot := {
  sn_requests : gmap string ApprovalRecord;
  sn_used : gset string;
  sn_owners : gmap string string;
  sn_audit : list AuditEvent;
  sn_sequence : Z;
  sn_durable : gmap string Z
}.

Section Gate.
Context {D : Type}.
Implicit Types (g : Gate D) (d : D).

Definition NewGate (policyEpoch : Z) : Gate D := {|
  g_policyEpoch := policyEpoch; g_requests := ∅; g_usedIDs := ∅; g_confirmationOwners := ∅;
  g_audit := []; g_sequence := 0; g_persistence := None; g_durableSequences := ∅ |}.

Definition NewApprovalGate (policyEpoch : Z) : Gate D := NewGate policyEpoch.

Definition PolicyEpoch g : Z := g_policyEpoch g.

Definition snapshot g : gateSnapshot := {|
  sn_requests := g_requests g; sn_used := g_usedIDs g; sn_owners := g_confirmationOwners g;
  sn_audit := g_audit g; sn_sequence := g_sequence g; sn_durable := g_durableSequences g |}.

Definition restore g (s : gateSnapshot) : Gate D := {|
  g_policyEpoch := g_policyEpoch g; g_requests := sn_requests s; g_usedIDs := sn_used s;
  g_confirmationOwners := sn_owners s; g_audit := sn_audit s; g_sequence := sn_sequence s;
  g_persistence := g_persistence g; g_durableSequences := sn_durable s |}.

(** Assignments to one field of the gate. *)
Definition set_requests g (m : gmap string ApprovalRecord) : Gate D := {|
  g_policyEpoch := g_policyEpoch g; g_requests := m; g_usedIDs := g_usedIDs g;
  g_confirmationOwners := g_confirmationOwners g; g_audit := g_audit g;
  g_sequence := g_sequence g; g_persistence := g_persistence g;
  g_durableSequences := g_durableSequences g |}.
Definition put_request g (id : string) (r : ApprovalRecord) : Gate D :=
  set_requests g (<[id := r]> (g_requests g)).
Definition use_id g (id : string) : Gate D := {|
  g_policyEpoch := g_policyEpoch g; g_requests := g_requests g; g_usedIDs := {[id]} ∪ g_usedIDs g;
  g_confirmationOwners := g_confirmationOwners g; g_audit := g_audit g;
  g_sequence := g_sequence g; g_persistence := g_persistence g;
  g_durableSequences := g_durableSequences g |}.
Definition own_id g (id owner : string) : Gate D := {|
  g_policyEpoch := g_policyEpoch g; g_requests := g_requests g; g_usedIDs := g_usedIDs g;
  g_confirmationOwners := <[id := owner]> (g_confirmationOwners g); g_audit := g_audit g;
  g_sequence := g_sequence g; g_persistence := g_persistence g;
  g_durableSequences := g_durableSequences g |}.
Definition push_audit g (sequence : Z) (e : AuditEvent) : Gate D := {|
  g_policyEpoch := g_policyEpoch g; g_requests := g_requests g; g_usedIDs := g_usedIDs g;
  g_confirmationOwners := g_confirmationOwners g; g_audit := g_audit g ++ [e];
  g_sequence := sequence; g_persistence := g_persistence g;
  g_durableSequences := g_durableSequences g |}.
Definition set_durable g (id : string) (n : Z) : Gate D := {|
  g_policyEpoch := g_policyEpoch g; g_requests := g_requests g; g_usedIDs := g_usedIDs g;
  g_confirmationOwners := g_confirmationOwners g; g_audit := g_audit g;
  g_sequence := g_sequence g; g_persistence := g_persistence g;
  g_durableSequences := <[id := n]> (g_durableSequences g) |}.
Definition set_policyEpoch g (epoch : Z) : Gate D := {|
  g_policyEpoch := epoch; g_requests := g_requests g; g_usedIDs := g_usedIDs g;
  g_confirmationOwners := g_confirmationOwners g; g_audit := g_audit g;
  g_sequence := g_sequence g; g_persistence := g_persistence g;
  g_durableSequences := g_durableSequences g |}.
Definition set_persistence g (p : Persistence D) : Gate D := {|
  g_policyEpoch := g_policyEpoch g; g_requests := g_requests g; g_usedIDs := g_usedIDs g;
  g_confirmationOwners := g_confirmationOwners g; g_audit := g_audit g;
  g_sequence := g_sequence g; g_persistence := Some p;
  g_durableSequences := g_durableSequences g |}.

Definition audit_event g (sequence : Z) (now : Time) (typ requestID actor scope : string) (epoch : Z)
    (confirmationID reason : string) : AuditEvent :=
  let bound (f : ApprovalRecord -> string) :=
    match g_requests g !! requestID with Some record => f record | None => "" end in
  {| e_Sequence := sequence; e_Type := typ; e_At := now; e_RequestID := requestID; e_Actor := actor;
     e_Scope := scope; e_PolicyEpoch := epoch; e_ConfirmationID := confirmationID; e_Reason := reason;
     e_WorkflowDigest := bound (fun r => r_WorkflowDigest (rec_Request r));
     e_IntentDigest := bound (fun r => r_IntentDigest (rec_Request r));
     e_SessionID := bound (fun r => r_SessionID (rec_Request r));
     e_ConfirmationStep := match g_requests g !! requestID with
                           | Some record => c_ConfirmationStep (rec_Confirmation record)
                           | None => 0
                           end;
     e_Nonce := bound (fun r => r_Nonce (rec_Request r));
     e_PreviousHash := ""; e_Hash := "" |}.

Definition appendAudit g (now : Time) (typ requestID actor scope : string) (epoch : Z)
    (confirmationID reason : string) : Gate D :=
  let sequence := u64 (g_sequence g + 1) in
  push_audit g sequence (audit_event g sequence now typ requestID actor scope epoch confirmationID reason).

(** [NewGateWithPersistence]; a nil interface and a nil pointer are [None]. *)
Definition NewGateWithPersistence (policyEpoch : Z) (p : option (Persistence D))
  : result ApErr (Gate D) :=
  match p with
  | None => Err ErrInvalidPersistence
  | Some p => Ok (set_persistence (NewGate policyEpoch) p)
  end.

Definition BindPersistence (p : option (Persistence D)) g : Gate D * result ApErr unit :=
  match p with
  | None => (g, Err ErrInvalidPersistence)
  | Some p =>
      return (g, Err ErrBindingConflict) when
        match g_persistence g with Some _ => true | None => false end
        || negb (Z.of_nat (size (g_requests g)) =? 0) || negb (Z.of_nat (length (g_audit g)) =? 0) ;;
      (set_persistence g p, Ok tt)
  end.

(** ** Write-through *)

(** The record under an ID, the zero record if there is none. *)
Definition zero_request : Request :=
  {| r_ID := ""; r_Risk := ""; r_Scope := ""; r_PolicyEpoch := 0; r_TTL := 0; r_PreApproved := false;
     r_Untrusted := false; r_Test := false; r_TokenOperation := false; r_KMSOperation := false;
     r_ClusterOperation := false; r_BreakGlass := false; r_Actor := ""; r_SessionID := "";
     r_ConfirmationLanguage := ""; r_IntentDigest := ""; r_WorkflowDigest := ""; r_Nonce := "" |}.
Definition zero_record : ApprovalRecord :=
  {| rec_ID := ""; rec_Request := zero_request; rec_Status := ""; rec_SubmittedAt := 0;
     rec_ExpiresAt := 0; rec_Confirmation := zero_confirmation; rec_Commit := None |}.

(** The mutations for the new events of one request, numbered after [local]. *)
Fixpoint persist_batch (record : ApprovalRecord) (requestID : string) (local : Z)
    (events : list AuditEvent) : Z * list ApprovalMutation :=
  match events with
  | [] => (local, [])
  | event :: events' =>
      if negb (String.eqb (e_RequestID event) requestID)
      then persist_batch record requestID local events'
      else
        let local := u64 (local + 1) in
        let m := {| m_IdempotencyKey := "gate:" ++ requestID ++ ":" ++ itoa local;
                    m_WorkflowDigest := r_WorkflowDigest (rec_Request record);
                    m_Record := record; m_Event := with_sequence event local |} in
        let '(final, rest) := persist_batch record requestID local events' in
        (final, m :: rest)
  end.

(** The capability that a batch is written through. *)
Definition write_batch (p : Persistence D) (epoch : Z) (batch : list ApprovalMutation) d
  : D * option ApErr :=
  match batch with
  | [] => (d, None)
  | [m] =>
      match i_ApplyAtEpoch p, i_ApplyBatchAtEpoch p with
      | Some f, _ => f LiveContext epoch m d
      | None, Some f => f LiveContext epoch batch d
      | None, None => i_Apply p LiveContext m d
      end
  | _ =>
      match i_ApplyBatchAtEpoch p, i_ApplyAtEpoch p, i_ApplyBatch p with
      | Some f, _, _ => f LiveContext epoch batch d
      | None, Some _, _ => (d, Some ErrInvalidPersistence)
      | None, None, None => (d, Some ErrInvalidPersistence)
      | None, None, Some f => f LiveContext batch d
      end
  end.

Definition persistSince (start : nat) (requestID : string) g d : Gate D * D * option ApErr :=
  match g_persistence g with
  | None => (g, d, None)
  | Some p =>
      let local := default 0 (g_durableSequences g !! requestID) in
      let record := default zero_record (g_requests g !! requestID) in
      let '(local, batch) := persist_batch record requestID local (drop start (g_audit g)) in
      match write_batch p (g_policyEpoch g) batch d with
      | (d, Some e) => (g, d, Some e)
      | (d, None) => (set_durable g requestID local, d, None)
      end
  end.

(** The deferred function of an operation that ran from [g] to [g'] with the
    result [out]: write the new events through, or roll back. [always] is
    [Confirm]'s deferred function, which also writes rejections. *)
Definition defer_persist {A} (always : bool) g g' (requestID : string) d (out : result ApErr A)
  : Gate D * D * result ApErr A :=
  match g_persistence g' with
  | None => (g', d, out)
  | Some _ =>
      if always || match out with Ok _ => true | Err _ => false end then
        match persistSince (length (g_audit g)) requestID g' d with
        | (g'', d', Some e) => (restore g'' (snapshot g), d', Err e)
        | (g'', d', None) => (g'', d', out)
        end
      else (g', d, out)
  end.

(** ** Submit *)

(** The condition of immediate approval. *)
Definition pre_approved (req : Request) : bool :=
  r_PreApproved req && String.eqb (r_Risk req) RiskLow && negb (sensitive req) && negb (r_BreakGlass req).

Definition pre_approved_commit (now : Time) (req : Request) (expires : Time) : AuthorizationCommit :=
  {| k_RequestID := r_ID req; k_ConfirmationID := ("preapproved:" ++ r_ID req)%string;
     k_Actor := r_Actor req; k_Scope := r_Scope req; k_PolicyEpoch := r_PolicyEpoch req;
     k_Risk := r_Risk req; k_TTL := r_TTL req; k_IssuedAt := now; k_ExpiresAt := expires;
     k_WorkflowDigest := r_WorkflowDigest req; k_SessionID := r_SessionID req;
     k_ConfirmationLanguage := r_ConfirmationLanguage req; k_IntentDigest := r_IntentDigest req;
     k_Nonce := r_Nonce req |}.

Definition pre_approved_confirmation (req : Request) : Confirmation :=
  {| c_WarningReadAt := 0; c_PasswordConfirmed := false; c_SecondConfirmation := false;
     c_ThirdConfirmation := false; c_ConfirmationID := ("preapproved:" ++ r_ID req)%string;
     c_Actor := r_Actor req; c_ActorRole := ""; c_Scope := r_Scope req;
     c_PolicyEpoch := r_PolicyEpoch req; c_TTL := r_TTL req; c_Local := false; c_BreakGlass := false;
     c_BreakGlassReason := ""; c_SessionID := r_SessionID req;
     c_ConfirmationLanguage := r_ConfirmationLanguage req;
     c_ConfirmationPhrase := phrase_or_empty (r_ConfirmationLanguage req);
     c_IntentDigest := r_IntentDigest req; c_WorkflowDigest := r_WorkflowDigest req;
     c_Nonce := r_Nonce req; c_TOTPConfirmed := false; c_ConfirmationStep := 0 |}.

Definition submitted_record (now : Time) (req : Request) : ApprovalRecord :=
  let expires := TimeAdd now (r_TTL req) in
  let ready := pre_approved req in
  {| rec_ID := r_ID req; rec_Request := req;
     rec_Status := if ready then StatusApproved else StatusPending;
     rec_SubmittedAt := now; rec_ExpiresAt := expires;
     rec_Confirmation := if ready then pre_approved_confirmation req else zero_confirmation;
     rec_Commit := if ready then Some (pre_approved_commit now req expires) else None |}.

Definition submit_body (now : Time) (req : Request) g : Gate D * result ApErr ApprovalRecord :=
  match normalizeRequest req with
  | Err e => (g, Err e)
  | Ok req =>
  match validateRequest req with
  | Some e => (g, Err e)
  | None =>
      return (g, Err ErrEpochChanged) when negb (r_PolicyEpoch req =? g_policyEpoch g) ;;
      return (g, Err ErrDuplicateRequest) when has (g_requests g) (r_ID req) ;;
      let record := submitted_record now req in
      let g := put_request g (r_ID req) record in
      let g := appendAudit g now AuditSubmitted (r_ID req) (r_Actor req) (r_Scope req)
                 (r_PolicyEpoch req) "" "" in
      let g := match rec_Commit record with
               | Some commit =>
                   appendAudit (use_id g (k_ConfirmationID commit)) now AuditAuthorized (r_ID req)
                     (r_Actor req) (r_Scope req) (r_PolicyEpoch req) (k_ConfirmationID commit)
                     "pre-approved"
               | None => g
               end in
      (g, Ok record)
  end
  end.

Definition Submit (now : Time) (req : Request) g d : Gate D * D * result ApErr ApprovalRecord :=
  let '(g', out) := submit_body now req g in
  defer_persist false g g' (r_ID req) d out.

(** ** Confirm *)

(** [c.ConfirmationLanguage = language]. *)
Definition with_language (c : Confirmation) (language : string) : Confirmation :=
  {| c_WarningReadAt := c_WarningReadAt c; c_PasswordConfirmed := c_PasswordConfirmed c;
     c_SecondConfirmation := c_SecondConfirmation c; c_ThirdConfirmation := c_ThirdConfirmation c;
     c_ConfirmationID := c_ConfirmationID c; c_Actor := c_Actor c; c_ActorRole := c_ActorRole c;
     c_Scope := c_Scope c; c_PolicyEpoch := c_PolicyEpoch c; c_TTL := c_TTL c; c_Local := c_Local c;
     c_BreakGlass := c_BreakGlass c; c_BreakGlassReason := c_BreakGlassReason c;
     c_SessionID := c_SessionID c; c_ConfirmationLanguage := language;
     c_ConfirmationPhrase := c_ConfirmationPhrase c; c_IntentDigest := c_IntentDigest c;
     c_WorkflowDigest := c_WorkflowDigest c; c_Nonce := c_Nonce c; c_TOTPConfirmed := c_TOTPConfirmed c;
     c_ConfirmationStep := c_ConfirmationStep c |}.

(** [c.TTL = ttl; c.ConfirmationStep = step]. *)
Definition with_step (c : Confirmation) (ttl : Duration) (step : Z) : Confirmation :=
  {| c_WarningReadAt := c_WarningReadAt c; c_PasswordConfirmed := c_PasswordConfirmed c;
     c_SecondConfirmation := c_SecondConfirmation c; c_ThirdConfirmation := c_ThirdConfirmation c;
     c_ConfirmationID := c_ConfirmationID c; c_Actor := c_Actor c; c_ActorRole := c_ActorRole c;
     c_Scope := c_Scope c; c_PolicyEpoch := c_PolicyEpoch c; c_TTL := ttl; c_Local := c_Local c;
     c_BreakGlass := c_BreakGlass c; c_BreakGlassReason := c_BreakGlassReason c;
     c_SessionID := c_SessionID c; c_ConfirmationLanguage := c_ConfirmationLanguage c;
     c_ConfirmationPhrase := c_ConfirmationPhrase c; c_IntentDigest := c_IntentDigest c;
     c_WorkflowDigest := c_WorkflowDigest c; c_Nonce := c_Nonce c; c_TOTPConfirmed := c_TOTPConfirmed c;
     c_ConfirmationStep := step |}.

(** [record.Status], [record.Confirmation] and [record.Commit] assigned. *)
Definition with_status (r : ApprovalRecord) (status : string) (commit : option AuthorizationCommit)
  : ApprovalRecord :=
  {| rec_ID := rec_ID r; rec_Request := rec_Request r; rec_Status := status;
     rec_SubmittedAt := rec_SubmittedAt r; rec_ExpiresAt := rec_ExpiresAt r;
     rec_Confirmation := rec_Confirmation r; rec_Commit := commit |}.
Definition with_confirmation (r : ApprovalRecord) (c : Confirmation) : ApprovalRecord :=
  {| rec_ID := rec_ID r; rec_Request := rec_Request r; rec_Status := rec_Status r;
     rec_SubmittedAt := rec_SubmittedAt r; rec_ExpiresAt := rec_ExpiresAt r;
     rec_Confirmation := c; rec_Commit := rec_Commit r |}.

(** The binding checks: epoch, scope, actor, confirmation ID, session. *)
Definition confirm_identity g (requestID : string) (record : ApprovalRecord) (c : Confirmation)
  : option ApErr :=
  let req := rec_Request record in
  return Some ErrEpochChanged when
    negb (r_PolicyEpoch req =? g_policyEpoch g) || negb (c_PolicyEpoch c =? r_PolicyEpoch req) ;;
  return Some ErrScopeChanged when negb (String.eqb (c_Scope c) (r_Scope req)) ;;
  return Some ErrActorRequired when String.eqb (c_Actor c) "" ;;
  return Some ErrInvalidActor when failed (validateOpaque (c_Actor c) false) ;;
  return Some ErrConfirmationRequired when String.eqb (c_ConfirmationID c) "" ;;
  return Some ErrInvalidConfirmationID when failed (validateOpaque (c_ConfirmationID c) false) ;;
  return Some ErrConfirmationReplay when bool_decide (c_ConfirmationID c ∈ g_usedIDs g) ;;
  return Some ErrConfirmationReplay when
    match g_confirmationOwners g !! c_ConfirmationID c with
    | Some owner => negb (String.eqb owner requestID)
    | None => false
    end ;;
  return Some ErrLocalConfirmation when negb (c_Local c) ;;
  return Some ErrSessionRequired when String.eqb (c_SessionID c) "" ;;
  return Some ErrSessionRequired when failed (validateOpaque (c_SessionID c) false) ;;
  return Some ErrInvalidActor when
    high_risk req && (String.eqb (c_Actor c) (r_Actor req) || String.eqb (c_SessionID c) (r_SessionID req)) ;;
  return Some ErrSessionChanged when
    negb (String.eqb (r_Risk req) RiskHigh) && negb (String.eqb (r_Risk req) RiskEmergency)
    && negb (String.eqb (c_SessionID c) (r_SessionID req)) ;;
  None.

(** The language, and the rest of the confirmation's content. *)
Definition confirm_language (record : ApprovalRecord) (c : Confirmation) : result ApErr string :=
  return Err ErrConfirmationLanguage when String.eqb (c_ConfirmationLanguage c) "" ;;
  match NormalizeConfirmationLanguage (c_ConfirmationLanguage c) with
  | Err _ => Err ErrConfirmationLanguage
  | Ok language =>
      return Err ErrConfirmationLanguage when
        negb (String.eqb language (r_ConfirmationLanguage (rec_Request record))) ;;
      Ok language
  end.

Definition confirm_break_glass (req : Request) (c : Confirmation) : option ApErr :=
  return None when negb (String.eqb (r_Risk req) RiskEmergency) ;;
  return Some ErrBreakGlassRequired when negb (r_BreakGlass req) || negb (c_BreakGlass c) ;;
  return Some ErrBreakGlassReason when String.eqb (TrimSpace (c_BreakGlassReason c)) "" ;;
  return Some ErrInvalidReason when failed (validateReason (c_BreakGlassReason c)) ;;
  return Some ErrBreakGlassActor when
    negb (String.eqb (c_ActorRole c) RoleSecurityAdmin) && negb (String.eqb (c_ActorRole c) RoleTenantOwner) ;;
  None.

Definition confirm_content (now : Time) (record : ApprovalRecord) (c : Confirmation) (language : string)
  : option ApErr :=
  let req := rec_Request record in
  return Some ErrConfirmationPhrase when negb (String.eqb (c_ConfirmationPhrase c) (phrase_or_empty language)) ;;
  return Some ErrIntentChanged when negb (String.eqb (c_IntentDigest c) (r_IntentDigest req)) ;;
  return Some ErrWorkflowChanged when negb (String.eqb (c_WorkflowDigest c) (r_WorkflowDigest req)) ;;
  return Some ErrIntentChanged when String.eqb (c_Nonce c) "" || negb (String.eqb (c_Nonce c) (r_Nonce req)) ;;
  return Some ErrTTLChanged when negb (c_TTL c =? 0) && negb (c_TTL c =? r_TTL req) ;;
  return Some ErrWarningDelay when
    IsZero (c_WarningReadAt c) || After (c_WarningReadAt c) now
    || (TimeSub now (c_WarningReadAt c) <? WarningDelay) ;;
  return Some ErrPasswordConfirmation when negb (c_PasswordConfirmed c) && negb (c_TOTPConfirmed c) ;;
  return Some ErrSecondConfirmation when negb (c_SecondConfirmation c) ;;
  confirm_break_glass req c.

(** All rejections before the checkpoint stage; [Ok] is the confirmation in
    its normalized language. *)
Definition confirm_checks g (now : Time) (requestID : string) (record : ApprovalRecord) (c : Confirmation)
  : result ApErr Confirmation :=
  match confirm_identity g requestID record c with
  | Some e => Err e
  | None =>
      let? language := confirm_language record c in
      match confirm_content now record c language with
      | Some e => Err e
      | None => Ok (with_language c language)
      end
  end.

Definition confirm_commit (now : Time) (requestID : string) (record : ApprovalRecord) (c : Confirmation)
  : AuthorizationCommit :=
  let req := rec_Request record in
  {| k_RequestID := requestID; k_ConfirmationID := c_ConfirmationID c; k_Actor := c_Actor c;
     k_Scope := c_Scope c; k_PolicyEpoch := c_PolicyEpoch c; k_Risk := r_Risk req; k_TTL := r_TTL req;
     k_IssuedAt := now; k_ExpiresAt := rec_ExpiresAt record; k_WorkflowDigest := r_WorkflowDigest req;
     k_SessionID := c_SessionID c; k_ConfirmationLanguage := c_ConfirmationLanguage c;
     k_IntentDigest := c_IntentDigest c; k_Nonce := r_Nonce req |}.

(** The approval at the end of [Confirm]. *)
Definition confirm_approve g (now : Time) (requestID : string) (record : ApprovalRecord) (c : Confirmation)
    (step : Z) : Gate D * result ApErr AuthorizationCommit :=
  let c := with_step c (r_TTL (rec_Request record)) step in
  let commit := confirm_commit now requestID record c in
  let record := with_status (with_confirmation record c) StatusApproved (Some commit) in
  let g := use_id (put_request g requestID record) (c_ConfirmationID c) in
  (appendAudit g now AuditAuthorized requestID (c_Actor c) (c_Scope c) (c_PolicyEpoch c)
     (c_ConfirmationID c) "interactive confirmation", Ok commit).

(** The first of the two checkpoints of a sensitive request. *)
Definition confirm_checkpoint g (now : Time) (requestID : string) (record : ApprovalRecord)
    (c : Confirmation) : Gate D * result ApErr AuthorizationCommit :=
  let recorded g c :=
    (appendAudit g now AuditCheckpoint requestID (c_Actor c) (c_Scope c) (c_PolicyEpoch c)
       (c_ConfirmationID c) "second confirmation recorded; third confirmation required",
     Err ErrThirdConfirmation) in
  if negb (String.eqb (c_ConfirmationID (rec_Confirmation record)) "") then recorded g c
  else
    let c := with_step c (r_TTL (rec_Request record)) 2 in
    recorded (own_id (put_request g requestID (with_confirmation record c)) (c_ConfirmationID c) requestID) c.

(** The rejection closure of [Confirm]. *)
Definition confirm_reject g (now : Time) (requestID : string) (record : ApprovalRecord) (c : Confirmation)
    (e : ApErr) : Gate D * result ApErr AuthorizationCommit :=
  (appendAudit g now AuditRejected requestID (c_Actor c) (r_Scope (rec_Request record))
     (r_PolicyEpoch (rec_Request record)) (c_ConfirmationID c) (Error e), Err e).

Definition confirm_body (now : Time) (requestID : string) (c : Confirmation) g
  : Gate D * result ApErr AuthorizationCommit :=
  match g_requests g !! requestID with
  | None => (g, Err ErrNotFound)
  | Some record =>
      let reject := confirm_reject g now requestID record in
      return reject c ErrRevoked when String.eqb (rec_Status record) StatusRevoked ;;
      return reject c ErrExpired when String.eqb (rec_Status record) StatusExpired ;;
      return reject c ErrNotPending when negb (String.eqb (rec_Status record) StatusPending) ;;
      if negb (Before now (rec_ExpiresAt record)) then
        (appendAudit (put_request g requestID (with_status record StatusExpired (rec_Commit record)))
           now AuditExpired requestID (c_Actor c) (r_Scope (rec_Request record))
           (r_PolicyEpoch (rec_Request record)) (c_ConfirmationID c) "TTL elapsed", Err ErrExpired)
      else
        match confirm_checks g now requestID record c with
        | Err e => reject c e
        | Ok c =>
            let previous := rec_Confirmation record in
            if requiresThirdConfirmation (rec_Request record) then
              if negb (c_ThirdConfirmation c) then
                match (if negb (String.eqb (c_ConfirmationID previous) "")
                       then sameCheckpoint previous c else None) with
                | Some e => reject c e
                | None => confirm_checkpoint g now requestID record c
                end
              else
                return reject c ErrConfirmationSequence when
                  String.eqb (c_ConfirmationID previous) "" || (c_ConfirmationStep previous <? 2) ;;
                match sameCheckpoint previous c with
                | Some e => reject c e
                | None => confirm_approve g now requestID record c 3
                end
            else confirm_approve g now requestID record c 2
        end
  end.

Definition Confirm (now : Time) (requestID : string) (c : Confirmation) g d
  : Gate D * D * result ApErr AuthorizationCommit :=
  let '(g', out) := confirm_body now requestID c g in
  defer_persist true g g' requestID d out.

(** ** Revoke, AdvanceEpoch, ConsumeAuthorization *)

Definition revoke_body (now : Time) (requestID actor reason : string) g : Gate D * result ApErr unit :=
  match g_requests g !! requestID with
  | None => (g, Err ErrNotFound)
  | Some record =>
      return (g, Err ErrRevoked) when String.eqb (rec_Status record) StatusRevoked ;;
      return (g, Err ErrActorRequired) when String.eqb actor "" ;;
      return (g, Err ErrInvalidActor) when failed (validateOpaque actor false) ;;
      return (g, Err ErrReasonRequired) when String.eqb (TrimSpace reason) "" ;;
      return (g, Err ErrInvalidReason) when failed (validateReason reason) ;;
      (appendAudit (put_request g requestID (with_status record StatusRevoked None)) now AuditRevoked
         requestID actor (r_Scope (rec_Request record)) (r_PolicyEpoch (rec_Request record)) "" reason,
       Ok tt)
  end.

Definition Revoke (now : Time) (requestID actor reason : string) g d : Gate D * D * result ApErr unit :=
  let '(g', out) := revoke_body now requestID actor reason g in
  defer_persist false g g' requestID d out.

Definition AdvanceEpoch (epoch : Z) g d : Gate D * D * result ApErr unit :=
  return (g, d, Err ErrEpochRegression) when epoch <? g_policyEpoch g ;;
  match g_persistence g with
  | None => (set_policyEpoch g epoch, d, Ok tt)
  | Some p =>
      match i_CompareAndSetEpoch p with
      | None => (g, d, Err ErrInvalidPersistence)
      | Some cas =>
          match cas LiveContext (g_policyEpoch g) epoch d with
          | (d, Some e) => (g, d, Err e)
          | (d, None) => (set_policyEpoch g epoch, d, Ok tt)
          end
      end
  end.

Definition consume_check g (now : Time) (record : ApprovalRecord) (scope intentDigest : string)
  : option ApErr :=
  let req := rec_Request record in
  return Some ErrNotPending when
    negb (String.eqb (rec_Status record) StatusApproved)
    || match rec_Commit record with None => true | Some _ => false end ;;
  return Some ErrEpochChanged when negb (r_PolicyEpoch req =? g_policyEpoch g) ;;
  return Some ErrExpired when negb (Before now (rec_ExpiresAt record)) ;;
  return Some ErrIntentChanged when
    negb (String.eqb (r_Scope req) scope) || negb (String.eqb (r_IntentDigest req) intentDigest) ;;
  ValidateRecordForAdapter record.

Definition ConsumeAuthorization (now : Time) (requestID scope intentDigest : string) g d
  : Gate D * D * result ApErr unit :=
  match g_requests g !! requestID with
  | None => (g, d, Err ErrNotFound)
  | Some record =>
      match consume_check g now record scope intentDigest with
      | Some e => (g, d, Err e)
      | None =>
          let g' := appendAudit (put_request g requestID (with_status record StatusRevoked None)) now
                      AuditRevoked requestID (c_Actor (rec_Confirmation record)) scope
                      (r_PolicyEpoch (rec_Request record)) (c_ConfirmationID (rec_Confirmation record))
                      "authorization consumed" in
          defer_persist false g g' requestID d (Ok tt)
      end
  end.

(** ** Recovery *)

(** The read of one approval through the strongest capability. *)
Definition restore_read (p : Persistence D) (ctx : Context) (requestID : string) (epoch : Z) d
  : result ApErr (ApprovalRecord * list AuditEvent) :=
  match i_LoadWithEventsAtEpoch p with
  | Some f => f ctx requestID epoch d
  | None =>
      match (match i_PolicyEpoch p with
             | Some f => match f ctx d with
                         | Err e => Some e
                         | Ok persisted => if persisted =? epoch then None else Some ErrEpochChanged
                         end
             | None => None
             end) with
      | Some e => Err e
      | None =>
          match i_LoadWithEvents p with
          | Some f => f ctx requestID d
          | None =>
              let? record := i_Load p ctx requestID d in
              let? events := i_Events p ctx requestID d in
              Ok (record, events)
          end
      end
  end.

(** An event that is not bound to the record. *)
Definition unbound_event (record : ApprovalRecord) (e : AuditEvent) : bool :=
  let req := rec_Request record in
  negb (String.eqb (e_RequestID e) (rec_ID record)) || negb (String.eqb (e_Scope e) (r_Scope req))
  || negb (e_PolicyEpoch e =? r_PolicyEpoch req)
  || negb (String.eqb (e_IntentDigest e) (r_IntentDigest req))
  || negb (String.eqb (e_SessionID e) (r_SessionID req)) || negb (String.eqb (e_Nonce e) (r_Nonce req)).

Definition restore_event (id : string) g (e : AuditEvent) : Gate D :=
  let sequence := u64 (g_sequence g + 1) in
  let g := push_audit g sequence (with_sequence e sequence) in
  if String.eqb (e_ConfirmationID e) "" then g
  else
    let g := if String.eqb (e_Type e) AuditAuthorized then use_id g (e_ConfirmationID e) else g in
    if String.eqb (e_Type e) AuditCheckpoint then own_id g (e_ConfirmationID e) id else g.

(** The time is not used: the persisted expiry stays. *)
Definition RestoreRecord (ctx : Context) (now : Time) (requestID : string) g d : Gate D * result ApErr unit :=
  match g_persistence g with
  | None => (g, Err ErrInvalidPersistence)
  | Some p =>
      return (g, Err ErrDuplicateRequest) when has (g_requests g) requestID ;;
      match restore_read p ctx requestID (g_policyEpoch g) d with
      | Err e => (g, Err e)
      | Ok (record, events) =>
          match ValidateRecordForAdapter record with
          | Some e => (g, Err e)
          | None =>
              return (g, Err ErrEpochChanged) when
                negb (r_PolicyEpoch (rec_Request record) =? g_policyEpoch g) ;;
              return (g, Err ErrInvalidPersistence) when Z.of_nat (length events) =? 0 ;;
              return (g, Err ErrBindingConflict) when existsb (unbound_event record) events ;;
              let g := put_request g (rec_ID record) record in
              let g := fold_left (restore_event (rec_ID record)) events g in
              (set_durable g (rec_ID record) (Z.of_nat (length events)), Ok tt)
          end
      end
  end.

Fixpoint restore_all (ctx : Context) (now : Time) (requestIDs : list string) g d : Gate D * result ApErr unit :=
  match requestIDs with
  | [] => (g, Ok tt)
  | id :: ids =>
      match RestoreRecord ctx now id g d with
      | (g', Err e) => (g', Err e)
      | (g', Ok _) => restore_all ctx now ids g' d
      end
  end.

Definition Restore (ctx : Context) (now : Time) (requestIDs : list string) g d : Gate D * result ApErr unit :=
  match g_persistence g with
  | None => (g, Err ErrInvalidPersistence)
  | Some p =>
      match (match requestIDs with
             | [] => match i_ListIDs p with
                     | None => Err ErrInvalidPersistence
                     | Some list_ids => list_ids ctx d
                     end
             | _ => Ok requestIDs
             end) with
      | Err e => (g, Err e)
      | Ok ids =>
          match restore_all ctx now ids g d with
          | (g', Err e) => (restore g' (snapshot g), Err e)
          | (g', Ok _) => (g', Ok tt)
          end
      end
  end.

(** ** Reads *)

Definition Get (requestID : string) g : option ApprovalRecord := g_requests g !! requestID.

Definition AuditEvents g : list AuditEvent := g_audit g.

(** In the map's iteration order, which Go leaves open. *)
Definition ApprovedRecords g : list ApprovalRecord :=
  List.filter (fun r => String.eqb (rec_Status r) StatusApproved) (map snd (map_to_list (g_requests g))).

(** ** Runs

    An operation on a gate and its ledger. [OpLedger] is any change that
    someone else makes to the ledger between two operations of this gate. *)
Inductive op :=
| OpSubmit (now : Time) (req : Request)
| OpConfirm (now : Time) (requestID : string) (c : Confirmation)
| OpRevoke (now : Time) (requestID actor reason : string)
| OpAdvance (epoch : Z)
| OpConsume (now : Time) (requestID scope intentDigest : string)
| OpRestoreRecord (ctx : Context) (now : Time) (requestID : string)
| OpRestore (ctx : Context) (now : Time) (requestIDs : list string)
| OpBind (p : option (Persistence D))
| OpLedger (d : D).

(** The error of a result, if any. *)
Definition error_of {A} (r : result ApErr A) : option ApErr :=
  match r with Ok _ => None | Err e => Some e end.

Definition exec (o : op) g d : Gate D * D * option ApErr :=
  match o with
  | OpSubmit now req => let '(g', d', r) := Submit now req g d in (g', d', error_of r)
  | OpConfirm now id c => let '(g', d', r) := Confirm now id c g d in (g', d', error_of r)
  | OpRevoke now id actor reason => let '(g', d', r) := Revoke now id actor reason g d in (g', d', error_of r)
  | OpAdvance epoch => let '(g', d', r) := AdvanceEpoch epoch g d in (g', d', error_of r)
  | OpConsume now id scope digest =>
      let '(g', d', r) := ConsumeAuthorization now id scope digest g d in (g', d', error_of r)
  | OpRestoreRecord ctx now id => let '(g', r) := RestoreRecord ctx now id g d in (g', d, error_of r)
  | OpRestore ctx now ids => let '(g', r) := Restore ctx now ids g d in (g', d, error_of r)
  | OpBind p => let '(g', r) := BindPersistence p g in (g', d, error_of r)
  | OpLedger d' => (g, d', None)
  end.

(** A sequence of operations with the outcome of each. *)
Fixpoint run (ops : list op) g d : Gate D * D * list (op * option ApErr) :=
  match ops with
  | [] => (g, d, [])
  | o :: ops' =>
      let '(g1, d1, r) := exec o g d in
      let '(g2, d2, log) := run ops' g1 d1 in
      (g2, d2, (o, r) :: log)
  end.
End Gate.
