(* ===== verification/ApprovalGateFacts.v ===== *)
(** * Theory of the approval gate

    Every operation of ApprovalGate, with any ledger behind it and whatever
    the ledger answers, is a sequence of the transitions defined here; the
    invariants of the gate are proved over the transitions. *)

From S2P Require Import Prelude GoText Sha256 Json Approval ApprovalPersistence ApprovalGate.

Open Scope list_scope.
Open Scope Z_scope.

Section Facts.
Context {D : Type}.
(** Whether recovery from the ledger is among the transitions. *)
Variable recover : bool.
Implicit Types (g : Gate D) (d : D).

(** ** Transitions *)

(** The checkpoint stage: which confirmations record the first checkpoint,
    and which approve, with the step they record. *)
Definition first_checkpoint (record : ApprovalRecord) (c : Confirmation) : Prop :=
  requiresThirdConfirmation (rec_Request record) = true /\ c_ThirdConfirmation c = false
  /\ (c_ConfirmationID (rec_Confirmation record) = "" \/ sameCheckpoint (rec_Confirmation record) c = None).

Definition approving_step (record : ApprovalRecord) (c : Confirmation) (step : Z) : Prop :=
  if requiresThirdConfirmation (rec_Request record) then
    step = 3 /\ c_ThirdConfirmation c = true /\ c_ConfirmationID (rec_Confirmation record) <> ""
    /\ 2 <= c_ConfirmationStep (rec_Confirmation record) /\ sameCheckpoint (rec_Confirmation record) c = None
  else step = 2.

(** A pending, unexpired record whose confirmation passes all checks. *)
Record confirmable g (now : Time) (id : string) (record : ApprovalRecord) (c c' : Confirmation) : Prop := {
  cf_record : g_requests g !! id = Some record;
  cf_pending : rec_Status record = StatusPending;
  cf_alive : now < rec_ExpiresAt record;
  cf_checks : confirm_checks g now id record c = Ok c'
}.

Definition expire_record g (now : Time) (id : string) (record : ApprovalRecord) (c : Confirmation) : Gate D :=
  appendAudit (put_request g id (with_status record StatusExpired (rec_Commit record)))
    now AuditExpired id (c_Actor c) (r_Scope (rec_Request record))
    (r_PolicyEpoch (rec_Request record)) (c_ConfirmationID c) "TTL elapsed".

(** The revocation of a record, by [Revoke] or [ConsumeAuthorization]. *)
Definition revoke_record g (now : Time) (id : string) (record : ApprovalRecord)
    (actor scope confirmationID reason : string) : Gate D :=
  appendAudit (put_request g id (with_status record StatusRevoked None)) now AuditRevoked
    id actor scope (r_PolicyEpoch (rec_Request record)) confirmationID reason.

Definition restored_record g (record : ApprovalRecord) (events : list AuditEvent) : Gate D :=
  fold_left (restore_event (rec_ID record)) events (put_request g (rec_ID record) record).

Inductive transition (now : Time) g : Gate D -> Prop :=
| t_submit raw req :
    normalizeRequest raw = Ok req -> validateRequest req = None -> r_PolicyEpoch req = g_policyEpoch g ->
    g_requests g !! r_ID req = None -> transition now g (fst (submit_body now raw g))
| t_reject id record c e :
    g_requests g !! id = Some record -> transition now g (fst (confirm_reject g now id record c e))
| t_expire id record c :
    g_requests g !! id = Some record -> rec_Status record = StatusPending -> rec_ExpiresAt record <= now ->
    transition now g (expire_record g now id record c)
| t_checkpoint id record c c' :
    confirmable g now id record c c' -> first_checkpoint record c' ->
    transition now g (fst (confirm_checkpoint g now id record c'))
| t_approve id record c c' step :
    confirmable g now id record c c' -> approving_step record c' step ->
    transition now g (fst (confirm_approve g now id record c' step))
| t_revoke id record actor scope confirmationID reason :
    g_requests g !! id = Some record -> rec_Status record <> StatusRevoked ->
    transition now g (revoke_record g now id record actor scope confirmationID reason)
| t_advance epoch : g_policyEpoch g <= epoch -> transition now g (set_policyEpoch g epoch)
| t_restore record events :
    recover = true ->
    ValidateRecordForAdapter record = None -> r_PolicyEpoch (rec_Request record) = g_policyEpoch g ->
    events <> [] -> existsb (unbound_event record) events = false ->
    transition now g (restored_record g record events)
| t_bind p : g_persistence g = None -> transition now g (set_persistence g p)
| t_durable id n : transition now g (set_durable g id n).

Definition transitions (now : Time) : Gate D -> Gate D -> Prop := rtc (transition now).

(** ** The operations are transitions *)

(** The submission that passes every guard. *)
Lemma submit_body_cases now raw g g' r :
  submit_body now raw g = (g', r) ->
  (g' = g /\ exists e, r = Err e)
  \/ (exists req, normalizeRequest raw = Ok req /\ validateRequest req = None
      /\ r_PolicyEpoch req = g_policyEpoch g /\ g_requests g !! r_ID req = None
      /\ r = Ok (submitted_record now req)).
Proof.
  unfold submit_body. destruct (normalizeRequest raw) as [req|e] eqn:En; [|intros [= <- <-]; eauto].
  destruct (validateRequest req) eqn:Ev; [intros [= <- <-]; eauto|].
  destruct (negb _) eqn:Ee; [intros [= <- <-]; eauto|].
  destruct (has _ _) eqn:Eh; [intros [= <- <-]; eauto|].
  intros [= <- <-]. right. props. apply has_false in Eh. eauto 10.
Qed.

Lemma submit_body_fields now raw g :
  g_policyEpoch (fst (submit_body now raw g)) = g_policyEpoch g
  /\ g_persistence (fst (submit_body now raw g)) = g_persistence g.
Proof.
  unfold submit_body. destruct (normalizeRequest raw) as [req|]; [|done].
  destruct (validateRequest req); [done|]. destruct (negb _); [done|]. destruct (has _ _); [done|].
  cbn. by destruct (pre_approved req).
Qed.

Inductive confirm_case (now : Time) (id : string) (c : Confirmation) g
  : Gate D * result ApErr AuthorizationCommit -> Prop :=
| cc_missing : g_requests g !! id = None -> confirm_case now id c g (g, Err ErrNotFound)
| cc_reject record e c0 :
    g_requests g !! id = Some record -> confirm_case now id c g (confirm_reject g now id record c0 e)
| cc_expire record :
    g_requests g !! id = Some record -> rec_Status record = StatusPending -> rec_ExpiresAt record <= now ->
    confirm_case now id c g (expire_record g now id record c, Err ErrExpired)
| cc_checkpoint record c' :
    confirmable g now id record c c' -> first_checkpoint record c' ->
    confirm_case now id c g (confirm_checkpoint g now id record c')
| cc_approve record c' step :
    confirmable g now id record c c' -> approving_step record c' step ->
    confirm_case now id c g (confirm_approve g now id record c' step).

Lemma confirm_body_cases now id c g : confirm_case now id c g (confirm_body now id c g).
Proof.
  unfold confirm_body. destruct (g_requests g !! id) as [record|] eqn:Er; [|by constructor].
  destruct (String.eqb (rec_Status record) StatusRevoked); [by constructor|].
  destruct (String.eqb (rec_Status record) StatusExpired); [by constructor|].
  destruct (String.eqb_spec (rec_Status record) StatusPending) as [Ep|]; cbn [negb]; [|by constructor].
  destruct (Before now (rec_ExpiresAt record)) eqn:Eb; unfold Before in Eb; cbn [negb]; props;
    [|by apply cc_expire].
  destruct (confirm_checks g now id record c) as [c'|e] eqn:Ec; [|by constructor].
  assert (Hc : confirmable g now id record c c') by by constructor.
  destruct (requiresThirdConfirmation (rec_Request record)) eqn:E3.
  - destruct (c_ThirdConfirmation c') eqn:Et; cbn [negb].
    + destruct (_ || _) eqn:Eo; [by constructor|]. props.
      destruct (sameCheckpoint _ _) eqn:Es; [by constructor|].
      eapply cc_approve; [done|]. unfold approving_step. by rewrite E3.
    + destruct (negb (String.eqb _ _)) eqn:Eo; props.
      * destruct (sameCheckpoint _ _) eqn:Es; [by constructor|]. eapply cc_checkpoint; [done|].
        repeat split; auto.
      * eapply cc_checkpoint; [done|]. repeat split; auto.
  - eapply cc_approve; [done|]. unfold approving_step. by rewrite E3.
Qed.

(** [confirm_checkpoint] keeps the epoch and the ledger. *)
Lemma confirm_checkpoint_fields g now id record c :
  g_policyEpoch (fst (confirm_checkpoint g now id record c)) = g_policyEpoch g
  /\ g_persistence (fst (confirm_checkpoint g now id record c)) = g_persistence g.
Proof. unfold confirm_checkpoint. by destruct (negb _). Qed.

Lemma confirm_body_fields now id c g :
  g_policyEpoch (fst (confirm_body now id c g)) = g_policyEpoch g
  /\ g_persistence (fst (confirm_body now id c g)) = g_persistence g.
Proof.
  pose proof (confirm_body_cases now id c g) as H. destruct H; try done. apply confirm_checkpoint_fields.
Qed.

Lemma confirm_body_transitions now id c g : transitions now g (fst (confirm_body now id c g)).
Proof.
  pose proof (confirm_body_cases now id c g) as H. destruct H; cbn [fst]; [apply rtc_refl|apply rtc_once..].
  - by apply t_reject with (record := record).
  - by apply t_expire.
  - by eapply t_checkpoint.
  - by eapply t_approve.
Qed.

Lemma restore_snapshot g g' :
  g_policyEpoch g' = g_policyEpoch g -> g_persistence g' = g_persistence g -> restore g' (snapshot g) = g.
Proof. intros E1 E2. unfold restore. rewrite E1, E2. by destruct g. Qed.

Lemma persistSince_fields start id g d g' d' r :
  persistSince start id g d = (g', d', r) ->
  (r <> None /\ g' = g)
  \/ (r = None /\ (g' = g \/ exists n, g' = set_durable g id n)).
Proof.
  unfold persistSince. destruct (g_persistence g); [|intros [= <- <- <-]; auto].
  destruct (persist_batch _ _ _ _) as [local batch].
  destruct (write_batch _ _ _ _) as [d1 [e|]]; intros [= <- <- <-]; [left|right]; eauto.
Qed.

(** The write-through either rolls the operation back with an error, or keeps
    its result and state, up to the durable numbering. *)
Lemma defer_persist_cases {A} always g g' id d (out : result ApErr A) g1 d1 r :
  g_policyEpoch g' = g_policyEpoch g -> g_persistence g' = g_persistence g ->
  defer_persist always g g' id d out = (g1, d1, r) ->
  (g1 = g /\ exists e, r = Err e) \/ (r = out /\ (g1 = g' \/ exists n, g1 = set_durable g' id n)).
Proof.
  intros E1 E2. unfold defer_persist. destruct (g_persistence g') eqn:Ep; [|intros [= <- <- <-]; auto].
  destruct (_ || _); [|intros [= <- <- <-]; auto].
  destruct (persistSince _ _ _ _) as [[g2 d2] [e|]] eqn:Es; intros [= <- <- <-].
  - left. apply persistSince_fields in Es as [[_ ->]|[? _]]; [|done].
    rewrite restore_snapshot by congruence. eauto.
  - right. apply persistSince_fields in Es as [[? _]|[_ ?]]; [done|auto].
Qed.

Lemma defer_persist_transitions {A} now always g g' id d (out : result ApErr A) g1 d1 r :
  g_policyEpoch g' = g_policyEpoch g -> g_persistence g' = g_persistence g ->
  transitions now g g' -> defer_persist always g g' id d out = (g1, d1, r) -> transitions now g g1.
Proof.
  intros E1 E2 Ht H. apply defer_persist_cases in H as [[-> _]|[_ [->|[n ->]]]]; try done.
  eapply rtc_r; [done|constructor].
Qed.

Lemma Submit_transitions now raw g d g' d' r :
  Submit now raw g d = (g', d', r) -> transitions now g g'.
Proof.
  unfold Submit. destruct (submit_body now raw g) as [g1 out] eqn:Eb.
  pose proof (submit_body_fields now raw g) as [E1 E2]. rewrite Eb in E1, E2.
  apply defer_persist_transitions; [done..|].
  destruct (submit_body_cases _ _ _ _ _ Eb) as [[-> _]|(req & ? & ? & ? & ? & _)]; [apply rtc_refl|].
  apply rtc_once. assert (g1 = fst (submit_body now raw g)) as -> by by rewrite Eb.
  by eapply t_submit.
Qed.

Lemma Confirm_transitions now id c g d g' d' r :
  Confirm now id c g d = (g', d', r) -> transitions now g g'.
Proof.
  unfold Confirm. pose proof (confirm_body_transitions now id c g) as Ht.
  pose proof (confirm_body_fields now id c g) as [E1 E2].
  destruct (confirm_body now id c g) as [g1 out]. by apply defer_persist_transitions.
Qed.

Lemma Revoke_transitions now id actor reason g d g' d' r :
  Revoke now id actor reason g d = (g', d', r) -> transitions now g g'.
Proof.
  unfold Revoke, revoke_body.
  assert (He : forall e, defer_persist false g g id d (Err e : result ApErr unit) = (g', d', r) -> transitions now g g').
  { intros e. by apply defer_persist_transitions. }
  destruct (g_requests g !! id) as [record|] eqn:Er; [|apply He].
  destruct (String.eqb_spec (rec_Status record) StatusRevoked); [apply He|].
  destruct (String.eqb actor ""); [apply He|].
  destruct (failed _); [apply He|]. destruct (String.eqb _ _); [apply He|]. destruct (failed _); [apply He|].
  apply defer_persist_transitions; [done..|]. apply rtc_once. by apply t_revoke.
Qed.

Lemma Consume_transitions now id scope digest g d g' d' r :
  ConsumeAuthorization now id scope digest g d = (g', d', r) -> transitions now g g'.
Proof.
  unfold ConsumeAuthorization.
  destruct (g_requests g !! id) as [record|] eqn:Er; [|intros [= <- <- <-]; apply rtc_refl].
  destruct (consume_check _ _ _ _ _) eqn:Ec; [intros [= <- <- <-]; apply rtc_refl|].
  apply defer_persist_transitions; [done..|]. apply rtc_once. apply t_revoke; [done|].
  unfold consume_check in Ec. destruct (_ || _) eqn:E in Ec; [done|]. props. by rewrite H.
Qed.

Lemma Advance_transitions now epoch g d g' d' r :
  AdvanceEpoch epoch g d = (g', d', r) -> transitions now g g'.
Proof.
  unfold AdvanceEpoch. destruct (_ <? _) eqn:E; [intros [= <- <- <-]; apply rtc_refl|]. props.
  assert (transitions now g (set_policyEpoch g epoch)) by (by apply rtc_once, t_advance).
  destruct (g_persistence g) as [p|]; [|by intros [= <- <- <-]].
  destruct (i_CompareAndSetEpoch p) as [cas|]; [|intros [= <- <- <-]; apply rtc_refl].
  destruct (cas _ _ _ _) as [d1 [e|]]; intros [= <- <- <-]; [apply rtc_refl|done].
Qed.

Lemma RestoreRecord_cases ctx now id g d g' r :
  RestoreRecord ctx now id g d = (g', r) ->
  (g' = g /\ exists e, r = Err e)
  \/ (exists record events, ValidateRecordForAdapter record = None
      /\ r_PolicyEpoch (rec_Request record) = g_policyEpoch g /\ events <> []
      /\ existsb (unbound_event record) events = false
      /\ g' = set_durable (restored_record g record events) (rec_ID record) (Z.of_nat (length events))
      /\ r = Ok tt
      /\ exists p, g_persistence g = Some p /\ has (g_requests g) id = false
         /\ restore_read p ctx id (g_policyEpoch g) d = Ok (record, events)).
Proof.
  unfold RestoreRecord. destruct (g_persistence g) as [p|] eqn:Ep; [|intros [= <- <-]; eauto].
  destruct (has _ _) eqn:Eh; [intros [= <- <-]; eauto|].
  destruct (restore_read _ _ _ _ _) as [[record events]|e] eqn:Err; [|intros [= <- <-]; eauto].
  destruct (ValidateRecordForAdapter record) eqn:Ev; [intros [= <- <-]; eauto|].
  destruct (negb _) eqn:Ee; [intros [= <- <-]; eauto|].
  destruct (_ =? 0) eqn:El; [intros [= <- <-]; eauto|].
  destruct (existsb _ _) eqn:Eu; [intros [= <- <-]; eauto|].
  intros [= <- <-]. right. props. exists record, events.
  repeat split; eauto. by intros ->.
Qed.

Lemma RestoreRecord_transitions t ctx now id g d g' r :
  recover = true ->
  RestoreRecord ctx now id g d = (g', r) -> transitions t g g'.
Proof.
  intros Hrec H. apply RestoreRecord_cases in H as [[-> _]|(record & events & ? & ? & ? & ? & -> & _)].
  - apply rtc_refl.
  - eapply rtc_l; [by apply t_restore|]. apply rtc_once. constructor.
Qed.

Lemma restored_record_fields g record events :
  g_policyEpoch (restored_record g record events) = g_policyEpoch g
  /\ g_persistence (restored_record g record events) = g_persistence g.
Proof.
  unfold restored_record. generalize (rec_ID record). intros id.
  set (g0 := put_request g id record).
  assert (H : g_policyEpoch g0 = g_policyEpoch g /\ g_persistence g0 = g_persistence g) by done.
  clearbody g0. revert g0 H. induction events as [|e l IH]; intros g0 H; [done|].
  cbn [fold_left]. apply IH. unfold restore_event. by repeat destruct (String.eqb _ _).
Qed.

Lemma RestoreRecord_fields ctx now id g d g' r :
  RestoreRecord ctx now id g d = (g', r) ->
  g_policyEpoch g' = g_policyEpoch g /\ g_persistence g' = g_persistence g.
Proof.
  intros H. apply RestoreRecord_cases in H as [[-> _]|(record & events & _ & _ & _ & _ & -> & _)]; [done|].
  apply restored_record_fields.
Qed.

Lemma restore_all_fields ctx now ids g d g' r :
  restore_all ctx now ids g d = (g', r) ->
  g_policyEpoch g' = g_policyEpoch g /\ g_persistence g' = g_persistence g.
Proof.
  revert g. induction ids as [|id ids IH]; intros g; cbn; [by intros [= <- <-]|].
  destruct (RestoreRecord ctx now id g d) as [g1 [u|e]] eqn:E;
    destruct (RestoreRecord_fields _ _ _ _ _ _ _ E) as [E1 E2].
  - intros H. apply IH in H as [H1 H2]. split; congruence.
  - by intros [= <- <-].
Qed.

Lemma restore_all_transitions t ctx now ids g d g' r :
  recover = true ->
  restore_all ctx now ids g d = (g', r) ->
  transitions t g g'.
Proof.
  intros Hrec. revert g. induction ids as [|id ids IH]; intros g; cbn; [by intros [= <- <-]|].
  destruct (RestoreRecord ctx now id g d) as [g1 [u|e]] eqn:E.
  - intros H. apply IH in H. apply (RestoreRecord_transitions t) in E; [|done]. by etrans.
  - intros [= <- <-]. by eapply RestoreRecord_transitions.
Qed.

Lemma Restore_cases ctx now ids g d g' r :
  Restore ctx now ids g d = (g', r) ->
  (g' = g /\ exists e, r = Err e)
  \/ (r = Ok tt /\ exists ids', restore_all ctx now ids' g d = (g', Ok tt)).
Proof.
  unfold Restore. destruct (g_persistence g) as [p|]; [|intros [= <- <-]; eauto].
  destruct (match ids with [] => _ | _ => _ end) as [ids'|e]; [|intros [= <- <-]; eauto].
  destruct (restore_all ctx now ids' g d) as [g1 [[]|e]] eqn:E; intros [= <- <-]; [eauto|].
  left. apply restore_all_fields in E as [E1 E2]. rewrite restore_snapshot by done. eauto.
Qed.

Lemma Bind_cases p g g' r :
  BindPersistence p g = (g', r) ->
  (g' = g /\ exists e, r = Err e) \/ (exists q, p = Some q /\ g_persistence g = None /\ g' = set_persistence g q).
Proof.
  unfold BindPersistence. destruct p as [q|]; [|intros [= <- <-]; eauto].
  destruct (_ || _) eqn:E; [intros [= <- <-]; eauto|]. intros [= <- <-]. props.
  destruct (g_persistence g); [done|]. eauto.
Qed.

Definition recovers (o : op (D:=D)) : bool :=
  match o with OpRestoreRecord _ _ _ | OpRestore _ _ _ => true | _ => false end.

(** The time an operation runs at, if it is given one it uses. *)
Definition op_time (o : op (D:=D)) : option Time :=
  match o with
  | OpSubmit now _ | OpConfirm now _ _ | OpRevoke now _ _ _ | OpConsume now _ _ _ => Some now
  | _ => None
  end.

(** Every operation, whatever the ledger does, is a sequence of transitions. *)
Lemma exec_transitions t o g d g' d' r :
  default t (op_time o) = t ->
  (recovers o = true -> recover = true) -> exec o g d = (g', d', r) -> transitions t g g'.
Proof.
  intros Ht Hrec. destruct o; cbn [exec op_time default] in *; try subst t.
  - destruct (Submit _ _ _ _) as [[? ?] ?] eqn:E. intros [= <- <- <-]. by eapply Submit_transitions.
  - destruct (Confirm _ _ _ _ _) as [[? ?] ?] eqn:E. intros [= <- <- <-]. by eapply Confirm_transitions.
  - destruct (Revoke _ _ _ _ _ _) as [[? ?] ?] eqn:E. intros [= <- <- <-]. by eapply Revoke_transitions.
  - destruct (AdvanceEpoch _ _ _) as [[? ?] ?] eqn:E. intros [= <- <- <-]. by eapply Advance_transitions.
  - destruct (ConsumeAuthorization _ _ _ _ _ _) as [[? ?] ?] eqn:E. intros [= <- <- <-].
    by eapply Consume_transitions.
  - destruct (RestoreRecord _ _ _ _ _) as [? ?] eqn:E. intros [= <- <- <-].
    eapply RestoreRecord_transitions; [by apply Hrec|done].
  - destruct (Restore _ _ _ _ _) as [? ?] eqn:E. intros [= <- <- <-].
    apply Restore_cases in E as [[-> _]|(_ & ids & E)]; [apply rtc_refl|].
    eapply restore_all_transitions; [by apply Hrec|done].
  - destruct (BindPersistence _ _) as [? ?] eqn:E. intros [= <- <- <-].
    apply Bind_cases in E as [[-> _]|(q & _ & ? & ->)]; [apply rtc_refl|]. by apply rtc_once, t_bind.
  - intros [= <- <- <-]. apply rtc_refl.
Qed.

(** A property kept by every transition is kept by every run. *)
Lemma run_invariant (P : Gate D -> Prop) ops g d g' d' log :
  (forall t g g', transition t g g' -> P g -> P g') ->
  Forall (fun o => recovers o = true -> recover = true) ops ->
  run ops g d = (g', d', log) -> P g -> P g'.
Proof.
  intros HP Hops. revert g d log. induction Hops as [|o ops Ho Hops IH]; intros g d log; cbn;
    [by intros [= <- <- <-]|].
  destruct (exec o g d) as [[g1 d1] r] eqn:E. destruct (run ops g1 d1) as [[g2 d2] log'] eqn:E2.
  intros [= <- <- <-] Hg. apply (IH _ _ _ E2).
  apply (exec_transitions (default 0 (op_time o))) in E; [|by destruct (op_time o)|done].
  unfold transitions in E. induction E; eauto.
Qed.

(** The times of a run do not decrease, from [t] on. *)
Fixpoint clocked (t : Time) (ops : list (op (D:=D))) : Prop :=
  match ops with
  | [] => True
  | o :: ops' => t <= default t (op_time o) /\ clocked (default t (op_time o)) ops'
  end.

(** The same for a property of the gate and the time it is observed at. *)
Lemma run_clocked_invariant (P : Time -> Gate D -> Prop) ops t g d g' d' log :
  (forall t t' g, t <= t' -> P t g -> P t' g) ->
  (forall t g g', transition t g g' -> P t g -> P t g') ->
  Forall (fun o => recovers o = true -> recover = true) ops ->
  clocked t ops -> run ops g d = (g', d', log) -> P t g -> exists t', t <= t' /\ P t' g'.
Proof.
  intros Hmono HP Hops. revert t g d log. induction Hops as [|o ops Ho Hops IH]; intros t g d log; cbn.
  { intros _ [= <- <- <-] Hg. exists t. by split. }
  destruct (exec o g d) as [[g1 d1] r] eqn:E. destruct (run ops g1 d1) as [[g2 d2] log'] eqn:E2.
  intros [Ht Hc] [= <- <- <-] Hg.
  assert (Hg1 : P (default t (op_time o)) g1).
  { apply (exec_transitions (default t (op_time o))) in E; [|by destruct (op_time o)|done].
    apply (Hmono t (default t (op_time o))) in Hg; [|done].
    unfold transitions in E. induction E; eauto. }
  destruct (IH _ _ _ _ Hc E2 Hg1) as (t' & Hle & Hp). exists t'. split; [lia|done].
Qed.

(** A deferred write-through that ends in an error leaves the gate as it was,
    if the body itself does so on its own errors. *)
Lemma defer_error {A} g g' id d (out : result ApErr A) g1 d1 e :
  (g' = g /\ (exists e', out = Err e'))
  \/ (error_of out = None /\ g_policyEpoch g' = g_policyEpoch g /\ g_persistence g' = g_persistence g) ->
  defer_persist false g g' id d out = (g1, d1, Err e) -> g1 = g.
Proof.
  intros [[-> [e' ->]]|(Ho & E1 & E2)] H.
  - unfold defer_persist in H. destruct (g_persistence g); cbn in H; by injection H.
  - pose proof (defer_persist_cases _ _ _ _ _ _ _ _ _ E1 E2 H) as [[-> _]|[<- _]]; done.
Qed.

Lemma Submit_error now raw g d g' d' e : Submit now raw g d = (g', d', Err e) -> g' = g.
Proof.
  unfold Submit. pose proof (submit_body_fields now raw g) as [E1 E2].
  destruct (submit_body now raw g) as [g1 out] eqn:Eb. apply defer_error.
  destruct (submit_body_cases _ _ _ _ _ Eb) as [?|(? & _ & _ & _ & _ & ->)]; auto.
Qed.

Lemma revoke_body_cases now id actor reason g g' r :
  revoke_body now id actor reason g = (g', r) ->
  (g' = g /\ exists e, r = Err e)
  \/ (r = Ok tt /\ exists record, g_requests g !! id = Some record /\ rec_Status record <> StatusRevoked
      /\ g' = revoke_record g now id record actor (r_Scope (rec_Request record)) "" reason).
Proof.
  unfold revoke_body. destruct (g_requests g !! id) as [record|]; [|intros [= <- <-]; eauto].
  destruct (String.eqb_spec (rec_Status record) StatusRevoked); [intros [= <- <-]; eauto|].
  repeat (destruct (String.eqb _ _); [by intros [= <- <-]; eauto|];
          destruct (failed _); [by intros [= <- <-]; eauto|]).
  intros [= <- <-]. right. eauto 10.
Qed.

Lemma Revoke_error now id actor reason g d g' d' e : Revoke now id actor reason g d = (g', d', Err e) -> g' = g.
Proof.
  unfold Revoke. destruct (revoke_body now id actor reason g) as [g1 out] eqn:Eb. apply defer_error.
  destruct (revoke_body_cases _ _ _ _ _ _ _ Eb) as [?|(-> & record & _ & _ & ->)]; auto.
Qed.

Lemma Advance_error epoch g d g' d' e : AdvanceEpoch epoch g d = (g', d', Err e) -> g' = g.
Proof.
  unfold AdvanceEpoch. intros H. destruct (_ <? _); [by injection H|].
  destruct (g_persistence g) as [p|]; [|done]. destruct (i_CompareAndSetEpoch p) as [cas|]; [|by injection H].
  destruct (cas _ _ _ _) as [d1 [e'|]]; [by injection H|done].
Qed.

Lemma Consume_error now id scope digest g d g' d' e :
  ConsumeAuthorization now id scope digest g d = (g', d', Err e) -> g' = g.
Proof.
  unfold ConsumeAuthorization. intros H. destruct (g_requests g !! id); [|by injection H].
  destruct (consume_check _ _ _ _ _); [by injection H|].
  revert H. apply defer_error. auto.
Qed.

(** Nothing half done: an operation other than [Confirm] that reports an
    error, be it a refused guard or a failure of the ledger after the new
    state was in place, leaves the gate exactly as it found it: requests, used
    identifiers, owners, audit trail, numbering, epoch. *)
Theorem errors_leave_gate_unchanged o g d g' d' e :
  exec o g d = (g', d', Some e) ->
  (forall now id c, o <> OpConfirm now id c) -> g' = g.
Proof.
  intros H Hn. destruct o; cbn [exec] in H.
  - destruct (Submit _ _ _ _) as [[? ?] [?|?]] eqn:E; injection H as <- <- H; [done|]. by eapply Submit_error.
  - by destruct (Hn now requestID c).
  - destruct (Revoke _ _ _ _ _ _) as [[? ?] [?|?]] eqn:E; injection H as <- <- H; [done|]. by eapply Revoke_error.
  - destruct (AdvanceEpoch _ _ _) as [[? ?] [?|?]] eqn:E; injection H as <- <- H; [done|]. by eapply Advance_error.
  - destruct (ConsumeAuthorization _ _ _ _ _ _) as [[? ?] [?|?]] eqn:E; injection H as <- <- H; [done|].
    by eapply Consume_error.
  - destruct (RestoreRecord _ _ _ _ _) as [? ?] eqn:E. injection H as <- <- Hr.
    by apply RestoreRecord_cases in E as [[-> _]|(? & ? & _ & _ & _ & _ & _ & -> & _)].
  - destruct (Restore _ _ _ _ _) as [? ?] eqn:E. injection H as <- <- Hr.
    by apply Restore_cases in E as [[-> _]|(-> & _)].
  - destruct (BindPersistence _ _) as [? ?] eqn:E. injection H as <- <- Hr.
    unfold BindPersistence in E. destruct p; [destruct (_ || _)|]; by injection E as <- <-.
  - done.
Qed.

(** ** Requests are immutable, revocation is final, the epoch only grows *)

(** What no transition may change of a record; revocation included. *)
Definition continues (r r' : ApprovalRecord) : Prop :=
  rec_ID r' = rec_ID r /\ rec_Request r' = rec_Request r /\ rec_SubmittedAt r' = rec_SubmittedAt r
  /\ rec_ExpiresAt r' = rec_ExpiresAt r /\ (rec_Status r = StatusRevoked -> rec_Status r' = StatusRevoked).

Lemma continues_refl r : continues r r.
Proof. by repeat split. Qed.

Lemma continues_trans r r' r'' : continues r r' -> continues r' r'' -> continues r r''.
Proof. intros (?&?&?&?&?) (?&?&?&?&?). repeat split; [congruence..|auto]. Qed.

(** The requests of the gate after each of the bodies. *)
Lemma submit_requests now raw req g :
  normalizeRequest raw = Ok req -> validateRequest req = None -> r_PolicyEpoch req = g_policyEpoch g ->
  g_requests g !! r_ID req = None ->
  g_requests (fst (submit_body now raw g)) = <[r_ID req := submitted_record now req]> (g_requests g).
Proof.
  intros En Ev Ee Eh. unfold submit_body. rewrite En, Ev, Ee, Z.eqb_refl. apply has_false in Eh. rewrite Eh.
  cbn [negb]. unfold submitted_record. by destruct (pre_approved req).
Qed.

Lemma checkpoint_requests now id record c g :
  g_requests g !! id = Some record ->
  g_requests (fst (confirm_checkpoint g now id record c))
  = <[id := if String.eqb (c_ConfirmationID (rec_Confirmation record)) ""
            then with_confirmation record (with_step c (r_TTL (rec_Request record)) 2)
            else record]> (g_requests g).
Proof.
  intros H. unfold confirm_checkpoint.
  destruct (String.eqb (c_ConfirmationID (rec_Confirmation record)) ""); cbn; [done|].
  by rewrite insert_id.
Qed.

Lemma restored_requests g record events :
  g_requests (restored_record g record events) = <[rec_ID record := record]> (g_requests g).
Proof.
  unfold restored_record. generalize (rec_ID record) at 1. intros id.
  set (g0 := put_request _ _ _).
  change (<[rec_ID record := record]> (g_requests g)) with (g_requests g0). clearbody g0. revert g0.
  induction events as [|e l IH]; intros g0; [done|]. cbn [fold_left]. rewrite IH.
  unfold restore_event. by repeat destruct (String.eqb _ _).
Qed.

Lemma put_continues (m : gmap string ApprovalRecord) id record record' id0 r :
  m !! id = Some record -> continues record record' -> m !! id0 = Some r ->
  exists r', <[id := record']> m !! id0 = Some r' /\ continues r r'.
Proof.
  intros Hr Hc H0. destruct (decide (id = id0)) as [<-|Hne].
  - exists record'. rewrite lookup_insert_eq. split; [done|]. congruence.
  - exists r. rewrite lookup_insert_ne by done. by split; [|apply continues_refl].
Qed.

Lemma transition_continues t g g' id r :
  recover = false -> transition t g g' -> g_requests g !! id = Some r ->
  exists r', g_requests g' !! id = Some r' /\ continues r r'.
Proof.
  intros Hrec H Hr. assert (Hsame : exists r', g_requests g !! id = Some r' /\ continues r r')
    by (exists r; by split; [|apply continues_refl]).
  destruct H as [raw req En Ev Ee Eh|id0 rec c e H0|id0 rec c H0 Hp Ht
    |id0 rec c c' [H0 Hp _ _] Hf|id0 rec c c' step [H0 Hp _ _] _|id0 rec ? ? ? ? H0 Hn| | |p|];
    try exact Hsame.
  - rewrite (submit_requests _ _ req) by done. rewrite lookup_insert_ne by congruence. exact Hsame.
  - eapply put_continues; [done| |done]. repeat split. cbn. by rewrite Hp.
  - rewrite (checkpoint_requests _ _ rec) by done. eapply put_continues; [done| |done].
    by destruct (String.eqb _ _); repeat split.
  - eapply put_continues; [done| |done]. repeat split. cbn. by rewrite Hp.
  - eapply put_continues; [done| |done]. by repeat split.
  - congruence.
Qed.

Lemma transition_epoch t g g' : transition t g g' -> g_policyEpoch g <= g_policyEpoch g'.
Proof.
  intros H. destruct H; try (cbn; lia).
  - rewrite (proj1 (submit_body_fields _ _ _)). lia.
  - rewrite (proj1 (confirm_checkpoint_fields _ _ _ _ _)). lia.
  - rewrite (proj1 (restored_record_fields _ _ _)). lia.
Qed.

(** A request that can no longer be authorized: it was revoked, or it was
    submitted under an epoch that is no longer current. *)
Definition dead g (id : string) : Prop :=
  exists r, g_requests g !! id = Some r
            /\ (rec_Status r = StatusRevoked \/ r_PolicyEpoch (rec_Request r) < g_policyEpoch g).

Lemma transition_dead t g g' id : recover = false -> transition t g g' -> dead g id -> dead g' id.
Proof.
  intros Hrec H (r & Hr & Hd). destruct (transition_continues _ _ _ _ _ Hrec H Hr) as (r' & Hr' & Hc).
  pose proof (transition_epoch _ _ _ H). destruct Hc as (_ & Eq & _ & _ & Hs).
  exists r'. split; [done|]. rewrite Eq. destruct Hd; [auto|right; lia].
Qed.

Lemma confirm_checkpoint_pending g now id record c :
  snd (confirm_checkpoint g now id record c) = Err ErrThirdConfirmation.
Proof. unfold confirm_checkpoint. by destruct (negb _). Qed.

(** What a successful confirmation went through. *)
Lemma Confirm_ok now id c g d g' d' commit :
  Confirm now id c g d = (g', d', Ok commit) ->
  exists record c' step,
    confirmable g now id record c c' /\ approving_step record c' step
    /\ commit = confirm_commit now id record (with_step c' (r_TTL (rec_Request record)) step)
    /\ (g' = fst (confirm_approve g now id record c' step)
        \/ exists n, g' = set_durable (fst (confirm_approve g now id record c' step)) id n).
Proof.
  unfold Confirm. pose proof (confirm_body_cases now id c g) as Hc.
  pose proof (confirm_body_fields now id c g) as [E1 E2].
  destruct (confirm_body now id c g) as [g1 out] eqn:Eb. intros H.
  pose proof (defer_persist_cases _ _ _ _ _ _ _ _ _ E1 E2 H) as [[_ [? ?]]|[<- Hg]]; [done|].
  inversion Hc; subst; try done.
  - match goal with E : confirm_checkpoint _ _ _ _ _ = _ |- _ => apply (f_equal snd) in E end.
    by rewrite confirm_checkpoint_pending in *.
  - eauto 10.
Qed.

Lemma confirm_identity_epoch g id record c :
  confirm_identity g id record c = None -> r_PolicyEpoch (rec_Request record) = g_policyEpoch g.
Proof. unfold confirm_identity. intros H. destruct (_ || _) eqn:E in H; [done|]. by props. Qed.

Lemma confirmable_epoch g now id record c c' :
  confirmable g now id record c c' -> r_PolicyEpoch (rec_Request record) = g_policyEpoch g.
Proof.
  intros [_ _ _ H]. unfold confirm_checks in H.
  destruct (confirm_identity g id record c) eqn:E; [done|]. by eapply confirm_identity_epoch.
Qed.

Lemma consume_check_None g now record scope digest :
  consume_check g now record scope digest = None ->
  rec_Status record = StatusApproved /\ rec_Commit record <> None
  /\ r_PolicyEpoch (rec_Request record) = g_policyEpoch g /\ now < rec_ExpiresAt record
  /\ r_Scope (rec_Request record) = scope /\ r_IntentDigest (rec_Request record) = digest
  /\ ValidateRecordForAdapter record = None.
Proof.
  unfold consume_check. intros H. destruct (_ || _) eqn:E1 in H; [done|].
  destruct (negb _) eqn:E2 in H; [done|]. destruct (negb (Before _ _)) eqn:E3 in H; [done|].
  destruct (_ || _) eqn:E4 in H; [done|]. unfold Before in E3. props.
  repeat split; try done. by destruct (rec_Commit record).
Qed.

Lemma Consume_ok now id scope digest g d g' d' :
  ConsumeAuthorization now id scope digest g d = (g', d', Ok tt) ->
  exists record, g_requests g !! id = Some record /\ consume_check g now record scope digest = None
    /\ g_requests g' !! id = Some (with_status record StatusRevoked None).
Proof.
  unfold ConsumeAuthorization. destruct (g_requests g !! id) as [record|] eqn:Er; [|done].
  destruct (consume_check g now record scope digest) eqn:Ec; [done|]. intros H.
  exists record. split; [done|]. split; [done|].
  apply defer_persist_cases in H as [[_ [? ?]]|[_ Hg]]; [done| |done..].
  by destruct Hg as [-> | [n ->]]; cbn; rewrite lookup_insert_eq.
Qed.

(** Operations that grant or use an authorization of a request, and those
    that revoke it (consuming it does both). *)
Definition authorizes (id : string) (o : op (D:=D)) : bool :=
  match o with OpConfirm _ id' _ | OpConsume _ id' _ _ => String.eqb id' id | _ => false end.
Definition revokes (id : string) (o : op (D:=D)) : bool :=
  match o with OpRevoke _ id' _ _ | OpConsume _ id' _ _ => String.eqb id' id | _ => false end.

Lemma dead_no_authorization g d o g' d' id :
  dead g id -> authorizes id o = true -> exec o g d <> (g', d', None).
Proof.
  intros (r & Hr & Hd) Ha H. destruct o; cbn in Ha; try done; props; subst; cbn [exec] in H.
  - destruct (Confirm _ _ _ _ _) as [[? ?] [k|]] eqn:E; [|done].
    apply Confirm_ok in E as (record & c' & step & Hc & _). pose proof (confirmable_epoch _ _ _ _ _ _ Hc).
    destruct Hc as [Hr' Hp _ _]. rewrite Hr in Hr'. injection Hr' as <-.
    destruct Hd as [Hd|]; [by rewrite Hp in Hd|lia].
  - destruct (ConsumeAuthorization _ _ _ _ _ _) as [[? ?] [[]|]] eqn:E; [|done].
    apply Consume_ok in E as (record & Hr' & Hc & _). rewrite Hr in Hr'. injection Hr' as <-.
    apply consume_check_None in Hc as (Hp & _ & He & _).
    destruct Hd as [Hd|]; [by rewrite Hp in Hd|lia].
Qed.

Lemma revokes_dead g d o g' d' id : revokes id o = true -> exec o g d = (g', d', None) -> dead g' id.
Proof.
  intros Ha H. destruct o; cbn in Ha; try done; props; subst; cbn [exec] in H.
  - destruct (Revoke _ _ _ _ _ _) as [[g1 d1] [[]|]] eqn:E; [|done]. injection H as <- <-.
    unfold Revoke in E. destruct (revoke_body _ _ _ _ _) as [g2 out] eqn:Eb.
    apply revoke_body_cases in Eb as [[-> [e ->]]|(-> & record & Hr & Hs & ->)].
    { unfold defer_persist in E. by destruct (g_persistence g). }
    apply defer_persist_cases in E as [[_ [? ?]]|[_ Hg]]; [done| |done..].
    exists (with_status record StatusRevoked None). split; [|by left].
    by destruct Hg as [-> | [n ->]]; cbn; rewrite lookup_insert_eq.
  - destruct (ConsumeAuthorization _ _ _ _ _ _) as [[? ?] [[]|]] eqn:E; [|done]. injection H as <- <-.
    apply Consume_ok in E as (record & _ & _ & Hr'). eexists. split; [exact Hr'|]. by left.
Qed.

(** The log of a run, split at one entry. *)
Lemma run_split ops g d g' d' l1 o r l2 :
  run ops g d = (g', d', l1 ++ (o, r) :: l2) ->
  exists ops1 ops2 g1 d1 g2 d2, ops = ops1 ++ o :: ops2 /\ run ops1 g d = (g1, d1, l1)
    /\ exec o g1 d1 = (g2, d2, r) /\ run ops2 g2 d2 = (g', d', l2).
Proof.
  revert g d l1. induction ops as [|o0 ops IH]; intros g d l1; cbn.
  - intros [= _ _ E]. by destruct l1.
  - destruct (exec o0 g d) as [[g1 d1] r1] eqn:E. destruct (run ops g1 d1) as [[g2 d2] log] eqn:E2.
    destruct l1 as [|x l1]; intros [= -> -> <- Hl].
    + subst. exists [], ops, g, d, g1, d1. auto.
    + subst. destruct (IH _ _ _ E2) as (ops1 & ops2 & ga & da & gb & db & -> & Ha & Hb & Hc).
      exists (o0 :: ops1), ops2, ga, da, gb, db. cbn. rewrite E, Ha. auto.
Qed.

Lemma dead_run ops g d g' d' log id o :
  recover = false -> Forall (fun o => recovers o = true -> recover = true) ops ->
  dead g id -> run ops g d = (g', d', log) -> authorizes id o = true -> (o, None) ∉ log.
Proof.
  intros Hrec Hops Hd Hrun Ha Hin. apply list_elem_of_split in Hin as (l1 & l2 & ->).
  apply run_split in Hrun as (ops1 & ops2 & g1 & d1 & g2 & d2 & -> & H1 & Ho & _).
  apply Forall_app in Hops as [Hops _]. eapply dead_no_authorization; [|exact Ha|exact Ho].
  eapply (run_invariant (fun g => dead g id)); eauto using transition_dead.
Qed.
End Facts.

(** A grant is used at most once, and revocation is final: in any run
    without recovery, whatever the ledger answers, after an operation that
    revoked a request or consumed its authorization, no confirmation and no
    consumption of that request succeeds again. *)
Theorem authorization_consumed_once {D} ops (g : Gate D) d g' d' l1 o1 l2 o2 id :
  Forall (fun o => recovers o = false) ops -> run ops g d = (g', d', l1 ++ (o1, None) :: l2) ->
  revokes id o1 = true -> authorizes id o2 = true -> (o2, None) ∉ l2.
Proof.
  intros Hops H H1 H2. apply run_split in H as (ops1 & ops2 & ga & da & gb & db & -> & _ & Ho & Hr).
  apply Forall_app in Hops as [_ [_ Hops]%Forall_cons]. 
  eapply (dead_run false); [done| |by eapply revokes_dead|exact Hr|exact H2].
  eapply Forall_impl; [exact Hops|]. intros o E. by rewrite E.
Qed.

(** Epoch fencing: once the policy epoch has moved past the epoch a request
    was submitted under, no confirmation and no consumption of that request
    succeeds in any later run without recovery. *)
Theorem old_epoch_never_authorizes {D} ops (g : Gate D) d g' d' log id r o :
  g_requests g !! id = Some r -> r_PolicyEpoch (rec_Request r) < g_policyEpoch g ->
  Forall (fun o => recovers o = false) ops -> run ops g d = (g', d', log) ->
  authorizes id o = true -> (o, None) ∉ log.
Proof.
  intros Hr He Hops. apply (dead_run false); [done| |].
  - eapply Forall_impl; [exact Hops|]. intros o' E. by rewrite E.
  - exists r. auto.
Qed.
