(* ===== verification/ApprovalSafety.v ===== *)
(** * Safety of the approval gate

    When exactly a confirmation authorizes, what the gate's records always
    satisfy, and what its audit trail proves about every authorization. *)

From S2P Require Import Prelude GoText Sha256 Json Approval ApprovalPersistence ApprovalGate.
From S2P Require Import ApprovalGateFacts.

Open Scope list_scope.
Open Scope Z_scope.

(** ** The conditions of a confirmation, as propositions *)

Lemma failed_None e : failed e = false <-> e = None.
Proof. by destruct e. Qed.

Record confirmation_valid {D} (g : Gate D) (now : Time) (id : string) (req : Request) (c : Confirmation)
    (language : string) : Prop := {
  v_epoch : r_PolicyEpoch req = g_policyEpoch g /\ c_PolicyEpoch c = r_PolicyEpoch req;
  v_scope : c_Scope c = r_Scope req;
  v_actor : c_Actor c <> "" /\ validateOpaque (c_Actor c) false = None;
  v_id : c_ConfirmationID c <> "" /\ validateOpaque (c_ConfirmationID c) false = None;
  v_fresh : c_ConfirmationID c ∉ g_usedIDs g;
  v_owner : forall owner, g_confirmationOwners g !! c_ConfirmationID c = Some owner -> owner = id;
  v_local : c_Local c = true;
  v_session : c_SessionID c <> "" /\ validateOpaque (c_SessionID c) false = None;
  v_separation : if high_risk req then c_Actor c <> r_Actor req /\ c_SessionID c <> r_SessionID req
                 else c_SessionID c = r_SessionID req;
  v_language : c_ConfirmationLanguage c <> ""
               /\ NormalizeConfirmationLanguage (c_ConfirmationLanguage c) = Ok language
               /\ language = r_ConfirmationLanguage req;
  v_phrase : c_ConfirmationPhrase c = phrase_or_empty language;
  v_intent : c_IntentDigest c = r_IntentDigest req;
  v_workflow : c_WorkflowDigest c = r_WorkflowDigest req;
  v_nonce : c_Nonce c <> "" /\ c_Nonce c = r_Nonce req;
  v_ttl : c_TTL c = 0 \/ c_TTL c = r_TTL req;
  v_warning : c_WarningReadAt c <> 0 /\ c_WarningReadAt c + WarningDelay <= now;
  v_factor : c_PasswordConfirmed c = true \/ c_TOTPConfirmed c = true;
  v_second : c_SecondConfirmation c = true;
  v_break_glass : r_Risk req = RiskEmergency ->
    r_BreakGlass req = true /\ c_BreakGlass c = true /\ TrimSpace (c_BreakGlassReason c) <> ""
    /\ validateReason (c_BreakGlassReason c) = None
    /\ (c_ActorRole c = RoleSecurityAdmin \/ c_ActorRole c = RoleTenantOwner)
}.

(** Boolean guards to propositions by rewriting. *)
Ltac guards :=
  repeat progress rewrite ?guard_None, ?orb_false_iff, ?andb_false_iff, ?negb_false_iff, ?negb_true_iff, ?andb_true_iff,
    ?String.eqb_eq, ?String.eqb_neq, ?Z.eqb_eq, ?Z.eqb_neq, ?failed_None, ?bool_decide_eq_false.

Lemma separation_guard req c :
  (high_risk req && (String.eqb (c_Actor c) (r_Actor req) || String.eqb (c_SessionID c) (r_SessionID req)) = false
   /\ negb (String.eqb (r_Risk req) RiskHigh) && negb (String.eqb (r_Risk req) RiskEmergency)
      && negb (String.eqb (c_SessionID c) (r_SessionID req)) = false)
  <-> (if high_risk req then c_Actor c <> r_Actor req /\ c_SessionID c <> r_SessionID req
       else c_SessionID c = r_SessionID req).
Proof.
  unfold high_risk.
  destruct (String.eqb (r_Risk req) RiskHigh), (String.eqb (r_Risk req) RiskEmergency); cbn [orb andb negb];
    guards; tauto.
Qed.

Lemma owner_guard (o : option string) id :
  match o with Some owner => negb (String.eqb owner id) | None => false end = false
  <-> (forall owner, o = Some owner -> owner = id).
Proof. destruct o; guards; naive_solver. Qed.

Lemma warning_guard now t :
  IsZero t || After t now || (TimeSub now t <? WarningDelay) = false <-> t <> 0 /\ t + WarningDelay <= now.
Proof.
  unfold IsZero, After. guards. rewrite !Z.ltb_ge, <- (Z.leb_le WarningDelay), TimeSub_le_pos, Z.leb_le by done.
  unfold WarningDelay, Second. lia.
Qed.

Lemma break_glass_guard req c :
  confirm_break_glass req c = None <->
  (r_Risk req = RiskEmergency ->
    r_BreakGlass req = true /\ c_BreakGlass c = true /\ TrimSpace (c_BreakGlassReason c) <> ""
    /\ validateReason (c_BreakGlassReason c) = None
    /\ (c_ActorRole c = RoleSecurityAdmin \/ c_ActorRole c = RoleTenantOwner)).
Proof.
  unfold confirm_break_glass. destruct (String.eqb_spec (r_Risk req) RiskEmergency) as [E|E]; cbn [negb].
  - guards. naive_solver.
  - naive_solver.
Qed.

Lemma language_guard record c language :
  confirm_language record c = Ok language <->
  c_ConfirmationLanguage c <> "" /\ NormalizeConfirmationLanguage (c_ConfirmationLanguage c) = Ok language
  /\ language = r_ConfirmationLanguage (rec_Request record).
Proof.
  unfold confirm_language. destruct (String.eqb_spec (c_ConfirmationLanguage c) ""); [naive_solver|].
  destruct (NormalizeConfirmationLanguage _) as [l|e]; [|naive_solver].
  destruct (String.eqb_spec l (r_ConfirmationLanguage (rec_Request record))); cbn [negb]; naive_solver.
Qed.

Lemma identity_guard {D} (g : Gate D) id record c :
  let req := rec_Request record in
  confirm_identity g id record c = None <->
  (r_PolicyEpoch req = g_policyEpoch g /\ c_PolicyEpoch c = r_PolicyEpoch req)
  /\ c_Scope c = r_Scope req
  /\ (c_Actor c <> "" /\ validateOpaque (c_Actor c) false = None)
  /\ (c_ConfirmationID c <> "" /\ validateOpaque (c_ConfirmationID c) false = None)
  /\ c_ConfirmationID c ∉ g_usedIDs g
  /\ (forall owner, g_confirmationOwners g !! c_ConfirmationID c = Some owner -> owner = id)
  /\ c_Local c = true
  /\ (c_SessionID c <> "" /\ validateOpaque (c_SessionID c) false = None)
  /\ (if high_risk req then c_Actor c <> r_Actor req /\ c_SessionID c <> r_SessionID req
      else c_SessionID c = r_SessionID req).
Proof.
  intros req. unfold confirm_identity. fold req.
  rewrite !guard_None, owner_guard, <- (separation_guard req c). guards. tauto.
Qed.

Lemma content_guard now record c language :
  let req := rec_Request record in
  confirm_content now record c language = None <->
  c_ConfirmationPhrase c = phrase_or_empty language
  /\ c_IntentDigest c = r_IntentDigest req
  /\ c_WorkflowDigest c = r_WorkflowDigest req
  /\ (c_Nonce c <> "" /\ c_Nonce c = r_Nonce req)
  /\ (c_TTL c = 0 \/ c_TTL c = r_TTL req)
  /\ (c_WarningReadAt c <> 0 /\ c_WarningReadAt c + WarningDelay <= now)
  /\ (c_PasswordConfirmed c = true \/ c_TOTPConfirmed c = true)
  /\ c_SecondConfirmation c = true
  /\ confirm_break_glass req c = None.
Proof.
  intros req. unfold confirm_content. fold req. rewrite !guard_None, warning_guard. guards. tauto.
Qed.

(** The checks of the code are the conditions. *)
Lemma confirm_checks_spec {D} (g : Gate D) now id record c c' :
  confirm_checks g now id record c = Ok c' <->
  exists language, confirmation_valid g now id (rec_Request record) c language /\ c' = with_language c language.
Proof.
  unfold confirm_checks. split.
  - destruct (confirm_identity g id record c) eqn:Ei; [done|].
    destruct (confirm_language record c) as [l|e] eqn:El; [|done].
    destruct (confirm_content now record c l) eqn:Ec; [done|]. intros [= <-]. exists l. split; [|done].
    apply identity_guard in Ei as (? & ? & ? & ? & ? & ? & ? & ? & ?). apply language_guard in El.
    apply content_guard in Ec as (? & ? & ? & ? & ? & ? & ? & ? & Hb).
    pose proof (proj1 (break_glass_guard _ _) Hb). by constructor.
  - intros (l & [] & ->).
    assert (confirm_identity g id record c = None) as -> by (apply identity_guard; tauto).
    assert (confirm_language record c = Ok l) as -> by (by apply language_guard).
    assert (confirm_content now record c l = None) as ->; [|done].
    apply content_guard. rewrite break_glass_guard. tauto.
Qed.


(** ** Every record of the gate is valid *)

Notation valid r := (ValidateRecordForAdapter r = None).

Lemma valid_iff r :
  valid r <->
  ValidateIdentifier (rec_ID r) = None /\ r_ID (rec_Request r) = rec_ID r
  /\ validateRequest (rec_Request r) = None /\ validate_times r = false
  /\ known_status (rec_Status r) = true
  /\ (rec_Status r = StatusApproved -> rec_Commit r <> None)
  /\ (forall k, rec_Commit r = Some k -> validate_commit r k = None)
  /\ (c_ConfirmationID (rec_Confirmation r) <> "" -> validate_confirmation r = None).
Proof.
  unfold ValidateRecordForAdapter. guards.
  destruct (validateRequest (rec_Request r)) as [e|]; [naive_solver|]. guards.
  assert (E : (rec_Status r <> StatusApproved \/ match rec_Commit r with None => true | Some _ => false end = false)
              <-> (rec_Status r = StatusApproved -> rec_Commit r <> None)).
  { destruct (rec_Commit r), (decide (rec_Status r = StatusApproved)); naive_solver. }
  rewrite E. clear E.
  destruct (rec_Commit r) as [k|]; [destruct (validate_commit r k) eqn:Ek|];
    destruct (String.eqb_spec (c_ConfirmationID (rec_Confirmation r)) ""); naive_solver.
Qed.

Lemma status_commit r : valid r -> rec_Status r <> StatusApproved -> rec_Commit r = None.
Proof.
  intros (_ & _ & _ & _ & _ & _ & Hk & _)%valid_iff Hs.
  destruct (rec_Commit r) as [k|]; [|done]. exfalso. specialize (Hk k eq_refl). revert Hk.
  unfold validate_commit. guards. tauto.
Qed.

(** A record that is not approved keeps the validity of its confirmation. *)
Lemma confirmation_status r status k :
  validate_confirmation r = None -> known_status status = true -> status <> StatusApproved ->
  validate_confirmation (with_status r status k) = None.
Proof.
  unfold validate_confirmation. cbn [with_status rec_Request rec_Confirmation rec_Status].
  rewrite !guard_None. intros (_ & H & Hp) Hk Hs. rewrite Hk. split; [done|]. split; [|exact Hp].
  revert H. guards. tauto.
Qed.

Lemma valid_with_status r status :
  valid r -> known_status status = true -> status <> StatusApproved -> valid (with_status r status None).
Proof.
  rewrite !valid_iff. intros (? & ? & ? & Ht & ? & ? & Hk & Hc) Hn Hs.
  repeat (split; [done|]). intros Hid. by apply confirmation_status; [apply Hc| |].
Qed.

(** What the validated request contributes. *)
Lemma validateRequest_facts req :
  validateRequest req = None ->
  0 < r_TTL req
  /\ validateOpaque (r_ID req) true = None /\ validateOpaque (r_Actor req) true = None
  /\ validateOpaque (r_SessionID req) true = None
  /\ NormalizeConfirmationLanguage (r_ConfirmationLanguage req) = Ok (r_ConfirmationLanguage req).
Proof.
  unfold validateRequest. rewrite !guard_None. intros (F1 & F2 & F3 & _). revert F1 F2. guards.
  rewrite Z.leb_gt. intros F1 F2.
  destruct (NormalizeConfirmationLanguage _) as [l|]; [|done]. revert F3. guards. intros ->. tauto.
Qed.

Lemma valid_pre_approved_parts now req :
  pre_approved req = true -> validateRequest req = None -> 0 < now ->
  let r := submitted_record now req in
  validate_commit r (pre_approved_commit now req (TimeAdd now (r_TTL req))) = None
  /\ validate_confirmation r = None.
Proof.
  intros Epa Hv Hnow r. apply validateRequest_facts in Hv as (Ht & Hid%preapproved_opaque & Ha & Hs & Hl).
  destruct (language_phrase _ Hl) as (phrase & Ep & Np & Eph).
  pose proof Epa as E. unfold pre_approved in E. apply andb_true_iff in E as [E _].
  apply andb_true_iff in E as [E _]. apply andb_true_iff in E as [Hpre _].
  unfold r, submitted_record. rewrite Epa. split.
  - unfold validate_commit, IsZero, Before, After, ValidateIdentifier, TimeAdd. cbn -[Z.add].
    rewrite Hpre. guards. rewrite !Z.ltb_ge. repeat split; auto; lia.
  - unfold validate_confirmation, ValidateIdentifier. cbn -[validateOpaque]. rewrite Ep, Eph, Hpre.
    guards. cbn. repeat split; auto. by rewrite String.eqb_refl.
Qed.

Lemma valid_submitted now req : validateRequest req = None -> 0 < now -> valid (submitted_record now req).
Proof.
  intros Hv Hnow. destruct (validateRequest_facts _ Hv) as (Ht & Hid & _).
  apply valid_iff. unfold ValidateIdentifier.
  assert (Htimes : validate_times (submitted_record now req) = false).
  { unfold validate_times, IsZero, Before, TimeAdd. cbn -[Z.add]. guards. rewrite Z.ltb_ge. unfold TimeAdd. lia. }
  destruct (pre_approved req) eqn:Epa.
  - destruct (valid_pre_approved_parts _ _ Epa Hv Hnow) as [Hk Hc].
    unfold submitted_record in *. rewrite Epa in *. repeat (split; [done|]). split; [|done].
    cbn. intros k [= <-]. exact Hk.
  - unfold submitted_record in *. rewrite Epa in *. by repeat (split; [done|]).
Qed.

(** The confirmation that [Confirm] stores, after its checks. *)
Definition stored_confirmation (req : Request) (c : Confirmation) (language : string) (step : Z) : Confirmation :=
  with_step (with_language c language) (r_TTL req) step.

Lemma checkpoint_complete req c language step :
  c_WarningReadAt c <> 0 -> c_SecondConfirmation c = true ->
  c_PasswordConfirmed c = true \/ c_TOTPConfirmed c = true -> 2 <= step <= 3 ->
  (requiresThirdConfirmation req = true -> step = 3 -> c_ThirdConfirmation c = true) ->
  checkpoint_incomplete req (stored_confirmation req c language step) = false.
Proof.
  intros Hw Hs Hf Hstep H3. unfold checkpoint_incomplete, IsZero.
  assert (E : requiresThirdConfirmation req && (step =? 3) && negb (c_ThirdConfirmation c) = false).
  { destruct (requiresThirdConfirmation req); [|done]. destruct (Z.eqb_spec step 3); [|done].
    by rewrite H3. }
  cbn -[requiresThirdConfirmation]. rewrite E. guards. rewrite !Z.ltb_ge. repeat split; try tauto; lia.
Qed.

Lemma valid_confirmation {D} (g : Gate D) now id r c language step status k :
  confirmation_valid g now id (rec_Request r) c language -> valid r ->
  2 <= step <= 3 ->
  (requiresThirdConfirmation (rec_Request r) = true -> step = 3 -> c_ThirdConfirmation c = true) ->
  known_status status = true ->
  (forall k', k = Some k' -> k_ConfirmationID k' = c_ConfirmationID c) ->
  validate_confirmation
    (with_status (with_confirmation r (stored_confirmation (rec_Request r) c language step)) status k) = None.
Proof.
  intros [? ? ? ? ? ? ? ? ? (_ & _ & Hlang) Hph ? ? ? ? [Hw _] ? ? ?] Hv Hstep H3 Hst Hk.
  apply valid_iff in Hv as (_ & _ & (_ & _ & _ & _ & Hl)%validateRequest_facts & _).
  destruct (language_phrase _ Hl) as (phrase & Ep & Np & Eph).
  rewrite Hlang in Hph |- *. rewrite Eph in Hph.
  pose proof (checkpoint_complete (rec_Request r) c (r_ConfirmationLanguage (rec_Request r)) step) as Hci.
  assert (Hk' : match k with Some commit => negb (String.eqb (c_ConfirmationID c) (k_ConfirmationID commit))
                | None => false end = false).
  { destruct k as [k|]; [|done]. rewrite (Hk k eq_refl). guards. done. }
  unfold validate_confirmation, ValidateIdentifier.
  cbn -[validateOpaque requiresThirdConfirmation checkpoint_incomplete stored_confirmation].
  unfold stored_confirmation in *.
  cbn [with_step with_language c_ConfirmationID c_Actor c_SessionID c_Scope c_PolicyEpoch c_IntentDigest
       c_WorkflowDigest c_Nonce c_ConfirmationLanguage c_ConfirmationPhrase c_TTL].
  rewrite Ep, Hst, Hk', Hci, !guard_None by tauto. split; [done|].
  split; [|by rewrite Hph, String.eqb_refl]. guards. rewrite Hph.
  repeat split; try tauto; try (by apply validateOpaque_strengthen; tauto).
Qed.

(** The two ways in which [Confirm] changes a record keep it valid. *)
Lemma valid_checkpointed {D} (g : Gate D) now id r c language :
  confirmation_valid g now id (rec_Request r) c language -> valid r -> rec_Status r = StatusPending ->
  valid (with_confirmation r (stored_confirmation (rec_Request r) c language 2)).
Proof.
  intros Hc Hv Hp. pose proof Hv as Hv'. apply valid_iff in Hv' as (? & ? & ? & ? & ? & ? & ? & _).
  assert (Hk : rec_Commit r = None) by (apply status_commit; [done|by rewrite Hp]).
  apply valid_iff. cbn. rewrite Hk, Hp. do 6 (split; [done|]). split; [done|]. intros _.
  pose proof (valid_confirmation g now id r c language 2 StatusPending None Hc Hv) as Hvc.
  unfold with_status in Hvc. cbn in Hvc. unfold with_confirmation. rewrite Hk, Hp. apply Hvc; try done.
Qed.

Lemma valid_approved {D} (g : Gate D) now id r c language step :
  confirmation_valid g now id (rec_Request r) c language -> valid r -> rec_ID r = id ->
  approving_step r (with_language c language) step ->
  rec_SubmittedAt r <= now -> 0 < now -> now < rec_ExpiresAt r ->
  let c' := stored_confirmation (rec_Request r) c language step in
  valid (with_status (with_confirmation r c') StatusApproved (Some (confirm_commit now id r c'))).
Proof.
  intros Hc Hv Hid Hs Hsub Hnow Hexp c'. pose proof Hv as Hv'. apply valid_iff in Hv' as (? & ? & Hr & Ht & ? & _).
  assert (H3 : 2 <= step <= 3
    /\ (requiresThirdConfirmation (rec_Request r) = true -> step = 3 /\ c_ThirdConfirmation c = true)).
  { unfold approving_step in Hs. destruct (requiresThirdConfirmation _); [|by subst].
    destruct Hs as (-> & Ht3 & _). by split. }
  destruct H3 as [Hstep H3]. apply valid_iff. do 6 (split; [done|]). split.
  - cbn. intros k [= <-]. destruct Hc as [[] ? [] [] ? ? ? [] Hsep (_ & _ & Hlang) ? ? ? ? ? ? ? ? ?].
    unfold validate_commit, IsZero, Before, After, ValidateIdentifier.
    cbn -[validateOpaque high_risk requiresThirdConfirmation]. guards. rewrite !Z.ltb_ge.
    assert (requiresThirdConfirmation (rec_Request r) = false \/ step = 3 /\ c_ThirdConfirmation c = true)
      by (destruct (requiresThirdConfirmation _); auto).
    assert (high_risk (rec_Request r) = false
            \/ (c_Actor c <> r_Actor (rec_Request r) /\ c_SessionID c <> r_SessionID (rec_Request r)))
      by (destruct (high_risk _); auto).
    assert (c_PolicyEpoch c = r_PolicyEpoch (rec_Request r)) by congruence.
    repeat split; try tauto; try lia; try congruence;
      try (by apply validateOpaque_strengthen).
  - intros _. eapply valid_confirmation; try done; [|by intros k' [= <-]].
    intros E _. by apply H3.
Qed.

(** The gate's records at time [t]. *)
Definition records_valid {D} (t : Time) (g : Gate D) : Prop :=
  0 < t /\ forall id r, g_requests g !! id = Some r -> rec_ID r = id /\ valid r /\ rec_SubmittedAt r <= t.

Lemma records_valid_put {D} t (g g' : Gate D) id r :
  records_valid t g -> g_requests g' = <[id := r]> (g_requests g) ->
  rec_ID r = id -> valid r -> rec_SubmittedAt r <= t -> records_valid t g'.
Proof.
  intros [H0 H] E Hid Hv Hs. split; [done|]. intros id' r'. rewrite E, lookup_insert_Some.
  intros [[<- <-]|[_ Hr']]; auto.
Qed.

Lemma transition_records_valid {D} t (g g' : Gate D) :
  transition false t g g' -> records_valid t g -> records_valid t g'.
Proof.
  intros Ht Hg. pose proof Hg as [H0 Hr].
  destruct Ht as [raw req En Ev Ee Eh|id r c e H1|id r c H1 Hp Ht|id r c c' [H1 Hp Ha Hc] Hf
    |id r c c' step [H1 Hp Ha Hc] Hs|id r actor scope cid reason H1 Hn| | |p Hp|]; try exact Hg; [..|done].
  - eapply records_valid_put; [done|by apply submit_requests|done|by apply valid_submitted|]. cbn. lia.
  - destruct (Hr _ _ H1) as (Hid & Hv & Hs). eapply records_valid_put; [done|done|done| |done].
    assert (Hk : rec_Commit r = None) by (apply status_commit; [done|by rewrite Hp]).
    rewrite Hk. by apply valid_with_status.
  - destruct (Hr _ _ H1) as (Hid & Hv & Hs). apply confirm_checks_spec in Hc as (language & Hc & ->).
    eapply records_valid_put; [done|by apply checkpoint_requests| | |];
      destruct (String.eqb _ _); try done. by eapply valid_checkpointed.
  - destruct (Hr _ _ H1) as (Hid & Hv & Hs'). apply confirm_checks_spec in Hc as (language & Hc & ->).
    eapply records_valid_put; [done|done|done| |done]. by eapply valid_approved.
  - destruct (Hr _ _ H1) as (Hid & Hv & Hs). eapply records_valid_put; [done|done|done| |done].
    by apply valid_with_status.
Qed.

(** Whatever sequence of operations runs against the gate, with a clock
    that does not go back, every record it holds passes the validation that
    adapters apply to durable records: the bindings of its confirmation and
    commit agree with its request, an approval always carries its commit, and
    a sensitive approval carries both checkpoints and a second person. In
    particular the validation inside [ConsumeAuthorization] never refuses a
    record that the gate itself produced. *)
Theorem gate_records_always_valid {D} ops t (g : Gate D) d g' d' log id r :
  records_valid t g -> Forall (fun o => recovers o = false) ops -> clocked t ops ->
  run ops g d = (g', d', log) -> g_requests g' !! id = Some r ->
  rec_ID r = id /\ ValidateRecordForAdapter r = None.
Proof.
  intros Hg Hops Hc Hrun Hr.
  destruct (run_clocked_invariant false records_valid ops t g d g' d' log) as (t' & _ & _ & H); try done.
  - intros t1 t2 g1 Hle [H0 H]. split; [lia|]. intros id' r' H'. destruct (H _ _ H') as (? & ? & ?).
    repeat split; try done. lia.
  - intros. by eapply transition_records_valid.
  - eapply Forall_impl; [exact Hops|]. intros o E. by rewrite E.
  - by destruct (H _ _ Hr) as (? & ? & _).
Qed.
