(* ===== verification/ApprovalAudit.v ===== *)
(** * What the audit trail of the gate proves

    Every authorization in the trail is justified by the events before it:
    a sensitive request has its first checkpoint there, a high-risk one was
    confirmed by another actor, and a confirmation identifier is not used for
    a second interactive authorization. *)

From S2P Require Import Prelude GoText Sha256 Json Approval ApprovalPersistence ApprovalGate.
From S2P Require Import ApprovalGateFacts ApprovalSafety.

Open Scope list_scope.
Open Scope Z_scope.

Section Audit.
Context {D : Type}.
Implicit Types (g : Gate D) (d : D).

(** ** Numbering *)

Definition numbered g : Prop :=
  g_sequence g = u64 (Z.of_nat (length (g_audit g)))
  /\ forall i e, g_audit g !! i = Some e -> e_Sequence e = u64 (Z.of_nat i + 1).

Definition extends g g' : Prop := exists new, g_audit g' = g_audit g ++ new.

(** One event appended with the next number. *)
Lemma numbered_push g e :
  numbered g -> e_Sequence e = u64 (g_sequence g + 1) ->
  numbered (push_audit g (u64 (g_sequence g + 1)) e) /\ extends g (push_audit g (u64 (g_sequence g + 1)) e).
Proof.
  intros [Hs Hn] He. split; [split|by exists [e]].
  - cbn. rewrite length_app, Hs. unfold u64. rewrite Zplus_mod_idemp_l. cbn. f_equal. lia.
  - cbn. intros i e'. rewrite lookup_snoc_Some. intros [[_ H]|[-> <-]]; [by apply Hn|].
    rewrite He, Hs. unfold u64. by rewrite Zplus_mod_idemp_l.
Qed.

Definition grows g g' : Prop := numbered g -> numbered g' /\ extends g g'.

Lemma grows_trans g1 g2 g3 : grows g1 g2 -> grows g2 g3 -> grows g1 g3.
Proof.
  intros H12 H23 H. destruct (H12 H) as [H2 [l1 E1]]. destruct (H23 H2) as [H3 [l2 E2]].
  split; [done|]. exists (l1 ++ l2). by rewrite E2, E1, app_assoc.
Qed.

(** Changes of other fields. *)
Lemma grows_same g g' : g_audit g' = g_audit g -> g_sequence g' = g_sequence g -> grows g g'.
Proof.
  intros E1 E2 [Hs Hn]. unfold numbered, extends. rewrite E1, E2.
  split; [by split|]. exists []. by rewrite app_nil_r.
Qed.

Lemma grows_append g now typ id actor scope epoch cid reason :
  grows g (appendAudit g now typ id actor scope epoch cid reason).
Proof. intros H. by apply numbered_push. Qed.

Lemma grows_restore_event id g e : grows g (restore_event id g e).
Proof.
  intros H. unfold restore_event.
  pose proof (numbered_push g (with_sequence e (u64 (g_sequence g + 1))) H eq_refl) as Hp.
  by repeat destruct (String.eqb _ _).
Qed.

Lemma grows_restored g record events : grows g (restored_record g record events).
Proof.
  unfold restored_record. generalize (rec_ID record) at 1. intros id.
  eapply grows_trans; [by apply (grows_same g (put_request g (rec_ID record) record))|].
  generalize (put_request g (rec_ID record) record). clear g.
  induction events as [|e l IH]; intros g; [by apply grows_same|]. cbn [fold_left].
  eapply grows_trans; [apply grows_restore_event|apply IH].
Qed.

Lemma grows_put_append g id r now typ id' actor scope epoch cid reason :
  grows g (appendAudit (put_request g id r) now typ id' actor scope epoch cid reason).
Proof. eapply grows_trans; [|apply grows_append]. by apply grows_same. Qed.

Lemma transition_grows recover t g g' : transition recover t g g' -> grows g g'.
Proof.
  intros H. destruct H as [raw req En Ev Ee Eh| |id r c H1 Hp Ht| | | | | | |]; try by apply grows_same.
  - unfold submit_body. rewrite En, Ev, Ee, Z.eqb_refl. apply has_false in Eh. rewrite Eh. cbn [negb].
    unfold submitted_record. destruct (pre_approved req); cbn [fst rec_Commit].
    + eapply grows_trans; [|apply grows_append].
      eapply grows_trans; [apply grows_put_append|]. by apply grows_same.
    + apply grows_put_append.
  - apply grows_append.
  - apply grows_put_append.
  - unfold confirm_checkpoint. destruct (negb _); [apply grows_append|].
    eapply grows_trans; [|apply grows_append]. by apply grows_same.
  - unfold confirm_approve. cbn [fst]. eapply grows_trans; [|apply grows_append]. by apply grows_same.
  - apply grows_put_append.
  - apply grows_restored.
Qed.

Lemma run_grows ops g d g' d' log : run ops g d = (g', d', log) -> grows g g'.
Proof.
  intros H. apply (run_invariant true (fun g1 => grows g g1) _ _ _ _ _ _) with (2 := Forall_true _ _ (fun _ _ => eq_refl)) in H;
    [done| |by apply grows_same].
  intros t g1 g2 Ht H1. eapply grows_trans; [exact H1|]. by eapply transition_grows.
Qed.

(** ** Justified authorizations *)

Definition interactive : string := "interactive confirmation".
Definition preapproved : string := "pre-approved".

(** A first checkpoint in [l] by [actor] for [id] under [cid]. *)
Definition checkpointed (l : list AuditEvent) (id cid actor : string) : Prop :=
  exists e, e ∈ l /\ e_Type e = AuditCheckpoint /\ e_RequestID e = id
            /\ e_ConfirmationID e = cid /\ e_Actor e = actor.

(** An earlier authorization under the identifier of [e] is interactive, and
    [e] is a pre-approval. *)
Definition first_use (l : list AuditEvent) (e : AuditEvent) : Prop :=
  forall e0, e0 ∈ l -> e_Type e0 = AuditAuthorized -> e_ConfirmationID e0 = e_ConfirmationID e ->
             e_Reason e0 = interactive /\ e_Reason e = preapproved.

Record justified (reqs : gmap string ApprovalRecord) (l : list AuditEvent) (e : AuditEvent) : Prop := {
  j_request : exists r, reqs !! e_RequestID e = Some r
    /\ (requiresThirdConfirmation (rec_Request r) = true ->
        checkpointed l (e_RequestID e) (e_ConfirmationID e) (e_Actor e))
    /\ (high_risk (rec_Request r) = true -> e_Actor e <> r_Actor (rec_Request r))
    /\ (e_Reason e = interactive
        \/ e_Reason e = preapproved /\ e_ConfirmationID e = ("preapproved:" ++ e_RequestID e)%string);
  j_first : first_use l e
}.

Record audited g : Prop := {
  a_events : forall i e, g_audit g !! i = Some e -> e_Type e = AuditAuthorized ->
               justified (g_requests g) (take i (g_audit g)) e;
  a_pending : forall id r, g_requests g !! id = Some r -> rec_Status r = StatusPending ->
               c_ConfirmationID (rec_Confirmation r) <> "" ->
               checkpointed (g_audit g) id (c_ConfirmationID (rec_Confirmation r)) (c_Actor (rec_Confirmation r));
  a_used : forall e, e ∈ g_audit g -> e_Type e = AuditAuthorized -> e_ConfirmationID e ∈ g_usedIDs g
}.

(** Requests only continue between two gates. *)
Definition requests_continue g g' : Prop :=
  forall id r, g_requests g !! id = Some r -> exists r', g_requests g' !! id = Some r' /\ continues r r'.

Lemma justified_continue g g' l e :
  requests_continue g g' -> justified (g_requests g) l e -> justified (g_requests g') l e.
Proof.
  intros Hc [(r & Hr & H) Hf]. split; [|done]. destruct (Hc _ _ Hr) as (r' & Hr' & _ & Eq & _).
  exists r'. by rewrite Eq.
Qed.

Lemma checkpointed_app l l' id cid actor : checkpointed l id cid actor -> checkpointed (l ++ l') id cid actor.
Proof. intros (e & He & H). exists e. split; [|done]. apply elem_of_app. by left. Qed.

(** Appending one event to an audited gate: what is to be shown of the event
    and of the records. *)
Lemma audited_append g g' e :
  audited g -> requests_continue g g' -> g_audit g' = g_audit g ++ [e] ->
  (forall cid, cid ∈ g_usedIDs g -> cid ∈ g_usedIDs g') ->
  (e_Type e = AuditAuthorized ->
     justified (g_requests g') (g_audit g) e /\ e_ConfirmationID e ∈ g_usedIDs g') ->
  (forall id r, g_requests g' !! id = Some r -> rec_Status r = StatusPending ->
     c_ConfirmationID (rec_Confirmation r) <> "" ->
     (g_requests g !! id = Some r)
     \/ checkpointed (g_audit g ++ [e]) id (c_ConfirmationID (rec_Confirmation r)) (c_Actor (rec_Confirmation r))) ->
  audited g'.
Proof.
  intros [He Hp Hu] Hc Ea Hused Hnew Hrec. split; rewrite ?Ea.
  - intros i e'. rewrite lookup_snoc_Some. intros [[Hi Hl]|[-> <-]] Ht.
    + rewrite take_app_le by lia. eapply justified_continue; eauto.
    + rewrite take_app_length. by apply Hnew.
  - intros id r Hr Hs Hid. destruct (Hrec _ _ Hr Hs Hid) as [H|H]; [|done].
    apply checkpointed_app. by apply Hp.
  - intros e'. rewrite elem_of_app, list_elem_of_singleton. intros [Hin| ->] Ht; [auto|by apply Hnew].
Qed.

Lemma requests_continue_refl g g' : g_requests g' = g_requests g -> requests_continue g g'.
Proof. intros E id r Hr. rewrite E. exists r. by split; [|apply continues_refl]. Qed.

Lemma requests_continue_put g g' id r0 r1 :
  g_requests g !! id = Some r0 -> continues r0 r1 -> g_requests g' = <[id := r1]> (g_requests g) ->
  requests_continue g g'.
Proof. intros H0 Hc E id' r Hr. rewrite E. by eapply put_continues. Qed.

Lemma requests_continue_new g g' id r1 :
  g_requests g !! id = None -> g_requests g' = <[id := r1]> (g_requests g) -> requests_continue g g'.
Proof.
  intros H0 E id' r Hr. rewrite E, lookup_insert_ne by congruence. exists r. by split; [|apply continues_refl].
Qed.

(** An update of one record to one that is not pending: expiry, revocation. *)
Lemma audited_close g g' id r0 r1 e :
  audited g -> g_requests g !! id = Some r0 -> continues r0 r1 -> rec_Status r1 <> StatusPending ->
  g_requests g' = <[id := r1]> (g_requests g) -> g_audit g' = g_audit g ++ [e] ->
  g_usedIDs g' = g_usedIDs g -> e_Type e <> AuditAuthorized -> audited g'.
Proof.
  intros Ha H0 Hc Hs Er Ea Eu Ht. eapply audited_append; eauto using requests_continue_put.
  - intros cid. by rewrite Eu.
  - done.
  - intros id' r. rewrite Er, lookup_insert_Some. intros [[<- <-]|[_ H]] Hp; [done|auto].
Qed.

Lemma use_id_in g id : id ∈ g_usedIDs (use_id g id).
Proof. unfold use_id. cbn [g_usedIDs]. set_solver. Qed.

Lemma use_id_keeps g id cid : cid ∈ g_usedIDs g -> cid ∈ g_usedIDs (use_id g id).
Proof. unfold use_id. cbn [g_usedIDs]. set_solver. Qed.

Lemma audited_event g e :
  audited g -> e ∈ g_audit g -> e_Type e = AuditAuthorized ->
  exists r, g_requests g !! e_RequestID e = Some r
    /\ (e_Reason e = interactive
        \/ e_Reason e = preapproved /\ e_ConfirmationID e = ("preapproved:" ++ e_RequestID e)%string).
Proof.
  intros Ha [i Hi]%list_elem_of_lookup Ht. destruct (a_events _ Ha _ _ Hi Ht) as [(r & Hr & _ & _ & H) _]. eauto.
Qed.

Lemma append_prefix_inj p s t : (p ++ s)%string = (p ++ t)%string -> s = t.
Proof. induction p as [|c p IH]; cbn; [done|]. intros [= H]. auto. Qed.

(** The submitted record, before a possible pre-approval. *)
Lemma audited_submit now req g :
  audited g -> g_requests g !! r_ID req = None ->
  audited (appendAudit (put_request g (r_ID req) (submitted_record now req)) now AuditSubmitted (r_ID req)
             (r_Actor req) (r_Scope req) (r_PolicyEpoch req) "" "").
Proof.
  intros Ha Hn. eapply (audited_append g); [done|by eapply requests_continue_new|done|done|done|].
  intros id r. cbn. rewrite lookup_insert_Some. intros [[<- <-]|[_ H]] Hp Hc; [|by left].
  exfalso. unfold submitted_record in *. by destruct (pre_approved req).
Qed.

Lemma pre_approved_not_sensitive req :
  pre_approved req = true -> requiresThirdConfirmation req = false /\ high_risk req = false.
Proof.
  unfold pre_approved, requiresThirdConfirmation, sensitive, high_risk. intros H.
  apply andb_true_iff in H as [[_ H%negb_true_iff]%andb_true_iff _]. split; [done|].
  apply orb_false_iff in H as [H H1]. apply orb_false_iff in H as [_ H2]. by rewrite H1, H2.
Qed.

Lemma audited_pre_approval now req g k :
  audited g -> pre_approved req = true -> g_requests g !! r_ID req = None ->
  k_ConfirmationID k = ("preapproved:" ++ r_ID req)%string ->
  let g1 := appendAudit (put_request g (r_ID req) (submitted_record now req)) now AuditSubmitted (r_ID req)
              (r_Actor req) (r_Scope req) (r_PolicyEpoch req) "" "" in
  audited (appendAudit (use_id g1 (k_ConfirmationID k)) now AuditAuthorized (r_ID req) (r_Actor req)
             (r_Scope req) (r_PolicyEpoch req) (k_ConfirmationID k) preapproved).
Proof.
  intros Ha Hp Hn Hk g1. assert (Ha1 : audited g1) by by apply audited_submit.
  eapply (audited_append g1); [done|by apply requests_continue_refl|done| | |by left].
  - intros cid Hc. apply use_id_keeps. exact Hc.
  - intros _. split; [|apply use_id_in].
    destruct (pre_approved_not_sensitive _ Hp) as [E3 Eh]. split.
    + exists (submitted_record now req). split; [apply lookup_insert_eq|]. cbn -[requiresThirdConfirmation high_risk].
      rewrite E3, Eh. split; [done|]. split; [done|]. right. by rewrite Hk.
    + intros e0 Hin Ht Hc. cbn in Hin, Hc. rewrite elem_of_app, list_elem_of_singleton in Hin.
      destruct Hin as [Hin| ->]; [|done].
      destruct (audited_event _ _ Ha Hin Ht) as (r & Hr & [Hi|[_ Hid]]); [by split|].
      exfalso. rewrite Hid, Hk in Hc. apply append_prefix_inj in Hc. congruence.
Qed.

Lemma audited_approve now id r c' language c step g :
  audited g -> g_requests g !! id = Some r -> rec_Status r = StatusPending ->
  confirmation_valid g now id (rec_Request r) c language -> c' = with_language c language ->
  approving_step r c' step -> audited (fst (confirm_approve g now id r c' step)).
Proof.
  intros Ha Hr Hp Hv -> Hs. destruct Hv as [? ? ? ? Hfresh ? ? ? Hsep ? ? ? ? ? ? ? ? ? ?].
  eapply (audited_append g); [done| |done| | |].
  - eapply requests_continue_put; [done| |done]. repeat split. by rewrite Hp.
  - intros cid Hc. apply use_id_keeps. exact Hc.
  - intros _. split; [|apply use_id_in]. split.
    + eexists. split; [apply lookup_insert_eq|]. cbn -[requiresThirdConfirmation high_risk].
      unfold approving_step in Hs. split; [|split; [|by left]].
      * intros E. rewrite E in Hs. destruct Hs as (_ & _ & Hne & _ & Hsame).
        pose proof (a_pending _ Ha _ _ Hr Hp Hne) as Hck. unfold sameCheckpoint in Hsame.
        rewrite !guard_None in Hsame. destruct Hsame as (H1 & _ & _ & _ & _ & _ & _ & _ & H2 & _).
        revert H1 H2. guards. cbn. intros H1 H2. destruct H2 as [[[[[[[H2 _] _] _] _] _] _] _].
        by rewrite <- H1, <- H2.
      * intros E. rewrite E in Hsep. by destruct Hsep.
    + intros e0 Hin Ht Hc. exfalso. apply Hfresh. cbn in Hc. rewrite <- Hc. by apply (a_used _ Ha).
  - intros id' r'. cbn. rewrite lookup_insert_Some. intros [[<- <-]|[_ H]] Hp'; [done|by left].
Qed.

Lemma audited_checkpoint now id r c g :
  audited g -> g_requests g !! id = Some r -> audited (fst (confirm_checkpoint g now id r c)).
Proof.
  intros Ha Hr. unfold confirm_checkpoint. destruct (negb _).
  - eapply (audited_append g); [done|by apply requests_continue_refl|done|done|done|by left].
  - eapply (audited_append g); [done| |done|done|done|].
    + eapply requests_continue_put; [done| |done]. by repeat split.
    + intros id' r'. cbn. rewrite lookup_insert_Some. intros [[<- <-]|[_ H]] Hp' Hc; [|by left].
      right. eexists. rewrite elem_of_app, list_elem_of_singleton. split; [by right|]. done.
Qed.

Lemma transition_audited t g g' : transition false t g g' -> audited g -> audited g'.
Proof.
  intros Ht Ha. destruct Ht as [raw req En Ev Ee Eh|id r c e H1|id r c H1 Hp Ht|id r c c' [H1 Hp _ _] Hf
    |id r c c' step [H1 Hp _ Hc] Hs|id r actor scope cid reason H1 Hn| | |p Hp|].
  - unfold submit_body. rewrite En, Ev, Ee, Z.eqb_refl. pose proof Eh as Eh'. apply has_false in Eh'.
    rewrite Eh'. cbn [negb fst]. pose proof (audited_submit t req g Ha Eh) as H1.
    destruct (pre_approved req) eqn:Epa.
    + pose proof (audited_pre_approval t req g (pre_approved_commit t req (TimeAdd t (r_TTL req)))
        Ha Epa Eh eq_refl) as H2.
      unfold submitted_record in *. rewrite Epa, Ee in *. exact H2.
    + unfold submitted_record in *. rewrite Epa, Ee in *. exact H1.
  - eapply (audited_append g); [done|by apply requests_continue_refl|done|done|done|by left].
  - eapply audited_close; [done|done| | |done..|done|done]; [|done]. repeat split. cbn. by rewrite Hp.
  - by apply audited_checkpoint.
  - apply confirm_checks_spec in Hc as (language & Hv & ->). by eapply audited_approve.
  - eapply audited_close; [done|done| | |done..|done|done]; [|done]. by repeat split.
  - by destruct Ha.
  - done.
  - by destruct Ha.
  - by destruct Ha.
Qed.

Lemma audited_new epoch : audited (NewGate epoch).
Proof.
  split; [done|done|]. intros e He. by apply elem_of_nil in He.
Qed.

Lemma run_audited ops g d g' d' log :
  Forall (fun o => recovers o = false) ops -> run ops g d = (g', d', log) -> audited g -> audited g'.
Proof.
  intros Hops. apply (run_invariant false); [intros; by eapply transition_audited|].
  eapply Forall_impl; [exact Hops|]. intros o E. by rewrite E.
Qed.
End Audit.

(** The audit trail is append-only and gapless: any run of operations,
    recoveries included and whatever the ledger answers, extends the trail of
    the gate and keeps its events numbered 1, 2, 3, ... (modulo 2^64). *)
Theorem audit_trail_append_only {D} ops (g : Gate D) d g' d' log :
  numbered g -> run ops g d = (g', d', log) ->
  numbered g' /\ exists new, g_audit g' = g_audit g ++ new.
Proof. intros Hn H. by apply (run_grows _ _ _ _ _ _ H). Qed.

(** Two checkpoints and a second person: in a gate that ran any operations
    but recovery since it was created, every authorization event belongs to a
    known request; if the request is sensitive, an earlier event is the first
    checkpoint of the same request by the same actor under the same
    confirmation identifier; and if its risk is high or an emergency, the
    authorizing actor is not the requester. *)
Theorem sensitive_authorizations_have_two_checkpoints {D} epoch ops (d : D) g' d' log i e :
  Forall (fun o => recovers o = false) ops -> run ops (NewGate epoch) d = (g', d', log) ->
  g_audit g' !! i = Some e -> e_Type e = AuditAuthorized ->
  exists r, g_requests g' !! e_RequestID e = Some r
    /\ (requiresThirdConfirmation (rec_Request r) = true ->
        checkpointed (take i (g_audit g')) (e_RequestID e) (e_ConfirmationID e) (e_Actor e))
    /\ (high_risk (rec_Request r) = true -> e_Actor e <> r_Actor (rec_Request r)).
Proof.
  intros Hops Hrun He Ht. apply run_audited in Hrun; [|done|apply audited_new].
  destruct (a_events _ Hrun _ _ He Ht) as [(r & Hr & H3 & Hh & _) _]. eauto.
Qed.

(** A confirmation identifier authorizes once: of two authorization events
    under one identifier, the earlier is an interactive confirmation and the
    later the automatic approval of a low-risk pre-approved request; two
    interactive authorizations never share an identifier. *)
Theorem confirmation_id_authorizes_once {D} epoch ops (d : D) g' d' log i j e1 e2 :
  Forall (fun o => recovers o = false) ops -> run ops (NewGate epoch) d = (g', d', log) ->
  (i < j)%nat -> g_audit g' !! i = Some e1 -> g_audit g' !! j = Some e2 ->
  e_Type e1 = AuditAuthorized -> e_Type e2 = AuditAuthorized ->
  e_ConfirmationID e1 = e_ConfirmationID e2 ->
  e_Reason e1 = interactive /\ e_Reason e2 = preapproved.
Proof.
  intros Hops Hrun Hij H1 H2 T1 T2 Hc. apply run_audited in Hrun; [|done|apply audited_new].
  destruct (a_events _ Hrun _ _ H2 T2) as [_ Hf]. apply Hf; [|done|done].
  apply list_elem_of_lookup. exists i. by rewrite lookup_take_lt.
Qed.
