(* ===== verification/ApprovalWorkflow.v ===== *)
(** * Workflow binding, super batches and delegation (internal/approval/workflow.go)

    The fallback matrix that routes a request, the sidecar's snapshot of a
    request and its validation against the gate, the prepare barrier of a
    logical batch, and the one-time delegation ledger. *)

From S2P Require Import Prelude GoText Sha256 Json Approval ApprovalPersistence ApprovalGate.
From S2P Require Import ApprovalGateFacts ApprovalSafety.

Open Scope list_scope.
Open Scope Z_scope.
Open Scope go_scope.

(** ** Routing *)

Definition WorkflowAutoApproved : string := "auto_approved".
Definition WorkflowLocalManual : string := "local_manual".
Definition WorkflowSidecarPending : string := "workflow_pending".
Definition WorkflowBreakGlass : string := "break_glass_pending".

Record WorkflowPlan := {
  w_Route : string;
  w_WorkflowAvailable : bool;
  w_RequiresInteractive : bool;
  w_RequiresWorkflow : bool;
  w_RequiresBreakGlass : bool;
  w_Reason : string
}.

Definition PlanWorkflow (req : Request) (workflowAvailable : bool) : result ApErr WorkflowPlan :=
  match normalizeRequest req with
  | Err _ => Err ErrInvalidRequest
  | Ok normalized =>
      if String.eqb (r_Risk normalized) RiskEmergency then
        Ok {| w_Route := WorkflowBreakGlass; w_WorkflowAvailable := workflowAvailable;
              w_RequiresInteractive := true; w_RequiresWorkflow := workflowAvailable;
              w_RequiresBreakGlass := true;
              w_Reason := "emergency operations require restricted break-glass confirmation" |}
      else if String.eqb (r_Risk normalized) RiskLow && r_PreApproved normalized
              && negb (sensitive normalized) && negb (r_BreakGlass normalized) then
        Ok {| w_Route := WorkflowAutoApproved; w_WorkflowAvailable := workflowAvailable;
              w_RequiresInteractive := false; w_RequiresWorkflow := false;
              w_RequiresBreakGlass := false; w_Reason := "explicit low-risk pre-approval" |}
      else if sensitive normalized || String.eqb (r_Risk normalized) RiskHigh then
        Ok {| w_Route := WorkflowSidecarPending; w_WorkflowAvailable := workflowAvailable;
              w_RequiresInteractive := true; w_RequiresWorkflow := true; w_RequiresBreakGlass := false;
              w_Reason := "sensitive or high-risk operation cannot be auto-approved" |}
      else
        Ok {| w_Route := WorkflowLocalManual; w_WorkflowAvailable := workflowAvailable;
              w_RequiresInteractive := true; w_RequiresWorkflow := false; w_RequiresBreakGlass := false;
              w_Reason := "ordinary operation requires local human confirmation" |}
  end.

(** ** Bindings *)

Record WorkflowBinding := {
  b_ApprovalID : string;
  b_ConfirmationID : string;
  b_IntentDigest : string;
  b_WorkflowDigest : string;
  b_Scope : string;
  b_SessionID : string;
  b_Nonce : string;
  b_PolicyEpoch : Z;
  b_EventSequence : Z;
  b_TTL : Duration
}.

(** The greatest sequence number of the request's audit events, from [latest] on. *)
Definition latest_sequence (requestID : string) (audit : list AuditEvent) : Z :=
  fold_left (fun latest e => if String.eqb (e_RequestID e) requestID && (latest <? e_Sequence e)
                             then e_Sequence e else latest) audit 0.

Definition WorkflowBindingFor {D} (now : Time) (requestID : string) (g : Gate D) : result ApErr WorkflowBinding :=
  match g_requests g !! requestID with
  | None => Err ErrNotFound
  | Some record =>
      return Err ErrExpired when negb (Before now (rec_ExpiresAt record)) ;;
      return Err ErrRevoked when String.eqb (rec_Status record) StatusRevoked ;;
      let sequence := latest_sequence (rec_ID record) (g_audit g) in
      return Err ErrWorkflowBinding when sequence =? 0 ;;
      let req := rec_Request record in
      Ok {| b_ApprovalID := rec_ID record;
            b_ConfirmationID := match rec_Commit record with
                                | Some commit => k_ConfirmationID commit
                                | None => c_ConfirmationID (rec_Confirmation record)
                                end;
            b_IntentDigest := r_IntentDigest req; b_WorkflowDigest := r_WorkflowDigest req;
            b_Scope := r_Scope req; b_SessionID := r_SessionID req; b_Nonce := r_Nonce req;
            b_PolicyEpoch := r_PolicyEpoch req; b_EventSequence := sequence; b_TTL := r_TTL req |}
  end.

Definition ValidateWorkflowBinding {D} (now : Time) (requestID : string) (binding : WorkflowBinding)
    (g : Gate D) : option ApErr :=
  match g_requests g !! requestID with
  | None => Some ErrNotFound
  | Some record =>
      let req := rec_Request record in
      return Some ErrRevoked when String.eqb (rec_Status record) StatusRevoked ;;
      return Some ErrExpired when negb (Before now (rec_ExpiresAt record)) ;;
      return Some ErrWorkflowBinding when
        negb (String.eqb (b_ApprovalID binding) requestID)
        || negb (String.eqb (b_IntentDigest binding) (r_IntentDigest req))
        || negb (String.eqb (b_WorkflowDigest binding) (r_WorkflowDigest req))
        || negb (String.eqb (b_Scope binding) (r_Scope req))
        || negb (String.eqb (b_SessionID binding) (r_SessionID req))
        || negb (String.eqb (b_Nonce binding) (r_Nonce req))
        || negb (b_PolicyEpoch binding =? r_PolicyEpoch req) || negb (b_TTL binding =? r_TTL req)
        || (b_EventSequence binding =? 0) ;;
      return Some ErrWorkflowBinding when
        match rec_Commit record with
        | Some commit => negb (String.eqb (b_ConfirmationID binding) (k_ConfirmationID commit))
        | None => negb (String.eqb (b_ConfirmationID binding) "")
                  && negb (String.eqb (b_ConfirmationID binding) (c_ConfirmationID (rec_Confirmation record)))
        end ;;
      return Some ErrWorkflowEventStale when
        negb (b_EventSequence binding =? latest_sequence requestID (g_audit g)) ;;
      None
  end.

(** ** Super batches *)

Definition binding_malformed (b : WorkflowBinding) : bool :=
  failed (ValidateIdentifier (b_ApprovalID b)) || negb (validDigest (b_IntentDigest b))
  || (negb (String.eqb (b_WorkflowDigest b) "") && failed (ValidateIdentifier (b_WorkflowDigest b)))
  || failed (ValidateIdentifier (b_Scope b)) || failed (ValidateIdentifier (b_SessionID b))
  || failed (ValidateIdentifier (b_Nonce b))
  || (negb (String.eqb (b_ConfirmationID b) "") && failed (ValidateIdentifier (b_ConfirmationID b)))
  || (b_PolicyEpoch b =? 0) || (b_EventSequence b =? 0) || (b_TTL b <=? 0).

Fixpoint batch_loop (baseEpoch : Z) (baseWorkflow : string) (seen : gset string)
    (bindings : list WorkflowBinding) : option ApErr :=
  match bindings with
  | [] => None
  | b :: bs =>
      return Some ErrBatchInvalid when binding_malformed b ;;
      return Some ErrBatchInvalid when
        negb (b_PolicyEpoch b =? baseEpoch) || negb (String.eqb (b_WorkflowDigest b) baseWorkflow) ;;
      return Some ErrBatchInvalid when bool_decide (b_ApprovalID b ∈ seen) ;;
      batch_loop baseEpoch baseWorkflow ({[b_ApprovalID b]} ∪ seen) bs
  end.

Definition ValidateSuperBatch (bindings : list WorkflowBinding) : option ApErr :=
  match bindings with
  | [] => Some ErrBatchInvalid
  | b :: _ => batch_loop (b_PolicyEpoch b) (b_WorkflowDigest b) ∅ bindings
  end.

(** ** Delegation *)

Record ApprovalDelegation := {
  d_ID : string;
  d_ApprovalID : string;
  d_Issuer : string;
  d_IssuerSessionID : string;
  d_Delegate : string;
  d_DelegateSessionID : string;
  d_Scope : string;
  d_IntentDigest : string;
  d_WorkflowDigest : string;
  d_PolicyEpoch : Z;
  d_IssuedAt : Time;
  d_ExpiresAt : Time;
  d_OneTime : bool;
  d_ParentID : string
}.

Definition delegation_broken (record : ApprovalRecord) (d : ApprovalDelegation) (now : Time) : bool :=
  let req := rec_Request record in
  failed (ValidateIdentifier (d_ID d)) || negb (String.eqb (d_ApprovalID d) (rec_ID record))
  || failed (ValidateIdentifier (d_Issuer d)) || failed (ValidateIdentifier (d_IssuerSessionID d))
  || failed (ValidateIdentifier (d_Delegate d)) || failed (ValidateIdentifier (d_DelegateSessionID d))
  || failed (ValidateIdentifier (d_Scope d)) || negb (validDigest (d_IntentDigest d))
  || (negb (String.eqb (d_WorkflowDigest d) "") && failed (ValidateIdentifier (d_WorkflowDigest d)))
  || negb (d_PolicyEpoch d =? r_PolicyEpoch req) || negb (String.eqb (d_Issuer d) (r_Actor req))
  || negb (String.eqb (d_IssuerSessionID d) (r_SessionID req))
  || negb (String.eqb (d_Scope d) (r_Scope req))
  || negb (String.eqb (d_IntentDigest d) (r_IntentDigest req))
  || negb (String.eqb (d_WorkflowDigest d) (r_WorkflowDigest req))
  || negb (d_OneTime d) || negb (String.eqb (d_ParentID d) "") || String.eqb (d_Issuer d) (d_Delegate d)
  || negb (Before (d_IssuedAt d) (d_ExpiresAt d)) || negb (Before now (d_ExpiresAt d))
  || After (d_ExpiresAt d) (rec_ExpiresAt record).

Definition ValidateApprovalDelegation (record : ApprovalRecord) (d : ApprovalDelegation) (now : Time)
  : option ApErr :=
  return Some ErrDelegationInvalid when
    String.eqb (rec_Status record) StatusRevoked || String.eqb (rec_Status record) StatusExpired
    || negb (Before now (rec_ExpiresAt record)) ;;
  if delegation_broken record d now then
    return Some ErrDelegationChain when negb (String.eqb (d_ParentID d) "") ;;
    return Some ErrDelegationSelf when String.eqb (d_Issuer d) (d_Delegate d) ;;
    Some ErrDelegationInvalid
  else None.

(** [DelegationLedger.used]. *)
Definition DelegationLedger : Type := gset string.
Definition NewDelegationLedger : DelegationLedger := ∅.

(** [DelegationLedger.Consume]. *)
Definition ConsumeDelegation (now : Time) (record : ApprovalRecord) (d : ApprovalDelegation)
    (l : DelegationLedger) : DelegationLedger * option ApErr :=
  match ValidateApprovalDelegation record d now with
  | Some e => (l, Some e)
  | None =>
      return (l, Some ErrDelegationReplay) when bool_decide (d_ID d ∈ l) ;;
      ({[d_ID d]} ∪ l, None)
  end.

(** A sequence of consumptions with their outcomes. *)
Fixpoint consume_all (calls : list (Time * ApprovalRecord * ApprovalDelegation)) (l : DelegationLedger)
  : DelegationLedger * list (option ApErr) :=
  match calls with
  | [] => (l, [])
  | (now, record, d) :: calls' =>
      let '(l1, r) := ConsumeDelegation now record d l in
      let '(l2, rs) := consume_all calls' l1 in
      (l2, r :: rs)
  end.

(** ** Theory *)

Lemma latest_sequence_bound id audit n :
  fold_left (fun latest e => if String.eqb (e_RequestID e) id && (latest <? e_Sequence e)
                             then e_Sequence e else latest) audit n >= n.
Proof.
  revert n. induction audit as [|e l IH]; intros n; cbn; [lia|].
  destruct (_ && _) eqn:E; [|apply IH]. props. specialize (IH (e_Sequence e)). lia.
Qed.

(** The sidecar's plan and the gate agree: a request that passes
    submission is approved at once, without any confirmation, exactly when the
    workflow plan routes it as auto-approved. *)
Theorem plan_agrees_with_gate {D} now req available (g : Gate D) g' r :
  submit_body now req g = (g', Ok r) ->
  exists plan, PlanWorkflow req available = Ok plan
    /\ (w_Route plan = WorkflowAutoApproved <-> rec_Status r = StatusApproved)
    /\ (w_RequiresInteractive plan = true <-> rec_Status r = StatusPending).
Proof.
  intros H. apply submit_body_cases in H as [[_ [? ?]]|(nreq & En & _ & _ & _ & [= ->])]; [done|].
  unfold PlanWorkflow. rewrite En. unfold submitted_record, pre_approved. cbn [rec_Status].
  assert (Hlow : String.eqb (r_Risk nreq) RiskEmergency = true ->
                 r_PreApproved nreq && String.eqb (r_Risk nreq) RiskLow && negb (sensitive nreq)
                 && negb (r_BreakGlass nreq) = false).
  { intros E%String.eqb_eq. rewrite E. cbn. by rewrite andb_false_r. }
  destruct (String.eqb (r_Risk nreq) RiskEmergency) eqn:Ee.
  - rewrite Hlow by done. eexists. split; [reflexivity|]. cbn. by split.
  - rewrite (andb_comm (String.eqb (r_Risk nreq) RiskLow) (r_PreApproved nreq)).
    destruct (r_PreApproved nreq && String.eqb (r_Risk nreq) RiskLow && negb (sensitive nreq)
                 && negb (r_BreakGlass nreq)); [|destruct (_ || _)];
      (eexists; split; [reflexivity|]; cbn; by split).
Qed.

(** A fresh snapshot validates, a stale one does not: the binding that the
    gate hands to the sidecar for an unexpired, unrevoked request passes
    validation against the same gate; and once a later audit event of the
    request is recorded, the same binding is refused, in particular as stale
    when nothing else of it changed. *)
Theorem workflow_binding_fresh {D} now id (g : Gate D) b :
  (forall r, g_requests g !! id = Some r -> rec_ID r = id) ->
  WorkflowBindingFor now id g = Ok b ->
  ValidateWorkflowBinding now id b g = None
  /\ forall (g' : Gate D) e, g_audit g' = g_audit g ++ [e] -> e_RequestID e = id -> b_EventSequence b < e_Sequence e ->
       ValidateWorkflowBinding now id b g' <> None.
Proof.
  intros Hid. unfold WorkflowBindingFor. destruct (g_requests g !! id) as [r|] eqn:Er; [|done].
  destruct (negb (Before now (rec_ExpiresAt r))) eqn:Eb; [done|].
  destruct (String.eqb (rec_Status r) StatusRevoked) eqn:Es; [done|].
  destruct (latest_sequence (rec_ID r) (g_audit g) =? 0) eqn:El; [done|]. intros [= <-].
  specialize (Hid r eq_refl). rewrite Hid in *. split.
  - unfold ValidateWorkflowBinding. rewrite Er, Es, Eb.
    cbn [b_ApprovalID b_ConfirmationID b_IntentDigest b_WorkflowDigest b_Scope b_SessionID b_Nonce
         b_PolicyEpoch b_EventSequence b_TTL].
    rewrite El, !String.eqb_refl, !Z.eqb_refl. cbn [negb orb].
    destruct (rec_Commit r); rewrite String.eqb_refl; cbn; [done|]. by rewrite andb_false_r.
  - intros g' e Ea Ee Hlt Hv. unfold ValidateWorkflowBinding in Hv. cbn [b_EventSequence] in Hlt, Hv.
    destruct (g_requests g' !! id); [|done]. rewrite !guard_None in Hv. destruct Hv as (_ & _ & _ & _ & Hv & _).
    assert (El' : latest_sequence id (g_audit g') = e_Sequence e).
    { unfold latest_sequence in *. rewrite Ea, fold_left_app. cbn. rewrite Ee, String.eqb_refl.
      apply Z.ltb_lt in Hlt. by rewrite Hlt. }
    rewrite El' in Hv. props. lia.
Qed.

Lemma batch_loop_spec epoch wf seen bs :
  batch_loop epoch wf seen bs = None <->
  Forall (fun b => binding_malformed b = false /\ b_PolicyEpoch b = epoch /\ b_WorkflowDigest b = wf) bs
  /\ NoDup (map b_ApprovalID bs) /\ Forall (fun b => b_ApprovalID b ∉ seen) bs.
Proof.
  revert seen. induction bs as [|b bs IH]; intros seen; cbn.
  - repeat split; try done; constructor.
  - rewrite !guard_None, IH. guards. rewrite NoDup_cons, !Forall_cons, list_elem_of_fmap, !Forall_forall.
    setoid_rewrite not_elem_of_union. setoid_rewrite not_elem_of_singleton. naive_solver.
Qed.

(** The prepare barrier of a super batch: it opens exactly for a non-empty
    batch of well-formed bindings of one policy epoch and one workflow in
    which no approval appears twice. *)
Theorem super_batch_iff bs :
  ValidateSuperBatch bs = None <->
  exists b rest, bs = b :: rest /\ NoDup (map b_ApprovalID bs)
    /\ Forall (fun x => binding_malformed x = false /\ b_PolicyEpoch x = b_PolicyEpoch b
                        /\ b_WorkflowDigest x = b_WorkflowDigest b) bs.
Proof.
  unfold ValidateSuperBatch. destruct bs as [|b bs]; [by split; [done|intros (? & ? & ? & _)]|].
  rewrite batch_loop_spec. split.
  - intros (H1 & H2 & _). exists b, bs. auto.
  - intros (? & ? & [= <- <-] & H1 & H2). repeat split; [done|done|].
    apply Forall_forall. intros x _. apply not_elem_of_empty.
Qed.

Lemma ConsumeDelegation_cases now record d l :
  (fst (ConsumeDelegation now record d l) = l /\ snd (ConsumeDelegation now record d l) <> None)
  \/ (d_ID d ∉ l /\ ValidateApprovalDelegation record d now = None
      /\ ConsumeDelegation now record d l = ({[d_ID d]} ∪ l, None)).
Proof.
  unfold ConsumeDelegation. destruct (ValidateApprovalDelegation record d now); [by left|].
  destruct (bool_decide_reflect (d_ID d ∈ l)); [by left|by right].
Qed.

Lemma consume_all_used calls l i now record d :
  calls !! i = Some (now, record, d) -> d_ID d ∈ l -> snd (consume_all calls l) !! i <> Some None.
Proof.
  revert l i. induction calls as [|[[n r] d0] calls IH]; intros l i Hi Hl; [done|]. cbn [consume_all].
  destruct (ConsumeDelegation n r d0 l) as [l1 o] eqn:E. destruct (consume_all calls l1) as [l2 rs] eqn:E2.
  destruct (ConsumeDelegation_cases n r d0 l) as [[H1 H2]|(Hn & _ & H2)]; rewrite E in *; cbn in *.
  - subst l1. destruct i as [|i]; cbn in *; [congruence|].
    specialize (IH l i Hi Hl). by rewrite E2 in IH.
  - injection H2 as -> ->. destruct i as [|i]; cbn in *; [by injection Hi as -> -> ->|].
    specialize (IH ({[d_ID d0]} ∪ l) i Hi). rewrite E2 in IH. apply IH. set_solver.
Qed.

(** A delegation is one-time: in any sequence of consumptions, of two
    successful ones at most one uses a given delegation identifier, and each
    success had a valid, unexpired, unchained delegation from the requester
    to somebody else. *)
Theorem delegation_consumed_once calls l i j ni ri di nj rj dj :
  (i < j)%nat -> calls !! i = Some (ni, ri, di) -> calls !! j = Some (nj, rj, dj) ->
  snd (consume_all calls l) !! i = Some None ->
  (ValidateApprovalDelegation ri di ni = None /\ d_Issuer di <> d_Delegate di /\ d_ParentID di = "")
  /\ (d_ID di = d_ID dj -> snd (consume_all calls l) !! j <> Some None).
Proof.
  revert l i j. induction calls as [|[[n r] d0] calls IH]; intros l i j Hij Hi Hj; [done|]. cbn [consume_all].
  destruct (ConsumeDelegation n r d0 l) as [l1 o] eqn:E. destruct (consume_all calls l1) as [l2 rs] eqn:E2.
  destruct j as [|j]; [lia|]. destruct i as [|i]; cbn in *.
  - injection Hi as -> -> ->. intros [= ->].
    destruct (ConsumeDelegation_cases ni ri di l) as [[_ H2]|(Hn & Hv & H2)]; rewrite E in *; [done|].
    injection H2 as ->. split.
    + split; [done|]. unfold ValidateApprovalDelegation in Hv. destruct (_ || _); [done|].
      destruct (delegation_broken ri di ni) eqn:Eb; [branch Hv|].
      unfold delegation_broken in Eb. revert Eb. guards. tauto.
    + intros Eid. pose proof (consume_all_used calls ({[d_ID di]} ∪ l) j nj rj dj Hj) as Hc.
      rewrite E2 in Hc. apply Hc. rewrite <- Eid. set_solver.
  - intros H. specialize (IH l1 i j ltac:(lia) Hi Hj). rewrite E2 in IH. by apply IH.
Qed.
