(* ===== verification/Tokens.v ===== *)
(** * Scoped management tokens (internal/tokens/manager.go)

    [Manager] issues tokens with an immutable set of permissions and
    resources, authorizes their use, and destroys expired or inactive ones at
    a coalesced deadline. A mutex makes every operation atomic; the time is an
    argument. The random source is a list of 48-byte draws, after which it
    fails: any behaviour of [rand.Read] until its first error. *)

From stdpp Require Import sorting.
From S2P Require Import Prelude GoText Sha256.

Open Scope list_scope.
Open Scope Z_scope.
Open Scope go_scope.

(** ** Constants and errors *)

Definition DefaultTTL : Duration := 90 * 24 * Hour.
Definition MaxTTL : Duration := 365 * 24 * Hour.
Definition InactivityTTL : Duration := 180 * 24 * Hour.
Definition CleanupDelay : Duration := 10 * Minute.

Inductive TokErr :=
| TErrInvalidRequest | TErrInvalidTTL | TErrTTLExceeded | TErrSecondConfirmationRequired
| TErrNotFound | TErrInvalidSecret | TErrPermissionDenied | TErrResourceDenied | TErrExpired
| TErrInactive | TErrDisabled | TErrRevoked | TErrAlreadyDisabled | TErrAlreadyRevoked
| TErrInvalidTime | TErrRandom.

Definition EventCreated : string := "created".
Definition EventAuthorized : string := "authorized".
Definition EventDisabled : string := "disabled".
Definition EventRevoked : string := "revoked".
Definition EventAutoDestroyed : string := "auto_destroyed".

(** ** Data *)

Record CreateRequest := {
  q_Owner : string;
  q_Permissions : list string;
  q_Resources : list string;
  q_Scopes : list string;
  q_Note : string;
  q_PolicyEpoch : Z;
  q_TTL : Duration;
  q_NeverExpire : bool;
  q_ConfirmNeverExpire : bool
}.

Record Metadata := {
  t_ID : string;
  t_Owner : string;
  t_Permissions : list string;
  t_Resources : list string;
  t_Scopes : list string;
  t_Note : string;
  t_PolicyEpoch : Z;
  t_CreatedAt : Time;
  t_ExpiresAt : Time;
  t_NeverExpire : bool;
  t_Disabled : bool;
  t_Revoked : bool;
  t_LastActivityAt : Time
}.

Record Lifetime := { l_ExpiresAt : Time; l_NeverExpire : bool }.

Record Event := {
  ev_Sequence : Z;
  ev_Type : string;
  ev_At : Time;
  ev_TokenID : string;
  ev_Actor : string;
  ev_Reason : string;
  ev_Notification : bool
}.

(** The struct [record]: the secret is a SHA-256 digest. *)
Record token := { metadata : Metadata; secret : list Z }.

Record Manager := {
  tokens : gmap string token;
  events : list Event;
  sequence : Z;
  cleanupAt : Time;
  firstCreation : Time;
  lastCreation : Time
}.

Definition NewManager : Manager :=
  {| tokens := ∅; events := []; sequence := 0; cleanupAt := 0; firstCreation := 0; lastCreation := 0 |}.

(** ** Pure helpers *)

Definition strictIdentity (value : string) : bool :=
  negb (String.eqb value "") && negb (existsb opaque_rune (runes value)).

Fixpoint normalize_loop (seen : gset string) (values : list string) : option (list string) :=
  match values with
  | [] => Some []
  | v :: vs =>
      return None when negb (strictIdentity v) ;;
      if bool_decide (v ∈ seen) then normalize_loop seen vs
      else cons v <$> normalize_loop ({[v]} ∪ seen) vs
  end.

(** [None] is the result [(nil, false)]. *)
Definition normalize (values : list string) : list string * bool :=
  match normalize_loop ∅ values with
  | None => ([], false)
  | Some out => (out, negb (Z.of_nat (length out) =? 0))
  end.

Definition matches (values : list string) (wanted : string) : bool :=
  return false when String.eqb wanted "" ;;
  existsb (fun value => String.eqb value wanted || String.eqb value "*") values.

Definition ResolveLifetime (now : Time) (ttl : Duration) (expiresAt : Time)
    (neverExpire confirmNeverExpire : bool) : result TokErr Lifetime :=
  return Err TErrInvalidTTL when IsZero now ;;
  if neverExpire then
    return Err TErrSecondConfirmationRequired when negb confirmNeverExpire ;;
    return Err TErrInvalidTTL when negb (ttl =? 0) || negb (IsZero expiresAt) ;;
    Ok {| l_ExpiresAt := 0; l_NeverExpire := true |}
  else
    return Err TErrInvalidTTL when (ttl <? 0) || (negb (IsZero expiresAt) && negb (ttl =? 0)) ;;
    if negb (IsZero expiresAt) then
      return Err TErrInvalidTTL when negb (After expiresAt now) ;;
      return Err TErrTTLExceeded when After expiresAt (TimeAdd now MaxTTL) ;;
      Ok {| l_ExpiresAt := expiresAt; l_NeverExpire := false |}
    else
      let ttl := if ttl =? 0 then DefaultTTL else ttl in
      return Err TErrInvalidTTL when ttl <=? 0 ;;
      return Err TErrTTLExceeded when MaxTTL <? ttl ;;
      Ok {| l_ExpiresAt := TimeAdd now ttl; l_NeverExpire := false |}.

Definition minTime (a b : Time) : Time := if Before a b then a else b.

Definition hashSecret (s : string) : list Z := sum_string s.

(** The credential made of one draw of 48 random bytes: identifier, secret, digest. *)
Definition credential (raw : list Z) : string * string * list Z :=
  let sec := EncodeHex raw in
  (("tok_" ++ EncodeHex (take 16 raw))%string, sec, hashSecret sec).

(** ** Operations *)

Definition appendEvent (m : Manager) (at_ : Time) (typ id actor reason : string) (notification : bool)
  : Manager :=
  let seq := u64 (sequence m + 1) in
  {| tokens := tokens m;
     events := events m ++ [{| ev_Sequence := seq; ev_Type := typ; ev_At := at_; ev_TokenID := id;
                               ev_Actor := actor; ev_Reason := reason;
                               ev_Notification := notification |}];
     sequence := seq; cleanupAt := cleanupAt m; firstCreation := firstCreation m;
     lastCreation := lastCreation m |}.

Definition set_tokens (m : Manager) (ts : gmap string token) : Manager :=
  {| tokens := ts; events := events m; sequence := sequence m; cleanupAt := cleanupAt m;
     firstCreation := firstCreation m; lastCreation := lastCreation m |}.

Definition set_timer (m : Manager) (cleanup first last : Time) : Manager :=
  {| tokens := tokens m; events := events m; sequence := sequence m; cleanupAt := cleanup;
     firstCreation := first; lastCreation := last |}.

(** The first credential whose identifier is free, or the random source's failure. *)
Fixpoint fresh_credential (draws : list (list Z)) (ts : gmap string token)
  : result TokErr (string * string * list Z) :=
  match draws with
  | [] => Err TErrRandom
  | raw :: draws' =>
      if has ts (fst (fst (credential raw))) then fresh_credential draws' ts else Ok (credential raw)
  end.

(** The resources of a request: [Resources], or [Scopes], or both merged. *)
Definition request_resources (req : CreateRequest) : list string * bool :=
  let '(resources, ok) := normalize (q_Resources req) in
  if Z.of_nat (length (q_Resources req)) =? 0 then normalize (q_Scopes req)
  else if 0 <? Z.of_nat (length (q_Scopes req)) then
    let '(aliases, aliasesOK) := normalize (q_Scopes req) in
    if negb aliasesOK then ([], false) else normalize (resources ++ aliases)
  else (resources, ok).

Definition new_metadata (now : Time) (req : CreateRequest) (id : string) (permissions resources : list string)
    (lifetime : Lifetime) : Metadata :=
  {| t_ID := id; t_Owner := q_Owner req; t_Permissions := permissions; t_Resources := resources;
     t_Scopes := resources; t_Note := q_Note req; t_PolicyEpoch := q_PolicyEpoch req;
     t_CreatedAt := now; t_ExpiresAt := l_ExpiresAt lifetime; t_NeverExpire := l_NeverExpire lifetime;
     t_Disabled := false; t_Revoked := false; t_LastActivityAt := now |}.

(** The issued metadata and plaintext secret. *)
Definition Create (draws : list (list Z)) (now : Time) (req : CreateRequest) (m : Manager)
  : Manager * result TokErr (Metadata * string) :=
  return (m, Err TErrInvalidRequest) when
    negb (strictIdentity (q_Owner req)) || (Z.of_nat (length (q_Permissions req)) =? 0)
    || ((Z.of_nat (length (q_Resources req)) =? 0) && (Z.of_nat (length (q_Scopes req)) =? 0))
    || (q_PolicyEpoch req =? 0) || IsZero now ;;
  let '(permissions, ok) := normalize (q_Permissions req) in
  return (m, Err TErrInvalidRequest) when negb ok ;;
  let '(resources, ok) := request_resources req in
  return (m, Err TErrInvalidRequest) when negb ok ;;
  match ResolveLifetime now (q_TTL req) 0 (q_NeverExpire req) (q_ConfirmNeverExpire req) with
  | Err e => (m, Err e)
  | Ok lifetime =>
      match fresh_credential draws (tokens m) with
      | Err e => (m, Err e)
      | Ok (id, sec, digest) =>
          let meta := new_metadata now req id permissions resources lifetime in
          let m := set_tokens m (<[id := {| metadata := meta; secret := digest |}]> (tokens m)) in
          let first := if IsZero (firstCreation m) then now else firstCreation m in
          let m := set_timer m (minTime (TimeAdd now CleanupDelay) (TimeAdd first Hour)) first now in
          (appendEvent m now EventCreated id (q_Owner req) "" false, Ok (meta, sec))
      end
  end.

Definition Get (id : string) (m : Manager) : option Metadata :=
  return None when negb (strictIdentity id) ;;
  metadata <$> tokens m !! id.

(** Sorted by identifier, in byte order. *)
Definition id_le (a b : Metadata) : Prop := String.leb (t_ID a) (t_ID b) = true.
#[export] Instance id_le_dec a b : Decision (id_le a b).
Proof. unfold id_le. apply _. Defined.

Definition List_ (m : Manager) : list Metadata :=
  merge_sort id_le (map (fun p => metadata (snd p)) (map_to_list (tokens m))).

(** [r.metadata.LastActivityAt = now]. *)
Definition touch (r : token) (now : Time) : token :=
  let t := metadata r in
  {| metadata := {| t_ID := t_ID t; t_Owner := t_Owner t; t_Permissions := t_Permissions t;
                    t_Resources := t_Resources t; t_Scopes := t_Scopes t; t_Note := t_Note t;
                    t_PolicyEpoch := t_PolicyEpoch t; t_CreatedAt := t_CreatedAt t;
                    t_ExpiresAt := t_ExpiresAt t; t_NeverExpire := t_NeverExpire t;
                    t_Disabled := t_Disabled t; t_Revoked := t_Revoked t; t_LastActivityAt := now |};
     secret := secret r |}.

(** [r.metadata.Disabled = d; r.metadata.Revoked = v]. *)
Definition with_flags (r : token) (d v : bool) : token :=
  let t := metadata r in
  {| metadata := {| t_ID := t_ID t; t_Owner := t_Owner t; t_Permissions := t_Permissions t;
                    t_Resources := t_Resources t; t_Scopes := t_Scopes t; t_Note := t_Note t;
                    t_PolicyEpoch := t_PolicyEpoch t; t_CreatedAt := t_CreatedAt t;
                    t_ExpiresAt := t_ExpiresAt t; t_NeverExpire := t_NeverExpire t;
                    t_Disabled := d; t_Revoked := v; t_LastActivityAt := t_LastActivityAt t |};
     secret := secret r |}.

Definition expired (t : Metadata) (now : Time) : bool := negb (t_NeverExpire t) && negb (Before now (t_ExpiresAt t)).
Definition inactive (t : Metadata) (now : Time) : bool := InactivityTTL <=? TimeSub now (t_LastActivityAt t).

(** The refusals of [Authorize] for a stored token. *)
Definition authorize_check (now : Time) (r : token) (sec permission resource : string) : option TokErr :=
  let t := metadata r in
  return Some TErrInvalidTime when
    IsZero now || Before now (t_CreatedAt t) || Before now (t_LastActivityAt t) ;;
  return Some TErrInvalidSecret when negb (bool_decide (hashSecret sec = secret r)) ;;
  return Some TErrRevoked when t_Revoked t ;;
  return Some TErrDisabled when t_Disabled t ;;
  return Some TErrExpired when expired t now ;;
  return Some TErrInactive when inactive t now ;;
  return Some TErrPermissionDenied when negb (matches (t_Permissions t) permission) ;;
  return Some TErrResourceDenied when negb (matches (t_Resources t) resource) ;;
  None.

Definition Authorize (now : Time) (id sec permission resource : string) (m : Manager)
  : Manager * result TokErr Metadata :=
  return (m, Err TErrInvalidRequest) when
    negb (strictIdentity id) || negb (strictIdentity permission) || negb (strictIdentity resource) ;;
  match tokens m !! id with
  | None => (m, Err TErrNotFound)
  | Some r =>
      match authorize_check now r sec permission resource with
      | Some e => (m, Err e)
      | None =>
          let r := touch r now in
          (appendEvent (set_tokens m (<[id := r]> (tokens m))) now EventAuthorized id
             (t_Owner (metadata r)) "" false, Ok (metadata r))
      end
  end.

Definition setStatus (now : Time) (id reason : string) (revoke : bool) (m : Manager)
  : Manager * result TokErr unit :=
  return (m, Err TErrInvalidRequest) when negb (strictIdentity id) ;;
  match tokens m !! id with
  | None => (m, Err TErrNotFound)
  | Some r =>
      let t := metadata r in
      return (m, Err TErrInvalidTime) when IsZero now || Before now (t_CreatedAt t) ;;
      if revoke then
        return (m, Err TErrAlreadyRevoked) when t_Revoked t ;;
        (appendEvent (set_tokens m (<[id := with_flags r (t_Disabled t) true]> (tokens m))) now
           EventRevoked id (t_Owner t) reason false, Ok tt)
      else
        return (m, Err TErrAlreadyDisabled) when t_Disabled t ;;
        (appendEvent (set_tokens m (<[id := with_flags r true (t_Revoked t)]> (tokens m))) now
           EventDisabled id (t_Owner t) reason false, Ok tt)
  end.

Definition Disable (now : Time) (id reason : string) (m : Manager) := setStatus now id (TrimSpace reason) false m.
Definition Revoke (now : Time) (id reason : string) (m : Manager) := setStatus now id (TrimSpace reason) true m.

Definition NextCleanupAt (m : Manager) : Time := cleanupAt m.
Definition Events (m : Manager) : list Event := events m.

Definition stale (t : Metadata) (now : Time) : bool := expired t now || inactive t now.

(** One iteration of the clean-up loop. *)
Definition cleanup_step (now : Time) (acc : Manager * Z) (entry : string * token) : Manager * Z :=
  let '(m, removed) := acc in
  let '(id, r) := entry in
  if negb (stale (metadata r) now) then (m, removed)
  else (appendEvent (set_tokens m (delete id (tokens m))) now EventAutoDestroyed id (t_Owner (metadata r))
          (if expired (metadata r) now then "expired" else "inactive") true, removed + 1).

(** [order] lists the map in the order the runtime picks for [range]. *)
Definition Cleanup (order : list (string * token)) (now : Time) (m : Manager) : Manager * Z :=
  return (m, 0) when IsZero now || IsZero (cleanupAt m) || Before now (cleanupAt m) ;;
  let '(m, removed) := fold_left (cleanup_step now) order (m, 0) in
  (if Z.of_nat (size (tokens m)) =? 0 then set_timer m 0 0 0
   else set_timer m (TimeAdd now CleanupDelay) (firstCreation m) (lastCreation m), removed).

(** ** Runs *)

Inductive tok_op :=
| TCreate (draws : list (list Z)) (now : Time) (req : CreateRequest)
| TAuthorize (now : Time) (id sec permission resource : string)
| TDisable (now : Time) (id reason : string)
| TRevoke (now : Time) (id reason : string)
| TCleanup (order : gmap string token -> list (string * token)) (now : Time).

Definition exec_tok (o : tok_op) (m : Manager) : Manager * option TokErr :=
  let err {A} (r : result TokErr A) := match r with Ok _ => None | Err e => Some e end in
  match o with
  | TCreate draws now req => let '(m', r) := Create draws now req m in (m', err r)
  | TAuthorize now id sec p q => let '(m', r) := Authorize now id sec p q m in (m', err r)
  | TDisable now id reason => let '(m', r) := Disable now id reason m in (m', err r)
  | TRevoke now id reason => let '(m', r) := Revoke now id reason m in (m', err r)
  | TCleanup order now => (fst (Cleanup (order (tokens m)) now m), None)
  end.

Fixpoint run_tok (ops : list tok_op) (m : Manager) : Manager * list (tok_op * option TokErr) :=
  match ops with
  | [] => (m, [])
  | o :: ops' =>
      let '(m1, r) := exec_tok o m in
      let '(m2, log) := run_tok ops' m1 in (m2, (o, r) :: log)
  end.

(** [range] visits every entry once. *)
Definition fair (o : tok_op) : Prop :=
  match o with TCleanup order _ => forall m, order m ≡ₚ map_to_list m | _ => True end.

(** ** Authorization *)

(** What a token must satisfy to be used. *)
Record usable (now : Time) (r : token) (sec permission resource : string) : Prop := {
  u_clock : now <> 0 /\ t_CreatedAt (metadata r) <= now /\ t_LastActivityAt (metadata r) <= now;
  u_secret : hashSecret sec = secret r;
  u_status : t_Revoked (metadata r) = false /\ t_Disabled (metadata r) = false;
  u_lifetime : t_NeverExpire (metadata r) = true \/ now < t_ExpiresAt (metadata r);
  u_active : now < t_LastActivityAt (metadata r) + InactivityTTL;
  u_permission : permission <> "" /\ (permission ∈ t_Permissions (metadata r) \/ "*" ∈ t_Permissions (metadata r));
  u_resource : resource <> "" /\ (resource ∈ t_Resources (metadata r) \/ "*" ∈ t_Resources (metadata r))
}.

Lemma matches_spec values wanted :
  matches values wanted = true <-> wanted <> "" /\ (wanted ∈ values \/ "*" ∈ values).
Proof.
  unfold matches. destruct (String.eqb_spec wanted ""); [naive_solver|]. rewrite existsb_exists.
  setoid_rewrite orb_true_iff. setoid_rewrite String.eqb_eq. setoid_rewrite list_elem_of_In. naive_solver.
Qed.

Lemma inactive_false t now : inactive t now = false <-> now < t_LastActivityAt t + InactivityTTL.
Proof.
  unfold inactive. rewrite TimeSub_le_pos, Z.leb_gt by done. unfold InactivityTTL, Hour, Minute, Second. lia.
Qed.

Lemma expired_false t now : expired t now = false <-> t_NeverExpire t = true \/ now < t_ExpiresAt t.
Proof.
  unfold expired, Before. rewrite andb_false_iff, !negb_false_iff, Z.ltb_lt. done.
Qed.

Lemma authorize_check_None now r sec p q : authorize_check now r sec p q = None <-> usable now r sec p q.
Proof.
  unfold authorize_check, IsZero, Before. split.
  - intros H. rewrite !guard_None in H. destruct H as (H1 & H2 & H3 & H4 & H5 & H6 & H7 & H8 & _). props.
    constructor; [done..| | | |]; [by apply expired_false|by apply inactive_false|by apply matches_spec..].
  - intros [(H1 & H2 & H3) H4 [H5 H6] H7%expired_false H8%inactive_false H9%matches_spec H10%matches_spec].
    rewrite H5, H6, H7, H8, H9, H10. cbn [negb].
    assert ((now =? 0) || (now <? t_CreatedAt (metadata r)) || (now <? t_LastActivityAt (metadata r)) = false) as ->.
    { rewrite !orb_false_iff, Z.eqb_neq, !Z.ltb_ge. auto. }
    by rewrite bool_decide_eq_true_2.
Qed.

(** Every branch. *)
Lemma Authorize_spec now id sec permission resource m :
  let '(m', r) := Authorize now id sec permission resource m in
  match r with
  | Ok meta =>
      exists t, tokens m !! id = Some t /\ usable now t sec permission resource
        /\ meta = metadata (touch t now) /\ tokens m' = <[id := touch t now]> (tokens m)
        /\ exists e, events m' = events m ++ [e] /\ ev_Type e = EventAuthorized /\ ev_TokenID e = id
  | Err _ =>
      m' = m /\ ~ (strictIdentity id = true /\ strictIdentity permission = true
                   /\ strictIdentity resource = true
                   /\ exists t, tokens m !! id = Some t /\ usable now t sec permission resource)
  end.
Proof.
  unfold Authorize. destruct (_ || _) eqn:Es.
  { split; [done|]. intros (H1 & H2 & H3 & _). by rewrite H1, H2, H3 in Es. }
  destruct (tokens m !! id) as [t|] eqn:Et; [|split; [done|naive_solver]].
  destruct (authorize_check now t sec permission resource) eqn:Ec.
  - split; [done|]. intros (_ & _ & _ & t' & [= <-] & Hu).
    rewrite <- authorize_check_None in Hu. congruence.
  - apply authorize_check_None in Ec. exists t.
    split; [done|]. split; [done|]. split; [done|]. split; [done|]. eexists. by repeat split.
Qed.

(** Token authorization, both ways: it succeeds exactly for strict
    identifiers naming a stored token that is usable (right secret, not
    revoked nor disabled, unexpired, active within 180 days, permission and
    resource granted literally or by a star); a success only moves the
    token's last activity and appends one event, and a refusal changes
    nothing at all. *)
Theorem token_authorize_iff now id sec permission resource m :
  let '(m', r) := Authorize now id sec permission resource m in
  match r with
  | Ok meta =>
      exists t, tokens m !! id = Some t /\ usable now t sec permission resource
        /\ meta = metadata (touch t now) /\ tokens m' = <[id := touch t now]> (tokens m)
        /\ exists e, events m' = events m ++ [e] /\ ev_Type e = EventAuthorized /\ ev_TokenID e = id
  | Err _ =>
      m' = m /\ ~ (strictIdentity id = true /\ strictIdentity permission = true
                   /\ strictIdentity resource = true
                   /\ exists t, tokens m !! id = Some t /\ usable now t sec permission resource)
  end.
Proof. apply Authorize_spec. Qed.

(** ** Well-formed managers *)

Record token_ok (id : string) (r : token) : Prop := {
  ok_id : t_ID (metadata r) = id;
  ok_owner : strictIdentity (t_Owner (metadata r)) = true;
  ok_scope : t_Permissions (metadata r) <> [] /\ t_Resources (metadata r) <> []
             /\ NoDup (t_Permissions (metadata r)) /\ NoDup (t_Resources (metadata r))
             /\ Forall (fun v => strictIdentity v = true) (t_Permissions (metadata r) ++ t_Resources (metadata r));
  ok_created : t_CreatedAt (metadata r) <> 0;
  ok_activity : t_CreatedAt (metadata r) <= t_LastActivityAt (metadata r);
  ok_lifetime : if t_NeverExpire (metadata r) then t_ExpiresAt (metadata r) = 0
                else t_CreatedAt (metadata r) < t_ExpiresAt (metadata r) <= t_CreatedAt (metadata r) + MaxTTL;
  ok_secret : exists sec, secret r = hashSecret sec
}.

Definition manager_ok (m : Manager) : Prop := forall id r, tokens m !! id = Some r -> token_ok id r.

Lemma normalize_loop_spec seen values out :
  normalize_loop seen values = Some out ->
  NoDup out /\ Forall (fun v => strictIdentity v = true /\ v ∉ seen) out
  /\ (forall v, v ∈ out <-> v ∈ values /\ v ∉ seen) /\ Forall (fun v => strictIdentity v = true) values.
Proof.
  revert seen out. induction values as [|v vs IH]; intros seen out; cbn.
  { intros [= <-]. split_and!; [constructor|constructor|set_solver|constructor]. }
  destruct (strictIdentity v) eqn:Ev; cbn [negb]; [|done].
  destruct (bool_decide_reflect (v ∈ seen)).
  - intros H. apply IH in H as (H1 & H2 & H3 & H4). split_and!; [done|done| |by constructor].
    intros x. rewrite H3. set_solver.
  - destruct (normalize_loop ({[v]} ∪ seen) vs) as [out'|] eqn:E; [|done]. intros [= <-].
    apply IH in E as (H1 & H2 & H3 & H4).
    assert (Hv : v ∉ out') by (intros Hin; apply H3 in Hin as [_ Hn]; set_solver).
    split_and!; [by constructor| | |by constructor].
    + constructor; [done|]. eapply Forall_impl; [exact H2|]. cbn. intros x [? Hx]. split; [done|set_solver].
    + intros x. rewrite elem_of_cons, H3. destruct (decide (x = v)) as [-> |]; set_solver.
Qed.

Lemma normalize_spec values out :
  normalize values = (out, true) ->
  out <> [] /\ NoDup out /\ Forall (fun v => strictIdentity v = true) out /\ (forall v, v ∈ out <-> v ∈ values)
  /\ Forall (fun v => strictIdentity v = true) values.
Proof.
  unfold normalize. destruct (normalize_loop ∅ values) as [o|] eqn:E; [|done].
  intros [= <- Hl]. props. apply normalize_loop_spec in E as (H1 & H2 & H3 & H4).
  split_and!; try done.
  - by intros ->.
  - eapply Forall_impl; [exact H2|]. by intros ? [? _].
  - intros x. rewrite H3. set_solver.
Qed.

Lemma request_resources_spec req out :
  request_resources req = (out, true) ->
  out <> [] /\ NoDup out /\ Forall (fun v => strictIdentity v = true) out.
Proof.
  unfold request_resources. destruct (normalize (q_Resources req)) as [rs ok] eqn:Er.
  destruct (_ =? 0); [intros (? & ? & ? & _)%normalize_spec; done|].
  destruct (0 <? _).
  - destruct (normalize (q_Scopes req)) as [aliases ok2]. destruct (negb ok2); [done|].
    by intros (? & ? & ? & _)%normalize_spec.
  - intros [= <- ->]. by apply normalize_spec in Er as (? & ? & ? & _).
Qed.

Lemma ResolveLifetime_spec now ttl expiresAt never confirm l :
  ResolveLifetime now ttl expiresAt never confirm = Ok l ->
  now <> 0 /\ l_NeverExpire l = never
  /\ (if never then l_ExpiresAt l = 0 /\ confirm = true /\ ttl = 0 /\ expiresAt = 0
      else now < l_ExpiresAt l <= now + MaxTTL
           /\ l_ExpiresAt l = (if decide (expiresAt = 0) then now + (if decide (ttl = 0) then DefaultTTL else ttl)
                               else expiresAt)).
Proof.
  unfold ResolveLifetime, IsZero, After, TimeAdd.
  destruct (Z.eqb_spec now 0); [done|]. destruct never.
  - destruct confirm; [|done]. cbn [negb]. destruct (_ || _) eqn:E; [done|]. props. by intros [= <-].
  - destruct (_ || _) eqn:E; [done|]. destruct (negb (expiresAt =? 0)) eqn:Ex; props.
    + destruct (Z.ltb_spec now expiresAt); cbn [negb]; [|done].
      destruct (Z.ltb_spec (now + MaxTTL) expiresAt); [done|]. intros [= <-]. cbn.
      rewrite decide_False by done. auto.
    + rewrite decide_True by done. subst expiresAt.
      set (t := if ttl =? 0 then DefaultTTL else ttl).
      assert (Et : (if decide (ttl = 0) then DefaultTTL else ttl) = t) by (unfold t; destruct (Z.eqb_spec ttl 0), (decide (ttl = 0)); congruence).
      destruct (Z.leb_spec t 0); [done|]. destruct (Z.ltb_spec MaxTTL t); [done|]. intros [= <-]. cbn.
      rewrite Et. split_and!; lia.
Qed.

(** A successful creation. *)
Lemma Create_ok draws now req m m' meta sec :
  Create draws now req m = (m', Ok (meta, sec)) ->
  exists id permissions resources lifetime digest,
    tokens m !! id = None
    /\ normalize (q_Permissions req) = (permissions, true) /\ request_resources req = (resources, true)
    /\ strictIdentity (q_Owner req) = true
    /\ ResolveLifetime now (q_TTL req) 0 (q_NeverExpire req) (q_ConfirmNeverExpire req) = Ok lifetime
    /\ meta = new_metadata now req id permissions resources lifetime
    /\ digest = hashSecret sec /\ (exists raw, raw ∈ draws /\ credential raw = (id, sec, digest))
    /\ tokens m' = <[id := {| metadata := meta; secret := digest |}]> (tokens m)
    /\ cleanupAt m' = minTime (TimeAdd now CleanupDelay)
                        (TimeAdd (if IsZero (firstCreation m) then now else firstCreation m) Hour).
Proof.
  unfold Create. destruct (_ || _) eqn:Eo; [done|]. props.
  destruct (normalize (q_Permissions req)) as [permissions ok1] eqn:Ep. destruct ok1; cbn [negb]; [|done].
  destruct (request_resources req) as [resources ok2] eqn:Er. destruct ok2; cbn [negb]; [|done].
  destruct (ResolveLifetime _ _ _ _ _) as [lifetime|] eqn:El; [|done].
  destruct (fresh_credential draws (tokens m)) as [[[id s] digest]|] eqn:Ef; [|done]. intros [= <- <- <-].
  assert (Hf : tokens m !! id = None /\ exists raw, raw ∈ draws /\ credential raw = (id, s, digest)).
  { clear -Ef. induction draws as [|raw draws IH]; cbn [fresh_credential] in Ef; [done|].
    destruct (has _ _) eqn:E.
    - destruct (IH Ef) as (? & raw' & ? & ?). split; [done|]. exists raw'. split; [by right|done].
    - assert (E1 : credential raw = (id, s, digest)) by congruence. apply has_false in E. rewrite E1 in E.
      split; [done|]. exists raw. by split; [left|]. }
  destruct Hf as (Hn & raw & Hin & Hraw). exists id, permissions, resources, lifetime, digest.
  assert (digest = hashSecret s) as -> by (unfold credential in Hraw; congruence).
  split_and!; try done. by exists raw.
Qed.

Lemma manager_ok_put m ts id r :
  manager_ok m -> ts = <[id := r]> (tokens m) -> token_ok id r -> manager_ok (set_tokens m ts).
Proof.
  intros Hm -> Hr id' r'. cbn. rewrite lookup_insert_Some. intros [[<- <-]|[_ H]]; auto.
Qed.

Lemma token_ok_created now req id permissions resources lifetime sec :
  normalize (q_Permissions req) = (permissions, true) -> request_resources req = (resources, true) ->
  strictIdentity (q_Owner req) = true ->
  ResolveLifetime now (q_TTL req) 0 (q_NeverExpire req) (q_ConfirmNeverExpire req) = Ok lifetime ->
  token_ok id {| metadata := new_metadata now req id permissions resources lifetime; secret := hashSecret sec |}.
Proof.
  intros (Hp1 & Hp2 & Hp3 & _)%normalize_spec (Hr1 & Hr2 & Hr3)%request_resources_spec Ho
    (Hnow & Hn & Hl)%ResolveLifetime_spec.
  constructor; cbn; [done|done| |done|lia| |by exists sec].
  - split_and!; try done. by apply Forall_app.
  - rewrite Hn. destruct (q_NeverExpire req); [by destruct Hl|by destruct Hl].
Qed.

Lemma cleanup_step_ok now acc entry : manager_ok (fst acc) -> manager_ok (fst (cleanup_step now acc entry)).
Proof.
  destruct acc as [m n], entry as [id r]. cbn. intros H. destruct (negb _); [done|].
  intros id' r'. cbn. rewrite lookup_delete_Some. intros [_ Hr]. auto.
Qed.

Lemma cleanup_fold_ok now order acc : manager_ok (fst acc) -> manager_ok (fst (fold_left (cleanup_step now) order acc)).
Proof.
  revert acc. induction order as [|p l IH]; intros acc H; [done|]. cbn. apply IH. by apply cleanup_step_ok.
Qed.

Lemma Authorize_cases now id sec p q m :
  fst (Authorize now id sec p q m) = m
  \/ exists t, tokens m !! id = Some t /\ usable now t sec p q
     /\ tokens (fst (Authorize now id sec p q m)) = <[id := touch t now]> (tokens m).
Proof.
  pose proof (Authorize_spec now id sec p q m) as H.
  destruct (Authorize now id sec p q m) as [m' [meta|e]]; cbn; [|left; apply H].
  right. destruct H as (t & ? & ? & _ & ? & _). eauto.
Qed.

Lemma setStatus_cases now id reason revoke m :
  (fst (setStatus now id reason revoke m) = m /\ exists e, snd (setStatus now id reason revoke m) = Err e)
  \/ exists t, tokens m !! id = Some t /\ snd (setStatus now id reason revoke m) = Ok tt
     /\ tokens (fst (setStatus now id reason revoke m))
        = <[id := if revoke then with_flags t (t_Disabled (metadata t)) true
                  else with_flags t true (t_Revoked (metadata t))]> (tokens m).
Proof.
  unfold setStatus. destruct (negb _); [left; eauto|].
  destruct (tokens m !! id) as [t|]; [|left; eauto]. destruct (_ || _); [left; eauto|].
  destruct revoke; [destruct (t_Revoked (metadata t))|destruct (t_Disabled (metadata t))];
    (left; by eauto) || (right; exists t; by split_and!).
Qed.

Lemma touch_ok id t now : token_ok id t -> t_LastActivityAt (metadata t) <= now -> token_ok id (touch t now).
Proof. intros [] H. constructor; cbn; try done; lia. Qed.

Lemma with_flags_ok id t d v : token_ok id t -> token_ok id (with_flags t d v).
Proof. intros []. by constructor. Qed.

Lemma exec_tok_ok o m : manager_ok m -> manager_ok (fst (exec_tok o m)).
Proof.
  intros Hm. destruct o as [draws now req|now id sec p q|now id reason|now id reason|order now]; cbn [exec_tok].
  - destruct (Create draws now req m) as [m' [[meta sec]|e]] eqn:E; cbn.
    + apply Create_ok in E as (id & ps & rs & l & dg & _ & Hp & Hr & Ho & Hl & -> & -> & _ & Ht & _).
      intros id' r'. rewrite Ht, lookup_insert_Some. intros [[<- <-]|[_ H]]; [|auto].
      by apply token_ok_created.
    + unfold Create in E. branch E; by simplify_eq.
  - destruct (Authorize_cases now id sec p q m) as [E|(t & Ht & Hu & E)];
      destruct (Authorize now id sec p q m) as [m' r]; cbn in *; [by subst|].
    intros id' r'. rewrite E, lookup_insert_Some. intros [[<- <-]|[_ H]]; [|auto].
    apply touch_ok; [auto|]. apply Hu.
  - unfold Disable. destruct (setStatus_cases now id (TrimSpace reason) false m) as [[E _]|(t & Ht & _ & E)];
      destruct (setStatus _ _ _ _ m) as [m' r]; cbn in *; [by subst|].
    intros id' r'. rewrite E, lookup_insert_Some. intros [[<- <-]|[_ H]]; auto using with_flags_ok.
  - unfold Revoke. destruct (setStatus_cases now id (TrimSpace reason) true m) as [[E _]|(t & Ht & _ & E)];
      destruct (setStatus _ _ _ _ m) as [m' r]; cbn in *; [by subst|].
    intros id' r'. rewrite E, lookup_insert_Some. intros [[<- <-]|[_ H]]; auto using with_flags_ok.
  - cbn. unfold Cleanup. destruct (_ || _); [done|].
    pose proof (cleanup_fold_ok now (order (tokens m)) (m, 0) Hm) as H.
    destruct (fold_left _ _ _) as [m' n]. by destruct (_ =? 0).
Qed.

Lemma run_tok_ok ops m : manager_ok m -> manager_ok (fst (run_tok ops m)).
Proof.
  revert m. induction ops as [|o ops IH]; intros m Hm; [done|]. cbn.
  pose proof (exec_tok_ok o m Hm) as H. destruct (exec_tok o m) as [m1 r]. specialize (IH m1 H).
  by destruct (run_tok ops m1).
Qed.

(** Every token of every reachable manager is well formed: it is filed
    under its identifier, has an owner, non-empty duplicate-free permissions
    and resources of strict identifiers, activity no earlier than creation,
    only a digest of its secret, and a lifetime that ends after its creation
    and within 365 days of it, unless it never expires. *)
Theorem tokens_well_formed ops id r :
  tokens (fst (run_tok ops NewManager)) !! id = Some r -> token_ok id r.
Proof. apply (run_tok_ok ops NewManager). intros id' r' H. cbn in H. by apply lookup_empty_Some in H. Qed.

(** ** Issue and use *)


(** ** Revocation *)

(** The identifiers a creation may draw. *)
Definition draws_id (id : string) (o : tok_op) : bool :=
  match o with
  | TCreate draws _ _ => existsb (fun raw => String.eqb (fst (fst (credential raw))) id) draws
  | _ => false
  end.

(** Once revoked: gone, or still revoked. *)
Definition dead_token (id : string) (m : Manager) : Prop :=
  forall t, tokens m !! id = Some t -> t_Revoked (metadata t) = true.

Lemma cleanup_step_dead id now acc entry : dead_token id (fst acc) -> dead_token id (fst (cleanup_step now acc entry)).
Proof.
  destruct acc as [m n], entry as [id' r]. cbn. intros H. destruct (negb _); [done|].
  intros t. cbn. rewrite lookup_delete_Some. intros [_ Ht]. auto.
Qed.

Lemma exec_tok_dead id o m : dead_token id m -> draws_id id o = false -> dead_token id (fst (exec_tok o m)).
Proof.
  intros Hm Hd. destruct o as [draws now req|now id0 sec p q|now id0 reason|now id0 reason|order now]; cbn [exec_tok].
  - destruct (Create draws now req m) as [m' [[meta sec]|e]] eqn:E; cbn.
    + apply Create_ok in E as (id0 & ps & rs & l & dg & _ & _ & _ & _ & _ & _ & _ & (raw & Hin & Hraw) & Ht & _).
      intros t. rewrite Ht, lookup_insert_Some. intros [[-> _]|[_ H]]; [|auto]. exfalso.
      cbn [draws_id] in Hd. assert (existsb (fun raw => String.eqb (fst (fst (credential raw))) id) draws = true); [|congruence].
      apply existsb_exists. exists raw. rewrite Hraw. split; [by apply list_elem_of_In|apply String.eqb_refl].
    + unfold Create in E. branch E; by simplify_eq.
  - destruct (Authorize_cases now id0 sec p q m) as [E|(t & Ht & Hu & E)];
      destruct (Authorize now id0 sec p q m) as [m' r]; cbn in *; [by subst|].
    intros t'. rewrite E, lookup_insert_Some. intros [[-> <-]|[_ H]]; [|auto]. cbn. by apply Hm.
  - unfold Disable. destruct (setStatus_cases now id0 (TrimSpace reason) false m) as [[E _]|(t & Ht & _ & E)];
      destruct (setStatus _ _ _ _ m) as [m' r]; cbn in *; [by subst|].
    intros t'. rewrite E, lookup_insert_Some. intros [[-> <-]|[_ H]]; [|auto]. cbn. by apply Hm.
  - unfold Revoke. destruct (setStatus_cases now id0 (TrimSpace reason) true m) as [[E _]|(t & Ht & _ & E)];
      destruct (setStatus _ _ _ _ m) as [m' r]; cbn in *; [by subst|].
    intros t'. rewrite E, lookup_insert_Some. intros [[-> <-]|[_ H]]; [done|auto].
  - cbn. unfold Cleanup. destruct (_ || _); [done|].
    assert (H : forall l acc, dead_token id (fst acc) -> dead_token id (fst (fold_left (cleanup_step now) l acc))).
    { induction l as [|x l IH]; intros acc H; [done|]. cbn. apply IH. by apply cleanup_step_dead. }
    specialize (H (order (tokens m)) (m, 0) Hm). destruct (fold_left _ _ _) as [m' n]. by destruct (_ =? 0).
Qed.

(** Revocation is final: after a successful [Revoke], no operation of any
    later run authorizes that token again, as long as the random source does
    not draw its identifier anew for another token. *)
Theorem revoked_token_never_authorizes now id reason m m' ops o :
  exec_tok (TRevoke now id reason) m = (m', None) ->
  Forall (fun o => draws_id id o = false) ops ->
  (exists t sec p q, o = TAuthorize t id sec p q) -> (o, None) ∉ snd (run_tok ops m').
Proof.
  intros H Hops (u & sec & p & q & ->).
  assert (Hd : dead_token id m').
  { cbn in H. unfold Revoke in H. destruct (setStatus_cases now id (TrimSpace reason) true m) as [[_ [e E]]|(t & Ht & _ & E)];
      destruct (setStatus _ _ _ _ m) as [m1 r]; cbn in *; [by subst|]. simplify_eq.
    intros t'. rewrite E, lookup_insert_eq. by intros [= <-]. }
  clear H. revert m' Hd. induction Hops as [|o ops Ho Hops IH]; intros m' Hd; cbn [run_tok]; [apply not_elem_of_nil|].
  pose proof (exec_tok_dead id o m' Hd Ho) as Hd'. destruct (exec_tok o m') as [m1 r] eqn:E.
  specialize (IH m1 Hd'). destruct (run_tok ops m1) as [m2 log]. cbn in *.
  apply not_elem_of_cons. split; [|done]. intros [= <- <-].
  cbn [exec_tok] in E. pose proof (Authorize_spec u id sec p q m') as Hi.
  destruct (Authorize u id sec p q m') as [m3 [meta|e]]; [|done].
  destruct Hi as (t & Ht & [_ _ [Hr _] _ _ _ _] & _). specialize (Hd t Ht). congruence.
Qed.

(** ** Clean-up *)

(** The fold over any list of entries of the map, each at most once. *)
Lemma cleanup_fold now l m n :
  NoDup (map fst l) -> (forall id r, (id, r) ∈ l -> tokens m !! id = Some r) ->
  let '(m', n') := fold_left (cleanup_step now) l (m, n) in
  (forall id, tokens m' !! id =
     match tokens m !! id with
     | Some r => if bool_decide (id ∈ map fst l) && stale (metadata r) now then None else Some r
     | None => None
     end)
  /\ n' = n + (Z.of_nat (size (tokens m)) - Z.of_nat (size (tokens m')))
  /\ cleanupAt m' = cleanupAt m /\ firstCreation m' = firstCreation m /\ lastCreation m' = lastCreation m
  /\ exists es, events m' = events m ++ es
       /\ n' = n + Z.of_nat (length es)
       /\ Forall (fun e => ev_Type e = EventAutoDestroyed /\ ev_Notification e = true) es.
Proof.
  revert m n. induction l as [|[id r] l IH]; intros m n Hnd Hin; cbn [fold_left].
  { split_and!; try done; [|lia|exists []; rewrite app_nil_r; split_and!; [done|cbn; lia|done]]. intros id. by destruct (tokens m !! id). }
  apply NoDup_cons in Hnd as [Hni Hnd]. assert (Hr : tokens m !! id = Some r) by (apply Hin; by left).
  cbn [cleanup_step map fst snd List.filter]. destruct (stale (metadata r) now) eqn:Es; cbn [negb].
  - match goal with |- context [fold_left _ l (?m1, _)] => set (m1' := m1) end.
    specialize (IH m1' (n + 1) Hnd). destruct (fold_left _ l _) as [m' n'].
    destruct IH as (H1 & H2 & H3 & H4 & H5 & es & H6 & H7 & H8).
    { intros id' r' Hin'. cbn. rewrite lookup_delete_ne; [apply Hin; by right|].
      intros ->. apply Hni. apply list_elem_of_fmap. by exists (id', r'). }
    split_and!; try done.
    + intros id'. rewrite H1. cbn. destruct (decide (id = id')) as [<-|Hne].
      * rewrite lookup_delete_eq, Hr. rewrite bool_decide_eq_true_2 by (by left). by rewrite Es.
      * rewrite lookup_delete_ne by done. destruct (tokens m !! id') as [r'|]; [|done].
        assert (bool_decide (id' ∈ map fst l) = bool_decide (id' ∈ id :: map fst l)) as ->; [|done].
        apply bool_decide_ext. rewrite elem_of_cons. naive_solver.
    + assert (Hs : size (delete id (tokens m)) = pred (size (tokens m))) by (apply map_size_delete_Some; eauto).
      rewrite H2. cbn [m1' appendEvent set_tokens tokens]. rewrite Hs.
      assert (size (tokens m) <> 0)%nat by (apply map_size_non_empty_iff; intros E; by rewrite E in Hr). lia.
    + cbn in H6. rewrite <- app_assoc in H6. eexists. split; [exact H6|]. split; [cbn; lia|]. by constructor.
  - specialize (IH m n Hnd). destruct (fold_left _ l _) as [m' n'].
    destruct IH as (H1 & H2 & H3); [intros; apply Hin; by right|]. split; [|by split].
    intros id'. rewrite H1. destruct (tokens m !! id') as [r'|] eqn:Er'; [|done].
    destruct (decide (id' = id)) as [-> |Hne].
    + assert (r' = r) as -> by congruence. by rewrite Es, !andb_false_r.
    + assert (bool_decide (id' ∈ map fst l) = bool_decide (id' ∈ id :: map fst l)) as ->; [|done].
      apply bool_decide_ext. rewrite elem_of_cons. naive_solver.
Qed.

(** Every branch. *)
Lemma Cleanup_spec order now m :
  order ≡ₚ map_to_list (tokens m) ->
  let '(m', removed) := Cleanup order now m in
  if negb (IsZero now) && negb (IsZero (cleanupAt m)) && (cleanupAt m <=? now) then
    (forall id, tokens m' !! id =
       match tokens m !! id with Some r => if stale (metadata r) now then None else Some r | None => None end)
    /\ removed = Z.of_nat (size (tokens m)) - Z.of_nat (size (tokens m'))
    /\ (exists es, events m' = events m ++ es /\ Z.of_nat (length es) = removed
         /\ Forall (fun e => ev_Type e = EventAutoDestroyed /\ ev_Notification e = true) es)
    /\ cleanupAt m' = (if Z.of_nat (size (tokens m')) =? 0 then 0 else now + CleanupDelay)
  else m' = m /\ removed = 0.
Proof.
  intros Hp. unfold Cleanup, Before. destruct (IsZero now); [done|]. destruct (IsZero (cleanupAt m)); [done|].
  cbn [negb andb orb]. rewrite Z.leb_antisym. destruct (now <? cleanupAt m); [done|]. cbn [negb].
  assert (Hnd : NoDup (map fst order)).
  { assert (E : map fst order ≡ₚ map fst (map_to_list (tokens m))) by (by apply Permutation_map).
    rewrite E. apply NoDup_fst_map_to_list. }
  assert (Hin : forall id r, (id, r) ∈ order <-> tokens m !! id = Some r)
    by (intros; rewrite Hp; apply elem_of_map_to_list).
  pose proof (cleanup_fold now order m 0 Hnd (fun id r => proj1 (Hin id r))) as H.
  destruct (fold_left _ order (m, 0)) as [m1 n1]. destruct H as (H1 & H2 & H3 & H4 & H5 & es & H6 & H7 & H8).
  assert (Ht : forall id, tokens m1 !! id =
     match tokens m !! id with Some r => if stale (metadata r) now then None else Some r | None => None end).
  { intros id. rewrite H1. destruct (tokens m !! id) as [r|] eqn:Er; [|done].
    rewrite bool_decide_eq_true_2; [done|]. apply list_elem_of_fmap. exists (id, r). by rewrite Hin. }
  destruct (Z.of_nat (size (tokens m1)) =? 0) eqn:E0; cbn [set_timer tokens events cleanupAt]; rewrite E0;
    (split_and!; [done|lia| |done]; exists es; split_and!; [done|lia|done]).
Qed.

(** Clean-up does exactly its job: before the coalesced deadline it does
    nothing; from the deadline on it removes precisely the tokens that are
    expired or inactive, whatever order the map is traversed in, reports how
    many, leaves every other token untouched, records one notification event
    per destroyed token, and disarms the timer exactly when no token is left. *)
Theorem cleanup_removes_exactly_stale order now m :
  order ≡ₚ map_to_list (tokens m) ->
  let '(m', removed) := Cleanup order now m in
  if negb (IsZero now) && negb (IsZero (cleanupAt m)) && (cleanupAt m <=? now) then
    (forall id, tokens m' !! id =
       match tokens m !! id with Some r => if stale (metadata r) now then None else Some r | None => None end)
    /\ removed = Z.of_nat (size (tokens m)) - Z.of_nat (size (tokens m'))
    /\ (exists es, events m' = events m ++ es /\ Z.of_nat (length es) = removed
         /\ Forall (fun e => ev_Type e = EventAutoDestroyed /\ ev_Notification e = true) es)
    /\ cleanupAt m' = (if Z.of_nat (size (tokens m')) =? 0 then 0 else now + CleanupDelay)
  else m' = m /\ removed = 0.
Proof. apply Cleanup_spec. Qed.

Definition tok_time (o : tok_op) : Time :=
  match o with
  | TCreate _ now _ | TAuthorize now _ _ _ _ | TDisable now _ _ | TRevoke now _ _ | TCleanup _ now => now
  end.

(** The timer is armed while there is a token, at most ten minutes after [t]. *)
Definition armed (t : Time) (m : Manager) : Prop :=
  0 <= firstCreation m /\ (tokens m <> ∅ -> 0 < cleanupAt m <= t + CleanupDelay).

Lemma armed_same t m m' ts :
  armed t m -> firstCreation m' = firstCreation m -> cleanupAt m' = cleanupAt m -> tokens m' = ts ->
  (ts <> ∅ -> tokens m <> ∅) -> armed t m'.
Proof. intros [H1 H2] E1 E2 <- H. split; [lia|]. rewrite E2. auto. Qed.

Lemma Create_first draws now req m :
  firstCreation (fst (Create draws now req m)) = firstCreation m
  \/ firstCreation (fst (Create draws now req m)) = (if IsZero (firstCreation m) then now else firstCreation m).
Proof.
  unfold Create. destruct (_ || _); [by left|]. destruct (normalize _) as [ps []]; cbn [negb]; [|by left].
  destruct (request_resources _) as [rs []]; cbn [negb]; [|by left].
  destruct (ResolveLifetime _ _ _ _ _); [|by left].
  destruct (fresh_credential _ _) as [[[? ?] ?]|]; [|by left]. by right.
Qed.

Lemma exec_tok_armed t o m : fair o -> 0 < tok_time o <= t -> armed t m -> armed t (fst (exec_tok o m)).
Proof.
  intros Hf Ht Ha. destruct o as [draws now req|now id sec p q|now id reason|now id reason|order now];
    cbn [exec_tok tok_time] in *.
  - pose proof (Create_first draws now req m) as Hfirst.
    destruct (Create draws now req m) as [m' [[meta sec]|e]] eqn:E; cbn in *.
    + apply Create_ok in E as (id & ps & rs & l & dg & _ & _ & _ & _ & _ & _ & _ & _ & _ & Hcl).
      unfold IsZero in *. destruct Ha as [H1 _]. split.
      * destruct (Z.eqb_spec (firstCreation m) 0); lia.
      * intros _. rewrite Hcl. unfold minTime, Before, TimeAdd, CleanupDelay, Hour, Minute, Second.
        destruct (Z.ltb_spec (now + 10 * (60 * 1000000000))
          ((if firstCreation m =? 0 then now else firstCreation m) + 60 * (60 * 1000000000)));
          destruct (Z.eqb_spec (firstCreation m) 0); lia.
    + unfold Create in E. branch E; by simplify_eq.
  - unfold Authorize. destruct (_ || _); [done|]. destruct (tokens m !! id) as [r|] eqn:Er; [|done].
    destruct (authorize_check _ _ _ _ _); [done|]. eapply armed_same; try done. intros _ E. by rewrite E in Er.
  - unfold Disable, setStatus. destruct (negb _); [done|]. destruct (tokens m !! id) as [r|] eqn:Er; [|done].
    destruct (_ || _); [done|]. destruct (t_Disabled _); [done|].
    eapply armed_same; try done. intros _ E. by rewrite E in Er.
  - unfold Revoke, setStatus. destruct (negb _); [done|]. destruct (tokens m !! id) as [r|] eqn:Er; [|done].
    destruct (_ || _); [done|]. destruct (t_Revoked _); [done|].
    eapply armed_same; try done. intros _ E. by rewrite E in Er.
  - cbn [fst]. pose proof (Cleanup_spec (order (tokens m)) now m (Hf _)) as Hc.
    unfold Cleanup in *. destruct (_ || _); [done|].
    destruct (fold_left _ _ _) as [m' n] eqn:Efold. pose proof Ha as [H1 _].
    destruct (Z.of_nat (size (tokens m')) =? 0) eqn:E0; cbn [fst].
    + split; cbn; [done|]. intros Hne. props. assert (size (tokens m') = 0)%nat as E by lia.
      by apply map_size_empty_iff in E.
    + assert (Hfc : firstCreation m' = firstCreation m).
      { assert (Hnd : NoDup (map fst (order (tokens m)))).
        { assert (E : map fst (order (tokens m)) ≡ₚ map fst (map_to_list (tokens m))) by apply Permutation_map, Hf.
          rewrite E. apply NoDup_fst_map_to_list. }
        pose proof (cleanup_fold now (order (tokens m)) m 0 Hnd) as Hfold. rewrite Efold in Hfold.
        apply Hfold. intros id r Hin. rewrite (Hf (tokens m)) in Hin. by apply elem_of_map_to_list. }
      split; cbn; [lia|]. intros _. unfold TimeAdd, CleanupDelay, Minute, Second in *. lia.
Qed.

(** Stale tokens are always scheduled for destruction: in any run whose
    operations happen at times up to [t], a manager that holds a token has its
    clean-up timer armed for no later than ten minutes after [t]; so a
    scheduler that calls [Cleanup] at the announced time destroys every token
    that is expired or inactive then. *)
Theorem cleanup_always_scheduled ops t :
  Forall (fun o => fair o /\ 0 < tok_time o <= t) ops ->
  let m := fst (run_tok ops NewManager) in
  tokens m <> ∅ ->
  0 < NextCleanupAt m <= t + CleanupDelay
  /\ forall order id r, order ≡ₚ map_to_list (tokens m) ->
       tokens (fst (Cleanup order (NextCleanupAt m) m)) !! id = Some r ->
       stale (metadata r) (NextCleanupAt m) = false.
Proof.
  intros Hops. assert (Ha : armed t (fst (run_tok ops NewManager))).
  { assert (H0 : armed t NewManager) by (split; cbn; [lia|done]).
    revert H0. generalize NewManager. induction Hops as [|o ops [Hf Ht] Hops IH]; intros m Hm; [done|].
    cbn. pose proof (exec_tok_armed t o m Hf Ht Hm) as H. destruct (exec_tok o m) as [m1 r].
    specialize (IH m1 H). by destruct (run_tok ops m1). }
  intros m Hne. destruct Ha as [_ Ha]. specialize (Ha Hne). fold m in Ha. unfold NextCleanupAt.
  split; [done|]. intros order id r Hp Hr.
  pose proof (Cleanup_spec order (cleanupAt m) m Hp) as Hc.
  destruct (Cleanup order (cleanupAt m) m) as [m' removed]. cbn in Hr.
  assert (negb (IsZero (cleanupAt m)) && negb (IsZero (cleanupAt m)) && (cleanupAt m <=? cleanupAt m) = true) as E.
  { unfold IsZero. rewrite Z.leb_refl. assert (cleanupAt m =? 0 = false) as -> by (apply Z.eqb_neq; lia). done. }
  rewrite E in Hc. destruct Hc as (Hc & _). rewrite Hc in Hr. destruct (tokens m !! id) as [r'|]; [|done].
  destruct (stale (metadata r') (cleanupAt m)) eqn:Es; congruence.
Qed.

(** A request whose resource list is malformed is accepted when it also has
    scopes: the malformed list, with its well-formed entries, is dropped. *)
Definition mixed_request : CreateRequest :=
  {| q_Owner := "ops"; q_Permissions := ["read"%string]; q_Resources := ["site:a"%string; "bad id"%string];
     q_Scopes := ["site:b"%string]; q_Note := ""; q_PolicyEpoch := 1; q_TTL := 0; q_NeverExpire := false;
     q_ConfirmNeverExpire := false |}.

Theorem malformed_resources_accepted :
  strictIdentity "bad id" = false
  /\ exists m meta sec, Create [repeat 7 48] (1000 * Second) mixed_request NewManager = (m, Ok (meta, sec))
       /\ t_Resources meta = ["site:b"%string].
Proof. split; [reflexivity|]. eexists _, _, _. split; vm_compute; reflexivity. Qed.
