(* ===== verification/TokenPersistence.v ===== *)
(** * The durable token ledger (internal/tokens/persistence.go)

    The contract between the token service and its store: a mutation carries
    a token snapshot, one audit event, the version it expects and the lease
    that fences its writer. [MemoryPersistence] is the code's own store of
    this contract. Tenants share one map whose keys join tenant and token
    identifiers by a NUL byte. *)

From S2P Require Import Prelude GoText Sha256 Tokens ApprovalPersistence.

Open Scope list_scope.
Open Scope Z_scope.
Open Scope go_scope.

(** ** Data *)

Record PersistedToken := {
  pt_ID : string;
  pt_Owner : string;
  pt_Permissions : list string;
  pt_Resources : list string;
  pt_Scopes : list string;
  pt_Note : string;
  pt_PolicyEpoch : Z;
  pt_CreatedAt : Time;
  pt_ExpiresAt : Time;
  pt_NeverExpire : bool;
  pt_Disabled : bool;
  pt_Revoked : bool;
  pt_LastActivityAt : Time;
  pt_SecretDigest : string;
  pt_LeaseID : string;
  pt_Version : Z
}.

Definition zero_token : PersistedToken :=
  {| pt_ID := ""; pt_Owner := ""; pt_Permissions := []; pt_Resources := []; pt_Scopes := []; pt_Note := "";
     pt_PolicyEpoch := 0; pt_CreatedAt := 0; pt_ExpiresAt := 0; pt_NeverExpire := false;
     pt_Disabled := false; pt_Revoked := false; pt_LastActivityAt := 0; pt_SecretDigest := "";
     pt_LeaseID := ""; pt_Version := 0 |}.

Record Mutation := {
  mu_TenantID : string;
  mu_Token : PersistedToken;
  mu_Event : Event;
  mu_ExpectedVersion : Z;
  mu_LeaseID : string;
  mu_IdempotencyKey : string;
  mu_DeleteToken : bool
}.

Inductive TokStoreErr :=
| SErrInvalidPersistence | SErrVersionConflict | SErrLeaseConflict | SErrIdempotencyConflict
| SErrTokenNotFound | SErrContext.

#[export] Instance Event_eq_dec : EqDecision Event.
Proof. solve_decision. Defined.
#[export] Instance PersistedToken_eq_dec : EqDecision PersistedToken.
Proof. solve_decision. Defined.

Record memoryRecord := { mr_token : PersistedToken; mr_events : list Event }.

Record TokenStore := {
  st_records : gmap string memoryRecord;
  st_idempotency : gmap string Mutation
}.

Definition NewMemoryPersistence : TokenStore := {| st_records := ∅; st_idempotency := ∅ |}.

(** ** Validation *)

Definition validIdentityList (values : list string) : bool := forallb strictIdentity values.

Definition isHexDigest (value : string) : bool :=
  forallb (fun r => ((48 <=? r) && (r <=? 57)) || ((97 <=? r) && (r <=? 102))) (runes value).

Definition validatePersistedMutation (m : Mutation) : option TokStoreErr :=
  let t := mu_Token m in
  let e := mu_Event m in
  return Some SErrInvalidPersistence when
    negb (strictIdentity (mu_TenantID m)) || negb (strictIdentity (pt_ID t))
    || negb (strictIdentity (pt_Owner t)) || negb (strictIdentity (mu_IdempotencyKey m))
    || negb (strictIdentity (mu_LeaseID m)) ;;
  return Some SErrInvalidPersistence when
    negb (String.eqb (ev_TokenID e) (pt_ID t)) || (ev_Sequence e =? 0) || IsZero (ev_At e)
    || String.eqb (TrimSpace (ev_Type e)) "" ;;
  return Some SErrInvalidPersistence when
    (negb (String.eqb (ev_Actor e) "") && negb (strictIdentity (ev_Actor e)))
    || negb (validIdentityList (pt_Permissions t)) || negb (validIdentityList (pt_Resources t))
    || negb (validIdentityList (pt_Scopes t)) ;;
  return Some SErrInvalidPersistence when
    negb (len (pt_SecretDigest t) =? 64) || negb (String.eqb (pt_SecretDigest t) (ToLower (pt_SecretDigest t)))
    || negb (isHexDigest (pt_SecretDigest t)) ;;
  return Some SErrInvalidPersistence when (pt_Version t =? 0) && negb (mu_DeleteToken m) ;;
  return Some SErrInvalidPersistence when mu_DeleteToken m && (pt_Version t =? 0) ;;
  return Some SErrInvalidPersistence when
    (pt_PolicyEpoch t =? 0) || IsZero (pt_CreatedAt t) || IsZero (pt_LastActivityAt t) ;;
  return Some SErrInvalidPersistence when Before (pt_LastActivityAt t) (pt_CreatedAt t) ;;
  return Some SErrInvalidPersistence when pt_NeverExpire t && negb (IsZero (pt_ExpiresAt t)) ;;
  return Some SErrInvalidPersistence when
    negb (IsZero (pt_ExpiresAt t)) && negb (After (pt_ExpiresAt t) (pt_CreatedAt t)) ;;
  return Some SErrInvalidPersistence when
    negb (IsZero (pt_ExpiresAt t)) && (MaxTTL <? TimeSub (pt_ExpiresAt t) (pt_CreatedAt t)) ;;
  return Some SErrInvalidPersistence when negb (pt_NeverExpire t) && IsZero (pt_ExpiresAt t) ;;
  None.

(** ** Equality of mutations; [slicesEqual] is equality of lists *)

Definition slicesEqual (a b : list string) : bool := bool_decide (a = b).

Definition samePersistedToken (a b : PersistedToken) : bool :=
  return false when
    negb (String.eqb (pt_ID a) (pt_ID b)) || negb (String.eqb (pt_Owner a) (pt_Owner b))
    || negb (String.eqb (pt_Note a) (pt_Note b)) || negb (pt_PolicyEpoch a =? pt_PolicyEpoch b)
    || negb (pt_CreatedAt a =? pt_CreatedAt b) || negb (pt_ExpiresAt a =? pt_ExpiresAt b)
    || negb (Bool.eqb (pt_NeverExpire a) (pt_NeverExpire b))
    || negb (Bool.eqb (pt_Disabled a) (pt_Disabled b)) || negb (Bool.eqb (pt_Revoked a) (pt_Revoked b))
    || negb (pt_LastActivityAt a =? pt_LastActivityAt b)
    || negb (String.eqb (pt_SecretDigest a) (pt_SecretDigest b))
    || negb (String.eqb (pt_LeaseID a) (pt_LeaseID b)) || negb (pt_Version a =? pt_Version b) ;;
  slicesEqual (pt_Permissions a) (pt_Permissions b) && slicesEqual (pt_Resources a) (pt_Resources b)
  && slicesEqual (pt_Scopes a) (pt_Scopes b).

Definition sameMutation (a b : Mutation) : bool :=
  String.eqb (mu_TenantID a) (mu_TenantID b) && String.eqb (mu_LeaseID a) (mu_LeaseID b)
  && String.eqb (mu_IdempotencyKey a) (mu_IdempotencyKey b)
  && (mu_ExpectedVersion a =? mu_ExpectedVersion b) && Bool.eqb (mu_DeleteToken a) (mu_DeleteToken b)
  && samePersistedToken (mu_Token a) (mu_Token b) && bool_decide (mu_Event a = mu_Event b).

(** ** Operations *)

Definition tenant_key (tenant id : string) : string := (tenant ++ nul ++ id)%string.

Definition store_ctx (ctx : Context) : option TokStoreErr :=
  match ctx with
  | NilContext => Some SErrInvalidPersistence
  | LiveContext => None
  | DoneContext _ => Some SErrContext
  end.

(** The fences of an accepted mutation against the current record. *)
Definition fence_check (current : option memoryRecord) (m : Mutation) : option TokStoreErr :=
  match (match current with
         | None =>
             return Some SErrVersionConflict when
               negb (mu_ExpectedVersion m =? 0) || negb (pt_Version (mu_Token m) =? 1) || mu_DeleteToken m ;;
             None
         | Some r =>
             return Some SErrLeaseConflict when negb (String.eqb (pt_LeaseID (mr_token r)) (mu_LeaseID m)) ;;
             return Some SErrVersionConflict when
               negb (mu_ExpectedVersion m =? pt_Version (mr_token r))
               || negb (pt_Version (mu_Token m) =? u64 (pt_Version (mr_token r) + 1)) ;;
             None
         end) with
  | Some e => Some e
  | None =>
      match (match current with Some r => last (mr_events r) | None => None end) with
      | Some l => return Some SErrVersionConflict when
                    negb (ev_Sequence (mu_Event m) =? u64 (ev_Sequence l + 1)) ;; None
      | None => None
      end
  end.

Definition Apply (ctx : Context) (m : Mutation) (p : TokenStore) : TokenStore * option TokStoreErr :=
  match store_ctx ctx with
  | Some e => (p, Some e)
  | None =>
  match validatePersistedMutation m with
  | Some e => (p, Some e)
  | None =>
      let key := tenant_key (mu_TenantID m) (pt_ID (mu_Token m)) in
      let idemKey := tenant_key (mu_TenantID m) (mu_IdempotencyKey m) in
      match st_idempotency p !! idemKey with
      | Some prior => if sameMutation prior m then (p, None) else (p, Some SErrIdempotencyConflict)
      | None =>
          let current := st_records p !! key in
          match fence_check current m with
          | Some e => (p, Some e)
          | None =>
              let events := match current with Some r => mr_events r | None => [] end ++ [mu_Event m] in
              let r := {| mr_token := if mu_DeleteToken m then zero_token else mu_Token m; mr_events := events |} in
              ({| st_records := <[key := r]> (st_records p);
                  st_idempotency := <[idemKey := m]> (st_idempotency p) |}, None)
          end
      end
  end
  end.

Definition Load (ctx : Context) (tenantID tokenID : string) (p : TokenStore) : result TokStoreErr PersistedToken :=
  match store_ctx ctx with
  | Some e => Err e
  | None =>
      return Err SErrInvalidPersistence when negb (strictIdentity tenantID) || negb (strictIdentity tokenID) ;;
      match st_records p !! tenant_key tenantID tokenID with
      | None => Err SErrTokenNotFound
      | Some r => if String.eqb (pt_ID (mr_token r)) "" then Err SErrTokenNotFound else Ok (mr_token r)
      end
  end.

(** In the iteration order of the map, which Go leaves open. *)
Definition ListTokens (ctx : Context) (tenantID : string) (p : TokenStore) : result TokStoreErr (list PersistedToken) :=
  match store_ctx ctx with
  | Some e => Err e
  | None =>
      return Err SErrInvalidPersistence when negb (strictIdentity tenantID) ;;
      let prefix := (tenantID ++ nul)%string in
      Ok (map (fun kr => mr_token (snd kr))
            (List.filter (fun kr => HasPrefix (fst kr) prefix && negb (String.eqb (pt_ID (mr_token (snd kr))) ""))
               (map_to_list (st_records p))))
  end.

Definition TokenEvents (ctx : Context) (tenantID tokenID : string) (p : TokenStore) : result TokStoreErr (list Event) :=
  match store_ctx ctx with
  | Some e => Err e
  | None =>
      return Err SErrInvalidPersistence when negb (strictIdentity tenantID) || negb (strictIdentity tokenID) ;;
      match st_records p !! tenant_key tenantID tokenID with
      | None => Err SErrTokenNotFound
      | Some r => Ok (mr_events r)
      end
  end.

(** ** Keys *)

Lemma strict_no_nul s : strictIdentity s = true -> byte_of 0 ∉ bytes s.
Proof.
  unfold strictIdentity. intros H. apply andb_true_iff in H as [_ H%negb_true_iff]. apply no_nul. intros Hin.
  assert (existsb opaque_rune (runes s) = true); [|congruence].
  apply existsb_exists. exists 0. split; [by apply list_elem_of_In|reflexivity].
Qed.

Lemma tenant_key_bytes t id : bytes (tenant_key t id) = bytes t ++ byte_of 0 :: bytes id.
Proof. unfold tenant_key. by rewrite !string_append_bytes. Qed.

Lemma tenant_key_inj t t' id id' :
  strictIdentity t = true -> strictIdentity t' = true -> tenant_key t id = tenant_key t' id' -> t = t' /\ id = id'.
Proof.
  intros Ht Ht' E. apply (f_equal bytes) in E. rewrite !tenant_key_bytes in E.
  apply app_sep_inj in E as [E1 E2]; [|by apply strict_no_nul..]. by split; apply bytes_inj.
Qed.

(** The keys of a tenant are those that start with its prefix. *)
Lemma tenant_prefix t t' id :
  strictIdentity t = true -> strictIdentity t' = true ->
  HasPrefix (tenant_key t' id) (t ++ nul)%string = true -> t = t'.
Proof.
  intros Ht Ht' H. apply HasPrefix_spec in H as [rest H]. apply (f_equal bytes) in H.
  rewrite tenant_key_bytes, !string_append_bytes in H.
  rewrite <- app_assoc in H. apply app_sep_inj in H as [E _]; [|by apply strict_no_nul..].
  symmetry. by apply bytes_inj.
Qed.

(** ** The outcomes of [Apply] *)

Definition applied (m : Mutation) (p : TokenStore) : TokenStore :=
  let key := tenant_key (mu_TenantID m) (pt_ID (mu_Token m)) in
  {| st_records := <[key := {| mr_token := if mu_DeleteToken m then zero_token else mu_Token m;
                               mr_events := match st_records p !! key with Some r => mr_events r | None => [] end
                                            ++ [mu_Event m] |}]> (st_records p);
     st_idempotency := <[tenant_key (mu_TenantID m) (mu_IdempotencyKey m) := m]> (st_idempotency p) |}.

Inductive outcome (m : Mutation) (p : TokenStore) : TokenStore -> option TokStoreErr -> Prop :=
| refused e : outcome m p p (Some e)
| replayed prior : st_idempotency p !! tenant_key (mu_TenantID m) (mu_IdempotencyKey m) = Some prior ->
    sameMutation prior m = true -> outcome m p p None
| accepted : validatePersistedMutation m = None ->
    st_idempotency p !! tenant_key (mu_TenantID m) (mu_IdempotencyKey m) = None ->
    fence_check (st_records p !! tenant_key (mu_TenantID m) (pt_ID (mu_Token m))) m = None ->
    outcome m p (applied m p) None.

Lemma Apply_outcome ctx m p : outcome m p (fst (Apply ctx m p)) (snd (Apply ctx m p)).
Proof.
  unfold Apply. destruct (store_ctx ctx); [constructor|].
  destruct (validatePersistedMutation m) eqn:Ev; [constructor|].
  destruct (st_idempotency p !! _) as [prior|] eqn:Ei.
  - destruct (sameMutation prior m) eqn:Es; [by eapply replayed|constructor].
  - destruct (fence_check _ m) eqn:Ef; [constructor|]. by apply accepted.
Qed.

Lemma valid_mutation_facts m :
  validatePersistedMutation m = None ->
  strictIdentity (mu_TenantID m) = true /\ strictIdentity (pt_ID (mu_Token m)) = true
  /\ strictIdentity (mu_LeaseID m) = true /\ pt_Version (mu_Token m) <> 0.
Proof.
  unfold validatePersistedMutation. rewrite !guard_None. intros (H1 & _ & _ & _ & H2 & H3 & _). props.
  repeat (split; [done|]). intros E. rewrite E in *. by destruct (mu_DeleteToken m).
Qed.

(** ** Tenants *)

(** Tenants are isolated: applying any mutation of one tenant changes
    nothing that another tenant can read: its tokens by identifier, its event
    lists, and the set of tokens that its listing returns. *)
Theorem tenants_isolated ctx m p p' r t :
  Apply ctx m p = (p', r) -> strictIdentity t = true -> t <> mu_TenantID m ->
  (forall id, Load LiveContext t id p' = Load LiveContext t id p
              /\ TokenEvents LiveContext t id p' = TokenEvents LiveContext t id p)
  /\ forall l l', ListTokens LiveContext t p = Ok l -> ListTokens LiveContext t p' = Ok l' -> l' ≡ₚ l.
Proof.
  intros H Ht Hne. pose proof (Apply_outcome ctx m p) as Ho. rewrite H in Ho. cbn in Ho.
  assert (Hsame : st_records p' = st_records p \/ exists id r0, strictIdentity (mu_TenantID m) = true
            /\ st_records p' = <[tenant_key (mu_TenantID m) id := r0]> (st_records p)).
  { destruct Ho as [| |Hv]; [by left..|right]. apply valid_mutation_facts in Hv as (? & _). eauto. }
  unfold Load, TokenEvents, ListTokens. cbn [store_ctx]. rewrite Ht. cbn [negb].
  destruct Hsame as [->|(id0 & r0 & Hm & ->)].
  { split; [done|]. intros l l' [= <-] [= <-]. done. }
  assert (Hk : forall id, tenant_key (mu_TenantID m) id0 <> tenant_key t id).
  { intros id E. apply tenant_key_inj in E as [E _]; congruence. }
  split.
  - intros id. by rewrite lookup_insert_ne by apply Hk.
  - intros l l' [= <-] [= <-]. apply Permutation_map.
    set (f := fun kr : string * memoryRecord => _).
    assert (Hf : forall r1, f (tenant_key (mu_TenantID m) id0, r1) = false).
    { intros r1. unfold f. cbn. destruct (HasPrefix _ _) eqn:E; [|done]. exfalso.
      apply tenant_prefix in E; try done. }
    assert (Hperm : forall a b, a ≡ₚ b -> List.filter f a ≡ₚ List.filter f b).
    { intros a b P. induction P as [|x a b P IHP|x y a|a b c0 _ IH1 _ IH2]; cbn.
      - done.
      - destruct (f x); by rewrite ?IHP.
      - destruct (f x), (f y); try done. apply perm_swap.
      - by rewrite IH1. }
    assert (E : forall r1 (q : gmap string memoryRecord), q !! tenant_key (mu_TenantID m) id0 = None ->
              List.filter f (map_to_list (<[tenant_key (mu_TenantID m) id0 := r1]> q)) ≡ₚ List.filter f (map_to_list q)).
    { intros r1 q Hq. rewrite (Hperm _ _ (map_to_list_insert q _ r1 Hq)). cbn. by rewrite Hf. }
    rewrite <- (insert_delete_eq (st_records p)), E by apply lookup_delete_eq.
    destruct (st_records p !! tenant_key (mu_TenantID m) id0) as [r1|] eqn:Er.
    + rewrite <- (insert_delete_id (st_records p) _ r1 Er) at 2. by rewrite E by apply lookup_delete_eq.
    + by rewrite delete_id.
Qed.

(** ** Versions *)

Definition store_step (p p' : TokenStore) : Prop := exists ctx m, p' = fst (Apply ctx m p).

Definition record_ok (r : memoryRecord) : Prop :=
  mr_events r <> []
  /\ (mr_token r = zero_token \/ pt_Version (mr_token r) = u64 (Z.of_nat (length (mr_events r)))).

Definition store_ok (p : TokenStore) : Prop := forall key r, st_records p !! key = Some r -> record_ok r.

Lemma strict_nonempty s : strictIdentity s = true -> s <> "".
Proof. by intros H ->. Qed.

(** An accepted mutation, in terms of the event count of its token. *)
Lemma accepted_version m p :
  store_ok p -> validatePersistedMutation m = None ->
  let key := tenant_key (mu_TenantID m) (pt_ID (mu_Token m)) in
  fence_check (st_records p !! key) m = None ->
  let n := match st_records p !! key with Some r => length (mr_events r) | None => O end in
  mu_ExpectedVersion m = u64 (Z.of_nat n) /\ pt_Version (mu_Token m) = u64 (Z.of_nat (S n))
  /\ (forall r, st_records p !! key = Some r -> mr_token r <> zero_token).
Proof.
  intros Hok (_ & _ & Hl & _)%valid_mutation_facts key Hf. unfold fence_check in Hf.
  destruct (st_records p !! key) as [r|] eqn:Er.
  - destruct (negb (String.eqb (pt_LeaseID (mr_token r)) (mu_LeaseID m))) eqn:E1; [done|].
    destruct (negb (mu_ExpectedVersion m =? pt_Version (mr_token r)) || _) eqn:E2; [done|]. props.
    assert (Hz : mr_token r <> zero_token).
    { intros E. rewrite E in *. cbn in *. subst. by apply strict_nonempty in Hl. }
    destruct (Hok _ _ Er) as [_ [?|Hv]]; [done|]. split_and!; [congruence| |by intros r' [= <-]].
    match goal with H : pt_Version (mu_Token m) = _ |- _ => rewrite H, Hv end.
    unfold u64. rewrite Zplus_mod_idemp_l. f_equal. lia.
  - destruct (_ || _) eqn:E1; [done|]. props. split_and!; [done|done|done].
Qed.

(** What every step keeps of a record. *)
Definition record_grows (r r' : memoryRecord) : Prop :=
  (exists es, mr_events r' = mr_events r ++ es) /\ (mr_token r = zero_token -> r' = r).

Lemma record_grows_refl r : record_grows r r.
Proof. split; [by exists []; rewrite app_nil_r|done]. Qed.

Lemma Apply_store_ok ctx m p : store_ok p -> store_ok (fst (Apply ctx m p)).
Proof.
  intros Hok. destruct (Apply_outcome ctx m p) as [| |Hv _ Hf]; [done|done|].
  pose proof (accepted_version m p Hok Hv Hf) as (_ & Hver & _).
  intros key r. cbn. rewrite lookup_insert_Some. intros [[<- <-]|[_ Hr]]; [|by eapply Hok].
  split; cbn; [by intros [_ ?]%app_nil|]. destruct (mu_DeleteToken m); [by left|right].
  rewrite Hver, length_app. cbn. f_equal.
  destruct (st_records p !! _); cbn; lia.
Qed.

Lemma Apply_grows ctx m p key r :
  store_ok p -> st_records p !! key = Some r ->
  exists r', st_records (fst (Apply ctx m p)) !! key = Some r' /\ record_grows r r'.
Proof.
  intros Hok Hr. destruct (Apply_outcome ctx m p) as [| |Hv _ Hf];
    [exists r; by split; [|apply record_grows_refl]..|].
  pose proof (accepted_version m p Hok Hv Hf) as (_ & _ & Hz). cbn.
  destruct (decide (tenant_key (mu_TenantID m) (pt_ID (mu_Token m)) = key)) as [<-|Hne].
  - rewrite lookup_insert_eq, Hr. eexists. split; [reflexivity|]. split; cbn; [by eexists|].
    intros E. by destruct (Hz _ Hr).
  - rewrite lookup_insert_ne by done. exists r. by split; [|apply record_grows_refl].
Qed.

Lemma steps_grow p p' key r :
  store_ok p -> rtc store_step p p' -> st_records p !! key = Some r ->
  store_ok p' /\ exists r', st_records p' !! key = Some r' /\ record_grows r r'.
Proof.
  intros Hok H. revert r. induction H as [p|p q p' [ctx [m ->]] _ IH]; intros r Hr.
  - split; [done|]. exists r. by split; [|apply record_grows_refl].
  - destruct (Apply_grows ctx m p key r Hok Hr) as (r1 & Hr1 & [es1 E1] & Hz1).
    destruct (IH (Apply_store_ok ctx m p Hok) r1 Hr1) as (Hok' & r2 & Hr2 & [es2 E2] & Hz2).
    split; [done|]. exists r2. split; [done|]. split.
    + exists (es1 ++ es2). by rewrite E2, E1, app_assoc.
    + intros Hz. specialize (Hz1 Hz). subst r1. auto.
Qed.

Lemma reachable_store_ok p : rtc store_step NewMemoryPersistence p -> store_ok p.
Proof.
  intros Hp. assert (H0 : store_ok NewMemoryPersistence) by (intros ? ? E; cbn in E; by apply lookup_empty_Some in E).
  revert H0. induction Hp as [|q q' p [ctx [m ->]] _ IH]; [done|]. intros H0. apply IH. by apply Apply_store_ok.
Qed.

(** A success under a new idempotency key is an acceptance. *)
Lemma accepted_first ctx m p :
  st_idempotency p !! tenant_key (mu_TenantID m) (mu_IdempotencyKey m) = None -> snd (Apply ctx m p) = None ->
  validatePersistedMutation m = None
  /\ fence_check (st_records p !! tenant_key (mu_TenantID m) (pt_ID (mu_Token m))) m = None
  /\ fst (Apply ctx m p) = applied m p.
Proof.
  intros Hi H. pose proof (Apply_outcome ctx m p) as Ho. rewrite H in Ho.
  inversion Ho as [|prior Hprior|Hv _ Hf E]; subst; [congruence|done].
Qed.

(** No lost update: once a mutation has been accepted for a token, a
    different mutation that was computed from the same version of the token
    is refused, no matter what was applied in between. *)
Theorem no_lost_update p p2 ctx ctx' m1 m2 r2 :
  rtc store_step NewMemoryPersistence p ->
  st_idempotency p !! tenant_key (mu_TenantID m1) (mu_IdempotencyKey m1) = None ->
  snd (Apply ctx m1 p) = None ->
  rtc store_step (fst (Apply ctx m1 p)) p2 ->
  mu_TenantID m2 = mu_TenantID m1 -> pt_ID (mu_Token m2) = pt_ID (mu_Token m1) ->
  mu_ExpectedVersion m2 = mu_ExpectedVersion m1 ->
  st_idempotency p2 !! tenant_key (mu_TenantID m2) (mu_IdempotencyKey m2) = None ->
  st_records p2 !! tenant_key (mu_TenantID m1) (pt_ID (mu_Token m1)) = Some r2 ->
  Z.of_nat (length (mr_events r2)) < two64 ->
  snd (Apply ctx' m2 p2) <> None.
Proof.
  intros Hp Hi1 H1 Hs Et Eid Ev Hi2 Hr2 Hlen H2.
  pose proof (reachable_store_ok _ Hp) as Hok.
  destruct (accepted_first _ _ _ Hi1 H1) as (Hv & Hf & E). rewrite E in Hs.
  destruct (accepted_version m1 p Hok Hv Hf) as (He1 & _ & _).
  set (key := tenant_key (mu_TenantID m1) (pt_ID (mu_Token m1))) in *.
  set (n := match st_records p !! key with Some r => length (mr_events r) | None => O end) in *.
  assert (Hr1 : exists r1, st_records (applied m1 p) !! key = Some r1 /\ length (mr_events r1) = S n).
  { eexists. cbn. rewrite lookup_insert_eq. split; [reflexivity|]. cbn. rewrite length_app. unfold n, key.
    destruct (st_records p !! _); cbn; lia. }
  destruct Hr1 as (r1 & Hr1 & Hl1).
  assert (Hok1 : store_ok (applied m1 p)) by (rewrite <- E; by apply Apply_store_ok).
  destruct (steps_grow _ _ _ _ Hok1 Hs Hr1) as (Hok2 & r2' & Hr2' & [es Ees] & _).
  assert (r2' = r2) as -> by congruence.
  destruct (accepted_first _ _ _ Hi2 H2) as (Hv2 & Hf2 & _).
  destruct (accepted_version m2 p2 Hok2 Hv2 Hf2) as (He2 & _). rewrite Et, Eid in He2. fold key in He2.
  rewrite Hr2 in He2. rewrite Ees, length_app in Hlen, He2.
  rewrite Ev, He1, !u64_small in He2 by (unfold two64 in *; lia). lia.
Qed.

(** The audit events recorded for the token of a mutation. *)
Definition events_of (p : TokenStore) (m : Mutation) : list Event :=
  match st_records p !! tenant_key (mu_TenantID m) (pt_ID (mu_Token m)) with
  | Some r => mr_events r
  | None => []
  end.

(** Destroyed tokens stay destroyed: after an accepted deletion, whatever
    is applied later, the token cannot be loaded, its audit trail is exactly
    what it was plus the deletion's event, and every new mutation for its
    identifier is refused. *)
Theorem destroyed_token_final p p2 ctx m :
  rtc store_step NewMemoryPersistence p ->
  st_idempotency p !! tenant_key (mu_TenantID m) (mu_IdempotencyKey m) = None ->
  mu_DeleteToken m = true -> snd (Apply ctx m p) = None ->
  rtc store_step (fst (Apply ctx m p)) p2 ->
  Load LiveContext (mu_TenantID m) (pt_ID (mu_Token m)) p2 = Err SErrTokenNotFound
  /\ TokenEvents LiveContext (mu_TenantID m) (pt_ID (mu_Token m)) p2 = Ok (events_of p m ++ [mu_Event m])
  /\ forall ctx' m', mu_TenantID m' = mu_TenantID m -> pt_ID (mu_Token m') = pt_ID (mu_Token m) ->
       st_idempotency p2 !! tenant_key (mu_TenantID m') (mu_IdempotencyKey m') = None ->
       snd (Apply ctx' m' p2) <> None.
Proof.
  intros Hp Hi Hdel Ha Hs. pose proof (reachable_store_ok _ Hp) as Hok.
  destruct (accepted_first _ _ _ Hi Ha) as (Hv & Hf & E). rewrite E in Hs.
  pose proof (Apply_store_ok ctx m p Hok) as Hok1. rewrite E in Hok1.
  set (key := tenant_key (mu_TenantID m) (pt_ID (mu_Token m))) in *.
  assert (Hr : st_records (applied m p) !! key
               = Some {| mr_token := zero_token; mr_events := events_of p m ++ [mu_Event m] |}).
  { cbn. rewrite lookup_insert_eq, Hdel. done. }
  destruct (steps_grow _ _ _ _ Hok1 Hs Hr) as (Hok2 & r' & Hr' & _ & Hz). rewrite (Hz eq_refl) in Hr'.
  pose proof (valid_mutation_facts _ Hv) as (Ht & Hid & _).
  split_and!.
  - unfold Load. cbn [store_ctx]. rewrite Ht, Hid. cbn [negb orb]. fold key. by rewrite Hr'.
  - unfold TokenEvents. cbn [store_ctx]. rewrite Ht, Hid. cbn [negb orb]. fold key. by rewrite Hr'.
  - intros ctx' m' Et Eid Hi' Ha'. destruct (accepted_first _ _ _ Hi' Ha') as (Hv' & Hf' & _).
    destruct (accepted_version m' p2 Hok2 Hv' Hf') as (_ & _ & Hnz). rewrite Et, Eid in Hnz. fold key in Hnz.
    by apply (Hnz _ Hr').
Qed.
