(* ===== verification/NetTarget.v ===== *)
(** * Egress targets and the offline policy (internal/netlease/policy.go, first half)

    Which hosts, protocols and TLS fingerprints are well formed, and the
    immutable allowlist of exact targets with its logical resource IDs. *)

From S2P Require Import Prelude GoText IpAddr.
From stdpp Require Import sorting.
From Stdlib Require Import Ascii.

Open Scope list_scope.
Open Scope Z_scope.
Open Scope go_scope.

Inductive LeaseErr :=
| LErrExternalEgressDenied (host : string) (port : Z)
| LErrResourceNotAllowed | LErrPolicyEpoch | LErrLeaseExpired | LErrLeaseRevoked | LErrLeaseScope
| LErrLeaseScopeEpoch            (* ErrLeaseScope wrapping ErrPolicyEpoch *)
| LErrLeaseConsumed | LErrLeaseNotConsumed | LErrInvalidLease | LErrLeaseTTL
| LErrConfirmationRequired (cause : string)
| LErrConfirmationExpired | LErrUsageLimit | LErrConfirmationReplay | LErrTemporaryEgressDenied
| LErrRandom.

Record Target := { Host : string; Port : Z; Protocol : string }.

#[export] Instance Target_eq_dec : EqDecision Target.
Proof. solve_decision. Defined.
#[export] Instance Target_countable : Countable Target.
Proof.
  apply (inj_countable' (fun t => (Host t, Port t, Protocol t))
           (fun p => {| Host := fst (fst p); Port := snd (fst p); Protocol := snd p |})).
  by intros [].
Defined.

(** [net.ParseIP] succeeds on the addresses without a zone. *)
Definition ParseIP_ok (s : string) : bool :=
  match ParseAddr s with Some a => String.eqb (Zone a) "" | None => false end.

(** ** Well-formed targets *)

Definition safe_rune (r : Z) : bool := negb ((127 <? r) || IsSpace r || IsControl r || IsFormat r).
Definition safeNetworkToken (value : string) : bool := forallb safe_rune (runes value).

Definition label_rune (r : Z) : bool := ((97 <=? r) && (r <=? 122)) || ((48 <=? r) && (r <=? 57)) || (r =? 45).

(** The checks of one DNS label. *)
Definition label_ok (label : list ascii) : bool :=
  negb (Z.of_nat (length label) =? 0) && (Z.of_nat (length label) <=? 63)
  && negb (match head label with Some c => Ascii.eqb c "-"%char | None => false end)
  && negb (match last label with Some c => Ascii.eqb c "-"%char | None => false end)
  && forallb label_rune (map fst (decode_from 0 label)).

Definition label_numeric (label : list ascii) : bool :=
  forallb (fun r => (48 <=? r) && (r <=? 57)) (map fst (decode_from 0 label)).

Definition validHost (value : string) : bool :=
  return false when
    String.eqb value "" || negb (String.eqb value (TrimSpace value)) || negb (String.eqb value (ToLower value))
    || negb (safeNetworkToken value) || (253 <? len value) ;;
  return true when ParseIP_ok value ;;
  return false when
    ContainsAny value "/?#@:*[]\%" || HasPrefix value "." || HasSuffix value "." || Contains value ".." ;;
  let labels := split_on "."%char (bytes value) in
  return false when negb (forallb label_ok labels) ;;
  return false when forallb label_numeric labels ;;
  true.

Definition protocol_rune (r : Z) : bool :=
  ((97 <=? r) && (r <=? 122)) || ((48 <=? r) && (r <=? 57)) || (r =? 43) || (r =? 45) || (r =? 46).

Definition validProtocol (value : string) : bool :=
  return false when String.eqb value "" || negb (String.eqb value (ToLower value)) || (32 <? len value) ;;
  match runes value with
  | [] => true
  | r :: rs => (97 <=? r) && (r <=? 122) && forallb protocol_rune rs
  end.

Definition Validate (t : Target) : option LeaseErr :=
  return Some LErrResourceNotAllowed when negb (validHost (Host t)) ;;
  return Some LErrResourceNotAllowed when (Port t <=? 0) || (65535 <? Port t) ;;
  return Some LErrResourceNotAllowed when negb (validProtocol (Protocol t)) ;;
  None.

Definition valid_target (t : Target) : bool := match Validate t with None => true | Some _ => false end.

Definition fingerprint_prefix : string := "sha256:".

Definition ValidateTLSFingerprint (value : string) : option LeaseErr :=
  return Some LErrInvalidLease when
    negb (len value =? len fingerprint_prefix + 64) || negb (HasPrefix value fingerprint_prefix) ;;
  return Some LErrInvalidLease when
    negb (forallb (fun r => ((48 <=? r) && (r <=? 57)) || ((97 <=? r) && (r <=? 102)))
            (map fst (decode_from 0 (drop (String.length fingerprint_prefix) (bytes value))))) ;;
  None.

Definition safeAuditToken (value : string) : bool :=
  negb (String.eqb value "") && safeNetworkToken value && (len value <=? 128).

Definition validOpaque (value : string) (max : Z) : bool :=
  negb (String.eqb value "") && (len value <=? max) && safeNetworkToken value.

(** ** The offline policy *)

Record ResourceBinding := { rb_ID : string; rb_Target : Target }.

#[export] Instance ResourceBinding_eq_dec : EqDecision ResourceBinding.
Proof. solve_decision. Defined.

Record PolicySnapshot := { ps_Epoch : Z; ps_Resources : list ResourceBinding }.

Record OfflinePolicy := {
  internal : gset Target;
  hosts : gset string;
  resourceIDs : gmap string Target;
  pol_epoch : Z
}.

Definition newOfflinePolicy (resources : list Target) (ids : gmap string Target) (epoch : Z) : OfflinePolicy :=
  let good := List.filter valid_target resources in
  let internal := list_to_set good in
  {| internal := internal; hosts := list_to_set (map Host good);
     resourceIDs := filter (fun p => negb (String.eqb (fst p) "") && valid_target (snd p)
                                     && bool_decide (snd p ∈ internal) = true) ids;
     pol_epoch := epoch |}.

Definition NewOfflinePolicy (resources : list Target) : OfflinePolicy := newOfflinePolicy resources ∅ 0.
Definition NewOfflinePolicyWithEpoch (resources : list Target) (epoch : Z) : OfflinePolicy :=
  newOfflinePolicy resources ∅ epoch.

(** The loop over the bindings: the resources in order, and the first target of each ID. *)
Fixpoint collect_bindings (ids : gmap string Target) (bindings : list ResourceBinding)
  : list Target * gmap string Target :=
  match bindings with
  | [] => ([], ids)
  | b :: bs =>
      if negb (String.eqb (rb_ID b) "") && negb (safeNetworkToken (rb_ID b)) then collect_bindings ids bs
      else
        let ids := if String.eqb (rb_ID b) "" then ids
                   else match ids !! rb_ID b with
                        | None => <[rb_ID b := rb_Target b]> ids
                        | Some prior => if bool_decide (prior = rb_Target b)
                                        then <[rb_ID b := rb_Target b]> ids else ids
                        end in
        let '(rs, ids) := collect_bindings ids bs in
        (rb_Target b :: rs, ids)
  end.

Definition NewOfflinePolicyFromBindings (bindings : list ResourceBinding) (epoch : Z) : OfflinePolicy :=
  let '(resources, ids) := collect_bindings ∅ bindings in
  newOfflinePolicy resources ids epoch.

Definition Epoch (p : OfflinePolicy) : Z := pol_epoch p.

(** The order of [Snapshot]: by ID, host, port, protocol. *)
Definition binding_less (a b : ResourceBinding) : bool :=
  if negb (String.eqb (rb_ID a) (rb_ID b)) then String.ltb (rb_ID a) (rb_ID b)
  else if negb (String.eqb (Host (rb_Target a)) (Host (rb_Target b))) then
    String.ltb (Host (rb_Target a)) (Host (rb_Target b))
  else if negb (Port (rb_Target a) =? Port (rb_Target b)) then Port (rb_Target a) <? Port (rb_Target b)
  else String.ltb (Protocol (rb_Target a)) (Protocol (rb_Target b)).

Definition binding_le (a b : ResourceBinding) : Prop := binding_less b a = false.
#[export] Instance binding_le_dec a b : Decision (binding_le a b).
Proof. unfold binding_le. apply _. Defined.

(** The bindings of one target: one per ID, or one without an ID. *)
Definition target_bindings (p : OfflinePolicy) (t : Target) : list ResourceBinding :=
  match List.filter (fun q => bool_decide (snd q = t)) (map_to_list (resourceIDs p)) with
  | [] => [{| rb_ID := ""; rb_Target := t |}]
  | ids => map (fun q => {| rb_ID := fst q; rb_Target := t |}) ids
  end.

Definition Snapshot (p : OfflinePolicy) : PolicySnapshot :=
  {| ps_Epoch := pol_epoch p;
     ps_Resources := merge_sort binding_le (concat (map (target_bindings p) (elements (internal p)))) |}.

Definition Check_ (p : OfflinePolicy) (t : Target) : option LeaseErr :=
  return Some LErrResourceNotAllowed when negb (valid_target t) ;;
  return None when bool_decide (t ∈ internal p) ;;
  return Some LErrResourceNotAllowed when bool_decide (Host t ∈ hosts p) ;;
  Some (LErrExternalEgressDenied (Host t) (Port t)).

Definition CheckAt (p : OfflinePolicy) (t : Target) (epoch : Z) : option LeaseErr :=
  return Some LErrPolicyEpoch when negb (pol_epoch p =? 0) && negb (epoch =? pol_epoch p) ;;
  Check_ p t.

Definition CheckResource (p : OfflinePolicy) (id : string) (t : Target) (epoch : Z) : option LeaseErr :=
  return Some LErrResourceNotAllowed when negb (validOpaque id 256) ;;
  return Some LErrResourceNotAllowed when
    match resourceIDs p !! id with None => true | Some registered => negb (bool_decide (registered = t)) end ;;
  CheckAt p t epoch.

Example hosts_examples :
  map validHost ["db.internal"; "127.0.0.1"; "127.1"; "::1"; "fe80::1%eth0"; "a..b"; "A.b"; "-a.b"; "10.0.0.256";
                 "2001:db8::8a2e:370:7334"; "::ffff:192.0.2.1"; "1:2:3:4:5:6:7:8:9"]%string
  = [true; true; false; true; false; false; false; false; false; true; true; false].
Proof. vm_compute. reflexivity. Qed.

(** ** The offline policy: construction and description

    A policy built from bindings is well formed: every target on it is valid,
    its hosts are those of its targets, and its resource IDs are visible ASCII
    names of registered targets. Its [Snapshot], the description that goes
    into approval and audit records, loses nothing. *)

(** ** Well-formed policies *)

Record policy_ok (p : OfflinePolicy) : Prop := {
  po_internal : forall t, t ∈ internal p -> valid_target t = true;
  po_hosts : forall h, h ∈ hosts p <-> exists t, t ∈ internal p /\ Host t = h;
  po_ids : forall id t, resourceIDs p !! id = Some t ->
             id <> "" /\ safeNetworkToken id = true /\ valid_target t = true /\ t ∈ internal p
}.

Lemma policy_ext p q :
  (forall t, t ∈ internal p <-> t ∈ internal q) -> (forall h, h ∈ hosts p <-> h ∈ hosts q) ->
  (forall id t, resourceIDs p !! id = Some t <-> resourceIDs q !! id = Some t) ->
  pol_epoch p = pol_epoch q -> p = q.
Proof.
  destruct p as [i1 h1 r1 e1], q as [i2 h2 r2 e2]. cbn. intros Hi Hh Hr ->.
  assert (i1 = i2) as -> by by apply set_eq. assert (h1 = h2) as -> by by apply set_eq.
  assert (r1 = r2) as ->; [|done]. apply map_eq. intros id. apply option_eq. apply Hr.
Qed.

Lemma newOfflinePolicy_internal rs ids e t :
  t ∈ internal (newOfflinePolicy rs ids e) <-> t ∈ rs /\ valid_target t = true.
Proof.
  cbn [newOfflinePolicy internal]. rewrite elem_of_list_to_set, !list_elem_of_In, filter_In. tauto.
Qed.

Lemma newOfflinePolicy_hosts rs ids e h :
  h ∈ hosts (newOfflinePolicy rs ids e) <-> exists t, t ∈ internal (newOfflinePolicy rs ids e) /\ Host t = h.
Proof.
  cbn [newOfflinePolicy internal hosts]. rewrite elem_of_list_to_set, list_elem_of_fmap. split.
  - intros (t & -> & Ht). exists t. by rewrite elem_of_list_to_set.
  - intros (t & Ht & <-). exists t. by rewrite elem_of_list_to_set in Ht.
Qed.

Lemma newOfflinePolicy_ids rs ids e id t :
  resourceIDs (newOfflinePolicy rs ids e) !! id = Some t <->
  ids !! id = Some t /\ id <> "" /\ valid_target t = true /\ t ∈ internal (newOfflinePolicy rs ids e).
Proof.
  cbn [newOfflinePolicy internal resourceIDs]. rewrite map_lookup_filter_Some. cbn [fst snd].
  rewrite !andb_true_iff, negb_true_iff, String.eqb_neq, bool_decide_eq_true. tauto.
Qed.

(** *** The bindings *)

Definition binding_named (b : ResourceBinding) : Prop := rb_ID b = "" \/ safeNetworkToken (rb_ID b) = true.

Lemma collect_ids_safe bs ids :
  map_Forall (fun id _ => safeNetworkToken id = true) ids ->
  map_Forall (fun id (_ : Target) => safeNetworkToken id = true) (snd (collect_bindings ids bs)).
Proof.
  revert ids. induction bs as [|b bs IH]; intros ids H; cbn [collect_bindings]; [done|].
  destruct (negb _ && negb _) eqn:Hb; [by apply IH|].
  set (ids' := if String.eqb (rb_ID b) "" then ids else _). specialize (IH ids').
  destruct (collect_bindings ids' bs) as [rs ids'']. apply IH. subst ids'.
  destruct (String.eqb_spec (rb_ID b) "") as [|Hne]; [done|]. cbn [negb andb] in Hb. props.
  destruct (ids !! rb_ID b); [destruct (bool_decide _)|]; try done; by apply map_Forall_insert_2.
Qed.

(** On bindings whose IDs are names and agree with [G], nothing is skipped. *)
Lemma collect_consistent (G : gmap string Target) bs ids :
  Forall binding_named bs -> (forall b, b ∈ bs -> rb_ID b <> "" -> G !! rb_ID b = Some (rb_Target b)) -> ids ⊆ G ->
  let '(rs, ids') := collect_bindings ids bs in
  rs = map rb_Target bs /\ ids ⊆ ids' /\ ids' ⊆ G
  /\ forall b, b ∈ bs -> rb_ID b <> "" -> ids' !! rb_ID b = Some (rb_Target b).
Proof.
  revert ids. induction bs as [|b bs IH]; intros ids Hn HG Hids; cbn [collect_bindings].
  { split_and!; try done. intros b Hb. by apply elem_of_nil in Hb. }
  apply Forall_cons in Hn as [Hb Hn].
  assert (negb (String.eqb (rb_ID b) "") && negb (safeNetworkToken (rb_ID b)) = false) as ->.
  { destruct Hb as [-> | ->]; [done|]. apply andb_false_r. }
  set (ids' := if String.eqb (rb_ID b) "" then ids else _).
  assert (Hids' : ids ⊆ ids' /\ ids' ⊆ G /\ (rb_ID b <> "" -> ids' !! rb_ID b = Some (rb_Target b))).
  { subst ids'. destruct (String.eqb_spec (rb_ID b) "") as [|Hne]; [done|].
    pose proof (HG b (list_elem_of_here _ _) Hne) as HGb.
    assert (Hprior : ids !! rb_ID b = None \/ ids !! rb_ID b = Some (rb_Target b)).
    { destruct (ids !! rb_ID b) as [t|] eqn:Ht; [right|by left]. rewrite <- HGb. symmetry. by eapply lookup_weaken. }
    assert (Hins : ids ⊆ <[rb_ID b := rb_Target b]> ids /\ <[rb_ID b := rb_Target b]> ids ⊆ G).
    { split; [|by apply insert_subseteq_l]. destruct Hprior as [?|Hp]; [by apply insert_subseteq|].
      by rewrite insert_id. }
    destruct Hprior as [-> | ->]; [|rewrite bool_decide_eq_true_2 by done];
      (split_and!; [apply Hins|apply Hins|intros _; apply lookup_insert_eq]). }
  destruct Hids' as (H1 & H2 & H3). specialize (IH ids' Hn).
  destruct (collect_bindings ids' bs) as [rs ids'']. destruct IH as (-> & H4 & H5 & H6).
  - intros b' Hb'. apply HG. by right.
  - done.
  - split_and!; [done|by etrans|done|]. intros b' Hb' Hne. apply elem_of_cons in Hb' as [-> |Hb']; [|by apply H6].
    eapply lookup_weaken; [|exact H4]. by apply H3.
Qed.

Lemma from_bindings_ok bs e : policy_ok (NewOfflinePolicyFromBindings bs e).
Proof.
  unfold NewOfflinePolicyFromBindings. pose proof (collect_ids_safe bs ∅ (map_Forall_empty _)) as Hsafe.
  destruct (collect_bindings ∅ bs) as [rs ids]. cbn [snd] in Hsafe. split.
  - intros t Ht. by apply newOfflinePolicy_internal in Ht as [_ ?].
  - intros h. apply newOfflinePolicy_hosts.
  - intros id t Ht. apply newOfflinePolicy_ids in Ht as (Hid & ? & ? & ?). split_and!; try done. by apply Hsafe in Hid.
Qed.

(** ** The snapshot *)

Lemma target_bindings_spec p t b :
  b ∈ target_bindings p t <->
  rb_Target b = t /\ ((resourceIDs p !! rb_ID b = Some t) \/ (rb_ID b = "" /\ forall id, resourceIDs p !! id <> Some t)).
Proof.
  unfold target_bindings. set (L := List.filter _ _).
  assert (HL : forall q, q ∈ L <-> resourceIDs p !! fst q = Some (snd q) /\ snd q = t).
  { intros [id u]. subst L. rewrite list_elem_of_In, filter_In, <- list_elem_of_In, elem_of_map_to_list.
    by rewrite bool_decide_eq_true. }
  destruct L as [|q L'] eqn:E.
  - rewrite list_elem_of_singleton. split.
    + intros ->. cbn. split; [done|]. right. split; [done|]. intros id Hid.
      apply (elem_of_nil (A := string * Target) (id, t)), HL. done.
    + intros [Ht [Hid|[Hid _]]]; [|destruct b; cbn in *; by subst].
      exfalso. apply (elem_of_nil (A := string * Target) (rb_ID b, t)), HL. done.
  - rewrite list_elem_of_fmap. split.
    + intros (r & -> & Hr). apply HL in Hr as [Hr Hs]. cbn. split; [done|]. left. by rewrite Hr, Hs.
    + intros [Ht [Hid|[_ Hno]]].
      * exists (rb_ID b, t). split; [by destruct b; cbn in *; subst|]. by apply HL.
      * exfalso. destruct (proj1 (HL q) (list_elem_of_here _ _)) as [H1 H2]. apply (Hno (fst q)). by rewrite H1, H2.
Qed.

Lemma Snapshot_spec p b :
  b ∈ ps_Resources (Snapshot p) <->
  rb_Target b ∈ internal p
  /\ (resourceIDs p !! rb_ID b = Some (rb_Target b) \/ (rb_ID b = "" /\ forall id, resourceIDs p !! id <> Some (rb_Target b))).
Proof.
  cbn [Snapshot ps_Resources]. rewrite merge_sort_Permutation, list_elem_of_In, in_concat. split.
  - intros (l & Hl & Hb). apply list_elem_of_In in Hl; apply list_elem_of_In in Hb. apply list_elem_of_fmap in Hl as (t & -> & Ht).
    apply elem_of_elements in Ht. apply target_bindings_spec in Hb as [-> ?]. done.
  - intros [Ht Hb]. exists (target_bindings p (rb_Target b)). rewrite <- !list_elem_of_In. split.
    + apply list_elem_of_fmap. exists (rb_Target b). by rewrite elem_of_elements.
    + by apply target_bindings_spec.
Qed.

(** Every target of the policy is described. *)
Lemma Snapshot_covers p t : t ∈ internal p -> exists b, b ∈ ps_Resources (Snapshot p) /\ rb_Target b = t.
Proof.
  intros Ht. destruct (target_bindings p t) as [|b l] eqn:E.
  - exfalso. unfold target_bindings in E. destruct (List.filter _ _); done.
  - assert (Hb : b ∈ target_bindings p t) by (rewrite E; left).
    apply target_bindings_spec in Hb as [<- Hb]. exists b. split; [|done]. by apply Snapshot_spec.
Qed.

(** A snapshot loses nothing: building a policy from the resources and the
    epoch that the snapshot of a policy lists gives that policy back, with the
    same targets, the same hosts and the same resource IDs. *)
Theorem policy_snapshot_roundtrip bs e :
  let p := NewOfflinePolicyFromBindings bs e in
  NewOfflinePolicyFromBindings (ps_Resources (Snapshot p)) (ps_Epoch (Snapshot p)) = p.
Proof.
  intros p. destruct (from_bindings_ok bs e) as [Hint Hhosts Hids]. fold p in Hint, Hhosts, Hids.
  assert (He : ps_Epoch (Snapshot p) = pol_epoch p) by done. rewrite He. set (L := ps_Resources (Snapshot p)).
  assert (HL := Snapshot_spec p). fold L in HL.
  unfold NewOfflinePolicyFromBindings at 1.
  pose proof (collect_consistent (resourceIDs p) L ∅) as Hc.
  destruct (collect_bindings ∅ L) as [rs ids]. destruct Hc as (-> & _ & Hsub & Hin).
  { apply Forall_forall. intros b Hb. apply HL in Hb as [_ [Hb|[Hb _]]]; [right|by left]. by apply Hids in Hb as (_ & ? & _). }
  { intros b Hb Hne. by apply HL in Hb as [_ [Hb|[? _]]]. }
  { apply map_empty_subseteq. }
  assert (Hinternal : forall t, t ∈ internal (newOfflinePolicy (map rb_Target L) ids (pol_epoch p)) <-> t ∈ internal p).
  { intros t. rewrite newOfflinePolicy_internal, list_elem_of_fmap. split.
    - intros [(b & -> & Hb) _]. by apply HL in Hb as [? _].
    - intros Ht. split; [|by apply Hint]. destruct (Snapshot_covers _ _ Ht) as (b & Hb & <-). by exists b. }
  assert (Hall : ids = resourceIDs p).
  { apply (anti_symm (⊆)); [done|]. apply map_subseteq_spec. intros id t Ht.
    apply (Hin {| rb_ID := id; rb_Target := t |}); [|by apply Hids in Ht as [? _]]. apply HL. cbn. split; [by apply Hids in Ht as (_ & _ & _ & ?)|by left]. }
  apply policy_ext; [..|done].
  - exact Hinternal.
  - intros h. rewrite newOfflinePolicy_hosts, Hhosts. by setoid_rewrite Hinternal.
  - intros id t. rewrite newOfflinePolicy_ids, Hinternal, Hall. split; [by intros []|].
    intros Ht. split; [done|]. by apply Hids in Ht as (? & _ & ? & ?).
Qed.
