(* ===== verification/NetLease.v ===== *)
(** * Socket leases (internal/netlease/policy.go, second half)

    [Manager] issues short-lived, one-shot leases for a plugin's egress to one
    target, checks and consumes them, and records what became of them.

    [Issue] releases the manager's mutex between its checks and its commit, so
    it is three definitions: [issue_begin] and [issue_commit] are its critical
    sections, [issue_prepare] the checks in between, on the values the code
    read. [Issue] composes them for a caller that is alone; the transitions of
    NetLeaseFacts let any other operations come in between. *)

From S2P Require Import Prelude GoText NetTarget.

Open Scope list_scope.
Open Scope Z_scope.
Open Scope go_scope.

Definition MaxLeaseTTL : Duration := 10 * Minute.

(** [err.Error()], as recorded in the audit trail. *)
Definition LeaseError (e : LeaseErr) : string :=
  match e with
  | LErrExternalEgressDenied h p => "external egress denied: " ++ h ++ ":" ++ itoa p
  | LErrResourceNotAllowed => "resource is not allowed"
  | LErrPolicyEpoch => "network policy epoch mismatch"
  | LErrLeaseExpired => "socket lease expired"
  | LErrLeaseRevoked => "socket lease revoked"
  | LErrLeaseScope => "socket lease scope mismatch"
  | LErrLeaseScopeEpoch => "socket lease scope mismatch: network policy epoch mismatch"
  | LErrLeaseConsumed => "socket lease already consumed"
  | LErrLeaseNotConsumed => "socket lease has not been consumed"
  | LErrInvalidLease => "invalid socket lease"
  | LErrLeaseTTL => "socket lease TTL exceeds platform limit"
  | LErrConfirmationRequired "" => "administrator confirmation is required"
  | LErrConfirmationRequired cause => "administrator confirmation is required: " ++ cause
  | LErrConfirmationExpired => "administrator confirmation expired"
  | LErrUsageLimit => "socket lease usage limit exceeded"
  | LErrConfirmationReplay => "administrator confirmation already used"
  | LErrTemporaryEgressDenied => "temporary egress is not enabled"
  | LErrRandom => "random source failed"
  end.

(** ** Data *)

Record IssueRequest := {
  ir_PluginID : string;
  ir_PluginVersion : string;
  ir_Target : Target;
  ir_TLSFingerprint : string;
  ir_PolicyEpoch : Z;
  ir_ConfirmationID : string;
  ir_TTL : Duration;
  ir_TemporaryEgress : bool;
  ir_ResourceID : string;
  ir_OperatorID : string;
  ir_ConfirmationExpiresAt : Time;
  ir_MaxBytes : Z;
  ir_MaxRequests : Z
}.

Record RequestScope := {
  sc_PluginID : string;
  sc_PluginVersion : string;
  sc_Target : Target;
  sc_TLSFingerprint : string;
  sc_PolicyEpoch : Z;
  sc_ResourceID : string;
  sc_OperatorID : string;
  sc_TemporaryEgress : bool
}.

Record Lease := {
  le_ID : string;
  le_PluginID : string;
  le_PluginVersion : string;
  le_Target : Target;
  le_TLSFingerprint : string;
  le_PolicyEpoch : Z;
  le_ConfirmationID : string;
  le_ResourceID : string;
  le_OperatorID : string;
  le_IssuedAt : Time;
  le_ExpiresAt : Time;
  le_ConfirmationExpiresAt : Time;
  le_TemporaryEgress : bool;
  le_Revoked : bool;
  le_Consumed : bool;
  le_Completed : bool;
  le_LastResult : string;
  le_MaxBytes : Z;
  le_MaxRequests : Z;
  le_Bytes : Z;
  le_Requests : Z
}.

Record LeaseEvent := {
  la_LeaseID : string;
  la_Action : string;
  la_PluginID : string;
  la_PluginVersion : string;
  la_TargetHost : string;
  la_TargetProtocol : string;
  la_ConfirmationID : string;
  la_ResourceID : string;
  la_OperatorID : string;
  la_TLSFingerprint : string;
  la_TargetPort : Z;
  la_PolicyEpoch : Z;
  la_TemporaryEgress : bool;
  la_Bytes : Z;
  la_BytesSent : Z;
  la_BytesReceived : Z;
  la_Requests : Z;
  la_Result : string;
  la_Reason : string;
  la_At : Time
}.

Record Usage := { us_BytesSent : Z; us_BytesReceived : Z; us_Result : string }.

Record ConfirmationRequest := {
  cr_ID : string;
  cr_OperatorID : string;
  cr_PluginID : string;
  cr_PluginVersion : string;
  cr_ResourceID : string;
  cr_Target : Target;
  cr_TLSFingerprint : string;
  cr_PolicyEpoch : Z;
  cr_TTL : Duration;
  cr_ConfirmationExpiresAt : Time;
  cr_TemporaryEgress : bool;
  cr_MaxBytes : Z
}.

(** The verifier of the control plane, code outside the package: [None] is a
    nil error, [Some msg] an error with that text. *)
Definition ConfirmationVerifier : Type := ConfirmationRequest -> option string.

Record ManagerOptions := {
  mo_Policy : OfflinePolicy;
  mo_RequirePolicy : bool;
  mo_RequireConfirmation : bool;
  mo_ConsumeConfirmation : bool;
  mo_AllowTemporaryEgress : bool;
  mo_ConfirmationVerifier : option ConfirmationVerifier
}.

Record Manager := {
  lm_leases : gmap string Lease;
  lm_audit : list LeaseEvent;
  lm_policy : OfflinePolicy;
  lm_requirePolicy : bool;
  lm_requireConfirmation : bool;
  lm_verifier : option ConfirmationVerifier;
  lm_consumeConfirmation : bool;
  lm_allowTemporaryEgress : bool;
  lm_confirmations : gmap string Time
}.

Definition NewManagerWithOptions (opts : ManagerOptions) : Manager := {|
  lm_leases := ∅; lm_audit := []; lm_policy := mo_Policy opts;
  lm_requirePolicy := mo_RequirePolicy opts; lm_requireConfirmation := mo_RequireConfirmation opts;
  lm_verifier := mo_ConfirmationVerifier opts; lm_consumeConfirmation := mo_ConsumeConfirmation opts;
  lm_allowTemporaryEgress := mo_AllowTemporaryEgress opts; lm_confirmations := ∅ |}.

Definition NewSecureManager (policy : OfflinePolicy) (verifier : option ConfirmationVerifier) : Manager :=
  NewManagerWithOptions {| mo_Policy := policy; mo_RequirePolicy := true; mo_RequireConfirmation := false;
                           mo_ConsumeConfirmation := true; mo_AllowTemporaryEgress := true;
                           mo_ConfirmationVerifier := verifier |}.

(** The manager with new leases, audit trail and confirmations. *)
Definition with_state (m : Manager) (leases : gmap string Lease) (audit : list LeaseEvent)
    (confirmations : gmap string Time) : Manager := {|
  lm_leases := leases; lm_audit := audit; lm_policy := lm_policy m;
  lm_requirePolicy := lm_requirePolicy m; lm_requireConfirmation := lm_requireConfirmation m;
  lm_verifier := lm_verifier m; lm_consumeConfirmation := lm_consumeConfirmation m;
  lm_allowTemporaryEgress := lm_allowTemporaryEgress m; lm_confirmations := confirmations |}.

Definition put_lease (m : Manager) (id : string) (l : Lease) : Manager :=
  with_state m (<[id := l]> (lm_leases m)) (lm_audit m) (lm_confirmations m).

(** ** The audit trail *)

Definition audit_capacity : nat := 4096.

Definition appendAuditLocked (m : Manager) (e : LeaseEvent) : Manager :=
  let a := lm_audit m in
  let a := if (audit_capacity <=? length a)%nat then drop (length a - audit_capacity + 1) a else a in
  with_state m (lm_leases m) (a ++ [e]) (lm_confirmations m).

Definition eventLocked (l : Lease) (action : string) (bytes requests : Z) (result : string) (at_ : Time)
  : LeaseEvent := {|
  la_LeaseID := le_ID l; la_Action := action; la_PluginID := le_PluginID l;
  la_PluginVersion := le_PluginVersion l; la_TargetHost := Host (le_Target l);
  la_TargetProtocol := Protocol (le_Target l); la_ConfirmationID := le_ConfirmationID l;
  la_ResourceID := le_ResourceID l; la_OperatorID := le_OperatorID l;
  la_TLSFingerprint := le_TLSFingerprint l; la_TargetPort := Port (le_Target l);
  la_PolicyEpoch := le_PolicyEpoch l; la_TemporaryEgress := le_TemporaryEgress l; la_Bytes := bytes;
  la_BytesSent := 0; la_BytesReceived := 0; la_Requests := requests; la_Result := result;
  la_Reason := result; la_At := at_ |}.

Definition eventForScope (leaseID : string) (s : RequestScope) (action result : string) (at_ : Time)
  : LeaseEvent := {|
  la_LeaseID := leaseID; la_Action := action; la_PluginID := sc_PluginID s;
  la_PluginVersion := sc_PluginVersion s; la_TargetHost := Host (sc_Target s);
  la_TargetProtocol := Protocol (sc_Target s); la_ConfirmationID := "";
  la_ResourceID := sc_ResourceID s; la_OperatorID := sc_OperatorID s;
  la_TLSFingerprint := sc_TLSFingerprint s; la_TargetPort := Port (sc_Target s);
  la_PolicyEpoch := sc_PolicyEpoch s; la_TemporaryEgress := sc_TemporaryEgress s; la_Bytes := 0;
  la_BytesSent := 0; la_BytesReceived := 0; la_Requests := 0; la_Result := result;
  la_Reason := result; la_At := at_ |}.

(** [event.BytesSent = sent; event.BytesReceived = received]. *)
Definition with_directions (e : LeaseEvent) (sent received : Z) : LeaseEvent := {|
  la_LeaseID := la_LeaseID e; la_Action := la_Action e; la_PluginID := la_PluginID e;
  la_PluginVersion := la_PluginVersion e; la_TargetHost := la_TargetHost e;
  la_TargetProtocol := la_TargetProtocol e; la_ConfirmationID := la_ConfirmationID e;
  la_ResourceID := la_ResourceID e; la_OperatorID := la_OperatorID e;
  la_TLSFingerprint := la_TLSFingerprint e; la_TargetPort := la_TargetPort e;
  la_PolicyEpoch := la_PolicyEpoch e; la_TemporaryEgress := la_TemporaryEgress e;
  la_Bytes := la_Bytes e; la_BytesSent := sent; la_BytesReceived := received;
  la_Requests := la_Requests e; la_Result := la_Result e; la_Reason := la_Reason e; la_At := la_At e |}.

(** ** Policy updates *)

(** Run with the write side of the execution gate held. *)
Definition UpdatePolicy (policy : OfflinePolicy) (m : Manager) : Manager * option LeaseErr :=
  return (m, Some LErrPolicyEpoch) when pol_epoch policy =? 0 ;;
  return (m, Some LErrPolicyEpoch) when
    lm_requirePolicy m && negb (pol_epoch (lm_policy m) =? 0) && (pol_epoch policy <=? pol_epoch (lm_policy m)) ;;
  ({| lm_leases := lm_leases m; lm_audit := lm_audit m; lm_policy := policy; lm_requirePolicy := true;
      lm_requireConfirmation := lm_requireConfirmation m; lm_verifier := lm_verifier m;
      lm_consumeConfirmation := lm_consumeConfirmation m;
      lm_allowTemporaryEgress := lm_allowTemporaryEgress m;
      lm_confirmations := lm_confirmations m |}, None).

(** ** Issue *)

Definition prune_budget : nat := 128.

(** [leases] and [confirmations] list the maps in the order that [range] picks. *)
Definition pruneLocked (now : Time) (leases : list (string * Lease)) (confirmations : list (string * Time))
    (m : Manager) : Manager :=
  let old_lease (p : string * Lease) := negb (Before now (TimeAdd (le_ExpiresAt (snd p)) MaxLeaseTTL)) in
  let old_confirmation (p : string * Time) := negb (Before now (snd p)) in
  with_state m
    (fold_left (fun ls p => if old_lease p then delete (fst p) ls else ls) (take prune_budget leases) (lm_leases m))
    (lm_audit m)
    (fold_left (fun cs p => if old_confirmation p then delete (fst p) cs else cs)
       (take prune_budget confirmations) (lm_confirmations m)).

(** The flags read in the first critical section. *)
Record IssueFlags := {
  fl_requirePolicy : bool;
  fl_requireConfirmation : bool;
  fl_verifier : option ConfirmationVerifier;
  fl_allowTemporaryEgress : bool;
  fl_consumeConfirmation : bool
}.

Definition flags_of (m : Manager) : IssueFlags :=
  {| fl_requirePolicy := lm_requirePolicy m; fl_requireConfirmation := lm_requireConfirmation m;
     fl_verifier := lm_verifier m; fl_allowTemporaryEgress := lm_allowTemporaryEgress m;
     fl_consumeConfirmation := lm_consumeConfirmation m |}.

Definition table_limit : Z := 65536.

Definition issue_begin (now : Time) (leases : list (string * Lease)) (confirmations : list (string * Time))
    (m : Manager) : Manager * result LeaseErr IssueFlags :=
  let m := pruneLocked now leases confirmations m in
  return (m, Err LErrUsageLimit) when
    (table_limit <=? Z.of_nat (size (lm_leases m))) || (table_limit <=? Z.of_nat (size (lm_confirmations m))) ;;
  (m, Ok (flags_of m)).

(** [errors.Is(err, ErrExternalEgressDenied)]. *)
Definition is_external (e : LeaseErr) : bool := match e with LErrExternalEgressDenied _ _ => true | _ => false end.

Definition checkIssuePolicy (policy : OfflinePolicy) (r : IssueRequest) (allowTemporaryEgress : bool)
  : option LeaseErr :=
  return Some LErrPolicyEpoch when pol_epoch policy =? 0 ;;
  let has_ids := 0 <? Z.of_nat (size (resourceIDs policy)) in
  let no_id := String.eqb (ir_ResourceID r) "" in
  return Some LErrResourceNotAllowed when has_ids && no_id && negb (ir_TemporaryEgress r) ;;
  let policyErr := if negb no_id then CheckResource policy (ir_ResourceID r) (ir_Target r) (ir_PolicyEpoch r)
                   else CheckAt policy (ir_Target r) (ir_PolicyEpoch r) in
  match policyErr with
  | None => return Some LErrResourceNotAllowed when has_ids && no_id ;; None
  | Some e =>
      return Some LErrResourceNotAllowed when ir_TemporaryEgress r && negb no_id && is_external e ;;
      return Some e when negb (ir_TemporaryEgress r && allowTemporaryEgress && is_external e) ;;
      None
  end.

(** The form checks of the request, under the flags read at the beginning. *)
Definition request_check (flags : IssueFlags) (r : IssueRequest) (now : Time) : option LeaseErr :=
  return Some LErrInvalidLease when
    negb (validOpaque (ir_PluginID r) 256) || negb (validOpaque (ir_PluginVersion r) 128)
    || negb (valid_target (ir_Target r)) || negb (validOpaque (ir_TLSFingerprint r) 256)
    || (ir_PolicyEpoch r =? 0) || negb (validOpaque (ir_ConfirmationID r) 256) || (ir_TTL r <=? 0) ;;
  return Some LErrInvalidLease when
    (fl_requirePolicy flags || ir_TemporaryEgress r)
    && match ValidateTLSFingerprint (ir_TLSFingerprint r) with Some _ => true | None => false end ;;
  return Some LErrInvalidLease when
    (negb (String.eqb (ir_ResourceID r) "") && negb (validOpaque (ir_ResourceID r) 256))
    || (negb (String.eqb (ir_OperatorID r) "") && negb (validOpaque (ir_OperatorID r) 128)) ;;
  return Some LErrLeaseTTL when MaxLeaseTTL <? ir_TTL r ;;
  return Some LErrInvalidLease when (ir_MaxBytes r <? 0) || (ir_MaxRequests r <? 0) || (1 <? ir_MaxRequests r) ;;
  return Some LErrConfirmationExpired when
    negb (IsZero (ir_ConfirmationExpiresAt r)) && negb (Before now (ir_ConfirmationExpiresAt r)) ;;
  None.

Definition confirmation_request (r : IssueRequest) : ConfirmationRequest :=
  {| cr_ID := ir_ConfirmationID r; cr_OperatorID := ir_OperatorID r; cr_PluginID := ir_PluginID r;
     cr_PluginVersion := ir_PluginVersion r; cr_ResourceID := ir_ResourceID r; cr_Target := ir_Target r;
     cr_TLSFingerprint := ir_TLSFingerprint r; cr_PolicyEpoch := ir_PolicyEpoch r; cr_TTL := ir_TTL r;
     cr_ConfirmationExpiresAt := ir_ConfirmationExpiresAt r; cr_TemporaryEgress := ir_TemporaryEgress r;
     cr_MaxBytes := ir_MaxBytes r |}.

Definition verifies (flags : IssueFlags) (r : IssueRequest) : bool :=
  match fl_verifier flags with
  | Some _ => fl_requireConfirmation flags || ir_TemporaryEgress r
  | None => false
  end.

(** The approval checks: temporary egress, operator, verifier, replay. [used]
    is the test of the confirmation ID in the middle critical section. *)
Definition approval_check (flags : IssueFlags) (r : IssueRequest) (used : bool) : option LeaseErr :=
  let no_operator := negb (validOpaque (ir_OperatorID r) 128)
                     || match fl_verifier flags with None => true | Some _ => false end in
  return Some LErrTemporaryEgressDenied when ir_TemporaryEgress r && negb (fl_allowTemporaryEgress flags) ;;
  return Some (LErrConfirmationRequired "") when ir_TemporaryEgress r && no_operator ;;
  return Some (LErrConfirmationRequired "") when fl_requireConfirmation flags && no_operator ;;
  match fl_verifier flags with
  | Some verifier =>
      return None when negb (fl_requireConfirmation flags || ir_TemporaryEgress r) ;;
      return Some LErrConfirmationReplay when fl_consumeConfirmation flags && used ;;
      match verifier (confirmation_request r) with
      | Some cause => Some (LErrConfirmationRequired cause)
      | None => None
      end
  | None => None
  end.

Definition new_lease (id : string) (r : IssueRequest) (now : Time) : Lease :=
  let expiresAt := TimeAdd now (ir_TTL r) in
  {| le_ID := id; le_PluginID := ir_PluginID r; le_PluginVersion := ir_PluginVersion r;
     le_Target := ir_Target r; le_TLSFingerprint := ir_TLSFingerprint r; le_PolicyEpoch := ir_PolicyEpoch r;
     le_ConfirmationID := ir_ConfirmationID r; le_ResourceID := ir_ResourceID r;
     le_OperatorID := ir_OperatorID r; le_IssuedAt := now;
     le_ExpiresAt := if negb (IsZero (ir_ConfirmationExpiresAt r)) && Before (ir_ConfirmationExpiresAt r) expiresAt
                     then ir_ConfirmationExpiresAt r else expiresAt;
     le_ConfirmationExpiresAt := ir_ConfirmationExpiresAt r; le_TemporaryEgress := ir_TemporaryEgress r;
     le_Revoked := false; le_Consumed := false; le_Completed := false; le_LastResult := "";
     le_MaxBytes := ir_MaxBytes r;
     le_MaxRequests := if ir_MaxRequests r =? 0 then 1 else ir_MaxRequests r;
     le_Bytes := 0; le_Requests := 0 |}.

(** The checks between the critical sections: [policy] and [used] are what the
    two middle sections read, [raw] the 16 random bytes of the identifier. *)
Definition issue_prepare (flags : IssueFlags) (policy : OfflinePolicy) (used : bool) (raw : option (list Z))
    (now : Time) (r : IssueRequest) : result LeaseErr Lease :=
  match request_check flags r now with
  | Some e => Err e
  | None =>
  match (if fl_requirePolicy flags then checkIssuePolicy policy r (fl_allowTemporaryEgress flags) else None) with
  | Some e => Err e
  | None =>
  match approval_check flags r used with
  | Some e => Err e
  | None =>
  match raw with
  | None => Err LErrRandom
  | Some bytes => Ok (new_lease (EncodeHex bytes) r now)
  end
  end
  end
  end.

Definition issue_commit (flags : IssueFlags) (now : Time) (r : IssueRequest) (l : Lease) (m : Manager)
  : Manager * result LeaseErr Lease :=
  return (m, Err LErrPolicyEpoch) when lm_requirePolicy m && negb (pol_epoch (lm_policy m) =? ir_PolicyEpoch r) ;;
  match (if lm_requirePolicy m then checkIssuePolicy (lm_policy m) r (lm_allowTemporaryEgress m) else None) with
  | Some e => (m, Err e)
  | None =>
      let consume := fl_consumeConfirmation flags && verifies flags r in
      return (m, Err LErrConfirmationReplay) when consume && has (lm_confirmations m) (ir_ConfirmationID r) ;;
      let confirmations := if consume then <[ir_ConfirmationID r := TimeAdd now MaxLeaseTTL]> (lm_confirmations m)
                           else lm_confirmations m in
      let m := with_state m (<[le_ID l := l]> (lm_leases m)) (lm_audit m) confirmations in
      (appendAuditLocked m (eventLocked l "issued" 0 0 "issued" now), Ok l)
  end.

(** [Issue] by a caller that no other operation interrupts. *)
Definition Issue (now : Time) (leases : list (string * Lease)) (confirmations : list (string * Time))
    (raw : option (list Z)) (r : IssueRequest) (m : Manager) : Manager * result LeaseErr Lease :=
  match issue_begin now leases confirmations m with
  | (m, Err e) => (m, Err e)
  | (m, Ok flags) =>
      match issue_prepare flags (lm_policy m) (has (lm_confirmations m) (ir_ConfirmationID r)) raw now r with
      | Err e => (m, Err e)
      | Ok l => issue_commit flags now r l m
      end
  end.

Definition with_temporary (r : IssueRequest) : IssueRequest :=
  {| ir_PluginID := ir_PluginID r; ir_PluginVersion := ir_PluginVersion r; ir_Target := ir_Target r;
     ir_TLSFingerprint := ir_TLSFingerprint r; ir_PolicyEpoch := ir_PolicyEpoch r;
     ir_ConfirmationID := ir_ConfirmationID r; ir_TTL := ir_TTL r; ir_TemporaryEgress := true;
     ir_ResourceID := ir_ResourceID r; ir_OperatorID := ir_OperatorID r;
     ir_ConfirmationExpiresAt := ir_ConfirmationExpiresAt r; ir_MaxBytes := ir_MaxBytes r;
     ir_MaxRequests := ir_MaxRequests r |}.

Definition IssueTemporary (now : Time) (leases : list (string * Lease)) (confirmations : list (string * Time))
    (raw : option (list Z)) (r : IssueRequest) (m : Manager) : Manager * result LeaseErr Lease :=
  Issue now leases confirmations raw (with_temporary r) m.

(** ** Use *)

Definition leaseMatchesScope (stored : Lease) (s : RequestScope) : bool :=
  String.eqb (le_PluginID stored) (sc_PluginID s) && String.eqb (le_PluginVersion stored) (sc_PluginVersion s)
  && bool_decide (le_Target stored = sc_Target s) && String.eqb (le_TLSFingerprint stored) (sc_TLSFingerprint s)
  && (le_PolicyEpoch stored =? sc_PolicyEpoch s) && String.eqb (le_ResourceID stored) (sc_ResourceID s)
  && String.eqb (le_OperatorID stored) (sc_OperatorID s)
  && Bool.eqb (le_TemporaryEgress stored) (sc_TemporaryEgress s).

Definition validateLocked (m : Manager) (id : string) (s : RequestScope) (now : Time) : result LeaseErr Lease :=
  match lm_leases m !! id with
  | None => Err LErrInvalidLease
  | Some stored =>
      return Err LErrLeaseRevoked when le_Revoked stored ;;
      return Err LErrConfirmationExpired when
        negb (IsZero (le_ConfirmationExpiresAt stored)) && negb (Before now (le_ConfirmationExpiresAt stored)) ;;
      return Err LErrLeaseExpired when negb (Before now (le_ExpiresAt stored)) ;;
      return Err LErrLeaseScopeEpoch when
        lm_requirePolicy m && negb (pol_epoch (lm_policy m) =? 0)
        && negb (le_PolicyEpoch stored =? pol_epoch (lm_policy m)) ;;
      return Err LErrLeaseScope when negb (leaseMatchesScope stored s) ;;
      Ok stored
  end.

Definition Authorize (now : Time) (id : string) (s : RequestScope) (m : Manager) : Manager * option LeaseErr :=
  match validateLocked m id s now with
  | Err e => (appendAuditLocked m (eventForScope id s "authorization_denied" (LeaseError e) now), Some e)
  | Ok stored =>
      return (appendAuditLocked m (eventLocked stored "authorization_denied" 0 (le_Requests stored)
                                     (LeaseError LErrLeaseConsumed) now), Some LErrLeaseConsumed)
        when le_Consumed stored ;;
      (appendAuditLocked m (eventLocked stored "authorized" 0 0 "authorized" now), None)
  end.

(** The flags and counters of a lease. *)
Definition with_use (l : Lease) (revoked consumed completed : bool) (last_result : string) (bytes requests : Z)
  : Lease := {|
  le_ID := le_ID l; le_PluginID := le_PluginID l; le_PluginVersion := le_PluginVersion l;
  le_Target := le_Target l; le_TLSFingerprint := le_TLSFingerprint l; le_PolicyEpoch := le_PolicyEpoch l;
  le_ConfirmationID := le_ConfirmationID l; le_ResourceID := le_ResourceID l;
  le_OperatorID := le_OperatorID l; le_IssuedAt := le_IssuedAt l; le_ExpiresAt := le_ExpiresAt l;
  le_ConfirmationExpiresAt := le_ConfirmationExpiresAt l; le_TemporaryEgress := le_TemporaryEgress l;
  le_Revoked := revoked; le_Consumed := consumed; le_Completed := completed; le_LastResult := last_result;
  le_MaxBytes := le_MaxBytes l; le_MaxRequests := le_MaxRequests l; le_Bytes := bytes;
  le_Requests := requests |}.

(** [Consumed = true; Requests++]. *)
Definition spend (l : Lease) : Lease :=
  with_use l (le_Revoked l) true (le_Completed l) (le_LastResult l) (le_Bytes l) (i64 (le_Requests l + 1)).

Definition consumeLocked (now : Time) (id : string) (s : RequestScope) (m : Manager)
  : Manager * result LeaseErr Lease :=
  match validateLocked m id s now with
  | Err e => (appendAuditLocked m (eventForScope id s "consume_denied" (LeaseError e) now), Err e)
  | Ok stored =>
      let denied e := (appendAuditLocked m (eventLocked stored "consume_denied" 0 (le_Requests stored)
                                              (LeaseError e) now), Err e) in
      if le_Consumed stored || ((0 <? le_MaxRequests stored) && (le_MaxRequests stored <=? le_Requests stored))
      then if le_Consumed stored then denied LErrLeaseConsumed else denied LErrUsageLimit
      else
        let stored := spend stored in
        (appendAuditLocked (put_lease m (le_ID stored) stored)
           (eventLocked stored "consumed" 0 (le_Requests stored) "consumed" now), Ok stored)
  end.

Definition Consume (now : Time) (id : string) (s : RequestScope) (m : Manager) : Manager * option LeaseErr :=
  match consumeLocked now id s m with
  | (m, Ok _) => (m, None)
  | (m, Err e) => (m, Some e)
  end.

Definition AuthorizeOnce := Consume.

(** The reader side of the execution gate: [readers] counts the holders. On
    success the caller holds one more until its release. *)
Definition AcquireUse (now : Time) (id : string) (s : RequestScope) (readers : nat) (m : Manager)
  : Manager * nat * result LeaseErr Lease :=
  match consumeLocked now id s m with
  | (m, Ok stored) => (m, S readers, Ok stored)
  | (m, Err e) => (m, readers, Err e)
  end.

(** ** Results *)

(** The recording of a result for a lease that passed validation; [event]
    gives the audit event its directional counters. *)
Definition record_result (now : Time) (stored : Lease) (total : Z) (result : string)
    (event : LeaseEvent -> LeaseEvent) (m : Manager) : Manager * option LeaseErr :=
  let denied bytes e := (appendAuditLocked m (eventLocked stored "result_denied" bytes (le_Requests stored)
                                                (LeaseError e) now), Some e) in
  return denied 0 LErrLeaseNotConsumed when negb (le_Consumed stored) ;;
  return denied 0 LErrLeaseConsumed when le_Completed stored ;;
  return denied total LErrUsageLimit when
    (0 <? le_MaxBytes stored) && (i64 (le_MaxBytes stored - total) <? le_Bytes stored) ;;
  let stored := with_use stored (le_Revoked stored) (le_Consumed stored) true result
                  (i64 (le_Bytes stored + total)) (le_Requests stored) in
  (appendAuditLocked (put_lease m (le_ID stored) stored)
     (event (eventLocked stored "result" total (le_Requests stored) result now)), None).

Definition RecordUsage (now : Time) (id : string) (s : RequestScope) (bytes : Z) (result : string) (m : Manager)
  : Manager * option LeaseErr :=
  return (m, Some LErrInvalidLease) when (bytes <? 0) || negb (safeAuditToken result) ;;
  match validateLocked m id s now with
  | Err e => (appendAuditLocked m (eventForScope id s "result_denied" (LeaseError e) now), Some e)
  | Ok stored => record_result now stored bytes result (fun e => e) m
  end.

Definition usage_malformed (u : Usage) : bool :=
  (us_BytesSent u <? 0) || (us_BytesReceived u <? 0) || (i64 (max_int64 - us_BytesReceived u) <? us_BytesSent u)
  || negb (safeAuditToken (us_Result u)).

Definition RecordTransfer (now : Time) (id : string) (s : RequestScope) (u : Usage) (m : Manager)
  : Manager * option LeaseErr :=
  return (m, Some LErrInvalidLease) when usage_malformed u ;;
  let total := i64 (us_BytesSent u + us_BytesReceived u) in
  match validateLocked m id s now with
  | Err e => (appendAuditLocked m (eventForScope id s "result_denied" (LeaseError e) now), Some e)
  | Ok stored => record_result now stored total (us_Result u)
                   (fun e => with_directions e (us_BytesSent u) (us_BytesReceived u)) m
  end.

(** Final accounting of an attempt that has already begun: expiry, revocation
    and policy are not checked again. *)
Definition RecordTransferFinal (now : Time) (id : string) (s : RequestScope) (u : Usage) (m : Manager)
  : Manager * option LeaseErr :=
  return (m, Some LErrInvalidLease) when usage_malformed u ;;
  let total := i64 (us_BytesSent u + us_BytesReceived u) in
  match lm_leases m !! id with
  | None => (appendAuditLocked m (eventForScope id s "result_denied" (LeaseError LErrInvalidLease) now),
             Some LErrInvalidLease)
  | Some stored =>
      return (appendAuditLocked m (eventForScope id s "result_denied" (LeaseError LErrLeaseScope) now),
              Some LErrLeaseScope) when negb (leaseMatchesScope stored s) ;;
      record_result now stored total (us_Result u)
        (fun e => with_directions e (us_BytesSent u) (us_BytesReceived u)) m
  end.

(** ** Revocation and reads *)

(** Run with the write side of the execution gate held. *)
Definition Revoke (now : Time) (id : string) (m : Manager) : Manager * option LeaseErr :=
  match lm_leases m !! id with
  | None => (m, Some LErrInvalidLease)
  | Some l =>
      return (m, None) when le_Revoked l ;;
      let l := with_use l true (le_Consumed l) (le_Completed l) (le_LastResult l) (le_Bytes l) (le_Requests l) in
      (appendAuditLocked (put_lease m id l) (eventLocked l "revoked" 0 (le_Requests l) "revoked" now), None)
  end.

Definition Get (id : string) (m : Manager) : option Lease := lm_leases m !! id.
Definition Audit (m : Manager) : list LeaseEvent := lm_audit m.
Definition PolicySnapshotOf (m : Manager) : PolicySnapshot := Snapshot (lm_policy m).
