(* ===== verification/NetLeaseFacts.v ===== *)
(** * Socket leases: the transition system and its invariants

    Any number of [Issue] calls are in flight, each between two of its
    critical sections; every other operation is one critical section. A run is
    any interleaving. What is proved: what a stored lease always satisfies,
    which calls consume a lease, that a lease and a confirmation are spent
    once, that a policy update fences older leases, and that a lease is issued
    only for a target that the policy in force, or the administrator, allows. *)

From S2P Require Import Prelude GoText NetTarget NetLease.

Open Scope list_scope.
Open Scope Z_scope.
Open Scope go_scope.

(** ** The transition system *)

(** An [Issue] call: after its first critical section, after it read the
    clock and the policy, and before its last critical section. *)
Inductive IssueCall :=
| Begun (flags : IssueFlags) (r : IssueRequest)
| PolicyRead (flags : IssueFlags) (r : IssueRequest) (now : Time) (policy : OfflinePolicy)
| Prepared (flags : IssueFlags) (r : IssueRequest) (now : Time) (l : Lease).

(** The manager, the calls in flight, and the holders of the read side of the
    execution gate. *)
Record LeaseState := LS { ls_manager : Manager; ls_calls : list IssueCall; ls_readers : nat }.

(** The operations, with their results. *)
Inductive LeaseOp :=
| DoBegin (now : Time) (r : IssueRequest)
| DoReadPolicy
| DoPrepare
| DoFail
| DoCommit (now : Time) (r : IssueRequest) (res : result LeaseErr Lease)
| DoUpdatePolicy (p : OfflinePolicy) (res : option LeaseErr)
| DoAuthorize (id : string) (s : RequestScope) (res : option LeaseErr)
| DoConsume (id : string) (s : RequestScope) (res : option LeaseErr)
| DoAcquireUse (id : string) (s : RequestScope) (res : result LeaseErr Lease)
| DoRelease
| DoRecord (id : string) (s : RequestScope) (res : option LeaseErr)
| DoRecordFinal (id : string) (s : RequestScope) (res : option LeaseErr)
| DoRevoke (id : string) (res : option LeaseErr).

Definition begun (res : result LeaseErr IssueFlags) (r : IssueRequest) (calls : list IssueCall) : list IssueCall :=
  match res with Ok flags => Begun flags r :: calls | Err _ => calls end.

(** The counters of a [Usage] are of type [int64]. *)
Definition usage_typed (u : Usage) : Prop := in_i64 (us_BytesSent u) /\ in_i64 (us_BytesReceived u).

(** A writer of the execution gate waits until nobody holds its read side. *)
Inductive lease_step : LeaseState -> LeaseOp -> LeaseState -> Prop :=
| step_begin m calls rd now r ls cs m' res :
    in_i64 (ir_MaxBytes r) -> ls ≡ₚ map_to_list (lm_leases m) -> cs ≡ₚ map_to_list (lm_confirmations m) ->
    issue_begin now ls cs m = (m', res) ->
    lease_step (LS m calls rd) (DoBegin now r) (LS m' (begun res r calls) rd)
| step_read m c1 c2 rd now flags r :
    lease_step (LS m (c1 ++ Begun flags r :: c2) rd) DoReadPolicy
               (LS m (c1 ++ PolicyRead flags r now (lm_policy m) :: c2) rd)
| step_prepare m c1 c2 rd now flags r policy raw l :
    issue_prepare flags policy (has (lm_confirmations m) (ir_ConfirmationID r)) raw now r = Ok l ->
    lease_step (LS m (c1 ++ PolicyRead flags r now policy :: c2) rd) DoPrepare
               (LS m (c1 ++ Prepared flags r now l :: c2) rd)
| step_fail m c1 c c2 rd :
    lease_step (LS m (c1 ++ c :: c2) rd) DoFail (LS m (c1 ++ c2) rd)
| step_commit m c1 c2 rd flags r now l m' res :
    issue_commit flags now r l m = (m', res) ->
    lease_step (LS m (c1 ++ Prepared flags r now l :: c2) rd) (DoCommit now r res) (LS m' (c1 ++ c2) rd)
| step_update m calls p m' res :
    UpdatePolicy p m = (m', res) -> lease_step (LS m calls 0) (DoUpdatePolicy p res) (LS m' calls 0)
| step_authorize m calls rd now id s m' res :
    Authorize now id s m = (m', res) -> lease_step (LS m calls rd) (DoAuthorize id s res) (LS m' calls rd)
| step_consume m calls rd now id s m' res :
    Consume now id s m = (m', res) -> lease_step (LS m calls rd) (DoConsume id s res) (LS m' calls rd)
| step_acquire m calls rd now id s m' rd' res :
    AcquireUse now id s rd m = (m', rd', res) ->
    lease_step (LS m calls rd) (DoAcquireUse id s res) (LS m' calls rd')
| step_release m calls rd :
    lease_step (LS m calls (S rd)) DoRelease (LS m calls rd)
| step_usage m calls rd now id s bytes result m' res :
    in_i64 bytes -> RecordUsage now id s bytes result m = (m', res) ->
    lease_step (LS m calls rd) (DoRecord id s res) (LS m' calls rd)
| step_transfer m calls rd now id s u m' res :
    usage_typed u -> RecordTransfer now id s u m = (m', res) ->
    lease_step (LS m calls rd) (DoRecord id s res) (LS m' calls rd)
| step_final m calls rd now id s u m' res :
    usage_typed u -> RecordTransferFinal now id s u m = (m', res) ->
    lease_step (LS m calls rd) (DoRecordFinal id s res) (LS m' calls rd)
| step_revoke m calls now id m' res :
    Revoke now id m = (m', res) -> lease_step (LS m calls 0) (DoRevoke id res) (LS m' calls 0).

Inductive lease_run : LeaseState -> list LeaseOp -> LeaseState -> Prop :=
| lrun_nil s : lease_run s [] s
| lrun_cons s op s1 ops s2 : lease_step s op s1 -> lease_run s1 ops s2 -> lease_run s (op :: ops) s2.

Definition initial (opts : ManagerOptions) : LeaseState := LS (NewManagerWithOptions opts) [] 0.

Lemma lease_run_app s ops1 ops2 s' :
  lease_run s (ops1 ++ ops2) s' -> exists mid, lease_run s ops1 mid /\ lease_run mid ops2 s'.
Proof.
  revert s. induction ops1 as [|op ops1 IH]; intros s H; cbn [app] in H.
  - exists s. by split; [constructor|].
  - inversion H as [|? ? next ? ? Hstep Hrest]; subst. destruct (IH _ Hrest) as (mid & ? & ?).
    exists mid. split; [|done]. by econstructor.
Qed.

Lemma lease_run_cons s op ops s' :
  lease_run s (op :: ops) s' -> exists next, lease_step s op next /\ lease_run next ops s'.
Proof. intros H. inversion H; subst. eauto. Qed.

Lemma lease_run_snoc_app s ops1 mid op next ops2 s' :
  lease_run s ops1 mid -> lease_step mid op next -> lease_run next ops2 s' -> lease_run s (ops1 ++ op :: ops2) s'.
Proof. intros H Hstep Hrest. induction H; cbn [app]; econstructor; eauto. Qed.

Lemma lease_run_invariant (I : LeaseState -> Prop) :
  (forall s op s', I s -> lease_step s op s' -> I s') ->
  forall s ops s', I s -> lease_run s ops s' -> I s'.
Proof. intros Hstep s ops s' Hi Hrun. induction Hrun; eauto. Qed.

(** ** What each operation does to the manager *)

(** The fields that no operation but [UpdatePolicy] changes. *)
Record same_env (m m' : Manager) : Prop := {
  se_policy : lm_policy m' = lm_policy m;
  se_requirePolicy : lm_requirePolicy m' = lm_requirePolicy m;
  se_requireConfirmation : lm_requireConfirmation m' = lm_requireConfirmation m;
  se_verifier : lm_verifier m' = lm_verifier m;
  se_consume : lm_consumeConfirmation m' = lm_consumeConfirmation m;
  se_temporary : lm_allowTemporaryEgress m' = lm_allowTemporaryEgress m
}.

#[export] Instance same_env_preorder : PreOrder same_env.
Proof.
  split; [by intros m; split|].
  intros m1 m2 m3 [] []. split; congruence.
Qed.

Lemma with_state_env m ls a cs : same_env m (with_state m ls a cs).
Proof. by split. Qed.

(** An operation that leaves the maps alone. *)
Definition untouched (m m' : Manager) : Prop :=
  same_env m m' /\ lm_leases m' = lm_leases m /\ lm_confirmations m' = lm_confirmations m.

(** An operation that stores [l] under [id]. *)
Definition stores (m : Manager) (id : string) (l : Lease) (m' : Manager) : Prop :=
  same_env m m' /\ lm_leases m' = <[id := l]> (lm_leases m) /\ lm_confirmations m' = lm_confirmations m.

Lemma appendAudit_untouched m e : untouched m (appendAuditLocked m e).
Proof. by split_and!. Qed.

Lemma put_lease_stores m id l e : stores m id l (appendAuditLocked (put_lease m id l) e).
Proof. by split_and!. Qed.

Lemma untouched_refl m : untouched m m.
Proof. by split_and!. Qed.

#[export] Hint Resolve appendAudit_untouched put_lease_stores untouched_refl with_state_env : waf.

(** The lease that passes validation, and the conditions it passed. *)
Record usable (m : Manager) (id : string) (s : RequestScope) (now : Time) (l : Lease) : Prop := {
  us_stored : lm_leases m !! id = Some l;
  us_live : le_Revoked l = false;
  us_confirmed : le_ConfirmationExpiresAt l = zero_time \/ now < le_ConfirmationExpiresAt l;
  us_unexpired : now < le_ExpiresAt l;
  us_epoch : lm_requirePolicy m = true -> pol_epoch (lm_policy m) = 0 \/ le_PolicyEpoch l = pol_epoch (lm_policy m);
  us_scope : leaseMatchesScope l s = true
}.

Lemma validateLocked_iff m id s now l : validateLocked m id s now = Ok l <-> usable m id s now l.
Proof.
  unfold validateLocked, IsZero, Before. destruct (lm_leases m !! id) as [l'|] eqn:Hl.
  2:{ split; [done|]. intros []. congruence. }
  split.
  - intros H. branch H. injection H as ->. props. split; try done.
    + apply andb_false_iff in E0. destruct E0; props; [by left|by right].
    + intros Hr. rewrite Hr in E2. cbn [andb] in E2. apply andb_false_iff in E2.
      destruct E2; props; [by left|by right].
  - intros [Hs Hr Hc He Hp Hm]. rewrite Hl in Hs. injection Hs as ->. rewrite Hr, Hm. cbn [negb].
    assert (negb (le_ConfirmationExpiresAt l =? 0) && negb (now <? le_ConfirmationExpiresAt l) = false) as ->.
    { destruct Hc as [-> | ?]; [by rewrite Z.eqb_refl|]. rewrite (proj2 (Z.ltb_lt _ _)) by done. apply andb_false_r. }
    rewrite (proj2 (Z.ltb_lt _ _) He). cbn [negb].
    assert (lm_requirePolicy m && negb (pol_epoch (lm_policy m) =? 0)
            && negb (le_PolicyEpoch l =? pol_epoch (lm_policy m)) = false) as ->; [|done].
    destruct (lm_requirePolicy m); [|done]. destruct (Hp eq_refl) as [-> | ->]; [done|].
    rewrite Z.eqb_refl. apply andb_false_r.
Qed.

(** The scope of a lease that matches. *)
Lemma scope_epoch l s : leaseMatchesScope l s = true -> sc_PolicyEpoch s = le_PolicyEpoch l.
Proof. unfold leaseMatchesScope. intros H. props. congruence. Qed.

Lemma consumeLocked_spec now id s m m' res :
  consumeLocked now id s m = (m', res) ->
  (exists l, usable m id s now l /\ le_Consumed l = false /\ (le_MaxRequests l <= 0 \/ le_Requests l < le_MaxRequests l)
             /\ res = Ok (spend l) /\ stores m (le_ID l) (spend l) m')
  \/ (exists e, res = Err e /\ untouched m m').
Proof.
  unfold consumeLocked. intros H. destruct (validateLocked m id s now) as [l|e] eqn:Hv.
  2:{ injection H as <- <-. right. eauto with waf. }
  apply validateLocked_iff in Hv.
  destruct (le_Consumed l) eqn:Hc; cbn [orb] in H.
  { injection H as <- <-. right. eauto with waf. }
  destruct (_ && _) eqn:Hlim in H; injection H as <- <-.
  - right. eauto with waf.
  - left. exists l. split_and!; try done. apply andb_false_iff in Hlim. destruct Hlim; props; [left|right]; lia.
Qed.

(** What the completion of a use stores. *)
Definition complete (l : Lease) (total : Z) (result : string) : Lease :=
  with_use l (le_Revoked l) (le_Consumed l) true result (i64 (le_Bytes l + total)) (le_Requests l).

Lemma record_result_spec now l total result ev m m' res :
  record_result now l total result ev m = (m', res) ->
  (res = None /\ le_Consumed l = true /\ le_Completed l = false
   /\ (le_MaxBytes l <= 0 \/ le_Bytes l <= i64 (le_MaxBytes l - total)) /\ stores m (le_ID l) (complete l total result) m')
  \/ (exists e, res = Some e /\ untouched m m').
Proof.
  unfold record_result. intros H. branch H; injection H as <- <-; try (right; eauto with waf; fail).
  left. props. split_and!; try done. apply andb_false_iff in E1. destruct E1; props; [by left|by right].
Qed.

(** ** The effect of a step *)

(** A step with no effect on the maps that grants nothing. *)
Definition grants_nothing (op : LeaseOp) : Prop :=
  match op with
  | DoReadPolicy | DoPrepare | DoFail | DoRelease | DoRevoke _ _ => True
  | DoCommit _ _ (Err _) | DoAcquireUse _ _ (Err _) => True
  | DoUpdatePolicy _ (Some _) | DoAuthorize _ _ (Some _) | DoConsume _ _ (Some _)
  | DoRecord _ _ (Some _) | DoRecordFinal _ _ (Some _) => True
  | _ => False
  end.

Definition revoked (l : Lease) : Lease :=
  with_use l true (le_Consumed l) (le_Completed l) (le_LastResult l) (le_Bytes l) (le_Requests l).

(** The operation spends lease [id] for scope [s]. *)
Definition spends (op : LeaseOp) (id : string) (s : RequestScope) : Prop :=
  op = DoConsume id s None \/ exists l, op = DoAcquireUse id s (Ok l).

Inductive effect (m m' : Manager) : LeaseOp -> Prop :=
| eff_none op : grants_nothing op -> untouched m m' -> effect m m' op
| eff_prune now r :
    same_env m m' -> lm_leases m' ⊆ lm_leases m -> lm_confirmations m' ⊆ lm_confirmations m ->
    (forall id t, lm_confirmations m !! id = Some t -> now < t -> lm_confirmations m' !! id = Some t) ->
    effect m m' (DoBegin now r)
| eff_commit flags now r l :
    issue_commit flags now r l m = (m', Ok l) -> effect m m' (DoCommit now r (Ok l))
| eff_policy p :
    UpdatePolicy p m = (m', None) -> effect m m' (DoUpdatePolicy p None)
| eff_authorize id s now l :
    usable m id s now l -> le_Consumed l = false -> untouched m m' -> effect m m' (DoAuthorize id s None)
| eff_spend op id s now l :
    spends op id s -> usable m id s now l -> le_Consumed l = false ->
    stores m (le_ID l) (spend l) m' -> effect m m' op
| eff_record id s now l total result :
    usable m id s now l -> le_Consumed l = true -> le_Completed l = false -> 0 <= total <= max_int64 ->
    (le_MaxBytes l <= 0 \/ le_Bytes l <= i64 (le_MaxBytes l - total)) ->
    stores m (le_ID l) (complete l total result) m' -> effect m m' (DoRecord id s None)
| eff_final id s l total result :
    lm_leases m !! id = Some l -> leaseMatchesScope l s = true ->
    le_Consumed l = true -> le_Completed l = false -> 0 <= total <= max_int64 ->
    (le_MaxBytes l <= 0 \/ le_Bytes l <= i64 (le_MaxBytes l - total)) ->
    stores m (le_ID l) (complete l total result) m' -> effect m m' (DoRecordFinal id s None)
| eff_revoke id l :
    lm_leases m !! id = Some l -> stores m id (revoked l) m' -> effect m m' (DoRevoke id None).

(** *** Pruning *)

(** Deleting the old ones among some listed entries. *)
Lemma prune_fold {V} (old : string * V -> bool) (l : list (string * V)) (mp : gmap string V) :
  let mp' := fold_left (fun a p => if old p then delete (fst p) a else a) l mp in
  mp' ⊆ mp /\ forall id v, mp !! id = Some v -> (forall p, p ∈ l -> fst p = id -> old p = false) -> mp' !! id = Some v.
Proof.
  revert mp. induction l as [|p l IH]; intros mp; cbn [fold_left]; [done|].
  destruct (IH (if old p then delete (fst p) mp else mp)) as [Hsub Hkeep]. split.
  - etrans; [exact Hsub|]. destruct (old p); [apply delete_subseteq|done].
  - intros id v Hv Hold. apply Hkeep.
    + destruct (old p) eqn:Ho; [|done]. rewrite lookup_delete_ne; [done|]. intros E.
      rewrite (Hold p) in Ho; [done|left|done].
    + intros q Hq. apply Hold. by right.
Qed.

Lemma pruneLocked_effect now ls cs m :
  cs ≡ₚ map_to_list (lm_confirmations m) ->
  let m' := pruneLocked now ls cs m in
  same_env m m' /\ lm_leases m' ⊆ lm_leases m /\ lm_confirmations m' ⊆ lm_confirmations m
  /\ forall id t, lm_confirmations m !! id = Some t -> now < t -> lm_confirmations m' !! id = Some t.
Proof.
  intros Hcs m'. split_and!.
  - apply with_state_env.
  - apply prune_fold.
  - apply prune_fold.
  - intros id t Ht Hnow. apply prune_fold; [done|]. intros [i t'] Hp Hi. cbn [fst snd] in *. subst i.
    apply subseteq_take in Hp. rewrite Hcs in Hp. apply elem_of_map_to_list in Hp. simplify_eq.
    unfold Before. by rewrite (proj2 (Z.ltb_lt _ _) Hnow).
Qed.

(** *** The usage records *)

Lemma usage_total u :
  usage_typed u -> usage_malformed u = false ->
  0 <= i64 (us_BytesSent u + us_BytesReceived u) <= max_int64.
Proof.
  unfold usage_malformed, usage_typed, in_i64. intros [Hs Hr] H. props.
  rewrite i64_small in * by (unfold in_i64, min_int64, max_int64 in *; lia).
  rewrite i64_small by (unfold in_i64, min_int64, max_int64 in *; lia).
  unfold max_int64 in *. lia.
Qed.

Lemma RecordUsage_effect now id s bytes result m m' res :
  in_i64 bytes -> RecordUsage now id s bytes result m = (m', res) -> effect m m' (DoRecord id s res).
Proof.
  unfold RecordUsage. intros Hty H. destruct (_ || _) eqn:Hb in H.
  { injection H as <- <-. by apply eff_none; auto with waf. }
  props. destruct (validateLocked m id s now) as [l|e] eqn:Hv.
  2:{ injection H as <- <-. by apply eff_none; auto with waf. }
  apply validateLocked_iff in Hv.
  destruct (record_result_spec _ _ _ _ _ _ _ _ H) as [(-> & ? & ? & ? & ?)|(e & -> & ?)]; [|by apply eff_none].
  eapply eff_record; eauto. unfold in_i64 in Hty. lia.
Qed.

Lemma RecordTransfer_effect now id s u m m' res :
  usage_typed u -> RecordTransfer now id s u m = (m', res) -> effect m m' (DoRecord id s res).
Proof.
  unfold RecordTransfer. intros Hty H. destruct (usage_malformed u) eqn:Hb.
  { injection H as <- <-. by apply eff_none; auto with waf. }
  destruct (validateLocked m id s now) as [l|e] eqn:Hv.
  2:{ injection H as <- <-. by apply eff_none; auto with waf. }
  apply validateLocked_iff in Hv.
  destruct (record_result_spec _ _ _ _ _ _ _ _ H) as [(-> & ? & ? & ? & ?)|(e & -> & ?)]; [|by apply eff_none].
  eapply eff_record; eauto using usage_total.
Qed.

Lemma RecordTransferFinal_effect now id s u m m' res :
  usage_typed u -> RecordTransferFinal now id s u m = (m', res) -> effect m m' (DoRecordFinal id s res).
Proof.
  unfold RecordTransferFinal. intros Hty H. destruct (usage_malformed u) eqn:Hb.
  { injection H as <- <-. by apply eff_none; auto with waf. }
  destruct (lm_leases m !! id) as [l|] eqn:Hl.
  2:{ injection H as <- <-. by apply eff_none; auto with waf. }
  destruct (leaseMatchesScope l s) eqn:Hs; cbn [negb] in H.
  2:{ injection H as <- <-. by apply eff_none; auto with waf. }
  destruct (record_result_spec _ _ _ _ _ _ _ _ H) as [(-> & ? & ? & ? & ?)|(e & -> & ?)]; [|by apply eff_none].
  eapply eff_final; eauto using usage_total.
Qed.

(** *** The other operations *)

Lemma Revoke_effect now id m m' res : Revoke now id m = (m', res) -> effect m m' (DoRevoke id res).
Proof.
  unfold Revoke. intros H. destruct (lm_leases m !! id) as [l|] eqn:Hl.
  2:{ injection H as <- <-. by apply eff_none; auto with waf. }
  destruct (le_Revoked l); injection H as <- <-.
  - by apply eff_none; auto with waf.
  - eapply eff_revoke; eauto with waf.
Qed.

Lemma Authorize_effect now id s m m' res : Authorize now id s m = (m', res) -> effect m m' (DoAuthorize id s res).
Proof.
  unfold Authorize. intros H. destruct (validateLocked m id s now) as [l|e] eqn:Hv.
  2:{ injection H as <- <-. by apply eff_none; auto with waf. }
  apply validateLocked_iff in Hv. destruct (le_Consumed l) eqn:Hc; injection H as <- <-.
  - by apply eff_none; auto with waf.
  - eapply eff_authorize; eauto with waf.
Qed.

Lemma issue_commit_res flags now r l m m' res :
  issue_commit flags now r l m = (m', res) -> res = Ok l \/ exists e, res = Err e /\ m' = m.
Proof. unfold issue_commit. intros H. branch H; injection H as <- <-; eauto. Qed.

Lemma step_effect s op s' : lease_step s op s' -> effect (ls_manager s) (ls_manager s') op.
Proof.
  destruct 1 as [m calls rd now r ls cs m' res _ _ Hcs H| | | |m c1 c2 rd flags r now l m' res H|m calls p m' res H
    |m calls rd now id s m' res H|m calls rd now id s m' res H|m calls rd now id s m' rd' res H| | | | |];
    cbn [ls_manager]; try (by apply eff_none; auto with waf).
  - destruct (pruneLocked_effect now ls _ _ Hcs) as (? & ? & ? & ?).
    unfold issue_begin in H. destruct (_ || _) in H; injection H as <- <-; by apply eff_prune.
  - destruct (issue_commit_res _ _ _ _ _ _ _ H) as [->|(e & -> & ->)]; [by econstructor|].
    by apply eff_none; auto with waf.
  - destruct res; [|by apply eff_policy]. unfold UpdatePolicy in H. branch H; injection H as <- <-;
      by apply eff_none; auto with waf.
  - by eapply Authorize_effect.
  - unfold Consume in H. destruct (consumeLocked now id s m) as [m1 res1] eqn:Hc.
    destruct (consumeLocked_spec _ _ _ _ _ _ Hc) as [(l & ? & ? & ? & -> & ?)|(e & -> & ?)]; injection H as <- <-.
    + eapply eff_spend; eauto. by left.
    + by apply eff_none.
  - unfold AcquireUse in H. destruct (consumeLocked now id s m) as [m1 res1] eqn:Hc.
    destruct (consumeLocked_spec _ _ _ _ _ _ Hc) as [(l & ? & ? & ? & -> & ?)|(e & -> & ?)]; injection H as <- <- <-.
    + eapply eff_spend; eauto. right. eauto.
    + by apply eff_none.
  - by eapply RecordUsage_effect.
  - by eapply RecordTransfer_effect.
  - by eapply RecordTransferFinal_effect.
  - by eapply Revoke_effect.
Qed.

(** ** What a stored lease always satisfies *)

Record lease_ok (id : string) (l : Lease) : Prop := {
  lo_id : le_ID l = id;
  lo_target : Validate (le_Target l) = None;
  lo_epoch : le_PolicyEpoch l <> 0;
  lo_plugin : validOpaque (le_PluginID l) 256 = true;
  lo_confirmation : validOpaque (le_ConfirmationID l) 256 = true;
  lo_ttl : le_IssuedAt l < le_ExpiresAt l <= le_IssuedAt l + MaxLeaseTTL;
  lo_approval : le_ConfirmationExpiresAt l = zero_time \/ le_ExpiresAt l <= le_ConfirmationExpiresAt l;
  lo_one_request : le_MaxRequests l = 1;
  lo_requests : le_Requests l = if le_Consumed l then 1 else 0;
  lo_completed : le_Completed l = true -> le_Consumed l = true;
  lo_max_bytes : 0 <= le_MaxBytes l <= max_int64;
  lo_bytes : 0 <= le_Bytes l <= max_int64;
  lo_cap : 0 < le_MaxBytes l -> le_Bytes l <= le_MaxBytes l;
  lo_no_result : le_Completed l = false -> le_Bytes l = 0
}.

(** The flags of a call are those of the manager, whose policy requirement is
    never lifted. *)
Record flags_ok (m : Manager) (f : IssueFlags) : Prop := {
  fo_policy : fl_requirePolicy f = true -> lm_requirePolicy m = true;
  fo_confirmation : fl_requireConfirmation f = lm_requireConfirmation m;
  fo_verifier : fl_verifier f = lm_verifier m;
  fo_temporary : fl_allowTemporaryEgress f = lm_allowTemporaryEgress m;
  fo_consume : fl_consumeConfirmation f = lm_consumeConfirmation m
}.

Definition call_request (c : IssueCall) : IssueRequest :=
  match c with Begun _ r | PolicyRead _ r _ _ | Prepared _ r _ _ => r end.
Definition call_flags (c : IssueCall) : IssueFlags :=
  match c with Begun f _ | PolicyRead f _ _ _ | Prepared f _ _ _ => f end.

Definition prepared_ok (c : IssueCall) : Prop :=
  match c with
  | Prepared f r now l => exists policy used raw, issue_prepare f policy used raw now r = Ok l
  | _ => True
  end.

Record call_ok (m : Manager) (c : IssueCall) : Prop := {
  co_flags : flags_ok m (call_flags c);
  co_typed : in_i64 (ir_MaxBytes (call_request c));
  co_prepared : prepared_ok c
}.

Record state_ok (s : LeaseState) : Prop := {
  so_leases : map_Forall lease_ok (lm_leases (ls_manager s));
  so_calls : Forall (call_ok (ls_manager s)) (ls_calls s)
}.

(** *** Preservation *)

Lemma spend_ok id l : lease_ok id l -> le_Consumed l = false -> lease_ok id (spend l).
Proof.
  intros H Hc. destruct H. split; cbn; try done.
  rewrite lo_requests0, Hc. reflexivity.
Qed.

Lemma revoked_ok id l : lease_ok id l -> lease_ok id (revoked l).
Proof. intros []. by split. Qed.

Lemma complete_ok id l total result :
  lease_ok id l -> le_Consumed l = true -> le_Completed l = false -> 0 <= total <= max_int64 ->
  (le_MaxBytes l <= 0 \/ le_Bytes l <= i64 (le_MaxBytes l - total)) ->
  lease_ok id (complete l total result).
Proof.
  intros [] Hc Hd Ht Hcap. rewrite (lo_no_result0 Hd) in Hcap.
  assert (Hb : i64 (le_Bytes l + total) = total).
  { rewrite (lo_no_result0 Hd). apply i64_small. unfold in_i64, min_int64, max_int64 in *. lia. }
  split; cbn; rewrite ?Hb; try done; try lia.
  intros Hm. destruct Hcap as [?|Hcap]; [lia|]. rewrite i64_small in Hcap; [lia|].
  unfold in_i64, min_int64, max_int64 in *. lia.
Qed.

Lemma issue_prepare_checks f policy used raw now r l :
  issue_prepare f policy used raw now r = Ok l ->
  request_check f r now = None /\ approval_check f r used = None
  /\ exists bytes, raw = Some bytes /\ l = new_lease (EncodeHex bytes) r now.
Proof.
  unfold issue_prepare. intros H. destruct (request_check f r now) eqn:Hr; [done|].
  destruct (if fl_requirePolicy f then _ else _) in H; [done|].
  destruct (approval_check f r used) eqn:Ha; [done|]. destruct raw as [raw|]; [|done].
  injection H as <-. eauto.
Qed.

Lemma new_lease_ok f r now id :
  in_i64 (ir_MaxBytes r) -> request_check f r now = None -> lease_ok id (new_lease id r now).
Proof.
  unfold request_check, valid_target. intros Hty H.
  apply guard_None in H as [Hform H]. apply guard_None in H as [_ H]. apply guard_None in H as [_ H].
  apply guard_None in H as [Httl H]. apply guard_None in H as [Hlim H]. apply guard_None in H as [Hconf _].
  unfold IsZero, Before in Hconf. props.
  destruct (Validate (ir_Target r)) eqn:Hv; [done|].
  apply andb_false_iff in Hconf.
  split; cbn; try done; unfold IsZero, Before, TimeAdd, zero_time in *.
  - destruct (_ && _) eqn:E; [|unfold MaxLeaseTTL in *; lia]. props. destruct Hconf as [?|?]; props; [done|lia].
  - destruct (Z.eqb_spec (ir_ConfirmationExpiresAt r) 0) as [|?]; [by left|right]. cbn [negb andb].
    destruct (Z.ltb_spec (ir_ConfirmationExpiresAt r) (now + ir_TTL r)); lia.
  - destruct (Z.eqb_spec (ir_MaxRequests r) 0); lia.
  - unfold in_i64 in Hty. lia.
Qed.

(** The manager and lease of an accepted commit. *)
Lemma issue_commit_ok f now r l m m' :
  issue_commit f now r l m = (m', Ok l) ->
  same_env m m' /\ lm_leases m' = <[le_ID l := l]> (lm_leases m)
  /\ (lm_requirePolicy m = true -> pol_epoch (lm_policy m) = ir_PolicyEpoch r
                                   /\ checkIssuePolicy (lm_policy m) r (lm_allowTemporaryEgress m) = None)
  /\ (let consume := fl_consumeConfirmation f && verifies f r in
      (consume = true -> lm_confirmations m !! ir_ConfirmationID r = None)
      /\ lm_confirmations m' = if consume then <[ir_ConfirmationID r := TimeAdd now MaxLeaseTTL]> (lm_confirmations m)
                               else lm_confirmations m).
Proof.
  unfold issue_commit. intros H.
  destruct (lm_requirePolicy m && _) eqn:Hep in H; [done|].
  destruct (if lm_requirePolicy m then _ else _) eqn:Hpol in H; [done|].
  destruct (_ && has _ _) eqn:Hrep in H; [done|]. injection H as <-.
  split_and!.
  - by split.
  - done.
  - intros Hrp. rewrite Hrp in *. cbn [andb] in Hep. props. by split.
  - intros Hc. rewrite Hc in Hrep. by apply has_false.
  - done.
Qed.

Lemma UpdatePolicy_ok p m m' :
  UpdatePolicy p m = (m', None) ->
  lm_leases m' = lm_leases m /\ lm_confirmations m' = lm_confirmations m /\ lm_policy m' = p
  /\ lm_requirePolicy m' = true /\ lm_requireConfirmation m' = lm_requireConfirmation m
  /\ lm_verifier m' = lm_verifier m /\ lm_consumeConfirmation m' = lm_consumeConfirmation m
  /\ lm_allowTemporaryEgress m' = lm_allowTemporaryEgress m /\ pol_epoch p <> 0
  /\ (lm_requirePolicy m = true -> pol_epoch (lm_policy m) <> 0 -> pol_epoch (lm_policy m) < pol_epoch p).
Proof.
  unfold UpdatePolicy. intros H. destruct (pol_epoch p =? 0) eqn:H0 in H; [done|].
  destruct (_ && _) eqn:Hm in H; [done|]. injection H as <-. props. split_and!; try done.
  intros Hr Hne. rewrite Hr in Hm. cbn [andb] in Hm. apply Z.eqb_neq in Hne. rewrite Hne in Hm. cbn [negb andb] in Hm. by props.
Qed.

Lemma flags_same_env m m' f : same_env m m' -> flags_ok m f -> flags_ok m' f.
Proof. intros [] []. split; try congruence. intros Hf. rewrite se_requirePolicy0. auto. Qed.

(** The flags of the calls in flight survive every step. *)
Lemma flags_effect m m' op f : effect m m' op -> flags_ok m f -> flags_ok m' f.
Proof.
  destruct 1 as [? _ [? _]| |? ? ? ? H|p H|? ? ? ? _ _ [? _]|? ? ? ? ? _ _ _ [? _]|? ? ? ? ? ? _ _ _ _ _ [? _]
                |? ? ? ? ? _ _ _ _ _ _ [? _]|? ? _ [? _]];
    try (by apply flags_same_env).
  - apply flags_same_env. by apply issue_commit_ok in H as [? _].
  - apply UpdatePolicy_ok in H as (_ & _ & _ & ? & ? & ? & ? & ? & _). intros []. split; congruence.
Qed.

Lemma stored_forall (P : string -> Lease -> Prop) m id l m' :
  stores m id l m' -> map_Forall P (lm_leases m) -> P id l -> map_Forall P (lm_leases m').
Proof. intros (_ & -> & _) Hm Hl. by apply map_Forall_insert_2. Qed.

Lemma leases_effect m m' op :
  effect m m' op -> (forall flags now r l, op = DoCommit now r (Ok l) -> issue_commit flags now r l m = (m', Ok l) ->
                                       exists id, lease_ok id l) ->
  map_Forall lease_ok (lm_leases m) -> map_Forall lease_ok (lm_leases m').
Proof.
  intros He Hnew Hm. destruct He as [? _ (_ & -> & _)|? ? _ Hsub|? ? ? ? H|p H|? ? ? ? _ _ (_ & -> & _)
    |? ? ? ? ? _ [Hl] ? Hst|? ? ? ? ? ? [Hl] ? ? ? ? Hst|? ? ? ? ? Hl ? ? ? ? ? Hst|? ? Hl Hst]; try done.
  - intros i x Hx. apply Hm. by eapply lookup_weaken.
  - destruct (Hnew _ _ _ _ eq_refl H) as [id Hid]. apply issue_commit_ok in H as (_ & -> & _).
    apply map_Forall_insert_2; [|done]. by rewrite (lo_id _ _ Hid).
  - by apply UpdatePolicy_ok in H as (-> & _).
  - specialize (Hm _ _ Hl) as Hok. eapply stored_forall; [exact Hst|done|]. rewrite (lo_id _ _ Hok).
    by apply spend_ok.
  - specialize (Hm _ _ Hl) as Hok. eapply stored_forall; [exact Hst|done|]. rewrite (lo_id _ _ Hok).
    by apply complete_ok.
  - specialize (Hm _ _ Hl) as Hok. eapply stored_forall; [exact Hst|done|]. rewrite (lo_id _ _ Hok).
    by apply complete_ok.
  - eapply stored_forall; [exact Hst|done|]. apply revoked_ok. by apply Hm.
Qed.

Lemma prepared_lease_ok m f r now l : call_ok m (Prepared f r now l) -> lease_ok (le_ID l) l.
Proof.
  intros [_ Hty (policy & used & raw & Hp)]. apply issue_prepare_checks in Hp as (Hr & _ & raw' & _ & ->).
  eapply new_lease_ok; eauto.
Qed.

Lemma call_effect m m' op c : effect m m' op -> call_ok m c -> call_ok m' c.
Proof. intros He []. split; [|done|done]. by eapply flags_effect. Qed.

(** The call behind an accepted commit was in flight. *)
Lemma commit_call s now r l s' :
  lease_step s (DoCommit now r (Ok l)) s' -> state_ok s ->
  exists f, issue_commit f now r l (ls_manager s) = (ls_manager s', Ok l)
            /\ call_ok (ls_manager s) (Prepared f r now l).
Proof.
  intros H [_ Hc]. inversion H as [| | | |m c1 c2 rd f r0 now0 l0 m' res Hcommit| | | | | | | | |]; subst.
  cbn [ls_manager ls_calls] in *. apply Forall_app in Hc as [_ Hc]. apply Forall_cons in Hc as [Hc _].
  destruct (issue_commit_res _ _ _ _ _ _ _ Hcommit) as [E|(? & ? & _)]; [|done]. injection E as ->. eauto.
Qed.

Lemma state_ok_step s op s' : state_ok s -> lease_step s op s' -> state_ok s'.
Proof.
  intros Hs H. assert (He := step_effect _ _ _ H). split.
  - apply (leases_effect _ _ _ He); [|apply Hs]. intros f now r l -> _.
    destruct (commit_call _ _ _ _ _ H Hs) as (g & _ & Hc). eauto using prepared_lease_ok.
  - assert (Hc : Forall (call_ok (ls_manager s')) (ls_calls s)).
    { eapply Forall_impl; [apply Hs|]. intros c. by apply call_effect with op. }
    clear Hs. destruct H as [m calls rd now r ls cs m' res Hty _ _ Hb| | | | | | | | | | | | |];
      cbn [ls_calls ls_manager] in *; try done.
    + unfold begun, issue_begin in *. destruct (_ || _) in Hb; injection Hb as <- <-; [done|].
      constructor; [|done]. by split.
    + apply Forall_app in Hc as [Hc1 Hc2]. apply Forall_cons in Hc2 as [[] ?].
      apply Forall_app; split; [done|]. constructor; [|done]. by split.
    + apply Forall_app in Hc as [Hc1 Hc2]. apply Forall_cons in Hc2 as [[] ?].
      apply Forall_app; split; [done|]. constructor; [|done]. split; try done. cbn. eauto.
    + apply Forall_app in Hc as [Hc1 Hc2]. apply Forall_cons in Hc2 as [? ?]. by apply Forall_app.
    + apply Forall_app in Hc as [Hc1 Hc2]. apply Forall_cons in Hc2 as [? ?]. by apply Forall_app.
Qed.

Lemma state_ok_initial opts : state_ok (initial opts).
Proof. split; [apply map_Forall_empty|constructor]. Qed.

Lemma state_ok_run s ops s' : state_ok s -> lease_run s ops s' -> state_ok s'.
Proof. apply lease_run_invariant, state_ok_step. Qed.

(** From a new manager, whatever the interleaving of issuing calls with
    every other operation, each stored lease is filed under its own
    identifier, names a well-formed target and a policy epoch, lasts at most
    ten minutes and never past the approval behind it, allows one request, has
    been consumed exactly if that request was spent, has a result only if it
    was consumed, and counts no more bytes than its cap. *)
Theorem leases_always_valid opts ops s :
  lease_run (initial opts) ops s -> map_Forall lease_ok (lm_leases (ls_manager s)).
Proof. intros H. apply (state_ok_run _ _ _ (state_ok_initial opts) H). Qed.

(** ** One use *)

(** What [Consume] does, on every branch: it is granted exactly for a stored,
    unrevoked, unexpired, confirmed, current and unconsumed lease under its
    own scope; then only that lease changes; a refusal changes no lease. *)
Lemma usable_fresh_consume now id s m l :
  lease_ok id l -> usable m id s now l -> le_Consumed l = false ->
  exists m', consumeLocked now id s m = (m', Ok (spend l)) /\ stores m id (spend l) m'.
Proof.
  intros Hok Hu Hc. unfold consumeLocked. rewrite (proj2 (validateLocked_iff _ _ _ _ _) Hu), Hc. cbn [orb].
  rewrite (lo_one_request _ _ Hok), (lo_requests _ _ Hok), Hc. cbn [Z.ltb Z.leb Z.compare andb].
  eexists. split; [reflexivity|]. destruct (lo_id _ _ Hok). apply put_lease_stores.
Qed.

Lemma alter_stored {V} (f : V -> V) id v (mp : gmap string V) :
  mp !! id = Some v -> <[id := f v]> mp = alter f id mp.
Proof.
  intros H. apply map_eq. intros i. destruct (decide (i = id)) as [->|Hne].
  - by rewrite lookup_insert_eq, lookup_alter_eq, H.
  - by rewrite lookup_insert_ne, lookup_alter_ne by done.
Qed.

(** In every reachable state [Consume] succeeds exactly when the named
    lease is stored, not revoked, within its own and its approval's expiry, of
    the policy epoch in force, presented under the very scope it was issued
    for, and not yet consumed; it then marks that lease consumed and leaves
    every other one alone, and a refusal leaves all of them alone. *)
Theorem consume_iff opts ops s now id sc :
  lease_run (initial opts) ops s ->
  let m := ls_manager s in
  let '(m', e) := Consume now id sc m in
  (e = None <-> exists l, usable m id sc now l /\ le_Consumed l = false)
  /\ lm_leases m' = (if e is Some _ then lm_leases m else alter spend id (lm_leases m)).
Proof.
  intros Hrun m. destruct (Consume now id sc m) as [m' e] eqn:H.
  pose proof (so_leases _ (state_ok_run _ _ _ (state_ok_initial opts) Hrun)) as Hok.
  unfold Consume in H. destruct (consumeLocked now id sc m) as [m1 res] eqn:Hc.
  destruct (consumeLocked_spec _ _ _ _ _ _ Hc) as [(l & Hu & Hcons & _ & -> & Hst)|(x & -> & Hun)];
    injection H as <- <-.
  - pose proof (us_stored _ _ _ _ _ Hu) as Hl. split; [split; [by eauto|done]|]. destruct Hst as (_ & -> & _).
    replace (le_ID l) with id by (symmetry; apply (lo_id _ _ (Hok _ _ Hl))). by apply alter_stored.
  - split; [|apply Hun]. split; [done|]. intros (l & Hu & Hcons).
    destruct (usable_fresh_consume now id sc m l (Hok _ _ (us_stored _ _ _ _ _ Hu)) Hu Hcons) as (? & E & _).
    congruence.
Qed.

(** The lease filed under [id], if any, is spent. *)
Definition spent (id : string) (s : LeaseState) : Prop :=
  forall l, lm_leases (ls_manager s) !! id = Some l -> le_Consumed l = true.

Definition issues (op : LeaseOp) (id : string) : Prop :=
  exists now r l, op = DoCommit now r (Ok l) /\ le_ID l = id.

Lemma stored_spent id m id' l m' :
  stores m id' l m' -> (forall x, lm_leases m !! id = Some x -> le_Consumed x = true) ->
  (id' = id -> le_Consumed l = true) -> forall x, lm_leases m' !! id = Some x -> le_Consumed x = true.
Proof.
  intros (_ & -> & _) Hm Hl x. destruct (decide (id' = id)) as [->|Hne].
  - rewrite lookup_insert_eq. intros [= <-]. auto.
  - rewrite lookup_insert_ne by done. apply Hm.
Qed.

Lemma spent_step id s op s' :
  state_ok s -> spent id s -> lease_step s op s' -> spent id s' \/ issues op id.
Proof.
  intros Hs Hsp H. assert (He := step_effect _ _ _ H). pose proof (so_leases _ Hs) as Hok.
  unfold spent in *. destruct He as [? _ (_ & E & _)|? ? _ Hsub|? ? ? l Hc|p Hp|? ? ? ? _ _ (_ & E & _)
    |op ? ? ? l _ [Hl] ? Hst|? ? ? l ? ? [Hl] Hcd ? ? ? Hst|? ? l ? ? Hl ? Hcd ? ? ? Hst|? l Hl Hst].
  - left. by rewrite E.
  - left. intros l Hl. apply Hsp. by eapply lookup_weaken.
  - destruct (decide (le_ID l = id)) as [Hid|Hne]; [right; by repeat eexists|left].
    apply issue_commit_ok in Hc as (_ & -> & _). intros x. rewrite lookup_insert_ne by done. apply Hsp.
  - left. by apply UpdatePolicy_ok in Hp as (-> & _).
  - left. by rewrite E.
  - left. by eapply stored_spent.
  - left. eapply stored_spent; [exact Hst|done|]. by intros _.
  - left. eapply stored_spent; [exact Hst|done|]. by intros _.
  - left. eapply stored_spent; [exact Hst|done|]. intros ->. exact (Hsp _ Hl).
Qed.

Lemma spent_run id s ops s' :
  state_ok s -> spent id s -> lease_run s ops s' -> spent id s' \/ Exists (fun op => issues op id) ops.
Proof.
  intros Hs Hsp Hrun. induction Hrun as [s|s op s1 ops s2 Hstep Hrun IH]; [by left|].
  destruct (spent_step _ _ _ _ Hs Hsp Hstep) as [Hsp'|Hi].
  - destruct (IH (state_ok_step _ _ _ Hs Hstep) Hsp'); [by left|right]. by apply Exists_cons_tl.
  - right. by apply Exists_cons_hd.
Qed.

Lemma spends_effect s op s' id sc :
  state_ok s -> lease_step s op s' -> spends op id sc ->
  exists l now, usable (ls_manager s) id sc now l /\ le_Consumed l = false
                /\ lm_leases (ls_manager s') = <[id := spend l]> (lm_leases (ls_manager s)).
Proof.
  intros Hs H Hsp. destruct (step_effect _ _ _ H) as [op Hg| | | | |op id' sc' now l Hsp' Hu Hcons (_ & Hst & _)| | |];
    try (destruct Hsp as [E|[? E]]; discriminate E).
  - exfalso. by destruct Hsp as [-> | [? ->]].
  - assert (id' = id /\ sc' = sc) as [-> ->].
    { destruct Hsp as [-> | [? ->]], Hsp' as [E | [? E]]; simplify_eq; done. }
    exists l, now. split_and!; [done|done|]. rewrite Hst.
    by rewrite (lo_id _ _ (so_leases _ Hs _ _ (us_stored _ _ _ _ _ Hu))).
Qed.

(** C39. However the operations interleave, a lease opens at most one
    connection: between two successful [Consume] or [AcquireUse] calls for the
    same lease identifier, a lease must have been issued anew under that
    identifier. *)
Theorem lease_consumed_once opts ops1 ops2 ops3 op1 op2 id sc1 sc2 s :
  lease_run (initial opts) (ops1 ++ op1 :: ops2 ++ op2 :: ops3) s ->
  spends op1 id sc1 -> spends op2 id sc2 -> Exists (fun op => issues op id) ops2.
Proof.
  intros Hrun Hsp1 Hsp2. apply lease_run_app in Hrun as (s1 & Hrun1 & Hrun).
  apply lease_run_cons in Hrun as (s2 & Hstep1 & Hrun). apply lease_run_app in Hrun as (s3 & Hrun2 & Hrun).
  apply lease_run_cons in Hrun as (s4 & Hstep2 & _).
  pose proof (state_ok_run _ _ _ (state_ok_initial opts) Hrun1) as Hs1.
  pose proof (state_ok_step _ _ _ Hs1 Hstep1) as Hs2.
  destruct (spends_effect _ _ _ _ _ Hs1 Hstep1 Hsp1) as (l & _ & _ & _ & Hl).
  assert (Hspent : spent id s2).
  { intros x. rewrite Hl, lookup_insert_eq. by intros [= <-]. }
  destruct (spent_run _ _ _ _ Hs2 Hspent Hrun2) as [Hspent'|]; [|done].
  destruct (spends_effect _ _ _ _ _ (state_ok_run _ _ _ Hs2 Hrun2) Hstep2 Hsp2) as (l2 & ? & Hu2 & Hc2 & _).
  apply us_stored, Hspent' in Hu2. congruence.
Qed.

(** ** Accounting of an attempt *)

Lemma complete_fits l total :
  0 <= le_MaxBytes l <= max_int64 -> 0 <= total <= max_int64 -> le_Bytes l = 0 ->
  (0 <? le_MaxBytes l) && (i64 (le_MaxBytes l - total) <? le_Bytes l) = false
  <-> le_MaxBytes l = 0 \/ total <= le_MaxBytes l.
Proof.
  intros Hm Ht ->. rewrite i64_small by (unfold in_i64, min_int64, max_int64 in *; lia).
  rewrite andb_false_iff, Z.ltb_ge, Z.ltb_ge. lia.
Qed.

Lemma usage_malformed_false u :
  usage_typed u ->
  usage_malformed u = false <->
  0 <= us_BytesSent u /\ 0 <= us_BytesReceived u /\ us_BytesSent u + us_BytesReceived u <= max_int64
  /\ safeAuditToken (us_Result u) = true.
Proof.
  intros [T1 T2]. unfold usage_malformed. rewrite !orb_false_iff, negb_false_iff, !Z.ltb_ge.
  unfold in_i64 in *. split.
  - intros [[[H1 H2] H3] H4]. rewrite i64_small in H3 by (unfold in_i64, min_int64, max_int64 in *; lia).
    split_and!; (lia || done).
  - intros (H1 & H2 & H3 & H4). rewrite i64_small by (unfold in_i64, min_int64, max_int64 in *; lia).
    split_and!; (lia || done).
Qed.

(** Recording a result for a stored lease, on every branch. *)
Lemma record_result_iff now id l total result ev m :
  lease_ok id l -> 0 <= total <= max_int64 ->
  let '(m', e) := record_result now l total result ev m in
  (e = None <-> le_Consumed l = true /\ le_Completed l = false /\ (le_MaxBytes l = 0 \/ total <= le_MaxBytes l))
  /\ lm_leases m' = (if e is Some _ then lm_leases m else <[id := complete l total result]> (lm_leases m)).
Proof.
  intros Hok Ht. unfold record_result.
  destruct (le_Consumed l) eqn:Hc; cbn [negb]; [|by split; [split; [|intros []]|]].
  destruct (le_Completed l) eqn:Hd; [by split; [split; [|intros (_ & ? & _)]|]|].
  pose proof (complete_fits l total (lo_max_bytes _ _ Hok) Ht (lo_no_result _ _ Hok Hd)) as Hfit.
  destruct (_ && _) eqn:Hcap.
  - split; [|done]. split; [done|]. intros (_ & _ & Hf). apply Hfit in Hf. congruence.
  - split; [split; [|done]|].
    + intros _. split_and!; [done..|]. by apply Hfit.
    + replace id with (le_ID l) by apply (lo_id _ _ Hok). unfold complete. by rewrite Hc.
Qed.

(** In every reachable state the final accounting of an attempt is
    recorded exactly when the counters are well formed, the lease is stored
    and presented under its scope, it was consumed and has no result yet, and
    the total fits its byte cap; neither the clock, nor a revocation, nor a
    new policy makes a difference. The result is then kept with the lease. *)
Theorem final_accounting_iff opts ops s now id sc u :
  lease_run (initial opts) ops s -> usage_typed u ->
  let m := ls_manager s in
  let total := us_BytesSent u + us_BytesReceived u in
  let '(m', e) := RecordTransferFinal now id sc u m in
  (e = None <-> 0 <= us_BytesSent u /\ 0 <= us_BytesReceived u /\ total <= max_int64
                /\ safeAuditToken (us_Result u) = true
                /\ exists l, lm_leases m !! id = Some l /\ leaseMatchesScope l sc = true
                             /\ le_Consumed l = true /\ le_Completed l = false
                             /\ (le_MaxBytes l = 0 \/ total <= le_MaxBytes l))
  /\ lm_leases m' = (if e is Some _ then lm_leases m
                     else alter (fun l => complete l total (us_Result u)) id (lm_leases m)).
Proof.
  intros Hrun Hty m total.
  pose proof (so_leases _ (state_ok_run _ _ _ (state_ok_initial opts) Hrun)) as Hok. fold m in Hok.
  pose proof (usage_malformed_false u Hty) as Hform. fold total in Hform.
  unfold RecordTransferFinal. destruct (usage_malformed u) eqn:Hbad.
  { split; [|done]. split; [done|]. intros (? & ? & ? & ? & _). discriminate (proj2 Hform). by split_and!. }
  pose proof (usage_total _ Hty Hbad) as Ht. destruct (proj1 Hform eq_refl) as (H1 & H2 & H3 & H4).
  replace (i64 (us_BytesSent u + us_BytesReceived u)) with total in *
    by (symmetry; apply i64_small; unfold in_i64, min_int64, max_int64 in *; lia).
  destruct (lm_leases m !! id) as [l|] eqn:Hl.
  2:{ split; [|done]. split; [done|]. intros (_ & _ & _ & _ & x & Ex & ? & _). simplify_eq. }
  destruct (leaseMatchesScope l sc) eqn:Hsc; cbn [negb].
  2:{ split; [|done]. split; [done|]. intros (_ & _ & _ & _ & x & Ex & ? & _). simplify_eq. congruence. }
  pose proof (record_result_iff now id l total (us_Result u)
    (fun e => with_directions e (us_BytesSent u) (us_BytesReceived u)) m (Hok _ _ Hl) Ht) as Hrec.
  destruct (record_result _ _ _ _ _ _) as [m' e]. destruct Hrec as [Hiff Hm]. split.
  - rewrite Hiff. split; [naive_solver|]. intros (_ & _ & _ & _ & l' & ? & ?). naive_solver.
  - rewrite Hm. destruct e; [done|].
    by apply (alter_stored (fun l => complete l total (us_Result u))).
Qed.

(** ** Issuing under the policy in force *)

(** [Check] lets through the targets of the allowlist, and calls external
    those whose host the allowlist does not know. *)
Lemma CheckAt_None p t e : CheckAt p t e = None -> t ∈ internal p /\ (pol_epoch p <> 0 -> e = pol_epoch p).
Proof.
  unfold CheckAt, Check_. intros H. apply guard_None in H as [He H]. apply guard_None in H as [_ H].
  destruct (bool_decide (t ∈ internal p)) eqn:Hi; [|by destruct (bool_decide _) in H]. props. split; [done|].
  intros Hne. apply andb_false_iff in He as [He|He]; props; [done|by subst].
Qed.

Lemma CheckAt_external p t e x :
  CheckAt p t e = Some x -> is_external x = true -> t ∉ internal p /\ Host t ∉ hosts p /\ (pol_epoch p <> 0 -> e = pol_epoch p).
Proof.
  unfold CheckAt, Check_. intros H Hext. destruct (_ && _) eqn:He in H; [by injection H as <-|].
  destruct (negb _) in H; [by injection H as <-|]. destruct (bool_decide (t ∈ internal p)) eqn:Hi; [done|].
  destruct (bool_decide (Host t ∈ hosts p)) eqn:Hh; [by injection H as <-|]. props. split_and!; [done..|].
  intros Hne. apply andb_false_iff in He as [He|He]; props; [done|by subst].
Qed.

(** The target is a registered internal resource, named by its ID wherever the
    policy has IDs. *)
Definition registered (p : OfflinePolicy) (r : IssueRequest) : Prop :=
  ir_Target r ∈ internal p
  /\ (ir_ResourceID r <> "" -> resourceIDs p !! ir_ResourceID r = Some (ir_Target r))
  /\ (ir_ResourceID r = "" -> resourceIDs p = ∅).

(** The exception: an anonymous target on a host that the policy does not know. *)
Definition exceptional (p : OfflinePolicy) (r : IssueRequest) : Prop :=
  ir_TemporaryEgress r = true /\ ir_ResourceID r = "" /\ Host (ir_Target r) ∉ hosts p.

Lemma checkIssuePolicy_None p r allow :
  checkIssuePolicy p r allow = None ->
  pol_epoch p <> 0 /\ ir_PolicyEpoch r = pol_epoch p
  /\ (registered p r \/ (allow = true /\ exceptional p r)).
Proof.
  unfold checkIssuePolicy. intros H. apply guard_None in H as [He H]. apply guard_None in H as [_ H]. props.
  split; [done|]. unfold registered, exceptional.
  destruct (String.eqb_spec (ir_ResourceID r) "") as [Hid|Hid]; cbn [negb andb] in H.
  - destruct (CheckAt p _ _) as [x|] eqn:Hc in H.
    + rewrite andb_false_r in H. cbn [andb] in H. apply guard_None in H as [H _]. props.
      destruct (CheckAt_external _ _ _ _ Hc) as (? & ? & Hep); [done|]. split; [auto|]. right. by split_and!.
    + apply CheckAt_None in Hc as [? Hep]. rewrite andb_true_r in H. apply guard_None in H as [Hsz _].
      split; [auto|]. left. split_and!; [done..|]. intros _. apply map_size_empty_iff.
      apply Z.ltb_ge in Hsz. lia.
  - destruct (CheckResource p _ _ _) as [x|] eqn:Hc in H.
    + rewrite andb_true_r in H. apply guard_None in H as [H1 H]. apply guard_None in H as [H2 _]. props.
      destruct (ir_TemporaryEgress r); cbn [andb] in *; [|done]. props. congruence.
    + unfold CheckResource in Hc. apply guard_None in Hc as [_ Hc]. apply guard_None in Hc as [Hr Hc].
      apply CheckAt_None in Hc as [? Hep]. split; [auto|]. left. split_and!; [done| |done]. intros _.
      destruct (resourceIDs p !! _); [|done]. props. by subst.
Qed.

(** A prepared call that needs the administrator's approval had it. *)
Lemma approval_given f r used :
  approval_check f r used = None -> ir_TemporaryEgress r || fl_requireConfirmation f = true ->
  exists v, fl_verifier f = Some v /\ v (confirmation_request r) = None.
Proof.
  unfold approval_check. intros H Hneed. apply guard_None in H as [_ H]. apply guard_None in H as [H1 H].
  apply guard_None in H as [H2 H]. destruct (fl_verifier f) as [v|].
  - exists v. split; [done|]. rewrite orb_comm in Hneed. rewrite Hneed in H. cbn [negb] in H.
    apply guard_None in H as [_ H]. by destruct (v _).
  - rewrite orb_true_r in H1, H2. rewrite andb_true_r in H1, H2. by rewrite H1, H2 in Hneed.
Qed.

Lemma prepared_request m f r now l :
  call_ok m (Prepared f r now l) ->
  (exists bytes, l = new_lease (EncodeHex bytes) r now)
  /\ (ir_TemporaryEgress r || lm_requireConfirmation m = true ->
      exists v, lm_verifier m = Some v /\ v (confirmation_request r) = None).
Proof.
  intros [Hf _ (policy & used & raw & Hp)]. apply issue_prepare_checks in Hp as (_ & Ha & bytes & _ & ->).
  split; [by eauto|]. cbn [call_flags] in Hf. destruct Hf as [_ Hreq Hver _ _]. rewrite <- Hreq, <- Hver.
  by apply approval_given with used.
Qed.

(** Whenever a manager that enforces a policy issues a lease, also when
    the policy changed while the call was in flight, the lease is for the
    epoch of the policy in force, and its target either is a registered
    internal resource of that policy under its registered name, or is a
    temporary exception on a host the policy does not know. A temporary lease,
    and every lease of a manager that requires confirmation, was approved by
    the control plane's verifier for exactly the request that was issued. *)
Theorem issued_lease_allowed opts ops s now r l s' :
  lease_run (initial opts) ops s -> lease_step s (DoCommit now r (Ok l)) s' ->
  let m := ls_manager s in
  (exists bytes, l = new_lease (EncodeHex bytes) r now)
  /\ lm_leases (ls_manager s') !! le_ID l = Some l
  /\ (lm_requirePolicy m = true ->
      le_PolicyEpoch l = pol_epoch (lm_policy m)
      /\ (registered (lm_policy m) r \/ (lm_allowTemporaryEgress m = true /\ exceptional (lm_policy m) r)))
  /\ (ir_TemporaryEgress r || lm_requireConfirmation m = true ->
      exists v, lm_verifier m = Some v /\ v (confirmation_request r) = None).
Proof.
  intros Hrun Hstep m.
  destruct (commit_call _ _ _ _ _ Hstep (state_ok_run _ _ _ (state_ok_initial opts) Hrun)) as (f & Hc & Hcall).
  apply prepared_request in Hcall as [[bytes ->] Happ].
  apply issue_commit_ok in Hc as (_ & Hl & Hpol & _). split_and!; [by eauto| | |done].
  - rewrite Hl. apply lookup_insert_eq.
  - intros Hr. destruct (Hpol Hr) as [He Hcheck]. apply checkIssuePolicy_None in Hcheck as (_ & _ & ?).
    split; [|done]. done.
Qed.

(** ** Policy updates fence older leases *)

(** The policy epoch of what a successful operation granted. *)
Definition granted_epoch (op : LeaseOp) : option Z :=
  match op with
  | DoAuthorize _ sc None | DoConsume _ sc None | DoAcquireUse _ sc (Ok _) | DoRecord _ sc None =>
      Some (sc_PolicyEpoch sc)
  | DoCommit _ _ (Ok l) => Some (le_PolicyEpoch l)
  | _ => None
  end.

(** The manager enforces an epoch of at least [n]. *)
Definition fenced (n : Z) (s : LeaseState) : Prop :=
  lm_requirePolicy (ls_manager s) = true /\ n <= pol_epoch (lm_policy (ls_manager s))
  /\ pol_epoch (lm_policy (ls_manager s)) <> 0.

Lemma fenced_env n m m' :
  same_env m m' ->
  (lm_requirePolicy m = true /\ n <= pol_epoch (lm_policy m) /\ pol_epoch (lm_policy m) <> 0) ->
  (lm_requirePolicy m' = true /\ n <= pol_epoch (lm_policy m') /\ pol_epoch (lm_policy m') <> 0).
Proof. intros []. congruence. Qed.

Lemma fenced_step n s op s' : fenced n s -> lease_step s op s' -> fenced n s'.
Proof.
  unfold fenced. intros Hf H. destruct (step_effect _ _ _ H) as [? _ [? _]| |? ? ? ? Hc|p Hp|? ? ? ? _ _ [? _]
    |? ? ? ? ? _ _ _ [? _]|? ? ? ? ? ? _ _ _ _ _ [? _]|? ? ? ? ? _ _ _ _ _ _ [? _]|? ? _ [? _]];
    try (by eapply fenced_env).
  - apply issue_commit_ok in Hc as [? _]. by eapply fenced_env.
  - apply UpdatePolicy_ok in Hp as (_ & _ & -> & -> & _ & _ & _ & _ & ? & Hlt).
    destruct Hf as (Hr & ? & ?). specialize (Hlt Hr). split_and!; [done|lia|done].
Qed.

Lemma usable_epoch n s id sc now l :
  fenced n s -> usable (ls_manager s) id sc now l -> n <= sc_PolicyEpoch sc.
Proof.
  intros (Hr & ? & ?) Hu. rewrite (scope_epoch _ _ (us_scope _ _ _ _ _ Hu)).
  destruct (us_epoch _ _ _ _ _ Hu Hr); lia.
Qed.

Lemma granted_fenced n s op s' e :
  state_ok s -> fenced n s -> lease_step s op s' -> granted_epoch op = Some e -> n <= e.
Proof.
  intros Hs Hf H Hg. destruct (step_effect _ _ _ H) as [op Hn|?|? ? ? l Hc|?|? ? ? ? Hu|op ? sc ? ? Hsp Hu| | |];
    cbn [granted_epoch] in Hg; try done.
  - exfalso. destruct op as [| | | |? ? [|]|? [|]|? ? [|]|? ? [|]|? ? [|]| |? ? [|]|? ? [|]|? [|]]; done.
  - injection Hg as <-. destruct (commit_call _ _ _ _ _ H Hs) as (? & Hc' & Hcall).
    apply prepared_request in Hcall as [[bytes ->] _]. apply issue_commit_ok in Hc' as (_ & _ & Hpol & _).
    destruct Hf as (Hr & ? & _). destruct (Hpol Hr) as [He _]. cbn. lia.
  - injection Hg as <-. by eapply usable_epoch.
  - assert (e = sc_PolicyEpoch sc) as ->. { destruct Hsp as [-> | [? ->]]; by injection Hg. }
    by eapply usable_epoch.
  - injection Hg as <-. by eapply usable_epoch.
Qed.

(** Once a policy has been published, every lease that is issued,
    authorized, consumed or given a result, in any later interleaving and
    under any later policy, is of that policy's epoch or a newer one: leases
    of older epochs fail closed. *)
Theorem policy_update_fences opts ops1 p ops2 op e s :
  lease_run (initial opts) (ops1 ++ DoUpdatePolicy p None :: ops2 ++ [op]) s ->
  granted_epoch op = Some e -> pol_epoch p <= e.
Proof.
  intros Hrun. apply lease_run_app in Hrun as (s1 & Hrun1 & Hrun).
  apply lease_run_cons in Hrun as (s2 & Hstep & Hrun). apply lease_run_app in Hrun as (s3 & Hrun2 & Hrun).
  apply lease_run_cons in Hrun as (s4 & Hop & _).
  pose proof (state_ok_run _ _ _ (state_ok_initial opts) Hrun1) as Hs1.
  pose proof (state_ok_run _ _ _ (state_ok_step _ _ _ Hs1 Hstep) Hrun2) as Hs3.
  assert (Hf : fenced (pol_epoch p) s2).
  { inversion Hstep as [| | | | |m calls q m' res Hup| | | | | | | |]; subst.
    apply UpdatePolicy_ok in Hup as (_ & _ & E & Er & _ & _ & _ & _ & ? & _).
    unfold fenced. cbn [ls_manager]. rewrite E, Er. split_and!; [done|lia|done]. }
  apply (granted_fenced _ s3 op s4 e Hs3); [|done].
  exact (lease_run_invariant (fenced (pol_epoch p)) (fenced_step _) _ _ _ Hf Hrun2).
Qed.

(** ** A confirmation is spent once *)

(** The settings of a manager never change. *)
Definition settings (opts : ManagerOptions) (s : LeaseState) : Prop :=
  let m := ls_manager s in
  lm_requireConfirmation m = mo_RequireConfirmation opts /\ lm_consumeConfirmation m = mo_ConsumeConfirmation opts.

Lemma settings_run opts ops s : lease_run (initial opts) ops s -> settings opts s.
Proof.
  apply lease_run_invariant; [|done]. intros s1 op s2 [Hr Hc] H. unfold settings.
  pose proof (flags_effect _ _ _ (flags_of (ls_manager s1)) (step_effect _ _ _ H)) as Hf.
  destruct Hf as [_ Hreq _ _ Hcon]; [by split|]. cbn in *. split; congruence.
Qed.

(** The confirmation is kept, at least until [t]. *)
Definition kept (cid : string) (t : Time) (s : LeaseState) : Prop :=
  exists t', lm_confirmations (ls_manager s) !! cid = Some t' /\ t <= t'.

(** An [Issue] call begins, and cleans up, at [t] or later. *)
Definition begins_at (t : Time) (op : LeaseOp) : Prop := exists now r, op = DoBegin now r /\ t <= now.

Lemma kept_step cid t s op s' : kept cid t s -> lease_step s op s' -> kept cid t s' \/ begins_at t op.
Proof.
  unfold kept. intros (t' & Hk & Ht) H. destruct (step_effect _ _ _ H) as [? _ (_ & _ & ->)|now r _ _ _ Hpr
    |? ? ? ? Hc|p Hp|? ? ? ? _ _ (_ & _ & ->)|? ? ? ? ? _ _ _ (_ & _ & ->)|? ? ? ? ? ? _ _ _ _ _ (_ & _ & ->)
    |? ? ? ? ? _ _ _ _ _ _ (_ & _ & ->)|? ? _ (_ & _ & ->)]; try (left; by eauto).
  - destruct (Z.lt_ge_cases now t') as [Hlt|Hge]; [left|right].
    + eauto.
    + exists now, r. split; [done|lia].
  - left. apply issue_commit_ok in Hc as (_ & _ & _ & Hfree & ->). destruct (_ && _); [|by eauto].
    destruct (decide (ir_ConfirmationID r = cid)) as [<-|Hne].
    + rewrite Hfree in Hk by done. done.
    + rewrite lookup_insert_ne by done. eauto.
  - left. apply UpdatePolicy_ok in Hp as (_ & -> & _). eauto.
Qed.

Lemma kept_run cid t s ops s' : kept cid t s -> lease_run s ops s' -> kept cid t s' \/ Exists (begins_at t) ops.
Proof.
  intros Hk Hrun. induction Hrun as [s|s op s1 ops s2 Hstep Hrun IH]; [by left|].
  destruct (kept_step _ _ _ _ _ Hk Hstep) as [Hk'|]; [|right; by apply Exists_cons_hd].
  destruct (IH Hk'); [by left|right]. by apply Exists_cons_tl.
Qed.

(** The commit of a call that needs approval, on a manager that consumes
    confirmations, finds the confirmation unused and keeps it. *)
Lemma commit_spends_confirmation opts ops s now r l s' :
  lease_run (initial opts) ops s -> lease_step s (DoCommit now r (Ok l)) s' ->
  mo_ConsumeConfirmation opts = true -> mo_RequireConfirmation opts || ir_TemporaryEgress r = true ->
  lm_confirmations (ls_manager s) !! ir_ConfirmationID r = None
  /\ kept (ir_ConfirmationID r) (now + MaxLeaseTTL) s'.
Proof.
  intros Hrun Hstep Hcons Hneed. destruct (settings_run _ _ _ Hrun) as [Hreq Hcon].
  destruct (commit_call _ _ _ _ _ Hstep (state_ok_run _ _ _ (state_ok_initial opts) Hrun)) as (f & Hc & Hcall).
  pose proof (co_flags _ _ Hcall) as Hf. cbn [call_flags] in Hf.
  apply prepared_request in Hcall as [_ Happ].
  destruct Happ as (v & Hv & _). { rewrite Hreq, orb_comm. done. }
  assert (Hver : fl_consumeConfirmation f && verifies f r = true).
  { destruct Hf as [_ Hf1 Hf2 _ Hf3]. unfold verifies. rewrite Hf3, Hcon, Hcons, Hf2, Hv, Hf1, Hreq. done. }
  apply issue_commit_ok in Hc as (_ & _ & _ & Hfree & Hm). rewrite Hver in *. split; [by apply Hfree|].
  unfold kept. rewrite Hm. exists (TimeAdd now MaxLeaseTTL). split; [apply lookup_insert_eq|done].
Qed.

(** On a manager that consumes confirmations, two leases that needed the
    administrator's confirmation are never issued on the same confirmation
    identifier within ten minutes, even by racing calls: in between, some
    other call must have begun ten minutes or more after the first issue. *)
Theorem confirmation_spent_once opts ops1 now1 r1 l1 ops2 now2 r2 l2 s :
  lease_run (initial opts) (ops1 ++ DoCommit now1 r1 (Ok l1) :: ops2 ++ [DoCommit now2 r2 (Ok l2)]) s ->
  mo_ConsumeConfirmation opts = true -> ir_ConfirmationID r1 = ir_ConfirmationID r2 ->
  mo_RequireConfirmation opts || ir_TemporaryEgress r1 = true ->
  mo_RequireConfirmation opts || ir_TemporaryEgress r2 = true ->
  Exists (begins_at (now1 + MaxLeaseTTL)) ops2.
Proof.
  intros Hrun Hcons Hid Hneed1 Hneed2.
  apply lease_run_app in Hrun as (s1 & Hrun1 & Hrun). apply lease_run_cons in Hrun as (s2 & Hstep1 & Hrun).
  apply lease_run_app in Hrun as (s3 & Hrun2 & Hrun). apply lease_run_cons in Hrun as (s4 & Hstep2 & _).
  destruct (commit_spends_confirmation _ _ _ _ _ _ _ Hrun1 Hstep1 Hcons Hneed1) as [_ Hk].
  destruct (kept_run _ _ _ _ _ Hk Hrun2) as [(t & Ht & _)|]; [|done]. exfalso.
  assert (Hrun3 : lease_run (initial opts) (ops1 ++ DoCommit now1 r1 (Ok l1) :: ops2) s3).
  { exact (lease_run_snoc_app _ _ _ _ _ _ _ Hrun1 Hstep1 Hrun2). }
  destruct (commit_spends_confirmation _ _ _ _ _ _ _ Hrun3 Hstep2 Hcons Hneed2) as [Hnone _].
  rewrite Hid in Ht. congruence.
Qed.
