(* ===== verification/ApprovalExamples.v ===== *)
(** * Approvals: a concrete run, and the theorems applied to it

    Alice submits a cluster operation, Bob confirms it twice, the
    authorization is consumed; a pre-approved low-risk request goes through
    beside it. The witnesses apply the theorems of the approval components to
    this run. *)

From S2P Require Import Prelude GoText Sha256 Json Approval ApprovalPersistence ApprovalGate ApprovalGateFacts.
From S2P Require Import ApprovalSafety ApprovalAudit ApprovalWorkflow.

Open Scope list_scope.
Open Scope Z_scope.

(** ** The data *)

Definition t0 : Time := 63800000000 * Second.
Definition seconds (n : Z) : Time := t0 + n * Second.

Definition raw_request : Request :=
  {| r_ID := "req-1"; r_Risk := RiskHigh; r_Scope := "cluster:drain"; r_PolicyEpoch := 7; r_TTL := 5 * Minute;
     r_PreApproved := false; r_Untrusted := false; r_Test := false; r_TokenOperation := false;
     r_KMSOperation := false; r_ClusterOperation := true; r_BreakGlass := false; r_Actor := "alice";
     r_SessionID := "session-alice"; r_ConfirmationLanguage := "en"; r_IntentDigest := "";
     r_WorkflowDigest := ""; r_Nonce := "" |}%string.

(** The request as the gate stores it. *)
Definition request : Request := match normalizeRequest raw_request with Ok r => r | Err _ => raw_request end.

Definition low_request (id : string) (preapproved : bool) : Request :=
  {| r_ID := id; r_Risk := RiskLow; r_Scope := "rules:reload"; r_PolicyEpoch := 7; r_TTL := 5 * Minute;
     r_PreApproved := preapproved; r_Untrusted := false; r_Test := false; r_TokenOperation := false;
     r_KMSOperation := false; r_ClusterOperation := false; r_BreakGlass := false; r_Actor := "alice";
     r_SessionID := "session-alice"; r_ConfirmationLanguage := "en-US"; r_IntentDigest := "";
     r_WorkflowDigest := ""; r_Nonce := "" |}%string.

(** The confirmation of a request as the gate stores it. *)
Definition confirmation (req : Request) (cid actor session : string) (read : Time) (third : bool) : Confirmation :=
  {| c_WarningReadAt := read; c_PasswordConfirmed := true; c_SecondConfirmation := true;
     c_ThirdConfirmation := third; c_ConfirmationID := cid; c_Actor := actor; c_ActorRole := "admin";
     c_Scope := r_Scope req; c_PolicyEpoch := r_PolicyEpoch req; c_TTL := 0; c_Local := true;
     c_BreakGlass := false; c_BreakGlassReason := ""; c_SessionID := session; c_ConfirmationLanguage := "en-US";
     c_ConfirmationPhrase := "CONFIRM"; c_IntentDigest := r_IntentDigest req;
     c_WorkflowDigest := r_WorkflowDigest req; c_Nonce := r_Nonce req; c_TOTPConfirmed := false;
     c_ConfirmationStep := 0 |}%string.

Definition second_step : Confirmation := confirmation request "confirm-1" "bob" "session-bob" (seconds 10) false.
Definition third_step : Confirmation := confirmation request "confirm-1" "bob" "session-bob" (seconds 10) true.

Definition approving_ops : list (op (D := unit)) :=
  [OpSubmit (seconds 0) raw_request; OpConfirm (seconds 30) "req-1" second_step;
   OpConfirm (seconds 40) "req-1" third_step].
Definition consume : op (D := unit) := OpConsume (seconds 50) "req-1" "cluster:drain" (r_IntentDigest request).
Definition consuming_ops : list (op (D := unit)) := approving_ops ++ [consume; consume].

(** The gate and the log after a run from a new gate. *)
Definition gate_after (ops : list (op (D := unit))) : Gate unit := fst (fst (run ops (NewGate 7) tt)).
Definition log_after (ops : list (op (D := unit))) : list (op * option ApErr) := snd (run ops (NewGate 7) tt).

Lemma run_after ops : run ops (NewGate 7) tt = (gate_after ops, tt, log_after ops).
Proof. unfold gate_after, log_after. by destruct (run ops (NewGate 7) tt) as [[g []] log]. Qed.

Example approving_log :
  map snd (log_after consuming_ops) = [None; Some ErrThirdConfirmation; None; None; Some ErrNotPending].
Proof. vm_compute. reflexivity. Qed.

Lemma no_recovery ops :
  forallb (fun o : op (D := unit) => negb (recovers o)) ops = true -> Forall (fun o => recovers o = false) ops.
Proof.
  intros H. apply Forall_forall. intros o Ho. apply list_elem_of_In in Ho. rewrite forallb_forall in H.
  by apply negb_true_iff, H.
Qed.

(** A computed lookup, with what a test finds out about it. *)
Lemma some_where {A} (o : option A) (p : A -> bool) :
  match o with Some a => p a | None => false end = true -> exists a, o = Some a /\ p a = true.
Proof. destruct o as [a|]; [|done]. by exists a. Qed.

(** ** The gate *)

Lemma errors_leave_gate_unchanged_witness :
  fst (fst (exec consume (gate_after consuming_ops) tt)) = gate_after consuming_ops.
Proof.
  destruct (some_where (snd (exec consume (gate_after consuming_ops) tt)) (fun _ => true)) as (e & He & _).
  { vm_compute. reflexivity. }
  destruct (exec consume (gate_after consuming_ops) tt) as [[g' d'] o] eqn:H. cbn [fst snd] in He |- *. subst o.
  apply (errors_leave_gate_unchanged consume (gate_after consuming_ops) tt g' d' e H). discriminate.
Defined.

Lemma authorization_consumed_once_witness :
  (consume, None) ∉ drop 4 (log_after consuming_ops).
Proof.
  assert (E : log_after consuming_ops = take 3 (log_after consuming_ops) ++ (consume, None) :: drop 4 (log_after consuming_ops)).
  { vm_compute. reflexivity. }
  apply (authorization_consumed_once consuming_ops (NewGate 7) tt (gate_after consuming_ops) tt
           (take 3 (log_after consuming_ops)) consume (drop 4 (log_after consuming_ops)) consume "req-1").
  - apply no_recovery. vm_compute. reflexivity.
  - rewrite <- E. apply run_after.
  - reflexivity.
  - reflexivity.
Defined.

Lemma old_epoch_never_authorizes_witness :
  (consume, None) ∉ snd (run [consume] (gate_after (approving_ops ++ [OpAdvance 8])) tt).
Proof.
  set (g := gate_after (approving_ops ++ [OpAdvance 8])).
  destruct (some_where (g_requests g !! "req-1"%string) (fun r => r_PolicyEpoch (rec_Request r) <? g_policyEpoch g))
    as (r & Hr & Hp). { vm_compute. reflexivity. }
  destruct (run [consume] g tt) as [[g' []] log] eqn:H.
  apply (old_epoch_never_authorizes [consume] g tt g' tt log "req-1" r consume Hr).
  - apply Z.ltb_lt. exact Hp.
  - apply no_recovery. reflexivity.
  - exact H.
  - reflexivity.
Defined.


Lemma gate_records_always_valid_witness :
  exists r, g_requests (gate_after consuming_ops) !! "req-1"%string = Some r /\ ValidateRecordForAdapter r = None.
Proof.
  destruct (some_where (g_requests (gate_after consuming_ops) !! "req-1"%string) (fun _ => true)) as (r & Hr & _).
  { vm_compute. reflexivity. }
  exists r. split; [exact Hr|].
  apply (gate_records_always_valid consuming_ops (seconds 0) (NewGate 7) tt (gate_after consuming_ops) tt
           (log_after consuming_ops) "req-1" r).
  - split; [vm_compute; reflexivity|]. intros id r' H. discriminate H.
  - apply no_recovery. vm_compute. reflexivity.
  - repeat (split; [vm_compute; discriminate|]). exact I.
  - apply run_after.
  - exact Hr.
Defined.

(** ** The audit trail *)

Lemma audit_trail_append_only_witness :
  numbered (gate_after consuming_ops) /\ exists new, g_audit (gate_after consuming_ops) = [] ++ new.
Proof.
  apply (audit_trail_append_only consuming_ops (NewGate 7) tt (gate_after consuming_ops) tt (log_after consuming_ops)).
  - split; [reflexivity|]. intros i e H. discriminate H.
  - apply run_after.
Defined.

Definition is_type (typ : string) (e : AuditEvent) : bool := String.eqb (e_Type e) typ.

Lemma sensitive_authorizations_have_two_checkpoints_witness :
  exists e r, g_audit (gate_after consuming_ops) !! 2%nat = Some e
    /\ g_requests (gate_after consuming_ops) !! e_RequestID e = Some r
    /\ (requiresThirdConfirmation (rec_Request r) = true ->
        checkpointed (take 2 (g_audit (gate_after consuming_ops))) (e_RequestID e) (e_ConfirmationID e) (e_Actor e)).
Proof.
  destruct (some_where (g_audit (gate_after consuming_ops) !! 2%nat) (is_type AuditAuthorized)) as (e & He & Ht).
  { vm_compute. reflexivity. }
  destruct (sensitive_authorizations_have_two_checkpoints 7 consuming_ops tt (gate_after consuming_ops) tt
              (log_after consuming_ops) 2 e) as (r & Hr & Hcheck & _).
  - apply no_recovery. vm_compute. reflexivity.
  - apply run_after.
  - exact He.
  - apply String.eqb_eq. exact Ht.
  - exists e, r. auto.
Defined.

(** A pre-approved request derives its confirmation identifier from its own
    identifier and does not look whether it was used: an administrator who
    chose that identifier for another request shares it with the pre-approval. *)
Definition low_stored : Request := match normalizeRequest (low_request "req-2" false) with Ok r => r | Err _ => raw_request end.

Definition shared_id_ops : list (op (D := unit)) :=
  [OpSubmit (seconds 0) (low_request "req-2" false);
   OpConfirm (seconds 30) "req-2" (confirmation low_stored "preapproved:req-3" "bob" "session-alice" (seconds 10) false);
   OpSubmit (seconds 40) (low_request "req-3" true)].

Example shared_confirmation_id :
  map (fun e => (e_Type e, e_RequestID e, e_ConfirmationID e)) (g_audit (gate_after shared_id_ops))
  = [(AuditSubmitted, "req-2", ""); (AuditAuthorized, "req-2", "preapproved:req-3");
     (AuditSubmitted, "req-3", ""); (AuditAuthorized, "req-3", "preapproved:req-3")]%string.
Proof. vm_compute. reflexivity. Qed.

Lemma confirmation_id_authorizes_once_witness :
  exists e1 e2, g_audit (gate_after shared_id_ops) !! 1%nat = Some e1
    /\ g_audit (gate_after shared_id_ops) !! 3%nat = Some e2
    /\ e_Reason e1 = interactive /\ e_Reason e2 = preapproved.
Proof.
  set (authorized e := is_type AuditAuthorized e && String.eqb (e_ConfirmationID e) "preapproved:req-3").
  destruct (some_where (g_audit (gate_after shared_id_ops) !! 1%nat) authorized) as (e1 & H1 & P1).
  { vm_compute. reflexivity. }
  destruct (some_where (g_audit (gate_after shared_id_ops) !! 3%nat) authorized) as (e2 & H2 & P2).
  { vm_compute. reflexivity. }
  apply andb_true_iff in P1 as [T1 I1]. apply andb_true_iff in P2 as [T2 I2].
  exists e1, e2. split; [exact H1|]. split; [exact H2|].
  apply (confirmation_id_authorizes_once 7 shared_id_ops tt (gate_after shared_id_ops) tt (log_after shared_id_ops)
           1 3 e1 e2).
  - apply no_recovery. vm_compute. reflexivity.
  - apply run_after.
  - apply Nat.ltb_lt. reflexivity.
  - exact H1.
  - exact H2.
  - apply String.eqb_eq. exact T1.
  - apply String.eqb_eq. exact T2.
  - apply String.eqb_eq in I1, I2. rewrite I1, I2. reflexivity.
Defined.

(** ** The ledger *)

(** The mutations that the gate writes through for the run. *)
Definition stored_record : ApprovalRecord :=
  default zero_record (g_requests (gate_after approving_ops) !! "req-1"%string).
Definition mutations : list ApprovalMutation :=
  snd (persist_batch stored_record "req-1" 0 (g_audit (gate_after approving_ops))).
Definition mutation (i : nat) : ApprovalMutation :=
  nth i mutations {| m_IdempotencyKey := ""; m_WorkflowDigest := ""; m_Record := zero_record;
                     m_Event := audit_event (NewGate (D := unit) 7) 0 0 "" "" "" "" 0 "" "" |}.

(** Whether the mutation is of the gate's making. *)
Definition consistentb (m : ApprovalMutation) : bool :=
  String.eqb (m_WorkflowDigest m) (r_WorkflowDigest (rec_Request (m_Record m)))
  && String.eqb (e_PreviousHash (m_Event m)) "".

Lemma consistentb_true m : consistentb m = true -> consistent m.
Proof. unfold consistentb, consistent. intros H. props. by split. Qed.

Definition ledger_one : MemoryPersistence := fst (Apply LiveContext (mutation 0) NewMemoryPersistence).
Definition ledger_two : MemoryPersistence := fst (Apply LiveContext (mutation 1) ledger_one).

Lemma mutation_consistent i : (i < 3)%nat -> consistent (mutation i).
Proof.
  intros Hi. apply consistentb_true. assert (Hall : forallb (fun i => consistentb (mutation i)) [0; 1; 2]%nat = true).
  { vm_compute. reflexivity. }
  rewrite forallb_forall in Hall. apply Hall. do 3 (destruct i as [|i]; [cbn; auto|]). lia.
Qed.

Lemma ledger_two_reachable : ledger_reachable ledger_two.
Proof.
  apply rtc_l with ledger_one; [apply step_apply, mutation_consistent; lia|].
  apply rtc_once. apply step_apply, mutation_consistent. lia.
Qed.

Lemma ledger_always_loads_witness :
  exists s, p_records ledger_two !! "req-1"%string = Some s /\ length (s_events s) = 2%nat
    /\ LoadWithEvents LiveContext "req-1" ledger_two = Ok (s_record s, s_events s).
Proof.
  destruct (some_where (p_records ledger_two !! "req-1"%string) (fun s => Nat.eqb (length (s_events s)) 2))
    as (s & Hs & Hn). { vm_compute. reflexivity. }
  exists s. split; [exact Hs|]. split; [apply Nat.eqb_eq, Hn|].
  apply (ledger_always_loads ledger_two "req-1" s ledger_two_reachable Hs).
Defined.


Lemma mutation_applies_once_witness :
  Apply LiveContext (mutation 0) ledger_two = (ledger_two, None).
Proof.
  assert (E : snd (Apply LiveContext (mutation 0) NewMemoryPersistence) = None) by (vm_compute; reflexivity).
  apply (mutation_applies_once NewMemoryPersistence ledger_one ledger_two LiveContext (mutation 0)).
  - apply rtc_refl.
  - unfold ledger_one. rewrite <- E. destruct (Apply LiveContext (mutation 0) NewMemoryPersistence). reflexivity.
  - apply mutation_consistent. apply Nat.ltb_lt. reflexivity.
  - apply rtc_once. apply step_apply, mutation_consistent. apply Nat.ltb_lt. reflexivity.
Defined.

(** ** Workflows *)

Lemma plan_agrees_with_gate_witness :
  exists r plan, snd (submit_body (seconds 0) (low_request "req-3" true) (NewGate (D := unit) 7)) = Ok r
    /\ PlanWorkflow (low_request "req-3" true) true = Ok plan
    /\ (w_Route plan = WorkflowAutoApproved <-> rec_Status r = StatusApproved).
Proof.
  assert (E : error_of (snd (submit_body (seconds 0) (low_request "req-3" true) (NewGate (D := unit) 7))) = None).
  { vm_compute. reflexivity. }
  destruct (submit_body (seconds 0) (low_request "req-3" true) (NewGate (D := unit) 7)) as [g' [r|e]] eqn:H.
  - destruct (plan_agrees_with_gate (seconds 0) (low_request "req-3" true) true (NewGate 7) g' r H)
      as (plan & Hp & Hr & _).
    exists r, plan. split; [reflexivity|]. split; [exact Hp|exact Hr].
  - discriminate E.
Defined.

Lemma workflow_binding_fresh_witness :
  exists b, WorkflowBindingFor (seconds 45) "req-1" (gate_after approving_ops) = Ok b
    /\ b_EventSequence b = 3 /\ ValidateWorkflowBinding (seconds 45) "req-1" b (gate_after approving_ops) = None.
Proof.
  assert (E : match WorkflowBindingFor (seconds 45) "req-1" (gate_after approving_ops) with
              | Ok b => b_EventSequence b =? 3 | Err _ => false end = true) by (vm_compute; reflexivity).
  destruct (WorkflowBindingFor (seconds 45) "req-1" (gate_after approving_ops)) as [b|e] eqn:Hb.
  - exists b. split; [reflexivity|]. split; [apply Z.eqb_eq, E|].
    apply (workflow_binding_fresh (seconds 45) "req-1" (gate_after approving_ops) b).
    + intros r Hr. assert (Hid : match g_requests (gate_after approving_ops) !! "req-1"%string with
                                 | Some r => String.eqb (rec_ID r) "req-1" | None => false end = true).
      { vm_compute. reflexivity. }
      rewrite Hr in Hid. apply String.eqb_eq. exact Hid.
    + exact Hb.
  - discriminate E.
Defined.

Definition delegation : ApprovalDelegation :=
  {| d_ID := "delegation-1"; d_ApprovalID := "req-1"; d_Issuer := "alice"; d_IssuerSessionID := "session-alice";
     d_Delegate := "carol"; d_DelegateSessionID := "session-carol"; d_Scope := "cluster:drain";
     d_IntentDigest := r_IntentDigest request; d_WorkflowDigest := ""; d_PolicyEpoch := 7;
     d_IssuedAt := seconds 41; d_ExpiresAt := seconds 100; d_OneTime := true; d_ParentID := "" |}%string.

Lemma delegation_consumed_once_witness :
  let calls := [(seconds 45, stored_record, delegation); (seconds 46, stored_record, delegation)] in
  snd (consume_all calls NewDelegationLedger) !! 0%nat = Some None
  /\ snd (consume_all calls NewDelegationLedger) !! 1%nat <> Some None.
Proof.
  intros calls.
  assert (E : snd (consume_all calls NewDelegationLedger) !! 0%nat = Some None) by (vm_compute; reflexivity).
  split; [exact E|].
  apply (delegation_consumed_once calls NewDelegationLedger 0 1 (seconds 45) stored_record delegation
           (seconds 46) stored_record delegation); [|reflexivity|reflexivity|exact E|reflexivity].
  apply Nat.ltb_lt. reflexivity.
Defined.

(** ** Where the code differs from what it says *)

(** An adapter that answers with the approved record of the run, whatever
    identifier it is asked for. *)
Definition misfiled : Persistence unit :=
  {| i_Apply := fun _ _ d => (d, None);
     i_Load := fun _ _ _ => Ok stored_record;
     i_Events := fun _ _ _ => Ok (prior_events ledger_two "req-1");
     i_LoadWithEvents := None; i_LoadWithEventsAtEpoch := None; i_ApplyBatch := None; i_ApplyAtEpoch := None;
     i_ApplyBatchAtEpoch := None; i_PolicyEpoch := None; i_CompareAndSetEpoch := None; i_ListIDs := None |}.

Definition status_of (g : Gate unit) (id : string) : option string := rec_Status <$> g_requests g !! id.

(** [RestoreRecord] never compares the identifier of the record it got with
    the one it asked for: the consumed authorization of [req-1] is approved
    again by restoring [req-9]. *)
Theorem misfiled_record_overwrites :
  let g := set_persistence (gate_after consuming_ops) misfiled in
  status_of g "req-1" = Some StatusRevoked
  /\ snd (RestoreRecord LiveContext 0 "req-9" g tt) = Ok tt
  /\ status_of (fst (RestoreRecord LiveContext 0 "req-9" g tt)) "req-1" = Some StatusApproved.
Proof. vm_compute. repeat split. Qed.

(** A mutation whose workflow is not that of its request is accepted by the
    ledger, and makes the approval unloadable. *)
Definition foreign_workflow : ApprovalMutation :=
  {| m_IdempotencyKey := "k"; m_WorkflowDigest := "wf"; m_Record := stored_record;
     m_Event := m_Event (mutation 0) |}%string.

Theorem foreign_workflow_not_loadable :
  snd (Apply LiveContext foreign_workflow NewMemoryPersistence) = None
  /\ LoadWithEvents LiveContext "req-1" (fst (Apply LiveContext foreign_workflow NewMemoryPersistence))
     = Err ErrInvalidPersistence.
Proof. vm_compute. split; reflexivity. Qed.
