(* ===== verification/TokenExamples.v ===== *)
(** * Service tokens: a concrete run, and the theorems applied to it

    A token is created, used, revoked and cleaned up; its durable record is
    written, updated and deleted. *)

From stdpp Require Import relations.
From S2P Require Import Prelude GoText Sha256 Tokens TokenPersistence.
From S2P Require ApprovalPersistence.

Open Scope list_scope.
Open Scope Z_scope.

(** ** The manager *)

Definition start : Time := 63800000000 * Second.

Definition token_request : CreateRequest :=
  {| q_Owner := "ops"; q_Permissions := ["read"]; q_Resources := ["site:a"]; q_Scopes := []; q_Note := "";
     q_PolicyEpoch := 1; q_TTL := Hour; q_NeverExpire := false; q_ConfirmNeverExpire := false |}%string.

Definition raw_bytes : list Z := repeat 7 48.
Definition token_id : string := fst (fst (credential raw_bytes)).
Definition token_secret : string := snd (fst (credential raw_bytes)).

Definition token_ops : list tok_op :=
  [TCreate [raw_bytes] start token_request;
   TAuthorize (start + Minute) token_id token_secret "read" "site:a"].
Definition token_manager : Manager := fst (run_tok token_ops NewManager).

Example token_log : map snd (snd (run_tok (token_ops ++ [TAuthorize (start + Minute) token_id "guess" "read" "site:a"]) NewManager))
  = [None; None; Some TErrInvalidSecret].
Proof. vm_compute. reflexivity. Qed.

Lemma tokens_well_formed_witness :
  exists r, tokens token_manager !! token_id = Some r /\ token_ok token_id r.
Proof.
  assert (E : match tokens token_manager !! token_id with Some _ => true | None => false end = true) by (vm_compute; reflexivity).
  destruct (tokens token_manager !! token_id) as [r|] eqn:Hr; [|discriminate E].
  exists r. split; [reflexivity|]. exact (tokens_well_formed token_ops token_id r Hr).
Defined.


Definition revoked_manager : Manager := fst (exec_tok (TRevoke (start + 2 * Minute) token_id "leaked") token_manager).
Definition reuse : tok_op := TAuthorize (start + 3 * Minute) token_id token_secret "read" "site:a".

Lemma revoked_token_never_authorizes_witness :
  (reuse, None) ∉ snd (run_tok [reuse; TCleanup map_to_list (start + 4 * Minute); reuse] revoked_manager).
Proof.
  assert (E : snd (exec_tok (TRevoke (start + 2 * Minute) token_id "leaked") token_manager) = None) by (vm_compute; reflexivity).
  apply (revoked_token_never_authorizes (start + 2 * Minute) token_id "leaked" token_manager revoked_manager).
  - unfold revoked_manager. rewrite <- E.
    destruct (exec_tok (TRevoke (start + 2 * Minute) token_id "leaked") token_manager). reflexivity.
  - repeat constructor.
  - exists (start + 3 * Minute), token_secret, "read"%string, "site:a"%string. reflexivity.
Defined.

Lemma cleanup_removes_exactly_stale_witness :
  let '(m', removed) := Cleanup (map_to_list (tokens token_manager)) (start + 2 * Hour) token_manager in
  tokens m' !! token_id = None /\ removed = Z.of_nat (size (tokens token_manager)) - Z.of_nat (size (tokens m')).
Proof.
  pose proof (cleanup_removes_exactly_stale (map_to_list (tokens token_manager)) (start + 2 * Hour) token_manager
                (Permutation_refl _)) as H.
  destruct (Cleanup (map_to_list (tokens token_manager)) (start + 2 * Hour) token_manager) as [m' removed].
  assert (Edue : negb (IsZero (start + 2 * Hour)) && negb (IsZero (cleanupAt token_manager))
                 && (cleanupAt token_manager <=? start + 2 * Hour) = true) by (vm_compute; reflexivity).
  rewrite Edue in H. destruct H as (H & Hr & _). split; [|exact Hr]. rewrite H.
  assert (E : match tokens token_manager !! token_id with
              | Some r => stale (metadata r) (start + 2 * Hour) | None => false end = true) by (vm_compute; reflexivity).
  destruct (tokens token_manager !! token_id) as [r|]; [|reflexivity]. rewrite E. reflexivity.
Defined.

Lemma cleanup_always_scheduled_witness :
  0 < NextCleanupAt token_manager <= start + Minute + CleanupDelay.
Proof.
  apply (cleanup_always_scheduled token_ops (start + Minute)).
  - repeat constructor; vm_compute; (reflexivity || discriminate).
  - intros E. assert (Hn : match tokens token_manager !! token_id with Some _ => true | None => false end = true).
    { vm_compute. reflexivity. }
    change (tokens (fst (run_tok token_ops NewManager))) with (tokens token_manager) in E.
    rewrite E in Hn. discriminate Hn.
Defined.

(** ** The durable store *)

Definition durable (note : string) (version : Z) : PersistedToken :=
  {| pt_ID := "tok_1"; pt_Owner := "ops"; pt_Permissions := ["read"]; pt_Resources := ["site:a"];
     pt_Scopes := ["site:a"]; pt_Note := note; pt_PolicyEpoch := 1; pt_CreatedAt := start;
     pt_ExpiresAt := start + Hour; pt_NeverExpire := false; pt_Disabled := false; pt_Revoked := false;
     pt_LastActivityAt := start;
     pt_SecretDigest := "e3b0c44298fc1c149afbf4c8996fb92427ae41e4649b934ca495991b7852b855";
     pt_LeaseID := "lease-1"; pt_Version := version |}%string.

Definition token_event (n : Z) (typ : string) : Event :=
  {| ev_Sequence := n; ev_Type := typ; ev_At := start; ev_TokenID := "tok_1"; ev_Actor := "ops"; ev_Reason := "";
     ev_Notification := false |}%string.

Definition token_mutation (tenant key note : string) (n : Z) (delete : bool) : Mutation :=
  {| mu_TenantID := tenant; mu_Token := durable note n; mu_Event := token_event n EventAuthorized;
     mu_ExpectedVersion := n - 1; mu_LeaseID := "lease-1"; mu_IdempotencyKey := key; mu_DeleteToken := delete |}%string.

Definition create_mutation := token_mutation "acme" "op-1" "" 1 false.
Definition update_mutation := token_mutation "acme" "op-2" "renamed" 2 false.
Definition rival_mutation := token_mutation "acme" "op-3" "rival" 2 false.
Definition delete_mutation := token_mutation "acme" "op-4" "" 2 true.

Definition store_one : TokenStore := fst (Apply ApprovalPersistence.LiveContext create_mutation NewMemoryPersistence).

Lemma store_one_reachable : rtc store_step NewMemoryPersistence store_one.
Proof. apply rtc_once. by exists ApprovalPersistence.LiveContext, create_mutation. Qed.

Lemma tenants_isolated_witness :
  Load ApprovalPersistence.LiveContext "globex" "tok_1" store_one
  = Load ApprovalPersistence.LiveContext "globex" "tok_1" NewMemoryPersistence.
Proof.
  destruct (Apply ApprovalPersistence.LiveContext create_mutation NewMemoryPersistence) as [p' r] eqn:H.
  assert (E : store_one = p') by (unfold store_one; rewrite H; reflexivity). rewrite E.
  apply (tenants_isolated ApprovalPersistence.LiveContext create_mutation NewMemoryPersistence p' r "globex" H).
  - vm_compute. reflexivity.
  - discriminate.
Defined.

Lemma no_lost_update_witness :
  snd (Apply ApprovalPersistence.LiveContext update_mutation store_one) = None
  /\ snd (Apply ApprovalPersistence.LiveContext rival_mutation
            (fst (Apply ApprovalPersistence.LiveContext update_mutation store_one))) <> None.
Proof.
  assert (E : snd (Apply ApprovalPersistence.LiveContext update_mutation store_one) = None) by (vm_compute; reflexivity).
  split; [exact E|].
  set (p2 := fst (Apply ApprovalPersistence.LiveContext update_mutation store_one)).
  assert (Hn : match st_records p2 !! tenant_key "acme" "tok_1" with
               | Some r => Z.of_nat (length (mr_events r)) <? two64 | None => false end = true) by (vm_compute; reflexivity).
  destruct (st_records p2 !! tenant_key "acme" "tok_1") as [r2|] eqn:Hr; [|discriminate Hn].
  apply (no_lost_update store_one p2 ApprovalPersistence.LiveContext ApprovalPersistence.LiveContext
           update_mutation rival_mutation r2).
  - exact store_one_reachable.
  - vm_compute. reflexivity.
  - exact E.
  - apply rtc_refl.
  - reflexivity.
  - reflexivity.
  - reflexivity.
  - vm_compute. reflexivity.
  - exact Hr.
  - apply Z.ltb_lt. exact Hn.
Defined.

Lemma destroyed_token_final_witness :
  let p2 := fst (Apply ApprovalPersistence.LiveContext delete_mutation store_one) in
  Load ApprovalPersistence.LiveContext "acme" "tok_1" p2 = Err SErrTokenNotFound
  /\ TokenEvents ApprovalPersistence.LiveContext "acme" "tok_1" p2
     = Ok (events_of store_one delete_mutation ++ [mu_Event delete_mutation]).
Proof.
  intros p2.
  destruct (destroyed_token_final store_one p2 ApprovalPersistence.LiveContext delete_mutation) as (H1 & H2 & _).
  - exact store_one_reachable.
  - vm_compute. reflexivity.
  - reflexivity.
  - vm_compute. reflexivity.
  - apply rtc_refl.
  - exact (conj H1 H2).
Defined.
