(* ===== verification/NetLeaseExamples.v ===== *)
(** * Socket leases: a concrete run, and the theorems applied to it

    A manager with a policy of one database and a verifier of confirmations
    issues a lease; the lease is consumed, accounted for, and fenced by a new
    policy. *)

From S2P Require Import Prelude GoText NetTarget NetLease NetLeaseFacts.
From Stdlib Require Import Ascii.

Open Scope list_scope.
Open Scope Z_scope.

(** ** A call that nothing interrupts *)

(** [Issue] alone runs its critical sections one after the other. *)
Lemma Issue_prepared now ls cs raw r m m' l rd :
  in_i64 (ir_MaxBytes r) -> ls ≡ₚ map_to_list (lm_leases m) -> cs ≡ₚ map_to_list (lm_confirmations m) ->
  Issue now ls cs raw r m = (m', Ok l) ->
  exists mid, lm_policy (ls_manager mid) = lm_policy m /\ lm_requirePolicy (ls_manager mid) = lm_requirePolicy m
    /\ lease_run (LS m [] rd) [DoBegin now r; DoReadPolicy; DoPrepare] mid
    /\ lease_step mid (DoCommit now r (Ok l)) (LS m' [] rd).
Proof.
  unfold Issue. intros Hty Hls Hcs H. destruct (issue_begin now ls cs m) as [m1 [flags|e]] eqn:Hb; [|done].
  destruct (issue_prepare _ _ _ _ _ _) as [l'|e] eqn:Hp in H; [|done].
  destruct (issue_commit_res _ _ _ _ _ _ _ H) as [E|(? & ? & _)]; [injection E as ->|done].
  exists (LS m1 [Prepared flags r now l'] rd). unfold issue_begin in Hb.
  split_and!; [by destruct (_ || _) in Hb; injection Hb as <-|by destruct (_ || _) in Hb; injection Hb as <-| |].
  - eapply lrun_cons; [by eapply step_begin|]. cbn [begun].
    eapply lrun_cons; [apply (step_read _ [] [])|]. eapply lrun_cons; [eapply (step_prepare _ [] []); exact Hp|].
    constructor.
  - by apply (step_commit _ [] []).
Qed.

Lemma Issue_is_run now ls cs raw r m m' l rd :
  in_i64 (ir_MaxBytes r) -> ls ≡ₚ map_to_list (lm_leases m) -> cs ≡ₚ map_to_list (lm_confirmations m) ->
  Issue now ls cs raw r m = (m', Ok l) ->
  lease_run (LS m [] rd) ([DoBegin now r; DoReadPolicy; DoPrepare] ++ [DoCommit now r (Ok l)]) (LS m' [] rd).
Proof.
  intros Hty Hls Hcs H. destruct (Issue_prepared _ _ _ _ _ _ _ _ rd Hty Hls Hcs H) as (mid & _ & _ & Hrun & Hstep).
  apply (lease_run_snoc_app _ _ _ _ _ _ _ Hrun Hstep). constructor.
Qed.

(** ** The data *)

Definition noon : Time := 63800000000 * Second.

Definition db : Target := {| Host := "db.internal"; Port := 5432; Protocol := "tls" |}%string.
Definition db_policy (epoch : Z) : OfflinePolicy :=
  NewOfflinePolicyFromBindings [{| rb_ID := "orders"%string; rb_Target := db |}] epoch.

Definition db_options : ManagerOptions :=
  {| mo_Policy := db_policy 3; mo_RequirePolicy := true; mo_RequireConfirmation := true;
     mo_ConsumeConfirmation := true; mo_AllowTemporaryEgress := true;
     mo_ConfirmationVerifier := Some (fun c => if String.eqb (cr_OperatorID c) "root" then None
                                               else Some "unknown operator"%string) |}.

Definition fingerprint : string := ("sha256:" ++ of_bytes (repeat "a"%char 64))%string.

Definition db_request (cid : string) : IssueRequest :=
  {| ir_PluginID := "backup"; ir_PluginVersion := "1.0"; ir_Target := db; ir_TLSFingerprint := fingerprint;
     ir_PolicyEpoch := 3; ir_ConfirmationID := cid; ir_TTL := 5 * Minute; ir_TemporaryEgress := false;
     ir_ResourceID := "orders"; ir_OperatorID := "root"; ir_ConfirmationExpiresAt := noon + 3 * Minute;
     ir_MaxBytes := 1000; ir_MaxRequests := 0 |}%string.

Definition db_scope : RequestScope :=
  {| sc_PluginID := "backup"; sc_PluginVersion := "1.0"; sc_Target := db; sc_TLSFingerprint := fingerprint;
     sc_PolicyEpoch := 3; sc_ResourceID := "orders"; sc_OperatorID := "root"; sc_TemporaryEgress := false |}%string.

Definition db_lease : Lease := new_lease (EncodeHex (repeat 171 16)) (db_request "c-1") noon.
Definition lease_id : string := le_ID db_lease.

Definition fresh : Manager := NewManagerWithOptions db_options.
Definition issued : Manager := fst (Issue noon [] [] (Some (repeat 171 16)) (db_request "c-1") fresh).
Definition issue_ops : list LeaseOp :=
  [DoBegin noon (db_request "c-1"); DoReadPolicy; DoPrepare; DoCommit noon (db_request "c-1") (Ok db_lease)].

Lemma db_request_typed cid : in_i64 (ir_MaxBytes (db_request cid)).
Proof. split; vm_compute; discriminate. Qed.

Lemma issue_run : lease_run (initial db_options) issue_ops (LS issued [] 0).
Proof.
  apply (Issue_is_run noon [] [] (Some (repeat 171 16))); [apply db_request_typed|done|done|].
  vm_compute. reflexivity.
Qed.

Definition consumed : Manager := fst (Consume (noon + Minute) lease_id db_scope issued).
Definition consume_op : LeaseOp := DoConsume lease_id db_scope None.

Lemma consume_step rd : lease_step (LS issued [] rd) consume_op (LS consumed [] rd).
Proof. apply step_consume with (noon + Minute). vm_compute. reflexivity. Qed.

Lemma run_snoc s ops mid op s' : lease_run s ops mid -> lease_step mid op s' -> lease_run s (ops ++ [op]) s'.
Proof. intros H Hs. eapply lease_run_snoc_app; [exact H|exact Hs|constructor]. Qed.

(** ** The witnesses *)

Lemma leases_always_valid_witness :
  lm_leases issued !! lease_id = Some db_lease /\ lease_ok lease_id db_lease.
Proof.
  assert (E : lm_leases issued !! lease_id = Some db_lease) by (vm_compute; reflexivity).
  split; [exact E|]. exact (leases_always_valid db_options issue_ops (LS issued [] 0) issue_run _ _ E).
Defined.

Lemma consume_iff_witness :
  let '(m', e) := Consume (noon + Minute) lease_id db_scope issued in
  (e = None <-> exists l, usable issued lease_id db_scope (noon + Minute) l /\ le_Consumed l = false)
  /\ lm_leases m' = (if e is Some _ then lm_leases issued else alter spend lease_id (lm_leases issued)).
Proof. exact (consume_iff db_options issue_ops (LS issued [] 0) (noon + Minute) lease_id db_scope issue_run). Defined.

(** The same identifier, drawn again, would be a new lease. *)
Definition reissued : Manager :=
  fst (Issue (noon + Minute) (map_to_list (lm_leases consumed)) (map_to_list (lm_confirmations consumed))
         (Some (repeat 171 16)) (db_request "c-2") consumed).
Definition second_lease : Lease := new_lease lease_id (db_request "c-2") (noon + Minute).
Definition reissue_ops : list LeaseOp :=
  [DoBegin (noon + Minute) (db_request "c-2"); DoReadPolicy; DoPrepare;
   DoCommit (noon + Minute) (db_request "c-2") (Ok second_lease)].

Lemma consumed_run : lease_run (initial db_options) (issue_ops ++ [consume_op]) (LS consumed [] 0).
Proof. apply (run_snoc _ _ _ _ _ issue_run). apply consume_step. Qed.

Lemma reissue_run : lease_run (LS consumed [] 0) reissue_ops (LS reissued [] 0).
Proof.
  apply (Issue_is_run (noon + Minute) (map_to_list (lm_leases consumed)) (map_to_list (lm_confirmations consumed))
           (Some (repeat 171 16))); [apply db_request_typed|done|done|].
  vm_compute. reflexivity.
Qed.

Lemma reconsume_run :
  lease_run (initial db_options) (issue_ops ++ consume_op :: reissue_ops ++ consume_op :: [])
    (LS (fst (Consume (noon + Minute) lease_id db_scope reissued)) [] 0).
Proof.
  apply (lease_run_snoc_app _ _ _ _ _ _ _ issue_run (consume_step 0)).
  apply (run_snoc _ _ _ _ _ reissue_run). apply step_consume with (noon + Minute). vm_compute. reflexivity.
Qed.

Lemma lease_consumed_once_witness : Exists (fun op => issues op lease_id) reissue_ops.
Proof.
  apply (lease_consumed_once db_options issue_ops reissue_ops [] consume_op consume_op lease_id db_scope db_scope
           _ reconsume_run); left; reflexivity.
Defined.

Definition db_usage : Usage := {| us_BytesSent := 400; us_BytesReceived := 600; us_Result := "ok"%string |}.

Lemma final_accounting_iff_witness :
  snd (RecordTransferFinal (noon + Hour) lease_id db_scope db_usage consumed) = None.
Proof.
  assert (Hty : usage_typed db_usage) by (repeat split; vm_compute; discriminate).
  pose proof (final_accounting_iff db_options (issue_ops ++ [consume_op]) (LS consumed [] 0) (noon + Hour)
                lease_id db_scope db_usage consumed_run Hty) as H. cbn [ls_manager] in H.
  destruct (RecordTransferFinal (noon + Hour) lease_id db_scope db_usage consumed) as [m' e].
  destruct H as [H _]. apply H. vm_compute. repeat split; try discriminate.
  eexists. split; [reflexivity|]. repeat split; try reflexivity. right. discriminate.
Defined.

Lemma issued_lease_allowed_witness :
  registered (db_policy 3) (db_request "c-1") \/ exceptional (db_policy 3) (db_request "c-1").
Proof.
  destruct (Issue_prepared noon [] [] (Some (repeat 171 16)) (db_request "c-1") fresh issued db_lease 0)
    as (mid & Hp & Hr & Hrun & Hstep).
  - apply db_request_typed.
  - reflexivity.
  - reflexivity.
  - vm_compute. reflexivity.
  - destruct (issued_lease_allowed db_options _ mid noon (db_request "c-1") db_lease _ Hrun Hstep) as (_ & _ & Hpol & _).
    rewrite Hp in Hpol. destruct (Hpol Hr) as [_ [H|[_ H]]]; [left|right]; exact H.
Defined.

Definition update : LeaseOp := DoUpdatePolicy (db_policy 4) None.
Definition updated : Manager := fst (UpdatePolicy (db_policy 4) fresh).
Definition newer_request : IssueRequest :=
  {| ir_PluginID := "backup"; ir_PluginVersion := "1.0"; ir_Target := db; ir_TLSFingerprint := fingerprint;
     ir_PolicyEpoch := 4; ir_ConfirmationID := "c-3"; ir_TTL := 5 * Minute; ir_TemporaryEgress := false;
     ir_ResourceID := "orders"; ir_OperatorID := "root"; ir_ConfirmationExpiresAt := zero_time;
     ir_MaxBytes := 0; ir_MaxRequests := 1 |}%string.
Definition newer_lease : Lease := new_lease (EncodeHex (repeat 171 16)) newer_request noon.

Lemma updated_run :
  lease_run (initial db_options)
    ([] ++ update :: [DoBegin noon newer_request; DoReadPolicy; DoPrepare] ++ [DoCommit noon newer_request (Ok newer_lease)])
    (LS (fst (Issue noon [] [] (Some (repeat 171 16)) newer_request updated)) [] 0).
Proof.
  eapply lrun_cons.
  { apply (step_update fresh [] (db_policy 4) updated None). vm_compute. reflexivity. }
  apply (Issue_is_run noon [] [] (Some (repeat 171 16))); [split; vm_compute; discriminate|done|done|].
  vm_compute. reflexivity.
Qed.

Lemma policy_update_fences_witness : pol_epoch (db_policy 4) <= le_PolicyEpoch newer_lease.
Proof.
  exact (policy_update_fences db_options [] (db_policy 4) [DoBegin noon newer_request; DoReadPolicy; DoPrepare]
           (DoCommit noon newer_request (Ok newer_lease)) (le_PolicyEpoch newer_lease) _ updated_run eq_refl).
Defined.

(** The confirmation is forgotten after ten minutes. *)
Definition undated_request : IssueRequest :=
  {| ir_PluginID := "backup"; ir_PluginVersion := "1.0"; ir_Target := db; ir_TLSFingerprint := fingerprint;
     ir_PolicyEpoch := 3; ir_ConfirmationID := "c-1"; ir_TTL := 5 * Minute; ir_TemporaryEgress := false;
     ir_ResourceID := "orders"; ir_OperatorID := "root"; ir_ConfirmationExpiresAt := zero_time;
     ir_MaxBytes := 0; ir_MaxRequests := 1 |}%string.
Definition later : Time := noon + 11 * Minute.
Definition later_lease : Lease := new_lease (EncodeHex (repeat 205 16)) undated_request later.
Definition later_ops : list LeaseOp := [DoBegin later undated_request; DoReadPolicy; DoPrepare].

Lemma later_run :
  lease_run (initial db_options)
    (take 3 issue_ops ++ DoCommit noon (db_request "c-1") (Ok db_lease) :: later_ops
     ++ [DoCommit later undated_request (Ok later_lease)])
    (LS (fst (Issue later (map_to_list (lm_leases issued)) (map_to_list (lm_confirmations issued))
                (Some (repeat 205 16)) undated_request issued)) [] 0).
Proof.
  destruct (Issue_prepared noon [] [] (Some (repeat 171 16)) (db_request "c-1") fresh issued db_lease 0)
    as (mid & _ & _ & Hrun & Hstep).
  - apply db_request_typed.
  - reflexivity.
  - reflexivity.
  - vm_compute. reflexivity.
  - apply (lease_run_snoc_app _ _ _ _ _ _ _ Hrun Hstep).
    apply (Issue_is_run later (map_to_list (lm_leases issued)) (map_to_list (lm_confirmations issued))
             (Some (repeat 205 16))); [split; vm_compute; discriminate|done|done|].
    vm_compute. reflexivity.
Qed.

Lemma confirmation_spent_once_witness : Exists (begins_at (noon + MaxLeaseTTL)) later_ops.
Proof.
  exact (confirmation_spent_once db_options (take 3 issue_ops) noon (db_request "c-1") db_lease later_ops later
           undated_request later_lease _ later_run eq_refl eq_refl eq_refl eq_refl).
Defined.
