(* ===== verification/ControlExamples.v ===== *)
(** * Runs of the control plane

    A small cluster: the witnesses of the control-plane theorems, and the runs
    that show what happens when a proposal is abandoned. *)

From S2P Require Import Prelude GoText Sha256 ControlState ControlFacts ControlSafety Coordinator CoordinatorSafety.

Open Scope string_scope.
Open Scope list_scope.
Open Scope Z_scope.

(** ** A machine under its first leader *)

Definition node_a : string := "node-a".
Definition node_b : string := "node-b".

Definition made (r : result error StateMachine) : StateMachine :=
  match r with
  | Ok m => m
  | Err _ => {| m_state := zero_state; m_committed := zero_state; m_fences := ∅; m_committedFences := ∅;
                m_nonces := ∅; m_proposals := ∅ |}
  end.

Definition fresh : StateMachine := made (NewStateMachine "cluster" 1000).

Definition sample (revision : Z) (nonce : string) : Proposal :=
  {| p_LeaderID := node_a; p_ExpectedEpoch := 1; p_ExpectedRevision := revision; p_Version := "v1";
     p_Payload := "{}"; p_Digest := ""; p_Nonce := nonce |}.

Definition led : StateMachine := run fresh [(2000, OpLead 1 node_a)].

Definition some_commit (r : result error Commit) : Commit :=
  match r with
  | Ok c => c
  | Err _ => {| c_State := zero_state;
                c_Fence := {| f_ClusterID := ""; f_LeaderID := ""; f_Epoch := 0; f_Revision := 0;
                              f_Digest := ""; f_Nonce := "" |} |}
  end.

(** The commit of the first proposal, made at the given instant. *)
Definition first_commit (now : Time) : Commit := some_commit (snd (Propose led now (sample 0 "n1"))).

(** Propose, install, freeze, resume, change the leader. *)
Definition history : list (Time * Op) :=
  [(2000, OpLead 1 node_a); (3000, OpPropose (sample 0 "n1")); (3500, OpInstall (first_commit 3000))].

Definition takeover : list (Time * Op) :=
  [(4000, OpFreeze "maintenance"); (4500, OpResume (c_Fence (first_commit 3000))); (5000, OpLead 2 node_b)].

Lemma fresh_made : NewStateMachine "cluster" 1000 = Ok fresh.
Proof. vm_compute. reflexivity. Qed.

Lemma fresh_coherent : coherent fresh.
Proof. exact (new_coherent _ _ _ fresh_made). Qed.

Lemma first_commit_typed now : typed_state (c_State (first_commit now)).
Proof.
  split; [split; vm_compute; congruence|split; vm_compute; congruence|split; vm_compute; congruence|].
  assert (E : map_to_list (s_NonceLedger (c_State (first_commit now))) = [("n1", 1)]) by (vm_compute; reflexivity).
  rewrite E. repeat constructor. simpl. lia.
Qed.

Lemma history_typed : Forall (fun e => typed_op (snd e)) (history ++ takeover).
Proof.
  apply Forall_app. split.
  - apply Forall_cons_2; [split; [lia|reflexivity]|]. apply Forall_cons_2; [exact I|].
    apply Forall_cons_2; [exact (first_commit_typed 3000)|apply Forall_nil_2].
  - apply Forall_cons_2; [exact I|]. apply Forall_cons_2; [exact I|].
    apply Forall_cons_2; [split; [lia|reflexivity]|apply Forall_nil_2].
Qed.

Lemma history_disciplined : disciplined_run fresh (history ++ takeover) = true.
Proof. vm_compute. reflexivity. Qed.

Lemma led_coherent : coherent led.
Proof.
  apply (coherent_run [(2000, OpLead 1 node_a)] fresh); [apply fresh_coherent| |vm_compute; reflexivity].
  apply Forall_cons; split; [split; vm_compute; congruence|apply Forall_nil_2].
Qed.

(** ** Witnesses *)


Lemma takeover_typed : Forall (fun e => typed_op (snd e)) takeover.
Proof. exact (proj2 (proj1 (Forall_app _ _ _) history_typed)). Qed.

Lemma history_aligned : aligned (run fresh history).
Proof. exact (aligned_run history fresh (ch_aligned _ fresh_coherent) (proj1 (proj1 (Forall_app _ _ _) history_typed))). Qed.

Lemma former_epochs_fenced_witness :
  ValidateFence (run fresh history) (c_Fence (first_commit 3000)) = None
  /\ ValidateFence (run (run fresh history) takeover) (c_Fence (first_commit 3000)) = Some (Fails ErrStaleFence).
Proof.
  split; [vm_compute; reflexivity|].
  assert (H1 : s_Term (Snapshot (run (run fresh history) takeover)) <> s_Term (Snapshot (run fresh history)))
    by (vm_compute; congruence).
  assert (H2 : f_Epoch (c_Fence (first_commit 3000)) <= s_Epoch (Snapshot (run fresh history)))
    by (vm_compute; congruence).
  exact (proj1 (former_epochs_fenced (run fresh history) takeover (c_Fence (first_commit 3000)) (first_commit 3000)
                  history_aligned takeover_typed (or_introl H1) H2 H2)).
Defined.


Lemma one_nonce_per_revision_witness :
  exists n, s_NonceLedger (Snapshot (run fresh (history ++ takeover))) !! n = Some 1.
Proof.
  destruct (one_nonce_per_revision "cluster" 1000 fresh (history ++ takeover) fresh_made history_typed history_disciplined)
    as [H _].
  apply (proj1 (H 1)). split; [reflexivity|vm_compute; congruence].
Defined.

Lemma proposal_commits_witness :
  exists m2, InstallCommit (fst (Propose led 3000 (sample 0 "n1"))) (first_commit 3000) = (m2, None)
             /\ ValidateFence m2 (c_Fence (first_commit 3000)) = None.
Proof.
  assert (Hmax : s_Revision (m_state led) + 1 < two64 - 1) by (vm_compute; reflexivity).
  assert (Hp : Propose led 3000 (sample 0 "n1") = (fst (Propose led 3000 (sample 0 "n1")), Ok (first_commit 3000)))
    by (vm_compute; reflexivity).
  destruct (proposal_commits led 3000 (sample 0 "n1") _ _ led_coherent Hmax Hp) as (_ & _ & m2 & H1 & _ & _ & H2 & _).
  exists m2. split; [exact H1|exact H2].
Defined.

Lemma thaw_needs_authority_witness :
  s_WriteFrozen (Snapshot fresh) = true /\ exists e, Propose fresh 5 (sample 0 "n1") = (fresh, Err e).
Proof.
  assert (Hf : s_WriteFrozen (Snapshot fresh) = true) by (vm_compute; reflexivity).
  split; [exact Hf|].
  exact (proj1 (thaw_needs_authority fresh 0 (OpFreeze "maintenance") (ch_aligned _ fresh_coherent) Hf)
           (sample 0 "n1") 5).
Defined.

(** ** Stores that remember what they accepted *)

Fixpoint last_proposed (h : list Event) : option State :=
  match h with
  | [] => None
  | EvPropose c None :: _ => Some (c_State c)
  | _ :: h => last_proposed h
  end.

Fixpoint last_appended (h : list Event) : option State :=
  match h with
  | [] => None
  | EvAppend c None :: _ => Some (c_State c)
  | _ :: h => last_appended h
  end.

Definition proposals_so_far (h : list Event) : nat :=
  length (List.filter (fun e => match e with EvPropose _ _ => true | _ => false end) h).

Definition held (s : option State) : result error State :=
  match s with Some s => Ok s | None => Err (Fails ErrStateNotFound) end.

(** Consensus refuses the proposals numbered in [down] and revisions that do
    not follow the last one. *)
Definition sim (down : list nat) : Env :=
  {| e_ctx := fun _ => None;
     e_now := fun h => 10000 + Z.of_nat (length h);
     e_ops := fun _ => [];
     e_propose := fun h c =>
       if existsb (Nat.eqb (proposals_so_far h)) down then Some (Foreign "timeout")
       else match last_proposed h with
            | Some s => if s_Revision (c_State c) =? s_Revision s + 1 then None else Some (Fails ErrStaleRevision)
            | None => None
            end;
     e_current := fun h _ => held (last_proposed h);
     e_append := fun _ _ => None;
     e_load := fun h _ => held (last_appended h);
     e_checkpoint := None |}.

Definition answer {A} (x : A * World) : A := fst x.

Definition after (env : Env) (calls : list Call) : World := performed env led calls.

Definition commit_of (x : (option Commit * option error) * World) : Commit :=
  match fst (fst x) with Some c => c | None => some_commit (Err (Fails ErrInvalidCommit)) end.

(** One proposal in a healthy simulation, its commit and the history. *)
Definition once : World := after (sim []) [CallPropose (sample 0 "n1")].

Definition done_commit : Commit := commit_of (ProposeAndApply (sim []) (sample 0 "n1") (after (sim []) [])).

Lemma consensus_before_durable_witness :
  exists c', EvPropose c' None ∈ drop 3 (w_hist once) /\ commitsEquivalent c' done_commit = true.
Proof.
  assert (H : w_hist (performed (sim []) led [CallPropose (sample 0 "n1")])
              = take 2 (w_hist once) ++ EvAppend done_commit None :: drop 3 (w_hist once))
    by (vm_compute; reflexivity).
  exact (consensus_before_durable (sim []) led [CallPropose (sample 0 "n1")] _ _ _ _ H).
Defined.

Lemma nil_means_persisted_witness :
  persisted (w_hist (snd (Apply (sim []) done_commit once))) done_commit.
Proof.
  assert (H : Apply (sim []) done_commit once = (None, snd (Apply (sim []) done_commit once)))
    by (vm_compute; reflexivity).
  exact (proj1 (nil_means_persisted (sim []) led [CallPropose (sample 0 "n1")]) done_commit _ H).
Defined.

(** Consensus is down for the second proposal. *)
Definition refusal : (option Commit * option error) * World := ProposeAndApply (sim [1%nat]) (sample 1 "n2")
  (after (sim [1%nat]) [CallPropose (sample 0 "n1")]).

Lemma persistence_failure_freezes_witness : frozen (snd refusal).
Proof.
  assert (H : ProposeAndApply (sim [1%nat]) (sample 1 "n2") (after (sim [1%nat]) [CallPropose (sample 0 "n1")])
              = ((fst (fst refusal), Some (Persistence "consensus" (Foreign "timeout"))), snd refusal))
    by (vm_compute; reflexivity).
  exact (proj1 (proj2 (persistence_failure_freezes (sim [1%nat]) _ "consensus" (Foreign "timeout"))) _ _ _ H).
Defined.

(** Stores that accept everything and a baseline at revision zero. *)
Definition accepting : Env :=
  {| e_ctx := fun _ => None; e_now := fun _ => 10000; e_ops := fun _ => []; e_propose := fun _ _ => None;
     e_current := fun _ _ => Err (Fails ErrStateNotFound); e_append := fun _ _ => None;
     e_load := fun _ _ => Err (Fails ErrStateNotFound); e_checkpoint := None |}.

Lemma healthy_proposal_commits_witness :
  exists c w', ProposeAndApply accepting (sample 0 "n1") (world led ∅ ∅ ∅ []) = ((Some c, None), w')
               /\ s_Revision (Snapshot (machine_of w')) = 1.
Proof.
  assert (Hmax : s_Revision (m_state led) + 1 < two64 - 1) by (vm_compute; reflexivity).
  assert (Hf : propose_fields (sample 0 "n1") = None) by (vm_compute; reflexivity).
  assert (Hc : propose_cas led (sample 0 "n1") = None) by (vm_compute; reflexivity).
  assert (Hh : healthy accepting (s_Epoch (m_state led)) (s_Revision (m_state led) + 1)) by (split; reflexivity).
  assert (Hn : no_nonce ∅ (p_Nonce (sample 0 "n1"))).
  { intros k c H. rewrite lookup_empty in H. discriminate H. }
  destruct (healthy_proposal_commits accepting led ∅ ∅ ∅ [] (sample 0 "n1") led_coherent Hmax Hf Hc Hh Hn Hn Hn)
    as (c & w' & H1 & _ & H2 & _).
  exists c, w'. split; [exact H1|exact H2].
Defined.

(** ** Abandoned proposals *)

(** A leadership change makes the tentative state of a machine that is not
    frozen its committed state, although no commit was installed. *)
Example tentative_promoted :
  let m := run led [(3000, OpPropose (sample 0 "n1")); (4000, OpLead 2 node_b)] in
  s_Revision (Snapshot (run led [(3000, OpPropose (sample 0 "n1"))])) = 0
  /\ s_Revision (Snapshot m) = 1 /\ d_Payload (s_Desired (Snapshot m)) = "{}".
Proof. vm_compute. split_and!; reflexivity. Qed.

(** After the refused proposal the token of revision 1 still resumes the
    writes: the proposal was not retried, the machine is no longer frozen, and
    the revision that it reports is not the baseline that it expects. *)
Definition token1 : FenceToken := c_Fence done_commit.
Definition resumed := Coordinator_ResumeWrites (sim [1%nat]) token1 (snd refusal).

Example resumed_before_retry :
  fst resumed = None /\ s_WriteFrozen (Snapshot (machine_of (snd resumed))) = false
  /\ s_Revision (Snapshot (machine_of (snd resumed))) = 1
  /\ snd (fst (ProposeAndApply (sim [1%nat]) (sample 1 "n3") (snd resumed))) = Some (Fails ErrStaleRevision).
Proof. vm_compute. split_and!; reflexivity. Qed.

(** A proposal on top of the abandoned one is refused by consensus; once the
    abandoned one is retried, its nonce keeps the ledger longer than the
    revision, and the machine refuses every commit that it proposes. *)
Definition overtaken := ProposeAndApply (sim [1%nat]) (sample 2 "n3") (snd resumed).
Definition retried := Apply (sim [1%nat]) (commit_of refusal) (snd overtaken).
Definition resumed_again := Coordinator_ResumeWrites (sim [1%nat]) (c_Fence (commit_of refusal)) (snd retried).

Example stray_nonce_blocks_commits :
  fst retried = None /\ fst resumed_again = None
  /\ s_WriteFrozen (Snapshot (machine_of (snd resumed_again))) = false
  /\ snd (fst (ProposeAndApply (sim [1%nat]) (sample 2 "n4") (snd resumed_again))) = Some (Fails ErrInvalidCommit).
Proof. vm_compute. split_and!; reflexivity. Qed.
