(* ===== verification/StartupExamples.v ===== *)
(** * Runs of the replicated log, of the durable store and of starts

    Two nodes apply the same log, with their own clocks and local freezes; a
    database takes the commits of the first two leaders; nodes start on healthy
    and on failing stores. *)

From S2P Require Import Prelude GoText Sha256 ControlState JsonValid ControlFacts ControlSafety Coordinator CoordinatorSafety Startup StartupSafety StartupHealth RaftFsm.
From S2P Require Import RaftFsmSafety PgStore ControlExamples.

Open Scope string_scope.
Open Scope list_scope.
Open Scope Z_scope.

(** ** Two nodes *)

Definition second_state : State :=
  let s := c_State (first_commit 3000) in
  set_ledger (set_desired (set_updated (set_leader s 2 node_b 2) 6000) 2 (s_Desired s))
    (<["n2" := 2]> (s_NonceLedger s)).

Definition second_commit : Commit :=
  {| c_State := second_state;
     c_Fence := {| f_ClusterID := "cluster"; f_LeaderID := node_b; f_Epoch := 2; f_Revision := 2;
                   f_Digest := d_Digest (s_Desired second_state); f_Nonce := "n2" |} |}.

Definition log : list Command :=
  [CmdLeadership 1 node_a 2000; CmdCommit (first_commit 3000); CmdUnknown "probe"; CmdLeadership 2 node_b 5000].

(** The first node proposes what it commits; the second freezes on its own. *)
Definition on_first : list (Time * NodeOp) :=
  [(2001, NodeLog (CmdLeadership 1 node_a 2000)); (3000, NodePropose (sample 0 "n1"));
   (3500, NodeLog (CmdCommit (first_commit 3000))); (3600, NodeLog (CmdUnknown "probe"));
   (5100, NodeLog (CmdLeadership 2 node_b 5000))].

Definition on_second : list (Time * NodeOp) :=
  [(9001, NodeLog (CmdLeadership 1 node_a 2000)); (9002, NodeFreeze "operator");
   (9003, NodeLog (CmdCommit (first_commit 3000))); (9004, NodeLog (CmdUnknown "probe"));
   (9005, NodeFreeze "operator"); (9006, NodeLog (CmdLeadership 2 node_b 5000))].

Definition node0 : Runtime := NewRuntime fresh.

Lemma node0_ok : node_ok node0.
Proof. exact (new_node_ok _ _ _ fresh_made). Qed.

Lemma on_first_typed : Forall (fun e => typed_node_op (snd e)) on_first.
Proof.
  apply Forall_cons_2; [split; [split|]; simpl; unfold two64; lia|]. apply Forall_cons_2; [exact I|].
  apply Forall_cons_2; [exact (first_commit_typed 3000)|]. apply Forall_cons_2; [exact I|].
  apply Forall_cons_2; [split; [split|]; simpl; unfold two64; lia|apply Forall_nil_2].
Qed.

Lemma on_second_typed : Forall (fun e => typed_node_op (snd e)) on_second.
Proof.
  apply Forall_cons_2; [split; [split|]; simpl; unfold two64; lia|]. apply Forall_cons_2; [exact I|].
  apply Forall_cons_2; [exact (first_commit_typed 3000)|]. apply Forall_cons_2; [exact I|].
  apply Forall_cons_2; [exact I|].
  apply Forall_cons_2; [split; [split|]; simpl; unfold two64; lia|apply Forall_nil_2].
Qed.

Lemma on_first_disciplined : node_run_disciplined node0 on_first = true.
Proof. vm_compute. reflexivity. Qed.

Lemma on_second_disciplined : node_run_disciplined node0 on_second = true.
Proof. vm_compute. reflexivity. Qed.


Lemma replicas_agree_witness :
  s_UpdatedAt (Snapshot (r_machine (fst (node_run node0 on_first))))
    <> s_UpdatedAt (Snapshot (r_machine (fst (node_run node0 on_second))))
  /\ r_consensus (fst (node_run node0 on_first)) = r_consensus (fst (node_run node0 on_second)).
Proof.
  split; [vm_compute; congruence|].
  exact (proj1 (replicas_agree node0 node0 on_first on_second node0_ok node0_ok eq_refl eq_refl
           on_first_typed on_second_typed on_first_disciplined on_second_disciplined)).
Defined.

Lemma log_bound : Forall bound_command (log_of on_first).
Proof.
  apply Forall_cons_2; [exact I|]. apply Forall_cons_2; [vm_compute; reflexivity|].
  apply Forall_cons_2; [exact I|]. apply Forall_cons_2; [exact I|apply Forall_nil_2].
Qed.

Lemma restore_round_trip_witness :
  r_last (fst (node_run node0 on_first)) <> None
  /\ let r := fst (node_run (NewRuntime fresh) on_first) in
     let '(r', e) := fsm_Restore (NewRuntime fresh) 8000 8001 (fsm_Snapshot r) in
     e = None /\ view_of r' = view_of r /\ node_ok r'
     /\ s_WriteFrozen (Snapshot (r_machine r')) = true /\ s_FreezeReason (Snapshot (r_machine r')) = leadership_lost.
Proof.
  split; [vm_compute; congruence|].
  exact (restore_round_trip "cluster" 1000 1000 fresh fresh on_first 8000 8001 fresh_made fresh_made
           on_first_typed on_first_disciplined log_bound).
Defined.

(** ** A database *)

Definition micros (t : Time) : Time := t / 1000 * 1000.

Definition no_commit : Commit := some_commit (Err (Fails ErrInvalidCommit)).

(** A lost acknowledgement, a retry, a stale commit, the next leader. *)
Definition db_log : list Write :=
  [WriteCommit RolledBack (first_commit 3000); WriteCommit AckLost (first_commit 3000);
   WriteCommit Works (first_commit 3000); WriteCommit Works no_commit; WriteCommit Works second_commit].

Lemma second_commit_typed : typed_commit second_commit.
Proof.
  split; [split; vm_compute; congruence|]. split; [split; vm_compute; congruence|].
  split; [split; vm_compute; congruence|split; vm_compute; congruence|split; vm_compute; congruence|].
  assert (E : map_to_list (s_NonceLedger (c_State second_commit)) = [("n1", 1); ("n2", 2)]
              \/ map_to_list (s_NonceLedger (c_State second_commit)) = [("n2", 2); ("n1", 1)]) by (vm_compute; tauto).
  destruct E as [E|E]; rewrite E; repeat constructor; simpl; lia.
Qed.

Lemma first_typed : typed_commit (first_commit 3000).
Proof.
  split; [split; vm_compute; congruence|]. split; [split; vm_compute; congruence|]. exact (first_commit_typed 3000).
Qed.

Lemma no_commit_typed : typed_commit no_commit.
Proof.
  split; [split; vm_compute; congruence|]. split; [split; vm_compute; congruence|].
  split; [split; vm_compute; congruence|split; vm_compute; congruence|split; vm_compute; congruence|].
  assert (E : map_to_list (s_NonceLedger (c_State no_commit)) = []) by (vm_compute; reflexivity).
  rewrite E. constructor.
Qed.

Lemma db_log_typed : Forall typed_write db_log.
Proof.
  exact (Forall_cons_2 typed_write (WriteCommit RolledBack (first_commit 3000)) _ first_typed
         (Forall_cons_2 typed_write (WriteCommit AckLost (first_commit 3000)) _ first_typed
         (Forall_cons_2 typed_write (WriteCommit Works (first_commit 3000)) _ first_typed
         (Forall_cons_2 typed_write (WriteCommit Works no_commit) _ no_commit_typed
         (Forall_cons_2 typed_write (WriteCommit Works second_commit) _ second_commit_typed
         (Forall_nil_2 typed_write)))))).
Qed.

Definition final_row : StateRow := row_of second_state.

Lemma final_state : db_states (writes micros empty_db db_log) !! "cluster" = Some final_row.
Proof. vm_compute. reflexivity. Qed.

Lemma durable_history_contiguous_witness :
  exists k c, db_commits (writes micros empty_db db_log) !! k = Some c /\ f_ClusterID (c_Fence c) = "cluster" /\ f_Revision (c_Fence c) = 2.
Proof.
  assert (H : 1 <= 2 <= sr_revision final_row) by (split; vm_compute; congruence).
  pose proof (durable_history_contiguous micros db_log "cluster" final_row db_log_typed) as Hd. cbv zeta in Hd.
  exact (proj1 (proj1 (Hd final_state) 2) H).
Defined.

Definition first_db : Database := writes micros empty_db [WriteCommit AckLost (first_commit 3000)].

Lemma first_acknowledged : AppendCommit micros (writes micros empty_db [WriteCommit AckLost (first_commit 3000)]) Works (first_commit 3000)
    = (first_db, None).
Proof. vm_compute. reflexivity. Qed.

Lemma acknowledged_commit_final_witness :
  let db2 := writes micros first_db [WriteCommit Works second_commit] in
  db_states db2 !! "cluster" = Some final_row
  /\ AppendCommit micros db2 Works (first_commit 3000) = (db2, None).
Proof.
  assert (H1 : Forall typed_write [WriteCommit AckLost (first_commit 3000)]) by exact (Forall_cons_2 typed_write (WriteCommit AckLost (first_commit 3000)) [] first_typed (Forall_nil_2 _)).
  assert (H2 : Forall typed_write [WriteCommit Works second_commit]) by exact (Forall_cons_2 typed_write (WriteCommit Works second_commit) [] second_commit_typed (Forall_nil_2 _)).
  split; [vm_compute; reflexivity|].
  pose proof (acknowledged_commit_final micros [WriteCommit AckLost (first_commit 3000)] Works (first_commit 3000) first_db
           [WriteCommit Works second_commit] H1 first_typed first_acknowledged H2) as Hd.
  exact (proj1 Hd).
Defined.

(** ** Starts

    An import of the first state of a cluster, a restart, and a start whose
    durable store is unhealthy. *)

Definition served_state : State := c_State (first_commit 3000).
Definition served_fence : FenceToken := c_Fence (first_commit 3000).

Definition text (e : error) : string := match e with Foreign t => t | _ => "error" end.

Definition no_error : list Event -> option error := fun _ => None.

Definition durable (health : option error) : DurableBootstrap :=
  {| db_backend := "postgresql"; db_prepare := no_error; db_health := fun _ => health |}.

Definition consensus : ConsensusBootstrap :=
  {| cb_backend := "native-raft"; cb_prepare := no_error; cb_health := no_error; cb_commit := None |}.

(** The fencer reads the nonce of the only revision. *)
Definition fencer (h : list Event) (s : State) : result error FenceToken :=
  Ok {| f_ClusterID := s_ClusterID s; f_LeaderID := s_LeaderID s; f_Epoch := s_Epoch s; f_Revision := s_Revision s;
        f_Digest := d_Digest (s_Desired s); f_Nonce := "n1" |}.

Definition options (health : option error) (request : option InitialStateRequest) : StartupOptions :=
  {| so_Profile := " Production"; so_ClusterID := "cluster"; so_Durable := Present (durable health);
     so_Consensus := Present consensus; so_Fencer := Present fencer; so_InitialState := request;
     so_InitialAuthorizer := match request with Some _ => Present (fun _ _ => None) | None => Absent end;
     so_LeadershipCheckpoint := Absent |}.

(** ** A restart *)

Definition restart_env : Env :=
  {| e_ctx := fun _ => None; e_now := fun h => 9000 + Z.of_nat (length h); e_ops := fun _ => [];
     e_propose := fun _ _ => None; e_current := fun _ _ => Ok (set_updated served_state 3999);
     e_append := fun _ _ => None; e_load := fun _ _ => Ok served_state; e_checkpoint := None |}.

Lemma served_servable : servable "cluster" served_state.
Proof.
  split; [vm_compute; reflexivity|vm_compute; reflexivity|exact (first_commit_typed 3000)|vm_compute; congruence
         |vm_compute; congruence|vm_compute; reflexivity].
Qed.

Lemma served_revision : s_Revision served_state = 1.
Proof. vm_compute. reflexivity. Qed.

Lemma restart_loads : loads_typed restart_env.
Proof.
  intros h id s E. apply (f_equal (fun r => match r with Ok x => s_Revision x | Err _ => 0 end)) in E.
  change (s_Revision served_state = s_Revision s) in E. rewrite <- E, served_revision. clear E. unfold is_u64, two64. lia.
Qed.

Lemma served_binds : validateStartupFence served_state served_fence = None.
Proof. vm_compute. reflexivity. Qed.

Lemma restart_healthy :
  healthy_start restart_env (options None None) (durable None) consensus served_state 3999 served_fence.
Proof.
  refine (Build_healthy_start restart_env (options None None) (durable None) consensus served_state 3999 served_fence
    (fun _ => eq_refl) (fun _ => eq_refl) (fun _ => conj eq_refl (conj eq_refl (conj eq_refl eq_refl)))
    (fun _ => eq_refl) (fun _ => eq_refl) _ served_servable served_binds).
  vm_compute. reflexivity.
Qed.

Lemma restart_contract st : s_ClusterID st = "cluster" -> ValidateStartupOptions (options None None) st = None.
Proof.
  intros E. unfold ValidateStartupOptions. rewrite E. clear E. vm_compute. reflexivity.
Qed.

Lemma fencer_fence h : fencer h served_state = Ok served_fence.
Proof. vm_compute. reflexivity. Qed.

Lemma healthy_restart_is_ready_witness :
  exists r w', Bootstrap restart_env text (options None None) (start_of fresh) = ((r, None), w') /\ sr_Ready r = true
    /\ sr_Fence r = Some served_fence
    /\ (exists t', Snapshot (c_machine (w_c w')) = set_updated (set_freeze served_state false "") t')
    /\ ValidateFence (c_machine (w_c w')) served_fence = None.
Proof.
  exact (healthy_restart_is_ready restart_env text (options None None) (durable None) consensus fencer served_state 3999
           served_fence 1000 fresh restart_healthy fencer_fence fresh_made restart_contract eq_refl eq_refl eq_refl).
Defined.

(** ** An import *)

Definition request : InitialStateRequest :=
  {| ir_Version := "v1"; ir_Payload := "{}"; ir_Digest := ""; ir_Nonce := "n1"; ir_ID := "confirmation-7";
     ir_Actor := "admin"; ir_Reason := "first state" |}.

Definition leader_only : State := set_updated (set_freeze (set_leader (emptyStartupState "cluster") 4 node_a 3) false "") 5000.

Definition proposed_state_of (h : list Event) : State :=
  match List.find (fun e => match e with EvPropose _ None => true | _ => false end) h with
  | Some (EvPropose c _) => c_State c
  | _ => leader_only
  end.

Definition import_env : Env :=
  {| e_ctx := fun _ => None; e_now := fun h => 9000 + Z.of_nat (length h); e_ops := fun _ => [];
     e_propose := fun _ _ => None; e_current := fun h _ => Ok (proposed_state_of h);
     e_append := fun _ _ => None; e_load := fun _ _ => Err (Fails ErrStateNotFound); e_checkpoint := None |}.

Definition imported : (StartupResult * option error) * World :=
  Bootstrap import_env text (options None (Some request)) (start_of fresh).

Lemma import_loads : loads_typed import_env.
Proof. intros h id s. done. Qed.

Lemma imported_ready : Bootstrap import_env text (options None (Some request)) (start_of fresh)
                       = ((fst (fst imported), None), snd imported).
Proof. vm_compute. reflexivity. Qed.


(** The append of the import, and the calls before it. *)
Definition is_append_event (e : Event) : bool := match e with EvAppend _ _ => true | _ => false end.

Fixpoint before (f : Event -> bool) (h : list Event) : list Event :=
  match h with [] => [] | e :: h => if f e then h else before f h end.

Fixpoint after (f : Event -> bool) (h : list Event) : list Event :=
  match h with [] => [] | e :: h => if f e then [] else e :: after f h end.

Definition import_history : list Event := w_hist (snd imported).

Definition import_commit : Commit :=
  match List.find is_append_event import_history with Some (EvAppend c _) => c | _ => first_commit 0 end.

Lemma initial_state_needs_approval_witness :
  s_Revision (c_State import_commit) = 1
  /\ approved (options None (Some request)) import_commit (before is_append_event import_history).
Proof.
  assert (H1 : s_Revision (c_State import_commit) = 1) by (vm_compute; reflexivity).
  assert (H2 : w_hist (snd (Bootstrap import_env text (options None (Some request)) (start_of fresh)))
               = after is_append_event import_history ++ EvAppend import_commit None :: before is_append_event import_history)
    by (vm_compute; reflexivity).
  split; [exact H1|].
  exact (proj2 (proj2 (initial_state_needs_approval import_env text (options None (Some request)) fresh
    (after is_append_event import_history) (before is_append_event import_history) import_loads) _ _ H2) H1).
Defined.

(** ** An unhealthy store *)

Definition ailing : StartupOptions := options (Some (Foreign "connection refused")) None.

Definition failed_start : (StartupResult * option error) * World := Bootstrap restart_env text ailing (start_of led).

Lemma failed_start_freezes_witness :
  sr_Stage (fst (fst failed_start)) = StageDurable /\ s_WriteFrozen (Snapshot led) = false
  /\ s_FreezeReason (sr_State (fst (fst failed_start))) = "durable health check failed: connection refused"
  /\ frozen (snd failed_start).
Proof.
  assert (H : Bootstrap restart_env text ailing (start_of led)
              = ((fst (fst failed_start), Some (Wraps ErrStartupDurable (Foreign "connection refused"))), snd failed_start))
    by (vm_compute; reflexivity).
  assert (Hp : EqualFold (TrimSpace (so_Profile ailing)) "production" = true) by (vm_compute; reflexivity).
  assert (Hq : alone restart_env) by (intros h; reflexivity).
  split; [vm_compute; reflexivity|]. split; [vm_compute; reflexivity|]. split; [vm_compute; reflexivity|].
  exact (proj1 (proj2 (proj2 (failed_start_freezes restart_env text ailing (start_of led) _ _ _ H) Hp) Hq)).
Defined.
