(* ===== verification/Cwedp.v ===== *)
(** * The distribution protocol (internal/cwedp/protocol.go)

    Source provenance, intents, handshakes, the choice of a source, the
    quarantine list and the integrity check of a finished artifact. The
    package performs no I/O, so every operation is a function. *)

From S2P Require Import Prelude GoText Sha256.

Open Scope string_scope.
Open Scope list_scope.
Open Scope Z_scope.
Open Scope go_scope.

Definition ProtocolVersion : string := "cwedp/v1".
Definition DefaultMaxChunkBytes : Z := Z.shiftl 8 20.
Definition DefaultMaxArtifactBytes : Z := Z.shiftl 1 30.
Definition DefaultMaxSourceSwitches : Z := 3.

(** ** Data *)

Definition SourceKind : Type := string.
Definition SourceOTA : SourceKind := "ota".
Definition SourceSeed : SourceKind := "seed".
Definition SourcePeer : SourceKind := "peer".
Definition SourceOffline : SourceKind := "offline-crp".

Record Digests := { MD5 : string; SHA1 : string; SHA256 : string }.

Record Source := {
  src_Kind : SourceKind; src_ID : string; src_TrustRoot : string;
  src_Organization : string; src_CertificateFingerprint : string }.

#[global] Instance Digests_eq_dec : EqDecision Digests.
Proof. solve_decision. Defined.

#[global] Instance Source_eq_dec : EqDecision Source.
Proof. solve_decision. Defined.

Definition QuarantineReason : Type := string.
Definition QuarantineIntegrity : QuarantineReason := "integrity-mismatch".
Definition QuarantineTransport : QuarantineReason := "transport-failure".
Definition QuarantinePolicy : QuarantineReason := "policy-failure".

Record SourceQuarantine := { q_Source : Source; q_Reason : QuarantineReason }.

#[global] Instance SourceQuarantine_eq_dec : EqDecision SourceQuarantine.
Proof. solve_decision. Defined.

Record SourceRegistration := {
  reg_ID : string; reg_Kind : SourceKind; reg_Root : string; reg_IndependenceGroup : string }.

Definition SourceRegistry : Type := gmap string SourceRegistration.

Record DistributionIntent := {
  i_ID : string; i_PackageID : string; i_Version : string; i_Size : Z;
  i_Digests : Digests; i_Sources : list Source; i_Signature : string }.

#[global] Instance DistributionIntent_eq_dec : EqDecision DistributionIntent.
Proof. solve_decision. Defined.

Record Hello := { h_NodeID : string; h_Protocol : string; h_Offline : bool }.

Record Capabilities := {
  c_NodeID : string; c_ProtocolVersions : list string; c_Sources : list SourceKind; c_MaxChunkSize : Z }.

(** The errors of the package. [DigestMismatch] wraps [ErrInvalid], the next
    two wrap the error of the store, and [Foreign] is an error of other code
    or one made from a stored text. *)
Inductive error :=
| ErrInvalid | ErrOfflineSource | ErrNoSource | ErrChunkOverlap | ErrChunkSize | ErrFailureLimit
| ErrSourceIndependence | ErrSourceQuarantined | ErrSourceSwitchLimit | ErrStateConflict | ErrIntentSignature
| ErrJobNotFound | ErrBrokerQueue | ErrJobConflict | ErrTransferTooLarge | ErrResumeOffsetConflict
| ErrAtomicResumeRequired | ErrJobTerminal
| ErrDeadlineExceeded
| DigestMismatch
| LoadExisting (e : error)
| SaveTransfer (e : error)
| Foreign (text : string).

#[global] Instance error_eq_dec : EqDecision error.
Proof. solve_decision. Defined.

(** [err.Error()]. *)
Fixpoint Error (e : error) : string :=
  match e with
  | ErrInvalid => "invalid CWEDP message"
  | ErrOfflineSource => "offline node has no permitted source"
  | ErrNoSource => "no mutually supported distribution source"
  | ErrChunkOverlap => "chunk overlaps or is out of order"
  | ErrChunkSize => "chunk exceeds configured size"
  | ErrFailureLimit => "distribution failure limit exhausted"
  | ErrSourceIndependence => "distribution sources are not independent"
  | ErrSourceQuarantined => "distribution source is quarantined"
  | ErrSourceSwitchLimit => "distribution source switch limit exhausted"
  | ErrStateConflict => "distribution resume state conflicts with persisted intent"
  | ErrIntentSignature => "distribution intent signature is required"
  | ErrJobNotFound => "distribution job not found"
  | ErrBrokerQueue => "distribution broker queue is full"
  | ErrJobConflict => "distribution job conflicts with existing intent"
  | ErrTransferTooLarge => "distribution artifact exceeds broker byte budget"
  | ErrResumeOffsetConflict => "distribution resume offset conflict"
  | ErrAtomicResumeRequired => "distribution broker requires atomic resume persistence"
  | ErrJobTerminal => "distribution job is terminal"
  | ErrDeadlineExceeded => "context deadline exceeded"
  | DigestMismatch => "invalid CWEDP message: digest mismatch"
  | LoadExisting e => "load existing transfer state: " ++ Error e
  | SaveTransfer e => "save transfer state: " ++ Error e
  | Foreign text => text
  end.

(** [errors.Is(e, target)] for a target of this package. *)
Fixpoint Is (e target : error) : bool :=
  bool_decide (e = target)
  || match e with
     | DigestMismatch => bool_decide (ErrInvalid = target)
     | LoadExisting e => Is e target
     | SaveTransfer e => Is e target
     | _ => false
     end.

(** ** Fields *)

Definition validSourceKind (kind : SourceKind) : bool :=
  String.eqb kind SourceOTA || String.eqb kind SourceSeed || String.eqb kind SourcePeer
  || String.eqb kind SourceOffline.

Definition validIdentifier (value : string) : bool :=
  return false when String.eqb value "" || negb (String.eqb (TrimSpace value) value) ;;
  negb (existsb (fun r => IsSpace r || IsControl r || IsFormat r) (runes value)).

Definition validRegistrationField (value : string) : bool :=
  return false when String.eqb value "" ;;
  return false when existsb (fun r => IsControl r || IsFormat r) (runes value) ;;
  validIdentifier (TrimSpace value).

Definition validLowerHex (value : string) (length : Z) : bool :=
  return false when negb (len value =? length) || negb (String.eqb value (ToLower value)) ;;
  hex_decodable value.

Definition digests_valid (d : Digests) : bool :=
  validLowerHex (MD5 d) 32 && validLowerHex (SHA1 d) 40 && validLowerHex (SHA256 d) 64.

Definition sourceKey (source : Source) : string := src_Kind source ++ nul ++ src_ID source.

Definition validQuarantineReason (reason : QuarantineReason) : bool :=
  String.eqb reason QuarantineIntegrity || String.eqb reason QuarantineTransport
  || String.eqb reason QuarantinePolicy.

(** The optional fields of a source. *)
Definition invalid_claims (s : Source) : bool :=
  let bad v := negb (String.eqb v "") && negb (validIdentifier v) in
  bad (src_TrustRoot s) || bad (src_Organization s) || bad (src_CertificateFingerprint s).

Definition sourceInIntent (intent : DistributionIntent) (source : Source) : bool :=
  existsb (fun candidate => bool_decide (candidate = source)) (i_Sources intent).

Definition sourceKeyInIntent (intent : DistributionIntent) (source : Source) : bool :=
  existsb (fun candidate => String.eqb (sourceKey candidate) (sourceKey source)) (i_Sources intent).

(** ** The registry *)

Fixpoint register_all (entries : SourceRegistry) (registrations : list SourceRegistration)
    : result error SourceRegistry :=
  match registrations with
  | [] => Ok entries
  | r :: registrations =>
      return Err ErrInvalid when negb (validSourceKind (reg_Kind r)) || negb (validRegistrationField (reg_ID r))
        || negb (validRegistrationField (reg_Root r)) || negb (validRegistrationField (reg_IndependenceGroup r)) ;;
      let r := {| reg_ID := TrimSpace (reg_ID r); reg_Kind := reg_Kind r; reg_Root := TrimSpace (reg_Root r);
                  reg_IndependenceGroup := TrimSpace (reg_IndependenceGroup r) |} in
      return Err ErrInvalid when negb (validIdentifier (reg_ID r)) || negb (validIdentifier (reg_Root r))
        || negb (validIdentifier (reg_IndependenceGroup r)) ;;
      return Err ErrInvalid when has entries (reg_ID r) ;;
      register_all (<[reg_ID r := r]> entries) registrations
  end.

Definition NewSourceRegistry (registrations : list SourceRegistration) : result error SourceRegistry :=
  register_all ∅ registrations.

(** ** Messages *)

Fixpoint sources_valid (seen : gset string) (sources : list Source) : bool :=
  match sources with
  | [] => true
  | s :: sources =>
      return false when negb (validIdentifier (src_ID s)) || negb (validSourceKind (src_Kind s))
                        || bool_decide (sourceKey s ∈ seen) ;;
      return false when invalid_claims s ;;
      sources_valid ({[sourceKey s]} ∪ seen) sources
  end.

(** [DistributionIntent.Validate]. *)
Definition Validate (i : DistributionIntent) : option error :=
  return Some ErrIntentSignature when String.eqb (i_Signature i) "" ;;
  return Some ErrInvalid when negb (validIdentifier (i_ID i)) || negb (validIdentifier (i_PackageID i))
    || negb (validIdentifier (i_Version i)) || negb (validIdentifier (i_Signature i))
    || (i_Size i <? 0) || (DefaultMaxArtifactBytes <? i_Size i) || negb (digests_valid (i_Digests i))
    || match i_Sources i with [] => true | _ => false end ;;
  if sources_valid ∅ (i_Sources i) then None else Some ErrInvalid.

Definition Hello_Validate (h : Hello) : option error :=
  return Some ErrInvalid when negb (validIdentifier (h_NodeID h)) || negb (String.eqb (h_Protocol h) ProtocolVersion) ;;
  None.

(** A loop that refuses an invalid or repeated element. *)
Fixpoint distinct_valid (valid : string -> bool) (seen : gset string) (l : list string) : bool :=
  match l with
  | [] => true
  | p :: l =>
      return false when negb (valid p) ;;
      return false when bool_decide (p ∈ seen) ;;
      distinct_valid valid ({[p]} ∪ seen) l
  end.

Definition Capabilities_Validate (c : Capabilities) : option error :=
  return Some ErrInvalid when negb (validIdentifier (c_NodeID c)) || (c_MaxChunkSize c <=? 0)
    || (DefaultMaxChunkBytes <? c_MaxChunkSize c) || match c_ProtocolVersions c with [] => true | _ => false end ;;
  return Some ErrInvalid when negb (distinct_valid validIdentifier ∅ (c_ProtocolVersions c)) ;;
  if existsb (fun p => String.eqb p ProtocolVersion) (c_ProtocolVersions c)
  then (if distinct_valid validSourceKind ∅ (c_Sources c) then None else Some ErrInvalid)
  else Some ErrInvalid.

Definition supports (c : Capabilities) (k : SourceKind) : bool := existsb (fun x => String.eqb x k) (c_Sources c).

(** The checks that [Negotiate] and [SelectSource] share. *)
Definition handshake (h : Hello) (c : Capabilities) : option error :=
  match Hello_Validate h with
  | Some e => Some e
  | None => match Capabilities_Validate c with
            | Some e => Some e
            | None => if negb (String.eqb (h_NodeID h) (c_NodeID c)) then Some ErrInvalid else None
            end
  end.

Fixpoint negotiate_loop (h : Hello) (c : Capabilities) (sources : list Source) : option Source :=
  match sources with
  | [] => None
  | s :: sources =>
      if h_Offline h && negb (String.eqb (src_Kind s) SourceOffline) then negotiate_loop h c sources
      else if supports c (src_Kind s) then Some s else negotiate_loop h c sources
  end.

Definition Negotiate (i : DistributionIntent) (h : Hello) (c : Capabilities) : result error Source :=
  match Validate i with
  | Some e => Err e
  | None =>
      match handshake h c with
      | Some e => Err e
      | None =>
          match negotiate_loop h c (i_Sources i) with
          | Some s => Ok s
          | None => if h_Offline h then Err ErrOfflineSource else Err ErrNoSource
          end
      end
  end.

(** ** Quarantine *)

Fixpoint quarantines_valid (intent : DistributionIntent) (seen : gset string) (qs : list SourceQuarantine) : bool :=
  match qs with
  | [] => true
  | q :: qs =>
      return false when negb (sourceKeyInIntent intent (q_Source q)) || negb (validQuarantineReason (q_Reason q)) ;;
      return false when invalid_claims (q_Source q) ;;
      return false when bool_decide (sourceKey (q_Source q) ∈ seen) ;;
      quarantines_valid intent ({[sourceKey (q_Source q)]} ∪ seen) qs
  end.

Definition ValidateSourceQuarantines (intent : DistributionIntent) (qs : list SourceQuarantine) : option error :=
  match Validate intent with
  | Some e => Some e
  | None => if quarantines_valid intent ∅ qs then None else Some ErrInvalid
  end.

Definition AddSourceQuarantine (intent : DistributionIntent) (existing : list SourceQuarantine)
    (source : Source) (reason : QuarantineReason) : result error (list SourceQuarantine) :=
  match Validate intent with
  | Some e => Err e
  | None =>
      return Err ErrInvalid when negb (sourceKeyInIntent intent source) || negb (validQuarantineReason reason) ;;
      match ValidateSourceQuarantines intent existing with
      | Some e => Err e
      | None =>
          return Ok existing when existsb (fun entry => String.eqb (sourceKey (q_Source entry)) (sourceKey source)) existing ;;
          match List.find (fun candidate => String.eqb (sourceKey candidate) (sourceKey source)) (i_Sources intent) with
          | Some candidate => Ok (existing ++ [{| q_Source := candidate; q_Reason := reason |}])
          | None => Err ErrInvalid
          end
      end
  end.

Definition quarantineReasonFor (qs : list SourceQuarantine) (source : Source) : option QuarantineReason :=
  option_map q_Reason (List.find (fun entry => String.eqb (sourceKey (q_Source entry)) (sourceKey source)) qs).

(** ** The choice of a source *)

(** The closure [usable] of [SelectSource]: its answer, and the flag
    [blockedCandidate] after the call. *)
Definition usable (hello : Hello) (capabilities : Capabilities) (quarantined : gset string)
    (blocked : bool) (candidate : Source) : bool * bool :=
  return (false, true) when bool_decide (sourceKey candidate ∈ quarantined) ;;
  return (false, blocked) when h_Offline hello && negb (String.eqb (src_Kind candidate) SourceOffline) ;;
  (supports capabilities (src_Kind candidate), blocked).

(** The loop over the candidates: the first usable one, or the flag. *)
Fixpoint select_loop (hello : Hello) (capabilities : Capabilities) (quarantined : gset string)
    (blocked : bool) (sources : list Source) : Source + bool :=
  match sources with
  | [] => inr blocked
  | candidate :: sources =>
      let '(ok, blocked) := usable hello capabilities quarantined blocked candidate in
      if ok then inl candidate else select_loop hello capabilities quarantined blocked sources
  end.

Definition quarantined_keys (qs : list SourceQuarantine) : gset string :=
  list_to_set (map (fun q => sourceKey (q_Source q)) qs).

Definition SelectSource (intent : DistributionIntent) (hello : Hello) (capabilities : Capabilities)
    (current : option Source) (quarantines : list SourceQuarantine) : result error Source :=
  match Validate intent with
  | Some e => Err e
  | None =>
  match ValidateSourceQuarantines intent quarantines with
  | Some e => Err e
  | None =>
  match handshake hello capabilities with
  | Some e => Err e
  | None =>
      let quarantined := quarantined_keys quarantines in
      let '(keep, blocked) := match current with
        | Some c => let '(ok, blocked) := usable hello capabilities quarantined false c in
                    (ok && sourceInIntent intent c, blocked)
        | None => (false, false)
        end in
      match current, keep with
      | Some c, true => Ok c
      | _, _ =>
          match select_loop hello capabilities quarantined blocked (i_Sources intent) with
          | inl candidate => Ok candidate
          | inr blocked =>
              return Err ErrSourceQuarantined when match current with
                | Some c => bool_decide (sourceKey c ∈ quarantined) | None => false end ;;
              return Err ErrSourceQuarantined when blocked ;;
              return Err ErrOfflineSource when h_Offline hello ;;
              Err ErrNoSource
          end
      end
  end end end.

(** ** Independence *)

(** The loop of [ValidateSourceIndependenceWithMinimum]: the roots and groups
    counted, or [None] when a source is not registered as claimed. *)
Fixpoint independence_loop (registry : SourceRegistry) (roots groups : gset string) (sources : list Source)
    : option (gset string * gset string) :=
  match sources with
  | [] => Some (roots, groups)
  | s :: sources =>
      match registry !! src_ID s with
      | None => None
      | Some r =>
          return None when negb (String.eqb (reg_Kind r) (src_Kind s)) || String.eqb (TrimSpace (reg_Root r)) ""
                           || String.eqb (TrimSpace (reg_IndependenceGroup r)) "" ;;
          if bool_decide (reg_Root r ∈ roots) || bool_decide (reg_IndependenceGroup r ∈ groups)
          then independence_loop registry roots groups sources
          else independence_loop registry ({[reg_Root r]} ∪ roots) ({[reg_IndependenceGroup r]} ∪ groups) sources
      end
  end.

Definition ValidateSourceIndependenceWithMinimum (i : DistributionIntent) (registry : SourceRegistry)
    (minimum : Z) : option error :=
  match Validate i with
  | Some e => Some e
  | None =>
      return Some ErrSourceIndependence when (minimum <? 1) || (2 <? minimum) ;;
      match independence_loop registry ∅ ∅ (i_Sources i) with
      | None => Some ErrSourceIndependence
      | Some (_, groups) => if Z.of_nat (size groups) <? minimum then Some ErrSourceIndependence else None
      end
  end.

Definition ValidateSourceIndependence (i : DistributionIntent) (registry : SourceRegistry) : option error :=
  ValidateSourceIndependenceWithMinimum i registry 2.

(** ** Chunks and the finished artifact *)

Record TransferState := { ts_size : Z; ts_next : Z; ts_max : Z }.

Definition NewTransferState (size maxChunk : Z) : TransferState :=
  {| ts_size := size; ts_next := 0; ts_max := maxChunk |}.

Definition Accept (s : TransferState) (offset length : Z) : result error TransferState :=
  return Err ErrChunkSize when (length <=? 0) || (ts_max s <? length) ;;
  return Err ErrChunkOverlap when negb (offset =? ts_next s) || (offset <? 0) || (ts_size s <? offset)
                                  || (ts_size s - offset <? length) ;;
  Ok {| ts_size := ts_size s; ts_next := i64 (ts_next s + length); ts_max := ts_max s |}.

Definition NextOffset (s : TransferState) : Z := ts_next s.
Definition Complete (s : TransferState) : bool := ts_next s =? ts_size s.

(** The digests of the data, as [VerifyDigests] computes them. *)
Definition digests_of (data : list Z) : Digests :=
  {| MD5 := EncodeHex (SumMD5 data); SHA1 := EncodeHex (SumSHA1 data); SHA256 := EncodeHex (Sum256 data) |}.

Definition VerifyDigests (data : list Z) (w : Digests) : option error :=
  let got := digests_of data in
  return Some DigestMismatch when negb (digests_valid w) || negb (String.eqb (MD5 got) (MD5 w))
    || negb (String.eqb (SHA1 got) (SHA1 w)) || negb (String.eqb (SHA256 got) (SHA256 w)) ;;
  None.

(** [FailureBudget]: the failures that remain. *)
Definition NewFailureBudget (max : Z) : Z := if max <? 0 then 0 else max.

Definition Record_ (remaining : Z) : option error * Z :=
  if remaining <=? 0 then (Some ErrFailureLimit, remaining) else (None, remaining - 1).

Definition Failed (remaining : Z) : bool * Z :=
  let '(err, remaining) := Record_ remaining in
  (match err with Some _ => true | None => false end, remaining).

Definition Exhausted (remaining : Z) : bool := remaining =? 0.

Lemma VerifyDigests_spec data w : VerifyDigests data w = None -> digests_of data = w.
Proof.
  unfold VerifyDigests. intros E. apply guard_None in E as [E _]. props.
  destruct w, (digests_of data). cbn [MD5 SHA1 SHA256] in *. congruence.
Qed.
