(* ===== verification/CwedpBroker.v ===== *)
(** * The distribution broker (internal/cwedp/broker.go)

    A broker moves the bytes of an artifact from the source of a job into a
    durable record, one chunk at a time, and moves the job to another source
    when the current one fails. Its operations are programs over the calls
    they make: the clock, the lease verifier, the store and the broker's own
    maps and channels, each of them atomic in the code (a mutex, a channel
    operation or a transaction of the store). Between two calls of a program
    any other goroutine or process may run. The last part is the interface of a
    store, and pools of brokers over one. *)

From S2P Require Import Prelude GoText Sha256 Cwedp.

Open Scope string_scope.
Open Scope list_scope.
Open Scope Z_scope.
Open Scope go_scope.

(** ** Data *)

Record LeaseBinding := {
  l_PluginID : string; l_PluginVersion : string; l_TargetHost : string; l_TargetPort : Z;
  l_TargetProtocol : string; l_TLSFingerprint : string; l_PolicyEpoch : Z; l_ConfirmationID : string }.

Definition lease_valid (l : LeaseBinding) : bool :=
  validIdentifier (l_PluginID l) && validIdentifier (l_PluginVersion l) && validIdentifier (l_TargetHost l)
  && (0 <? l_TargetPort l) && (l_TargetPort l <=? 65535) && validIdentifier (l_TargetProtocol l)
  && validIdentifier (l_TLSFingerprint l) && negb (l_PolicyEpoch l =? 0) && validIdentifier (l_ConfirmationID l).

Record ResumeState := {
  st_JobID : string; st_Intent : DistributionIntent; st_Source : Source; st_MaxChunk : Z;
  st_NextOffset : Z; st_Data : list Z; st_Complete : bool; st_Failed : bool; st_Failure : string;
  st_QuarantinedSources : list SourceQuarantine; st_SourceSwitches : Z; st_MaxSourceSwitches : Z;
  st_UpdatedAt : Time }.

Record TransferRequest := {
  tr_Intent : DistributionIntent; tr_Hello : Hello; tr_Capabilities : Capabilities; tr_Lease : LeaseBinding }.

Record Job := { j_ID : string; j_Source : Source; j_NextOffset : Z }.

Definition no_source : Source :=
  {| src_Kind := ""; src_ID := ""; src_TrustRoot := ""; src_Organization := ""; src_CertificateFingerprint := "" |}.

Record TransferResult := {
  r_JobID : string; r_NextOffset : Z; r_Complete : bool; r_Failed : bool; r_Failure : option error;
  r_Retrying : bool; r_Source : Source; r_QuarantinedSource : Source }.

Record chunkRequest := { cr_id : string; cr_offset : Z; cr_data : list Z }.

(** Assignments to groups of fields. *)
Definition set_outcome (complete failed : bool) (failure : string) (s : ResumeState) : ResumeState :=
  {| st_JobID := st_JobID s; st_Intent := st_Intent s; st_Source := st_Source s; st_MaxChunk := st_MaxChunk s;
     st_NextOffset := st_NextOffset s; st_Data := st_Data s; st_Complete := complete; st_Failed := failed;
     st_Failure := failure; st_QuarantinedSources := st_QuarantinedSources s;
     st_SourceSwitches := st_SourceSwitches s; st_MaxSourceSwitches := st_MaxSourceSwitches s;
     st_UpdatedAt := st_UpdatedAt s |}.

Definition set_bytes (offset : Z) (data : list Z) (s : ResumeState) : ResumeState :=
  {| st_JobID := st_JobID s; st_Intent := st_Intent s; st_Source := st_Source s; st_MaxChunk := st_MaxChunk s;
     st_NextOffset := offset; st_Data := data; st_Complete := st_Complete s; st_Failed := st_Failed s;
     st_Failure := st_Failure s; st_QuarantinedSources := st_QuarantinedSources s;
     st_SourceSwitches := st_SourceSwitches s; st_MaxSourceSwitches := st_MaxSourceSwitches s;
     st_UpdatedAt := st_UpdatedAt s |}.

Definition set_source (source : Source) (quarantined : list SourceQuarantine) (switches : Z) (s : ResumeState) : ResumeState :=
  {| st_JobID := st_JobID s; st_Intent := st_Intent s; st_Source := source; st_MaxChunk := st_MaxChunk s;
     st_NextOffset := st_NextOffset s; st_Data := st_Data s; st_Complete := st_Complete s; st_Failed := st_Failed s;
     st_Failure := st_Failure s; st_QuarantinedSources := quarantined;
     st_SourceSwitches := switches; st_MaxSourceSwitches := st_MaxSourceSwitches s;
     st_UpdatedAt := st_UpdatedAt s |}.

Definition set_limit (limit : Z) (s : ResumeState) : ResumeState :=
  {| st_JobID := st_JobID s; st_Intent := st_Intent s; st_Source := st_Source s; st_MaxChunk := st_MaxChunk s;
     st_NextOffset := st_NextOffset s; st_Data := st_Data s; st_Complete := st_Complete s; st_Failed := st_Failed s;
     st_Failure := st_Failure s; st_QuarantinedSources := st_QuarantinedSources s;
     st_SourceSwitches := st_SourceSwitches s; st_MaxSourceSwitches := limit;
     st_UpdatedAt := st_UpdatedAt s |}.

Definition set_updated_at (now : Time) (s : ResumeState) : ResumeState :=
  {| st_JobID := st_JobID s; st_Intent := st_Intent s; st_Source := st_Source s; st_MaxChunk := st_MaxChunk s;
     st_NextOffset := st_NextOffset s; st_Data := st_Data s; st_Complete := st_Complete s; st_Failed := st_Failed s;
     st_Failure := st_Failure s; st_QuarantinedSources := st_QuarantinedSources s;
     st_SourceSwitches := st_SourceSwitches s; st_MaxSourceSwitches := st_MaxSourceSwitches s;
     st_UpdatedAt := now |}.

(** [int64(len(l))]. *)
Definition zlen {A} (l : list A) : Z := Z.of_nat (length l).

(** ** The transition guard of the stores *)

Definition sameIntent (a b : DistributionIntent) : bool :=
  return false when negb (String.eqb (i_ID a) (i_ID b)) || negb (String.eqb (i_PackageID a) (i_PackageID b))
    || negb (String.eqb (i_Version a) (i_Version b)) || negb (i_Size a =? i_Size b)
    || negb (bool_decide (i_Digests a = i_Digests b)) || negb (String.eqb (i_Signature a) (i_Signature b))
    || negb (length (i_Sources a) =? length (i_Sources b))%nat ;;
  forallb (fun p => bool_decide (fst p = snd p)) (combine (i_Sources a) (i_Sources b)).

Definition sameImmutableState (a b : ResumeState) : bool :=
  String.eqb (st_JobID a) (st_JobID b) && sameIntent (st_Intent a) (st_Intent b)
  && (st_MaxChunk a =? st_MaxChunk b)
  && ((st_MaxSourceSwitches a =? st_MaxSourceSwitches b) || (st_MaxSourceSwitches a =? 0) || (st_MaxSourceSwitches b =? 0)).

Definition sourceKeyInQuarantines (quarantines : list SourceQuarantine) (source : Source) : bool :=
  existsb (fun q => String.eqb (sourceKey (q_Source q)) (sourceKey source)) quarantines.

Definition bytesEqual (a b : list Z) : bool :=
  return false when negb (length a =? length b)%nat ;;
  forallb (fun p => fst p =? snd p) (combine a b).

Definition sameQuarantines (a b : list SourceQuarantine) : bool :=
  return false when negb (length a =? length b)%nat ;;
  forallb (fun p => bool_decide (fst p = snd p)) (combine a b).

Definition sameSource (a b : Source) : bool := bool_decide (a = b).

(** The branch of one more quarantined source. *)
Definition switch_transition (nextLimit : Z) (current next : ResumeState) : option error :=
  let before := length (st_QuarantinedSources current) in
  return Some ErrResumeOffsetConflict when
    negb (st_SourceSwitches next =? i64 (st_SourceSwitches current + 1))
    || negb (st_SourceSwitches next =? zlen (st_QuarantinedSources next))
    || (nextLimit <? st_SourceSwitches next)
    || negb (sameQuarantines (st_QuarantinedSources current) (take before (st_QuarantinedSources next))) ;;
  match st_QuarantinedSources next !! before with
  | None => Some ErrResumeOffsetConflict (* the list has this element *)
  | Some added =>
      return Some ErrResumeOffsetConflict when
        negb (String.eqb (sourceKey (q_Source added)) (sourceKey (st_Source current)))
        || negb (validQuarantineReason (q_Reason added))
        || sourceKeyInQuarantines (st_QuarantinedSources current) (q_Source added) ;;
      let changed := negb (st_NextOffset next =? st_NextOffset current) || negb (bytesEqual (st_Data next) (st_Data current)) in
      if sameSource (st_Source current) (st_Source next) then
        return Some ErrResumeOffsetConflict when
          negb (st_Failed next) || st_Complete next || String.eqb (st_Failure next) "" || changed ;;
        None
      else
        return Some ErrResumeOffsetConflict when
          st_Complete next || st_Failed next || negb (String.eqb (st_Failure next) "")
          || sourceKeyInQuarantines (st_QuarantinedSources next) (st_Source next) ;;
        if String.eqb (q_Reason added) QuarantineIntegrity then
          return Some ErrResumeOffsetConflict when
            negb (st_NextOffset next =? 0) || negb (zlen (st_Data next) =? 0) ;;
          None
        else return Some ErrResumeOffsetConflict when changed ;; None
  end.

(** The branch of another source under the same quarantines. *)
Definition reselect_transition (current next : ResumeState) : option error :=
  return Some ErrResumeOffsetConflict when
    negb (sourceKeyInQuarantines (st_QuarantinedSources current) (st_Source current))
    || sourceKeyInQuarantines (st_QuarantinedSources next) (st_Source next)
    || negb (st_SourceSwitches next =? st_SourceSwitches current) || st_Failed next || st_Complete next
    || negb (String.eqb (st_Failure next) "") ;;
  match quarantineReasonFor (st_QuarantinedSources current) (st_Source current) with
  | None => Some ErrResumeOffsetConflict
  | Some reason =>
      if String.eqb reason QuarantineIntegrity then
        return Some ErrResumeOffsetConflict when
          negb (st_NextOffset next =? 0) || negb (zlen (st_Data next) =? 0) ;;
        None
      else
        return Some ErrResumeOffsetConflict when
          negb (st_NextOffset next =? st_NextOffset current) || negb (bytesEqual (st_Data next) (st_Data current)) ;;
        None
  end.

(** The branch of the same source. *)
Definition append_transition (current next : ResumeState) : option error :=
  return Some ErrResumeOffsetConflict when
    negb (sameSource (st_Source current) (st_Source next))
    || negb (st_SourceSwitches current =? st_SourceSwitches next)
    || negb (sameQuarantines (st_QuarantinedSources current) (st_QuarantinedSources next)) ;;
  return Some ErrResumeOffsetConflict when
    (st_NextOffset next <? st_NextOffset current) || (zlen (st_Data next) <? st_NextOffset current)
    || negb (bytesEqual (take (Z.to_nat (st_NextOffset current)) (st_Data next)) (st_Data current)) ;;
  return Some ErrResumeOffsetConflict when
    (st_NextOffset next =? st_NextOffset current) && negb (st_Complete next) && negb (st_Failed next) ;;
  None.

Definition ValidateResumeTransition (current next : ResumeState) : option error :=
  return Some ErrStateConflict when negb (sameImmutableState current next) ;;
  return Some ErrResumeOffsetConflict when
    (st_NextOffset current <? 0) || (st_NextOffset next <? 0)
    || (i_Size (st_Intent current) <? st_NextOffset current) || (i_Size (st_Intent next) <? st_NextOffset next)
    || negb (zlen (st_Data current) =? st_NextOffset current) || negb (zlen (st_Data next) =? st_NextOffset next) ;;
  let refused c := match c with Some _ => true | None => false end in
  return Some ErrInvalid when
    refused (ValidateSourceQuarantines (st_Intent current) (st_QuarantinedSources current))
    || refused (ValidateSourceQuarantines (st_Intent next) (st_QuarantinedSources next)) ;;
  return Some ErrInvalid when
    negb (sourceInIntent (st_Intent current) (st_Source current)) || negb (sourceInIntent (st_Intent next) (st_Source next)) ;;
  return Some ErrResumeOffsetConflict when Before (st_UpdatedAt next) (st_UpdatedAt current) ;;
  let currentLimit := if (st_MaxSourceSwitches current <=? 0) || (DefaultMaxSourceSwitches <? st_MaxSourceSwitches current)
    then DefaultMaxSourceSwitches else st_MaxSourceSwitches current in
  let nextLimit := if st_MaxSourceSwitches next =? 0 then currentLimit else st_MaxSourceSwitches next in
  return Some ErrSourceSwitchLimit when (nextLimit <? 0) || (currentLimit <? nextLimit) ;;
  return Some ErrJobTerminal when
    st_Failed current && (sameSource (st_Source current) (st_Source next)
                          || negb (sourceKeyInQuarantines (st_QuarantinedSources current) (st_Source current))) ;;
  if (length (st_QuarantinedSources next) =? length (st_QuarantinedSources current) + 1)%nat
  then switch_transition nextLimit current next
  else if negb (sameSource (st_Source current) (st_Source next))
          && (length (st_QuarantinedSources next) =? length (st_QuarantinedSources current))%nat
  then reselect_transition current next
  else append_transition current next.

(** ** The in-memory store *)

(** A context is nil or has an [Err()]. *)
Inductive Context := NilContext | LiveContext (err : option error).

Abbreviation MemoryResumeStore := (gmap string ResumeState).

Definition NewMemoryResumeStore : MemoryResumeStore := ∅.

Definition Save (state : ResumeState) (data : MemoryResumeStore) : MemoryResumeStore :=
  <[st_JobID state := state]> data.

(** The guard of [SaveExpected] against the record it replaces. *)
Definition memory_refuses (expectedOffset : Z) (current : option ResumeState) (state : ResumeState) : option error :=
  match current with
  | None => if negb (expectedOffset =? 0) then Some ErrResumeOffsetConflict else None
  | Some current =>
      return Some ErrResumeOffsetConflict when negb (st_NextOffset current =? expectedOffset) ;;
      match Validate (st_Intent current), Validate (st_Intent state) with
      | None, None =>
          if (zlen (st_Data current) =? st_NextOffset current) && (zlen (st_Data state) =? st_NextOffset state)
          then ValidateResumeTransition current state else None
      | _, _ => None
      end
  end.

Definition SaveExpected (ctx : Context) (expectedOffset : Z) (state : ResumeState) (data : MemoryResumeStore)
    : option error * MemoryResumeStore :=
  match ctx with
  | NilContext => (Some ErrInvalid, data)
  | LiveContext (Some err) => (Some err, data)
  | LiveContext None =>
      match memory_refuses expectedOffset (data !! st_JobID state) state with
      | Some err => (Some err, data)
      | None => (None, <[st_JobID state := state]> data)
      end
  end.

Definition Load (id : string) (data : MemoryResumeStore) : result error ResumeState :=
  match data !! id with Some state => Ok state | None => Err ErrJobNotFound end.

(** ** The broker and its calls *)

(** [BrokerConfig.ResumeStore] as the broker finds it. *)
Inductive StoreKind := NoStore | PlainStore | AtomicStore.

Record BrokerConfig := {
  cfg_Registry : SourceRegistry; cfg_ResumeStore : StoreKind; cfg_LeaseVerifier : bool; cfg_QueueSize : Z;
  cfg_MaxChunkBytes : Z; cfg_MaxArtifactBytes : Z; cfg_MaxSourceSwitches : Z; cfg_MinIndependentSources : Z }.

Record Broker := {
  registry : SourceRegistry; store : StoreKind; verifier : bool; queue_cap : Z; maxChunkBytes : Z;
  maxArtifactBytes : Z; maxSourceSwitches : Z; minIndependentSources : Z }.

Definition NewBroker (cfg : BrokerConfig) : Broker :=
  let q := if cfg_QueueSize cfg <=? 0 then 32 else cfg_QueueSize cfg in
  let chunk := if cfg_MaxChunkBytes cfg <=? 0 then DefaultMaxChunkBytes else cfg_MaxChunkBytes cfg in
  let artifact := if cfg_MaxArtifactBytes cfg <=? 0 then DefaultMaxArtifactBytes else cfg_MaxArtifactBytes cfg in
  let chunk := if DefaultMaxChunkBytes <? chunk then DefaultMaxChunkBytes else chunk in
  let artifact := if DefaultMaxArtifactBytes <? artifact then DefaultMaxArtifactBytes else artifact in
  let switches := if cfg_MaxSourceSwitches cfg <=? 0 then DefaultMaxSourceSwitches else cfg_MaxSourceSwitches cfg in
  let switches := if DefaultMaxSourceSwitches <? switches then DefaultMaxSourceSwitches else switches in
  let minimum := if cfg_MinIndependentSources cfg <=? 0 then 2 else cfg_MinIndependentSources cfg in
  let minimum := if 2 <? minimum then 2 else minimum in
  {| registry := cfg_Registry cfg; store := cfg_ResumeStore cfg; verifier := cfg_LeaseVerifier cfg; queue_cap := q;
     maxChunkBytes := chunk; maxArtifactBytes := artifact; maxSourceSwitches := switches;
     minIndependentSources := minimum |}.

(** The context of a store call: [context.Background()], or the context that
    [Start] was given, which may be cancelled. *)
Inductive Ctx := Background | Worker.

Inductive Act :=
| ANow                                                     (* time.Now().UTC() *)
| AVerifyLease (lease : LeaseBinding)                      (* LeaseVerifier.VerifyLease *)
| ALoad (ctx : Ctx) (id : string)                          (* ResumeStore.Load *)
| ASave (ctx : Ctx) (expected : Z) (state : ResumeState)   (* AtomicResumeStore.SaveExpected *)
| ARegister (id : string) (req : TransferRequest)          (* registerJob *)
| ALookup (id : string)                                    (* b.jobs[id] *)
| AEvents (id : string)                                    (* is there a b.events[id]? *)
| AEnqueue (req : chunkRequest)                            (* the send of Push, which does not block *)
| ADequeue                                                 (* the select of Start *)
| AEmit (id : string) (result : TransferResult)            (* emit *)
| AReceive (id : string).                                  (* the select of Wait *)

Definition reply (a : Act) : Type :=
  match a with
  | ANow => Time
  | AVerifyLease _ => option error
  | ALoad _ _ => result error ResumeState
  | ASave _ _ _ => option error
  | ARegister _ _ => unit
  | ALookup _ => option TransferRequest
  | AEvents _ => bool
  | AEnqueue _ => bool                    (* whether there was room *)
  | ADequeue => option chunkRequest       (* None: ctx.Done() *)
  | AEmit _ _ => unit
  | AReceive _ => option TransferResult   (* None: the deadline *)
  end.

Inductive Prog (A : Type) : Type :=
| Ret (a : A)
| Do (a : Act) (k : reply a -> Prog A).
Arguments Ret {A} a.
Arguments Do {A} a k.

Fixpoint bind {A B} (p : Prog A) (f : A -> Prog B) : Prog B :=
  match p with
  | Ret a => f a
  | Do a k => Do a (fun r => bind (k r) f)
  end.

#[global] Instance Prog_bind : MBind Prog := fun _ _ f p => bind p f.
#[global] Instance Prog_ret : MRet Prog := fun _ a => Ret a.

Definition call (a : Act) : Prog (reply a) := Do a Ret.

(** ** Helpers of the broker *)

Definition minInt64 (a b : Z) : Z := if a <? b then a else b.

Definition resultFromState (s : ResumeState) : TransferResult :=
  {| r_JobID := st_JobID s; r_NextOffset := st_NextOffset s; r_Complete := st_Complete s; r_Failed := st_Failed s;
     r_Failure := if String.eqb (st_Failure s) "" then None else Some (Foreign (st_Failure s));
     r_Retrying := false; r_Source := st_Source s; r_QuarantinedSource := no_source |}.

Definition with_failure (failure : option error) (r : TransferResult) : TransferResult :=
  {| r_JobID := r_JobID r; r_NextOffset := r_NextOffset r; r_Complete := r_Complete r; r_Failed := r_Failed r;
     r_Failure := failure; r_Retrying := r_Retrying r; r_Source := r_Source r;
     r_QuarantinedSource := r_QuarantinedSource r |}.

Definition with_switch (failed : Source) (retrying : bool) (r : TransferResult) : TransferResult :=
  {| r_JobID := r_JobID r; r_NextOffset := r_NextOffset r; r_Complete := r_Complete r; r_Failed := r_Failed r;
     r_Failure := r_Failure r; r_Retrying := retrying; r_Source := r_Source r; r_QuarantinedSource := failed |}.

Definition sourceAvailable (intent : DistributionIntent) (source : Source) (hello : Hello)
    (capabilities : Capabilities) : bool :=
  match SelectSource intent hello capabilities (Some source) [] with
  | Ok selected => String.eqb (sourceKey selected) (sourceKey source)
  | Err _ => false
  end.

(** The roots that [selectFallback] avoids. *)
Definition blocked_roots (b : Broker) (quarantines : list SourceQuarantine) (reason : QuarantineReason) : gset string :=
  if String.eqb reason QuarantineIntegrity || String.eqb reason QuarantinePolicy
  then list_to_set (omap (fun q => option_map reg_Root (registry b !! src_ID (q_Source q))) quarantines)
  else ∅.

Definition fallback_allowed (b : Broker) (quarantines : list SourceQuarantine) (reason : QuarantineReason)
    (source : Source) : bool :=
  return false when sourceKeyInQuarantines quarantines source ;;
  match registry b !! src_ID source with
  | Some registration => negb (bool_decide (reg_Root registration ∈ blocked_roots b quarantines reason))
  | None => true
  end.

Definition with_sources (i : DistributionIntent) (sources : list Source) : DistributionIntent :=
  {| i_ID := i_ID i; i_PackageID := i_PackageID i; i_Version := i_Version i; i_Size := i_Size i;
     i_Digests := i_Digests i; i_Sources := sources; i_Signature := i_Signature i |}.

Definition selectFallback (b : Broker) (intent : DistributionIntent) (hello : Hello) (capabilities : Capabilities)
    (quarantines : list SourceQuarantine) (reason : QuarantineReason) : result error Source :=
  let filtered := with_sources intent (List.filter (fallback_allowed b quarantines reason) (i_Sources intent)) in
  match i_Sources filtered with
  | [] => Err ErrNoSource
  | _ => SelectSource filtered hello capabilities None []
  end.

Definition saveState (b : Broker) (ctx : Ctx) (expectedOffset : Z) (state : ResumeState) : Prog (option error) :=
  match store b with
  | AtomicStore => call (ASave ctx expectedOffset state)
  | _ => Ret (Some ErrAtomicResumeRequired)
  end.

Definition validateRequest (b : Broker) (req : TransferRequest) : Prog (option error) :=
  return Ret (Some ErrInvalid) when match store b with NoStore => true | _ => false end || negb (verifier b) ;;
  return Ret (Some ErrAtomicResumeRequired) when match store b with AtomicStore => false | _ => true end ;;
  match Validate (tr_Intent req) with
  | Some err => Ret (Some err)
  | None =>
      return Ret (Some ErrTransferTooLarge) when maxArtifactBytes b <? i_Size (tr_Intent req) ;;
      match Negotiate (tr_Intent req) (tr_Hello req) (tr_Capabilities req) with
      | Err err => Ret (Some err)
      | Ok _ =>
          match ValidateSourceIndependenceWithMinimum (tr_Intent req) (registry b) (minIndependentSources b) with
          | Some err => Ret (Some err)
          | None =>
              return Ret (Some ErrInvalid) when negb (lease_valid (tr_Lease req)) ;;
              call (AVerifyLease (tr_Lease req))
          end
      end
  end.

(** ** Submitting and resuming *)

(** A stored job that [Submit] may continue. *)
Definition may_continue (req : TransferRequest) (existing : ResumeState) : bool :=
  sourceAvailable (tr_Intent req) (st_Source existing) (tr_Hello req) (tr_Capabilities req)
  && negb (sourceKeyInQuarantines (st_QuarantinedSources existing) (st_Source existing)).

Definition continue_job (req : TransferRequest) (existing : ResumeState) : Prog (result error Job) :=
  call (ARegister (i_ID (tr_Intent req)) req) ≫= fun _ =>
  Ret (Ok {| j_ID := st_JobID existing; j_Source := st_Source existing; j_NextOffset := st_NextOffset existing |}).

Definition first_state (b : Broker) (req : TransferRequest) (source : Source) (now : Time) : ResumeState :=
  {| st_JobID := i_ID (tr_Intent req); st_Intent := tr_Intent req; st_Source := source;
     st_MaxChunk := minInt64 (c_MaxChunkSize (tr_Capabilities req)) (maxChunkBytes b); st_NextOffset := 0; st_Data := [];
     st_Complete := false; st_Failed := false; st_Failure := ""; st_QuarantinedSources := [];
     st_SourceSwitches := 0; st_MaxSourceSwitches := maxSourceSwitches b; st_UpdatedAt := now |}.

Definition create_job (b : Broker) (req : TransferRequest) (source : Source) : Prog (result error Job) :=
  let id := i_ID (tr_Intent req) in
  call ANow ≫= fun now =>
  let state := first_state b req source now in
  saveState b Background 0 state ≫= fun err =>
  match err with
  | Some err =>
      call (ALoad Background id) ≫= fun loaded =>
      match loaded with
      | Ok existing =>
          if sameIntent (st_Intent existing) (tr_Intent req) && may_continue req existing
          then continue_job req existing
          else Ret (Err (SaveTransfer err))
      | Err _ => Ret (Err (SaveTransfer err))
      end
  | None =>
      call (ARegister (st_JobID state) req) ≫= fun _ =>
      Ret (Ok {| j_ID := st_JobID state; j_Source := source; j_NextOffset := 0 |})
  end.

Definition Submit (b : Broker) (req : TransferRequest) : Prog (result error Job) :=
  validateRequest b req ≫= fun err =>
  match err with
  | Some err => Ret (Err err)
  | None =>
      match SelectSource (tr_Intent req) (tr_Hello req) (tr_Capabilities req) None [] with
      | Err err => Ret (Err err)
      | Ok source =>
          match ValidateSourceIndependenceWithMinimum (tr_Intent req) (registry b) (minIndependentSources b) with
          | Some err => Ret (Err err)
          | None =>
              call (ALoad Background (i_ID (tr_Intent req))) ≫= fun loaded =>
              match loaded with
              | Ok existing =>
                  return Ret (Err ErrJobConflict) when negb (sameIntent (st_Intent existing) (tr_Intent req)) ;;
                  return Ret (Err ErrSourceQuarantined) when negb (may_continue req existing) ;;
                  continue_job req existing
              | Err loadErr =>
                  return Ret (Err (LoadExisting loadErr)) when negb (Is loadErr ErrJobNotFound) ;;
                  create_job b req source
              end
          end
      end
  end.

Definition Resume (b : Broker) (id : string) (req : TransferRequest) : Prog (result error TransferResult) :=
  validateRequest b req ≫= fun err =>
  match err with
  | Some err => Ret (Err err)
  | None =>
      call (ALoad Background id) ≫= fun loaded =>
      match loaded with
      | Err err => Ret (Err err)
      | Ok state =>
          return Ret (Err ErrInvalid) when negb (sameIntent (st_Intent state) (tr_Intent req)) ;;
          return Ret (Err ErrNoSource) when
            negb (sourceAvailable (tr_Intent req) (st_Source state) (tr_Hello req) (tr_Capabilities req)) ;;
          return Ret (Err ErrSourceQuarantined) when sourceKeyInQuarantines (st_QuarantinedSources state) (st_Source state) ;;
          call (ARegister id req) ≫= fun _ => Ret (Ok (resultFromState state))
      end
  end.

(** ** Failing over *)

Definition save_or (b : Broker) (expectedOffset : Z) (state : ResumeState) (err : error) : Prog (result error Job) :=
  saveState b Background expectedOffset state ≫= fun saveErr =>
  match saveErr with
  | Some saveErr => Ret (Err saveErr)
  | None => Ret (Err err)
  end.

Definition counted (wasQuarantined : bool) (switches : Z) : Z := if wasQuarantined then switches else i64 (switches + 1).

(** The record of a source that failed without an alternative, and the record
    of a move to the source [next]. *)
Definition exhausted_state (quarantines : list SourceQuarantine) (wasQuarantined : bool) (err : error) (now : Time)
    (state : ResumeState) : ResumeState :=
  set_updated_at now (set_outcome (st_Complete state) true (Error err)
    (set_source (st_Source state) quarantines (counted wasQuarantined (st_SourceSwitches state)) state)).

Definition switched_state (quarantines : list SourceQuarantine) (wasQuarantined : bool) (reason : QuarantineReason)
    (next : Source) (now : Time) (state : ResumeState) : ResumeState :=
  let quarantineReason := match quarantineReasonFor quarantines (st_Source state) with
    | Some existing => existing | None => reason end in
  let kept := if String.eqb quarantineReason QuarantineIntegrity
    then set_outcome false (st_Failed state) (st_Failure state) (set_bytes 0 [] state) else state in
  set_updated_at now (set_outcome (st_Complete kept) false ""
    (set_source next quarantines (counted wasQuarantined (st_SourceSwitches kept)) kept)).

(** [QuarantineSource] once the stored state is loaded. *)
Definition quarantine_loaded (b : Broker) (id : string) (req : TransferRequest) (failed : Source)
    (reason : QuarantineReason) (state : ResumeState) : Prog (result error Job) :=
  return Ret (Err ErrJobConflict) when
    negb (String.eqb (st_JobID state) id) || negb (sameIntent (st_Intent state) (tr_Intent req)) ;;
  return Ret (Err ErrResumeOffsetConflict) when negb (String.eqb (sourceKey (st_Source state)) (sourceKey failed)) ;;
  return Ret (Err ErrJobTerminal) when st_Complete state ;;
  let wasQuarantined := sourceKeyInQuarantines (st_QuarantinedSources state) (st_Source state) in
  return Ret (Err ErrJobTerminal) when st_Failed state && negb wasQuarantined ;;
  let state := if st_MaxSourceSwitches state <=? 0 then set_limit DefaultMaxSourceSwitches state else state in
  let limit := if maxSourceSwitches b <? st_MaxSourceSwitches state then maxSourceSwitches b else st_MaxSourceSwitches state in
  if (limit <=? st_SourceSwitches state) && negb wasQuarantined then
    call ANow ≫= fun now =>
    save_or b (st_NextOffset state)
      (set_updated_at now (set_outcome (st_Complete state) true (Error ErrSourceSwitchLimit) state)) ErrSourceSwitchLimit
  else
  match AddSourceQuarantine (st_Intent state) (st_QuarantinedSources state) (st_Source state) reason with
  | Err err => Ret (Err err)
  | Ok quarantines =>
      match selectFallback b (st_Intent state) (tr_Hello req) (tr_Capabilities req) quarantines reason with
      | Err selectErr =>
          call ANow ≫= fun now =>
          save_or b (st_NextOffset state) (exhausted_state quarantines wasQuarantined selectErr now state) selectErr
      | Ok next =>
          call ANow ≫= fun now =>
          let moved := switched_state quarantines wasQuarantined reason next now state in
          saveState b Background (st_NextOffset state) moved ≫= fun err =>
          match err with
          | Some err => Ret (Err err)
          | None =>
              call (ARegister id req) ≫= fun _ =>
              Ret (Ok {| j_ID := id; j_Source := next; j_NextOffset := st_NextOffset moved |})
          end
      end
  end.

Definition QuarantineSource (b : Broker) (id : string) (req : TransferRequest) (failed : Source)
    (reason : QuarantineReason) : Prog (result error Job) :=
  validateRequest b req ≫= fun err =>
  match err with
  | Some err => Ret (Err err)
  | None =>
      call (ALoad Background id) ≫= fun loaded =>
      match loaded with
      | Err err => Ret (Err err)
      | Ok state => quarantine_loaded b id req failed reason state
      end
  end.

(** ** Receiving chunks *)

Definition Push (b : Broker) (id : string) (offset : Z) (data : list Z) : Prog (option error) :=
  call (ALookup id) ≫= fun job =>
  match job with
  | None => Ret (Some ErrJobNotFound)
  | Some _ =>
      return Ret (Some ErrChunkSize) when zlen data =? 0 ;;
      return Ret (Some ErrChunkSize) when maxChunkBytes b <? zlen data ;;
      call (AEnqueue {| cr_id := id; cr_offset := offset; cr_data := data |}) ≫= fun sent : bool =>
      Ret (if sent then None else Some ErrBrokerQueue)
  end.

(** A stored state that [process] does not accept from this broker's store. *)
Definition corrupt (b : Broker) (id : string) (state : ResumeState) : bool :=
  negb (String.eqb (st_JobID state) id) || (st_NextOffset state <? 0)
  || (i_Size (st_Intent state) <? st_NextOffset state) || negb (zlen (st_Data state) =? st_NextOffset state)
  || (st_MaxChunk state <=? 0) || (maxChunkBytes b <? st_MaxChunk state)
  || (maxArtifactBytes b <? i_Size (st_Intent state))
  || match Validate (st_Intent state) with Some _ => true | None => false end
  || (st_SourceSwitches state <? 0)
  || negb (st_SourceSwitches state =? zlen (st_QuarantinedSources state))
  || (maxSourceSwitches b <? st_SourceSwitches state)
  || match ValidateSourceQuarantines (st_Intent state) (st_QuarantinedSources state) with Some _ => true | None => false end.

Definition misplaced (req : chunkRequest) (state : ResumeState) : bool :=
  negb (cr_offset req =? st_NextOffset state) || (cr_offset req <? 0) || (i_Size (st_Intent state) <? cr_offset req)
  || (st_MaxChunk state <? zlen (cr_data req))
  || (i_Size (st_Intent state) - cr_offset req <? zlen (cr_data req)).

Definition appended (req : chunkRequest) (state : ResumeState) : ResumeState :=
  set_bytes (st_NextOffset state + zlen (cr_data req)) (st_Data state ++ cr_data req) state.

Definition failure_result (id : string) (err : error) : TransferResult :=
  {| r_JobID := id; r_NextOffset := 0; r_Complete := false; r_Failed := true; r_Failure := Some err;
     r_Retrying := false; r_Source := no_source; r_QuarantinedSource := no_source |}.

(** The end of [process]: the new state is saved and reported. *)
Definition finish (b : Broker) (id : string) (expectedOffset : Z) (err : option error) (state : ResumeState) : Prog unit :=
  let state := match err with
    | Some e => set_outcome (st_Complete state) true (Error e) state
    | None => state end in
  call ANow ≫= fun now =>
  let state := set_updated_at now state in
  saveState b Worker expectedOffset state ≫= fun saveErr =>
  match saveErr with
  | Some saveErr =>
      if Is saveErr ErrResumeOffsetConflict then
        call (AEmit id {| r_JobID := id; r_NextOffset := expectedOffset; r_Complete := false; r_Failed := false;
                          r_Failure := Some saveErr; r_Retrying := true; r_Source := st_Source state;
                          r_QuarantinedSource := no_source |})
      else
        let state := set_outcome (st_Complete state) true (Error saveErr) state in
        call (AEmit id (with_failure (Some saveErr) (resultFromState state)))
  | None =>
      let r := resultFromState state in
      call (AEmit id (match err with Some _ => with_failure err r | None => r end))
  end.

(** The artifact is whole but its digests differ. *)
Definition mismatch (b : Broker) (id : string) (expectedOffset : Z) (err : error) (state : ResumeState) : Prog unit :=
  call (ALookup id) ≫= fun job =>
  match job with
  | None => finish b id expectedOffset (Some err) state
  | Some request =>
      let failedSource := st_Source state in
      QuarantineSource b id request failedSource QuarantineIntegrity ≫= fun switched =>
      call (ALoad Worker id) ≫= fun latest =>
      match latest with
      | Ok latest =>
          let retrying := match switched with Ok _ => true | Err _ => false end in
          let r := with_switch failedSource retrying (resultFromState latest) in
          call (AEmit id (if retrying then r else with_failure (Some ErrInvalid) r))
      | Err _ => finish b id expectedOffset match switched with Ok _ => None | Err e => Some e end state
      end
  end.

Definition process_loaded (b : Broker) (req : chunkRequest) (state : ResumeState) : Prog unit :=
  let id := cr_id req in
  let expectedOffset := st_NextOffset state in
  if corrupt b id state then
    call ANow ≫= fun now =>
    let state := set_updated_at now (set_outcome (st_Complete state) true (Error ErrInvalid) state) in
    saveState b Worker expectedOffset state ≫= fun saveErr =>
    match saveErr with
    | Some saveErr => call (AEmit id (failure_result id saveErr))
    | None => call (AEmit id (with_failure (Some ErrInvalid) (resultFromState state)))
    end
  else if st_Complete state || st_Failed state then call (AEmit id (resultFromState state))
  else if misplaced req state then finish b id expectedOffset (Some ErrChunkOverlap) state
  else
    let state := appended req state in
    if st_NextOffset state =? i_Size (st_Intent state) then
      match VerifyDigests (st_Data state) (i_Digests (st_Intent state)) with
      | None => finish b id expectedOffset None (set_outcome true (st_Failed state) (st_Failure state) state)
      | Some err => mismatch b id expectedOffset err state
      end
    else finish b id expectedOffset None state.

Definition process (b : Broker) (req : chunkRequest) : Prog unit :=
  call (ALoad Worker (cr_id req)) ≫= fun loaded =>
  match loaded with
  | Err err => call (AEmit (cr_id req) (failure_result (cr_id req) err))
  | Ok state => process_loaded b req state
  end.

(** [Start]'s goroutine, for at most [n] chunks. *)
Fixpoint Start (b : Broker) (n : nat) : Prog unit :=
  match n with
  | O => Ret tt
  | S n =>
      call ADequeue ≫= fun req =>
      match req with
      | None => Ret tt
      | Some req => process b req ≫= fun _ => Start b n
      end
  end.

Definition no_result : TransferResult :=
  {| r_JobID := ""; r_NextOffset := 0; r_Complete := false; r_Failed := false; r_Failure := None;
     r_Retrying := false; r_Source := no_source; r_QuarantinedSource := no_source |}.

(** [Wait]: the deadline fires after at most [n] receives. *)
Fixpoint wait_loop (id : string) (n : nat) : Prog (TransferResult * option error) :=
  match n with
  | O => Ret (no_result, Some ErrDeadlineExceeded)
  | S n =>
      call (AReceive id) ≫= fun event =>
      match event with
      | None => Ret (no_result, Some ErrDeadlineExceeded)
      | Some r =>
          if r_Complete r || r_Failed r || r_Retrying r then Ret (r, r_Failure r) else wait_loop id n
      end
  end.

Definition Wait (id : string) (n : nat) : Prog (TransferResult * option error) :=
  call (AEvents id) ≫= fun ok : bool =>
  if ok then wait_loop id n else Ret (no_result, Some ErrJobNotFound).

(** ** The broker's maps and channels *)

Record Local := {
  jobs : gmap string TransferRequest; events : gmap string (list TransferResult); queue : list chunkRequest }.

Definition new_local : Local := {| jobs := ∅; events := ∅; queue := [] |}.

Definition event_capacity : nat := 16.

(** [emit] on the buffer of a channel. Senders hold the broker's mutex, and no
    receive is interleaved: a receive in the middle of an [emit] only makes
    room that the discarded element would have taken. *)
Definition send_latest (result : TransferResult) (buffer : list TransferResult) : list TransferResult :=
  let buffer := if (length buffer =? event_capacity)%nat then tail buffer else buffer in
  if (length buffer <? event_capacity)%nat then buffer ++ [result]
  else let buffer := tail buffer in
       if (length buffer <? event_capacity)%nat then buffer ++ [result] else buffer.

Definition emit (id : string) (result : TransferResult) (l : Local) : Local :=
  match events l !! id with
  | None => l
  | Some buffer => {| jobs := jobs l; events := <[id := send_latest result buffer]> (events l); queue := queue l |}
  end.

Definition registerJob (id : string) (req : TransferRequest) (l : Local) : Local :=
  {| jobs := <[id := req]> (jobs l);
     events := if has (events l) id then events l else <[id := []]> (events l); queue := queue l |}.

Definition requestForJob (id : string) (l : Local) : option TransferRequest := jobs l !! id.

Definition enqueue (capacity : Z) (req : chunkRequest) (l : Local) : bool * Local :=
  if zlen (queue l) <? capacity
  then (true, {| jobs := jobs l; events := events l; queue := queue l ++ [req] |})
  else (false, l).

Definition dequeue (l : Local) : option (chunkRequest * Local) :=
  match queue l with
  | [] => None
  | req :: rest => Some (req, {| jobs := jobs l; events := events l; queue := rest |})
  end.

Definition receive (id : string) (l : Local) : option (TransferResult * Local) :=
  match events l !! id with
  | Some (r :: rest) => Some (r, {| jobs := jobs l; events := <[id := rest]> (events l); queue := queue l |})
  | _ => None
  end.

(** ** Running one program alone on the in-memory store *)

(** The clock stands at [now], no context is cancelled, the verifier answers
    [lease]. A deadline fires when nothing is left to receive. *)
Section Alone.
Context (b : Broker) (now : Time) (lease : LeaseBinding -> option error).

Definition answer (a : Act) (w : MemoryResumeStore * Local) : reply a * (MemoryResumeStore * Local) :=
  let '(m, l) := w in
  match a with
  | ANow => (now, w)
  | AVerifyLease x => (lease x, w)
  | ALoad _ id => (Load id m, w)
  | ASave _ expected state => let '(err, m) := SaveExpected (LiveContext None) expected state m in (err, (m, l))
  | ARegister id req => (tt, (m, registerJob id req l))
  | ALookup id => (requestForJob id l, w)
  | AEvents id => (has (events l) id, w)
  | AEnqueue req => let '(sent, l) := enqueue (queue_cap b) req l in (sent, (m, l))
  | ADequeue => match dequeue l with Some (req, l) => (Some req, (m, l)) | None => (None, w) end
  | AEmit id result => (tt, (m, emit id result l))
  | AReceive id => match receive id l with Some (r, l) => (Some r, (m, l)) | None => (None, w) end
  end.

Fixpoint run {A} (p : Prog A) (w : MemoryResumeStore * Local) : A * (MemoryResumeStore * Local) :=
  match p with
  | Ret a => (a, w)
  | Do a k => let '(r, w) := answer a w in run (k r) w
  end.
End Alone.

(** ** Brokers over a shared store

    What a resume store promises to a broker, the in-memory store as an
    instance of it, and the steps of any number of brokers, each running any
    number of operations, that share one store. *)

(** ** The interface *)

(** [AtomicResumeStore]: the answers a call may have, and the store after it. *)
Class ResumeStore (S : Type) := {
  load : S -> Ctx -> string -> result error ResumeState -> Prop;
  save_expected : S -> Ctx -> Z -> ResumeState -> option error -> S -> Prop
}.

(** A record whose offset is the length of its bytes and whose intent is valid. *)
Definition well_formed (s : ResumeState) : Prop :=
  Validate (st_Intent s) = None /\ zlen (st_Data s) = st_NextOffset s.

(** The compare-and-swap that a store performs. *)
Definition accepts (expected : Z) (current : option ResumeState) (next : ResumeState) : Prop :=
  match current with
  | None => expected = 0
  | Some current =>
      st_NextOffset current = expected
      /\ (well_formed current -> well_formed next -> ValidateResumeTransition current next = None)
  end.

(** The contract: loads read the records (a store may trim the identifier it
    is asked for), a save replaces one record by an
    accepted one or changes nothing, even when it reports an error, and an
    acknowledged save is stored. A store may round the time of a record. *)
Class LawfulStore (S : Type) `{!ResumeStore S} := {
  view : S -> gmap string ResumeState;
  load_view s ctx id state :
    load s ctx id (Ok state) -> exists key, (key = id \/ key = TrimSpace id) /\ view s !! key = Some state;
  save_view s ctx expected state r s' :
    save_expected s ctx expected state r s' ->
    view s' = view s
    \/ accepts expected (view s !! st_JobID state) state
       /\ exists now, view s' = <[st_JobID state := set_updated_at now state]> (view s);
  save_stored s ctx expected state s' :
    save_expected s ctx expected state None s' ->
    exists now, view s' !! st_JobID state = Some (set_updated_at now state)
}.

(** ** The in-memory store is lawful *)

#[global] Instance memory_store : ResumeStore MemoryResumeStore := {
  load m ctx id r := r = Load id m;
  save_expected m ctx expected state r m' :=
    exists err, (ctx = Background -> err = None) /\ SaveExpected (LiveContext err) expected state m = (r, m')
}.

Lemma memory_accepts expected current next :
  memory_refuses expected current next = None -> accepts expected current next.
Proof.
  unfold memory_refuses, accepts, well_formed. destruct current as [current|].
  - intros E. apply guard_None in E as [E1 E2]. props. split; [done|]. intros [V1 L1] [V2 L2].
    rewrite V1, V2, (proj2 (Z.eqb_eq _ _) L1), (proj2 (Z.eqb_eq _ _) L2) in E2. done.
  - intros E. apply guard_None in E as [E _]. by props.
Qed.

Lemma set_updated_at_same s : set_updated_at (st_UpdatedAt s) s = s.
Proof. by destruct s. Qed.

Lemma SaveExpected_outcome err expected state m r m' :
  SaveExpected (LiveContext err) expected state m = (r, m') ->
  r <> None /\ m' = m
  \/ r = None /\ accepts expected (m !! st_JobID state) state /\ m' = <[st_JobID state := state]> m.
Proof.
  unfold SaveExpected. destruct err as [e|]; [intros E; left; by simplify_eq|].
  destruct (memory_refuses _ _ _) eqn:R; intros E; simplify_eq; [by left|right].
  split_and!; [done| |done]. by apply memory_accepts.
Qed.

#[global] Instance memory_lawful : LawfulStore MemoryResumeStore.
Proof.
  refine {| view := fun m => m |}.
  - intros m ctx id state H. change (Ok state = Load id m) in H. unfold Load in H.
    exists id. split; [by left|]. case_match; by simplify_eq.
  - intros m ctx expected state r m' (err & _ & E).
    destruct (SaveExpected_outcome _ _ _ _ _ _ E) as [[_ ->]|(_ & A & ->)]; [by left|right].
    split; [done|]. exists (st_UpdatedAt state). by rewrite set_updated_at_same.
  - intros m ctx expected state m' (err & _ & E).
    destruct (SaveExpected_outcome _ _ _ _ _ _ E) as [[N _]|(_ & _ & ->)]; [by destruct N|].
    exists (st_UpdatedAt state). by rewrite lookup_insert_eq, set_updated_at_same.
Defined.

(** ** Steps *)

(** The operations of a broker, their results dropped. *)
Inductive Op :=
| OpSubmit (req : TransferRequest)
| OpResume (id : string) (req : TransferRequest)
| OpQuarantine (id : string) (req : TransferRequest) (failed : Source) (reason : QuarantineReason)
| OpPush (id : string) (offset : Z) (data : list Z)
| OpWait (id : string) (receives : nat)
| OpStart (chunks : nat).

Definition done_ {A} (p : Prog A) : Prog unit := bind p (fun _ => Ret tt).

Definition operation (b : Broker) (o : Op) : Prog unit :=
  match o with
  | OpSubmit req => done_ (Submit b req)
  | OpResume id req => done_ (Resume b id req)
  | OpQuarantine id req failed reason => done_ (QuarantineSource b id req failed reason)
  | OpPush id offset data => done_ (Push b id offset data)
  | OpWait id receives => done_ (Wait id receives)
  | OpStart chunks => Start b chunks
  end.

(** What a call may answer, with the store and the broker's own state after
    it: any time, any verdict on a lease, a deadline or a cancelled context
    at any moment. *)
Definition act_step {S : Type} `{!ResumeStore S} (b : Broker) (a : Act) (s : S) (l : Local) : reply a -> S -> Local -> Prop :=
  match a with
  | ANow | AVerifyLease _ => fun _ s' l' => s' = s /\ l' = l
  | ALoad ctx id => fun r s' l' => load s ctx id r /\ s' = s /\ l' = l
  | ASave ctx expected state => fun r s' l' => save_expected s ctx expected state r s' /\ l' = l
  | ARegister id req => fun _ s' l' => s' = s /\ l' = registerJob id req l
  | ALookup id => fun r s' l' => r = requestForJob id l /\ s' = s /\ l' = l
  | AEvents id => fun r s' l' => r = has (events l) id /\ s' = s /\ l' = l
  | AEnqueue req => fun r s' l' => (r, l') = enqueue (queue_cap b) req l /\ s' = s
  | ADequeue => fun r s' l' =>
      s' = s /\ match r with Some req => dequeue l = Some (req, l') | None => l' = l end
  | AEmit id result => fun _ s' l' => s' = s /\ l' = emit id result l
  | AReceive id => fun r s' l' =>
      s' = s /\ match r with Some x => receive id l = Some (x, l') | None => l' = l end
  end.

(** A pool: the store, the state of every broker, and the running programs
    with the brokers they belong to. *)
Record Pool (S : Type) := { p_store : S; p_local : nat -> Local; p_threads : list (nat * Prog unit) }.
Arguments p_store {S} _.
Arguments p_local {S} _.
Arguments p_threads {S} _.

Definition set_local (i : nat) (l : Local) (f : nat -> Local) : nat -> Local :=
  fun j => if decide (j = i) then l else f j.

Inductive pool_step {S : Type} `{!ResumeStore S} (brokers : nat -> Broker) : Pool S -> Pool S -> Prop :=
| step_spawn p i o :
    pool_step brokers p
      {| p_store := p_store p; p_local := p_local p; p_threads := p_threads p ++ [(i, operation (brokers i) o)] |}
| step_act p before i a k after r s' l' :
    p_threads p = before ++ (i, Do a k) :: after ->
    act_step (brokers i) a (p_store p) (p_local p i) r s' l' ->
    pool_step brokers p
      {| p_store := s'; p_local := set_local i l' (p_local p); p_threads := before ++ (i, k r) :: after |}.

(** The start of every broker, on a store that holds no job yet. *)
Definition start_pool {S} (s : S) : Pool S := {| p_store := s; p_local := fun _ => new_local; p_threads := [] |}.

Definition reachable {S : Type} `{!ResumeStore S, !LawfulStore S} (brokers : nat -> Broker) (p : Pool S) : Prop :=
  exists s, view s = ∅ /\ rtc (pool_step brokers) (start_pool s) p.
