(* ===== verification/CwedpGuard.v ===== *)
(** * The transition guard of the resume stores, and facts of the protocol

    What a valid intent and a valid quarantine list are, what the choice of a
    source returns, that the two ways to choose one agree, and what the guard
    admits. *)

From S2P Require Import Prelude GoText Sha256 Cwedp CwedpBroker.

Open Scope string_scope.
Open Scope list_scope.
Open Scope Z_scope.

Lemma sameKey_refl s : String.eqb (sourceKey s) (sourceKey s) = true.
Proof. apply String.eqb_refl. Qed.

Lemma sourceKeyInIntent_spec i s :
  sourceKeyInIntent i s = true <-> exists c, c ∈ i_Sources i /\ sourceKey c = sourceKey s.
Proof.
  unfold sourceKeyInIntent. rewrite existsb_exists. setoid_rewrite String.eqb_eq.
  by setoid_rewrite list_elem_of_In.
Qed.

Lemma sourceInIntent_spec i s : sourceInIntent i s = true <-> s ∈ i_Sources i.
Proof.
  unfold sourceInIntent. rewrite existsb_exists. setoid_rewrite bool_decide_eq_true.
  setoid_rewrite <- list_elem_of_In. naive_solver.
Qed.

Definition qkey (q : SourceQuarantine) : string := sourceKey (q_Source q).

Lemma sourceKeyInQuarantines_spec qs s :
  sourceKeyInQuarantines qs s = true <-> sourceKey s ∈ map qkey qs.
Proof.
  unfold sourceKeyInQuarantines, qkey. rewrite existsb_exists, list_elem_of_fmap.
  setoid_rewrite String.eqb_eq. setoid_rewrite <- list_elem_of_In. naive_solver.
Qed.

Lemma sourceKeyInQuarantines_false qs s :
  sourceKeyInQuarantines qs s = false <-> sourceKey s ∉ map qkey qs.
Proof. by rewrite <- not_true_iff_false, sourceKeyInQuarantines_spec. Qed.

(** ** Valid intents *)

Lemma sources_valid_spec seen l :
  sources_valid seen l = true ->
  NoDup (map sourceKey l) /\ (forall s, s ∈ l -> invalid_claims s = false /\ sourceKey s ∉ seen).
Proof.
  revert seen. induction l as [|s l IH]; intros seen E; cbn [sources_valid map] in E |- *.
  { split; [constructor|]. intros s Hs. by apply not_elem_of_nil in Hs. }
  branch E. props. destruct (IH _ E) as [N A]. split.
  - constructor; [|done]. intros (s' & K & Hs)%list_elem_of_fmap. destruct (A _ Hs). set_solver.
  - intros s' [->|Hs]%elem_of_cons; [done|]. destruct (A _ Hs). split; [done|set_solver].
Qed.

Lemma Validate_spec i :
  Validate i = None ->
  0 <= i_Size i <= DefaultMaxArtifactBytes /\ digests_valid (i_Digests i) = true /\ i_Sources i <> []
  /\ sources_valid ∅ (i_Sources i) = true.
Proof.
  unfold Validate. intros E. apply guard_None in E as [_ E]. apply guard_None in E as [E1 E]. props.
  split_and!; [lia|lia|done| |by destruct (sources_valid _ _)]. intros N. by rewrite N in *.
Qed.

(** A source of a valid intent is determined by its key. *)
Lemma valid_key_inj i s t :
  Validate i = None -> s ∈ i_Sources i -> t ∈ i_Sources i -> sourceKey s = sourceKey t -> s = t.
Proof.
  intros V Hs Ht K. apply Validate_spec in V as (_ & _ & _ & V). apply sources_valid_spec in V as [N _].
  apply list_elem_of_lookup in Hs as [n Hs]. apply list_elem_of_lookup in Ht as [m Ht].
  assert (n = m).
  { eapply NoDup_lookup; [exact N| |]; rewrite list_lookup_fmap; [by rewrite Hs|by rewrite Ht, K]. }
  subst. congruence.
Qed.

(** ** Valid quarantine lists *)

Lemma quarantines_valid_spec i seen qs :
  quarantines_valid i seen qs = true <->
  NoDup (map qkey qs)
  /\ (forall q, q ∈ qs -> sourceKeyInIntent i (q_Source q) = true /\ validQuarantineReason (q_Reason q) = true
                          /\ invalid_claims (q_Source q) = false /\ qkey q ∉ seen).
Proof.
  revert seen. induction qs as [|q qs IH]; intros seen; cbn [quarantines_valid map].
  { split; [|done]. intros _. split; [constructor|]. intros q Hq. by apply not_elem_of_nil in Hq. }
  split.
  - intros E. branch E. props. apply IH in E as [N A]. split.
    + constructor; [|done]. intros (q' & K & Hq)%list_elem_of_fmap. destruct (A _ Hq) as (_ & _ & _ & X).
      unfold qkey in *. set_solver.
    + intros q' [->|Hq]%elem_of_cons; [done|]. destruct (A _ Hq) as (? & ? & ? & ?). split_and!; set_solver.
  - intros [N H]. apply NoDup_cons in N as [N1 N2]. destruct (H q) as (-> & -> & -> & X); [left|]. cbn.
    unfold qkey in X. rewrite bool_decide_eq_false_2 by done. apply IH. split; [done|]. intros q' Hq.
    destruct (H q') as (? & ? & ? & ?); [by right|]. split_and!; [done..|].
    intros [E|E]%elem_of_union; [|done]. apply elem_of_singleton in E. apply N1.
    apply list_elem_of_fmap. by exists q'.
Qed.

Lemma ValidateSourceQuarantines_spec i qs :
  ValidateSourceQuarantines i qs = None <-> Validate i = None /\ quarantines_valid i ∅ qs = true.
Proof. unfold ValidateSourceQuarantines. destruct (Validate i), (quarantines_valid i ∅ qs); naive_solver. Qed.

Lemma ValidateSourceQuarantines_nil i : Validate i = None -> ValidateSourceQuarantines i [] = None.
Proof. intros V. by apply ValidateSourceQuarantines_spec. Qed.

Lemma AddSourceQuarantine_spec i qs s reason qs' :
  AddSourceQuarantine i qs s reason = Ok qs' -> s ∈ i_Sources i ->
  ValidateSourceQuarantines i qs' = None /\ sourceKey s ∈ map qkey qs'
  /\ (if sourceKeyInQuarantines qs s then qs' = qs
      else qs' = qs ++ [{| q_Source := s; q_Reason := reason |}] /\ validQuarantineReason reason = true).
Proof.
  unfold AddSourceQuarantine. intros E Hs. destruct (Validate i) eqn:V; [done|].
  destruct (_ || _) eqn:G; [done|]. props.
  destruct (ValidateSourceQuarantines i qs) eqn:Q; [done|].
  change (existsb (fun entry => String.eqb (sourceKey (q_Source entry)) (sourceKey s)) qs)
    with (sourceKeyInQuarantines qs s) in E.
  destruct (sourceKeyInQuarantines qs s) eqn:K.
  { simplify_eq. split_and!; [done| |done]. by apply sourceKeyInQuarantines_spec. }
  case_match eqn:F; [|done]. simplify_eq. apply List.find_some in F as [F1 F2]. props.
  apply list_elem_of_In in F1. assert (s0 = s) by (by eapply valid_key_inj). subst s0.
  apply ValidateSourceQuarantines_spec in Q as [_ Q]. apply quarantines_valid_spec in Q as [N A].
  apply sourceKeyInQuarantines_false in K.
  split_and!; [|rewrite map_app; apply elem_of_app; right; by left|done|done].
  apply ValidateSourceQuarantines_spec. split; [done|]. apply quarantines_valid_spec. split.
  - rewrite map_app. apply NoDup_app. split_and!; [done| |by apply NoDup_singleton].
    intros k Hk Hq%list_elem_of_singleton. subst k. done.
  - intros q [Hq| ->%list_elem_of_singleton ]%elem_of_app; [by apply A|]. cbn.
    apply Validate_spec in V as (_ & _ & _ & V). apply sources_valid_spec in V as [_ V].
    destruct (V _ Hs). split_and!; [by apply sourceKeyInIntent_spec; exists s|done|done|set_solver].
Qed.

(** ** The choice of a source *)

Lemma select_loop_inl hello caps quarantined blocked l s :
  select_loop hello caps quarantined blocked l = inl s ->
  s ∈ l /\ sourceKey s ∉ quarantined /\ supports caps (src_Kind s) = true
  /\ (h_Offline hello = true -> src_Kind s = SourceOffline).
Proof.
  revert blocked. induction l as [|c l IH]; intros blocked E; cbn [select_loop] in E; [done|].
  unfold usable in E. destruct (bool_decide _) eqn:B.
  { apply IH in E as (? & ? & ? & ?). split_and!; [by right|done..]. }
  destruct (h_Offline hello && _) eqn:O.
  { apply IH in E as (? & ? & ? & ?). split_and!; [by right|done..]. }
  destruct (supports caps (src_Kind c)) eqn:U.
  - simplify_eq. props. split_and!; [by left|done|done|]. intros OFF. rewrite OFF in O. cbn in O. by props.
  - apply IH in E as (? & ? & ? & ?). split_and!; [by right|done..].
Qed.

(** Without a current source, the chosen one is a supported candidate of the
    intent that is not quarantined. *)
Lemma SelectSource_fresh i hello caps qs s :
  SelectSource i hello caps None qs = Ok s ->
  Validate i = None /\ s ∈ i_Sources i /\ sourceKey s ∉ map qkey qs /\ supports caps (src_Kind s) = true
  /\ (h_Offline hello = true -> src_Kind s = SourceOffline).
Proof.
  unfold SelectSource. destruct (Validate i); [done|]. destruct (ValidateSourceQuarantines i qs); [done|].
  destruct (handshake hello caps); [done|]. destruct (select_loop _ _ _ _ _) eqn:L.
  - intros E. simplify_eq. apply select_loop_inl in L as (? & K & ? & ?). split_and!; try done.
    unfold quarantined_keys in K. rewrite elem_of_list_to_set in K. exact K.
  - intros E. branch E.
Qed.

Lemma select_loop_nothing_quarantined hello caps l :
  select_loop hello caps ∅ false l
  = match negotiate_loop hello caps l with Some s => inl s | None => inr false end.
Proof.
  induction l as [|c l IH]; [done|]. cbn [select_loop negotiate_loop]. unfold usable.
  rewrite bool_decide_eq_false_2 by set_solver.
  destruct (h_Offline hello && _); [done|]. by destruct (supports _ _).
Qed.

Lemma selectFallback_spec b i hello caps qs reason s :
  selectFallback b i hello caps qs reason = Ok s ->
  s ∈ i_Sources i /\ fallback_allowed b qs reason s = true.
Proof.
  unfold selectFallback. destruct (i_Sources (with_sources _ _)) eqn:F; [done|]. intros E.
  apply SelectSource_fresh in E as (_ & E & _). cbn [i_Sources with_sources] in E.
  apply list_elem_of_In, List.filter_In in E as [E1 E2]. split; [by apply list_elem_of_In|done].
Qed.

(** ** Equality of lists and intents *)

Lemma pairs_equal (l k : list Z) :
  length l = length k -> forallb (fun p => fst p =? snd p) (combine l k) = true <-> l = k.
Proof.
  revert k. induction l as [|x l IH]; intros [|y k] L; try done. cbn [combine forallb fst snd].
  rewrite andb_true_iff, Z.eqb_eq, IH by (cbn in L; lia). naive_solver.
Qed.

Lemma pairs_same {A} `{EqDecision A} (l k : list A) :
  length l = length k -> forallb (fun p => bool_decide (fst p = snd p)) (combine l k) = true <-> l = k.
Proof.
  revert k. induction l as [|x l IH]; intros [|y k] L; try done. cbn [combine forallb fst snd].
  rewrite andb_true_iff, bool_decide_eq_true, IH by (cbn in L; lia). naive_solver.
Qed.

Lemma bytesEqual_spec a b : bytesEqual a b = true <-> a = b.
Proof.
  unfold bytesEqual. destruct (Nat.eqb_spec (length a) (length b)) as [E|E]; cbn [negb].
  - by apply pairs_equal.
  - split; [done|]. intros ->. done.
Qed.

Lemma sameQuarantines_spec a b : sameQuarantines a b = true <-> a = b.
Proof.
  unfold sameQuarantines. destruct (Nat.eqb_spec (length a) (length b)) as [E|E]; cbn [negb].
  - by apply pairs_same.
  - split; [done|]. intros ->. done.
Qed.

Lemma sameIntent_refl a : sameIntent a a = true.
Proof.
  unfold sameIntent. rewrite !String.eqb_refl, Z.eqb_refl, Nat.eqb_refl, bool_decide_eq_true_2 by done.
  by apply pairs_same.
Qed.

Lemma sameIntent_spec a b : sameIntent a b = true <-> a = b.
Proof.
  split; [|intros ->; apply sameIntent_refl]. destruct a as [i1 p1 v1 s1 d1 l1 g1], b as [i2 p2 v2 s2 d2 l2 g2].
  unfold sameIntent.
  cbn [i_ID i_PackageID i_Version i_Size i_Digests i_Sources i_Signature]. intros E. branch E. props.
  match goal with H : (length _ =? length _)%nat = true |- _ => apply Nat.eqb_eq in H end.
  apply pairs_same in E; [subst; congruence|done].
Qed.

Lemma sameSource_spec a b : sameSource a b = true <-> a = b.
Proof. apply bool_decide_eq_true. Qed.

(** ** Configured brokers *)

Lemma NewBroker_bounds cfg :
  0 < maxChunkBytes (NewBroker cfg) <= DefaultMaxChunkBytes
  /\ 0 < maxArtifactBytes (NewBroker cfg) <= DefaultMaxArtifactBytes
  /\ 0 < maxSourceSwitches (NewBroker cfg) <= DefaultMaxSourceSwitches
  /\ 1 <= minIndependentSources (NewBroker cfg) <= 2 /\ 0 < queue_cap (NewBroker cfg).
Proof.
  unfold NewBroker. cbn -[DefaultMaxChunkBytes DefaultMaxArtifactBytes].
  assert (0 < DefaultMaxChunkBytes) by (by compute). assert (0 < DefaultMaxArtifactBytes) by (by compute).
  unfold DefaultMaxSourceSwitches.
  repeat match goal with |- context [if ?x then _ else _] => destruct x eqn:? end; props; lia.
Qed.

(** ** What the transition guard of the resume stores admits

    [ValidateResumeTransition] against a declarative list of the ways a job
    may evolve, and the consequence that a job changes its source a bounded
    number of times. *)

(** ** Well-typed records *)

Record typed (s : ResumeState) : Prop := {
  ty_intent : Validate (st_Intent s) = None;
  ty_bytes : zlen (st_Data s) = st_NextOffset s;
  ty_size : st_NextOffset s <= i_Size (st_Intent s);
  ty_source : st_Source s ∈ i_Sources (st_Intent s);
  ty_quarantines : ValidateSourceQuarantines (st_Intent s) (st_QuarantinedSources s) = None;
  ty_switches : st_SourceSwitches s = zlen (st_QuarantinedSources s);
  ty_limit : st_SourceSwitches s <= st_MaxSourceSwitches s;
  ty_max : 0 < st_MaxSourceSwitches s <= DefaultMaxSourceSwitches
}.

(** The source of the record is quarantined. *)
Definition suspended (s : ResumeState) : bool := sourceKeyInQuarantines (st_QuarantinedSources s) (st_Source s).

(** The bytes that survive the quarantine of a source for a reason. *)
Definition surviving (reason : QuarantineReason) (data : list Z) : list Z :=
  if String.eqb reason QuarantineIntegrity then [] else data.

(** What no step changes, and time. *)
Record frozen (current next : ResumeState) : Prop := {
  fr_id : st_JobID current = st_JobID next;
  fr_intent : st_Intent current = st_Intent next;
  fr_chunk : st_MaxChunk current = st_MaxChunk next;
  fr_limit : st_MaxSourceSwitches current = st_MaxSourceSwitches next;
  fr_time : st_UpdatedAt current <= st_UpdatedAt next
}.

Record running (s : ResumeState) : Prop := {
  ru_complete : st_Complete s = false;
  ru_failed : st_Failed s = false;
  ru_failure : st_Failure s = "";
  ru_source : suspended s = false
}.

(** One more quarantined source: the current one. *)
Definition suspends (current next : ResumeState) (q : SourceQuarantine) : Prop :=
  st_QuarantinedSources next = st_QuarantinedSources current ++ [q]
  /\ qkey q = sourceKey (st_Source current) /\ suspended current = false.

Inductive evolves (current next : ResumeState) : Prop :=
| Grow extra :
    st_Source next = st_Source current ->
    st_QuarantinedSources next = st_QuarantinedSources current ->
    st_Failed current = false ->
    st_Data next = st_Data current ++ extra ->
    (extra = [] -> st_Complete next = true \/ st_Failed next = true) ->
    evolves current next
| Exhaust q :
    suspends current next q ->
    st_Source next = st_Source current ->
    st_Failed current = false ->
    st_Data next = st_Data current ->
    st_Failed next = true -> st_Complete next = false -> st_Failure next <> "" ->
    evolves current next
| Move q :
    suspends current next q ->
    st_Source next <> st_Source current ->
    st_Failed current = false ->
    st_Data next = surviving (q_Reason q) (st_Data current) ->
    running next ->
    evolves current next
| Reselect reason :
    length (st_QuarantinedSources next) = length (st_QuarantinedSources current) ->
    st_Source next <> st_Source current ->
    suspended current = true ->
    quarantineReasonFor (st_QuarantinedSources current) (st_Source current) = Some reason ->
    st_Data next = surviving reason (st_Data current) ->
    running next ->
    evolves current next.

(** ** The guard *)

Lemma zlen_nonneg {A} (l : list A) : 0 <= zlen l.
Proof. unfold zlen. lia. Qed.

Lemma zlen_app {A} (l k : list A) : zlen (l ++ k) = zlen l + zlen k.
Proof. unfold zlen. rewrite length_app. lia. Qed.

Lemma zlen_nil {A} (l : list A) : zlen l = 0 <-> l = [].
Proof. unfold zlen. destruct l; [done|]. split; [cbn; lia|done]. Qed.

Lemma zlen_prefix {A} (l k : list A) : take (Z.to_nat (zlen l)) (l ++ k) = l.
Proof. unfold zlen. by rewrite Nat2Z.id, take_app_length. Qed.

Lemma switches_small n : 0 <= n <= 3 -> i64 (n + 1) = n + 1.
Proof. intros H. apply i64_small. unfold in_i64, min_int64, max_int64. lia. Qed.

Lemma typed_offset s : typed s -> 0 <= st_NextOffset s.
Proof. intros T. rewrite <- (ty_bytes _ T). apply zlen_nonneg. Qed.

Lemma typed_switches s : typed s -> 0 <= st_SourceSwitches s <= 3.
Proof.
  intros T. pose proof (ty_limit _ T). pose proof (ty_max _ T). unfold DefaultMaxSourceSwitches in *.
  rewrite (ty_switches _ T) in *. pose proof (zlen_nonneg (st_QuarantinedSources s)). lia.
Qed.

(** Equal offsets and bytes of well-typed records. *)
Lemma unchanged_spec current next :
  typed current -> typed next ->
  negb (st_NextOffset next =? st_NextOffset current) || negb (bytesEqual (st_Data next) (st_Data current)) = false
  <-> st_Data next = st_Data current.
Proof.
  intros T U. rewrite <- (ty_bytes _ T), <- (ty_bytes _ U), orb_false_iff, !negb_false_iff, Z.eqb_eq, bytesEqual_spec.
  split; [tauto|]. intros ->. done.
Qed.

Lemma discarded_spec next :
  typed next ->
  negb (st_NextOffset next =? 0) || negb (zlen (st_Data next) =? 0) = false <-> st_Data next = [].
Proof.
  intros U. rewrite <- (ty_bytes _ U), orb_false_iff, !negb_false_iff, Z.eqb_eq, zlen_nil. tauto.
Qed.

(** The bytes after a quarantine, as both branches check them. *)
Lemma surviving_spec reason current next :
  typed current -> typed next ->
  (if String.eqb reason QuarantineIntegrity then
     if negb (st_NextOffset next =? 0) || negb (zlen (st_Data next) =? 0) then Some ErrResumeOffsetConflict else None
   else if negb (st_NextOffset next =? st_NextOffset current) || negb (bytesEqual (st_Data next) (st_Data current))
        then Some ErrResumeOffsetConflict else None) = None
  <-> st_Data next = surviving reason (st_Data current).
Proof.
  intros T U. unfold surviving. destruct (String.eqb reason QuarantineIntegrity).
  - rewrite guard_None, discarded_spec by done. tauto.
  - rewrite guard_None, unchanged_spec by done. tauto.
Qed.

(** The branches that refuse a next record that is not running. *)
Lemma running_spec next :
  st_Complete next || st_Failed next || negb (String.eqb (st_Failure next) "") || suspended next = false
  <-> running next.
Proof.
  rewrite !orb_false_iff, negb_false_iff, String.eqb_eq. split; [intros [[[? ?] ?] ?]; by split|intros []; tauto].
Qed.

Section Guard.
Context (current next : ResumeState).
Context (T : typed current) (U : typed next).

Lemma suspends_spec :
  length (st_QuarantinedSources next) = (length (st_QuarantinedSources current) + 1)%nat ->
  st_MaxSourceSwitches current = st_MaxSourceSwitches next ->
  negb (st_SourceSwitches next =? i64 (st_SourceSwitches current + 1))
  || negb (st_SourceSwitches next =? zlen (st_QuarantinedSources next))
  || (st_MaxSourceSwitches next <? st_SourceSwitches next)
  || negb (sameQuarantines (st_QuarantinedSources current)
             (take (length (st_QuarantinedSources current)) (st_QuarantinedSources next))) = false
  <-> exists q, st_QuarantinedSources next = st_QuarantinedSources current ++ [q].
Proof.
  intros L M. rewrite !orb_false_iff, !negb_false_iff, !Z.eqb_eq, Z.ltb_ge, sameQuarantines_spec.
  pose proof (ty_limit _ U). pose proof (ty_switches _ U) as S1. pose proof (ty_switches _ T) as S2.
  pose proof (typed_switches _ T). rewrite switches_small by done. split.
  - intros (_ & E). rewrite <- (take_drop (length (st_QuarantinedSources current)) (st_QuarantinedSources next)), <- E.
    assert (length (drop (length (st_QuarantinedSources current)) (st_QuarantinedSources next)) = 1%nat)
      by (rewrite length_drop; lia).
    destruct (drop _ _) as [|q [|]]; try done. by exists q.
  - intros [q E]. rewrite E, take_app_length. unfold zlen in *. rewrite E, length_app in S1. cbn in S1.
    rewrite length_app. cbn. split_and!; try done; lia.
Qed.

Lemma switch_transition_spec :
  length (st_QuarantinedSources next) = (length (st_QuarantinedSources current) + 1)%nat ->
  st_MaxSourceSwitches current = st_MaxSourceSwitches next ->
  switch_transition (st_MaxSourceSwitches next) current next = None
  <-> exists q, suspends current next q
      /\ (st_Source next = st_Source current /\ st_Data next = st_Data current /\ st_Failed next = true
          /\ st_Complete next = false /\ st_Failure next <> ""
          \/ st_Source next <> st_Source current
             /\ st_Data next = surviving (q_Reason q) (st_Data current) /\ running next).
Proof.
  intros L M. unfold switch_transition. rewrite guard_None, suspends_spec by done.
  assert (Q : forall q, st_QuarantinedSources next = st_QuarantinedSources current ++ [q] ->
    st_QuarantinedSources next !! length (st_QuarantinedSources current) = Some q
    /\ validQuarantineReason (q_Reason q) = true).
  { intros q E. split; [by rewrite E, list_lookup_middle|].
    pose proof (ty_quarantines _ U) as [_ V]%ValidateSourceQuarantines_spec.
    apply quarantines_valid_spec in V as [_ V]. destruct (V q) as (_ & ? & _); [|done].
    rewrite E. apply elem_of_app. right. by left. }
  assert (K : forall q, qkey q = sourceKey (st_Source current) ->
    sourceKeyInQuarantines (st_QuarantinedSources current) (q_Source q) = suspended current).
  { intros q E. unfold suspended, sourceKeyInQuarantines, qkey in *. by rewrite E. }
  split.
  - intros [[q E] R]. destruct (Q q E) as [Q1 Q2]. rewrite Q1, Q2 in R. apply guard_None in R as [G R].
    cbn [negb] in G. rewrite orb_false_r in G. apply orb_false_iff in G as [G1 G2]. apply negb_false_iff, String.eqb_eq in G1.
    rewrite (K q G1) in G2. exists q. split; [done|]. destruct (sameSource _ _) eqn:S.
    + apply sameSource_spec in S. left. apply guard_None in R as [R _].
      rewrite orb_false_iff, unchanged_spec in R by done. destruct R as [R D]. props. by split_and!.
    + right. rewrite <- not_true_iff_false, sameSource_spec in S. apply guard_None in R as [R1 R2].
      apply running_spec in R1. by rewrite surviving_spec in R2 by done.
  - intros (q & (E & E1 & E2) & R). split; [by exists q|]. destruct (Q q E) as [-> ->]. rewrite (K q E1), E2.
    unfold qkey in E1. rewrite E1, String.eqb_refl. cbn [negb orb].
    destruct R as [(-> & D & -> & -> & F)|(S & D & R)].
    + rewrite (proj2 (sameSource_spec _ _) eq_refl), (proj2 (String.eqb_neq _ _) F), (proj2 (unchanged_spec _ _ T U) D).
      done.
    + rewrite <- sameSource_spec, not_true_iff_false in S. unfold sameSource in *.
      rewrite bool_decide_eq_false in S. rewrite bool_decide_eq_false_2 by congruence.
      fold (suspended next). rewrite (proj2 (running_spec next) R). by apply surviving_spec.
Qed.

Lemma reselect_transition_spec :
  length (st_QuarantinedSources next) = length (st_QuarantinedSources current) ->
  reselect_transition current next = None
  <-> suspended current = true
      /\ exists reason, quarantineReasonFor (st_QuarantinedSources current) (st_Source current) = Some reason
         /\ st_Data next = surviving reason (st_Data current) /\ running next.
Proof.
  intros L. assert (S : st_SourceSwitches next = st_SourceSwitches current).
  { rewrite (ty_switches _ T), (ty_switches _ U). unfold zlen. lia. }
  unfold reselect_transition. rewrite guard_None, S, Z.eqb_refl, !orb_false_iff, !negb_false_iff.
  fold (suspended current). fold (suspended next). pose proof (running_spec next) as R.
  rewrite !orb_false_iff, negb_false_iff in R. destruct (quarantineReasonFor _ _) as [reason|].
  - rewrite surviving_spec by done. split; [intros ((((((A & B) & _) & C) & D) & E) & F)|intros (A & ? & [= <-] & F & G%R)].
    + split; [done|]. exists reason. split_and!; [done|done|]. apply R. tauto.
    + tauto.
  - split; [intros [_ ?]; done|]. intros (_ & ? & ? & _). done.
Qed.

Lemma append_transition_spec :
  append_transition current next = None
  <-> st_Source next = st_Source current /\ st_QuarantinedSources next = st_QuarantinedSources current
      /\ exists extra, st_Data next = st_Data current ++ extra
                       /\ (extra = [] -> st_Complete next = true \/ st_Failed next = true).
Proof.
  unfold append_transition. rewrite !guard_None, !orb_false_iff, !negb_false_iff, sameSource_spec, sameQuarantines_spec,
    Z.eqb_eq, !Z.ltb_ge, bytesEqual_spec. rewrite <- (ty_bytes _ T), <- (ty_bytes _ U).
  pose proof (ty_switches _ T) as S1. pose proof (ty_switches _ U) as S2. split.
  - intros (((A & _) & B) & ((_ & C) & D) & E & _). split_and!; [done..|].
    pose proof (take_drop (Z.to_nat (zlen (st_Data current))) (st_Data next)) as TD. rewrite D in TD.
    exists (drop (Z.to_nat (zlen (st_Data current))) (st_Data next)). split; [done|].
    intros N. rewrite N, app_nil_r in TD. rewrite TD, Z.eqb_refl in E.
    destruct (st_Complete next), (st_Failed next); auto.
  - intros (A & B & extra & E & N). rewrite E, zlen_prefix, zlen_app. pose proof (zlen_nonneg extra).
    split_and!; try done; try lia; [rewrite S1, S2; by rewrite B|].
    destruct extra as [|x extra].
    + destruct N as [N|N]; [done|rewrite N..]; cbn [negb]; by rewrite ?andb_false_r.
    + assert (zlen (x :: extra) <> 0) by (by rewrite zlen_nil). apply andb_false_iff. left.
      apply andb_false_iff. left. apply Z.eqb_neq. lia.
Qed.
End Guard.

(** The checks before the branches, on well-typed records. *)
Definition retry_refused (current next : ResumeState) : bool :=
  st_Failed current && (sameSource (st_Source current) (st_Source next) || negb (suspended current)).

Definition branch_of (current next : ResumeState) : option error :=
  if (length (st_QuarantinedSources next) =? length (st_QuarantinedSources current) + 1)%nat
  then switch_transition (st_MaxSourceSwitches next) current next
  else if negb (sameSource (st_Source current) (st_Source next))
          && (length (st_QuarantinedSources next) =? length (st_QuarantinedSources current))%nat
  then reselect_transition current next
  else append_transition current next.

Lemma sameImmutableState_spec current next :
  typed current -> typed next ->
  sameImmutableState current next = true
  <-> st_JobID current = st_JobID next /\ st_Intent current = st_Intent next /\ st_MaxChunk current = st_MaxChunk next
      /\ st_MaxSourceSwitches current = st_MaxSourceSwitches next.
Proof.
  intros T U. pose proof (ty_max _ T). pose proof (ty_max _ U). unfold sameImmutableState.
  rewrite !andb_true_iff, !orb_true_iff, String.eqb_eq, sameIntent_spec, !Z.eqb_eq. split; [|tauto].
  intros [[[? ?] ?] [[? | ?] | ?]]; split_and!; try done; lia.
Qed.

Lemma guard_typed current next :
  typed current -> typed next ->
  ValidateResumeTransition current next = None
  <-> frozen current next /\ retry_refused current next = false /\ branch_of current next = None.
Proof.
  intros T U. unfold ValidateResumeTransition. pose proof (ty_max _ T). pose proof (ty_max _ U).
  pose proof (ty_size _ T). pose proof (ty_size _ U). pose proof (typed_offset _ T). pose proof (typed_offset _ U).
  rewrite guard_None, negb_false_iff, sameImmutableState_spec by done.
  rewrite (proj2 (Z.eqb_eq _ _) (ty_bytes _ T)), (proj2 (Z.eqb_eq _ _) (ty_bytes _ U)).
  rewrite (ty_quarantines _ T), (ty_quarantines _ U).
  rewrite (proj2 (sourceInIntent_spec _ _) (ty_source _ T)), (proj2 (sourceInIntent_spec _ _) (ty_source _ U)).
  rewrite !(proj2 (Z.ltb_ge _ 0)) by lia. rewrite !(proj2 (Z.ltb_ge (i_Size _) _)) by done. cbn [negb orb].
  rewrite guard_None. unfold Before at 1. rewrite Z.ltb_ge.
  rewrite (proj2 (Z.leb_gt (st_MaxSourceSwitches current) 0)), (proj2 (Z.ltb_ge DefaultMaxSourceSwitches _)) by lia.
  rewrite (proj2 (Z.eqb_neq (st_MaxSourceSwitches next) 0)) by lia. cbn [orb].
  fold (suspended current). fold (retry_refused current next). fold (branch_of current next).
  rewrite (proj2 (Z.ltb_ge (st_MaxSourceSwitches next) 0)) by lia. cbn [orb].
  rewrite !guard_None, Z.ltb_ge. split.
  - intros ((? & ? & ? & ?) & ? & _ & ? & ?). split_and!; [by split|done|done].
  - intros ([? ? ? M ?] & ? & ?). split_and!; try done. lia.
Qed.

Lemma evolves_retry current next : evolves current next -> retry_refused current next = false.
Proof.
  unfold retry_refused. intros [? ? ? ->|? ? ? ->|? ? ? ->|? ? S ->]; try done.
  rewrite orb_false_r. apply andb_false_iff. right. apply not_true_iff_false. rewrite sameSource_spec. congruence.
Qed.

Lemma branch_evolves current next :
  typed current -> typed next -> frozen current next -> retry_refused current next = false ->
  branch_of current next = None <-> evolves current next.
Proof.
  intros T U F R. pose proof (fr_limit _ _ F) as M. unfold branch_of, retry_refused in *.
  destruct (Nat.eqb_spec (length (st_QuarantinedSources next)) (length (st_QuarantinedSources current) + 1)) as [L|L].
  - rewrite switch_transition_spec by done. split.
    + intros (q & S & [(E & D & X & Y & Z)|(E & D & X)]).
      * eapply Exhaust; try done. destruct S as (_ & _ & S). rewrite S in R. by rewrite orb_true_r, andb_true_r in R.
      * eapply Move; try done. destruct S as (_ & _ & S). rewrite S in R. by rewrite orb_true_r, andb_true_r in R.
    + intros [x E Q|q S E N D X Y Z|q S E N D X|q Q]; [rewrite Q in L; lia| | |lia].
      * exists q. split; [done|]. left. by split_and!.
      * exists q. split; [done|]. right. by split_and!.
  - destruct (negb _ && _) eqn:B.
    + apply andb_true_iff in B as [B1 B2]. apply Nat.eqb_eq in B2.
      apply negb_true_iff, not_true_iff_false in B1. rewrite sameSource_spec in B1.
      rewrite reselect_transition_spec by done. split.
      * intros (S & reason & Q & D & X). eapply Reselect; try done; congruence.
      * intros [x E|q [E _]|q [E _]|reason Q E S X D Y]; [congruence|rewrite E, length_app in L; cbn in L; lia..|].
        split; [done|]. by exists reason.
    + rewrite append_transition_spec by done. split.
      * intros (E & Q & x & D & N). eapply Grow; try done. destruct (st_Failed current) eqn:FC; [|done].
        cbn [andb] in R. rewrite E, (proj2 (sameSource_spec _ _) eq_refl) in R. done.
      * intros [x E Q N D X|q [E _]|q [E _]|reason Q E]; [by eauto|rewrite E, length_app in L; cbn in L; lia..|].
        apply andb_false_iff in B as [B|B].
        -- apply negb_false_iff, sameSource_spec in B. congruence.
        -- apply Nat.eqb_neq in B. congruence.
Qed.

Lemma transition_guard_admits current next :
  typed current -> typed next -> ValidateResumeTransition current next = None ->
  frozen current next /\ evolves current next.
Proof. intros T U (F & R & G)%guard_typed; [|done|done]. split; [done|]. by apply branch_evolves. Qed.

(** C14. Between well-typed records, the transition guard that both resume
    stores share admits exactly the listed evolutions of one job: its source
    appends bytes or ends the job, its source is quarantined without an
    alternative, it moves to another source under a new quarantine, or it
    moves under the recorded one; an integrity failure discards the bytes and
    every other move keeps them. *)
Theorem transition_guard_exact current next :
  typed current -> typed next ->
  ValidateResumeTransition current next = None <-> frozen current next /\ evolves current next.
Proof.
  intros T U. rewrite guard_typed by done. split.
  - intros (F & R & G). split; [done|]. by apply branch_evolves.
  - intros [F E]. pose proof (evolves_retry _ _ E). split_and!; [done|done|by apply branch_evolves].
Qed.
