(* ===== verification/CwedpSafety.v ===== *)
(** * Safety of the distribution brokers

    Whatever the interleaving of the operations of any number of brokers over
    a lawful store: a complete job holds exactly the bytes that its intent
    names, a job only evolves in the listed ways, and it changes its source at
    most as often as it has quarantined one. *)

From S2P Require Import Prelude GoText Sha256 Cwedp CwedpBroker CwedpGuard.

Open Scope string_scope.
Open Scope list_scope.
Open Scope Z_scope.

(** ** The records that brokers write *)

Record job_ok (id : string) (s : ResumeState) : Prop := {
  jo_typed : typed s;
  jo_id : st_JobID s = id;
  jo_key : i_ID (st_Intent s) = id;
  jo_chunk : 0 < st_MaxChunk s <= DefaultMaxChunkBytes;
  jo_complete : st_Complete s = true ->
    st_NextOffset s = i_Size (st_Intent s) /\ VerifyDigests (st_Data s) (i_Digests (st_Intent s)) = None;
  jo_source : st_Failed s = false -> suspended s = false
}.

Lemma typed_time now s : typed s -> typed (set_updated_at now s).
Proof. intros []. by split. Qed.

Lemma job_ok_time now id s : job_ok id s -> job_ok id (set_updated_at now s).
Proof. intros []. split; try done; by apply typed_time. Qed.

(** Ending a job as failed. *)
Lemma job_ok_failed now failure id s :
  job_ok id s -> job_ok id (set_updated_at now (set_outcome (st_Complete s) true failure s)).
Proof. intros [[]]. split; try done; by split. Qed.

Lemma job_ok_finished id s :
  job_ok id s -> st_Failed s = false ->
  st_NextOffset s = i_Size (st_Intent s) -> VerifyDigests (st_Data s) (i_Digests (st_Intent s)) = None ->
  job_ok id (set_outcome true (st_Failed s) (st_Failure s) s).
Proof. intros [[]] F E V. split; try done; by split. Qed.

Lemma job_ok_appended id req s :
  job_ok id s -> st_Complete s = false -> misplaced req s = false -> job_ok id (appended req s).
Proof.
  intros J C M. unfold misplaced in M. props. destruct J as [[] ? ? ? ? ?]. split; try done.
  - split; try done; cbn.
    + rewrite zlen_app. lia.
    + lia.
  - cbn. congruence.
Qed.

Lemma job_ok_first cfg req source now caps_source :
  Validate (tr_Intent req) = None ->
  Negotiate (tr_Intent req) (tr_Hello req) (tr_Capabilities req) = Ok caps_source ->
  source ∈ i_Sources (tr_Intent req) ->
  job_ok (i_ID (tr_Intent req)) (first_state (NewBroker cfg) req source now).
Proof.
  intros V N S. destruct (NewBroker_bounds cfg) as (B1 & _ & B2 & _). split; try done.
  - destruct (Validate_spec _ V) as (Z1 & _). constructor.
    + done.
    + done.
    + exact (proj1 Z1).
    + done.
    + by apply ValidateSourceQuarantines_nil.
    + done.
    + change (0 <= maxSourceSwitches (NewBroker cfg)). clear - B2. lia.
    + exact B2.
  - cbn [st_MaxChunk first_state]. unfold Negotiate in N. rewrite V in N. unfold handshake in N.
    destruct (Hello_Validate _); [done|]. destruct (Capabilities_Validate _) eqn:C; [done|].
    unfold Capabilities_Validate in C. apply guard_None in C as [C _]. props. unfold minInt64.
    destruct (_ <? _) eqn:E; props; lia.
Qed.

(** Failing over *)

Section Quarantining.
Context (b : Broker) (id : string) (s : ResumeState) (reason : QuarantineReason) (qs : list SourceQuarantine).
Context (J : job_ok id s).
Context (limited : suspended s = false -> st_SourceSwitches s < st_MaxSourceSwitches s).
Context (added : AddSourceQuarantine (st_Intent s) (st_QuarantinedSources s) (st_Source s) reason = Ok qs).

Lemma counted_spec :
  counted (suspended s) (st_SourceSwitches s) = zlen qs /\ zlen qs <= st_MaxSourceSwitches s.
Proof.
  pose proof (jo_typed _ _ J) as T. destruct (AddSourceQuarantine_spec _ _ _ _ _ added (ty_source _ T)) as (_ & _ & E).
  unfold counted. fold (suspended s) in E. pose proof (typed_switches _ T). pose proof (ty_limit _ T).
  destruct (suspended s).
  - subst qs. by rewrite <- (ty_switches _ T).
  - destruct E as [-> _]. rewrite switches_small, zlen_app, <- (ty_switches _ T) by done. specialize (limited eq_refl).
    split; [done|]. unfold zlen at 1. cbn. lia.
Qed.

Lemma job_ok_exhausted err now : st_Complete s = false -> job_ok id (exhausted_state qs (suspended s) err now s).
Proof.
  intros C. pose proof (jo_typed _ _ J) as T.
  destruct (AddSourceQuarantine_spec _ _ _ _ _ added (ty_source _ T)) as (Q & _ & _).
  destruct counted_spec as [E L]. destruct J as [[] ? ? ? ? ?]. split; try done.
  split; try done. cbn. by rewrite E.
Qed.

Lemma job_ok_switched next now :
  next ∈ i_Sources (st_Intent s) -> sourceKeyInQuarantines qs next = false ->
  st_Complete s = false -> job_ok id (switched_state qs (suspended s) reason next now s).
Proof.
  intros S K C. pose proof (jo_typed _ _ J) as T.
  destruct (AddSourceQuarantine_spec _ _ _ _ _ added (ty_source _ T)) as (Q & _ & _).
  destruct counted_spec as [E L]. destruct (Validate_spec _ (ty_intent _ T)) as (Z1 & _).
  destruct J as [[] ? ? ? ? ?]. unfold switched_state.
  case_match; (split; [split|..]); try done; cbn; try lia; try congruence.
Qed.
End Quarantining.

(** ** Triples

    A program is safe when every record it saves is one that brokers write,
    given that every record it loads is. *)

Definition pre (a : Act) : Prop :=
  match a with ASave _ _ s => job_ok (st_JobID s) s | _ => True end.

Definition post (a : Act) : reply a -> Prop :=
  match a with
  | ALoad _ _ => fun r => match r with Ok s => job_ok (st_JobID s) s | Err _ => True end
  | _ => fun _ => True
  end.

Fixpoint wp {A} (p : Prog A) (Q : A -> Prop) : Prop :=
  match p with
  | Ret a => Q a
  | Do a k => pre a /\ forall r, post a r -> wp (k r) Q
  end.

Lemma wp_bind {A B} (p : Prog A) (f : A -> Prog B) Q : wp p (fun a => wp (f a) Q) -> wp (p ≫= f) Q.
Proof.
  unfold mbind, Prog_bind. induction p as [a|a k IH]; cbn [wp bind]; [done|].
  intros [P H]. split; [done|]. intros r R. by apply IH, H.
Qed.

Lemma wp_mono {A} (p : Prog A) (Q R : A -> Prop) : (forall a, Q a -> R a) -> wp p Q -> wp p R.
Proof.
  intros M. induction p as [a|a k IH]; cbn [wp]; [apply M|]. intros [P H]. split; [done|]. intros r X. by apply IH, H.
Qed.

Lemma wp_call a Q : pre a -> (forall r, post a r -> Q r) -> wp (call a) Q.
Proof. by split. Qed.

(** The calls other than loads and saves. *)
Ltac wp_call_any := apply wp_bind, wp_call; [done|]; intros ? _.

Section Operations.
Context (cfg : BrokerConfig).

Let b : Broker := NewBroker cfg.

Lemma wp_load {B} ctx id (f : result error ResumeState -> Prog B) Q :
  (forall s, job_ok (st_JobID s) s -> wp (f (Ok s)) Q) -> (forall e, wp (f (Err e)) Q) ->
  wp (call (ALoad ctx id) ≫= f) Q.
Proof. intros H1 H2. apply wp_bind, wp_call; [done|]. intros [s|e] J; [by apply H1|apply H2]. Qed.

Lemma wp_save {B} ctx expected s (f : option error -> Prog B) Q :
  job_ok (st_JobID s) s -> (forall r, wp (f r) Q) -> wp (saveState b ctx expected s ≫= f) Q.
Proof.
  intros J H. apply wp_bind. unfold saveState. destruct (store b); try apply H. apply wp_call; [done|]. intros r _. apply H.
Qed.

Lemma wp_validateRequest {B} req (f : option error -> Prog B) Q :
  (forall e, wp (f (Some e)) Q) ->
  (forall s, Validate (tr_Intent req) = None ->
             Negotiate (tr_Intent req) (tr_Hello req) (tr_Capabilities req) = Ok s -> wp (f None) Q) ->
  wp (validateRequest b req ≫= f) Q.
Proof.
  intros H1 H2. apply wp_bind. unfold validateRequest.
  destruct (_ || negb (verifier b)); [apply H1|]. destruct (match store b with AtomicStore => _ | _ => _ end); [apply H1|].
  destruct (Validate _) eqn:V; [apply H1|]. destruct (_ <? _); [apply H1|].
  destruct (Negotiate _ _ _) eqn:N; [|apply H1]. destruct (ValidateSourceIndependenceWithMinimum _ _ _); [apply H1|].
  destruct (negb _); [apply H1|]. apply wp_call; [done|]. intros [e|] _; [apply H1|by eapply H2].
Qed.

Lemma wp_continue_job req s Q : (forall r, Q r) -> wp (continue_job req s) Q.
Proof. intros H. unfold continue_job. wp_call_any. apply H. Qed.

Lemma wp_Submit req Q : (forall r, Q r) -> wp (Submit b req) Q.
Proof.
  intros H. apply wp_validateRequest; [intros; apply H|]. intros s0 V N.
  destruct (SelectSource _ _ _ _ _) eqn:S; [|apply H]. case_match; [apply H|]. apply wp_load.
  - intros s _. case_match; [apply H|]. case_match; [apply H|]. by apply wp_continue_job.
  - intros e. case_match; [apply H|]. apply SelectSource_fresh in S as (_ & S & _).
    unfold create_job. wp_call_any. apply wp_save.
    + by eapply job_ok_first.
    + intros [err|]; [|wp_call_any; apply H]. apply wp_load; [|intros; apply H]. intros s' _.
      case_match; [by apply wp_continue_job|apply H].
Qed.

Lemma wp_Resume id req Q : (forall r, Q r) -> wp (Resume b id req) Q.
Proof.
  intros H. apply wp_validateRequest; [intros; apply H|]. intros _ _ _. apply wp_load; [|intros; apply H].
  intros s _. case_match; [apply H|]. case_match; [apply H|]. case_match; [apply H|]. wp_call_any. apply H.
Qed.

Lemma wp_save_or expected s err Q : job_ok (st_JobID s) s -> (forall r, Q r) -> wp (save_or b expected s err) Q.
Proof. intros J H. apply wp_save; [done|]. intros [e|]; apply H. Qed.

Lemma wp_quarantine_loaded id req failed reason s Q :
  job_ok (st_JobID s) s -> (forall r, Q r) -> wp (quarantine_loaded b id req failed reason s) Q.
Proof.
  intros J H. pose proof (jo_typed _ _ J) as T. unfold quarantine_loaded.
  destruct (_ || _); [apply H|]. destruct (negb _); [apply H|]. destruct (st_Complete s) eqn:C; [apply H|].
  fold (suspended s). destruct (st_Failed s && _); [apply H|].
  pose proof (ty_max _ T). rewrite (proj2 (Z.leb_gt _ 0)) by lia. destruct ((_ <=? _) && _) eqn:L.
  { wp_call_any. apply wp_save_or; [|done]. rewrite (jo_id _ _ (job_ok_failed _ _ _ _ J)). by apply job_ok_failed. }
  assert (limited : suspended s = false -> st_SourceSwitches s < st_MaxSourceSwitches s).
  { intros E. rewrite E in L. cbn [negb] in L. rewrite andb_true_r in L. case_match; props; lia. }
  destruct (AddSourceQuarantine _ _ _ _) as [qs|] eqn:A; [|apply H].
  destruct (selectFallback _ _ _ _ _ _) as [next|e] eqn:S; wp_call_any.
  - apply selectFallback_spec in S as [S1 S2].
    assert (M : job_ok (st_JobID s) (switched_state qs (suspended s) reason next r s)).
    { eapply job_ok_switched; try done. unfold fallback_allowed in S2. by case_match. }
    apply wp_save; [by rewrite (jo_id _ _ M)|]. intros [e|]; [apply H|]. wp_call_any. apply H.
  - apply wp_save_or; [|done]. rewrite (jo_id _ _ (job_ok_exhausted _ s reason qs J limited A e r C)).
    by eapply job_ok_exhausted.
Qed.

Lemma wp_QuarantineSource id req failed reason Q :
  (forall r, Q r) -> wp (QuarantineSource b id req failed reason) Q.
Proof.
  intros H. apply wp_validateRequest; [intros; apply H|]. intros _ _ _. apply wp_load; [|intros; apply H].
  intros s J. by apply wp_quarantine_loaded.
Qed.

Lemma wp_Push id offset data Q : (forall r, Q r) -> wp (Push b id offset data) Q.
Proof.
  intros H. unfold Push. wp_call_any. case_match; [|apply H]. case_match; [apply H|]. case_match; [apply H|].
  wp_call_any. apply H.
Qed.

Lemma wp_finish id key expected err s Q :
  job_ok key s -> Q tt -> wp (finish b id expected err s) Q.
Proof.
  intros J H. unfold finish. wp_call_any. apply wp_save.
  - destruct err; [rewrite (jo_id _ _ (job_ok_failed _ _ _ _ J)); by apply job_ok_failed|].
    rewrite (jo_id _ _ (job_ok_time _ _ _ J)). by apply job_ok_time.
  - intros [e|]; [case_match|]; apply wp_call; try done; by intros [] _.
Qed.

Lemma wp_process_loaded req s Q : job_ok (st_JobID s) s -> Q tt -> wp (process_loaded b req s) Q.
Proof.
  intros J H. assert (E : forall id r, wp (call (AEmit id r)) Q) by (intros; apply wp_call; [done|]; by intros [] _).
  unfold process_loaded. case_match.
  { wp_call_any. apply wp_save; [|intros [e|]; apply E].
    rewrite (jo_id _ _ (job_ok_failed _ _ _ _ J)). by apply job_ok_failed. }
  destruct (st_Complete s) eqn:C; [apply E|]. destruct (st_Failed s) eqn:F; [apply E|]. cbn [orb].
  destruct (misplaced req s) eqn:M; [by eapply wp_finish|]. pose proof (job_ok_appended _ _ _ J C M) as J'.
  case_match; [|by eapply wp_finish]. destruct (VerifyDigests _ _) eqn:V.
  - unfold mismatch. wp_call_any. case_match; [|by eapply wp_finish]. apply wp_bind, wp_QuarantineSource. intros switched.
    apply wp_load; [|intros; by eapply wp_finish]. intros s' _. case_match; apply E.
  - props. eapply wp_finish; [|done]. by apply job_ok_finished.
Qed.

Lemma wp_process req Q : Q tt -> wp (process b req) Q.
Proof.
  intros H. apply wp_load; [intros s J; by apply wp_process_loaded|]. intros e. apply wp_call; [done|]. by intros [] _.
Qed.

Lemma wp_Start n Q : Q tt -> wp (Start b n) Q.
Proof.
  intros H. induction n as [|n IH]; [done|]. cbn [Start]. wp_call_any. case_match; [|done]. by apply wp_bind, wp_process.
Qed.

Lemma wp_Wait id n Q : (forall r, Q r) -> wp (Wait id n) Q.
Proof.
  intros H. unfold Wait. wp_call_any. case_match; [|apply H]. induction n as [|n IH]; [apply H|]. cbn [wait_loop].
  wp_call_any. case_match; [|apply H]. case_match; [apply H|done].
Qed.

Lemma wp_operation o : wp (operation b o) (fun _ => True).
Proof.
  destruct o; [..|by apply wp_Start]; apply (wp_bind _ (fun _ => Ret tt));
    auto using wp_Submit, wp_Resume, wp_QuarantineSource, wp_Push, wp_Wait.
  - by apply wp_Submit.
  - by apply wp_Resume.
  - by apply wp_QuarantineSource.
  - by apply wp_Push.
  - by apply wp_Wait.
Qed.
End Operations.

(** ** Pools *)

Section Pools.
Context {S : Type} `{!ResumeStore S, !LawfulStore S}.
Context (configs : nat -> BrokerConfig).

Let brokers (i : nat) : Broker := NewBroker (configs i).

Definition jobs_ok (m : gmap string ResumeState) : Prop := forall id s, m !! id = Some s -> job_ok id s.

Definition pool_ok (p : Pool S) : Prop :=
  jobs_ok (view (p_store p)) /\ Forall (fun t => wp (snd t) (fun _ => True)) (p_threads p).

(** What one call does to the records. *)
Definition record_step (m m' : gmap string ResumeState) : Prop :=
  m' = m
  \/ exists id next now expected, job_ok id next /\ accepts expected (m !! id) next
       /\ m' = <[id := set_updated_at now next]> m.

Lemma act_step_records a s l r s' l' i :
  pre a -> jobs_ok (view s) -> act_step (brokers i) a s l r s' l' -> post a r /\ record_step (view s) (view s').
Proof.
  intros P J A. destruct a; cbn in A; try (split; [done|]; left; by destruct_and!; subst).
  - destruct A as (A & -> & _). split; [|by left]. destruct r as [x|]; [|done]. cbn.
    destruct (load_view _ _ _ _ A) as (key & _ & E). pose proof (J _ _ E) as K. by rewrite (jo_id _ _ K).
  - destruct A as (A & _). split; [done|].
    destruct (save_view _ _ _ _ _ _ A) as [E|(C & now & E)]; [by left|right]. by exists (st_JobID state), state, now, expected.
Qed.

Lemma record_step_ok m m' : jobs_ok m -> record_step m m' -> jobs_ok m'.
Proof.
  intros J [->|(id & next & now & expected & N & _ & ->)]; [done|]. intros k s.
  rewrite lookup_insert_Some. intros [[<- <-]|[_ E]]; [by apply job_ok_time|by apply J].
Qed.

Lemma pool_step_records p q :
  pool_ok p -> pool_step brokers p q -> record_step (view (p_store p)) (view (p_store q)) /\ pool_ok q.
Proof.
  intros [J W] X. destruct X as [p i o|p before i a k after r s' l' E A]; cbn [p_store].
  { split; [by left|]. split; [done|]. apply Forall_app. split; [done|]. apply Forall_singleton, wp_operation. }
  rewrite E in W. apply Forall_app in W as [W1 W2]. apply Forall_cons in W2 as [[P W2] W3].
  destruct (act_step_records _ _ _ _ _ _ _ P J A) as [R1 R2]. split; [done|]. split.
  - by eapply record_step_ok.
  - apply Forall_app. split; [done|]. apply Forall_cons. split; [|done]. by apply W2.
Qed.

Lemma pool_ok_empty s : view s = ∅ -> pool_ok (start_pool s).
Proof. intros E. split; [|constructor]. cbn [p_store start_pool]. rewrite E. by intros id x. Qed.

Lemma reachable_ok p : reachable brokers p -> pool_ok p.
Proof.
  intros (s & E & R). apply pool_ok_empty in E. revert E. induction R as [|x y z X _ IH]; [done|].
  intros O. apply IH. by apply (pool_step_records x).
Qed.

(** A record is replaced only by an evolution of it. *)
Lemma record_step_evolves m m' id s :
  jobs_ok m -> record_step m m' -> m !! id = Some s ->
  m' !! id = Some s
  \/ exists next now, m' !! id = Some (set_updated_at now next) /\ job_ok id next /\ frozen s next /\ evolves s next.
Proof.
  intros J [->|(k & next & now & expected & N & A & ->)] E; [by left|].
  destruct (decide (k = id)) as [->|]; [right|left; by rewrite lookup_insert_ne].
  exists next, now. rewrite lookup_insert_eq. split_and!; [done|done|..]; rewrite E in A; destruct A as [_ A];
    pose proof (jo_typed _ _ (J _ _ E)) as T; pose proof (jo_typed _ _ N) as U;
    apply transition_guard_admits in A; try (by apply A); try done; split; apply T || apply U.
Qed.
End Pools.

(** ** Changes of source *)

(** The changes of source that the quarantines of a record account for. *)
Definition accounted (s : ResumeState) : Z := zlen (st_QuarantinedSources s) - (if suspended s then 1 else 0).

Definition changed (s t : ResumeState) : Z := if decide (st_Source s = st_Source t) then 0 else 1.

Lemma changed_same s t : st_Source t = st_Source s -> changed s t = 0.
Proof. intros E. unfold changed. by rewrite decide_True. Qed.

Lemma changed_le s t : changed s t <= 1.
Proof. unfold changed. case_decide; lia. Qed.

Lemma evolves_accounted s t : evolves s t -> accounted s + changed s t <= accounted t.
Proof.
  pose proof (changed_le s t). unfold accounted.
  intros [x E Q _ _ _|q (Q & _ & N) E _ _ _ _ _|q (Q & _ & N) _ _ _ [_ _ _ R]|reason L _ N _ _ [_ _ _ R]].
  - rewrite (changed_same _ _ E), Q. unfold suspended. rewrite E, Q. lia.
  - rewrite (changed_same _ _ E), Q, N, zlen_app. unfold zlen at 3. cbn. case_match; lia.
  - rewrite Q, N, R, zlen_app. unfold zlen at 3. cbn. lia.
  - rewrite N, R. unfold zlen in *. lia.
Qed.

Lemma evolves_time s t now : evolves s t -> evolves s (set_updated_at now t).
Proof.
  assert (R : running t -> running (set_updated_at now t)) by (intros []; by split).
  intros [x ? ? ? ? ?|q ? ? ? ? ? ? ?|q ? ? ? ? ?|reason ? ? ? ? ? ?].
  - by eapply (Grow _ _ x).
  - by eapply (Exhaust _ _ q).
  - eapply (Move _ _ q); try done. by apply R.
  - eapply (Reselect _ _ reason); try done. by apply R.
Qed.

Lemma accounted_nonneg s : 0 <= accounted s.
Proof.
  unfold accounted. destruct (suspended s) eqn:E; [|pose proof (zlen_nonneg (st_QuarantinedSources s)); lia].
  unfold suspended in E. apply sourceKeyInQuarantines_spec in E. unfold zlen.
  destruct (st_QuarantinedSources s); [by apply not_elem_of_nil in E|]. cbn. lia.
Qed.

Section Theorems.
Context {S : Type} `{!ResumeStore S, !LawfulStore S}.
Context (configs : nat -> BrokerConfig).

Let brokers (i : nat) : Broker := NewBroker (configs i).

(** The changes of source between two versions of a record. *)
Definition moved (before after : option ResumeState) : Z :=
  match before, after with Some s, Some t => changed s t | _, _ => 0 end.

(** Runs of a pool, with the changes of source that one job makes. *)
Inductive moves (id : string) : Z -> Pool S -> Pool S -> Prop :=
| moves_none p : moves id 0 p p
| moves_step n p q r :
    moves id n p q -> pool_step brokers q r ->
    moves id (n + moved (view (p_store q) !! id) (view (p_store r) !! id)) p r.

Lemma moves_accounted id n p q :
  pool_ok p -> moves id n p q -> view (p_store p) !! id = None ->
  pool_ok q /\ match view (p_store q) !! id with Some s => n <= accounted s | None => n = 0 end.
Proof.
  intros O M N. induction M as [p|n p q r M IH X]; [split; [done|]; by rewrite N|].
  destruct (IH O N) as [OQ B]. destruct (pool_step_records _ _ _ OQ X) as [R OR]. split; [done|].
  destruct (view (p_store q) !! id) as [s|] eqn:E.
  - destruct (record_step_evolves _ _ _ _ (proj1 OQ) R E) as [->|(next & now & -> & _ & _ & V)].
    + cbn [moved]. rewrite changed_same by done. lia.
    + apply evolves_accounted in V. change (accounted (set_updated_at now next)) with (accounted next).
      cbn [moved]. change (changed s (set_updated_at now next)) with (changed s next). lia.
  - cbn [moved]. destruct (view (p_store r) !! id) as [s|]; [|lia]. pose proof (accounted_nonneg s). lia.
Qed.

(** C13. Whatever the interleaving of the operations of any number of
    brokers over a lawful store, a job that is stored as complete holds
    exactly as many bytes as its intent states and the MD5, SHA-1 and
    SHA-256 digests of these bytes are the ones the intent names. *)
Theorem completed_is_verified p id s :
  reachable brokers p -> view (p_store p) !! id = Some s -> st_Complete s = true ->
  zlen (st_Data s) = i_Size (st_Intent s) /\ digests_of (st_Data s) = i_Digests (st_Intent s)
  /\ i_ID (st_Intent s) = id.
Proof.
  intros R E C. destruct (reachable_ok _ _ R) as [J _]. specialize (J _ _ E).
  destruct (jo_complete _ _ J C) as [L V]. split_and!; [|by apply VerifyDigests_spec|exact (jo_key _ _ J)].
  by rewrite (ty_bytes _ (jo_typed _ _ J)).
Qed.

(** In every step of every interleaving, a stored job keeps its intent
    and either stays as it is or evolves in one of the listed ways: bytes
    are only appended or, after an integrity failure, discarded; no job
    leaves its source without a quarantine of it, and none moves to a
    quarantined source. *)
Theorem jobs_only_evolve p q id s :
  reachable brokers p -> pool_step brokers p q -> view (p_store p) !! id = Some s ->
  exists s', view (p_store q) !! id = Some s' /\ st_Intent s' = st_Intent s /\ (s' = s \/ evolves s s')
             /\ (st_Failed s' = false -> suspended s' = false).
Proof.
  intros R X E. pose proof (reachable_ok _ _ R) as O. destruct (pool_step_records _ _ _ O X) as [Y _].
  destruct (record_step_evolves _ _ _ _ (proj1 O) Y E) as [E'|(next & now & E' & J & F & V)].
  - exists s. split_and!; [done|done|by left|]. apply (jo_source id). by apply (proj1 O).
  - exists (set_updated_at now next). split_and!; [done|symmetry; apply F| |exact (jo_source _ _ J)].
    right. by apply evolves_time.
Qed.

End Theorems.
