(* ===== verification/CwedpPg.v ===== *)
(** * The PostgreSQL resume store (internal/cwedp/postgres/store.go)

    One row per job. A transaction takes the job's advisory lock and locks its
    row, so it runs alone on that job; any statement of it may fail, and a
    commit that reports an error may have happened. The columns that hold
    lists are JSON documents of the lists; a time comes back as the database
    keeps it, [store_time], a parameter. *)

From S2P Require Import Prelude GoText Sha256 Cwedp CwedpBroker CwedpGuard CwedpSafety.

Open Scope string_scope.
Open Scope list_scope.
Open Scope Z_scope.
Open Scope go_scope.

(** Errors of the adapter, as the texts they render to. *)
Definition ErrInvalidStore (detail : string) : error :=
  Foreign ("invalid CWEDP PostgreSQL resume store" ++ detail).
Definition ErrInvalidState (detail : string) : error := Foreign ("invalid CWEDP resume state" ++ detail).
Definition ErrTerminalState : error := Foreign "CWEDP resume state is terminal".

(** ** Checks *)

Definition validateState (s : ResumeState) : option error :=
  return Some (ErrInvalidState "") when
    String.eqb (TrimSpace (st_JobID s)) "" || negb (String.eqb (st_JobID s) (i_ID (st_Intent s)))
    || (st_MaxChunk s <=? 0) || (DefaultMaxChunkBytes <? st_MaxChunk s)
    || (st_MaxSourceSwitches s <=? 0) || (DefaultMaxSourceSwitches <? st_MaxSourceSwitches s)
    || (st_SourceSwitches s <? 0) || (st_MaxSourceSwitches s <? st_SourceSwitches s)
    || negb (st_SourceSwitches s =? zlen (st_QuarantinedSources s))
    || (st_NextOffset s <? 0) || (i_Size (st_Intent s) <? st_NextOffset s)
    || negb (zlen (st_Data s) =? st_NextOffset s) || IsZero (st_UpdatedAt s)
    || (st_Complete s && st_Failed s) || (st_Complete s && negb (st_NextOffset s =? i_Size (st_Intent s)))
    || negb (Bool.eqb (st_Failed s) (negb (String.eqb (st_Failure s) ""))) ;;
  match Validate (st_Intent s) with
  | Some err => Some (ErrInvalidState (": " ++ Error err))
  | None =>
      match ValidateSourceQuarantines (st_Intent s) (st_QuarantinedSources s) with
      | Some err => Some (ErrInvalidState (": quarantines: " ++ Error err))
      | None =>
          return Some (ErrInvalidState "") when negb (sourceInIntent (st_Intent s) (st_Source s)) ;;
          if st_Complete s then
            match VerifyDigests (st_Data s) (i_Digests (st_Intent s)) with
            | Some err => Some (ErrInvalidState (": complete digest verification: " ++ Error err))
            | None => None
            end
          else None
      end
  end.

Definition validateTransition (current next : ResumeState) : option error :=
  match ValidateResumeTransition current next with
  | Some err =>
      return Some ErrStateConflict when Is err ErrStateConflict ;;
      return Some ErrResumeOffsetConflict when Is err ErrSourceSwitchLimit ;;
      Some ErrResumeOffsetConflict
  | None => None
  end.

(** The adapter's own copy compares intents with [reflect.DeepEqual]. *)
Definition pg_sameImmutableState (a b : ResumeState) : bool :=
  String.eqb (st_JobID a) (st_JobID b) && bool_decide (st_Intent a = st_Intent b)
  && (st_MaxChunk a =? st_MaxChunk b)
  && ((st_MaxSourceSwitches a =? st_MaxSourceSwitches b) || (st_MaxSourceSwitches a =? 0) || (st_MaxSourceSwitches b =? 0)).

Definition sameState (a b : ResumeState) : bool :=
  pg_sameImmutableState a b && sameSource (st_Source a) (st_Source b)
  && sameQuarantines (st_QuarantinedSources a) (st_QuarantinedSources b)
  && (st_SourceSwitches a =? st_SourceSwitches b) && (st_NextOffset a =? st_NextOffset b)
  && bytesEqual (st_Data a) (st_Data b) && Bool.eqb (st_Complete a) (st_Complete b)
  && Bool.eqb (st_Failed a) (st_Failed b) && String.eqb (st_Failure a) (st_Failure b)
  && (st_UpdatedAt a =? st_UpdatedAt b).

(** ** The table and its transactions *)

(** The rows by [job_id]. *)
Abbreviation Table := (gmap string ResumeState).

(** What the database answers a transaction: the error of a statement, and of
    the commit, with whether the commit took effect all the same. *)
Record Faults := {
  fl_begin : option string; fl_lock : option string; fl_query : option string; fl_write : option string;
  fl_affected : option string; fl_commit : option (string * bool) }.

(** The record that [loadRow] scans from a row. *)
Definition scanned (id : string) (row : ResumeState) : ResumeState :=
  {| st_JobID := id; st_Intent := st_Intent row; st_Source := st_Source row;
     st_MaxChunk := st_MaxChunk row; st_NextOffset := st_NextOffset row; st_Data := st_Data row;
     st_Complete := st_Complete row; st_Failed := st_Failed row; st_Failure := st_Failure row;
     st_QuarantinedSources := st_QuarantinedSources row; st_SourceSwitches := st_SourceSwitches row;
     st_MaxSourceSwitches := if st_MaxSourceSwitches row =? 0 then DefaultMaxSourceSwitches else st_MaxSourceSwitches row;
     st_UpdatedAt := st_UpdatedAt row |}.

Definition loadRow (id : string) (row : ResumeState) : result error ResumeState :=
  match validateState (scanned id row) with Some err => Err err | None => Ok (scanned id row) end.

(** [SELECT ... WHERE job_id=$1] and [loadRow]. *)
Definition loadTx (query : option string) (id : string) (table : Table) : result error ResumeState :=
  match query with
  | Some e => Err (ErrInvalidStore (": load: " ++ e))
  | None => match table !! id with None => Err ErrJobNotFound | Some row => loadRow id row end
  end.

Definition pg_Load (ctx_nil : bool) (query : option string) (id : string) (table : Table) : result error ResumeState :=
  return Err (ErrInvalidStore "") when ctx_nil || String.eqb (TrimSpace id) "" ;;
  loadTx query (TrimSpace id) table.

Section Store.
Context (store_time : Time -> Time).

(** The row that an insert or an update writes. *)
Definition stateArgs (s : ResumeState) : ResumeState := set_updated_at (store_time (st_UpdatedAt s)) s.

Definition commitTx (operation : string) (f : Faults) (before after : Table) : option error * Table :=
  match fl_commit f with
  | None => (None, after)
  | Some (e, happened) =>
      (Some (ErrInvalidStore (": " ++ operation ++ " commit: " ++ e)), if happened then after else before)
  end.

(** [save]; [expectedOffset] is the pointer of [SaveExpected], nil for [Save]. *)
Definition save (f : Faults) (ctx_nil : bool) (expectedOffset : option Z) (state : ResumeState) (table : Table)
    : option error * Table :=
  return (Some (ErrInvalidStore ""), table) when ctx_nil ;;
  match validateState state with
  | Some err => (Some err, table)
  | None =>
  let outside e := (e <? 0) || (i_Size (st_Intent state) <? e) in
  return (Some ErrResumeOffsetConflict, table) when match expectedOffset with Some e => outside e | None => false end ;;
  match fl_begin f, fl_lock f with
  | Some e, _ => (Some (ErrInvalidStore (": begin save: " ++ e)), table)
  | None, Some e => (Some (ErrInvalidStore (": lock job: " ++ e)), table)
  | None, None =>
      match loadTx (fl_query f) (st_JobID state) table with
      | Err err =>
          return (Some err, table) when negb (Is err ErrJobNotFound) ;;
          return (Some ErrResumeOffsetConflict, table) when
            match expectedOffset with Some e => negb (e =? 0) | None => false end ;;
          return (Some ErrResumeOffsetConflict, table) when negb (st_NextOffset state =? 0) ;;
          match fl_write f with
          | Some e => (Some (ErrInvalidStore (": insert state: " ++ e)), table)
          | None => commitTx "save" f table (<[st_JobID state := stateArgs state]> table)
          end
      | Ok current =>
          return (Some ErrStateConflict, table) when negb (pg_sameImmutableState current state) ;;
          if sameState current state then commitTx "idempotent save" f table table
          else
          return (Some ErrTerminalState, table) when
            st_Complete current || (st_Failed current && sameSource (st_Source current) (st_Source state)) ;;
          return (Some ErrResumeOffsetConflict, table) when
            match expectedOffset with Some e => negb (st_NextOffset current =? e) | None => false end ;;
          match validateTransition current state with
          | Some err => (Some err, table)
          | None =>
              match fl_write f, fl_affected f with
              | Some e, _ => (Some (ErrInvalidStore (": update state: " ++ e)), table)
              | None, Some e => (Some (ErrInvalidStore (": update result: " ++ e)), table)
              | None, None =>
                  (* the locked row satisfies [next_offset=$26 AND NOT complete] *)
                  commitTx "save" f table (<[st_JobID state := stateArgs state]> table)
              end
          end
      end
  end
  end.
End Store.

(** ** The contract of the broker *)

(** A table with the time column of the database. *)
Record ResumeDatabase := { db_table : Table; db_time : Time -> Time }.

#[global] Instance pg_store : ResumeStore ResumeDatabase := {
  load d ctx id r := exists query, r = pg_Load false query id (db_table d);
  save_expected d ctx expected state r d' :=
    exists f, (r, db_table d') = save (db_time d) f false (Some expected) state (db_table d) /\ db_time d' = db_time d
}.

(** The rows that load, whatever their time: a database may round the first
    microsecond of all time to no time, and such a row stays. *)
Definition readable (id : string) (row : ResumeState) : option ResumeState :=
  match validateState (set_updated_at 1 (scanned id row)) with None => Some (scanned id row) | Some _ => None end.

Definition rows (table : Table) : gmap string ResumeState := map_imap readable table.

Lemma validateState_time s t : validateState s = None -> t <> 0 -> validateState (set_updated_at t s) = None.
Proof.
  unfold validateState. cbn [set_updated_at st_JobID st_Intent st_MaxChunk st_MaxSourceSwitches st_SourceSwitches
    st_QuarantinedSources st_NextOffset st_Data st_UpdatedAt st_Complete st_Failed st_Failure st_Source].
  rewrite !guard_None, !orb_false_iff. intros (D & R) T. destruct_and! D. split; [|done].
  split_and!; try done. by apply Z.eqb_neq.
Qed.

Lemma loadRow_Ok id row s :
  loadRow id row = Ok s -> s = scanned id row /\ validateState s = None /\ readable id row = Some s.
Proof.
  unfold loadRow, readable. destruct (validateState (scanned id row)) eqn:V; [done|]. intros X. simplify_eq.
  by rewrite validateState_time.
Qed.

Lemma rows_lookup table id s : rows table !! id = Some s <-> exists row, table !! id = Some row /\ readable id row = Some s.
Proof. unfold rows. rewrite map_lookup_imap, bind_Some. done. Qed.

Lemma scanned_valid id s :
  validateState s = None -> st_JobID s = id -> scanned id s = s.
Proof.
  unfold validateState. intros V <-. apply guard_None in V as [V _]. props. unfold scanned.
  rewrite (proj2 (Z.eqb_neq _ _)) by lia. by destruct s.
Qed.

(** Writing a valid record makes it the readable row of its job. *)
Lemma rows_insert table s t :
  validateState s = None ->
  rows (<[st_JobID s := set_updated_at t s]> table) = <[st_JobID s := set_updated_at t s]> (rows table).
Proof.
  intros V. apply map_eq. intros k. unfold rows. rewrite map_lookup_imap.
  destruct (decide (k = st_JobID s)) as [->|N].
  - rewrite !lookup_insert_eq. cbn [mbind option_bind]. unfold readable.
    assert (E : scanned (st_JobID s) (set_updated_at t s) = set_updated_at t s).
    { change (set_updated_at t (scanned (st_JobID s) s) = set_updated_at t s). by rewrite scanned_valid. }
    rewrite E. change (set_updated_at 1 (set_updated_at t s)) with (set_updated_at 1 s). by rewrite validateState_time.
  - rewrite !lookup_insert_ne by done. by rewrite map_lookup_imap.
Qed.

Lemma loadTx_Ok query id table s :
  loadTx query id table = Ok s -> validateState s = None /\ st_JobID s = id /\ rows table !! id = Some s.
Proof.
  unfold loadTx. destruct query; [done|]. destruct (table !! id) as [row|] eqn:E; [|done]. intros L.
  apply loadRow_Ok in L as (-> & V & R). split_and!; [done|done|]. apply rows_lookup. by exists row.
Qed.

Lemma validateState_well_formed s : validateState s = None -> well_formed s.
Proof.
  unfold validateState. intros V. apply guard_None in V as [V W]. props. split; [|done]. by destruct (Validate _).
Qed.

Lemma loadTx_missing query id table e :
  loadTx query id table = Err e -> Is e ErrJobNotFound = true -> rows table !! id = None.
Proof.
  unfold loadTx. destruct query; [by intros [= <-]|]. destruct (table !! id) as [row|] eqn:E.
  - unfold loadRow. destruct (validateState _) eqn:V; [|done]. intros [= ->]. unfold validateState in V.
    repeat case_match; by simplify_eq.
  - intros _ _. unfold rows. by rewrite map_lookup_imap, E.
Qed.

Lemma sameState_spec a b :
  sameState a b = true -> validateState a = None -> validateState b = None -> a = b.
Proof.
  unfold sameState, pg_sameImmutableState, validateState. intros S A B.
  apply guard_None in A as [A _]. apply guard_None in B as [B _]. rewrite !orb_false_iff in A, B.
  destruct_and! A. destruct_and! B. rewrite !andb_true_iff, !orb_true_iff in S. destruct_and! S.
  destruct a, b. cbn in *. props.
  repeat match goal with
  | H : sameSource _ _ = true |- _ => apply sameSource_spec in H
  | H : sameQuarantines _ _ = true |- _ => apply sameQuarantines_spec in H
  | H : bytesEqual _ _ = true |- _ => apply bytesEqual_spec in H
  | H : Bool.eqb _ _ = true |- _ => apply eqb_prop in H
  end.
  subst. f_equal. destruct_or!; props; lia.
Qed.

(** What a save does: nothing, or it writes a valid record that the guard
    admits over one that is not complete. *)
Inductive saved (expected : Z) (state : ResumeState) (time : Time -> Time) (table : Table)
    : option error -> Table -> Prop :=
| saved_nothing r : (r = None -> rows table !! st_JobID state = Some state) -> saved expected state time table r table
| saved_row r :
    validateState state = None ->
    accepts expected (rows table !! st_JobID state) state ->
    (forall current, rows table !! st_JobID state = Some current -> st_Complete current = false) ->
    saved expected state time table r (<[st_JobID state := stateArgs time state]> table).

Lemma commitTx_outcome operation f before after r table' :
  commitTx operation f before after = (r, table') -> table' = after \/ table' = before /\ r <> None.
Proof. unfold commitTx. destruct (fl_commit f) as [[e [|]]|]; intros [= <- <-]; auto. Qed.

Lemma validateTransition_None current next :
  validateTransition current next = None -> ValidateResumeTransition current next = None.
Proof. unfold validateTransition. destruct (ValidateResumeTransition _ _); [|done]. by repeat case_match. Qed.

Lemma save_outcome f expected state time table r table' :
  save time f false (Some expected) state table = (r, table') -> saved expected state time table r table'.
Proof.
  assert (N : forall e, saved expected state time table (Some e) table) by (intros e; by constructor).
  unfold save. destruct (validateState state) eqn:V; [by intros [= <- <-]|].
  destruct (_ || _); [by intros [= <- <-]|]. destruct (fl_begin f); [by intros [= <- <-]|].
  destruct (fl_lock f); [by intros [= <- <-]|]. destruct (loadTx _ _ _) as [current|e] eqn:L.
  - apply loadTx_Ok in L as (VC & _ & L). destruct (negb (pg_sameImmutableState _ _)); [by intros [= <- <-]|].
    destruct (sameState current state) eqn:S.
    { apply sameState_spec in S as ->; [|done|done]. intros C. apply commitTx_outcome in C as [->|[-> _]]; by constructor. }
    destruct (_ || _) eqn:T; [by intros [= <- <-]|]. apply orb_false_iff in T as [T _].
    destruct (negb (st_NextOffset current =? expected)) eqn:O; [by intros [= <- <-]|]. props.
    destruct (validateTransition _ _) eqn:G; [by intros [= <- <-]|]. apply validateTransition_None in G.
    destruct (fl_write f); [by intros [= <- <-]|]. destruct (fl_affected f); [by intros [= <- <-]|].
    intros C. apply commitTx_outcome in C as [->|[-> C]]; [|by constructor]. apply saved_row; [done| |]; rewrite L.
    + by split.
    + by intros ? [= <-].
  - destruct (Is e ErrJobNotFound) eqn:M; [|by intros [= <- <-]]. cbn [negb]. pose proof (loadTx_missing _ _ _ _ L M) as R.
    destruct (negb (expected =? 0)) eqn:O; [by intros [= <- <-]|]. props. destruct (negb _); [by intros [= <- <-]|].
    destruct (fl_write f); [by intros [= <- <-]|].
    intros C. apply commitTx_outcome in C as [->|[-> C]]; [|by constructor]. apply saved_row; rewrite ?R; done.
Qed.

#[global] Instance pg_lawful : LawfulStore ResumeDatabase.
Proof.
  refine {| view := fun d => rows (db_table d) |}.
  - intros d ctx id s [query L]. exists (TrimSpace id). split; [by right|]. unfold pg_Load in L.
    symmetry in L. destruct (_ || _); [done|]. by apply loadTx_Ok in L as (_ & _ & L).
  - intros d ctx expected s r d' (f & E & _). symmetry in E. apply save_outcome in E.
    remember (db_table d') as t eqn:T. destruct E as [r N|r V A _]; [by left|right].
    split; [done|]. exists (db_time d (st_UpdatedAt s)). by apply rows_insert.
  - intros d ctx expected s d' (f & E & _). symmetry in E. apply save_outcome in E.
    remember (db_table d') as t eqn:T. remember None as r eqn:R in E. destruct E as [r N|r V A _].
    + exists (st_UpdatedAt s). rewrite set_updated_at_same. by apply N.
    + exists (db_time d (st_UpdatedAt s)). unfold stateArgs. rewrite rows_insert by done. apply lookup_insert_eq.
Defined.

(** ** Completion is final *)

Lemma pg_step_keeps_complete brokers (p q : Pool ResumeDatabase) id s :
  pool_step brokers p q -> view (p_store p) !! id = Some s -> st_Complete s = true -> st_JobID s = id ->
  view (p_store q) !! id = Some s.
Proof.
  intros X E C K. destruct X as [|p before i a k after r d' l' T A]; [done|]. cbn [p_store].
  destruct a; cbn in A; try (by destruct_and!; subst); try (by destruct A as [_ ->]); try (by destruct A as [-> _]).
  destruct A as [(f & A & _) _]. symmetry in A. apply save_outcome in A.
  change (rows (db_table (p_store p)) !! id = Some s) in E. change (rows (db_table d') !! id = Some s).
  remember (db_table d') as t eqn:Ht. destruct A as [r' N|r' V A F]; [done|].
  unfold stateArgs. rewrite rows_insert by done.
  destruct (decide (st_JobID state = id)) as [D|D]; [|by rewrite lookup_insert_ne].
  rewrite D in F. specialize (F _ E). congruence.
Qed.

(** Over the PostgreSQL store, completion is final: once a job is stored
    as complete, its record never changes again, whatever brokers with
    whatever configurations do, and whatever statements fail. *)
Theorem completion_is_final brokers (p q : Pool ResumeDatabase) id s :
  view (p_store p) !! id = Some s -> st_Complete s = true -> rtc (pool_step brokers) p q ->
  view (p_store q) !! id = Some s.
Proof.
  intros E C R. assert (K : st_JobID s = id).
  { change (rows (db_table (p_store p)) !! id = Some s) in E. apply rows_lookup in E as (row & _ & E). unfold readable in E. case_match; [done|]. by simplify_eq. }
  induction R as [|x y z X _ IH]; [done|]. apply IH. by eapply pg_step_keeps_complete.
Qed.
