(* ===== verification/CwedpDelivery.v ===== *)
(** * What the distribution broker delivers

    On the in-memory store, with nobody else running: chunks sent in order
    make the artifact, a restart of the broker between two chunks loses
    nothing, and a job whose source failed continues from an independent one. *)

From S2P Require Import Prelude GoText Sha256 Cwedp CwedpBroker CwedpGuard CwedpSafety.

Open Scope string_scope.
Open Scope list_scope.
Open Scope Z_scope.

(** A client that sends chunks in order and lets the broker handle each one. *)
Fixpoint deliver_chunks (b : Broker) (id : string) (offset : Z) (chunks : list (list Z)) : Prog (option error) :=
  match chunks with
  | [] => Ret None
  | c :: chunks =>
      Push b id offset c ≫= fun err =>
      match err with
      | Some err => Ret (Some err)
      | None => Start b 1 ≫= fun _ => deliver_chunks b id (offset + zlen c) chunks
      end
  end.

Lemma run_bind {A B} b now lease (p : Prog A) (f : A -> Prog B) w :
  run b now lease (p ≫= f) w = let '(a, w') := run b now lease p w in run b now lease (f a) w'.
Proof.
  unfold mbind, Prog_bind. revert w. induction p as [a|a k IH]; intros w; [done|]. cbn [bind run].
  destruct (answer _ _ _ _ _) as [r w']. apply IH.
Qed.

(** Runs the next calls of a program. *)
Ltac run_calls := unfold mbind, Prog_bind, call; cbn [bind run answer].

(** The broker holds the job [id], whose record is [s], and its queue is empty. *)
Record ready (b : Broker) (now : Time) (id : string) (s : ResumeState) (w : MemoryResumeStore * Local) : Prop := {
  rd_job : job_ok id s;
  rd_running : running s;
  rd_fits : corrupt b id s = false;
  rd_time : st_UpdatedAt s <= now;
  rd_atomic : store b = AtomicStore;
  rd_room : 0 < queue_cap b;
  rd_stored : fst w !! id = Some s;
  rd_known : is_Some (jobs (snd w) !! id);
  rd_queue : queue (snd w) = []
}.

(** The record after a chunk of bytes. *)
Definition received (now : Time) (c : list Z) (s : ResumeState) : ResumeState :=
  set_updated_at now (set_bytes (st_NextOffset s + zlen c) (st_Data s ++ c) s).

(** What delivering leaves alone: other jobs of the store, the jobs of the
    broker and its empty queue. *)
Definition delivered (id : string) (s : ResumeState) (w w' : MemoryResumeStore * Local) : Prop :=
  fst w' = <[id := s]> (fst w) /\ jobs (snd w') = jobs (snd w) /\ queue (snd w') = [].

Section Delivery.
Context (b : Broker) (now : Time) (lease : LeaseBinding -> option error) (id : string).

Lemma run_Push s w c :
  ready b now id s w -> c <> [] -> zlen c <= st_MaxChunk s ->
  exists w', run b now lease (Push b id (st_NextOffset s) c) w = (None, w')
    /\ fst w' = fst w /\ jobs (snd w') = jobs (snd w)
    /\ queue (snd w') = [{| cr_id := id; cr_offset := st_NextOffset s; cr_data := c |}].
Proof.
  intros R N L. destruct w as [m l]. destruct (rd_known _ _ _ _ _ R) as [req K]. cbn [snd] in K.
  pose proof (rd_fits _ _ _ _ _ R) as F. unfold corrupt in F. props.
  unfold Push. run_calls. unfold requestForJob. rewrite K.
  rewrite (proj2 (Z.eqb_neq _ _)) by (by rewrite zlen_nil). rewrite (proj2 (Z.ltb_ge _ _)) by lia.
  cbn [bind run answer]. unfold enqueue. pose proof (rd_queue _ _ _ _ _ R) as Q. cbn [snd] in Q. rewrite Q.
  rewrite (proj2 (Z.ltb_lt _ _)) by (pose proof (rd_room _ _ _ _ _ R); done).
  eexists. split; [reflexivity|]. done.
Qed.

(** The store takes a well-typed record that evolved from the current one. *)
Lemma SaveExpected_evolved s next m :
  job_ok id s -> job_ok id next -> m !! id = Some s -> frozen s next -> evolves s next ->
  SaveExpected (LiveContext None) (st_NextOffset s) next m = (None, <[id := next]> m).
Proof.
  intros J K E F V. unfold SaveExpected, memory_refuses. rewrite (jo_id _ _ K), E, Z.eqb_refl. cbn [negb].
  pose proof (jo_typed _ _ J) as T. pose proof (jo_typed _ _ K) as U.
  rewrite (ty_intent _ T), (ty_intent _ U), (proj2 (Z.eqb_eq _ _) (ty_bytes _ T)), (proj2 (Z.eqb_eq _ _) (ty_bytes _ U)).
  cbn [andb]. pose proof (evolves_retry _ _ V).
  by rewrite (proj2 (guard_typed _ _ T U) (conj F (conj H (proj2 (branch_evolves _ _ T U F H) V)))).
Qed.

Lemma run_finish s next w :
  ready b now id s w -> job_ok id next -> frozen s (set_updated_at now next) -> evolves s (set_updated_at now next) ->
  exists w', run b now lease (finish b id (st_NextOffset s) None next) w = (tt, w')
    /\ fst w' = <[id := set_updated_at now next]> (fst w)
    /\ jobs (snd w') = jobs (snd w) /\ queue (snd w') = queue (snd w).
Proof.
  intros R J F V. destruct w as [m l]. unfold finish, saveState. rewrite (rd_atomic _ _ _ _ _ R). run_calls.
  rewrite (SaveExpected_evolved s) by (done || apply R || by apply job_ok_time).
  cbn [bind run answer]. eexists. split; [reflexivity|]. unfold emit. cbn [fst snd].
  by destruct (events l !! id).
Qed.

Lemma ready_received s c w w' :
  ready b now id s w -> zlen c <= i_Size (st_Intent s) - st_NextOffset s ->
  delivered id (received now c s) w w' -> ready b now id (received now c s) w'.
Proof.
  intros R L (E & K & Q). pose proof (rd_job _ _ _ _ _ R) as J. pose proof (jo_typed _ _ J) as T.
  pose proof (typed_offset _ T). pose proof (ty_bytes _ T). pose proof (zlen_nonneg c).
  pose proof (rd_fits _ _ _ _ _ R) as F. destruct (rd_running _ _ _ _ _ R) as [C1 C2 C3 C4].
  destruct R as [_ _ _ ? ? ? ? ? ?]. constructor; try done.
  - destruct J as [[] ? ? ? ? ?]. split; try done; [split; try done; cbn|cbn; congruence]; [rewrite zlen_app|]; lia.
  - unfold corrupt in *. props. cbn in *. rewrite zlen_app.
    repeat match goal with H : ?x = _ |- context [?x] => rewrite H end.
    rewrite !orb_false_iff, !negb_false_iff, !Z.ltb_ge, !Z.leb_gt, !Z.eqb_eq. split_and!; try done; try lia.
    by apply String.eqb_eq.
  - by rewrite E, lookup_insert_eq.
  - by rewrite K.
Qed.

Lemma run_chunk s w c :
  ready b now id s w -> c <> [] -> zlen c <= st_MaxChunk s ->
  zlen c <= i_Size (st_Intent s) - st_NextOffset s ->
  let whole := st_NextOffset s + zlen c =? i_Size (st_Intent s) in
  (whole = true -> VerifyDigests (st_Data s ++ c) (i_Digests (st_Intent s)) = None) ->
  exists w1 w2, run b now lease (Push b id (st_NextOffset s) c) w = (None, w1)
    /\ run b now lease (Start b 1) w1 = (tt, w2)
    /\ delivered id (set_outcome whole false "" (received now c s)) w w2.
Proof.
  intros R N L1 L2 whole V. destruct (run_Push _ _ _ R N L1) as (w1 & P & E1 & E2 & E3). exists w1.
  destruct w1 as [m l]. cbn [fst snd] in E1, E2, E3.
  set (w1 := (m, {| jobs := jobs l; events := events l; queue := [] |}) : MemoryResumeStore * Local).
  pose proof (rd_stored _ _ _ _ _ R) as St. pose proof (rd_job _ _ _ _ _ R) as J. pose proof (jo_typed _ _ J) as T.
  pose proof (typed_offset _ T). pose proof (ty_size _ T). destruct (rd_running _ _ _ _ _ R) as [C1 C2 C3 C4].
  assert (R1 : ready b now id s w1).
  { destruct R; constructor; try done; cbn [fst snd w1 jobs]; [by rewrite E1|by rewrite E2]. }
  assert (M : misplaced {| cr_id := id; cr_offset := st_NextOffset s; cr_data := c |} s = false).
  { unfold misplaced. cbn. rewrite Z.eqb_refl, !orb_false_iff, !Z.ltb_ge. split_and!; try done; lia. }
  pose proof (job_ok_appended _ _ _ J C1 M) as A.
  assert (X : exists w2, run b now lease (process_loaded b {| cr_id := id; cr_offset := st_NextOffset s; cr_data := c |} s) w1
      = (tt, w2) /\ delivered id (set_outcome whole false "" (received now c s)) w1 w2).
  { unfold process_loaded. cbn [cr_id]. rewrite (rd_fits _ _ _ _ _ R), C1, C2, M. cbn [orb].
    change (st_NextOffset (appended _ s) =? i_Size (st_Intent (appended _ s))) with whole.
    assert (G : forall next, job_ok id next -> set_updated_at now next = set_outcome whole false "" (received now c s) ->
      exists w2, run b now lease (finish b id (st_NextOffset s) None next) w1 = (tt, w2)
      /\ delivered id (set_outcome whole false "" (received now c s)) w1 w2).
    { intros next K E. destruct (run_finish s next w1 R1 K) as (w2 & X & Y1 & Y2 & Y3).
      - rewrite E. split; try done. apply (rd_time _ _ _ _ _ R).
      - rewrite E. eapply (Grow _ _ c); try done.
      - exists w2. split; [done|]. split_and!; [by rewrite Y1, E|done|done]. }
    destruct whole eqn:W.
    - set (req := {| cr_id := id; cr_offset := st_NextOffset s; cr_data := c |}) in *.
      assert (V' : VerifyDigests (st_Data (appended req s)) (i_Digests (st_Intent (appended req s))) = None)
        by exact (V eq_refl).
      rewrite V'. apply G.
      + apply job_ok_finished; try done. unfold whole in W. by apply Z.eqb_eq in W.
      + unfold set_outcome, set_updated_at, received. cbn. by rewrite C2, C3.
    - apply G; [done|]. unfold received, set_outcome, set_updated_at, set_bytes. cbn. by rewrite C1, C2, C3. }
  destruct X as (w2 & X & D). exists w2. split; [done|]. split.
  - cbn [Start]. run_calls. unfold dequeue. rewrite E3. cbn [cr_id]. unfold process. run_calls. unfold Load.
    cbn [cr_id]. rewrite E1, St. rewrite <- E1. fold w1. change (bind ?p ?f) with (p ≫= f). rewrite run_bind, X. done.
  - destruct D as (D1 & D2 & D3). split_and!; [by rewrite D1; cbn [fst w1]; rewrite E1|by rewrite D2; cbn [w1 jobs snd]|done].
Qed.

(** Chunks a broker takes: not empty, and within the limit of the job. *)
Definition sendable (limit : Z) (chunks : list (list Z)) : Prop :=
  Forall (fun c => c <> [] /\ zlen c <= limit) chunks.

Lemma sendable_cons limit c cs : sendable limit (c :: cs) <-> (c <> [] /\ zlen c <= limit) /\ sendable limit cs.
Proof. unfold sendable. by rewrite Forall_cons. Qed.

Lemma sendable_pos limit cs : sendable limit cs -> cs <> [] -> 0 < zlen (concat cs).
Proof.
  intros F N. destruct cs as [|c cs]; [done|]. apply sendable_cons in F as [[F _] _]. cbn [concat]. rewrite zlen_app.
  pose proof (zlen_nonneg (concat cs)). pose proof (zlen_nonneg c). rewrite <- zlen_nil in F. lia.
Qed.

Lemma received_outcome s c :
  running s -> set_outcome false false "" (received now c s) = received now c s.
Proof. intros [C1 C2 C3 C4]. unfold set_outcome, received, set_updated_at, set_bytes. cbn. by rewrite C1, C2, C3. Qed.

Lemma delivered_trans s1 s2 w w1 w2 :
  delivered id s1 w w1 -> delivered id s2 w1 w2 -> delivered id s2 w w2.
Proof.
  intros (E1 & J1 & Q1) (E2 & J2 & Q2). split_and!; [|congruence|done].
  rewrite E2, E1. apply insert_insert_eq.
Qed.

(** A first part of the artifact: the job stays ready for the rest. *)
Lemma deliver_part cs : forall s w,
  ready b now id s w -> sendable (st_MaxChunk s) cs -> cs <> [] ->
  st_NextOffset s + zlen (concat cs) < i_Size (st_Intent s) ->
  exists s' w', run b now lease (deliver_chunks b id (st_NextOffset s) cs) w = (None, w')
    /\ delivered id s' w w' /\ ready b now id s' w'
    /\ s' = set_updated_at now (set_bytes (st_NextOffset s + zlen (concat cs)) (st_Data s ++ concat cs) s).
Proof.
  induction cs as [|c cs IH]; intros s w R F N L; [done|]. apply sendable_cons in F as [[F1 F2] F]. cbn [concat] in *.
  rewrite zlen_app in *. pose proof (zlen_nonneg (concat cs)).
  destruct (run_chunk s w c R F1 F2) as (w1 & w2 & P & X & D); [lia|intros W%Z.eqb_eq; lia|].
  rewrite (proj2 (Z.eqb_neq _ _)) in D by lia. rewrite received_outcome in D by apply (rd_running _ _ _ _ _ R).
  assert (R2 : ready b now id (received now c s) w2) by (apply ready_received with w; [done|lia|done]).
  assert (G : run b now lease (deliver_chunks b id (st_NextOffset s) (c :: cs)) w
              = run b now lease (deliver_chunks b id (st_NextOffset (received now c s)) cs) w2).
  { cbn [deliver_chunks]. by rewrite run_bind, P, run_bind, X. }
  destruct cs as [|c' cs].
  - exists (received now c s), w2. rewrite G. cbn [deliver_chunks run concat].
    split_and!; try done. change (zlen (@nil Z)) with 0. by rewrite app_nil_r, Z.add_0_r.
  - destruct (IH (received now c s) w2) as (s' & w' & Y & D' & R' & E); [done..| |].
    { change (st_NextOffset s + zlen c + zlen (concat (c' :: cs)) < i_Size (st_Intent s)). lia. }
    exists s', w'. rewrite G. split_and!; [done|by eapply delivered_trans|done|]. rewrite E, app_assoc, Z.add_assoc. reflexivity.
Qed.

(** The rest of the artifact: the job completes. *)
Lemma deliver_rest cs : forall s w,
  ready b now id s w -> sendable (st_MaxChunk s) cs -> cs <> [] ->
  st_NextOffset s + zlen (concat cs) = i_Size (st_Intent s) ->
  VerifyDigests (st_Data s ++ concat cs) (i_Digests (st_Intent s)) = None ->
  exists s' w', run b now lease (deliver_chunks b id (st_NextOffset s) cs) w = (None, w')
    /\ delivered id s' w w' /\ st_Complete s' = true /\ st_Failed s' = false /\ st_Data s' = st_Data s ++ concat cs.
Proof.
  induction cs as [|c cs IH]; intros s w R F N L V; [done|]. apply sendable_cons in F as [[F1 F2] F]. cbn [concat] in *.
  rewrite zlen_app in *. pose proof (zlen_nonneg (concat cs)). destruct cs as [|c' cs].
  - cbn [concat] in *. rewrite app_nil_r in V. change (zlen (@nil Z)) with 0 in *.
    destruct (run_chunk s w c R F1 F2) as (w1 & w2 & P & X & D); [lia|done|].
    rewrite (proj2 (Z.eqb_eq _ _)) in D by lia.
    exists (set_outcome true false "" (received now c s)), w2. cbn [deliver_chunks].
    rewrite run_bind, P, run_bind, X, app_nil_r. by split_and!.
  - pose proof (sendable_pos _ (c' :: cs) F ltac:(done)).
    destruct (run_chunk s w c R F1 F2) as (w1 & w2 & P & X & D); [lia|intros W%Z.eqb_eq; lia|].
    rewrite (proj2 (Z.eqb_neq _ _)) in D by lia. rewrite received_outcome in D by apply (rd_running _ _ _ _ _ R).
    assert (R2 : ready b now id (received now c s) w2) by (apply ready_received with w; [done|lia|done]).
    destruct (IH (received now c s) w2 R2) as (s' & w' & Y & D' & C1 & C2 & E); [done..| | |].
    { change (st_NextOffset s + zlen c + zlen (concat (c' :: cs)) = i_Size (st_Intent s)). lia. }
    { change (VerifyDigests ((st_Data s ++ c) ++ concat (c' :: cs)) (i_Digests (st_Intent s)) = None).
      by rewrite <- app_assoc. }
    exists s', w'. cbn [deliver_chunks]. rewrite run_bind, P, run_bind, X. split_and!; [done|by eapply delivered_trans|done..|].
    rewrite E, app_assoc. reflexivity.
Qed.
End Delivery.

(** ** Submitting *)

Section Submitting.
Context (cfg : BrokerConfig) (lease : LeaseBinding -> option error) (req : TransferRequest).

Let b : Broker := NewBroker cfg.
Let id : string := i_ID (tr_Intent req).

(** What a submission checks before it touches the store. *)
Record admitted (source : Source) : Prop := {
  ad_store : store b = AtomicStore;
  ad_verifier : verifier b = true;
  ad_intent : Validate (tr_Intent req) = None;
  ad_size : i_Size (tr_Intent req) <= maxArtifactBytes b;
  ad_negotiated : exists s, Negotiate (tr_Intent req) (tr_Hello req) (tr_Capabilities req) = Ok s;
  ad_independent : ValidateSourceIndependenceWithMinimum (tr_Intent req) (registry b) (minIndependentSources b) = None;
  ad_lease : lease_valid (tr_Lease req) = true /\ lease (tr_Lease req) = None;
  ad_source : SelectSource (tr_Intent req) (tr_Hello req) (tr_Capabilities req) None [] = Ok source
}.

Lemma admitted_runs source now {B} (f : option error -> Prog B) w :
  admitted source -> run b now lease (validateRequest b req ≫= f) w = run b now lease (f None) w.
Proof.
  intros [E1 E2 E3 E4 [s E5] E6 [E7 E8] _]. rewrite run_bind. unfold validateRequest.
  rewrite E1, E2, E3, E5, E6, E7, (proj2 (Z.ltb_ge _ _)) by done. cbn [negb orb]. unfold call.
  destruct w as [m l]. cbn [run answer]. by rewrite E8.
Qed.

Lemma submitted_admitted now w job w1 :
  run b now lease (Submit b req) w = (Ok job, w1) -> exists source, admitted source.
Proof.
  unfold Submit. rewrite run_bind. unfold validateRequest.
  destruct (verifier b) eqn:E2; [|by destruct (store b)].
  destruct (store b) eqn:E1; [done..|]. cbn [negb orb].
  destruct (Validate (tr_Intent req)) eqn:E3; [done|]. destruct (_ <? _) eqn:E4; [done|]. props.
  destruct (Negotiate _ _ _) as [s|] eqn:E5; [|done]. destruct (ValidateSourceIndependenceWithMinimum _ _ _) eqn:E6; [done|].
  destruct (lease_valid _) eqn:E7; [|done]. unfold call. destruct w as [m l]. cbn [negb run answer].
  destruct (lease (tr_Lease req)) eqn:E8; [done|].
  destruct (SelectSource _ _ _ _ _) as [source|] eqn:E9; [|done]. intros _. exists source. by split; try done; exists s.
Qed.

Lemma Submit_new source now m l :
  admitted source -> m !! id = None -> queue l = [] ->
  run b now lease (Submit b req) (m, l)
    = (Ok {| j_ID := id; j_Source := source; j_NextOffset := 0 |},
       (<[id := first_state b req source now]> m, registerJob id req l))
  /\ ready b now id (first_state b req source now)
       (<[id := first_state b req source now]> m, registerJob id req l).
Proof.
  intros A N Q. split.
  - unfold Submit. rewrite (admitted_runs source) by done. rewrite (ad_source _ A), (ad_independent _ A).
    run_calls. unfold Load. fold id. rewrite N. cbn [Is negb bind run answer]. rewrite bool_decide_eq_true_2 by done.
    cbn [orb negb]. unfold create_job, saveState. rewrite (ad_store _ A). run_calls.
    unfold SaveExpected, memory_refuses. cbn [st_JobID first_state]. fold id. rewrite N. done.
  - destruct (ad_negotiated _ A) as [s0 E]. pose proof (SelectSource_fresh _ _ _ _ _ (ad_source _ A)) as (_ & S & _).
    pose proof (job_ok_first cfg req source now s0 (ad_intent _ A) E S) as J. fold b id in J.
    destruct (NewBroker_bounds cfg) as (B1 & B2 & B3 & _ & B5). fold b in B1, B2, B3, B5.
    pose proof (jo_typed _ _ J) as T. pose proof (jo_chunk _ _ J) as K. pose proof (ad_size _ A).
    constructor; try done.
    + unfold corrupt. rewrite (proj2 (String.eqb_eq _ _) (jo_id _ _ J)), (proj2 (Z.eqb_eq _ _) (ty_bytes _ T)).
      rewrite (ty_intent _ T), (ty_quarantines _ T), (proj2 (Z.eqb_eq _ _) (ty_switches _ T)).
      pose proof (ty_size _ T). cbn [negb]. rewrite !orb_false_iff, !Z.ltb_ge, Z.leb_gt.
      split_and!; try done; try lia; cbn [st_MaxChunk st_SourceSwitches first_state] in *; [|lia].
      unfold minInt64. destruct (_ <? _) eqn:X; props; lia.
    + apply (ad_store _ A).
    + cbn [fst]. by rewrite lookup_insert_eq.
    + cbn [snd registerJob jobs]. rewrite lookup_insert_eq. by eexists.
Qed.

(** A later submission of the same intent continues the stored job. *)
Lemma Submit_again source now m l s :
  admitted source -> m !! id = Some s -> st_Intent s = tr_Intent req -> st_Source s = source ->
  st_QuarantinedSources s = [] ->
  run b now lease (Submit b req) (m, l)
    = (Ok {| j_ID := st_JobID s; j_Source := source; j_NextOffset := st_NextOffset s |}, (m, registerJob id req l)).
Proof.
  intros A E I S Q. unfold Submit. rewrite (admitted_runs source) by done. rewrite (ad_source _ A), (ad_independent _ A).
  run_calls. unfold Load. fold id. rewrite E, I, sameIntent_refl. cbn [negb]. unfold may_continue. rewrite S, Q.
  replace (sourceAvailable _ _ _ _) with true; [cbn [negb andb sourceKeyInQuarantines existsb]|].
  - unfold continue_job. run_calls. by rewrite S.
  - symmetry. unfold sourceAvailable. destruct (SelectSource_fresh _ _ _ _ _ (ad_source _ A)) as (V & M & _ & U & O).
    pose proof (ad_source _ A) as D. unfold SelectSource in D |- *. rewrite V in D |- *.
    rewrite (ValidateSourceQuarantines_nil _ V) in D |- *. destruct (handshake _ _); [done|].
    unfold usable at 1. rewrite bool_decide_eq_false_2 by set_solver.
    replace (h_Offline _ && _) with false; [|destruct (h_Offline _); [by rewrite O|done]].
    rewrite U, (proj2 (sourceInIntent_spec _ _) M). cbn [andb]. apply sameKey_refl.
Qed.
End Submitting.

(** ** Theorems *)

(** Choosing a source for a job that has neither a source nor quarantines
    is the negotiation: [SelectSource] and [Negotiate] return the same source
    or the same error on every input. *)
Theorem fresh_selection_is_negotiation i hello caps :
  SelectSource i hello caps None [] = Negotiate i hello caps.
Proof.
  unfold SelectSource, Negotiate. destruct (Validate i) eqn:V; [done|]. rewrite ValidateSourceQuarantines_nil by done.
  destruct (handshake hello caps); [done|]. cbn [quarantined_keys map list_to_set foldr].
  change (quarantined_keys []) with (∅ : gset string).
  rewrite select_loop_nothing_quarantined. by destruct (negotiate_loop _ _ _).
Qed.


(** The recorded quarantines of a registered source forbid its root. *)
Definition independent_of (registry : SourceRegistry) (qs : list SourceQuarantine) (s : Source) : Prop :=
  forall q r r', q ∈ qs -> registry !! src_ID (q_Source q) = Some r -> registry !! src_ID s = Some r' ->
  reg_Root r <> reg_Root r'.

Lemma fallback_allowed_spec b qs reason s :
  fallback_allowed b qs reason s = true ->
  sourceKeyInQuarantines qs s = false
  /\ (reason = QuarantineIntegrity \/ reason = QuarantinePolicy -> independent_of (registry b) qs s).
Proof.
  unfold fallback_allowed, blocked_roots. destruct (sourceKeyInQuarantines qs s); [done|]. intros F. split; [done|].
  intros R q r r' Hq E E'. rewrite E' in F. apply negb_true_iff, bool_decide_eq_false in F. intros K. apply F.
  replace (_ || _) with true by (destruct R as [-> | ->]; done).
  apply elem_of_list_to_set, list_elem_of_omap. exists q. split; [done|]. by rewrite E, <- K.
Qed.

Lemma validateRequest_pure b now lease req w : exists e, run b now lease (validateRequest b req) w = (e, w).
Proof.
  unfold validateRequest. destruct w as [m l]. destruct (_ || negb (verifier b)); [by eexists|].
  destruct (match store b with AtomicStore => _ | _ => _ end); [by eexists|].
  destruct (Validate _); [by eexists|]. destruct (_ <? _); [by eexists|]. destruct (Negotiate _ _ _); [|by eexists].
  destruct (ValidateSourceIndependenceWithMinimum _ _ _); [by eexists|]. destruct (negb _); by eexists.
Qed.

Lemma switched_id qs was reason next now s : st_JobID (switched_state qs was reason next now s) = st_JobID s.
Proof. unfold switched_state. by case_match. Qed.

(** The successful path of [QuarantineSource] on a loaded record. *)
Lemma quarantine_loaded_ok b now lease id req failed reason s0 m l job m' l' :
  run b now lease (quarantine_loaded b id req failed reason s0) (m, l) = (Ok job, (m', l')) ->
  exists s qs, (s = s0 \/ s = set_limit DefaultMaxSourceSwitches s0)
    /\ st_JobID s0 = id /\ sourceKey (st_Source s0) = sourceKey failed /\ st_Complete s0 = false
    /\ AddSourceQuarantine (st_Intent s) (st_QuarantinedSources s) (st_Source s) reason = Ok qs
    /\ selectFallback b (st_Intent s) (tr_Hello req) (tr_Capabilities req) qs reason = Ok (j_Source job)
    /\ m' = <[id := switched_state qs (suspended s0) reason (j_Source job) now s]> m
    /\ l' = registerJob id req l.
Proof.
  unfold quarantine_loaded. destruct (negb (String.eqb (st_JobID _) _) || _) eqn:G1; [done|].
  destruct (negb (String.eqb (sourceKey _) _)) eqn:G2; [done|]. destruct (st_Complete s0) eqn:C; [done|]. destruct (st_Failed s0 && _); [done|]. props. fold (suspended s0).
  set (s := if st_MaxSourceSwitches s0 <=? 0 then set_limit DefaultMaxSourceSwitches s0 else s0).
  assert (Hs : s = s0 \/ s = set_limit DefaultMaxSourceSwitches s0) by (unfold s; case_match; auto).
  assert (Hid : st_JobID s = id) by (by destruct Hs as [-> | ->]). clearbody s.
  destruct (_ && _).
  { run_calls. unfold save_or, saveState. destruct (store b); run_calls; try done. by destruct (SaveExpected _ _ _ _) as [[]]. }
  destruct (AddSourceQuarantine _ _ _ _) as [qs|] eqn:A; [|done].
  destruct (selectFallback _ _ _ _ _ _) as [next|] eqn:F.
  - run_calls. unfold saveState. destruct (store b); run_calls; try done.
    destruct (SaveExpected _ _ _ _) as [r m1] eqn:E. destruct r as [e|]; [done|]. run_calls. intros X. injection X as <- <- <-.
    apply SaveExpected_outcome in E as [[N _]|(_ & _ & ->)]; [by destruct N|]. rewrite switched_id, Hid.
    exists s, qs. by split_and!.
  - run_calls. unfold save_or, saveState. destruct (store b); run_calls; try done. by destruct (SaveExpected _ _ _ _) as [[]].
Qed.

(** When reporting a failed source succeeds, the stored job has moved to
    a source of its intent that is not quarantined; after an integrity or a
    policy report no registered root of a quarantined source is used again;
    the bytes survive unless the recorded reason is an integrity failure. *)
Theorem failover_is_independent b now lease id req failed reason m l job m' l' :
  run b now lease (QuarantineSource b id req failed reason) (m, l) = (Ok job, (m', l')) ->
  exists s s', m !! id = Some s /\ m' = <[st_JobID s := s']> m /\ st_JobID s = id
    /\ sourceKey (st_Source s) = sourceKey failed /\ st_Source s' = j_Source job
    /\ j_Source job ∈ i_Sources (st_Intent s)
    /\ sourceKeyInQuarantines (st_QuarantinedSources s') (j_Source job) = false
    /\ (reason = QuarantineIntegrity \/ reason = QuarantinePolicy ->
        independent_of (registry b) (st_QuarantinedSources s') (j_Source job))
    /\ (exists recorded, st_Data s' = surviving recorded (st_Data s)
        /\ (forall r, quarantineReasonFor (st_QuarantinedSources s') (st_Source s) = Some r -> recorded = r))
    /\ st_Complete s' = false /\ st_Failed s' = false /\ jobs l' !! id = Some req.
Proof.
  intros X. unfold QuarantineSource in X. rewrite run_bind in X.
  destruct (validateRequest_pure b now lease req (m, l)) as [e E]. rewrite E in X. destruct e as [e|]; [done|].
  revert X. run_calls. unfold Load. destruct (m !! id) as [s0|] eqn:M; [|done]. intros X.
  destruct (quarantine_loaded_ok _ _ _ _ _ _ _ _ _ _ _ _ _ X) as (s & qs & Hs & E1 & E2 & E3 & A & F & -> & ->).
  apply selectFallback_spec in F as [F1 F2]. apply fallback_allowed_spec in F2 as [F2 F3].
  exists s0, (switched_state qs (suspended s0) reason (j_Source job) now s).
  assert (I : st_Intent s = st_Intent s0 /\ st_Source s = st_Source s0 /\ st_Data s = st_Data s0
    /\ st_Complete s = st_Complete s0) by (by destruct Hs as [-> | ->]).
  destruct I as (I1 & I2 & I3 & I4). rewrite I1 in *. rewrite I2 in *.
  set (moved := switched_state _ _ _ _ _ _).
  assert (P : st_Source moved = j_Source job /\ st_QuarantinedSources moved = qs /\ st_Complete moved = false
    /\ st_Failed moved = false) by (unfold moved, switched_state; case_match; cbn; split_and!; congruence).
  destruct P as (-> & -> & -> & ->). split_and!; try done; [by rewrite E1| |apply lookup_insert_eq].
  exists (match quarantineReasonFor qs (st_Source s0) with Some r => r | None => reason end).
  unfold moved, switched_state, surviving. rewrite I2.
  destruct (quarantineReasonFor qs (st_Source s0)) as [r|]; destruct (String.eqb _ _); cbn; rewrite ?I3;
    (split; [done|intros r' Hr; by simplify_eq]).
Qed.
