(* ===== verification/CwedpExamples.v ===== *)
(** * Distributions

    Three sources, of which the first and the last share a supply-chain root,
    an artifact of five bytes, a failover, and what the code does where a
    comment promises otherwise. *)

From S2P Require Import Prelude GoText Sha256 Cwedp CwedpBroker CwedpGuard CwedpSafety CwedpPg CwedpDelivery.

Open Scope string_scope.
Open Scope list_scope.
Open Scope Z_scope.

(** ** Sessions: one broker alone *)

Section Session.
Context (cfg : BrokerConfig) (now : Time) (lease : LeaseBinding -> option error).

Let b : Broker := NewBroker cfg.

Definition session (ops : list Op) (w : MemoryResumeStore * Local) : MemoryResumeStore * Local :=
  fold_left (fun w o => snd (run b now lease (operation b o) w)) ops w.

Lemma answer_step a m l :
  let '(r, (m', l')) := answer b now lease a (m, l) in act_step b a m l r m' l'.
Proof.
  destruct a; cbn [answer act_step]; try done.
  - destruct (SaveExpected _ _ _ _) as [r m'] eqn:E. split; [|done]. by exists None.
  - by destruct (enqueue _ _ _) as [sent l'].
  - by destruct (dequeue l) as [[x l']|].
  - by destruct (receive id l) as [[x l']|].
Qed.

Definition alone (w : MemoryResumeStore * Local) (threads : list (nat * Prog unit)) (p : Pool MemoryResumeStore) : Prop :=
  p_store p = fst w /\ p_local p 0%nat = snd w /\ p_threads p = threads.

(** A program that runs alone is a run of the pool. *)
Lemma run_alone (x : Prog unit) before : forall w p,
  alone w (before ++ [(0%nat, x)]) p ->
  exists q, rtc (pool_step (fun _ => b)) p q
            /\ alone (snd (run b now lease x w)) (before ++ [(0%nat, Ret (fst (run b now lease x w)))]) q.
Proof.
  induction x as [a|a k IH]; intros w p P; [by exists p|]. destruct w as [m l]. destruct P as (P1 & P2 & P3).
  cbn [fst snd] in P1, P2. cbn [run]. pose proof (answer_step a m l) as Y.
  destruct (answer b now lease a (m, l)) as [r [m' l']].
  pose proof (step_act (fun _ => b) p before 0 a k [] r m' l' P3) as X. rewrite P1, P2 in X. specialize (X Y).
  destruct (IH r (m', l') {| p_store := m'; p_local := set_local 0 l' (p_local p); p_threads := before ++ [(0%nat, k r)] |})
    as (q & Q1 & Q2).
  { split_and!; try done; cbn [p_local snd]; unfold set_local; by rewrite decide_True. }
  exists q. split; [by eapply rtc_l|done].
Qed.

Lemma session_reachable ops : forall w p threads,
  alone w threads p -> exists q threads', rtc (pool_step (fun _ => b)) p q /\ alone (session ops w) threads' q.
Proof.
  induction ops as [|o ops IH]; intros w p threads P; [by exists p, threads|].
  destruct P as (P1 & P2 & P3). pose proof (step_spawn (fun _ => b) p 0 o) as X.
  destruct (run_alone (operation b o) threads w
    {| p_store := p_store p; p_local := p_local p; p_threads := p_threads p ++ [(0%nat, operation b o)] |}) as (q & Q1 & Q2).
  { split_and!; cbn; [done|done|by rewrite P3]. }
  destruct (IH _ _ _ Q2) as (q' & threads' & Q3 & Q4). exists q', threads'. split; [|done].
  eapply rtc_l; [exact X|]. by etrans.
Qed.

Lemma session_pool ops :
  exists q, rtc (pool_step (fun _ => b)) (start_pool ∅) q /\ p_store q = fst (session ops (∅, new_local)).
Proof.
  destruct (session_reachable ops (∅, new_local) (start_pool ∅) []) as (q & t & R & E & _); [done|]. by exists q.
Qed.
End Session.

(** ** An artifact and its sources *)

Definition source (kind : SourceKind) (id : string) : Source :=
  {| src_Kind := kind; src_ID := id; src_TrustRoot := ""; src_Organization := ""; src_CertificateFingerprint := "" |}.

Definition source_a : Source := source SourceOTA "a".
Definition source_b : Source := source SourceSeed "b".
Definition source_c : Source := source SourcePeer "c".

Definition registration (s : Source) (root : string) : SourceRegistration :=
  {| reg_ID := src_ID s; reg_Kind := src_Kind s; reg_Root := root; reg_IndependenceGroup := root |}.

Definition sources_registry : SourceRegistry :=
  match NewSourceRegistry [registration source_a "r1"; registration source_b "r2"; registration source_c "r1"] with
  | Ok r => r | Err _ => ∅ end.

Definition artifact_head : list Z := [67; 87].
Definition artifact_tail : list Z := [69; 68; 80].
Definition artifact_digests : Digests := Eval vm_compute in digests_of (artifact_head ++ artifact_tail).

Definition intent : DistributionIntent :=
  {| i_ID := "job"; i_PackageID := "package"; i_Version := "1.0"; i_Size := 5; i_Digests := artifact_digests;
     i_Sources := [source_a; source_b; source_c]; i_Signature := "signature" |}.

Definition request : TransferRequest :=
  {| tr_Intent := intent;
     tr_Hello := {| h_NodeID := "node"; h_Protocol := ProtocolVersion; h_Offline := false |};
     tr_Capabilities := {| c_NodeID := "node"; c_ProtocolVersions := [ProtocolVersion];
                           c_Sources := [SourceOTA; SourceSeed; SourcePeer]; c_MaxChunkSize := 4 |};
     tr_Lease := {| l_PluginID := "package"; l_PluginVersion := "1.0"; l_TargetHost := "host"; l_TargetPort := 443;
                    l_TargetProtocol := "https"; l_TLSFingerprint := "fp"; l_PolicyEpoch := 1; l_ConfirmationID := "c1" |} |}.

Definition config (chunk : Z) : BrokerConfig :=
  {| cfg_Registry := sources_registry; cfg_ResumeStore := AtomicStore; cfg_LeaseVerifier := true; cfg_QueueSize := 0;
     cfg_MaxChunkBytes := chunk; cfg_MaxArtifactBytes := 0; cfg_MaxSourceSwitches := 0; cfg_MinIndependentSources := 0 |}.

Definition granted : LeaseBinding -> option error := fun _ => None.

Definition outcome (ops : list Op) : option ResumeState := fst (session (config 0) 1000 granted ops (∅, new_local)) !! "job".

Definition full_delivery : list Op :=
  [OpSubmit request; OpPush "job" 0 artifact_head; OpStart 1; OpPush "job" 2 artifact_tail; OpStart 1].

Example delivery_completes :
  option_map (fun s => (st_Complete s, st_Data s, st_Source s)) (outcome full_delivery)
  = Some (true, [67; 87; 69; 68; 80], source_a).
Proof. vm_compute. reflexivity. Qed.

(** A chunk that is sent twice fails the job. *)
Example duplicate_chunk_fails :
  option_map (fun s => (st_Failed s, st_Failure s, st_Data s))
    (outcome [OpSubmit request; OpPush "job" 0 artifact_head; OpPush "job" 0 artifact_head; OpStart 2])
  = Some (true, "chunk overlaps or is out of order", artifact_head).
Proof. vm_compute. reflexivity. Qed.

(** The bytes of the first source do not match: they are discarded, and the
    only source of another root delivers. *)
Definition corrupted_delivery : list Op :=
  [OpSubmit request; OpPush "job" 0 artifact_head; OpPush "job" 2 [0; 0; 0]; OpStart 2].

Example corrupted_delivery_moves :
  option_map (fun s => (st_Source s, st_Data s, map q_Reason (st_QuarantinedSources s), st_SourceSwitches s)) (outcome corrupted_delivery)
  = Some (source_b, [], [QuarantineIntegrity], 1).
Proof. vm_compute. reflexivity. Qed.

(** ** Witnesses *)

Definition stored (ops : list Op) (s : ResumeState) : Prop := outcome ops = Some s.

Lemma stored_pool ops s :
  stored ops s ->
  exists p : Pool MemoryResumeStore, reachable (fun _ => NewBroker (config 0)) p /\ view (p_store p) !! "job" = Some s.
Proof.
  intros E. destruct (session_pool (config 0) 1000 granted ops) as (p & R & P). exists p. split; [by exists ∅|].
  cbn [view memory_lawful]. rewrite P. exact E.
Qed.

Definition final_record : ResumeState :=
  Eval vm_compute in match outcome full_delivery with Some s => s | None => first_state (NewBroker (config 0)) request source_a 0 end.

Definition moved_record : ResumeState :=
  Eval vm_compute in match outcome corrupted_delivery with Some s => s | None => first_state (NewBroker (config 0)) request source_a 0 end.

Lemma final_stored : stored full_delivery final_record.
Proof. vm_compute. reflexivity. Qed.

Lemma moved_stored : stored corrupted_delivery moved_record.
Proof. vm_compute. reflexivity. Qed.

Lemma completed_is_verified_witness :
  exists (p : Pool MemoryResumeStore) s, reachable (fun _ => NewBroker (config 0)) p
    /\ view (p_store p) !! "job" = Some s /\ st_Complete s = true
    /\ zlen (st_Data s) = i_Size (st_Intent s) /\ digests_of (st_Data s) = i_Digests (st_Intent s)
    /\ i_ID (st_Intent s) = "job".
Proof.
  destruct (stored_pool full_delivery final_record final_stored) as (p & R & E).
  exists p, final_record. split; [exact R|]. split; [exact E|]. split; [reflexivity|].
  exact (completed_is_verified (fun _ => config 0) p "job" final_record R E eq_refl).
Defined.

Definition two_chunks : list Op := [OpSubmit request; OpPush "job" 0 artifact_head; OpStart 1].

Definition half_record : ResumeState :=
  Eval vm_compute in match outcome two_chunks with Some s => s | None => first_state (NewBroker (config 0)) request source_a 0 end.

Lemma half_stored : stored two_chunks half_record.
Proof. vm_compute. reflexivity. Qed.

Lemma jobs_only_evolve_witness :
  exists (p q : Pool MemoryResumeStore) s', reachable (fun _ => NewBroker (config 0)) p
    /\ pool_step (fun _ => NewBroker (config 0)) p q /\ view (p_store p) !! "job" = Some half_record
    /\ view (p_store q) !! "job" = Some s' /\ st_Intent s' = st_Intent half_record
    /\ (s' = half_record \/ evolves half_record s') /\ (st_Failed s' = false -> suspended s' = false).
Proof.
  destruct (stored_pool two_chunks half_record half_stored) as (p & R & E).
  pose proof (step_spawn (fun _ => NewBroker (config 0)) p 0 (OpStart 1)) as X.
  destruct (jobs_only_evolve (fun _ => config 0) p _ "job" half_record R X E) as (s' & H).
  eexists p, _, s'. split; [exact R|]. split; [exact X|]. split; [exact E|]. exact H.
Defined.

Lemma moves_extend id n (p q r : Pool MemoryResumeStore) :
  moves (fun _ => config 0) id n p q -> rtc (pool_step (fun _ => NewBroker (config 0))) q r ->
  exists n', moves (fun _ => config 0) id n' p r.
Proof.
  intros M R. revert n M. induction R as [q|q q' r X R IH]; intros n M; [by exists n|].
  eapply IH. by eapply moves_step.
Qed.


Lemma typed_by_computation s :
  Validate (st_Intent s) = None -> zlen (st_Data s) = st_NextOffset s -> st_NextOffset s <= i_Size (st_Intent s) ->
  sourceInIntent (st_Intent s) (st_Source s) = true ->
  ValidateSourceQuarantines (st_Intent s) (st_QuarantinedSources s) = None ->
  st_SourceSwitches s = zlen (st_QuarantinedSources s) -> st_SourceSwitches s <= st_MaxSourceSwitches s ->
  0 < st_MaxSourceSwitches s <= DefaultMaxSourceSwitches -> typed s.
Proof. intros. split; try done. by apply sourceInIntent_spec. Qed.

Ltac typed_record := apply typed_by_computation; vm_compute; done.

Lemma transition_guard_exact_witness :
  typed half_record /\ typed moved_record
  /\ (ValidateResumeTransition half_record moved_record = None
      <-> frozen half_record moved_record /\ evolves half_record moved_record).
Proof.
  assert (T : typed half_record) by typed_record. assert (U : typed moved_record) by typed_record.
  split; [exact T|]. split; [exact U|]. exact (transition_guard_exact half_record moved_record T U).
Defined.

Example half_to_moved_accepted : ValidateResumeTransition half_record moved_record = None.
Proof. vm_compute. reflexivity. Qed.

Definition submitted : result error Job * (MemoryResumeStore * Local) :=
  run (NewBroker (config 0)) 1000 granted (Submit (NewBroker (config 0)) request) (∅, new_local).


Lemma failover_is_independent_witness :
  exists job m' l' s s',
    run (NewBroker (config 0)) 1000 granted
      (QuarantineSource (NewBroker (config 0)) "job" request source_a QuarantineIntegrity) (snd submitted) = (Ok job, (m', l'))
    /\ fst (snd submitted) !! "job" = Some s /\ m' = <[st_JobID s := s']> (fst (snd submitted)) /\ st_JobID s = "job"
    /\ sourceKey (st_Source s) = sourceKey source_a /\ st_Source s' = j_Source job
    /\ j_Source job ∈ i_Sources (st_Intent s)
    /\ sourceKeyInQuarantines (st_QuarantinedSources s') (j_Source job) = false
    /\ (QuarantineIntegrity = QuarantineIntegrity \/ QuarantineIntegrity = QuarantinePolicy ->
        independent_of (registry (NewBroker (config 0))) (st_QuarantinedSources s') (j_Source job))
    /\ (exists recorded, st_Data s' = surviving recorded (st_Data s)
        /\ (forall r, quarantineReasonFor (st_QuarantinedSources s') (st_Source s) = Some r -> recorded = r))
    /\ st_Complete s' = false /\ st_Failed s' = false /\ jobs l' !! "job" = Some request.
Proof.
  set (answer := run (NewBroker (config 0)) 1000 granted
    (QuarantineSource (NewBroker (config 0)) "job" request source_a QuarantineIntegrity) (fst (snd submitted), snd (snd submitted))).
  assert (E : answer = (Ok {| j_ID := "job"; j_Source := source_b; j_NextOffset := 0 |}, (fst (snd answer), snd (snd answer))))
    by (vm_compute; reflexivity).
  destruct (failover_is_independent (NewBroker (config 0)) 1000 granted "job" request source_a QuarantineIntegrity
    (fst (snd submitted)) (snd (snd submitted)) _ _ _ E) as (s & s' & H).
  eexists _, _, _, s, s'. split; [|exact H].
  exact E.
Defined.

(** A database that keeps microseconds. *)
Definition database (row : ResumeState) : ResumeDatabase :=
  {| db_table := <["job" := row]> ∅; db_time := fun t => t / 1000 * 1000 |}.

Lemma completion_is_final_witness :
  exists (p q : Pool ResumeDatabase) s,
    view (p_store p) !! "job" = Some s /\ st_Complete s = true
    /\ rtc (pool_step (fun _ => NewBroker (config 2))) p q
    /\ p_threads q = [(0%nat, Start (NewBroker (config 2)) 1)] /\ view (p_store q) !! "job" = Some s.
Proof.
  set (row := set_updated_at 1000 final_record). set (p := start_pool (database row)).
  pose proof (rtc_once _ _ (step_spawn (fun _ => NewBroker (config 2)) p 0 (OpStart 1))) as R.
  assert (E : view (p_store p) !! "job" = Some row) by (vm_compute; reflexivity).
  exists p. eexists. exists row. split; [exact E|]. split; [reflexivity|]. split; [exact R|]. split; [reflexivity|].
  exact (completion_is_final (fun _ => NewBroker (config 2)) p _ "job" row E eq_refl R).
Defined.

(** The database refuses a completion whose digests differ, as an empty
    artifact of another digest. *)
Example unverified_completion_refused :
  validateState {| st_JobID := "job"; st_Intent := with_sources intent (i_Sources intent); st_Source := source_a;
    st_MaxChunk := 4; st_NextOffset := 5; st_Data := [0; 0; 0; 0; 0]; st_Complete := true; st_Failed := false;
    st_Failure := ""; st_QuarantinedSources := []; st_SourceSwitches := 0; st_MaxSourceSwitches := 3;
    st_UpdatedAt := 1000 |}
  = Some (ErrInvalidState ": complete digest verification: invalid CWEDP message: digest mismatch").
Proof. vm_compute. reflexivity. Qed.

(** The adapter trims the identifier it is asked for: a record is returned
    for a padded identifier, and the broker's own check then calls it invalid. *)
Example padded_identifier_loads :
  pg_Load false None " job" (db_table (database half_record)) = Ok half_record
  /\ corrupt (NewBroker (config 0)) " job" half_record = true /\ corrupt (NewBroker (config 0)) "job" half_record = false.
Proof. vm_compute. by split_and!. Qed.

(** ** Where the code departs from its comments *)

(** [selectFallback] forbids the roots of all quarantined sources or of none,
    by the reason of the latest report only: after an integrity failure of
    one source and a transport failure of the next, the job moves to a mirror
    with the root of the source whose bytes were wrong. *)
Example integrity_root_used_again :
  option_map (fun s => (st_Source s, map q_Reason (st_QuarantinedSources s), st_Failed s))
    (outcome [OpSubmit request; OpQuarantine "job" request source_a QuarantineIntegrity;
              OpQuarantine "job" request source_b QuarantineTransport])
  = Some (source_c, [QuarantineIntegrity; QuarantineTransport], false)
  /\ option_map reg_Root (sources_registry !! "a") = option_map reg_Root (sources_registry !! "c").
Proof. vm_compute. by split. Qed.

(** The guard of the stores compares only the lengths of the quarantine lists
    when a job moves under a recorded quarantine, so it admits another reason
    for it. *)
Definition suspended_record (reason : QuarantineReason) (current : Source) (failed : bool) : ResumeState :=
  {| st_JobID := "job"; st_Intent := intent; st_Source := current; st_MaxChunk := 4; st_NextOffset := 0; st_Data := [];
     st_Complete := false; st_Failed := failed; st_Failure := if failed then Error ErrNoSource else "";
     st_QuarantinedSources := [{| q_Source := source_a; q_Reason := reason |}]; st_SourceSwitches := 1;
     st_MaxSourceSwitches := 3; st_UpdatedAt := 1000 |}.

Example recorded_reason_rewritten :
  ValidateResumeTransition (suspended_record QuarantineIntegrity source_a true)
    (suspended_record QuarantineTransport source_b false) = None.
Proof. vm_compute. reflexivity. Qed.

(** A broker with a smaller chunk limit calls the record of a complete job
    invalid before it looks whether the job is complete, and marks it failed. *)
Example completed_job_marked_failed :
  option_map (fun s => (st_Complete s, st_Failed s, st_Failure s))
    (fst (session (config 2) 2000 granted [OpSubmit request; OpPush "job" 5 [0]; OpStart 1]
       (fst (session (config 0) 1000 granted full_delivery (∅, new_local)), new_local)) !! "job")
  = Some (true, true, "invalid CWEDP message").
Proof. vm_compute. reflexivity. Qed.

(** An intent may have no bytes at all, but no chunk completes it. *)
Definition empty_request : TransferRequest :=
  {| tr_Intent := {| i_ID := "empty"; i_PackageID := "package"; i_Version := "1.0"; i_Size := 0;
                     i_Digests := digests_of []; i_Sources := i_Sources intent; i_Signature := "signature" |};
     tr_Hello := tr_Hello request; tr_Capabilities := tr_Capabilities request; tr_Lease := tr_Lease request |}.

Example empty_artifact_fails :
  Validate (tr_Intent empty_request) = None
  /\ option_map (fun s => (st_Complete s, st_Failed s))
       (fst (session (config 0) 1000 granted
          [OpSubmit empty_request; OpPush "empty" 0 []; OpPush "empty" 0 [0]; OpStart 2] (∅, new_local)) !! "empty")
     = Some (false, true).
Proof. vm_compute. by split. Qed.
