(* ===== verification/JsonDecode.v ===== *)
(** * JSON decoding ([encoding/json.Decoder] with unknown fields refused)

    The documents that the program reads into structs of strings, integers,
    times and nested structs. A document is parsed to a tree, and the tree is
    stored into the fields of a value: keys match a field exactly or up to
    case folding, a repeated key overwrites, [null] leaves the field alone, and
    an unknown key is an error. Every error refuses the document, so the text
    of an error is not kept. *)

From S2P Require Import Prelude GoText JsonValid Json.
From Stdlib Require Import Ascii.

Open Scope list_scope.
Open Scope Z_scope.

(** A string keeps the bytes between its quotes, which [time.Time] parses as
    they are, and the text they decode to. *)
#[warnings="-register-all"]
Inductive jval :=
| VNull
| VBool (b : bool)
| VNumber (raw : list ascii)
| VString (raw : list ascii) (s : string)
| VArray (l : list jval)
| VObject (fields : list (string * jval)).

(** ** Strings *)

Definition hex_value (c : ascii) : option Z :=
  let b := byte_val c in
  if (48 <=? b) && (b <=? 57) then Some (b - 48)
  else if (97 <=? b) && (b <=? 102) then Some (b - 87)
  else if (65 <=? b) && (b <=? 70) then Some (b - 55) else None.

(** [getu4]: the four digits after a backslash and a u. *)
Definition hex4 (l : list ascii) : option Z :=
  match l with
  | a :: b :: c :: d :: _ =>
      match hex_value a, hex_value b, hex_value c, hex_value d with
      | Some a, Some b, Some c, Some d => Some (((a * 16 + b) * 16 + c) * 16 + d)
      | _, _, _, _ => None
      end
  | _ => None
  end.

Definition getu4 (l : list ascii) : option Z :=
  match l with
  | b :: u :: l => if (byte_val b =? 92) && (byte_val u =? 117) then hex4 l else None
  | _ => None
  end.

(** [utf16.DecodeRune], the error rune for two halves that do not pair. *)
Definition utf16_DecodeRune (r1 r2 : Z) : Z :=
  if (55296 <=? r1) && (r1 <? 56320) && (56320 <=? r2) && (r2 <? 57344)
  then (r1 - 55296) * 1024 + (r2 - 56320) + 65536 else RuneError.

Definition is_surrogate (r : Z) : bool := (55296 <=? r) && (r <? 57344).

Definition simple_escape (b : Z) : option Z :=
  if existsb (Z.eqb b) [34; 92; 47] then Some b
  else if b =? 98 then Some 8 else if b =? 102 then Some 12 else if b =? 110 then Some 10
  else if b =? 114 then Some 13 else if b =? 116 then Some 9 else None.

(** The rune of the escape \uXXXX whose digits begin [l], and the bytes used. *)
Definition unicode_escape (l : list ascii) : option (Z * nat) :=
  match hex4 l with
  | None => None
  | Some r =>
      if is_surrogate r then
        match getu4 (drop 4 l) with
        | Some r2 => let d := utf16_DecodeRune r r2 in
                     if d =? RuneError then Some (RuneError, 4%nat) else Some (d, 10%nat)
        | None => Some (RuneError, 4%nat)
        end
      else Some (r, 4%nat)
  end.

(** The text of a string after its opening quote, and the bytes that follow
    it. Every step consumes a byte, so the length is enough fuel. *)
Fixpoint string_body (fuel : nat) (l : list ascii) : option (list ascii * list ascii) :=
  match fuel with
  | O => None
  | S fuel =>
      let emit r rest := (fun p => (EncodeRune r ++ fst p, snd p)) <$> string_body fuel rest in
      match l with
      | [] => None
      | c :: l' =>
          let b := byte_val c in
          if b =? 34 then Some ([], l')
          else if b <? 32 then None
          else if b =? 92 then
            match l' with
            | [] => None
            | e :: l'' =>
                if byte_val e =? 117
                then match unicode_escape l'' with Some (r, n) => emit r (drop n l'') | None => None end
                else match simple_escape (byte_val e) with Some r => emit r l'' | None => None end
            end
          else let rw := DecodeRune l in emit (fst rw) (drop (snd rw) l)
      end
  end.

(** A string after its opening quote. *)
Definition parse_string (l : list ascii) : option (list ascii * string * list ascii) :=
  match string_body (S (length l)) l with
  | Some (text, rest) => Some (take (length l - length rest - 1) l, of_bytes text, rest)
  | None => None
  end.

(** ** Values *)

(** Nesting deeper than this is only possible below an unknown field, which is
    refused anyway. *)
Inductive parsed := PValue (v : jval) | PElements (l : list jval) | PMembers (l : list (string * jval)).

Definition consumed (l rest : list ascii) : list ascii := take (length l - length rest) l.

(** A value, the elements of an array after its bracket, or the members of an
    object after its brace. *)
Fixpoint parse (fuel : nat) (m : mode) (depth : Z) (l : list ascii) : option (parsed * list ascii) :=
  match fuel with
  | O => None
  | S fuel =>
      match m with
      | MValue =>
          match skip_space l with
          | [] => None
          | c :: rest =>
              let b := byte_val c in
              let word w v := (fun rest => (PValue v, rest)) <$> literal w rest in
              if b =? 123 then
                if max_nesting <? depth + 1 then None
                else match skip_space rest with
                     | c' :: rest' =>
                         if byte_val c' =? 125 then Some (PValue (VObject []), rest')
                         else match parse fuel MMembers (depth + 1) (c' :: rest') with
                              | Some (PMembers fs, rest) => Some (PValue (VObject fs), rest)
                              | _ => None
                              end
                     | [] => None
                     end
              else if b =? 91 then
                if max_nesting <? depth + 1 then None
                else match skip_space rest with
                     | c' :: rest' =>
                         if byte_val c' =? 93 then Some (PValue (VArray []), rest')
                         else match parse fuel MElements (depth + 1) (c' :: rest') with
                              | Some (PElements vs, rest) => Some (PValue (VArray vs), rest)
                              | _ => None
                              end
                     | [] => None
                     end
              else if b =? 34 then
                match parse_string rest with
                | Some (raw, s, rest) => Some (PValue (VString raw s), rest)
                | None => None
                end
              else if b =? 45 then
                (fun rest' => (PValue (VNumber (c :: consumed rest rest')), rest')) <$> number rest
              else if json_digit c then
                (fun rest' => (PValue (VNumber (consumed (c :: rest) rest')), rest')) <$> number (c :: rest)
              else if b =? 116 then word "rue"%string (VBool true)
              else if b =? 102 then word "alse"%string (VBool false)
              else if b =? 110 then word "ull"%string VNull
              else None
          end
      | MElements =>
          match parse fuel MValue depth l with
          | Some (PValue v, rest) =>
              match skip_space rest with
              | c :: rest =>
                  if byte_val c =? 44 then
                    match parse fuel MElements depth rest with
                    | Some (PElements vs, rest) => Some (PElements (v :: vs), rest)
                    | _ => None
                    end
                  else if byte_val c =? 93 then Some (PElements [v], rest) else None
              | [] => None
              end
          | _ => None
          end
      | MMembers =>
          match skip_space l with
          | [] => None
          | q :: rest =>
              if negb (byte_val q =? 34) then None else
              match parse_string rest with
              | None => None
              | Some (_, k, rest) =>
                  match skip_space rest with
                  | [] => None
                  | colon :: rest =>
                      if negb (byte_val colon =? 58) then None else
                      match parse fuel MValue depth rest with
                      | Some (PValue v, rest) =>
                          match skip_space rest with
                          | c :: rest =>
                              if byte_val c =? 44 then
                                match parse fuel MMembers depth rest with
                                | Some (PMembers fs, rest) => Some (PMembers ((k, v) :: fs), rest)
                                | _ => None
                                end
                              else if byte_val c =? 125 then Some (PMembers [(k, v)], rest) else None
                          | [] => None
                          end
                      | _ => None
                      end
                  end
              end
          end
      end
  end.

(** The only value of a document: a second [Decode] must reach its end. *)
Definition parse_document (s : string) : option jval :=
  match parse (2 * String.length s + 2) MValue 0 (bytes s) with
  | Some (PValue v, rest) => match skip_space rest with [] => Some v | _ => None end
  | _ => None
  end.

(** ** Fields *)

(** What a value of type [A] does with the JSON value given for it. *)
Definition decoder (A : Type) : Type := jval -> A -> option A.

Definition decode_string : decoder string := fun v old =>
  match v with VNull => Some old | VString _ s => Some s | _ => None end.

(** [strconv.ParseUint(s, 10, 64)] of a JSON number: digits only. *)
Definition digits_value (l : list ascii) : Z := fold_left (fun acc c => acc * 10 + (byte_val c - 48)) l 0.

Definition ParseUint (l : list ascii) : option Z :=
  if negb (match l with [] => true | _ => false end) && forallb json_digit l && (digits_value l <? two64)
  then Some (digits_value l) else None.

(** [strconv.ParseInt(s, 10, 64)] of a JSON number. *)
Definition ParseInt (l : list ascii) : option Z :=
  match l with
  | c :: l' =>
      if byte_val c =? 45
      then match ParseUint l' with Some n => if n <=? max_int64 + 1 then Some (- n) else None | None => None end
      else match ParseUint l with Some n => if n <=? max_int64 then Some n else None | None => None end
  | [] => None
  end.

Definition decode_uint64 : decoder Z := fun v old =>
  match v with VNull => Some old | VNumber raw => ParseUint raw | _ => None end.

Definition decode_int64 : decoder Z := fun v old =>
  match v with VNull => Some old | VNumber raw => ParseInt raw | _ => None end.

(** The fields of a struct by name. *)
Definition fields (A : Type) : Type := list (string * decoder A).

Definition field {A B : Type} (name : string) (get : A -> B) (set : B -> A -> A) (d : decoder B) : string * decoder A :=
  (name, fun v a => (fun b => set b a) <$> d v (get a)).

Definition find_field {A : Type} (fs : fields A) (key : string) : option (decoder A) :=
  match List.find (fun f => String.eqb (fst f) key) fs with
  | Some f => Some (snd f)
  | None => option_map snd (List.find (fun f => EqualFold (fst f) key) fs)
  end.

Fixpoint store_members {A : Type} (fs : fields A) (members : list (string * jval)) (a : A) : option A :=
  match members with
  | [] => Some a
  | (k, v) :: members =>
      match find_field fs k with
      | None => None
      | Some d => match d v a with Some a => store_members fs members a | None => None end
      end
  end.

Definition decode_struct {A : Type} (fs : fields A) : decoder A := fun v a =>
  match v with VNull => Some a | VObject members => store_members fs members a | _ => None end.

(** A slice of structs: each element starts from the zero value. *)
Fixpoint decode_elements {A : Type} (d : decoder A) (zero : A) (l : list jval) : option (list A) :=
  match l with
  | [] => Some []
  | v :: l => match d v zero, decode_elements d zero l with Some a, Some r => Some (a :: r) | _, _ => None end
  end.

Definition decode_slice {A : Type} (d : decoder A) (zero : A) : decoder (list A) := fun v _ =>
  match v with VNull => Some [] | VArray l => decode_elements d zero l | _ => None end.

(** ** Times

    [time.Time.UnmarshalJSON] of the bytes between the quotes: RFC 3339, where
    the library also takes an hour of one digit, a comma before the fraction,
    and offsets up to 24:60. *)

Definition digit_of (c : ascii) : option Z := if json_digit c then Some (byte_val c - 48) else None.

(** Exactly [n] digits. *)
Fixpoint fixed_digits (n : nat) (acc : Z) (l : list ascii) : option (Z * list ascii) :=
  match n with
  | O => Some (acc, l)
  | S n => match l with
           | c :: l => match digit_of c with Some d => fixed_digits n (acc * 10 + d) l | None => None end
           | [] => None
           end
  end.

Definition one_of (cs : string) (l : list ascii) : option (ascii * list ascii) :=
  match l with c :: l => if existsb (Ascii.eqb c) (bytes cs) then Some (c, l) else None | [] => None end.

Definition hour_digits (l : list ascii) : option (Z * list ascii) :=
  match fixed_digits 2 0 l with Some p => Some p | None => fixed_digits 1 0 l end.

(** Nanoseconds: the first nine digits of the fraction. *)
Definition parse_fraction (l : list ascii) : Z * list ascii :=
  match one_of ".," l with
  | Some (_, d :: l') =>
      if json_digit d
      then let rest := skip_digits (d :: l') in
           let digits := take 9 (consumed (d :: l') rest) in
           (digits_value digits * 10 ^ Z.of_nat (9 - length digits), rest)
      else (0, l)
  | _ => (0, l)
  end.

(** The offset from UTC in seconds. *)
Definition parse_zone (l : list ascii) : option (Z * list ascii) :=
  match l with
  | "Z"%char :: l => Some (0, l)
  | _ =>
      '(sign, l) ← one_of "+-" l;
      '(h, l) ← fixed_digits 2 0 l;
      '(_, l) ← one_of ":" l;
      '(m, l) ← fixed_digits 2 0 l;
      if (24 <? h) || (60 <? m) then None
      else Some ((if Ascii.eqb sign "-"%char then -1 else 1) * (h * 3600 + m * 60), l)
  end.

Definition leap_year (y : Z) : bool := (y mod 4 =? 0) && (negb (y mod 100 =? 0) || (y mod 400 =? 0)).

Definition days_in (y m : Z) : Z :=
  if m =? 2 then (if leap_year y then 29 else 28)
  else if (m =? 4) || (m =? 6) || (m =? 9) || (m =? 11) then 30 else 31.

(** Days since 0001-01-01, the inverse of [civil]. *)
Definition days_from_civil (y m d : Z) : Z :=
  let y := if m <=? 2 then y - 1 else y in
  let era := y / 400 in
  let yoe := y mod 400 in
  let doy := (153 * (if 2 <? m then m - 3 else m + 9) + 2) / 5 + d - 1 in
  era * 146097 + (yoe * 365 + yoe / 4 - yoe / 100 + doy) - 306.

Definition parse_rfc3339 (l : list ascii) : option Time :=
  '(y, l) ← fixed_digits 4 0 l;
  '(_, l) ← one_of "-" l;
  '(m, l) ← fixed_digits 2 0 l;
  '(_, l) ← one_of "-" l;
  '(d, l) ← fixed_digits 2 0 l;
  '(_, l) ← one_of "T" l;
  '(hh, l) ← hour_digits l;
  '(_, l) ← one_of ":" l;
  '(mm, l) ← fixed_digits 2 0 l;
  '(_, l) ← one_of ":" l;
  '(ss, l) ← fixed_digits 2 0 l;
  let '(nanos, l) := parse_fraction l in
  '(zone, l) ← parse_zone l;
  if negb (match l with [] => true | _ => false end) || (m <? 1) || (12 <? m) || (d <? 1) || (days_in y m <? d)
     || (23 <? hh) || (59 <? mm) || (59 <? ss) then None
  else Some ((days_from_civil y m d * 86400 + hh * 3600 + mm * 60 + ss - zone) * Second + nanos).

Definition decode_time : decoder Time := fun v old =>
  match v with VNull => Some old | VString raw _ => parse_rfc3339 raw | _ => None end.

(** ** Examples. Quotes are written as backquotes. *)

Definition requote (s : string) : string :=
  of_bytes (map (fun c => if Ascii.eqb c "`"%char then quote else c) (bytes s)).

Example parse_document_example :
  parse_document (requote " {`a`: [1, -2.5e3, null], `b\u00e9\n`: `\ud83d\ude00`, `c`: {}} ")
  = Some (VObject [("a"%string, VArray [VNumber (bytes "1"); VNumber (bytes "-2.5e3"); VNull]);
                   (of_bytes (bytes "bé" ++ [ascii_of_nat 10]),
                    VString (bytes "\ud83d\ude00") (of_bytes (EncodeRune 128512)));
                   ("c"%string, VObject [])]).
Proof. vm_compute. reflexivity. Qed.

Example parse_document_refuses :
  map parse_document [requote "{`a`:1} {}"; requote "{`a` 1}"; "[1,]"; requote "`x"; "01"]%string
  = [None; None; None; None; None].
Proof. vm_compute. reflexivity. Qed.

Example parse_rfc3339_examples :
  parse_rfc3339 (bytes "1970-01-01T00:00:00.005Z") = Some (62135596800 * Second + 5000000)
  /\ parse_rfc3339 (bytes "2024-02-29T9:30:00,5+01:30") = Some ((738944 * 86400 + 8 * 3600) * Second + 500000000)
  /\ parse_rfc3339 (bytes "2023-02-29T00:00:00Z") = None.
Proof. vm_compute. split_and!; reflexivity. Qed.
