(* ===== verification/CrpManifest.v ===== *)
(** * Resource package manifests (internal/crp/manifest.go)

    The content contract of a package: the grammar of its fields, its digests,
    the registry of source roots and the order of versions. *)

From S2P Require Import Prelude GoText Sha256 JsonValid JsonDecode.
From Stdlib Require Import Ascii.

Open Scope string_scope.
Open Scope list_scope.
Open Scope Z_scope.
Open Scope go_scope.

Definition APIVersion : string := "crp.cheesewaf.io/v1".
Definition Kind : string := "CheeseWAFResourcePackage".

(** The errors of the package, by the sentinel that [errors.Is] finds.
    [Joined] is [errors.Join], and [ErrSystem] an error of the operating
    system or of a version that cannot be read. *)
#[warnings="-register-all"]
Inductive error :=
| ErrInvalidManifest | ErrDigestMismatch | ErrNamespace | ErrSource | ErrDowngrade | ErrArtifactSize | ErrMissingDigest
| ErrSignature | ErrUnknownSigner | ErrRevokedSigner | ErrExpiredSigner | ErrConfirmationRequired
| ErrThresholdNotMet | ErrTrustRoot | ErrKeyRotation | ErrKeyRevocation
| ErrManifestTooLarge | ErrArtifactTooLarge | ErrImporterConfig
| ErrRuntimeNotFound | ErrRuntimeConfig | ErrRuntimeUnverified | ErrRuntimeIdentityMismatch | ErrRuntimePath
| ErrRuntimeSymlink | ErrRuntimeCorrupt | ErrRuntimeConflict | ErrRuntimeBusy | ErrRuntimeLockUnavailable
| ErrRuntimeHealthCheck | ErrRuntimeConfirmationRequired | ErrRuntimeConfirmationReplay | ErrRuntimeAuthorization
| ErrSystem (text : string)
| Joined (causes : list error).

(** ** Data *)

Record Digests := { MD5 : string; SHA1 : string; SHA256 : string }.

Record Artifact := { a_Name : string; a_Size : Z; a_Digests : Digests }.

Record Manifest := {
  m_APIVersion : string; m_Kind : string; m_Name : string; m_PluginID : string; m_Version : string;
  m_Namespace : string; m_Publisher : string; m_Source : string; m_SourceRoot : string;
  m_ReleaseSequence : Z; m_Digests : Digests; m_Artifact : Artifact }.

#[global] Instance Digests_eq_dec : EqDecision Digests.
Proof. solve_decision. Defined.
#[global] Instance Artifact_eq_dec : EqDecision Artifact.
Proof. solve_decision. Defined.
#[global] Instance Manifest_eq_dec : EqDecision Manifest.
Proof. solve_decision. Defined.

Definition no_digests : Digests := {| MD5 := ""; SHA1 := ""; SHA256 := "" |}.

Record ValidationOptions := {
  vo_ExpectedNamespace : string; vo_ExpectedSource : string; vo_ExpectedSourceRoot : string;
  vo_CurrentVersion : string; vo_CurrentSequence : Z }.

Record Release := { rel_Version : string; rel_Sequence : Z }.

Record SourceRootRegistration := { sr_ID : string; sr_NamespacePrefixes : list string; sr_Sources : list string }.

Abbreviation SourceRegistry := (gmap string SourceRootRegistration).

(** ** Grammar of the fields *)

Definition is_digit (c : ascii) : bool := json_digit c.
Definition is_alnum (c : ascii) : bool :=
  let b := byte_val c in is_digit c || ((65 <=? b) && (b <=? 90)) || ((97 <=? b) && (b <=? 122)).

(** The expression [A-Za-z0-9][A-Za-z0-9_.-]{0,n}. *)
Definition identifier_of (n : nat) (l : list ascii) : bool :=
  match l with
  | c :: l => is_alnum c && (length l <=? n)%nat
              && forallb (fun c => is_alnum c || existsb (Ascii.eqb c) (bytes "_.-")) l
  | [] => false
  end.

Definition identifierPart (value : string) : bool := identifier_of 63 (bytes value).

(** The bytes before the first [c], and those after it. *)
Fixpoint cut (c : ascii) (l : list ascii) : list ascii * option (list ascii) :=
  match l with
  | [] => ([], None)
  | d :: l => if Ascii.eqb d c then ([], Some l) else let p := cut c l in (d :: fst p, snd p)
  end.

Definition suffix_ok (l : option (list ascii)) : bool :=
  match l with
  | None => true
  | Some [] => false
  | Some l => forallb (fun c => is_alnum c || existsb (Ascii.eqb c) (bytes ".-")) l
  end.

(** The expression of a version: up to three numbers, a prerelease after the
    first hyphen and a build after the first plus. No character of the earlier
    parts is a separator of a later one, so the cuts are the only match. *)
Definition versionPart (value : string) : bool :=
  let '(front, build) := cut "+"%char (bytes value) in
  let '(base, pre) := cut "-"%char front in
  let parts := split_on "."%char base in
  (length parts <=? 3)%nat && forallb (fun p => negb (bool_decide (p = [])) && forallb is_digit p) parts
  && suffix_ok pre && suffix_ok build.

Definition TrimSuffix (s suffix : string) : string :=
  if HasSuffix s suffix then of_bytes (take (String.length s - String.length suffix) (bytes s)) else s.

Definition TrimPrefix (s prefix : string) : string :=
  if HasPrefix s prefix then of_bytes (drop (String.length prefix) (bytes s)) else s.

Definition Split (s : string) (c : ascii) : list string := map of_bytes (split_on c (bytes s)).

Definition blank_chars : string := of_bytes (map ascii_of_nat [13; 10; 9; 32]%nat).

Definition validateNamespace (value : string) : option error :=
  let value := TrimSpace value in
  let parts := Split value "/" in
  return Some ErrNamespace when (length parts <? 1)%nat || (3 <? length parts)%nat || String.eqb value "" ;;
  return Some ErrNamespace when negb (forallb identifierPart parts) ;;
  match parts with
  | "official" :: _ => if (length parts =? 2)%nat then None else Some ErrNamespace
  | "enterprise" :: _ | "community" :: _ | "personal" :: _ | "test" :: _ | "development" :: _ =>
      if (length parts =? 3)%nat then None else Some ErrNamespace
  | _ => Some ErrNamespace
  end.

Definition validateNamespacePrefix (value : string) : option error :=
  let value := TrimSuffix (TrimSpace value) "/" in
  return Some ErrNamespace when String.eqb value "" ;;
  let parts := Split value "/" in
  return Some ErrNamespace when (3 <? length parts)%nat ;;
  return Some ErrNamespace when negb (forallb identifierPart parts) ;;
  match parts with
  | "official" :: _ => if (2 <? length parts)%nat then Some ErrNamespace else None
  | "enterprise" :: _ | "community" :: _ | "personal" :: _ | "test" :: _ | "development" :: _ =>
      if (length parts <? 2)%nat then Some ErrNamespace else None
  | _ => Some ErrNamespace
  end.

Definition namespaceMatches (namespace prefix : string) : bool :=
  let namespace := TrimSuffix (TrimSpace namespace) "/" in
  let prefix := TrimSuffix (TrimSpace prefix) "/" in
  String.eqb namespace prefix || HasPrefix namespace (prefix ++ "/").

Fixpoint normalize_loop (seen : gset string) (values : list string) : list string :=
  match values with
  | [] => []
  | v :: values =>
      let v := TrimSpace v in
      if bool_decide (v ∈ seen) then normalize_loop seen values
      else v :: normalize_loop ({[v]} ∪ seen) values
  end.

Definition normalizeUnique (values : list string) : list string := normalize_loop ∅ values.

Definition contains (values : list string) (want : string) : bool := existsb (String.eqb want) values.

(** A stable identifier without blanks, dots in sequence or backslashes. *)
Definition stable_identifier (value : string) : bool :=
  negb (String.eqb value "" || (128 <? len value) || ContainsAny value blank_chars)
  && negb (Contains value ".." || ContainsByte value "\"%char).

Definition validateSourceRoot (value : string) : option error :=
  if stable_identifier (TrimSpace value) then None else Some ErrSource.

Definition source_rune (r : Z) : bool :=
  existsb (fun c => r =? byte_val c) (bytes ":/.-_@+") || ((65 <=? r) && (r <=? 90)) || ((97 <=? r) && (r <=? 122))
  || ((48 <=? r) && (r <=? 57)).

Definition validateSource (value : string) : option error :=
  let value := TrimSpace value in
  return Some ErrSource when negb (stable_identifier value) ;;
  if forallb source_rune (runes value) then None else Some ErrSource.

(** ** Digests *)

Definition isHex (value : string) (length : Z) : bool :=
  return false when negb (len value =? length) || negb (String.eqb value (ToLower value)) ;;
  hex_decodable value.

Definition validateDigestShape (d : Digests) : option error :=
  return Some ErrMissingDigest when negb (isHex (MD5 d) 32) || negb (isHex (SHA1 d) 40) || negb (isHex (SHA256 d) 64) ;;
  None.

Definition ComputeDigests (data : list Z) : Digests :=
  {| MD5 := EncodeHex (SumMD5 data); SHA1 := EncodeHex (SumSHA1 data); SHA256 := EncodeHex (Sum256 data) |}.

Definition VerifyDigests (data : list Z) (expected : Digests) : option error :=
  match validateDigestShape expected with
  | Some err => Some err
  | None =>
      let got := ComputeDigests data in
      return Some ErrDigestMismatch when negb (String.eqb (MD5 got) (MD5 expected))
        || negb (String.eqb (SHA1 got) (SHA1 expected)) || negb (String.eqb (SHA256 got) (SHA256 expected)) ;;
      None
  end.

Definition contentDigests (m : Manifest) : result error Digests :=
  let d := m_Digests m in
  let inner := a_Digests (m_Artifact m) in
  return Err ErrInvalidManifest when negb (bool_decide (inner = no_digests)) && negb (bool_decide (d = no_digests))
    && negb (bool_decide (d = inner)) ;;
  let d := if negb (bool_decide (inner = no_digests)) then inner else d in
  match validateDigestShape d with Some err => Err err | None => Ok d end.

(** ** The manifest as JSON *)

Definition set_MD5 (v : string) (r : Digests) : Digests :=
  {| MD5 := v; SHA1 := SHA1 r; SHA256 := SHA256 r |}.
Definition set_SHA1 (v : string) (r : Digests) : Digests :=
  {| MD5 := MD5 r; SHA1 := v; SHA256 := SHA256 r |}.
Definition set_SHA256 (v : string) (r : Digests) : Digests :=
  {| MD5 := MD5 r; SHA1 := SHA1 r; SHA256 := v |}.
Definition set_a_Name (v : string) (r : Artifact) : Artifact :=
  {| a_Name := v; a_Size := a_Size r; a_Digests := a_Digests r |}.
Definition set_a_Size (v : Z) (r : Artifact) : Artifact :=
  {| a_Name := a_Name r; a_Size := v; a_Digests := a_Digests r |}.
Definition set_a_Digests (v : Digests) (r : Artifact) : Artifact :=
  {| a_Name := a_Name r; a_Size := a_Size r; a_Digests := v |}.
Definition set_m_APIVersion (v : string) (r : Manifest) : Manifest :=
  {| m_APIVersion := v; m_Kind := m_Kind r; m_Name := m_Name r; m_PluginID := m_PluginID r; m_Version :=
     m_Version r; m_Namespace := m_Namespace r; m_Publisher := m_Publisher r; m_Source := m_Source r;
     m_SourceRoot := m_SourceRoot r; m_ReleaseSequence := m_ReleaseSequence r; m_Digests := m_Digests r;
     m_Artifact := m_Artifact r |}.
Definition set_m_Kind (v : string) (r : Manifest) : Manifest :=
  {| m_APIVersion := m_APIVersion r; m_Kind := v; m_Name := m_Name r; m_PluginID := m_PluginID r; m_Version :=
     m_Version r; m_Namespace := m_Namespace r; m_Publisher := m_Publisher r; m_Source := m_Source r;
     m_SourceRoot := m_SourceRoot r; m_ReleaseSequence := m_ReleaseSequence r; m_Digests := m_Digests r;
     m_Artifact := m_Artifact r |}.
Definition set_m_Name (v : string) (r : Manifest) : Manifest :=
  {| m_APIVersion := m_APIVersion r; m_Kind := m_Kind r; m_Name := v; m_PluginID := m_PluginID r; m_Version :=
     m_Version r; m_Namespace := m_Namespace r; m_Publisher := m_Publisher r; m_Source := m_Source r;
     m_SourceRoot := m_SourceRoot r; m_ReleaseSequence := m_ReleaseSequence r; m_Digests := m_Digests r;
     m_Artifact := m_Artifact r |}.
Definition set_m_PluginID (v : string) (r : Manifest) : Manifest :=
  {| m_APIVersion := m_APIVersion r; m_Kind := m_Kind r; m_Name := m_Name r; m_PluginID := v; m_Version :=
     m_Version r; m_Namespace := m_Namespace r; m_Publisher := m_Publisher r; m_Source := m_Source r;
     m_SourceRoot := m_SourceRoot r; m_ReleaseSequence := m_ReleaseSequence r; m_Digests := m_Digests r;
     m_Artifact := m_Artifact r |}.
Definition set_m_Version (v : string) (r : Manifest) : Manifest :=
  {| m_APIVersion := m_APIVersion r; m_Kind := m_Kind r; m_Name := m_Name r; m_PluginID := m_PluginID r;
     m_Version := v; m_Namespace := m_Namespace r; m_Publisher := m_Publisher r; m_Source := m_Source r;
     m_SourceRoot := m_SourceRoot r; m_ReleaseSequence := m_ReleaseSequence r; m_Digests := m_Digests r;
     m_Artifact := m_Artifact r |}.
Definition set_m_Namespace (v : string) (r : Manifest) : Manifest :=
  {| m_APIVersion := m_APIVersion r; m_Kind := m_Kind r; m_Name := m_Name r; m_PluginID := m_PluginID r;
     m_Version := m_Version r; m_Namespace := v; m_Publisher := m_Publisher r; m_Source := m_Source r;
     m_SourceRoot := m_SourceRoot r; m_ReleaseSequence := m_ReleaseSequence r; m_Digests := m_Digests r;
     m_Artifact := m_Artifact r |}.
Definition set_m_Publisher (v : string) (r : Manifest) : Manifest :=
  {| m_APIVersion := m_APIVersion r; m_Kind := m_Kind r; m_Name := m_Name r; m_PluginID := m_PluginID r;
     m_Version := m_Version r; m_Namespace := m_Namespace r; m_Publisher := v; m_Source := m_Source r;
     m_SourceRoot := m_SourceRoot r; m_ReleaseSequence := m_ReleaseSequence r; m_Digests := m_Digests r;
     m_Artifact := m_Artifact r |}.
Definition set_m_Source (v : string) (r : Manifest) : Manifest :=
  {| m_APIVersion := m_APIVersion r; m_Kind := m_Kind r; m_Name := m_Name r; m_PluginID := m_PluginID r;
     m_Version := m_Version r; m_Namespace := m_Namespace r; m_Publisher := m_Publisher r; m_Source := v;
     m_SourceRoot := m_SourceRoot r; m_ReleaseSequence := m_ReleaseSequence r; m_Digests := m_Digests r;
     m_Artifact := m_Artifact r |}.
Definition set_m_SourceRoot (v : string) (r : Manifest) : Manifest :=
  {| m_APIVersion := m_APIVersion r; m_Kind := m_Kind r; m_Name := m_Name r; m_PluginID := m_PluginID r;
     m_Version := m_Version r; m_Namespace := m_Namespace r; m_Publisher := m_Publisher r; m_Source := m_Source
     r; m_SourceRoot := v; m_ReleaseSequence := m_ReleaseSequence r; m_Digests := m_Digests r; m_Artifact :=
     m_Artifact r |}.
Definition set_m_ReleaseSequence (v : Z) (r : Manifest) : Manifest :=
  {| m_APIVersion := m_APIVersion r; m_Kind := m_Kind r; m_Name := m_Name r; m_PluginID := m_PluginID r;
     m_Version := m_Version r; m_Namespace := m_Namespace r; m_Publisher := m_Publisher r; m_Source := m_Source
     r; m_SourceRoot := m_SourceRoot r; m_ReleaseSequence := v; m_Digests := m_Digests r; m_Artifact :=
     m_Artifact r |}.
Definition set_m_Digests (v : Digests) (r : Manifest) : Manifest :=
  {| m_APIVersion := m_APIVersion r; m_Kind := m_Kind r; m_Name := m_Name r; m_PluginID := m_PluginID r;
     m_Version := m_Version r; m_Namespace := m_Namespace r; m_Publisher := m_Publisher r; m_Source := m_Source
     r; m_SourceRoot := m_SourceRoot r; m_ReleaseSequence := m_ReleaseSequence r; m_Digests := v; m_Artifact :=
     m_Artifact r |}.
Definition set_m_Artifact (v : Artifact) (r : Manifest) : Manifest :=
  {| m_APIVersion := m_APIVersion r; m_Kind := m_Kind r; m_Name := m_Name r; m_PluginID := m_PluginID r;
     m_Version := m_Version r; m_Namespace := m_Namespace r; m_Publisher := m_Publisher r; m_Source := m_Source
     r; m_SourceRoot := m_SourceRoot r; m_ReleaseSequence := m_ReleaseSequence r; m_Digests := m_Digests r;
     m_Artifact := v |}.

Definition decode_digests : decoder Digests := decode_struct
  [field "md5" MD5 set_MD5 decode_string; field "sha1" SHA1 set_SHA1 decode_string;
   field "sha256" SHA256 set_SHA256 decode_string].

Definition decode_artifact : decoder Artifact := decode_struct
  [field "name" a_Name set_a_Name decode_string; field "size" a_Size set_a_Size decode_int64;
   field "digests" a_Digests set_a_Digests decode_digests].

Definition decode_manifest : decoder Manifest := decode_struct
  [field "api_version" m_APIVersion set_m_APIVersion decode_string;
   field "kind" m_Kind set_m_Kind decode_string;
   field "name" m_Name set_m_Name decode_string;
   field "plugin_id" m_PluginID set_m_PluginID decode_string;
   field "version" m_Version set_m_Version decode_string;
   field "namespace" m_Namespace set_m_Namespace decode_string;
   field "publisher" m_Publisher set_m_Publisher decode_string;
   field "source" m_Source set_m_Source decode_string;
   field "source_root" m_SourceRoot set_m_SourceRoot decode_string;
   field "release_sequence" m_ReleaseSequence set_m_ReleaseSequence decode_uint64;
   field "digests" m_Digests set_m_Digests decode_digests;
   field "artifact" m_Artifact set_m_Artifact decode_artifact].

Definition no_artifact : Artifact := {| a_Name := ""; a_Size := 0; a_Digests := no_digests |}.

Definition no_manifest : Manifest :=
  {| m_APIVersion := ""; m_Kind := ""; m_Name := ""; m_PluginID := ""; m_Version := ""; m_Namespace := "";
     m_Publisher := ""; m_Source := ""; m_SourceRoot := ""; m_ReleaseSequence := 0; m_Digests := no_digests;
     m_Artifact := no_artifact |}.

(** ** Validation *)

(** [Manifest.Validate]. *)
Definition Validate (m : Manifest) : option error :=
  return Some ErrInvalidManifest when negb (String.eqb (m_APIVersion m) "") && negb (String.eqb (m_APIVersion m) APIVersion) ;;
  return Some ErrInvalidManifest when negb (String.eqb (m_Kind m) "") && negb (String.eqb (m_Kind m) Kind) ;;
  return Some ErrInvalidManifest when String.eqb (TrimSpace (m_Name m)) "" && String.eqb (TrimSpace (m_PluginID m)) "" ;;
  return Some ErrInvalidManifest when negb (versionPart (TrimSpace (m_Version m))) ;;
  match validateNamespace (m_Namespace m) with
  | Some err => Some err
  | None =>
  match validateSourceRoot (m_SourceRoot m) with
  | Some err => Some err
  | None =>
  match (if negb (String.eqb (m_Source m) "") then validateSource (m_Source m) else None) with
  | Some err => Some err
  | None =>
      return Some ErrInvalidManifest when a_Size (m_Artifact m) <? 0 ;;
      match contentDigests m with Err err => Some err | Ok _ => None end
  end end end.

Definition ParseManifest (data : string) : result error Manifest :=
  match parse_document data ≫= (fun v => decode_manifest v no_manifest) with
  | None => Err ErrInvalidManifest
  | Some m => match Validate m with Some err => Err err | None => Ok m end
  end.

(** [Manifest.Verify]. *)
Definition Verify (m : Manifest) (data : list Z) : option error :=
  match Validate m with
  | Some err => Some err
  | None =>
      return Some ErrArtifactSize when negb (a_Size (m_Artifact m) =? 0)
        && negb (Z.of_nat (length data) =? a_Size (m_Artifact m)) ;;
      match contentDigests m with
      | Ok digests => VerifyDigests data digests
      | Err _ => VerifyDigests data no_digests
      end
  end.

(** ** Versions *)

Record parsedVersion := { pv_base : list Z; pv_pre : list string }.

Definition allDigits (value : string) : bool :=
  negb (String.eqb value "") && forallb is_digit (bytes value).

(** [strconv.Atoi] of a string of digits: the largest [int] with an error
    when the number is larger. *)
Definition Atoi (value : string) : Z * bool :=
  let n := digits_value (bytes value) in (Z.min n max_int64, max_int64 <? n).

Fixpoint atoi_all (parts : list string) : option (list Z) :=
  match parts with
  | [] => Some []
  | p :: parts =>
      let '(n, overflow) := Atoi p in
      if overflow then None else (fun r => n :: r) <$> atoi_all parts
  end.

Definition bad_identifier (identifier : string) : bool :=
  String.eqb identifier ""
  || ((1 <? len identifier) && HasPrefix identifier "0" && allDigits identifier).

(** The closure [parse] of [compareVersions]. *)
Definition parse_version (value : string) : option parsedVersion :=
  let value := TrimPrefix (TrimSpace value) "v" in
  return None when negb (versionPart value) ;;
  let baseAndPre := fst (cut "+"%char (bytes value)) in
  let '(base, pre) := cut "-"%char baseAndPre in
  match atoi_all (Split (of_bytes base) ".") with
  | None => None
  | Some out =>
      let out := take 3 (out ++ repeat 0 3) in
      match pre with
      | None | Some [] => Some {| pv_base := out; pv_pre := [] |}
      | Some pre =>
          let identifiers := Split (of_bytes pre) "." in
          return None when existsb bad_identifier identifiers ;;
          Some {| pv_base := out; pv_pre := identifiers |}
      end
  end.

Fixpoint compare_base (a b : list Z) : Z :=
  match a, b with
  | x :: a, y :: b => if x <? y then -1 else if y <? x then 1 else compare_base a b
  | _, _ => 0
  end.

(** One round of the loop over the identifiers; 0 goes on to the next. *)
Definition compare_identifier (lhs rhs : string) : Z :=
  match allDigits lhs, allDigits rhs with
  | true, true =>
      let ln := fst (Atoi lhs) in
      let rn := fst (Atoi rhs) in
      if ln <? rn then -1 else if rn <? ln then 1 else 0
  | true, false => -1
  | false, true => 1
  | false, false => if String.ltb lhs rhs then -1 else if String.ltb rhs lhs then 1 else 0
  end.

(** The loop, then the comparison of the lengths. *)
Fixpoint compare_pre (a b : list string) : Z :=
  match a, b with
  | lhs :: a, rhs :: b =>
      let c := compare_identifier lhs rhs in if c =? 0 then compare_pre a b else c
  | [], _ :: _ => -1
  | _ :: _, [] => 1
  | [], [] => 0
  end.

Definition compare_parsed (aa bb : parsedVersion) : Z :=
  let c := compare_base (pv_base aa) (pv_base bb) in
  return c when negb (c =? 0) ;;
  match pv_pre aa, pv_pre bb with
  | [], [] => 0
  | [], _ => 1
  | _, [] => -1
  | a, b => compare_pre a b
  end.

(** [None] is an error. *)
Definition compareVersions (a b : string) : option Z :=
  match parse_version a with
  | None => None
  | Some aa => match parse_version b with None => None | Some bb => Some (compare_parsed aa bb) end
  end.

(** ** Downgrades *)

(** The two comparisons that [ValidateUpgrade] and [ValidateNoDowngrade] make. *)
Definition no_downgrade (current candidate : Release) : option error :=
  return Some ErrDowngrade when
    negb (String.eqb (rel_Version current) "")
    && match compareVersions (rel_Version candidate) (rel_Version current) with None => true | Some c => c <? 0 end ;;
  return Some ErrDowngrade when
    negb (rel_Sequence current =? 0)
    && ((rel_Sequence candidate =? 0) || (rel_Sequence candidate <? rel_Sequence current)) ;;
  None.

Definition release_of (m : Manifest) : Release := {| rel_Version := m_Version m; rel_Sequence := m_ReleaseSequence m |}.

(** [Manifest.ValidateUpgrade]. *)
Definition ValidateUpgrade (m : Manifest) (current : Release) : option error :=
  match Validate m with Some err => Some err | None => no_downgrade current (release_of m) end.

Definition ValidateNoDowngrade (current candidate : Release) : option error :=
  return Some ErrDowngrade when String.eqb (rel_Version candidate) "" ;;
  no_downgrade current candidate.

(** [Manifest.ValidateWith]. *)
Definition ValidateWith (m : Manifest) (opts : ValidationOptions) : option error :=
  match Validate m with
  | Some err => Some err
  | None =>
      let differs expected got := negb (String.eqb (TrimSpace expected) "") && negb (String.eqb got (TrimSpace expected)) in
      return Some ErrNamespace when differs (vo_ExpectedNamespace opts) (m_Namespace m) ;;
      return Some ErrSource when differs (vo_ExpectedSource opts) (m_Source m) ;;
      return Some ErrSource when differs (vo_ExpectedSourceRoot opts) (m_SourceRoot m) ;;
      return ValidateUpgrade m {| rel_Version := vo_CurrentVersion opts; rel_Sequence := vo_CurrentSequence opts |}
        when negb (String.eqb (vo_CurrentVersion opts) "") || negb (vo_CurrentSequence opts =? 0) ;;
      None
  end.

(** [Manifest.ValidateBinding]. *)
Definition ValidateBinding (m : Manifest) (namespace sourceRoot : string) : option error :=
  ValidateWith m {| vo_ExpectedNamespace := namespace; vo_ExpectedSource := ""; vo_ExpectedSourceRoot := sourceRoot;
                    vo_CurrentVersion := ""; vo_CurrentSequence := 0 |}.

(** ** The registry of source roots *)

Fixpoint first_error {A : Type} (check : A -> option error) (l : list A) : option error :=
  match l with
  | [] => None
  | x :: l => match check x with Some err => Some err | None => first_error check l end
  end.

Fixpoint register_roots (roots : SourceRegistry) (registrations : list SourceRootRegistration)
    : result error SourceRegistry :=
  match registrations with
  | [] => Ok roots
  | r :: registrations =>
      let id := TrimSpace (sr_ID r) in
      match validateSourceRoot id with
      | Some err => Err err
      | None =>
      return Err ErrSource when has roots id ;;
      return Err ErrNamespace when bool_decide (sr_NamespacePrefixes r = []) ;;
      return Err ErrSource when bool_decide (sr_Sources r = []) ;;
      let prefixes := normalizeUnique (sr_NamespacePrefixes r) in
      match first_error validateNamespacePrefix prefixes with
      | Some err => Err err
      | None =>
      let sources := normalizeUnique (sr_Sources r) in
      match first_error validateSource sources with
      | Some err => Err err
      | None =>
          register_roots (<[id := {| sr_ID := id; sr_NamespacePrefixes := prefixes; sr_Sources := sources |}]> roots)
            registrations
      end end end
  end.

Definition NewSourceRegistry (registrations : list SourceRootRegistration) : result error SourceRegistry :=
  register_roots ∅ registrations.

(** [SourceRegistry.Validate]. *)
Definition Registry_Validate (r : SourceRegistry) (m : Manifest) : option error :=
  match Validate m with
  | Some err => Some err
  | None =>
      match r !! m_SourceRoot m with
      | None => Some ErrSource
      | Some root =>
          return Some ErrSource when String.eqb (m_Source m) "" ;;
          return Some ErrSource when negb (contains (sr_Sources root) (m_Source m)) ;;
          if existsb (namespaceMatches (m_Namespace m)) (sr_NamespacePrefixes root) then None else Some ErrNamespace
      end
  end.

(** [SourceRegistry.SourceRoot]. *)
Definition SourceRoot (r : SourceRegistry) (id : string) : option SourceRootRegistration := r !! TrimSpace id.

(** ** Examples *)

Example version_examples :
  map (fun p => compareVersions (fst p) (snd p))
    [("1.2", "1.2.0"); ("v1.0.0", "1.0.0+build"); ("1.0.0-rc.2", "1.0.0-rc.10"); ("1.0.0-rc.1", "1.0.0");
     ("1.0.0-alpha", "1.0.0-1"); ("2.0", "10.0"); ("1.0.0-01", "1.0.0"); ("9223372036854775808", "1")]
  = [Some 0; Some 0; Some (-1); Some (-1); Some 1; Some (-1); None; None].
Proof. vm_compute. reflexivity. Qed.

Example namespace_examples :
  map validateNamespace ["official/waf"; "official/a/b"; "community/me/x"; "root/x"; "enterprise/acme"; " official/waf "]
  = [None; Some ErrNamespace; None; Some ErrNamespace; Some ErrNamespace; None].
Proof. vm_compute. reflexivity. Qed.
