(* ===== verification/CrpVersion.v ===== *)
(** * The order of versions

    [compareVersions] is a total preorder on the versions it can read: a
    lexicographic composition of comparisons of numbers, ranks and texts. A
    chain of accepted upgrades therefore never ends below its start. *)

From S2P Require Import Prelude GoText CrpManifest.

Open Scope string_scope.
Open Scope list_scope.
Open Scope Z_scope.
Open Scope go_scope.

(** ** Comparisons that answer -1, 0 or 1 *)

Class Comparison {A : Type} (c : A -> A -> Z) : Prop := {
  c_range : forall x y, -1 <= c x y <= 1;
  c_opp : forall x y, c y x = - c x y;
  c_trans : forall x y z, c x y <= 0 -> c y z <= 0 -> c x z <= 0 }.

Section Comparisons.
Context {A B : Type}.

Lemma c_refl (c : A -> A -> Z) `{!Comparison c} x : c x x = 0.
Proof. pose proof (c_opp x x). lia. Qed.

(** Equivalent elements compare alike. *)
Lemma c_congr (c : A -> A -> Z) `{!Comparison c} x y z : c x y = 0 -> c x z = c y z.
Proof.
  intros E. pose proof (c_opp x y) as Oxy. pose proof (c_opp x z) as Oxz. pose proof (c_opp y z) as Oyz.
  pose proof (c_range x z). pose proof (c_range y z).
  pose proof (c_trans x y z). pose proof (c_trans y x z). pose proof (c_trans z x y). pose proof (c_trans z y x). lia.
Qed.

Definition lex (c d : A -> A -> Z) (x y : A) : Z := if c x y =? 0 then d x y else c x y.

Lemma lex_comparison (c d : A -> A -> Z) `{!Comparison c, !Comparison d} : Comparison (lex c d).
Proof.
  constructor; unfold lex.
  - intros x y. pose proof (c_range (c := c) x y). pose proof (c_range (c := d) x y). by branch_goal.
  - intros x y. pose proof (c_opp (c := c) x y). pose proof (c_opp (c := d) x y). branch_goal; props; lia.
  - intros x y z. destruct (c x y =? 0) eqn:Exy; props.
    + rewrite (c_congr c x y z Exy). destruct (c y z =? 0); [apply c_trans|auto].
    + intros Lxy. destruct (c y z =? 0) eqn:Eyz; props; intros Lyz.
      * assert (c x z = c x y) as ->.
        { pose proof (c_opp (c := c) y z). rewrite (c_opp (c := c) z x), (c_opp (c := c) y x).
          rewrite (c_congr c z y x); [done|lia]. }
        by rewrite (proj2 (Z.eqb_neq _ _) Exy).
      * assert (c x z < 0).
        { pose proof (c_trans (c := c) x y z). pose proof (c_range (c := c) x z).
          destruct (Z.eq_dec (c x z) 0) as [E|]; [|lia]. pose proof (c_congr c x z y E).
          pose proof (c_opp (c := c) y z). lia. }
        by rewrite (proj2 (Z.eqb_neq (c x z) 0)); [lia|lia].
Qed.

Lemma pullback_comparison (f : A -> B) (c : B -> B -> Z) `{!Comparison c} : Comparison (fun x y => c (f x) (f y)).
Proof. constructor; intros *; [apply c_range|apply c_opp|apply c_trans]. Qed.
End Comparisons.

Definition numbers (x y : Z) : Z := if x <? y then -1 else if y <? x then 1 else 0.

#[global] Instance numbers_comparison : Comparison numbers.
Proof.
  constructor; unfold numbers; intros *.
  - destruct (x <? y), (y <? x); lia.
  - destruct (Z.ltb_spec x y), (Z.ltb_spec y x); lia.
  - destruct (Z.ltb_spec x y), (Z.ltb_spec y x), (Z.ltb_spec y z), (Z.ltb_spec z y), (Z.ltb_spec x z), (Z.ltb_spec z x); lia.
Qed.

Definition texts (x y : string) : Z := if String.ltb x y then -1 else if String.ltb y x then 1 else 0.

Lemma texts_compare x y : texts x y = match String.compare x y with Lt => -1 | Eq => 0 | Gt => 1 end.
Proof.
  unfold texts, String.ltb. rewrite (String.compare_antisym x y). by destruct (String.compare y x).
Qed.

Lemma texts_le x y : texts x y <= 0 <-> String.le x y.
Proof.
  rewrite texts_compare. unfold String.le, String.leb. destruct (String.compare x y); cbn; split; intros X; by try (exfalso; lia).
Qed.

#[global] Instance texts_comparison : Comparison texts.
Proof.
  constructor; intros *.
  - rewrite texts_compare. destruct (String.compare _ _); lia.
  - rewrite !texts_compare, (String.compare_antisym x y). by destruct (String.compare y x).
  - rewrite !texts_le. apply transitivity.
Qed.

(** ** The comparisons of the code *)

Definition rank (b : bool) : Z := if b then 0 else 1.

Lemma compare_identifier_lex lhs rhs :
  compare_identifier lhs rhs =
  lex (fun x y => numbers (rank (allDigits x)) (rank (allDigits y)))
    (lex (fun x y => numbers (if allDigits x then fst (Atoi x) else 0) (if allDigits y then fst (Atoi y) else 0))
       (fun x y => texts (if allDigits x then "" else x) (if allDigits y then "" else y))) lhs rhs.
Proof.
  unfold compare_identifier, lex. destruct (allDigits lhs), (allDigits rhs); simpl; try done.
  unfold numbers. by repeat match goal with |- context [?a <? ?b] => destruct (a <? b) end.
Qed.

#[global] Instance compare_identifier_comparison : Comparison compare_identifier.
Proof.
  assert (Comparison (lex (fun x y => numbers (rank (allDigits x)) (rank (allDigits y)))
    (lex (fun x y => numbers (if allDigits x then fst (Atoi x) else 0) (if allDigits y then fst (Atoi y) else 0))
       (fun x y => texts (if allDigits x then "" else x) (if allDigits y then "" else y))))) as C.
  { apply lex_comparison; [|apply lex_comparison].
    - apply (pullback_comparison (fun x => rank (allDigits x))), _.
    - apply (pullback_comparison (fun x => if allDigits x then fst (Atoi x) else 0)), _.
    - apply (pullback_comparison (fun x => if allDigits x then "" else x)), _. }
  constructor; intros *; rewrite ?compare_identifier_lex; [apply c_range|apply c_opp|apply c_trans].
Qed.

#[global] Instance compare_pre_comparison : Comparison compare_pre.
Proof.
  constructor.
  - induction x as [|x a IH]; intros [|y b]; simpl; try lia.
    pose proof (c_range (c := compare_identifier) x y). branch_goal; [apply IH|lia].
  - induction x as [|x a IH]; intros [|y b]; simpl; try lia. rewrite (c_opp x y).
    destruct (Z.eqb_spec (compare_identifier x y) 0) as [->|]; simpl; [apply IH|].
    by rewrite (proj2 (Z.eqb_neq _ _)) by lia.
  - induction x as [|x a IH]; intros [|y b] [|z e]; simpl; try lia.
    destruct (Z.eqb_spec (compare_identifier x y) 0) as [E|N].
    + rewrite (c_congr _ x y z E). destruct (compare_identifier y z =? 0); [apply IH|auto].
    + intros Lxy. destruct (Z.eqb_spec (compare_identifier y z) 0) as [E|M]; intros Lyz.
      * assert (compare_identifier x z = compare_identifier x y) as ->.
        { rewrite (c_opp z x), (c_opp y x), (c_congr _ z y x); [done|]. rewrite (c_opp y z). lia. }
        by rewrite (proj2 (Z.eqb_neq _ _) N).
      * assert (compare_identifier x z <> 0) as NZ.
        { intros E. pose proof (c_congr _ x z y E). pose proof (c_opp (c := compare_identifier) y z). lia. }
        rewrite (proj2 (Z.eqb_neq _ _) NZ). by apply (c_trans x y z).
Qed.

Definition base_at (i : nat) (v : parsedVersion) : Z := nth i (pv_base v) 0.

(** The code's comparison of versions whose bases have three numbers. *)
Definition version_order : parsedVersion -> parsedVersion -> Z :=
  lex (fun x y => numbers (base_at 0 x) (base_at 0 y))
    (lex (fun x y => numbers (base_at 1 x) (base_at 1 y))
      (lex (fun x y => numbers (base_at 2 x) (base_at 2 y))
        (lex (fun x y => numbers (rank (negb (bool_decide (pv_pre x = [])))) (rank (negb (bool_decide (pv_pre y = [])))))
          (fun x y => compare_pre (pv_pre x) (pv_pre y))))).

#[global] Instance version_order_comparison : Comparison version_order.
Proof.
  unfold version_order. repeat apply lex_comparison.
  - apply (pullback_comparison (base_at 0)), _.
  - apply (pullback_comparison (base_at 1)), _.
  - apply (pullback_comparison (base_at 2)), _.
  - apply (pullback_comparison (fun x => rank (negb (bool_decide (pv_pre x = []))))), _.
  - apply (pullback_comparison pv_pre), _.
Qed.

Lemma compare_parsed_order aa bb :
  length (pv_base aa) = 3%nat -> length (pv_base bb) = 3%nat -> compare_parsed aa bb = version_order aa bb.
Proof.
  destruct aa as [[|a1 [|a2 [|a3 [|]]]] p], bb as [[|b1 [|b2 [|b3 [|]]]] q]; try done. intros _ _.
  unfold compare_parsed, version_order, lex, base_at. cbn [pv_base pv_pre nth compare_base].
  unfold numbers.
  destruct (a1 <? b1); [done|]. destruct (b1 <? a1); [done|].
  destruct (a2 <? b2); [done|]. destruct (b2 <? a2); [done|].
  destruct (a3 <? b3); [done|]. destruct (b3 <? a3); [done|].
  by destruct p, q.
Qed.

Lemma parse_version_base value v : parse_version value = Some v -> length (pv_base v) = 3%nat.
Proof.
  unfold parse_version. intros H. branch H; simplify_eq; cbn [pv_base];
    rewrite length_take, length_app, repeat_length; lia.
Qed.

(** [compareVersions] is the order of the parsed versions. *)
Lemma compareVersions_spec a b :
  compareVersions a b =
  match parse_version a, parse_version b with Some x, Some y => Some (version_order x y) | _, _ => None end.
Proof.
  unfold compareVersions. destruct (parse_version a) as [x|] eqn:Ea; [|done].
  destruct (parse_version b) as [y|] eqn:Eb; [|done].
  by rewrite compare_parsed_order by eauto using parse_version_base.
Qed.

(** ** Chains of upgrades *)

(** Every manifest is accepted as an upgrade of the release before it. *)
Fixpoint accepted_upgrades (current : Release) (ms : list Manifest) : Prop :=
  match ms with
  | [] => True
  | m :: ms => ValidateUpgrade m current = None /\ accepted_upgrades (release_of m) ms
  end.

Definition not_below (current candidate : Release) : Prop :=
  (exists c, compareVersions (rel_Version candidate) (rel_Version current) = Some c /\ 0 <= c)
  /\ (rel_Sequence current <> 0 -> rel_Sequence candidate <> 0 /\ rel_Sequence current <= rel_Sequence candidate).

Lemma not_below_trans a b c : not_below a b -> not_below b c -> not_below a c.
Proof.
  unfold not_below. rewrite !compareVersions_spec. intros [[x [Ex Lx]] Sx] [[y [Ey Ly]] Sy]. split; [|lia].
  destruct (parse_version (rel_Version a)) as [va|], (parse_version (rel_Version b)) as [vb|],
    (parse_version (rel_Version c)) as [vc|]; simplify_eq. eexists; split; [done|].
  pose proof (c_trans va vb vc). pose proof (c_opp (c := version_order) va vc).
  pose proof (c_opp (c := version_order) va vb). pose proof (c_opp (c := version_order) vb vc). lia.
Qed.

Lemma no_downgrade_not_below current candidate :
  rel_Version current <> "" -> no_downgrade current candidate = None -> not_below current candidate.
Proof.
  unfold no_downgrade, not_below. intros NE%String.eqb_neq. rewrite NE. cbn [negb andb].
  destruct (compareVersions _ _) as [c|] eqn:E; [|done]. destruct (c <? 0) eqn:L; [done|]. props.
  intros H. branch H. split; [by eauto|]. intros NS. apply andb_false_iff in E0 as [X|X]; props; [done|lia].
Qed.

Lemma Validate_version m : Validate m = None -> m_Version m <> "".
Proof. 
  unfold Validate. intros H E. rewrite E in H. replace (versionPart (TrimSpace "")) with false in H by done.
  cbn [negb] in H. branch H.
Qed.

(** Upgrades never move backwards, over any number of them: when each
    manifest of a sequence is accepted by [ValidateUpgrade] against the release
    before it, the last version is not below the first one in the order of
    versions, and once a release sequence is known the last sequence is at least
    as large. The comparison of versions is a total preorder, so no sequence of
    accepted steps can cycle below its start. *)
Theorem upgrade_chain_never_downgrades (current : Release) (ms : list Manifest) (m : Manifest) :
  rel_Version current <> "" -> accepted_upgrades current (ms ++ [m]) -> not_below current (release_of m).
Proof.
  revert current. induction ms as [|n ms IH]; intros current NE [U A]; unfold ValidateUpgrade in U; branch U.
  - by apply no_downgrade_not_below.
  - eapply not_below_trans; [by apply no_downgrade_not_below|]. apply IH; [|done]. by apply Validate_version.
Qed.

(** A release whose version cannot be compared is never upgraded. *)
Lemma unreadable_version_never_upgraded current m :
  rel_Version current <> "" -> parse_version (rel_Version current) = None -> is_Some (ValidateUpgrade m current).
Proof.
  intros NE%String.eqb_neq P. unfold ValidateUpgrade. destruct (Validate m); [eauto|].
  unfold no_downgrade. rewrite NE, compareVersions_spec, P. destruct (parse_version (rel_Version (release_of m))); by eexists.
Qed.
