(* ===== verification/CrpTrust.v ===== *)
(** * Signatures and trust roots (internal/crp/signatures.go)

    Stores of trust roots, the bytes that signers sign, the verification of a
    manifest against a quorum of keys, and the rotation and revocation of keys.
    [NewTrustStore] normalises the slices of its argument in place; the values
    written are the ones stored. *)

From S2P Require Import Prelude GoText Sha256 Json CrpManifest.
From Stdlib Require Import Ascii.

Open Scope string_scope.
Open Scope list_scope.
Open Scope Z_scope.
Open Scope go_scope.

Definition SignerClass : Type := string.
Definition SignatureAlgorithmEd25519 : string := "ed25519".
Definition SignerOfficial : SignerClass := "official".
Definition SignerEnterprise : SignerClass := "enterprise".
Definition SignerCommunity : SignerClass := "community".
Definition SignerPersonal : SignerClass := "personal".
Definition SignerTest : SignerClass := "test".
Definition SignerDevelopment : SignerClass := "development".
Definition SignerUntrusted : SignerClass := "untrusted".

Definition VerificationStatus : Type := string.
Definition VerificationTrusted : VerificationStatus := "trusted".
Definition VerificationNeedsConfirmation : VerificationStatus := "needs_confirmation".
Definition VerificationRejected : VerificationStatus := "rejected".

(** ** Data *)

Record Signature := { sig_KeyID : string; sig_Algorithm : string; sig_Value : string; sig_SignedAt : Time }.

Record TrustKey := {
  tk_ID : string; tk_PublicKey : list Z; tk_Class : SignerClass; tk_NotBefore : Time; tk_NotAfter : Time;
  tk_RevokedAt : option Time }.

Record SignaturePolicy := { p_Threshold : Z; p_Total : Z }.

#[global] Instance SignaturePolicy_eq_dec : EqDecision SignaturePolicy.
Proof. solve_decision. Defined.
#[global] Instance Signature_eq_dec : EqDecision Signature.
Proof. solve_decision. Defined.

Record TrustRoot := {
  tr_ID : string; tr_Class : SignerClass; tr_NamespacePrefixes : list string; tr_Keys : list TrustKey;
  tr_Policy : SignaturePolicy; tr_HighRiskPolicy : SignaturePolicy; tr_MaxValidity : Duration }.

Abbreviation TrustStore := (gmap string TrustRoot).

Record VerificationOptions := { v_Now : Time; v_HighRisk : bool; v_AllowConfirmation : bool }.

Record SignatureReport := {
  rp_Status : VerificationStatus; rp_RootID : string; rp_Class : SignerClass; rp_Required : Z;
  rp_ValidSignatures : Z; rp_SeenKeyIDs : list string; rp_InvalidKeyIDs : list string; rp_Reasons : list string }.

Definition PublicKeySize : Z := 32.
Definition SignatureSize : Z := 64.

(** ** The signed bytes *)

Definition newline : string := String (ascii_of_nat 10) EmptyString.

Definition digests_json (d : Digests) : json :=
  JObject [("md5", JString (MD5 d)); ("sha1", JString (SHA1 d)); ("sha256", JString (SHA256 d))].

(** The option [omitempty] has no effect on the fields that hold structs. *)
Definition artifact_json (a : Artifact) : json :=
  JObject (omit_empty "name" (a_Name a)
    ++ (if a_Size a =? 0 then [] else [("size", JNumber (a_Size a))])
    ++ [("digests", digests_json (a_Digests a))]).

Definition manifest_json (m : Manifest) : json :=
  JObject (omit_empty "api_version" (m_APIVersion m) ++ omit_empty "kind" (m_Kind m)
    ++ [("name", JString (m_Name m))] ++ omit_empty "plugin_id" (m_PluginID m)
    ++ [("version", JString (m_Version m)); ("namespace", JString (m_Namespace m))]
    ++ omit_empty "publisher" (m_Publisher m) ++ omit_empty "source" (m_Source m)
    ++ [("source_root", JString (m_SourceRoot m)); ("release_sequence", JNumber (m_ReleaseSequence m));
        ("digests", digests_json (m_Digests m)); ("artifact", artifact_json (m_Artifact m))]).

Definition domain_bytes (domain : string) (j : json) : result error string :=
  match json_bytes j with
  | None => Err ErrSignature
  | Some b => Ok (domain ++ newline ++ of_bytes b)%string
  end.

Definition SigningBytes (m : Manifest) : result error string :=
  match Validate m with
  | Some err => Err err
  | None => domain_bytes "cheesewaf-crp-manifest-v1" (manifest_json m)
  end.

Definition signatureSigningBytes (m : Manifest) (sig : Signature) : result error string :=
  match Validate m with
  | Some err => Err err
  | None =>
      domain_bytes "cheesewaf-crp-signature-v1"
        (JObject [("manifest", manifest_json m); ("key_id", JString (sig_KeyID sig));
                  ("algorithm", JString (sig_Algorithm sig)); ("signed_at", JTime (sig_SignedAt sig))])
  end.

Definition ContentIdentity (m : Manifest) : result error string :=
  match SigningBytes m with Err err => Err err | Ok b => Ok (hex_sum b) end.

Definition KeyIDForPublicKey (publicKey : list Z) : string := EncodeHex (Sum256 publicKey).

(** ** Policies *)

Definition production (class : SignerClass) : bool :=
  String.eqb class SignerOfficial || String.eqb class SignerEnterprise.

Definition validateSignerClass (class : SignerClass) : option error :=
  if existsb (String.eqb class)
       [SignerOfficial; SignerEnterprise; SignerCommunity; SignerPersonal; SignerTest; SignerDevelopment; SignerUntrusted]
  then None else Some ErrTrustRoot.

Definition under (prefix root : string) : bool := String.eqb prefix root || HasPrefix prefix (root ++ "/").

Definition validateRootNamespaceClass (class : SignerClass) (prefix : string) : option error :=
  return Some ErrTrustRoot when String.eqb class SignerOfficial && negb (under prefix "official") ;;
  return Some ErrTrustRoot when String.eqb class SignerEnterprise && negb (under prefix "enterprise") ;;
  return Some ErrTrustRoot when negb (String.eqb class SignerOfficial) && negb (String.eqb class SignerEnterprise)
    && (under prefix "official" || under prefix "enterprise") ;;
  None.

Definition no_policy : SignaturePolicy := {| p_Threshold := 0; p_Total := 0 |}.

Definition defaultPolicies (root : TrustRoot) : SignaturePolicy * SignaturePolicy :=
  let normal := tr_Policy root in
  let high := tr_HighRiskPolicy root in
  if production (tr_Class root) then
    (if bool_decide (normal = no_policy) then {| p_Threshold := 2; p_Total := 3 |} else normal,
     if bool_decide (high = no_policy) then {| p_Threshold := 3; p_Total := 5 |} else high)
  else
    let normal := if bool_decide (normal = no_policy) then {| p_Threshold := 1; p_Total := 1 |} else normal in
    (normal, if bool_decide (high = no_policy) then normal else high).

Definition days (n : Z) : Duration := n * 24 * Hour.

Definition defaultMaxValidity (class : SignerClass) : Duration :=
  if String.eqb class SignerCommunity || String.eqb class SignerPersonal then days 365
  else if String.eqb class SignerTest then days 30
  else if String.eqb class SignerDevelopment then days 7 else 0.

Definition classMaxValidity (class : SignerClass) : Duration :=
  if String.eqb class SignerEnterprise || String.eqb class SignerOfficial then days (3 * 365)
  else if String.eqb class SignerCommunity || String.eqb class SignerPersonal then days 365
  else if String.eqb class SignerTest then days 30
  else if String.eqb class SignerDevelopment then days 7 else 0.

Definition validatePolicyForClass (policy : SignaturePolicy) (keyCount : Z) (allowInsufficientKeys : bool)
    (class : SignerClass) (highRisk : bool) : option error :=
  let minimum := if highRisk then {| p_Threshold := 3; p_Total := 5 |} else {| p_Threshold := 2; p_Total := 3 |} in
  return Some ErrTrustRoot when production class
    && ((p_Threshold policy <? p_Threshold minimum) || (p_Total policy <? p_Total minimum)) ;;
  return Some ErrTrustRoot when (p_Threshold policy <? 1) || (p_Total policy <? p_Threshold policy)
    || (negb allowInsufficientKeys && (keyCount <? p_Total policy)) ;;
  None.

(** ** Trust stores *)

(** The prefixes of a root, normalised. *)
Fixpoint root_prefixes (class : SignerClass) (prefixes : list string) : result error (list string) :=
  match prefixes with
  | [] => Ok []
  | p :: prefixes =>
      match validateNamespacePrefix p with
      | Some err => Err err
      | None =>
          let p := TrimSuffix (TrimSpace p) "/" in
          match validateRootNamespaceClass class p with
          | Some err => Err err
          | None => let? rest := root_prefixes class prefixes in Ok (p :: rest)
          end
      end
  end.

Definition key_with (k : TrustKey) (id : string) (class : SignerClass) : TrustKey :=
  {| tk_ID := id; tk_PublicKey := tk_PublicKey k; tk_Class := class; tk_NotBefore := tk_NotBefore k;
     tk_NotAfter := tk_NotAfter k; tk_RevokedAt := tk_RevokedAt k |}.

(** The keys of a root, with the IDs and the public keys seen so far. *)
Fixpoint root_keys (class : SignerClass) (maxValidity : Duration) (seen seenPublic : gset string) (keys : list TrustKey)
    : result error (list TrustKey) :=
  match keys with
  | [] => Ok []
  | k :: keys =>
      let id := TrimSpace (tk_ID k) in
      return Err ErrTrustRoot when String.eqb id "" || negb (Z.of_nat (length (tk_PublicKey k)) =? PublicKeySize) ;;
      return Err ErrTrustRoot when bool_decide (id ∈ seen) ;;
      let publicID := EncodeHex (tk_PublicKey k) in
      return Err ErrTrustRoot when bool_decide (publicID ∈ seenPublic) ;;
      return Err ErrTrustRoot when negb (IsZero (tk_NotBefore k)) && negb (IsZero (tk_NotAfter k))
        && (negb (After (tk_NotAfter k) (tk_NotBefore k))
            || ((0 <? maxValidity) && (maxValidity <? TimeSub (tk_NotAfter k) (tk_NotBefore k)))) ;;
      let k := key_with k id (if String.eqb (tk_Class k) "" then class else tk_Class k) in
      match validateSignerClass (tk_Class k) with
      | Some err => Err err
      | None =>
          let? rest := root_keys class maxValidity ({[id]} ∪ seen) ({[publicID]} ∪ seenPublic) keys in Ok (k :: rest)
      end
  end.

(** The body of the loop of [NewTrustStore]. *)
Definition admit_root (out : TrustStore) (root : TrustRoot) : result error TrustStore :=
  let id := TrimSpace (tr_ID root) in
  return Err ErrTrustRoot when String.eqb id "" || bool_decide (tr_NamespacePrefixes root = [])
    || (length (tr_Keys root) =? 0)%nat ;;
  return Err ErrTrustRoot when has out id ;;
  match validateSignerClass (tr_Class root) with
  | Some err => Err err
  | None =>
  let class := tr_Class root in
  let maxValidity := if tr_MaxValidity root <=? 0 then defaultMaxValidity class else tr_MaxValidity root in
  let? prefixes := root_prefixes class (tr_NamespacePrefixes root) in
  let '(policy, highRiskPolicy) := defaultPolicies root in
  return Err ErrTrustRoot when (0 <? classMaxValidity class) && (classMaxValidity class <? maxValidity) ;;
  let keyCount := Z.of_nat (length (tr_Keys root)) in
  match validatePolicyForClass policy keyCount false class false with
  | Some err => Err err
  | None =>
  let bootstrap := String.eqb class SignerOfficial && bool_decide (highRiskPolicy = {| p_Threshold := 3; p_Total := 5 |}) in
  match validatePolicyForClass highRiskPolicy keyCount bootstrap class true with
  | Some err => Err err
  | None =>
      let? keys := root_keys class maxValidity ∅ ∅ (tr_Keys root) in
      Ok (<[id := {| tr_ID := id; tr_Class := class; tr_NamespacePrefixes := prefixes; tr_Keys := keys;
                     tr_Policy := policy; tr_HighRiskPolicy := highRiskPolicy; tr_MaxValidity := maxValidity |}]> out)
  end end end.

Fixpoint admit_roots (out : TrustStore) (roots : list TrustRoot) : result error TrustStore :=
  match roots with
  | [] => Ok out
  | root :: roots => let? out := admit_root out root in admit_roots out roots
  end.

Definition NewTrustStore (roots : list TrustRoot) : result error TrustStore := admit_roots ∅ roots.

Definition Root (s : TrustStore) (id : string) : option TrustRoot := s !! TrimSpace id.

Definition requiresConfirmation (class : SignerClass) : bool :=
  existsb (String.eqb class) [SignerCommunity; SignerPersonal; SignerTest; SignerDevelopment; SignerUntrusted].

(** ** Verification *)

(** What one signature of a manifest is found to be. *)
#[warnings="-register-all"]
Inductive verdict :=
| Duplicate | Unknown | BadAlgorithm | Revoked | BadTimestamp | OutsideWindow | TooOld | BadSignature | Valid (key : TrustKey).

(** The state of the loop of [VerifyManifest]. *)
Record Tally := {
  t_report : SignatureReport; t_seen : gset string;
  t_unknown : bool; t_revoked : bool; t_expired : bool; t_bad : bool }.

Definition report_seen (id : string) (r : SignatureReport) : SignatureReport :=
  {| rp_Status := rp_Status r; rp_RootID := rp_RootID r; rp_Class := rp_Class r; rp_Required := rp_Required r;
     rp_ValidSignatures := rp_ValidSignatures r; rp_SeenKeyIDs := rp_SeenKeyIDs r ++ [id];
     rp_InvalidKeyIDs := rp_InvalidKeyIDs r; rp_Reasons := rp_Reasons r |}.

Definition report_reason (invalid : list string) (reason : string) (r : SignatureReport) : SignatureReport :=
  {| rp_Status := rp_Status r; rp_RootID := rp_RootID r; rp_Class := rp_Class r; rp_Required := rp_Required r;
     rp_ValidSignatures := rp_ValidSignatures r; rp_SeenKeyIDs := rp_SeenKeyIDs r;
     rp_InvalidKeyIDs := rp_InvalidKeyIDs r ++ invalid; rp_Reasons := rp_Reasons r ++ [reason] |}.

Definition report_valid (confirm : bool) (r : SignatureReport) : SignatureReport :=
  {| rp_Status := if confirm then VerificationNeedsConfirmation else rp_Status r; rp_RootID := rp_RootID r;
     rp_Class := rp_Class r; rp_Required := rp_Required r; rp_ValidSignatures := rp_ValidSignatures r + 1;
     rp_SeenKeyIDs := rp_SeenKeyIDs r; rp_InvalidKeyIDs := rp_InvalidKeyIDs r; rp_Reasons := rp_Reasons r |}.

Definition report_status (status : VerificationStatus) (r : SignatureReport) : SignatureReport :=
  {| rp_Status := status; rp_RootID := rp_RootID r; rp_Class := rp_Class r; rp_Required := rp_Required r;
     rp_ValidSignatures := rp_ValidSignatures r; rp_SeenKeyIDs := rp_SeenKeyIDs r;
     rp_InvalidKeyIDs := rp_InvalidKeyIDs r; rp_Reasons := rp_Reasons r |}.

(** What the loop records for a verdict on the signature of [id]. *)
Definition note (root : TrustRoot) (sig : Signature) (v : verdict) (t : Tally) : Tally :=
  let id := sig_KeyID sig in
  let with_ report unknown revoked expired bad :=
    {| t_report := report; t_seen := t_seen t; t_unknown := t_unknown t || unknown; t_revoked := t_revoked t || revoked;
       t_expired := t_expired t || expired; t_bad := t_bad t || bad |} in
  let reject reason := report_reason [id] reason (t_report t) in
  match v with
  | Duplicate => with_ (report_reason [] ("duplicate signer " ++ id) (t_report t)) false false false false
  | Unknown => with_ (reject ("unknown signer " ++ id)) true false false false
  | BadAlgorithm => with_ (reject ("unsupported algorithm " ++ sig_Algorithm sig)) false false false true
  | Revoked => with_ (reject ("revoked signer " ++ id)) false true false false
  | BadTimestamp => with_ (reject ("missing or future signature timestamp " ++ id)) false false false true
  | OutsideWindow => with_ (reject ("expired signer " ++ id)) false false true false
  | TooOld => with_ (reject "signature exceeds root validity") false false false false
  | BadSignature => with_ (reject ("bad signature " ++ id)) false false false true
  | Valid key =>
      with_ (report_valid (requiresConfirmation (tk_Class key) || requiresConfirmation (tr_Class root)) (t_report t))
        false false false false
  end%string.

Section Verification.
(** [ed25519.Verify] of a public key, a message and a signature. *)
Context (ed25519_Verify : list Z -> string -> list Z -> bool).

Definition judge (root : TrustRoot) (keys : gmap string TrustKey) (m : Manifest) (now : Time) (seen : gset string)
    (sig : Signature) : verdict :=
  return Duplicate when bool_decide (sig_KeyID sig ∈ seen) ;;
  match keys !! sig_KeyID sig with
  | None => Unknown
  | Some key =>
      return BadAlgorithm when negb (String.eqb (sig_Algorithm sig) SignatureAlgorithmEd25519) ;;
      return Revoked when match tk_RevokedAt key with Some at_ => negb (Before now at_) | None => false end ;;
      return BadTimestamp when IsZero (sig_SignedAt sig) || After (sig_SignedAt sig) now ;;
      let at_ := sig_SignedAt sig in
      return OutsideWindow when (negb (IsZero (tk_NotBefore key)) && Before at_ (tk_NotBefore key))
                             || (negb (IsZero (tk_NotAfter key)) && After at_ (tk_NotAfter key)) ;;
      return TooOld when (0 <? tr_MaxValidity root) && (tr_MaxValidity root <? TimeSub now at_) ;;
      match signatureSigningBytes m sig, base64_decode (sig_Value sig) with
      | Ok signedBytes, Some raw =>
          return BadSignature when negb (Z.of_nat (length raw) =? SignatureSize)
                                || negb (ed25519_Verify (tk_PublicKey key) signedBytes raw) ;;
          Valid key
      | _, _ => BadSignature
      end
  end.

Definition tally_step (root : TrustRoot) (keys : gmap string TrustKey) (m : Manifest) (now : Time)
    (t : Tally) (sig : Signature) : Tally :=
  let v := judge root keys m now (t_seen t) sig in
  note root sig v
    {| t_report := report_seen (sig_KeyID sig) (t_report t); t_seen := {[sig_KeyID sig]} ∪ t_seen t;
       t_unknown := t_unknown t; t_revoked := t_revoked t; t_expired := t_expired t; t_bad := t_bad t |}.

Definition keys_by_id (keys : list TrustKey) : gmap string TrustKey :=
  fold_left (fun m k => <[tk_ID k := k]> m) keys ∅.

(** The error of a verification that misses its threshold. *)
Definition threshold_error (t : Tally) : error :=
  let none_valid := rp_ValidSignatures (t_report t) =? 0 in
  return ErrUnknownSigner when t_unknown t && none_valid ;;
  let causes := (if t_revoked t && none_valid then [ErrRevokedSigner] else [])
    ++ (if t_expired t && none_valid then [ErrExpiredSigner] else []) ++ (if t_bad t then [ErrSignature] else []) in
  match causes with
  | [] => ErrThresholdNotMet
  | _ => Joined (causes ++ [ErrThresholdNotMet])
  end.

Definition empty_report : SignatureReport :=
  {| rp_Status := VerificationRejected; rp_RootID := ""; rp_Class := ""; rp_Required := 0; rp_ValidSignatures := 0;
     rp_SeenKeyIDs := []; rp_InvalidKeyIDs := []; rp_Reasons := [] |}.

Definition root_report (root : TrustRoot) (required : Z) : SignatureReport :=
  {| rp_Status := VerificationRejected; rp_RootID := tr_ID root; rp_Class := tr_Class root; rp_Required := required;
     rp_ValidSignatures := 0; rp_SeenKeyIDs := []; rp_InvalidKeyIDs := []; rp_Reasons := [] |}.

Definition policy_for (root : TrustRoot) (highRisk : bool) : SignaturePolicy :=
  if highRisk then tr_HighRiskPolicy root else tr_Policy root.

Definition count_signatures (root : TrustRoot) (required : Z) (m : Manifest) (now : Time) (signatures : list Signature)
    : Tally :=
  fold_left (tally_step root (keys_by_id (tr_Keys root)) m now) signatures
    {| t_report := root_report root required; t_seen := ∅; t_unknown := false; t_revoked := false; t_expired := false;
       t_bad := false |}.

(** [TrustStore.VerifyManifest]; [clock] is the time of the machine, used when
    no time of verification is given. *)
Definition VerifyManifest (clock : Time) (s : TrustStore) (m : Manifest) (signatures : list Signature)
    (opts : VerificationOptions) : SignatureReport * option error :=
  match Validate m with
  | Some err => (empty_report, Some err)
  | None =>
      match s !! m_SourceRoot m with
      | None => (empty_report, Some ErrUnknownSigner)
      | Some root =>
          return (root_report root 0, Some ErrNamespace) when
            negb (existsb (namespaceMatches (m_Namespace m)) (tr_NamespacePrefixes root)) ;;
          let policy := policy_for root (v_HighRisk opts) in
          let now := if IsZero (v_Now opts) then clock else v_Now opts in
          let t := count_signatures root (p_Threshold policy) m now signatures in
          let report := t_report t in
          return (report, Some (threshold_error t)) when rp_ValidSignatures report <? p_Threshold policy ;;
          if String.eqb (rp_Status report) VerificationNeedsConfirmation
          then (report, if negb (v_AllowConfirmation opts) then Some ErrConfirmationRequired else None)
          else (report_status VerificationTrusted report, None)
      end
  end.
End Verification.

(** ** Rotation and revocation *)

Definition with_keys (root : TrustRoot) (keys : list TrustKey) : TrustRoot :=
  {| tr_ID := tr_ID root; tr_Class := tr_Class root; tr_NamespacePrefixes := tr_NamespacePrefixes root; tr_Keys := keys;
     tr_Policy := tr_Policy root; tr_HighRiskPolicy := tr_HighRiskPolicy root; tr_MaxValidity := tr_MaxValidity root |}.

(** The roots in one of the orders that the iteration over the map may take. *)
Definition replaceRoot (s : TrustStore) (root : TrustRoot) : list TrustRoot :=
  map (fun p => if String.eqb (fst p) (tr_ID root) then root else snd p) (map_to_list s).

Fixpoint add_keys (keys additions : list TrustKey) : result error (list TrustKey) :=
  match additions with
  | [] => Ok keys
  | add :: additions =>
      return Err ErrKeyRotation when existsb (fun key => String.eqb (tk_ID key) (tk_ID add)) keys ;;
      add_keys (keys ++ [add]) additions
  end.

Definition Rotate (s : TrustStore) (rootID : string) (additions : list TrustKey) : result error TrustStore :=
  match s !! rootID with
  | None => Err ErrKeyRotation
  | Some root =>
      let? keys := add_keys (tr_Keys root) additions in
      NewTrustStore (replaceRoot s (with_keys root keys))
  end.

Definition revoked_at (k : TrustKey) (at_ : Time) : TrustKey :=
  {| tk_ID := tk_ID k; tk_PublicKey := tk_PublicKey k; tk_Class := tk_Class k; tk_NotBefore := tk_NotBefore k;
     tk_NotAfter := tk_NotAfter k; tk_RevokedAt := Some at_ |}.

(** The loop over the keys: the keys with the revocation, and whether the key
    was found. *)
Fixpoint revoke_keys (keyID : string) (at_ : Time) (keys : list TrustKey) : result error (list TrustKey * bool) :=
  match keys with
  | [] => Ok ([], false)
  | k :: keys =>
      if String.eqb (tk_ID k) keyID then
        match tk_RevokedAt k with
        | Some _ => Err ErrKeyRevocation
        | None => let? p := revoke_keys keyID at_ keys in Ok (revoked_at k at_ :: fst p, true)
        end
      else let? p := revoke_keys keyID at_ keys in Ok (k :: fst p, snd p)
  end.

(** [Revoke]; [clock] replaces a zero time. *)
Definition Revoke (clock : Time) (s : TrustStore) (rootID keyID : string) (at_ : Time) : result error TrustStore :=
  match s !! rootID with
  | None => Err ErrKeyRevocation
  | Some root =>
      let? p := revoke_keys keyID (if IsZero at_ then clock else at_) (tr_Keys root) in
      return Err ErrKeyRevocation when negb (snd p) ;;
      NewTrustStore (replaceRoot s (with_keys root (fst p)))
  end.
