(* ===== verification/CrpTrustSafety.v ===== *)
(** * What trust stores guarantee

    What [NewTrustStore] guarantees of the roots it stores, and what it keeps
    of their keys; what an accepted manifest proves, and that a revocation is
    permanent. *)

From S2P Require Import Prelude GoText Json CrpManifest CrpTrust.
From Stdlib Require Import Ascii.
From stdpp Require Import relations.

Open Scope string_scope.
Open Scope list_scope.
Open Scope Z_scope.
Open Scope go_scope.

(** ** Namespaces *)

Definition normal_prefix (p : string) : string := TrimSuffix (TrimSpace p) "/".

(** A namespace of the platform or of an organisation. *)
Definition production_namespace (namespace : string) : bool :=
  under (normal_prefix namespace) "official" || under (normal_prefix namespace) "enterprise".

Lemma identifier_plain c : is_alnum c || existsb (Ascii.eqb c) (bytes "_.-") = true -> plain c.
Proof.
  intros H. assert (forallb (fun n => let c := ascii_of_nat n in
    negb (is_alnum c || existsb (Ascii.eqb c) (bytes "_.-")) || ((byte_val c <? 128) && negb (IsSpace (byte_val c))))
    (seq 0 256) = true) as A by (vm_compute; reflexivity).
  rewrite forallb_forall in A. specialize (A (nat_of_ascii c)). cbv beta zeta in A.
  rewrite ascii_nat_embedding, H in A. cbn [negb orb] in A.
  assert (List.In (nat_of_ascii c) (seq 0 256)) as I by (apply in_seq; pose proof (nat_ascii_bounded c); lia).
  specialize (A I). props. by split.
Qed.

Lemma identifierPart_plain s : identifierPart s = true -> Forall plain (bytes s) /\ s <> "".
Proof.
  unfold identifierPart, identifier_of. intros H. split; [|by intros ->].
  destruct (bytes s) as [|c l]; [done|]. props. constructor.
  - apply identifier_plain, orb_true_iff. by left.
  - apply Forall_forall. intros x Hx. apply identifier_plain.
    match goal with F : forallb _ l = true |- _ => rewrite forallb_forall in F; by apply F, list_elem_of_In end.
Qed.

(** The last segment of a text that ends with the separator is empty. *)
Lemma split_on_ends c l : exists s segs, split_on c (l ++ [c]) = s :: segs ++ [[]].
Proof.
  induction l as [|d l IH]; cbn [app].
  - exists [], []. by rewrite split_on_sep.
  - destruct IH as (s & segs & E). destruct (Ascii.eqb_spec c d) as [<-|N].
    + exists [], (s :: segs). by rewrite split_on_sep, E.
    + exists (d :: s), segs. simpl. rewrite E. by destruct (Ascii.eqb_spec c d).
Qed.

Lemma HasSuffix_slash s : HasSuffix s "/" = true -> "" ∈ Split s "/".
Proof.
  unfold HasSuffix, Split. intros [r E]%has_prefix_spec. simpl in E.
  assert (bytes s = rev r ++ ["/"%char]) as -> by (rewrite <- (rev_involutive (bytes s)), E; done).
  destruct (split_on_ends "/"%char (rev r)) as (x & segs & ->).
  apply list_elem_of_fmap. exists []. split; [done|]. right. apply elem_of_app. right. by left.
Qed.

Lemma Split_plain s :
  forallb identifierPart (Split s "/") = true -> Forall plain (bytes s) /\ HasSuffix s "/" = false.
Proof.
  intros F. rewrite forallb_forall in F. split.
  - apply Forall_forall. intros x Hx. rewrite <- (join_split "/"%char (bytes s)) in Hx.
    apply join_chars in Hx as [->|(seg & Hs & Hx)]; [by vm_compute|].
    assert (identifierPart (of_bytes seg) = true) as [P _]%identifierPart_plain.
    { apply F, list_elem_of_In, list_elem_of_fmap. by exists seg. }
    rewrite bytes_of_bytes in P. by eapply Forall_forall in P.
  - destruct (HasSuffix s "/") eqn:E; [|done]. apply HasSuffix_slash, list_elem_of_In in E. by apply F in E.
Qed.

Lemma TrimSuffix_id s x : HasSuffix s x = false -> TrimSuffix s x = s.
Proof. unfold TrimSuffix. by intros ->. Qed.

(** A validated prefix is its own normal form. *)
Lemma normal_prefix_id p : validateNamespacePrefix p = None -> normal_prefix (normal_prefix p) = normal_prefix p.
Proof.
  unfold validateNamespacePrefix. fold (normal_prefix p). intros H. apply guard_None in H as [_ H]. cbv zeta in H.
  apply guard_None in H as [_ [F _]%guard_None].
  destruct (Split_plain (normal_prefix p)) as [P S]; [by apply negb_false_iff|].
  unfold normal_prefix at 1. by rewrite TrimSpace_plain, TrimSuffix_id.
Qed.

Lemma append_assoc a b c : ((a ++ b) ++ c = a ++ (b ++ c))%string.
Proof. induction a as [|x a IH]; [done|exact (f_equal (String x) IH)]. Qed.

Lemma under_spec p r : under p r = true <-> p = r \/ exists t, p = (r ++ "/" ++ t)%string.
Proof.
  unfold under. rewrite orb_true_iff, String.eqb_eq, HasPrefix_spec. apply or_iff_compat_l.
  split; intros [t ->]; exists t; by rewrite append_assoc.
Qed.

Lemma sep_prefix {A} (c : A) p r a b : c ∉ r -> p ++ c :: a = r ++ c :: b -> p = r \/ exists t, p = r ++ c :: t.
Proof.
  revert p. induction r as [|y r IH]; intros [|x p] N E; cbn in E; simplify_eq.
  - by left.
  - right. by exists p.
  - exfalso. apply N. by left.
  - destruct (IH p) as [->|[t ->]]; [set_solver|done|by left|right; by exists t].
Qed.

(** A prefix that covers a namespace below a root is itself below the root. *)
Lemma under_inherited ns p r :
  "/"%char ∉ bytes r -> under ns p = true -> under ns r = true -> under p r = true.
Proof.
  intros F. rewrite !under_spec. intros [->|[t ->]]; [done|].
  assert (forall a, bytes (p ++ "/" ++ a)%string = bytes p ++ "/"%char :: bytes a) as B.
  { intros a. by rewrite !string_append_bytes. }
  intros [E|[u E]]; apply (f_equal bytes) in E; rewrite B in E.
  - exfalso. apply F. rewrite <- E. apply elem_of_app. right. by left.
  - rewrite !string_append_bytes in E. apply sep_prefix in E as [E|[w E]]; [left|right|done].
    + by apply bytes_inj.
    + exists (of_bytes w). apply bytes_inj. by rewrite !string_append_bytes, bytes_of_bytes.
Qed.

(** ** Roots *)

(** What the store guarantees of a root. *)
Record root_ok (id : string) (r : TrustRoot) : Prop := {
  ok_id : tr_ID r = id;
  ok_trimmed : TrimSpace id = id;
  ok_key_ids : NoDup (map tk_ID (tr_Keys r));
  ok_public : NoDup (map tk_PublicKey (tr_Keys r));
  ok_keys_trimmed : Forall (fun k => TrimSpace (tk_ID k) = tk_ID k) (tr_Keys r);
  ok_prefixes : Forall (fun p => normal_prefix p = p) (tr_NamespacePrefixes r);
  ok_classes : Forall (fun p => under p "official" = true \/ under p "enterprise" = true -> production (tr_Class r) = true)
                 (tr_NamespacePrefixes r);
  ok_threshold : production (tr_Class r) = true -> 2 <= p_Threshold (tr_Policy r);
  ok_high_threshold : production (tr_Class r) = true -> 3 <= p_Threshold (tr_HighRiskPolicy r);
  ok_positive : 1 <= p_Threshold (tr_Policy r) /\ 1 <= p_Threshold (tr_HighRiskPolicy r) }.

Definition store_ok (s : TrustStore) : Prop := map_Forall root_ok s.

(** What a stored key keeps of the key it was made from. *)
Definition key_kept (k k' : TrustKey) : Prop :=
  tk_ID k' = TrimSpace (tk_ID k) /\ tk_PublicKey k' = tk_PublicKey k /\ tk_RevokedAt k' = tk_RevokedAt k
  /\ tk_NotBefore k' = tk_NotBefore k /\ tk_NotAfter k' = tk_NotAfter k.

Lemma Forall2_in_l {A B} (P : A -> B -> Prop) l k x : Forall2 P l k -> x ∈ l -> exists y, y ∈ k /\ P x y.
Proof.
  intros F [i L]%list_elem_of_lookup. destruct (Forall2_lookup_l _ _ _ _ _ F L) as (y & Ly & Py).
  exists y. split; [by eapply list_elem_of_lookup_2|done].
Qed.

Lemma Forall2_in_r {A B} (P : A -> B -> Prop) l k y : Forall2 P l k -> y ∈ k -> exists x, x ∈ l /\ P x y.
Proof.
  intros F [i L]%list_elem_of_lookup. destruct (Forall2_lookup_r _ _ _ _ _ F L) as (x & Lx & Px).
  exists x. split; [by eapply list_elem_of_lookup_2|done].
Qed.

Lemma root_keys_kept class mv seen seenP keys ks :
  root_keys class mv seen seenP keys = Ok ks ->
  Forall2 key_kept keys ks /\ NoDup (map tk_ID ks) /\ (forall k, k ∈ ks -> tk_ID k ∉ seen)
  /\ NoDup (map tk_PublicKey ks) /\ (forall k, k ∈ ks -> EncodeHex (tk_PublicKey k) ∉ seenP).
Proof.
  revert seen seenP ks. induction keys as [|k keys IH]; intros seen seenP ks E; cbn [root_keys] in E.
  { simplify_eq. split_and!; [constructor|constructor| |constructor|]; intros k Hk; by apply not_elem_of_nil in Hk. }
  destruct (String.eqb _ "" || _); [done|]. destruct (bool_decide _) eqn:N1 in E; [done|].
  destruct (bool_decide _) eqn:N2 in E; [done|]. destruct (_ && _) in E; [done|].
  destruct (validateSignerClass _); [done|].
  destruct (root_keys _ _ _ _ keys) as [rest|] eqn:R; [|done]. simplify_eq. props.
  destruct (IH _ _ _ R) as (K & ND & NS & NDP & NSP).
  split_and!; cbn [map key_with tk_ID tk_PublicKey].
  - by constructor.
  - constructor; [|done]. intros (k' & E & Hk)%list_elem_of_fmap. specialize (NS k' Hk). set_solver.
  - intros k' [->|Hk]%elem_of_cons; [done|]. specialize (NS k' Hk). set_solver.
  - constructor; [|done]. intros (k' & E & Hk)%list_elem_of_fmap. specialize (NSP k' Hk). rewrite <- E in NSP. set_solver.
  - intros k' [->|Hk]%elem_of_cons; [done|]. specialize (NSP k' Hk). set_solver.
Qed.

Lemma root_prefixes_ok class ps qs :
  root_prefixes class ps = Ok qs ->
  Forall (fun p => normal_prefix p = p) qs
  /\ Forall (fun p => under p "official" = true \/ under p "enterprise" = true -> production class = true) qs.
Proof.
  revert qs. induction ps as [|p ps IH]; intros qs E; cbn [root_prefixes] in E; [by simplify_eq|].
  destruct (validateNamespacePrefix p) eqn:V; [done|].
  destruct (validateRootNamespaceClass _ _) eqn:C; [done|].
  destruct (root_prefixes class ps) as [rest|]; [|done]. simplify_eq. destruct (IH rest eq_refl) as [I1 I2].
  split; constructor; [by apply normal_prefix_id|done| |done].
  fold (normal_prefix p) in *. unfold validateRootNamespaceClass in C. apply guard_None in C as [_ C].
  apply guard_None in C as [_ [C _]%guard_None]. unfold production.
  destruct (String.eqb class SignerOfficial), (String.eqb class SignerEnterprise); try done.
  cbn [negb andb] in C. apply orb_false_iff in C as [-> ->]. by intros [?|?].
Qed.

Lemma policy_threshold p n b class high :
  validatePolicyForClass p n b class high = None ->
  1 <= p_Threshold p /\ (production class = true -> (if high then 3 else 2) <= p_Threshold p).
Proof.
  unfold validatePolicyForClass. intros E. apply guard_None in E as [P [Q _]%guard_None]. props. split; [done|].
  intros R. rewrite R in P. cbn [andb] in P. destruct high; cbn [p_Threshold] in P; props; done.
Qed.

Lemma admit_root_ok out root out' :
  admit_root out root = Ok out' ->
  exists r, out !! TrimSpace (tr_ID root) = None /\ out' = <[TrimSpace (tr_ID root) := r]> out
    /\ root_ok (TrimSpace (tr_ID root)) r /\ Forall2 key_kept (tr_Keys root) (tr_Keys r).
Proof.
  unfold admit_root. destruct (_ || _); [done|]. destruct (has _ _) eqn:N; [done|].
  destruct (validateSignerClass _); [done|]. destruct (root_prefixes _ _) as [prefixes|] eqn:P; [|done].
  destruct (defaultPolicies root) as [policy high]. destruct (_ && _); [done|].
  destruct (validatePolicyForClass policy _ _ _ _) eqn:P1; [done|].
  destruct (validatePolicyForClass high _ _ _ _) eqn:P2; [done|].
  destruct (root_keys _ _ _ _ _) as [keys|] eqn:K; [|done]. intros E. simplify_eq.
  apply has_false in N. apply root_prefixes_ok in P as [I1 I2].
  apply root_keys_kept in K as (KK & ND & _ & NDP & _).
  apply policy_threshold in P1 as [T1 T2], P2 as [T3 T4].
  eexists. split_and!; [done|done| |done]. constructor; cbn; try done.
  - apply TrimSpace_idem.
  - apply Forall_forall. intros k Hk. destruct (Forall2_in_r _ _ _ _ KK Hk) as (k0 & _ & (-> & _)).
    apply TrimSpace_idem.
Qed.

Lemma admit_roots_ok out roots s :
  store_ok out -> admit_roots out roots = Ok s ->
  store_ok s /\ (forall id r, out !! id = Some r -> s !! id = Some r)
  /\ forall root, root ∈ roots ->
       exists r, s !! TrimSpace (tr_ID root) = Some r /\ Forall2 key_kept (tr_Keys root) (tr_Keys r).
Proof.
  revert out. induction roots as [|root roots IH]; intros out OK E; cbn [admit_roots] in E.
  { simplify_eq. split_and!; [done|done|]. intros r Hr. by apply not_elem_of_nil in Hr. }
  destruct (admit_root out root) as [out'|] eqn:A; [|done].
  apply admit_root_ok in A as (r & N & -> & RO & KK).
  destruct (IH _ (map_Forall_insert_2 _ _ _ _ RO OK) E) as (SO & EX & IN). split_and!; [done| |].
  - intros id r' L. apply EX. rewrite lookup_insert_ne; [done|]. intros <-. congruence.
  - intros root' [->|H]%elem_of_cons; [|by apply IN]. exists r. split; [|done]. apply EX. apply lookup_insert_eq.
Qed.

Lemma NewTrustStore_ok roots s :
  NewTrustStore roots = Ok s ->
  store_ok s /\ forall root, root ∈ roots ->
    exists r, s !! TrimSpace (tr_ID root) = Some r /\ Forall2 key_kept (tr_Keys root) (tr_Keys r).
Proof.
  intros E. apply admit_roots_ok in E as (SO & _ & IN); [by split|]. apply map_Forall_empty.
Qed.

(** ** Changes of the keys of a store *)

(** Replacing a root of a valid store keeps what it says of every key. *)
Lemma replace_keeps s root keys s' :
  store_ok s -> s !! tr_ID root = Some root -> NewTrustStore (replaceRoot s (with_keys root keys)) = Ok s' ->
  store_ok s' /\ forall id r, s !! id = Some r ->
    exists r', s' !! id = Some r'
      /\ Forall2 key_kept (if bool_decide (id = tr_ID root) then keys else tr_Keys r) (tr_Keys r').
Proof.
  intros OK L E. apply NewTrustStore_ok in E as [SO IN]. split; [done|]. intros id r Lr.
  pose proof (OK id r Lr) as RO. pose proof (OK _ _ L) as RO'.
  destruct (IN (if String.eqb id (tr_ID root) then with_keys root keys else r)) as (r' & Lr' & KK).
  { apply list_elem_of_fmap. exists (id, r). split; [done|]. by apply elem_of_map_to_list. }
  exists r'. destruct (String.eqb_spec id (tr_ID root)) as [->|N].
  - rewrite bool_decide_true by done. cbn [with_keys tr_ID tr_Keys] in *. by rewrite (ok_trimmed _ _ RO') in Lr'.
  - rewrite bool_decide_false by done. rewrite (ok_id _ _ RO), (ok_trimmed _ _ RO) in Lr'. done.
Qed.

Lemma add_keys_prefix keys additions ks : add_keys keys additions = Ok ks -> exists more, ks = keys ++ more.
Proof.
  revert keys. induction additions as [|a l IH]; intros keys E; cbn [add_keys] in E.
  - simplify_eq. exists []. by rewrite app_nil_r.
  - branch E. apply IH in E as [more ->]. exists (a :: more). by rewrite <- app_assoc.
Qed.

Lemma revoke_keys_spec keyID at_ keys ks found :
  revoke_keys keyID at_ keys = Ok (ks, found) ->
  (forall k, k ∈ keys -> tk_RevokedAt k <> None -> tk_ID k <> keyID /\ k ∈ ks)
  /\ (found = true -> keyID ∈ map tk_ID keys /\ exists k, k ∈ ks /\ tk_ID k = keyID /\ tk_RevokedAt k = Some at_).
Proof.
  revert ks found. induction keys as [|k keys IH]; intros ks found E; cbn [revoke_keys] in E.
  { simplify_eq. split; [|done]. intros k Hk. by apply not_elem_of_nil in Hk. }
  destruct (String.eqb_spec (tk_ID k) keyID) as [I|N].
  - destruct (tk_RevokedAt k) eqn:R; [done|].
    destruct (revoke_keys keyID at_ keys) as [[ks' f]|] eqn:E'; [|done]. simplify_eq.
    destruct (IH _ _ eq_refl) as [I1 _]. split.
    + intros k' [->|Hk]%elem_of_cons NR; [congruence|]. destruct (I1 k' Hk NR). split; [done|by right].
    + intros _. cbn [map]. split; [apply elem_of_cons; by left|]. exists (revoked_at k at_). split_and!; [by left|done|done].
  - destruct (revoke_keys keyID at_ keys) as [[ks' f]|] eqn:E'; [|done]. simplify_eq.
    destruct (IH _ _ eq_refl) as [I1 I2]. split.
    + intros k' [->|Hk]%elem_of_cons NR; [split; [done|by left]|].
      destruct (I1 k' Hk NR). split; [done|by right].
    + intros F. destruct (I2 F) as (Hi & k' & Hk & ?). cbn [map]. split; [by right|]. exists k'. split; [by right|done].
Qed.

(** ** What an accepted manifest proves

    A verification that succeeds has counted distinct, registered keys, each
    with its own valid signature over the manifest; a revoked key is never
    counted again, whatever rotations and revocations follow. *)

Section Safety.
Context (ed25519_Verify : list Z -> string -> list Z -> bool).

(** One more guard of the code that did not return. *)
Tactic Notation "pass" ident(E) := lazymatch goal with |- (if ?b then _ else _) = _ -> _ => destruct b eqn:E; [done|] end.

(** The key signed the manifest: a valid signature, made within the window of
    the key and not in the future, by a key that is not revoked. *)
Definition attested (root : TrustRoot) (m : Manifest) (now : Time) (sig : Signature) (k : TrustKey) : Prop :=
  k ∈ tr_Keys root /\ tk_ID k = sig_KeyID sig /\ sig_Algorithm sig = SignatureAlgorithmEd25519
  /\ (forall at_, tk_RevokedAt k = Some at_ -> now < at_)
  /\ sig_SignedAt sig <> 0 /\ sig_SignedAt sig <= now
  /\ (tk_NotBefore k <> 0 -> tk_NotBefore k <= sig_SignedAt sig)
  /\ (tk_NotAfter k <> 0 -> sig_SignedAt sig <= tk_NotAfter k)
  /\ exists signed raw, signatureSigningBytes m sig = Ok signed /\ base64_decode (sig_Value sig) = Some raw
       /\ ed25519_Verify (tk_PublicKey k) signed raw = true.

Lemma keys_by_id_in (acc : gmap string TrustKey) keys id k :
  fold_left (fun m k => <[tk_ID k := k]> m) keys acc !! id = Some k -> acc !! id = Some k \/ (k ∈ keys /\ tk_ID k = id).
Proof.
  revert acc. induction keys as [|k' keys IH]; intros acc L; cbn in L; [by left|].
  apply IH in L as [L|[L E]]; [|right; split; [by right|done]].
  apply lookup_insert_Some in L as [[<- <-]|[_ L]]; [right; split; [by left|done]|by left].
Qed.

Lemma judge_valid root m now seen sig k :
  judge ed25519_Verify root (keys_by_id (tr_Keys root)) m now seen sig = Valid k ->
  sig_KeyID sig ∉ seen /\ attested root m now sig k.
Proof.
  unfold judge. destruct (bool_decide _) eqn:D; [done|]. destruct (keys_by_id _ !! _) as [k'|] eqn:L; [|done].
  pass A. pass R. pass T. cbv zeta. pass W. pass O.
  destruct (signatureSigningBytes m sig) as [signed|] eqn:SB; [|done].
  destruct (base64_decode _) as [raw|] eqn:B; [|done]. pass V. intros E. simplify_eq.
  apply keys_by_id_in in L as [L|[L I]]; [by rewrite lookup_empty in L|].
  apply bool_decide_eq_false in D. split; [done|].
  apply negb_false_iff, String.eqb_eq in A. apply orb_false_iff in T as [T1 T2], W as [W1 W2], V as [_ V].
  apply negb_false_iff in V. unfold IsZero, Before, After in *. apply Z.eqb_neq in T1. apply Z.ltb_ge in T2.
  split_and!; try done.
  - intros at_ RA. rewrite RA in R. by apply negb_false_iff, Z.ltb_lt in R.
  - intros NZ. apply andb_false_iff in W1 as [W1|W1]; props; [done|lia].
  - intros NZ. apply andb_false_iff in W2 as [W2|W2]; props; [done|lia].
  - by exists signed, raw.
Qed.

(** The keys counted so far. *)
Definition tally_ok (root : TrustRoot) (m : Manifest) (now : Time) (sigs : list Signature) (t : Tally) : Prop :=
  exists ks : list TrustKey,
    rp_ValidSignatures (t_report t) = Z.of_nat (length ks) /\ NoDup (map tk_ID ks)
    /\ forall k, k ∈ ks -> tk_ID k ∈ t_seen t /\ exists sig, sig ∈ sigs /\ attested root m now sig k.

Lemma note_fields root sig v t :
  t_seen (note root sig v t) = t_seen t
  /\ rp_ValidSignatures (t_report (note root sig v t))
     = rp_ValidSignatures (t_report t) + match v with Valid _ => 1 | _ => 0 end
  /\ rp_Status (t_report (note root sig v t))
     = match v with
       | Valid k => if requiresConfirmation (tk_Class k) || requiresConfirmation (tr_Class root)
                    then VerificationNeedsConfirmation else rp_Status (t_report t)
       | _ => rp_Status (t_report t) end.
Proof. destruct v; cbn; split_and!; done || lia. Qed.

Lemma tally_step_ok root m now sigs t sig :
  sig ∈ sigs -> tally_ok root m now sigs t ->
  tally_ok root m now sigs (tally_step ed25519_Verify root (keys_by_id (tr_Keys root)) m now t sig).
Proof.
  intros I (ks & C & ND & A). unfold tally_step.
  set (v := judge _ _ _ _ _ _ _). set (t' := {| t_report := _ |}).
  destruct (note_fields root sig v t') as (S & V & _).
  assert (t_seen t' = {[sig_KeyID sig]} ∪ t_seen t) as S' by done.
  assert (rp_ValidSignatures (t_report t') = rp_ValidSignatures (t_report t)) as V' by done.
  assert (match v with Valid _ => False | _ => True end ->
    tally_ok root m now sigs (note root sig v t')) as Other.
  { intros N. exists ks. rewrite V, V', S, S'. split_and!; [destruct v; done || lia|done|].
    intros k Hk. destruct (A k Hk). split; [set_solver|done]. }
  destruct v as [| | | | | | | |k] eqn:J; try by apply Other.
  apply judge_valid in J as [NS AT]. assert (tk_ID k = sig_KeyID sig) as I' by apply AT.
  exists (k :: ks). rewrite V, V', S, S'. split_and!.
  - simpl. lia.
  - simpl. constructor; [|done]. intros (k' & E & Hk)%list_elem_of_fmap. destruct (A k' Hk) as [SN _]. congruence.
  - intros k' [->|Hk]%elem_of_cons; [split; [set_solver|by exists sig]|]. destruct (A k' Hk). split; [set_solver|done].
Qed.

Lemma count_ok root required m now sigs : tally_ok root m now sigs (count_signatures ed25519_Verify root required m now sigs).
Proof.
  unfold count_signatures. set (t0 := {| t_report := _ |}).
  assert (tally_ok root m now sigs t0) as T0.
  { exists []. split_and!; [done|constructor|]. intros k Hk. by apply not_elem_of_nil in Hk. }
  enough (forall l t, (forall sig, sig ∈ l -> sig ∈ sigs) -> tally_ok root m now sigs t ->
    tally_ok root m now sigs (fold_left (tally_step ed25519_Verify root (keys_by_id (tr_Keys root)) m now) l t)) as G
    by (by apply G).
  clear t0 T0. induction l as [|sig l IH]; intros t I T; [done|]. cbn [fold_left].
  apply IH; [intros s Hs; apply I; by right|]. apply tally_step_ok; [apply I; by left|done].
Qed.

(** The root of an accepted manifest, and the tally it was accepted on. *)
Lemma VerifyManifest_accepts clock s m sigs opts report :
  VerifyManifest ed25519_Verify clock s m sigs opts = (report, None) ->
  exists root,
    Validate m = None /\ s !! m_SourceRoot m = Some root
    /\ existsb (namespaceMatches (m_Namespace m)) (tr_NamespacePrefixes root) = true
    /\ let policy := policy_for root (v_HighRisk opts) in
       let now := if IsZero (v_Now opts) then clock else v_Now opts in
       let t := count_signatures ed25519_Verify root (p_Threshold policy) m now sigs in
       p_Threshold policy <= rp_ValidSignatures (t_report t)
       /\ rp_ValidSignatures report = rp_ValidSignatures (t_report t)
       /\ (rp_Status (t_report t) = VerificationNeedsConfirmation -> v_AllowConfirmation opts = true).
Proof.
  unfold VerifyManifest. destruct (Validate m); [done|]. destruct (s !! m_SourceRoot m) as [root|]; [|done].
  destruct (existsb _ _) eqn:B; [|done]. cbn [negb]. set (t := count_signatures _ _ _ _ _ _).
  destruct (_ <? _) eqn:L; [done|]. intros E. exists root. split; [done|]. split; [done|]. split; [done|].
  cbv zeta. fold t. apply Z.ltb_ge in L. split; [done|].
  destruct (String.eqb_spec (rp_Status (t_report t)) VerificationNeedsConfirmation) as [C|C].
  - destruct (v_AllowConfirmation opts); [|done]. by simplify_eq.
  - simplify_eq. split; [done|]. intros. by destruct C.
Qed.

Lemma attested_public_distinct keys ks :
  NoDup (map tk_PublicKey keys) -> NoDup (map tk_ID ks) -> (forall k, k ∈ ks -> k ∈ keys) -> NoDup (map tk_PublicKey ks).
Proof.
  intros ND. induction ks as [|k ks IH]; intros NI A; [constructor|]. cbn in *. apply NoDup_cons in NI as [N NI].
  constructor; [|apply IH; [done|]; intros k' Hk; apply A; by right].
  intros (k' & E & Hk)%list_elem_of_fmap. apply N, list_elem_of_fmap. exists k'. split; [|done]. f_equal.
  assert (k ∈ keys) as [i Li]%list_elem_of_lookup by (apply A; by left).
  assert (k' ∈ keys) as [j Lj]%list_elem_of_lookup by (apply A; by right).
  assert (i = j) as ->; [|congruence].
  eapply (NoDup_lookup _ _ _ (tk_PublicKey k)); [exact ND| |]; rewrite list_lookup_fmap.
  - by rewrite Li.
  - rewrite Lj. simpl. by f_equal.
Qed.

(** A root that is bound to a production namespace is of a production class. *)
Lemma bound_production id root ns :
  root_ok id root -> existsb (namespaceMatches ns) (tr_NamespacePrefixes root) = true ->
  production_namespace ns = true -> production (tr_Class root) = true.
Proof.
  intros RO (p & I & M)%existsb_exists PN. apply list_elem_of_In in I.
  pose proof (proj1 (Forall_forall _ _) (ok_prefixes _ _ RO) p I) as N.
  apply (proj1 (Forall_forall _ _) (ok_classes _ _ RO) p I).
  unfold namespaceMatches in M. fold (normal_prefix ns) (normal_prefix p) in M. rewrite N in M.
  unfold production_namespace in PN. apply orb_true_iff in PN as [U|U]; [left|right];
    (eapply under_inherited; [|exact M|exact U]);
    match goal with |- ?P => apply (bool_decide_unpack P) end; by vm_compute.
Qed.

(** C17. A manifest is accepted only on a quorum of independent signatures. For a
    store built by [NewTrustStore], a successful [VerifyManifest] means that the
    manifest's root is registered and bound to its namespace, and that there are
    at least as many different public keys of that root as the policy requires,
    each not revoked at the time of verification and each with a signature among
    those given that verifies over the manifest, the key ID and the time of
    signing, within the window of the key. In the official and enterprise
    namespaces that is never fewer than two keys, or three for a release of high
    risk, whatever the registration asked for. *)
Theorem quorum_verified (clock : Time) (roots : list TrustRoot) (s : TrustStore) (m : Manifest) (sigs : list Signature)
    (opts : VerificationOptions) (report : SignatureReport) :
  NewTrustStore roots = Ok s ->
  VerifyManifest ed25519_Verify clock s m sigs opts = (report, None) ->
  exists root ks,
    s !! m_SourceRoot m = Some root
    /\ existsb (namespaceMatches (m_Namespace m)) (tr_NamespacePrefixes root) = true
    /\ NoDup (map tk_PublicKey ks) /\ Z.of_nat (length ks) = rp_ValidSignatures report
    /\ p_Threshold (policy_for root (v_HighRisk opts)) <= Z.of_nat (length ks)
    /\ (forall k, k ∈ ks -> exists sig, sig ∈ sigs
          /\ attested root m (if IsZero (v_Now opts) then clock else v_Now opts) sig k)
    /\ 1 <= Z.of_nat (length ks)
    /\ (production_namespace (m_Namespace m) = true -> (if v_HighRisk opts then 3 else 2) <= Z.of_nat (length ks)).
Proof.
  intros [SO _]%NewTrustStore_ok (root & _ & L & B & T & V & _)%VerifyManifest_accepts.
  pose proof (SO _ _ L) as RO. pose proof (ok_positive _ _ RO) as [P1 P2].
  destruct (count_ok root (p_Threshold (policy_for root (v_HighRisk opts))) m
    (if IsZero (v_Now opts) then clock else v_Now opts) sigs) as (ks & C & ND & A).
  exists root, ks. rewrite V, <- C. split_and!; try done.
  - eapply attested_public_distinct; [apply RO|done|]. intros k Hk. by destruct (A k Hk) as [_ (sig & _ & ? & _)].
  - intros k Hk. by apply A.
  - unfold policy_for in *. destruct (v_HighRisk opts); lia.
  - intros PN. assert (production (tr_Class root) = true) as PC by (eapply bound_production; eassumption).
    pose proof (ok_threshold _ _ RO PC). pose proof (ok_high_threshold _ _ RO PC).
    unfold policy_for in *. destruct (v_HighRisk opts); lia.
Qed.

(** ** Revocation *)

(** One administrative change of a store. *)
Inductive trust_step : TrustStore -> TrustStore -> Prop :=
| step_rotate s rootID additions s' : Rotate s rootID additions = Ok s' -> trust_step s s'
| step_revoke clock s rootID keyID at_ s' : Revoke clock s rootID keyID at_ = Ok s' -> trust_step s s'.

(** The key of the root was revoked at the given time. *)
Definition has_revoked (s : TrustStore) (rootID keyID : string) (at_ : Time) : Prop :=
  exists root k, s !! rootID = Some root /\ k ∈ tr_Keys root /\ tk_ID k = keyID /\ tk_RevokedAt k = Some at_.

Lemma has_revoked_kept s rootID keyID at_ s' (root : TrustRoot) (keys : list TrustKey) :
  store_ok s -> s !! tr_ID root = Some root ->
  NewTrustStore (replaceRoot s (with_keys root keys)) = Ok s' ->
  (forall k, k ∈ tr_Keys root -> tk_RevokedAt k <> None -> k ∈ keys) ->
  has_revoked s rootID keyID at_ -> has_revoked s' rootID keyID at_.
Proof.
  intros OK L E KEEP (r & k & Lr & Hk & I & R).
  destruct (replace_keeps _ _ _ _ OK L E) as [_ K]. destruct (K _ _ Lr) as (r' & Lr' & KK).
  assert (k ∈ (if bool_decide (rootID = tr_ID root) then keys else tr_Keys r)) as Hk'.
  { case_bool_decide as D; [|done]. subst rootID. simplify_eq. apply KEEP; [done|congruence]. }
  destruct (Forall2_in_l _ _ _ _ KK Hk') as (k' & Hin & I' & _ & R' & _).
  exists r', k'. split_and!; [done|done| |congruence].
  pose proof (ok_keys_trimmed _ _ (OK _ _ Lr)) as T. rewrite Forall_forall in T. by rewrite I', (T k Hk).
Qed.

Lemma trust_step_ok s s' : store_ok s -> trust_step s s' -> store_ok s'.
Proof.
  intros _ [? rootID additions ? E|clock ? rootID keyID at_ ? E].
  - unfold Rotate in E. destruct (_ !! rootID) as [root|]; [|done]. destruct (add_keys _ _); [|done].
    by apply NewTrustStore_ok in E as [? _].
  - unfold Revoke in E. destruct (_ !! rootID) as [root|]; [|done]. destruct (revoke_keys _ _ _) as [p|]; [|done].
    destruct (negb _); [done|]. by apply NewTrustStore_ok in E as [? _].
Qed.

Lemma trust_step_keeps s s' rootID keyID at_ :
  store_ok s -> trust_step s s' -> has_revoked s rootID keyID at_ -> has_revoked s' rootID keyID at_.
Proof.
  intros OK ST HR. inversion ST as [? id additions ? E|clock ? id key t ? E]; subst; clear ST.
  - unfold Rotate in E. destruct (_ !! id) as [root|] eqn:L; [|done].
    destruct (add_keys _ _) as [keys|] eqn:A; [|done]. apply add_keys_prefix in A as [more ->].
    rewrite <- (ok_id _ _ (OK _ _ L)) in L. eapply has_revoked_kept; [done|exact L|exact E| |done].
    intros k Hk _. apply elem_of_app. by left.
  - unfold Revoke in E. destruct (_ !! id) as [root|] eqn:L; [|done].
    destruct (revoke_keys _ _ _) as [[keys found]|] eqn:A; [|done]. destruct (negb _); [done|]. cbn [fst] in E.
    apply revoke_keys_spec in A as [A _].
    rewrite <- (ok_id _ _ (OK _ _ L)) in L. eapply has_revoked_kept; [done|exact L|exact E| |done].
    intros k Hk N. by apply A.
Qed.

Lemma Revoke_revokes clock s rootID keyID at_ s' :
  store_ok s -> Revoke clock s rootID keyID at_ = Ok s' ->
  has_revoked s' rootID keyID (if IsZero at_ then clock else at_).
Proof.
  intros OK E. unfold Revoke in E. destruct (s !! rootID) as [root|] eqn:L; [|done].
  destruct (revoke_keys _ _ _) as [[keys found]|] eqn:A; [|done]. cbn [fst snd] in E.
  destruct found; [|done]. cbn [negb] in E. apply revoke_keys_spec in A as [_ A].
  destruct (A eq_refl) as ((k0 & I0 & Hk0)%list_elem_of_fmap & k & Hk & I & R). pose proof (ok_id _ _ (OK _ _ L)) as RI. subst rootID.
  destruct (replace_keeps _ _ _ _ OK L E) as [OK' K]. destruct (K _ _ L) as (r' & Lr' & KK).
  rewrite bool_decide_true in KK by done. destruct (Forall2_in_l _ _ _ _ KK Hk) as (k' & Hin & I' & _ & R' & _).
  exists r', k'. split_and!; [done|done| |congruence].
  pose proof (ok_keys_trimmed _ _ (OK _ _ L)) as T. rewrite Forall_forall in T.
  by rewrite I', I, I0, (T k0 Hk0).
Qed.

(** Two tallies that may differ in what they saw of one key ID. *)
Definition agree (keyID : string) (t u : Tally) : Prop :=
  t_seen t ∖ {[keyID]} = t_seen u ∖ {[keyID]}
  /\ rp_ValidSignatures (t_report t) = rp_ValidSignatures (t_report u)
  /\ rp_Status (t_report t) = rp_Status (t_report u).

Lemma judge_seen root keys m now seen seen' sig :
  (sig_KeyID sig ∈ seen <-> sig_KeyID sig ∈ seen') ->
  judge ed25519_Verify root keys m now seen sig = judge ed25519_Verify root keys m now seen' sig.
Proof. intros E. unfold judge. by rewrite (bool_decide_ext _ _ E). Qed.

Lemma tally_step_agree root keys m now keyID t u sig :
  sig_KeyID sig <> keyID -> agree keyID t u ->
  agree keyID (tally_step ed25519_Verify root keys m now t sig) (tally_step ed25519_Verify root keys m now u sig).
Proof.
  intros N (S & V & ST). unfold tally_step.
  rewrite (judge_seen root keys m now (t_seen t) (t_seen u)) by set_solver.
  set (v := judge _ _ _ _ _ _ _). set (t' := {| t_report := report_seen _ (t_report t) |}).
  set (u' := {| t_report := report_seen _ (t_report u) |}).
  destruct (note_fields root sig v t') as (S1 & V1 & ST1), (note_fields root sig v u') as (S2 & V2 & ST2).
  split_and!; [rewrite S1, S2; cbn; set_solver|rewrite V1, V2; cbn; by rewrite V|].
  rewrite ST1, ST2. cbn. by rewrite ST.
Qed.

(** A signature that cannot be valid changes nothing that counts. *)
Lemma tally_step_ignored root keys m now t sig :
  (forall seen k, judge ed25519_Verify root keys m now seen sig <> Valid k) ->
  agree (sig_KeyID sig) (tally_step ed25519_Verify root keys m now t sig) t.
Proof.
  intros NV. unfold tally_step. specialize (NV (t_seen t)). set (v := judge _ _ _ _ _ _ _) in *.
  set (t' := {| t_report := _ |}). destruct (note_fields root sig v t') as (S1 & V1 & ST1).
  split_and!; [rewrite S1; cbn; set_solver| |]; [rewrite V1|rewrite ST1]; cbn; destruct v; done || lia || by destruct (NV key).
Qed.

Lemma agree_trans keyID t u w : agree keyID t u -> agree keyID u w -> agree keyID t w.
Proof. intros (? & ? & ?) (? & ? & ?). split_and!; congruence. Qed.

(** The signatures of one key ID left out. *)
Definition without (keyID : string) (sigs : list Signature) : list Signature :=
  List.filter (fun sig => negb (String.eqb (sig_KeyID sig) keyID)) sigs.

Lemma count_without root required m now keyID sigs :
  (forall sig seen k, sig_KeyID sig = keyID ->
     judge ed25519_Verify root (keys_by_id (tr_Keys root)) m now seen sig <> Valid k) ->
  agree keyID (count_signatures ed25519_Verify root required m now sigs)
    (count_signatures ed25519_Verify root required m now (without keyID sigs)).
Proof.
  intros NV. unfold count_signatures. set (t0 := {| t_report := _ |}).
  assert (agree keyID t0 t0) as A0 by done. revert A0. generalize t0 at 2 4. generalize t0. clear t0. intros t u. revert t u.
  induction sigs as [|sig sigs IH]; intros t u A; [done|]. cbn [without List.filter fold_left].
  destruct (String.eqb_spec (sig_KeyID sig) keyID) as [E|N]; cbn [negb].
  - apply IH. eapply agree_trans; [|exact A]. rewrite <- E. apply tally_step_ignored. intros. by apply NV.
  - cbn [fold_left]. apply IH. by apply tally_step_agree.
Qed.

Lemma revoked_never_valid root m now seen sig keyID at_ k0 k :
  NoDup (map tk_ID (tr_Keys root)) -> k0 ∈ tr_Keys root -> tk_ID k0 = keyID -> tk_RevokedAt k0 = Some at_ -> at_ <= now ->
  sig_KeyID sig = keyID -> judge ed25519_Verify root (keys_by_id (tr_Keys root)) m now seen sig <> Valid k.
Proof.
  intros ND Hk0 I0 R LE E J. apply judge_valid in J as (_ & Hk & I & _ & NR & _).
  assert (k = k0) as ->; [|specialize (NR _ R); lia].
  apply list_elem_of_lookup in Hk as [i Li], Hk0 as [j Lj]. assert (i = j) as ->; [|congruence].
  eapply (NoDup_lookup _ _ _ keyID); [exact ND| |]; rewrite list_lookup_fmap.
  - rewrite Li. simpl. f_equal. congruence.
  - rewrite Lj. simpl. by f_equal.
Qed.

(** C18. A revocation is permanent. Once [Revoke] has revoked a key of a root,
    every later verification at or after the time of revocation, on the store
    that results from any sequence of further rotations and revocations, decides
    a package of that root as if no signature carried the key's ID: the
    signatures of the revoked key can be left out without changing the decision
    or the number of signatures that count. *)
Theorem revocation_is_permanent (clock clock' : Time) (roots : list TrustRoot) (s0 s1 s2 : TrustStore)
    (rootID keyID : string) (at_ : Time) (m : Manifest) (sigs : list Signature) (opts : VerificationOptions) :
  NewTrustStore roots = Ok s0 ->
  Revoke clock s0 rootID keyID at_ = Ok s1 ->
  rtc trust_step s1 s2 ->
  m_SourceRoot m = rootID ->
  (if IsZero at_ then clock else at_) <= (if IsZero (v_Now opts) then clock' else v_Now opts) ->
  let given := VerifyManifest ed25519_Verify clock' s2 m sigs opts in
  let reduced := VerifyManifest ed25519_Verify clock' s2 m (without keyID sigs) opts in
  (snd given = None <-> snd reduced = None)
  /\ rp_Status (fst given) = rp_Status (fst reduced)
  /\ rp_ValidSignatures (fst given) = rp_ValidSignatures (fst reduced).
Proof.
  intros [OK0 _]%NewTrustStore_ok RV ST SR LE given reduced.
  assert (store_ok s2 /\ has_revoked s2 rootID keyID (if IsZero at_ then clock else at_)) as [OK2 HR].
  { assert (store_ok s1) as OK1 by (eapply trust_step_ok; [exact OK0|by econstructor]).
    pose proof (Revoke_revokes _ _ _ _ _ _ OK0 RV) as HR. clear RV.
    induction ST as [|s1 s2 s3 ST1 _ IH]; [done|].
    apply IH; [by eapply trust_step_ok|by eapply trust_step_keeps]. }
  destruct HR as (root & k0 & L & Hk & I & R).
  assert (forall required, agree keyID
    (count_signatures ed25519_Verify root required m (if IsZero (v_Now opts) then clock' else v_Now opts) sigs)
    (count_signatures ed25519_Verify root required m (if IsZero (v_Now opts) then clock' else v_Now opts) (without keyID sigs))) as A.
  { intros required. apply count_without. intros sig seen k E.
    eapply revoked_never_valid; [apply (ok_key_ids _ _ (OK2 _ _ L))|exact Hk|exact I|exact R|exact LE|exact E]. }
  subst given reduced. unfold VerifyManifest. destruct (Validate m); [done|]. rewrite SR, L.
  destruct (negb _); [done|]. specialize (A (p_Threshold (policy_for root (v_HighRisk opts)))).
  destruct A as (_ & V & STA). cbv zeta. rewrite V, STA.
  destruct (_ <? _); cbn [fst snd]; [by rewrite V, STA|]. destruct (String.eqb _ _); cbn; by rewrite ?V, ?STA.
Qed.
End Safety.
