(* ===== verification/CrpImport.v ===== *)
(** * Offline admission of packages (internal/crp/importer.go)

    [Import] checks a materialized package and seals its decision in an
    admission that the runtime can recognise by two fingerprints. Times are in
    UTC, and a slice without elements is nil. *)

From S2P Require Import Prelude GoText Sha256 Json CrpManifest CrpTrust.
From Stdlib Require Import Ascii.

Open Scope string_scope.
Open Scope list_scope.
Open Scope Z_scope.
Open Scope go_scope.

Definition DefaultMaxManifestBytes : Z := Z.shiftl 1 20.
Definition DefaultMaxArtifactBytes : Z := Z.shiftl 1 30.

Record Package := { pk_Manifest : string; pk_Artifact : list Z; pk_Signatures : list Signature }.

Record ImportOptions := {
  io_MaxManifestBytes : Z; io_MaxArtifactBytes : Z; io_SourceRegistry : SourceRegistry; io_TrustStore : TrustStore;
  io_CurrentRelease : Release; io_HighRisk : bool; io_AllowConfirmation : bool; io_Now : Time }.

Record importAdmission := {
  ad_verified : bool; ad_packageFingerprint : string; ad_reportFingerprint : string; ad_requiredSignatures : Z;
  ad_requiresConfirmation : bool }.

Record ImportResult := {
  ir_Manifest : Manifest; ir_ArtifactSize : Z; ir_ContentIdentity : string; ir_SignatureReport : SignatureReport;
  ir_admission : importAdmission }.

(** ** Fingerprints *)

Definition signature_json (s : Signature) : json :=
  JObject [("key_id", JString (sig_KeyID s)); ("algorithm", JString (sig_Algorithm s));
           ("value", JString (sig_Value s)); ("signed_at", JTime (sig_SignedAt s))].

(** [None] when a time cannot be encoded. *)
Definition marshal_signatures (signatures : list Signature) : option (list ascii) :=
  array_bytes <$> mapM (fun s => json_bytes (signature_json s)) signatures.

Definition text_bytes (s : string) : list Z := map byte_val (bytes s).

Definition fingerprintPackage (pkg : Package) : string :=
  let signatures := match marshal_signatures (pk_Signatures pkg) with Some b => b | None => [] end in
  EncodeHex (Sum256 (text_bytes ("cheesewaf-crp-import-v1" ++ newline)%string ++ text_bytes (pk_Manifest pkg) ++ [0]
                     ++ pk_Artifact pkg ++ [0] ++ map byte_val signatures)).

Definition marshal_report (r : SignatureReport) : list ascii :=
  let strings l := array_bytes (map json_string l) in
  object_bytes
    [("Status", json_string (rp_Status r)); ("RootID", json_string (rp_RootID r)); ("Class", json_string (rp_Class r));
     ("Required", bytes (itoa (rp_Required r))); ("ValidSignatures", bytes (itoa (rp_ValidSignatures r)));
     ("SeenKeyIDs", strings (rp_SeenKeyIDs r)); ("InvalidKeyIDs", strings (rp_InvalidKeyIDs r));
     ("Reasons", strings (rp_Reasons r))].

Definition fingerprintSignatureReport (r : SignatureReport) : string :=
  EncodeHex (Sum256 (text_bytes ("cheesewaf-crp-admission-v1" ++ newline)%string ++ map byte_val (marshal_report r))).

(** ** Import *)

Definition no_admission : importAdmission :=
  {| ad_verified := false; ad_packageFingerprint := ""; ad_reportFingerprint := ""; ad_requiredSignatures := 0;
     ad_requiresConfirmation := false |}.

Definition no_result : ImportResult :=
  {| ir_Manifest := no_manifest; ir_ArtifactSize := 0; ir_ContentIdentity := ""; ir_SignatureReport := empty_report;
     ir_admission := no_admission |}.

Definition or_default (limit default : Z) : Z := if limit =? 0 then default else limit.

Section Importer.
Context (ed25519_Verify : list Z -> string -> list Z -> bool).

(** The checks before the signatures, and the manifest they admit. *)
Definition import_checks (pkg : Package) (opts : ImportOptions) : result error Manifest :=
  let manifestLimit := or_default (io_MaxManifestBytes opts) DefaultMaxManifestBytes in
  let artifactLimit := or_default (io_MaxArtifactBytes opts) DefaultMaxArtifactBytes in
  return Err ErrImporterConfig when (manifestLimit <? 0) || (artifactLimit <? 0) ;;
  return Err ErrImporterConfig when IsZero (io_Now opts) ;;
  return Err ErrManifestTooLarge when manifestLimit <? len (pk_Manifest pkg) ;;
  return Err ErrArtifactTooLarge when artifactLimit <? Z.of_nat (length (pk_Artifact pkg)) ;;
  let? manifest := ParseManifest (pk_Manifest pkg) in
  match Registry_Validate (io_SourceRegistry opts) manifest with
  | Some err => Err err
  | None =>
  match ValidateUpgrade manifest (io_CurrentRelease opts) with
  | Some err => Err err
  | None =>
  match Verify manifest (pk_Artifact pkg) with
  | Some err => Err err
  | None => Ok manifest
  end end end.

Definition verification_options (opts : ImportOptions) : VerificationOptions :=
  {| v_Now := io_Now opts; v_HighRisk := io_HighRisk opts; v_AllowConfirmation := io_AllowConfirmation opts |}.

(** The time of verification is given, so the clock of the machine is unused. *)
Definition Import (pkg : Package) (opts : ImportOptions) : ImportResult * option error :=
  match import_checks pkg opts with
  | Err err => (no_result, Some err)
  | Ok manifest =>
      let size := Z.of_nat (length (pk_Artifact pkg)) in
      let '(report, err) := VerifyManifest ed25519_Verify (io_Now opts) (io_TrustStore opts) manifest
                              (pk_Signatures pkg) (verification_options opts) in
      match err with
      | Some err =>
          ({| ir_Manifest := manifest; ir_ArtifactSize := size; ir_ContentIdentity := "";
              ir_SignatureReport := report; ir_admission := no_admission |}, Some err)
      | None =>
          match ContentIdentity manifest with
          | Err err => (no_result, Some err)
          | Ok contentID =>
              ({| ir_Manifest := manifest; ir_ArtifactSize := size; ir_ContentIdentity := contentID;
                  ir_SignatureReport := report;
                  ir_admission :=
                    {| ad_verified := true; ad_packageFingerprint := fingerprintPackage pkg;
                       ad_reportFingerprint := fingerprintSignatureReport report;
                       ad_requiredSignatures := rp_Required report;
                       ad_requiresConfirmation :=
                         String.eqb (rp_Status report) VerificationNeedsConfirmation || (3 <=? rp_Required report) |} |},
               None)
          end
      end
  end.
End Importer.
