(* ===== verification/CrpRuntime.v ===== *)
(** * The runtime store of packages (internal/crp/runtime.go)

    A store keeps one document with the state of every plugin, next to the
    content-addressed files of the packages. [Stage], [Promote] and [Rollback]
    read the document, run the callbacks of the deployment without a lock, and
    commit under a process lease only if the revision they read is still
    there. An operation is therefore a function of two disks: the one it read
    and the one it finds when it commits.

    The document is kept decoded: [Document d] stands for the JSON text of
    [d], [Garbage] for any other content. The answers of the operating system,
    of the clock and of the callbacks are arguments of a call. *)

From S2P Require Import Prelude GoText Sha256 JsonDecode CrpManifest CrpTrust CrpImport.
From Stdlib Require Import Ascii.

Open Scope string_scope.
Open Scope list_scope.
Open Scope Z_scope.
Open Scope go_scope.

Definition RuntimeSlot : Type := string.
Definition RuntimeSlotStaged : RuntimeSlot := "staged".
Definition RuntimeSlotCurrent : RuntimeSlot := "current".
Definition RuntimeSlotPrevious : RuntimeSlot := "previous".

Definition RuntimeAction : Type := string.
Definition RuntimeActionPromote : RuntimeAction := "promote".
Definition RuntimeActionRollback : RuntimeAction := "rollback".
Definition maxRuntimeConfirmationTTL : Duration := 24 * Hour.

(** ** Data *)

Record RuntimeRecord := {
  rr_Key : string; rr_PluginID : string; rr_Name : string; rr_Namespace : string; rr_Version : string;
  rr_ReleaseSequence : Z; rr_ManifestIdentity : string; rr_ArtifactIdentity : string; rr_ArtifactPath : string;
  rr_ManifestPath : string; rr_SignaturesPath : string; rr_Slot : RuntimeSlot; rr_Revision : Z;
  rr_RequiresConfirm : bool; rr_CreatedAt : Time; rr_UpdatedAt : Time }.

Record RuntimeEvent := {
  ev_Revision : Z; ev_Action : RuntimeAction; ev_ManifestIdentity : string; ev_Actor : string; ev_At : Time }.

Record Confirmation := {
  cf_ID : string; cf_Actor : string; cf_Action : RuntimeAction; cf_PluginKey : string; cf_ManifestIdentity : string;
  cf_ExpectedRevision : Z; cf_AuthorizedAt : Time; cf_ExpiresAt : Time }.

Record runtimePluginState := {
  ps_Revision : Z; ps_Current : option RuntimeRecord; ps_Staged : option RuntimeRecord; ps_Previous : option RuntimeRecord;
  ps_Events : list RuntimeEvent; ps_Used : gmap string Time }.

Record runtimeDiskState := { ds_Schema : Z; ds_Plugins : gmap string runtimePluginState }.

Record RuntimeSnapshot := {
  sn_Key : string; sn_Revision : Z; sn_Current : option RuntimeRecord; sn_Staged : option RuntimeRecord;
  sn_Previous : option RuntimeRecord }.

Definition no_plugin : runtimePluginState :=
  {| ps_Revision := 0; ps_Current := None; ps_Staged := None; ps_Previous := None; ps_Events := []; ps_Used := ∅ |}.

Definition empty_state : runtimeDiskState := {| ds_Schema := 1; ds_Plugins := ∅ |}.

(** A file: [en_regular] is false for a symbolic link, [en_private] for a file
    that others may access. *)
Record Entry := { en_regular : bool; en_private : bool; en_data : list Z }.

#[warnings="-register-all"]
Inductive StateFile :=
| NoFile | Irregular | Exposed | Garbage | Document (state : runtimeDiskState).

(** The state document and the other files by their path under the root. *)
Record Disk := { dk_state : StateFile; dk_files : gmap string Entry }.

(** ** Records *)

Definition with_slot (slot : RuntimeSlot) (revision : Z) (now : Time) (r : RuntimeRecord) : RuntimeRecord :=
  {| rr_Key := rr_Key r; rr_PluginID := rr_PluginID r; rr_Name := rr_Name r; rr_Namespace := rr_Namespace r;
     rr_Version := rr_Version r; rr_ReleaseSequence := rr_ReleaseSequence r;
     rr_ManifestIdentity := rr_ManifestIdentity r; rr_ArtifactIdentity := rr_ArtifactIdentity r;
     rr_ArtifactPath := rr_ArtifactPath r; rr_ManifestPath := rr_ManifestPath r; rr_SignaturesPath := rr_SignaturesPath r;
     rr_Slot := slot; rr_Revision := revision; rr_RequiresConfirm := rr_RequiresConfirm r;
     rr_CreatedAt := rr_CreatedAt r; rr_UpdatedAt := now |}.

(** The expression of a plugin key. *)
Definition validateRuntimeKey (key : string) : option error :=
  return Some ErrRuntimePath when negb (identifier_of 127 (bytes key)) || String.eqb key "." || String.eqb key ".." ;;
  None.

Definition runtimePluginKey (m : Manifest) : result error string :=
  let key := if String.eqb (m_PluginID m) "" then m_Name m else m_PluginID m in
  return Err ErrRuntimePath when negb (String.eqb key (TrimSpace key)) ;;
  match validateRuntimeKey key with Some err => Err err | None => Ok key end.

Definition artifactIdentity (data : list Z) : string := EncodeHex (Sum256 data).

Definition artifactIdentityFromHex (value : string) : string :=
  if (len value =? 64) && forallb is_lower_hex_char (bytes value) then value else "".

(** Keys and identities hold no separators, so joining them needs no cleaning. *)
Definition artifact_path (artifactID : string) : string := "artifacts/sha256/" ++ artifactID.
Definition manifest_path (key manifestID : string) : string := "plugins/" ++ key ++ "/metadata/" ++ manifestID ++ ".manifest.json".
Definition signatures_path (key manifestID : string) : string := "plugins/" ++ key ++ "/metadata/" ++ manifestID ++ ".signatures.json".

Definition some_records (s : runtimePluginState) : list RuntimeRecord :=
  omap id [ps_Current s; ps_Staged s; ps_Previous s].

Definition content_of (r : RuntimeRecord) : string := (rr_ManifestIdentity r ++ "/" ++ rr_ArtifactIdentity r)%string.

(** The loop of [validateStateRecords]. *)
Fixpoint records_valid (key : string) (revision : Z) (seen : gset string) (records : list RuntimeRecord) : bool :=
  match records with
  | [] => true
  | r :: records =>
      return false when negb (String.eqb (rr_Key r) key) || String.eqb (rr_ArtifactIdentity r) ""
        || String.eqb (rr_ManifestIdentity r) "" || String.eqb (rr_ArtifactPath r) "" || (rr_Revision r =? 0) ;;
      return false when revision <? rr_Revision r ;;
      return false when bool_decide (content_of r ∈ seen) ;;
      return false when match validateRuntimeKey (rr_Key r) with Some _ => true | None => false end ;;
      return false when negb (String.eqb (rr_Slot r) RuntimeSlotCurrent) && negb (String.eqb (rr_Slot r) RuntimeSlotStaged)
        && negb (String.eqb (rr_Slot r) RuntimeSlotPrevious) ;;
      records_valid key revision ({[content_of r]} ∪ seen) records
  end.

Definition in_slot (r : option RuntimeRecord) (slot : RuntimeSlot) : bool :=
  match r with Some r => String.eqb (rr_Slot r) slot | None => true end.

Definition validateStateRecords (key : string) (s : runtimePluginState) : option error :=
  return Some ErrRuntimeCorrupt when (ps_Revision s =? 0)
    && (negb (bool_decide (some_records s = [])) || negb (length (ps_Events s) =? 0)%nat || negb (size (ps_Used s) =? 0)%nat) ;;
  return Some ErrRuntimeCorrupt when negb (in_slot (ps_Current s) RuntimeSlotCurrent)
    || negb (in_slot (ps_Staged s) RuntimeSlotStaged) || negb (in_slot (ps_Previous s) RuntimeSlotPrevious) ;;
  return Some ErrRuntimeCorrupt when
    match ps_Staged s with Some r => negb (rr_Revision r =? ps_Revision s) | None => false end ;;
  return Some ErrRuntimeCorrupt when
    match ps_Staged s, ps_Current s with None, Some r => negb (rr_Revision r =? ps_Revision s) | _, _ => false end ;;
  if records_valid key (ps_Revision s) ∅ (some_records s) then None else Some ErrRuntimeCorrupt.

(** ** Files of a package *)

Definition set_sig_KeyID (v : string) (s : Signature) : Signature :=
  {| sig_KeyID := v; sig_Algorithm := sig_Algorithm s; sig_Value := sig_Value s; sig_SignedAt := sig_SignedAt s |}.
Definition set_sig_Algorithm (v : string) (s : Signature) : Signature :=
  {| sig_KeyID := sig_KeyID s; sig_Algorithm := v; sig_Value := sig_Value s; sig_SignedAt := sig_SignedAt s |}.
Definition set_sig_Value (v : string) (s : Signature) : Signature :=
  {| sig_KeyID := sig_KeyID s; sig_Algorithm := sig_Algorithm s; sig_Value := v; sig_SignedAt := sig_SignedAt s |}.
Definition set_sig_SignedAt (v : Time) (s : Signature) : Signature :=
  {| sig_KeyID := sig_KeyID s; sig_Algorithm := sig_Algorithm s; sig_Value := sig_Value s; sig_SignedAt := v |}.

Definition decode_signature : decoder Signature := decode_struct
  [field "key_id" sig_KeyID set_sig_KeyID decode_string; field "algorithm" sig_Algorithm set_sig_Algorithm decode_string;
   field "value" sig_Value set_sig_Value decode_string; field "signed_at" sig_SignedAt set_sig_SignedAt decode_time].

Definition no_signature : Signature := {| sig_KeyID := ""; sig_Algorithm := ""; sig_Value := ""; sig_SignedAt := 0 |}.

(** [parseArchiveSignatures] of archive.go. *)
Definition parseArchiveSignatures (data : string) : result error (list Signature) :=
  match parse_document data ≫= (fun v => decode_slice decode_signature no_signature v []) with
  | None => Err ErrSignature
  | Some signatures => Ok signatures
  end.

Definition text_of (data : list Z) : string := of_bytes (map byte_of data).

(** The bytes of a regular private file. *)
Definition read_managed (files : gmap string Entry) (path : string) : option (list Z) :=
  match files !! path with
  | Some e => if en_regular e && en_private e then Some (en_data e) else None
  | None => None
  end.

Definition validateLoadedRecord (files : gmap string Entry) (key : string) (r : RuntimeRecord) : option error :=
  return Some ErrRuntimeCorrupt when negb (String.eqb (rr_ArtifactIdentity r) (artifactIdentityFromHex (rr_ArtifactIdentity r)))
    || negb (String.eqb (rr_ManifestIdentity r) (artifactIdentityFromHex (rr_ManifestIdentity r))) ;;
  return Some ErrRuntimeCorrupt when negb (String.eqb (rr_ArtifactPath r) (artifact_path (rr_ArtifactIdentity r)))
    || negb (String.eqb (rr_ManifestPath r) (manifest_path key (rr_ManifestIdentity r)))
    || negb (String.eqb (rr_SignaturesPath r) (signatures_path key (rr_ManifestIdentity r))) ;;
  match read_managed files (rr_ArtifactPath r) with
  | None => Some ErrRuntimeCorrupt
  | Some artifact =>
  return Some ErrRuntimeCorrupt when negb (String.eqb (artifactIdentity artifact) (rr_ArtifactIdentity r)) ;;
  match read_managed files (rr_ManifestPath r) with
  | None => Some ErrRuntimeCorrupt
  | Some manifestBytes =>
  match ParseManifest (text_of manifestBytes) with
  | Err _ => Some ErrRuntimeCorrupt
  | Ok manifest =>
  match ContentIdentity manifest, runtimePluginKey manifest with
  | Ok manifestIdentity, Ok derivedKey =>
      return Some ErrRuntimeCorrupt when negb (String.eqb derivedKey key)
        || negb (String.eqb manifestIdentity (rr_ManifestIdentity r)) || negb (String.eqb (m_PluginID manifest) (rr_PluginID r))
        || negb (String.eqb (m_Name manifest) (rr_Name r)) || negb (String.eqb (m_Namespace manifest) (rr_Namespace r))
        || negb (String.eqb (m_Version manifest) (rr_Version r))
        || negb (m_ReleaseSequence manifest =? rr_ReleaseSequence r) ;;
      match Verify manifest artifact with
      | Some _ => Some ErrRuntimeCorrupt
      | None =>
          match read_managed files (rr_SignaturesPath r) with
          | None => Some ErrRuntimeCorrupt
          | Some signatureBytes =>
              match parseArchiveSignatures (text_of signatureBytes) with Err _ => Some ErrRuntimeCorrupt | Ok _ => None end
          end
      end
  | _, _ => Some ErrRuntimeCorrupt
  end end end end.

(** ** The state document *)

Definition plugin_errors (files : gmap string Entry) (p : string * runtimePluginState) : option error :=
  let '(key, plugin) := p in
  match validateRuntimeKey key with
  | Some _ => Some ErrRuntimeCorrupt
  | None =>
      match validateStateRecords key plugin with
      | Some err => Some err
      | None => first_error (validateLoadedRecord files key) (some_records plugin)
      end
  end.

(** [loadDiskState]; [fault] is an error of the operating system. The plugins
    are checked in an unspecified order. *)
Definition loadDiskState (fault : option string) (d : Disk) : result error runtimeDiskState :=
  match dk_state d with
  | NoFile => Ok empty_state
  | file =>
      match fault with
      | Some e => Err (ErrSystem e)
      | None =>
          match file with
          | NoFile => Ok empty_state
          | Irregular => Err ErrRuntimeSymlink
          | Exposed | Garbage => Err ErrRuntimeCorrupt
          | Document state =>
              return Err ErrRuntimeCorrupt when negb (ds_Schema state =? 1) ;;
              match first_error (plugin_errors (dk_files d)) (map_to_list (ds_Plugins state)) with
              | Some err => Err err
              | None => Ok state
              end
          end
      end
  end.

(** What happens to a write of the document: [AfterRename] is a failure to
    sync the directory, when the new document is already in place. *)
#[warnings="-register-all"]
Inductive PersistFault := Persisted | BeforeRename (e : string) | AfterRename (e : string).

Definition persistState (fault : PersistFault) (state : runtimeDiskState) (d : Disk) : option error * Disk :=
  let written := {| dk_state := Document state; dk_files := dk_files d |} in
  match fault with
  | Persisted => (None, written)
  | BeforeRename e => (Some (ErrSystem e), d)
  | AfterRename e => (Some (ErrSystem e), written)
  end.

(** The failures of a file write: before the rename, of the rename with the
    entry then found at the path, and of the directory sync. *)
Record FileFault := {
  ff_lstat : option string; ff_read : option string; ff_temp : option string;
  ff_rename : option (string * option Entry); ff_sync : option string }.

(** [persistArtifact] and [persistRuntimeFile]: an existing file must hold the
    [same] content, and [mismatch] is reported otherwise. *)
Definition persist_file (fault : FileFault) (path : string) (data : list Z) (same : list Z -> bool) (mismatch : error)
    (files : gmap string Entry) : option error * gmap string Entry :=
  match ff_lstat fault with
  | Some e => (Some (ErrSystem e), files)
  | None =>
  match files !! path with
  | Some e =>
      return (Some ErrRuntimeSymlink, files) when negb (en_regular e) ;;
      return (Some ErrRuntimePath, files) when negb (en_private e) ;;
      match ff_read fault with
      | Some err => (Some (ErrSystem err), files)
      | None => (if same (en_data e) then None else Some mismatch, files)
      end
  | None =>
      let written := <[path := {| en_regular := true; en_private := true; en_data := data |}]> files in
      match ff_temp fault, ff_rename fault with
      | Some e, _ => (Some (ErrSystem e), files)
      | None, Some (e, found) =>
          match found with
          | Some entry =>
              return (Some (ErrSystem e), files) when negb (en_regular entry && en_private entry) ;;
              (if same (en_data entry) && negb (match ff_read fault with Some _ => true | None => false end)
               then None else Some mismatch, <[path := entry]> files)
          | None => (Some (ErrSystem e), files)
          end
      | None, None => (option_map ErrSystem (ff_sync fault), written)
      end
  end end.

(** ** Staging *)

(** The result of an operation, the disk it leaves, and the copy of the state
    that the store now holds in memory, when it changed. *)
Record Outcome := { out_result : result error RuntimeRecord; out_disk : Disk; out_memory : option runtimeDiskState }.

Definition verifyImportedPackage (pkg : Package) (imported : ImportResult) : result error Manifest :=
  let? manifest := ParseManifest (pk_Manifest pkg) in
  let? key := runtimePluginKey manifest in
  match Verify manifest (pk_Artifact pkg) with
  | Some err => Err err
  | None =>
      return Err ErrRuntimeIdentityMismatch when negb (bool_decide (ir_Manifest imported = manifest))
        || negb (ir_ArtifactSize imported =? Z.of_nat (length (pk_Artifact pkg))) ;;
      return Err ErrRuntimeIdentityMismatch when
        match ContentIdentity manifest with Ok i => negb (String.eqb (ir_ContentIdentity imported) i) | Err _ => true end ;;
      let admission := ir_admission imported in
      return Err ErrRuntimeUnverified when negb (ad_verified admission) || String.eqb (ad_packageFingerprint admission) ""
        || negb (String.eqb (ad_packageFingerprint admission) (fingerprintPackage pkg)) ;;
      return Err ErrRuntimeUnverified when (ad_requiredSignatures admission <? 1)
        || String.eqb (ad_reportFingerprint admission) ""
        || negb (String.eqb (ad_reportFingerprint admission) (fingerprintSignatureReport (ir_SignatureReport imported)))
        || String.eqb (rp_Status (ir_SignatureReport imported)) VerificationRejected ;;
      Ok manifest
  end.

Definition same_content (manifestID artifactID : string) (r : RuntimeRecord) : bool :=
  String.eqb (rr_ManifestIdentity r) manifestID && String.eqb (rr_ArtifactIdentity r) artifactID.

(** The checks of a candidate against the state of its plugin, which [Stage]
    makes before and after its I/O: a record that it returns as it is, or
    nothing when the candidate may be staged. *)
Definition stage_against (manifest : Manifest) (manifestID artifactID : string) (s : runtimePluginState)
    : result error (option RuntimeRecord) :=
  let staged :=
    match ps_Staged s with
    | Some staged => if same_content manifestID artifactID staged then Ok (Some staged) else Err ErrRuntimeConflict
    | None => Ok None
    end in
  match ps_Current s with
  | None => staged
  | Some current =>
      match ValidateUpgrade manifest {| rel_Version := rr_Version current; rel_Sequence := rr_ReleaseSequence current |} with
      | Some err => Err err
      | None =>
          if String.eqb (rr_Version current) (m_Version manifest) && (rr_ReleaseSequence current =? m_ReleaseSequence manifest)
          then (if same_content manifestID artifactID current then Ok (Some current) else Err ErrRuntimeConflict)
          else return Err ErrDowngrade when m_ReleaseSequence manifest <=? rr_ReleaseSequence current ;;
          staged
      end
  end.

(** What the environment answers a call of [Stage]: the directories, the reads
    of the document, the file writes, the clock, the revalidator, the lease and
    the write of the document. *)
Record StageCall := {
  sc_directory : option error; sc_read : option string; sc_artifact : FileFault; sc_metadata : option error;
  sc_manifest : FileFault; sc_signatures : FileFault; sc_now : Time; sc_revalidate : RuntimeRecord -> option string;
  sc_lease : option error; sc_reread : option string; sc_persist : PersistFault }.

(** A candidate after the checks of [Stage]. *)
Record Candidate := { cd_Manifest : Manifest; cd_Key : string; cd_ManifestID : string; cd_ArtifactID : string }.

Definition candidate_of (c : StageCall) (pkg : Package) (imported : ImportResult) : result error Candidate :=
  let? manifest := verifyImportedPackage pkg imported in
  let? key := runtimePluginKey manifest in
  match sc_directory c with
  | Some err => Err err
  | None =>
      let? manifestID := ContentIdentity manifest in
      Ok {| cd_Manifest := manifest; cd_Key := key; cd_ManifestID := manifestID;
            cd_ArtifactID := artifactIdentity (pk_Artifact pkg) |}
  end.

Definition plugin_of (s : runtimeDiskState) (key : string) : runtimePluginState := default no_plugin (ds_Plugins s !! key).

Definition set_plugin (key : string) (p : runtimePluginState) (s : runtimeDiskState) : runtimeDiskState :=
  {| ds_Schema := ds_Schema s; ds_Plugins := <[key := p]> (ds_Plugins s) |}.

Definition staged_record (c : StageCall) (imported : ImportResult) (cd : Candidate) (revision : Z) : RuntimeRecord :=
  let m := cd_Manifest cd in
  {| rr_Key := cd_Key cd; rr_PluginID := m_PluginID m; rr_Name := m_Name m; rr_Namespace := m_Namespace m;
     rr_Version := m_Version m; rr_ReleaseSequence := m_ReleaseSequence m; rr_ManifestIdentity := cd_ManifestID cd;
     rr_ArtifactIdentity := cd_ArtifactID cd; rr_ArtifactPath := artifact_path (cd_ArtifactID cd);
     rr_ManifestPath := manifest_path (cd_Key cd) (cd_ManifestID cd);
     rr_SignaturesPath := signatures_path (cd_Key cd) (cd_ManifestID cd); rr_Slot := RuntimeSlotStaged;
     rr_Revision := revision; rr_RequiresConfirm := ad_requiresConfirmation (ir_admission imported);
     rr_CreatedAt := sc_now c; rr_UpdatedAt := sc_now c |}.

(** [persistArtifact], then [persistMetadata]. *)
Definition write_package (c : StageCall) (pkg : Package) (cd : Candidate) (files : gmap string Entry)
    : option error * gmap string Entry :=
  let '(err, files) := persist_file (sc_artifact c) (artifact_path (cd_ArtifactID cd)) (pk_Artifact pkg)
    (fun data => String.eqb (artifactIdentity data) (cd_ArtifactID cd)) ErrRuntimeCorrupt files in
  match err, sc_metadata c with
  | Some err, _ | None, Some err => (Some err, files)
  | None, None =>
      match marshal_signatures (pk_Signatures pkg) with
      | None => (Some (ErrSystem "json"), files)
      | Some sigBytes =>
          let manifest := text_bytes (pk_Manifest pkg) in
          let signatures := map byte_val sigBytes in
          let '(err, files) := persist_file (sc_manifest c) (manifest_path (cd_Key cd) (cd_ManifestID cd)) manifest
            (fun data => bool_decide (data = manifest)) ErrRuntimeConflict files in
          match err with
          | Some err => (Some err, files)
          | None => persist_file (sc_signatures c) (signatures_path (cd_Key cd) (cd_ManifestID cd)) signatures
                      (fun data => bool_decide (data = signatures)) ErrRuntimeConflict files
          end
      end
  end.

Definition staged_state (record : RuntimeRecord) (s : runtimePluginState) : runtimePluginState :=
  {| ps_Revision := rr_Revision record; ps_Current := ps_Current s; ps_Staged := Some record;
     ps_Previous := ps_Previous s; ps_Events := ps_Events s; ps_Used := ps_Used s |}.

(** The second critical section of [Stage], on the disk with the files. *)
Definition stage_commit (c : StageCall) (imported : ImportResult) (cd : Candidate) (baseRevision : Z)
    (memory : option runtimeDiskState) (d : Disk) : Outcome :=
  let stop r := {| out_result := r; out_disk := d; out_memory := memory |} in
  match sc_lease c with
  | Some err => stop (Err err)
  | None =>
  match loadDiskState (sc_reread c) d with
  | Err err => stop (Err err)
  | Ok state =>
      let live := plugin_of state (cd_Key cd) in
      let same := same_content (cd_ManifestID cd) (cd_ArtifactID cd) in
      if negb (ps_Revision live =? baseRevision) then
        match ps_Current live, ps_Staged live with
        | Some r, _ =>
            if same r then stop (Ok r) else
            match ps_Staged live with
            | Some r => if same r then stop (Ok r) else stop (Err ErrRuntimeConflict)
            | None => stop (Err ErrRuntimeConflict)
            end
        | None, Some r => if same r then stop (Ok r) else stop (Err ErrRuntimeConflict)
        | None, None => stop (Err ErrRuntimeConflict)
        end
      else
      match stage_against (cd_Manifest cd) (cd_ManifestID cd) (cd_ArtifactID cd) live with
      | Err err => stop (Err err)
      | Ok (Some r) => stop (Ok r)
      | Ok None =>
          let record := staged_record c imported cd (u64 (ps_Revision live + 1)) in
          let next := set_plugin (cd_Key cd) (staged_state record live) state in
          let '(err, d') := persistState (sc_persist c) next d in
          match err with
          | Some err => {| out_result := Err err; out_disk := d'; out_memory := memory |}
          | None => {| out_result := Ok record; out_disk := d'; out_memory := Some next |}
          end
      end
  end end.

(** [Stage] reads the document on the disk [d1]; [d2] is the disk after the
    other processes ran in between. *)
Definition Stage (c : StageCall) (pkg : Package) (imported : ImportResult) (d1 d2 : Disk) : Outcome :=
  let stop memory r := {| out_result := r; out_disk := d2; out_memory := memory |} in
  match candidate_of c pkg imported with
  | Err err => stop None (Err err)
  | Ok cd =>
  match loadDiskState (sc_read c) d1 with
  | Err err => stop None (Err err)
  | Ok first =>
      let state := plugin_of first (cd_Key cd) in
      match stage_against (cd_Manifest cd) (cd_ManifestID cd) (cd_ArtifactID cd) state with
      | Err err => stop (Some first) (Err err)
      | Ok (Some r) => stop (Some first) (Ok r)
      | Ok None =>
          let '(err, files) := write_package c pkg cd (dk_files d2) in
          let d2 := {| dk_state := dk_state d2; dk_files := files |} in
          let stop r := {| out_result := r; out_disk := d2; out_memory := Some first |} in
          match err with
          | Some err => stop (Err err)
          | None =>
              match sc_revalidate c (staged_record c imported cd (u64 (ps_Revision state + 1))) with
              | Some _ => stop (Err ErrRuntimeUnverified)
              | None => stage_commit c imported cd (ps_Revision state) (Some first) d2
              end
          end
      end
  end end.

(** ** Promotion and rollback *)

Definition runtimeTarget (s : runtimePluginState) (action : RuntimeAction) : option RuntimeRecord :=
  if String.eqb action RuntimeActionPromote then ps_Staged s else ps_Previous s.

Definition validRuntimeField (value : string) : bool :=
  return false when String.eqb value "" || negb (String.eqb value (TrimSpace value)) ;;
  forallb (fun r => (33 <=? r) && (r <=? 126)) (runes value).

Definition validateConfirmationFields (s : runtimePluginState) (key : string) (action : RuntimeAction)
    (target : RuntimeRecord) (revision : Z) (confirmation : option Confirmation) (now : Time) : option error :=
  match confirmation with
  | None => Some ErrRuntimeConfirmationRequired
  | Some cf =>
      return Some ErrRuntimeConfirmationRequired when
        negb (validRuntimeField (cf_ID cf)) || negb (validRuntimeField (cf_Actor cf)) ;;
      return Some ErrRuntimeConfirmationReplay when negb (IsZero (default zero_time (ps_Used s !! cf_ID cf))) ;;
      return Some ErrRuntimeAuthorization when
        negb (String.eqb (cf_Action cf) action) || negb (String.eqb (cf_PluginKey cf) key)
        || negb (String.eqb (cf_ManifestIdentity cf) (rr_ManifestIdentity target))
        || negb (cf_ExpectedRevision cf =? revision) || IsZero (cf_ExpiresAt cf) || negb (After (cf_ExpiresAt cf) now)
        || IsZero (cf_AuthorizedAt cf) || After (cf_AuthorizedAt cf) now
        || negb (After (cf_ExpiresAt cf) (cf_AuthorizedAt cf))
        || (maxRuntimeConfirmationTTL <? TimeSub (cf_ExpiresAt cf) (cf_AuthorizedAt cf)) ;;
      None
  end.

Definition confirmationActor (c : option Confirmation) : string := match c with Some c => cf_Actor c | None => "" end.

(** What the environment answers a transition: the reads of the document, the
    clock at its three readings, the callbacks, the lease and the write. *)
Record TransitionCall := {
  tc_read : option string; tc_check_now : Time; tc_revalidate : RuntimeRecord -> option string;
  tc_health : RuntimeRecord -> option string; tc_authorizer : option (Confirmation -> option string);
  tc_lease : option error; tc_reread : option string; tc_confirm_now : Time; tc_now : Time; tc_persist : PersistFault }.

(** The slots after the transition to the record [target]. *)
Definition promoted (target : RuntimeRecord) (revision : Z) (now : Time) (s : runtimePluginState) : runtimePluginState :=
  {| ps_Revision := revision; ps_Current := Some (with_slot RuntimeSlotCurrent revision now target); ps_Staged := None;
     ps_Previous := match ps_Current s with
                    | Some c => Some (with_slot RuntimeSlotPrevious (rr_Revision c) now c)
                    | None => ps_Previous s
                    end;
     ps_Events := ps_Events s; ps_Used := ps_Used s |}.

(** The event and the spent confirmation of a transition. *)
Definition recorded (action : RuntimeAction) (target : RuntimeRecord) (confirmation : option Confirmation) (now : Time)
    (s : runtimePluginState) : runtimePluginState :=
  {| ps_Revision := ps_Revision s; ps_Current := ps_Current s; ps_Staged := ps_Staged s; ps_Previous := ps_Previous s;
     ps_Events := ps_Events s ++ [{| ev_Revision := ps_Revision s; ev_Action := action;
                                     ev_ManifestIdentity := rr_ManifestIdentity target;
                                     ev_Actor := confirmationActor confirmation; ev_At := now |}];
     ps_Used := match confirmation with Some c => <[cf_ID c := now]> (ps_Used s) | None => ps_Used s end |}.

Definition needs_confirmation (target : RuntimeRecord) (action : RuntimeAction) : bool :=
  rr_RequiresConfirm target || String.eqb action RuntimeActionRollback.

(** The first critical section: the target of the transition. *)
Definition transition_begin (c : TransitionCall) (key : string) (expectedRevision : Z) (action : RuntimeAction)
    (confirmation : option Confirmation) (state : runtimeDiskState) : result error RuntimeRecord :=
  return Err ErrRuntimeConfig when
    negb (String.eqb action RuntimeActionPromote) && negb (String.eqb action RuntimeActionRollback) ;;
  match validateRuntimeKey key with
  | Some err => Err err
  | None =>
  match ds_Plugins state !! key with
  | None => Err ErrRuntimeNotFound
  | Some s =>
      return Err ErrRuntimeConflict when negb (ps_Revision s =? expectedRevision) ;;
      match runtimeTarget s action with
      | None => Err ErrRuntimeNotFound
      | Some target =>
          return Ok target when negb (needs_confirmation target action) ;;
          match validateConfirmationFields s key action target expectedRevision confirmation (tc_check_now c) with
          | Some err => Err err
          | None => match tc_authorizer c with None => Err ErrRuntimeAuthorization | Some _ => Ok target end
          end
      end
  end end.

(** The callbacks between the critical sections. *)
Definition transition_checks (c : TransitionCall) (target : RuntimeRecord) (confirmation : option Confirmation) : option error :=
  match tc_revalidate c target with
  | Some _ => Some ErrRuntimeUnverified
  | None =>
      match tc_health c target with
      | Some _ => Some ErrRuntimeHealthCheck
      | None =>
          match tc_authorizer c, confirmation with
          | Some authorize, Some cf => match authorize cf with Some _ => Some ErrRuntimeAuthorization | None => None end
          | _, _ => None
          end
      end
  end.

(** The second critical section. *)
Definition transition_commit (c : TransitionCall) (key : string) (expectedRevision : Z) (action : RuntimeAction)
    (confirmation : option Confirmation) (targetCopy : RuntimeRecord) (memory : option runtimeDiskState) (d : Disk) : Outcome :=
  let stop err := {| out_result := Err err; out_disk := d; out_memory := memory |} in
  match tc_lease c with
  | Some err => stop err
  | None =>
  match loadDiskState (tc_reread c) d with
  | Err err => stop err
  | Ok state =>
  match ds_Plugins state !! key with
  | None => stop ErrRuntimeConflict
  | Some live =>
      return stop ErrRuntimeConflict when negb (ps_Revision live =? expectedRevision) ;;
      match runtimeTarget live action with
      | None => stop ErrRuntimeConflict
      | Some target =>
          return stop ErrRuntimeConflict when
            negb (String.eqb (rr_ManifestIdentity target) (rr_ManifestIdentity targetCopy)) ;;
          match (if needs_confirmation targetCopy action
                 then validateConfirmationFields live key action target expectedRevision confirmation (tc_confirm_now c)
                 else None) with
          | Some err => stop err
          | None =>
              let now := tc_now c in
              let after := recorded action target confirmation now
                             (promoted target (u64 (ps_Revision live + 1)) now live) in
              let next := set_plugin key after state in
              let '(err, d') := persistState (tc_persist c) next d in
              match err with
              | Some err => {| out_result := Err err; out_disk := d'; out_memory := memory |}
              | None => {| out_result := Ok (with_slot RuntimeSlotCurrent (u64 (ps_Revision live + 1)) now target);
                           out_disk := d'; out_memory := Some next |}
              end
          end
      end
  end end end.

(** [transition], with the disk it reads first and the disk when it commits. *)
Definition transition (c : TransitionCall) (key : string) (expectedRevision : Z) (action : RuntimeAction)
    (confirmation : option Confirmation) (d1 d2 : Disk) : Outcome :=
  match loadDiskState (tc_read c) d1 with
  | Err err => {| out_result := Err err; out_disk := d2; out_memory := None |}
  | Ok state =>
      match transition_begin c key expectedRevision action confirmation state with
      | Err err => {| out_result := Err err; out_disk := d2; out_memory := Some state |}
      | Ok target =>
          match transition_checks c target confirmation with
          | Some err => {| out_result := Err err; out_disk := d2; out_memory := Some state |}
          | None => transition_commit c key expectedRevision action confirmation target (Some state) d2
          end
      end
  end.

Definition Promote (c : TransitionCall) (key : string) (expectedRevision : Z) (confirmation : option Confirmation)
    (d1 d2 : Disk) : Outcome :=
  transition c key expectedRevision RuntimeActionPromote confirmation d1 d2.

Definition Rollback (c : TransitionCall) (key : string) (expectedRevision : Z) (confirmation : option Confirmation)
    (d1 d2 : Disk) : Outcome :=
  transition c key expectedRevision RuntimeActionRollback confirmation d1 d2.

(** ** Reading *)

(** [load]: the document is read and every record revalidated. *)
Definition load (fault : option string) (revalidate : RuntimeRecord -> option string) (d : Disk)
    : result error runtimeDiskState :=
  let? state := loadDiskState fault d in
  match first_error (fun r => match revalidate r with Some _ => Some ErrRuntimeUnverified | None => None end)
          (concat (map (fun p => some_records (snd p)) (map_to_list (ds_Plugins state)))) with
  | Some err => Err err
  | None => Ok state
  end.

Definition slot_of (s : runtimePluginState) (slot : RuntimeSlot) : option RuntimeRecord :=
  if String.eqb slot RuntimeSlotCurrent then ps_Current s
  else if String.eqb slot RuntimeSlotStaged then ps_Staged s
  else if String.eqb slot RuntimeSlotPrevious then ps_Previous s else None.

(** [slot], which [Current], [Staged], [Previous] and [Get] call on the copy in memory. *)
Definition slot (memory : runtimeDiskState) (key : string) (name : RuntimeSlot) : result error RuntimeRecord :=
  match validateRuntimeKey key with
  | Some err => Err err
  | None =>
      match ds_Plugins memory !! key ≫= (fun s => slot_of s name) with
      | None => Err ErrRuntimeNotFound
      | Some r => Ok r
      end
  end.

Definition Snapshot (memory : runtimeDiskState) (key : string) : result error RuntimeSnapshot :=
  match validateRuntimeKey key with
  | Some err => Err err
  | None =>
      match ds_Plugins memory !! key with
      | None => Err ErrRuntimeNotFound
      | Some s => Ok {| sn_Key := key; sn_Revision := ps_Revision s; sn_Current := ps_Current s; sn_Staged := ps_Staged s;
                        sn_Previous := ps_Previous s |}
      end
  end.

(** [RuntimeStore.Manifest]. *)
Definition runtime_Manifest (memory : runtimeDiskState) (files : gmap string Entry) (read : option string)
    (record : RuntimeRecord) : result error Manifest :=
  match validateRuntimeKey (rr_Key record) with
  | Some err => Err err
  | None =>
  match ds_Plugins memory !! rr_Key record with
  | None => Err ErrRuntimeNotFound
  | Some s =>
      return Err ErrRuntimeNotFound when
        negb (existsb (String.eqb (rr_Slot record)) [RuntimeSlotCurrent; RuntimeSlotStaged; RuntimeSlotPrevious]) ;;
      match slot_of s (rr_Slot record) with
      | None => Err ErrRuntimeConflict
      | Some live =>
          return Err ErrRuntimeConflict when negb (rr_Revision live =? rr_Revision record)
            || negb (String.eqb (rr_ManifestIdentity live) (rr_ManifestIdentity record))
            || negb (String.eqb (rr_ArtifactIdentity live) (rr_ArtifactIdentity record)) ;;
          match validateLoadedRecord files (rr_Key record) live with
          | Some err => Err err
          | None =>
              match read, files !! rr_ManifestPath live with
              | None, Some e =>
                  match ParseManifest (text_of (en_data e)) with
                  | Err _ => Err ErrRuntimeCorrupt
                  | Ok manifest =>
                      match ContentIdentity manifest with
                      | Ok i => if String.eqb i (rr_ManifestIdentity live) then Ok manifest else Err ErrRuntimeCorrupt
                      | Err _ => Err ErrRuntimeCorrupt
                      end
                  end
              | _, _ => Err ErrRuntimeCorrupt
              end
          end
      end
  end end.
