(* ===== verification/CrpRuntimeSafety.v ===== *)
(** * Commits of the runtime store

    Every operation leaves the state document alone or replaces the state of
    one plugin by its successor: the commits, and what follows for revisions,
    confirmations and releases along a run of several processes. *)

From S2P Require Import Prelude GoText CrpManifest CrpVersion CrpTrust CrpImport CrpRuntime.
From stdpp Require Import relations.

Open Scope string_scope.
Open Scope list_scope.
Open Scope Z_scope.
Open Scope go_scope.

(** ** Loading *)

Lemma first_error_None {A} (check : A -> option error) l :
  first_error check l = None <-> forall x, x ∈ l -> check x = None.
Proof.
  induction l as [|x l IH]; cbn [first_error].
  - split; [|done]. intros _ x H. by apply not_elem_of_nil in H.
  - destruct (check x) eqn:E.
    + split; [done|]. intros H. specialize (H x). rewrite E in H. discriminate H. by left.
    + rewrite IH. split; intros H y Hy; [apply elem_of_cons in Hy as [->|Hy]; [done|by apply H]|apply H; by right].
Qed.

(** A document that loads, whatever the fault. *)
Definition readable (files : gmap string Entry) (state : runtimeDiskState) : Prop :=
  ds_Schema state = 1 /\ forall key p, ds_Plugins state !! key = Some p -> plugin_errors files (key, p) = None.

Lemma loadDiskState_Document fault d state :
  loadDiskState fault d = Ok state ->
  (dk_state d = NoFile /\ state = empty_state) \/ (dk_state d = Document state /\ readable (dk_files d) state).
Proof.
  unfold loadDiskState. destruct (dk_state d) as [| | | |s]; [intros; simplify_eq; by left| | | |];
    destruct fault; try done. destruct (negb _) eqn:S; [done|]. destruct (first_error _ _) eqn:F; [done|].
  intros E. simplify_eq. right. split; [done|]. props. split; [done|]. intros key p L.
  by apply (proj1 (first_error_None _ _) F), elem_of_map_to_list.
Qed.

Lemma readable_loads d state :
  dk_state d = Document state -> readable (dk_files d) state -> loadDiskState None d = Ok state.
Proof.
  intros D [S P]. unfold loadDiskState. rewrite D, S. cbn [Z.eqb negb].
  replace (first_error _ _) with (@None error); [done|]. symmetry. apply first_error_None.
  intros [key p] L%elem_of_map_to_list. by apply P.
Qed.

(** The state of a plugin on a disk. *)
Definition plugin_on (d : Disk) (key : string) : runtimePluginState :=
  match dk_state d with Document s => plugin_of s key | _ => no_plugin end.

Lemma loaded_plugin fault d state key : loadDiskState fault d = Ok state -> plugin_of state key = plugin_on d key.
Proof.
  unfold plugin_on. intros [[-> ->]|[-> _]]%loadDiskState_Document; [|done].
  unfold plugin_of. cbn. by rewrite lookup_empty.
Qed.

(** ** Commits *)

(** The document [s] of [d] replaced by one with another state of a plugin. *)
Inductive commits (d d' : Disk) (key : string) (after : runtimePluginState) : Prop :=
| commits_intro fault state :
    loadDiskState fault d = Ok state -> dk_state d' = Document (set_plugin key after state) -> dk_files d' = dk_files d ->
    commits d d' key after.

Lemma plugin_of_set s key p key' :
  plugin_of (set_plugin key p s) key' = if String.eqb key key' then p else plugin_of s key'.
Proof.
  unfold plugin_of, set_plugin. cbn. destruct (String.eqb_spec key key') as [->|N].
  - by rewrite lookup_insert_eq.
  - by rewrite lookup_insert_ne.
Qed.

Lemma commits_plugin d d' key after key' :
  commits d d' key after -> plugin_on d' key' = if String.eqb key key' then after else plugin_on d key'.
Proof.
  intros [fault state L D _]. unfold plugin_on at 1. rewrite D, plugin_of_set. by rewrite (loaded_plugin _ _ _ key' L).
Qed.

(** A write of the document takes effect or not. *)
Lemma persistState_cases fault next d err d' :
  persistState fault next d = (err, d') ->
  (d' = d /\ err <> None) \/ (dk_state d' = Document next /\ dk_files d' = dk_files d).
Proof. destruct fault; cbn; intros E; simplify_eq; [by right|by left|by right]. Qed.

(** A transition of the plugin [key] that its checks admit on the disk [d]. *)
Record transition_admitted (c : TransitionCall) (key : string) (expectedRevision : Z) (action : RuntimeAction)
    (confirmation : option Confirmation) (d1 d : Disk) (copy target : RuntimeRecord) : Prop := {
  ta_first : exists state, loadDiskState (tc_read c) d1 = Ok state
    /\ transition_begin c key expectedRevision action confirmation state = Ok copy;
  ta_checks : transition_checks c copy confirmation = None;
  ta_revision : ps_Revision (plugin_on d key) = expectedRevision;
  ta_target : runtimeTarget (plugin_on d key) action = Some target;
  ta_same : rr_ManifestIdentity target = rr_ManifestIdentity copy;
  ta_confirmed : needs_confirmation copy action = true ->
    validateConfirmationFields (plugin_on d key) key action target expectedRevision confirmation (tc_confirm_now c) = None }.

(** The state of a plugin after a transition. *)
Definition after_transition (c : TransitionCall) (action : RuntimeAction) (confirmation : option Confirmation)
    (target : RuntimeRecord) (s : runtimePluginState) : runtimePluginState :=
  recorded action target confirmation (tc_now c) (promoted target (u64 (ps_Revision s + 1)) (tc_now c) s).

Lemma transition_cases c key rev action cf d1 d :
  let o := transition c key rev action cf d1 d in
  (out_disk o = d /\ exists err, out_result o = Err err)
  \/ exists copy target,
       transition_admitted c key rev action cf d1 d copy target
       /\ commits d (out_disk o) key (after_transition c action cf target (plugin_on d key))
       /\ (forall r, out_result o = Ok r -> r = with_slot RuntimeSlotCurrent (u64 (rev + 1)) (tc_now c) target).
Proof.
  unfold transition. destruct (loadDiskState (tc_read c) d1) as [s1|] eqn:L1; [|left; eauto].
  destruct (transition_begin _ _ _ _ _ s1) as [copy|] eqn:B; [|left; eauto].
  destruct (transition_checks _ _ _) eqn:CH; [left; eauto|].
  unfold transition_commit. destruct (tc_lease c); [left; eauto|].
  destruct (loadDiskState (tc_reread c) d) as [state|] eqn:L; [|left; eauto].
  destruct (ds_Plugins state !! key) as [live|] eqn:P; [|left; eauto].
  assert (plugin_on d key = live) as PO.
  { rewrite <- (loaded_plugin _ _ _ key L). unfold plugin_of. by rewrite P. }
  destruct (negb (ps_Revision live =? rev)) eqn:R; [left; eauto|].
  destruct (runtimeTarget live action) as [target|] eqn:T; [|left; eauto].
  destruct (negb (String.eqb _ _)) eqn:I; [left; eauto|].
  destruct (if needs_confirmation copy action then _ else _) eqn:V; [left; eauto|].
  destruct (persistState _ _ d) as [err d'] eqn:PS. props.
  destruct (persistState_cases _ _ _ _ _ PS) as [[-> N]|[D F]].
  { left. destruct err; [eauto|done]. }
  right. exists copy, target. split_and!.
  - constructor; rewrite ?PO; try done; [by eauto|]. intros NC. by rewrite NC in V.
  - rewrite PO. destruct err; econstructor; eauto.
  - intros r E. destruct err; cbn in E; by simplify_eq.
Qed.

(** ** Staging *)

Lemma plugin_on_files d files key : plugin_on {| dk_state := dk_state d; dk_files := files |} key = plugin_on d key.
Proof. done. Qed.

(** A candidate that [Stage] admits against the plugin on [d]. *)
Record stage_admitted (c : StageCall) (pkg : Package) (imported : ImportResult) (d : Disk) (cd : Candidate)
    (files : gmap string Entry) : Prop := {
  sa_candidate : candidate_of c pkg imported = Ok cd;
  sa_files : write_package c pkg cd (dk_files d) = (None, files);
  sa_against : stage_against (cd_Manifest cd) (cd_ManifestID cd) (cd_ArtifactID cd) (plugin_on d (cd_Key cd)) = Ok None }.

Definition after_stage (c : StageCall) (imported : ImportResult) (cd : Candidate) (s : runtimePluginState) : runtimePluginState :=
  staged_state (staged_record c imported cd (u64 (ps_Revision s + 1))) s.

Lemma Stage_cases c pkg imported d1 d :
  let o := Stage c pkg imported d1 d in
  dk_state (out_disk o) = dk_state d
  \/ exists cd files,
       stage_admitted c pkg imported d cd files
       /\ commits {| dk_state := dk_state d; dk_files := files |} (out_disk o) (cd_Key cd)
            (after_stage c imported cd (plugin_on d (cd_Key cd)))
       /\ (forall r, out_result o = Ok r -> r = staged_record c imported cd (u64 (ps_Revision (plugin_on d (cd_Key cd)) + 1))).
Proof.
  unfold Stage. destruct (candidate_of _ _ _) as [cd|] eqn:C; [|by left].
  destruct (loadDiskState (sc_read c) d1) as [first|]; [|by left].
  destruct (stage_against _ _ _ (plugin_of first _)) as [[r|]|]; [by left| |by left].
  destruct (write_package _ _ _ _) as [[err|] files] eqn:W; [by left|].
  destruct (sc_revalidate c _); [by left|]. unfold stage_commit. destruct (sc_lease c); [by left|].
  destruct (loadDiskState (sc_reread c) _) as [state|] eqn:L; [|by left].
  pose proof (loaded_plugin _ _ _ (cd_Key cd) L) as PO. rewrite plugin_on_files in PO. cbv zeta. rewrite PO.
  destruct (negb _).
  { left. by repeat case_match. }
  destruct (stage_against _ _ _ (plugin_on d _)) as [[r|]|] eqn:SA; [by left| |by left].
  destruct (persistState _ _ _) as [err d'] eqn:PS.
  destruct (persistState_cases _ _ _ _ _ PS) as [[-> N]|[D F]]; [left; by destruct err|].
  right. exists cd, files. split_and!; [done| |].
  - destruct err; econstructor; eauto.
  - intros r E. destruct err; cbn in E; by simplify_eq.
Qed.

(** ** Runs *)

(** One operation of one of the processes that share the disk; the disk that it
    read first is arbitrary. The clock never shows the zero time. *)
Inductive step (d : Disk) : Disk -> Prop :=
| step_stage c pkg imported d1 : step d (out_disk (Stage c pkg imported d1 d))
| step_transition c key rev action cf d1 : tc_now c <> 0 -> step d (out_disk (transition c key rev action cf d1 d)).

(** What a step does to the state of one plugin. *)
Inductive plugin_step (s : runtimePluginState) : runtimePluginState -> Prop :=
| plugin_staged c imported cd :
    stage_against (cd_Manifest cd) (cd_ManifestID cd) (cd_ArtifactID cd) s = Ok None -> Validate (cd_Manifest cd) = None ->
    plugin_step s (after_stage c imported cd s)
| plugin_moved c action cf target :
    runtimeTarget s action = Some target -> tc_now c <> 0 -> plugin_step s (after_transition c action cf target s).

Lemma candidate_valid c pkg imported cd :
  candidate_of c pkg imported = Ok cd ->
  ParseManifest (pk_Manifest pkg) = Ok (cd_Manifest cd) /\ runtimePluginKey (cd_Manifest cd) = Ok (cd_Key cd)
  /\ Verify (cd_Manifest cd) (pk_Artifact pkg) = None /\ ContentIdentity (cd_Manifest cd) = Ok (cd_ManifestID cd)
  /\ cd_ArtifactID cd = artifactIdentity (pk_Artifact pkg).
Proof.
  unfold candidate_of, verifyImportedPackage. destruct (ParseManifest _) as [m|] eqn:P; [|done].
  destruct (runtimePluginKey m) as [k|] eqn:K; [|done]. destruct (Verify _ _) eqn:V; [done|].
  repeat (case_match; try done). intros E. by simplify_eq.
Qed.

Lemma Verify_valid m data : Verify m data = None -> Validate m = None.
Proof. unfold Verify. by destruct (Validate m). Qed.

Lemma step_plugin d d' key : step d d' -> plugin_on d' key = plugin_on d key \/ plugin_step (plugin_on d key) (plugin_on d' key).
Proof.
  intros [c pkg imported d1|c k rev action cf d1 NZ].
  - destruct (Stage_cases c pkg imported d1 d) as [E|(cd & files & A & C & _)].
    { left. unfold plugin_on. by rewrite E. }
    rewrite (commits_plugin _ _ _ _ key C), plugin_on_files. destruct (String.eqb_spec (cd_Key cd) key) as [<-|]; [|by left].
    right. apply plugin_staged; [apply A|]. eapply Verify_valid, (candidate_valid c pkg imported), A.
  - destruct (transition_cases c k rev action cf d1 d) as [[-> _]|(copy & target & A & C & _)]; [by left|].
    rewrite (commits_plugin _ _ _ _ key C). destruct (String.eqb_spec k key) as [<-|]; [|by left].
    right. apply plugin_moved; [apply A|done].
Qed.

(** ** Safety of the runtime store along a run

    Transitions act on exactly the state they checked, one per revision; a
    confirmation is spent by its first use; and the installed release goes
    back only by a confirmed rollback. *)

(** ** Revisions *)

Lemma plugin_step_revision s s' : plugin_step s s' -> ps_Revision s' = u64 (ps_Revision s + 1).
Proof. by intros [c imported cd _ _|c action cf target _ _]. Qed.

(** A revision names one state of the plugin for as long as it does not wrap. *)
Lemma run_revision n d d' key :
  nsteps step n d d' -> 0 <= ps_Revision (plugin_on d key) -> ps_Revision (plugin_on d key) + Z.of_nat n < two64 ->
  ps_Revision (plugin_on d key) <= ps_Revision (plugin_on d' key) <= ps_Revision (plugin_on d key) + Z.of_nat n
  /\ (ps_Revision (plugin_on d' key) = ps_Revision (plugin_on d key) -> plugin_on d' key = plugin_on d key).
Proof.
  intros R. induction R as [d|n d d1 d' S _ IH]; intros NN B; [split; [lia|done]|].
  destruct (step_plugin _ _ key S) as [E|PS].
  - rewrite E in IH. destruct IH as [I1 I2]; [lia|lia|]. split; [lia|done].
  - apply plugin_step_revision in PS. rewrite u64_small in PS by (unfold two64 in *; lia).
    destruct IH as [I1 I2]; [lia|lia|]. split; [lia|intros; lia].
Qed.

Lemma transition_begin_spec c key rev action cf state copy :
  transition_begin c key rev action cf state = Ok copy ->
  (action = RuntimeActionPromote \/ action = RuntimeActionRollback)
  /\ ps_Revision (plugin_of state key) = rev /\ runtimeTarget (plugin_of state key) action = Some copy
  /\ (needs_confirmation copy action = true -> is_Some (tc_authorizer c)).
Proof.
  unfold transition_begin, plugin_of. destruct (_ && _) eqn:A; [done|]. destruct (validateRuntimeKey key); [done|].
  destruct (ds_Plugins state !! key) as [s|]; [|done]. cbn [default]. destruct (negb (_ =? _)) eqn:R; [done|].
  destruct (runtimeTarget s action) as [target|] eqn:T; [|done].
  intros E. split_and!.
  - apply andb_false_iff in A as [A|A]; props; auto.
  - by props.
  - destruct (negb (needs_confirmation _ _)); [by simplify_eq|]. destruct (validateConfirmationFields _ _ _ _ _ _ _); [done|].
    destruct (tc_authorizer c); by simplify_eq.
  - intros N. destruct (negb (needs_confirmation target action)) eqn:N'.
    + simplify_eq. props. congruence.
    + destruct (validateConfirmationFields _ _ _ _ _ _ _); [done|]. destruct (tc_authorizer c); [by eexists|done].
Qed.

(** What the callbacks of a deployment must have said of a record. *)
Definition callbacks_accept (c : TransitionCall) (target : RuntimeRecord) (confirmation : option Confirmation) : Prop :=
  tc_revalidate c target = None /\ tc_health c target = None
  /\ forall authorize cf, tc_authorizer c = Some authorize -> confirmation = Some cf -> authorize cf = None.

Lemma transition_checks_accept c target cf : transition_checks c target cf = None -> callbacks_accept c target cf.
Proof.
  unfold transition_checks, callbacks_accept. destruct (tc_revalidate c target); [done|]. destruct (tc_health c target); [done|].
  intros E. split_and!; [done|done|]. intros authorize cf' A C. rewrite A, C in E. by destruct (authorize cf').
Qed.

(** A transition that succeeds on a disk reached from the one it read. *)
Lemma transition_success n c key rev action cf d1 d r :
  nsteps step n d1 d -> 0 <= rev -> rev + Z.of_nat n < two64 ->
  out_result (transition c key rev action cf d1 d) = Ok r ->
  exists target,
    transition_admitted c key rev action cf d1 d target target /\ plugin_on d1 key = plugin_on d key
    /\ commits d (out_disk (transition c key rev action cf d1 d)) key (after_transition c action cf target (plugin_on d key))
    /\ r = with_slot RuntimeSlotCurrent (u64 (rev + 1)) (tc_now c) target.
Proof.
  intros R NN B O. destruct (transition_cases c key rev action cf d1 d) as [[_ [err E]]|(copy & target & A & C & RR)];
    [congruence|].
  destruct (ta_first _ _ _ _ _ _ _ _ _ A) as (state & L & TB).
  pose proof (transition_begin_spec _ _ _ _ _ _ _ TB) as (_ & RV & T & _).
  rewrite (loaded_plugin _ _ _ key L) in RV, T.
  assert (plugin_on d key = plugin_on d1 key) as E.
  { apply (run_revision n d1 d key R); rewrite ?RV; [done|done|]. apply A. }
  assert (copy = target) as -> by (pose proof (ta_target _ _ _ _ _ _ _ _ _ A); congruence).
  exists target. split_and!; [done|done|done|by apply RR].
Qed.

(** A promotion or rollback is atomic although its checks run without a
    lock. When [transition] succeeds on a disk that other processes may have
    changed since it read it, the state of the plugin is the one that it checked,
    and the record that the revalidator, the health check and the authorizer
    accepted is the one installed; the revision grows by one, no other plugin
    changes, and no later transition at the same expected revision succeeds,
    whatever ran in between. *)
Theorem transition_is_atomic (n n' : nat) (c c' : TransitionCall) (key : string) (rev : Z) (action action' : RuntimeAction)
    (cf cf' : option Confirmation) (d1 d d1' d' : Disk) (r : RuntimeRecord) :
  0 <= rev -> rev + Z.of_nat n + Z.of_nat n' + 1 < two64 ->
  nsteps step n d1 d ->
  out_result (transition c key rev action cf d1 d) = Ok r ->
  nsteps step n' (out_disk (transition c key rev action cf d1 d)) d' ->
  let after := out_disk (transition c key rev action cf d1 d) in
  (exists target,
     runtimeTarget (plugin_on d1 key) action = Some target /\ runtimeTarget (plugin_on d key) action = Some target
     /\ callbacks_accept c target cf
     /\ r = with_slot RuntimeSlotCurrent (rev + 1) (tc_now c) target
     /\ ps_Current (plugin_on after key) = Some r)
  /\ plugin_on d1 key = plugin_on d key
  /\ ps_Revision (plugin_on after key) = rev + 1
  /\ (forall key', key' <> key -> plugin_on after key' = plugin_on d key')
  /\ (forall r', out_result (transition c' key rev action' cf' d1' d') <> Ok r').
Proof.
  intros NN B R O R' after. destruct (transition_success n c key rev action cf d1 d r) as (target & A & E & C & ->);
    [done|done|lia|done|].
  pose proof (commits_plugin _ _ _ _ key C) as K. rewrite String.eqb_refl in K. fold after in C, K.
  assert (u64 (ps_Revision (plugin_on d key) + 1) = rev + 1) as U.
  { rewrite (ta_revision _ _ _ _ _ _ _ _ _ A). apply u64_small. lia. }
  assert (ps_Revision (plugin_on after key) = rev + 1) as RA by (rewrite K; cbn; exact U).
  split_and!; [|done|done| |].
  - exists target. split_and!; [rewrite E; apply A|apply A|apply transition_checks_accept, A| |].
    + by rewrite u64_small by lia.
    + rewrite K. cbn. by rewrite U, u64_small by lia.
  - intros key' N. rewrite (commits_plugin _ _ _ _ key' C). by destruct (String.eqb_spec key key') as [->|].
  - intros r' O'. destruct (transition_cases c' key rev action' cf' d1' d') as [[_ [err E']]|(cp & tg & A' & _)]; [congruence|].
    pose proof (ta_revision _ _ _ _ _ _ _ _ _ A') as RV.
    destruct (run_revision n' after d' key R') as [[G _] _]; rewrite ?RA; lia.
Qed.

(** ** Confirmations *)

(** The confirmation ID was spent on the plugin. *)
Definition spent (id : string) (s : runtimePluginState) : Prop := exists t, t <> 0 /\ ps_Used s !! id = Some t.

Lemma plugin_step_spent id s s' : plugin_step s s' -> spent id s -> spent id s'.
Proof.
  intros [c imported cd _ _|c action cf target _ NZ] (t & NT & L); [by exists t|].
  unfold spent, after_transition. cbn. destruct cf as [cf|]; [|by exists t].
  destruct (decide (cf_ID cf = id)) as [<-|N].
  - exists (tc_now c). split; [done|]. apply lookup_insert_eq.
  - exists t. split; [done|]. by rewrite lookup_insert_ne.
Qed.

Lemma run_spent id key d d' : rtc step d d' -> spent id (plugin_on d key) -> spent id (plugin_on d' key).
Proof.
  intros R. induction R as [|d d1 d' S _ IH]; [done|]. intros SP. apply IH.
  destruct (step_plugin _ _ key S) as [->|PS]; [done|by eapply plugin_step_spent].
Qed.

(** A confirmation is checked only against an unspent ID. *)
Lemma confirmation_unspent s key action target rev cf now :
  validateConfirmationFields s key action target rev (Some cf) now = None -> ~ spent (cf_ID cf) s.
Proof.
  unfold validateConfirmationFields. intros E (t & NT & L). apply guard_None in E as [_ [E _]%guard_None].
  rewrite L in E. cbn in E. unfold IsZero in E. by props.
Qed.

(** A confirmation authorizes one operation. Once a transition with a
    confirmation has succeeded on a plugin, a transition with a confirmation of
    the same ID succeeds on that plugin in any later state only if it needs no
    confirmation: it is a promotion of a record that does not require one.
    Other processes may act in between and during both calls. *)
Theorem runtime_confirmation_spent_once (n : nat) (c c' : TransitionCall) (key : string) (rev rev' : Z)
    (action action' : RuntimeAction) (cf cf' : Confirmation) (d1 d d1' d' : Disk) (r r' : RuntimeRecord) :
  out_result (transition c key rev action (Some cf) d1 d) = Ok r -> tc_now c <> 0 ->
  rtc step (out_disk (transition c key rev action (Some cf) d1 d)) d' ->
  cf_ID cf' = cf_ID cf ->
  0 <= rev' -> rev' + Z.of_nat n < two64 -> nsteps step n d1' d' ->
  out_result (transition c' key rev' action' (Some cf') d1' d') = Ok r' ->
  action' = RuntimeActionPromote /\ rr_RequiresConfirm r' = false.
Proof.
  intros O NZ R I NN B R' O'.
  destruct (transition_cases c key rev action (Some cf) d1 d) as [[_ [err E]]|(copy & target & _ & C & _)]; [congruence|].
  assert (spent (cf_ID cf') (plugin_on d' key)) as SP.
  { eapply run_spent; [exact R|]. rewrite (commits_plugin _ _ _ _ key C), String.eqb_refl, I.
    exists (tc_now c). split; [done|]. cbn. apply lookup_insert_eq. }
  destruct (transition_success n c' key rev' action' (Some cf') d1' d' r') as (target' & A & _ & _ & ->); [done..|].
  destruct (needs_confirmation target' action') eqn:NC.
  - apply (ta_confirmed _ _ _ _ _ _ _ _ _ A), confirmation_unspent in NC. by destruct NC.
  - unfold needs_confirmation in NC. props. split; [|done].
    destruct (ta_first _ _ _ _ _ _ _ _ _ A) as (state & _ & TB).
    apply transition_begin_spec in TB as ([?|?] & _); done.
Qed.

(** ** The installed release *)

Definition release_in (r : RuntimeRecord) : Release := {| rel_Version := rr_Version r; rel_Sequence := rr_ReleaseSequence r |}.

(** The staged record is newer than the installed one, and a former release is
    kept only behind an installed one. *)
Definition forward (s : runtimePluginState) : Prop :=
  (forall st, ps_Staged s = Some st -> rr_Version st <> "")
  /\ (forall cu, ps_Current s = Some cu -> rr_Version cu <> "")
  /\ (forall pr, ps_Previous s = Some pr -> rr_Version pr <> "" /\ is_Some (ps_Current s))
  /\ (forall st cu, ps_Staged s = Some st -> ps_Current s = Some cu ->
        rr_ReleaseSequence cu < rr_ReleaseSequence st /\ no_downgrade (release_in cu) (release_in st) = None).

Lemma stage_against_newer m manifestID artifactID s :
  stage_against m manifestID artifactID s = Ok None ->
  ps_Staged s = None
  /\ forall cu, ps_Current s = Some cu ->
       rr_ReleaseSequence cu < m_ReleaseSequence m /\ no_downgrade (release_in cu) (release_of m) = None.
Proof.
  unfold stage_against. assert (forall (st : option RuntimeRecord),
    match st with Some s => if same_content manifestID artifactID s then Ok (Some s) else Err ErrRuntimeConflict
             | None => Ok None end = Ok None -> st = None) as SN
    by (intros [st|]; [by destruct (same_content _ _ _)|done]).
  destruct (ps_Current s) as [cu|]; [|intros E; split; [by apply SN|done]].
  destruct (ValidateUpgrade _ _) eqn:U; [done|]. destruct (_ && _); [by destruct (same_content _ _ _)|].
  destruct (_ <=? _) eqn:L; [done|]. intros E. split; [by apply SN|]. intros cu' [= <-]. props. split; [done|].
  unfold ValidateUpgrade in U. by destruct (Validate m).
Qed.

Lemma plugin_step_forward s s' : plugin_step s s' -> forward s -> forward s'.
Proof.
  intros [c imported cd SA V|c action cf target T NZ] (F1 & F2 & F3 & F4).
  - apply stage_against_newer in SA as [_ N]. split_and!; cbn; [|done|done|].
    + intros st [= <-]. by apply Validate_version.
    + intros st cu [= <-] C. by apply N.
  - assert (rr_Version target <> "") as VT.
    { unfold runtimeTarget in T. destruct (String.eqb _ _); [by apply F1|by apply F3]. }
    unfold forward. cbn. split_and!; [done| | |done].
    + intros cu [= <-]. done.
    + intros pr P. split; [|by eexists]. destruct (ps_Current s) as [cu|] eqn:C.
      * injection P as <-. exact (F2 cu eq_refl).
      * by apply F3 in P as [? _].
Qed.

Lemma run_forward key d0 d : dk_state d0 = NoFile -> rtc step d0 d -> forward (plugin_on d key).
Proof.
  intros N R. assert (forward (plugin_on d0 key)) as F by (unfold plugin_on; rewrite N; by split_and!; intros).
  clear N. induction R as [|d0 d1 d S _ IH]; [done|]. apply IH.
  destruct (step_plugin _ _ key S) as [->|PS]; [done|by eapply plugin_step_forward].
Qed.

(** What the confirmation of a transition says of it. *)
Definition confirms (cf : Confirmation) (key : string) (action : RuntimeAction) (manifestID : string) (rev : Z)
    (now : Time) : Prop :=
  cf_Action cf = action /\ cf_PluginKey cf = key /\ cf_ManifestIdentity cf = manifestID /\ cf_ExpectedRevision cf = rev
  /\ cf_AuthorizedAt cf <= now < cf_ExpiresAt cf
  /\ cf_ExpiresAt cf - cf_AuthorizedAt cf <= maxRuntimeConfirmationTTL.

Lemma validateConfirmationFields_confirms s key action target rev confirmation now :
  validateConfirmationFields s key action target rev confirmation now = None ->
  exists cf, confirmation = Some cf /\ confirms cf key action (rr_ManifestIdentity target) rev now /\ ~ spent (cf_ID cf) s.
Proof.
  intros E. destruct confirmation as [cf|]; [|done]. exists cf. split; [done|].
  split; [|by eapply confirmation_unspent]. unfold validateConfirmationFields in E.
  apply guard_None in E as [_ [_ [E _]%guard_None]%guard_None]. unfold After, IsZero in E. props.
  unfold confirms. split_and!; try done. unfold TimeSub, maxRuntimeConfirmationTTL, min_int64, max_int64 in *.
  unfold Hour, Minute, Second in *. lia.
Qed.

