(* ===== verification/CrpRuntimeLoad.v ===== *)
(** * Which runs keep the state document readable

    A document that an operation commits is read back by every later one, as
    long as no release is staged again while it is kept as the previous one;
    the operation that does so leaves a document that is never read again. *)

From S2P Require Import Prelude GoText Sha256 JsonDecode CrpManifest CrpVersion CrpTrust CrpImport CrpRuntime CrpRuntimeSafety.
From stdpp Require Import relations.

Open Scope string_scope.
Open Scope list_scope.
Open Scope Z_scope.
Open Scope go_scope.

(** ** Identities *)

(** A digest of 32 bytes in hexadecimal. *)
Definition is_identity (s : string) : Prop := len s = 64 /\ artifactIdentityFromHex s = s.

Lemma digest_identity msg : is_identity (EncodeHex (Sum256 msg)).
Proof.
  assert (len (EncodeHex (Sum256 msg)) = 64) as L by (rewrite EncodeHex_length, Sum256_length; done).
  split; [done|]. unfold artifactIdentityFromHex. by rewrite L, EncodeHex_lower by apply Sum256_range.
Qed.

Lemma ContentIdentity_identity m i : ContentIdentity m = Ok i -> is_identity i.
Proof. unfold ContentIdentity. destruct (SigningBytes m); intros E; simplify_eq. apply digest_identity. Qed.

Lemma append_inj (a b a' b' : string) : len a = len a' -> (a ++ b = a' ++ b')%string -> a = a' /\ b = b'.
Proof.
  unfold len. intros L. apply Nat2Z.inj in L. revert a' L. induction a as [|x a IH]; intros [|x' a'] L E; try discriminate L.
  - by split.
  - injection L as L. injection E as E1 E2. destruct (IH a' L E2) as [-> ->]. by subst.
Qed.

(** Contents determine both identities. *)
Lemma content_inj m a m' a' : len m = 64 -> len m' = 64 -> (m ++ "/" ++ a = m' ++ "/" ++ a')%string -> m = m' /\ a = a'.
Proof. intros L L' E. apply append_inj in E as [-> E]; [|congruence]. injection E as E. by split. Qed.

(** ** Valid records *)

Definition record_ok (key : string) (revision : Z) (r : RuntimeRecord) : Prop :=
  rr_Key r = key /\ rr_ArtifactIdentity r <> "" /\ rr_ManifestIdentity r <> "" /\ rr_ArtifactPath r <> ""
  /\ rr_Revision r <> 0 /\ rr_Revision r <= revision /\ validateRuntimeKey key = None
  /\ rr_Slot r ∈ [RuntimeSlotCurrent; RuntimeSlotStaged; RuntimeSlotPrevious].

Lemma records_valid_spec key revision seen l :
  records_valid key revision seen l = true <->
  Forall (record_ok key revision) l /\ NoDup (map content_of l) /\ Forall (fun r => content_of r ∉ seen) l.
Proof.
  revert seen. induction l as [|r l IH]; intros seen; cbn [records_valid map].
  { split; [|done]. intros _. split_and!; constructor. }
  rewrite !Forall_cons, NoDup_cons. split.
  - intros H. destruct (negb _ || _ || _ || _ || _) eqn:G1; [done|]. destruct (revision <? _) eqn:G2; [done|].
    destruct (bool_decide _) eqn:G3; [done|]. destruct (validateRuntimeKey _) eqn:G4; [done|].
    destruct (_ && _) eqn:G5; [done|]. apply IH in H as (F & ND & NS). props. subst key. split_and!; try done.
    + unfold record_ok. split_and!; try done. set_unfold.
      destruct (String.eqb_spec (rr_Slot r) RuntimeSlotCurrent), (String.eqb_spec (rr_Slot r) RuntimeSlotStaged),
        (String.eqb_spec (rr_Slot r) RuntimeSlotPrevious); try done; auto.
    + intros (r' & E & I)%list_elem_of_fmap. rewrite Forall_forall in NS. apply (NS r' I). set_solver.
    + eapply Forall_impl; [exact NS|]. cbn. set_solver.
  - intros [[(K & A & M & P & Z0 & R & V & S) F] [[ND NS] [N1 N2]]].
    apply String.eqb_neq in A, M, P. apply Z.eqb_neq in Z0. rewrite K, String.eqb_refl, A, M, P, Z0, V. cbn [negb orb].
    rewrite (proj2 (Z.ltb_ge _ _) R), (bool_decide_eq_false_2 _ N1).
    assert (negb (String.eqb (rr_Slot r) RuntimeSlotCurrent) && negb (String.eqb (rr_Slot r) RuntimeSlotStaged)
            && negb (String.eqb (rr_Slot r) RuntimeSlotPrevious) = false) as ->.
    { set_unfold in S. destruct S as [->|[->|[->|[]]]]; done. }
    apply IH. split_and!; [done|done|]. rewrite Forall_forall in N2 |- *. intros r' I [E|E]%elem_of_union; [|by apply (N2 r' I)].
    apply ND, list_elem_of_fmap. exists r'. split; [set_solver|done].
Qed.

(** What a plugin of a readable document satisfies. *)
Record plugin_ok (files : gmap string Entry) (key : string) (s : runtimePluginState) : Prop := {
  po_key : validateRuntimeKey key = None;
  po_state : validateStateRecords key s = None;
  po_files : Forall (fun r => validateLoadedRecord files key r = None) (some_records s) }.

Lemma plugin_errors_spec files key s : plugin_errors files (key, s) = None <-> plugin_ok files key s.
Proof.
  unfold plugin_errors. split.
  - destruct (validateRuntimeKey key) eqn:K; [done|]. destruct (validateStateRecords key s) eqn:V; [done|].
    intros F. constructor; [done|done|]. apply Forall_forall. by apply first_error_None.
  - intros [-> -> F]. apply first_error_None. by apply Forall_forall.
Qed.

(** The state of a plugin that the checks of a read accept, apart from the
    revisions of its first records. *)
Record slots_ok (key : string) (s : runtimePluginState) : Prop := {
  so_current : in_slot (ps_Current s) RuntimeSlotCurrent = true;
  so_staged : in_slot (ps_Staged s) RuntimeSlotStaged = true;
  so_previous : in_slot (ps_Previous s) RuntimeSlotPrevious = true;
  so_records : Forall (record_ok key (ps_Revision s)) (some_records s);
  so_distinct : NoDup (map content_of (some_records s)) }.

Lemma validateStateRecords_ok key s : validateStateRecords key s = None -> slots_ok key s.
Proof.
  unfold validateStateRecords. intros E. apply guard_None in E as [_ E]. apply guard_None in E as [S E].
  apply guard_None in E as [_ E]. apply guard_None in E as [_ E].
  destruct (records_valid _ _ _ _) eqn:RV; [|done]. apply records_valid_spec in RV as (F & ND & _). props. by constructor.
Qed.

Lemma validateStateRecords_intro key s :
  ps_Revision s <> 0 -> slots_ok key s ->
  (forall r, ps_Staged s = Some r -> rr_Revision r = ps_Revision s) ->
  (forall r, ps_Staged s = None -> ps_Current s = Some r -> rr_Revision r = ps_Revision s) ->
  validateStateRecords key s = None.
Proof.
  intros NZ%Z.eqb_neq [C S P F ND] R1 R2. unfold validateStateRecords. rewrite NZ, C, S, P. cbn [andb negb orb].
  assert (match ps_Staged s with Some r => negb (rr_Revision r =? ps_Revision s) | None => false end = false) as ->.
  { destruct (ps_Staged s); [|done]. by rewrite R1, Z.eqb_refl. }
  assert (match ps_Staged s, ps_Current s with None, Some r => negb (rr_Revision r =? ps_Revision s) | _, _ => false end = false) as ->.
  { destruct (ps_Staged s); [done|]. destruct (ps_Current s); [|done]. by rewrite R2, Z.eqb_refl. }
  replace (records_valid _ _ _ _) with true; [done|]. symmetry. apply records_valid_spec. split_and!; [done|done|].
  apply Forall_forall. set_solver.
Qed.

(** ** Files *)

(** Files are only ever added. *)
Lemma persist_file_keeps fault path data same mismatch files err files' :
  persist_file fault path data same mismatch files = (err, files') -> files ⊆ files'.
Proof.
  unfold persist_file. intros E. destruct (ff_lstat fault); [by simplify_eq|].
  destruct (files !! path) as [e|] eqn:L.
  - repeat case_match; by simplify_eq.
  - destruct (ff_temp fault); [by simplify_eq|]. destruct (ff_rename fault) as [[e [entry|]]|]; [|by simplify_eq|].
    + destruct (negb _); simplify_eq; [done|by apply insert_subseteq].
    + simplify_eq. by apply insert_subseteq.
Qed.

(** A write that succeeds leaves a file with the expected content. *)
Lemma persist_file_writes fault path data same mismatch files files' :
  same data = true -> persist_file fault path data same mismatch files = (None, files') ->
  exists content, read_managed files' path = Some content /\ same content = true.
Proof.
  unfold persist_file, read_managed. intros SD E. destruct (ff_lstat fault); [done|].
  destruct (files !! path) as [e|] eqn:L.
  - destruct (en_regular e) eqn:R; [|done]. destruct (en_private e) eqn:P; [|done]. cbn [negb] in E.
    destruct (ff_read fault); [done|]. destruct (same (en_data e)) eqn:S; [|done]. simplify_eq.
    exists (en_data e). by rewrite L, R, P.
  - destruct (ff_temp fault); [done|]. destruct (ff_rename fault) as [[e [entry|]]|]; [|done|].
    + destruct (negb _) eqn:RP; [done|]. destruct (same (en_data entry) && _) eqn:S; [|done]. simplify_eq.
      apply negb_false_iff, andb_true_iff in RP as [R1 R2].
      apply andb_true_iff in S as [S _]. exists (en_data entry). by rewrite lookup_insert_eq, R1, R2.
    + destruct (ff_sync fault); [done|]. simplify_eq. exists data. by rewrite lookup_insert_eq.
Qed.

Lemma read_managed_mono files files' path content :
  files ⊆ files' -> read_managed files path = Some content -> read_managed files' path = Some content.
Proof.
  intros S. unfold read_managed. destruct (files !! path) as [e|] eqn:L; [|done].
  by rewrite (lookup_weaken _ _ _ _ L S).
Qed.

(** The files of a record, and what they are checked for. *)
Definition files_match (files : gmap string Entry) (key : string) (r : RuntimeRecord) : Prop :=
  artifactIdentityFromHex (rr_ArtifactIdentity r) = rr_ArtifactIdentity r
  /\ artifactIdentityFromHex (rr_ManifestIdentity r) = rr_ManifestIdentity r
  /\ rr_ArtifactPath r = artifact_path (rr_ArtifactIdentity r)
  /\ rr_ManifestPath r = manifest_path key (rr_ManifestIdentity r)
  /\ rr_SignaturesPath r = signatures_path key (rr_ManifestIdentity r)
  /\ exists artifact manifestBytes signatureBytes manifest signatures,
       read_managed files (rr_ArtifactPath r) = Some artifact /\ artifactIdentity artifact = rr_ArtifactIdentity r
       /\ read_managed files (rr_ManifestPath r) = Some manifestBytes /\ ParseManifest (text_of manifestBytes) = Ok manifest
       /\ ContentIdentity manifest = Ok (rr_ManifestIdentity r) /\ runtimePluginKey manifest = Ok key
       /\ m_PluginID manifest = rr_PluginID r /\ m_Name manifest = rr_Name r /\ m_Namespace manifest = rr_Namespace r
       /\ m_Version manifest = rr_Version r /\ m_ReleaseSequence manifest = rr_ReleaseSequence r
       /\ Verify manifest artifact = None
       /\ read_managed files (rr_SignaturesPath r) = Some signatureBytes
       /\ parseArchiveSignatures (text_of signatureBytes) = Ok signatures.

Lemma validateLoadedRecord_spec files key r : validateLoadedRecord files key r = None <-> files_match files key r.
Proof.
  unfold validateLoadedRecord, files_match. split.
  - intros E. apply guard_None in E as [I E]. apply guard_None in E as [P E].
    destruct (read_managed files (rr_ArtifactPath r)) as [artifact|]; [|done]. apply guard_None in E as [A E].
    destruct (read_managed files (rr_ManifestPath r)) as [mb|]; [|done].
    destruct (ParseManifest _) as [m|] eqn:PM; [|done]. destruct (ContentIdentity m) as [i|] eqn:CI; [|done].
    destruct (runtimePluginKey m) as [k|] eqn:K; [|done]. apply guard_None in E as [F E].
    destruct (Verify m artifact) eqn:V; [done|].
    destruct (read_managed files (rr_SignaturesPath r)) as [sb|]; [|done].
    destruct (parseArchiveSignatures _) as [sigs|] eqn:S; [|done]. props. subst.
    split_and!; try done. exists artifact, mb, sb, m, sigs. by split_and!.
  - intros (I1 & I2 & P1 & P2 & P3 & a & mb & sb & m & sigs & RA & AI & RM & PM & CI & K & F1 & F2 & F3 & F4 & F5 & V & RS & S).
    rewrite I1, I2, P1, P2, P3, !String.eqb_refl in *. cbn [negb orb].
    rewrite RA, RM, PM, CI, K, V, RS, S, AI, F1, F2, F3, F4, F5, !String.eqb_refl, Z.eqb_refl. done.
Qed.

Lemma files_match_mono files files' key r : files ⊆ files' -> files_match files key r -> files_match files' key r.
Proof.
  intros S (I1 & I2 & P1 & P2 & P3 & a & mb & sb & m & sigs & RA & AI & RM & PM & CI & K & F1 & F2 & F3 & F4 & F5 & V & RS & SG).
  split_and!; try done. exists a, mb, sb, m, sigs. split_and!; try done; by eapply read_managed_mono.
Qed.

Lemma plugin_ok_mono files files' key s : files ⊆ files' -> plugin_ok files key s -> plugin_ok files' key s.
Proof.
  intros S [K V F]. constructor; [done|done|]. eapply Forall_impl; [exact F|]. cbn.
  intros r. rewrite !validateLoadedRecord_spec. by apply files_match_mono.
Qed.

(** ** The files of a staged package *)

(** The encoded signatures can be decoded again. *)
Definition signatures_readable (pkg : Package) : Prop :=
  match marshal_signatures (pk_Signatures pkg) with
  | Some b => exists signatures, parseArchiveSignatures (text_of (map byte_val b)) = Ok signatures
  | None => False
  end.

(** No file of the store has the digest of the artifact and other bytes. *)
Definition no_collision (files : gmap string Entry) (artifact : list Z) : Prop :=
  map_Forall (fun _ e => artifactIdentity (en_data e) = artifactIdentity artifact -> en_data e = artifact) files.

Lemma text_of_bytes s : text_of (text_bytes s) = s.
Proof.
  unfold text_of, text_bytes. rewrite map_map. rewrite <- (of_bytes_bytes s) at 2. f_equal.
  rewrite <- (map_id (bytes s)) at 2. apply map_ext. apply byte_of_val.
Qed.

Lemma write_package_keeps c pkg cd files err files' :
  write_package c pkg cd files = (err, files') -> files ⊆ files'.
Proof.
  unfold write_package. destruct (persist_file (sc_artifact c) _ _ _ _ files) as [e1 f1] eqn:P1.
  apply persist_file_keeps in P1. destruct e1; [by intros; simplify_eq|]. destruct (sc_metadata c); [by intros; simplify_eq|].
  destruct (marshal_signatures _); [|by intros; simplify_eq].
  destruct (persist_file (sc_manifest c) _ _ _ _ f1) as [e2 f2] eqn:P2. apply persist_file_keeps in P2.
  destruct e2; [intros; simplify_eq; by transitivity f1|]. intros P3%persist_file_keeps.
  transitivity f1; [done|by transitivity f2].
Qed.

(** After the writes, the files of the candidate are those of the package. *)
Lemma write_package_writes c pkg cd files files' :
  cd_ArtifactID cd = artifactIdentity (pk_Artifact pkg) -> write_package c pkg cd files = (None, files') ->
  exists artifact b,
    read_managed files' (artifact_path (cd_ArtifactID cd)) = Some artifact /\ artifactIdentity artifact = cd_ArtifactID cd
    /\ read_managed files' (manifest_path (cd_Key cd) (cd_ManifestID cd)) = Some (text_bytes (pk_Manifest pkg))
    /\ marshal_signatures (pk_Signatures pkg) = Some b
    /\ read_managed files' (signatures_path (cd_Key cd) (cd_ManifestID cd)) = Some (map byte_val b).
Proof.
  intros AI. unfold write_package. destruct (persist_file (sc_artifact c) _ _ _ _ files) as [[|] f1] eqn:P1; [done|].
  destruct (sc_metadata c); [done|]. destruct (marshal_signatures _) as [b|]; [|done].
  destruct (persist_file (sc_manifest c) _ _ _ _ f1) as [[|] f2] eqn:P2; [done|]. intros P3.
  pose proof (persist_file_keeps _ _ _ _ _ _ _ _ P2) as S2. pose proof (persist_file_keeps _ _ _ _ _ _ _ _ P3) as S3.
  apply persist_file_writes in P1 as (a & R1 & E1); [|by rewrite AI, String.eqb_refl].
  apply persist_file_writes in P2 as (m & R2 & E2); [|by apply bool_decide_eq_true].
  apply persist_file_writes in P3 as (s & R3 & E3); [|by apply bool_decide_eq_true]. props. subst m s.
  exists a, b. split_and!; [|done| |done|done].
  - eapply read_managed_mono; [exact S3|]. by eapply read_managed_mono.
  - by eapply read_managed_mono.
Qed.

Lemma staged_files_match c pkg imported cd files files' revision :
  candidate_of c pkg imported = Ok cd -> write_package c pkg cd files = (None, files') ->
  signatures_readable pkg -> no_collision files' (pk_Artifact pkg) ->
  files_match files' (cd_Key cd) (staged_record c imported cd revision).
Proof.
  intros C W SR NC. destruct (candidate_valid _ _ _ _ C) as (PM & K & V & CI & AI).
  destruct (write_package_writes _ _ _ _ _ AI W) as (a & b & RA & AIa & RM & MS & RS).
  unfold signatures_readable in SR. rewrite MS in SR. destruct SR as [sigs SG].
  assert (a = pk_Artifact pkg) as ->.
  { unfold read_managed in RA. destruct (files' !! _) as [e|] eqn:L; [|done].
    destruct (en_regular e && en_private e); [|done]. simplify_eq. apply (NC _ _ L). congruence. }
  unfold files_match. cbn. split_and!; [|by eapply ContentIdentity_identity|done|done|done|].
  - rewrite AI. apply digest_identity.
  - exists (pk_Artifact pkg), (text_bytes (pk_Manifest pkg)), (map byte_val b), (cd_Manifest cd), sigs.
    rewrite text_of_bytes. by split_and!.
Qed.

(** ** Commits keep the document readable *)

Definition sound (d : Disk) : Prop :=
  match dk_state d with NoFile => True | Document s => readable (dk_files d) s | _ => False end.

Lemma sound_loads d : sound d -> exists state, loadDiskState None d = Ok state.
Proof.
  unfold sound. destruct (dk_state d) as [| | | |s] eqn:D; try done; intros R.
  - exists empty_state. unfold loadDiskState. by rewrite D.
  - exists s. by apply readable_loads.
Qed.

Lemma sound_plugin d key :
  sound d -> slots_ok key (plugin_on d key) /\ Forall (files_match (dk_files d) key) (some_records (plugin_on d key)).
Proof.
  unfold sound, plugin_on, plugin_of. intros S.
  assert (slots_ok key no_plugin /\ Forall (files_match (dk_files d) key) (some_records no_plugin)) as N
    by (split; [constructor; try done; constructor|constructor]).
  destruct (dk_state d) as [| | | |s]; try done.
  destruct (ds_Plugins s !! key) as [p|] eqn:L; cbn; [|done].
  destruct S as [_ S]. apply S in L as [_ V F]%plugin_errors_spec. split; [by apply validateStateRecords_ok|].
  eapply Forall_impl; [exact F|]. intros r. apply validateLoadedRecord_spec.
Qed.

(** Replacing one plugin of a sound document by an acceptable one. *)
Lemma commits_sound d d' key after :
  sound d -> commits d d' key after -> plugin_ok (dk_files d) key after -> sound d'.
Proof.
  intros S [fault state L D F] OK. unfold sound. rewrite D, F. split.
  - apply loadDiskState_Document in L as [[_ ->]|[_ [? _]]]; done.
  - intros key' p. cbn. intros [[<- <-]|[N L']]%lookup_insert_Some; [by apply plugin_errors_spec|].
    apply loadDiskState_Document in L as [[_ ->]|[E [_ R]]]; [cbn in L'; by rewrite lookup_empty in L'|by apply R].
Qed.

Lemma sound_files d files : dk_files d ⊆ files -> sound d -> sound {| dk_state := dk_state d; dk_files := files |}.
Proof.
  unfold sound. cbn. intros S. destruct (dk_state d) as [| | | |s]; try done. intros [E R]. split; [done|].
  intros key p L. apply plugin_errors_spec. eapply plugin_ok_mono; [exact S|]. by apply plugin_errors_spec, R.
Qed.

Lemma record_ok_mono key rev rev' r : rev <= rev' -> record_ok key rev r -> record_ok key rev' r.
Proof. intros L (? & ? & ? & ? & ? & ? & ? & ?). split_and!; try done. lia. Qed.

Lemma some_records_in s r : r ∈ some_records s <-> ps_Current s = Some r \/ ps_Staged s = Some r \/ ps_Previous s = Some r.
Proof.
  unfold some_records. destruct (ps_Current s), (ps_Staged s), (ps_Previous s); cbn; set_unfold; naive_solver.
Qed.

(** The candidate has the content of the release kept as the previous one. *)
Definition restages_previous (cd : Candidate) (s : runtimePluginState) : bool :=
  match ps_Previous s with Some pr => same_content (cd_ManifestID cd) (cd_ArtifactID cd) pr | None => false end.

Lemma identities_of files key r :
  files_match files key r -> rr_ManifestIdentity r <> "" -> len (rr_ManifestIdentity r) = 64.
Proof.
  intros (_ & I & _) N. unfold artifactIdentityFromHex in I. destruct (_ && _) eqn:E; [|congruence]. by props.
Qed.

(** A staged candidate does not have the content of the installed release:
    its manifest would have to be the same file. *)
Lemma staged_differs_from_current c pkg imported cd d files revision cu :
  stage_admitted c pkg imported d cd files -> signatures_readable pkg -> no_collision files (pk_Artifact pkg) ->
  ps_Current (plugin_on d (cd_Key cd)) = Some cu -> files_match (dk_files d) (cd_Key cd) cu ->
  rr_ManifestIdentity cu <> "" ->
  content_of (staged_record c imported cd revision) <> content_of cu.
Proof.
  intros [C W SA] SR NC CU M NE E.
  pose proof (staged_files_match _ _ _ _ _ _ revision C W SR NC) as MS.
  destruct (candidate_valid _ _ _ _ C) as (PM & _ & _ & CI & _).
  apply ContentIdentity_identity in CI as [LI _].
  apply content_inj in E as [E _]; [|done|by eapply identities_of]. cbn in E.
  eapply files_match_mono in M; [|by eapply write_package_keeps].
  destruct M as (_ & _ & _ & P & _ & _ & mb & _ & m & _ & _ & _ & RM & PM' & _ & _ & _ & _ & _ & _ & SQ & _).
  destruct MS as (_ & _ & _ & P' & _ & _ & mb' & _ & m' & _ & _ & _ & RM' & PM'' & _ & _ & _ & _ & _ & _ & SQ' & _).
  cbn in P', RM', SQ'. rewrite P, <- E in RM. assert (mb = mb') as -> by congruence.
  assert (m = m') as -> by congruence. apply stage_against_newer in SA as [_ N]. specialize (N cu CU). lia.
Qed.

Lemma stage_commit_ok c pkg imported cd d files :
  sound d -> stage_admitted c pkg imported d cd files -> signatures_readable pkg -> no_collision files (pk_Artifact pkg) ->
  restages_previous cd (plugin_on d (cd_Key cd)) = false ->
  0 <= ps_Revision (plugin_on d (cd_Key cd)) -> ps_Revision (plugin_on d (cd_Key cd)) + 1 < two64 ->
  plugin_ok files (cd_Key cd) (after_stage c imported cd (plugin_on d (cd_Key cd))).
Proof.
  intros SO A SR NC RP NN B. pose proof (staged_differs_from_current c pkg imported cd d files) as DIFF.
  destruct (sound_plugin d (cd_Key cd) SO) as [[SC SS SP F ND] FM].
  destruct A as [C W SA]. destruct (candidate_valid _ _ _ _ C) as (PM & K & V & CI & AI).
  set (s := plugin_on d (cd_Key cd)) in *. unfold after_stage. rewrite u64_small by lia.
  set (record := staged_record c imported cd (ps_Revision s + 1)).
  pose proof (staged_files_match _ _ _ _ _ _ (ps_Revision s + 1) C W SR NC) as MS.
  assert (ps_Staged s = None) as SN by (by apply stage_against_newer in SA as [? _]).
  assert (validateRuntimeKey (cd_Key cd) = None) as VK.
  { unfold runtimePluginKey in K. destruct (negb _); [done|]. destruct (validateRuntimeKey _) eqn:VK; [done|].
    injection K as K. by rewrite <- K. }
  apply ContentIdentity_identity in CI as [LM _]. pose proof (digest_identity (pk_Artifact pkg)) as [LA _].
  assert (record_ok (cd_Key cd) (ps_Revision s + 1) record) as RO.
  { unfold record_ok. cbn. split_and!; try done; try lia; [|intros E; by rewrite E in LM|right; by left].
    intros E. rewrite AI in E. unfold artifactIdentity in E. by rewrite E in LA. }
  rewrite Forall_forall in F, FM.
  assert (forall r, r ∈ some_records (staged_state record s) -> r = record \/ r ∈ some_records s) as IN.
  { intros r. rewrite !some_records_in. cbn. naive_solver. }
  constructor; [done| |].
  - apply validateStateRecords_intro; cbn; [lia| |by intros r [= <-]|done]. constructor; cbn; try done.
    + apply Forall_forall. intros r [->|Hr]%IN; [done|]. eapply record_ok_mono; [|by apply F]. lia.
    + unfold some_records in *. cbn. rewrite SN in ND.
      assert (forall cu, ps_Current s = Some cu -> content_of record <> content_of cu) as D1.
      { intros cu CU. assert (cu ∈ some_records s) as I by (apply some_records_in; by left).
        apply DIFF; [by constructor|done|done|done|by apply FM|by apply F in I as (_ & _ & ? & _)]. }
      assert (forall pr, ps_Previous s = Some pr -> content_of record <> content_of pr) as D2.
      { intros pr P E. assert (pr ∈ some_records s) as I by (apply some_records_in; auto).
        apply content_inj in E as [E1 E2]; [|done|eapply identities_of; [by apply FM|by apply F in I as (_ & _ & ? & _)]].
        unfold restages_previous, same_content in RP. rewrite P, <- E1, <- E2, !String.eqb_refl in RP. done. }
      destruct (ps_Current s) as [cu|], (ps_Previous s) as [pr|]; cbn in *; rewrite ?NoDup_cons in *; set_unfold;
        specialize (D1 cu) || idtac; specialize (D2 pr) || idtac; naive_solver.
  - apply Forall_forall. intros r Hr. apply validateLoadedRecord_spec. apply IN in Hr as [->|Hr]; [done|].
    eapply files_match_mono; [by eapply write_package_keeps|]. by apply FM.
Qed.

Lemma files_match_slot files key slot revision now r :
  files_match files key r -> files_match files key (with_slot slot revision now r).
Proof. done. Qed.

Lemma NoDup_contents s x y :
  NoDup (map content_of (some_records s)) ->
  ps_Current s = Some x -> ps_Staged s = Some y \/ ps_Previous s = Some y -> content_of x <> content_of y.
Proof.
  unfold some_records. intros ND C O. rewrite C in ND.
  destruct O as [O|O]; rewrite O in ND; [destruct (ps_Previous s)|destruct (ps_Staged s)]; cbn in ND;
    rewrite ?NoDup_cons in ND; set_unfold; naive_solver.
Qed.

Lemma NoDup_staged_previous s x y :
  NoDup (map content_of (some_records s)) -> ps_Staged s = Some x -> ps_Previous s = Some y -> content_of x <> content_of y.
Proof.
  unfold some_records. intros ND S P. rewrite S, P in ND. destruct (ps_Current s); cbn in ND;
    rewrite ?NoDup_cons in ND; set_unfold; naive_solver.
Qed.

Lemma transition_commit_ok c action cf target d key :
  sound d -> forward (plugin_on d key) -> validateRuntimeKey key = None ->
  runtimeTarget (plugin_on d key) action = Some target ->
  0 <= ps_Revision (plugin_on d key) -> ps_Revision (plugin_on d key) + 1 < two64 ->
  plugin_ok (dk_files d) key (after_transition c action cf target (plugin_on d key)).
Proof.
  intros SO (_ & _ & FP & _) VK T NN B. destruct (sound_plugin d key SO) as [[SC SS SP F ND] FM].
  set (s := plugin_on d key) in *. unfold after_transition. rewrite u64_small by lia.
  assert (ps_Staged s = Some target \/ ps_Previous s = Some target) as TP
    by (unfold runtimeTarget in T; destruct (String.eqb _ _); auto).
  rewrite Forall_forall in F, FM.
  assert (target ∈ some_records s) as TI by (apply some_records_in; naive_solver).
  set (now := tc_now c). set (rev := ps_Revision s + 1).
  set (after := recorded action target cf now (promoted target rev now s)).
  assert (ps_Current after = Some (with_slot RuntimeSlotCurrent rev now target)) as AC by done.
  assert (ps_Previous after = option_map (fun cu => with_slot RuntimeSlotPrevious (rr_Revision cu) now cu) (ps_Current s)) as AP.
  { cbn. destruct (ps_Current s) eqn:C; [done|]. destruct (ps_Previous s) as [pr|] eqn:P; [|done].
    destruct (FP pr eq_refl) as [_ [? X]]. done. }
  assert (forall r, r ∈ some_records after ->
    r = with_slot RuntimeSlotCurrent rev now target
    \/ exists cu, ps_Current s = Some cu /\ r = with_slot RuntimeSlotPrevious (rr_Revision cu) now cu) as IN.
  { intros r. rewrite some_records_in, AC, AP. intros [E|[E|E]]; [left; by simplify_eq|done|].
    right. destruct (ps_Current s) as [cu|]; [|done]. injection E as <-. by exists cu. }
  assert (forall r slot revision, r ∈ some_records s -> slot ∈ [RuntimeSlotCurrent; RuntimeSlotStaged; RuntimeSlotPrevious] ->
    revision <> 0 -> revision <= rev -> record_ok key rev (with_slot slot revision now r)) as RO.
  { intros r slot revision I. destruct (F r I) as (? & ? & ? & ? & _). intros. by split_and!. }
  constructor; [done| |].
  - apply validateStateRecords_intro; [cbn; unfold rev; lia| |done|].
    2: { intros r _. rewrite AC. by intros [= <-]. }
    constructor; [done|done| | |].
    + rewrite AP. by destruct (ps_Current s).
    + change (ps_Revision after) with rev. apply Forall_forall. intros r [->|(cu & C & ->)]%IN.
      * apply RO; [done|by left|unfold rev; lia|lia].
      * assert (cu ∈ some_records s) as I by (apply some_records_in; by left).
        destruct (F cu I) as (_ & _ & _ & _ & N0 & LE & _). apply RO; [done|right; right; by left|done|unfold rev; lia].
    + unfold some_records. change (ps_Staged after) with (@None RuntimeRecord). rewrite AC, AP.
      pose proof (NoDup_contents s) as D. destruct (ps_Current s) as [cu|] eqn:C; cbn.
      * specialize (D cu target ND eq_refl TP). change (content_of (with_slot _ _ _ cu)) with (content_of cu).
        change (content_of (with_slot _ _ _ target)) with (content_of target).
        rewrite !NoDup_cons. split_and!; [set_solver|set_solver|constructor].
      * by apply NoDup_singleton.
  - apply Forall_forall. intros r Hr. apply validateLoadedRecord_spec.
    apply IN in Hr as [->|(cu & C & ->)]; apply files_match_slot, FM; [done|]. apply some_records_in. by left.
Qed.

(** ** Runs *)

(** A step of a run in which no call stages the release that is kept as the
    previous one: the signatures of the staged packages can be encoded and
    decoded, no file collides with an artifact, and no revision wraps. *)
Inductive careful_step (d : Disk) : Disk -> Prop :=
| careful_stage c pkg imported d1 :
    (forall cd, candidate_of c pkg imported = Ok cd ->
       restages_previous cd (plugin_on d (cd_Key cd)) = false /\ signatures_readable pkg
       /\ no_collision (dk_files (out_disk (Stage c pkg imported d1 d))) (pk_Artifact pkg)
       /\ ps_Revision (plugin_on d (cd_Key cd)) + 1 < two64) ->
    careful_step d (out_disk (Stage c pkg imported d1 d))
| careful_transition c key rev action cf d1 :
    tc_now c <> 0 -> ps_Revision (plugin_on d key) + 1 < two64 ->
    careful_step d (out_disk (transition c key rev action cf d1 d)).

Lemma careful_step_is_step d d' : careful_step d d' -> step d d'.
Proof. intros [c pkg imported d1 _|c key rev action cf d1 NZ _]; by constructor. Qed.

Lemma Stage_files c pkg imported d1 d : dk_files d ⊆ dk_files (out_disk (Stage c pkg imported d1 d)).
Proof.
  unfold Stage. destruct (candidate_of _ _ _) as [cd|]; [|done]. destruct (loadDiskState (sc_read c) d1) as [first|]; [|done].
  destruct (stage_against _ _ _ _) as [[r|]|]; [done| |done].
  destruct (write_package _ _ _ _) as [[err|] files] eqn:W; apply write_package_keeps in W; [exact W|].
  destruct (sc_revalidate c _); [exact W|]. unfold stage_commit. destruct (sc_lease c); [exact W|].
  destruct (loadDiskState _ _); [|exact W]. repeat case_match; try exact W;
    match goal with P : persistState _ _ _ = _ |- _ => apply persistState_cases in P as [[-> _]|[_ F]] end;
    cbn; by rewrite ?F.
Qed.

Lemma careful_step_sound d d' :
  (forall key, forward (plugin_on d key)) -> (forall key, 0 <= ps_Revision (plugin_on d key)) ->
  sound d -> careful_step d d' -> sound d'.
Proof.
  intros FW NN SO [c pkg imported d1 CARE|c key rev action cf d1 NZ B].
  - pose proof (Stage_files c pkg imported d1 d) as SF.
    destruct (Stage_cases c pkg imported d1 d) as [E|(cd & files & A & C & _)].
    { pose proof (sound_files _ _ SF SO) as S. unfold sound in *. cbn in S. by rewrite E. }
    destruct (CARE cd) as (RP & SR & NC & B); [apply A|].
    assert (dk_files (out_disk (Stage c pkg imported d1 d)) = files) as FE by (by destruct C).
    rewrite FE in *. eapply commits_sound; [|exact C|].
    + by apply sound_files.
    + eapply stage_commit_ok; eauto.
  - destruct (transition_cases c key rev action cf d1 d) as [[-> _]|(copy & target & A & C & _)]; [done|].
    eapply commits_sound; [done|exact C|]. apply transition_commit_ok; [done|done| |by apply A|done|done].
    destruct (ta_first _ _ _ _ _ _ _ _ _ A) as (state & _ & TB). unfold transition_begin in TB.
    destruct (_ && _); [done|]. by destruct (validateRuntimeKey key).
Qed.

(** C19. The state document stays readable. From a root without a document, after
    any sequence of staging, promotions and rollbacks by the processes that
    share it - with their failures before and after the rename of a document, and
    whatever each of them had read before it committed - the document can be
    read back and every record of it is backed by its files, provided that no
    call stages a package whose content is that of the release kept as the
    previous one. *)
Theorem documents_stay_readable (d0 d : Disk) :
  dk_state d0 = NoFile -> rtc careful_step d0 d ->
  exists state, loadDiskState None d = Ok state
    /\ forall key r, r ∈ some_records (plugin_of state key) -> files_match (dk_files d) key r.
Proof.
  intros N R.
  assert (sound d) as SO.
  { assert (sound d0) as SO by (unfold sound; by rewrite N).
    assert (forall key, forward (plugin_on d0 key)) as FW by (intros key; by eapply run_forward).
    assert (forall key, 0 <= ps_Revision (plugin_on d0 key)) as NN by (intros key; unfold plugin_on; by rewrite N).
    clear N. induction R as [|d0 d1 d S _ IH]; [done|].
    pose proof (fun key => step_plugin _ _ key (careful_step_is_step _ _ S)) as SP.
    apply IH; [by eapply careful_step_sound| |]; intros key; destruct (SP key) as [->|PS]; try done.
    - by eapply plugin_step_forward.
    - apply plugin_step_revision in PS. rewrite PS. apply u64_range. }
  destruct (sound_loads d SO) as [state L]. exists state. split; [done|]. intros key r I.
  rewrite (loaded_plugin _ _ _ key L) in I. destruct (sound_plugin d key SO) as [_ FM].
  rewrite Forall_forall in FM. by apply FM.
Qed.

(** ** Staging the previous release again *)

(** The document holds a plugin that no read accepts. *)
Definition locked (d : Disk) : Prop :=
  exists state key p, dk_state d = Document state /\ ds_Plugins state !! key = Some p /\ ~ slots_ok key p.

Lemma locked_unreadable fault d : locked d -> exists err, loadDiskState fault d = Err err.
Proof.
  intros (state & key & p & D & L & NOK). destruct (loadDiskState fault d) as [s|err] eqn:E; [|by exists err].
  apply loadDiskState_Document in E as [[E _]|[E [_ R]]]; [congruence|]. assert (s = state) as -> by congruence.
  apply R in L as [_ V _]%plugin_errors_spec. destruct NOK. by apply validateStateRecords_ok.
Qed.

Lemma locked_forever d d' : rtc step d d' -> locked d -> locked d'.
Proof.
  intros R. induction R as [|d d1 d' S _ IH]; [done|]. intros L. apply IH.
  assert (dk_state d1 = dk_state d) as E.
  { destruct S as [c pkg imported e|c key rev action cf e NZ].
    - destruct (Stage_cases c pkg imported e d) as [E|(cd & files & _ & [fault state LD _ _] & _)]; [done|].
      assert (locked {| dk_state := dk_state d; dk_files := files |}) as L' by done.
      destruct (locked_unreadable fault _ L'). congruence.
    - destruct (transition_cases c key rev action cf e d) as [[-> _]|(copy & target & _ & [fault state LD _ _] & _)]; [done|].
      destruct (locked_unreadable fault _ L). congruence. }
  destruct L as (state & key & p & D & R'). exists state, key, p. by rewrite E.
Qed.

(** Staging the release that is kept as the previous one locks the store. If
    a call of [Stage] commits a package with the content of the plugin's previous
    record - as after a rollback, when the release that was rolled back is staged
    again - then no later read of the document succeeds and no later operation on
    any plugin of the store succeeds, whatever is tried. *)
Theorem restaged_previous_locks_store (c : StageCall) (pkg : Package) (imported : ImportResult) (cd : Candidate)
    (d1 d d' : Disk) :
  candidate_of c pkg imported = Ok cd -> restages_previous cd (plugin_on d (cd_Key cd)) = true ->
  dk_state (out_disk (Stage c pkg imported d1 d)) <> dk_state d ->
  rtc step (out_disk (Stage c pkg imported d1 d)) d' ->
  (forall fault, exists err, loadDiskState fault d' = Err err)
  /\ (forall c' pkg' imported', exists err, out_result (Stage c' pkg' imported' d' d') = Err err)
  /\ (forall c' key rev action cf, exists err, out_result (transition c' key rev action cf d' d') = Err err).
Proof.
  intros C RP CH R. assert (locked d') as L.
  { eapply locked_forever; [exact R|].
    destruct (Stage_cases c pkg imported d1 d) as [E|(cd' & files & A & [fault state LD D _] & _)]; [done|].
    assert (cd' = cd) as -> by (pose proof (sa_candidate _ _ _ _ _ _ A); congruence).
    eexists _, (cd_Key cd), _. split; [exact D|]. split; [apply lookup_insert_eq|].
    intros [_ _ _ _ ND]. unfold restages_previous in RP.
    destruct (ps_Previous (plugin_on d (cd_Key cd))) as [pr|] eqn:P; [|done].
    unfold same_content in RP. apply andb_true_iff in RP as [E1%String.eqb_eq E2%String.eqb_eq].
    eapply (NoDup_staged_previous _ _ pr ND); [reflexivity|exact P|]. unfold content_of. cbn. by rewrite E1, E2. }
  split_and!.
  - intros fault. by apply locked_unreadable.
  - intros c' pkg' imported'. unfold Stage. destruct (candidate_of c' pkg' imported') as [cd'|e]; [|by exists e].
    destruct (locked_unreadable (sc_read c') d' L) as [err ->]. by exists err.
  - intros c' key rev action cf. unfold transition. destruct (locked_unreadable (tc_read c') d' L) as [err ->]. by exists err.
Qed.
