(* ===== verification/CrpExamples.v ===== *)
(** * Concrete stores and packages

    Witnesses for the properties of the package runtime: an official root with
    three keys, three releases signed by two of them, and runs that stage,
    promote and roll them back. The signature scheme of the examples is a
    digest of the key and the message, followed by the key. *)

From S2P Require Import Prelude GoText Sha256 JsonDecode CrpManifest CrpVersion CrpTrust CrpTrustSafety CrpImport CrpRuntime CrpRuntimeSafety.
From S2P Require Import CrpRuntimeLoad.
From stdpp Require Import relations.

Open Scope string_scope.
Open Scope list_scope.
Open Scope Z_scope.
Open Scope go_scope.

(** An equation that the virtual machine decides. *)
Ltac by_vm := match goal with |- ?a = ?b => exact (eq_refl b <: a = b) end.

(** ** Keys and packages *)

Definition example_verify (public : list Z) (message : string) (sig : list Z) : bool :=
  bool_decide (sig = Sum256 (public ++ text_bytes message) ++ public).

(** 2025-06-01 and the time of the admissions, a day later. *)
Definition signing_time : Time := 63884332800 * Second.
Definition admission_time : Time := signing_time + 24 * Hour.

Definition key_of (id : string) (n : Z) : TrustKey :=
  {| tk_ID := id; tk_PublicKey := repeat n 32; tk_Class := ""; tk_NotBefore := 0; tk_NotAfter := 0; tk_RevokedAt := None |}.

Definition official_root : TrustRoot :=
  {| tr_ID := "root"; tr_Class := SignerOfficial; tr_NamespacePrefixes := ["official"];
     tr_Keys := [key_of "k1" 1; key_of "k2" 2; key_of "k3" 3]; tr_Policy := no_policy; tr_HighRiskPolicy := no_policy;
     tr_MaxValidity := 0 |}.

Definition from_ok {E A : Type} (r : result E A) (d : A) : A := match r with Ok a => a | Err _ => d end.

Definition trust : TrustStore := from_ok (NewTrustStore [official_root]) ∅.

Definition registry : SourceRegistry :=
  from_ok (NewSourceRegistry [{| sr_ID := "root"; sr_NamespacePrefixes := ["official"]; sr_Sources := ["mirror"] |}]) ∅.

Definition signed_by (key value : string) : Signature :=
  {| sig_KeyID := key; sig_Algorithm := SignatureAlgorithmEd25519; sig_Value := value; sig_SignedAt := signing_time |}.

Definition package_a : Package :=
  {| pk_Manifest := requote "{`name`:`waf`,`version`:`1.0.0`,`namespace`:`official/waf`,`source`:`mirror`,`source_root`:`root`,`release_sequence`:1,`digests`:{`md5`:`b82b5da2603da489e425a746b7171cb7`,`sha1`:`d285da20dd804cc9606079873aa964296db1d624`,`sha256`:`d702e44937b8842cd489313245fcd31dd7423ab7e05ceb43510263137b4b07d9`}}";
     pk_Artifact := [114; 117; 108; 101; 115; 32; 49];
     pk_Signatures :=
       [signed_by "k1" "levX92RLou0aHU/fFuUrlyn9Es17Y4Th702rbjdeHQkBAQEBAQEBAQEBAQEBAQEBAQEBAQEBAQEBAQEBAQEBAQ==";
        signed_by "k2" "kkWoO8WvAflwEL3GUQbidVYMQ7zr0aynbcbplb7hSRsCAgICAgICAgICAgICAgICAgICAgICAgICAgICAgICAg=="] |}.

Definition package_b : Package :=
  {| pk_Manifest := requote "{`name`:`waf`,`version`:`1.1.0`,`namespace`:`official/waf`,`source`:`mirror`,`source_root`:`root`,`release_sequence`:2,`digests`:{`md5`:`1e1a3bd341ec92bbaff9d73874aecd2c`,`sha1`:`c9a05574274fce844e81f2ba98502f612d56501e`,`sha256`:`fd3297ce2d19a1a04d85338be3a703c7af2b8beb9e59b74fa6c5e9d0f01fa28c`}}";
     pk_Artifact := [114; 117; 108; 101; 115; 32; 50];
     pk_Signatures :=
       [signed_by "k1" "cF5XeTZtgignaP21r1RMvyxWEUHDX95Zwcj7O0v3ZNQBAQEBAQEBAQEBAQEBAQEBAQEBAQEBAQEBAQEBAQEBAQ==";
        signed_by "k2" "6tj3AuylV+HgF8BC8Jd6l4yDrHMgyQsDO9F93WIhulsCAgICAgICAgICAgICAgICAgICAgICAgICAgICAgICAg=="] |}.

Definition package_c : Package :=
  {| pk_Manifest := requote "{`name`:`waf`,`version`:`1.2.0`,`namespace`:`official/waf`,`source`:`mirror`,`source_root`:`root`,`release_sequence`:3,`digests`:{`md5`:`e0c77ec3b86fb134369c8bd700b35408`,`sha1`:`fd1ebe18628146b0c7eb14baf78c3e8fc81011ea`,`sha256`:`d749dae22fa9124a7c26d76aa36c08e7fa89eccc9a727d509eb74506ae7b8d40`}}";
     pk_Artifact := [114; 117; 108; 101; 115; 32; 51];
     pk_Signatures :=
       [signed_by "k1" "Ze37g456qqtDy42hfW3VSeT37WC8n1gl5EFED0oqST8BAQEBAQEBAQEBAQEBAQEBAQEBAQEBAQEBAQEBAQEBAQ==";
        signed_by "k2" "2Eq3Cxd7U1r7jm7xio7Zkle6OYSqGa67n5+KO0V+LgECAgICAgICAgICAgICAgICAgICAgICAgICAgICAgICAg=="] |}.

Definition options (current : Release) : ImportOptions :=
  {| io_MaxManifestBytes := 0; io_MaxArtifactBytes := 0; io_SourceRegistry := registry; io_TrustStore := trust;
     io_CurrentRelease := current; io_HighRisk := false; io_AllowConfirmation := false; io_Now := admission_time |}.

Definition no_release : Release := {| rel_Version := ""; rel_Sequence := 0 |}.

(** ** A run: two releases staged and promoted, then the first one restored *)

Definition no_fault : FileFault :=
  {| ff_lstat := None; ff_read := None; ff_temp := None; ff_rename := None; ff_sync := None |}.

Definition stage_call (now : Time) : StageCall :=
  {| sc_directory := None; sc_read := None; sc_artifact := no_fault; sc_metadata := None; sc_manifest := no_fault;
     sc_signatures := no_fault; sc_now := now; sc_revalidate := fun _ => None; sc_lease := None; sc_reread := None;
     sc_persist := Persisted |}.

Definition transition_call (now : Time) : TransitionCall :=
  {| tc_read := None; tc_check_now := now; tc_revalidate := fun _ => None; tc_health := fun _ => None;
     tc_authorizer := Some (fun cf => if String.eqb (cf_Actor cf) "admin" then None else Some "denied");
     tc_lease := None; tc_reread := None; tc_confirm_now := now; tc_now := now; tc_persist := Persisted |}.

Definition admitted (pkg : Package) : ImportResult := fst (Import example_verify pkg (options no_release)).

Definition imported_a : ImportResult := Eval vm_compute in admitted package_a.
Definition imported_b : ImportResult := Eval vm_compute in admitted package_b.
Definition imported_c : ImportResult := Eval vm_compute in admitted package_c.

Lemma imported_is_admitted : admitted package_a = imported_a.
Proof. by_vm. Qed.

Definition stage (pkg : Package) (imported : ImportResult) (d : Disk) : Outcome :=
  Stage (stage_call admission_time) pkg imported d d.

Definition promote (rev : Z) (d : Disk) : Outcome := Promote (transition_call admission_time) "waf" rev None d d.

Definition rollback_confirmation : Confirmation :=
  {| cf_ID := "confirm-1"; cf_Actor := "admin"; cf_Action := RuntimeActionRollback; cf_PluginKey := "waf";
     cf_ManifestIdentity := ir_ContentIdentity imported_a; cf_ExpectedRevision := 4; cf_AuthorizedAt := admission_time;
     cf_ExpiresAt := admission_time + Hour |}.

Definition rollback (d : Disk) : Outcome :=
  Rollback (transition_call admission_time) "waf" 4 (Some rollback_confirmation) d d.

Definition disk0 : Disk := {| dk_state := NoFile; dk_files := ∅ |}.
Definition disk1 : Disk := Eval vm_compute in out_disk (stage package_a imported_a disk0).
Definition disk2 : Disk := Eval vm_compute in out_disk (promote 1 disk1).
Definition disk3 : Disk := Eval vm_compute in out_disk (stage package_b imported_b disk2).
Definition disk4 : Disk := Eval vm_compute in out_disk (promote 3 disk3).
Definition disk5 : Disk := Eval vm_compute in out_disk (rollback disk4).
Definition disk6 : Disk := Eval vm_compute in out_disk (stage package_c imported_c disk5).

Lemma disk1_of : out_disk (stage package_a imported_a disk0) = disk1.
Proof. by_vm. Qed.
Lemma disk2_of : out_disk (promote 1 disk1) = disk2.
Proof. by_vm. Qed.
Lemma disk3_of : out_disk (stage package_b imported_b disk2) = disk3.
Proof. by_vm. Qed.
Lemma disk4_of : out_disk (promote 3 disk3) = disk4.
Proof. by_vm. Qed.
Lemma disk5_of : out_disk (rollback disk4) = disk5.
Proof. by_vm. Qed.
Lemma disk6_of : out_disk (stage package_c imported_c disk5) = disk6.
Proof. by_vm. Qed.

Definition version_in (r : option RuntimeRecord) : string := match r with Some r => rr_Version r | None => "" end.

Definition is_ok {E A : Type} (r : result E A) : bool := match r with Ok _ => true | Err _ => false end.

(** The releases in the slots along the run. *)
Example run_slots :
  map (fun d => let s := plugin_on d "waf" in
    (ps_Revision s, version_in (ps_Current s), version_in (ps_Staged s), version_in (ps_Previous s)))
    [disk0; disk1; disk2; disk3; disk4; disk5; disk6]
  = [(0, "", "", ""); (1, "", "1.0.0", ""); (2, "1.0.0", "", ""); (3, "1.0.0", "1.1.0", ""); (4, "1.1.0", "", "1.0.0");
     (5, "1.0.0", "", "1.1.0"); (6, "1.0.0", "1.2.0", "1.1.0")].
Proof. vm_compute. reflexivity. Qed.

(** Restaging the release that was rolled back is reported as a success, and
    the document is corrupt for every later read. *)
Example restaging_succeeds_and_corrupts :
  is_ok (out_result (stage package_b imported_b disk5)) = true
  /\ loadDiskState None (out_disk (stage package_b imported_b disk5)) = Err ErrRuntimeCorrupt
  /\ is_ok (loadDiskState None disk5) = true.
Proof. vm_compute. repeat split. Qed.

(** ** Runs as steps *)

Lemma time_not_zero : tc_now (transition_call admission_time) <> 0.
Proof. by vm_compute. Qed.

Definition keyed (pkg : Package) (imported : ImportResult) : Candidate :=
  from_ok (candidate_of (stage_call admission_time) pkg imported)
    {| cd_Manifest := no_manifest; cd_Key := ""; cd_ManifestID := ""; cd_ArtifactID := "" |}.

(** The conditions of a careful call, evaluated. *)
Definition careful_check (pkg : Package) (imported : ImportResult) (d d' : Disk) : bool :=
  let cd := keyed pkg imported in
  negb (restages_previous cd (plugin_on d (cd_Key cd)))
  && match marshal_signatures (pk_Signatures pkg) with
     | Some b => is_ok (parseArchiveSignatures (text_of (map byte_val b))) | None => false end
  && bool_decide (no_collision (dk_files d') (pk_Artifact pkg))
  && (ps_Revision (plugin_on d (cd_Key cd)) + 1 <? two64).

Lemma careful_check_step pkg imported d d' :
  out_disk (stage pkg imported d) = d' -> careful_check pkg imported d d' = true -> careful_step d d'.
Proof.
  intros <- C. apply careful_stage. intros cd E. unfold careful_check, keyed in C. rewrite E in C. cbn [from_ok] in C.
  apply andb_true_iff in C as [C R%Z.ltb_lt]. apply andb_true_iff in C as [C NC%bool_decide_eq_true].
  apply andb_true_iff in C as [RP%negb_true_iff SG]. split_and!; [done| |done|done].
  unfold signatures_readable. destruct (marshal_signatures _); [|done].
  destruct (parseArchiveSignatures _) as [sigs|]; [|done]. by exists sigs.
Qed.

Lemma careful_promote rev d d' : out_disk (promote rev d) = d' -> ps_Revision (plugin_on d "waf") = rev ->
  (rev + 1 <? two64) = true -> careful_step d d'.
Proof. intros <- R B%Z.ltb_lt. apply careful_transition; [by vm_compute|by rewrite R]. Qed.

Lemma careful_to_disk3 : rtc careful_step disk0 disk3.
Proof.
  apply (rtc_l _ disk0 disk1); [apply (careful_check_step _ _ _ _ disk1_of); vm_compute; reflexivity|].
  apply (rtc_l _ disk1 disk2); [apply (careful_promote _ _ _ disk2_of); vm_compute; reflexivity|].
  apply (rtc_l _ disk2 disk3); [apply (careful_check_step _ _ _ _ disk3_of); vm_compute; reflexivity|].
  apply rtc_refl.
Qed.

Lemma run_to_disk5 : rtc careful_step disk0 disk5.
Proof.
  transitivity disk3; [exact careful_to_disk3|].
  apply (rtc_l _ disk3 disk4); [apply (careful_promote _ _ _ disk4_of); vm_compute; reflexivity|].
  apply rtc_once. rewrite <- disk5_of. apply careful_transition; by vm_compute.
Qed.

Lemma run_to_disk3 : rtc step disk0 disk3.
Proof. eapply rtc_subrel; [|exact careful_to_disk3]. apply careful_step_is_step. Qed.

(** ** Instances of the package properties *)

Definition manifest_a : Manifest := ir_Manifest imported_a.
Definition manifest_b : Manifest := ir_Manifest imported_b.
Definition manifest_c : Manifest := ir_Manifest imported_c.

Lemma upgrade_chain_never_downgrades_witness :
  not_below {| rel_Version := "1.0.0"; rel_Sequence := 1 |} (release_of manifest_c).
Proof.
  apply (upgrade_chain_never_downgrades {| rel_Version := "1.0.0"; rel_Sequence := 1 |} [manifest_b] manifest_c).
  - done.
  - vm_compute. repeat split.
Defined.

(** ** Signatures *)

Definition checked (s : TrustStore) (sigs : list Signature) : SignatureReport * option error :=
  VerifyManifest example_verify 0 s manifest_a sigs (verification_options (options no_release)).

Definition report_a : SignatureReport := Eval vm_compute in fst (checked trust (pk_Signatures package_a)).

Lemma trust_is_new : NewTrustStore [official_root] = Ok trust.
Proof. by_vm. Qed.

Lemma a_is_accepted : checked trust (pk_Signatures package_a) = (report_a, None).
Proof. by_vm. Qed.

Lemma quorum_verified_witness :
  exists root ks,
    trust !! "root" = Some root /\ NoDup (map tk_PublicKey ks) /\ 2 <= Z.of_nat (length ks)
    /\ forall k, k ∈ ks -> exists sig, sig ∈ pk_Signatures package_a
         /\ attested example_verify root manifest_a admission_time sig k.
Proof.
  destruct (quorum_verified example_verify 0 [official_root] trust manifest_a (pk_Signatures package_a)
    (verification_options (options no_release)) report_a trust_is_new a_is_accepted)
    as (root & ks & L & _ & ND & _ & _ & A & _ & P).
  exists root, ks. split; [exact L|]. split; [exact ND|]. split; [|exact A]. apply P. vm_compute. reflexivity.
Defined.

Definition trust_revoked : TrustStore := from_ok (Revoke 0 trust "root" "k1" admission_time) ∅.
Definition trust_rotated : TrustStore := from_ok (Rotate trust_revoked "root" [key_of "k4" 4]) ∅.

Lemma k1_revoked : Revoke 0 trust "root" "k1" admission_time = Ok trust_revoked.
Proof. by_vm. Qed.

Lemma k4_added : trust_step trust_revoked trust_rotated.
Proof.
  apply (step_rotate trust_revoked "root" [key_of "k4" 4]).
  by_vm.
Qed.

Lemma revocation_is_permanent_witness :
  snd (checked trust_rotated (pk_Signatures package_a)) = None
  <-> snd (checked trust_rotated (without "k1" (pk_Signatures package_a))) = None.
Proof.
  apply (revocation_is_permanent example_verify 0 0 [official_root] trust trust_revoked trust_rotated "root" "k1"
    admission_time manifest_a (pk_Signatures package_a) (verification_options (options no_release))
    trust_is_new k1_revoked (rtc_once _ _ k4_added)); vm_compute; [reflexivity|discriminate].
Defined.

(** One signature is left, and one is not a quorum. *)
Example a_is_refused_after_revocation :
  (snd (checked trust_rotated (pk_Signatures package_a)), rp_InvalidKeyIDs (fst (checked trust_rotated (pk_Signatures package_a))))
  = (Some ErrThresholdNotMet, ["k1"]).
Proof. vm_compute. reflexivity. Qed.

(** ** Transitions *)

Definition no_record : RuntimeRecord := staged_record (stage_call 0) imported_a (keyed package_a imported_a) 0.
Definition promoted_b : RuntimeRecord := Eval vm_compute in from_ok (out_result (promote 3 disk3)) no_record.

Lemma b_is_promoted : out_result (promote 3 disk3) = Ok promoted_b.
Proof. by_vm. Qed.

(** A process that asks for a plugin that does not exist changes nothing. *)
Definition futile (d : Disk) : Outcome := Promote (transition_call admission_time) "other" 1 None d d.

Lemma futile_step d : out_disk (futile d) = d -> nsteps step 1 d d.
Proof.
  intros E. apply nsteps_once. rewrite <- E at 2.
  apply (step_transition d (transition_call admission_time) "other" 1 RuntimeActionPromote None d). by vm_compute.
Qed.

Lemma transition_is_atomic_witness :
  ps_Revision (plugin_on disk4 "waf") = 4 /\ forall r, out_result (promote 3 disk4) <> Ok r.
Proof.
  rewrite <- disk4_of.
  destruct (transition_is_atomic 1 1 (transition_call admission_time) (transition_call admission_time) "waf" 3
    RuntimeActionPromote RuntimeActionPromote None None disk3 disk3 disk4 disk4 promoted_b)
    as (_ & _ & R & _ & N).
  - lia.
  - vm_compute. reflexivity.
  - apply futile_step. by_vm.
  - exact b_is_promoted.
  - change (nsteps step 1 (out_disk (promote 3 disk3)) disk4). rewrite disk4_of.
    apply futile_step. by_vm.
  - split; [exact R|]. rewrite disk4_of. exact N.
Defined.

(** The confirmation of the rollback, offered again for a promotion. *)
Definition promote_c : Outcome :=
  Promote (transition_call admission_time) "waf" 6 (Some rollback_confirmation) disk6 disk6.

Definition restored_a : RuntimeRecord := Eval vm_compute in from_ok (out_result (rollback disk4)) no_record.
Definition promoted_c : RuntimeRecord := Eval vm_compute in from_ok (out_result promote_c) no_record.

Lemma a_is_restored : out_result (rollback disk4) = Ok restored_a.
Proof. by_vm. Qed.

Lemma c_is_promoted : out_result promote_c = Ok promoted_c.
Proof. by_vm. Qed.

Lemma c_is_staged : rtc step (out_disk (rollback disk4)) disk6.
Proof.
  rewrite disk5_of. apply rtc_once. rewrite <- disk6_of.
  apply (step_stage disk5 (stage_call admission_time) package_c imported_c disk5).
Qed.

Lemma runtime_confirmation_spent_once_witness : rr_RequiresConfirm promoted_c = false.
Proof.
  apply (runtime_confirmation_spent_once 0 (transition_call admission_time) (transition_call admission_time) "waf" 4 6
    RuntimeActionRollback RuntimeActionPromote rollback_confirmation rollback_confirmation disk4 disk4 disk6 disk6
    restored_a promoted_c a_is_restored time_not_zero c_is_staged eq_refl).
  - lia.
  - vm_compute. reflexivity.
  - apply nsteps_O.
  - exact c_is_promoted.
Defined.


(** ** The document *)

Lemma documents_stay_readable_witness : exists state, loadDiskState None disk5 = Ok state.
Proof.
  destruct (documents_stay_readable disk0 disk5 eq_refl run_to_disk5) as (state & L & _). exists state. exact L.
Defined.

Definition revision_of (f : StateFile) : Z := match f with Document s => ps_Revision (plugin_of s "waf") | _ => 0 end.

Lemma restaging_commits :
  dk_state (out_disk (Stage (stage_call admission_time) package_b imported_b disk5 disk5)) <> dk_state disk5.
Proof.
  intros E. apply (f_equal revision_of) in E.
  assert (revision_of (dk_state (out_disk (Stage (stage_call admission_time) package_b imported_b disk5 disk5))) = 6) as R by by_vm.
  rewrite R in E. assert (revision_of (dk_state disk5) = 5) as R5 by by_vm. congruence.
Qed.

Lemma b_is_candidate : candidate_of (stage_call admission_time) package_b imported_b = Ok (keyed package_b imported_b).
Proof.
  by_vm.
Qed.

Lemma b_is_previous :
  restages_previous (keyed package_b imported_b) (plugin_on disk5 (cd_Key (keyed package_b imported_b))) = true.
Proof. vm_compute. reflexivity. Qed.

Lemma restaged_previous_locks_store_witness :
  forall fault, exists err,
    loadDiskState fault (out_disk (Stage (stage_call admission_time) package_b imported_b disk5 disk5)) = Err err.
Proof.
  apply (restaged_previous_locks_store (stage_call admission_time) package_b imported_b (keyed package_b imported_b)
    disk5 disk5 _ b_is_candidate b_is_previous restaging_commits (rtc_refl _ _)).
Defined.
