(* ===== verification/TimeText.v ===== *)
(** * Decimal numbers and times read back

    [dec_digits] and [fixed_digits] are inverse, [days_from_civil] is the
    inverse of [civil], and [time.Time.UnmarshalJSON] reads what
    [time.Time.MarshalJSON] wrote. *)

From S2P Require Import Prelude GoText Json JsonValid JsonDecode.
From Stdlib Require Import Ascii.

Open Scope list_scope.
Open Scope Z_scope.

(** ** Decimal digits *)

Definition all_digits (l : list ascii) : bool := forallb json_digit l.

Lemma digit_byte d : 0 <= d < 10 -> json_digit (byte_of (48 + d)) = true /\ byte_val (byte_of (48 + d)) = 48 + d.
Proof. intros R. unfold json_digit. rewrite byte_val_of by lia. split; [|done]. apply andb_true_iff; lia. Qed.

Definition read_digits (acc : Z) (l : list ascii) : Z := fold_left (fun acc c => acc * 10 + (byte_val c - 48)) l acc.

Lemma digits_value_read l : digits_value l = read_digits 0 l.
Proof. done. Qed.

Lemma read_digits_app acc l k : read_digits acc (l ++ k) = read_digits (read_digits acc l) k.
Proof. apply fold_left_app. Qed.

Lemma read_digits_acc acc l : read_digits acc l = acc * 10 ^ Z.of_nat (length l) + digits_value l.
Proof.
  rewrite digits_value_read. revert acc. induction l as [|c l IH] using rev_ind; intros acc; [cbn; lia|].
  rewrite !read_digits_app, length_app. cbn [read_digits fold_left length]. rewrite (IH acc).
  rewrite Nat2Z.inj_add, Z.pow_add_r by lia. cbn. lia.
Qed.

Lemma read_zeros n acc : read_digits acc (repeat "0"%char n) = acc * 10 ^ Z.of_nat n.
Proof.
  revert acc. induction n as [|n IH]; intros acc; [cbn; lia|].
  change (read_digits acc (repeat "0"%char (S n))) with (read_digits (acc * 10 + 0) (repeat "0"%char n)).
  rewrite IH, Nat2Z.inj_succ, Z.pow_succ_r by lia. lia.
Qed.

(** The digits of a number below [10 ^ fuel], before [acc]. *)
Lemma dec_digits_spec fuel : forall n acc, 0 <= n < 10 ^ Z.of_nat fuel ->
  exists l, dec_digits fuel n acc = l ++ acc /\ all_digits l = true /\ digits_value l = n
    /\ (fuel <> 0%nat -> l <> [])
    /\ (forall k, (0 < k)%nat -> n < 10 ^ Z.of_nat k -> (length l <= k)%nat)
    /\ match l with c :: _ :: _ => byte_val c <> 48 | _ => True end.
Proof.
  induction fuel as [|fuel IH]; intros n acc R.
  - cbn in *. exists []. split_and!; try done; cbn; try lia.
  - rewrite Nat2Z.inj_succ, Z.pow_succ_r in R by lia. cbn [dec_digits].
    pose proof (Z.mod_pos_bound n 10 eq_refl) as B. destruct (digit_byte (n mod 10) B) as [D V].
    destruct (n <? 10) eqn:SM; props.
    + exists [byte_of (48 + n mod 10)]. rewrite Z.mod_small in * by lia. split_and!; cbn; try done.
      * by rewrite D.
      * rewrite V. lia.
    + destruct (IH (n / 10) (byte_of (48 + n mod 10) :: acc)) as (l & E & A & VL & NE & HI & HD).
      { split; [apply Z.div_pos; lia|apply Z.div_lt_upper_bound; lia]. }
      exists (l ++ [byte_of (48 + n mod 10)]). rewrite <- (assoc app), E. split_and!; try done.
      * unfold all_digits in *. rewrite forallb_app, A. cbn. by rewrite D.
      * rewrite digits_value_read, read_digits_app, <- digits_value_read, VL. cbn. rewrite V.
        pose proof (Z.div_mod n 10). lia.
      * intros _ X. by apply app_nil in X as [_ ?].
      * intros k P L. rewrite length_app. cbn. destruct k as [|k]; [lia|].
        rewrite Nat2Z.inj_succ, Z.pow_succ_r in L by lia.
        assert (n / 10 < 10 ^ Z.of_nat k) as L' by (apply Z.div_lt_upper_bound; lia).
        destruct k as [|k]; [|specialize (HI (S k)); lia].
        cbn in L'. pose proof (Z.div_le_lower_bound n 10 1). lia.
      * destruct l as [|c [|d l]]; [|cbn|done].
        -- specialize (NE ltac:(destruct fuel; [cbn in R; lia|done])). done.
        -- cbn in VL. pose proof (Z.div_le_lower_bound n 10 1). lia.
Qed.

Lemma itoa_spec n : 0 <= n < two64 ->
  let l := bytes (itoa n) in
  all_digits l = true /\ digits_value l = n /\ l <> [] /\ match l with c :: _ :: _ => byte_val c <> 48 | _ => True end.
Proof.
  intros R. unfold itoa. destruct (n <? 0) eqn:N; props; [lia|]. rewrite bytes_of_bytes.
  destruct (dec_digits_spec 21 n []) as (l & E & A & V & NE & _ & H); [unfold two64 in R; lia|].
  rewrite E, app_nil_r. split_and!; try done. by apply NE.
Qed.

Lemma pad_digits_spec n z : (0 < n <= 21)%nat -> 0 <= z < 10 ^ Z.of_nat n ->
  length (pad_digits n z) = n /\ all_digits (pad_digits n z) = true /\ digits_value (pad_digits n z) = z.
Proof.
  intros B R. unfold pad_digits.
  destruct (dec_digits_spec 21 z []) as (l & -> & A & V & _ & LE & _).
  { split; [lia|]. eapply Z.lt_le_trans; [apply R|]. apply Z.pow_le_mono_r; lia. }
  rewrite app_nil_r. specialize (LE n). rewrite length_app, repeat_length. split_and!; [lia| |].
  - unfold all_digits in *. rewrite forallb_app, A, andb_true_r. clear. induction (n - length l)%nat; [done|cbn; auto].
  - rewrite digits_value_read, read_digits_app, read_zeros, Z.mul_0_l. by rewrite <- digits_value_read.
Qed.

Lemma fixed_digits_app l rest acc : all_digits l = true ->
  fixed_digits (length l) acc (l ++ rest) = Some (read_digits acc l, rest).
Proof.
  revert acc. induction l as [|c l IH]; intros acc A; [done|]. cbn in A. apply andb_true_iff in A as [D A].
  cbn [length fixed_digits app]. unfold digit_of. rewrite D. rewrite IH by done. done.
Qed.

Lemma fixed_pad n z rest : (0 < n <= 21)%nat -> 0 <= z < 10 ^ Z.of_nat n ->
  fixed_digits n 0 (pad_digits n z ++ rest) = Some (z, rest).
Proof.
  intros B R. destruct (pad_digits_spec n z B R) as (L & A & V).
  rewrite <- L at 1. rewrite fixed_digits_app by done. by rewrite <- digits_value_read, V.
Qed.

(** ** Dates *)

(** The day of an era, its year of the era counted from March, and its month
    and day. *)
Definition era_shift (doe : Z) : Z := doe - doe / 1460 + doe / 36524 - doe / 146096.

Definition era_year (doe : Z) : Z := era_shift doe / 365.

Definition year_start (yoe : Z) : Z := 365 * yoe + yoe / 4 - yoe / 100.

Definition year_day (doy : Z) : Z * Z :=
  let mp := (5 * doy + 2) / 153 in
  (if mp <? 10 then mp + 3 else mp - 9, doy - (153 * mp + 2) / 5 + 1).

Definition day_of_year (m d : Z) : Z := (153 * (if 2 <? m then m - 3 else m + 9) + 2) / 5 + d - 1.

Definition era_day (doe : Z) : Z * (Z * Z) := (era_year doe, year_day (doe - year_start (era_year doe))).

(** The last day of a year of the era; the last year has its leap day. *)
Definition year_last (yoe : Z) : Z := if yoe =? 399 then 146096 else year_start (yoe + 1) - 1.

Lemma era_shift_mono a b : 0 <= a -> a <= b -> era_shift a <= era_shift b.
Proof.
  intros P L. unfold era_shift.
  replace (a / 146096) with (a / 36524 / 4) by (rewrite Z.div_div by lia; done).
  replace (b / 146096) with (b / 36524 / 4) by (rewrite Z.div_div by lia; done).
  pose proof (Z.div_le_mono a b 36524 eq_refl L). pose proof (Z.div_le_mono a b 1460 eq_refl L).
  assert (a - a / 1460 <= b - b / 1460) by (Z.to_euclidean_division_equations; lia).
  set (qa := a / 36524) in *. set (qb := b / 36524) in *.
  assert (qa - qa / 4 <= qb - qb / 4) by (Z.to_euclidean_division_equations; lia). lia.
Qed.

Lemma era_year_mono a b : 0 <= a -> a <= b -> era_year a <= era_year b.
Proof. intros P L. apply Z.div_le_mono; [done|by apply era_shift_mono]. Qed.

(** Each year of the era: its first and its last day, and its length. *)
Definition year_ok (y : Z) : bool :=
  (era_year (year_start y) =? y) && (era_year (year_last y) =? y) && (0 <=? year_start y)
  && (year_last y - year_start y <=? (if leap_year (y + 1) then 365 else 364))
  && ((y =? 399) || (year_start (y + 1) =? year_last y + 1)).

Definition year_day_ok (doy : Z) : bool :=
  let '(m, d) := year_day doy in
  (1 <=? m) && (m <=? 12) && (1 <=? d) && (d <=? (if (m =? 2) && (doy =? 365) then 29 else days_in 1 m))
  && (day_of_year m d =? doy).

Fixpoint check_range (P : Z -> bool) (n : nat) (z : Z) : bool :=
  match n with O => true | S n => P z && check_range P n (z + 1) end.

Lemma check_range_ok P n z k : check_range P n z = true -> z <= k < z + Z.of_nat n -> P k = true.
Proof.
  revert z. induction n as [|n IH]; intros z C R; [lia|]. cbn in C. apply andb_true_iff in C as [C1 C2].
  destruct (decide (k = z)) as [->|N]; [done|]. eapply IH; [exact C2|lia].
Qed.

Lemma years_ok y : 0 <= y < 400 -> year_ok y = true.
Proof.
  assert (check_range year_ok 400 0 = true) as C by (vm_cast_no_check (eq_refl true)).
  intros R. eapply check_range_ok; [exact C|]. lia.
Qed.

Lemma year_days_ok d : 0 <= d < 366 -> year_day_ok d = true.
Proof.
  assert (check_range year_day_ok 366 0 = true) as C by (vm_cast_no_check (eq_refl true)).
  intros R. eapply check_range_ok; [exact C|]. lia.
Qed.

Lemma era_year_bounds doe : 0 <= doe < 146097 ->
  let y := era_year doe in 0 <= y < 400 /\ year_start y <= doe <= year_last y.
Proof.
  intros R. cbv zeta. pose proof (era_year_mono 0 doe ltac:(lia) ltac:(lia)) as L0.
  pose proof (era_year_mono doe 146096 ltac:(lia) ltac:(lia)) as L1.
  change (era_year 0) with 0 in L0. change (era_year 146096) with 399 in L1.
  assert (0 <= era_year doe < 400) as B by lia. split; [done|].
  pose proof (years_ok _ B) as OK. unfold year_ok in OK. split.
  - destruct (decide (era_year doe = 0)) as [->|N]; [change (year_start 0) with 0; lia|].
    apply Z.nlt_ge. intros LT. assert (0 <= era_year doe - 1 < 400) as B' by lia.
    pose proof (years_ok _ B') as OK'. unfold year_ok in OK'. replace (era_year doe - 1 + 1) with (era_year doe) in OK' by lia.
    destruct (era_year doe - 1 =? 399) eqn:E; props; [lia|]. cbn [orb] in *. props.
    pose proof (era_year_mono doe (year_last (era_year doe - 1)) ltac:(lia) ltac:(lia)). lia.
  - apply Z.nlt_ge. intros LT. destruct (decide (era_year doe = 399)) as [E|N].
    { rewrite E in LT. change (year_last 399) with 146096 in LT. lia. }
    assert (0 <= era_year doe + 1 < 400) as B' by lia.
    pose proof (years_ok _ B') as OK'. unfold year_ok in OK'.
    destruct (era_year doe =? 399) eqn:E; props; [lia|]. cbn [orb] in *. props.
    pose proof (era_year_mono (year_start (era_year doe + 1)) doe ltac:(lia) ltac:(lia)). lia.
Qed.

(** What a date of an era satisfies. *)
Lemma era_day_spec doe : 0 <= doe < 146097 ->
  let '(yoe, (m, d)) := era_day doe in
  0 <= yoe < 400 /\ 1 <= m <= 12 /\ 1 <= d <= days_in (if m <=? 2 then yoe + 1 else yoe) m
  /\ yoe * 365 + yoe / 4 - yoe / 100 + day_of_year m d = doe.
Proof.
  intros R. destruct (era_year_bounds doe R) as [B S]. unfold era_day.
  set (y := era_year doe) in *. pose proof (years_ok y B) as OK. unfold year_ok in OK. props.
  set (doy := doe - year_start y) in *. assert (0 <= doy < 366) as DB by (destruct (leap_year (y + 1)); lia).
  pose proof (year_days_ok doy DB) as DO. unfold year_day_ok in DO. destruct (year_day doy) as [m d]. props.
  split_and!; try lia.
  - etrans; [eassumption|]. unfold days_in. destruct (m =? 2) eqn:M; props; [|cbn [andb]; repeat case_match; lia].
    subst m. cbn [andb Z.leb Z.compare Pos.compare Pos.compare_cont]. destruct (doy =? 365) eqn:D; props.
    + destruct (leap_year (y + 1)) eqn:LY; lia.
    + change (leap_year 1) with false. destruct (leap_year (y + 1)); lia.
  - unfold doy, year_start in *. lia.
Qed.

Lemma civil_era days :
  civil days = let z := days + 306 in
    let '(yoe, (m, d)) := era_day (z mod 146097) in
    (yoe + z / 146097 * 400 + (if m <=? 2 then 1 else 0), m, d).
Proof. reflexivity. Qed.

Lemma leap_year_era y k : leap_year (y + k * 400) = leap_year y.
Proof.
  unfold leap_year. replace (y + k * 400) with (y + (k * 100) * 4) at 1 by lia.
  replace (y + k * 400) with (y + (k * 4) * 100) at 1 by lia. by rewrite !Z_mod_plus_full.
Qed.

Lemma days_from_civil_civil days :
  let '(y, m, d) := civil days in
  days_from_civil y m d = days /\ 1 <= m <= 12 /\ 1 <= d <= days_in y m.
Proof.
  rewrite civil_era. cbv zeta. set (z := days + 306).
  pose proof (Z.mod_pos_bound z 146097 eq_refl) as B. pose proof (era_day_spec _ B) as OK.
  destruct (era_day (z mod 146097)) as [yoe [m d]]. destruct OK as (Y & M & D & E).
  assert (days_in (yoe + z / 146097 * 400 + (if m <=? 2 then 1 else 0)) m = days_in (if m <=? 2 then yoe + 1 else yoe) m) as ->.
  { unfold days_in. destruct (m =? 2) eqn:M2; [|done]. props. subst m.
    replace (yoe + z / 146097 * 400 + (if 2 <=? 2 then 1 else 0)) with (yoe + 1 + z / 146097 * 400) by (cbn; lia).
    by rewrite leap_year_era. }
  split; [|lia]. unfold days_from_civil. unfold day_of_year in E.
  replace (if m <=? 2 then yoe + z / 146097 * 400 + (if m <=? 2 then 1 else 0) - 1
           else yoe + z / 146097 * 400 + (if m <=? 2 then 1 else 0)) with (yoe + z / 146097 * 400) by (destruct (m <=? 2); lia).
  rewrite Z_mod_plus_full, Z.div_add, Z.mod_small, Z.div_small by lia.
  pose proof (Z.div_mod z 146097). lia.
Qed.

(** ** Times *)

Lemma skip_digits_app l rest : all_digits l = true -> match rest with c :: _ => json_digit c = false | [] => True end ->
  skip_digits (l ++ rest) = rest.
Proof.
  intros A R. induction l as [|c l IH]; cbn.
  - destruct rest as [|c rest]; [done|]. cbn. by rewrite R.
  - cbn in A. apply andb_true_iff in A as [-> A]. by apply IH.
Qed.

Lemma drop_zeros_spec l : exists n, l = repeat "0"%char n ++ drop_zeros l.
Proof.
  induction l as [|c l [n E]]; [by exists 0%nat|]. destruct (decide (c = "0"%char)) as [->|N].
  - exists (S n). cbn. by rewrite <- E.
  - exists 0%nat. cbn. by repeat (destruct c as [[] [] [] [] [] [] [] []]; try done).
Qed.

Lemma rev_zeros n : rev (repeat "0"%char n) = repeat "0"%char n.
Proof.
  induction n as [|n IH]; [done|]. cbn [repeat rev]. rewrite IH. clear. induction n; [done|]. cbn. by f_equal.
Qed.

(** The fraction of a second without its trailing zeros. *)
Definition fraction_text (frac : Z) : list ascii :=
  if frac =? 0 then [] else "."%char :: rev (drop_zeros (rev (pad_digits 9 frac))).

Lemma fraction_text_read frac : 0 <= frac < Second ->
  parse_fraction (fraction_text frac ++ ["Z"%char]) = (frac, ["Z"%char]).
Proof.
  intros R. unfold fraction_text. destruct (frac =? 0) eqn:Z; props; [by subst|].
  destruct (pad_digits_spec 9 frac) as (L & A & V); [lia|exact R|].
  destruct (drop_zeros_spec (rev (pad_digits 9 frac))) as [n E].
  assert (pad_digits 9 frac = rev (drop_zeros (rev (pad_digits 9 frac))) ++ repeat "0"%char n) as P.
  { rewrite <- (rev_involutive (pad_digits 9 frac)) at 1. rewrite E at 1. by rewrite rev_app_distr, rev_zeros. }
  set (ds := rev (drop_zeros (rev (pad_digits 9 frac)))) in *. clearbody ds. clear E.
  rewrite P in L, A, V. rewrite length_app, repeat_length in L. unfold all_digits in A. rewrite forallb_app in A.
  apply andb_true_iff in A as [A _]. rewrite digits_value_read, read_digits_app, read_zeros in V.
  destruct ds as [|d ds]; [cbn in V; lia|]. set (l := d :: ds) in *.
  assert (json_digit d = true) as D by (cbn in A; by apply andb_true_iff in A as [? _]).
  unfold parse_fraction.
  change (one_of ".," (("."%char :: l) ++ ["Z"%char])) with (Some ("."%char, d :: ds ++ ["Z"%char])).
  cbv iota beta. rewrite D. cbv zeta.
  change (d :: ds ++ ["Z"%char]) with (l ++ ["Z"%char]). rewrite skip_digits_app by done.
  unfold consumed. rewrite length_app. cbn [length].
  rewrite Nat.add_sub, take_app_length, take_ge by lia. replace (9 - length l)%nat with n by lia.
  by rewrite digits_value_read, V.
Qed.

Lemma one_of_head c l : one_of (String c EmptyString) (c :: l) = Some (c, l).
Proof. unfold one_of. cbn. by rewrite Ascii.eqb_refl. Qed.

Ltac read_fixed :=
  rewrite fixed_pad by (try lia; cbn; lia); cbn [mbind option_bind]; rewrite ?one_of_head; cbn [mbind option_bind].

Lemma rfc3339_read t text : 0 <= t -> rfc3339 t = Some text -> parse_rfc3339 text = Some t.
Proof.
  intros P. unfold rfc3339. pose proof (days_from_civil_civil (t / Second / 86400)) as C.
  destruct (civil _) as [[y m] d]. destruct C as (C & M & D).
  destruct (_ || _) eqn:Y; [done|]. props. intros E. simplify_eq.
  set (secs := t / Second). assert (0 <= secs) by (apply Z.div_pos; [done|reflexivity]).
  pose proof (Z.mod_pos_bound secs 86400 eq_refl) as SB. set (sod := secs mod 86400) in *.
  assert (days_in y m <= 31) by (unfold days_in; repeat case_match; lia).
  pose proof (Z.div_pos sod 3600). pose proof (Z.div_lt_upper_bound sod 3600 24).
  pose proof (Z.mod_pos_bound (sod / 60) 60 eq_refl). pose proof (Z.mod_pos_bound sod 60 eq_refl).
  pose proof (Z.mod_pos_bound t Second eq_refl) as FB.
  change (if t mod Second =? 0 then [] else "."%char :: rev (drop_zeros (rev (pad_digits 9 (t mod Second)))))
    with (fraction_text (t mod Second)).
  unfold parse_rfc3339. read_fixed. read_fixed. read_fixed. unfold hour_digits. read_fixed. read_fixed. read_fixed.
  rewrite fraction_text_read by done. cbn [parse_zone mbind option_bind negb].
  destruct (_ || _) eqn:Bad; [exfalso; repeat (apply orb_true_iff in Bad as [Bad|Bad]); lia|].
  f_equal. rewrite C. pose proof (Z.div_mod t Second). pose proof (Z.div_mod secs 86400).
  pose proof (Z.div_mod sod 60). pose proof (Z.div_mod (sod / 60) 60).
  assert (sod / 60 / 60 = sod / 3600) by (rewrite Z.div_div by lia; done).
  subst sod secs. lia.
Qed.
