(* ===== verification/JsonReads.v ===== *)
(** * JSON read back

    A decoder reads what [json.Marshal] wrote, for values whose strings hold
    only plain characters: [json_reads] relates an encoding to the tree that
    [parse] makes of it, in any context that may follow a value. *)

From S2P Require Import Prelude GoText Json JsonValid JsonDecode TimeText.
From Stdlib Require Import Ascii.

Open Scope list_scope.
Open Scope Z_scope.

(** ** Plain characters *)

(** A printable ASCII character that JSON writes as it is. *)
Definition plain_char (c : ascii) : bool :=
  let b := byte_val c in (32 <=? b) && (b <? 127) && negb (existsb (Z.eqb b) [34; 92; 60; 62; 38]).

Definition plain (s : string) : bool := forallb plain_char (bytes s).

(** What holds of every character can be checked on all of them. *)
Lemma every_char (P : ascii -> bool) : forallb P (map ascii_of_nat (seq 0 256)) = true -> forall c, P c = true.
Proof.
  intros A c. rewrite forallb_forall in A. apply A. apply in_map_iff. exists (nat_of_ascii c).
  split; [apply ascii_nat_embedding|]. apply in_seq. pose proof (nat_ascii_bounded c). lia.
Qed.

Lemma plain_decode c l : plain_char c = true -> DecodeRune (c :: l) = (byte_val c, 1%nat).
Proof.
  unfold plain_char. intros P. props. unfold DecodeRune. destruct (byte_val c <? 128) eqn:E; [done|]. props. lia.
Qed.

Lemma plain_escape c l : plain_char c = true -> escape_rune (byte_val c) 1 (take 1 (c :: l)) = [c].
Proof.
  intros P. cbn [take].
  assert (forall c, negb (plain_char c) || bool_decide (escape_rune (byte_val c) 1 [c] = [c]) = true) as A
    by (apply every_char; vm_compute; done).
  specialize (A c). rewrite P in A. cbn [negb orb] in A. by props.
Qed.

Lemma plain_escape_from l : forallb plain_char l = true -> escape_from 0 l = l.
Proof.
  induction l as [|c l IH]; [done|]. cbn [forallb]. intros P. apply andb_true_iff in P as [P PL].
  cbn [escape_from]. rewrite plain_decode by done. cbn [fst snd pred]. rewrite plain_escape, IH by done. done.
Qed.

Lemma json_string_plain s : plain s = true -> json_string s = quote :: bytes s ++ [quote].
Proof. intros P. unfold json_string. by rewrite plain_escape_from. Qed.

Lemma plain_encode c : plain_char c = true -> EncodeRune (byte_val c) = [c].
Proof.
  assert (forall c, negb (plain_char c) || bool_decide (EncodeRune (byte_val c) = [c]) = true) as A
    by (apply every_char; vm_compute; done).
  intros P. specialize (A c). rewrite P in A. cbn [negb orb] in A. by props.
Qed.

Lemma plain_body l rest fuel : forallb plain_char l = true -> (length l < fuel)%nat ->
  string_body fuel (l ++ quote :: rest) = Some (l, rest).
Proof.
  revert fuel. induction l as [|c l IH]; intros fuel P F; (destruct fuel as [|fuel]; [cbn in F; lia|]); [done|].
  cbn [forallb] in P. apply andb_true_iff in P as [P PL]. cbn [string_body app].
  assert (((byte_val c =? 34) = false) /\ ((byte_val c <? 32) = false) /\ ((byte_val c =? 92) = false)) as (E1 & E2 & E3).
  { unfold plain_char in P. cbn [existsb] in P. props. split_and!; lia. }
  rewrite E1, E2, E3, plain_decode by done. cbn [fst snd drop]. rewrite plain_encode by done.
  rewrite IH by (try done; cbn in F; lia). done.
Qed.

Lemma plain_parse_string s rest : plain s = true ->
  parse_string (bytes s ++ quote :: rest) = Some (bytes s, s, rest).
Proof.
  intros P. unfold parse_string. rewrite plain_body; [|done|rewrite length_app; cbn; lia].
  rewrite length_app. cbn [length]. rewrite of_bytes_bytes.
  replace (length (bytes s) + S (length rest) - length rest - 1)%nat with (length (bytes s)) by lia.
  by rewrite take_app_length.
Qed.

(** ** Values *)

(** What may follow a value in a document that [json.Marshal] wrote. *)
Definition ends (rest : list ascii) : Prop :=
  match rest with [] => True | c :: _ => existsb (Ascii.eqb c) (bytes ",]}") = true end.

(** [l] is read as the value [v] and nests [n] deep. *)
Definition reads (n : Z) (l : list ascii) (v : jval) : Prop :=
  forall fuel depth rest, (2 * length l < fuel)%nat -> depth + n <= max_nesting -> ends rest ->
  parse fuel MValue depth (l ++ rest) = Some (PValue v, rest).

Lemma parse_value fuel depth c rest : json_space c = false ->
  parse (S fuel) MValue depth (c :: rest) =
  let b := byte_val c in
  let word w v := (fun rest => (PValue v, rest)) <$> literal w rest in
  if b =? 123 then
    if max_nesting <? depth + 1 then None
    else match skip_space rest with
         | c' :: rest' =>
             if byte_val c' =? 125 then Some (PValue (VObject []), rest')
             else match parse fuel MMembers (depth + 1) (c' :: rest') with
                  | Some (PMembers fs, rest) => Some (PValue (VObject fs), rest)
                  | _ => None
                  end
         | [] => None
         end
  else if b =? 91 then
    if max_nesting <? depth + 1 then None
    else match skip_space rest with
         | c' :: rest' =>
             if byte_val c' =? 93 then Some (PValue (VArray []), rest')
             else match parse fuel MElements (depth + 1) (c' :: rest') with
                  | Some (PElements vs, rest) => Some (PValue (VArray vs), rest)
                  | _ => None
                  end
         | [] => None
         end
  else if b =? 34 then
    match parse_string rest with
    | Some (raw, s, rest) => Some (PValue (VString raw s), rest)
    | None => None
    end
  else if b =? 45 then
    (fun rest' => (PValue (VNumber (c :: consumed rest rest')), rest')) <$> number rest
  else if json_digit c then
    (fun rest' => (PValue (VNumber (consumed (c :: rest) rest')), rest')) <$> number (c :: rest)
  else if b =? 116 then word "rue"%string (VBool true)
  else if b =? 102 then word "alse"%string (VBool false)
  else if b =? 110 then word "ull"%string VNull
  else None.
Proof. intros S. cbn [parse skip_space]. by rewrite S. Qed.

Lemma string_reads s : plain s = true -> reads 0 (json_string s) (VString (bytes s) s).
Proof.
  intros P fuel depth rest F _ _. rewrite json_string_plain by done.
  destruct fuel as [|fuel]; [lia|]. cbn [app]. rewrite <- (assoc app). cbn [app].
  rewrite parse_value by done. cbv zeta. replace (byte_val quote) with 34 by done. cbn [Z.eqb Pos.eqb].
  by rewrite plain_parse_string.
Qed.

Lemma ends_not_digit rest : ends rest -> match rest with c :: _ => json_digit c = false | [] => True end.
Proof.
  destruct rest as [|c rest]; [done|]. unfold ends. cbn. rewrite orb_false_r. intros E.
  repeat (apply orb_true_iff in E as [E|E]); apply Ascii.eqb_eq in E as ->; done.
Qed.

Lemma ends_fraction rest : ends rest -> fraction rest ≫= exponent = Some rest.
Proof.
  destruct rest as [|c rest]; [done|]. unfold ends. cbn. rewrite orb_false_r. intros E.
  repeat (apply orb_true_iff in E as [E|E]); apply Ascii.eqb_eq in E as ->; done.
Qed.

(** The digits of a number without leading zeros. *)
Definition numeral (l : list ascii) : Prop :=
  all_digits l = true /\ match l with [] => False | [_] => True | c :: _ => byte_val c <> 48 end.

Lemma number_numeral l rest : numeral l -> ends rest -> number (l ++ rest) = Some rest.
Proof.
  intros [A N] E. destruct l as [|c l]; [done|]. cbn [all_digits forallb] in A. apply andb_true_iff in A as [D A].
  cbn [app number]. destruct (byte_val c =? 48) eqn:Z; props.
  - destruct l; [|done]. cbn. by apply ends_fraction.
  - rewrite D, skip_digits_app; [by apply ends_fraction|done|by apply ends_not_digit].
Qed.

Lemma consumed_app l rest : consumed (l ++ rest) rest = l.
Proof. unfold consumed. rewrite length_app, Nat.add_sub. apply take_app_length. Qed.

Lemma numeral_reads l : numeral l -> reads 0 l (VNumber l).
Proof.
  intros N fuel depth rest F _ E. destruct fuel as [|fuel]; [lia|].
  destruct l as [|c l]; [by destruct N|]. cbn [app].
  assert (json_digit c = true) as D by (destruct N as [A _]; cbn in A; by apply andb_true_iff in A as [? _]).
  assert (forall c, negb (json_digit c) || (negb (json_space c) && negb (byte_val c =? 123) && negb (byte_val c =? 91)
            && negb (byte_val c =? 34) && negb (byte_val c =? 45)) = true) as A by (apply every_char; vm_compute; done).
  specialize (A c). rewrite D in A. cbn [negb orb] in A. apply andb_true_iff in A as [A E4]. props.
  rewrite parse_value by done. cbv zeta.
  repeat match goal with H : byte_val c <> ?n |- _ => apply Z.eqb_neq in H; rewrite H; clear H end.
  rewrite D. change (c :: l ++ rest) with ((c :: l) ++ rest). rewrite number_numeral by done. cbn [fmap option_fmap option_map].
  by rewrite consumed_app.
Qed.

Lemma itoa_numeral n : 0 <= n < two64 -> numeral (bytes (itoa n)).
Proof.
  intros R. destruct (itoa_spec n R) as (A & _ & NE & H). split; [done|]. destruct (bytes _) as [|c [|d l]]; done.
Qed.

Lemma itoa_ParseUint n : 0 <= n < two64 -> ParseUint (bytes (itoa n)) = Some n.
Proof.
  intros R. destruct (itoa_spec n R) as (A & V & NE & _). unfold ParseUint. unfold all_digits in A. rewrite A, V.
  destruct (bytes (itoa n)); [done|]. cbn [negb andb]. destruct (n <? two64) eqn:E; [done|]. props. lia.
Qed.

(** ** Objects and arrays *)

Definition member_text (m : string * list ascii) : list ascii := json_string (fst m) ++ ":"%char :: snd m.

(** The member [m] of an object is read as the member [f]. *)
Definition member_reads (n : Z) (m : string * list ascii) (f : string * jval) : Prop :=
  fst m = fst f /\ plain (fst f) = true /\ reads n (snd m) (snd f).

Lemma parse_member fuel depth k b v rest n :
  plain k = true -> reads n b v -> (2 * length b < fuel)%nat -> depth + n <= max_nesting -> ends rest -> rest <> [] ->
  parse (S fuel) MMembers depth (member_text (k, b) ++ rest) =
  match rest with
  | c :: rest =>
      if byte_val c =? 44 then
        match parse fuel MMembers depth rest with
        | Some (PMembers fs, rest) => Some (PMembers ((k, v) :: fs), rest)
        | _ => None
        end
      else if byte_val c =? 125 then Some (PMembers [(k, v)], rest) else None
  | [] => None
  end.
Proof.
  intros P R F D E NE. unfold member_text. cbn [fst snd]. rewrite json_string_plain by done.
  rewrite <- app_comm_cons. cbn [app parse skip_space]. replace (json_space quote) with false by done.
  replace (byte_val quote =? 34) with true by done. cbn [negb].
  rewrite <- !(assoc app). cbn [app]. rewrite plain_parse_string by done. cbn [skip_space].
  replace (json_space ":") with false by done. replace (byte_val ":" =? 58) with true by done. cbn [negb].
  rewrite R by done. destruct rest as [|c rest]; [done|]. cbn [skip_space].
  unfold ends in E. cbn in E. rewrite orb_false_r in E.
  repeat (apply orb_true_iff in E as [E|E]); apply Ascii.eqb_eq in E as ->; done.
Qed.

Lemma members_read n ms fs : Forall2 (member_reads n) ms fs -> ms <> [] ->
  forall fuel depth rest, (2 * length (join_comma (map member_text ms)) < fuel)%nat -> depth + n <= max_nesting ->
  parse fuel MMembers depth (join_comma (map member_text ms) ++ "}"%char :: rest) = Some (PMembers fs, rest).
Proof.
  induction 1 as [|[k b] [k' v] ms fs (E & P & R) H IH]; [done|]. cbn in E, P, R. subst k'. intros _ fuel depth rest F D.
  assert (2 * length b + 2 < 2 * length (member_text (k, b)))%nat as LB
    by (unfold member_text, json_string; rewrite length_app; cbn; lia).
  destruct fuel as [|fuel]; [lia|]. destruct ms as [|m ms].
  - apply Forall2_nil_inv_l in H as ->. cbn [map join_comma] in *.
    by rewrite (parse_member _ _ _ _ v _ n) by (try done; lia).
  - change (join_comma (map member_text ((k, b) :: m :: ms)))
      with (member_text (k, b) ++ ","%char :: join_comma (map member_text (m :: ms))) in *.
    rewrite length_app in F. cbn [length] in F. rewrite <- (assoc app), <- app_comm_cons.
    rewrite (parse_member _ _ _ _ v _ n) by (try done; lia).
    change (byte_val "," =? 44) with true. cbv iota. by rewrite IH by (try done; lia).
Qed.

Lemma object_bytes_text ms : object_bytes ms = "{"%char :: join_comma (map member_text ms) ++ ["}"%char].
Proof. done. Qed.

Lemma join_members_head ms : ms <> [] -> exists l, join_comma (map member_text ms) = quote :: l.
Proof. destruct ms as [|m [|m' ms]]; [done| |]; intros _; eexists; reflexivity. Qed.

Lemma object_reads n ms fs : 0 <= n -> Forall2 (member_reads n) ms fs -> reads (n + 1) (object_bytes ms) (VObject fs).
Proof.
  intros N H fuel depth rest F D _. rewrite object_bytes_text in *. destruct fuel as [|fuel]; [lia|].
  cbn [app length] in *. rewrite length_app in F. cbn [length] in F. rewrite <- (assoc app). cbn [app].
  rewrite parse_value by done. cbv zeta. change (byte_val "{") with 123. cbn [Z.eqb Pos.eqb].
  destruct (max_nesting <? depth + 1) eqn:M; [props; lia|].
  destruct (decide (ms = [])) as [->|NE]; [by apply Forall2_nil_inv_l in H as ->|].
  destruct (join_members_head ms NE) as [l E]. rewrite E. cbn [app skip_space]. change (json_space quote) with false.
  cbv iota. change (byte_val quote =? 125) with false. cbv iota.
  change (quote :: l ++ "}"%char :: rest) with ((quote :: l) ++ "}"%char :: rest). rewrite <- E.
  by rewrite (members_read n ms fs) by (try done; lia).
Qed.

Lemma elements_read n ls vs : Forall2 (reads n) ls vs -> ls <> [] ->
  forall fuel depth rest, (2 * length (join_comma ls) + 1 < fuel)%nat -> depth + n <= max_nesting ->
  parse fuel MElements depth (join_comma ls ++ "]"%char :: rest) = Some (PElements vs, rest).
Proof.
  induction 1 as [|l v ls vs R H IH]; [done|]. intros _ fuel depth rest F D.
  destruct fuel as [|fuel]; [lia|]. destruct ls as [|l' ls].
  - apply Forall2_nil_inv_l in H as ->. cbn [join_comma] in *. cbn [parse]. by rewrite R by (try done; lia).
  - change (join_comma (l :: l' :: ls)) with (l ++ ","%char :: join_comma (l' :: ls)) in *.
    rewrite length_app in F. cbn [length] in F. rewrite <- (assoc app), <- app_comm_cons. cbn [parse].
    rewrite R by (try done; lia). cbn [skip_space]. change (json_space ",") with false. cbv iota.
    change (byte_val "," =? 44) with true. cbv iota. by rewrite IH by (try done; lia).
Qed.

(** A value does not begin with a space or a closing bracket. *)
Definition value_head (l : list ascii) : Prop :=
  match l with c :: _ => json_space c = false /\ (byte_val c =? 93) = false | [] => False end.

Lemma array_reads n ls vs : 0 <= n -> ls <> [] -> Forall value_head ls -> Forall2 (reads n) ls vs ->
  reads (n + 1) (array_bytes ls) (VArray vs).
Proof.
  intros N NE VH H fuel depth rest F D _. destruct ls as [|l0 ls]; [done|]. cbn [array_bytes] in *.
  destruct fuel as [|fuel]; [lia|]. cbn [app length] in *. rewrite length_app in F. cbn [length] in F.
  rewrite <- (assoc app). cbn [app]. rewrite parse_value by done. cbv zeta. change (byte_val "[") with 91.
  cbn [Z.eqb Pos.eqb]. destruct (max_nesting <? depth + 1) eqn:M; [props; lia|].
  apply Forall_cons in VH as [VH _]. assert (exists c l, join_comma (l0 :: ls) = c :: l /\ json_space c = false /\ (byte_val c =? 93) = false)
    as (c & l & E & S & B).
  { destruct l0 as [|c l0]; [done|]. destruct VH. destruct ls; eexists c, _; (split; [reflexivity|done]). }
  rewrite E. cbn [app skip_space]. rewrite S, B.
  change (c :: l ++ "]"%char :: rest) with ((c :: l) ++ "]"%char :: rest). rewrite <- E.
  by rewrite (elements_read n (l0 :: ls) vs) by (try done; lia).
Qed.

(** ** [json] *)

Fixpoint jval_of (j : json) : jval :=
  match j with
  | JString s => VString (bytes s) s
  | JNumber z => VNumber (bytes (itoa z))
  | JBool b => VBool b
  | JTime t => match rfc3339 t with Some text => VString text (of_bytes text) | None => VNull end
  | JObject fields => VObject (map (fun f => (fst f, jval_of (snd f))) fields)
  end.

Fixpoint plain_json (j : json) : bool :=
  match j with
  | JString s => plain s
  | JNumber z => (0 <=? z) && (z <? two64)
  | JBool _ => true
  | JTime t => 0 <=? t
  | JObject fields => forallb (fun f => plain (fst f) && plain_json (snd f)) fields
  end.

Fixpoint nesting (j : json) : Z :=
  match j with
  | JObject fields => 1 + fold_right (fun f n => Z.max (nesting (snd f)) n) 0 fields
  | _ => 0
  end.

(** ** The text of a time *)

Lemma plain_digits l : all_digits l = true -> forallb plain_char l = true.
Proof.
  intros A. apply forallb_forall. intros c I.
  assert (forall c, negb (json_digit c) || plain_char c = true) as X by (apply every_char; vm_compute; done).
  specialize (X c). unfold all_digits in A. rewrite forallb_forall in A. by rewrite (A c I) in X.
Qed.

Lemma rfc3339_plain t text : 0 <= t -> rfc3339 t = Some text -> forallb plain_char text = true.
Proof.
  intros P. unfold rfc3339. pose proof (days_from_civil_civil (t / Second / 86400)) as C.
  destruct (civil _) as [[y m] d]. destruct C as (_ & M & D). destruct (_ || _) eqn:Y; [done|]. props.
  intros E. simplify_eq. pose proof (Z.mod_pos_bound (t / Second) 86400 eq_refl) as SB.
  set (sod := (t / Second) mod 86400) in *.
  assert (days_in y m <= 31) by (unfold days_in; repeat case_match; lia).
  pose proof (Z.div_pos sod 3600). pose proof (Z.div_lt_upper_bound sod 3600 24).
  pose proof (Z.mod_pos_bound (sod / 60) 60 eq_refl). pose proof (Z.mod_pos_bound sod 60 eq_refl).
  pose proof (Z.mod_pos_bound t Second eq_refl) as FB.
  assert (forall n z, (0 < n <= 21)%nat -> 0 <= z < 10 ^ Z.of_nat n -> forallb plain_char (pad_digits n z) = true) as PD
    by (intros n z B R; apply plain_digits; by destruct (pad_digits_spec n z B R) as (_ & ? & _)).
  assert (forallb plain_char (if t mod Second =? 0 then [] else "."%char :: rev (drop_zeros (rev (pad_digits 9 (t mod Second))))) = true) as FT.
  { destruct (t mod Second =? 0); [done|]. cbn. specialize (PD 9%nat (t mod Second) ltac:(lia) FB).
    apply forallb_forall. intros c I. apply in_rev in I. rewrite forallb_forall in PD. apply PD, in_rev.
    destruct (drop_zeros_spec (rev (pad_digits 9 (t mod Second)))) as [n ->]. apply in_or_app. by right. }
  repeat first [progress rewrite forallb_app | progress cbn [forallb app]].
  rewrite FT, !PD by (try lia; cbn; lia). done.
Qed.

Lemma time_reads t text : 0 <= t -> rfc3339 t = Some text -> reads 0 (quote :: text ++ [quote]) (VString text (of_bytes text)).
Proof.
  intros P E. pose proof (rfc3339_plain t text P E) as PL.
  assert (plain (of_bytes text) = true) as PS by (unfold plain; by rewrite bytes_of_bytes).
  pose proof (string_reads (of_bytes text) PS) as R. rewrite json_string_plain, bytes_of_bytes in R by done. done.
Qed.

(** ** Every value *)

Lemma reads_mono n m l v : n <= m -> reads n l v -> reads m l v.
Proof. intros L R fuel depth rest F D E. apply R; [done|lia|done]. Qed.

Section JsonInd.
Context (P : json -> Prop) (HS : forall s, P (JString s)) (HN : forall z, P (JNumber z)) (HB : forall b, P (JBool b))
        (HT : forall t, P (JTime t)) (HO : forall fs, Forall (fun f => P (snd f)) fs -> P (JObject fs)).

Fixpoint json_ind' (j : json) : P j :=
  match j with
  | JString s => HS s | JNumber z => HN z | JBool b => HB b | JTime t => HT t
  | JObject fs => HO fs ((fix go fs := match fs return Forall (fun f => P (snd f)) fs with
                                       | [] => Forall_nil_2 _
                                       | f :: fs => Forall_cons_2 _ f fs (json_ind' (snd f)) (go fs)
                                       end) fs)
  end.
End JsonInd.

(** The encoded members of an object. *)
Definition encode_fields (fs : list (string * json)) : option (list (string * list ascii)) :=
  mapM (fun f => (fun b => (fst f, b)) <$> json_bytes (snd f)) fs.

Lemma json_bytes_object fs : json_bytes (JObject fs) = object_bytes <$> encode_fields fs.
Proof.
  cbn [json_bytes]. set (go := fix go (fs : list (string * json)) : option (list (list ascii)) := _).
  assert (go fs = map member_text <$> encode_fields fs) as ->.
  { induction fs as [|[k v] fs IH]; [done|]. unfold encode_fields in *. cbn [mapM fst snd]. cbn [go]. rewrite IH.
    destruct (json_bytes v); [|done]. cbn. by destruct (mapM _ fs). }
  by destruct (encode_fields fs).
Qed.

Lemma nesting_member (f : string * json) fs :
  In f fs -> nesting (snd f) <= fold_right (fun (f : string * json) n => Z.max (nesting (snd f)) n) 0 fs.
Proof. induction fs as [|g fs IH]; [done|]. cbn. intros [->|I]; [lia|]. specialize (IH I). lia. Qed.

(** What [json.Marshal] writes is read back as the tree it stands for. *)
Lemma json_reads j b : plain_json j = true -> json_bytes j = Some b -> reads (nesting j) b (jval_of j).
Proof.
  revert b. induction j as [s|z|x|t|fs IH] using json_ind'; intros b P E.
  - injection E as <-. by apply string_reads.
  - injection E as <-. cbn in P. props. apply numeral_reads, itoa_numeral. lia.
  - assert (b = bytes (if x then "true" else "false")%string) as -> by (destruct x; by injection E as <-).
    intros fuel depth rest F _ _. destruct fuel; [lia|]. by destruct x.
  - cbn [json_bytes] in E. cbn [plain_json] in P. props. destruct (rfc3339 t) as [text|] eqn:R; [|done]. injection E as <-. cbn [jval_of]. rewrite R.
    by apply (time_reads t).
  - rewrite json_bytes_object in E. destruct (encode_fields fs) as [ms|] eqn:EF; [|done]. injection E as <-.
    cbn [nesting jval_of]. rewrite Z.add_comm. set (n := fold_right (fun (f : string * json) n => Z.max (nesting (snd f)) n) 0 fs).
    assert (0 <= n) by (subst n; clear; induction fs; cbn; lia).
    apply object_reads; [done|]. apply mapM_Some in EF.
    assert (forall f, In f fs -> nesting (snd f) <= n) as LE by (intros f I; by apply nesting_member).
    clearbody n. cbn [plain_json] in P. induction EF as [|f m fs ms Ef EF IHf]; [constructor|].
    cbn [forallb] in P. apply andb_true_iff in P as [P PF]. apply andb_true_iff in P as [P1 P2].
    apply Forall_cons in IH as [IH IHs]. cbn [map]. constructor; [|apply IHf; try done; intros g I; apply LE; by right].
    destruct (json_bytes (snd f)) as [bb|] eqn:B; [|done]. cbn in Ef. injection Ef as <-.
    unfold member_reads. cbn [fst snd]. split_and!; [done|done|]. eapply reads_mono; [|by apply IH]. apply LE. by left.
Qed.

Lemma of_bytes_length l : String.length (of_bytes l) = length l.
Proof. induction l as [|c l IH]; [done|]. cbn. by rewrite <- IH. Qed.

Lemma reads_document l v : reads max_nesting l v -> parse_document (of_bytes l) = Some v.
Proof.
  intros R. unfold parse_document. rewrite bytes_of_bytes, of_bytes_length.
  replace (parse _ MValue 0 l) with (parse (2 * length l + 2) MValue 0 (l ++ [])) by (by rewrite app_nil_r).
  by rewrite R by (try done; lia).
Qed.

(** ** Text that decodes to ASCII *)

Definition plain_rune (r : Z) : bool := (32 <=? r) && (r <? 127) && negb (existsb (Z.eqb r) [34; 92; 60; 62; 38]).

Lemma ascii_rune c l : fst (DecodeRune (c :: l)) < 128 -> DecodeRune (c :: l) = (byte_val c, 1%nat).
Proof.
  unfold DecodeRune, RuneError, is_cont.
  repeat match goal with |- context [match ?x with _ => _ end] => destruct x eqn:?; cbn [fst]; try (intros; done) end;
    props; try lia; intros L; exfalso;
    repeat match goal with H : (if ?b then _ else _) <= _ |- _ => destruct b eqn:?; props end; lia.
Qed.

(** Runes of ASCII come from one byte each. *)
Lemma ascii_bytes (P : Z -> bool) l : (forall r, P r = true -> r < 128) ->
  forallb P (map fst (decode_from 0 l)) = true -> forallb (fun c => P (byte_val c)) l = true.
Proof.
  intros A. induction l as [|c l IH]; [done|]. cbn [decode_from map forallb]. intros F. apply andb_true_iff in F as [F FL].
  assert (DecodeRune (c :: l) = (byte_val c, 1%nat)) as E by (apply ascii_rune; by apply A).
  rewrite E in F, FL. cbn [fst snd pred] in F, FL. by rewrite F, IH.
Qed.

Lemma ascii_plain (P : Z -> bool) s : (forall r, P r = true -> plain_rune r = true) ->
  forallb P (runes s) = true -> plain s = true.
Proof.
  intros A F. unfold runes, decoded in F. apply ascii_bytes in F.
  - unfold plain. apply forallb_forall. intros c I. rewrite forallb_forall in F. by apply A, F.
  - intros r R. apply A in R. unfold plain_rune in R. props. lia.
Qed.

(** ** Bytes as base64 text *)

Definition byte_range (l : list Z) : bool := forallb (fun z => (0 <=? z) && (z <? 256)) l.

Lemma base64_digit_ok n : 0 <= n < 64 ->
  base64_value (base64_digit n) = Some n /\ base64_pad (base64_digit n) = false /\ plain_char (base64_digit n) = true
  /\ negb ((byte_val (base64_digit n) =? 10) || (byte_val (base64_digit n) =? 13)) = true.
Proof.
  intros R.
  assert (check_range (fun n => bool_decide (base64_value (base64_digit n) = Some n) && negb (base64_pad (base64_digit n))
            && plain_char (base64_digit n)
            && negb ((byte_val (base64_digit n) =? 10) || (byte_val (base64_digit n) =? 13))) 64 0 = true) as C
    by (vm_cast_no_check (eq_refl true)).
  eapply (check_range_ok _ _ _ n) in C; [|lia]. do 3 (apply andb_true_iff in C as [C ?]).
  apply bool_decide_eq_true in C. split_and!; try done. by apply negb_true_iff.
Qed.

Lemma base64_groups_bytes l : byte_range l = true ->
  base64_groups (base64_bytes l) = Some l /\ forallb plain_char (base64_bytes l) = true
  /\ List.filter (fun c => negb ((byte_val c =? 10) || (byte_val c =? 13))) (base64_bytes l) = base64_bytes l.
Proof.
  assert (forall n l, (length l < n)%nat -> byte_range l = true ->
    base64_groups (base64_bytes l) = Some l /\ forallb plain_char (base64_bytes l) = true
    /\ List.filter (fun c => negb ((byte_val c =? 10) || (byte_val c =? 13))) (base64_bytes l) = base64_bytes l) as X.
  { induction n as [|n IH]; intros k L R; [lia|]. destruct k as [|x [|y [|z k]]]; [done|..]; cbn in R; props.
    - destruct (base64_digit_ok (x / 4)) as (E1 & _ & P1 & F1); [Z.to_euclidean_division_equations; lia|].
      destruct (base64_digit_ok ((x mod 4) * 16)) as (E2 & _ & P2 & F2); [Z.to_euclidean_division_equations; lia|].
      cbn [base64_bytes base64_groups forallb List.filter]. rewrite E1, E2, P1, P2, F1, F2. split_and!; try done. cbn.
      repeat f_equal. Z.to_euclidean_division_equations; lia.
    - destruct (base64_digit_ok (x / 4)) as (E1 & _ & P1 & F1); [Z.to_euclidean_division_equations; lia|].
      destruct (base64_digit_ok ((x mod 4) * 16 + y / 16)) as (E2 & _ & P2 & F2); [Z.to_euclidean_division_equations; lia|].
      destruct (base64_digit_ok ((y mod 16) * 4)) as (E3 & _ & P3 & F3); [Z.to_euclidean_division_equations; lia|].
      cbn [base64_bytes base64_groups forallb List.filter]. rewrite E1, E2, E3, P1, P2, P3, F1, F2, F3. split_and!; try done. cbn.
      repeat f_equal; Z.to_euclidean_division_equations; lia.
    - destruct (base64_digit_ok (x / 4)) as (E1 & _ & P1 & F1); [Z.to_euclidean_division_equations; lia|].
      destruct (base64_digit_ok ((x mod 4) * 16 + y / 16)) as (E2 & _ & P2 & F2); [Z.to_euclidean_division_equations; lia|].
      destruct (base64_digit_ok ((y mod 16) * 4 + z / 64)) as (E3 & _ & P3 & F3); [Z.to_euclidean_division_equations; lia|].
      destruct (base64_digit_ok (z mod 64)) as (E4 & N4 & P4 & F4); [Z.to_euclidean_division_equations; lia|].
      cbn [length] in L. destruct (IH k) as (G & PK & FK); [lia|by unfold byte_range|].
      cbn [base64_bytes base64_groups forallb List.filter].
      rewrite E1, E2, E3, E4, N4, P1, P2, P3, P4, F1, F2, F3, F4, G, PK, FK. split_and!; try done.
      repeat f_equal; Z.to_euclidean_division_equations; lia. }
  apply (X (S (length l))). lia.
Qed.

Lemma base64_round l : byte_range l = true -> base64_decode (base64_encode l) = Some l /\ plain (base64_encode l) = true.
Proof.
  intros R. destruct (base64_groups_bytes l R) as (G & P & F). unfold base64_decode, base64_encode, plain.
  by rewrite bytes_of_bytes, F.
Qed.
