(* ===== verification/AuditEvent.v ===== *)
(** * Audit events (internal/audit/event.go, outbox.go)

    The metadata that an audit record may carry, its hash, checkpoints, the
    routing of a record to its destinations, and the validation of a commit.
    Times are in UTC. *)

From S2P Require Import Prelude GoText Sha256 Json.
From Stdlib Require Import Ascii.

Open Scope string_scope.
Open Scope list_scope.
Open Scope Z_scope.
Open Scope go_scope.

Definition EventClass : Type := string.
Definition EventClassCritical : EventClass := "critical".
Definition EventClassNormal : EventClass := "normal".

Definition Outcome : Type := string.
Definition OutcomeSuccess : Outcome := "success".
Definition OutcomeFailure : Outcome := "failure".
Definition OutcomeDenied : Outcome := "denied".
Definition OutcomeStarted : Outcome := "started".

Definition OutboxTarget : Type := string.
Definition OutboxTargetPostgres : OutboxTarget := "postgres".
Definition OutboxTargetWORM : OutboxTarget := "worm".
Definition OutboxTargetSIEM : OutboxTarget := "siem".

(** The errors of the package; [ErrContext] is the error of a context and
    [ErrOther] one that an implementation of an interface reports. *)
#[warnings="-register-all"]
Inductive error :=
| ErrInvalidEvent | ErrInvalidRecord | ErrCorruptChain | ErrReplayConflict | ErrSequenceConflict | ErrCheckpointInvalid
| ErrSignerUnavailable | ErrNoDurableChannel | ErrUnavailable | ErrQueueFull | ErrClosed | ErrSpoolCorrupt
| ErrOutboxConflict | ErrOutboxInvalid
| ErrContext (text : string) | ErrOther (text : string).

#[global] Instance audit_error_eq_dec : EqDecision error.
Proof. solve_decision. Defined.

(** ** Data *)

Record Event := {
  ae_EventID : string; ae_StreamID : string; ae_TenantID : string; ae_Actor : string; ae_Type : string;
  ae_Action : string; ae_Resource : string; ae_Outcome : Outcome; ae_CorrelationID : string; ae_SessionID : string;
  ae_LeaseID : string; ae_ConfirmationID : string; ae_Reason : string; ae_EvidenceDigest : string;
  ae_PolicyEpoch : Z; ae_Class : EventClass; ae_At : Time }.

(** [Record] of the code. *)
Record AuditRecord := { ar_Sequence : Z; ar_Event : Event; ar_PreviousHash : string; ar_Hash : string }.

Record Checkpoint := {
  cp_StreamID : string; cp_Sequence : Z; cp_Hash : string; cp_KeyID : string; cp_Signature : list Z; cp_At : Time }.

Record Delivery := {
  dl_DeliveryID : string; dl_Target : OutboxTarget; dl_StreamID : string; dl_Sequence : Z; dl_EventID : string;
  dl_RecordHash : string; dl_CreatedAt : Time; dl_DeliveredAt : Time }.

(** [Record{}]: the head of an empty stream. *)
Definition zero_event : Event :=
  {| ae_EventID := ""; ae_StreamID := ""; ae_TenantID := ""; ae_Actor := ""; ae_Type := ""; ae_Action := "";
     ae_Resource := ""; ae_Outcome := ""; ae_CorrelationID := ""; ae_SessionID := ""; ae_LeaseID := "";
     ae_ConfirmationID := ""; ae_Reason := ""; ae_EvidenceDigest := ""; ae_PolicyEpoch := 0; ae_Class := "";
     ae_At := 0 |}.

Definition zero_record : AuditRecord :=
  {| ar_Sequence := 0; ar_Event := zero_event; ar_PreviousHash := ""; ar_Hash := "" |}.

Record Commit := { ac_Record : AuditRecord; ac_Checkpoint : option Checkpoint; ac_Outbox : list Delivery }.

#[global] Instance AuditEvent_eq_dec : EqDecision Event.
Proof. solve_decision. Defined.
#[global] Instance AuditRecord_eq_dec : EqDecision AuditRecord.
Proof. solve_decision. Defined.
#[global] Instance Checkpoint_eq_dec : EqDecision Checkpoint.
Proof. solve_decision. Defined.
#[global] Instance Delivery_eq_dec : EqDecision Delivery.
Proof. solve_decision. Defined.
#[global] Instance Commit_eq_dec : EqDecision Commit.
Proof. solve_decision. Defined.

(** ** Validation *)

Definition id_rune (c : Z) : bool :=
  ((97 <=? c) && (c <=? 122)) || ((65 <=? c) && (c <=? 90)) || ((48 <=? c) && (c <=? 57))
  || existsb (fun b => c =? byte_val b) (bytes "._-:@/").

Definition validID (v : string) (optional : bool) : bool :=
  return optional when String.eqb v "" ;;
  return false when 256 <? len v ;;
  forallb id_rune (runes v) && negb (Contains v "://").

Definition isDigest (v : string) : bool :=
  return false when negb (len v =? 64) || negb (String.eqb v (ToLower v)) ;;
  hex_decodable v.

Definition Year (t : Time) : Z := fst (fst (civil (t / Second / 86400))).

Definition validateEvent (e : Event) : option error :=
  return Some ErrInvalidEvent when
    negb (forallb (fun v => validID v false)
      [ae_EventID e; ae_StreamID e; ae_TenantID e; ae_Actor e; ae_Type e; ae_Action e; ae_Resource e]) ;;
  return Some ErrInvalidEvent when
    negb (forallb (fun v => validID v true)
      [ae_CorrelationID e; ae_SessionID e; ae_LeaseID e; ae_ConfirmationID e; ae_Reason e]) ;;
  return Some ErrInvalidEvent when
    negb (String.eqb (ae_Class e) EventClassCritical) && negb (String.eqb (ae_Class e) EventClassNormal) ;;
  return Some ErrInvalidEvent when
    negb (existsb (String.eqb (ae_Outcome e)) [OutcomeSuccess; OutcomeFailure; OutcomeDenied; OutcomeStarted]) ;;
  return Some ErrInvalidEvent when
    IsZero (ae_At e) || (Year (ae_At e) <? 1) || (9999 <? Year (ae_At e)) || (ae_PolicyEpoch e =? 0) ;;
  return Some ErrInvalidEvent when negb (String.eqb (ae_EvidenceDigest e) "") && negb (isDigest (ae_EvidenceDigest e)) ;;
  None.

Definition eventEqual (a b : Event) : bool := bool_decide (a = b).

(** ** Hashes *)

Definition event_json (e : Event) : json :=
  JObject ([("event_id", JString (ae_EventID e)); ("stream_id", JString (ae_StreamID e));
            ("tenant_id", JString (ae_TenantID e)); ("actor", JString (ae_Actor e)); ("type", JString (ae_Type e));
            ("action", JString (ae_Action e)); ("resource", JString (ae_Resource e)); ("outcome", JString (ae_Outcome e))]
           ++ omit_empty "correlation_id" (ae_CorrelationID e) ++ omit_empty "session_id" (ae_SessionID e)
           ++ omit_empty "lease_id" (ae_LeaseID e) ++ omit_empty "confirmation_id" (ae_ConfirmationID e)
           ++ omit_empty "reason" (ae_Reason e) ++ omit_empty "evidence_digest" (ae_EvidenceDigest e)
           ++ [("policy_epoch", JNumber (ae_PolicyEpoch e)); ("class", JString (ae_Class e)); ("at", JTime (ae_At e))]).

Definition hashBytes (b : string) : string := hex_sum b.

Definition hashRecord (r : AuditRecord) : string :=
  hashBytes (Marshal (JObject [("domain", JString "cheesewaf.audit.record.v1"); ("sequence", JNumber (ar_Sequence r));
                               ("event", event_json (ar_Event r)); ("previous_hash", JString (ar_PreviousHash r))])).

Definition validateRecord (r : AuditRecord) : option error :=
  return Some ErrInvalidRecord when (ar_Sequence r =? 0) || negb (isDigest (ar_Hash r))
    || match validateEvent (ar_Event r) with Some _ => true | None => false end ;;
  return Some ErrInvalidRecord when ((ar_Sequence r =? 1) && negb (String.eqb (ar_PreviousHash r) ""))
    || ((1 <? ar_Sequence r) && negb (isDigest (ar_PreviousHash r))) ;;
  return Some ErrInvalidRecord when negb (String.eqb (hashRecord r) (ar_Hash r)) ;;
  None.

(** ** Checkpoints *)

Definition checkpointMessage (cp : Checkpoint) : string :=
  Marshal (JObject [("domain", JString "cheesewaf.audit.checkpoint.v1"); ("stream_id", JString (cp_StreamID cp));
                    ("sequence", JNumber (cp_Sequence cp)); ("hash", JString (cp_Hash cp));
                    ("key_id", JString (cp_KeyID cp)); ("at", JTime (cp_At cp))]).

Definition SignatureSize : Z := 64.
Definition PublicKeySize : Z := 32.

Definition checkpointShape (r : AuditRecord) (cp : Checkpoint) : option error :=
  return Some ErrCheckpointInvalid when negb (String.eqb (cp_StreamID cp) (ae_StreamID (ar_Event r)))
    || negb (cp_Sequence cp =? ar_Sequence r) || negb (String.eqb (cp_Hash cp) (ar_Hash r))
    || negb (validID (cp_KeyID cp) false) || negb (Z.of_nat (length (cp_Signature cp)) =? SignatureSize)
    || IsZero (cp_At cp) ;;
  None.

Section Verification.
(** [ed25519.Verify] of a public key, a message and a signature. *)
Context (ed25519_Verify : list Z -> string -> list Z -> bool).

Definition VerifyCheckpoint (stream : string) (r : AuditRecord) (cp : Checkpoint) (keys : gmap string (list Z)) : option error :=
  return Some ErrCheckpointInvalid when match validateRecord r with Some _ => true | None => false end
    || negb (String.eqb (ae_StreamID (ar_Event r)) stream)
    || match checkpointShape r cp with Some _ => true | None => false end ;;
  let key := default [] (keys !! cp_KeyID cp) in
  return Some ErrCheckpointInvalid when negb (Z.of_nat (length key) =? PublicKeySize)
    || negb (ed25519_Verify key (checkpointMessage cp) (cp_Signature cp)) ;;
  None.
End Verification.

(** ** Deliveries and commits *)

Definition validateDelivery (d : Delivery) : option error :=
  return Some ErrOutboxInvalid when String.eqb (dl_DeliveryID d) "" || String.eqb (dl_Target d) ""
    || String.eqb (dl_StreamID d) "" || String.eqb (dl_EventID d) "" || (dl_Sequence d =? 0)
    || negb (isDigest (dl_RecordHash d)) ;;
  if existsb (String.eqb (dl_Target d)) [OutboxTargetPostgres; OutboxTargetWORM; OutboxTargetSIEM] then None
  else Some ErrOutboxInvalid.

Fixpoint outbox_valid (r : AuditRecord) (seen : gset string) (l : list Delivery) : bool :=
  match l with
  | [] => true
  | d :: l =>
      return false when match validateDelivery d with Some _ => true | None => false end
        || negb (String.eqb (dl_StreamID d) (ae_StreamID (ar_Event r))) || negb (dl_Sequence d =? ar_Sequence r)
        || negb (String.eqb (dl_EventID d) (ae_EventID (ar_Event r))) || negb (String.eqb (dl_RecordHash d) (ar_Hash r))
        || bool_decide (dl_Target d ∈ seen) ;;
      outbox_valid r ({[dl_Target d]} ∪ seen) l
  end.

Definition validateCommit (c : Commit) : option error :=
  match validateRecord (ac_Record c) with
  | Some err => Some err
  | None =>
      match match ac_Checkpoint c with Some cp => checkpointShape (ac_Record c) cp | None => None end with
      | Some err => Some err
      | None => if outbox_valid (ac_Record c) ∅ (ac_Outbox c) then None else Some ErrOutboxInvalid
      end
  end.

(** ** The encoding of a commit *)

Definition record_json (r : AuditRecord) : json :=
  JObject ([("sequence", JNumber (ar_Sequence r)); ("event", event_json (ar_Event r))]
           ++ omit_empty "previous_hash" (ar_PreviousHash r) ++ [("hash", JString (ar_Hash r))]).

(** The signature of a valid checkpoint is not empty, and an empty one would
    be null instead. *)
Definition checkpoint_json (cp : Checkpoint) : json :=
  JObject [("stream_id", JString (cp_StreamID cp)); ("sequence", JNumber (cp_Sequence cp)); ("hash", JString (cp_Hash cp));
           ("key_id", JString (cp_KeyID cp)); ("signature", JString (base64_encode (cp_Signature cp)));
           ("at", JTime (cp_At cp))].

(** A time is never left out, since [omitempty] does not apply to structs. *)
Definition delivery_json (d : Delivery) : json :=
  JObject [("delivery_id", JString (dl_DeliveryID d)); ("target", JString (dl_Target d));
           ("stream_id", JString (dl_StreamID d)); ("sequence", JNumber (dl_Sequence d));
           ("event_id", JString (dl_EventID d)); ("record_hash", JString (dl_RecordHash d));
           ("created_at", JTime (dl_CreatedAt d)); ("delivered_at", JTime (dl_DeliveredAt d))].

(** [json.Marshal] of a commit; [None] when a time cannot be encoded. *)
Definition commit_bytes (c : Commit) : option (list ascii) :=
  record ← json_bytes (record_json (ac_Record c));
  checkpoint ← match ac_Checkpoint c with
               | Some cp => (fun b => [("checkpoint", b)]) <$> json_bytes (checkpoint_json cp)
               | None => Some []
               end;
  outbox ← match ac_Outbox c with
           | [] => Some []
           | l => (fun b => [("outbox", array_bytes b)]) <$> mapM (fun d => json_bytes (delivery_json d)) l
           end;
  Some (object_bytes ([("record", record)] ++ checkpoint ++ outbox)).

Definition commitEqual (a b : Commit) : bool := bool_decide (commit_bytes a = commit_bytes b).

Definition deliveryEqual (a b : Delivery) : bool := bool_decide (a = b).

Definition deliveryIdentityEqual (a b : Delivery) : bool :=
  String.eqb (dl_DeliveryID a) (dl_DeliveryID b) && String.eqb (dl_Target a) (dl_Target b)
  && String.eqb (dl_StreamID a) (dl_StreamID b) && (dl_Sequence a =? dl_Sequence b)
  && String.eqb (dl_EventID a) (dl_EventID b) && String.eqb (dl_RecordHash a) (dl_RecordHash b)
  && (dl_CreatedAt a =? dl_CreatedAt b).

Definition deliveryID (stream : string) (sequence : Z) (target : OutboxTarget) : string :=
  (stream ++ "/" ++ itoa sequence ++ "/" ++ target)%string.
