(* ===== verification/AuditDecode.v ===== *)
(** * Audit commits read back (internal/audit/event.go)

    [decodeStrict] of an event and of a commit, and the round trip: the
    encoding of a valid commit is read back as the commit. *)

From S2P Require Import Prelude GoText Sha256 Json JsonValid JsonDecode TimeText JsonReads AuditEvent.
From Stdlib Require Import Ascii.

Open Scope string_scope.
Open Scope list_scope.
Open Scope Z_scope.
Open Scope go_scope.

(** ** The fields *)

Definition set_ae_EventID (x : string) (e : Event) : Event :=
  {| ae_EventID := x; ae_StreamID := ae_StreamID e; ae_TenantID := ae_TenantID e; ae_Actor := ae_Actor e; ae_Type
     := ae_Type e; ae_Action := ae_Action e; ae_Resource := ae_Resource e; ae_Outcome := ae_Outcome e;
     ae_CorrelationID := ae_CorrelationID e; ae_SessionID := ae_SessionID e; ae_LeaseID := ae_LeaseID e;
     ae_ConfirmationID := ae_ConfirmationID e; ae_Reason := ae_Reason e; ae_EvidenceDigest := ae_EvidenceDigest e;
     ae_PolicyEpoch := ae_PolicyEpoch e; ae_Class := ae_Class e; ae_At := ae_At e |}.
Definition set_ae_StreamID (x : string) (e : Event) : Event :=
  {| ae_EventID := ae_EventID e; ae_StreamID := x; ae_TenantID := ae_TenantID e; ae_Actor := ae_Actor e; ae_Type
     := ae_Type e; ae_Action := ae_Action e; ae_Resource := ae_Resource e; ae_Outcome := ae_Outcome e;
     ae_CorrelationID := ae_CorrelationID e; ae_SessionID := ae_SessionID e; ae_LeaseID := ae_LeaseID e;
     ae_ConfirmationID := ae_ConfirmationID e; ae_Reason := ae_Reason e; ae_EvidenceDigest := ae_EvidenceDigest e;
     ae_PolicyEpoch := ae_PolicyEpoch e; ae_Class := ae_Class e; ae_At := ae_At e |}.
Definition set_ae_TenantID (x : string) (e : Event) : Event :=
  {| ae_EventID := ae_EventID e; ae_StreamID := ae_StreamID e; ae_TenantID := x; ae_Actor := ae_Actor e; ae_Type
     := ae_Type e; ae_Action := ae_Action e; ae_Resource := ae_Resource e; ae_Outcome := ae_Outcome e;
     ae_CorrelationID := ae_CorrelationID e; ae_SessionID := ae_SessionID e; ae_LeaseID := ae_LeaseID e;
     ae_ConfirmationID := ae_ConfirmationID e; ae_Reason := ae_Reason e; ae_EvidenceDigest := ae_EvidenceDigest e;
     ae_PolicyEpoch := ae_PolicyEpoch e; ae_Class := ae_Class e; ae_At := ae_At e |}.
Definition set_ae_Actor (x : string) (e : Event) : Event :=
  {| ae_EventID := ae_EventID e; ae_StreamID := ae_StreamID e; ae_TenantID := ae_TenantID e; ae_Actor := x;
     ae_Type := ae_Type e; ae_Action := ae_Action e; ae_Resource := ae_Resource e; ae_Outcome := ae_Outcome e;
     ae_CorrelationID := ae_CorrelationID e; ae_SessionID := ae_SessionID e; ae_LeaseID := ae_LeaseID e;
     ae_ConfirmationID := ae_ConfirmationID e; ae_Reason := ae_Reason e; ae_EvidenceDigest := ae_EvidenceDigest e;
     ae_PolicyEpoch := ae_PolicyEpoch e; ae_Class := ae_Class e; ae_At := ae_At e |}.
Definition set_ae_Type (x : string) (e : Event) : Event :=
  {| ae_EventID := ae_EventID e; ae_StreamID := ae_StreamID e; ae_TenantID := ae_TenantID e; ae_Actor := ae_Actor
     e; ae_Type := x; ae_Action := ae_Action e; ae_Resource := ae_Resource e; ae_Outcome := ae_Outcome e;
     ae_CorrelationID := ae_CorrelationID e; ae_SessionID := ae_SessionID e; ae_LeaseID := ae_LeaseID e;
     ae_ConfirmationID := ae_ConfirmationID e; ae_Reason := ae_Reason e; ae_EvidenceDigest := ae_EvidenceDigest e;
     ae_PolicyEpoch := ae_PolicyEpoch e; ae_Class := ae_Class e; ae_At := ae_At e |}.
Definition set_ae_Action (x : string) (e : Event) : Event :=
  {| ae_EventID := ae_EventID e; ae_StreamID := ae_StreamID e; ae_TenantID := ae_TenantID e; ae_Actor := ae_Actor
     e; ae_Type := ae_Type e; ae_Action := x; ae_Resource := ae_Resource e; ae_Outcome := ae_Outcome e;
     ae_CorrelationID := ae_CorrelationID e; ae_SessionID := ae_SessionID e; ae_LeaseID := ae_LeaseID e;
     ae_ConfirmationID := ae_ConfirmationID e; ae_Reason := ae_Reason e; ae_EvidenceDigest := ae_EvidenceDigest e;
     ae_PolicyEpoch := ae_PolicyEpoch e; ae_Class := ae_Class e; ae_At := ae_At e |}.
Definition set_ae_Resource (x : string) (e : Event) : Event :=
  {| ae_EventID := ae_EventID e; ae_StreamID := ae_StreamID e; ae_TenantID := ae_TenantID e; ae_Actor := ae_Actor
     e; ae_Type := ae_Type e; ae_Action := ae_Action e; ae_Resource := x; ae_Outcome := ae_Outcome e;
     ae_CorrelationID := ae_CorrelationID e; ae_SessionID := ae_SessionID e; ae_LeaseID := ae_LeaseID e;
     ae_ConfirmationID := ae_ConfirmationID e; ae_Reason := ae_Reason e; ae_EvidenceDigest := ae_EvidenceDigest e;
     ae_PolicyEpoch := ae_PolicyEpoch e; ae_Class := ae_Class e; ae_At := ae_At e |}.
Definition set_ae_Outcome (x : string) (e : Event) : Event :=
  {| ae_EventID := ae_EventID e; ae_StreamID := ae_StreamID e; ae_TenantID := ae_TenantID e; ae_Actor := ae_Actor
     e; ae_Type := ae_Type e; ae_Action := ae_Action e; ae_Resource := ae_Resource e; ae_Outcome := x;
     ae_CorrelationID := ae_CorrelationID e; ae_SessionID := ae_SessionID e; ae_LeaseID := ae_LeaseID e;
     ae_ConfirmationID := ae_ConfirmationID e; ae_Reason := ae_Reason e; ae_EvidenceDigest := ae_EvidenceDigest e;
     ae_PolicyEpoch := ae_PolicyEpoch e; ae_Class := ae_Class e; ae_At := ae_At e |}.
Definition set_ae_CorrelationID (x : string) (e : Event) : Event :=
  {| ae_EventID := ae_EventID e; ae_StreamID := ae_StreamID e; ae_TenantID := ae_TenantID e; ae_Actor := ae_Actor
     e; ae_Type := ae_Type e; ae_Action := ae_Action e; ae_Resource := ae_Resource e; ae_Outcome := ae_Outcome e;
     ae_CorrelationID := x; ae_SessionID := ae_SessionID e; ae_LeaseID := ae_LeaseID e; ae_ConfirmationID :=
     ae_ConfirmationID e; ae_Reason := ae_Reason e; ae_EvidenceDigest := ae_EvidenceDigest e; ae_PolicyEpoch :=
     ae_PolicyEpoch e; ae_Class := ae_Class e; ae_At := ae_At e |}.
Definition set_ae_SessionID (x : string) (e : Event) : Event :=
  {| ae_EventID := ae_EventID e; ae_StreamID := ae_StreamID e; ae_TenantID := ae_TenantID e; ae_Actor := ae_Actor
     e; ae_Type := ae_Type e; ae_Action := ae_Action e; ae_Resource := ae_Resource e; ae_Outcome := ae_Outcome e;
     ae_CorrelationID := ae_CorrelationID e; ae_SessionID := x; ae_LeaseID := ae_LeaseID e; ae_ConfirmationID :=
     ae_ConfirmationID e; ae_Reason := ae_Reason e; ae_EvidenceDigest := ae_EvidenceDigest e; ae_PolicyEpoch :=
     ae_PolicyEpoch e; ae_Class := ae_Class e; ae_At := ae_At e |}.
Definition set_ae_LeaseID (x : string) (e : Event) : Event :=
  {| ae_EventID := ae_EventID e; ae_StreamID := ae_StreamID e; ae_TenantID := ae_TenantID e; ae_Actor := ae_Actor
     e; ae_Type := ae_Type e; ae_Action := ae_Action e; ae_Resource := ae_Resource e; ae_Outcome := ae_Outcome e;
     ae_CorrelationID := ae_CorrelationID e; ae_SessionID := ae_SessionID e; ae_LeaseID := x; ae_ConfirmationID :=
     ae_ConfirmationID e; ae_Reason := ae_Reason e; ae_EvidenceDigest := ae_EvidenceDigest e; ae_PolicyEpoch :=
     ae_PolicyEpoch e; ae_Class := ae_Class e; ae_At := ae_At e |}.
Definition set_ae_ConfirmationID (x : string) (e : Event) : Event :=
  {| ae_EventID := ae_EventID e; ae_StreamID := ae_StreamID e; ae_TenantID := ae_TenantID e; ae_Actor := ae_Actor
     e; ae_Type := ae_Type e; ae_Action := ae_Action e; ae_Resource := ae_Resource e; ae_Outcome := ae_Outcome e;
     ae_CorrelationID := ae_CorrelationID e; ae_SessionID := ae_SessionID e; ae_LeaseID := ae_LeaseID e;
     ae_ConfirmationID := x; ae_Reason := ae_Reason e; ae_EvidenceDigest := ae_EvidenceDigest e; ae_PolicyEpoch :=
     ae_PolicyEpoch e; ae_Class := ae_Class e; ae_At := ae_At e |}.
Definition set_ae_Reason (x : string) (e : Event) : Event :=
  {| ae_EventID := ae_EventID e; ae_StreamID := ae_StreamID e; ae_TenantID := ae_TenantID e; ae_Actor := ae_Actor
     e; ae_Type := ae_Type e; ae_Action := ae_Action e; ae_Resource := ae_Resource e; ae_Outcome := ae_Outcome e;
     ae_CorrelationID := ae_CorrelationID e; ae_SessionID := ae_SessionID e; ae_LeaseID := ae_LeaseID e;
     ae_ConfirmationID := ae_ConfirmationID e; ae_Reason := x; ae_EvidenceDigest := ae_EvidenceDigest e;
     ae_PolicyEpoch := ae_PolicyEpoch e; ae_Class := ae_Class e; ae_At := ae_At e |}.
Definition set_ae_EvidenceDigest (x : string) (e : Event) : Event :=
  {| ae_EventID := ae_EventID e; ae_StreamID := ae_StreamID e; ae_TenantID := ae_TenantID e; ae_Actor := ae_Actor
     e; ae_Type := ae_Type e; ae_Action := ae_Action e; ae_Resource := ae_Resource e; ae_Outcome := ae_Outcome e;
     ae_CorrelationID := ae_CorrelationID e; ae_SessionID := ae_SessionID e; ae_LeaseID := ae_LeaseID e;
     ae_ConfirmationID := ae_ConfirmationID e; ae_Reason := ae_Reason e; ae_EvidenceDigest := x; ae_PolicyEpoch :=
     ae_PolicyEpoch e; ae_Class := ae_Class e; ae_At := ae_At e |}.
Definition set_ae_PolicyEpoch (x : Z) (e : Event) : Event :=
  {| ae_EventID := ae_EventID e; ae_StreamID := ae_StreamID e; ae_TenantID := ae_TenantID e; ae_Actor := ae_Actor
     e; ae_Type := ae_Type e; ae_Action := ae_Action e; ae_Resource := ae_Resource e; ae_Outcome := ae_Outcome e;
     ae_CorrelationID := ae_CorrelationID e; ae_SessionID := ae_SessionID e; ae_LeaseID := ae_LeaseID e;
     ae_ConfirmationID := ae_ConfirmationID e; ae_Reason := ae_Reason e; ae_EvidenceDigest := ae_EvidenceDigest e;
     ae_PolicyEpoch := x; ae_Class := ae_Class e; ae_At := ae_At e |}.
Definition set_ae_Class (x : string) (e : Event) : Event :=
  {| ae_EventID := ae_EventID e; ae_StreamID := ae_StreamID e; ae_TenantID := ae_TenantID e; ae_Actor := ae_Actor
     e; ae_Type := ae_Type e; ae_Action := ae_Action e; ae_Resource := ae_Resource e; ae_Outcome := ae_Outcome e;
     ae_CorrelationID := ae_CorrelationID e; ae_SessionID := ae_SessionID e; ae_LeaseID := ae_LeaseID e;
     ae_ConfirmationID := ae_ConfirmationID e; ae_Reason := ae_Reason e; ae_EvidenceDigest := ae_EvidenceDigest e;
     ae_PolicyEpoch := ae_PolicyEpoch e; ae_Class := x; ae_At := ae_At e |}.
Definition set_ae_At (x : Time) (e : Event) : Event :=
  {| ae_EventID := ae_EventID e; ae_StreamID := ae_StreamID e; ae_TenantID := ae_TenantID e; ae_Actor := ae_Actor
     e; ae_Type := ae_Type e; ae_Action := ae_Action e; ae_Resource := ae_Resource e; ae_Outcome := ae_Outcome e;
     ae_CorrelationID := ae_CorrelationID e; ae_SessionID := ae_SessionID e; ae_LeaseID := ae_LeaseID e;
     ae_ConfirmationID := ae_ConfirmationID e; ae_Reason := ae_Reason e; ae_EvidenceDigest := ae_EvidenceDigest e;
     ae_PolicyEpoch := ae_PolicyEpoch e; ae_Class := ae_Class e; ae_At := x |}.

Definition set_ar_Sequence (x : Z) (r : AuditRecord) : AuditRecord :=
  {| ar_Sequence := x; ar_Event := ar_Event r; ar_PreviousHash := ar_PreviousHash r; ar_Hash := ar_Hash r |}.
Definition set_ar_Event (x : Event) (r : AuditRecord) : AuditRecord :=
  {| ar_Sequence := ar_Sequence r; ar_Event := x; ar_PreviousHash := ar_PreviousHash r; ar_Hash := ar_Hash r |}.
Definition set_ar_PreviousHash (x : string) (r : AuditRecord) : AuditRecord :=
  {| ar_Sequence := ar_Sequence r; ar_Event := ar_Event r; ar_PreviousHash := x; ar_Hash := ar_Hash r |}.
Definition set_ar_Hash (x : string) (r : AuditRecord) : AuditRecord :=
  {| ar_Sequence := ar_Sequence r; ar_Event := ar_Event r; ar_PreviousHash := ar_PreviousHash r; ar_Hash := x |}.

Definition set_cp_StreamID (x : string) (c : Checkpoint) : Checkpoint :=
  {| cp_StreamID := x; cp_Sequence := cp_Sequence c; cp_Hash := cp_Hash c; cp_KeyID := cp_KeyID c; cp_Signature :=
     cp_Signature c; cp_At := cp_At c |}.
Definition set_cp_Sequence (x : Z) (c : Checkpoint) : Checkpoint :=
  {| cp_StreamID := cp_StreamID c; cp_Sequence := x; cp_Hash := cp_Hash c; cp_KeyID := cp_KeyID c; cp_Signature :=
     cp_Signature c; cp_At := cp_At c |}.
Definition set_cp_Hash (x : string) (c : Checkpoint) : Checkpoint :=
  {| cp_StreamID := cp_StreamID c; cp_Sequence := cp_Sequence c; cp_Hash := x; cp_KeyID := cp_KeyID c;
     cp_Signature := cp_Signature c; cp_At := cp_At c |}.
Definition set_cp_KeyID (x : string) (c : Checkpoint) : Checkpoint :=
  {| cp_StreamID := cp_StreamID c; cp_Sequence := cp_Sequence c; cp_Hash := cp_Hash c; cp_KeyID := x; cp_Signature
     := cp_Signature c; cp_At := cp_At c |}.
Definition set_cp_Signature (x : list Z) (c : Checkpoint) : Checkpoint :=
  {| cp_StreamID := cp_StreamID c; cp_Sequence := cp_Sequence c; cp_Hash := cp_Hash c; cp_KeyID := cp_KeyID c;
     cp_Signature := x; cp_At := cp_At c |}.
Definition set_cp_At (x : Time) (c : Checkpoint) : Checkpoint :=
  {| cp_StreamID := cp_StreamID c; cp_Sequence := cp_Sequence c; cp_Hash := cp_Hash c; cp_KeyID := cp_KeyID c;
     cp_Signature := cp_Signature c; cp_At := x |}.

Definition set_dl_DeliveryID (x : string) (d : Delivery) : Delivery :=
  {| dl_DeliveryID := x; dl_Target := dl_Target d; dl_StreamID := dl_StreamID d; dl_Sequence := dl_Sequence d;
     dl_EventID := dl_EventID d; dl_RecordHash := dl_RecordHash d; dl_CreatedAt := dl_CreatedAt d; dl_DeliveredAt :=
     dl_DeliveredAt d |}.
Definition set_dl_Target (x : string) (d : Delivery) : Delivery :=
  {| dl_DeliveryID := dl_DeliveryID d; dl_Target := x; dl_StreamID := dl_StreamID d; dl_Sequence := dl_Sequence d;
     dl_EventID := dl_EventID d; dl_RecordHash := dl_RecordHash d; dl_CreatedAt := dl_CreatedAt d; dl_DeliveredAt :=
     dl_DeliveredAt d |}.
Definition set_dl_StreamID (x : string) (d : Delivery) : Delivery :=
  {| dl_DeliveryID := dl_DeliveryID d; dl_Target := dl_Target d; dl_StreamID := x; dl_Sequence := dl_Sequence d;
     dl_EventID := dl_EventID d; dl_RecordHash := dl_RecordHash d; dl_CreatedAt := dl_CreatedAt d; dl_DeliveredAt :=
     dl_DeliveredAt d |}.
Definition set_dl_Sequence (x : Z) (d : Delivery) : Delivery :=
  {| dl_DeliveryID := dl_DeliveryID d; dl_Target := dl_Target d; dl_StreamID := dl_StreamID d; dl_Sequence := x;
     dl_EventID := dl_EventID d; dl_RecordHash := dl_RecordHash d; dl_CreatedAt := dl_CreatedAt d; dl_DeliveredAt :=
     dl_DeliveredAt d |}.
Definition set_dl_EventID (x : string) (d : Delivery) : Delivery :=
  {| dl_DeliveryID := dl_DeliveryID d; dl_Target := dl_Target d; dl_StreamID := dl_StreamID d; dl_Sequence :=
     dl_Sequence d; dl_EventID := x; dl_RecordHash := dl_RecordHash d; dl_CreatedAt := dl_CreatedAt d; dl_DeliveredAt
     := dl_DeliveredAt d |}.
Definition set_dl_RecordHash (x : string) (d : Delivery) : Delivery :=
  {| dl_DeliveryID := dl_DeliveryID d; dl_Target := dl_Target d; dl_StreamID := dl_StreamID d; dl_Sequence :=
     dl_Sequence d; dl_EventID := dl_EventID d; dl_RecordHash := x; dl_CreatedAt := dl_CreatedAt d; dl_DeliveredAt :=
     dl_DeliveredAt d |}.
Definition set_dl_CreatedAt (x : Time) (d : Delivery) : Delivery :=
  {| dl_DeliveryID := dl_DeliveryID d; dl_Target := dl_Target d; dl_StreamID := dl_StreamID d; dl_Sequence :=
     dl_Sequence d; dl_EventID := dl_EventID d; dl_RecordHash := dl_RecordHash d; dl_CreatedAt := x; dl_DeliveredAt
     := dl_DeliveredAt d |}.
Definition set_dl_DeliveredAt (x : Time) (d : Delivery) : Delivery :=
  {| dl_DeliveryID := dl_DeliveryID d; dl_Target := dl_Target d; dl_StreamID := dl_StreamID d; dl_Sequence :=
     dl_Sequence d; dl_EventID := dl_EventID d; dl_RecordHash := dl_RecordHash d; dl_CreatedAt := dl_CreatedAt d;
     dl_DeliveredAt := x |}.

Definition set_ac_Record (x : AuditRecord) (c : Commit) : Commit :=
  {| ac_Record := x; ac_Checkpoint := ac_Checkpoint c; ac_Outbox := ac_Outbox c |}.
Definition set_ac_Checkpoint (x : option Checkpoint) (c : Commit) : Commit :=
  {| ac_Record := ac_Record c; ac_Checkpoint := x; ac_Outbox := ac_Outbox c |}.
Definition set_ac_Outbox (x : list Delivery) (c : Commit) : Commit :=
  {| ac_Record := ac_Record c; ac_Checkpoint := ac_Checkpoint c; ac_Outbox := x |}.
(** ** Decoders of bytes and of pointers *)

Definition decode_uint8 : decoder Z := fun v old =>
  match v with
  | VNull => Some old
  | VNumber raw => match ParseUint raw with Some n => if n <? 256 then Some n else None | None => None end
  | _ => None
  end.

(** A byte slice is base64 text, or an array of numbers. *)
Definition decode_bytes : decoder (list Z) := fun v old =>
  match v with
  | VNull => Some []
  | VString _ s => base64_decode s
  | VArray l => decode_elements decode_uint8 0 l
  | _ => None
  end.

(** [null] makes the pointer nil; a value is stored behind it. *)
Definition decode_pointer {A : Type} (d : decoder A) (zero : A) : decoder (option A) := fun v old =>
  match v with VNull => Some None | _ => Some <$> d v (default zero old) end.

Definition event_fields : fields Event :=
  [field "event_id" ae_EventID set_ae_EventID decode_string; field "stream_id" ae_StreamID set_ae_StreamID decode_string;
   field "tenant_id" ae_TenantID set_ae_TenantID decode_string; field "actor" ae_Actor set_ae_Actor decode_string;
   field "type" ae_Type set_ae_Type decode_string; field "action" ae_Action set_ae_Action decode_string;
   field "resource" ae_Resource set_ae_Resource decode_string; field "outcome" ae_Outcome set_ae_Outcome decode_string;
   field "correlation_id" ae_CorrelationID set_ae_CorrelationID decode_string;
   field "session_id" ae_SessionID set_ae_SessionID decode_string;
   field "lease_id" ae_LeaseID set_ae_LeaseID decode_string;
   field "confirmation_id" ae_ConfirmationID set_ae_ConfirmationID decode_string;
   field "reason" ae_Reason set_ae_Reason decode_string;
   field "evidence_digest" ae_EvidenceDigest set_ae_EvidenceDigest decode_string;
   field "policy_epoch" ae_PolicyEpoch set_ae_PolicyEpoch decode_uint64;
   field "class" ae_Class set_ae_Class decode_string; field "at" ae_At set_ae_At decode_time].

Definition record_fields : fields AuditRecord :=
  [field "sequence" ar_Sequence set_ar_Sequence decode_uint64;
   field "event" ar_Event set_ar_Event (decode_struct event_fields);
   field "previous_hash" ar_PreviousHash set_ar_PreviousHash decode_string; field "hash" ar_Hash set_ar_Hash decode_string].

Definition checkpoint_fields : fields Checkpoint :=
  [field "stream_id" cp_StreamID set_cp_StreamID decode_string; field "sequence" cp_Sequence set_cp_Sequence decode_uint64;
   field "hash" cp_Hash set_cp_Hash decode_string; field "key_id" cp_KeyID set_cp_KeyID decode_string;
   field "signature" cp_Signature set_cp_Signature decode_bytes; field "at" cp_At set_cp_At decode_time].

Definition delivery_fields : fields Delivery :=
  [field "delivery_id" dl_DeliveryID set_dl_DeliveryID decode_string; field "target" dl_Target set_dl_Target decode_string;
   field "stream_id" dl_StreamID set_dl_StreamID decode_string; field "sequence" dl_Sequence set_dl_Sequence decode_uint64;
   field "event_id" dl_EventID set_dl_EventID decode_string; field "record_hash" dl_RecordHash set_dl_RecordHash decode_string;
   field "created_at" dl_CreatedAt set_dl_CreatedAt decode_time;
   field "delivered_at" dl_DeliveredAt set_dl_DeliveredAt decode_time].

Definition zero_checkpoint : Checkpoint :=
  {| cp_StreamID := ""; cp_Sequence := 0; cp_Hash := ""; cp_KeyID := ""; cp_Signature := []; cp_At := 0 |}.

Definition zero_delivery : Delivery :=
  {| dl_DeliveryID := ""; dl_Target := ""; dl_StreamID := ""; dl_Sequence := 0; dl_EventID := ""; dl_RecordHash := "";
     dl_CreatedAt := 0; dl_DeliveredAt := 0 |}.

Definition zero_commit : Commit := {| ac_Record := zero_record; ac_Checkpoint := None; ac_Outbox := [] |}.

Definition commit_fields : fields Commit :=
  [field "record" ac_Record set_ac_Record (decode_struct record_fields);
   field "checkpoint" ac_Checkpoint set_ac_Checkpoint (decode_pointer (decode_struct checkpoint_fields) zero_checkpoint);
   field "outbox" ac_Outbox set_ac_Outbox (decode_slice (decode_struct delivery_fields) zero_delivery)].

(** [decodeStrict]: one document without unknown fields. *)
Definition decodeStrict {A : Type} (d : decoder A) (raw : string) (zero : A) : option A :=
  match parse_document raw with Some v => d v zero | None => None end.

Definition DecodeEvent (raw : string) : result error Event :=
  return Err ErrInvalidEvent when 8192 <? len raw ;;
  match decodeStrict (decode_struct event_fields) raw zero_event with
  | Some e => match validateEvent e with None => Ok e | Some _ => Err ErrInvalidEvent end
  | None => Err ErrInvalidEvent
  end.

Definition decode_commit (raw : string) : option Commit := decodeStrict (decode_struct commit_fields) raw zero_commit.

(** ** The round trip *)

(** The values of the fields fit their types, and no time is before year 1. *)
Definition uint64_range (z : Z) : bool := (0 <=? z) && (z <? two64).

Definition typed_commit (c : Commit) : bool :=
  let r := ac_Record c in
  uint64_range (ar_Sequence r) && uint64_range (ae_PolicyEpoch (ar_Event r)) && (0 <=? ae_At (ar_Event r))
  && match ac_Checkpoint c with Some cp => byte_range (cp_Signature cp) && (0 <=? cp_At cp) | None => true end
  && forallb (fun d => plain (dl_DeliveryID d) && (0 <=? dl_CreatedAt d) && (0 <=? dl_DeliveredAt d)) (ac_Outbox c).

Definition jv (f : string * json) : string * jval := (fst f, jval_of (snd f)).

Lemma store_member {A} (fs : fields A) k v ms a d a' :
  find_field fs k = Some d -> d v a = Some a' -> store_members fs ((k, v) :: ms) a = store_members fs ms a'.
Proof. intros F D. cbn [store_members]. by rewrite F, D. Qed.

Lemma store_jv {A} (fs : fields A) k j ms a d a' :
  find_field fs k = Some d -> d (jval_of j) a = Some a' -> store_members fs (jv (k, j) :: ms) a = store_members fs ms a'.
Proof. apply store_member. Qed.

(** A field that [omitempty] leaves out keeps its zero value. *)
Lemma store_omitted {A} (fs : fields A) k v ms a d a' :
  find_field fs k = Some d -> d (VString (bytes v) v) a = Some a' -> (v = "" -> a' = a) ->
  store_members fs (map jv (omit_empty k v) ++ ms) a = store_members fs ms a'.
Proof.
  intros F D Z. unfold omit_empty. destruct (String.eqb_spec v "") as [E|E]; [by rewrite Z|].
  cbn [map app]. by apply (store_jv fs k (JString v) ms a d a').
Qed.

Lemma uint64_decodes z old : uint64_range z = true -> decode_uint64 (jval_of (JNumber z)) old = Some z.
Proof. unfold uint64_range. intros R. props. apply itoa_ParseUint. lia. Qed.

Lemma time_decodes t old : 0 <= t -> is_Some (rfc3339 t) -> decode_time (jval_of (JTime t)) old = Some t.
Proof. intros P [text E]. cbn [jval_of]. rewrite E. cbn [decode_time]. by apply rfc3339_read. Qed.

(** The times of an object that could be encoded. *)
Lemma encoded_member fs b k v : json_bytes (JObject fs) = Some b -> In (k, v) fs -> is_Some (json_bytes v).
Proof.
  rewrite json_bytes_object. intros E I. destruct (encode_fields fs) as [ms|] eqn:EF; [|done]. clear E.
  apply mapM_Some in EF. induction EF as [|f m fs ms E EF IH]; [done|].
  destruct I as [->|I]; [|by apply IH]. cbn in E. destruct (json_bytes v); by eauto.
Qed.

Lemma encoded_time fs b k t : json_bytes (JObject fs) = Some b -> In (k, JTime t) fs -> is_Some (rfc3339 t).
Proof. intros E I. destruct (encoded_member _ _ _ _ E I) as [x X]. cbn [json_bytes] in X.
  destruct (rfc3339 t) eqn:R; [by eauto|done]. Qed.

(** Stores the next member of the tree of an object. *)
Ltac flat := unfold
  set_ae_EventID, set_ae_StreamID, set_ae_TenantID, set_ae_Actor, set_ae_Type, set_ae_Action, set_ae_Resource,
  set_ae_Outcome, set_ae_CorrelationID, set_ae_SessionID, set_ae_LeaseID, set_ae_ConfirmationID, set_ae_Reason,
  set_ae_EvidenceDigest, set_ae_PolicyEpoch, set_ae_Class, set_ae_At, set_ar_Sequence, set_ar_Event,
  set_ar_PreviousHash, set_ar_Hash, set_cp_StreamID, set_cp_Sequence, set_cp_Hash, set_cp_KeyID,
  set_cp_Signature, set_cp_At, set_dl_DeliveryID, set_dl_Target, set_dl_StreamID, set_dl_Sequence,
  set_dl_EventID, set_dl_RecordHash, set_dl_CreatedAt, set_dl_DeliveredAt; cbn.
Ltac store tac := erewrite store_jv; [|reflexivity|cbn [snd field]; tac; cbn; flat; reflexivity].
Ltac store_omit := erewrite store_omitted; [|reflexivity|cbn; flat; reflexivity|by intros ->].
Ltac store_object := cbn [jval_of decode_struct]; change (fun f : string * json => (fst f, jval_of (snd f))) with jv;
  rewrite ?map_app; cbn [map app].

Lemma event_decodes e b : uint64_range (ae_PolicyEpoch e) = true -> 0 <= ae_At e -> json_bytes (event_json e) = Some b ->
  decode_struct event_fields (jval_of (event_json e)) zero_event = Some e.
Proof.
  intros P A E. assert (is_Some (rfc3339 (ae_At e))) as T.
  { eapply (encoded_time _ _ "at"); [exact E|]. rewrite !in_app_iff. cbn. tauto. }
  unfold event_json. store_object. do 8 store idtac. do 6 store_omit.
  store ltac:(rewrite uint64_decodes by done). store idtac. store ltac:(rewrite (time_decodes _ _ A T)). by destruct e.
Qed.

Lemma record_decodes r b : uint64_range (ar_Sequence r) = true -> uint64_range (ae_PolicyEpoch (ar_Event r)) = true ->
  0 <= ae_At (ar_Event r) -> json_bytes (record_json r) = Some b ->
  decode_struct record_fields (jval_of (record_json r)) zero_record = Some r.
Proof.
  intros S P A E. assert (is_Some (json_bytes (event_json (ar_Event r)))) as [eb EE].
  { eapply (encoded_member _ _ "event"); [exact E|]. cbn. tauto. }
  pose proof (event_decodes _ _ P A EE) as ED. unfold record_json. store_object.
  store ltac:(rewrite uint64_decodes by done). store ltac:(unfold set_ar_Sequence; cbn [ar_Event zero_record]; rewrite ED). store_omit. store idtac. by destruct r.
Qed.

Lemma checkpoint_decodes cp b : uint64_range (cp_Sequence cp) = true -> byte_range (cp_Signature cp) = true ->
  0 <= cp_At cp -> json_bytes (checkpoint_json cp) = Some b ->
  decode_struct checkpoint_fields (jval_of (checkpoint_json cp)) zero_checkpoint = Some cp.
Proof.
  intros S B A E. assert (is_Some (rfc3339 (cp_At cp))) as T by (eapply (encoded_time _ _ "at"); [exact E|cbn; tauto]).
  unfold checkpoint_json. store_object. store idtac. store ltac:(rewrite uint64_decodes by done). store idtac. store idtac.
  store ltac:(cbn [jval_of decode_bytes]; rewrite (proj1 (base64_round _ B))).
  store ltac:(rewrite (time_decodes _ _ A T)). by destruct cp.
Qed.

Lemma delivery_decodes d b : uint64_range (dl_Sequence d) = true -> 0 <= dl_CreatedAt d -> 0 <= dl_DeliveredAt d ->
  json_bytes (delivery_json d) = Some b ->
  decode_struct delivery_fields (jval_of (delivery_json d)) zero_delivery = Some d.
Proof.
  intros S C D E.
  assert (is_Some (rfc3339 (dl_CreatedAt d))) as T1 by (eapply (encoded_time _ _ "created_at"); [exact E|cbn; tauto]).
  assert (is_Some (rfc3339 (dl_DeliveredAt d))) as T2 by (eapply (encoded_time _ _ "delivered_at"); [exact E|cbn; tauto]).
  unfold delivery_json. store_object. do 3 store idtac. store ltac:(rewrite uint64_decodes by done). do 2 store idtac.
  store ltac:(rewrite (time_decodes _ _ C T1)). store ltac:(rewrite (time_decodes _ _ D T2)). by destruct d.
Qed.

(** ** Valid commits are plain *)

Lemma id_plain_rune r : id_rune r = true -> plain_rune r = true.
Proof.
  intros I. assert (0 <= r < 128) as R.
  { unfold id_rune in I. rewrite !orb_true_iff in I. destruct I as [[[I|I]|I]|I]; [props; lia..|].
    apply existsb_exists in I as (c & J & E). props. subst r. cbn in J.
    repeat (destruct J as [<-|J]; [vm_compute; split; congruence|]). done. }
  assert (check_range (fun r => negb (id_rune r) || plain_rune r) 128 0 = true) as C by (vm_cast_no_check (eq_refl true)).
  eapply (check_range_ok _ _ _ r) in C; [|lia]. cbn beta in C. by rewrite I in C.
Qed.

Lemma validID_plain v optional : validID v optional = true -> plain v = true.
Proof.
  unfold validID. destruct (String.eqb_spec v "") as [->|N]; [done|]. destruct (256 <? len v); [done|].
  intros V. apply andb_true_iff in V as [V _]. by apply (ascii_plain id_rune), V; apply id_plain_rune.
Qed.

Lemma isDigest_plain v : isDigest v = true -> plain v = true.
Proof.
  unfold isDigest. destruct (_ || _); [done|]. unfold hex_decodable. intros H. apply andb_true_iff in H as [_ H].
  unfold plain. apply forallb_forall. intros c I. rewrite forallb_forall in H. specialize (H c I).
  assert (forall c, negb (is_hex_char c) || plain_char c = true) as A by (apply every_char; vm_compute; done).
  specialize (A c). by rewrite H in A.
Qed.

Lemma plain_omit k v : plain k = true -> plain v = true ->
  forallb (fun f => plain (fst f) && plain_json (snd f)) (omit_empty k v) = true.
Proof. intros K V. unfold omit_empty. destruct (String.eqb v ""); [done|]. cbn [forallb fst snd plain_json]. by rewrite K, V. Qed.

(** A value of a list of constants. *)
Lemma constant_plain v l : existsb (String.eqb v) l = true -> forallb plain l = true -> plain v = true.
Proof.
  intros E P. apply existsb_exists in E as (w & I & E). apply String.eqb_eq in E as ->.
  rewrite forallb_forall in P. by apply P.
Qed.

(** The checks that a successful validation has passed. *)
Ltac clear_checks := repeat match goal with |- (if ?c then _ else _) = None -> _ => destruct c eqn:?; [done|] end.

Lemma event_plain e : validateEvent e = None -> uint64_range (ae_PolicyEpoch e) = true -> 0 <= ae_At e ->
  plain_json (event_json e) = true.
Proof.
  unfold validateEvent. clear_checks.
  intros _ P A. cbn [forallb] in *. props.
  assert (plain (ae_Outcome e) = true) as PO by (by eapply constant_plain).
  assert (plain (ae_Class e) = true) as PC.
  { destruct (String.eqb_spec (ae_Class e) EventClassCritical) as [->|]; [done|].
    destruct (String.eqb_spec (ae_Class e) EventClassNormal) as [->|]; [done|].
    done. }
  assert (plain (ae_EvidenceDigest e) = true) as PD.
  { match goal with H : negb (String.eqb (ae_EvidenceDigest e) "") && _ = false |- _ => apply andb_false_iff in H as [DG|DG] end;
      apply negb_false_iff in DG; [by apply String.eqb_eq in DG as ->|by apply isDigest_plain]. }
  unfold event_json. cbn [plain_json]. rewrite !forallb_app, !plain_omit by (done || by eapply validID_plain).
  cbn [forallb fst snd plain_json andb].
  repeat match goal with V : validID ?v false = true |- _ => rewrite (validID_plain v false V); clear V end.
  rewrite PO, PC. unfold uint64_range in P. rewrite P. cbn. apply Z.leb_le in A. by rewrite A.
Qed.

Lemma event_ids e : validateEvent e = None -> validID (ae_EventID e) false = true /\ validID (ae_StreamID e) false = true.
Proof.
  unfold validateEvent. destruct (forallb _ _) eqn:F; [|done]. cbn [forallb] in F. props. by split.
Qed.

(** What a valid record is made of. *)
Lemma valid_record r : validateRecord r = None ->
  ar_Sequence r <> 0 /\ isDigest (ar_Hash r) = true /\ validateEvent (ar_Event r) = None /\ hashRecord r = ar_Hash r
  /\ (ar_Sequence r = 1 -> ar_PreviousHash r = "") /\ (1 < ar_Sequence r -> isDigest (ar_PreviousHash r) = true).
Proof.
  unfold validateRecord. clear_checks. intros _. props. destruct (validateEvent _); [done|]. split_and!; try done.
  - intros S. rewrite S in *. cbn [andb Z.eqb Pos.eqb] in *. props. done.
  - intros S. apply Z.ltb_lt in S. rewrite S in *. cbn [andb] in *. by props.
Qed.

Lemma valid_checkpoint r cp : checkpointShape r cp = None ->
  cp_StreamID cp = ae_StreamID (ar_Event r) /\ cp_Sequence cp = ar_Sequence r /\ cp_Hash cp = ar_Hash r
  /\ validID (cp_KeyID cp) false = true /\ Z.of_nat (length (cp_Signature cp)) = SignatureSize.
Proof. unfold checkpointShape. destruct (_ || _) eqn:E; [done|]. props. repeat split; done. Qed.

Lemma valid_outbox r seen l : outbox_valid r seen l = true -> Forall (fun d =>
  validateDelivery d = None /\ dl_StreamID d = ae_StreamID (ar_Event r) /\ dl_Sequence d = ar_Sequence r
  /\ dl_EventID d = ae_EventID (ar_Event r) /\ dl_RecordHash d = ar_Hash r) l.
Proof.
  revert seen. induction l as [|d l IH]; intros seen; [constructor|]. cbn [outbox_valid].
  destruct (_ || _) eqn:E; [done|]. intros V. constructor; [|by eapply IH]. props. by destruct (validateDelivery d).
Qed.

Lemma valid_commit c : validateCommit c = None ->
  validateRecord (ac_Record c) = None /\ (forall cp, ac_Checkpoint c = Some cp -> checkpointShape (ac_Record c) cp = None)
  /\ outbox_valid (ac_Record c) ∅ (ac_Outbox c) = true.
Proof.
  unfold validateCommit. destruct (validateRecord (ac_Record c)) eqn:V; [done|].
  destruct (match ac_Checkpoint c with Some cp => checkpointShape (ac_Record c) cp | None => None end) eqn:K; [done|].
  destruct (outbox_valid _ _ _) eqn:O; [|done]. intros _. split_and!; [done| |done]. intros cp E. by rewrite E in K.
Qed.

Lemma record_plain r : validateRecord r = None -> uint64_range (ar_Sequence r) = true ->
  uint64_range (ae_PolicyEpoch (ar_Event r)) = true -> 0 <= ae_At (ar_Event r) -> plain_json (record_json r) = true.
Proof.
  intros V S P A. destruct (valid_record r V) as (NZ & D & VE & _ & P1 & PD).
  assert (plain (ar_PreviousHash r) = true) as PP.
  { unfold uint64_range in S. props. destruct (decide (ar_Sequence r = 1)) as [E|N]; [by rewrite P1|].
    apply isDigest_plain, PD. lia. }
  unfold record_json. cbn [plain_json]. rewrite !forallb_app, plain_omit by done. cbn [forallb fst snd andb].
  rewrite event_plain by done. cbn [plain_json]. rewrite (isDigest_plain _ D). unfold uint64_range in S. by rewrite S.
Qed.

Lemma checkpoint_plain r cp : checkpointShape r cp = None -> validateEvent (ar_Event r) = None -> isDigest (ar_Hash r) = true ->
  uint64_range (ar_Sequence r) = true -> byte_range (cp_Signature cp) = true -> 0 <= cp_At cp ->
  plain_json (checkpoint_json cp) = true.
Proof.
  intros V VE D S B A. apply valid_checkpoint in V as (E1 & E2 & E3 & K & _). unfold checkpoint_json.
  cbn [plain_json forallb fst snd]. rewrite E1, E2, E3. unfold uint64_range in S. rewrite S, (isDigest_plain _ D).
  rewrite (proj2 (base64_round _ B)), (validID_plain _ _ K). apply Z.leb_le in A. rewrite A.
  by rewrite (validID_plain _ false (proj2 (event_ids _ VE))).
Qed.

Lemma delivery_plain r d : validateDelivery d = None -> validateEvent (ar_Event r) = None ->
  dl_StreamID d = ae_StreamID (ar_Event r) -> dl_EventID d = ae_EventID (ar_Event r) ->
  uint64_range (dl_Sequence d) = true -> plain (dl_DeliveryID d) = true -> 0 <= dl_CreatedAt d -> 0 <= dl_DeliveredAt d ->
  plain_json (delivery_json d) = true.
Proof.
  intros V VE E1 E2 S P C D. destruct (event_ids _ VE) as [I1 I2]. unfold validateDelivery in V.
  destruct (_ || _) eqn:B; [done|]. destruct (existsb _ _) eqn:T; [|done]. props. unfold delivery_json.
  cbn [plain_json forallb fst snd]. rewrite P, E1, E2, (validID_plain _ _ I1), (validID_plain _ _ I2).
  unfold uint64_range in S. rewrite S. apply Z.leb_le in C, D. rewrite C, D.
  rewrite (constant_plain _ _ T eq_refl), (isDigest_plain (dl_RecordHash d)) by done. done.
Qed.

Lemma nesting_object n fs : 0 <= n -> Forall (fun f : string * json => nesting (snd f) <= n) fs -> nesting (JObject fs) <= n + 1.
Proof.
  intros N F. cbn [nesting]. induction F as [|f fs L F IH]; [cbn; lia|]. cbn [fold_right]. lia.
Qed.

Lemma nesting_omit n k v : 0 <= n -> Forall (fun f : string * json => nesting (snd f) <= n) (omit_empty k v).
Proof. intros N. unfold omit_empty. destruct (String.eqb v ""); repeat constructor. done. Qed.

Ltac shallow := repeat first [apply Forall_app_2 | apply nesting_omit; lia | apply Forall_cons_2 | apply Forall_nil_2]; try (cbn; lia).

Lemma event_nesting e : nesting (event_json e) <= 1.
Proof. apply (nesting_object 0); [done|]. shallow. Qed.

Lemma record_nesting r : nesting (record_json r) <= 2.
Proof. apply (nesting_object 1); [done|]. shallow. apply event_nesting. Qed.

(** The tree of a commit. *)
Definition commit_tree (c : Commit) : jval :=
  VObject ([("record", jval_of (record_json (ac_Record c)))]
           ++ match ac_Checkpoint c with Some cp => [("checkpoint", jval_of (checkpoint_json cp))] | None => [] end
           ++ match ac_Outbox c with
              | [] => []
              | l => [("outbox", VArray (map (fun d => jval_of (delivery_json d)) l))]
              end).

Lemma outbox_decodes l : Forall (fun d => decode_struct delivery_fields (jval_of (delivery_json d)) zero_delivery = Some d) l ->
  decode_elements (decode_struct delivery_fields) zero_delivery (map (fun d => jval_of (delivery_json d)) l) = Some l.
Proof. induction 1 as [|d l E F IH]; [done|]. cbn [map decode_elements]. by rewrite E, IH. Qed.

Lemma decode_pointer_value {A} (d : decoder A) zero v old : v <> VNull ->
  decode_pointer d zero v old = Some <$> d v (default zero old).
Proof. by destruct v. Qed.

(** A commit whose parts are read back is read back. *)
Lemma tree_decodes c :
  decode_struct record_fields (jval_of (record_json (ac_Record c))) zero_record = Some (ac_Record c) ->
  (forall cp, ac_Checkpoint c = Some cp ->
     decode_struct checkpoint_fields (jval_of (checkpoint_json cp)) zero_checkpoint = Some cp) ->
  Forall (fun d => decode_struct delivery_fields (jval_of (delivery_json d)) zero_delivery = Some d) (ac_Outbox c) ->
  decode_struct commit_fields (commit_tree c) zero_commit = Some c.
Proof.
  intros R K O. apply outbox_decodes in O. destruct c as [r cp l]. cbn [ac_Record ac_Checkpoint ac_Outbox] in *.
  unfold commit_tree. cbn [decode_struct ac_Record ac_Checkpoint ac_Outbox app].
  erewrite store_member; [|reflexivity|cbn [snd field ac_Record zero_commit]; rewrite R; reflexivity].
  destruct cp as [cp|].
  - cbn [app]. erewrite store_member; [|reflexivity|].
    2:{ cbn [snd field]. rewrite decode_pointer_value by done. unfold set_ac_Record. cbn [ac_Checkpoint zero_commit default].
        rewrite (K cp eq_refl). reflexivity. }
    destruct l as [|d l]; [done|]. erewrite store_member; [|reflexivity|cbn [snd field decode_slice]; rewrite O; reflexivity].
    done.
  - cbn [app]. destruct l as [|d l]; [done|].
    erewrite store_member; [|reflexivity|cbn [snd field decode_slice]; rewrite O; reflexivity]. done.
Qed.

Lemma typed_fields c : typed_commit c = true ->
  uint64_range (ar_Sequence (ac_Record c)) = true /\ uint64_range (ae_PolicyEpoch (ar_Event (ac_Record c))) = true
  /\ 0 <= ae_At (ar_Event (ac_Record c))
  /\ (forall cp, ac_Checkpoint c = Some cp -> byte_range (cp_Signature cp) = true /\ 0 <= cp_At cp)
  /\ Forall (fun d => plain (dl_DeliveryID d) = true /\ 0 <= dl_CreatedAt d /\ 0 <= dl_DeliveredAt d) (ac_Outbox c).
Proof.
  unfold typed_commit. intros T. repeat (apply andb_true_iff in T as [T ?]). props. split_and!; try done.
  - unfold uint64_range. apply andb_true_iff. split; [by apply Z.leb_le|by apply Z.ltb_lt].
  - destruct (ac_Checkpoint c) as [cp0|]; [|by intros ? [=]]. props. intros cp [= <-]. done.
  - apply Forall_forall. intros d I. apply list_elem_of_In in I.
    match goal with H : forallb _ (ac_Outbox c) = true |- _ => rewrite forallb_forall in H; specialize (H d I) end.
    by props.
Qed.

(** The parts of the encoding of a commit. *)
Lemma commit_bytes_parts c b : commit_bytes c = Some b ->
  exists rb cpb ob, json_bytes (record_json (ac_Record c)) = Some rb
    /\ match ac_Checkpoint c with
       | Some cp => exists kb, json_bytes (checkpoint_json cp) = Some kb /\ cpb = [("checkpoint", kb)]
       | None => cpb = []
       end
    /\ match ac_Outbox c with
       | [] => ob = []
       | l => exists ls, Forall2 (fun d lb => json_bytes (delivery_json d) = Some lb) l ls /\ ob = [("outbox", array_bytes ls)]
       end
    /\ b = object_bytes ([("record", rb)] ++ cpb ++ ob).
Proof.
  unfold commit_bytes. destruct (json_bytes (record_json _)) as [rb|]; [|done]. cbn [mbind option_bind].
  destruct (ac_Checkpoint c) as [cp|].
  - destruct (json_bytes (checkpoint_json cp)) as [kb|]; [|done]. cbn [fmap option_fmap option_map mbind option_bind].
    destruct (ac_Outbox c) as [|d l].
    + intros E. injection E as <-. eexists _, _, _. split_and!; eauto.
    + destruct (mapM _ (d :: l)) as [ls|] eqn:M; [|done]. cbn [fmap option_fmap option_map mbind option_bind].
      intros E. injection E as <-. apply mapM_Some in M. eexists _, _, _. split_and!; eauto.
  - cbn [mbind option_bind]. destruct (ac_Outbox c) as [|d l].
    + intros E. injection E as <-. eexists _, _, _. split_and!; eauto.
    + destruct (mapM _ (d :: l)) as [ls|] eqn:M; [|done]. cbn [fmap option_fmap option_map mbind option_bind].
      intros E. injection E as <-. apply mapM_Some in M. eexists _, _, _. split_and!; eauto.
Qed.

Lemma member_of k n l v m : plain k = true -> n <= m -> reads n l v -> member_reads m (k, l) (k, v).
Proof. intros P L R. split_and!; [done|done|]. by eapply reads_mono. Qed.

(** An encoded struct does not begin with a space or a bracket. *)
Lemma object_head fs b : json_bytes (JObject fs) = Some b -> value_head b.
Proof. rewrite json_bytes_object. destruct (encode_fields fs); [|done]. intros E. injection E as <-. done. Qed.

Lemma outbox_reads l ls : Forall (fun d => plain_json (delivery_json d) = true) l ->
  Forall2 (fun d lb => json_bytes (delivery_json d) = Some lb) l ls ->
  Forall value_head ls /\ Forall2 (reads 1) ls (map (fun d => jval_of (delivery_json d)) l).
Proof.
  intros P E. induction E as [|d lb l ls E EL IH]; [by split; constructor|]. apply Forall_cons in P as [P PL].
  destruct (IH PL) as [H R]. cbn [map]. split; (constructor; [|done]).
  - unfold delivery_json in E. by eapply object_head.
  - eapply reads_mono; [|by apply json_reads]. cbn. lia.
Qed.

(** What is written for the parts is read as the tree of the commit. *)
Lemma commit_reads c b : validateCommit c = None -> typed_commit c = true -> commit_bytes c = Some b ->
  reads 5 b (commit_tree c).
Proof.
  intros V T E. destruct (valid_commit c V) as (VR & VK & VO). apply valid_outbox in VO.
  destruct (typed_fields c T) as (TS & TP & TA & TK & TD). destruct (valid_record _ VR) as (_ & DG & VE & _).
  destruct (commit_bytes_parts c b E) as (rb & cpb & ob & ER & EK & EO & ->).
  apply (object_reads 4); [done|]. unfold commit_tree.
  apply Forall2_app; [|apply Forall2_app].
  - constructor; [|constructor]. eapply member_of; [done| |apply json_reads; [by apply record_plain|done]].
    pose proof (record_nesting (ac_Record c)). lia.
  - destruct (ac_Checkpoint c) as [cp|]; [|by subst]. destruct EK as (kb & EK & ->). destruct (TK cp eq_refl).
    constructor; [|constructor]. eapply member_of; [done| |apply json_reads; [|exact EK]].
    + cbn. lia.
    + eapply checkpoint_plain; eauto.
  - destruct (ac_Outbox c) as [|d l] eqn:EL; [by subst|]. destruct EO as (ls & EO & ->).
    constructor; [|constructor]. destruct (outbox_reads (d :: l) ls) as [H R]; [|done|].
    + clear - VO TD TS VE. rewrite Forall_forall in *. intros x I. destruct (VO x I) as (V1 & V2 & V3 & V4 & _).
      destruct (TD x I) as (P & C & D). eapply delivery_plain; eauto. by rewrite V3.
    + eapply (member_of _ 2); [done|lia|]. apply (array_reads 1); [done| |done|done]. intros ->. by inversion EO.
Qed.

(** The encoding of a valid commit is read back as the commit. *)
Lemma commit_decodes c b : validateCommit c = None -> typed_commit c = true -> commit_bytes c = Some b ->
  decode_commit (of_bytes b) = Some c.
Proof.
  intros V T E. unfold decode_commit, decodeStrict. rewrite (reads_document b (commit_tree c)).
  2:{ eapply reads_mono; [|by apply commit_reads]. done. }
  destruct (valid_commit c V) as (VR & VK & VO). apply valid_outbox in VO.
  destruct (typed_fields c T) as (TS & TP & TA & TK & TD).
  destruct (commit_bytes_parts c b E) as (rb & cpb & ob & ER & EK & EO & _).
  apply tree_decodes.
  - by eapply record_decodes.
  - intros cp EC. rewrite EC in EK. destruct EK as (kb & EK & _), (TK cp EC), (valid_checkpoint _ _ (VK cp EC)) as (_ & S & _).
    eapply checkpoint_decodes; [by rewrite S|done|done|exact EK].
  - destruct (ac_Outbox c) as [|d0 l0]; [constructor|]. destruct EO as (ls & EO & _). clear - VO TD TS EO.
    induction EO as [|d lb l ls E EO IH]; [constructor|].
    apply Forall_cons in VO as [(V1 & V2 & V3 & _) VO], TD as [(P & C & D) TD].
    constructor; [|by apply IH]. eapply delivery_decodes; eauto. by rewrite V3.
Qed.

(** ** Digests *)

Lemma lower_hex_fixed l : forallb is_lower_hex_char l = true ->
  concat (map (fun r => EncodeRune (LowerRune r)) (map fst (decode_from 0 l))) = l.
Proof.
  induction l as [|c l IH]; [done|]. cbn [forallb]. intros H. apply andb_true_iff in H as [H HL].
  assert (forall c, negb (is_lower_hex_char c) || (plain_char c && (LowerRune (byte_val c) =? byte_val c)) = true) as A
    by (apply every_char; vm_compute; done).
  specialize (A c). rewrite H in A. cbn [negb orb] in A. apply andb_true_iff in A as [P L]. props.
  cbn [decode_from]. rewrite plain_decode by done. cbn [fst snd pred map concat]. rewrite L, plain_encode, IH by done. done.
Qed.

(** Every SHA-256 sum is a digest. *)
Lemma hex_sum_digest s : isDigest (hex_sum s) = true.
Proof.
  unfold isDigest. rewrite hex_sum_length. pose proof (hex_sum_lower s) as L.
  assert (ToLower (hex_sum s) = hex_sum s) as ->.
  { unfold ToLower, map_runes, runes, decoded. rewrite lower_hex_fixed by done. apply of_bytes_bytes. }
  rewrite String.eqb_refl. cbn [Z.eqb Pos.eqb negb orb]. unfold hex_decodable.
  assert (String.length (hex_sum s) = 64%nat) as -> by (pose proof (hex_sum_length s) as H; unfold len in H; lia).
  cbn [Nat.even andb]. apply forallb_forall. intros c I. rewrite forallb_forall in L. specialize (L c I).
  unfold is_lower_hex_char in L. unfold is_hex_char. apply orb_true_iff in L as [L|L]; rewrite L; [done|by rewrite orb_true_r].
Qed.
