(* ===== verification/AuditJournal.v ===== *)
(** * The audit journal and the outbox adapters (internal/audit/journal.go, outbox.go)

    [Journal] is the interface of the code: an append-only stream of commits
    with a queue of deliveries. A context is given by the error it reports at
    the time of a call. [MemoryJournal] is the implementation of the code. *)

From S2P Require Import Prelude GoText Sha256 JsonValid Json JsonDecode TimeText JsonReads AuditEvent AuditDecode.
From Stdlib Require Import Ascii.
From stdpp Require Import sorting.

Open Scope string_scope.
Open Scope list_scope.
Open Scope Z_scope.
Open Scope go_scope.

(** A context, by the text of the error it reports. *)
Definition Context : Type := option string.
Definition Background : Context := None.

Definition contextErr (ctx : Context) : option error := ErrContext <$> ctx.

(** ** The interface

    [AckOutbox] is also given the time of the machine, which the
    implementation may read. *)

Class Journal (J : Type) := {
  journal_Append : Context -> Commit -> J -> J * option error;
  journal_Records : Context -> string -> Z -> Z -> J -> result error (list AuditRecord);
  journal_Last : Context -> string -> J -> result error AuditRecord;
  journal_Checkpoint : Context -> string -> Z -> J -> result error (option Checkpoint);
  journal_PendingOutbox : Context -> string -> Z -> J -> result error (list Delivery);
  journal_AckOutbox : Context -> Time -> Delivery -> J -> J * option error;
  journal_Verify : Context -> string -> J -> option error;
  journal_Durable : J -> bool;
  journal_Flush : Context -> J -> option error }.

Definition stream_of (c : Commit) : string := ae_StreamID (ar_Event (ac_Record c)).
Definition sequence_of (c : Commit) : Z := ar_Sequence (ac_Record c).
Definition event_id (c : Commit) : string := ae_EventID (ar_Event (ac_Record c)).

(** A chain of commits, from the sequence after [n] and the hash [previous]. *)
Fixpoint verify_from (n : Z) (previous : string) (commits : list Commit) : option error :=
  match commits with
  | [] => None
  | c :: commits =>
      return Some ErrCorruptChain when negb (sequence_of c =? n + 1)
        || negb (String.eqb (ar_PreviousHash (ac_Record c)) previous)
        || match validateCommit c with Some _ => true | None => false end ;;
      verify_from (n + 1) (ar_Hash (ac_Record c)) commits
  end.

Definition verifyCommits (commits : list Commit) : option error := verify_from 0 "" commits.

(** What an append-only journal promises: its streams are chains with one
    record for an event, [Append] adds at most the commit and is refused as a
    replay only for a sequence or an event that is there, and nothing else
    changes a stream. *)
Class JournalLaws (J : Type) `{Journal J} := {
  journal_rows : J -> string -> list Commit;
  journal_wf : J -> Prop;
  rows_verify : forall j s, journal_wf j -> verifyCommits (journal_rows j s) = None;
  rows_stream : forall j s, journal_wf j -> Forall (fun c => stream_of c = s) (journal_rows j s);
  rows_events : forall j s, journal_wf j -> NoDup (map event_id (journal_rows j s));
  append_wf : forall ctx c j j' err, journal_Append ctx c j = (j', err) -> journal_wf j -> journal_wf j';
  ack_wf : forall ctx clock d j j' err, journal_AckOutbox ctx clock d j = (j', err) -> journal_wf j -> journal_wf j';
  append_ok : forall ctx c j j', journal_Append ctx c j = (j', None) ->
    journal_rows j' (stream_of c) = journal_rows j (stream_of c) ++ [c]
    \/ journal_rows j' (stream_of c) = journal_rows j (stream_of c)
       /\ sequence_of c <= Z.of_nat (length (journal_rows j (stream_of c)));
  append_err : forall ctx c j j' err s, journal_Append ctx c j = (j', Some err) -> journal_rows j' s = journal_rows j s;
  append_replay : forall ctx c j j', journal_Append ctx c j = (j', Some ErrReplayConflict) ->
    sequence_of c <= Z.of_nat (length (journal_rows j (stream_of c)))
    \/ event_id c ∈ map event_id (journal_rows j (stream_of c));
  append_other : forall ctx c j j' err s, journal_Append ctx c j = (j', err) -> s <> stream_of c ->
    journal_rows j' s = journal_rows j s;
  append_durable : forall ctx c j j' err, journal_Append ctx c j = (j', err) -> journal_Durable j' = journal_Durable j;
  last_ok : forall ctx s j r, journal_Last ctx s j = Ok r -> r = from_option ac_Record zero_record (last (journal_rows j s));
  records_ok : forall ctx s j rs, journal_Records ctx s 0 0 j = Ok rs -> rs = map ac_Record (journal_rows j s);
  checkpoint_ok : forall ctx s n j cp, 0 < n -> journal_Checkpoint ctx s n j = Ok cp ->
    cp = journal_rows j s !! Z.to_nat (n - 1) ≫= ac_Checkpoint;
  ack_rows : forall ctx clock d j j' err s, journal_AckOutbox ctx clock d j = (j', err) -> journal_rows j' s = journal_rows j s;
  ack_durable : forall ctx clock d j j' err, journal_AckOutbox ctx clock d j = (j', err) ->
    journal_Durable j' = journal_Durable j }.

(** ** The journal in memory *)

Record MemoryJournal := {
  mj_durable : bool; mj_streams : gmap string (list Commit); mj_outbox : gmap string Delivery }.

Definition NewMemoryJournalWithDurability (durable : bool) : MemoryJournal :=
  {| mj_durable := durable; mj_streams := ∅; mj_outbox := ∅ |}.

Definition rows_of (j : MemoryJournal) (stream : string) : list Commit := default [] (mj_streams j !! stream).

Definition set_rows (j : MemoryJournal) (stream : string) (rows : list Commit) : MemoryJournal :=
  {| mj_durable := mj_durable j; mj_streams := <[stream := rows]> (mj_streams j); mj_outbox := mj_outbox j |}.

Definition set_outbox (j : MemoryJournal) (outbox : gmap string Delivery) : MemoryJournal :=
  {| mj_durable := mj_durable j; mj_streams := mj_streams j; mj_outbox := outbox |}.

Definition last_hash (rows : list Commit) : string :=
  match last rows with Some c => ar_Hash (ac_Record c) | None => "" end.

(** The checks of a commit against the rows of its stream: [Some None] when
    it is there already. *)
Definition append_check (rows : list Commit) (outbox : gmap string Delivery) (c : Commit) : option (option error) :=
  let n := Z.of_nat (length rows) in
  if sequence_of c <=? n then
    match rows !! Z.to_nat (sequence_of c - 1) with
    | Some prior => if commitEqual prior c then Some None else Some (Some ErrReplayConflict)
    | None => Some (Some ErrReplayConflict)
    end
  else
  return Some (Some ErrSequenceConflict) when negb (sequence_of c =? n + 1) ;;
  return Some (Some ErrSequenceConflict) when
    (0 <? n) && negb (String.eqb (ar_PreviousHash (ac_Record c)) (last_hash rows)) ;;
  return Some (Some ErrReplayConflict) when existsb (fun prior => String.eqb (event_id prior) (event_id c)) rows ;;
  return Some (Some ErrOutboxConflict) when
    existsb (fun d => match outbox !! dl_DeliveryID d with Some prior => negb (deliveryEqual prior d) | None => false end)
      (ac_Outbox c) ;;
  None.

Definition enqueue_all (outbox : gmap string Delivery) (ds : list Delivery) : gmap string Delivery :=
  fold_left (fun m d => <[dl_DeliveryID d := d]> m) ds outbox.

Definition mem_Append (ctx : Context) (c : Commit) (j : MemoryJournal) : MemoryJournal * option error :=
  match contextErr ctx with
  | Some err => (j, Some err)
  | None =>
      match validateCommit c with
      | Some err => (j, Some err)
      | None =>
          let stream := stream_of c in
          let rows := rows_of j stream in
          let j := set_rows j stream rows in
          match append_check rows (mj_outbox j) c with
          | Some r => (j, r)
          | None => (set_outbox (set_rows j stream (rows ++ [c])) (enqueue_all (mj_outbox j) (ac_Outbox c)), None)
          end
      end
  end.

Definition mem_Records (ctx : Context) (stream : string) (after limit : Z) (j : MemoryJournal)
    : result error (list AuditRecord) :=
  match contextErr ctx with
  | Some err => Err err
  | None =>
      let rows := rows_of j stream in
      match verifyCommits rows with
      | Some err => Err err
      | None =>
          let limit := if limit <=? 0 then Z.of_nat (length rows) else limit in
          Ok (take (Z.to_nat limit) (map ac_Record (List.filter (fun c => after <? sequence_of c) rows)))
      end
  end.

Definition mem_Last (ctx : Context) (stream : string) (j : MemoryJournal) : result error AuditRecord :=
  match contextErr ctx with
  | Some err => Err err
  | None =>
      let rows := rows_of j stream in
      match last rows with
      | None => Ok zero_record
      | Some c => match verifyCommits rows with Some err => Err err | None => Ok (ac_Record c) end
      end
  end.

Definition mem_Checkpoint (ctx : Context) (stream : string) (sequence : Z) (j : MemoryJournal)
    : result error (option Checkpoint) :=
  match contextErr ctx with
  | Some err => Err err
  | None =>
      let rows := rows_of j stream in
      return Ok None when (sequence =? 0) || (Z.of_nat (length rows) <? sequence) ;;
      Ok (rows !! Z.to_nat (sequence - 1) ≫= ac_Checkpoint)
  end.

(** The order of [sort.Slice] of the pending deliveries. *)
Definition delivery_le (a b : Delivery) : Prop :=
  dl_Sequence a < dl_Sequence b \/ dl_Sequence a = dl_Sequence b /\ String.ltb (dl_Target b) (dl_Target a) = false.

#[global] Instance delivery_le_dec : RelDecision delivery_le.
Proof. intros a b. unfold delivery_le. apply _. Defined.

Definition is_pending (stream : string) (d : Delivery) : bool :=
  String.eqb (dl_StreamID d) stream && IsZero (dl_DeliveredAt d).

Definition mem_PendingOutbox (ctx : Context) (stream : string) (limit : Z) (j : MemoryJournal)
    : result error (list Delivery) :=
  match contextErr ctx with
  | Some err => Err err
  | None =>
      let out := merge_sort delivery_le (List.filter (is_pending stream) (map snd (map_to_list (mj_outbox j)))) in
      Ok (if (0 <? limit) && (limit <? Z.of_nat (length out)) then take (Z.to_nat limit) out else out)
  end.

Definition delivered_at (d : Delivery) (t : Time) : Delivery :=
  {| dl_DeliveryID := dl_DeliveryID d; dl_Target := dl_Target d; dl_StreamID := dl_StreamID d;
     dl_Sequence := dl_Sequence d; dl_EventID := dl_EventID d; dl_RecordHash := dl_RecordHash d;
     dl_CreatedAt := dl_CreatedAt d; dl_DeliveredAt := t |}.

(** [clock] is the time of the machine. *)
Definition mem_AckOutbox (clock : Time) (ctx : Context) (d : Delivery) (j : MemoryJournal) : MemoryJournal * option error :=
  match contextErr ctx with
  | Some err => (j, Some err)
  | None =>
      match mj_outbox j !! dl_DeliveryID d with
      | None => (j, None)
      | Some prior =>
          return (j, Some ErrOutboxConflict) when negb (deliveryIdentityEqual prior d) ;;
          let t := if IsZero (dl_DeliveredAt d) then clock else dl_DeliveredAt d in
          (set_outbox j (<[dl_DeliveryID d := delivered_at prior t]> (mj_outbox j)), None)
      end
  end.

Definition mem_Verify (ctx : Context) (stream : string) (j : MemoryJournal) : option error :=
  match contextErr ctx with Some err => Some err | None => verifyCommits (rows_of j stream) end.

#[global] Instance MemoryJournal_Journal : Journal MemoryJournal := {|
  journal_Append := mem_Append; journal_Records := mem_Records; journal_Last := mem_Last;
  journal_Checkpoint := mem_Checkpoint; journal_PendingOutbox := mem_PendingOutbox;
  journal_AckOutbox ctx clock := mem_AckOutbox clock ctx; journal_Verify := mem_Verify; journal_Durable := mj_durable;
  journal_Flush := fun ctx _ => contextErr ctx |}.

(** ** The adapter in memory *)

Record MemoryOutboxAdapter := { oa_target : OutboxTarget; oa_durable : bool; oa_items : gmap string Delivery }.

Definition NewMemoryOutboxAdapter (target : OutboxTarget) (durable : bool) : MemoryOutboxAdapter :=
  {| oa_target := target; oa_durable := durable; oa_items := ∅ |}.

Definition set_item (a : MemoryOutboxAdapter) (d : Delivery) : MemoryOutboxAdapter :=
  {| oa_target := oa_target a; oa_durable := oa_durable a; oa_items := <[dl_DeliveryID d := d]> (oa_items a) |}.

Definition foreign (a : MemoryOutboxAdapter) (d : Delivery) : bool :=
  match validateDelivery d with Some _ => true | None => false end || negb (String.eqb (dl_Target d) (oa_target a)).

Definition Deliver (ctx : Context) (d : Delivery) (a : MemoryOutboxAdapter) : MemoryOutboxAdapter * option error :=
  match contextErr ctx with
  | Some err => (a, Some err)
  | None =>
      return (a, Some ErrOutboxInvalid) when foreign a d ;;
      match oa_items a !! dl_DeliveryID d with
      | Some prior => (a, if deliveryEqual prior d then None else Some ErrOutboxConflict)
      | None => (set_item a d, None)
      end
  end.

Definition Enqueue (ctx : Context) (d : Delivery) (a : MemoryOutboxAdapter) : MemoryOutboxAdapter * option error :=
  Deliver ctx d a.

Definition delivery_id_le (a b : Delivery) : Prop := String.ltb (dl_DeliveryID b) (dl_DeliveryID a) = false.

#[global] Instance delivery_id_le_dec : RelDecision delivery_id_le.
Proof. intros a b. unfold delivery_id_le. apply _. Defined.

Definition Pending (ctx : Context) (limit : Z) (a : MemoryOutboxAdapter) : result error (list Delivery) :=
  match contextErr ctx with
  | Some err => Err err
  | None =>
      let out := merge_sort delivery_id_le
        (List.filter (fun d => IsZero (dl_DeliveredAt d)) (map snd (map_to_list (oa_items a)))) in
      Ok (if (0 <? limit) && (limit <? Z.of_nat (length out)) then take (Z.to_nat limit) out else out)
  end.

Definition MarkDelivered (clock : Time) (ctx : Context) (d : Delivery) (a : MemoryOutboxAdapter)
    : MemoryOutboxAdapter * option error :=
  match contextErr ctx with
  | Some err => (a, Some err)
  | None =>
      return (a, Some ErrOutboxInvalid) when foreign a d ;;
      match oa_items a !! dl_DeliveryID d with
      | None => (a, Some ErrOutboxInvalid)
      | Some prior =>
          return (a, Some ErrOutboxConflict) when negb (String.eqb (dl_StreamID prior) (dl_StreamID d))
            || negb (dl_Sequence prior =? dl_Sequence d) || negb (String.eqb (dl_EventID prior) (dl_EventID d))
            || negb (String.eqb (dl_RecordHash prior) (dl_RecordHash d)) ;;
          return (a, None) when negb (IsZero (dl_DeliveredAt prior)) ;;
          let t := if IsZero (dl_DeliveredAt d) then clock else dl_DeliveredAt d in
          (set_item a (delivered_at prior t), None)
      end
  end.

Definition Deliveries (a : MemoryOutboxAdapter) : list Delivery :=
  merge_sort delivery_id_le (map snd (map_to_list (oa_items a))).

(** ** What the audit journal guarantees (internal/audit/journal.go)

    The journal in memory keeps the promises of its interface: after any
    operations every stream is a verified chain with one record for an event,
    and streams only grow. *)

(** ** Chains *)

Definition hash_after (previous : string) (l : list Commit) : string :=
  match last l with Some c => ar_Hash (ac_Record c) | None => previous end.

Lemma verify_app l l' n previous :
  verify_from n previous (l ++ l') = None <->
  verify_from n previous l = None /\ verify_from (n + Z.of_nat (length l)) (hash_after previous l) l' = None.
Proof.
  revert n previous. induction l as [|c l IH]; intros n previous.
  - cbn [app length verify_from]. rewrite Z.add_0_r. split; [by intros H|by intros [_ H]].
  - cbn [app verify_from length]. destruct (_ || _); [split; [done|by intros [? _]]|]. rewrite IH.
    replace (n + 1 + Z.of_nat (length l)) with (n + Z.of_nat (S (length l))) by lia.
    replace (hash_after (ar_Hash (ac_Record c)) l) with (hash_after previous (c :: l)); [done|].
    unfold hash_after. destruct l as [|d l]; [done|]. change (last (c :: d :: l)) with (last (d :: l)).
    by destruct (last (d :: l)) eqn:E; [|apply last_None in E].
Qed.

Lemma verify_one n previous c : verify_from n previous [c] = None <->
  sequence_of c = n + 1 /\ ar_PreviousHash (ac_Record c) = previous /\ validateCommit c = None.
Proof.
  cbn [verify_from]. destruct (_ || _) eqn:E.
  - split; [done|]. intros (S & P & V). rewrite S, P, V, Z.eqb_refl, String.eqb_refl in E. done.
  - props. destruct (validateCommit c); [done|]. done.
Qed.

Lemma verify_snoc l c : verifyCommits (l ++ [c]) = None <->
  verifyCommits l = None /\ sequence_of c = Z.of_nat (length l) + 1
  /\ ar_PreviousHash (ac_Record c) = last_hash l /\ validateCommit c = None.
Proof. unfold verifyCommits. by rewrite verify_app, verify_one. Qed.

(** The row at a position has its sequence. *)
Lemma verify_lookup l i c : verifyCommits l = None -> l !! i = Some c ->
  sequence_of c = Z.of_nat i + 1 /\ validateCommit c = None
  /\ ar_PreviousHash (ac_Record c) = last_hash (take i l).
Proof.
  intros V L. rewrite <- (take_drop_middle l i c L) in V. rewrite cons_middle, (assoc app) in V.
  unfold verifyCommits in V. apply verify_app in V as [V _]. apply verify_snoc in V as (_ & S & P & VC).
  rewrite length_take_le in S by (apply lookup_lt_Some in L; lia). done.
Qed.

Lemma filter_all {A} (P : A -> bool) l : (forall x, In x l -> P x = true) -> List.filter P l = l.
Proof.
  induction l as [|x l IH]; [done|]. intros F. cbn. rewrite F by (by left). f_equal. apply IH. intros y I. apply F. by right.
Qed.

(** ** The journal in memory *)

Definition stream_ok (stream : string) (rows : list Commit) : Prop :=
  verifyCommits rows = None /\ Forall (fun c => stream_of c = stream) rows /\ NoDup (map event_id rows).

Definition mem_wf (j : MemoryJournal) : Prop := forall stream, stream_ok stream (rows_of j stream).

Lemma rows_set_same j s rows : rows_of (set_rows j s rows) s = rows.
Proof. unfold rows_of, set_rows. cbn. by rewrite lookup_insert_eq. Qed.

Lemma rows_set_other j s s' rows : s <> s' -> rows_of (set_rows j s rows) s' = rows_of j s'.
Proof. intros N. unfold rows_of, set_rows. cbn. by rewrite lookup_insert_ne. Qed.

Lemma rows_set_id j s s' : rows_of (set_rows j s (rows_of j s)) s' = rows_of j s'.
Proof. destruct (decide (s = s')) as [->|N]; [apply rows_set_same|by apply rows_set_other]. Qed.

Lemma rows_set_outbox j o s : rows_of (set_outbox j o) s = rows_of j s.
Proof. done. Qed.

(** When no check refuses a commit, it extends its stream. *)
Lemma append_check_none rows outbox c : append_check rows outbox c = None ->
  sequence_of c = Z.of_nat (length rows) + 1 /\ (rows <> [] -> ar_PreviousHash (ac_Record c) = last_hash rows)
  /\ event_id c ∉ map event_id rows.
Proof.
  unfold append_check. destruct (sequence_of c <=? _) eqn:L; [repeat case_match; done|].
  destruct (negb _) eqn:S; [done|]. destruct (_ && _) eqn:P; [done|]. destruct (existsb _ rows) eqn:E; [done|].
  destruct (existsb _ (ac_Outbox c)); [done|]. intros _. props. split_and!; [done| |].
  - intros NE. destruct rows as [|r rows]; [done|]. apply andb_false_iff in P as [P|P]; props; [cbn in P; lia|done].
  - intros I. apply list_elem_of_fmap in I as (d & EQ & I). apply list_elem_of_In in I.
    assert (existsb (fun prior => String.eqb (event_id prior) (event_id c)) rows = true); [|congruence].
    apply existsb_exists. exists d. split; [done|]. rewrite EQ. apply String.eqb_refl.
Qed.

(** What it means that a check answers. *)
Lemma append_check_some rows outbox c err : append_check rows outbox c = Some err ->
  (err = None -> sequence_of c <= Z.of_nat (length rows))
  /\ (err = Some ErrReplayConflict -> sequence_of c <= Z.of_nat (length rows) \/ event_id c ∈ map event_id rows).
Proof.
  unfold append_check. destruct (sequence_of c <=? _) eqn:L; [props; intros _; by split; intros; [|left]|].
  destruct (negb _); [by intros [= <-]|]. destruct (_ && _); [by intros [= <-]|].
  destruct (existsb _ rows) eqn:E; [|destruct (existsb _ (ac_Outbox c)); by intros [= <-]].
  intros [= <-]. split; [done|]. intros _. right. apply existsb_exists in E as (d & I & EQ). props. rewrite <- EQ.
  by apply list_elem_of_fmap_2, list_elem_of_In.
Qed.

(** The outcomes of [Append]. *)
Inductive append_outcome (c : Commit) (j : MemoryJournal) : MemoryJournal -> option error -> Prop :=
| Refused err : err <> ErrReplayConflict -> append_outcome c j j (Some err)
| Checked err : append_check (rows_of j (stream_of c)) (mj_outbox j) c = Some err ->
    append_outcome c j (set_rows j (stream_of c) (rows_of j (stream_of c))) err
| Appended : validateCommit c = None -> append_check (rows_of j (stream_of c)) (mj_outbox j) c = None ->
    append_outcome c j
      (set_outbox (set_rows (set_rows j (stream_of c) (rows_of j (stream_of c)))
                     (stream_of c) (rows_of j (stream_of c) ++ [c])) (enqueue_all (mj_outbox j) (ac_Outbox c))) None.

Lemma validate_record_error r err : validateRecord r = Some err -> err = ErrInvalidRecord.
Proof. unfold validateRecord. repeat case_match; congruence. Qed.

Lemma validate_commit_error c err : validateCommit c = Some err -> err <> ErrReplayConflict.
Proof.
  unfold validateCommit, checkpointShape. destruct (validateRecord _) eqn:V.
  - apply validate_record_error in V as ->. by intros [= <-].
  - repeat case_match; congruence.
Qed.

Lemma mem_Append_outcome ctx c j j' err : mem_Append ctx c j = (j', err) -> append_outcome c j j' err.
Proof.
  unfold mem_Append. destruct (contextErr ctx) as [e|] eqn:C.
  { intros [= <- <-]. constructor. destruct ctx; by simplify_eq/=. }
  destruct (validateCommit c) as [e|] eqn:V; [intros [= <- <-]; constructor; by eapply validate_commit_error|].
  cbv zeta. change (mj_outbox (set_rows j _ _)) with (mj_outbox j).
  destruct (append_check _ _ c) as [e|] eqn:A; intros [= <- <-]; by constructor.
Qed.

Lemma mem_Append_same ctx c j j' err s : mem_Append ctx c j = (j', err) ->
  rows_of j' s = rows_of j s
  \/ s = stream_of c /\ err = None /\ validateCommit c = None
     /\ append_check (rows_of j s) (mj_outbox j) c = None /\ rows_of j' s = rows_of j s ++ [c].
Proof.
  intros E. apply mem_Append_outcome in E as [e NE|e A|V A]; [by left|left; apply rows_set_id|].
  rewrite rows_set_outbox. destruct (decide (s = stream_of c)) as [->|N].
  - right. by rewrite rows_set_same.
  - left. by rewrite rows_set_other, rows_set_id.
Qed.

Lemma last_hash_nil c : validateCommit c = None -> sequence_of c = 1 -> ar_PreviousHash (ac_Record c) = "".
Proof. intros V S. by destruct (valid_record _ (proj1 (valid_commit c V))) as (_ & _ & _ & _ & P & _); apply P. Qed.

Lemma mem_Append_wf ctx c j j' err : mem_Append ctx c j = (j', err) -> mem_wf j -> mem_wf j'.
Proof.
  intros E W s. destruct (mem_Append_same _ _ _ _ _ s E) as [->|(-> & _ & V & A & ->)]; [done|].
  destruct (W (stream_of c)) as (VR & FS & ND). apply append_check_none in A as (S & P & I).
  split_and!.
  - apply verify_snoc. split_and!; try done. destruct (rows_of j (stream_of c)) as [|r rows] eqn:R; [|by apply P].
    by apply last_hash_nil.
  - apply Forall_app_2; [done|]. by constructor.
  - rewrite map_app. apply NoDup_app. split_and!; [done| |apply NoDup_singleton].
    intros x X Y. apply list_elem_of_singleton in Y as ->. done.
Qed.

Lemma mem_Ack_rows ctx clock d j j' err s : mem_AckOutbox clock ctx d j = (j', err) -> rows_of j' s = rows_of j s.
Proof. unfold mem_AckOutbox. repeat case_match; by intros [= <- <-]. Qed.

Lemma mem_Append_durable ctx c j j' err : mem_Append ctx c j = (j', err) -> mj_durable j' = mj_durable j.
Proof. intros E. by apply mem_Append_outcome in E as [e NE|e A|V A]. Qed.

#[global] Instance MemoryJournal_laws : JournalLaws MemoryJournal.
Proof.
  refine {| journal_rows := rows_of; journal_wf := mem_wf |}; cbn.
  - intros j s W. apply W.
  - intros j s W. apply W.
  - intros j s W. apply W.
  - apply mem_Append_wf.
  - intros ctx clock d j j' err E W s. rewrite (mem_Ack_rows _ _ _ _ _ _ s E). apply W.
  - intros ctx c j j' E. pose proof (mem_Append_same _ _ _ _ _ (stream_of c) E) as [R|(_ & _ & _ & _ & R)]; [|by left].
    apply mem_Append_outcome in E. inversion E as [|e A|]; subst.
    + right. split; [done|]. eapply append_check_some; [|done]. done.
    + left. by rewrite rows_set_outbox, rows_set_same.
  - intros ctx c j j' err s E. by destruct (mem_Append_same _ _ _ _ _ s E) as [?|(_ & ? & _)].
  - intros ctx c j j' E. apply mem_Append_outcome in E. inversion E as [|e A|]; subst; [done|].
    by apply (append_check_some _ _ _ _ A).
  - intros ctx c j j' err s E N. by destruct (mem_Append_same _ _ _ _ _ s E) as [?|(? & _)].
  - apply mem_Append_durable.
  - intros ctx s j r. unfold mem_Last. destruct (contextErr ctx); [done|]. destruct (last (rows_of j s)); [|by intros [= <-]].
    destruct (verifyCommits _); [done|]. by intros [= <-].
  - intros ctx s j rs. unfold mem_Records. destruct (contextErr ctx); [done|]. destruct (verifyCommits _) eqn:V; [done|].
    intros [= <-]. cbn [Z.leb Z.compare]. rewrite filter_all, take_ge; [done|rewrite length_map; lia|].
    intros c I. apply list_elem_of_In, list_elem_of_lookup in I as [i L]. destruct (verify_lookup _ _ _ V L) as (S & _). lia.
  - intros ctx s n j cp P. unfold mem_Checkpoint. destruct (contextErr ctx); [done|]. destruct (_ || _) eqn:B; intros [= <-]; [|done].
    apply orb_true_iff in B as [B|B]; props; [lia|]. by rewrite lookup_ge_None_2 by lia.
  - intros ctx clock d j j' err s E. by eapply mem_Ack_rows.
  - intros ctx clock d j j' err. unfold mem_AckOutbox. repeat case_match; by intros [= <- <-].
Defined.

(** ** Properties *)

(** The operations that change a journal. *)
#[warnings="-register-all"]
Inductive mem_op := OpAppend (ctx : Context) (c : Commit) | OpAck (ctx : Context) (clock : Time) (d : Delivery).

Definition mem_apply (j : MemoryJournal) (op : mem_op) : MemoryJournal :=
  match op with OpAppend ctx c => fst (mem_Append ctx c j) | OpAck ctx clock d => fst (mem_AckOutbox clock ctx d j) end.

Definition mem_after (ops : list mem_op) (j : MemoryJournal) : MemoryJournal := fold_left mem_apply ops j.

Lemma mem_apply_wf j op : mem_wf j -> mem_wf (mem_apply j op).
Proof.
  intros W. destruct op as [ctx c|ctx clock d]; cbn [mem_apply].
  - destruct (mem_Append ctx c j) as [j' err] eqn:E. by eapply mem_Append_wf.
  - destruct (mem_AckOutbox clock ctx d j) as [j' err] eqn:E. intros s. cbn [fst]. rewrite (mem_Ack_rows _ _ _ _ _ _ s E). apply W.
Qed.

Lemma mem_after_wf ops j : mem_wf j -> mem_wf (mem_after ops j).
Proof. revert j. induction ops as [|op ops IH]; intros j W; [done|]. by apply IH, mem_apply_wf. Qed.

Lemma mem_apply_grows j op s : rows_of j s `prefix_of` rows_of (mem_apply j op) s.
Proof.
  destruct op as [ctx c|ctx clock d]; cbn [mem_apply].
  - destruct (mem_Append ctx c j) as [j' err] eqn:E.
    destruct (mem_Append_same _ _ _ _ _ s E) as [R|(_ & _ & _ & _ & R)]; cbn [fst]; rewrite R; [done|by apply prefix_app_r].
  - destruct (mem_AckOutbox clock ctx d j) as [j' err] eqn:E. cbn [fst]. by rewrite (mem_Ack_rows _ _ _ _ _ _ s E).
Qed.

Lemma mem_after_grows ops j s : rows_of j s `prefix_of` rows_of (mem_after ops j) s.
Proof.
  revert j. induction ops as [|op ops IH]; intros j; [done|]. etrans; [apply mem_apply_grows|apply IH].
Qed.

Lemma new_wf durable : mem_wf (NewMemoryJournalWithDurability durable).
Proof. intros s. unfold rows_of. cbn. rewrite lookup_empty. by repeat constructor. Qed.

(** The streams of a journal only grow: whatever is appended, refused or acknowledged, in any
    order and by any writers, every stream is a verified chain numbered from 1 with one record for
    an event, and further operations keep its commits, unchanged, as a prefix. *)
Theorem audit_streams_append_only durable ops ops' stream :
  let j := mem_after ops (NewMemoryJournalWithDurability durable) in
  let j' := mem_after ops' j in
  mem_Verify Background stream j' = None
  /\ (forall i c, rows_of j' stream !! i = Some c -> sequence_of c = Z.of_nat i + 1 /\ stream_of c = stream
        /\ ar_PreviousHash (ac_Record c) = last_hash (take i (rows_of j' stream)))
  /\ NoDup (map event_id (rows_of j' stream))
  /\ rows_of j stream `prefix_of` rows_of j' stream.
Proof.
  intros j j'. assert (mem_wf j') as W by (apply mem_after_wf, mem_after_wf, new_wf).
  destruct (W stream) as (V & F & ND). split_and!; [done| |done|apply mem_after_grows].
  intros i c L. destruct (verify_lookup _ _ _ V L) as (Q & _ & P). split_and!; [done| |done].
  rewrite Forall_forall in F. apply F. by eapply list_elem_of_lookup_2.
Qed.
