(* ===== verification/AuditSpool.v ===== *)
(** * The encrypted spool (internal/audit/spool.go)

    Commits that the journal could not take, sealed with an AEAD. The cipher
    is a parameter, as is what the random source answers. *)

From S2P Require Import Prelude GoText Sha256 JsonValid Json JsonDecode TimeText JsonReads AuditEvent AuditDecode AuditJournal.
From Stdlib Require Import Ascii.

Open Scope string_scope.
Open Scope list_scope.
Open Scope Z_scope.
Open Scope go_scope.

Record SpoolEntry := {
  se_Version : Z; se_EntryID : string; se_StreamID : string; se_Sequence : Z; se_RecordHash : string;
  se_Nonce : string; se_Ciphertext : string; se_CiphertextDigest : string }.

(** The bytes that the random source delivers next, or none when it fails. *)
Definition Random : Type := option (nat -> ascii).

(** [rand.Read] of a slice of [n] bytes. *)
Definition rand_Read (n : nat) (random : Random) : option string := (fun f => of_bytes (map f (seq 0 n))) <$> random.

(** ** The interface

    [Put] is also given the random source. *)

Class EncryptedSpool (S : Type) := {
  spool_Put : Context -> Random -> Commit -> S -> S * option error;
  spool_Entries : Context -> string -> S -> result error (list SpoolEntry);
  spool_Open : Context -> SpoolEntry -> S -> result error Commit;
  spool_Ack : Context -> SpoolEntry -> S -> S * option error;
  spool_Durable : S -> bool;
  spool_Flush : Context -> S -> option error }.

(** A commit that can be written and read back. *)
Definition encodable (c : Commit) : Prop := validateCommit c = None /\ typed_commit c = true /\ is_Some (commit_bytes c).

(** What a spool promises: the commits that can be opened for a stream, in
    the order of [Put]; a refused operation changes nothing, an acknowledged
    entry is the only one that may disappear, and an entry opens alike
    whatever happens to the spool. *)
Class SpoolLaws (S : Type) `{EncryptedSpool S} := {
  spool_commits : S -> string -> list Commit;
  spool_wf : S -> Prop;
  put_ok : forall ctx rnd c s s', spool_wf s -> encodable c -> spool_Put ctx rnd c s = (s', None) ->
    spool_commits s' (stream_of c) = spool_commits s (stream_of c) ++ [c]
    \/ spool_commits s' (stream_of c) = spool_commits s (stream_of c)
       /\ exists stream, event_id c ∈ map event_id (spool_commits s stream);
  put_other : forall ctx rnd c s s' err stream, spool_Put ctx rnd c s = (s', err) -> encodable c -> stream <> stream_of c ->
    spool_commits s' stream = spool_commits s stream;
  put_err : forall ctx rnd c s s' err, spool_Put ctx rnd c s = (s', Some err) ->
    (forall stream, spool_commits s' stream = spool_commits s stream) /\ (spool_wf s -> spool_wf s');
  put_valid : forall ctx rnd c s s', spool_Put ctx rnd c s = (s', None) -> validateCommit c = None;
  put_wf : forall ctx rnd c s s', spool_Put ctx rnd c s = (s', None) -> encodable c -> spool_wf s -> spool_wf s';
  put_durable : forall ctx rnd c s s' err, spool_Put ctx rnd c s = (s', err) -> spool_Durable s' = spool_Durable s;
  entries_ok : forall ctx stream s es, spool_wf s -> spool_Entries ctx stream s = Ok es ->
    Forall2 (fun e c => forall ctx c', spool_Open ctx e s = Ok c' -> c' = c) es (spool_commits s stream);
  ack_open : forall ctx e s s' err ctx' e', spool_Ack ctx e s = (s', err) -> spool_Open ctx' e' s' = spool_Open ctx' e' s;
  ack_commits : forall ctx e s s' err stream c, spool_Ack ctx e s = (s', err) -> c ∈ spool_commits s stream ->
    (forall ctx', spool_Open ctx' e s <> Ok c) -> c ∈ spool_commits s' stream;
  ack_sublist : forall ctx e s s' err stream, spool_Ack ctx e s = (s', err) ->
    spool_commits s' stream `sublist_of` spool_commits s stream;
  spool_ack_wf : forall ctx e s s' err, spool_Ack ctx e s = (s', err) -> spool_wf s -> spool_wf s';
  spool_ack_durable : forall ctx e s s' err, spool_Ack ctx e s = (s', err) -> spool_Durable s' = spool_Durable s }.

(** ** The spool in memory *)

Record MemoryEncryptedSpool := {
  ms_items : list SpoolEntry; ms_fingerprints : gmap string string; ms_durable : bool }.

Definition spoolAAD (stream id : string) (sequence : Z) (hash : string) : string :=
  Marshal (JObject [("version", JNumber 1); ("stream_id", JString stream); ("entry_id", JString id);
                    ("sequence", JNumber sequence); ("record_hash", JString hash)]).

Section Cipher.
(** [cipher.AEAD] of the key: the length of its nonces, [Seal] of a nonce, a
    text and additional data, and [Open] of a nonce, a sealed text and
    additional data. *)
Context (NonceSize : nat) (Seal : string -> string -> string -> string) (Unseal : string -> string -> string -> option string).

Definition NewMemoryEncryptedSpool (key : string) (durable : bool) : result error MemoryEncryptedSpool :=
  return Err (ErrOther "audit spool requires a 32-byte AES-256 key") when negb (len key =? 32) ;;
  Ok {| ms_items := []; ms_fingerprints := ∅; ms_durable := durable |}.

(** [json.Marshal] of a commit, its error ignored. *)
Definition encoded (c : Commit) : string := from_option of_bytes "" (commit_bytes c).

Definition sealed (c : Commit) (nonce : string) : SpoolEntry :=
  let r := ac_Record c in
  let id := ae_EventID (ar_Event r) in
  let ciphertext := Seal nonce (encoded c) (spoolAAD (stream_of c) id (ar_Sequence r) (ar_Hash r)) in
  {| se_Version := 1; se_EntryID := id; se_StreamID := stream_of c; se_Sequence := ar_Sequence r;
     se_RecordHash := ar_Hash r; se_Nonce := nonce; se_Ciphertext := ciphertext;
     se_CiphertextDigest := hex_sum ciphertext |}.

Definition mem_Put (ctx : Context) (random : Random) (c : Commit) (s : MemoryEncryptedSpool)
    : MemoryEncryptedSpool * option error :=
  match contextErr ctx with
  | Some err => (s, Some err)
  | None =>
      return (s, Some ErrSpoolCorrupt) when match validateCommit c with Some _ => true | None => false end ;;
      let id := event_id c in
      let fingerprint := hashBytes (encoded c) in
      match ms_fingerprints s !! id with
      | Some prior => (s, if String.eqb prior fingerprint then None else Some ErrReplayConflict)
      | None =>
          match rand_Read NonceSize random with
          | None => (s, Some ErrSpoolCorrupt)
          | Some nonce =>
              ({| ms_items := ms_items s ++ [sealed c nonce]; ms_fingerprints := <[id := fingerprint]> (ms_fingerprints s);
                  ms_durable := ms_durable s |}, None)
          end
      end
  end.

Definition mem_Entries (ctx : Context) (stream : string) (s : MemoryEncryptedSpool) : result error (list SpoolEntry) :=
  match contextErr ctx with
  | Some err => Err err
  | None => Ok (List.filter (fun e => String.eqb (se_StreamID e) stream) (ms_items s))
  end.

Definition open_entry (e : SpoolEntry) : option Commit :=
  return None when negb (se_Version e =? 1) || String.eqb (se_StreamID e) "" || String.eqb (se_EntryID e) ""
    || (se_Sequence e =? 0) || negb (isDigest (se_RecordHash e)) || negb (len (se_Nonce e) =? Z.of_nat NonceSize)
    || (len (se_Ciphertext e) <? 16) || negb (isDigest (se_CiphertextDigest e)) ;;
  return None when negb (String.eqb (hex_sum (se_Ciphertext e)) (se_CiphertextDigest e)) ;;
  plaintext ← Unseal (se_Nonce e) (se_Ciphertext e)
                (spoolAAD (se_StreamID e) (se_EntryID e) (se_Sequence e) (se_RecordHash e));
  c ← decode_commit plaintext;
  return None when negb (String.eqb (event_id c) (se_EntryID e)) || negb (String.eqb (stream_of c) (se_StreamID e))
    || negb (sequence_of c =? se_Sequence e) || negb (String.eqb (ar_Hash (ac_Record c)) (se_RecordHash e))
    || match validateCommit c with Some _ => true | None => false end ;;
  Some c.

Definition mem_Open (ctx : Context) (e : SpoolEntry) (s : MemoryEncryptedSpool) : result error Commit :=
  match contextErr ctx with
  | Some err => Err err
  | None => match open_entry e with Some c => Ok c | None => Err ErrSpoolCorrupt end
  end.

Definition mem_Ack (ctx : Context) (e : SpoolEntry) (s : MemoryEncryptedSpool) : MemoryEncryptedSpool * option error :=
  (s, contextErr ctx).

Definition MemoryEncryptedSpool_Spool : EncryptedSpool MemoryEncryptedSpool := {|
  spool_Put := mem_Put; spool_Entries := mem_Entries; spool_Open := mem_Open; spool_Ack := mem_Ack;
  spool_Durable := ms_durable; spool_Flush := fun ctx _ => contextErr ctx |}.
End Cipher.

(** ** The spool keeps what it is given (internal/audit/spool.go)

    A sealed commit is opened as the commit, so the spool in memory keeps the
    promises of its interface, for a cipher that opens what it sealed. *)

Section SpoolFacts.
Context (NonceSize : nat) (Seal : string -> string -> string -> string) (Unseal : string -> string -> string -> option string).

(** The cipher opens what it sealed, and its tag has 16 bytes. *)
Hypothesis unseal_seal : forall nonce text data, len nonce = Z.of_nat NonceSize -> Unseal nonce (Seal nonce text data) data = Some text.
Hypothesis seal_tag : forall nonce text data, 16 <= len (Seal nonce text data).

Lemma validID_nonempty v : validID v false = true -> String.eqb v "" = false.
Proof. unfold validID. by destruct (String.eqb v ""). Qed.

Lemma rand_Read_len random nonce : rand_Read NonceSize random = Some nonce -> len nonce = Z.of_nat NonceSize.
Proof.
  unfold rand_Read. destruct random as [f|]; [|done]. intros [= <-]. unfold len.
  by rewrite of_bytes_length, length_map, length_seq.
Qed.

(** The spool returns the commit it was given. *)
Lemma open_sealed c nonce : encodable c -> len nonce = Z.of_nat NonceSize ->
  open_entry NonceSize Unseal (sealed Seal c nonce) = Some c.
Proof.
  intros (V & T & [b B]) L. unfold open_entry, sealed. cbn [se_Version se_EntryID se_StreamID se_Sequence se_RecordHash
    se_Nonce se_Ciphertext se_CiphertextDigest].
  destruct (valid_commit c V) as (VR & _ & _). destruct (valid_record _ VR) as (S & D & VE & _).
  destruct (event_ids _ VE) as [I1 I2]. set (data := spoolAAD _ _ _ _). set (text := Seal _ _ _).
  pose proof (seal_tag nonce (encoded c) data : 16 <= len text) as TAG.
  change (ae_StreamID (ar_Event (ac_Record c))) with (stream_of c) in I2. unfold stream_of in *.
  rewrite (validID_nonempty _ I1), (validID_nonempty _ I2), D, L, hex_sum_digest, !Z.eqb_refl.
  apply Z.eqb_neq in S. rewrite S. apply Z.ltb_ge in TAG. rewrite TAG. cbn [Z.eqb Pos.eqb negb orb].
  rewrite String.eqb_refl. cbn [negb]. unfold text. rewrite unseal_seal by done. cbn [mbind option_bind].
  unfold encoded. rewrite B. cbn [from_option]. rewrite (commit_decodes c b) by done. cbn [mbind option_bind].
  unfold event_id, sequence_of, stream_of. rewrite !String.eqb_refl, !Z.eqb_refl, V. done.
Qed.

(** The commits that can be opened for a stream. *)
Definition mem_commits (s : MemoryEncryptedSpool) (stream : string) : list Commit :=
  omap (open_entry NonceSize Unseal) (List.filter (fun e => String.eqb (se_StreamID e) stream) (ms_items s)).

(** Every entry can be opened, and every fingerprint is of an entry. *)
Definition mem_spool_wf (s : MemoryEncryptedSpool) : Prop :=
  Forall (fun e => exists c, open_entry NonceSize Unseal e = Some c) (ms_items s)
  /\ forall id fp, ms_fingerprints s !! id = Some fp -> exists stream, id ∈ map event_id (mem_commits s stream).

Abbreviation put := (mem_Put NonceSize Seal).

Lemma mem_Put_outcome ctx rnd c s s' err : put ctx rnd c s = (s', err) ->
  s' = s /\ (err = None -> exists fp, ms_fingerprints s !! event_id c = Some fp)
  \/ err = None /\ exists nonce, len nonce = Z.of_nat NonceSize
     /\ s' = {| ms_items := ms_items s ++ [sealed Seal c nonce];
                ms_fingerprints := <[event_id c := hashBytes (encoded c)]> (ms_fingerprints s);
                ms_durable := ms_durable s |}.
Proof.
  unfold mem_Put. destruct (contextErr ctx); [intros [= <- <-]; by left|].
  destruct (validateCommit c); [intros [= <- <-]; by left|]. cbv zeta.
  destruct (ms_fingerprints s !! event_id c) as [fp|] eqn:F; [intros [= <- <-]; left; eauto|].
  destruct (rand_Read _ _) as [nonce|] eqn:R; intros [= <- <-]; [right|by left].
  split; [done|]. exists nonce. split; [by eapply rand_Read_len|done].
Qed.

Lemma mem_commits_sealed c nonce s stream fps d : encodable c -> len nonce = Z.of_nat NonceSize ->
  mem_commits {| ms_items := ms_items s ++ [sealed Seal c nonce]; ms_fingerprints := fps; ms_durable := d |} stream
  = mem_commits s stream ++ (if String.eqb (stream_of c) stream then [c] else []).
Proof.
  intros E L. unfold mem_commits. cbn [ms_items]. rewrite List.filter_app, omap_app. f_equal. cbn [List.filter].
  change (se_StreamID (sealed Seal c nonce)) with (stream_of c). destruct (String.eqb _ _); [|done].
  cbn [omap list_omap]. by rewrite open_sealed.
Qed.

Lemma mem_Put_wf ctx rnd c s s' err : put ctx rnd c s = (s', err) -> encodable c -> mem_spool_wf s -> mem_spool_wf s'.
Proof.
  intros P E [W F]. apply mem_Put_outcome in P as [[-> _]|(_ & nonce & L & ->)]; [done|]. split.
  - cbn. apply Forall_app_2; [done|]. constructor; [|constructor]. exists c. by apply open_sealed.
  - intros id fp. cbn [ms_fingerprints]. intros I. destruct (decide (event_id c = id)) as [<-|N].
    + exists (stream_of c). rewrite mem_commits_sealed, String.eqb_refl, map_app by done. apply elem_of_app. right.
      by apply list_elem_of_singleton.
    + rewrite lookup_insert_ne in I by done. destruct (F id fp I) as [stream S]. exists stream.
      rewrite mem_commits_sealed, map_app by done. apply elem_of_app. by left.
Qed.

Lemma open_all (es : list SpoolEntry) : Forall (fun e => exists c, open_entry NonceSize Unseal e = Some c) es ->
  Forall2 (fun e c => open_entry NonceSize Unseal e = Some c) es (omap (open_entry NonceSize Unseal) es).
Proof. induction 1 as [|e es [c E] F IH]; [constructor|]. cbn [omap list_omap]. rewrite E. by constructor. Qed.

#[export] Instance mem_spool : EncryptedSpool MemoryEncryptedSpool := MemoryEncryptedSpool_Spool NonceSize Seal Unseal.

#[export] Instance MemorySpool_laws : SpoolLaws MemoryEncryptedSpool.
Proof.
  refine {| spool_commits := mem_commits; spool_wf := mem_spool_wf |}; cbn.
  - intros ctx rnd c s s' [_ F] E P. apply mem_Put_outcome in P as [[-> H]|(_ & nonce & L & ->)].
    + right. split; [done|]. destruct (H eq_refl) as [fp FP]. by eapply F.
    + left. by rewrite mem_commits_sealed, String.eqb_refl.
  - intros ctx rnd c s s' err stream P E N. apply mem_Put_outcome in P as [[-> _]|(_ & nonce & L & ->)]; [done|].
    rewrite mem_commits_sealed by done. destruct (String.eqb_spec (stream_of c) stream); [congruence|apply app_nil_r].
  - intros ctx rnd c s s' err P. by apply mem_Put_outcome in P as [[-> _]|(? & _)].
  - intros ctx rnd c s s'. unfold mem_Put. destruct (contextErr ctx); [done|]. by destruct (validateCommit c).
  - intros ctx rnd c s s'. apply mem_Put_wf.
  - intros ctx rnd c s s' err P. by apply mem_Put_outcome in P as [[-> _]|(_ & nonce & _ & ->)].
  - intros ctx stream s es [W _]. unfold mem_Entries. destruct (contextErr ctx); [done|]. intros [= <-].
    unfold mem_commits. set (es := List.filter _ _).
    assert (Forall (fun e => exists c, open_entry NonceSize Unseal e = Some c) es) as A.
    { rewrite Forall_forall in *. intros e I. apply W. apply list_elem_of_In in I. apply list_elem_of_In.
      by apply filter_In in I as [? _]. }
    apply open_all in A. eapply Forall2_impl; [exact A|]. cbn. intros e c O ctx0 c'. unfold mem_Open. rewrite O.
    destruct (contextErr ctx0); by intros [= <-].
  - intros ctx e s s' err ctx' e' P. by injection P as <- _.
  - intros ctx e s s' err stream c P. by injection P as <- _.
  - intros ctx e s s' err stream P. by injection P as <- _.
  - intros ctx e s s' err P. by injection P as <- _.
  - intros ctx e s s' err P. by injection P as <- _.
Defined.

(** C25. What is spooled comes back: the commit that Put accepts for an event that the spool did not
    know is the last entry of its stream, and Open of that entry is the commit, whatever was spooled
    before and is spooled or acknowledged after. *)
Theorem spool_round_trip ctx random c s s' : encodable c -> ms_fingerprints s !! event_id c = None ->
  put ctx random c s = (s', None) ->
  exists es e, mem_Entries Background (stream_of c) s = Ok es /\ mem_Entries Background (stream_of c) s' = Ok (es ++ [e])
    /\ forall ctx later, mem_Open NonceSize Unseal ctx e later
       = match contextErr ctx with Some err => Err err | None => Ok c end.
Proof.
  intros E F P. apply mem_Put_outcome in P as [[-> X]|(_ & nonce & L & ->)].
  - destruct (X eq_refl) as [fp FP]. congruence.
  - exists (List.filter (fun e => String.eqb (se_StreamID e) (stream_of c)) (ms_items s)), (sealed Seal c nonce).
    split_and!; [done| |].
    + unfold mem_Entries. cbn [contextErr Background fmap option_fmap option_map ms_items]. rewrite List.filter_app. cbn [List.filter].
      change (se_StreamID (sealed Seal c nonce)) with (stream_of c). by rewrite String.eqb_refl.
    + intros ctx' later. unfold mem_Open. by rewrite open_sealed.
Qed.
End SpoolFacts.
