(* ===== verification/AuditRuntime.v ===== *)
(** * The audit runtime (internal/audit/runtime.go)

    Critical events are persisted before [Append] returns, normal events by a
    worker behind a bounded queue; while the journal is unavailable records go
    to the spool, from which [Replay] brings them back. The state is split the
    way its two mutexes split it: [Chain] is guarded by appendMu and [Queue] by
    mu. Every call of an operation on its context, its clock and its stores
    may be answered differently: a context, a clock and the random source are
    functions of the call within the operation. *)

From S2P Require Import Prelude GoText Sha256 Json AuditEvent AuditDecode AuditJournal AuditSpool.

Open Scope string_scope.
Open Scope list_scope.
Open Scope Z_scope.
Open Scope go_scope.

(** ** The interfaces of signers and adapters *)

Class OutboxAdapter (A : Type) := {
  adapter_Target : A -> OutboxTarget;
  adapter_Deliver : Context -> Delivery -> A -> A * option error;
  adapter_Durable : A -> bool }.

#[global] Instance MemoryOutboxAdapter_Adapter : OutboxAdapter MemoryOutboxAdapter := {|
  adapter_Target := oa_target; adapter_Deliver := Deliver; adapter_Durable := oa_durable |}.

(** A signer is the Ed25519 signer of the package or another one. *)
#[warnings="-register-all"]
Inductive Signer :=
| Ed25519Signer (ID : string) (PrivateKey : list Z)
| OtherSigner (ID : string) (Sign : string -> result error (list Z)).

Definition PrivateKeySize : Z := 64.

Definition KeyID (s : Signer) : string := match s with Ed25519Signer id _ | OtherSigner id _ => id end.

(** ** State *)

Record Config := {
  cf_signer : option Signer; cf_verifiers : gmap string (list Z); cf_stream : string; cf_checkpointEvery : Z;
  cf_capacity : Z }.

Section Runtime.
Context {J S A : Type} `{Journal J} `{EncryptedSpool S} `{OutboxAdapter A}.
Context (ed25519_Sign : list Z -> string -> list Z) (ed25519_Verify : list Z -> string -> list Z -> bool).

Record Chain := {
  ch_journal : J; ch_spool : option S; ch_head : AuditRecord; ch_events : gmap string AuditRecord; ch_spooling : bool }.

Record Queue := { q_items : list Event; q_pending : Z; q_closed : bool; q_firstErr : option error }.

Record Runtime := { rt_config : Config; rt_outboxes : list (option A); rt_chain : Chain; rt_queue : Queue }.

Definition set_journal (c : Chain) (j : J) : Chain :=
  {| ch_journal := j; ch_spool := ch_spool c; ch_head := ch_head c; ch_events := ch_events c; ch_spooling := ch_spooling c |}.
Definition set_spool (c : Chain) (s : option S) : Chain :=
  {| ch_journal := ch_journal c; ch_spool := s; ch_head := ch_head c; ch_events := ch_events c; ch_spooling := ch_spooling c |}.
Definition set_head (c : Chain) (h : AuditRecord) : Chain :=
  {| ch_journal := ch_journal c; ch_spool := ch_spool c; ch_head := h; ch_events := ch_events c; ch_spooling := ch_spooling c |}.
Definition set_spooling (c : Chain) (b : bool) : Chain :=
  {| ch_journal := ch_journal c; ch_spool := ch_spool c; ch_head := ch_head c; ch_events := ch_events c; ch_spooling := b |}.

(** The record becomes the head and is remembered for its event. *)
Definition record_event (c : Chain) (r : AuditRecord) : Chain :=
  {| ch_journal := ch_journal c; ch_spool := ch_spool c; ch_head := r;
     ch_events := <[ae_EventID (ar_Event r) := r]> (ch_events c); ch_spooling := ch_spooling c |}.

Definition set_chain (r : Runtime) (c : Chain) : Runtime :=
  {| rt_config := rt_config r; rt_outboxes := rt_outboxes r; rt_chain := c; rt_queue := rt_queue r |}.
Definition set_queue (r : Runtime) (q : Queue) : Runtime :=
  {| rt_config := rt_config r; rt_outboxes := rt_outboxes r; rt_chain := rt_chain r; rt_queue := q |}.

(** ** [NewRuntime] *)

Record RuntimeOptions := {
  ro_Journal : option J; ro_Spool : option S; ro_Signer : option Signer; ro_Verifiers : gmap string (list Z);
  ro_Outboxes : list (option A); ro_StreamID : string; ro_QueueCapacity : Z; ro_CheckpointEvery : Z }.

(** [PrivateKey.Public()]: the second half of the key. *)
Definition Public (key : list Z) : list Z := drop 32 key.

Definition default_verifiers (o : RuntimeOptions) : gmap string (list Z) :=
  match ro_Signer o with
  | Some (Ed25519Signer id key) =>
      if bool_decide (ro_Verifiers o = ∅) && (Z.of_nat (length key) =? PrivateKeySize)
      then {[id := Public key]} else ro_Verifiers o
  | _ => ro_Verifiers o
  end.

(** The stored checkpoints of the rows, each checked by a verifier. *)
Fixpoint check_checkpoints (ctx : Context) (stream : string) (verifiers : gmap string (list Z)) (j : J)
    (rows : list AuditRecord) : option error :=
  match rows with
  | [] => None
  | row :: rows =>
      match journal_Checkpoint ctx stream (ar_Sequence row) j with
      | Err err => Some err
      | Ok None => check_checkpoints ctx stream verifiers j rows
      | Ok (Some cp) =>
          return Some ErrCheckpointInvalid when bool_decide (verifiers = ∅)
            || match VerifyCheckpoint ed25519_Verify stream row cp verifiers with Some _ => true | None => false end ;;
          check_checkpoints ctx stream verifiers j rows
      end
  end.

Definition NewRuntime (o : RuntimeOptions) : result error Runtime :=
  match ro_Journal o with
  | None => Err (ErrOther "audit journal is required")
  | Some j =>
      let stream := if String.eqb (ro_StreamID o) "" then "default" else ro_StreamID o in
      return Err ErrInvalidEvent when negb (validID stream false) ;;
      let capacity := if ro_QueueCapacity o <=? 0 then 64 else ro_QueueCapacity o in
      return Err ErrQueueFull when 65536 <? capacity ;;
      return Err ErrSignerUnavailable when
        (0 <? ro_CheckpointEvery o) && match ro_Signer o with None => true | Some _ => false end ;;
      let verifiers := default_verifiers o in
      match journal_Last Background stream j with
      | Err err => Err err
      | Ok last =>
          match journal_Records Background stream 0 0 j with
          | Err err => Err err
          | Ok rows =>
              match journal_Verify Background stream j with
              | Some err => Err err
              | None =>
                  match check_checkpoints Background stream verifiers j rows with
                  | Some err => Err err
                  | None =>
                      Ok {| rt_config := {| cf_signer := ro_Signer o; cf_verifiers := verifiers; cf_stream := stream;
                                            cf_checkpointEvery := ro_CheckpointEvery o; cf_capacity := capacity |};
                            rt_outboxes := ro_Outboxes o;
                            rt_chain := {| ch_journal := j; ch_spool := ro_Spool o; ch_head := last;
                                           ch_events := fold_left (fun m r => <[ae_EventID (ar_Event r) := r]> m) rows ∅;
                                           ch_spooling := negb (journal_Durable j)
                                                          && match ro_Spool o with Some _ => true | None => false end |};
                            rt_queue := {| q_items := []; q_pending := 0; q_closed := false; q_firstErr := None |} |}
                  end
              end
          end
      end
  end.

(** ** [persist] *)

Definition Sign (s : Signer) (message : string) : result error (list Z) :=
  match s with
  | Ed25519Signer id key =>
      return Err ErrSignerUnavailable when negb (validID id false) || negb (Z.of_nat (length key) =? PrivateKeySize) ;;
      Ok (ed25519_Sign key message)
  | OtherSigner _ sign => sign message
  end.

Definition is_critical (e : Event) : bool := String.eqb (ae_Class e) EventClassCritical.

Definition makeCheckpoint (cfg : Config) (now : Time) (e : Event) (r : AuditRecord) : result error (option Checkpoint) :=
  match cf_signer cfg with
  | None => Ok None
  | Some signer =>
      return Ok None when negb (is_critical e
        || (0 <? cf_checkpointEvery cfg) && (ar_Sequence r mod cf_checkpointEvery cfg =? 0)) ;;
      let cp := {| cp_StreamID := cf_stream cfg; cp_Sequence := ar_Sequence r; cp_Hash := ar_Hash r;
                   cp_KeyID := KeyID signer; cp_Signature := []; cp_At := now |} in
      match Sign signer (checkpointMessage cp) with
      | Err err => Err err
      | Ok signature => Ok (Some (set_cp_Signature signature cp))
      end
  end.

(** The deliveries of a record; each adapter reads the clock. *)
Definition outbox_of (cfg : Config) (outboxes : list (option A)) (now : nat -> Time) (r : AuditRecord) : list Delivery :=
  omap id (imap (fun i adapter =>
    (fun a => {| dl_DeliveryID := deliveryID (cf_stream cfg) (ar_Sequence r) (adapter_Target a);
                 dl_Target := adapter_Target a; dl_StreamID := cf_stream cfg; dl_Sequence := ar_Sequence r;
                 dl_EventID := ae_EventID (ar_Event r); dl_RecordHash := ar_Hash r; dl_CreatedAt := now i;
                 dl_DeliveredAt := 0 |}) <$> adapter) outboxes).

(** The record that follows a head. *)
Definition next_record (head : AuditRecord) (e : Event) : AuditRecord :=
  let sequence := u64 (ar_Sequence head + 1) in
  let r := {| ar_Sequence := if sequence =? 0 then 1 else sequence; ar_Event := e;
              ar_PreviousHash := ar_Hash head; ar_Hash := "" |} in
  set_ar_Hash (hashRecord r) r.

Definition spool_durable (s : option S) : bool := match s with Some s => spool_Durable s | None => false end.

(** The commit of an attempt. The clock is read for the checkpoint and then
    for each adapter. *)
Definition build (cfg : Config) (outboxes : list (option A)) (now : nat -> Time) (e : Event) (head : AuditRecord)
    : result error Commit :=
  let r := next_record head e in
  match makeCheckpoint cfg (now 0%nat) e r with
  | Err err => Err err
  | Ok cp =>
      return Err ErrCheckpointInvalid when
        match cp with
        | Some cp => negb (bool_decide (cf_verifiers cfg = ∅))
            && match VerifyCheckpoint ed25519_Verify (cf_stream cfg) r cp (cf_verifiers cfg) with
               | Some _ => true | None => false end
        | None => false
        end ;;
      Ok {| ac_Record := r; ac_Checkpoint := cp; ac_Outbox := outbox_of cfg outboxes (fun i => now (Datatypes.S i)) r |}
  end.

(** The attempts from the [k]-th on. The context is seen by the store and by
    [Last]. *)
Fixpoint attempts (n k : nat) (cfg : Config) (outboxes : list (option A)) (ctx : nat -> Context)
    (now : nat -> nat -> Time) (rnd : Random) (e : Event) (c : Chain) : Chain * result error AuditRecord :=
  match n with
  | O => (c, Err ErrSequenceConflict)
  | Datatypes.S n =>
      match build cfg outboxes (now k) e (ch_head c) with
      | Err err => (c, Err err)
      | Ok commit =>
          let r := ac_Record commit in
          if ch_spooling c then
            match ch_spool c with
            | None => (c, Err ErrNoDurableChannel)
            | Some s =>
                return (c, Err ErrNoDurableChannel) when negb (spool_Durable s) && is_critical e ;;
                let '(s, err) := spool_Put (ctx (2 * k + 1)%nat) rnd commit s in
                let c := set_spool c (Some s) in
                match err with Some err => (c, Err err) | None => (record_event c r, Ok r) end
            end
          else
            let '(j, err) := journal_Append (ctx (2 * k + 1)%nat) commit (ch_journal c) in
            let c := set_journal c j in
            match err with
            | None => (record_event c r, Ok r)
            | Some err =>
                if bool_decide (err = ErrSequenceConflict) then
                  match journal_Last (ctx (2 * k + 2)%nat) (cf_stream cfg) j with
                  | Err err => (c, Err err)
                  | Ok last => attempts n (Datatypes.S k) cfg outboxes ctx now rnd e (set_head c last)
                  end
                else if bool_decide (err = ErrUnavailable) && spool_durable (ch_spool c)
                then attempts n (Datatypes.S k) cfg outboxes ctx now rnd e (set_spooling c true)
                else (c, Err err)
            end
      end
  end.

Definition persist (cfg : Config) (outboxes : list (option A)) (ctx : nat -> Context) (now : nat -> nat -> Time)
    (rnd : Random) (e : Event) (c : Chain) : Chain * result error AuditRecord :=
  match contextErr (ctx 0%nat) with
  | Some err => (c, Err err)
  | None =>
      match ch_events c !! ae_EventID e with
      | Some prior => (c, if eventEqual (ar_Event prior) e then Ok prior else Err ErrReplayConflict)
      | None => attempts 8 0 cfg outboxes ctx now rnd e c
      end
  end.

(** ** [Append] *)

(** The event that is appended, or the error that refuses it. *)
Definition prepare (cfg : Config) (ctx : Context) (now : Time) (e : Event) : result error Event :=
  match contextErr ctx with
  | Some err => Err err
  | None =>
      let e := if String.eqb (ae_StreamID e) "" then set_ae_StreamID (cf_stream cfg) e else e in
      let e := if IsZero (ae_At e) then set_ae_At now e else e in
      match validateEvent e with
      | Some err => Err err
      | None =>
          return Err ErrInvalidEvent when negb (String.eqb (ae_StreamID e) (cf_stream cfg)) ;;
          Ok e
      end
  end.

(** Why a critical event is refused before it waits. *)
Definition critical_refused (cfg : Config) (c : Chain) : option error :=
  match cf_signer cfg with
  | None => Some ErrSignerUnavailable
  | Some _ =>
      return Some ErrNoDurableChannel when negb (journal_Durable (ch_journal c)) && negb (spool_durable (ch_spool c)) ;;
      None
  end.

Definition beginPending (q : Queue) : Queue :=
  {| q_items := q_items q; q_pending := q_pending q + 1; q_closed := q_closed q; q_firstErr := q_firstErr q |}.
Definition endPending (q : Queue) : Queue :=
  {| q_items := q_items q; q_pending := q_pending q - 1; q_closed := q_closed q; q_firstErr := q_firstErr q |}.
Definition push (q : Queue) (e : Event) : Queue :=
  {| q_items := q_items q ++ [e]; q_pending := q_pending q; q_closed := q_closed q; q_firstErr := q_firstErr q |}.
Definition fail (q : Queue) (err : error) : Queue :=
  {| q_items := q_items q; q_pending := q_pending q; q_closed := q_closed q;
     q_firstErr := match q_firstErr q with Some e => Some e | None => Some err end |}.

(** A normal event under mu: the queue, the context and the default case of
    the select. [pick] is its choice when the queue has room and the context
    is done. *)
Definition enqueue (capacity : Z) (ctx : Context) (pick : bool) (e : Event) (q : Queue) : Queue * option error :=
  return (q, Some ErrClosed) when q_closed q ;;
  let q := beginPending q in
  let room := Z.of_nat (length (q_items q)) <? capacity in
  match contextErr ctx with
  | Some err => if room && pick then (push q e, None) else (endPending q, Some err)
  | None => if room then (push q e, None) else (endPending q, Some ErrQueueFull)
  end.

(** A critical event that has waited, under mu. *)
Definition begin_critical (q : Queue) : Queue * option error :=
  return (q, Some ErrClosed) when q_closed q ;;
  (beginPending q, None).

(** ** [Replay] *)

Fixpoint replay_entries (k : nat) (ctx : nat -> Context) (entries : list SpoolEntry) (s : S) (c : Chain) : Chain * option error :=
  match entries with
  | [] => (set_spool c (Some s), None)
  | entry :: entries =>
      let stop c err := (set_spool c (Some s), Some err) in
      match spool_Open (ctx (3 * k)%nat) entry s with
      | Err err => stop c err
      | Ok commit =>
          return stop c ErrSpoolCorrupt when match validateCommit commit with Some _ => true | None => false end ;;
          let '(j, err) := journal_Append (ctx (3 * k + 1)%nat) commit (ch_journal c) in
          let c := set_journal c j in
          match (match err with
                 | Some err => if bool_decide (err = ErrReplayConflict) then None else Some err
                 | None => None
                 end) with
          | Some err => stop c err
          | None =>
              let c := if ar_Sequence (ch_head c) <? ar_Sequence (ac_Record commit) then record_event c (ac_Record commit) else c in
              if journal_Durable (ch_journal c) then
                let '(s, err) := spool_Ack (ctx (3 * k + 2)%nat) entry s in
                match err with
                | Some err => (set_spool c (Some s), Some err)
                | None => replay_entries (Datatypes.S k) ctx entries s c
                end
              else replay_entries (Datatypes.S k) ctx entries s c
          end
      end
  end.

Definition Replay (ctx : nat -> Context) (cfg : Config) (c : Chain) : Chain * option error :=
  match ch_spool c with
  | None => (c, None)
  | Some s =>
      match contextErr (ctx 0%nat) with
      | Some err => (c, Some err)
      | None =>
          match spool_Entries (ctx 1%nat) (cf_stream cfg) s with
          | Err err => (c, Some err)
          | Ok entries =>
              match replay_entries 1 ctx entries s c with
              | (c, Some err) => (c, Some err)
              | (c, None) => (set_spooling c (negb (journal_Durable (ch_journal c))), None)
              end
          end
      end
  end.

(** ** [Dispatch] *)

(** The first adapter of a target. *)
Fixpoint adapter_for (target : OutboxTarget) (i : nat) (outboxes : list (option A)) : option (nat * A) :=
  match outboxes with
  | [] => None
  | Some a :: outboxes => if String.eqb (adapter_Target a) target then Some (i, a) else adapter_for target (Datatypes.S i) outboxes
  | None :: outboxes => adapter_for target (Datatypes.S i) outboxes
  end.

Fixpoint dispatch_all (k : nat) (ctx : nat -> Context) (clock : nat -> Time) (pending : list Delivery)
    (outboxes : list (option A)) (j : J) : list (option A) * J * option error :=
  match pending with
  | [] => (outboxes, j, None)
  | d :: pending =>
      match adapter_for (dl_Target d) 0 outboxes with
      | None => dispatch_all (Datatypes.S k) ctx clock pending outboxes j
      | Some (i, a) =>
          let '(a, err) := adapter_Deliver (ctx (2 * k + 1)%nat) d a in
          let outboxes := <[i := Some a]> outboxes in
          match err with
          | Some err => (outboxes, j, Some err)
          | None =>
              let '(j, err) := journal_AckOutbox (ctx (2 * k + 2)%nat) (clock k) d j in
              match err with
              | Some err => (outboxes, j, Some err)
              | None => dispatch_all (Datatypes.S k) ctx clock pending outboxes j
              end
          end
      end
  end.

Definition Dispatch (ctx : nat -> Context) (clock : nat -> Time) (limit : Z) (cfg : Config)
    (outboxes : list (option A)) (j : J) : list (option A) * J * option error :=
  match journal_PendingOutbox (ctx 0%nat) (cf_stream cfg) limit j with
  | Err err => (outboxes, j, Some err)
  | Ok pending => dispatch_all 0 ctx clock pending outboxes j
  end.

(** ** [Verify] and [Close] *)

Definition Verify (ctx : Context) (cfg : Config) (j : J) : option error :=
  match journal_Verify ctx (cf_stream cfg) j with
  | Some err => Some err
  | None =>
      match journal_Records ctx (cf_stream cfg) 0 0 j with
      | Err err => Some err
      | Ok rows => check_checkpoints ctx (cf_stream cfg) (cf_verifiers cfg) j rows
      end
  end.

(** The state of the channel that [waitIdle] waits on. *)
Definition idle (q : Queue) : bool := q_pending q =? 0.

(** [Close] before the worker ends: the queue takes no more events. *)
Definition close_queue (q : Queue) : Queue :=
  {| q_items := q_items q; q_pending := q_pending q; q_closed := true; q_firstErr := q_firstErr q |}.
End Runtime.
