(* ===== verification/AuditRuntimeFacts.v ===== *)
(** * Lemmas on the audit runtime (internal/audit/runtime.go)

    The commits that the runtime builds can be written and read back, and the
    record that follows a head. *)

From S2P Require Import Prelude GoText Sha256 JsonValid Json JsonDecode TimeText JsonReads AuditEvent AuditDecode AuditJournal AuditSpool AuditRuntime.
From Stdlib Require Import Ascii.
From stdpp Require Import sorting.

Open Scope string_scope.
Open Scope list_scope.
Open Scope Z_scope.
Open Scope go_scope.

(** ** Encodings that succeed *)

Definition encodes (j : json) : Prop := is_Some (json_bytes j).

Lemma object_encodes fs : Forall (fun f : string * json => encodes (snd f)) fs -> encodes (JObject fs).
Proof.
  intros F. unfold encodes. rewrite json_bytes_object. apply fmap_is_Some. unfold encode_fields. apply mapM_is_Some.
  eapply Forall_impl; [exact F|]. cbn. intros f E. by apply fmap_is_Some.
Qed.

Lemma omit_encodes k v : Forall (fun f : string * json => encodes (snd f)) (omit_empty k v).
Proof. unfold omit_empty. destruct (String.eqb v ""); repeat constructor. by eexists. Qed.

(** A time that RFC 3339 can write. *)
Definition writable (t : Time) : Prop := is_Some (rfc3339 t).

Lemma time_encodes t : writable t -> encodes (JTime t).
Proof. intros W. by apply fmap_is_Some. Qed.

Lemma year_writable t : 1 <= Year t <= 9999 -> writable t.
Proof.
  unfold Year, writable, rfc3339. destruct (civil _) as [[y m] d]. cbn [fst]. intros R.
  destruct (_ || _) eqn:E; [|by eexists]. apply orb_true_iff in E as [E|E]; props; lia.
Qed.

Lemma year_nonneg t : 1 <= Year t -> 0 <= t.
Proof.
  unfold Year. pose proof (days_from_civil_civil (t / Second / 86400)) as C. destruct (civil _) as [[y m] d].
  cbn [fst]. destruct C as (C & M & D). intros Y.
  assert (0 <= days_from_civil y m d) as P.
  { unfold days_from_civil. destruct (m <=? 2) eqn:E; props.
    - destruct (2 <? m) eqn:E2; props; [lia|].
      assert (306 <= (153 * (m + 9) + 2) / 5) by (apply Z.div_le_lower_bound; lia).
      pose proof (Z.div_mod (y - 1) 400). Z.to_euclidean_division_equations. lia.
    - destruct (2 <? m) eqn:E2; props; [|lia].
      assert (0 <= (153 * (m - 3) + 2) / 5) by (apply Z.div_pos; lia).
      Z.to_euclidean_division_equations. lia. }
  rewrite C in P. unfold Second in *. Z.to_euclidean_division_equations. lia.
Qed.

Lemma string_encodes s : encodes (JString s).
Proof. by eexists. Qed.

Lemma number_encodes z : encodes (JNumber z).
Proof. by eexists. Qed.

Ltac encode := repeat first [apply Forall_app_2 | apply omit_encodes | apply Forall_cons_2 | apply Forall_nil_2]; cbn [snd];
  try lazymatch goal with
  | |- encodes (JString _) => apply string_encodes
  | |- encodes (JNumber _) => apply number_encodes
  | |- encodes (JTime _) => apply time_encodes; assumption
  end.

Lemma event_encodes e : writable (ae_At e) -> encodes (event_json e).
Proof. intros W. apply object_encodes. encode. Qed.

Lemma record_encodes r : writable (ae_At (ar_Event r)) -> encodes (record_json r).
Proof. intros W. apply object_encodes. encode. by apply event_encodes. Qed.

Lemma checkpoint_encodes cp : writable (cp_At cp) -> encodes (checkpoint_json cp).
Proof. intros W. apply object_encodes. encode. Qed.

Lemma delivery_encodes d : writable (dl_CreatedAt d) -> writable (dl_DeliveredAt d) -> encodes (delivery_json d).
Proof. intros W1 W2. apply object_encodes. encode. Qed.

Lemma commit_encodes c : writable (ae_At (ar_Event (ac_Record c))) ->
  (forall cp, ac_Checkpoint c = Some cp -> writable (cp_At cp)) ->
  Forall (fun d => writable (dl_CreatedAt d) /\ writable (dl_DeliveredAt d)) (ac_Outbox c) -> is_Some (commit_bytes c).
Proof.
  intros R K O. unfold commit_bytes. destruct (record_encodes _ R) as [rb ->]. cbn [mbind option_bind].
  assert (exists x, match ac_Checkpoint c with
                    | Some cp => (fun b => [("checkpoint", b)]) <$> json_bytes (checkpoint_json cp)
                    | None => Some []
                    end = Some x) as [x ->].
  { destruct (ac_Checkpoint c) as [cp|]; [|by eexists]. destruct (checkpoint_encodes cp (K cp eq_refl)) as [b ->]. by eexists. }
  cbn [mbind option_bind]. destruct (ac_Outbox c) as [|d l]; [by eexists|].
  assert (is_Some (mapM (fun d => json_bytes (delivery_json d)) (d :: l))) as [bs ->]; [|by eexists].
  apply mapM_is_Some. eapply Forall_impl; [exact O|]. intros d' [W1 W2]. exact (delivery_encodes d' W1 W2).
Qed.

Lemma valid_event_time e : validateEvent e = None -> 1 <= Year (ae_At e) <= 9999 /\ ae_PolicyEpoch e <> 0.
Proof. unfold validateEvent. clear_checks. intros _. props. lia. Qed.

(** ** Identifiers of deliveries *)

Lemma plain_app a b : plain (a ++ b)%string = plain a && plain b.
Proof.
  unfold plain. rewrite <- forallb_app. f_equal. unfold bytes. clear.
  induction a as [|c a IH]; [done|]. exact (f_equal (cons c) IH).
Qed.

Lemma itoa_plain n : 0 <= n < two64 -> plain (itoa n) = true.
Proof. intros R. destruct (itoa_spec n R) as (A & _). by apply plain_digits. Qed.

Lemma deliveryID_plain stream sequence target : plain stream = true -> 0 <= sequence < two64 -> plain target = true ->
  plain (deliveryID stream sequence target) = true.
Proof. intros S Q T. unfold deliveryID. rewrite !plain_app, S, T, itoa_plain by done. done. Qed.

(** ** The record after a head *)

Lemma next_record_fields head e : let r := next_record head e in
  ar_Event r = e /\ ar_PreviousHash r = ar_Hash head /\ ar_Hash r = hashRecord r.
Proof. done. Qed.

Lemma next_sequence head e : 0 <= ar_Sequence head < two64 - 1 -> ar_Sequence (next_record head e) = ar_Sequence head + 1.
Proof.
  intros R. unfold next_record. cbn [ar_Sequence set_ar_Hash]. unfold u64. rewrite Z.mod_small by (unfold two64 in *; lia).
  destruct (_ =? 0) eqn:E; props; lia.
Qed.

(** ** The commits that are built *)

Section Built.
Context {J S A : Type} `{Journal J} `{EncryptedSpool S} `{OutboxAdapter A}.
Context (ed25519_Sign : list Z -> string -> list Z) (ed25519_Verify : list Z -> string -> list Z -> bool).

(** The signatures of a signer are bytes. *)
Definition signs_bytes (cfg : Config) : Prop :=
  forall signer message signature, cf_signer cfg = Some signer -> Sign ed25519_Sign signer message = Ok signature ->
  byte_range signature = true.

(** The clock shows a time after the zero time that can be written. *)
Definition clock_ok (now : nat -> Time) : Prop := forall i, 0 <= now i /\ writable (now i).

Lemma makeCheckpoint_some cfg now e r cp : makeCheckpoint ed25519_Sign cfg now e r = Ok (Some cp) ->
  cp_At cp = now /\ exists signer message, cf_signer cfg = Some signer
    /\ Sign ed25519_Sign signer message = Ok (cp_Signature cp).
Proof.
  unfold makeCheckpoint. destruct (cf_signer cfg) as [signer|]; [|done]. destruct (negb _); [done|]. cbv zeta.
  destruct (Sign _ _ _) as [sig|err] eqn:S'; [|done]. intros [= <-]. cbn. split; [done|]. eauto.
Qed.

(** The checkpoint of a critical event. *)
Lemma makeCheckpoint_critical cfg now e r cp : is_critical e = true -> cf_signer cfg <> None ->
  makeCheckpoint ed25519_Sign cfg now e r = Ok cp -> cp <> None.
Proof.
  intros C N. unfold makeCheckpoint. destruct (cf_signer cfg) as [signer|]; [|done]. rewrite C. cbn [orb negb].
  destruct (Sign _ _ _); [|done]. by intros [= <-].
Qed.

Lemma outbox_of_spec cfg outboxes now r : Forall (fun d => exists i a, dl_DeliveryID d = deliveryID (cf_stream cfg) (ar_Sequence r) (adapter_Target a)
    /\ dl_Target d = adapter_Target a /\ dl_CreatedAt d = now i /\ dl_DeliveredAt d = 0) (outbox_of (A:=A) cfg outboxes now r).
Proof.
  apply Forall_forall. intros d I. unfold outbox_of in I. apply list_elem_of_omap in I as (x & I & E).
  apply elem_of_lookup_imap in I as (i & [a|] & -> & L); [|done]. cbn in E. injection E as <-. exists i, a. done.
Qed.

Lemma build_ok cfg outboxes now e head commit : build ed25519_Sign ed25519_Verify (A:=A) cfg outboxes now e head = Ok commit ->
  ac_Record commit = next_record head e /\ ac_Outbox commit = outbox_of cfg outboxes (fun i => now (Datatypes.S i)) (next_record head e)
  /\ makeCheckpoint ed25519_Sign cfg (now 0%nat) e (next_record head e) = Ok (ac_Checkpoint commit)
  /\ (forall cp, ac_Checkpoint commit = Some cp -> cf_verifiers cfg <> ∅ ->
      VerifyCheckpoint ed25519_Verify (cf_stream cfg) (next_record head e) cp (cf_verifiers cfg) = None).
Proof.
  unfold build. destruct (makeCheckpoint _ _ _ _ _) as [cp|err]; [|done]. destruct (match cp with Some _ => _ | None => _ end) eqn:V; [done|].
  intros [= <-]. cbn. split_and!; try done. intros cp' -> N. apply andb_false_iff in V as [V|V].
  - apply negb_false_iff, bool_decide_eq_true in V. done.
  - by destruct (VerifyCheckpoint _ _ _ _ _).
Qed.

(** A valid commit that the runtime built can be written and read back. *)
Lemma build_encodable cfg outboxes now e head commit :
  build ed25519_Sign ed25519_Verify (A:=A) cfg outboxes now e head = Ok commit ->
  signs_bytes cfg -> clock_ok now -> validID (cf_stream cfg) false = true -> 0 <= ar_Sequence head < two64 - 1 ->
  uint64_range (ae_PolicyEpoch e) = true -> validateCommit commit = None -> encodable commit.
Proof.
  intros B SB CK VS R UE V. apply build_ok in B as (ER & EO & EK & _).
  assert (0 <= ar_Sequence (ac_Record commit) < two64) as RS by (rewrite ER, next_sequence by done; lia).
  assert (ar_Event (ac_Record commit) = e) as EE by (by rewrite ER).
  destruct (valid_commit _ V) as (VR & _ & VO). apply valid_outbox in VO.
  destruct (valid_record _ VR) as (_ & _ & VE & _). rewrite EE in VE. destruct (valid_event_time _ VE) as [Y _].
  assert (forall cp, ac_Checkpoint commit = Some cp -> byte_range (cp_Signature cp) = true /\ 0 <= cp_At cp /\ writable (cp_At cp)) as K.
  { intros cp E. rewrite E in EK. apply makeCheckpoint_some in EK as (-> & signer & m & C & SG).
    split; [by eapply SB|apply CK]. }
  assert (Forall (fun d => plain (dl_DeliveryID d) = true /\ (0 <= dl_CreatedAt d /\ writable (dl_CreatedAt d))
                           /\ dl_DeliveredAt d = 0) (ac_Outbox commit)) as D.
  { rewrite EO in *. pose proof (outbox_of_spec cfg outboxes (fun i => now (Datatypes.S i)) (next_record head e)) as OS.
    rewrite Forall_forall in *. intros d I. destruct (OS d I) as (i & a & -> & T & -> & ->). destruct (VO d I) as (VD & _).
    split_and!; [|apply CK|apply CK|done]. rewrite <- ER. apply deliveryID_plain; [by eapply validID_plain|done|].
    rewrite <- T. unfold validateDelivery in VD. destruct (_ || _); [done|]. destruct (existsb _ _) eqn:X; [|done].
    by eapply constant_plain. }
  split; [done|split].
  - unfold typed_commit. rewrite EE, UE. apply andb_true_iff. split; [apply andb_true_iff; split|].
    + unfold uint64_range. rewrite (proj2 (Z.leb_le _ _) (proj1 RS)), (proj2 (Z.ltb_lt _ _) (proj2 RS)). cbn [andb].
      apply Z.leb_le, year_nonneg. lia.
    + destruct (ac_Checkpoint commit) as [cp|]; [|done]. destruct (K cp eq_refl) as (-> & P & _). by apply Z.leb_le.
    + apply forallb_forall. intros d I. apply list_elem_of_In in I. rewrite Forall_forall in D.
      destruct (D d I) as (-> & [P _] & ->). apply Z.leb_le in P. by rewrite P.
  - apply commit_encodes.
    + rewrite EE. by apply year_writable.
    + intros cp E. apply (K cp E).
    + eapply Forall_impl; [exact D|]. cbn. intros d (_ & [_ W] & ->). split; [exact W|]. by eexists.
Qed.
End Built.

(** ** Dispatch over the stores in memory (internal/audit/runtime.go)

    A dispatch that reports success has handed every pending delivery to the
    first adapter of its target and marked it in the journal. *)

Abbreviation Adapters := (list (option MemoryOutboxAdapter)).

(** The delivery is with an adapter of its target. *)
Definition delivered (outboxes : Adapters) (d : Delivery) : Prop :=
  exists i a, outboxes !! i = Some (Some a) /\ oa_target a = dl_Target d /\ oa_items a !! dl_DeliveryID d = Some d.

(** The delivery is marked in the journal. *)
Definition acknowledged (j : MemoryJournal) (d : Delivery) : Prop :=
  exists d', mj_outbox j !! dl_DeliveryID d = Some d' /\ IsZero (dl_DeliveredAt d') = false.

Definition has_adapter (target : OutboxTarget) (outboxes : Adapters) : Prop :=
  exists i a, outboxes !! i = Some (Some a) /\ oa_target a = target.

Lemma adapter_for_some target n outboxes i a : adapter_for (A:=MemoryOutboxAdapter) target n outboxes = Some (i, a) ->
  exists k, i = (n + k)%nat /\ outboxes !! k = Some (Some a) /\ oa_target a = target.
Proof.
  revert n. induction outboxes as [|[b|] outboxes IH]; intros n; cbn [adapter_for]; [done| |].
  - destruct (String.eqb_spec (adapter_Target b) target) as [T|T].
    + intros [= <- <-]. exists 0%nat. split_and!; [lia|done|done].
    + intros E. apply IH in E as (k & -> & L & TA). exists (S k). split_and!; [lia|done|done].
  - intros E. apply IH in E as (k & -> & L & TA). exists (S k). split_and!; [lia|done|done].
Qed.

Lemma adapter_for_none target n outboxes : adapter_for (A:=MemoryOutboxAdapter) target n outboxes = None -> ~ has_adapter target outboxes.
Proof.
  revert n. induction outboxes as [|b outboxes IH]; intros n E (i & a & L & T); [done|]. cbn [adapter_for] in E.
  destruct i as [|i].
  - injection L as ->. change (adapter_Target a) with (oa_target a) in E. by rewrite T, String.eqb_refl in E.
  - destruct b as [b|]; [destruct (String.eqb _ _); [done|]|]; (apply IH in E; apply E; by exists i, a).
Qed.

(** What [Deliver] keeps: the target and every item. *)
Lemma Deliver_keeps ctx d a a' err : Deliver ctx d a = (a', err) ->
  oa_target a' = oa_target a /\ (forall id x, oa_items a !! id = Some x -> oa_items a' !! id = Some x)
  /\ (err = None -> oa_items a' !! dl_DeliveryID d = Some d).
Proof.
  unfold Deliver. destruct (contextErr ctx); [intros [= <- <-]; by split_and!|].
  destruct (foreign a d); [intros [= <- <-]; by split_and!|].
  destruct (oa_items a !! dl_DeliveryID d) as [prior|] eqn:L.
  - intros [= <- <-]. split_and!; [done|done|]. unfold deliveryEqual. case_bool_decide as E; [|done]. intros _. by rewrite L, E.
  - intros [= <- <-]. cbn. split_and!; [done| |by rewrite lookup_insert_eq].
    intros id x X. rewrite lookup_insert_ne; [done|]. congruence.
Qed.

Lemma delivered_insert outboxes i a a' d : outboxes !! i = Some (Some a) -> oa_target a' = oa_target a ->
  (forall id x, oa_items a !! id = Some x -> oa_items a' !! id = Some x) ->
  delivered outboxes d -> delivered (<[i := Some a']> outboxes) d.
Proof.
  intros L T K (i' & b & L' & TB & IB). destruct (decide (i = i')) as [<-|N].
  - rewrite L in L'. injection L' as <-. exists i, a'. split_and!; [|congruence|by apply K].
    apply list_lookup_insert_eq. by eapply lookup_lt_Some.
  - exists i', b. by rewrite list_lookup_insert_ne.
Qed.

Lemma has_adapter_insert outboxes i a a' target : outboxes !! i = Some (Some a) -> oa_target a' = oa_target a ->
  has_adapter target (<[i := Some a']> outboxes) <-> has_adapter target outboxes.
Proof.
  intros L T. split; intros (i' & b & L' & TB).
  - destruct (decide (i = i')) as [<-|N].
    + rewrite list_lookup_insert_eq in L' by (by eapply lookup_lt_Some). injection L' as <-. exists i, a. split; [done|congruence].
    + rewrite list_lookup_insert_ne in L' by done. by exists i', b.
  - destruct (decide (i = i')) as [<-|N].
    + rewrite L in L'. injection L' as <-. exists i, a'. split; [|congruence]. apply list_lookup_insert_eq. by eapply lookup_lt_Some.
    + exists i', b. by rewrite list_lookup_insert_ne.
Qed.

(** What [AckOutbox] keeps, and what it does when it succeeds. *)
Lemma ack_keeps clock ctx d j j' err : clock <> 0 -> mem_AckOutbox clock ctx d j = (j', err) ->
  (forall x, acknowledged j x -> acknowledged j' x)
  /\ (forall id, is_Some (mj_outbox j !! id) -> is_Some (mj_outbox j' !! id))
  /\ (err = None -> is_Some (mj_outbox j !! dl_DeliveryID d) -> acknowledged j' d).
Proof.
  intros C. unfold mem_AckOutbox. destruct (contextErr ctx); [intros [= <- <-]; by split_and!|].
  destruct (mj_outbox j !! dl_DeliveryID d) as [prior|] eqn:L; [|intros [= <- <-]; split_and!; [done|done|by intros _ [? [=]]]].
  destruct (negb _); [intros [= <- <-]; by split_and!|]. cbv zeta. intros [= <- <-].
  assert (IsZero (if IsZero (dl_DeliveredAt d) then clock else dl_DeliveredAt d) = false) as NZ.
  { destruct (IsZero (dl_DeliveredAt d)) eqn:Z; [|done]. unfold IsZero. by apply Z.eqb_neq. }
  split_and!.
  - intros x (y & Y & YZ). destruct (decide (dl_DeliveryID d = dl_DeliveryID x)) as [E|N].
    + eexists. cbn. rewrite E, lookup_insert_eq. by split.
    + exists y. cbn. by rewrite lookup_insert_ne.
  - intros id [x X]. cbn. destruct (decide (dl_DeliveryID d = id)) as [<-|N]; [rewrite lookup_insert_eq|rewrite lookup_insert_ne by done]; by eexists.
  - intros _ _. eexists. cbn. rewrite lookup_insert_eq. by split.
Qed.

Lemma dispatch_all_ok ctx clock pending : (forall i, clock i <> 0) -> forall k outboxes j outboxes' j',
  dispatch_all (J:=MemoryJournal) (A:=MemoryOutboxAdapter) k ctx clock pending outboxes j = (outboxes', j', None) ->
  (forall d, d ∈ pending -> is_Some (mj_outbox j !! dl_DeliveryID d)) ->
  (forall d, d ∈ pending -> has_adapter (dl_Target d) outboxes -> delivered outboxes' d /\ acknowledged j' d)
  /\ (forall d, delivered outboxes d -> delivered outboxes' d) /\ (forall d, acknowledged j d -> acknowledged j' d).
Proof.
  intros C. induction pending as [|d pending IH]; intros k outboxes j outboxes' j'; cbn [dispatch_all].
  { intros [= <- <-] _. split_and!; [|done|done]. intros d X. by apply elem_of_nil in X. }
  destruct (adapter_for _ _ _) as [[i a]|] eqn:AF.
  - apply adapter_for_some in AF as (i' & -> & L & T). cbn [Nat.add].
    change (adapter_Deliver (ctx (2 * k + 1)%nat) d a) with (Deliver (ctx (2 * k + 1)%nat) d a).
    destruct (Deliver _ d a) as [a' err] eqn:D. destruct (Deliver_keeps _ _ _ _ _ D) as (T' & K & DI).
    destruct err as [err|]; [done|].
    change (journal_AckOutbox (ctx (2 * k + 2)%nat) (clock k) d j) with (mem_AckOutbox (clock k) (ctx (2 * k + 2)%nat) d j).
    destruct (mem_AckOutbox _ _ d j) as [j1 err] eqn:AK. destruct (ack_keeps _ _ _ _ _ _ (C k) AK) as (KA & KS & AD).
    destruct err as [err|]; [done|]. intros E P. destruct (IH _ _ _ _ _ E) as (ALL & KD & KA').
    { intros x X. apply KS, P. by right. }
    split_and!; [|intros x X; by eapply KD, delivered_insert|intros x X; by apply KA', KA].
    intros x X HA. apply elem_of_cons in X as [->|X]; [|apply ALL; [done|by eapply has_adapter_insert]].
    split; [|apply KA', AD; [done|apply P; by left]]. apply KD. exists i', a'. split_and!; [|congruence|by apply DI].
    apply list_lookup_insert_eq. by eapply lookup_lt_Some.
  - intros E P. destruct (IH _ _ _ _ _ E) as (ALL & KD & KA'); [intros x X; apply P; by right|]. split_and!; [|done|done].
    intros x X HA. apply elem_of_cons in X as [->|X]; [by apply adapter_for_none in AF|by apply ALL].
Qed.

(** The deliveries of a journal are under their identifiers. *)
Definition keyed (j : MemoryJournal) : Prop := map_Forall (fun id d => dl_DeliveryID d = id) (mj_outbox j).

Lemma enqueue_keyed ds m : map_Forall (fun id d => dl_DeliveryID d = id) m ->
  map_Forall (fun id d => dl_DeliveryID d = id) (enqueue_all m ds).
Proof.
  revert m. induction ds as [|d ds IH]; intros m M; [done|]. apply IH. by apply map_Forall_insert_2.
Qed.

(** Every journal that operations reach is keyed. *)
Lemma keyed_after ops durable : keyed (mem_after ops (NewMemoryJournalWithDurability durable)).
Proof.
  assert (keyed (NewMemoryJournalWithDurability durable)) as K by apply map_Forall_empty.
  revert K. generalize (NewMemoryJournalWithDurability durable). induction ops as [|op ops IH]; intros j K; [done|].
  apply IH. destruct op as [ctx c|ctx clock d]; cbn [mem_apply].
  - destruct (mem_Append ctx c j) as [j' err] eqn:E. cbn [fst].
    apply mem_Append_outcome in E as [e NE|e A|V A]; [done|done|]. by apply enqueue_keyed.
  - unfold mem_AckOutbox. destruct (contextErr ctx); [done|]. destruct (mj_outbox j !! dl_DeliveryID d) as [prior|] eqn:L; [|done].
    destruct (negb _); [done|]. apply map_Forall_insert_2; [|done]. exact (K _ _ L).
Qed.

Lemma pending_in_outbox ctx stream limit j ds d : keyed j -> mem_PendingOutbox ctx stream limit j = Ok ds -> d ∈ ds ->
  mj_outbox j !! dl_DeliveryID d = Some d.
Proof.
  intros KY. unfold mem_PendingOutbox. destruct (contextErr ctx); [done|]. cbv zeta. set (l := List.filter _ _).
  intros [= <-] X. assert (d ∈ merge_sort delivery_le l) as Y.
  { destruct (_ && _); [|done]. by eapply elem_of_sublist, sublist_take. }
  rewrite merge_sort_Permutation in Y. unfold l in Y. apply list_elem_of_In, filter_In in Y as [Y _].
  apply in_map_iff in Y as ([id x] & <- & Y). apply list_elem_of_In, elem_of_map_to_list in Y. cbn. by rewrite (KY id x).
Qed.

(** A dispatch that reports success has delivered: every pending delivery of the stream within
    the limit whose target has an adapter is with an adapter of that target, as it was, and is marked
    in the journal, so that it is not pending again. *)
Theorem dispatch_delivers ctx clock limit cfg outboxes j outboxes' j' : keyed j -> (forall i, clock i <> 0) ->
  Dispatch (J:=MemoryJournal) (A:=MemoryOutboxAdapter) ctx clock limit cfg outboxes j = (outboxes', j', None) ->
  exists pending, mem_PendingOutbox (ctx 0%nat) (cf_stream cfg) limit j = Ok pending
    /\ forall d, d ∈ pending -> has_adapter (dl_Target d) outboxes -> delivered outboxes' d /\ acknowledged j' d.
Proof.
  intros KY C E. unfold Dispatch in E. cbn [journal_PendingOutbox MemoryJournal_Journal] in E.
  destruct (mem_PendingOutbox _ _ _ _) as [pending|err] eqn:P; [|done]. exists pending. split; [done|].
  apply (dispatch_all_ok _ _ _ C) in E as (ALL & _); [done|]. intros d D. eexists. by eapply pending_in_outbox.
Qed.
