(* ===== verification/AuditSystem.v ===== *)
(** * The audit runtime at work (internal/audit/runtime.go)

    The callers of [Append], the worker, [Replay], the acknowledgements of
    [Dispatch] and [Close] as steps that interleave: every critical section of
    the code is one step. The abstract specification is a log of records. *)

From S2P Require Import Prelude GoText Sha256 JsonValid Json JsonDecode TimeText JsonReads AuditEvent AuditDecode AuditJournal AuditSpool AuditRuntime AuditRuntimeFacts.
From Stdlib Require Import Ascii.

Open Scope string_scope.
Open Scope list_scope.
Open Scope Z_scope.
Open Scope go_scope.

(** What callers and the operator see: a normal event was accepted, a critical
    one was recorded, the worker recorded an event, or a replay succeeded. *)
#[warnings="-register-all"]
Inductive output := Accepted (e : Event) | Returned (e : Event) (r : AuditRecord) | Logged (e : Event) (r : AuditRecord) | Replayed.

(** A critical call waits until nothing is pending, passes, counts itself as
    pending, has its answer from [persist], is no longer pending, and returns. *)
#[warnings="-register-all"]
Inductive phase :=
| Waiting | Passed | Begun | Stored (answer : result error AuditRecord) | Answered (answer : result error AuditRecord).

(** The worker has taken an event, has its answer, and has reported it. *)
#[warnings="-register-all"]
Inductive work := Taken | Persisted (answer : result error AuditRecord) | Reported.

Section System.
Context {J S A : Type} `{Journal J} `{EncryptedSpool S} `{OutboxAdapter A}.
Context (ed25519_Sign : list Z -> string -> list Z) (ed25519_Verify : list Z -> string -> list Z -> bool).

Record Sys := {
  sy_config : Config; sy_outboxes : list (option A); sy_chain : Chain (J:=J) (S:=S); sy_queue : Queue;
  sy_worker : option (Event * work); sy_calls : list (Event * phase) }.

Definition start (r : Runtime (J:=J) (S:=S) (A:=A)) : Sys :=
  {| sy_config := rt_config r; sy_outboxes := rt_outboxes r; sy_chain := rt_chain r; sy_queue := rt_queue r;
     sy_worker := None; sy_calls := [] |}.

Definition with_chain (s : Sys) (c : Chain) : Sys :=
  {| sy_config := sy_config s; sy_outboxes := sy_outboxes s; sy_chain := c; sy_queue := sy_queue s;
     sy_worker := sy_worker s; sy_calls := sy_calls s |}.
Definition with_queue (s : Sys) (q : Queue) : Sys :=
  {| sy_config := sy_config s; sy_outboxes := sy_outboxes s; sy_chain := sy_chain s; sy_queue := q;
     sy_worker := sy_worker s; sy_calls := sy_calls s |}.
Definition with_worker (s : Sys) (w : option (Event * work)) : Sys :=
  {| sy_config := sy_config s; sy_outboxes := sy_outboxes s; sy_chain := sy_chain s; sy_queue := sy_queue s;
     sy_worker := w; sy_calls := sy_calls s |}.
Definition with_calls (s : Sys) (l : list (Event * phase)) : Sys :=
  {| sy_config := sy_config s; sy_outboxes := sy_outboxes s; sy_chain := sy_chain s; sy_queue := sy_queue s;
     sy_worker := sy_worker s; sy_calls := l |}.

(** The call at [i] goes on, or returns. *)
Definition advance (s : Sys) (i : nat) (e : Event) (p : phase) : Sys := with_calls s (<[i := (e, p)]> (sy_calls s)).
Definition leave (s : Sys) (i : nat) : Sys := with_calls s (delete i (sy_calls s)).

Definition items_after (q : Queue) (items : list Event) : Queue :=
  {| q_items := items; q_pending := q_pending q; q_closed := q_closed q; q_firstErr := q_firstErr q |}.

(** The environment of a call of [persist]: its clock shows times that can be
    written, and the log is not longer than a sequence can count. *)
Definition persistable (s : Sys) (now : nat -> nat -> Time) : Prop :=
  (forall k, clock_ok (now k)) /\ ar_Sequence (ch_head (sy_chain s)) < two64 - 1.

Inductive step (s : Sys) : list output -> Sys -> Prop :=
| step_normal ctx now ctx' pick e0 e q err :
    prepare (sy_config s) ctx now e0 = Ok e -> uint64_range (ae_PolicyEpoch e) = true -> is_critical e = false ->
    enqueue (cf_capacity (sy_config s)) ctx' pick e (sy_queue s) = (q, err) ->
    step s (match err with None => [Accepted e] | Some _ => [] end) (with_queue s q)
| step_call ctx now e0 e :
    prepare (sy_config s) ctx now e0 = Ok e -> uint64_range (ae_PolicyEpoch e) = true -> is_critical e = true ->
    critical_refused (sy_config s) (sy_chain s) = None ->
    step s [] (with_calls s (sy_calls s ++ [(e, Waiting)]))
| step_idle i e : sy_calls s !! i = Some (e, Waiting) -> idle (sy_queue s) = true -> step s [] (advance s i e Passed)
| step_cancelled i e : sy_calls s !! i = Some (e, Waiting) -> step s [] (leave s i)
| step_begin i e q err : sy_calls s !! i = Some (e, Passed) -> begin_critical (sy_queue s) = (q, err) ->
    step s [] (match err with
               | None => advance (with_queue s q) i e Begun
               | Some err => advance s i e (Answered (Err err))
               end)
| step_persist i e ctx now rnd c answer : sy_calls s !! i = Some (e, Begun) -> persistable s now ->
    persist ed25519_Sign ed25519_Verify (sy_config s) (sy_outboxes s) ctx now rnd e (sy_chain s) = (c, answer) ->
    step s [] (advance (with_chain s c) i e (Stored answer))
| step_end i e answer : sy_calls s !! i = Some (e, Stored answer) ->
    step s [] (advance (with_queue s (endPending (sy_queue s))) i e (Answered answer))
| step_return i e answer : sy_calls s !! i = Some (e, Answered answer) ->
    step s (match answer with Ok r => [Returned e r] | Err _ => [] end) (leave s i)
| step_take e items : sy_worker s = None -> q_items (sy_queue s) = e :: items ->
    step s [] (with_worker (with_queue s (items_after (sy_queue s) items)) (Some (e, Taken)))
| step_work e now rnd c answer : sy_worker s = Some (e, Taken) -> persistable s now ->
    persist ed25519_Sign ed25519_Verify (sy_config s) (sy_outboxes s) (fun _ => Background) now rnd e (sy_chain s) = (c, answer) ->
    step s (match answer with Ok r => [Logged e r] | Err _ => [] end)
      (with_worker (with_chain s c) (Some (e, Persisted answer)))
| step_report e answer : sy_worker s = Some (e, Persisted answer) ->
    step s [] (with_worker (with_queue s (match answer with Err err => fail (sy_queue s) err | Ok _ => sy_queue s end))
                 (Some (e, Reported)))
| step_done e : sy_worker s = Some (e, Reported) ->
    step s [] (with_worker (with_queue s (endPending (sy_queue s))) None)
| step_replay ctx c err : Replay ctx (sy_config s) (sy_chain s) = (c, err) ->
    step s (match err with None => [Replayed] | Some _ => [] end) (with_chain s c)
| step_ack ctx clock d j err : journal_AckOutbox ctx clock d (ch_journal (sy_chain s)) = (j, err) ->
    step s [] (with_chain s (set_journal (sy_chain s) j))
| step_close : step s [] (with_queue s (close_queue (sy_queue s))).

Inductive run (s : Sys) : list output -> Sys -> Prop :=
| run_nil : run s [] s
| run_snoc o s1 o' s2 : run s o s1 -> step s1 o' s2 -> run s (o ++ o') s2.

Lemma run_app s o1 s1 o2 s2 : run s o1 s1 -> run s1 o2 s2 -> run s (o1 ++ o2) s2.
Proof.
  intros R1 R2. induction R2 as [|o s' o' s2' R2 IH ST]; [by rewrite app_nil_r|]. rewrite (assoc app). by econstructor.
Qed.

(** ** The log *)

(** [Append] of an event adds the record after the last one, once. *)
Definition log_head (log : list AuditRecord) : AuditRecord := default zero_record (last log).

Inductive log_step (stream : string) (log : list AuditRecord) : list AuditRecord -> Prop :=
| log_same : log_step stream log log
| log_append e : validateEvent e = None -> ae_StreamID e = stream ->
    ae_EventID e ∉ map (fun r => ae_EventID (ar_Event r)) log ->
    log_step stream log (log ++ [next_record (log_head log) e]).
End System.

(** ** The invariant of the audit runtime (internal/audit/runtime.go)

    The records of the journal are a prefix of the log, the rest of the log is
    in the spool, and every operation of the runtime keeps it so, when nobody
    else writes to the stream and the spool. *)

Definition record_id (r : AuditRecord) : string := ae_EventID (ar_Event r).

Section Facts.
Context {J S A : Type} `{JournalLaws J} `{SpoolLaws S} `{OutboxAdapter A}.
Context (ed25519_Sign : list Z -> string -> list Z) (ed25519_Verify : list Z -> string -> list Z -> bool).

Abbreviation Chain := (Chain (J:=J) (S:=S)).

(** ** Where a record is *)

Definition rows (cfg : Config) (c : Chain) : list Commit := journal_rows (ch_journal c) (cf_stream cfg).

Definition spooled (cfg : Config) (c : Chain) : list Commit :=
  match ch_spool c with Some s => spool_commits s (cf_stream cfg) | None => [] end.

(** The commit is in a durable store. *)
Definition durable (cfg : Config) (c : Chain) (k : Commit) : Prop :=
  k ∈ rows cfg c /\ journal_Durable (ch_journal c) = true \/ k ∈ spooled cfg c /\ spool_durable (ch_spool c) = true.

(** The commit has a checkpoint, which the verifiers accept if there are any. *)
Definition signed (cfg : Config) (k : Commit) : Prop := exists cp, ac_Checkpoint k = Some cp
  /\ (cf_verifiers cfg <> ∅ ->
      VerifyCheckpoint ed25519_Verify (cf_stream cfg) (ac_Record k) cp (cf_verifiers cfg) = None).

(** A critical record is where the runtime found it, or durable and signed. *)
Definition accounted (cfg : Config) (found : list AuditRecord) (c : Chain) (r : AuditRecord) : Prop :=
  is_critical (ar_Event r) = true -> r ∈ found \/ exists k, ac_Record k = r /\ durable cfg c k /\ signed cfg k.

Record chain_inv (cfg : Config) (found : list AuditRecord) (c : Chain) (log : list AuditRecord) : Prop := {
  ci_journal : journal_wf (ch_journal c);
  ci_prefix : map ac_Record (rows cfg c) `prefix_of` log;
  ci_sequence : forall i r, log !! i = Some r -> ar_Sequence r = Z.of_nat i + 1;
  ci_ids : NoDup (map record_id log);
  ci_head : ch_head c = log_head log;
  ci_events : forall id r, ch_events c !! id = Some r <-> r ∈ log /\ record_id r = id;
  ci_spool : forall s, ch_spool c = Some s -> spool_wf s /\ forall stream, stream <> cf_stream cfg -> spool_commits s stream = [];
  ci_spooled : forall k, k ∈ spooled cfg c -> encodable k /\ stream_of k = cf_stream cfg /\ ac_Record k ∈ log;
  ci_unique : forall k k', k ∈ rows cfg c ++ spooled cfg c -> k' ∈ rows cfg c ++ spooled cfg c ->
    ac_Record k = ac_Record k' -> k = k';
  ci_cover : forall i r, log !! i = Some r -> (i < length (rows cfg c))%nat \/ exists k, k ∈ spooled cfg c /\ ac_Record k = r;
  ci_spooling : ch_spooling c = false -> length log = length (rows cfg c);
  ci_durable : ch_spooling c = false -> ch_spool c = None \/ journal_Durable (ch_journal c) = true;
  ci_critical : forall r, r ∈ log -> accounted cfg found c r }.

(** ** The log *)

Lemma log_sequence log : (forall i r, log !! i = Some r -> ar_Sequence r = Z.of_nat i + 1) ->
  ar_Sequence (log_head log) = Z.of_nat (length log).
Proof.
  intros Q. unfold log_head. destruct (last log) as [r|] eqn:L; cbn.
  - rewrite last_lookup in L. rewrite (Q _ _ L). apply lookup_lt_Some in L. lia.
  - apply last_None in L as ->. done.
Qed.

Lemma log_head_snoc log r : log_head (log ++ [r]) = r.
Proof. unfold log_head. by rewrite last_snoc. Qed.

(** Rows of the journal are records of the log at their positions. *)
Lemma row_record cfg found c log i k : chain_inv cfg found c log -> rows cfg c !! i = Some k -> log !! i = Some (ac_Record k).
Proof.
  intros I L. eapply prefix_lookup_Some; [|apply (ci_prefix _ _ _ _ I)]. by rewrite list_lookup_fmap, L.
Qed.

Lemma rows_length cfg found c log : chain_inv cfg found c log -> (length (rows cfg c) <= length log)%nat.
Proof. intros I. pose proof (prefix_length _ _ (ci_prefix _ _ _ _ I)) as P. by rewrite length_map in P. Qed.

(** A record of the log below the length of the journal is in the journal. *)
Lemma record_row cfg found c log i r : chain_inv cfg found c log -> log !! i = Some r -> (i < length (rows cfg c))%nat ->
  exists k, rows cfg c !! i = Some k /\ ac_Record k = r.
Proof.
  intros I L LT. destruct (lookup_lt_is_Some_2 _ _ LT) as [k K]. exists k. split; [done|].
  pose proof (row_record _ _ _ _ _ _ I K) as R. congruence.
Qed.

Lemma log_unique cfg found c log r r' : chain_inv cfg found c log -> r ∈ log -> r' ∈ log -> record_id r = record_id r' -> r = r'.
Proof.
  intros I R R' E. apply list_elem_of_lookup in R as [i L], R' as [i' L'].
  assert (i = i') as ->; [|congruence]. pose proof (ci_ids _ _ _ _ I) as ND.
  eapply NoDup_lookup; [exact ND|by rewrite list_lookup_fmap, L|by rewrite list_lookup_fmap, L', E].
Qed.

(** A commit of the log with a sequence or an event that the journal has is in
    the journal. *)
Lemma present_row cfg found c log k : chain_inv cfg found c log -> ac_Record k ∈ log ->
  sequence_of k <= Z.of_nat (length (rows cfg c)) \/ event_id k ∈ map event_id (rows cfg c) ->
  ac_Record k ∈ map ac_Record (rows cfg c).
Proof.
  intros I R [Q|ID].
  - apply list_elem_of_lookup in R as [i L]. pose proof (ci_sequence _ _ _ _ I i _ L) as E. unfold sequence_of in Q.
    destruct (record_row _ _ _ _ _ _ I L) as (k' & K & <-); [lia|]. by eapply list_elem_of_fmap_2, list_elem_of_lookup_2.
  - apply list_elem_of_fmap in ID as (k' & E & K). apply list_elem_of_lookup in K as [i L].
    pose proof (row_record _ _ _ _ _ _ I L) as R'. apply list_elem_of_lookup_2 in R'.
    rewrite (log_unique _ _ _ _ _ _ I R R' E). by eapply list_elem_of_fmap_2, list_elem_of_lookup_2.
Qed.

Lemma accounted_mono cfg found c c' r : (forall k, durable cfg c k -> durable cfg c' k) ->
  accounted cfg found c r -> accounted cfg found c' r.
Proof. intros M AC C. destruct (AC C) as [F|(k & E & D & SG)]; [by left|right]. exists k. eauto. Qed.

(** ** Steps that leave the log *)

(** A journal whose rows and flags are the same. *)
Lemma inv_same_journal cfg found c log j' : chain_inv cfg found c log -> journal_wf j' ->
  journal_rows j' (cf_stream cfg) = rows cfg c -> journal_Durable j' = journal_Durable (ch_journal c) ->
  chain_inv cfg found (set_journal c j') log.
Proof.
  intros I W R D. assert (rows cfg (set_journal c j') = rows cfg c) as RE by done.
  destruct I. constructor; rewrite ?RE; cbn; try done.
  - by rewrite D.
  - intros r IN. eapply accounted_mono; [|by apply ci_critical0]. intros k [[K DU]|DU]; [left|by right].
    split; [by rewrite RE|]. cbn. by rewrite D.
Qed.

(** A spool whose commits and flag are the same. *)
Lemma inv_same_spool cfg found c log s s' : chain_inv cfg found c log -> ch_spool c = Some s -> spool_wf s' ->
  (forall stream, spool_commits s' stream = spool_commits s stream) -> spool_Durable s' = spool_Durable s ->
  chain_inv cfg found (set_spool c (Some s')) log.
Proof.
  intros I SO W R D. assert (spooled cfg (set_spool c (Some s')) = spooled cfg c) as SE by (unfold spooled; cbn; by rewrite R, SO).
  pose proof (ci_spool _ _ _ _ I s SO) as [_ X]. destruct I. constructor; rewrite ?SE; cbn; try done.
  - intros s0 [= <-]. split; [done|]. intros stream N. rewrite R. by apply X.
  - intros SP. destruct (ci_durable0 SP) as [N|N]; [congruence|by right].
  - intros r IN. eapply accounted_mono; [|by apply ci_critical0]. intros k [DU|[K DU]]; [by left|right].
    split; [by rewrite SE|]. cbn. rewrite SO in DU. cbn in DU. by rewrite D.
Qed.

(** When nothing is spooled the journal holds the log. *)
Lemma rows_log cfg found c log : chain_inv cfg found c log -> length log = length (rows cfg c) -> map ac_Record (rows cfg c) = log.
Proof.
  intros I LEN. destruct (ci_prefix _ _ _ _ I) as [x X]. rewrite X in LEN. rewrite length_app, length_map in LEN.
  destruct x; [by rewrite app_nil_r in X|cbn in LEN; lia].
Qed.

Lemma last_head cfg found c log : chain_inv cfg found c log -> ch_spooling c = false ->
  from_option ac_Record zero_record (last (rows cfg c)) = ch_head c.
Proof.
  intros I SP. rewrite (ci_head _ _ _ _ I). rewrite <- (rows_log _ _ _ _ I) by (by eapply ci_spooling).
  unfold log_head. change (map ac_Record) with (fmap (M:=list) ac_Record). rewrite fmap_last. by destruct (last _).
Qed.

Lemma inv_spooling cfg found c log : chain_inv cfg found c log -> chain_inv cfg found (set_spooling c true) log.
Proof. intros I. by destruct I. Qed.

(** What is kept in either store is in the log. *)
Lemma kept_in_log cfg found c log k : chain_inv cfg found c log -> k ∈ rows cfg c ++ spooled cfg c -> ac_Record k ∈ log.
Proof.
  intros I K. apply elem_of_app in K as [K|K]; [|by apply (ci_spooled _ _ _ _ I)].
  apply list_elem_of_lookup in K as [i L]. pose proof (row_record _ _ _ _ _ _ I L) as R. by eapply list_elem_of_lookup_2.
Qed.

(** One more commit, of a record that was not there, next to those kept. *)
Lemma unique_extend cfg found c log k (l : list Commit) : chain_inv cfg found c log -> record_id (ac_Record k) ∉ map record_id log ->
  (forall k', k' ∈ l -> k' = k \/ k' ∈ rows cfg c ++ spooled cfg c) ->
  forall k1 k2, k1 ∈ l -> k2 ∈ l -> ac_Record k1 = ac_Record k2 -> k1 = k2.
Proof.
  intros I F L k1 k2 K1 K2 E.
  assert (forall k', k' ∈ rows cfg c ++ spooled cfg c -> ac_Record k <> ac_Record k') as N.
  { intros k' K X. destruct F. rewrite X. apply list_elem_of_fmap_2. by eapply kept_in_log. }
  destruct (L k1 K1) as [->|I1], (L k2 K2) as [->|I2]; [done|by destruct (N k2 I2)|by destruct (N k1 I1)|].
  by eapply ci_unique.
Qed.

(** ** A new record *)

Definition fresh (log : list AuditRecord) (e : Event) : Prop := ae_EventID e ∉ map record_id log.

(** The parts of the invariant that only concern the log and the memory of the
    runtime. *)
Lemma log_extend cfg found c log r : chain_inv cfg found c log -> ar_Sequence r = Z.of_nat (length log) + 1 ->
  record_id r ∉ map record_id log ->
  (forall i r', (log ++ [r]) !! i = Some r' -> ar_Sequence r' = Z.of_nat i + 1) /\ NoDup (map record_id (log ++ [r]))
  /\ forall id r', <[record_id r := r]> (ch_events c) !! id = Some r' <-> r' ∈ log ++ [r] /\ record_id r' = id.
Proof.
  intros I Q F. split_and!.
  - intros i r' L. apply lookup_snoc_Some in L as [[_ L]|[-> ->]]; [by eapply ci_sequence|done].
  - rewrite map_app. apply NoDup_app. split_and!; [by eapply ci_ids| |apply NoDup_singleton].
    intros x X Y. apply list_elem_of_singleton in Y as ->. done.
  - intros id r'. rewrite elem_of_app, list_elem_of_singleton. destruct (decide (record_id r = id)) as [<-|N].
    + rewrite lookup_insert_eq. split; [intros [= <-]; auto|]. intros [[R| ->] E]; [|done].
      destruct F. rewrite <- E. by apply list_elem_of_fmap_2.
    + rewrite lookup_insert_ne by done. rewrite (ci_events _ _ _ _ I). split; [tauto|].
      intros [[R| ->] E]; [done|by destruct N].
Qed.

(** The journal took it. *)
Lemma inv_journal_ok cfg found c log k ctx j' : chain_inv cfg found c log -> ch_spooling c = false ->
  stream_of k = cf_stream cfg -> ar_Sequence (ac_Record k) = Z.of_nat (length log) + 1 ->
  record_id (ac_Record k) ∉ map record_id log ->
  (is_critical (ar_Event (ac_Record k)) = true -> signed cfg k /\ journal_Durable (ch_journal c) = true) ->
  journal_Append ctx k (ch_journal c) = (j', None) ->
  chain_inv cfg found (record_event (set_journal c j') (ac_Record k)) (log ++ [ac_Record k]).
Proof.
  intros I SP ST Q F CR E. pose proof (append_wf _ _ _ _ _ E (ci_journal _ _ _ _ I)) as W.
  pose proof (append_durable _ _ _ _ _ E) as D. pose proof (ci_spooling _ _ _ _ I SP) as LEN.
  assert (journal_rows j' (cf_stream cfg) = rows cfg c ++ [k]) as R.
  { destruct (append_ok _ _ _ _ E) as [R|[_ L]]; rewrite ST in *; [done|]. fold (rows cfg c) in L. unfold sequence_of in L. lia. }
  pose proof (rows_log _ _ _ _ I LEN) as RL.
  destruct (log_extend _ _ _ _ _ I Q F) as (QS & ND & EV).
  set (c' := record_event (set_journal c j') (ac_Record k)).
  assert (rows cfg c' = rows cfg c ++ [k]) as RE by done.
  constructor; try done.
  - rewrite RE, map_app, RL. done.
  - by rewrite log_head_snoc.
  - apply (ci_spool _ _ _ _ I).
  - intros k' K. destruct (ci_spooled _ _ _ _ I k' K) as (EN & SK & IN). split_and!; [done|done|apply elem_of_app; by left].
  - eapply unique_extend; [done|done|]. intros k'. rewrite RE, !elem_of_app, list_elem_of_singleton.
    change (spooled cfg c') with (spooled cfg c). tauto.
  - intros i r L. rewrite RE, length_app. cbn. left. apply lookup_lt_Some in L. rewrite length_app in L. cbn in L. lia.
  - intros _. rewrite RE, !length_app. cbn. lia.
  - intros X. destruct (ci_durable _ _ _ _ I X) as [N|N]; [by left|right]. cbn. by rewrite D.
  - intros r IN. apply elem_of_app in IN as [IN|IN].
    + eapply accounted_mono; [|by eapply ci_critical]. intros k2 [[K2 DU]|DU]; [left|by right].
      split; [rewrite RE; apply elem_of_app; by left|]. cbn. by rewrite D.
    + apply list_elem_of_singleton in IN as ->. intros C. destruct (CR C) as [SG DU]. right. exists k. split_and!; [done| |done].
      left. split; [rewrite RE; apply elem_of_app; right; by apply list_elem_of_singleton|]. cbn. by rewrite D.
Qed.

(** The spool took it. *)
Lemma inv_spool_ok cfg found c log k ctx rnd s s' : chain_inv cfg found c log -> ch_spooling c = true -> ch_spool c = Some s ->
  encodable k -> stream_of k = cf_stream cfg -> ar_Sequence (ac_Record k) = Z.of_nat (length log) + 1 ->
  record_id (ac_Record k) ∉ map record_id log ->
  (is_critical (ar_Event (ac_Record k)) = true -> signed cfg k /\ spool_Durable s = true) ->
  spool_Put ctx rnd k s = (s', None) ->
  chain_inv cfg found (record_event (set_spool c (Some s')) (ac_Record k)) (log ++ [ac_Record k]).
Proof.
  intros I SP SO EN ST Q F CR E. destruct (ci_spool _ _ _ _ I s SO) as [W X].
  pose proof (put_wf _ _ _ _ _ E EN W) as W'. pose proof (put_durable _ _ _ _ _ _ E) as D.
  assert (spooled cfg c = spool_commits s (cf_stream cfg)) as SE by (unfold spooled; by rewrite SO).
  assert (spool_commits s' (cf_stream cfg) = spooled cfg c ++ [k]) as R.
  { rewrite SE. destruct (put_ok _ _ _ _ _ W EN E) as [R|[_ (stream & ID)]]; [by rewrite <- ST|].
    exfalso. destruct (decide (stream = cf_stream cfg)) as [->|N]; [|rewrite X in ID by done; by apply elem_of_nil in ID].
    apply list_elem_of_fmap in ID as (k' & IE & K). destruct F. change (record_id (ac_Record k)) with (event_id k). rewrite IE.
    apply (list_elem_of_fmap_2 record_id _ (ac_Record k')). rewrite <- SE in K. apply (ci_spooled _ _ _ _ I k' K). }
  destruct (log_extend _ _ _ _ _ I Q F) as (QS & ND & EV).
  set (c' := record_event (set_spool c (Some s')) (ac_Record k)).
  assert (rows cfg c' = rows cfg c) as RE by done. assert (spooled cfg c' = spooled cfg c ++ [k]) as SE' by done.
  pose proof (rows_length _ _ _ _ I) as RL.
  constructor; try done.
  - by apply (ci_journal _ _ _ _ I).
  - rewrite RE. etrans; [apply (ci_prefix _ _ _ _ I)|]. by apply prefix_app_r.
  - by rewrite log_head_snoc.
  - intros s0 [= <-]. split; [done|]. intros stream N. rewrite (put_other _ _ _ _ _ _ _ E EN) by congruence. by apply X.
  - intros k' K. rewrite SE' in K. apply elem_of_app in K as [K|K].
    + destruct (ci_spooled _ _ _ _ I k' K) as (EK & SK & IN). split_and!; [done|done|apply elem_of_app; by left].
    + apply list_elem_of_singleton in K as ->. split_and!; [done|done|apply elem_of_app; right; by apply list_elem_of_singleton].
  - eapply unique_extend; [done|done|]. intros k'. rewrite RE, SE', !elem_of_app, list_elem_of_singleton. tauto.
  - intros i r L. apply lookup_snoc_Some in L as [[_ L]|[-> <-]].
    + rewrite RE. destruct (ci_cover _ _ _ _ I i r L) as [LT|(k' & K & E')]; [by left|right]. exists k'.
      split; [rewrite SE'; apply elem_of_app; by left|done].
    + right. exists k. split; [rewrite SE'; apply elem_of_app; right; by apply list_elem_of_singleton|done].
  - cbn. congruence.
  - cbn. congruence.
  - intros r IN. apply elem_of_app in IN as [IN|IN].
    + eapply accounted_mono; [|by eapply ci_critical]. intros k2 [DU|[K2 DU]]; [by left|right].
      split; [rewrite SE'; apply elem_of_app; by left|]. cbn. rewrite SO in DU. cbn in DU. by rewrite D.
    + apply list_elem_of_singleton in IN as ->. intros C. destruct (CR C) as [SG DU]. right. exists k. split_and!; [done| |done].
      right. split; [rewrite SE'; apply elem_of_app; right; by apply list_elem_of_singleton|]. cbn. by rewrite D.
Qed.

(** ** [persist] *)

(** The configuration of a runtime. *)
Definition config_ok (cfg : Config) : Prop := validID (cf_stream cfg) false = true /\ signs_bytes ed25519_Sign cfg.

(** What [Append] has checked of an event. *)
Definition admitted (cfg : Config) (durable : bool) (e : Event) : Prop :=
  validateEvent e = None /\ ae_StreamID e = cf_stream cfg /\ uint64_range (ae_PolicyEpoch e) = true
  /\ (is_critical e = true -> cf_signer cfg <> None /\ durable = true).

(** A durable channel. *)
Definition channel (c : Chain) : bool := journal_Durable (ch_journal c) || spool_durable (ch_spool c).

Definition answers (cfg : Config) (found log : list AuditRecord) (e : Event) (c' : Chain) (ans : result error AuditRecord) : Prop :=
  match ans with
  | Ok r => chain_inv cfg found c' (log ++ [r]) /\ r = next_record (log_head log) e
  | Err _ => chain_inv cfg found c' log
  end.

Lemma build_signed cfg outboxes now e head k : build ed25519_Sign ed25519_Verify (A:=A) cfg outboxes now e head = Ok k ->
  is_critical e = true -> cf_signer cfg <> None -> signed cfg k.
Proof.
  intros B C N. apply build_ok in B as (ER & _ & EK & V). unfold signed. rewrite ER.
  destruct (ac_Checkpoint k) as [cp|] eqn:K; [|by apply makeCheckpoint_critical in EK].
  exists cp. split; [done|]. by apply V.
Qed.

Lemma attempts_inv n : forall k cfg outboxes ctx now rnd e c found log c' ans,
  chain_inv cfg found c log -> config_ok cfg -> admitted cfg (channel c) e -> fresh log e ->
  (forall k, clock_ok (now k)) -> Z.of_nat (length log) < two64 - 1 ->
  attempts (A:=A) ed25519_Sign ed25519_Verify n k cfg outboxes ctx now rnd e c = (c', ans) ->
  answers cfg found log e c' ans /\ channel c' = channel c.
Proof.
  induction n as [|n IH]; intros k cfg outboxes ctx now rnd e c found log c' ans I CF AD F CK LT; cbn [attempts].
  { by intros [= <- <-]. }
  destruct (build _ _ cfg outboxes (now k) e (ch_head c)) as [commit|err] eqn:B; [|by intros [= <- <-]].
  destruct CF as [CV CS]. destruct AD as (AV & AS & AE & AC). pose proof (ci_head _ _ _ _ I) as HD.
  pose proof (log_sequence log (ci_sequence _ _ _ _ I)) as HS. rewrite <- HD in HS.
  pose proof (build_ok _ _ _ _ _ _ _ _ B) as (ER & _).
  assert (ar_Sequence (ac_Record commit) = Z.of_nat (length log) + 1) as Q by (rewrite ER, next_sequence; lia).
  assert (ar_Event (ac_Record commit) = e) as EE by (by rewrite ER).
  assert (stream_of commit = cf_stream cfg) as ST by (unfold stream_of; by rewrite EE).
  assert (record_id (ac_Record commit) ∉ map record_id log) as FR by (unfold record_id at 1; by rewrite EE).
  assert (is_critical e = true -> signed cfg commit) as SG by (intros C; eapply build_signed; [done|done|by apply AC]).
  cbv zeta. destruct (ch_spooling c) eqn:SP.
  - destruct (ch_spool c) as [s|] eqn:SO; [|by intros [= <- <-]]. destruct (_ && _) eqn:DU; [by intros [= <- <-]|].
    destruct (spool_Put _ _ _ _) as [s' err] eqn:P. destruct err as [err|]; intros [= <- <-].
    + destruct (put_err _ _ _ _ _ _ P) as [PE PW]. split; [|unfold channel; cbn; by rewrite SO, (put_durable _ _ _ _ _ _ P)].
      eapply inv_same_spool; [done|exact SO|by apply PW, (ci_spool _ _ _ _ I)|done|by eapply put_durable].
    + assert (encodable commit) as EN.
      { eapply build_encodable; [exact B|done|done|done| |done|by eapply put_valid]. lia. }
      split; [split; [|by rewrite ER, HD]|unfold channel; cbn; by rewrite SO, (put_durable _ _ _ _ _ _ P)].
      eapply inv_spool_ok; try done. rewrite EE. intros C. split; [by apply SG|].
      rewrite C, andb_true_r in DU. by apply negb_false_iff.
  - destruct (journal_Append _ _ _) as [j' err] eqn:P.
    pose proof (append_wf _ _ _ _ _ P (ci_journal _ _ _ _ I)) as W. pose proof (append_durable _ _ _ _ _ P) as D.
    destruct err as [err|].
    + assert (chain_inv cfg found (set_journal c j') log) as I'.
      { apply inv_same_journal; [done|done| |done]. by eapply append_err. }
      assert (channel (set_journal c j') = channel c) as CH by (unfold channel; cbn; by rewrite D).
      destruct (bool_decide _).
      * destruct (journal_Last _ _ _) as [last|err'] eqn:LA; [|by intros [= <- <-]]. apply last_ok in LA.
        assert (set_head (set_journal c j') last = set_journal c j') as ->.
        { rewrite LA. change (journal_rows j' (cf_stream cfg)) with (rows cfg (set_journal c j')).
          rewrite (last_head _ _ _ _ I') by done. by destruct c. }
        rewrite <- CH. apply IH; try done. by rewrite CH.
      * destruct (_ && _) eqn:UN; [|by intros [= <- <-]]. intros E. rewrite <- CH.
        apply IH with (log := log) (found := found) in E; try done; [by apply inv_spooling|].
        split_and!; [done|done|done|]. by rewrite <- CH in AC.
    + intros [= <- <-]. split; [split; [|by rewrite ER, HD]|unfold channel; cbn; by rewrite D].
      eapply inv_journal_ok; try done. rewrite EE. intros C. split; [by apply SG|].
      destruct (AC C) as [_ CH]. unfold channel in CH. destruct (ci_durable _ _ _ _ I SP) as [N|N]; [|done].
      rewrite N in CH. cbn in CH. by rewrite orb_false_r in CH.
Qed.

Lemma persist_inv cfg outboxes ctx now rnd e c found log c' ans :
  chain_inv cfg found c log -> config_ok cfg -> admitted cfg (channel c) e -> (forall k, clock_ok (now k)) ->
  ar_Sequence (ch_head c) < two64 - 1 ->
  persist (A:=A) ed25519_Sign ed25519_Verify cfg outboxes ctx now rnd e c = (c', ans) ->
  channel c' = channel c
  /\ (chain_inv cfg found c' log /\ (forall r, ans = Ok r -> r ∈ log /\ ar_Event r = e)
      \/ exists r, fresh log e /\ ans = Ok r /\ r = next_record (log_head log) e /\ chain_inv cfg found c' (log ++ [r])).
Proof.
  intros I CF AD CK LT. unfold persist. destruct (contextErr (ctx 0%nat)); [intros [= <- <-]; split; [done|by left]|].
  destruct (ch_events c !! ae_EventID e) as [prior|] eqn:EV.
  - intros [= <- <-]. split; [done|left]. split; [done|]. intros r. unfold eventEqual.
    destruct (bool_decide _) eqn:EQ; intros [= <-]. apply bool_decide_eq_true in EQ.
    split; [|done]. by apply (ci_events _ _ _ _ I) in EV as [? _].
  - assert (fresh log e) as F.
    { intros X. apply list_elem_of_fmap in X as (r & E & R).
      assert (ch_events c !! ae_EventID e = Some r); [|congruence]. by apply (ci_events _ _ _ _ I). }
    rewrite (ci_head _ _ _ _ I), (log_sequence _ (ci_sequence _ _ _ _ I)) in LT.
    intros E. apply (attempts_inv _ _ _ _ _ _ _ _ _ _ _ _ _ I CF AD F CK LT) in E as [AN CH]. split; [done|].
    destruct ans as [r|err]; cbn in AN.
    + right. exists r. destruct AN. by split_and!.
    + left. by split.
Qed.

(** ** [Replay] *)

Lemma prefix_in_map {X Y} (f : X -> Y) l l' y : y ∈ map f l -> l `prefix_of` l' -> y ∈ map f l'.
Proof. intros I [k ->]. rewrite map_app. apply elem_of_app. by left. Qed.

(** The journal took a commit of the spool, or has it. *)
Lemma inv_replayed cfg found c log k ctx j' : chain_inv cfg found c log -> k ∈ rows cfg c ++ spooled cfg c ->
  stream_of k = cf_stream cfg -> journal_Append ctx k (ch_journal c) = (j', None) ->
  chain_inv cfg found (set_journal c j') log /\ ac_Record k ∈ map ac_Record (rows cfg (set_journal c j'))
  /\ rows cfg c `prefix_of` rows cfg (set_journal c j').
Proof.
  intros I K ST E. pose proof (append_wf _ _ _ _ _ E (ci_journal _ _ _ _ I)) as W.
  pose proof (append_durable _ _ _ _ _ E) as D. pose proof (kept_in_log _ _ _ _ _ I K) as IN.
  destruct (append_ok _ _ _ _ E) as [R|[R L]]; rewrite ST in R.
  - assert (rows cfg (set_journal c j') = rows cfg c ++ [k]) as RE by done.
    assert (log !! length (rows cfg c) = Some (ac_Record k)) as LK.
    { pose proof (rows_verify j' (cf_stream cfg) W) as V. rewrite R in V. apply verify_snoc in V as (_ & Q & _).
      apply list_elem_of_lookup in IN as [i LI]. pose proof (ci_sequence _ _ _ _ I i _ LI) as Q'.
      unfold sequence_of in Q. fold (rows cfg c) in Q. replace (length (rows cfg c)) with i by lia. done. }
    assert (map ac_Record (rows cfg c ++ [k]) `prefix_of` log) as PR.
    { destruct (ci_prefix _ _ _ _ I) as [x X]. rewrite X in LK |- *. rewrite lookup_app_r, length_map, Nat.sub_diag in LK by (by rewrite length_map).
      destruct x as [|y x]; [done|]. injection LK as ->. exists x. rewrite map_app. cbn. by rewrite <- (assoc app). }
    split_and!; [|rewrite RE, map_app; apply elem_of_app; right; by apply list_elem_of_singleton|rewrite RE; by apply prefix_app_r].
    destruct I. constructor; rewrite ?RE; try done.
    + intros k1 k2. change (spooled cfg (set_journal c j')) with (spooled cfg c). intros K1 K2 E'.
      apply ci_unique0; [| |done].
      * rewrite !elem_of_app, list_elem_of_singleton in *. destruct K1 as [[K1| ->]|K1]; tauto.
      * rewrite !elem_of_app, list_elem_of_singleton in *. destruct K2 as [[K2| ->]|K2]; tauto.
    + intros i r LI. destruct (ci_cover0 i r LI) as [LT|X]; [left|by right]. rewrite length_app. lia.
    + intros SP. apply prefix_length in PR. rewrite length_map, !length_app in PR. cbn in PR. specialize (ci_spooling0 SP). lia.
    + cbn. by rewrite D.
    + intros r INR. eapply accounted_mono; [|by apply ci_critical0]. intros k2 [[K2 DU]|DU]; [left|by right].
      split; [rewrite RE; apply elem_of_app; by left|]. cbn. by rewrite D.
  - assert (chain_inv cfg found (set_journal c j') log) as I' by (by apply inv_same_journal).
    split_and!; [done| |by exists []; rewrite app_nil_r].
    eapply present_row; [done|done|]. left. rewrite ST in L. unfold rows. cbn. by rewrite R.
Qed.

(** An entry whose record the journal has is acknowledged. *)
Lemma inv_acked cfg found c log s ctx entry s' err k : chain_inv cfg found c log -> ch_spool c = Some s ->
  journal_Durable (ch_journal c) = true -> k ∈ rows cfg c ++ spooled cfg c -> ac_Record k ∈ map ac_Record (rows cfg c) ->
  (forall ctx k', spool_Open ctx entry s = Ok k' -> k' = k) -> spool_Ack ctx entry s = (s', err) ->
  chain_inv cfg found (set_spool c (Some s')) log.
Proof.
  intros I SO DU K INR OP E. assert (spooled cfg c = spool_commits s (cf_stream cfg)) as SE by (unfold spooled; by rewrite SO).
  assert (spooled cfg (set_spool c (Some s')) `sublist_of` spooled cfg c) as SUB by (rewrite SE; by eapply ack_sublist).
  assert (forall k', k' ∈ spooled cfg c -> k' <> k -> k' ∈ spooled cfg (set_spool c (Some s'))) as KEEP.
  { intros k' K' N. rewrite SE in K'. eapply ack_commits; [done|done|]. intros ctx' O. by apply OP in O. }
  assert (k ∈ rows cfg c) as KR.
  { apply list_elem_of_fmap in INR as (k' & ER & KR). rewrite (ci_unique _ _ _ _ I k k'); [done|done| |done].
    apply elem_of_app. by left. }
  destruct I. constructor; try done.
  - intros s0 [= <-]. destruct (ci_spool0 s SO) as [W X]. split; [by eapply spool_ack_wf|]. intros stream N.
    apply sublist_nil_r. rewrite <- (X stream N). by eapply ack_sublist.
  - intros k' K'. apply ci_spooled0. by eapply elem_of_sublist.
  - intros k1 k2 K1 K2. apply ci_unique0.
    + apply elem_of_app in K1 as [K1|K1]; apply elem_of_app; [by left|right]. by eapply elem_of_sublist.
    + apply elem_of_app in K2 as [K2|K2]; apply elem_of_app; [by left|right]. by eapply elem_of_sublist.
  - intros i r L. destruct (ci_cover0 i r L) as [LT|(k' & K' & ER)]; [by left|]. destruct (decide (k' = k)) as [->|N].
    + left. apply list_elem_of_lookup in KR as [i' L'].
      assert (log !! i' = Some r) as L2.
      { eapply prefix_lookup_Some; [|exact ci_prefix0]. by rewrite list_lookup_fmap, L', <- ER. }
      pose proof (ci_sequence0 _ _ L). pose proof (ci_sequence0 _ _ L2). assert (i = i') as -> by lia.
      by apply lookup_lt_Some in L'.
    + right. exists k'. split; [by apply KEEP|done].
  - intros SP. destruct (ci_durable0 SP) as [N|N]; [congruence|by right].
  - intros r IN. eapply accounted_mono; [|by apply ci_critical0]. intros k2 [D2|[K2 D2]]; [by left|].
    destruct (decide (k2 = k)) as [->|N]; [by left|right]. split; [by apply KEEP|]. cbn. rewrite SO in D2. cbn in D2.
    by rewrite (spool_ack_durable _ _ _ _ _ E).
Qed.

Lemma replay_entries_inv : forall es ks k ctx s c found log cfg c' err,
  Forall2 (fun e k => forall ctx k', spool_Open ctx e s = Ok k' -> k' = k) es ks ->
  chain_inv cfg found (set_spool c (Some s)) log -> (forall k, k ∈ ks -> k ∈ rows cfg c ++ spooled cfg (set_spool c (Some s))) ->
  (forall k, k ∈ ks -> stream_of k = cf_stream cfg) ->
  replay_entries k ctx es s c = (c', err) ->
  chain_inv cfg found c' log /\ channel c' = channel (set_spool c (Some s))
  /\ ch_spool c' <> None
  /\ rows cfg c `prefix_of` rows cfg c' /\ spooled cfg c' `sublist_of` spooled cfg (set_spool c (Some s))
  /\ (err = None -> forall k, k ∈ ks -> ac_Record k ∈ map ac_Record (rows cfg c')).
Proof.
  induction es as [|entry es IH]; intros ks n ctx s c found log cfg c' err F I KIN KS; cbn [replay_entries].
  { apply Forall2_nil_inv_l in F as ->. intros [= <- <-]. split_and!; try done. intros _ k X. by apply elem_of_nil in X. }
  apply Forall2_cons_inv_l in F as (k & ks' & O & F & ->).
  assert (k ∈ rows cfg c ++ spooled cfg (set_spool c (Some s))) as K by (apply KIN; by left).
  assert (stream_of k = cf_stream cfg) as ST by (apply KS; by left).
  destruct (spool_Open _ entry s) as [commit|e] eqn:OP; [|intros [= <- <-]; by split_and!].
  apply O in OP as ->. destruct (validateCommit k); [intros [= <- <-]; by split_and!|].
  destruct (journal_Append _ k (ch_journal c)) as [j e] eqn:AP.
  set (refused := match e with Some err => if bool_decide (err = ErrReplayConflict) then None else Some err | None => None end).
  assert (chain_inv cfg found (set_spool (set_journal c j) (Some s)) log
    /\ rows cfg c `prefix_of` rows cfg (set_journal c j)
    /\ journal_Durable j = journal_Durable (ch_journal c)
    /\ (refused = None -> ac_Record k ∈ map ac_Record (rows cfg (set_journal c j)))) as (I' & PR & D & IN).
  { change (set_spool (set_journal c j) (Some s)) with (set_journal (set_spool c (Some s)) j).
    change (ch_journal c) with (ch_journal (set_spool c (Some s))) in AP.
    split_and!; [| |by eapply append_durable|]; destruct e as [e|].
    - apply inv_same_journal; [done|by eapply append_wf, (ci_journal _ _ _ _ I)|by eapply append_err|by eapply append_durable].
    - by eapply inv_replayed.
    - exists []. rewrite app_nil_r. unfold rows. cbn. by eapply append_err.
    - by eapply (inv_replayed cfg found (set_spool c (Some s)) log k).
    - subst refused. cbn. destruct (bool_decide _) eqn:BD; [|done]. apply bool_decide_eq_true in BD as ->. intros _.
      assert (rows cfg (set_journal c j) = rows cfg (set_spool c (Some s))) as -> by (unfold rows; cbn; by eapply append_err).
      eapply present_row; [exact I|by eapply kept_in_log|]. unfold rows. rewrite <- ST. by eapply append_replay.
    - intros _. by eapply (inv_replayed cfg found (set_spool c (Some s)) log k). }
  destruct refused as [e'|].
  { intros [= <- <-]. split_and!; try done. unfold channel. cbn. by rewrite D. }
  specialize (IN eq_refl).
  assert (ar_Sequence (ac_Record k) <= ar_Sequence (ch_head (set_journal c j))) as SQ.
  { change (ch_head (set_journal c j)) with (ch_head (set_spool c (Some s))). rewrite (ci_head _ _ _ _ I).
    rewrite (log_sequence _ (ci_sequence _ _ _ _ I)). pose proof (kept_in_log _ _ _ _ _ I K) as KL.
    apply list_elem_of_lookup in KL as [i L]. rewrite (ci_sequence _ _ _ _ I i _ L). apply lookup_lt_Some in L. lia. }
  apply Z.ltb_ge in SQ. rewrite SQ.
  assert (forall k0, k0 ∈ ks' -> k0 ∈ rows cfg (set_journal c j) ++ spooled cfg (set_spool c (Some s))) as KIN'.
  { intros k0 K0. specialize (KIN k0 (list_elem_of_further _ _ _ K0)). apply elem_of_app in KIN as [X|X]; apply elem_of_app; [left|by right].
    by apply (elem_of_prefix _ _ _ X). }
  destruct (journal_Durable (ch_journal (set_journal c j))) eqn:DJ.
  - destruct (spool_Ack _ entry s) as [s' e'] eqn:AK.
    assert (chain_inv cfg found (set_spool (set_journal c j) (Some s')) log) as IA.
    { eapply (inv_acked cfg found (set_spool (set_journal c j) (Some s)) log s _ entry s' e' k); try done.
      specialize (KIN k (list_elem_of_here _ _)). apply elem_of_app in KIN as [X|X]; apply elem_of_app; [left|by right].
      by apply (elem_of_prefix _ _ _ X). }
    assert (spooled cfg (set_spool (set_journal c j) (Some s')) `sublist_of` spooled cfg (set_spool c (Some s))) as SUB
      by (by eapply ack_sublist).
    assert (channel (set_spool (set_journal c j) (Some s')) = channel (set_spool c (Some s))) as CH
      by (unfold channel; cbn; by rewrite D, (spool_ack_durable _ _ _ _ _ AK)).
    destruct e' as [e'|]; [intros [= <- <-]; by split_and!|].
    intros E. apply IH with (ks := ks') (found := found) (log := log) (cfg := cfg) in E as (I2 & CH2 & NS & PR2 & SUB2 & ALL).
    + split_and!; [done|by rewrite CH2|done|by etrans|by etrans|]. intros -> k0 K0. apply elem_of_cons in K0 as [->|K0]; [|by apply ALL].
      by eapply prefix_in_map.
    + eapply Forall2_impl; [exact F|]. cbn. intros e0 k0 X ctx0 k1. rewrite (ack_open _ _ _ _ _ _ _ AK). apply X.
    + done.
    + intros k0 K0. specialize (KIN' k0 K0). apply elem_of_app in KIN' as [X|X]; apply elem_of_app; [by left|].
      destruct (decide (k0 = k)) as [->|N].
      * left. apply list_elem_of_fmap in IN as (k1 & ER & K1).
        rewrite (ci_unique _ _ _ _ I' k k1); [done| | |done].
        -- apply elem_of_app. by right.
        -- apply elem_of_app. by left.
      * right. eapply ack_commits; [exact AK|exact X|]. intros ctx0 OO. by apply O in OO.
    + intros k0 K0. apply KS. by right.
  - intros E. apply IH with (ks := ks') (found := found) (log := log) (cfg := cfg) in E as (I2 & CH2 & NS & PR2 & SUB2 & ALL).
    + split_and!; [done| |done|by etrans|done|].
      * rewrite CH2. unfold channel. cbn. by rewrite D.
      * intros -> k0 K0. apply elem_of_cons in K0 as [->|K0]; [|by apply ALL].
        by eapply prefix_in_map.
    + done.
    + done.
    + done.
    + intros k0 K0. apply KS. by right.
Qed.

Lemma Replay_inv ctx cfg c found log c' err : chain_inv cfg found c log -> Replay ctx cfg c = (c', err) ->
  chain_inv cfg found c' log /\ channel c' = channel c
  /\ (err = None -> ch_spool c <> None -> length log = length (rows cfg c')).
Proof.
  intros I. unfold Replay. destruct (ch_spool c) as [s|] eqn:SO; [|by intros [= <- <-]].
  destruct (contextErr _); [by intros [= <- <-]|]. destruct (spool_Entries _ _ s) as [es|e] eqn:EN; [|by intros [= <- <-]].
  destruct (ci_spool _ _ _ _ I s SO) as [W X]. apply entries_ok in EN; [|done].
  assert (set_spool c (Some s) = c) as CE by (destruct c; cbn in *; by rewrite SO).
  destruct (replay_entries 1 ctx es s c) as [c2 e2] eqn:RE.
  apply (replay_entries_inv es (spool_commits s (cf_stream cfg)) _ _ _ _ found log cfg) in RE as (I2 & CH & NS & PR & SUB & ALL).
  2: done. 2: by rewrite CE.
  2:{ intros k K. rewrite CE. apply elem_of_app. right. unfold spooled. by rewrite SO. }
  2:{ intros k K. apply (ci_spooled _ _ _ _ I). unfold spooled. by rewrite SO. }
  rewrite CE in CH, SUB. destruct e2 as [e2|]; [by intros [= <- <-]|]. intros [= <- <-]. specialize (ALL eq_refl).
  assert (length log = length (rows cfg c2)) as LEN.
  { apply Nat.le_antisymm; [|by eapply rows_length]. apply Nat.nlt_ge. intros LT.
    destruct (lookup_lt_is_Some_2 log (length (rows cfg c2)) LT) as [r L].
    destruct (ci_cover _ _ _ _ I2 _ r L) as [B|(k & K & ER)]; [lia|].
    assert (k ∈ spool_commits s (cf_stream cfg)) as KS.
    { pose proof (elem_of_sublist _ _ _ K SUB) as Y. unfold spooled in Y. by rewrite SO in Y. }
    specialize (ALL k KS). rewrite ER in ALL. apply list_elem_of_fmap in ALL as (k' & -> & KR).
    apply list_elem_of_lookup in KR as [i Li]. pose proof (row_record _ _ _ _ _ _ I2 Li) as LR.
    pose proof (ci_sequence _ _ _ _ I2 _ _ L). pose proof (ci_sequence _ _ _ _ I2 _ _ LR).
    apply lookup_lt_Some in Li. lia. }
  split_and!; [|done|by intros _ _].
  destruct I2. constructor; try done. cbn. intros D. right. by apply negb_false_iff.
Qed.

Lemma ack_inv cfg c found log ctx clock d j err : chain_inv cfg found c log ->
  journal_AckOutbox ctx clock d (ch_journal c) = (j, err) ->
  chain_inv cfg found (set_journal c j) log /\ channel (set_journal c j) = channel c.
Proof.
  intros I E. split; [|unfold channel; cbn; by rewrite (ack_durable _ _ _ _ _ _ E)].
  apply inv_same_journal; [done|by eapply ack_wf, (ci_journal _ _ _ _ I)|by eapply ack_rows|by eapply ack_durable].
Qed.

(** ** [NewRuntime] *)

Lemma remember_rows (l : list AuditRecord) : NoDup (map record_id l) -> forall (m : gmap string AuditRecord) id r,
  (forall r, r ∈ l -> m !! record_id r = None) ->
  fold_left (fun m r => <[record_id r := r]> m) l m !! id = Some r <-> r ∈ l /\ record_id r = id \/ m !! id = Some r.
Proof.
  induction l as [|x l IH]; cbn [map fold_left]; intros ND m id r N.
  - rewrite elem_of_nil. tauto.
  - apply NoDup_cons in ND as [NI ND]. rewrite IH; [|done|].
    + rewrite elem_of_cons. destruct (decide (record_id x = id)) as [<-|NE].
      * rewrite lookup_insert_eq, (N x) by (by left). split.
        -- intros [[R E]|[= <-]]; [|by left; split; [left|]]. destruct NI. rewrite <- E. by apply list_elem_of_fmap_2.
        -- intros [[[->|R] E]|]; [by right|left; done|done].
      * rewrite lookup_insert_ne by done. split; [intros [[R E]|M]; auto|]. intros [[[->|R] E]|M]; auto. by destruct NE.
    + intros y Y. rewrite lookup_insert_ne; [by apply N; right|]. intros E. destruct NI. rewrite E. by apply list_elem_of_fmap_2.
Qed.

(** The spool has no commits yet. *)
Definition empty_spool (s : S) : Prop := spool_wf s /\ forall stream, spool_commits s stream = [].

Lemma NewRuntime_inv o rt : NewRuntime (A:=A) ed25519_Verify o = Ok rt ->
  (forall j, ro_Journal o = Some j -> journal_wf j) -> (forall s, ro_Spool o = Some s -> empty_spool s) ->
  let cfg := rt_config rt in
  let found := map ac_Record (rows cfg (rt_chain rt)) in
  chain_inv cfg found (rt_chain rt) found /\ validID (cf_stream cfg) false = true
  /\ ro_Journal o = Some (ch_journal (rt_chain rt)) /\ cf_signer cfg = ro_Signer o
  /\ rt_queue rt = {| q_items := []; q_pending := 0; q_closed := false; q_firstErr := None |}.
Proof.
  intros E WJ WS. unfold NewRuntime in E. destruct (ro_Journal o) as [j|]; [|done]. specialize (WJ j eq_refl).
  cbv zeta in E. set (stream := if String.eqb (ro_StreamID o) "" then "default" else ro_StreamID o) in *.
  destruct (validID stream false) eqn:V; [|done]. cbn [negb] in E. destruct (65536 <? _); [done|].
  destruct (_ && _); [done|]. destruct (journal_Last _ _ j) as [last|] eqn:L; [|done].
  destruct (journal_Records _ _ _ _ j) as [rs|] eqn:R; [|done]. destruct (journal_Verify _ _ j); [done|].
  destruct (check_checkpoints _ _ _ _ _ _); [done|]. injection E as <-. cbn.
  apply last_ok in L. apply records_ok in R.
  split_and!; try done. unfold rows. cbn. pose proof (rows_verify j stream WJ) as VR.
  assert (NoDup (map record_id (map ac_Record (journal_rows j stream)))) as ND.
  { rewrite map_map. exact (rows_events j stream WJ). }
  constructor; cbn; try done.
  - intros i r LI. change (map ac_Record) with (fmap (M:=list) ac_Record) in LI. rewrite list_lookup_fmap in LI.
    apply fmap_Some in LI as (k & LK & ->). by destruct (verify_lookup _ _ _ VR LK) as (? & _).
  - rewrite L. unfold log_head. change (map ac_Record) with (fmap (M:=list) ac_Record). rewrite fmap_last. by destruct (list.last _).
  - intros id r. rewrite R. change (fun (m : gmap string AuditRecord) r => <[ae_EventID (ar_Event r) := r]> m)
      with (fun (m : gmap string AuditRecord) r => <[record_id r := r]> m).
    rewrite remember_rows by done. rewrite lookup_empty. split; [by intros [?|?]|by left].
  - intros s SO. destruct (WS s SO) as [W X]. done.
  - intros k K. unfold spooled in K. cbn in K. destruct (ro_Spool o) as [s|] eqn:SO; [|by apply elem_of_nil in K].
    destruct (WS s eq_refl) as [_ X]. rewrite X in K. by apply elem_of_nil in K.
  - unfold rows, spooled. cbn. assert (match ro_Spool o with Some s => spool_commits s stream | None => [] end = []) as ->.
    { destruct (ro_Spool o) as [s|]; [|done]. by apply (WS s eq_refl). }
    rewrite app_nil_r. intros k k' K K' E. apply list_elem_of_lookup in K as [i LI], K' as [i' LI'].
    destruct (verify_lookup _ _ _ VR LI) as (Q & _), (verify_lookup _ _ _ VR LI') as (Q' & _).
    unfold sequence_of in *. rewrite E in Q. assert (i = i') as -> by lia. congruence.
  - intros i r LI. left. apply lookup_lt_Some in LI. by rewrite length_map in LI.
  - intros _. by rewrite length_map.
  - intros SP. apply andb_false_iff in SP as [SP|SP]; [right; by apply negb_false_iff|left].
    by destruct (ro_Spool o).
  - intros r IN _. by left.
Qed.
End Facts.
