(* ===== verification/AuditSystemSafety.v ===== *)
(** * What the audit runtime guarantees (internal/audit/runtime.go)

    The runtime refines an append-only log whatever its callers, its worker,
    replays, acknowledgements and outages of the journal do to each other. *)

From S2P Require Import Prelude GoText Sha256 Json JsonValid JsonDecode TimeText JsonReads.
From S2P Require Import AuditEvent AuditDecode AuditJournal AuditSpool AuditRuntime AuditRuntimeFacts AuditSystem.

From Stdlib Require Import Ascii.

Open Scope string_scope.
Open Scope list_scope.
Open Scope Z_scope.
Open Scope go_scope.

Section Safety.
Context {J S A : Type} `{JournalLaws J} `{SpoolLaws S} `{OutboxAdapter A}.
Context (ed25519_Sign : list Z -> string -> list Z) (ed25519_Verify : list Z -> string -> list Z -> bool).

Abbreviation Sys := (Sys (J:=J) (S:=S) (A:=A)).
Abbreviation step := (step (J:=J) (S:=S) (A:=A) ed25519_Sign ed25519_Verify).
Abbreviation run := (run (J:=J) (S:=S) (A:=A) ed25519_Sign ed25519_Verify).

(** ** The invariant of the system *)

(** A record of the log for an event. *)
Definition recorded (log : list AuditRecord) (e : Event) (r : AuditRecord) : Prop := r ∈ log /\ ar_Event r = e.

Definition answered (log : list AuditRecord) (e : Event) (answer : result error AuditRecord) : Prop :=
  match answer with Ok r => recorded log e r | Err _ => True end.

Definition call_ok (cfg : Config) (channel : bool) (log : list AuditRecord) (call : Event * phase) : Prop :=
  (admitted cfg channel (fst call) /\ is_critical (fst call) = true)
  /\ match snd call with Stored a | Answered a => answered log (fst call) a | _ => True end.

Definition work_ok (cfg : Config) (channel : bool) (log : list AuditRecord) (w : Event * work) : Prop :=
  admitted cfg channel (fst w) /\ match snd w with Persisted a => answered log (fst w) a | _ => True end.

(** A call that is counted as pending. *)
Definition counted (call : Event * phase) : bool := match snd call with Begun | Stored _ => true | _ => false end.

(** Where an accepted event is. *)
Definition whereabouts (s : Sys) (log : list AuditRecord) (e : Event) : Prop :=
  e ∈ q_items (sy_queue s) \/ (exists w, sy_worker s = Some (e, w) /\ match w with Taken | Persisted (Err _) => True | _ => False end)
  \/ (exists r, recorded log e r) \/ q_firstErr (sy_queue s) <> None.

Record sys_inv (found : list AuditRecord) (s : Sys) (log : list AuditRecord) (tr : list output) : Prop := {
  si_chain : chain_inv ed25519_Verify (sy_config s) found (sy_chain s) log;
  si_config : config_ok ed25519_Sign (sy_config s);
  si_items : Forall (admitted (sy_config s) (channel (sy_chain s))) (q_items (sy_queue s));
  si_calls : Forall (call_ok (sy_config s) (channel (sy_chain s)) log) (sy_calls s);
  si_worker : forall w, sy_worker s = Some w -> work_ok (sy_config s) (channel (sy_chain s)) log w;
  si_pending : q_pending (sy_queue s) = Z.of_nat (length (q_items (sy_queue s)))
    + (match sy_worker s with Some _ => 1 | None => 0 end) + Z.of_nat (length (List.filter counted (sy_calls s)));
  si_accepted : forall e, Accepted e ∈ tr -> whereabouts s log e;
  si_outputs : forall e r, Returned e r ∈ tr \/ Logged e r ∈ tr -> recorded log e r;
  si_returned : forall e r, Returned e r ∈ tr -> is_critical e = true }.

Lemma recorded_more log log' e r : log `prefix_of` log' -> recorded log e r -> recorded log' e r.
Proof. intros P [R E]. split; [by eapply elem_of_prefix|done]. Qed.

Lemma answered_more log log' e a : log `prefix_of` log' -> answered log e a -> answered log' e a.
Proof. intros P. destruct a; [by apply recorded_more|done]. Qed.

Lemma call_ok_more cfg ch log log' call : log `prefix_of` log' -> call_ok cfg ch log call -> call_ok cfg ch log' call.
Proof. intros P [AD AN]. split; [done|]. destruct (snd call); by try eapply answered_more. Qed.

Lemma work_ok_more cfg ch log log' w : log `prefix_of` log' -> work_ok cfg ch log w -> work_ok cfg ch log' w.
Proof. intros P [AD AN]. split; [done|]. destruct (snd w); by try eapply answered_more. Qed.

Lemma prepare_admitted (cfg : Config) (c : Chain (J:=J) (S:=S)) ctx now e0 e : prepare cfg ctx now e0 = Ok e ->
  uint64_range (ae_PolicyEpoch e) = true -> (is_critical e = true -> critical_refused cfg c = None) ->
  admitted cfg (channel c) e.
Proof.
  unfold prepare. destruct (contextErr ctx); [done|]. cbv zeta. set (e1 := if IsZero _ then _ else _).
  destruct (validateEvent e1) eqn:V; [done|]. destruct (negb _) eqn:ST; [done|]. intros [= <-] U C. props.
  split_and!; [done|done|done|]. intros CR. specialize (C CR). unfold critical_refused in C.
  destruct (cf_signer cfg); [|done]. split; [done|]. destruct (_ && _) eqn:D; [done|].
  unfold channel. destruct (journal_Durable _), (spool_durable _); done.
Qed.

(** The number of counted calls after one of them has gone on. *)
Lemma counted_advance (l : list (Event * phase)) i e p p' : l !! i = Some (e, p) ->
  Z.of_nat (length (List.filter counted (<[i := (e, p')]> l)))
  = Z.of_nat (length (List.filter counted l)) - (if counted (e, p) then 1 else 0) + (if counted (e, p') then 1 else 0).
Proof.
  intros L. rewrite insert_take_drop by (by eapply lookup_lt_Some). rewrite <- (take_drop_middle l i (e, p) L) at 3.
  rewrite !List.filter_app, !length_app. cbn [List.filter]. destruct (counted (e, p)), (counted (e, p')); cbn [length]; lia.
Qed.

Lemma counted_leave (l : list (Event * phase)) i e p : l !! i = Some (e, p) -> counted (e, p) = false ->
  length (List.filter counted (delete i l)) = length (List.filter counted l).
Proof.
  intros L C. rewrite delete_take_drop. rewrite <- (take_drop_middle l i (e, p) L) at 3.
  rewrite !List.filter_app, !length_app. cbn [List.filter]. by rewrite C.
Qed.

(** ** Every step *)

(** The outputs so far and those of a step. *)
Lemma outputs_app found s log tr o : sys_inv found s log tr ->
  (forall e r, Returned e r ∈ o -> is_critical e = true) ->
  (forall log' e r, Returned e r ∈ tr ++ o \/ Logged e r ∈ tr ++ o -> log `prefix_of` log' ->
     (Returned e r ∈ o \/ Logged e r ∈ o -> recorded log' e r) -> recorded log' e r)
  /\ forall e r, Returned e r ∈ tr ++ o -> is_critical e = true.
Proof.
  intros I C. split.
  - intros log' e r X P N. rewrite !elem_of_app in X.
    assert ((Returned e r ∈ tr \/ Logged e r ∈ tr) \/ (Returned e r ∈ o \/ Logged e r ∈ o)) as [Y|Y] by tauto; [|by apply N].
    eapply recorded_more; [done|by eapply si_outputs].
  - intros e r X. apply elem_of_app in X as [X|X]; [by eapply si_returned|by eapply C].
Qed.

(** A step of the callers: the stores, the worker and the error stay. *)
Lemma calls_inv found s log tr calls q : sys_inv found s log tr ->
  q_items q = q_items (sy_queue s) -> q_firstErr q = q_firstErr (sy_queue s) ->
  Forall (call_ok (sy_config s) (channel (sy_chain s)) log) calls ->
  q_pending q - q_pending (sy_queue s)
  = Z.of_nat (length (List.filter counted calls)) - Z.of_nat (length (List.filter counted (sy_calls s))) ->
  sys_inv found (with_calls (with_queue s q) calls) log tr.
Proof.
  intros [CH CF IT CA WO PE AC OU RE] QI QE FC P. constructor; cbn; rewrite ?QI; try done; [lia|].
  intros e X. specialize (AC e X). unfold whereabouts in *. cbn. by rewrite QI, QE.
Qed.

Lemma with_queue_id (s : Sys) : with_queue s (sy_queue s) = s.
Proof. by destruct s. Qed.

(** A call that goes on. *)
Lemma advance_inv found s log tr i e p p' q : sys_inv found s log tr -> sy_calls s !! i = Some (e, p) ->
  q_items q = q_items (sy_queue s) -> q_firstErr q = q_firstErr (sy_queue s) ->
  q_pending q = q_pending (sy_queue s) - (if counted (e, p) then 1 else 0) + (if counted (e, p') then 1 else 0) ->
  (match p' with Stored a | Answered a => answered log e a | _ => True end) ->
  sys_inv found (advance (with_queue s q) i e p') log tr.
Proof.
  intros I L QI QE P AN. pose proof (Forall_lookup_1 _ _ _ _ (si_calls _ _ _ _ I) L) as [AD _].
  change (advance (with_queue s q) i e p') with (with_calls (with_queue s q) (<[i := (e, p')]> (sy_calls s))).
  apply calls_inv; [done|done|done| |].
  - apply Forall_insert; [apply (si_calls _ _ _ _ I)|]. by split.
  - rewrite (counted_advance _ _ _ p p') by done. lia.
Qed.

Lemma leave_inv found s log tr i e p : sys_inv found s log tr -> sy_calls s !! i = Some (e, p) -> counted (e, p) = false ->
  sys_inv found (leave s i) log tr.
Proof.
  intros I L C. unfold leave. rewrite <- (with_queue_id s) at 1. apply calls_inv; try done.
  - apply Forall_delete, (si_calls _ _ _ _ I).
  - rewrite (counted_leave _ _ _ _ L C). lia.
Qed.

(** More outputs, about records that are there. *)
Lemma output_inv found s log tr o : sys_inv found s log tr -> (forall e, Accepted e ∈ o -> whereabouts s log e) ->
  (forall e r, Returned e r ∈ o \/ Logged e r ∈ o -> recorded log e r) ->
  (forall e r, Returned e r ∈ o -> is_critical e = true) -> sys_inv found s log (tr ++ o).
Proof.
  intros I A' O C. destruct (outputs_app _ _ _ _ o I C) as [X Y]. destruct I. constructor; try done.
  - intros e Z. apply elem_of_app in Z as [Z|Z]; auto.
  - intros e r Z. apply (X log); [done|done|]. apply O.
Qed.

(** The stores after an operation of the runtime. *)
Lemma chain_step_inv found s log log' tr c : sys_inv found s log tr ->
  chain_inv ed25519_Verify (sy_config s) found c log' -> channel c = channel (sy_chain s) -> log `prefix_of` log' ->
  sys_inv found (with_chain s c) log' tr.
Proof.
  intros [CH CF IT CA WO PE AC OU RE] CI CE P. constructor; cbn; rewrite ?CE; try done.
  - eapply Forall_impl; [exact CA|]. intros call. by apply call_ok_more.
  - intros w W. eapply work_ok_more; [done|by apply WO].
  - intros e X. destruct (AC e X) as [Y|[Y|[[r Y]|Y]]]; [by left|by right; left|right; right; left|by right; right; right].
    exists r. by eapply recorded_more.
  - intros e r X. eapply recorded_more; [done|by apply OU].
Qed.

Lemma nothing (P : output -> Prop) : forall o, o ∈ [] -> P o.
Proof. intros o X. by apply elem_of_nil in X. Qed.

(** [persist] extends the log at most by the record of its event. *)
Lemma persist_log found s log tr ctx now rnd e c answer : sys_inv found s log tr ->
  admitted (sy_config s) (channel (sy_chain s)) e -> persistable s now ->
  persist ed25519_Sign ed25519_Verify (sy_config s) (sy_outboxes s) ctx now rnd e (sy_chain s) = (c, answer) ->
  exists log', sys_inv found (with_chain s c) log' tr /\ answered log' e answer /\ log_step (cf_stream (sy_config s)) log log'.
Proof.
  intros I AD [CK LT] P. destruct AD as (AV & AS & AU & AC).
  apply (persist_inv ed25519_Sign ed25519_Verify (sy_config s) _ _ _ _ _ _ found log) in P as [CE [[CI R]|(r & F & -> & ER & CI)]];
    try done; try apply I.
  - exists log. split_and!; [by eapply chain_step_inv| |apply log_same]. destruct answer as [r|]; [by apply R|done].
  - exists (log ++ [r]). split_and!; [by eapply chain_step_inv; [| | |apply prefix_app_r]| |].
    + split; [apply elem_of_app; right; by apply list_elem_of_singleton|by rewrite ER].
    + rewrite ER. by apply log_append.
Qed.

(** The worker's and the callers' use of the queue. *)
Lemma enqueue_inv found s log tr capacity ctx pick e q err : sys_inv found s log tr ->
  admitted (sy_config s) (channel (sy_chain s)) e -> is_critical e = false ->
  enqueue capacity ctx pick e (sy_queue s) = (q, err) ->
  sys_inv found (with_queue s q) log (tr ++ match err with None => [Accepted e] | Some _ => [] end).
Proof.
  intros I AD C E. unfold enqueue in E.
  assert (q = sy_queue s /\ err <> None \/ q = endPending (beginPending (sy_queue s)) /\ err <> None
          \/ q = push (beginPending (sy_queue s)) e /\ err = None) as D.
  { destruct (q_closed _); [injection E as <- <-; by left|]. cbv zeta in E.
    destruct (contextErr ctx); [destruct (_ && _)|destruct (_ <? _)]; injection E as <- <-; auto. }
  clear E. destruct D as [[-> N]|[[-> N]|[-> ->]]].
  - destruct err; [|done]. rewrite app_nil_r, with_queue_id. done.
  - destruct err; [|done]. rewrite app_nil_r. change (with_queue s ?q) with (with_calls (with_queue s q) (sy_calls s)).
    apply calls_inv; try done; [apply I|cbn; lia].
  - apply output_inv; [|intros e' X; apply list_elem_of_singleton in X as [= ->]; left; cbn; apply elem_of_app; right; by apply list_elem_of_singleton| |];
      [|intros e' r [X|X]; by apply list_elem_of_singleton in X|intros e' r X; by apply list_elem_of_singleton in X].
    destruct I as [CH CF IT CA WO PE AC OU RE]. constructor; cbn; try done.
    + apply Forall_app_2; [done|]. by constructor.
    + rewrite length_app. cbn. lia.
    + intros e' X. destruct (AC e' X) as [Y|Y]; [|by right]. left. cbn. apply elem_of_app. by left.
Qed.

Lemma take_inv found s log tr e items : sys_inv found s log tr -> sy_worker s = None -> q_items (sy_queue s) = e :: items ->
  sys_inv found (with_worker (with_queue s (items_after (sy_queue s) items)) (Some (e, Taken))) log tr.
Proof.
  intros [CH CF IT CA WO PE AC OU RE] W Q. rewrite Q in IT, PE. rewrite W in PE. apply Forall_cons in IT as [AD IT].
  constructor; cbn; try done.
  - by intros w [= <-].
  - cbn in PE. lia.
  - intros e' X. destruct (AC e' X) as [Y|[(w & Y & _)|Y]]; [|by rewrite W in Y|by right; right].
    rewrite Q in Y. apply elem_of_cons in Y as [->|Y]; [right; left|by left]. by exists Taken.
Qed.

Lemma report_inv found s log tr e answer : sys_inv found s log tr -> sy_worker s = Some (e, Persisted answer) ->
  sys_inv found (with_worker (with_queue s (match answer with Err err => fail (sy_queue s) err | Ok _ => sy_queue s end))
                   (Some (e, Reported))) log tr.
Proof.
  intros [CH CF IT CA WO PE AC OU RE] W. destruct (WO _ W) as [AD AN]. rewrite W in PE. cbn in PE.
  constructor; cbn; try done; try (destruct answer; cbn; done).
  - by intros w [= <-].
  - intros e' X. destruct (AC e' X) as [Y|[(w & Y & Z)|[Y|Y]]].
    + left. by destruct answer.
    + rewrite W in Y. injection Y as <- <-. destruct answer as [r|err]; [done|]. right. right. right. cbn.
      by destruct (q_firstErr _).
    + by right; right; left.
    + right. right. right. cbn. destruct answer; [done|]. cbn. by destruct (q_firstErr _).
Qed.

Lemma done_inv found s log tr e : sys_inv found s log tr -> sy_worker s = Some (e, Reported) ->
  sys_inv found (with_worker (with_queue s (endPending (sy_queue s))) None) log tr.
Proof.
  intros [CH CF IT CA WO PE AC OU RE] W. rewrite W in PE. cbn in PE. constructor; cbn; try done; [lia|].
  intros e' X. destruct (AC e' X) as [Y|[(w & Y & Z)|Y]]; [by left| |by right; right].
  rewrite W in Y. by injection Y as <- <-.
Qed.

(** The worker has the answer for its event. *)
Lemma work_inv found s log tr e answer : sys_inv found s log tr -> sy_worker s = Some (e, Taken) -> answered log e answer ->
  sys_inv found (with_worker s (Some (e, Persisted answer))) log
    (tr ++ match answer with Ok r => [Logged e r] | Err _ => [] end).
Proof.
  intros I W AN. apply output_inv.
  - destruct I as [CH CF IT CA WO PE AC OU RE]. destruct (WO _ W) as [AD _]. rewrite W in PE. constructor; cbn; try done.
    + by intros w [= <-].
    + intros e' X. destruct (AC e' X) as [Y|[(w & Y & Z)|Y]]; [by left| |by right; right].
      rewrite W in Y. injection Y as <- <-. right. destruct answer as [r|err]; [right; left; by exists r|left].
      by exists (Persisted (Err err)).
  - intros e' X. destruct answer; [by apply list_elem_of_singleton in X|by apply elem_of_nil in X].
  - intros e' r [X|X]; (destruct answer as [r'|]; [apply list_elem_of_singleton in X|by apply elem_of_nil in X]); [done|].
    by injection X as -> ->.
  - intros e' r X. destruct answer; [by apply list_elem_of_singleton in X|by apply elem_of_nil in X].
Qed.

Lemma call_inv found s log tr e : sys_inv found s log tr -> admitted (sy_config s) (channel (sy_chain s)) e ->
  is_critical e = true ->
  sys_inv found (with_calls s (sy_calls s ++ [(e, Waiting)])) log tr.
Proof.
  intros I AD CR. rewrite <- (with_queue_id s) at 1. apply calls_inv; try done.
  - apply Forall_app_2; [apply I|]. constructor; [by split_and!|constructor].
  - rewrite List.filter_app, length_app. cbn. lia.
Qed.

Lemma step_inv found s log tr o s' : sys_inv found s log tr -> step s o s' ->
  exists log', sys_inv found s' log' (tr ++ o) /\ log_step (cf_stream (sy_config s)) log log' /\ sy_config s' = sy_config s.
Proof.
  intros I ST. destruct ST as [ctx now ctx' pick e0 e q err PR UE CR EN|ctx now e0 e PR UE CR RF|i e L ID|i e L|i e q err L B
    |i e ctx now rnd c answer L PE P|i e answer L|i e answer L|e items W Q|e now rnd c answer W PE P|e answer W|e W|ctx c err R
    |ctx clock d j err AK|]; rewrite ?app_nil_r.
  - exists log. split_and!; [|apply log_same|done]. eapply enqueue_inv; [done| |done|done].
    eapply prepare_admitted; [done|done|congruence].
  - exists log. split_and!; [|apply log_same|done]. apply call_inv; [done|by eapply prepare_admitted|done].
  - exists log. split_and!; [|apply log_same|done]. rewrite <- (with_queue_id s) at 1.
    eapply advance_inv; [done|exact L|done|done|cbn; lia|done].
  - exists log. split_and!; [|apply log_same|done]. by eapply leave_inv.
  - exists log. unfold begin_critical in B. destruct (q_closed _); injection B as <- <-.
    + split_and!; [|apply log_same|done]. rewrite <- (with_queue_id s) at 1.
      eapply advance_inv; [done|exact L|done|done|cbn; lia|done].
    + split_and!; [|apply log_same|done]. eapply advance_inv; [done|exact L|done|done|cbn; lia|done].
  - destruct (Forall_lookup_1 _ _ _ _ (si_calls _ _ _ _ I) L) as [[AD _] _].
    destruct (persist_log _ _ _ _ _ _ _ _ _ _ I AD PE P) as (log' & I' & AN & LS). exists log'. split_and!; [|done|done].
    rewrite <- (with_queue_id (with_chain s c)). eapply advance_inv; [done|exact L|done|done|cbn; lia|done].
  - exists log. split_and!; [|apply log_same|done].
    destruct (Forall_lookup_1 _ _ _ _ (si_calls _ _ _ _ I) L) as [_ AN].
    eapply advance_inv; [done|exact L|done|done|cbn; lia|exact AN].
  - exists log. split_and!; [|apply log_same|done]. destruct (Forall_lookup_1 _ _ _ _ (si_calls _ _ _ _ I) L) as [[_ CR] AN].
    apply output_inv; [by eapply leave_inv| | |].
    + intros e' X. destruct answer; [by apply list_elem_of_singleton in X|by apply elem_of_nil in X].
    + intros e' r [X|X]; (destruct answer as [r'|]; [apply list_elem_of_singleton in X|by apply elem_of_nil in X]); [|done].
      by injection X as -> ->.
    + intros e' r X. destruct answer as [r'|]; [apply list_elem_of_singleton in X as [= -> ->]|by apply elem_of_nil in X].
      exact CR.
  - exists log. split_and!; [|apply log_same|done]. by apply (take_inv _ _ _ _ e).
  - destruct (si_worker _ _ _ _ I _ W) as [AD _].
    destruct (persist_log _ _ _ _ _ _ _ _ _ _ I AD PE P) as (log' & I' & AN & LS). exists log'. split_and!; [|done|done].
    by apply (work_inv _ _ _ _ _ _ I').
  - exists log. split_and!; [|apply log_same|done]. by apply report_inv.
  - exists log. split_and!; [|apply log_same|done]. by eapply done_inv.
  - exists log. destruct (Replay_inv _ _ _ _ _ _ _ _ (si_chain _ _ _ _ I) R) as (CI & CE & _).
    split_and!; [|apply log_same|done]. apply output_inv; [by eapply chain_step_inv| | |].
    + intros e' X. destruct err; [by apply elem_of_nil in X|by apply list_elem_of_singleton in X].
    + intros e' r [X|X]; (destruct err; [by apply elem_of_nil in X|by apply list_elem_of_singleton in X]).
    + intros e' r X. destruct err; [by apply elem_of_nil in X|by apply list_elem_of_singleton in X].
  - exists log. destruct (ack_inv _ _ _ _ _ _ _ _ _ _ (si_chain _ _ _ _ I) AK) as (CI & CE).
    split_and!; [|apply log_same|done]. by eapply chain_step_inv.
  - exists log. split_and!; [|apply log_same|done]. change (with_queue s ?q) with (with_calls (with_queue s q) (sy_calls s)).
    apply calls_inv; try done; [apply I|cbn; lia].
Qed.

(** ** Every run *)

(** The abstract log of a run. *)
Inductive log_run (stream : string) (log : list AuditRecord) : list AuditRecord -> Prop :=
| log_run_nil : log_run stream log log
| log_run_snoc log1 log2 : log_run stream log log1 -> log_step stream log1 log2 -> log_run stream log log2.

Lemma log_run_prefix stream log log' : log_run stream log log' -> log `prefix_of` log'.
Proof.
  induction 1 as [|log1 log2 R IH ST]; [done|]. etrans; [exact IH|]. destruct ST; [done|by apply prefix_app_r].
Qed.

Lemma run_inv found s log tr tr' s' : sys_inv found s log tr -> run s tr' s' ->
  exists log', sys_inv found s' log' (tr ++ tr') /\ log_run (cf_stream (sy_config s)) log log' /\ sy_config s' = sy_config s.
Proof.
  intros I R. induction R as [|o s1 o' s2 R IH ST].
  - exists log. rewrite app_nil_r. split_and!; [done|constructor|done].
  - destruct IH as (log1 & I1 & L1 & C1). destruct (step_inv _ _ _ _ _ _ I1 ST) as (log2 & I2 & L2 & C2).
    exists log2. rewrite (assoc app). split_and!; [done| |congruence]. econstructor; [exact L1|]. by rewrite <- C1.
Qed.

(** A runtime that was started on a well-formed journal and an empty spool. *)
Definition started (o : RuntimeOptions (J:=J) (S:=S) (A:=A)) (rt : Runtime) : Prop :=
  NewRuntime ed25519_Verify o = Ok rt /\ (forall j, ro_Journal o = Some j -> journal_wf j)
  /\ (forall s, ro_Spool o = Some s -> empty_spool s) /\ signs_bytes ed25519_Sign (rt_config rt).

(** The records that a runtime found in its journal. *)
Definition found_records (rt : Runtime (J:=J) (S:=S) (A:=A)) : list AuditRecord :=
  map ac_Record (rows (rt_config rt) (rt_chain rt)).

Lemma start_inv o rt : started o rt -> sys_inv (found_records rt) (start rt) (found_records rt) [].
Proof.
  intros (NR & WJ & WS & SB). apply (NewRuntime_inv ed25519_Verify) in NR as (CI & V & _ & _ & Q); [|done|done].
  constructor; unfold start; cbn; rewrite ?Q; try done.
  - intros e X. by apply elem_of_nil in X.
  - intros e r [X|X]; by apply elem_of_nil in X.
  - intros e r X. by apply elem_of_nil in X.
Qed.

Lemma started_inv o rt tr s : started o rt -> run (start rt) tr s ->
  exists log, sys_inv (found_records rt) s log tr /\ log_run (cf_stream (rt_config rt)) (found_records rt) log
    /\ sy_config s = rt_config rt.
Proof. intros ST R. apply start_inv in ST. by apply (run_inv _ _ _ _ _ _ ST) in R. Qed.

(** The first error of the worker is never forgotten. *)
Lemma step_firstErr s o s' : step s o s' -> q_firstErr (sy_queue s) <> None -> q_firstErr (sy_queue s') <> None.
Proof.
  intros ST N. destruct ST; cbn; try done.
  - unfold enqueue in *. destruct (q_closed _); [by simplify_eq|]. cbv zeta in *.
    destruct (contextErr ctx'); [destruct (_ && _)|destruct (_ <? _)]; by simplify_eq.
  - unfold begin_critical in *. destruct (q_closed _); by simplify_eq.
  - destruct answer; cbn; [done|]. by destruct (q_firstErr _).
Qed.

Lemma run_firstErr s o s' : run s o s' -> q_firstErr (sy_queue s) <> None -> q_firstErr (sy_queue s') <> None.
Proof. induction 1 as [|o s1 o' s2 R IH ST]; [done|]. intros N. by eapply step_firstErr, IH. Qed.

(** Where an accepted event is when nothing is pending. *)
Lemma idle_recorded found s log tr e : sys_inv found s log tr -> idle (sy_queue s) = true -> Accepted e ∈ tr ->
  (exists r, recorded log e r) \/ q_firstErr (sy_queue s) <> None.
Proof.
  intros I ID AC. unfold idle in ID. props. rewrite (si_pending _ _ _ _ I) in ID.
  destruct (si_accepted _ _ _ _ I e AC) as [Q|[(w & W & _)|X]]; [| |done].
  - destruct (q_items (sy_queue s)); [by apply elem_of_nil in Q|]. cbn in ID. destruct (sy_worker s); lia.
  - rewrite W in ID. lia.
Qed.

(** ** Properties *)

(** C21. The runtime refines an append-only log: whatever its callers, worker, replays,
    acknowledgements, closing and outages of the journal do, its history is that of a log to which
    records are added at the end, one for an event; the journal holds a prefix of the log, each
    record beyond it is in the spool, the records are numbered from 1, and every record reported
    for an event is in the log. *)
Theorem runtime_refines_log o rt tr s : started o rt -> run (start rt) tr s ->
  let cfg := rt_config rt in
  exists log, log_run (cf_stream cfg) (found_records rt) log
    /\ map ac_Record (rows cfg (sy_chain s)) `prefix_of` log
    /\ (forall i r, log !! i = Some r -> ar_Sequence r = Z.of_nat i + 1
          /\ ((i < length (rows cfg (sy_chain s)))%nat \/ exists k, k ∈ spooled cfg (sy_chain s) /\ ac_Record k = r))
    /\ NoDup (map record_id log)
    /\ (forall e r, Returned e r ∈ tr \/ Logged e r ∈ tr -> r ∈ log /\ ar_Event r = e).
Proof.
  intros ST R. destruct (started_inv _ _ _ _ ST R) as (log & I & L & C). pose proof (si_chain _ _ _ _ I) as CI. rewrite C in CI.
  exists log. split_and!; [done|apply CI| |apply CI|apply (si_outputs _ _ _ _ I)].
  intros i r LI. split; [by eapply (ci_sequence _ _ _ _ _ CI)|by eapply (ci_cover _ _ _ _ _ CI)].
Qed.

(** C22. An outage loses nothing: after a replay that succeeds, the journal holds every record that
    a critical call returned or the worker logged, at its sequence, whatever outages, spooled
    records and failed replays came before. *)
Theorem outage_loses_nothing o rt tr s ctx c e r : started o rt -> run (start rt) tr s ->
  Replay ctx (rt_config rt) (sy_chain s) = (c, None) -> ch_spool (sy_chain s) <> None ->
  Returned e r ∈ tr \/ Logged e r ∈ tr ->
  exists k, rows (rt_config rt) c !! Z.to_nat (ar_Sequence r - 1) = Some k /\ ac_Record k = r /\ ar_Event r = e.
Proof.
  intros ST R RE SP O. destruct (started_inv _ _ _ _ ST R) as (log & I & _ & C). pose proof (si_chain _ _ _ _ I) as CI.
  rewrite C in CI. destruct (Replay_inv _ _ _ _ _ _ _ _ CI RE) as (CI' & _ & LEN). specialize (LEN eq_refl SP).
  destruct (si_outputs _ _ _ _ I e r O) as [IN E]. apply list_elem_of_lookup in IN as [i L].
  pose proof (ci_sequence _ _ _ _ _ CI _ _ L) as Q. pose proof (lookup_lt_Some _ _ _ L) as LT.
  destruct (record_row _ _ _ _ _ _ _ CI' L) as (k & K & ER); [lia|]. exists k. split_and!; [|done|done].
  by replace (Z.to_nat (ar_Sequence r - 1)) with i by lia.
Qed.

(** C23. A critical call that has returned a record has it in a durable store, in the journal or in
    the spool, under a checkpoint that the verifiers accept, at once and at any later time; only a
    record that was in the journal when the runtime started may lack these. *)
Theorem critical_event_is_durable o rt tr s e r : started o rt -> run (start rt) tr s -> Returned e r ∈ tr ->
  ar_Event r = e /\ is_critical e = true
  /\ (r ∈ found_records rt \/ exists k, ac_Record k = r /\ durable (rt_config rt) (sy_chain s) k /\ signed ed25519_Verify (rt_config rt) k).
Proof.
  intros ST R O. destruct (started_inv _ _ _ _ ST R) as (log & I & _ & C). pose proof (si_chain _ _ _ _ I) as CI. rewrite C in CI.
  pose proof (si_returned _ _ _ _ I e r O) as CR. destruct (si_outputs _ _ _ _ I e r (or_introl O)) as [IN E].
  split_and!; [done|done|]. apply (ci_critical _ _ _ _ _ CI r IN). by rewrite E.
Qed.

(** C24. Flush reports what it promises: when nothing was pending at some moment and the worker's
    first error is still none later, every normal event accepted before that moment has its record,
    in the memory of the runtime and in the journal or the spool. *)
Theorem flush_means_recorded o rt tr s1 tr' s2 e : started o rt -> run (start rt) tr s1 -> idle (sy_queue s1) = true ->
  run s1 tr' s2 -> q_firstErr (sy_queue s2) = None -> Accepted e ∈ tr ->
  exists r k, ch_events (sy_chain s2) !! ae_EventID e = Some r /\ ar_Event r = e
    /\ ac_Record k = r /\ k ∈ rows (rt_config rt) (sy_chain s2) ++ spooled (rt_config rt) (sy_chain s2).
Proof.
  intros ST R1 ID R2 FE AC. destruct (started_inv _ _ _ _ ST R1) as (log & I & _ & C).
  destruct (run_inv _ _ _ _ _ _ I R2) as (log' & I' & L & C'). rewrite C in C'.
  destruct (idle_recorded _ _ _ _ _ I ID AC) as [[r X]|N]; [|by destruct (run_firstErr _ _ _ R2 N)].
  destruct (recorded_more _ _ _ _ (log_run_prefix _ _ _ L) X) as [IN E].
  pose proof (si_chain _ _ _ _ I') as CI. rewrite C' in CI.
  assert (ch_events (sy_chain s2) !! ae_EventID e = Some r) as EV by (apply (ci_events _ _ _ _ _ CI); by rewrite <- E).
  exists r. apply list_elem_of_lookup in IN as [i LI]. destruct (ci_cover _ _ _ _ _ CI _ _ LI) as [LT|(k & K & ER)].
  - destruct (record_row _ _ _ _ _ _ _ CI LI LT) as (k & K & ER). exists k. split_and!; try done.
    apply elem_of_app. left. by eapply list_elem_of_lookup_2.
  - exists k. split_and!; try done. apply elem_of_app. by right.
Qed.
End Safety.
