(* ===== verification/AuditExamples.v ===== *)
(** * The audit runtime on concrete inputs

    A journal that is down now and then, a toy cipher and signer, and the runs
    on which the guarantees of the runtime are witnessed. *)

From S2P Require Import Prelude GoText Sha256 Json JsonValid JsonDecode TimeText JsonReads.
From S2P Require Import AuditEvent AuditDecode AuditJournal AuditSpool AuditRuntime.
From S2P Require Import AuditRuntimeFacts AuditSystem AuditSystemSafety.
From Stdlib Require Import Ascii.

Open Scope string_scope.
Open Scope list_scope.
Open Scope Z_scope.
Open Scope go_scope.

(** ** A journal with outages *)

(** The journal in memory behind a link: each [Append] finds it up or down,
    and up when the list has ended. *)
Record Link := { lk_journal : MemoryJournal; lk_up : list bool }.

Definition link_Append (ctx : Context) (c : Commit) (l : Link) : Link * option error :=
  match lk_up l with
  | false :: up => ({| lk_journal := lk_journal l; lk_up := up |}, Some ErrUnavailable)
  | up => let '(j, err) := mem_Append ctx c (lk_journal l) in ({| lk_journal := j; lk_up := tl up |}, err)
  end.

#[export] Instance Link_Journal : Journal Link := {|
  journal_Append := link_Append;
  journal_Records ctx s after limit l := mem_Records ctx s after limit (lk_journal l);
  journal_Last ctx s l := mem_Last ctx s (lk_journal l);
  journal_Checkpoint ctx s n l := mem_Checkpoint ctx s n (lk_journal l);
  journal_PendingOutbox ctx s n l := mem_PendingOutbox ctx s n (lk_journal l);
  journal_AckOutbox ctx clock d l :=
    let '(j, err) := mem_AckOutbox clock ctx d (lk_journal l) in ({| lk_journal := j; lk_up := lk_up l |}, err);
  journal_Verify ctx s l := mem_Verify ctx s (lk_journal l);
  journal_Durable l := mj_durable (lk_journal l);
  journal_Flush ctx _ := contextErr ctx |}.

Lemma link_outcome ctx c l l' err : link_Append ctx c l = (l', err) ->
  err = Some ErrUnavailable /\ lk_journal l' = lk_journal l \/ mem_Append ctx c (lk_journal l) = (lk_journal l', err).
Proof.
  unfold link_Append. destruct (lk_up l) as [|[] up]; [|intros E|intros [= <- <-]; by left].
  - destruct (mem_Append _ _ _) as [j e] eqn:E. intros [= <- <-]. by right.
  - destruct (mem_Append _ _ _) as [j e]. injection E as <- <-. by right.
Qed.

Lemma link_ack ctx clock d l l' err : journal_AckOutbox ctx clock d l = (l', err) ->
  mem_AckOutbox clock ctx d (lk_journal l) = (lk_journal l', err).
Proof. cbn. destruct (mem_AckOutbox _ _ _ _) as [j e]. by intros [= <- <-]. Qed.

#[export] Instance Link_laws : JournalLaws Link.
Proof.
  refine {| journal_rows l := rows_of (lk_journal l); journal_wf l := mem_wf (lk_journal l) |}.
  - intros l s W. apply W.
  - intros l s W. apply W.
  - intros l s W. apply W.
  - intros ctx c l l' err E W. apply link_outcome in E as [[_ ->]|E]; [done|by eapply mem_Append_wf].
  - intros ctx clock d l l' err E W. apply link_ack in E. exact (ack_wf (J:=MemoryJournal) _ _ _ _ _ _ E W).
  - intros ctx c l l' E. apply link_outcome in E as [[? _]|E]; [done|exact (append_ok (J:=MemoryJournal) _ _ _ _ E)].
  - intros ctx c l l' err s E. apply link_outcome in E as [[_ ->]|E]; [done|exact (append_err (J:=MemoryJournal) _ _ _ _ _ _ E)].
  - intros ctx c l l' E. apply link_outcome in E as [[? _]|E]; [done|exact (append_replay (J:=MemoryJournal) _ _ _ _ E)].
  - intros ctx c l l' err s E N. apply link_outcome in E as [[_ ->]|E]; [done|exact (append_other (J:=MemoryJournal) _ _ _ _ _ _ E N)].
  - intros ctx c l l' err E. cbn. apply link_outcome in E as [[_ ->]|E]; [done|by eapply mem_Append_durable].
  - intros ctx s l r E. exact (last_ok (J:=MemoryJournal) ctx s _ r E).
  - intros ctx s l rs E. exact (records_ok (J:=MemoryJournal) ctx s _ rs E).
  - intros ctx s n l cp P E. exact (checkpoint_ok (J:=MemoryJournal) ctx s n _ cp P E).
  - intros ctx clock d l l' err s E. apply link_ack in E. exact (ack_rows (J:=MemoryJournal) _ _ _ _ _ _ s E).
  - intros ctx clock d l l' err E. apply link_ack in E. exact (ack_durable (J:=MemoryJournal) _ _ _ _ _ _ E).
Defined.

(** ** A cipher and a signer *)

(** The text with a tag of 16 bytes. *)
Definition tag : string := "0123456789abcdef".
Definition toy_seal (nonce text data : string) : string := (text ++ tag)%string.
Definition toy_unseal (nonce sealed data : string) : option string :=
  Some (of_bytes (take (length (bytes sealed) - 16) (bytes sealed))).

Lemma bytes_append a b : bytes (a ++ b)%string = bytes a ++ bytes b.
Proof. induction a as [|c a IH]; [done|]. exact (f_equal (cons c) IH). Qed.

Lemma toy_unseal_seal nonce text data : len nonce = Z.of_nat 12 -> toy_unseal nonce (toy_seal nonce text data) data = Some text.
Proof.
  intros _. unfold toy_unseal, toy_seal. rewrite bytes_append, length_app.
  change (length (bytes tag)) with 16%nat. rewrite Nat.add_sub, take_app_length. by rewrite of_bytes_bytes.
Qed.

Lemma toy_seal_tag nonce text data : 16 <= len (toy_seal nonce text data).
Proof.
  unfold toy_seal, len. assert (String.length (text ++ tag)%string = (String.length text + 16)%nat) as ->; [|lia].
  induction text as [|c t IH]; [done|]. exact (f_equal S IH).
Qed.

#[export] Instance toy_spool : EncryptedSpool MemoryEncryptedSpool := mem_spool 12 toy_seal toy_unseal.
#[export] Instance toy_laws : SpoolLaws MemoryEncryptedSpool := MemorySpool_laws 12 toy_seal toy_unseal toy_unseal_seal toy_seal_tag.

Definition toy_signature : list Z := repeat 7 64.
Definition toy_sign (key : list Z) (message : string) : list Z := toy_signature.
Definition toy_verify (key : list Z) (message : string) (signature : list Z) : bool := bool_decide (signature = toy_signature).

(** ** A runtime *)

Definition toy_link (up : list bool) : Link := {| lk_journal := NewMemoryJournalWithDurability true; lk_up := up |}.

Definition toy_empty : MemoryEncryptedSpool := {| ms_items := []; ms_fingerprints := ∅; ms_durable := true |}.

Definition toy_options (up : list bool) : RuntimeOptions (J:=Link) (S:=MemoryEncryptedSpool) (A:=MemoryOutboxAdapter) :=
  {| ro_Journal := Some (toy_link up); ro_Spool := Some toy_empty;
     ro_Signer := Some (OtherSigner "k" (fun _ => Ok toy_signature)); ro_Verifiers := {["k" := repeat 0 32]};
     ro_Outboxes := [Some (NewMemoryOutboxAdapter OutboxTargetSIEM true)]; ro_StreamID := "s"; ro_QueueCapacity := 0;
     ro_CheckpointEvery := 0 |}.

Definition toy_time : Time := 63871200000 * Second.

Definition toy_event (id : string) (class : EventClass) : Event :=
  {| ae_EventID := id; ae_StreamID := "s"; ae_TenantID := "t"; ae_Actor := "a"; ae_Type := "audit"; ae_Action := "x";
     ae_Resource := "r"; ae_Outcome := OutcomeSuccess; ae_CorrelationID := ""; ae_SessionID := ""; ae_LeaseID := "";
     ae_ConfirmationID := ""; ae_Reason := ""; ae_EvidenceDigest := ""; ae_PolicyEpoch := 1; ae_Class := class;
     ae_At := toy_time |}.

Definition toy_now (k i : nat) : Time := toy_time.
Definition toy_random : Random := Some (fun _ => "n"%char).

Definition toy_runtime (up : list bool) : Runtime (J:=Link) (S:=MemoryEncryptedSpool) (A:=MemoryOutboxAdapter) :=
  {| rt_config := {| cf_signer := ro_Signer (toy_options up); cf_verifiers := {["k" := repeat 0 32]}; cf_stream := "s";
                     cf_checkpointEvery := 0; cf_capacity := 64 |};
     rt_outboxes := [Some (NewMemoryOutboxAdapter OutboxTargetSIEM true)];
     rt_chain := {| ch_journal := toy_link up; ch_spool := Some toy_empty; ch_head := zero_record; ch_events := ∅;
                    ch_spooling := false |};
     rt_queue := {| q_items := []; q_pending := 0; q_closed := false; q_firstErr := None |} |}.

Lemma toy_started up : started toy_sign toy_verify (toy_options up) (toy_runtime up).
Proof.
  split_and!; [reflexivity| | |].
  - intros j [= <-]. apply new_wf.
  - intros s [= <-]. split; [split; [constructor|]|done]. intros id fp. cbn. by rewrite lookup_empty.
  - intros signer m sig [= <-] [= <-]. reflexivity.
Qed.

Abbreviation toy_persist r ctx e c :=
  (persist toy_sign toy_verify (rt_config r) (rt_outboxes r) ctx toy_now toy_random e c).

(** ** A critical event during an outage, and a replay *)

Definition outage : Runtime := toy_runtime [false].
Definition event1 : Event := toy_event "e" EventClassCritical.
Definition record1 : AuditRecord := Eval vm_compute in next_record zero_record event1.
Definition stored1 : Chain := Eval vm_compute in
  fst (toy_persist outage (fun _ => Background) event1 (rt_chain outage)).

Lemma persist1 : toy_persist outage (fun _ => Background) event1 (rt_chain outage) = (stored1, Ok record1).
Proof. vm_compute. reflexivity. Qed.

Definition replayed1 : Chain := Eval vm_compute in fst (Replay (fun _ => Background) (rt_config outage) stored1).

Lemma replay1 : Replay (fun _ => Background) (rt_config outage) stored1 = (replayed1, None).
Proof. vm_compute. reflexivity. Qed.

Abbreviation toy_run := (run (J:=Link) (S:=MemoryEncryptedSpool) (A:=MemoryOutboxAdapter) toy_sign toy_verify).
Abbreviation toy_step := (step (J:=Link) (S:=MemoryEncryptedSpool) (A:=MemoryOutboxAdapter) toy_sign toy_verify).

(** One more step of a run. *)
Lemma toy_next s o s1 o' s2 tr : toy_run s o s1 -> toy_step s1 o' s2 -> o ++ o' = tr -> toy_run s tr s2.
Proof. intros R ST <-. by econstructor. Qed.

Lemma toy_writable : writable toy_time.
Proof. apply year_writable. vm_compute. split; discriminate. Qed.

Lemma toy_persistable s : ar_Sequence (ch_head (sy_chain s)) < two64 - 1 ->
  persistable (J:=Link) (S:=MemoryEncryptedSpool) (A:=MemoryOutboxAdapter) s toy_now.
Proof. intros L. split; [|done]. intros k i. split; [done|apply toy_writable]. Qed.

Definition after_outage : Sys :=
  {| sy_config := rt_config outage; sy_outboxes := rt_outboxes outage; sy_chain := stored1; sy_queue := rt_queue outage;
     sy_worker := None; sy_calls := [] |}.

Lemma outage_run : toy_run (start outage) [Returned event1 record1] after_outage.
Proof.
  pose proof (run_nil toy_sign toy_verify (start outage)) as R.
  eapply toy_next in R; [|eapply (step_call _ _ _ Background toy_time event1 event1); vm_compute; reflexivity|reflexivity].
  eapply toy_next in R; [|eapply (step_idle _ _ _ 0%nat event1); reflexivity|reflexivity].
  eapply toy_next in R; [|eapply (step_begin _ _ _ 0%nat event1 _ None); reflexivity|reflexivity].
  eapply toy_next in R; [|eapply (step_persist _ _ _ 0%nat event1 (fun _ => Background) toy_now toy_random);
                           [reflexivity|by apply toy_persistable|exact persist1]|reflexivity].
  eapply toy_next in R; [|eapply (step_end _ _ _ 0%nat event1 (Ok record1)); reflexivity|reflexivity].
  eapply toy_next in R; [|eapply (step_return _ _ _ 0%nat event1 (Ok record1)); reflexivity|reflexivity].
  exact R.
Qed.

(** ** A normal event *)

Definition quiet : Runtime := toy_runtime [].
Definition event2 : Event := toy_event "n" EventClassNormal.
Definition record2 : AuditRecord := Eval vm_compute in next_record zero_record event2.
Definition stored2 : Chain := Eval vm_compute in
  fst (toy_persist quiet (fun _ => Background) event2 (rt_chain quiet)).

Lemma persist2 : toy_persist quiet (fun _ => Background) event2 (rt_chain quiet) = (stored2, Ok record2).
Proof. vm_compute. reflexivity. Qed.

Definition after_quiet : Sys :=
  {| sy_config := rt_config quiet; sy_outboxes := rt_outboxes quiet; sy_chain := stored2; sy_queue := rt_queue quiet;
     sy_worker := None; sy_calls := [] |}.

Lemma quiet_run : toy_run (start quiet) [Accepted event2; Logged event2 record2] after_quiet.
Proof.
  pose proof (run_nil toy_sign toy_verify (start quiet)) as R.
  eapply toy_next in R; [|eapply (step_normal _ _ _ Background toy_time Background false event2 event2 _ None); vm_compute; reflexivity
                         |reflexivity].
  eapply toy_next in R; [|eapply (step_take _ _ _ event2 []); reflexivity|reflexivity].
  eapply toy_next in R; [|eapply (step_work _ _ _ event2 toy_now toy_random);
                           [reflexivity|by apply toy_persistable|exact persist2]|reflexivity].
  eapply toy_next in R; [|eapply (step_report _ _ _ event2 (Ok record2)); reflexivity|reflexivity].
  eapply toy_next in R; [|eapply (step_done _ _ _ event2); reflexivity|reflexivity].
  exact R.
Qed.

(** ** Witnesses *)

(** [runtime_refines_log] at the run with an outage. *)
Lemma runtime_refines_log_witness :
  let cfg := rt_config outage in
  exists log, log_run (cf_stream cfg) (found_records outage) log
    /\ map ac_Record (rows cfg (sy_chain after_outage)) `prefix_of` log
    /\ (forall i r, log !! i = Some r -> ar_Sequence r = Z.of_nat i + 1
          /\ ((i < length (rows cfg (sy_chain after_outage)))%nat
              \/ exists k, k ∈ spooled cfg (sy_chain after_outage) /\ ac_Record k = r))
    /\ NoDup (map record_id log)
    /\ (forall e r, Returned e r ∈ [Returned event1 record1] \/ Logged e r ∈ [Returned event1 record1] ->
          r ∈ log /\ ar_Event r = e).
Proof. exact (runtime_refines_log toy_sign toy_verify _ _ _ _ (toy_started [false]) outage_run). Defined.

(** [outage_loses_nothing] for the record that was spooled during the outage. *)
Lemma outage_loses_nothing_witness :
  exists k, rows (rt_config outage) replayed1 !! Z.to_nat (ar_Sequence record1 - 1) = Some k
    /\ ac_Record k = record1 /\ ar_Event record1 = event1.
Proof.
  refine (outage_loses_nothing toy_sign toy_verify _ _ _ _ _ _ event1 record1 (toy_started [false]) outage_run replay1 _ _).
  - discriminate.
  - left. apply list_elem_of_here.
Defined.

(** [critical_event_is_durable] for the same record, before the replay. *)
Lemma critical_event_is_durable_witness :
  ar_Event record1 = event1 /\ is_critical event1 = true
  /\ (record1 ∈ found_records outage
      \/ exists k, ac_Record k = record1 /\ durable (rt_config outage) (sy_chain after_outage) k
           /\ signed toy_verify (rt_config outage) k).
Proof.
  refine (critical_event_is_durable toy_sign toy_verify _ _ _ _ event1 record1 (toy_started [false]) outage_run _).
  apply list_elem_of_here.
Defined.

(** [flush_means_recorded] for the normal event. *)
Lemma flush_means_recorded_witness :
  exists r k, ch_events (sy_chain after_quiet) !! ae_EventID event2 = Some r /\ ar_Event r = event2
    /\ ac_Record k = r /\ k ∈ rows (rt_config quiet) (sy_chain after_quiet) ++ spooled (rt_config quiet) (sy_chain after_quiet).
Proof.
  refine (flush_means_recorded toy_sign toy_verify _ _ _ after_quiet [] after_quiet event2 (toy_started []) quiet_run
            eq_refl (run_nil _ _ _) eq_refl _).
  apply list_elem_of_here.
Defined.

(** The commit of the record that was spooled. *)
Definition commit1 : Commit := Eval vm_compute in
  match build (A:=MemoryOutboxAdapter) toy_sign toy_verify (rt_config outage) (rt_outboxes outage) (toy_now 0) event1 zero_record with
  | Ok c => c | Err _ => zero_commit end.

Definition bytes1 : list ascii := Eval vm_compute in default [] (commit_bytes commit1).

Lemma encodable1 : encodable commit1.
Proof. split; [vm_compute; reflexivity|split; [vm_compute; reflexivity|]]. exists bytes1. vm_compute. reflexivity. Qed.

(** [spool_round_trip] for that commit. *)
Lemma spool_round_trip_witness :
  exists es e, mem_Entries Background (stream_of commit1) toy_empty = Ok es
    /\ mem_Entries Background (stream_of commit1) (fst (mem_Put 12 toy_seal Background toy_random commit1 toy_empty)) = Ok (es ++ [e])
    /\ forall ctx later, mem_Open 12 toy_unseal ctx e later
       = match contextErr ctx with Some err => Err err | None => Ok commit1 end.
Proof.
  refine (spool_round_trip 12 toy_seal toy_unseal toy_unseal_seal toy_seal_tag Background toy_random commit1 toy_empty _ encodable1 eq_refl _).
  vm_compute. reflexivity.
Defined.

(** ** Behaviours found *)

(** A runtime restarted over the same stores takes its head from the journal
    alone. The first record after the restart takes the sequence of the
    spooled one, and the next replay reports success although the spooled
    critical record conflicts with it and is nowhere in the journal. *)
Definition restarted : Runtime :=
  {| rt_config := rt_config outage; rt_outboxes := rt_outboxes outage;
     rt_chain := {| ch_journal := ch_journal stored1; ch_spool := ch_spool stored1; ch_head := zero_record; ch_events := ∅;
                    ch_spooling := false |};
     rt_queue := rt_queue outage |}.

Definition restart_options : RuntimeOptions (J:=Link) (S:=MemoryEncryptedSpool) (A:=MemoryOutboxAdapter) :=
  {| ro_Journal := Some (ch_journal stored1); ro_Spool := ch_spool stored1; ro_Signer := ro_Signer (toy_options []);
     ro_Verifiers := {["k" := repeat 0 32]}; ro_Outboxes := rt_outboxes outage; ro_StreamID := "s"; ro_QueueCapacity := 0;
     ro_CheckpointEvery := 0 |}.

Definition event3 : Event := toy_event "f" EventClassCritical.
Definition record3 : AuditRecord := Eval vm_compute in next_record zero_record event3.
Definition stored3 : Chain := Eval vm_compute in
  fst (toy_persist restarted (fun _ => Background) event3 (rt_chain restarted)).

Lemma persist3 : toy_persist restarted (fun _ => Background) event3 (rt_chain restarted) = (stored3, Ok record3).
Proof. vm_compute. reflexivity. Qed.

Definition replayed3 : Chain := Eval vm_compute in fst (Replay (fun _ => Background) (rt_config restarted) stored3).

Lemma replay3 : Replay (fun _ => Background) (rt_config restarted) stored3 = (replayed3, None).
Proof. vm_compute. reflexivity. Qed.

Example restart_loses_spooled_record :
  NewRuntime toy_verify restart_options = Ok restarted
  /\ toy_persist restarted (fun _ => Background) event3 (rt_chain restarted) = (stored3, Ok record3)
  /\ Replay (fun _ => Background) (rt_config restarted) stored3 = (replayed3, None)
  /\ map ac_Record (rows (rt_config restarted) replayed3) = [record3].
Proof. split_and!; [reflexivity|apply persist3|apply replay3|reflexivity]. Qed.

(** Two runtimes over one journal: the one whose head is stale is answered
    ErrReplayConflict, which it takes as final, so that it never reads the head
    again and its next events fail alike. *)
Definition stale : Chain (J:=Link) (S:=MemoryEncryptedSpool) :=
  {| ch_journal := ch_journal stored2; ch_spool := None; ch_head := zero_record; ch_events := ∅; ch_spooling := false |}.

Example stale_runtime_is_stuck : toy_persist quiet (fun _ => Background) event3 stale = (stale, Err ErrReplayConflict).
Proof. vm_compute. reflexivity. Qed.

(** A delivery that its adapter has marked but whose acknowledgement failed is
    refused as a conflict by the next dispatch, and blocks those behind it. *)
Definition siem : MemoryOutboxAdapter := NewMemoryOutboxAdapter OutboxTargetSIEM true.

(** [dispatch_delivers] for the delivery of the normal event. *)
Lemma dispatch_delivers_witness :
  exists pending, mem_PendingOutbox Background "s" 0 (lk_journal (ch_journal stored2)) = Ok pending
    /\ forall d, d ∈ pending -> has_adapter (dl_Target d) [Some siem] ->
       delivered (fst (fst (Dispatch (J:=MemoryJournal) (A:=MemoryOutboxAdapter) (fun _ => Background) (fun _ => toy_time) 0
         (rt_config quiet) [Some siem] (lk_journal (ch_journal stored2))))) d
       /\ acknowledged (snd (fst (Dispatch (J:=MemoryJournal) (A:=MemoryOutboxAdapter) (fun _ => Background) (fun _ => toy_time) 0
         (rt_config quiet) [Some siem] (lk_journal (ch_journal stored2))))) d.
Proof.
  refine (dispatch_delivers (fun _ => Background) (fun _ => toy_time) 0 (rt_config quiet) [Some siem]
            (lk_journal (ch_journal stored2)) _ _ _ _ _).
  - apply (bool_decide_eq_true_1 (map_Forall (fun id d => dl_DeliveryID d = id) (mj_outbox (lk_journal (ch_journal stored2))))).
    vm_compute. reflexivity.
  - intros _. discriminate.
  - vm_compute. reflexivity.
Defined.

Definition first_dispatch := Dispatch (A:=MemoryOutboxAdapter)
  (fun k => if (k =? 2)%nat then Some "context canceled" else Background) (fun _ => toy_time) 0 (rt_config quiet) [Some siem]
  (ch_journal stored2).

Definition marked : list (option MemoryOutboxAdapter) :=
  match fst (fst first_dispatch), mem_PendingOutbox Background "s" 0 (lk_journal (ch_journal stored2)) with
  | [Some a], Ok [d] => [Some (fst (MarkDelivered toy_time Background d a))]
  | _, _ => []
  end.

Example marked_delivery_blocks_dispatch :
  snd first_dispatch = Some (ErrContext "context canceled") /\ length marked = 1%nat
  /\ snd (Dispatch (A:=MemoryOutboxAdapter) (fun _ => Background) (fun _ => toy_time) 0 (rt_config quiet) marked (snd (fst first_dispatch)))
     = Some ErrOutboxConflict.
Proof. vm_compute. split_and!; reflexivity. Qed.
