(* ===== verification/TimeClock.v ===== *)
(** * The disciplined clock (internal/timekeeper/clock.go)

    Unlike the rest of the development this component depends on Go's
    monotonic clock readings, so a [time.Time] is here a pair of its wall time
    and, when it has one, its monotonic reading. *)

From S2P Require Import Prelude.
From Stdlib Require Import Sorting.Sorted.

Open Scope Z_scope.

(** ** [time.Time] with a monotonic reading *)

Record Reading := { wall : Time; mono : option Z }.

#[global] Instance Reading_eq_dec : EqDecision Reading.
Proof. solve_decision. Defined.

(** The reading of [time.Now], and a time without a monotonic reading. *)
Definition at_mono (w m : Z) : Reading := {| wall := w; mono := Some m |}.
Definition at_wall (w : Z) : Reading := {| wall := w; mono := None |}.

Definition zero_reading : Reading := at_wall 0.

(** The library packs the seconds of a time with a monotonic reading into 33
    bits from 1885 on; [Add] drops the reading when the sum does not fit, or
    when the reading overflows. *)
Definition wall_1885 : Time := 59453308800 * Second.
Definition packable (w : Time) : bool := (wall_1885 <=? w) && (w <? wall_1885 + 8589934592 * Second).
Definition fits_i64 (z : Z) : bool := (min_int64 <=? z) && (z <=? max_int64).

Definition Add (t : Reading) (d : Duration) : Reading :=
  {| wall := wall t + d;
     mono := match mono t with
             | Some m => if packable (wall t + d) && fits_i64 (m + d) then Some (m + d) else None
             | None => None
             end |}.

(** [Before] and [Sub] compare the monotonic readings when both have one. *)
Definition reading_before (t u : Reading) : bool :=
  match mono t, mono u with Some m, Some n => m <? n | _, _ => wall t <? wall u end.

Definition Sub (t u : Reading) : Duration :=
  match mono t, mono u with Some m, Some n => TimeSub m n | _, _ => TimeSub (wall t) (wall u) end.

(** ** The clock *)

Record DisciplinedClock := { dc_offset : Duration; dc_last : Reading; dc_lastMono : Reading }.

Definition NewDisciplinedClock : DisciplinedClock :=
  {| dc_offset := 0; dc_last := zero_reading; dc_lastMono := zero_reading |}.

(** [elapsed] is the reading of [time.Now] and [source] that of the backing
    clock, which is read after it. *)
Definition clock_Now (elapsed source : Reading) (c : DisciplinedClock) : DisciplinedClock * Reading :=
  let candidate := Add source (dc_offset c) in
  let candidate :=
    if negb (IsZero (wall (dc_last c))) && reading_before candidate (dc_last c)
    then Add (dc_last c) (Z.max 0 (Sub elapsed (dc_lastMono c)))
    else candidate in
  ({| dc_offset := dc_offset c; dc_last := candidate; dc_lastMono := elapsed |}, candidate).

Definition SetOffset (d : Duration) (c : DisciplinedClock) : DisciplinedClock :=
  {| dc_offset := d; dc_last := dc_last c; dc_lastMono := dc_lastMono c |}.

Definition ResetToSource (c : DisciplinedClock) : DisciplinedClock :=
  {| dc_offset := 0; dc_last := zero_reading; dc_lastMono := zero_reading |}.

Definition Offset (c : DisciplinedClock) : Duration := dc_offset c.

(** ** Runs of a clock *)

Inductive clock_op := Read (elapsed source : Reading) | Correct (d : Duration).

Fixpoint clock_run (ops : list clock_op) (c : DisciplinedClock) : DisciplinedClock * list Reading :=
  match ops with
  | [] => (c, [])
  | Read elapsed source :: ops =>
      let '(c, r) := clock_Now elapsed source c in
      let '(c, rs) := clock_run ops c in (c, r :: rs)
  | Correct d :: ops => clock_run ops (SetOffset d c)
  end.

(** ** Steady sources

    The wall time of an operating system clock that is not stepped advances
    with its monotonic reading. *)

Definition in_step (base : Z) (t : Reading) : Prop :=
  match mono t with Some m => wall t = m + base | None => True end.

(** Every source that is read, and every reading of elapsed time. *)
Definition steady (base : Z) (ops : list clock_op) : Prop :=
  Forall (fun op => match op with Read _ source => in_step base source | Correct _ => True end) ops.

Definition clock_in_step (base : Z) (c : DisciplinedClock) : Prop := in_step base (dc_last c).

Lemma Add_in_step base t d : in_step base t -> in_step base (Add t d).
Proof. unfold in_step, Add. cbn. destruct (mono t); [|done]. destruct (_ && _); [lia|done]. Qed.

Lemma reading_before_wall base t u : in_step base t -> in_step base u -> reading_before t u = (wall t <? wall u).
Proof.
  unfold in_step, reading_before. destruct (mono t), (mono u); try done. intros -> ->.
  apply eq_bool_prop_intro. rewrite !Is_true_true, !Z.ltb_lt. lia.
Qed.

(** One reading: either the corrected source, which is not before the last
    reading, or the last reading and the time since it. *)
Lemma clock_Now_cases base elapsed source c c' r : in_step base source -> clock_in_step base c ->
  clock_Now elapsed source c = (c', r) ->
  clock_in_step base c' /\ dc_offset c' = dc_offset c /\ dc_last c' = r /\ dc_lastMono c' = elapsed
  /\ wall r = (if negb (wall (dc_last c) =? 0) && (wall source + dc_offset c <? wall (dc_last c))
               then wall (dc_last c) + Z.max 0 (Sub elapsed (dc_lastMono c)) else wall source + dc_offset c).
Proof.
  intros IS IC. unfold clock_Now. injection 1 as <- <-. cbn.
  rewrite (reading_before_wall base) by (done || by apply Add_in_step).
  unfold IsZero, clock_in_step. cbn [wall Add dc_last]. destruct (_ && _); split_and!; try done; by apply Add_in_step.
Qed.

Lemma clock_Now_mono base elapsed source c c' r : in_step base source -> clock_in_step base c ->
  clock_Now elapsed source c = (c', r) -> wall (dc_last c) <> 0 -> wall (dc_last c) <= wall r.
Proof.
  intros IS IC E NZ. destruct (clock_Now_cases _ _ _ _ _ _ IS IC E) as (_ & _ & _ & _ & ->).
  rewrite (proj2 (Z.eqb_neq _ _)) by done. cbn. destruct (Z.ltb_spec (wall source + dc_offset c) (wall (dc_last c))); lia.
Qed.

(** Sources after 1885 and durations of 64 bits: the corrected time is after
    Go's zero time. *)
Definition modern (ops : list clock_op) : Prop :=
  Forall (fun op => match op with Read _ source => wall_1885 <= wall source | Correct d => in_i64 d end) ops.

Lemma clock_Now_positive base elapsed source c c' r : in_step base source -> clock_in_step base c ->
  wall_1885 <= wall source -> in_i64 (dc_offset c) -> 0 <= wall (dc_last c) ->
  clock_Now elapsed source c = (c', r) -> 0 < wall r /\ wall (dc_last c) <= wall r.
Proof.
  unfold in_i64, wall_1885, min_int64, Second. intros IS IC M D P E.
  destruct (clock_Now_cases _ _ _ _ _ _ IS IC E) as (_ & _ & _ & _ & ->).
  destruct (Z.eqb_spec (wall (dc_last c)) 0); cbn; [lia|].
  destruct (Z.ltb_spec (wall source + dc_offset c) (wall (dc_last c))); lia.
Qed.

(** A reading that is later than another, by either comparison. *)
Definition not_earlier (r r' : Reading) : Prop := wall r <= wall r' /\ reading_before r' r = false.

Lemma clock_run_sorted base ops : forall c c' rs, steady base ops -> modern ops ->
  clock_in_step base c -> in_i64 (dc_offset c) -> 0 <= wall (dc_last c) -> clock_run ops c = (c', rs) ->
  Forall (fun r => in_step base r /\ wall (dc_last c) <= wall r) rs /\ StronglySorted (fun r r' => wall r <= wall r') rs.
Proof.
  induction ops as [|[elapsed source|d] ops IH]; cbn [clock_run]; intros c c' rs ST MO IC D P E.
  - injection E as <- <-. split; constructor.
  - apply Forall_cons in ST as [IS ST], MO as [M MO]. destruct (clock_Now elapsed source c) as [c1 r] eqn:N.
    destruct (clock_run ops c1) as [c2 rs1] eqn:R. injection E as <- <-.
    destruct (clock_Now_cases _ _ _ _ _ _ IS IC N) as (IC1 & O & L & _).
    pose proof (clock_Now_positive _ _ _ _ _ _ IS IC M D P N) as [PR LE].
    specialize (IH _ _ _ ST MO IC1 ltac:(by rewrite O) ltac:(rewrite L; lia) R) as [F S]. rewrite L in F.
    split; constructor; try done.
    + split; [|done]. unfold clock_in_step in IC1. by rewrite L in IC1.
    + eapply Forall_impl; [done|]. cbn. intros r' [I' W']. split; [done|lia].
    + eapply Forall_impl; [done|]. by intros r' [_ W'].
  - apply Forall_cons in ST as [_ ST], MO as [M MO]. by apply (IH (SetOffset d c) _ _ ST MO IC M P E).
Qed.

(** C31. The disciplined clock never goes back: over an operating system clock that is not stepped,
    whatever corrections are set between its readings, each time it serves is at or after every
    earlier one, in wall time and by Go's comparison. *)
Theorem clock_never_backwards base ops c rs : steady base ops -> modern ops ->
  clock_run ops NewDisciplinedClock = (c, rs) -> StronglySorted not_earlier rs.
Proof.
  intros ST MO E. apply (clock_run_sorted base) in E as [F S]; [|done|done|done|done|done].
  clear ST MO. induction S as [|r rs S IH LE]; [constructor|]. apply Forall_cons in F as [[I _] F].
  constructor; [by apply IH|]. rewrite Forall_forall in LE. rewrite Forall_forall in F. apply Forall_forall.
  intros r' IN. split; [by apply LE|]. rewrite (reading_before_wall base) by (done || by apply F).
  apply Z.ltb_ge. by apply LE.
Qed.

(** ** How long a correction back waits

    The correction that a reading was served with. *)
Definition served (r source : Reading) : Z := wall r - wall source.

(** Readings of one system clock: each source is the reading of elapsed time. *)
Definition reads (sources : list Reading) : list clock_op := map (fun t => Read t t) sources.

(** Successive sources less than [gap] apart. *)
Fixpoint closer_than (gap : Z) (t : Reading) (sources : list Reading) : Prop :=
  match sources with
  | [] => True
  | t' :: sources => wall t <= wall t' < wall t + gap /\ closer_than gap t' sources
  end.

Lemma Sub_in_step base t u : in_step base t -> in_step base u -> in_i64 (wall t - wall u) -> Sub t u = wall t - wall u.
Proof.
  unfold in_step, Sub, in_i64, TimeSub. destruct (mono t), (mono u); intros; subst; lia.
Qed.

(** A clock that has served a correction, and is set back, serves the old
    correction as long as it is read at shorter intervals than the change. *)
Lemma busy_clock base t r sources : forall c c' rs, Forall (in_step base) (t :: sources) -> clock_in_step base c ->
  dc_last c = r -> dc_lastMono c = t -> wall r <> 0 -> served r t - dc_offset c <= max_int64 ->
  Forall (fun t' => 0 < wall t' + served r t) sources ->
  closer_than (served r t - dc_offset c) t sources -> clock_run (reads sources) c = (c', rs) ->
  Forall2 (fun r' t' => served r' t' = served r t) rs sources.
Proof.
  revert t r. induction sources as [|t' sources IH]; cbn [reads map clock_run closer_than]; intros t r c c' rs FS IC L LM NZ MX PO CL E.
  - by injection E as <- <-.
  - apply Forall_cons in FS as [It FS]. pose proof FS as [It' _]%Forall_cons. apply Forall_cons in PO as [PO1 PO].
    destruct CL as [[LE LT] CL].
    fold (reads sources) in E. destruct (clock_Now t' t' c) as [c1 r1] eqn:N. destruct (clock_run (reads sources) c1) as [c2 rs1] eqn:R.
    injection E as <- <-. destruct (clock_Now_cases _ _ _ _ _ _ It' IC N) as (IC1 & O & L1 & LM1 & W).
    rewrite L, LM, (Sub_in_step base) in W by (try done; unfold in_i64, min_int64, served in *; lia).
    rewrite (proj2 (Z.eqb_neq _ _)) in W by done. unfold served in *.
    rewrite (proj2 (Z.ltb_lt _ _)) in W by lia. cbn in W.
    assert (wall r1 - wall t' = wall r - wall t) as SV by lia.
    constructor; [done|]. rewrite <- SV. apply (IH t' r1 c1 c2); try done; rewrite ?O, ?SV; try done. lia.
Qed.

(** A correction back is applied only when the clock rests: once a time was served with a
    larger correction, the clock keeps serving that correction for as long as it is read at shorter
    intervals than the change. *)
Theorem correction_back_waits base elapsed t c c1 r d sources c2 rs : in_step base t -> clock_in_step base c ->
  clock_Now elapsed t c = (c1, r) -> elapsed = t -> wall r <> 0 -> served r t - d <= max_int64 ->
  Forall (in_step base) sources -> Forall (fun t' => 0 < wall t' + served r t) sources ->
  closer_than (served r t - d) t sources -> clock_run (Correct d :: reads sources) c1 = (c2, rs) ->
  Forall2 (fun r' t' => served r' t' = served r t) rs sources.
Proof.
  intros It IC N -> NZ MX FS PO CL E. destruct (clock_Now_cases _ _ _ _ _ _ It IC N) as (IC1 & O & L & LM & _).
  cbn [clock_run] in E. eapply (busy_clock base t r sources (SetOffset d c1)); try done. by constructor.
Qed.
