(* ===== verification/Ntp.v ===== *)
(** * The NTP client (internal/timekeeper/ntp.go)

    A query is one exchange over a connected socket: what the dialer, the
    socket, the context and the clock answer is given by an [Exchange]. Times
    have monotonic readings, see TimeClock. *)

From S2P Require Import Prelude GoText Sha256 ProxyTrust TimeClock.
From Stdlib Require Import Ascii.

Open Scope string_scope.
Open Scope list_scope.
Open Scope Z_scope.
Open Scope go_scope.

Definition ntpPacketSize : Z := 48.
Definition ntpEpochOffsetSeconds : Z := 2208988800.
Definition ntpEraSeconds : Z := 4294967296.
Definition DefaultUDPTimeout : Duration := 2 * Second.
Definition DefaultUDPMaxRTT : Duration := 2 * Second.
Definition DefaultUDPMaxOffset : Duration := 5 * Second.
Definition DefaultUDPMaxRootDelay : Duration := 2 * Second.
Definition DefaultUDPMaxRootDispersion : Duration := 2 * Second.
Definition DefaultUDPMaxRootDistance : Duration := 3 * Second.

Record Sample := {
  sm_Source : string; sm_Offset : Duration; sm_RTT : Duration; sm_Stratum : Z;
  sm_RootDelay : Duration; sm_RootDispersion : Duration }.

(** The errors of the code; those of the network and of the context are given
    by their text. *)
#[warnings="-register-all"]
Inductive NtpErr :=
| ErrContext (text : string) | ErrDial (source text : string) | ErrDeadline (text : string)
| ErrWrite (text : string) | ErrShortWrite | ErrRead (text : string) | ErrShortResponse (n : Z)
| ErrMode (mode : Z) | ErrVersion (version : Z) | ErrUnsynchronized | ErrOriginate | KoDError (code : string)
| ErrStratum (stratum : Z) | ErrReceiveZero | ErrTransmitZero | ErrNegativeRTT (rtt : Duration)
| ErrRTT (rtt limit : Duration) | ErrOffset (offset limit : Duration) | ErrNegativeRootDelay (d : Duration)
| ErrRootDelay (d limit : Duration) | ErrRootDispersion (d limit : Duration) | ErrRootDistance (d limit : Duration).

#[global] Instance NtpErr_eq_dec : EqDecision NtpErr.
Proof. solve_decision. Defined.

(** The limits of a client; a value that is not positive means the default. *)
Record clientLimits := {
  timeout : Duration; maxRTT : Duration; maxOffset : Duration; maxRootDelay : Duration;
  maxRootDispersion : Duration; maxRootDistance : Duration }.

Definition positiveOrDefault (value fallback : Duration) : Duration := if value <=? 0 then fallback else value.

(** [dependencies], of a client with the limits [c]. *)
Definition limits_of (c : clientLimits) : clientLimits :=
  {| timeout := positiveOrDefault (timeout c) DefaultUDPTimeout;
     maxRTT := positiveOrDefault (maxRTT c) DefaultUDPMaxRTT;
     maxOffset := positiveOrDefault (maxOffset c) DefaultUDPMaxOffset;
     maxRootDelay := positiveOrDefault (maxRootDelay c) DefaultUDPMaxRootDelay;
     maxRootDispersion := positiveOrDefault (maxRootDispersion c) DefaultUDPMaxRootDispersion;
     maxRootDistance := positiveOrDefault (maxRootDistance c) DefaultUDPMaxRootDistance |}.

(** ** Timestamps *)

(** Seconds since 1970 and the nanosecond of a time, and the time of both. *)
Definition unix_epoch_seconds : Z := 62135596800.
Definition Unix (t : Reading) : Z := wall t / Second - unix_epoch_seconds.
Definition Nanosecond (t : Reading) : Z := wall t mod Second.
Definition time_Unix (sec nsec : Z) : Reading := at_wall ((sec + unix_epoch_seconds) * Second + nsec).

Definition encodeNTPTimestamp (value : Reading) : Z :=
  let seconds := u64 (Unix value + ntpEpochOffsetSeconds) in
  let fraction := Z.shiftl (Nanosecond value) 32 / Second in
  Z.lor (u64 (Z.shiftl seconds 32)) fraction.

Definition floorDiv (value divisor : Z) : Z :=
  let quotient := Z.quot value divisor in
  if (value <? 0) && negb (Z.rem value divisor =? 0) then quotient - 1 else quotient.

Definition absoluteSeconds (value : Z) : Z := if value <? 0 then - value else value.

(** The loop over the neighbouring eras. *)
Definition nearest_era (seconds pivotSeconds pivotEra : Z) : Z :=
  let closer '(best, bestDistance) era :=
    let candidate := era * ntpEraSeconds + seconds in
    let distance := absoluteSeconds (candidate - pivotSeconds) in
    if distance <? bestDistance then (candidate, distance) else (best, bestDistance) in
  let best := pivotEra * ntpEraSeconds + seconds in
  fst (fold_left closer [pivotEra - 1; pivotEra + 1] (best, absoluteSeconds (best - pivotSeconds))).

Definition decodeNTPTimestamp (raw : Z) (pivot : Reading) : Reading :=
  let seconds := u32 (Z.shiftr raw 32) in
  let pivotSeconds := Unix pivot + ntpEpochOffsetSeconds in
  let best := nearest_era seconds pivotSeconds (floorDiv pivotSeconds ntpEraSeconds) in
  let fraction := Z.land raw 4294967295 in
  let nanoseconds := Z.shiftr (fraction * Second) 32 in
  time_Unix (best - ntpEpochOffsetSeconds) nanoseconds.

Definition absoluteDuration (value : Duration) : Duration :=
  if value =? min_int64 then max_int64 else if value <? 0 then - value else value.

(** The sum, and whether it overflowed. *)
Fixpoint sum_from (total : Duration) (values : list Duration) : Duration * bool :=
  match values with
  | [] => (total, false)
  | value :: values => if i64 (max_int64 - total) <? value then (max_int64, true) else sum_from (i64 (total + value)) values
  end.

Definition positiveDurationSum (values : list Duration) : Duration * bool := sum_from 0 values.

Definition int32 (raw : Z) : Z := if raw <? 2147483648 then raw else raw - 4294967296.
Definition decodeSignedFixed (raw : Z) : Duration := Z.quot (int32 raw * Second) 65536.
Definition decodeUnsignedFixed (raw : Z) : Duration := Z.quot (raw * Second) 65536.

(** ** The query *)

Definition be_value (l : list Z) : Z := fold_left (fun acc b => acc * 256 + b) l 0.
Definition slice (a b : nat) (l : list Z) : list Z := take (b - a) (drop a l).
Definition byte_at (i : nat) (l : list Z) : Z := default 0 (l !! i).

Definition equalTimestamp (left right : list Z) : bool :=
  (length left =? 8)%nat && (length right =? 8)%nat && (be_value left =? be_value right).

Definition TrimPrefix (s p : string) : string := if HasPrefix s p then of_bytes (drop (length (bytes p)) (bytes s)) else s.
Definition TrimSuffix (s p : string) : string :=
  if HasSuffix s p then of_bytes (take (length (bytes s) - length (bytes p)) (bytes s)) else s.

(** [net.JoinHostPort] *)
Definition JoinHostPort (host port : string) : string :=
  (if Contains host ":" then "[" ++ host ++ "]:" ++ port else host ++ ":" ++ port)%string.

Definition ntpAddress (source : string) : string :=
  match split_host (bytes source) with
  | Some _ => source
  | None =>
      let host := if HasPrefix source "[" && HasSuffix source "]" then TrimSuffix (TrimPrefix source "[") "]" else source in
      JoinHostPort host "123"
  end.

(** The reference code of a kiss of death: [TrimRight] of NUL and space. *)
Definition reference_code (l : list Z) : string :=
  of_bytes (rev (drop_set [ascii_of_nat 0; " "%char] (rev (map (fun b => ascii_of_nat (Z.to_nat b)) l)))).

(** What the world answers: the dialer for an address, the socket to its
    deadline, to the request that is written (how many bytes, and an error)
    and to the read (the bytes, and an error), the clock before the request
    and after the read, and the error of the context when a call has failed. *)
Record Exchange := {
  xc_dial : string -> option string; xc_deadline : option string; xc_t1 : Reading;
  xc_write : list Z -> Z * option string; xc_read : list Z -> list Z * option string; xc_t4 : Reading;
  xc_context : option string }.

Definition queryContextError (ctx : option string) (err : NtpErr) : NtpErr :=
  match ctx with Some text => ErrContext text | None => err end.

Definition ntp_request (t1 : Reading) : list Z := 35 :: repeat 0 39 ++ be_bytes 8 (encodeNTPTimestamp t1).

(** From the header to the sample. *)
Definition parse_response (source : string) (limits : clientLimits) (request packet : list Z) (t1 t4 : Reading)
    : result NtpErr Sample :=
  let header := byte_at 0 packet in
  let mode := Z.land header 7 in
  return Err (ErrMode mode) when negb (mode =? 4) ;;
  let version := Z.land (Z.shiftr header 3) 7 in
  return Err (ErrVersion version) when negb (version =? 3) && negb (version =? 4) ;;
  return Err ErrUnsynchronized when Z.shiftr header 6 =? 3 ;;
  return Err ErrOriginate when negb (equalTimestamp (slice 24 32 packet) (slice 40 48 request)) ;;
  let stratum := byte_at 1 packet in
  return Err (KoDError (reference_code (slice 12 16 packet))) when stratum =? 0 ;;
  return Err (ErrStratum stratum) when 15 <? stratum ;;
  let receiveRaw := be_value (slice 32 40 packet) in
  return Err ErrReceiveZero when receiveRaw =? 0 ;;
  let transmitRaw := be_value (slice 40 48 packet) in
  return Err ErrTransmitZero when transmitRaw =? 0 ;;
  let t2 := decodeNTPTimestamp receiveRaw t4 in
  let t3 := decodeNTPTimestamp transmitRaw t4 in
  let rtt := i64 (Sub t4 t1 - Sub t3 t2) in
  return Err (ErrNegativeRTT rtt) when rtt <? 0 ;;
  return Err (ErrRTT rtt (maxRTT limits)) when maxRTT limits <? rtt ;;
  let offset := Z.quot (i64 (Sub t2 t1 + Sub t3 t4)) 2 in
  return Err (ErrOffset offset (maxOffset limits)) when maxOffset limits <? absoluteDuration offset ;;
  let rootDelay := decodeSignedFixed (be_value (slice 4 8 packet)) in
  return Err (ErrNegativeRootDelay rootDelay) when rootDelay <? 0 ;;
  return Err (ErrRootDelay rootDelay (maxRootDelay limits)) when maxRootDelay limits <? rootDelay ;;
  let rootDispersion := decodeUnsignedFixed (be_value (slice 8 12 packet)) in
  return Err (ErrRootDispersion rootDispersion (maxRootDispersion limits)) when maxRootDispersion limits <? rootDispersion ;;
  let '(rootDistance, overflow) := positiveDurationSum [Z.quot rtt 2; Z.quot rootDelay 2; rootDispersion] in
  return Err (ErrRootDistance rootDistance (maxRootDistance limits)) when overflow || (maxRootDistance limits <? rootDistance) ;;
  Ok {| sm_Source := source; sm_Offset := offset; sm_RTT := rtt; sm_Stratum := stratum;
        sm_RootDelay := rootDelay; sm_RootDispersion := rootDispersion |}.

Definition Query (c : clientLimits) (source : string) (x : Exchange) : result NtpErr Sample :=
  let limits := limits_of c in
  match xc_dial x (ntpAddress source) with
  | Some text => Err (queryContextError (xc_context x) (ErrDial source text))
  | None =>
      match xc_deadline x with
      | Some text => Err (ErrDeadline text)
      | None =>
          let request := ntp_request (xc_t1 x) in
          let '(written, err) := xc_write x request in
          match err with
          | Some text => Err (queryContextError (xc_context x) (ErrWrite text))
          | None =>
              return Err ErrShortWrite when negb (written =? ntpPacketSize) ;;
              let '(packet, err) := xc_read x request in
              match err with
              | Some text => Err (queryContextError (xc_context x) (ErrRead text))
              | None =>
                  let n := Z.of_nat (length packet) in
                  return Err (ErrShortResponse n) when n <? ntpPacketSize ;;
                  parse_response source limits request packet (xc_t1 x) (xc_t4 x)
              end
          end
      end
  end.

(** ** Timestamps round trip *)

Lemma be_value_app l l' : be_value (l ++ l') = be_value l * 256 ^ Z.of_nat (length l') + be_value l'.
Proof.
  unfold be_value. rewrite fold_left_app. generalize (fold_left (fun acc b => acc * 256 + b) l 0). clear l.
  induction l' as [|b l' IH] using rev_ind; intros a; [cbn; lia|].
  rewrite !fold_left_app, length_app. cbn [fold_left length]. rewrite IH, Nat.add_1_r, Nat2Z.inj_succ, Z.pow_succ_r by lia. lia.
Qed.

Lemma be_value_be_bytes n z : 0 <= z < 256 ^ Z.of_nat n -> be_value (be_bytes n z) = z.
Proof.
  revert z. induction n as [|n IH]; intros z R; [cbn in *; lia|]. cbn [be_bytes]. rewrite be_value_app.
  rewrite Nat2Z.inj_succ, Z.pow_succ_r in R by lia.
  rewrite IH by (split; [by apply Z.div_pos; lia|apply Z.div_lt_upper_bound; lia]). cbn [length be_value fold_left]. 
  change (256 ^ Z.of_nat 1) with 256. pose proof (Z.div_mod z 256 ltac:(lia)). lia.
Qed.

(** The fraction of a second in 32 bits loses at most a nanosecond. *)
Lemma fraction_round_trip ns : 0 <= ns < Second ->
  let fraction := Z.shiftl ns 32 / Second in
  0 <= fraction < 4294967296 /\ ns - 1 <= Z.shiftr (fraction * Second) 32 <= ns.
Proof.
  intros R fraction. unfold fraction. rewrite Z.shiftl_mul_pow2, Z.shiftr_div_pow2 by lia.
  change (2 ^ 32) with 4294967296. unfold Second in *.
  pose proof (Z.div_mod (ns * 4294967296) 1000000000 ltac:(lia)) as D.
  pose proof (Z.mod_pos_bound (ns * 4294967296) 1000000000 ltac:(lia)) as M.
  set (f := ns * 4294967296 / 1000000000) in *. split; [lia|].
  pose proof (Z.div_mod (f * 1000000000) 4294967296 ltac:(lia)) as D'.
  pose proof (Z.mod_pos_bound (f * 1000000000) 4294967296 ltac:(lia)). lia.
Qed.

Lemma floorDiv_div value : floorDiv value ntpEraSeconds = value / ntpEraSeconds.
Proof.
  unfold floorDiv, ntpEraSeconds. pose proof (Z.quot_rem value 4294967296 ltac:(lia)) as Q.
  pose proof (Z.div_mod value 4294967296 ltac:(lia)) as D. pose proof (Z.mod_pos_bound value 4294967296 ltac:(lia)) as M.
  destruct (Z.ltb_spec value 0) as [N|N]; cbn [andb].
  - pose proof (Z.rem_bound_pos_neg value 4294967296 ltac:(lia) ltac:(lia)).
    destruct (Z.eqb_spec (Z.rem value 4294967296) 0); cbn [negb]; lia.
  - pose proof (Z.rem_bound_pos value 4294967296 ltac:(lia) ltac:(lia)). lia.
Qed.

Lemma absoluteSeconds_abs z : absoluteSeconds z = Z.abs z.
Proof. unfold absoluteSeconds. destruct (Z.ltb_spec z 0); lia. Qed.

(** The nearest era gives back seconds less than half an era from the pivot. *)
Lemma nearest_era_eq s p : Z.abs (s - p) < 2147483648 -> nearest_era (u32 s) p (floorDiv p ntpEraSeconds) = s.
Proof.
  intros N. rewrite floorDiv_div. unfold nearest_era, ntpEraSeconds, u32, two32. cbn [fold_left]. rewrite !absoluteSeconds_abs.
  pose proof (Z.div_mod s 4294967296 ltac:(lia)) as D. pose proof (Z.mod_pos_bound s 4294967296 ltac:(lia)).
  pose proof (Z.div_mod p 4294967296 ltac:(lia)) as D'. pose proof (Z.mod_pos_bound p 4294967296 ltac:(lia)).
  set (a := s / 4294967296) in *. set (b := p / 4294967296) in *. set (x := s mod 4294967296) in *. set (y := p mod 4294967296) in *.
  assert (a = b - 1 \/ a = b \/ a = b + 1) as C by lia.
  destruct (Z.ltb_spec (Z.abs ((b - 1) * 4294967296 + x - p)) (Z.abs (b * 4294967296 + x - p))); rewrite !absoluteSeconds_abs;
    match goal with |- context [?u <? ?v] => destruct (Z.ltb_spec u v) end; cbn [fst]; lia.
Qed.

Lemma lor_shiftl_add a f : 0 <= f < 4294967296 -> Z.lor (Z.shiftl a 32) f = a * 4294967296 + f.
Proof.
  intros F. assert (Z.land (Z.shiftl a 32) f = 0) as N.
  { apply Z.bits_inj'. intros i I. rewrite Z.land_spec, Z.shiftl_spec, Z.bits_0 by lia.
    destruct (Z.ltb_spec i 32); [by rewrite (Z.testbit_neg_r _ (i - 32)) by lia|].
    rewrite (Z.bits_above_log2 f), andb_false_r; [done|lia|].
    destruct (Z.eq_dec f 0) as [->|]; [cbn; lia|]. apply Z.log2_lt_pow2; [lia|].
    apply Z.lt_le_trans with (2 ^ 32); [lia|apply Z.pow_le_mono_r; lia]. }
  by rewrite <- Z.lxor_lor, <- Z.add_nocarry_lxor, Z.shiftl_mul_pow2 by (done || lia).
Qed.

Lemma encode_parts t : let raw := encodeNTPTimestamp t in
  0 <= raw < two64 /\ u32 (Z.shiftr raw 32) = u32 (Unix t + ntpEpochOffsetSeconds)
  /\ Z.land raw 4294967295 = Z.shiftl (Nanosecond t) 32 / Second.
Proof.
  cbn zeta. unfold encodeNTPTimestamp. set (s := Unix t + ntpEpochOffsetSeconds). set (f := Z.shiftl (Nanosecond t) 32 / Second).
  assert (0 <= f < 4294967296) as F by (apply fraction_round_trip; apply Z.mod_pos_bound; unfold Second; lia).
  assert (u64 (Z.shiftl (u64 s) 32) = Z.shiftl (u32 s) 32) as ->.
  { unfold u64, u32, two64, two32. rewrite !Z.shiftl_mul_pow2 by lia. change (2 ^ 32) with 4294967296.
    set (r := s mod 18446744073709551616). change 18446744073709551616 with (4294967296 * 4294967296).
    rewrite Z.mul_mod_distr_r by lia. f_equal. unfold r.
    pose proof (Z.div_mod s 18446744073709551616 ltac:(lia)). pose proof (Z.mod_pos_bound s 18446744073709551616 ltac:(lia)).
    rewrite (Z.div_mod s 18446744073709551616) at 2 by lia.
    replace (18446744073709551616 * (s / 18446744073709551616)) with (4294967296 * (s / 18446744073709551616) * 4294967296) by lia.
    by rewrite Z.add_comm, Z.mod_add by lia. }
  pose proof (u32_range s) as U. unfold two32 in U.
  assert (Z.lor (Z.shiftl (u32 s) 32) f = u32 s * 4294967296 + f) as ->.
  { by apply lor_shiftl_add. }
  unfold two64. split_and!; [lia|lia| |].
  - rewrite Z.shiftr_div_pow2 by lia. change (2 ^ 32) with 4294967296.
    rewrite Z.div_add_l, (Z.div_small f) by lia. rewrite Z.add_0_r. by apply u32_small.
  - change 4294967295 with (Z.ones 32). rewrite Z.land_ones by lia. change (2 ^ 32) with 4294967296.
    by rewrite Z.add_comm, Z_mod_plus_full, Z.mod_small.
Qed.

(** What a timestamp loses: at most a nanosecond. *)
Lemma decode_encode t pivot : Z.abs (Unix t - Unix pivot) < 2147483648 ->
  let t' := decodeNTPTimestamp (encodeNTPTimestamp t) pivot in
  mono t' = None /\ wall t - 1 <= wall t' <= wall t.
Proof.
  intros N. cbn zeta. destruct (encode_parts t) as (_ & E1 & E2). unfold decodeNTPTimestamp. rewrite E1, E2.
  rewrite nearest_era_eq by lia. unfold time_Unix, at_wall. cbn [mono wall]. split; [done|].
  pose proof (Z.mod_pos_bound (wall t) Second ltac:(unfold Second; lia)) as M.
  destruct (fraction_round_trip (Nanosecond t) M) as [_ F]. unfold Nanosecond in *. unfold Unix.
  pose proof (Z.div_mod (wall t) Second ltac:(unfold Second; lia)). lia.
Qed.

(** C30. A timestamp that goes over the wire comes back: for every time less than 68 years from the
    local clock, in whatever era either is, decoding the 64 bits of its encoding gives the time up
    to the last nanosecond. *)
Theorem ntp_timestamp_round_trip t pivot : Z.abs (Unix t - Unix pivot) < 2147483648 ->
  let raw := be_bytes 8 (encodeNTPTimestamp t) in
  length raw = 8%nat /\ mono (decodeNTPTimestamp (be_value raw) pivot) = None
  /\ wall t - 1 <= wall (decodeNTPTimestamp (be_value raw) pivot) <= wall t.
Proof.
  intros N raw. split; [done|]. unfold raw. rewrite be_value_be_bytes by apply encode_parts. by apply decode_encode.
Qed.

(** ** What an accepted response satisfies *)

Lemma parse_ok source limits request packet t1 t4 sm : parse_response source limits request packet t1 t4 = Ok sm ->
  let t2 := decodeNTPTimestamp (be_value (slice 32 40 packet)) t4 in
  let t3 := decodeNTPTimestamp (be_value (slice 40 48 packet)) t4 in
  sm_Source sm = source /\ equalTimestamp (slice 24 32 packet) (slice 40 48 request) = true
  /\ sm_Stratum sm = byte_at 1 packet /\ sm_Stratum sm <> 0 /\ sm_Stratum sm <= 15
  /\ sm_RTT sm = i64 (Sub t4 t1 - Sub t3 t2) /\ 0 <= sm_RTT sm <= maxRTT limits
  /\ sm_Offset sm = Z.quot (i64 (Sub t2 t1 + Sub t3 t4)) 2 /\ absoluteDuration (sm_Offset sm) <= maxOffset limits
  /\ sm_RootDelay sm = decodeSignedFixed (be_value (slice 4 8 packet)) /\ 0 <= sm_RootDelay sm <= maxRootDelay limits
  /\ sm_RootDispersion sm = decodeUnsignedFixed (be_value (slice 8 12 packet))
  /\ sm_RootDispersion sm <= maxRootDispersion limits
  /\ exists d, positiveDurationSum [Z.quot (sm_RTT sm) 2; Z.quot (sm_RootDelay sm) 2; sm_RootDispersion sm] = (d, false)
       /\ d <= maxRootDistance limits.
Proof.
  intros E t2 t3. unfold parse_response in E. fold t2 t3 in E.
  repeat match type of E with (if ?b then Err _ else _) = _ => destruct b eqn:?; [discriminate E|] end.
  destruct (positiveDurationSum _) as [d o] eqn:S. 
  match type of E with (if ?b then Err _ else _) = _ => destruct b eqn:B; [discriminate E|] end.
  apply orb_false_iff in B as [-> B]. injection E as <-. cbn [sm_Source sm_Offset sm_RTT sm_Stratum sm_RootDelay sm_RootDispersion].
  repeat match goal with H : (_ <? _) = false |- _ => apply Z.ltb_ge in H | H : negb _ = false |- _ => apply negb_false_iff in H end.
  split_and!; try done; try lia. by exists d.
Qed.

Lemma Query_ok c source x sm : Query c source x = Ok sm ->
  let request := ntp_request (xc_t1 x) in
  exists packet, xc_read x request = (packet, None) /\ ntpPacketSize <= Z.of_nat (length packet)
    /\ parse_response source (limits_of c) request packet (xc_t1 x) (xc_t4 x) = Ok sm.
Proof.
  intros E request. unfold Query in E. fold request in E. destruct (xc_dial x _); [done|]. destruct (xc_deadline x); [done|].
  destruct (xc_write x request) as [written [?|]]; [done|]. destruct (negb _); [done|].
  destruct (xc_read x request) as [packet [?|]]; [done|]. destruct (Z.ltb_spec (Z.of_nat (length packet)) ntpPacketSize); [done|].
  by exists packet.
Qed.

Lemma positiveOrDefault_pos d fallback : 0 < fallback -> 0 < positiveOrDefault d fallback.
Proof. unfold positiveOrDefault. destruct (Z.leb_spec d 0); lia. Qed.

Lemma sum_from_exact values : forall total d, 0 <= total <= max_int64 -> Forall (fun v => 0 <= v <= max_int64) values ->
  sum_from total values = (d, false) -> d = fold_left Z.add values total.
Proof.
  induction values as [|v values IH]; cbn [sum_from fold_left]; intros total d T F E; [by injection E as <-|].
  apply Forall_cons in F as [V F]. rewrite i64_small in E by (unfold in_i64, min_int64, max_int64 in *; lia).
  destruct (Z.ltb_spec (max_int64 - total) v) as [|LE]; [done|].
  rewrite i64_small in E by (unfold in_i64, min_int64, max_int64 in *; lia). apply IH in E; [done|lia|done].
Qed.

Lemma decodeUnsignedFixed_range raw : 0 <= raw < two32 -> 0 <= decodeUnsignedFixed raw <= max_int64.
Proof.
  unfold decodeUnsignedFixed, two32, max_int64, Second. intros R. rewrite Z.quot_div_nonneg by lia. split; [apply Z.div_pos; lia|].
  apply Z.div_le_upper_bound; lia.
Qed.

Lemma be_value_range l : Forall (fun b => 0 <= b < 256) l -> 0 <= be_value l < 256 ^ Z.of_nat (length l).
Proof.
  induction l as [|b l IH] using rev_ind; intros F; [cbn; lia|]. apply Forall_app in F as [F B]. apply Forall_cons in B as [B _].
  rewrite be_value_app, length_app. cbn [length be_value fold_left]. rewrite Nat2Z.inj_add, Z.pow_add_r by lia.
  change (256 ^ Z.of_nat 1) with 256. specialize (IH F). lia.
Qed.

Lemma slice_range a b l : Forall (fun b => 0 <= b < 256) l -> Forall (fun b => 0 <= b < 256) (slice a b l).
Proof. intros F. by apply Forall_take, Forall_drop. Qed.

Lemma slice_value_range a b l : (b - a <= 4)%nat -> Forall (fun b => 0 <= b < 256) l -> 0 <= be_value (slice a b l) < two32.
Proof.
  intros W F. pose proof (be_value_range _ (slice_range a b _ F)) as [L U]. split; [done|].
  eapply Z.lt_le_trans; [done|]. change two32 with (256 ^ 4). apply Z.pow_le_mono_r; [lia|].
  unfold slice. rewrite length_take. lia.
Qed.

Lemma be_value_inj l l' : length l = length l' -> Forall (fun b => 0 <= b < 256) l -> Forall (fun b => 0 <= b < 256) l' ->
  be_value l = be_value l' -> l = l'.
Proof.
  revert l'. induction l as [|b l IH] using rev_ind; intros l' LEN F F' E.
  - destruct l'; [done|]. cbn in LEN. lia.
  - destruct l' as [|b' l' _] using rev_ind; [rewrite length_app in LEN; cbn in LEN; lia|].
    rewrite !length_app in LEN. cbn in LEN. apply Forall_app in F as [F [B _]%Forall_cons], F' as [F' [B' _]%Forall_cons].
    rewrite !be_value_app in E. cbn [length be_value fold_left] in E. change (256 ^ Z.of_nat 1) with 256 in E.
    rewrite (IH l'); [f_equal; f_equal; lia|lia|done|done|lia].
Qed.

Lemma equalTimestamp_eq l l' : Forall (fun b => 0 <= b < 256) l -> Forall (fun b => 0 <= b < 256) l' ->
  equalTimestamp l l' = true -> l = l'.
Proof.
  unfold equalTimestamp. intros F F' E. rewrite !andb_true_iff, !Nat.eqb_eq, Z.eqb_eq in E. destruct E as [[L L'] E].
  apply be_value_inj; try done. lia.
Qed.

Lemma request_bytes t : Forall (fun b => 0 <= b < 256) (ntp_request t).
Proof.
  unfold ntp_request. constructor; [lia|]. apply Forall_app. split; [|apply be_bytes_range].
  apply Forall_forall. intros b IN%list_elem_of_In%repeat_spec. lia.
Qed.

(** A reply of bytes, to whatever request. *)
Definition replies_bytes (x : Exchange) : Prop := forall request, Forall (fun b => 0 <= b < 256) (fst (xc_read x request)).

(** An accepted sample answers the request that was sent, within every limit of the client: the
    response echoes the transmit timestamp, the stratum is 1 to 15, round trip and root delay are
    not negative, offset, round trip, root delay and root dispersion are within their limits, and
    so is the root distance, which did not overflow. *)
Lemma ntp_sample_within_limits c source x sm : replies_bytes x -> Query c source x = Ok sm ->
  let limits := limits_of c in
  let request := ntp_request (xc_t1 x) in
  slice 24 32 (fst (xc_read x request)) = slice 40 48 request
  /\ 1 <= sm_Stratum sm <= 15
  /\ 0 <= sm_RTT sm <= maxRTT limits /\ Z.abs (sm_Offset sm) <= maxOffset limits
  /\ 0 <= sm_RootDelay sm <= maxRootDelay limits /\ 0 <= sm_RootDispersion sm <= maxRootDispersion limits
  /\ Z.quot (sm_RTT sm) 2 + Z.quot (sm_RootDelay sm) 2 + sm_RootDispersion sm <= maxRootDistance limits.
Proof.
  intros B Q limits request. apply Query_ok in Q as (packet & R & LEN & E). fold request in R, E. fold limits in E.
  specialize (B request). rewrite R in *. cbn [fst] in *.
  apply parse_ok in E as (_ & EQ & ST & S0 & S15 & QR & RTT & OF & ABS & QD & RD & DI & DL & d & SUM & DD).
  assert (sm_RTT sm <= max_int64) as RM by (rewrite QR; apply i64_range).
  assert (sm_RootDelay sm <= max_int64) as DM.
  { rewrite QD. unfold decodeSignedFixed, int32, max_int64, Second. pose proof (slice_value_range 4 8 packet ltac:(lia) B) as [L U].
    unfold two32 in U. apply Z.quot_le_upper_bound; [lia|]. destruct (Z.ltb_spec (be_value (slice 4 8 packet)) 2147483648); lia. }
  pose proof (decodeUnsignedFixed_range _ (slice_value_range 8 12 packet ltac:(lia) B)) as DR. rewrite <- DI in DR.
  split_and!; try done; try lia.
  - apply equalTimestamp_eq; [by apply slice_range|apply slice_range, request_bytes|done].
  - assert (0 <= sm_Stratum sm) by (rewrite ST; unfold byte_at; destruct (packet !! 1%nat) eqn:L; [|done];
      by apply (Forall_lookup_1 _ _ _ _ B) in L as [? ?]). lia.
  - match type of OF with _ = Z.quot (i64 ?e) 2 => pose proof (i64_range e) as IR; set (y := i64 e) in * end.
    pose proof (Z.quot_rem y 2 ltac:(lia)). pose proof (Z.rem_bound_abs y 2 ltac:(lia)).
    unfold absoluteDuration, in_i64, min_int64, max_int64 in *.
    destruct (Z.eqb_spec (sm_Offset sm) (-9223372036854775808)); [lia|]. destruct (Z.ltb_spec (sm_Offset sm) 0); lia.
  - pose proof (Z.quot_pos (sm_RTT sm) 2 ltac:(lia) ltac:(lia)). pose proof (Z.quot_pos (sm_RootDelay sm) 2 ltac:(lia) ltac:(lia)).
    pose proof (Z.quot_le_mono (sm_RTT sm) max_int64 2 ltac:(lia) RM).
    pose proof (Z.quot_le_mono (sm_RootDelay sm) max_int64 2 ltac:(lia) DM).
    apply sum_from_exact in SUM; [cbn in SUM; lia|unfold max_int64; lia|].
    change (Z.quot max_int64 2) with 4611686018427387903 in *. unfold max_int64 in *. repeat constructor; lia.
Qed.

(** ** Accuracy

    An exchange with a server whose clock is [theta] ahead of the local one:
    in real nanoseconds the request leaves at [r1], arrives at [r2], the reply
    leaves at [r3] and arrives at [r4]; the local clock shows [base] more than
    real time, and its monotonic reading is real time plus [start]. *)

Record honest_exchange (x : Exchange) (base start theta r1 r2 r3 r4 : Z) : Prop := {
  hx_order : r1 <= r2 <= r3 /\ r3 <= r4;
  hx_duration : r4 - r1 <= 536870912 * Second;
  hx_theta : Z.abs theta <= 1073741824 * Second;
  hx_t1 : xc_t1 x = at_mono (r1 + base) (r1 + start);
  hx_t4 : xc_t4 x = at_mono (r4 + base) (r4 + start);
  hx_receive : slice 32 40 (fst (xc_read x (ntp_request (xc_t1 x)))) = be_bytes 8 (encodeNTPTimestamp (at_wall (r2 + base + theta)));
  hx_transmit : slice 40 48 (fst (xc_read x (ntp_request (xc_t1 x)))) = be_bytes 8 (encodeNTPTimestamp (at_wall (r3 + base + theta))) }.

Lemma Unix_close t u d : Z.abs (wall t - wall u) <= d * Second -> Z.abs (Unix t - Unix u) <= d + 1.
Proof.
  unfold Unix, Second. intros H. pose proof (Z.div_mod (wall t) 1000000000 ltac:(lia)). pose proof (Z.div_mod (wall u) 1000000000 ltac:(lia)).
  pose proof (Z.mod_pos_bound (wall t) 1000000000 ltac:(lia)). pose proof (Z.mod_pos_bound (wall u) 1000000000 ltac:(lia)). lia.
Qed.

(** What the client reads of a server time. *)
Lemma server_time raw w pivot : raw = be_bytes 8 (encodeNTPTimestamp (at_wall w)) -> Z.abs (w - wall pivot) <= 2147483646 * Second ->
  mono (decodeNTPTimestamp (be_value raw) pivot) = None /\ w - 1 <= wall (decodeNTPTimestamp (be_value raw) pivot) <= w.
Proof.
  intros -> C. rewrite be_value_be_bytes by apply encode_parts. apply (decode_encode (at_wall w) pivot).
  pose proof (Unix_close (at_wall w) pivot 2147483646 C). lia.
Qed.

Lemma Sub_walls t u : mono t = None \/ mono u = None -> in_i64 (wall t - wall u) -> Sub t u = wall t - wall u.
Proof.
  unfold Sub, TimeSub, in_i64. intros [-> | ->] R; [lia|]. destruct (mono t); lia.
Qed.

(** The offset that an honest exchange measures is the offset of the server, up to half the round
    trip: whatever time each packet takes, however asymmetric the way, and whatever the era, the
    measured offset is within half the measured round trip, and two nanoseconds of rounding, of the
    true one, and the measured round trip is the time on the way up to a nanosecond. *)
Lemma ntp_offset_accurate c source x sm base start theta r1 r2 r3 r4 :
  honest_exchange x base start theta r1 r2 r3 r4 -> Query c source x = Ok sm ->
  2 * Z.abs (sm_Offset sm - theta) <= sm_RTT sm + 4 /\ Z.abs (sm_RTT sm - ((r2 - r1) + (r4 - r3))) <= 1.
Proof.
  intros [O D TH T1 T4 RC TX] Q. apply Query_ok in Q as (packet & R & _ & E). rewrite R in RC, TX. cbn [fst] in *.
  apply parse_ok in E as (_ & _ & _ & _ & _ & QR & _ & OF & _). rewrite T1, T4 in *. set (t4 := at_mono (r4 + base) (r4 + start)) in *.
  unfold Second in *.
  destruct (server_time _ _ t4 RC) as [N2 W2]; [cbn; unfold Second; lia|].
  destruct (server_time _ _ t4 TX) as [N3 W3]; [cbn; unfold Second; lia|].
  set (t2 := decodeNTPTimestamp (be_value (slice 32 40 packet)) t4) in *.
  set (t3 := decodeNTPTimestamp (be_value (slice 40 48 packet)) t4) in *.
  clearbody t2 t3. assert (Sub t4 (at_mono (r1 + base) (r1 + start)) = r4 - r1) as S41.
  { unfold Sub, t4, TimeSub, min_int64, max_int64. cbn. lia. }
  rewrite S41 in QR.
  rewrite (Sub_walls t3 t2) in QR by (auto || (unfold in_i64, min_int64, max_int64; lia)).
  rewrite (Sub_walls t2), (Sub_walls t3) in OF by (auto || (unfold in_i64, min_int64, max_int64, t4; cbn; lia)).
  unfold t4, at_mono in OF. cbn [wall] in OF.
  rewrite i64_small in QR by (unfold in_i64, min_int64, max_int64; lia).
  rewrite i64_small in OF by (unfold in_i64, min_int64, max_int64; lia).
  match type of OF with _ = Z.quot ?y 2 => pose proof (Z.quot_rem y 2 ltac:(lia)); pose proof (Z.rem_bound_abs y 2 ltac:(lia)) end.
  rewrite <- OF in *. lia.
Qed.
