(* ===== verification/TimeSync.v ===== *)
(** * Choosing a time source (internal/timekeeper/service.go, first half)

    The configuration, the measurement of a source, and the choice among
    measurements: the largest group of sources that agree, and in it the
    fastest. *)

From S2P Require Import Prelude GoText Ntp.
From stdpp Require Import sorting.

Open Scope string_scope.
Open Scope list_scope.
Open Scope Z_scope.
Open Scope go_scope.

(** ** Configuration *)

Record Config := {
  cf_Enabled : bool; cf_Sources : list string; cf_ReselectInterval : Duration; cf_SyncInterval : Duration;
  cf_QueryTimeout : Duration; cf_MaxAcceptedOffset : Duration; cf_MaxRootDispersion : Duration;
  cf_SamplesPerSource : Z; cf_ConsistencyThreshold : Duration }.

Definition DefaultQueryTimeout : Duration := 2 * Second.
Definition DefaultMaxAcceptedOffset : Duration := 5 * Minute.
Definition DefaultMaxRootDispersion : Duration := 2 * Second.

Definition or_default (d fallback : Duration) : Duration := if d =? 0 then fallback else d.

(** The sources, trimmed, without empty ones and repetitions. *)
Fixpoint distinct_sources (seen : gset string) (sources : list string) : list string :=
  match sources with
  | [] => []
  | source :: sources =>
      let source := TrimSpace source in
      if String.eqb source "" || bool_decide (source ∈ seen) then distinct_sources seen sources
      else source :: distinct_sources ({[source]} ∪ seen) sources
  end.

Definition normalizeConfig (c : Config) : result string Config :=
  let c := {| cf_Enabled := cf_Enabled c; cf_Sources := cf_Sources c; cf_ReselectInterval := cf_ReselectInterval c;
              cf_SyncInterval := cf_SyncInterval c; cf_QueryTimeout := or_default (cf_QueryTimeout c) DefaultQueryTimeout;
              cf_MaxAcceptedOffset := or_default (cf_MaxAcceptedOffset c) DefaultMaxAcceptedOffset;
              cf_MaxRootDispersion := or_default (cf_MaxRootDispersion c) DefaultMaxRootDispersion;
              cf_SamplesPerSource := cf_SamplesPerSource c; cf_ConsistencyThreshold := cf_ConsistencyThreshold c |} in
  return Err "invalid timekeeper configuration" when
    (cf_ReselectInterval c <? 0) || (cf_SyncInterval c <? 0) || (cf_QueryTimeout c <? 0) || (cf_MaxAcceptedOffset c <? 0)
    || (cf_MaxRootDispersion c <? 0) || (cf_SamplesPerSource c <? 0) || (cf_ConsistencyThreshold c <? 0) ;;
  let sources := distinct_sources ∅ (cf_Sources c) in
  let c := {| cf_Enabled := cf_Enabled c; cf_Sources := sources; cf_ReselectInterval := cf_ReselectInterval c;
              cf_SyncInterval := cf_SyncInterval c; cf_QueryTimeout := cf_QueryTimeout c;
              cf_MaxAcceptedOffset := cf_MaxAcceptedOffset c; cf_MaxRootDispersion := cf_MaxRootDispersion c;
              cf_SamplesPerSource := cf_SamplesPerSource c; cf_ConsistencyThreshold := cf_ConsistencyThreshold c |} in
  return Ok c when negb (cf_Enabled c) ;;
  return Err "at least one NTP source is required" when match sources with [] => true | _ => false end ;;
  return Err "NTP reselect and sync intervals are required" when (cf_ReselectInterval c <=? 0) || (cf_SyncInterval c <=? 0) ;;
  return Err "NTP sampling and consistency settings are required" when
    (cf_SamplesPerSource c <? 1) || (cf_ConsistencyThreshold c <=? 0) ;;
  Ok c.

Definition selectionMaterialChanged (previous next : Config) : bool :=
  negb (Bool.eqb (cf_Enabled previous) (cf_Enabled next))
  || negb (bool_decide (cf_Sources previous = cf_Sources next))
  || negb (cf_MaxAcceptedOffset previous =? cf_MaxAcceptedOffset next)
  || negb (cf_MaxRootDispersion previous =? cf_MaxRootDispersion next)
  || negb (cf_ConsistencyThreshold previous =? cf_ConsistencyThreshold next)
  || negb (cf_SamplesPerSource previous =? cf_SamplesPerSource next)
  || negb (cf_QueryTimeout previous =? cf_QueryTimeout next).

(** ** Samples of a source *)

(** A query, given what the client answers before the timeout: [None] is an
    error or a timeout. *)
Definition query (c : Config) (answer : option Sample) : option Sample :=
  match answer with
  | None => None
  | Some sample =>
      return None when (sm_Offset sample <? - cf_MaxAcceptedOffset c) || (cf_MaxAcceptedOffset c <? sm_Offset sample) ;;
      return None when (sm_RootDispersion sample <? 0) || (cf_MaxRootDispersion c <? sm_RootDispersion sample) ;;
      Some sample
  end.

Record sourceMeasurement := { me_source : string; me_offset : Duration; me_rtt : Duration; me_stratum : Z }.

#[global] Instance sourceMeasurement_eq_dec : EqDecision sourceMeasurement.
Proof. solve_decision. Defined.

Definition durationDistance (a b : Duration) : Duration := if b <=? a then i64 (a - b) else i64 (b - a).

Definition medianDuration (values : list Duration) : Duration :=
  let sorted := merge_sort Z.le values in
  let middle := (length sorted / 2)%nat in
  let at_ i := default 0 (sorted !! i) in
  if (length sorted mod 2 =? 1)%nat then at_ middle
  else i64 (at_ (middle - 1)%nat + Z.quot (i64 (at_ middle - at_ (middle - 1)%nat)) 2).

(** The sample nearest to the median, and of two the faster. *)
Definition nearer (offset : Duration) (representative sample : Sample) : Sample :=
  let currentDistance := durationDistance (sm_Offset representative) offset in
  let candidateDistance := durationDistance (sm_Offset sample) offset in
  if (candidateDistance <? currentDistance)
     || ((candidateDistance =? currentDistance) && (sm_RTT sample <? sm_RTT representative))
  then sample else representative.

(** [answers] are those of the queries that were made: as many as configured,
    or fewer when the context ended. *)
Definition measureSource (c : Config) (source : string) (answers : list (option Sample)) : option sourceMeasurement :=
  let samples := omap (query c) (take (Z.to_nat (cf_SamplesPerSource c)) answers) in
  return None when Z.of_nat (length samples) <? Z.quot (cf_SamplesPerSource c) 2 + 1 ;;
  match samples with
  | [] => None
  | first :: rest =>
      let offset := medianDuration (map sm_Offset samples) in
      let representative := fold_left (nearer offset) rest first in
      Some {| me_source := source; me_offset := offset; me_rtt := medianDuration (map sm_RTT samples);
              me_stratum := sm_Stratum representative |}
  end.

(** ** The largest group that agrees *)

(** The orders by offset and by round trip; ties go to the source. *)
Definition ordered_by (f : sourceMeasurement -> Duration) (a b : sourceMeasurement) : Prop :=
  f a < f b \/ (f a = f b /\ (me_source a ≤ me_source b)%string).

#[global] Instance ordered_by_dec f : RelDecision (ordered_by f).
Proof. intros a b. unfold ordered_by. apply _. Defined.

Abbreviation by_offset := (ordered_by me_offset).
Abbreviation by_rtt := (ordered_by me_rtt).

Definition rtt_total (l : list sourceMeasurement) : Duration := fold_left (fun total m => i64 (total + me_rtt m)) l 0.

Definition lowerRTTTotal (candidate current : list sourceMeasurement) : bool := rtt_total candidate <? rtt_total current.

Definition offset_at (sorted : list sourceMeasurement) (i : nat) : Duration := from_option me_offset 0 (sorted !! i).

(** The elements from index [s] to index [e]. *)
Definition window (sorted : list sourceMeasurement) (s e : nat) : list sourceMeasurement := take (S e - s) (drop s sorted).

(** The inner loop; [n] bounds its rounds. *)
Fixpoint advance (n : nat) (sorted : list sourceMeasurement) (threshold : Duration) (e start : nat) : nat :=
  match n with
  | O => start
  | S n =>
      if (start <? e)%nat && (threshold <? durationDistance (offset_at sorted e) (offset_at sorted start))
      then advance n sorted threshold e (S start) else start
  end.

(** A round of the outer loop, on start, bestStart and bestEnd. *)
Definition slide (sorted : list sourceMeasurement) (threshold : Duration) (st : nat * nat * nat) (e : nat) : nat * nat * nat :=
  let '(start, bestStart, bestEnd) := st in
  let start := advance (e - start) sorted threshold e start in
  if (bestEnd - bestStart <? e - start)%nat
     || ((e - start =? bestEnd - bestStart)%nat && lowerRTTTotal (window sorted start e) (window sorted bestStart bestEnd))
  then (start, start, e) else (start, bestStart, bestEnd).

Definition consistentMeasurements (measurements : list sourceMeasurement) (threshold : Duration) : list sourceMeasurement :=
  return [] when (length measurements <? 2)%nat ;;
  let sorted := merge_sort by_offset measurements in
  let '(_, bestStart, bestEnd) := fold_left (slide sorted threshold) (seq 0 (length sorted)) (0, 0, 0)%nat in
  return [] when (bestEnd - bestStart + 1 <? 2)%nat ;;
  window sorted bestStart bestEnd.

(** What the errors of a synchronization say in public. *)
#[warnings="-register-all"]
Inductive SyncErr :=
| ErrSyncInProgress | ErrNoUsableSource | ErrDisabled | ErrServiceRunning | ErrConfigurationChanged.

#[global] Instance SyncErr_eq_dec : EqDecision SyncErr.
Proof. solve_decision. Defined.

(** [ReselectNow]: the primary and the backup among the measurements. *)
Definition select (measurements : list sourceMeasurement) (threshold : Duration) : option (sourceMeasurement * string) :=
  match merge_sort by_rtt (consistentMeasurements measurements threshold) with
  | [] => None
  | primary :: rest => Some (primary, match rest with backup :: _ => me_source backup | [] => "" end)
  end.

(** [SyncNow]: which measurement of the selected sources is taken. *)
Definition chooseSyncMeasurement (measurements : list sourceMeasurement) (previousOffset : Duration)
    (previouslySynced : bool) (threshold : Duration) : result SyncErr sourceMeasurement :=
  match measurements with
  | [] => Err ErrNoUsableSource
  | [candidate] =>
      return Err ErrNoUsableSource when
        previouslySynced && (threshold <? durationDistance (me_offset candidate) previousOffset) ;;
      Ok candidate
  | _ =>
      match merge_sort by_rtt (consistentMeasurements measurements threshold) with
      | [] => Err ErrNoUsableSource
      | chosen :: _ => Ok chosen
      end
  end.

(** ** Sorted measurements *)

#[global] Instance ordered_by_trans f : Transitive (ordered_by f).
Proof.
  intros a b c [L|[E S]] [L'|[E' S']]; [left; lia|left; lia|left; lia|right]. split; [lia|by etrans].
Qed.

#[global] Instance ordered_by_total f : Total (ordered_by f).
Proof.
  intros a b. destruct (Z.lt_trichotomy (f a) (f b)) as [L|[E|L]]; [by left; left| |by right; left].
  destruct (total String.le (me_source a) (me_source b)); [left|right]; by right.
Qed.

Lemma ordered_by_le f a b : ordered_by f a b -> f a <= f b.
Proof. intros [?|[? _]]; lia. Qed.

(** Offsets of less than 146 years, so that their distances fit. *)
Definition near (l : list sourceMeasurement) : Prop :=
  Forall (fun m => - 4611686018427387904 < me_offset m < 4611686018427387904) l.

Lemma distance_abs a b : - 4611686018427387904 < a < 4611686018427387904 ->
  - 4611686018427387904 < b < 4611686018427387904 -> durationDistance a b = Z.abs (a - b).
Proof.
  intros A B. unfold durationDistance. destruct (Z.leb_spec b a); rewrite i64_small by (unfold in_i64, min_int64, max_int64; lia); lia.
Qed.

Lemma StronglySorted_lookup {A} (R : relation A) l i j a b : StronglySorted R l -> l !! i = Some a -> l !! j = Some b ->
  (i < j)%nat -> R a b.
Proof.
  intros S. revert i j. induction S as [|x l S IH F]; intros i j LA LB LT; [done|].
  destruct j as [|j]; [lia|]. destruct i as [|i]; cbn in *; [|by apply (IH i j); auto with lia].
  injection LA as ->. by apply (Forall_lookup_1 _ _ _ _ F LB).
Qed.

Section Window.
Context (l : list sourceMeasurement) (threshold : Duration).
Context (sorted : StronglySorted by_offset l) (N : near l) (T : 0 <= threshold).

Lemma offset_at_lookup i m : l !! i = Some m -> offset_at l i = me_offset m.
Proof. unfold offset_at. by intros ->. Qed.

Lemma offset_at_near i : - 4611686018427387904 < offset_at l i < 4611686018427387904.
Proof.
  unfold offset_at. destruct (l !! i) eqn:L; cbn; [|lia]. by apply (Forall_lookup_1 _ _ _ _ N L).
Qed.

Lemma offset_at_mono i j : (i <= j < length l)%nat -> offset_at l i <= offset_at l j.
Proof.
  intros R. destruct (decide (i = j)) as [->|]; [lia|].
  destruct (lookup_lt_is_Some_2 l i ltac:(lia)) as [a A], (lookup_lt_is_Some_2 l j ltac:(lia)) as [b B].
  rewrite (offset_at_lookup _ _ A), (offset_at_lookup _ _ B). apply (ordered_by_le me_offset).
  eapply StronglySorted_lookup; [done|done|done|lia].
Qed.

Lemma distance_offset_at s e : (s <= e < length l)%nat -> durationDistance (offset_at l e) (offset_at l s) = offset_at l e - offset_at l s.
Proof.
  intros R. rewrite distance_abs by apply offset_at_near. pose proof (offset_at_mono s e R). lia.
Qed.

(** Everything before [start] is too far below the end. *)
Definition leftmost (e start : nat) : Prop :=
  (start <= e)%nat /\ offset_at l e - offset_at l start <= threshold
  /\ forall i, (i < start)%nat -> threshold < offset_at l e - offset_at l i.

Lemma advance_leftmost e : (e < length l)%nat -> forall n start, (start <= e)%nat -> (e - start <= n)%nat ->
  (forall i, (i < start)%nat -> threshold < offset_at l e - offset_at l i) ->
  leftmost e (advance n l threshold e start).
Proof.
  intros E n. induction n as [|n IH]; cbn [advance]; intros start LE FU B.
  - replace start with e in * by lia. split_and!; [done|lia|done].
  - destruct (Nat.ltb_spec start e) as [LT|GE]; cbn [andb].
    + rewrite distance_offset_at by lia. destruct (Z.ltb_spec threshold (offset_at l e - offset_at l start)).
      * apply IH; [lia|lia|]. intros i I. destruct (decide (i = start)) as [->|]; [done|]. apply B. lia.
      * split_and!; [lia|lia|done].
    + replace start with e in * by lia. split_and!; [done|lia|done].
Qed.
Lemma leftmost_unique e s s' : leftmost e s -> leftmost e s' -> s = s'.
Proof.
  intros (L & W & B) (L' & W' & B'). destruct (Nat.lt_trichotomy s s') as [X|[X|X]]; [|done|].
  - specialize (B' _ X). lia.
  - specialize (B _ X). lia.
Qed.

(** The best window among those that end before [k]. *)
Definition best_before (k : nat) (st : nat * nat * nat) : Prop :=
  let '(start, bestStart, bestEnd) := st in
  (start <= k)%nat /\ (forall i, (i < start)%nat -> (k < length l)%nat -> threshold < offset_at l k - offset_at l i)
  /\ (bestEnd < k)%nat /\ leftmost bestEnd bestStart
  /\ forall e s, (e < k)%nat -> leftmost e s -> (e - s <= bestEnd - bestStart)%nat
       /\ ((e - s = bestEnd - bestStart)%nat -> rtt_total (window l bestStart bestEnd) <= rtt_total (window l s e)).

Lemma next_start start k : (start <= k)%nat -> (forall i, (i < start)%nat -> threshold < offset_at l k - offset_at l i) ->
  forall i, (i < start)%nat -> (S k < length l)%nat -> threshold < offset_at l (S k) - offset_at l i.
Proof.
  intros LE B i I LT. specialize (B i I). pose proof (offset_at_mono k (S k) ltac:(lia)). lia.
Qed.

Lemma slide_best k st : (k < length l)%nat -> best_before k st -> best_before (S k) (slide l threshold st k).
Proof.
  destruct st as [[start bs] be]. intros K (LE & B & BE & LB & BEST). unfold slide.
  assert (leftmost k (advance (k - start) l threshold k start)) as LM by (apply advance_leftmost; auto).
  set (s := advance (k - start) l threshold k start) in *. pose proof LM as (LS & WS & BS).
  assert (forall e s', (e < S k)%nat -> leftmost e s' -> (e < k)%nat \/ (e = k /\ s' = s)) as CASES.
  { intros e s' E L. destruct (decide (e = k)) as [->|]; [right|left; lia]. split; [done|by eapply leftmost_unique]. }
  destruct ((be - bs <? k - s)%nat || _) eqn:C; cbn [best_before]; split_and!; try lia; try done.
  1,3: by apply next_start.
  - intros e s' E L. destruct (CASES e s' E L) as [LT|[-> ->]]; [|split; lia].
    destruct (BEST e s' LT L) as [W R]. apply orb_true_iff in C as [C%Nat.ltb_lt|C]; [split; lia|].
    apply andb_true_iff in C as [C1 C2]. apply Nat.eqb_eq in C1. unfold lowerRTTTotal in C2. apply Z.ltb_lt in C2. split; [lia|].
    intros EQ. specialize (R ltac:(lia)). lia.
  - apply orb_false_iff in C as [C1 C2]. apply Nat.ltb_ge in C1. intros e s' E L.
    destruct (CASES e s' E L) as [LT|[-> ->]]; [by apply BEST|]. split; [done|]. intros EQ.
    rewrite (proj2 (Nat.eqb_eq _ _)) in C2 by done. cbn in C2. unfold lowerRTTTotal in C2. by apply Z.ltb_ge in C2.
Qed.

Lemma slide_all : (0 < length l)%nat ->
  best_before (length l) (fold_left (slide l threshold) (seq 0 (length l)) (0, 0, 0)%nat).
Proof.
  intros P. assert (forall k, (0 < k <= length l)%nat -> best_before k (fold_left (slide l threshold) (seq 0 k) (0, 0, 0)%nat)) as H.
  { induction k as [|k IH]; intros R; [lia|]. rewrite seq_S, fold_left_app. cbn [fold_left]. rewrite Nat.add_0_l.
    destruct k as [|k]; [|apply slide_best; [lia|apply IH; lia]].
    cbn. unfold lowerRTTTotal. rewrite Z.ltb_irrefl. assert (leftmost 0 0) as L by (split_and!; [done|lia|lia]).
    split_and!; try lia; try done. intros e s E M. assert (e = 0%nat) as -> by lia.
    rewrite (leftmost_unique 0 s 0) by done. split; [done|lia]. }
  apply H. lia.
Qed.
End Window.

(** Whatever the window is, it is part of the measurements. *)
Lemma consistent_submseteq ms threshold : consistentMeasurements ms threshold ⊆+ ms.
Proof.
  unfold consistentMeasurements. destruct (_ <? 2)%nat; [apply submseteq_nil_l|].
  destruct (fold_left _ _ _) as [[start bs] be]. destruct (_ <? 2)%nat; [apply submseteq_nil_l|].
  etrans; [|apply Permutation_submseteq, (merge_sort_Permutation by_offset)].
  unfold window. apply sublist_submseteq. etrans; [apply sublist_take|apply sublist_drop].
Qed.

(** ** The largest group *)

Definition agree (threshold : Duration) (l : list sourceMeasurement) : Prop :=
  forall a b, a ∈ l -> b ∈ l -> Z.abs (me_offset a - me_offset b) <= threshold.

Definition rtt_sum (l : list sourceMeasurement) : Z := foldr (fun m total => me_rtt m + total) 0 l.

(** Round trips that are not negative and can be added up. *)
Definition fast (l : list sourceMeasurement) : Prop := Forall (fun m => 0 <= me_rtt m) l /\ rtt_sum l <= max_int64.

#[global] Instance rtt_sum_perm : Proper ((≡ₚ) ==> (=)) rtt_sum.
Proof. intros l l' P. unfold rtt_sum. induction P; cbn; lia. Qed.

Lemma rtt_sum_app l l' : rtt_sum (l ++ l') = rtt_sum l + rtt_sum l'.
Proof. unfold rtt_sum. induction l; cbn; lia. Qed.

Lemma rtt_sum_nonneg l : Forall (fun m => 0 <= me_rtt m) l -> 0 <= rtt_sum l.
Proof. unfold rtt_sum. induction 1; cbn; lia. Qed.

Lemma fast_submseteq k l : k ⊆+ l -> fast l -> fast k.
Proof.
  intros (r & P)%submseteq_Permutation [F S]. rewrite P in F, S. apply Forall_app in F as [F F'].
  rewrite rtt_sum_app in S. pose proof (rtt_sum_nonneg _ F'). split; [done|lia].
Qed.

Lemma rtt_total_sum l : fast l -> rtt_total l = rtt_sum l.
Proof.
  unfold rtt_total. intros [F S].
  cut (forall t, 0 <= t -> t + rtt_sum l <= max_int64 -> fold_left (fun total m => i64 (total + me_rtt m)) l t = t + rtt_sum l).
  { intros H. by apply (H 0). }
  clear S. induction F as [|m l M F IH]; intros t P S; [cbn; lia|]. cbn [fold_left rtt_sum foldr] in *.
  fold (rtt_sum l) in *. pose proof (rtt_sum_nonneg _ F). change (me_rtt m + rtt_sum l) with (rtt_sum (m :: l)) in S. cbn in S. fold (rtt_sum l) in S.
  rewrite i64_small by (unfold in_i64, min_int64, max_int64 in *; lia). rewrite IH by lia. cbn. fold (rtt_sum l). lia.
Qed.

Lemma omap_lookup_seq {A} (l : list A) : forall n s, omap (fun i => l !! i) (seq s n) = take n (drop s l).
Proof.
  induction n as [|n IH]; intros s; [done|]. cbn [seq omap list_omap]. rewrite IH.
  destruct (l !! s) as [x|] eqn:L; [by rewrite (drop_S l x s)|].
  apply lookup_ge_None in L. rewrite !drop_ge by lia. by rewrite !take_nil.
Qed.

Lemma window_omap l s e : window l s e = omap (fun i => l !! i) (seq s (S e - s)).
Proof. by rewrite omap_lookup_seq. Qed.

Lemma window_length l s e : (e < length l)%nat -> (s <= e)%nat -> length (window l s e) = (S e - s)%nat.
Proof. intros E S. unfold window. rewrite length_take, length_drop. lia. Qed.

Lemma window_submseteq l s e : window l s e ⊆+ l.
Proof. unfold window. apply sublist_submseteq. etrans; [apply sublist_take|apply sublist_drop]. Qed.

(** The places of the elements of a part of a list. *)
Lemma submseteq_places {A} (k l : list A) : k ⊆+ l ->
  exists ps, NoDup ps /\ Forall (fun i => i < length l)%nat ps /\ length ps = length k /\ k = omap (fun i => l !! i) ps.
Proof.
  intros (r & P)%submseteq_Permutation. symmetry in P. apply Permutation_inj in P as (LEN & f & INJ & L).
  exists (f <$> seq 0 (length k)). split_and!.
  - apply NoDup_fmap_2; [done|apply NoDup_seq].
  - apply Forall_fmap, Forall_seq. intros i [_ LT]. cbn. apply lookup_lt_is_Some. rewrite <- L. apply lookup_lt_is_Some.
    rewrite length_app. lia.
  - by rewrite length_fmap, length_seq.
  - assert (forall ps, omap (fun i => l !! i) (f <$> ps) = omap (fun i => (k ++ r) !! i) ps) as ->.
    { induction ps as [|i ps IH]; [done|]. cbn. rewrite L. by rewrite <- IH. }
    rewrite omap_lookup_seq, drop_0, take_app_length. done.
Qed.

(** A group that agrees lies in the window that ends with its last place. *)
Lemma group_in_window l threshold k : StronglySorted by_offset l -> near l -> 0 <= threshold ->
  k ⊆+ l -> agree threshold k -> k <> [] ->
  exists e s, (e < length l)%nat /\ leftmost l threshold e s /\ (length k <= S e - s)%nat
    /\ (length k = (S e - s)%nat -> k ≡ₚ window l s e).
Proof.
  intros SO N T SUB AG NE. destruct (submseteq_places _ _ SUB) as (ps & ND & F & LEN & K).
  destruct ps as [|i0 ps0]; [destruct k; done|]. set (ps := i0 :: ps0) in *.
  assert (exists e, e ∈ ps /\ Forall (fun i => i <= e)%nat ps) as (e & IN & MAX).
  { clear -ps. unfold ps. clear ps. revert i0. induction ps0 as [|j ps0 IH]; intros i0.
    - exists i0. split; [left|by repeat constructor].
    - destruct (IH j) as (e & IN & M). destruct (Nat.le_gt_cases i0 e).
      + exists e. split; [by right|by constructor].
      + exists i0. split; [left|]. constructor; [done|]. eapply Forall_impl; [done|]. cbn. lia. }
  rewrite Forall_forall in F, MAX. pose proof (F e IN) as EL. exists e.
  pose proof (advance_leftmost l threshold SO N T e EL e 0 ltac:(lia) ltac:(lia) ltac:(lia)) as LM.
  set (s := advance e l threshold e 0) in *. exists s. pose proof LM as (SE & _ & B).
  assert (forall i, i ∈ ps -> i ∈ seq s (S e - s)) as IS.
  { intros i I. apply elem_of_seq. specialize (MAX i I). destruct (Nat.lt_ge_cases i s) as [LT|]; [|lia]. specialize (B i LT).
    destruct (lookup_lt_is_Some_2 l i (F i I)) as [a A], (lookup_lt_is_Some_2 l e EL) as [b E].
    rewrite (offset_at_lookup _ _ _ A), (offset_at_lookup _ _ _ E) in B.
    assert (forall j x, j ∈ ps -> l !! j = Some x -> x ∈ k) as M.
    { intros j x J X. rewrite K. apply list_elem_of_omap. by exists j. }
    specialize (AG b a (M _ _ IN E) (M _ _ I A)). lia. }
  assert (ps ⊆+ seq s (S e - s)) as SM by by apply NoDup_submseteq.
  pose proof (submseteq_length _ _ SM) as LE. rewrite length_seq in LE. split_and!; [done|done|lia|].
  intros EQ. rewrite K, window_omap. apply omap_Permutation. apply submseteq_length_Permutation; [done|]. rewrite length_seq. lia.
Qed.

Lemma merge_sort_sorted f l : StronglySorted (ordered_by f) (merge_sort (ordered_by f) l).
Proof. apply StronglySorted_merge_sort; apply _. Qed.

Lemma near_perm l l' : l ≡ₚ l' -> near l -> near l'.
Proof. unfold near. by intros ->. Qed.

Lemma agree_nil threshold : agree threshold [].
Proof. intros a b IN. by apply list_elem_of_In in IN. Qed.

Lemma window_agree l threshold s e : StronglySorted by_offset l -> near l -> (e < length l)%nat -> leftmost l threshold e s ->
  agree threshold (window l s e).
Proof.
  intros SO N E (LE & W & _) a b IA IB.
  assert (forall x, x ∈ window l s e -> exists i, (s <= i <= e)%nat /\ offset_at l i = me_offset x) as P.
  { intros x. rewrite window_omap. intros (i & I & L)%list_elem_of_omap. apply elem_of_seq in I. exists i.
    split; [lia|by apply offset_at_lookup]. }
  destruct (P a IA) as (i & I & <-), (P b IB) as (j & J & <-).
  pose proof (offset_at_mono l SO s i ltac:(lia)). pose proof (offset_at_mono l SO i e ltac:(lia)).
  pose proof (offset_at_mono l SO s j ltac:(lia)). pose proof (offset_at_mono l SO j e ltac:(lia)). lia.
Qed.

Lemma agreeing_group ms threshold : near ms -> fast ms -> 0 <= threshold ->
  let r := consistentMeasurements ms threshold in
  r ⊆+ ms /\ agree threshold r /\ (r = [] \/ (2 <= length r)%nat)
  /\ forall k, k ⊆+ ms -> agree threshold k -> (2 <= length k)%nat ->
       (length k <= length r)%nat /\ (length k = length r -> rtt_sum r <= rtt_sum k).
Proof.
  intros N FA T r. unfold r, consistentMeasurements. destruct (Nat.ltb_spec (length ms) 2) as [SH|LG].
  { split_and!; [apply submseteq_nil_l|apply agree_nil|by left|]. intros k ?%submseteq_length. lia. }
  pose proof (merge_sort_Permutation by_offset ms) as P. pose proof (merge_sort_sorted me_offset ms) as SO.
  set (l := merge_sort by_offset ms) in *. clearbody l. pose proof (near_perm _ _ (symmetry P) N) as NL.
  pose proof (Permutation_length P) as LEN. pose proof (slide_all l threshold SO NL T ltac:(lia)) as BEST.
  destruct (fold_left _ _ _) as [[start bs] be]. destruct BEST as (_ & _ & BE & LM & BEST). pose proof LM as (LE & _ & _).
  assert (forall k, k ⊆+ ms -> agree threshold k -> (2 <= length k)%nat -> (length k <= be - bs + 1)%nat
    /\ ((length k = be - bs + 1)%nat -> rtt_total (window l bs be) <= rtt_sum k)) as OPT.
  { intros k SUB AG TWO. rewrite <- P in SUB.
    destruct (group_in_window l threshold k SO NL T SUB AG) as (e & s & E & L & LK & EQ); [intros ->; cbn in TWO; lia|].
    destruct (BEST e s E L) as [W R]. pose proof L as (SE & _ & _). split; [lia|]. intros K.
    rewrite (EQ ltac:(lia)). rewrite <- (rtt_total_sum (window l s e)); [apply R; lia|].
    apply (fast_submseteq _ ms); [|done]. rewrite <- P. apply window_submseteq. }
  destruct (Nat.ltb_spec (be - bs + 1) 2) as [ONE|MANY].
  - split_and!; [apply submseteq_nil_l|apply agree_nil|by left|]. intros k SUB AG TWO.
    destruct (OPT k SUB AG TWO). lia.
  - rewrite window_length by lia. split_and!.
    + rewrite <- P. apply window_submseteq.
    + by apply window_agree.
    + right. lia.
    + intros k SUB AG TWO. destruct (OPT k SUB AG TWO) as [L R]. split; [lia|]. intros EQ.
      rewrite <- (rtt_total_sum (window l bs be)); [apply R; lia|]. apply (fast_submseteq _ ms); [|done].
      rewrite <- P. apply window_submseteq.
Qed.

(** C29. The choice among time sources is the best group that agrees: the sliding window over the
    sorted offsets returns measurements that pairwise agree within the threshold; no group of two
    or more that agree is larger, and none of the same size has a smaller total round trip; it
    returns nothing exactly when no two measurements agree. *)
Theorem largest_agreeing_group ms threshold : near ms -> fast ms -> 0 <= threshold ->
  let r := consistentMeasurements ms threshold in
  r ⊆+ ms /\ agree threshold r /\ (r = [] \/ (2 <= length r)%nat)
  /\ (forall k, k ⊆+ ms -> agree threshold k -> (2 <= length k)%nat ->
        (length k <= length r)%nat /\ (length k = length r -> rtt_sum r <= rtt_sum k))
  /\ (r = [] <-> forall a b, [a; b] ⊆+ ms -> threshold < Z.abs (me_offset a - me_offset b)).
Proof.
  intros N FA T r. destruct (agreeing_group ms threshold N FA T) as (SUB & AG & TWO & OPT). fold r in SUB, AG, TWO, OPT.
  split_and!; [done|done|done|done|]. split.
  - intros E a b P. destruct (Z.lt_ge_cases threshold (Z.abs (me_offset a - me_offset b))); [done|exfalso].
    destruct (OPT [a; b] P) as [L _]; [|done|rewrite E in L; cbn in L; lia].
    intros x y X Y. apply list_elem_of_In in X as [<-|[<-|[]]], Y as [<-|[<-|[]]]; lia.
  - intros F. destruct TWO as [E|TWO]; [done|exfalso]. destruct r as [|a [|b l]] eqn:R; cbn in TWO; try lia.
    specialize (F a b). assert ([a; b] ⊆+ ms) as S by (etrans; [apply (submseteq_app [a; b] [a; b] [] l); [done|apply submseteq_nil_l]|done]).
    specialize (F S). specialize (AG a b ltac:(left) ltac:(right; left)). lia.
Qed.

Lemma filter_everything {A} (P : A -> Prop) `{forall x, Decision (P x)} l : Forall P l -> filter P l = l.
Proof. induction 1; [done|]. rewrite filter_cons_True by done. by f_equal. Qed.

Lemma filter_nothing {A} (P : A -> Prop) `{forall x, Decision (P x)} l : Forall (fun x => ~ P x) l -> filter P l = [].
Proof. induction 1; [done|]. by rewrite filter_cons_False. Qed.

(** Two parts of a list that together are longer than it share an element. *)
Lemma majority_meets {A} `{EqDecision A} (r h l : list A) : r ⊆+ l -> h ⊆+ l -> (length l < length r + length h)%nat ->
  exists x, x ∈ r /\ x ∈ h.
Proof.
  intros (r' & P)%submseteq_Permutation (h' & Q)%submseteq_Permutation LT.
  destruct (decide (Exists (fun x => x ∈ r) h)) as [X|NX].
  { apply Exists_exists in X as (x & H & R). by exists x. }
  exfalso. apply Forall_Exists_neg in NX. pose proof (Permutation_length P) as LP. rewrite length_app in LP.
  rewrite P in Q. apply (filter_Permutation (fun x => x ∉ r)), Permutation_length in Q.
  rewrite !filter_app, (filter_everything _ h) in Q by done.
  rewrite (filter_nothing _ r) in Q by (apply Forall_forall; intros x X NX'; by apply NX'). cbn in Q. rewrite length_app in Q.
  pose proof (length_filter (fun x => x ∉ r) r'). lia.
Qed.

Lemma select_primary ms threshold : consistentMeasurements ms threshold <> [] ->
  exists primary backup, select ms threshold = Some (primary, backup) /\ primary ∈ consistentMeasurements ms threshold.
Proof.
  intros NE. unfold select. pose proof (merge_sort_Permutation by_rtt (consistentMeasurements ms threshold)) as P.
  destruct (merge_sort by_rtt _) as [|primary rest]; [by apply Permutation_nil_l in P|].
  exists primary. eexists. split; [done|]. rewrite <- P. left.
Qed.

(** An honest majority keeps the clock: when more than half of the measurements, and at least
    two, are within [e] of the true offset, and the threshold is at least twice [e], a source is
    selected, and its offset is within the threshold and [e] of the true one, whatever the other
    sources answer. *)
Lemma honest_majority_bounds_offset ms threshold h theta e : near ms -> fast ms -> 0 <= e -> 2 * e <= threshold ->
  h ⊆+ ms -> Forall (fun m => Z.abs (me_offset m - theta) <= e) h -> (2 <= length h)%nat -> (length ms < 2 * length h)%nat ->
  exists primary backup, select ms threshold = Some (primary, backup) /\ primary ∈ ms
    /\ Z.abs (me_offset primary - theta) <= threshold + e.
Proof.
  intros N FA E TH SUB HON TWO MAJ. rewrite Forall_forall in HON.
  destruct (agreeing_group ms threshold N FA ltac:(lia)) as (RSUB & RAG & _ & OPT).
  assert (agree threshold h) as AG by (intros a b A B; specialize (HON a A) as HA; specialize (HON b B); lia).
  destruct (OPT h SUB AG TWO) as [LE _].
  destruct (majority_meets _ _ _ RSUB SUB ltac:(lia)) as (x & XR & XH).
  destruct (select_primary ms threshold) as (primary & backup & S & IN).
  { intros Z. by rewrite Z in XR; apply list_elem_of_In in XR. }
  exists primary, backup. split_and!; [done|by eapply elem_of_submseteq|].
  specialize (RAG _ _ IN XR). specialize (HON x XH). lia.
Qed.

(** ** The order of the answers *)

Lemma ordered_by_antisym f ms a b : NoDup (map me_source ms) -> a ∈ ms -> b ∈ ms -> ordered_by f a b -> ordered_by f b a -> a = b.
Proof.
  intros ND A B [L|[E S]] [L'|[E' S']]; try lia. assert (me_source a = me_source b) as Q by by apply (anti_symm String.le).
  apply list_elem_of_lookup in A as [i A], B as [j B].
  assert (i = j) as ->; [|congruence]. eapply (NoDup_lookup (map me_source ms)); [done|by rewrite list_lookup_fmap, A|].
  rewrite list_lookup_fmap, B. cbn. by rewrite Q.
Qed.

Lemma merge_sort_order_irrelevant f ms ms' : NoDup (map me_source ms) -> ms ≡ₚ ms' ->
  merge_sort (ordered_by f) ms = merge_sort (ordered_by f) ms'.
Proof.
  intros ND P. apply (StronglySorted_unique_strong (ordered_by f)).
  - intros a b A B. rewrite merge_sort_Permutation in A, B. rewrite <- P in B. by apply (ordered_by_antisym f ms).
  - apply merge_sort_sorted.
  - apply merge_sort_sorted.
  - by rewrite !merge_sort_Permutation.
Qed.

(** The choice does not depend on the order in which the sources answer. *)
Lemma selection_order_irrelevant ms ms' threshold : NoDup (map me_source ms) -> ms ≡ₚ ms' ->
  select ms threshold = select ms' threshold.
Proof.
  intros ND P. unfold select, consistentMeasurements. by rewrite (Permutation_length P), (merge_sort_order_irrelevant me_offset ms ms').
Qed.

(** ** Measurements of a source *)

Lemma median_between lo hi values : - 4611686018427387904 < lo -> hi < 4611686018427387904 -> values <> [] ->
  Forall (fun v => lo <= v <= hi) values -> lo <= medianDuration values <= hi.
Proof.
  intros LO HI NE F. unfold medianDuration. pose proof (merge_sort_Permutation Z.le values) as P.
  assert (StronglySorted Z.le (merge_sort Z.le values)) as SO by apply (StronglySorted_merge_sort Z.le).
  set (l := merge_sort Z.le values) in *. clearbody l. rewrite <- P in F.
  assert (0 < length l)%nat as LEN by (rewrite (Permutation_length P); destruct values; cbn; [done|lia]).
  pose proof (Nat.div_lt (length l) 2 LEN ltac:(lia)) as HALF.
  assert (forall i, (i < length l)%nat -> exists v, l !! i = Some v /\ lo <= v <= hi) as AT.
  { intros i [v L]%lookup_lt_is_Some. exists v. split; [done|]. apply (Forall_lookup_1 _ _ _ _ F L). }
  destruct (AT _ HALF) as (m & M & RM). rewrite M. cbn [from_option id]. destruct (Nat.eqb_spec (length l mod 2) 1) as [|EV]; [done|].
  pose proof (Nat.div_mod (length l) 2 ltac:(lia)). pose proof (Nat.mod_upper_bound (length l) 2 ltac:(lia)).
  destruct (AT (length l / 2 - 1)%nat ltac:(lia)) as (k & K & RK). rewrite K. cbn [from_option id].
  assert (k <= m) by (eapply (StronglySorted_lookup Z.le); [done|done|done|lia]).
  rewrite (i64_small (m - k)) by (unfold in_i64, min_int64, max_int64; lia).
  rewrite Z.quot_div_nonneg by lia. pose proof (Z.div_mod (m - k) 2 ltac:(lia)). pose proof (Z.mod_pos_bound (m - k) 2 ltac:(lia)).
  rewrite i64_small by (unfold in_i64, min_int64, max_int64; lia). lia.
Qed.

(** The samples that a measurement is made of. *)
Definition samples_of (c : Config) (answers : list (option Sample)) : list Sample :=
  omap (query c) (take (Z.to_nat (cf_SamplesPerSource c)) answers).

Lemma query_ok c answer sm : query c answer = Some sm ->
  answer = Some sm /\ Z.abs (sm_Offset sm) <= cf_MaxAcceptedOffset c /\ 0 <= sm_RootDispersion sm <= cf_MaxRootDispersion c.
Proof.
  unfold query. intros E. destruct answer as [sm'|]; [|done]. branch E. injection E as ->. props. split_and!; [done|lia|lia|lia].
Qed.

Lemma samples_of_query c answers sm : sm ∈ samples_of c answers ->
  Some sm ∈ answers /\ Z.abs (sm_Offset sm) <= cf_MaxAcceptedOffset c.
Proof.
  unfold samples_of. intros (answer & IN & Q)%list_elem_of_omap. apply query_ok in Q as (-> & ? & _). split; [|done].
  eapply elem_of_sublist; [done|apply sublist_take].
Qed.

(** A measurement lies where its samples lie. *)
Lemma measureSource_between c source answers m lo hi : measureSource c source answers = Some m ->
  - 4611686018427387904 < lo -> hi < 4611686018427387904 ->
  (forall sm, sm ∈ samples_of c answers -> lo <= sm_Offset sm <= hi) ->
  me_source m = source /\ lo <= me_offset m <= hi.
Proof.
  unfold measureSource. fold (samples_of c answers). intros E LO HI B. destruct (Z.ltb_spec (Z.of_nat (length (samples_of c answers))) (Z.quot (cf_SamplesPerSource c) 2 + 1)); [done|].
  destruct (samples_of c answers) as [|first rest] eqn:S; [done|]. injection E as <-. cbn [me_source me_offset]. split; [done|].
  apply median_between; [done|done|done|]. apply (Forall_fmap sm_Offset (fun v => lo <= v <= hi) (first :: rest)), Forall_forall. intros sm IN. by apply B.
Qed.

Lemma measureSource_rtt c source answers m hi : measureSource c source answers = Some m -> hi < 4611686018427387904 ->
  (forall sm, sm ∈ samples_of c answers -> 0 <= sm_RTT sm <= hi) -> 0 <= me_rtt m <= hi.
Proof.
  unfold measureSource. fold (samples_of c answers). intros E HI B. destruct (Z.ltb_spec (Z.of_nat (length (samples_of c answers))) (Z.quot (cf_SamplesPerSource c) 2 + 1)); [done|].
  destruct (samples_of c answers) as [|first rest] eqn:S; [done|]. injection E as <-. cbn [me_rtt].
  apply median_between; [lia|done|done|]. apply (Forall_fmap sm_RTT (fun v => 0 <= v <= hi) (first :: rest)), Forall_forall. intros sm IN. by apply B.
Qed.

Lemma measureSource_accepted c source answers m : measureSource c source answers = Some m ->
  cf_MaxAcceptedOffset c < 4611686018427387904 -> me_source m = source /\ Z.abs (me_offset m) <= cf_MaxAcceptedOffset c.
Proof.
  intros E B. assert (me_source m = source /\ - cf_MaxAcceptedOffset c <= me_offset m <= cf_MaxAcceptedOffset c) as [? ?]; [|split; [done|lia]].
  eapply measureSource_between; [done|lia|lia|]. intros sm [_ A]%samples_of_query. lia.
Qed.
