(* ===== verification/TimeService.v ===== *)
(** * The time service (internal/timekeeper/service.go, second half)

    Selections, refreshes, reconfigurations and readings of the clock as steps
    that interleave: each critical section of the code is a step. What the
    sources answer is part of a step. *)

From S2P Require Import Prelude GoText TimeClock Ntp TimeSync.
From stdpp Require Import sorting.

Open Scope string_scope.
Open Scope list_scope.
Open Scope Z_scope.
Open Scope go_scope.

(** ** State *)

Record Status := {
  ts_Primary : string; ts_Backup : string; ts_ActiveSource : string; ts_Synchronized : bool; ts_Syncing : bool;
  ts_LocalFallback : bool; ts_Offset : Duration; ts_RTT : Duration; ts_Stratum : Z; ts_LastSuccess : Reading;
  ts_LastAttempt : Reading; ts_ConsecutiveFailures : Z; ts_TotalFailures : Z; ts_LastError : string }.

(** Where a call of [ReselectNow] or [SyncNow] is: it has begun, it has noted
    its attempt, [SyncNow] has read the status, it was not allowed to install
    its result, or it has its answer. *)
#[warnings="-register-all"]
Inductive phase :=
| Begun | Attempted | Known (primary backup : string) (previousOffset : Duration) (previouslySynced : bool)
| Superseded | Finished (answer : option SyncErr).

(** The operation in progress, with the configuration and the generation it
    has begun with. *)
Record Operation := { op_select : bool; op_config : Config; op_generation : Z; op_phase : phase }.

(** [sv_waiting]: a reconfiguration waits for the operation in progress. *)
Record Service := {
  sv_config : Config; sv_generation : Z; sv_clock : DisciplinedClock; sv_status : Status;
  sv_operation : option Operation; sv_waiting : bool }.

Definition initial_status : Status :=
  {| ts_Primary := ""; ts_Backup := ""; ts_ActiveSource := ""; ts_Synchronized := false; ts_Syncing := false;
     ts_LocalFallback := true; ts_Offset := 0; ts_RTT := 0; ts_Stratum := 0; ts_LastSuccess := zero_reading;
     ts_LastAttempt := zero_reading; ts_ConsecutiveFailures := 0; ts_TotalFailures := 0; ts_LastError := "" |}.

Definition NewService (config : Config) (clock : DisciplinedClock) : result string Service :=
  match normalizeConfig config with
  | Err e => Err e
  | Ok normalized => Ok {| sv_config := normalized; sv_generation := 1; sv_clock := clock; sv_status := initial_status;
                           sv_operation := None; sv_waiting := false |}
  end.

Definition with_status (s : Service) (st : Status) : Service :=
  {| sv_config := sv_config s; sv_generation := sv_generation s; sv_clock := sv_clock s; sv_status := st;
     sv_operation := sv_operation s; sv_waiting := sv_waiting s |}.
Definition with_clock (s : Service) (c : DisciplinedClock) : Service :=
  {| sv_config := sv_config s; sv_generation := sv_generation s; sv_clock := c; sv_status := sv_status s;
     sv_operation := sv_operation s; sv_waiting := sv_waiting s |}.
Definition with_operation (s : Service) (op : option Operation) : Service :=
  {| sv_config := sv_config s; sv_generation := sv_generation s; sv_clock := sv_clock s; sv_status := sv_status s;
     sv_operation := op; sv_waiting := sv_waiting s |}.
Definition with_waiting (s : Service) (w : bool) : Service :=
  {| sv_config := sv_config s; sv_generation := sv_generation s; sv_clock := sv_clock s; sv_status := sv_status s;
     sv_operation := sv_operation s; sv_waiting := w |}.
Definition in_phase (s : Service) (op : Operation) (p : phase) : Service :=
  with_operation s (Some {| op_select := op_select op; op_config := op_config op; op_generation := op_generation op; op_phase := p |}).

Definition set_syncing (st : Status) (b : bool) : Status :=
  {| ts_Primary := ts_Primary st; ts_Backup := ts_Backup st; ts_ActiveSource := ts_ActiveSource st;
     ts_Synchronized := ts_Synchronized st; ts_Syncing := b; ts_LocalFallback := ts_LocalFallback st;
     ts_Offset := ts_Offset st; ts_RTT := ts_RTT st; ts_Stratum := ts_Stratum st; ts_LastSuccess := ts_LastSuccess st;
     ts_LastAttempt := ts_LastAttempt st; ts_ConsecutiveFailures := ts_ConsecutiveFailures st;
     ts_TotalFailures := ts_TotalFailures st; ts_LastError := ts_LastError st |}.

(** ** Critical sections *)

(** [beginSync]; [None] when an operation is in progress. *)
Definition beginSync (select : bool) (s : Service) : option Service :=
  match sv_operation s with
  | Some _ => None
  | None =>
      Some (with_operation (with_status s (set_syncing (sv_status s) true))
              (Some {| op_select := select; op_config := sv_config s; op_generation := sv_generation s; op_phase := Begun |}))
  end.

(** [endSync]; a reconfiguration that waits for the operation goes on. *)
Definition endSync (s : Service) : Service :=
  with_waiting (with_operation (with_status s (set_syncing (sv_status s) false)) None) false.

Definition markAttempt (now : Reading) (s : Service) : Service :=
  let st := sv_status s in
  with_status s {|
     ts_Primary := ts_Primary st; ts_Backup := ts_Backup st; ts_ActiveSource := ts_ActiveSource st;
     ts_Synchronized := ts_Synchronized st; ts_Syncing := ts_Syncing st; ts_LocalFallback := ts_LocalFallback st;
     ts_Offset := ts_Offset st; ts_RTT := ts_RTT st; ts_Stratum := ts_Stratum st; ts_LastSuccess := ts_LastSuccess st;
     ts_LastAttempt := now; ts_ConsecutiveFailures := ts_ConsecutiveFailures st;
     ts_TotalFailures := ts_TotalFailures st; ts_LastError := ts_LastError st |}.

(** [publicTimeSyncError] of the errors that are recorded. *)
Definition publicTimeSyncError (err : SyncErr) : string :=
  match err with
  | ErrNoUsableSource => "no usable NTP source"
  | ErrDisabled => "time synchronization is disabled"
  | ErrConfigurationChanged => "time synchronization configuration changed"
  | ErrSyncInProgress => "time synchronization already in progress"
  | ErrServiceRunning => "time synchronization failed"
  end.

(** Whether the result was installed. *)
Definition markSuccess (now : Reading) (m : sourceMeasurement) (primary backup : string) (generation : Z) (s : Service)
    : Service * bool :=
  return (s, false) when negb (cf_Enabled (sv_config s)) || negb (sv_generation s =? generation) ;;
  let st := sv_status s in
  (with_status (with_clock s (SetOffset (me_offset m) (sv_clock s)))
     {| ts_Primary := primary; ts_Backup := backup; ts_ActiveSource := me_source m; ts_Synchronized := true;
        ts_Syncing := ts_Syncing st; ts_LocalFallback := false; ts_Offset := me_offset m; ts_RTT := me_rtt m;
        ts_Stratum := me_stratum m; ts_LastSuccess := now; ts_LastAttempt := ts_LastAttempt st;
        ts_ConsecutiveFailures := 0; ts_TotalFailures := ts_TotalFailures st; ts_LastError := "" |}, true).

Definition markFailure (err : SyncErr) (generation : Z) (s : Service) : Service * SyncErr :=
  return (s, ErrConfigurationChanged) when negb (sv_generation s =? generation) ;;
  return (s, ErrDisabled) when negb (cf_Enabled (sv_config s)) ;;
  let st := sv_status s in
  (with_status (with_clock s (SetOffset 0 (sv_clock s)))
     {| ts_Primary := ts_Primary st; ts_Backup := ts_Backup st; ts_ActiveSource := ""; ts_Synchronized := false;
        ts_Syncing := ts_Syncing st; ts_LocalFallback := true; ts_Offset := 0; ts_RTT := 0; ts_Stratum := 0;
        ts_LastSuccess := ts_LastSuccess st; ts_LastAttempt := ts_LastAttempt st;
        ts_ConsecutiveFailures := u64 (ts_ConsecutiveFailures st + 1); ts_TotalFailures := u64 (ts_TotalFailures st + 1);
        ts_LastError := publicTimeSyncError err |}, err).

(** [SyncNow] when the sources disagree: the clock keeps its offset. *)
Definition markDisagreement (err : SyncErr) (generation : Z) (s : Service) : Service :=
  return s when negb ((sv_generation s =? generation) && cf_Enabled (sv_config s)) ;;
  let st := sv_status s in
  with_status s {|
     ts_Primary := ts_Primary st; ts_Backup := ts_Backup st; ts_ActiveSource := ts_ActiveSource st;
     ts_Synchronized := ts_Synchronized st; ts_Syncing := ts_Syncing st; ts_LocalFallback := ts_LocalFallback st;
     ts_Offset := ts_Offset st; ts_RTT := ts_RTT st; ts_Stratum := ts_Stratum st; ts_LastSuccess := ts_LastSuccess st;
     ts_LastAttempt := ts_LastAttempt st; ts_ConsecutiveFailures := ts_ConsecutiveFailures st;
     ts_TotalFailures := u64 (ts_TotalFailures st + 1); ts_LastError := publicTimeSyncError err |}.

Definition operationStateError (generation : Z) (s : Service) : SyncErr :=
  return ErrConfigurationChanged when negb (sv_generation s =? generation) ;;
  return ErrDisabled when negb (cf_Enabled (sv_config s)) ;;
  ErrConfigurationChanged.

Definition resetToLocalLocked (s : Service) : Service :=
  let st := sv_status s in
  with_status (with_clock s (ResetToSource (sv_clock s)))
    {| ts_Primary := ""; ts_Backup := ""; ts_ActiveSource := ""; ts_Synchronized := false; ts_Syncing := ts_Syncing st;
       ts_LocalFallback := true; ts_Offset := 0; ts_RTT := 0; ts_Stratum := 0; ts_LastSuccess := ts_LastSuccess st;
       ts_LastAttempt := ts_LastAttempt st; ts_ConsecutiveFailures := ts_ConsecutiveFailures st;
       ts_TotalFailures := ts_TotalFailures st; ts_LastError := "" |}.

Definition next_generation (g : Z) : Z := let g := u64 (g + 1) in if g =? 0 then 1 else g.

(** [Reconfigure] under its locks, up to the wait for the operation that it
    has cancelled. *)
Definition Reconfigure (normalized : Config) (s : Service) : Service :=
  let materialChanged := selectionMaterialChanged (sv_config s) normalized in
  let s := {| sv_config := normalized; sv_generation := sv_generation s; sv_clock := sv_clock s;
              sv_status := sv_status s; sv_operation := sv_operation s; sv_waiting := sv_waiting s |} in
  return s when negb materialChanged ;;
  let s := {| sv_config := sv_config s; sv_generation := next_generation (sv_generation s); sv_clock := sv_clock s;
              sv_status := sv_status s; sv_operation := sv_operation s; sv_waiting := sv_waiting s |} in
  with_waiting (resetToLocalLocked s) (match sv_operation s with Some _ => true | None => false end).

(** ** Operations *)

(** The measurements of [ReselectNow], in the order of the sources. *)
Definition measure (c : Config) (answers : string -> list (option Sample)) : list sourceMeasurement :=
  omap (fun source => measureSource c source (answers source)) (cf_Sources c).

(** How [ReselectNow] ends, given its measurements in the order of arrival. *)
Definition finish_select (now : Reading) (ms : list sourceMeasurement) (op : Operation) (s : Service) : Service :=
  match select ms (cf_ConsistencyThreshold (op_config op)) with
  | None => let '(s, err) := markFailure ErrNoUsableSource (op_generation op) s in in_phase s op (Finished (Some err))
  | Some (primary, backup) =>
      match markSuccess now primary (me_source primary) backup (op_generation op) s with
      | (s, true) => in_phase s op (Finished None)
      | (s, false) => in_phase s op Superseded
      end
  end.

(** The sources that [SyncNow] asks, and the measurements of their answers. *)
Definition sync_sources (primary backup : string) : list string :=
  if negb (String.eqb backup "") && negb (String.eqb backup primary) then [primary; backup] else [primary].

Definition sync_measurements (c : Config) (sources : list string) (answer : string -> option Sample) : list sourceMeasurement :=
  omap (fun source =>
    (fun sample => {| me_source := source; me_offset := sm_Offset sample; me_rtt := sm_RTT sample; me_stratum := sm_Stratum sample |})
      <$> query c (answer source)) sources.

(** How [SyncNow] ends. *)
Definition finish_sync (now : Reading) (answer : string -> option Sample) (primary backup : string)
    (previousOffset : Duration) (previouslySynced : bool) (op : Operation) (s : Service) : Service :=
  let fail s := let '(s, err) := markFailure ErrNoUsableSource (op_generation op) s in in_phase s op (Finished (Some err)) in
  return fail s when String.eqb primary "" ;;
  match sync_measurements (op_config op) (sync_sources primary backup) answer with
  | [] => fail s
  | measurements =>
      match chooseSyncMeasurement measurements previousOffset previouslySynced (cf_ConsistencyThreshold (op_config op)) with
      | Err err => in_phase (markDisagreement err (op_generation op) s) op (Finished (Some err))
      | Ok chosen =>
          match markSuccess now chosen primary backup (op_generation op) s with
          | (s, true) => in_phase s op (Finished None)
          | (s, false) => in_phase s op Superseded
          end
      end
  end.

(** ** Steps *)

#[warnings="-register-all"]
Inductive event := Began | Ended (answer : option SyncErr) | Reconfigured (material : bool) | Served (r : Reading).

(** Offsets up to a limit below 146 years are accepted. *)
Definition sane (c : Config) : Prop := cf_MaxAcceptedOffset c < 4611686018427387904.

Inductive step (s : Service) : list event -> Service -> Prop :=
| step_begin select s' : beginSync select s = Some s' -> step s [Began] s'
| step_busy select : beginSync select s = None -> step s [Ended (Some ErrSyncInProgress)] s
| step_attempt op now : sv_operation s = Some op -> op_phase op = Begun -> step s [] (in_phase (markAttempt now s) op Attempted)
| step_disabled op : sv_operation s = Some op -> op_phase op = Attempted -> cf_Enabled (op_config op) = false ->
    step s [] (in_phase s op (Finished (Some ErrDisabled)))
| step_select op now answers ms : sv_operation s = Some op -> op_phase op = Attempted -> cf_Enabled (op_config op) = true ->
    op_select op = true -> ms ≡ₚ measure (op_config op) answers -> step s [] (finish_select now ms op s)
| step_know op : sv_operation s = Some op -> op_phase op = Attempted -> cf_Enabled (op_config op) = true ->
    op_select op = false ->
    step s [] (in_phase s op (Known (ts_Primary (sv_status s)) (ts_Backup (sv_status s)) (ts_Offset (sv_status s)) (ts_Synchronized (sv_status s))))
| step_sync op now answer p b o y : sv_operation s = Some op -> op_phase op = Known p b o y ->
    step s [] (finish_sync now answer p b o y op s)
| step_superseded op : sv_operation s = Some op -> op_phase op = Superseded ->
    step s [] (in_phase s op (Finished (Some (operationStateError (op_generation op) s))))
| step_end op answer : sv_operation s = Some op -> op_phase op = Finished answer -> step s [Ended answer] (endSync s)
| step_reconfigure c n : sv_waiting s = false -> normalizeConfig c = Ok n -> sane n ->
    step s [Reconfigured (selectionMaterialChanged (sv_config s) n)] (Reconfigure n s)
| step_read elapsed source c r : clock_Now elapsed source (sv_clock s) = (c, r) -> step s [Served r] (with_clock s c).

Inductive run (s : Service) : list event -> Service -> Prop :=
| run_nil : run s [] s
| run_snoc o s1 o' s2 : run s o s1 -> step s1 o' s2 -> run s (o ++ o') s2.

(** ** Configurations *)

Lemma distinct_sources_spec sources : forall seen,
  NoDup (distinct_sources seen sources)
  /\ Forall (fun x => x <> "" /\ x ∉ seen) (distinct_sources seen sources).
Proof.
  induction sources as [|source sources IH]; intros seen; cbn [distinct_sources]; [repeat constructor|].
  destruct (String.eqb_spec (TrimSpace source) ""); cbn [orb]; [apply IH|].
  case_bool_decide as IN; [apply IH|]. destruct (IH ({[TrimSpace source]} ∪ seen)) as [ND F]. split.
  - constructor; [|done]. intros X. rewrite Forall_forall in F. destruct (F _ X) as [_ NI]. set_solver.
  - constructor; [done|]. eapply Forall_impl; [done|]. cbn. set_solver.
Qed.

Record wf_config (c : Config) : Prop := {
  wc_sources : NoDup (cf_Sources c) /\ Forall (fun x => x <> "") (cf_Sources c);
  wc_limit : 0 <= cf_MaxAcceptedOffset c;
  wc_threshold : 0 <= cf_ConsistencyThreshold c }.

Lemma normalizeConfig_wf c n : normalizeConfig c = Ok n -> wf_config n.
Proof.
  unfold normalizeConfig. intros E. destruct (distinct_sources_spec (cf_Sources c) ∅) as [ND F].
  assert (Forall (fun x => x <> "") (distinct_sources ∅ (cf_Sources c))) as NE by (eapply Forall_impl; [done|]; cbn; naive_solver).
  match type of E with (if ?b then Err _ else _) = _ => destruct b eqn:B; [done|] end. cbn in B. props.
  branch E; injection E as <-; (constructor; cbn; [done|lia|lia]).
Qed.

(** Settings that select sources. *)
Definition same_selection (a b : Config) : Prop :=
  cf_Enabled a = cf_Enabled b /\ cf_Sources a = cf_Sources b /\ cf_MaxAcceptedOffset a = cf_MaxAcceptedOffset b
  /\ cf_ConsistencyThreshold a = cf_ConsistencyThreshold b.

Lemma selection_unchanged a b : selectionMaterialChanged a b = false -> same_selection a b.
Proof.
  unfold selectionMaterialChanged. intros E. props. 
  match goal with H : Bool.eqb _ _ = true |- _ => apply Bool.eqb_prop in H end. done.
Qed.

Lemma next_generation_ne g : 1 <= g < two64 -> next_generation g <> g /\ 1 <= next_generation g < two64.
Proof.
  unfold next_generation. intros R. pose proof (u64_range (g + 1)) as U. destruct (Z.eqb_spec (u64 (g + 1)) 0) as [E|E].
  - unfold u64 in E. split; [|unfold two64; lia]. intros <-. by cbv in E.
  - split; [|lia]. intros X. unfold u64 in X. destruct (Z.eq_dec g (two64 - 1)) as [->|].
    + by cbv in X.
    + rewrite Z.mod_small in X by lia. lia.
Qed.

(** ** The invariant *)

Definition listed (c : Config) (source : string) : Prop := source = "" \/ source ∈ cf_Sources c.

(** What the status says is so. *)
Record truthful (c : Config) (clock : DisciplinedClock) (st : Status) : Prop := {
  tr_offset : ts_Offset st = dc_offset clock;
  tr_fallback : ts_LocalFallback st = negb (ts_Synchronized st);
  tr_synced : ts_Synchronized st = true ->
    cf_Enabled c = true /\ ts_ActiveSource st ∈ cf_Sources c /\ Z.abs (ts_Offset st) <= cf_MaxAcceptedOffset c;
  tr_local : ts_Synchronized st = false -> ts_ActiveSource st = "" /\ ts_Offset st = 0;
  tr_selected : listed c (ts_Primary st) /\ listed c (ts_Backup st) }.

(** The operation in progress has the present generation and settings, unless
    it is being waited for. *)
Definition current (s : Service) (op : Operation) : Prop :=
  if sv_waiting s then op_generation op <> sv_generation s
  else op_generation op = sv_generation s /\ same_selection (op_config op) (sv_config s).

Definition phase_ok (s : Service) (generation : Z) (p : phase) : Prop :=
  match p with
  | Known primary backup _ _ => generation = sv_generation s -> listed (sv_config s) primary /\ listed (sv_config s) backup
  | _ => True
  end.

Record service_ok (s : Service) : Prop := {
  so_config : wf_config (sv_config s) /\ sane (sv_config s);
  so_generation : 1 <= sv_generation s < two64;
  so_status : truthful (sv_config s) (sv_clock s) (sv_status s);
  so_syncing : ts_Syncing (sv_status s) = match sv_operation s with Some _ => true | None => false end;
  so_waiting : sv_operation s = None -> sv_waiting s = false;
  so_operation : forall op, sv_operation s = Some op ->
    wf_config (op_config op) /\ sane (op_config op) /\ current s op /\ phase_ok s (op_generation op) (op_phase op) }.

Lemma same_selection_refl c : same_selection c c.
Proof. done. Qed.

Lemma listed_same a b x : same_selection a b -> listed a x -> listed b x.
Proof. intros (_ & E & _) [->|I]; [by left|right]. by rewrite <- E. Qed.

Lemma truthful_same a b clock st : same_selection a b -> truthful a clock st -> truthful b clock st.
Proof.
  intros SS [O F SY L [P B]]. pose proof SS as (E1 & E2 & E3 & _). constructor; try done.
  - rewrite <- E1, <- E2, <- E3. done.
  - split; by eapply listed_same.
Qed.

(** The settings an operation works with are those of the service while it may install its result. *)
Lemma current_same s op : service_ok s -> sv_operation s = Some op -> op_generation op = sv_generation s ->
  same_selection (op_config op) (sv_config s).
Proof.
  intros SO OP G. destruct (so_operation _ SO op OP) as (_ & _ & C & _). unfold current in C. destruct (sv_waiting s); [done|apply C].
Qed.

Lemma in_phase_ok s op p : service_ok s -> sv_operation s = Some op -> phase_ok s (op_generation op) p -> service_ok (in_phase s op p).
Proof.
  intros [CF G ST SY W OK] OP PO. destruct (OK op OP) as (WF & SA & C & _). rewrite OP in SY.
  constructor; cbn; try done. intros op' [= <-]. by split_and!.
Qed.

(** Changes of the status and the clock that keep the rest. *)
Lemma restated s s' : service_ok s -> sv_config s' = sv_config s -> sv_generation s' = sv_generation s ->
  sv_operation s' = sv_operation s -> sv_waiting s' = sv_waiting s -> ts_Syncing (sv_status s') = ts_Syncing (sv_status s) ->
  truthful (sv_config s) (sv_clock s') (sv_status s') -> service_ok s'.
Proof.
  intros [CF G ST SY W OK] EC EG EO EW ES T. constructor; rewrite ?EC, ?EG, ?EO, ?EW, ?ES; try done.
  intros op OP. destruct (OK op OP) as (WF & SA & C & P). unfold current, phase_ok in *. by rewrite EC, EG, EW.
Qed.

Lemma markAttempt_ok now s : service_ok s -> service_ok (markAttempt now s).
Proof. intros SO. apply (restated s); first [done | by destruct (so_status _ SO)]. Qed.

Lemma markFailure_ok err g s s' e : service_ok s -> markFailure err g s = (s', e) ->
  service_ok s' /\ sv_operation s' = sv_operation s.
Proof.
  unfold markFailure. intros SO E. branch E; injection E as <- <-; [done|done|]. split; [|done]. apply (restated s); first [done | destruct (so_status _ SO) as [O F SY L P]; by constructor].
Qed.

Lemma markDisagreement_ok err g s : service_ok s -> service_ok (markDisagreement err g s) /\ sv_operation (markDisagreement err g s) = sv_operation s.
Proof.
  unfold markDisagreement. intros SO. destruct (negb _); [done|]. split; [|done]. apply (restated s); first [done | by destruct (so_status _ SO)].
Qed.

Lemma markSuccess_ok now m primary backup g s s' b : service_ok s -> markSuccess now m primary backup g s = (s', b) ->
  (sv_generation s = g -> me_source m ∈ cf_Sources (sv_config s) /\ Z.abs (me_offset m) <= cf_MaxAcceptedOffset (sv_config s)
     /\ listed (sv_config s) primary /\ listed (sv_config s) backup) ->
  service_ok s' /\ sv_operation s' = sv_operation s.
Proof.
  unfold markSuccess. intros SO E M. branch E; injection E as <- <-; [done|]. split; [|done]. props.
  destruct (M ltac:(done)) as (A & B & C & D). by apply (restated s).
Qed.

Lemma select_measured c answers ms threshold primary backup : wf_config c -> sane c -> ms ≡ₚ measure c answers ->
  select ms threshold = Some (primary, backup) ->
  me_source primary ∈ cf_Sources c /\ Z.abs (me_offset primary) <= cf_MaxAcceptedOffset c /\ listed c backup.
Proof.
  intros WF SA P S.
  assert (forall m, m ∈ consistentMeasurements ms threshold -> me_source m ∈ cf_Sources c /\ Z.abs (me_offset m) <= cf_MaxAcceptedOffset c) as M.
  { intros m IN. assert (m ∈ measure c answers) as MM.
    { rewrite <- P. eapply elem_of_submseteq; [done|]. apply consistent_submseteq. }
    apply list_elem_of_omap in MM as (source & SI & ME). apply measureSource_accepted in ME as [-> ?]; done. }
  unfold select in S. pose proof (merge_sort_Permutation by_rtt (consistentMeasurements ms threshold)) as PE.
  destruct (merge_sort by_rtt _) as [|m rest]; [done|]. injection S as -> <-.
  destruct (M primary) as [A B]; [rewrite <- PE; left|]. split_and!; [done|done|].
  destruct rest as [|m' rest]; [by left|right]. apply M. rewrite <- PE. right. left.
Qed.

Lemma sync_measured c sources answer m : m ∈ sync_measurements c sources answer ->
  me_source m ∈ sources /\ Z.abs (me_offset m) <= cf_MaxAcceptedOffset c.
Proof.
  unfold sync_measurements. intros (source & SI & E)%list_elem_of_omap. destruct (query c (answer source)) as [sm|] eqn:Q; [|done].
  apply query_ok in Q as (_ & B & _). injection E as <-. done.
Qed.

Lemma chosen_in ms o y threshold m : chooseSyncMeasurement ms o y threshold = Ok m -> m ∈ ms.
Proof.
  unfold chooseSyncMeasurement. intros E. destruct ms as [|a [|b ms]]; [done| |].
  - branch E. injection E as ->. left.
  - pose proof (merge_sort_Permutation by_rtt (consistentMeasurements (a :: b :: ms) threshold)) as PE.
    destruct (merge_sort by_rtt _) as [|c rest]; [done|]. injection E as ->.
    eapply elem_of_submseteq; [|apply consistent_submseteq]. rewrite <- PE. left.
Qed.

Lemma sync_sources_listed c primary backup x : primary <> "" -> listed c primary -> listed c backup ->
  x ∈ sync_sources primary backup -> x ∈ cf_Sources c.
Proof.
  unfold sync_sources. intros NE [?|P] B; [done|]. destruct (_ && _) eqn:E.
  - props. destruct B as [->|B]; [done|]. intros X. apply list_elem_of_In in X as [<-|[<-|[]]]; done.
  - intros X. apply list_elem_of_In in X as [<-|[]]; done.
Qed.

(** The end of an operation, from its parts. *)
Lemma finish_select_ok now ms answers op s : service_ok s -> sv_operation s = Some op ->
  ms ≡ₚ measure (op_config op) answers -> service_ok (finish_select now ms op s).
Proof.
  intros SO OP P. destruct (so_operation _ SO op OP) as (WF & SA & _ & _). unfold finish_select. destruct (select ms _) as [[primary backup]|] eqn:S.
  - destruct (select_measured _ _ _ _ _ _ WF SA P S) as (A & B & C).
    destruct (markSuccess _ _ _ _ _ _) as [s' b] eqn:M. apply markSuccess_ok in M as [SO' OP']; [|done|].
    + destruct b; apply in_phase_ok; try done; by rewrite OP'.
    + intros G. pose proof (current_same s op SO OP ltac:(done)) as SS. pose proof SS as (_ & E & E' & _).
      rewrite <- E, <- E'. split_and!; [done|done|right; by rewrite <- E|by eapply listed_same].
  - destruct (markFailure _ _ _) as [s' e] eqn:M. apply markFailure_ok in M as [SO' OP']; [|done].
    apply in_phase_ok; [done|by rewrite OP'|done].
Qed.

Lemma finish_sync_ok now answer primary backup o y op s : service_ok s -> sv_operation s = Some op ->
  op_phase op = Known primary backup o y -> service_ok (finish_sync now answer primary backup o y op s).
Proof.
  intros SO OP PH. unfold finish_sync.
  assert (forall err, service_ok (let '(s, err) := markFailure err (op_generation op) s in in_phase s op (Finished (Some err)))) as FAIL.
  { intros err. destruct (markFailure _ _ _) as [s' e] eqn:M. apply markFailure_ok in M as [SO' OP']; [|done].
    apply in_phase_ok; [done|by rewrite OP'|done]. }
  destruct (String.eqb_spec primary "") as [|NE]; [apply FAIL|].
  destruct (sync_measurements _ _ _) as [|m0 ms] eqn:MS; [apply FAIL|].
  destruct (chooseSyncMeasurement _ _ _ _) as [chosen|err] eqn:CH.
  - apply chosen_in in CH. rewrite <- MS in CH. apply sync_measured in CH as [CS CB].
    destruct (markSuccess _ _ _ _ _ _) as [s' b] eqn:M. apply markSuccess_ok in M as [SO' OP']; [|done|].
    + destruct b; apply in_phase_ok; try done; by rewrite OP'.
    + intros G. pose proof (current_same s op SO OP ltac:(done)) as (_ & E & E' & _).
      destruct (so_operation _ SO op OP) as (_ & _ & _ & PO). unfold phase_ok in PO. rewrite PH in PO. destruct (PO ltac:(done)) as [LP LB].
      rewrite <- E'. split_and!; [by eapply sync_sources_listed|done|done|done].
  - destruct (markDisagreement_ok err (op_generation op) s SO) as [SO' OP']. apply in_phase_ok; [done|by rewrite OP'|done].
Qed.

Lemma Reconfigure_ok n s : service_ok s -> sv_waiting s = false -> wf_config n -> sane n -> service_ok (Reconfigure n s).
Proof.
  intros SO W WF SA. unfold Reconfigure. destruct (selectionMaterialChanged (sv_config s) n) eqn:MC; cbn [negb].
  - destruct (next_generation_ne _ (so_generation _ SO)) as [NE R]. constructor; cbn; try done.
    + constructor; cbn; try done. split; by left.
    + by destruct SO.
    + by intros ->.
    + intros op OP. rewrite OP. destruct (so_operation _ SO op OP) as (WO & SO' & C & PO). unfold current, phase_ok in *. cbn.
      rewrite W in C. destruct C as [G _]. rewrite G. split_and!; [done|done|done|]. by destruct (op_phase op).
  - pose proof (selection_unchanged _ _ MC) as SS. constructor; cbn; try done.
    + apply SO.
    + eapply truthful_same; [done|apply SO].
    + apply SO.
    + intros op OP. destruct (so_operation _ SO op OP) as (WO & SO' & C & PO). unfold current, phase_ok in *. cbn. rewrite W in *.
      destruct C as [G S1]. split_and!; [done|done|done| |].
      * destruct S1 as (? & ? & ? & ?), SS as (? & ? & ? & ?). split_and!; etrans; done.
      * destruct (op_phase op); try done. intros X. destruct (PO X). split; by eapply listed_same.
Qed.

Lemma service_step_ok s o s' : service_ok s -> step s o s' -> service_ok s'.
Proof.
  intros SO ST. destruct ST as [sel s' E|sel E|op now OP PH|op OP PH D|op now answers ms OP PH EN SE P|op OP PH EN SE
    |op now answer p b oo y OP PH|op OP PH|op answer OP PH|c n W N SA|elapsed source c r E].
  - unfold beginSync in E. destruct (sv_operation s) eqn:OP; [done|]. injection E as <-. pose proof (so_waiting _ SO OP) as W.
    destruct SO as [CF G T SY _ _]. constructor; cbn; try done; [by destruct T|]. intros op [= <-]. cbn. destruct CF.
    split_and!; try done. unfold current. cbn. by rewrite W.
  - done.
  - apply in_phase_ok; [by apply markAttempt_ok|done|done].
  - by apply in_phase_ok.
  - by eapply finish_select_ok.
  - apply in_phase_ok; [done|done|]. intros _. apply SO.
  - by apply finish_sync_ok.
  - by apply in_phase_ok.
  - destruct SO as [CF G T SY W OK]. constructor; cbn; try done. by destruct T.
  - by apply Reconfigure_ok; eauto using normalizeConfig_wf.
  - apply (restated s); try done. pose proof (so_status _ SO) as [O F SY L P]. constructor; try done. cbn. rewrite O.
    unfold clock_Now in E. by injection E as <- _.
Qed.

Lemma service_run_ok s o s' : service_ok s -> run s o s' -> service_ok s'.
Proof. intros SO R. induction R; [done|]. by eapply service_step_ok; [apply IHR|]. Qed.

(** A service that was started, with an accepted configuration and a clock
    without a correction. *)
Definition started (config : Config) (clock : DisciplinedClock) (s : Service) : Prop :=
  NewService config clock = Ok s /\ sane (sv_config s) /\ dc_offset clock = 0.

Lemma started_ok config clock s : started config clock s -> service_ok s.
Proof.
  intros (E & SA & Z). unfold NewService in E. destruct (normalizeConfig config) as [n|] eqn:N; [|done]. injection E as <-.
  cbn in *. constructor; cbn; try done; [split; [by eapply normalizeConfig_wf|done]|]. constructor; cbn; try done. split; by left.
Qed.

(** ** Properties *)

(** C28. The status tells the truth: at every moment of every interleaving of selections, refreshes,
    reconfigurations and readings, the offset it reports is the one the clock applies; it reports
    synchronization exactly when it does not report local fallback, and then synchronization is
    enabled, the active source is configured and the offset is within the accepted limit; otherwise
    no source is active and the clock is not corrected. *)
Theorem time_status_truthful config clock s0 o s : started config clock s0 -> run s0 o s ->
  let st := sv_status s in
  ts_Offset st = dc_offset (sv_clock s) /\ ts_LocalFallback st = negb (ts_Synchronized st)
  /\ (ts_Syncing st = true <-> sv_operation s <> None)
  /\ (if ts_Synchronized st
      then cf_Enabled (sv_config s) = true /\ ts_ActiveSource st ∈ cf_Sources (sv_config s)
           /\ Z.abs (dc_offset (sv_clock s)) <= cf_MaxAcceptedOffset (sv_config s)
      else ts_ActiveSource st = "" /\ dc_offset (sv_clock s) = 0).
Proof.
  intros S R st. pose proof (service_run_ok _ _ _ (started_ok _ _ _ S) R) as SO. destruct (so_status _ SO) as [O F SY L _].
  split_and!; [done|done| |].
  - unfold st. rewrite (so_syncing _ SO). by destruct (sv_operation s).
  - fold st in O, SY, L. rewrite <- O. destruct (ts_Synchronized st); [by apply SY|by apply L].
Qed.

(** A service that runs on the local clock, with no operation that may change that. *)
Definition quiesced (s : Service) : Prop :=
  ts_Synchronized (sv_status s) = false /\ forall op, sv_operation s = Some op -> op_generation op <> sv_generation s.

Lemma markSuccess_stale now m p b g s : sv_generation s <> g -> markSuccess now m p b g s = (s, false).
Proof. unfold markSuccess. intros NE. rewrite (proj2 (Z.eqb_neq _ _)) by done. by rewrite orb_true_r. Qed.

Lemma markFailure_stale err g s : sv_generation s <> g -> markFailure err g s = (s, ErrConfigurationChanged).
Proof. unfold markFailure. intros NE. by rewrite (proj2 (Z.eqb_neq _ _)) by done. Qed.

Lemma markDisagreement_stale err g s : sv_generation s <> g -> markDisagreement err g s = s.
Proof. unfold markDisagreement. intros NE. by rewrite (proj2 (Z.eqb_neq _ _)) by done. Qed.

Lemma in_phase_quiesced s op p : quiesced s -> sv_operation s = Some op -> quiesced (in_phase s op p).
Proof. intros [Q S] OP. split; [done|]. cbn. intros op' [= <-]. cbn. by apply S. Qed.

Lemma finish_stale s op : quiesced s -> sv_operation s = Some op ->
  (forall now ms, quiesced (finish_select now ms op s)) /\ (forall now answer p b o y, quiesced (finish_sync now answer p b o y op s)).
Proof.
  intros Q OP. assert (sv_generation s <> op_generation op) as NE by (intros X; by apply (proj2 Q op OP)).
  assert (forall p, quiesced (in_phase s op p)) as IP by (intros p; by apply in_phase_quiesced).
  split; intros; unfold finish_select, finish_sync;
    rewrite ?(markFailure_stale ErrNoUsableSource) by done; repeat (case_match; rewrite ?markSuccess_stale, ?markDisagreement_stale by done);
    simplify_eq; rewrite ?markSuccess_stale in * by done; simplify_eq; done.
Qed.

Lemma quiesced_step s o s' : service_ok s -> quiesced s -> step s o s' -> Began ∉ o -> quiesced s'.
Proof.
  intros SO Q ST NB. destruct ST as [sel s' E|sel E|op now OP PH|op OP PH D|op now answers ms OP PH EN SE P|op OP PH EN SE
    |op now answer p b oo y OP PH|op OP PH|op answer OP PH|c n W N SA|elapsed source c r E].
  - exfalso. apply NB. left.
  - done.
  - by apply (in_phase_quiesced (markAttempt now s)).
  - by apply in_phase_quiesced.
  - by apply finish_stale.
  - by apply in_phase_quiesced.
  - by apply finish_stale.
  - by apply in_phase_quiesced.
  - split; [apply Q|done].
  - unfold Reconfigure. destruct (negb _); [done|]. split; [done|]. cbn. intros op OP.
    destruct (so_operation _ SO op OP) as (_ & _ & C & _). unfold current in C. rewrite W in C. destruct C as [-> _].
    intros X. by apply (proj1 (next_generation_ne _ (so_generation _ SO))).
  - done.
Qed.


(** ** From the wire to the clock

    Every sample that the sources answer is one the NTP client has accepted. *)
Definition from_client (limits : clientLimits) (answers : string -> list (option Sample)) : Prop :=
  forall source sm, Some sm ∈ answers source -> exists x, replies_bytes x /\ Query limits source x = Ok sm.

(** A source whose clock is [theta] ahead of the local one: all its accepted
    samples come from honest exchanges, with round trips up to [rho]. *)
Definition honest_source (limits : clientLimits) (theta rho : Z) (answers : string -> list (option Sample)) (source : string) : Prop :=
  forall sm, Some sm ∈ answers source -> exists x base start r1 r2 r3 r4,
    honest_exchange x base start theta r1 r2 r3 r4 /\ Query limits source x = Ok sm /\ sm_RTT sm <= rho.

(** How far an accepted sample of an honest source can be off. *)
Definition sample_error (rho : Z) : Z := (rho + 4) / 2.

Lemma measured_rtt limits c answers m : from_client limits answers -> maxRTT (limits_of limits) <= 3600 * Second ->
  m ∈ measure c answers -> 0 <= me_rtt m <= maxRTT (limits_of limits).
Proof.
  intros FC MX (source & _ & E)%list_elem_of_omap. eapply measureSource_rtt; [done|unfold Second in *; lia|].
  intros sm [IN _]%samples_of_query. destruct (FC source sm IN) as (x & RB & Q).
  by destruct (ntp_sample_within_limits _ _ _ _ RB Q) as (_ & _ & R & _).
Qed.

Lemma measured_near limits c answers m : from_client limits answers -> sane c -> m ∈ measure c answers ->
  - 4611686018427387904 < me_offset m < 4611686018427387904.
Proof.
  intros _ SA (source & _ & E)%list_elem_of_omap. apply measureSource_accepted in E as [_ B]; [|done]. unfold sane in SA. lia.
Qed.

Lemma rtt_sum_bound l d : 0 <= d -> Forall (fun m => 0 <= me_rtt m <= d) l -> rtt_sum l <= Z.of_nat (length l) * d.
Proof. intros D F. unfold rtt_sum. induction F; cbn [foldr length]; [lia|]. rewrite Nat2Z.inj_succ. lia. Qed.

Lemma length_omap {A B} (f : A -> option B) l : (length (omap f l) <= length l)%nat.
Proof. induction l as [|x l IH]; cbn; [lia|]. destruct (f x); cbn; lia. Qed.

Lemma honest_offset limits theta rho c answers source m : honest_source limits theta rho answers source ->
  0 <= rho <= 3600 * Second -> measureSource c source (answers source) = Some m ->
  Z.abs theta <= 1073741824 * Second -> Z.abs (me_offset m - theta) <= sample_error rho.
Proof.
  unfold sample_error, Second. intros H P E TH. set (e := (rho + 4) / 2).
  pose proof (Z.div_mod (rho + 4) 2 ltac:(lia)). pose proof (Z.mod_pos_bound (rho + 4) 2 ltac:(lia)).
  assert (me_source m = source /\ theta - e <= me_offset m <= theta + e) as [_ B]; [|lia].
  eapply measureSource_between; [done|lia|lia|]. intros sm [IN _]%samples_of_query.
  destruct (H sm IN) as (x & base & start & r1 & r2 & r3 & r4 & HX & Q & RTT).
  destruct (ntp_offset_accurate _ _ _ _ _ _ _ _ _ _ _ HX Q) as [A _]. lia.
Qed.

