(* ===== verification/TimeExamples.v ===== *)
(** * Clocks, servers and runs of the time service

    Witnesses for the properties of the timekeeper, and runs that show where
    it does not do what its comments say. *)

From S2P Require Import Prelude GoText Sha256 TimeClock Ntp TimeSync TimeService.
From stdpp Require Import sorting.
From Stdlib Require Import Sorting.Sorted.

Open Scope string_scope.
Open Scope list_scope.
Open Scope Z_scope.

Definition Millisecond : Duration := 1000000.

(** The first of January 2026, and a system clock that shows it at its start. *)
Definition new_year : Time := 63902908800 * Second.
Definition now_at (ms : Z) : Reading := at_mono (new_year + ms * Millisecond) (ms * Millisecond).

(** Closed comparisons. *)
Ltac closed := vm_compute; repeat split; first [done | discriminate].
Ltac each := repeat (apply Forall_cons; split); try apply Forall_nil; closed.

(** ** The clock *)

Definition clock_ops : list clock_op :=
  [Read (now_at 1) (now_at 1); Correct (3 * Second); Read (now_at 5) (now_at 6); Correct (- Second);
   Read (now_at 9) (now_at 9); Correct 0; Read (now_at 5000) (now_at 5000)].

Lemma clock_never_backwards_witness : steady new_year clock_ops /\ modern clock_ops
  /\ StronglySorted not_earlier (snd (clock_run clock_ops NewDisciplinedClock)).
Proof.
  assert (steady new_year clock_ops) as S by (unfold steady, clock_ops; each).
  assert (modern clock_ops) as M by (unfold modern, clock_ops; each).
  split; [exact S|]. split; [exact M|]. destruct (clock_run clock_ops NewDisciplinedClock) as [c rs] eqn:E.
  exact (clock_never_backwards new_year clock_ops c rs S M E).
Defined.

(** Set back by a second and read every 600 milliseconds, the clock stays a
    second ahead; after a rest of more than a second it follows. *)
Definition ahead : DisciplinedClock := fst (clock_Now (now_at 0) (now_at 0) (SetOffset Second NewDisciplinedClock)).

Example correction_back_ignored_while_busy :
  map (fun r => wall r - new_year) (snd (clock_run
    (Correct 0 :: reads [now_at 600; now_at 1200; now_at 1800; now_at 2400]) ahead))
  = map (fun ms => ms * Millisecond) [1600; 2200; 2800; 3400]
  /\ map (fun r => wall r - new_year) (snd (clock_run (Correct 0 :: reads [now_at 600; now_at 1700]) ahead))
     = map (fun ms => ms * Millisecond) [1600; 1700].
Proof. by vm_compute. Qed.

(** When the operating system steps its wall clock back by an hour, the
    monotonic readings hide it and the served time goes back with it. *)
Definition stepped_back (ms : Z) : Reading := at_mono (new_year + ms * Millisecond - 3600 * Second) (ms * Millisecond).

Example wall_step_passes :
  map (fun r => wall r - new_year) (snd (clock_run [Read (now_at 1) (now_at 1); Read (now_at 2) (stepped_back 2)] NewDisciplinedClock))
  = [Millisecond; 2 * Millisecond - 3600 * Second].
Proof. by vm_compute. Qed.

(** ** Timestamps

    A server in the era that starts in February 2036 and a client before it. *)
Definition after_rollover : Reading := at_wall (64221600000 * Second + 123456789).
Definition before_rollover : Reading := at_wall (64221500000 * Second).

Lemma ntp_timestamp_round_trip_witness :
  let raw := be_bytes 8 (encodeNTPTimestamp after_rollover) in
  Z.abs (Unix after_rollover - Unix before_rollover) < 2147483648
  /\ Unix before_rollover + ntpEpochOffsetSeconds < ntpEraSeconds <= Unix after_rollover + ntpEpochOffsetSeconds
  /\ wall after_rollover - 1 <= wall (decodeNTPTimestamp (be_value raw) before_rollover) <= wall after_rollover.
Proof.
  cbn zeta. assert (Z.abs (Unix after_rollover - Unix before_rollover) < 2147483648) as H by by vm_compute.
  split; [exact H|]. split; [closed|]. apply (ntp_timestamp_round_trip after_rollover before_rollover H).
Defined.

(** ** Choosing among sources *)

Definition source (name : string) (offset rtt : Z) : sourceMeasurement :=
  {| me_source := name; me_offset := offset * Millisecond; me_rtt := rtt * Millisecond; me_stratum := 2 |}.

Definition five : list sourceMeasurement :=
  [source "a" 40 9; source "b" 0 20; source "c" 290 1; source "d" 10 30; source "e" 300 2].

Example five_selected : select five (50 * Millisecond) = Some (source "a" 40 9, "b").
Proof. by vm_compute. Qed.

Lemma largest_agreeing_group_witness :
  near five /\ fast five
  /\ consistentMeasurements five (50 * Millisecond) = [source "b" 0 20; source "d" 10 30; source "a" 40 9]
  /\ forall k, k ⊆+ five -> agree (50 * Millisecond) k -> (2 <= length k)%nat -> (length k <= 3)%nat.
Proof.
  assert (near five) as N by (unfold near, five; each).
  assert (fast five) as F by (split; [unfold five; each|closed]).
  split; [done|]. split; [done|]. split; [by vm_compute|].
  destruct (largest_agreeing_group five (50 * Millisecond) N F) as (_ & _ & _ & O & _); [done|].
  intros k S A T. by apply (O k S A T).
Defined.

(** A configuration needs one source to be accepted, but no selection from one
    source ever succeeds. *)
Lemma single_source_never_selected ms threshold : (length ms <= 1)%nat -> select ms threshold = None.
Proof.
  intros L. unfold select, consistentMeasurements. by rewrite (proj2 (Nat.ltb_lt (length ms) 2)) by lia.
Qed.

Definition single : Config :=
  {| cf_Enabled := true; cf_Sources := ["time.example"]; cf_ReselectInterval := Hour; cf_SyncInterval := Minute;
     cf_QueryTimeout := 0; cf_MaxAcceptedOffset := 0; cf_MaxRootDispersion := 0; cf_SamplesPerSource := 1;
     cf_ConsistencyThreshold := 50 * Millisecond |}.

Example single_source_accepted_in_vain :
  (exists s, NewService single NewDisciplinedClock = Ok s)
  /\ forall answers, select (measure single answers) (cf_ConsistencyThreshold single) = None.
Proof.
  split; [by eexists|]. intros answers. apply single_source_never_selected. 
  apply (length_omap (fun source => measureSource single source (answers source)) (cf_Sources single)).
Qed.

(** ** A service with three sources

    Two servers two seconds ahead of the local clock, and one that says four. *)

Definition triple : Config :=
  {| cf_Enabled := true; cf_Sources := ["alpha"; "beta"; "gamma"]; cf_ReselectInterval := Hour; cf_SyncInterval := Minute;
     cf_QueryTimeout := 2 * Second; cf_MaxAcceptedOffset := 5 * Minute; cf_MaxRootDispersion := 2 * Second;
     cf_SamplesPerSource := 1; cf_ConsistencyThreshold := 250 * Millisecond |}.

Definition unlimited : clientLimits :=
  {| timeout := 0; maxRTT := 0; maxOffset := 0; maxRootDelay := 0; maxRootDispersion := 0; maxRootDistance := 0 |}.

(** The reply of a server of stratum 1 that gets a request [r2] after the new
    year by the local clock, replies at [r3], and is [theta] ahead. *)
Definition reply (r2 r3 theta : Z) (request : list Z) : list Z :=
  [36; 1] ++ repeat 0 22 ++ map (fun b => b mod 256) (slice 40 48 request)
  ++ be_bytes 8 (encodeNTPTimestamp (at_wall (r2 + new_year + theta)))
  ++ be_bytes 8 (encodeNTPTimestamp (at_wall (r3 + new_year + theta))).

Definition exchange (r2 r3 r4 theta : Z) : Exchange :=
  {| xc_dial := fun _ => None; xc_deadline := None; xc_t1 := at_mono (0 + new_year) (0 + 0);
     xc_write := fun request => (Z.of_nat (length request), None);
     xc_read := fun request => (reply r2 r3 theta request, None);
     xc_t4 := at_mono (r4 + new_year) (r4 + 0); xc_context := None |}.

Definition ahead_of (source : string) : Z := if String.eqb source "gamma" then 4 * Second else 2 * Second.
Definition exchange_with (source : string) : Exchange :=
  exchange (10 * Millisecond) (11 * Millisecond) (30 * Millisecond) (ahead_of source).
Definition accepted (r : result NtpErr Sample) : option Sample := match r with Ok sm => Some sm | Err _ => None end.
Definition answers (source : string) : list (option Sample) := [accepted (Query unlimited source (exchange_with source))].

Lemma answers_query source sm : Some sm ∈ answers source -> Query unlimited source (exchange_with source) = Ok sm.
Proof.
  unfold answers. intros E%list_elem_of_singleton. destruct (Query unlimited source (exchange_with source)); cbn in E; [by injection E as ->|done].
Qed.

Lemma exchange_bytes r2 r3 r4 theta : replies_bytes (exchange r2 r3 r4 theta).
Proof.
  intros request. cbn [exchange xc_read fst]. unfold reply. rewrite !Forall_app. split_and!; try apply be_bytes_range.
  - repeat constructor; lia.
  - apply Forall_forall. intros b IN%list_elem_of_In%repeat_spec. lia.
  - apply Forall_map, Forall_forall. intros b _. cbn. pose proof (Z.mod_pos_bound b 256 ltac:(lia)). lia.
Qed.

Lemma answers_from_client : from_client unlimited answers.
Proof. intros source sm IN. exists (exchange_with source). split.
  - unfold exchange_with. exact (exchange_bytes _ _ _ _).
  - exact (answers_query source sm IN). Qed.

Lemma two_seconds_ahead : honest_exchange (exchange_with "alpha") new_year 0 (2 * Second) 0 (10 * Millisecond) (11 * Millisecond) (30 * Millisecond).
Proof. split; try by vm_compute. Qed.

Lemma honest_answers source : source = "alpha" \/ source = "beta" ->
  honest_source unlimited (2 * Second) (50 * Millisecond) answers source.
Proof.
  intros C sm Q%answers_query. exists (exchange_with source), new_year, 0, 0, (10 * Millisecond), (11 * Millisecond), (30 * Millisecond).
  split_and!; [destruct C as [-> | ->]; exact two_seconds_ahead|exact Q|].
  assert (match Query unlimited source (exchange_with source) with Ok sm' => sm_RTT sm' <=? 50 * Millisecond | Err _ => true end = true) as B
    by (destruct C as [-> | ->]; vm_compute; reflexivity).
  rewrite Q in B. exact (proj1 (Z.leb_le _ _) B).
Qed.

(** A selection that has noted its attempt. *)
Definition fresh : Service :=
  {| sv_config := triple; sv_generation := 1; sv_clock := NewDisciplinedClock; sv_status := initial_status;
     sv_operation := None; sv_waiting := false |}.
Definition selection (p : phase) : Operation := {| op_select := true; op_config := triple; op_generation := 1; op_phase := p |}.
Definition begun : Service := default fresh (beginSync true fresh).
Definition selecting : Service := in_phase (markAttempt (now_at 0) begun) (selection Begun) Attempted.
Definition measured : list sourceMeasurement := measure triple answers.

Lemma fresh_started : started triple NewDisciplinedClock fresh.
Proof. split_and!; by vm_compute. Qed.

Lemma selecting_run : run fresh [Began] selecting.
Proof.
  apply (run_snoc fresh [Began] begun [] selecting).
  - apply (run_snoc fresh [] fresh [Began] begun); [constructor|]. apply (step_begin fresh true begun). by vm_compute.
  - apply (step_attempt begun (selection Begun) (now_at 0)); by vm_compute.
Qed.


(** The offset it gets, and the fastest of the two that agree. *)
Definition synchronized : Service := finish_select (now_at 40) measured (selection Attempted) selecting.

Example selection_result :
  ts_Offset (sv_status synchronized) = 1995499999 /\ ts_ActiveSource (sv_status synchronized) = "alpha"
  /\ ts_Backup (sv_status synchronized) = "beta".
Proof. by vm_compute. Qed.

Lemma synchronized_run : run fresh [Began] synchronized.
Proof.
  apply (run_snoc fresh [Began] selecting [] synchronized selecting_run).
  apply (step_select selecting (selection Attempted) (now_at 40) answers measured); reflexivity.
Qed.

Lemma time_status_truthful_witness :
  ts_Synchronized (sv_status synchronized) = true
  /\ ts_Offset (sv_status synchronized) = dc_offset (sv_clock synchronized)
  /\ Z.abs (dc_offset (sv_clock synchronized)) <= cf_MaxAcceptedOffset (sv_config synchronized).
Proof.
  destruct (time_status_truthful triple NewDisciplinedClock fresh [Began] synchronized fresh_started synchronized_run) as (O & _ & _ & B).
  assert (ts_Synchronized (sv_status synchronized) = true) as Y by (vm_compute; reflexivity).
  rewrite Y in B. split; [exact Y|]. split; [exact O|]. exact (proj2 (proj2 B)).
Defined.

(** A reconfiguration while the selection measures: its result is superseded. *)
Definition others : Config :=
  {| cf_Enabled := true; cf_Sources := ["delta"; "epsilon"]; cf_ReselectInterval := Hour; cf_SyncInterval := Minute;
     cf_QueryTimeout := 2 * Second; cf_MaxAcceptedOffset := 5 * Minute; cf_MaxRootDispersion := 2 * Second;
     cf_SamplesPerSource := 1; cf_ConsistencyThreshold := 250 * Millisecond |}.
Definition reconfigured : Service := Reconfigure others selecting.
Definition superseded : Service := finish_select (now_at 40) measured (selection Attempted) reconfigured.

Lemma superseded_run : run reconfigured [Ended (Some ErrConfigurationChanged)]
  (endSync (in_phase superseded (selection Superseded) (Finished (Some ErrConfigurationChanged)))).
Proof.
  apply (run_snoc reconfigured [] (in_phase superseded (selection Superseded) (Finished (Some ErrConfigurationChanged)))
    [Ended (Some ErrConfigurationChanged)]).
  - apply (run_snoc reconfigured [] superseded []).
    + apply (run_snoc reconfigured [] reconfigured []); [constructor|].
      apply (step_select reconfigured (selection Attempted) (now_at 40) answers measured); reflexivity.
    + apply (step_superseded superseded (selection Superseded)); by vm_compute.
  - apply (step_end _ (selection (Finished (Some ErrConfigurationChanged)))); by vm_compute.
Qed.


(** ** Refreshes with one answer

    A refresh: it begins, notes its attempt, reads the status, asks, and ends. *)
Definition refresh (answer : string -> option Sample) (s : Service) : Service :=
  let op := {| op_select := false; op_config := sv_config s; op_generation := sv_generation s; op_phase := Begun |} in
  let s := markAttempt (now_at 60) (default s (beginSync false s)) in
  let st := sv_status s in
  endSync (finish_sync (now_at 60) answer (ts_Primary st) (ts_Backup st) (ts_Offset st) (ts_Synchronized st) op s).

Definition only (name : string) (offset : Duration) (source : string) : option Sample :=
  if String.eqb source name
  then Some {| sm_Source := name; sm_Offset := offset; sm_RTT := Millisecond; sm_Stratum := 1; sm_RootDelay := 0; sm_RootDispersion := 0 |}
  else None.

(** After a refresh that nobody answers, the selected sources are kept but the
    service is not synchronized, so that the next lone answer is taken at once,
    however far from what the sources agreed on. *)
Example lone_source_after_outage :
  let outage := refresh (fun _ => None) (endSync synchronized) in
  let lone := refresh (only "beta" (299 * Second)) outage in
  ts_Synchronized (sv_status outage) = false /\ ts_Primary (sv_status outage) = "alpha" /\ ts_Backup (sv_status outage) = "beta"
  /\ ts_Synchronized (sv_status lone) = true /\ ts_Offset (sv_status lone) = 299 * Second /\ ts_LastError (sv_status lone) = "".
Proof. by vm_compute. Qed.

(** Without an outage a lone answer may be off by the threshold from the last
    one, so that repeated lone answers move the clock as far as they like. *)
Example lone_source_walks :
  map (fun s => ts_Offset (sv_status s))
    [refresh (only "beta" (2200 * Millisecond)) (endSync synchronized);
     refresh (only "beta" (2400 * Millisecond)) (refresh (only "beta" (2200 * Millisecond)) (endSync synchronized));
     refresh (only "beta" (2600 * Millisecond)) (refresh (only "beta" (2400 * Millisecond))
       (refresh (only "beta" (2200 * Millisecond)) (endSync synchronized)));
     refresh (only "beta" (2600 * Millisecond)) (endSync synchronized)]
  = [2200 * Millisecond; 2400 * Millisecond; 2600 * Millisecond; 1995499999].
Proof. by vm_compute. Qed.
